(* ===== verification/_CoqProject ===== *)
-Q . S2P
Prelude.v
Maintenance.v
Messages.v
ClientSend.v
Client.v
ClientDispatch.v
ClientRun.v
ClientInventory.v
ClientEnroll.v
ClientPending.v
Paths.v
Exec.v
FsGuard.v
Remote.v
RemoteTree.v
Log.v
UnitContent.v
Repo.v
Reboot.v
Terminal.v
HostProg.v
Words.v
Pkg.v
PkgPacman.v
PkgPins.v
PkgApt.v
PkgDnf.v
PkgZypper.v
PkgFlatpak.v
PkgManagers.v
PkgBehaviour.v
User.v
UserOps.v
Json.v
Net.v
Firewall.v
FirewallNft.v
FirewallMap.v
FirewallOps.v
Wordlist.v
Encryption.v
EncryptionKeys.v
EncryptionSlots.v
Ini.v
Network.v
NetworkOps.v
NetworkCerts.v
HostCmd.v
Dns.v
DnsOps.v
NetConf.v
NetConfOps.v
NetConfNm.v
Service.v
ServiceOps.v
RepoMgr.v
RepoOps.v
RepoApt.v
Fs.v
FsReplace.v
FsRemove.v
FsOps.v
RemoteHttp.v
RemoteFetch.v
RemoteS3.v
RemoteSync.v
RemoteGit.v
Osquery.v
Desktop.v
CaTrust.v
Inspect.v
Antivirus.v
Crypto.v
Support.v
Cli.v
CliStore.v
CliSession.v
CliCommands.v
CliProtocol.v
