(* ===== verification/Prelude.v ===== *)
(** * Power Manage SDK: a verification library

    The repository is the Go SDK of a device-management system: the stream
    client an agent uses to talk to its gateway ([src/client.go]), the
    maintenance-window evaluator ([src/maintenance]), field sealing
    ([src/crypto]), a capability layer that runs privileged tools on Linux hosts
    ([src/sys], [src/pkg]), and the operator's client ([src/cmd/powermanage]).
    This library models the parts that carry the program's own logic as executable
    definitions and proves what makes them correct.  A byte string is a [list ascii] ([gostring]); Go's [int] is [Z] with
    its range written out where a value can leave it; a fallible function
    returns [result]; goroutines and channels are step relations.

    ** How the parts interact

    The client dispatches server frames to handlers of the agent; the agent calls the
    capability packages; every capability runs commands through the one Runner of
    [src/sys/exec], changes files through the manager of [src/sys/fs], and every
    destructive file operation passes the path guards of that package.  The pure core of
    the runner is in [Exec].  A capability is a [prog] of [HostProg]: sequential code
    between calls of the Runner, of [context], of the file manager, of package [os] and of
    the kernel, so that its theorems hold on every host or on a host with stated laws.  [FsReplace]
    closes the circle: the file manager, run over system calls, keeps the promise that
    [RepoOps] asks of the file calls of its host.

    ** Files

    A file holds one Module, or the few that are named with it.

    Foundations:
    - [Prelude]: strings of the Go standard library (prefixes, cutting, splitting,
      trimming, decimal numbers), the result type, tactics, the hint database [go].
    - [HostProg]: programs over a host, their runs, the calls they make, weakest
      preconditions on every host, with a ghost state and over histories.
    - [HostCmd]: commands that must succeed, and command lines whose options are the
      code's own.  [Words] (with [Runes]), [Json], [Ini], [Net]: words and fields, UTF-8 and case,
      encoding/json, line-oriented configuration files, addresses and prefixes.
    - [Paths]: Go's [path/filepath] on Unix; a path denotes a location.

    The agent's stream:
    - [Maintenance] ([maintenance/window.go]): an entry allows exactly the minutes of the
      slots its weekdays open on the circle of the week, also across midnight; union is
      disjunction; a valid window never locks a device out.
    - [Messages], [Client], [ClientDispatch] ([client.go]): dispatch never panics and does
      only what the frame justifies; a delivery gets a receipt iff the handler returned
      nil.  [ClientSend] ([send]): sends never overlap, an expired context frees its
      sender.  [ClientRun] ([Run]): receipts only after success over every interleaving,
      FIFO delivery, bounded queue.  [ClientInventory] (the inventory ticker of [Run]): its
      program refines the steps of the run, three attempts.  [ClientPending] (with
      [Requests]): answers carry the request's id, closing strands no waiter, and the
      race of [StartReceiver].  [ClientEnroll] (options, [RegisterAgent],
      [RenewCertificate]): which roots a client trusts; identities cross only verified TLS.
    - [Crypto] (with [Certs], [crypto]): open reverses seal, only sealed data opens; requests keep
      the key, and the CA that is kept descends from the enrolled one.
    - [Terminal] ([sys/terminal]): sessions as a step relation; descriptors are used under
      their lock, a session runs as its user and ends.

    Running and files:
    - [Exec] ([sys/exec]): what may be started and how, what the child's environment holds,
      what is captured, in which order signals are sent.
    - [FsGuard] ([sys/fs/protected.go], [validate.go]): the guards decide protection of
      locations.  [Fs] ([sys/fs]): the manager's methods on each backend.  [FsReplace]: a
      write is atomic at every crash point and whatever fails.  [FsRemove]: a recursive
      delete stays below the handles it opened on every host, and removes exactly its
      directory on a tree.  [FsOps]: command lines, modes and listings.
    - [Remote], [RemoteTree] ([sys/remote/paths.go], [wipe.go], [prune.go], [digest.go]):
      what can be written, wiped and pruned in any history of fetches and wipes.
    - [RemoteHttp], [RemoteFetch] ([http.go], [http_archive.go]): what is staged stays below
      the staging directory and within its bounds, a pinned file is put in place only with
      its checksum.  [RemoteS3], [RemoteSync] ([s3.go], [s3_prefix.go]):
      listing page by page ends, objects land below the destination.  [RemoteGit] (with
      [RemoteGitSync], [git.go], [vc_gogit.go]): what a reference means; a sync stays in its
      tree and puts back the untracked files it took aside, or reports what it did not.

    Capabilities ([src/sys], [src/pkg]):
    - [Log], [UnitContent], [Reboot]: grep patterns, the unit-file policy, the grace window.
    - [Service], [ServiceOps] (with [ServiceFiles]): the systemd manager runs the documented command
      on the named unit and answers what systemctl reported; the unit files are a map; only
      valid names reach systemctl.
    - [Repo], [RepoMgr], [RepoOps], [RepoApt]: repository files read back as configured;
      applying is confined, converges and is idempotent on all four backends.
    - [Pkg], [PkgPacman], [PkgPins], [PkgApt], [PkgDnf], [PkgZypper], [PkgFlatpak],
      [PkgManagers], [PkgBehaviour]: names are validated on the way to every package
      manager, outputs are parsed back, pins behave as a set where the file has a place.
    - [User], [UserOps]: accounts, groups, locking, sessions.
    - [Firewall], [FirewallNft], [FirewallMap], [FirewallOps]: three backends; nftables
      refines a map of rules, where nft takes the script of the rule.
    - [Wordlist], [Encryption], [EncryptionKeys], [EncryptionSlots] (with [EncryptionDetect]):
      key files are private and their removal is called for, LUKS calls refine a map of slots.
    - [Network], [NetworkOps], [NetworkCerts] (with [NetworkText]): WiFi profiles; secrets stay in
      private files next to the one they end in, certificates are never lost in a swap.  [Dns], [DnsOps] and [NetConf],
      [NetConfOps], [NetConfNm] (with [NetConfGet]): resolver and interface configuration.
    - [Osquery] (queries keep away from the tables with secrets), [Desktop] (sessions of
      users and commands run as them, with [Notify]), [CaTrust] (anchors, and what the system trusts, as
      maps on a host that may fail), [Inspect]
      (Modules [Inventory], [Smart], [TimeSync]), [Antivirus]: what the tools print is read
      back, failures are errors.
    - [Support]: Module [FakeRunner] ([exectest]), a scripted stream fires the callbacks of the
      real runner; Module [Validate] ([validate], [url.go], [logging]), messages of validation
      errors, endpoints.

    The operator client ([src/cmd/powermanage]):
    - [Cli], [CliStore] ([storage.go], [login]): credential files are private, replaced
      atomically and read back; what a sign-in makes of its answers.
    - [CliSession]: processes that share the session file and its lock, as a step relation: a
      refresh token is not given to the refresh RPC again after it was exchanged, as long as the
      server does not issue it again and no answer is lost; what a logout sends is recorded apart.  A process that is killed while
      it refreshes counts as a lost answer.  [CliCommands]: the body of every command, the
      sign-in included, as a program; [CliProtocol] proves that the commands, at any
      interleaving of their calls, refine that relation, and its Module [CliConfined] where
      their credentials go.

    ** Bounds and fuel

    Loops that skip ahead in a string carry the number of bytes to skip and are
    structural.  Trimming, field splitting and the search for words of [Osquery] take the
    length of the string as fuel: each round consumes a byte.  The parent walk of [FsGuard]
    takes the length of the path, and its out-of-fuel error is proved unreachable.  The
    recursive delete of [Fs] takes a depth; [FsRemove] proves the height of the tree enough.
    The reader of [Exec] follows a schedule; one longer than the number of lines is proved
    enough.  Byte counters of [Exec] wrap at 64 bits and the capture theorem asks for less
    output than that.  A listing of [RemoteSync] takes two pages more than the objects it
    may hold, which is proved enough when the server announces another page only with one that holds
    an object; a server that announces pages after empty ones is never left.  Numbers that are the code's own
    are kept: a hundred names for a temporary credential file, three attempts to send an
    inventory, the limits on bodies, entries and sizes.

    ** Parameters

    Go's parsers of URLs, PEM, X.509 and keys, hash functions and ciphers, the text of times
    and floats, [json.Marshal], the ProtoJSON codec, the readers of gzip, tar, zip and XML, the
    account database, the cloning library, the RPC stubs and the validator are arguments of the
    definitions that use them; a theorem that relies on them names what it relies on, and its
    witness has a function in their place.

    ** Not modelled

    Generated protobuf and RPC code ([src/gen]); the operating system and the tools that are
    run, which answer as the host of a theorem says; the transports below the HTTP client and
    the stream; the parsing of command lines by cobra, the HTTP server of the callback and the
    browser of a sign-in; log lines; [GetOwnership] and the files for systems other than Linux; the
    architecture tests and the test support ([archtest], [cryptotest],
    [test/protovalidatecoverage]). *)
From Stdlib Require Export Ascii ZArith Lia.
From stdpp Require Export base list strings gmap option.

#[export] Set Warnings "-clear-no-such-hyp".

Declare Scope go_scope.
Delimit Scope go_scope with go.
#[global] Open Scope go_scope.

(** ** Results: a Go [(value, error)] return *)

Inductive result (E A : Type) : Type :=
| Ok (a : A)
| Err (e : E).
Arguments Ok {E A} a.
Arguments Err {E A} e.

Definition result_bind {E A B} (r : result E A) (k : A -> result E B) : result E B :=
  match r with
  | Ok a => k a
  | Err e => Err e
  end.

(** [let? x := r in k] is Go's [x, err := r; if err != nil { return err }; k]. *)
Notation "'let?' x := r 'in' k" := (result_bind r (fun x => k))
  (at level 10, x pattern, r at level 100, k at level 200) : go_scope.

Definition is_ok {E A} (r : result E A) : bool :=
  match r with Ok _ => true | Err _ => false end.

#[export] Instance result_eq_dec {E A} `{EqDecision E, EqDecision A} :
  EqDecision (result E A).
Proof. solve_decision. Defined.

(** ** Byte strings: a Go [string] or [[]byte] is a list of 8-bit characters *)

Abbreviation gostring := (list ascii).

(** The bytes of a source literal. *)
Definition str (s : string) : gostring := String.list_ascii_of_string s.

(** Bytes that a literal cannot spell. *)
Definition NL : ascii := "010"%char.
Definition TAB : ascii := "009"%char.

Definition byte_val (c : ascii) : N := N_of_ascii c.
Definition in_range (lo hi c : ascii) : bool :=
  (byte_val lo <=? byte_val c)%N && (byte_val c <=? byte_val hi)%N.
Definition is_digit : ascii -> bool := in_range "0"%char "9"%char.
Definition is_lower : ascii -> bool := in_range "a"%char "z"%char.
Definition is_upper : ascii -> bool := in_range "A"%char "Z"%char.

(** [strings.HasPrefix]. *)
Fixpoint has_prefix (s p : gostring) {struct p} : bool :=
  match p, s with
  | [], _ => true
  | a :: p', b :: s' => bool_decide (a = b) && has_prefix s' p'
  | _ :: _, [] => false
  end.

(** [strings.HasSuffix]. *)
Definition has_suffix (s p : gostring) : bool := has_prefix (rev s) (rev p).

(** [strings.TrimPrefix] and [strings.TrimSuffix]. *)
Definition trim_prefix (s p : gostring) : gostring :=
  if has_prefix s p then drop (length p) s else s.
Definition trim_suffix (s p : gostring) : gostring :=
  if has_suffix s p then take (length s - length p) s else s.

(** [strings.IndexByte], [None] for -1. *)
Fixpoint index_byte (s : gostring) (c : ascii) : option nat :=
  match s with
  | [] => None
  | a :: s' => if bool_decide (a = c) then Some 0 else S <$> index_byte s' c
  end.

(** [strings.Cut] with a one-byte separator, [None] when it is absent. *)
Definition cut (s : gostring) (c : ascii) : option (gostring * gostring) :=
  match index_byte s c with
  | Some i => Some (take i s, drop (S i) s)
  | None => None
  end.

(** [strings.Contains]. *)
Fixpoint contains (s sub : gostring) : bool :=
  has_prefix s sub ||
  match s with
  | [] => false
  | _ :: s' => contains s' sub
  end.

(** [strings.ContainsAny] and [strings.ContainsRune] for ASCII sets. *)
Definition contains_any (s : gostring) (set : list ascii) : bool :=
  existsb (fun c => bool_decide (c ∈ set)) s.

(** [strings.Split] with a one-byte separator. *)
Fixpoint split_byte (s : gostring) (c : ascii) : list gostring :=
  match s with
  | [] => [[]]
  | a :: s' =>
      if bool_decide (a = c) then [] :: split_byte s' c
      else match split_byte s' c with
           | w :: ws => (a :: w) :: ws
           | [] => [[a]]
           end
  end.

(** [strings.Join] . *)
Fixpoint join (ws : list gostring) (sep : gostring) : gostring :=
  match ws with
  | [] => []
  | [w] => w
  | w :: ws' => w ++ sep ++ join ws' sep
  end.

(** [strings.TrimLeft]/[TrimRight]/[Trim] with an ASCII cut set. *)
Fixpoint trim_left_set (s : gostring) (set : list ascii) : gostring :=
  match s with
  | c :: s' => if bool_decide (c ∈ set) then trim_left_set s' set else s
  | [] => []
  end.
Definition trim_right_set (s : gostring) (set : list ascii) : gostring :=
  rev (trim_left_set (rev s) set).
Definition trim_set (s : gostring) (set : list ascii) : gostring :=
  trim_right_set (trim_left_set s set) set.

(** *** White space

    [unicode.IsSpace] holds for the runes below; the list has their UTF-8
    encodings.  A lead byte of an encoding is never a continuation byte, so
    scanning bytes for an encoding finds exactly the space runes. *)
Definition bytes (l : list nat) : gostring := ascii_of_nat <$> l.

Definition space_encodings : list gostring :=
  ((fun n => bytes [n]) <$> [9; 10; 11; 12; 13; 32]) ++
  [bytes [0xC2; 0x85]; bytes [0xC2; 0xA0]; bytes [0xE1; 0x9A; 0x80]] ++
  ((fun n => bytes [0xE2; 0x80; n]) <$> (seq 0x80 11 ++ [0xA8; 0xA9; 0xAF])) ++
  [bytes [0xE2; 0x81; 0x9F]; bytes [0xE3; 0x80; 0x80]].

(** What follows the first of [encs] that starts [s]. *)
Fixpoint strip_one (encs : list gostring) (s : gostring) : option gostring :=
  match encs with
  | [] => None
  | e :: encs' => if has_prefix s e then Some (drop (length e) s) else strip_one encs' s
  end.

(** Every encoding has a byte, so [length s] rounds strip all of them. *)
Fixpoint strip_all (fuel : nat) (encs : list gostring) (s : gostring) : gostring :=
  match fuel with
  | 0 => s
  | S fuel' => match strip_one encs s with
               | Some s' => strip_all fuel' encs s'
               | None => s
               end
  end.

Definition trim_left_space (s : gostring) : gostring :=
  strip_all (length s) space_encodings s.
Definition trim_right_space (s : gostring) : gostring :=
  rev (strip_all (length s) (rev (A:=ascii) <$> space_encodings) (rev s)).

(** [strings.TrimSpace]. *)
Definition trim_space (s : gostring) : gostring := trim_right_space (trim_left_space s).

(** [strings.Fields]: the maximal runs without a space rune. *)
Definition flush (cur : gostring) : list gostring :=
  match cur with [] => [] | _ => [cur] end.
Fixpoint fields_aux (fuel : nat) (s cur : gostring) : list gostring :=
  match fuel, s with
  | S fuel', c :: s' =>
      match strip_one space_encodings s with
      | Some rest => flush cur ++ fields_aux fuel' rest []
      | None => fields_aux fuel' s' (cur ++ [c])
      end
  | _, _ => flush cur
  end.
Definition fields (s : gostring) : list gostring := fields_aux (length s) s [].

(** *** Case mapping

    [strings.ToUpper]/[ToLower].  Two non-ASCII runes map to an ASCII letter in
    each direction and are listed; any other non-ASCII rune stays non-ASCII and
    is left as it is, because the callers compare the result with ASCII names. *)
Definition upper_byte (c : ascii) : ascii :=
  if is_lower c then ascii_of_nat (nat_of_ascii c - 32) else c.
Definition lower_byte (c : ascii) : ascii :=
  if is_upper c then ascii_of_nat (nat_of_ascii c + 32) else c.

Fixpoint to_upper (s : gostring) : gostring :=
  match s with
  | a :: ((b :: s') as t) =>
      if bool_decide ([a; b] = bytes [0xC4; 0xB1]) then "I"%char :: to_upper s'
      else if bool_decide ([a; b] = bytes [0xC5; 0xBF]) then "S"%char :: to_upper s'
      else upper_byte a :: to_upper t
  | a :: [] => [upper_byte a]
  | [] => []
  end.
Fixpoint to_lower (s : gostring) : gostring :=
  match s with
  | a :: ((b :: s') as t) =>
      if bool_decide ([a; b] = bytes [0xC4; 0xB0]) then "i"%char :: to_lower s'
      else match s' with
           | c :: s'' =>
               if bool_decide ([a; b; c] = bytes [0xE2; 0x84; 0xAA])
               then "k"%char :: to_lower s'' else lower_byte a :: to_lower t
           | [] => lower_byte a :: to_lower t
           end
  | a :: [] => [lower_byte a]
  | [] => []
  end.

(** *** Decimal numbers *)

Definition digit_byte (d : nat) : ascii := ascii_of_nat (48 + d).
Definition digit_val (c : ascii) : nat := nat_of_ascii c - 48.

(** [strconv.Itoa] on a length; [S n] rounds exhaust the digits of [n]. *)
Fixpoint itoa_aux (fuel n : nat) (acc : gostring) : gostring :=
  match fuel with
  | 0 => acc
  | S fuel' =>
      let acc' := digit_byte (n mod 10) :: acc in
      if n <? 10 then acc' else itoa_aux fuel' (n / 10) acc'
  end.
Definition itoa (n : nat) : gostring := itoa_aux (S n) n [].

(** The value of a run of digits. *)
Definition digits_val (s : gostring) : Z :=
  fold_left (fun acc c => (acc * 10 + Z.of_nat (digit_val c))%Z) s 0%Z.

Definition int_min : Z := -9223372036854775808.
Definition int_max : Z := 9223372036854775807.

(** [strconv.Atoi]: an optional sign and at least one digit, the value in the
    64-bit range. *)
Definition atoi (s : gostring) : option Z :=
  let '(neg, ds) :=
    match s with
    | c :: s' => if bool_decide (c = "-"%char) then (true, s')
                 else if bool_decide (c = "+"%char) then (false, s') else (false, s)
    | [] => (false, [])
    end in
  match ds with
  | [] => None
  | _ => if forallb is_digit ds then
           let v := if (neg : bool) then (- digits_val ds)%Z else digits_val ds in
           if ((int_min <=? v) && (v <=? int_max))%Z then Some v else None
         else None
  end.

#[global] Arguments Nat.div : simpl never.
#[global] Arguments Nat.modulo : simpl never.

(** ** Automation *)

Create HintDb go.

(** Case analysis on every [bool_decide], [if] and [match] of the context. *)
Ltac go_cases :=
  repeat (case_bool_decide || case_match || simplify_eq/=).

(** Turn boolean connectives into propositions. *)
Ltac go_bool :=
  repeat match goal with
  | H : _ && _ = true |- _ => apply andb_true_iff in H; destruct H
  | H : _ || _ = false |- _ => apply orb_false_iff in H; destruct H
  | H : negb _ = true |- _ => apply negb_true_iff in H
  | H : negb _ = false |- _ => apply negb_false_iff in H
  | H : bool_decide _ = true |- _ => apply bool_decide_eq_true in H
  | H : bool_decide _ = false |- _ => apply bool_decide_eq_false in H
  | H : (_ <=? _)%nat = true |- _ => apply Nat.leb_le in H
  | H : (_ <=? _)%nat = false |- _ => apply Nat.leb_gt in H
  | H : (_ <? _)%nat = true |- _ => apply Nat.ltb_lt in H
  | H : (_ <? _)%nat = false |- _ => apply Nat.ltb_ge in H
  | H : (_ <=? _)%Z = true |- _ => apply Z.leb_le in H
  | H : (_ <=? _)%Z = false |- _ => apply Z.leb_gt in H
  | H : (_ <? _)%Z = true |- _ => apply Z.ltb_lt in H
  | H : (_ <? _)%Z = false |- _ => apply Z.ltb_ge in H
  | H : (_ =? _)%N = true |- _ => apply N.eqb_eq in H
  | H : (_ =? _)%N = false |- _ => apply N.eqb_neq in H
  end.

Lemma ok_inj {E A} (a b : A) : @Ok E A a = Ok b -> a = b.
Proof. by intros [=]. Qed.

(** Peel the binds of a result that is known to be [Ok]. *)
Ltac inv_bind H :=
  repeat match type of H with
  | result_bind ?r _ = Ok _ =>
      let E := fresh "Hok" in destruct r eqn:E; cbn [result_bind] in H; [|discriminate H]
  | (if ?b then _ else _) = Ok _ =>
      let E := fresh "Hif" in destruct b eqn:E; try discriminate H
  | Ok _ = Ok _ => apply ok_inj in H
  end.

(** Decide a closed goal by evaluation. *)
Ltac by_eval := vm_compute; reflexivity.

(** Compare conjunctions under their first part. *)
Lemma and_iff_under (P Q R : Prop) : (P -> (Q <-> R)) -> (P /\ Q <-> P /\ R).
Proof. tauto. Qed.

(** ** Lemmas on byte strings *)

Lemma result_bind_ok {E A B} (r : result E A) (k : A -> result E B) b :
  result_bind r k = Ok b <-> exists a, r = Ok a /\ k a = Ok b.
Proof.
  destruct r; simpl; split; [eauto|intros (?&[= ->]&?); done|done|intros (?&?&?); done].
Qed.

Lemma result_seq_ok {E B} (r : result E unit) (k : result E B) b :
  result_bind r (fun _ => k) = Ok b <-> r = Ok tt /\ k = Ok b.
Proof. rewrite result_bind_ok. split; [intros ([] & ? & ?); done|intros [? ?]; by exists tt]. Qed.

Lemma has_prefix_spec s p : has_prefix s p = true <-> exists t, s = p ++ t.
Proof.
  revert s; induction p as [|a p IH]; intros s; simpl; [split; eauto|].
  destruct s as [|b s]; [split; [done|intros [t Ht]; discriminate]|].
  rewrite andb_true_iff, bool_decide_eq_true, IH. split.
  - intros [-> [t ->]]. by exists t.
  - intros [t [= -> ->]]. eauto.
Qed.

Lemma has_prefix_app p t : has_prefix (p ++ t) p = true.
Proof. apply has_prefix_spec; eauto. Qed.

Lemma has_suffix_spec s p : has_suffix s p = true <-> exists t, s = t ++ p.
Proof.
  unfold has_suffix. rewrite has_prefix_spec. split; intros [t H].
  - exists (rev t). by rewrite <- (rev_involutive s), H, rev_app_distr, rev_involutive.
  - exists (rev t). by rewrite H, rev_app_distr.
Qed.
Lemma has_prefix_trans s p q :
  has_prefix s p = true -> has_prefix p q = true -> has_prefix s q = true.
Proof.
  rewrite !has_prefix_spec. intros [t ->] [u ->]. exists (u ++ t). by rewrite app_assoc.
Qed.

Lemma index_byte_None s c : index_byte s c = None <-> c ∉ s.
Proof.
  induction s as [|a s IH]; simpl; [set_solver|].
  case_bool_decide; [set_solver|].
  rewrite fmap_None, IH. set_solver.
Qed.

Lemma index_byte_app a c t : c ∉ a -> index_byte (a ++ c :: t) c = Some (length a).
Proof.
  induction a as [|x a IH]; intros Hn; simpl; [by rewrite bool_decide_true|].
  rewrite bool_decide_false by set_solver. by rewrite IH by set_solver.
Qed.

Lemma index_byte_Some s c i :
  index_byte s c = Some i -> s = take i s ++ c :: drop (S i) s /\ c ∉ take i s.
Proof.
  revert i; induction s as [|a s IH]; intros i Hi; simpl in Hi; [done|].
  case_bool_decide as Ha; [simplify_eq/=; split; [done|set_solver]|].
  destruct (index_byte s c) as [j|] eqn:Ej; simplify_eq/=.
  destruct (IH j eq_refl) as [Heq Hn]. split; [by f_equal|set_solver].
Qed.

Lemma cut_app a c t : c ∉ a -> cut (a ++ c :: t) c = Some (a, t).
Proof.
  intros Hn. unfold cut. rewrite index_byte_app by done.
  by rewrite take_app_length, drop_app_ge, Nat.sub_succ_l, Nat.sub_diag by lia.
Qed.

Lemma cut_Some s c a t : cut s c = Some (a, t) -> s = a ++ c :: t /\ c ∉ a.
Proof.
  unfold cut. destruct (index_byte s c) as [i|] eqn:Hi; [|done].
  intros [= <- <-]. by apply index_byte_Some.
Qed.

Lemma cut_None s c : cut s c = None <-> c ∉ s.
Proof. unfold cut. rewrite <-index_byte_None. by destruct (index_byte s c). Qed.

(** *** Digits *)

Lemma nat_of_digit_byte d : d < 10 -> nat_of_ascii (digit_byte d) = 48 + d.
Proof. intros. unfold digit_byte. apply nat_ascii_embedding. lia. Qed.

Lemma digit_val_byte d : d < 10 -> digit_val (digit_byte d) = d.
Proof. intros. unfold digit_val. rewrite nat_of_digit_byte by done. lia. Qed.

Lemma is_digit_byte d : d < 10 -> is_digit (digit_byte d) = true.
Proof. intros. do 10 (destruct d as [|d]; [reflexivity|]). lia. Qed.

Lemma byte_val_lt c : (byte_val c < 256)%N.
Proof. apply N_ascii_bounded. Qed.

Lemma is_digit_range c :
  is_digit c = true <-> 48 <= nat_of_ascii c <= 57.
Proof.
  unfold is_digit, in_range, byte_val. rewrite andb_true_iff, !N.leb_le.
  unfold nat_of_ascii. change (N_of_ascii "0") with 48%N. change (N_of_ascii "9") with 57%N. lia.
Qed.

Lemma is_digit_val c : is_digit c = true -> digit_val c < 10.
Proof. rewrite is_digit_range. unfold digit_val. lia. Qed.

Lemma digit_byte_val c : is_digit c = true -> digit_byte (digit_val c) = c.
Proof.
  intros H%is_digit_range. unfold digit_byte, digit_val.
  replace (48 + (nat_of_ascii c - 48)) with (nat_of_ascii c) by lia.
  apply ascii_nat_embedding.
Qed.

Lemma itoa_aux_S fuel n acc :
  itoa_aux (S fuel) n acc =
  if n <? 10 then digit_byte (n mod 10) :: acc
  else itoa_aux fuel (n / 10) (digit_byte (n mod 10) :: acc).
Proof. reflexivity. Qed.

Lemma mod_10_lt n : n mod 10 < 10.
Proof. apply Nat.mod_upper_bound. lia. Qed.

#[local] Opaque Nat.modulo Nat.div Nat.ltb digit_byte is_digit.

Lemma itoa_aux_acc fuel n acc : itoa_aux fuel n acc = itoa_aux fuel n [] ++ acc.
Proof.
  revert n acc; induction fuel as [|f IH]; intros n acc; [done|].
  rewrite !itoa_aux_S. destruct (n <? 10); [done|].
  rewrite IH, (IH _ [_]), <-app_assoc. done.
Qed.

Lemma itoa_aux_digits fuel n : forallb is_digit (itoa_aux fuel n []) = true.
Proof.
  revert n; induction fuel as [|f IH]; intros n; [done|].
  rewrite itoa_aux_S. pose proof (is_digit_byte _ (mod_10_lt n)) as Hd.
  destruct (n <? 10); [simpl; by rewrite Hd|].
  rewrite itoa_aux_acc, forallb_app, IH. simpl. by rewrite Hd.
Qed.

Lemma itoa_digits n : forallb is_digit (itoa n) = true.
Proof. apply itoa_aux_digits. Qed.

Lemma digits_val_app a b :
  digits_val (a ++ b) =
  fold_left (fun acc c => (acc * 10 + Z.of_nat (digit_val c))%Z) b (digits_val a).
Proof. unfold digits_val. by rewrite fold_left_app. Qed.

Lemma itoa_aux_val fuel n : n < fuel -> digits_val (itoa_aux fuel n []) = Z.of_nat n.
Proof.
  revert n; induction fuel as [|f IH]; intros n Hn; [lia|].
  rewrite itoa_aux_S. pose proof (Nat.div_mod_eq n 10). pose proof (mod_10_lt n).
  destruct (n <? 10) eqn:Hlt; go_bool.
  - unfold digits_val; simpl. rewrite digit_val_byte by lia. rewrite Nat.mod_small by lia. lia.
  - rewrite itoa_aux_acc, digits_val_app. simpl.
    rewrite IH by (pose proof (Nat.div_lt n 10); lia).
    rewrite digit_val_byte by lia. lia.
Qed.

Lemma itoa_val n : digits_val (itoa n) = Z.of_nat n.
Proof. apply itoa_aux_val. lia. Qed.

Lemma itoa_inj m n : itoa m = itoa n -> m = n.
Proof. intros H%(f_equal digits_val). rewrite !itoa_val in H. lia. Qed.

Lemma itoa_nonempty n : itoa n <> [].
Proof.
  unfold itoa. rewrite itoa_aux_S. destruct (n <? 10); [done|].
  rewrite itoa_aux_acc. by destruct (itoa_aux n (n / 10) []).
Qed.

Lemma forallb_not_elem (p : ascii -> bool) s c : forallb p s = true -> p c = false -> c ∉ s.
Proof.
  intros Hs Hc Hin. apply list_elem_of_In in Hin. rewrite forallb_forall in Hs.
  specialize (Hs c Hin). congruence.
Qed.

(** *** Numbers survive trimming and parsing *)

(** No encoding of the list starts with a byte of the class [p]. *)
Definition starts_avoid (p : ascii -> bool) (encs : list gostring) : bool :=
  forallb (fun e => match e with b :: _ => negb (p b) | [] => false end) encs.

Lemma strip_one_avoid p encs c s :
  starts_avoid p encs = true -> p c = true -> strip_one encs (c :: s) = None.
Proof.
  intros He Hc. induction encs as [|e encs IH]; [done|]. simpl in He. go_bool.
  destruct e as [|b e]; [done|]. go_bool. simpl.
  rewrite bool_decide_false by congruence. simpl. by apply IH.
Qed.

Lemma strip_one_nil p encs : starts_avoid p encs = true -> strip_one encs [] = None.
Proof.
  intros He. induction encs as [|e encs IH]; [done|]. simpl in He. go_bool. destruct e; [done|].
  simpl. by apply IH.
Qed.

(** Nothing is stripped from a string that is empty or starts in the class. *)
Lemma strip_all_avoid fuel p encs s :
  starts_avoid p encs = true -> match s with [] => True | c :: _ => p c = true end ->
  strip_all fuel encs s = s.
Proof.
  intros He Hs. destruct fuel; [done|]. simpl. destruct s as [|c s].
  - by rewrite (strip_one_nil p).
  - by rewrite (strip_one_avoid p).
Qed.

Lemma strip_one_suffix encs s t : strip_one encs s = Some t -> exists a, s = a ++ t.
Proof.
  induction encs as [|e encs IH]; simpl; [done|].
  destruct (has_prefix s e) eqn:E; [|done]. intros [= <-]. exists (take (length e) s).
  symmetry. apply take_drop.
Qed.

Lemma strip_all_suffix fuel encs s : exists a, s = a ++ strip_all fuel encs s.
Proof.
  revert s; induction fuel as [|fuel IH]; intros s; simpl; [by exists []|].
  destruct (strip_one encs s) as [t|] eqn:E; [|by exists []].
  apply strip_one_suffix in E as [a ->]. destruct (IH t) as [b Hb]. exists (a ++ b).
  by rewrite <-app_assoc, <-Hb.
Qed.

(** Trimming on the right leaves a prefix, trimming a substring. *)
Lemma trim_right_space_prefix s : exists b, s = trim_right_space s ++ b.
Proof.
  unfold trim_right_space. destruct (strip_all_suffix (length s) (rev (A:=ascii) <$> space_encodings) (rev s))
    as [a Ha]. exists (rev a). rewrite <-rev_app_distr, <-Ha. by rewrite rev_involutive.
Qed.

Lemma trim_space_infix s : exists a b, s = a ++ trim_space s ++ b.
Proof.
  unfold trim_space. destruct (strip_all_suffix (length s) space_encodings s) as [a Ha].
  fold (trim_left_space s) in Ha. destruct (trim_right_space_prefix (trim_left_space s)) as [b Hb].
  exists a, b. by rewrite <-Hb.
Qed.

(** A string that starts with a byte no space encoding starts with. *)
Definition not_space_start (c : ascii) : bool :=
  starts_avoid (fun b => bool_decide (b = c)) space_encodings.
Definition not_space_end (c : ascii) : bool :=
  starts_avoid (fun b => bool_decide (b = c)) (rev (A:=ascii) <$> space_encodings).

Lemma trim_left_space_id c s : not_space_start c = true -> trim_left_space (c :: s) = c :: s.
Proof.
  intros H. eapply strip_all_avoid; [exact H|]. by apply bool_decide_eq_true.
Qed.

Lemma trim_space_head c s x :
  not_space_start c = true -> has_prefix (trim_space (c :: s)) [x] = true -> x = c.
Proof.
  intros Hc. unfold trim_space. rewrite trim_left_space_id by done.
  destruct (trim_right_space_prefix (c :: s)) as [b Hb].
  rewrite has_prefix_spec. intros [t Ht]. rewrite Ht in Hb. by injection Hb.
Qed.

Lemma trim_space_id c s d :
  not_space_start c = true -> not_space_end d = true -> trim_space (c :: s ++ [d]) = c :: s ++ [d].
Proof.
  intros Hc Hd. unfold trim_space. rewrite trim_left_space_id by done. unfold trim_right_space.
  rewrite app_comm_cons, rev_unit. rewrite (strip_all_avoid _ _ _ _ Hd) by by apply bool_decide_eq_true.
  by rewrite <-rev_unit, rev_involutive.
Qed.

(** A line keeps everything but its newline. *)
Lemma strip_newline t : strip_one (rev (A:=ascii) <$> space_encodings) (NL :: t) = Some t.
Proof. reflexivity. Qed.
Lemma trim_space_line c s d :
  not_space_start c = true -> not_space_end d = true -> trim_space (c :: s ++ [d; NL]) = c :: s ++ [d].
Proof.
  intros Hc Hd. unfold trim_space. rewrite trim_left_space_id by done. unfold trim_right_space.
  change (c :: s ++ [d; NL]) with ((c :: s) ++ [d] ++ [NL]). rewrite app_assoc, rev_unit. rewrite length_app, Nat.add_comm. cbn [length Nat.add strip_all].
  rewrite strip_newline, rev_unit. rewrite (strip_all_avoid _ _ _ _ Hd) by by apply bool_decide_eq_true.
  by rewrite <-rev_unit, rev_involutive.
Qed.

Lemma contains_spec s sub : contains s sub = true <-> exists a b, s = a ++ sub ++ b.
Proof.
  induction s as [|c s IH]; simpl; rewrite orb_true_iff, has_prefix_spec.
  - split; [intros [[t H]|?]; [by exists [], t|done]|].
    intros (a & b & H). left. exists b. by destruct a.
  - rewrite IH. split.
    + intros [[t H]|(a & b & ->)]; [by exists [], t|by exists (c :: a), b].
    + intros ([|x a] & b & H); [left; by exists b|right]. injection H as -> ->. eauto.
Qed.

Lemma forallb_rev {A} (p : A -> bool) l : forallb p (rev l) = forallb p l.
Proof.
  induction l as [|x l IH]; [done|]. simpl. rewrite forallb_app, IH. simpl.
  by rewrite andb_true_r, andb_comm.
Qed.

Lemma trim_space_digits s : forallb is_digit s = true -> trim_space s = s.
Proof.
  intros H. assert (forall l, forallb is_digit l = true ->
                    match l with [] => True | c :: _ => is_digit c = true end) as Hd.
  { intros [|c l] Hl; [done|]. simpl in Hl. by go_bool. }
  unfold trim_space, trim_left_space, trim_right_space.
  rewrite (strip_all_avoid (length s) is_digit) by (by_eval || by apply Hd).
  rewrite (strip_all_avoid _ is_digit) by (by_eval || by apply Hd; rewrite forallb_rev).
  apply rev_involutive.
Qed.

Lemma atoi_itoa n : (Z.of_nat n <= int_max)%Z -> atoi (itoa n) = Some (Z.of_nat n).
Proof.
  intros Hn. unfold atoi. pose proof (itoa_digits n) as Hd. pose proof (itoa_nonempty n).
  pose proof (itoa_val n) as Hv. destruct (itoa n) as [|c s]; [done|].
  assert (is_digit c = true) as Hc by (simpl in Hd; go_bool; done).
  rewrite !bool_decide_false by (intros ->; vm_compute in Hc; done).
  rewrite Hd, Hv. unfold int_min in *. rewrite !(proj2 (Z.leb_le _ _)) by lia. done.
Qed.

(** ** Filtering with a boolean *)

Lemma elem_of_List_filter {A} (p : A -> bool) (l : list A) x :
  x ∈ List.filter p l <-> x ∈ l /\ p x = true.
Proof. by rewrite !list_elem_of_In, filter_In. Qed.

Lemma NoDup_List_filter {A} (p : A -> bool) (l : list A) : NoDup l -> NoDup (List.filter p l).
Proof. rewrite !NoDup_ListNoDup. apply NoDup_filter. Qed.

#[export] Hint Resolve has_prefix_app itoa_digits itoa_nonempty : go.
