(* ===== verification/Maintenance.v ===== *)
(** * Maintenance windows ([src/maintenance/window.go])

    The parser, validator, union resolver and evaluator of
    [powermanage.v1.MaintenanceWindow].  Pointers that may be nil are options,
    and a [time.Time] is what the evaluator reads of it: weekday, hour, minute. *)
From S2P Require Import Prelude.

Module Maintenance.

(** ** Data *)

(** [time.Weekday]; its constants count from Sunday = 0. *)
Inductive Weekday := Sunday | Monday | Tuesday | Wednesday | Thursday | Friday | Saturday.

#[export] Instance Weekday_eq_dec : EqDecision Weekday.
Proof. solve_decision. Defined.

Definition weekday_index (d : Weekday) : nat :=
  match d with
  | Sunday => 0 | Monday => 1 | Tuesday => 2 | Wednesday => 3
  | Thursday => 4 | Friday => 5 | Saturday => 6
  end.

Definition weekdays : list Weekday :=
  [Sunday; Monday; Tuesday; Wednesday; Thursday; Friday; Saturday].

Definition weekdayTokens : list gostring :=
  [str "sun"; str "mon"; str "tue"; str "wed"; str "thu"; str "fri"; str "sat"].

(** [weekdayTokens[i]]; the index is below seven at both uses. *)
Definition weekday_token (i : nat) : gostring := nth i weekdayTokens [].

(** The clock reading of a [time.Time]. *)
Record Time := MkTime { time_weekday : Weekday; time_hour : nat; time_minute : nat }.

Definition time_ok (t : Time) : Prop := time_hour t < 24 /\ time_minute t < 60.

Record MaintenanceWindowEntry := MkEntry { Days : list gostring; Allow : gostring }.

(** A [*MaintenanceWindow] and its schedule of [*MaintenanceWindowEntry]. *)
Definition MaintenanceWindow := option (list (option MaintenanceWindowEntry)).

(** [w.GetSchedule()], nil-safe. *)
Definition GetSchedule (w : MaintenanceWindow) : list (option MaintenanceWindowEntry) :=
  default [] w.

Inductive clock_error :=
| ClockShape (s : gostring)
| HourDigits (s : gostring)
| MinuteDigits (s : gostring)
| HourRange (s : gostring)
| MinuteRange (s : gostring).

Inductive entry_error :=
| NilEntry
| NoDays
| BadDay (d : gostring)
| DuplicateDay (d : gostring)
| RangeShape (s : gostring)
| RangeStart (e : clock_error)
| RangeEnd (e : clock_error)
| ZeroLengthRange (s : gostring).

(** ** Parsing *)

Definition isTwoDigits (s : gostring) : bool :=
  match s with
  | [a; b] => is_digit a && is_digit b
  | _ => false
  end.

Definition parseClock (s : gostring) : result clock_error Z :=
  if negb ((length s =? 5) && bool_decide (s !! 2 = Some ":"%char)) then Err (ClockShape s)
  else if negb (isTwoDigits (take 2 s)) then Err (HourDigits (take 2 s))
  else if negb (isTwoDigits (drop 3 s)) then Err (MinuteDigits (drop 3 s))
  else match atoi (take 2 s) with
       | None => Err (HourRange (take 2 s))
       | Some h =>
           if ((h <? 0) || (23 <? h))%Z then Err (HourRange (take 2 s))
           else match atoi (drop 3 s) with
                | None => Err (MinuteRange (drop 3 s))
                | Some m =>
                    if ((m <? 0) || (59 <? m))%Z then Err (MinuteRange (drop 3 s))
                    else Ok (h * 60 + m)%Z
                end
       end.

Definition parseRange (s : gostring) : result entry_error (Z * Z) :=
  if negb ((length s =? 11) && bool_decide (s !! 5 = Some "-"%char)) then Err (RangeShape s)
  else match parseClock (take 5 s) with
       | Err e => Err (RangeStart e)
       | Ok start =>
           match parseClock (drop 6 s) with
           | Err e => Err (RangeEnd e)
           | Ok endm => if (start =? endm)%Z then Err (ZeroLengthRange s) else Ok (start, endm)
           end
       end.

(** ** Validation *)

Definition isWeekdayToken (d : gostring) : bool :=
  (length d =? 3) && existsb (fun t => bool_decide (d = t)) weekdayTokens.

(** The loop over [e.Days] with its [seen] map. *)
Fixpoint check_days (seen : gset gostring) (days : list gostring) : result entry_error unit :=
  match days with
  | [] => Ok tt
  | d :: days' =>
      if negb (isWeekdayToken d) then Err (BadDay d)
      else if bool_decide (d ∈ seen) then Err (DuplicateDay d)
      else check_days ({[d]} ∪ seen) days'
  end.

Definition validateEntry (e : option MaintenanceWindowEntry) : result entry_error unit :=
  match e with
  | None => Err NilEntry
  | Some e =>
      match Days e with
      | [] => Err NoDays
      | _ => let? _ := check_days ∅ (Days e) in
             let? _ := parseRange (Allow e) in
             Ok tt
      end
  end.

(** The loop of [Validate]; the error carries the index of the entry. *)
Fixpoint validate_from (i : nat) (es : list (option MaintenanceWindowEntry))
    : result (nat * entry_error) unit :=
  match es with
  | [] => Ok tt
  | e :: es' => match validateEntry e with
                | Err err => Err (i, err)
                | Ok _ => validate_from (S i) es'
                end
  end.

Definition Validate (w : MaintenanceWindow) : result (nat * entry_error) unit :=
  match w with
  | None => Ok tt
  | Some es => validate_from 0 es
  end.

(** ** Evaluation *)

Definition entryListsDay (e : MaintenanceWindowEntry) (day : gostring) : bool :=
  existsb (fun d => bool_decide (d = day)) (Days e).

Definition entryAllows (e : option MaintenanceWindowEntry) (t : Time) : bool :=
  match e with
  | None => false
  | Some e =>
      match parseRange (Allow e) with
      | Err _ => false
      | Ok (startMin, endMin) =>
          let tMin := Z.of_nat (time_hour t * 60 + time_minute t) in
          let today := weekday_token (weekday_index (time_weekday t)) in
          if entryListsDay e today &&
             (if (startMin <=? endMin)%Z
              then ((startMin <=? tMin) && (tMin <? endMin))%Z
              else (startMin <=? tMin)%Z)
          then true
          else if (endMin <? startMin)%Z then
            let yesterday := weekday_token ((weekday_index (time_weekday t) + 6) mod 7) in
            entryListsDay e yesterday && (tMin <? endMin)%Z
          else false
      end
  end.

Definition IsAllowed (w : MaintenanceWindow) (t : Time) : bool :=
  match GetSchedule w with
  | [] => true
  | es => existsb (fun e => entryAllows e t) es
  end.

Definition unconstrained (w : MaintenanceWindow) : bool :=
  match GetSchedule w with [] => true | _ => false end.

Definition Union (windows : list MaintenanceWindow) : MaintenanceWindow :=
  if existsb unconstrained windows then Some []
  else Some (concat (GetSchedule <$> windows)).

(** ** Reference semantics

    The week is a circle of 7 * 1440 minutes.  A listed day opens a slot at
    [day * 1440 + start] that lasts until the clock next reads [end]. *)
Definition day_minutes : Z := 1440.
Definition week_minutes : Z := 7 * day_minutes.

Definition minute_of_week (t : Time) : Z :=
  Z.of_nat (weekday_index (time_weekday t)) * day_minutes +
  Z.of_nat (time_hour t * 60 + time_minute t).

Definition in_slot (d : Weekday) (startMin endMin : Z) (t : Time) : Prop :=
  ((minute_of_week t - (Z.of_nat (weekday_index d) * day_minutes + startMin)) mod week_minutes
   < (endMin - startMin) mod day_minutes)%Z.

Definition token_of (d : Weekday) : gostring := weekday_token (weekday_index d).

(** The wire format of a clock reading and of a range. *)
Definition two_digits (n : nat) : gostring := [digit_byte (n / 10); digit_byte (n mod 10)].
Definition fmt_clock (m : nat) : gostring :=
  two_digits (m / 60) ++ ":"%char :: two_digits (m mod 60).
Definition fmt_range (a b : nat) : gostring := fmt_clock a ++ "-"%char :: fmt_clock b.

(** ** Lemmas: the clock format *)

Lemma atoi_two a b :
  is_digit a = true -> is_digit b = true ->
  atoi [a; b] = Some (Z.of_nat (digit_val a * 10 + digit_val b)).
Proof.
  intros Ha Hb. unfold atoi.
  rewrite (bool_decide_false (a = "-"%char)) by (intros ->; discriminate Ha).
  rewrite (bool_decide_false (a = "+"%char)) by (intros ->; discriminate Ha).
  pose proof (is_digit_val a Ha). pose proof (is_digit_val b Hb).
  assert (digits_val [a; b] = Z.of_nat (digit_val a * 10 + digit_val b)) as ->
    by (unfold digits_val; simpl; lia).
  simpl. rewrite Ha, Hb. simpl.
  rewrite (proj2 (Z.leb_le int_min _)) by (unfold int_min; lia).
  by rewrite (proj2 (Z.leb_le _ int_max)) by (unfold int_max; lia).
Qed.

Lemma isTwoDigits_two_digits n : n < 100 -> isTwoDigits (two_digits n) = true.
Proof.
  intros Hn. unfold two_digits, isTwoDigits.
  rewrite !is_digit_byte; [done|apply mod_10_lt|apply Nat.Div0.div_lt_upper_bound; lia].
Qed.

Lemma atoi_two_digits n : n < 100 -> atoi (two_digits n) = Some (Z.of_nat n).
Proof.
  intros Hn. unfold two_digits.
  assert (n / 10 < 10) by (apply Nat.Div0.div_lt_upper_bound; lia).
  pose proof (mod_10_lt n). pose proof (Nat.div_mod_eq n 10).
  rewrite atoi_two by (by apply is_digit_byte).
  rewrite !digit_val_byte by done. do 2 f_equal. lia.
Qed.

Lemma two_digits_inv s :
  isTwoDigits s = true ->
  exists n, n < 100 /\ s = two_digits n /\ atoi s = Some (Z.of_nat n).
Proof.
  destruct s as [|a [|b [|]]]; try discriminate. simpl. intros [Ha Hb]%andb_true_iff.
  pose proof (is_digit_val a Ha). pose proof (is_digit_val b Hb).
  set (n := digit_val a * 10 + digit_val b).
  assert (n / 10 = digit_val a /\ n mod 10 = digit_val b) as [Hq Hr].
  { unfold n. rewrite Nat.add_comm, Nat.div_add, Nat.Div0.mod_add, Nat.div_small, Nat.mod_small; lia. }
  exists n. split; [unfold n; lia|]. split; [|by rewrite atoi_two].
  unfold two_digits. by rewrite Hq, Hr, !digit_byte_val.
Qed.

Lemma clock_parts n : n < 1440 -> n / 60 < 24 /\ n mod 60 < 60 /\ n = n / 60 * 60 + n mod 60.
Proof.
  intros. pose proof (Nat.div_mod_eq n 60). pose proof (Nat.mod_upper_bound n 60).
  repeat split; [apply Nat.Div0.div_lt_upper_bound; lia|lia|lia].
Qed.

Lemma parseClock_fmt n : n < 1440 -> parseClock (fmt_clock n) = Ok (Z.of_nat n).
Proof.
  intros (Hh & Hm & Heq)%clock_parts. unfold parseClock, fmt_clock.
  change (take 2 (two_digits (n / 60) ++ ":"%char :: two_digits (n mod 60)))
    with (two_digits (n / 60)).
  change (drop 3 (two_digits (n / 60) ++ ":"%char :: two_digits (n mod 60)))
    with (two_digits (n mod 60)).
  rewrite !isTwoDigits_two_digits, !atoi_two_digits by lia. cbn [negb].
  rewrite bool_decide_true by done. simpl.
  replace (Z.of_nat (n / 60) <? 0)%Z with false by (symmetry; apply Z.ltb_ge; lia).
  replace (23 <? Z.of_nat (n / 60))%Z with false by (symmetry; apply Z.ltb_ge; lia).
  replace (Z.of_nat (n mod 60) <? 0)%Z with false by (symmetry; apply Z.ltb_ge; lia).
  replace (59 <? Z.of_nat (n mod 60))%Z with false by (symmetry; apply Z.ltb_ge; lia).
  simpl. f_equal. lia.
Qed.

Lemma parseClock_inv s m :
  parseClock s = Ok m -> exists n, n < 1440 /\ s = fmt_clock n /\ m = Z.of_nat n.
Proof.
  unfold parseClock. intros Hp. inv_bind Hp. go_bool.
  destruct s as [|a [|b [|c [|d [|e [|]]]]]]; try discriminate. simplify_eq/=.
  destruct (two_digits_inv [a; b]) as (h & Hh & Eh & Ah); [done|].
  destruct (two_digits_inv [d; e]) as (mi & Hm & Em & Am); [done|].
  rewrite Ah, Am in Hp. cbv beta iota in Hp. inv_bind Hp. go_bool.
  exists (h * 60 + mi). split; [lia|]. split; [|lia].
  assert ((h * 60 + mi) / 60 = h) as Hq by (rewrite Nat.div_add_l, Nat.div_small; lia).
  assert ((h * 60 + mi) mod 60 = mi) as Hr
    by (rewrite Nat.add_comm, Nat.Div0.mod_add, Nat.mod_small; lia).
  unfold fmt_clock. rewrite Hq, Hr, <-Eh, <-Em. done.
Qed.

Lemma length_fmt_clock n : length (fmt_clock n) = 5.
Proof. done. Qed.

Lemma parseRange_fmt a b :
  a < 1440 -> b < 1440 -> a <> b ->
  parseRange (fmt_range a b) = Ok (Z.of_nat a, Z.of_nat b).
Proof.
  intros Ha Hb Hne. unfold parseRange.
  change (take 5 (fmt_range a b)) with (fmt_clock a).
  change (drop 6 (fmt_range a b)) with (fmt_clock b).
  change (length (fmt_range a b)) with 11.
  change (fmt_range a b !! 5) with (Some "-"%char).
  rewrite !parseClock_fmt by done. simpl.
  by rewrite (proj2 (Z.eqb_neq _ _)) by lia.
Qed.

Lemma parseRange_inv s a b :
  parseRange s = Ok (a, b) ->
  exists m n, m < 1440 /\ n < 1440 /\ m <> n /\
    s = fmt_range m n /\ a = Z.of_nat m /\ b = Z.of_nat n.
Proof.
  unfold parseRange. intros Hp. inv_bind Hp. go_bool.
  destruct (parseClock (take 5 s)) as [x|] eqn:Ex; [|discriminate].
  destruct (parseClock (drop 6 s)) as [y|] eqn:Ey; [|discriminate].
  destruct (x =? y)%Z eqn:Exy; [discriminate|]. injection Hp as -> ->.
  apply parseClock_inv in Ex as (m & Hm & Em & ->).
  apply parseClock_inv in Ey as (n & Hn & En & ->).
  apply Z.eqb_neq in Exy. exists m, n. repeat split; try done; [lia|].
  unfold fmt_range. rewrite <-Em, <-En.
  rewrite <-(take_drop 5 s) at 1. f_equal. by apply drop_S.
Qed.

(** ** Lemmas: weekday tokens *)

Lemma token_of_inj d d' : token_of d = token_of d' -> d = d'.
Proof. by destruct d, d'. Qed.

Lemma isWeekdayToken_spec d : isWeekdayToken d = true <-> exists w, d = token_of w.
Proof.
  unfold isWeekdayToken. rewrite andb_true_iff, existsb_exists. split.
  - intros [_ (t & Hin & Heq)]. apply bool_decide_eq_true in Heq as ->.
    simpl in Hin.
    destruct Hin as [<-|[<-|[<-|[<-|[<-|[<-|[<-|[]]]]]]]];
      [exists Sunday|exists Monday|exists Tuesday|exists Wednesday|exists Thursday
      |exists Friday|exists Saturday]; reflexivity.
  - intros [w ->]. destruct w; (split; [reflexivity|]);
      eexists; (split; [|apply bool_decide_eq_true; reflexivity]); simpl; tauto.
Qed.

Lemma entryListsDay_spec e day : entryListsDay e day = true <-> day ∈ Days e.
Proof.
  unfold entryListsDay. rewrite existsb_exists. setoid_rewrite <-list_elem_of_In.
  setoid_rewrite bool_decide_eq_true. naive_solver.
Qed.

Lemma yesterday_token d :
  exists p, weekday_token ((weekday_index d + 6) mod 7) = token_of p /\
    (weekday_index d = weekday_index p + 1 \/ weekday_index d = 0 /\ weekday_index p = 6).
Proof.
  destruct d; [exists Saturday|exists Sunday|exists Monday|exists Tuesday|exists Wednesday
              |exists Thursday|exists Friday]; (split; [reflexivity|simpl; lia]).
Qed.

Lemma weekday_index_lt d : weekday_index d < 7.
Proof. destruct d; simpl; lia. Qed.

Lemma weekday_index_inj d d' : weekday_index d = weekday_index d' -> d = d'.
Proof. by destruct d, d'. Qed.

(** ** Lemmas: slots on the circle of the week *)

Lemma slot_arith W D tm a b :
  (0 <= W < 7 -> 0 <= D < 7 -> 0 <= tm < 1440 -> 0 <= a < 1440 -> 0 <= b < 1440 -> a <> b ->
   (W * 1440 + tm - (D * 1440 + a)) mod 10080 < (b - a) mod 1440 <->
   D = W /\ a <= tm /\ (a <= b -> tm < b) \/
   b < a /\ tm < b /\ (W = D + 1 \/ W = 0 /\ D = 6))%Z.
Proof.
  intros. Z.div_mod_to_equations. nia.
Qed.

(** Being in a slot, as the two branches of [entryAllows] test it. *)
Lemma in_slot_cases d a b t :
  time_ok t -> (0 <= a < 1440)%Z -> (0 <= b < 1440)%Z -> a <> b ->
  let tMin := Z.of_nat (time_hour t * 60 + time_minute t) in
  let W := weekday_index (time_weekday t) in
  in_slot d a b t <->
  d = time_weekday t /\ (a <= tMin)%Z /\ (a <= b -> tMin < b)%Z \/
  (b < a)%Z /\ (tMin < b)%Z /\ (W = weekday_index d + 1 \/ W = 0 /\ weekday_index d = 6).
Proof.
  intros [Hh Hm] Ha Hb Hne tMin W. unfold in_slot, minute_of_week, week_minutes, day_minutes.
  pose proof (weekday_index_lt d). pose proof (weekday_index_lt (time_weekday t)).
  change (7 * 1440)%Z with 10080%Z. rewrite slot_arith by lia.
  subst tMin W.
  assert (Z.of_nat (weekday_index d) = Z.of_nat (weekday_index (time_weekday t))
          <-> d = time_weekday t) as ->
    by (split; [intros E; apply weekday_index_inj; lia|by intros ->]).
  split; (intros [?|(?&?&?)]; [by left|right; repeat split; (done || lia)]).
Qed.

Lemma token_listed d e :
  entryListsDay e (token_of d) = true <-> token_of d ∈ Days e.
Proof. apply entryListsDay_spec. Qed.

Lemma entryAllows_Ok e t a b :
  parseRange (Allow e) = Ok (a, b) ->
  let tMin := Z.of_nat (time_hour t * 60 + time_minute t) in
  entryAllows (Some e) t = true <->
  token_of (time_weekday t) ∈ Days e /\ (a <= tMin)%Z /\ (a <= b -> tMin < b)%Z \/
  (b < a)%Z /\ (tMin < b)%Z /\
    weekday_token ((weekday_index (time_weekday t) + 6) mod 7) ∈ Days e.
Proof.
  intros Hp tMin. unfold entryAllows. rewrite Hp.
  fold tMin. fold (token_of (time_weekday t)).
  rewrite <-!entryListsDay_spec.
  destruct (entryListsDay e (token_of (time_weekday t)));
  destruct (entryListsDay e (weekday_token _));
  destruct (Z.leb_spec a b); destruct (Z.leb_spec a tMin); destruct (Z.ltb_spec tMin b);
  destruct (Z.ltb_spec b a); simpl; split; intros; try done; try lia;
  intuition (discriminate || lia).
Qed.

Lemma IsAllowed_constrained w t :
  unconstrained w = false -> IsAllowed w t = existsb (fun e => entryAllows e t) (GetSchedule w).
Proof. unfold unconstrained, IsAllowed. by destruct (GetSchedule w). Qed.

Lemma existsb_concat {A} (f : A -> bool) ls :
  existsb f (concat ls) = existsb (existsb f) ls.
Proof. induction ls as [|l ls IH]; simpl; [done|]. by rewrite existsb_app, IH. Qed.

(** ** Properties *)

(** C24: an entry with a well-formed range allows a moment exactly when the
    moment lies in the slot that one of its listed weekdays opens on the circle
    of the week; ranges that cross midnight, also from Saturday into Sunday,
    included. *)
Theorem entryAllows_slot e t a b :
  parseRange (Allow e) = Ok (a, b) -> time_ok t ->
  entryAllows (Some e) t = true <->
  exists d, token_of d ∈ Days e /\ in_slot d a b t.
Proof.
  intros Hp Ht. rewrite (entryAllows_Ok _ _ _ _ Hp).
  destruct (parseRange_inv _ _ _ Hp) as (m & n & Hm & Hn & Hmn & _ & -> & ->).
  assert (forall d, in_slot d (Z.of_nat m) (Z.of_nat n) t <-> _) as Hslot
    by (intros d; apply in_slot_cases; (done || lia)).
  setoid_rewrite Hslot. clear Hslot.
  destruct (yesterday_token (time_weekday t)) as (y & -> & Hy). split.
  - intros [(Hin & Hge & Hlt)|(Hlt & Hb & Hin)]; eauto 10.
  - intros (d & Hin & [(-> & Hge & Hlt)|(Hlt & Hb & Hd)]); [by left|right].
    split; [done|]. split; [done|]. replace y with d; [done|].
    apply weekday_index_inj. pose proof (weekday_index_lt d). lia.
Qed.

Lemma entryAllows_slot_witness :
  entryAllows (Some (MkEntry [str "sat"] (str "22:00-06:00"))) (MkTime Sunday 5 59) = true.
Proof.
  apply (entryAllows_slot _ _ 1320%Z 360%Z); [reflexivity|unfold time_ok; simpl; lia|].
  exists Saturday. split; [by left|]. vm_compute. reflexivity.
Defined.

(** the union of windows allows exactly the moments that one of them
    allows, and with no window at all every moment is allowed. *)
Theorem IsAllowed_Union ws t :
  IsAllowed (Union ws) t = bool_decide (ws = []) || existsb (fun w => IsAllowed w t) ws.
Proof.
  unfold Union. destruct (existsb unconstrained ws) eqn:Hu.
  - unfold IsAllowed at 1; simpl. symmetry. apply orb_true_iff; right.
    apply existsb_exists in Hu as (w & Hin & Hw). apply existsb_exists. exists w.
    split; [done|]. unfold unconstrained in Hw. unfold IsAllowed. by destruct (GetSchedule w).
  - destruct ws as [|w ws]; [done|]. rewrite bool_decide_false by done. cbn [orb].
    assert (unconstrained (Some (concat (GetSchedule <$> w :: ws))) = false) as Hc.
    { simpl in Hu. apply orb_false_iff in Hu as [Hw _]. unfold unconstrained in *. simpl.
      by destruct (GetSchedule w). }
    rewrite IsAllowed_constrained by done.
    change (GetSchedule (Some (concat (GetSchedule <$> w :: ws))))
      with (concat (GetSchedule <$> w :: ws)).
    rewrite existsb_concat.
    clear Hc. induction (w :: ws) as [|v vs IH]; [done|].
    rewrite fmap_cons. cbn [existsb] in *. apply orb_false_iff in Hu as [Hv Hvs].
    by rewrite IH, IsAllowed_constrained.
Qed.

(** [parseRange] accepts exactly the fixed-width texts HH:MM-HH:MM of two
    different minutes of the day, and returns those minutes. *)
Theorem parseRange_format s a b :
  parseRange s = Ok (a, b) <->
  exists m n, m < 1440 /\ n < 1440 /\ m <> n /\
    s = fmt_range m n /\ a = Z.of_nat m /\ b = Z.of_nat n.
Proof.
  split; [apply parseRange_inv|].
  intros (m & n & Hm & Hn & Hne & -> & -> & ->). by apply parseRange_fmt.
Qed.

Lemma check_days_Ok seen ds u :
  check_days seen ds = Ok u ->
  NoDup ds /\ (forall d, d ∈ ds -> (d ∉ seen) /\ exists w, d = token_of w).
Proof.
  revert seen; induction ds as [|d ds IH]; intros seen; simpl; [intros _; split; [constructor|set_solver]|].
  intros H. inv_bind H. go_bool. apply IH in H as [Hnd Hall].
  apply isWeekdayToken_spec in Hif. split.
  - constructor; [|done]. intros Hin. destruct (Hall d Hin) as [Hn _]. set_solver.
  - intros d' [->|Hin]%elem_of_cons; [done|]. destruct (Hall d' Hin). set_solver.
Qed.

Lemma validate_from_Ok i es u :
  validate_from i es = Ok u <-> u = tt /\ (forall e, e ∈ es -> validateEntry e = Ok tt).
Proof.
  revert i; induction es as [|e es IH]; intros i; simpl; [destruct u; split; [set_solver|done]|].
  destruct (validateEntry e) as [[]|] eqn:He.
  - rewrite IH. split; intros [-> H]; (split; [done|]); intros e' Hin; [|apply H; set_solver].
    apply elem_of_cons in Hin as [->|]; auto.
  - split; [done|]. intros [_ H]. rewrite H in He by set_solver. done.
Qed.

(** a schedule that passes [Validate] has only non-nil entries, each with at
    least one weekday token, none listed twice, and a range that parses; so no
    entry of it is skipped by the evaluator's fail-closed branch. *)
Theorem Validate_sound es e :
  Validate (Some es) = Ok tt -> e ∈ es ->
  exists e', e = Some e' /\ Days e' <> [] /\ NoDup (Days e') /\
    (forall d, d ∈ Days e' -> exists w, d = token_of w) /\
    exists a b, parseRange (Allow e') = Ok (a, b).
Proof.
  simpl. intros [_ H]%validate_from_Ok He. specialize (H e He).
  destruct e as [e'|]; [|done]. exists e'. split; [done|]. simpl in H.
  destruct (Days e') as [|d ds] eqn:Hd; [done|]. inv_bind H.
  destruct a0 as [x y]. apply check_days_Ok in Hok as [Hnd Hall].
  split; [done|]. split; [done|]. split; [|eauto]. intros d' Hin. by apply Hall in Hin as [_ ?].
Qed.

Definition sample_window : list (option MaintenanceWindowEntry) :=
  [Some (MkEntry [str "mon"; str "sat"] (str "22:00-06:00"))].

Lemma Validate_sound_witness :
  exists e', Some (MkEntry [str "mon"; str "sat"] (str "22:00-06:00")) = Some e' /\
    Days e' <> [] /\ NoDup (Days e') /\
    (forall d, d ∈ Days e' -> exists w, d = token_of w) /\
    exists a b, parseRange (Allow e') = Ok (a, b).
Proof. apply (Validate_sound sample_window); [reflexivity|by left]. Defined.

(** a window that passes [Validate] is never vacuous: there is a clock
    reading at which it allows dispatch. *)
Theorem Validate_allows_some w :
  Validate w = Ok tt -> exists t, time_ok t /\ IsAllowed w t = true.
Proof.
  destruct w as [es|]; [|by exists (MkTime Sunday 0 0); repeat split; simpl; try lia].
  destruct es as [|e es]; [by exists (MkTime Sunday 0 0); repeat split; simpl; try lia|].
  unfold Validate. intros [_ H]%validate_from_Ok. specialize (H e ltac:(by left)).
  destruct e as [e|]; [|done]. simpl in H.
  destruct (Days e) as [|d ds] eqn:Hd; [done|]. inv_bind H. destruct a0 as [x y].
  apply check_days_Ok in Hok as [_ Hall].
  destruct (Hall d ltac:(by left)) as [_ [wd ->]].
  pose proof Hok0 as Hp.
  apply parseRange_inv in Hok0 as (m & n & Hm & Hn & Hne & _ & -> & ->).
  destruct (clock_parts m Hm) as (Hh & Hmin & Heq).
  exists (MkTime wd (m / 60) (m mod 60)). split; [done|].
  unfold IsAllowed. cbn [GetSchedule default existsb]. apply orb_true_iff; left.
  apply (entryAllows_Ok _ _ _ _ Hp). left. simpl. rewrite Hd.
  split; [by left|]. lia.
Qed.

Lemma Validate_allows_some_witness : exists t, time_ok t /\ IsAllowed (Some sample_window) t = true.
Proof. apply (Validate_allows_some (Some sample_window)). reflexivity. Defined.

End Maintenance.
