(* ===== verification/Messages.v ===== *)
(** * Stream messages ([src/proto/powermanage/v1/agent.proto], as
      [src/client.go] uses them)

    A message whose content the client only forwards is its wire bytes; a
    message the client looks into has the fields it reads.  A oneof arm whose
    inner pointer may be nil carries an option. *)
From S2P Require Import Prelude.

(** A forwarded message. *)
Abbreviation wire := gostring.

(** A Go error, as its text; [None] is nil. *)
Abbreviation error := (option gostring).

(** [fmt.Errorf("prefix: %w", err)]. *)
Definition wrap (prefix : string) (e : gostring) : gostring := str prefix ++ str ": " ++ e.

Module pm.

(** [HeartbeatInterval.AsDuration()] in nanoseconds, absent when unset. *)
Record Welcome := MkWelcome { HeartbeatInterval : option Z; welcome_rest : wire }.
Record ManifestDelivery := MkManifestDelivery { DeliveryId : gostring; Manifest : wire }.
Record Error := MkError { Code : gostring; Message : gostring }.
Record RevokeLuksDeviceKey := MkRevoke { revoke_ActionId : gostring }.

Record GetLuksKeyResponse := MkGetLuksKeyResponse { Passphrase : wire }.
Record StoreResponse := MkStoreResponse { Success : bool }.
Record ValidateLuksTokenResponse := MkValidateLuksTokenResponse
  { vlt_ActionId : gostring; vlt_DevicePath : gostring; vlt_MinLength : Z; vlt_Complexity : Z }.
Record SyncState := MkSyncState
  { SyncIntervalMinutes : Z; Deliveries : list ManifestDelivery; MaintenanceWindow : option wire }.

(** The arms of [ServerMessage.payload]. *)
Inductive ServerPayload :=
| ServerMessage_Welcome (p : option Welcome)
| ServerMessage_SyncState (p : option SyncState)
| ServerMessage_ManifestDelivery (p : option ManifestDelivery)
| ServerMessage_Query (p : option wire)
| ServerMessage_RequestInventory (p : option wire)
| ServerMessage_Error (p : option Error)
| ServerMessage_GetLuksKey (p : option GetLuksKeyResponse)
| ServerMessage_StoreLuksKey (p : option StoreResponse)
| ServerMessage_RevokeLuksDeviceKey (p : option RevokeLuksDeviceKey)
| ServerMessage_StoreLpsPasswords (p : option StoreResponse)
| ServerMessage_ValidateLuksToken (p : option ValidateLuksTokenResponse)
| ServerMessage_LogQuery (p : option wire)
| ServerMessage_TerminalStart (p : option wire)
| ServerMessage_TerminalInput (p : option wire)
| ServerMessage_TerminalResize (p : option wire)
| ServerMessage_TerminalStop (p : option wire)
| ServerMessage_Unknown.   (** an unset oneof, or an arm of a newer server *)

Record ServerMessage := MkServerMessage { Id : gostring; Payload : ServerPayload }.

(** The arms of [AgentMessage.payload]. *)
Inductive AgentPayload :=
| AgentMessage_Hello (deviceId agentVersion hostname authToken arch : gostring)
| AgentMessage_Heartbeat (hb : wire)
| AgentMessage_SyncRequest
| AgentMessage_ActionResult (r : wire)
| AgentMessage_OutputChunk (c : wire)
| AgentMessage_DeliveryReceipt (deliveryId : gostring)
| AgentMessage_ManifestResult (r : wire)
| AgentMessage_QueryResult (r : wire)
| AgentMessage_Inventory (i : wire)
| AgentMessage_SecurityAlert (a : wire)
| AgentMessage_GetLuksKey (actionId : gostring)
| AgentMessage_StoreLuksKey (actionId devicePath : gostring) (passphrase : wire) (reason : Z)
| AgentMessage_RevokeLuksDeviceKeyResult (actionId : gostring) (success : bool) (err : gostring)
| AgentMessage_StoreLpsPasswords (actionId : gostring) (rotations : list wire)
| AgentMessage_ValidateLuksToken (token : gostring)
| AgentMessage_LogQueryResult (r : wire)
| AgentMessage_TerminalOutput (o : wire)
| AgentMessage_TerminalStateChange (c : wire).

Record AgentMessage := MkAgentMessage { agent_Id : gostring; agent_Payload : AgentPayload }.

#[export] Instance Welcome_eq_dec : EqDecision Welcome.
Proof. solve_decision. Defined.
#[export] Instance ManifestDelivery_eq_dec : EqDecision ManifestDelivery.
Proof. solve_decision. Defined.
#[export] Instance Error_eq_dec : EqDecision Error.
Proof. solve_decision. Defined.
#[export] Instance RevokeLuksDeviceKey_eq_dec : EqDecision RevokeLuksDeviceKey.
Proof. solve_decision. Defined.
#[export] Instance GetLuksKeyResponse_eq_dec : EqDecision GetLuksKeyResponse.
Proof. solve_decision. Defined.
#[export] Instance StoreResponse_eq_dec : EqDecision StoreResponse.
Proof. solve_decision. Defined.
#[export] Instance ValidateLuksTokenResponse_eq_dec : EqDecision ValidateLuksTokenResponse.
Proof. solve_decision. Defined.
#[export] Instance SyncState_eq_dec : EqDecision SyncState.
Proof. solve_decision. Defined.
#[export] Instance ServerPayload_eq_dec : EqDecision ServerPayload.
Proof. solve_decision. Defined.
#[export] Instance ServerMessage_eq_dec : EqDecision ServerMessage.
Proof. solve_decision. Defined.
#[export] Instance AgentPayload_eq_dec : EqDecision AgentPayload.
Proof. solve_decision. Defined.
#[export] Instance AgentMessage_eq_dec : EqDecision AgentMessage.
Proof. solve_decision. Defined.

End pm.
