(* ===== verification/ClientSend.v ===== *)
(** * The send slot ([src/client.go]: [sendSem], [send])

    Any number of goroutines call [Client.send].  A call takes the buffered-1
    channel [sendSem] as a lock that it may give up on its context, and a helper
    goroutine runs [stream.Send] while holding the slot.  Each call is two
    threads of a step relation, the caller and its helper; [wirelog] records the
    begin and the end of every [stream.Send]. *)
From S2P Require Import Prelude Messages.
Import pm.

Module SendSlot.

(** Where the calling goroutine of one [send] is. *)
Inductive caller :=
| CStart                      (** before the checks *)
| CAcquire                    (** at [select { c.sendSem <- ...; <-ctx.Done() }] *)
| CAwait                      (** at [select { <-errCh; <-ctx.Done() }] *)
| CDone (r : error).          (** returned *)

(** Where the helper goroutine is; [HNone] before it is spawned. *)
Inductive helper :=
| HNone
| HSending                    (** inside [stream.Send(msg)] *)
| HReturned (r : error)       (** [stream.Send] returned, the slot still held *)
| HReleased (r : error)       (** the slot is free, [errCh <- err] to come *)
| HDone (r : error).          (** [errCh] holds the result *)

Record call := MkCall
  { msg : AgentMessage; pc : caller; hp : helper; ctx : error (** [ctx.Err()] *) }.

Inductive wire_event :=
| SendBegin (i : nat) (m : AgentMessage)
| SendEnd (i : nat) (r : error).

Record state := MkState
  { connected : bool; slot : option nat; calls : gmap nat call; wirelog : list wire_event }.

Definition not_connected : gostring := str "not connected".

Definition with_pc (c : call) (p : caller) : call := MkCall (msg c) p (hp c) (ctx c).
Definition with_hp (c : call) (h : helper) : call := MkCall (msg c) (pc c) h (ctx c).

(** What [send] does before it touches the slot. *)
Definition entry (conn : bool) (ctxErr : error) : caller :=
  if negb conn then CDone (Some not_connected)
  else match ctxErr with
       | Some e => CDone (Some e)
       | None => CAcquire
       end.

Inductive step : state -> state -> Prop :=
(** A goroutine calls [send]. *)
| s_call st i m :
    calls st !! i = None ->
    step st (MkState (connected st) (slot st) (<[i := MkCall m CStart HNone None]> (calls st))
               (wirelog st))
(** A context is cancelled or runs into its deadline; it never comes back. *)
| s_cancel st i c e :
    calls st !! i = Some c -> ctx c = None ->
    step st (MkState (connected st) (slot st)
               (<[i := MkCall (msg c) (pc c) (hp c) (Some e)]> (calls st)) (wirelog st))
(** Connect and Close toggle the stream. *)
| s_stream st b :
    step st (MkState b (slot st) (calls st) (wirelog st))
| s_enter st i c :
    calls st !! i = Some c -> pc c = CStart ->
    step st (MkState (connected st) (slot st)
               (<[i := with_pc c (entry (connected st) (ctx c))]> (calls st)) (wirelog st))
| s_acquire st i c :
    calls st !! i = Some c -> pc c = CAcquire -> slot st = None ->
    step st (MkState (connected st) (Some i)
               (<[i := with_hp (with_pc c CAwait) HSending]> (calls st))
               (wirelog st ++ [SendBegin i (msg c)]))
| s_acquire_ctx st i c e :
    calls st !! i = Some c -> pc c = CAcquire -> ctx c = Some e ->
    step st (MkState (connected st) (slot st) (<[i := with_pc c (CDone (Some e))]> (calls st))
               (wirelog st))
| s_sent st i c r :
    calls st !! i = Some c -> hp c = HSending ->
    step st (MkState (connected st) (slot st) (<[i := with_hp c (HReturned r)]> (calls st))
               (wirelog st ++ [SendEnd i r]))
| s_release st i c r :
    calls st !! i = Some c -> hp c = HReturned r ->
    step st (MkState (connected st) None (<[i := with_hp c (HReleased r)]> (calls st))
               (wirelog st))
| s_publish st i c r :
    calls st !! i = Some c -> hp c = HReleased r ->
    step st (MkState (connected st) (slot st) (<[i := with_hp c (HDone r)]> (calls st))
               (wirelog st))
| s_result st i c r :
    calls st !! i = Some c -> pc c = CAwait -> hp c = HDone r ->
    step st (MkState (connected st) (slot st) (<[i := with_pc c (CDone r)]> (calls st))
               (wirelog st))
| s_await_ctx st i c e :
    calls st !! i = Some c -> pc c = CAwait -> ctx c = Some e ->
    step st (MkState (connected st) (slot st) (<[i := with_pc c (CDone (Some e))]> (calls st))
               (wirelog st)).

Definition init : state := MkState false None ∅ [].
Definition reachable (st : state) : Prop := rtc step init st.

(** ** Invariant *)

(** The helper holds the slot. *)
Definition holds (h : helper) : Prop :=
  match h with HSending | HReturned _ => True | _ => False end.

(** A log in which every send ends before the next begins; the index is the
    send still open. *)
Inductive serial : list wire_event -> option nat -> Prop :=
| serial_nil : serial [] None
| serial_begin l i m : serial l None -> serial (l ++ [SendBegin i m]) (Some i)
| serial_end l i r : serial l (Some i) -> serial (l ++ [SendEnd i r]) None.

Definition open_send (st : state) : option nat :=
  match slot st with
  | Some i => match calls st !! i with
              | Some c => match hp c with HSending => Some i | _ => None end
              | None => None
              end
  | None => None
  end.

Definition begin_id (e : wire_event) : option nat :=
  match e with SendBegin i _ => Some i | SendEnd _ _ => None end.

(** The calls that have put their message on the wire, in order. *)
Definition begun (l : list wire_event) : list nat := omap begin_id l.

Definition helper_of (st : state) (i : nat) : helper :=
  match calls st !! i with Some c => hp c | None => HNone end.

(** What the log knows about a helper's progress. *)
Definition logged (l : list wire_event) (i : nat) (h : helper) : Prop :=
  match h with
  | HNone => i ∉ begun l
  | HSending => True
  | HReturned r | HReleased r | HDone r => SendEnd i r ∈ l
  end.

(** The caller's position against its helper's. *)
Definition paired (l : list wire_event) (i : nat) (c : call) : Prop :=
  match pc c with
  | CStart | CAcquire => hp c = HNone
  | CAwait => hp c <> HNone
  | CDone None => SendEnd i None ∈ l
  | CDone (Some _) => True
  end.

Record inv (st : state) : Prop := {
  inv_slot : forall i, holds (helper_of st i) <-> slot st = Some i;
  inv_serial : serial (wirelog st) (open_send st);
  inv_begun : NoDup (begun (wirelog st));
  inv_logged : forall i, logged (wirelog st) i (helper_of st i);
  inv_paired : forall i c, calls st !! i = Some c -> paired (wirelog st) i c
}.

(** ** Lemmas *)

Lemma open_send_alt st : open_send st =
  match slot st with
  | Some i => match helper_of st i with HSending => Some i | _ => None end
  | None => None
  end.
Proof. unfold open_send, helper_of. by destruct (slot st) as [i|]; [destruct (calls st !! i)|]. Qed.

Lemma helper_insert b sl cs l i c j :
  helper_of (MkState b sl (<[i := c]> cs) l) j =
  if decide (i = j) then hp c else helper_of (MkState b sl cs l) j.
Proof. unfold helper_of. simpl. rewrite lookup_insert. by case_decide. Qed.

Lemma helper_of_state st b sl l j : helper_of (MkState b sl (calls st) l) j = helper_of st j.
Proof. done. Qed.

Lemma helper_lookup st i c : calls st !! i = Some c -> helper_of st i = hp c.
Proof. unfold helper_of. by intros ->. Qed.

Lemma begun_app l e : begun (l ++ [e]) = begun l ++ match begin_id e with Some i => [i] | None => [] end.
Proof. unfold begun. rewrite omap_app. simpl. by destruct (begin_id e). Qed.

Lemma logged_app l e i h :
  (h = HNone -> begin_id e <> Some i) -> logged l i h -> logged (l ++ [e]) i h.
Proof.
  destruct h; simpl; try (rewrite ?elem_of_app; tauto).
  intros Hne Hn. rewrite begun_app. specialize (Hne eq_refl).
  destruct (begin_id e) as [j|]; [|by rewrite app_nil_r].
  rewrite elem_of_app, list_elem_of_singleton. naive_solver.
Qed.

Lemma paired_app l e i c : paired l i c -> paired (l ++ [e]) i c.
Proof. unfold paired. destruct (pc c) as [| | |[]]; try done. rewrite elem_of_app. tauto. Qed.

Lemma init_inv : inv init.
Proof.
  split; simpl; try done; [constructor|constructor|by intros i; apply not_elem_of_nil].
Qed.

(** A step that leaves every helper and the log alone. *)
Lemma inv_quiet st b cs :
  inv st ->
  (forall j, helper_of (MkState b (slot st) cs (wirelog st)) j = helper_of st j) ->
  (forall j c, cs !! j = Some c -> paired (wirelog st) j c) ->
  inv (MkState b (slot st) cs (wirelog st)).
Proof.
  intros [H1 H2 H3 H4 H5] Hh Hp. split; simpl.
  - intros i. rewrite Hh. apply H1.
  - rewrite open_send_alt in *. simpl. destruct (slot st) as [i|]; [by rewrite Hh|done].
  - done.
  - intros i. rewrite Hh. apply H4.
  - done.
Qed.

(** The caller of [i] moves and its helper stays. *)
Lemma inv_caller st b i c c' :
  inv st -> calls st !! i = Some c -> hp c' = hp c -> paired (wirelog st) i c' ->
  inv (MkState b (slot st) (<[i := c']> (calls st)) (wirelog st)).
Proof.
  intros Hinv Hi Hh Hp. apply inv_quiet; [done| |].
  - intros j. rewrite helper_insert. case_decide; [|done]. subst.
    by rewrite Hh, (helper_lookup _ _ _ Hi).
  - intros j d. rewrite lookup_insert. case_decide; [by intros [= <-]; subst|].
    apply (inv_paired _ Hinv).
Qed.

(** The helper of [i] moves: what a new slot and log must satisfy. *)
Lemma inv_helper st i c c' sl l :
  inv st -> calls st !! i = Some c ->
  (holds (hp c') <-> sl = Some i) ->
  (forall j, j <> i -> slot st = Some j <-> sl = Some j) ->
  serial l (match sl with
            | Some j => match (if decide (i = j) then hp c' else helper_of st j) with
                        | HSending => Some j | _ => None end
            | None => None
            end) ->
  NoDup (begun l) ->
  logged l i (hp c') ->
  (forall j h, j <> i -> logged (wirelog st) j h -> logged l j h) ->
  paired l i c' ->
  (forall j d, j <> i -> paired (wirelog st) j d -> paired l j d) ->
  inv (MkState (connected st) sl (<[i := c']> (calls st)) l).
Proof.
  intros Hinv Hi Hh Hsl Hser Hnd Hl Hlj Hp Hpj. split; simpl.
  - intros j. rewrite helper_insert. case_decide; [by subst|].
    rewrite helper_of_state, (inv_slot _ Hinv). by apply Hsl.
  - rewrite open_send_alt. simpl. destruct sl as [j|]; [|done].
    by rewrite helper_insert, helper_of_state.
  - done.
  - intros j. rewrite helper_insert. case_decide; [by subst|].
    rewrite helper_of_state. apply Hlj; [done|]. apply (inv_logged _ Hinv).
  - intros j d. rewrite lookup_insert. case_decide; [by intros [= <-]; subst|].
    intros Hd. apply Hpj; [done|]. by apply (inv_paired _ Hinv).
Qed.

Lemma slot_of_holder st i c : inv st -> calls st !! i = Some c -> holds (hp c) -> slot st = Some i.
Proof. intros Hinv Hi Hh. apply (inv_slot _ Hinv). by rewrite (helper_lookup _ _ _ Hi). Qed.

Lemma paired_helper l i c h : pc c <> CStart -> pc c <> CAcquire -> h <> HNone ->
  paired l i c -> paired l i (with_hp c h).
Proof. unfold paired. simpl. by destruct (pc c) as [| | |[]]. Qed.

Lemma not_early st i c : inv st -> calls st !! i = Some c -> hp c <> HNone ->
  pc c <> CStart /\ pc c <> CAcquire.
Proof.
  intros Hinv Hi Hh. pose proof (inv_paired _ Hinv _ _ Hi) as Hp. unfold paired in Hp.
  split; intros E; rewrite E in Hp; done.
Qed.

Lemma acquire_inv st i c :
  inv st -> calls st !! i = Some c -> pc c = CAcquire -> slot st = None ->
  inv (MkState (connected st) (Some i) (<[i := with_hp (with_pc c CAwait) HSending]> (calls st))
         (wirelog st ++ [SendBegin i (msg c)])).
Proof.
  intros Hinv Hi Hpc Hslot.
  assert (hp c = HNone) as Hnone.
  { pose proof (inv_paired _ Hinv _ _ Hi) as Hp. unfold paired in Hp. by rewrite Hpc in Hp. }
  pose proof (inv_logged _ Hinv i) as Hl. rewrite (helper_lookup _ _ _ Hi), Hnone in Hl.
  pose proof (inv_serial _ Hinv) as Hs. rewrite open_send_alt, Hslot in Hs.
  apply (inv_helper st i c); simpl; try done.
  - intros j Hj. rewrite Hslot. split; congruence.
  - rewrite decide_True by done. by constructor.
  - rewrite begun_app. simpl. apply list.NoDup_app. split; [apply (inv_begun _ Hinv)|].
    split; [|apply NoDup_singleton]. intros x Hx Hx'. apply list_elem_of_singleton in Hx'. by subst.
  - intros j h Hj. apply logged_app. intros _ [= E]. by subst.
  - intros j d Hj. apply paired_app.
Qed.

Lemma sent_inv st i c r :
  inv st -> calls st !! i = Some c -> hp c = HSending ->
  inv (MkState (connected st) (slot st) (<[i := with_hp c (HReturned r)]> (calls st))
         (wirelog st ++ [SendEnd i r])).
Proof.
  intros Hinv Hi Hh. assert (slot st = Some i) as Hslot
    by (eapply slot_of_holder; [done..|by rewrite Hh]).
  destruct (not_early st i c Hinv Hi) as [Hn1 Hn2]; [by rewrite Hh|].
  pose proof (inv_serial _ Hinv) as Hs.
  rewrite open_send_alt, Hslot, (helper_lookup _ _ _ Hi), Hh in Hs.
  apply (inv_helper st i c); simpl; try done.
  - rewrite Hslot, decide_True by done. by constructor.
  - rewrite begun_app, app_nil_r. apply (inv_begun _ Hinv).
  - apply elem_of_app. right. by apply list_elem_of_singleton.
  - intros j h Hj. by apply logged_app.
  - apply paired_helper; [done..|]. apply paired_app, (inv_paired _ Hinv), Hi.
  - intros j d Hj. apply paired_app.
Qed.

Lemma release_inv st i c r :
  inv st -> calls st !! i = Some c -> hp c = HReturned r ->
  inv (MkState (connected st) None (<[i := with_hp c (HReleased r)]> (calls st)) (wirelog st)).
Proof.
  intros Hinv Hi Hh. assert (slot st = Some i) as Hslot
    by (eapply slot_of_holder; [done..|by rewrite Hh]).
  destruct (not_early st i c Hinv Hi) as [Hn1 Hn2]; [by rewrite Hh|].
  pose proof (inv_serial _ Hinv) as Hs.
  rewrite open_send_alt, Hslot, (helper_lookup _ _ _ Hi), Hh in Hs.
  pose proof (inv_logged _ Hinv i) as Hl. rewrite (helper_lookup _ _ _ Hi), Hh in Hl.
  apply (inv_helper st i c); simpl; try done.
  - intros j Hj. rewrite Hslot. split; congruence.
  - apply (inv_begun _ Hinv).
  - apply paired_helper; [done..|]. by apply (inv_paired _ Hinv).
Qed.

Lemma publish_inv st i c r :
  inv st -> calls st !! i = Some c -> hp c = HReleased r ->
  inv (MkState (connected st) (slot st) (<[i := with_hp c (HDone r)]> (calls st)) (wirelog st)).
Proof.
  intros Hinv Hi Hh.
  destruct (not_early st i c Hinv Hi) as [Hn1 Hn2]; [by rewrite Hh|].
  pose proof (inv_serial _ Hinv) as Hs. rewrite open_send_alt in Hs.
  pose proof (inv_logged _ Hinv i) as Hl. rewrite (helper_lookup _ _ _ Hi), Hh in Hl.
  assert (slot st <> Some i) as Hns.
  { rewrite <-(inv_slot _ Hinv), (helper_lookup _ _ _ Hi), Hh. by intros []. }
  apply (inv_helper st i c); simpl; try done.
  - destruct (slot st) as [j|]; [|done]. by rewrite decide_False by congruence.
  - apply (inv_begun _ Hinv).
  - apply paired_helper; [done..|]. by apply (inv_paired _ Hinv).
Qed.

Lemma send_step_inv st st' : step st st' -> inv st -> inv st'.
Proof.
  intros Hstep Hinv. destruct Hstep as
    [st i m Hi|st i c e Hi _|st b|st i c Hi Hpc|st i c Hi Hpc Hs|st i c e Hi Hpc Hc
    |st i c r Hi Hh|st i c r Hi Hh|st i c r Hi Hh|st i c r Hi Hpc Hh|st i c e Hi Hpc Hc].
  - apply inv_quiet; [done| |].
    + intros j. rewrite helper_insert. case_decide; [|done]. subst. simpl.
      unfold helper_of. by rewrite Hi.
    + intros j c. rewrite lookup_insert. case_decide; [by intros [= <-]|].
      apply (inv_paired _ Hinv).
  - eapply inv_caller; [done..|]. apply (inv_paired _ Hinv _ _ Hi).
  - apply inv_quiet; [done..|]. apply (inv_paired _ Hinv).
  - eapply inv_caller; [done..|]. pose proof (inv_paired _ Hinv _ _ Hi) as Hp.
    unfold paired in *. rewrite Hpc in Hp. unfold with_pc, entry; simpl.
    by destruct (connected st), (ctx c).
  - by apply acquire_inv.
  - by eapply inv_caller.
  - by apply sent_inv.
  - by apply release_inv.
  - by apply publish_inv.
  - eapply inv_caller; [done..|]. pose proof (inv_logged _ Hinv i) as Hl.
    rewrite (helper_lookup _ _ _ Hi), Hh in Hl. unfold paired. simpl. by destruct r.
  - by eapply inv_caller.
Qed.

Lemma send_reachable_inv st : reachable st -> inv st.
Proof.
  intros H. pose proof init_inv as Hi. unfold reachable in H.
  induction H as [|x y z Hxy _ IH]; [done|]. apply IH. by eapply send_step_inv.
Qed.

(** ** Properties *)

(** C3: whatever goroutines call [send] and however contexts are cancelled, the
    writes on the stream are serialized: each [stream.Send] ends before the next
    begins, so at most one is ever in flight. *)
Theorem sends_serialized st : reachable st -> exists o, serial (wirelog st) o.
Proof. intros H%send_reachable_inv. eauto using inv_serial. Qed.

(** One heartbeat sent from start to finish. *)
Definition demo_msg : AgentMessage := MkAgentMessage (str "01") (AgentMessage_Heartbeat []).
Definition demo_state : state :=
  MkState true None {[0 := MkCall demo_msg (CDone None) (HDone None) None]}
    [SendBegin 0 demo_msg; SendEnd 0 None].

Lemma demo_reachable : reachable demo_state.
Proof.
  unfold reachable.
  eapply rtc_l; [apply (s_stream _ true)|].
  eapply rtc_l; [apply (s_call _ 0 demo_msg); reflexivity|].
  eapply rtc_l; [apply (s_enter _ 0 (MkCall demo_msg CStart HNone None)); reflexivity|].
  eapply rtc_l; [apply (s_acquire _ 0 (MkCall demo_msg CAcquire HNone None)); reflexivity|].
  eapply rtc_l; [apply (s_sent _ 0 (MkCall demo_msg CAwait HSending None) None); reflexivity|].
  eapply rtc_l; [apply (s_release _ 0 (MkCall demo_msg CAwait (HReturned None) None) None); reflexivity|].
  eapply rtc_l; [apply (s_publish _ 0 (MkCall demo_msg CAwait (HReleased None) None) None); reflexivity|].
  eapply rtc_l; [apply (s_result _ 0 (MkCall demo_msg CAwait (HDone None) None) None); reflexivity|].
  apply rtc_refl.
Qed.

Lemma sends_serialized_witness : exists o, serial (wirelog demo_state) o.
Proof. apply sends_serialized. exact demo_reachable. Defined.

(** a call of [send] hands its message to the stream at most once, and when
    it returns nil its own [stream.Send] has ended without an error. *)
Theorem send_nil_delivered st i c :
  reachable st -> calls st !! i = Some c -> pc c = CDone None ->
  SendEnd i None ∈ wirelog st /\ NoDup (begun (wirelog st)).
Proof.
  intros H%send_reachable_inv Hi Hpc. pose proof (inv_paired _ H _ _ Hi) as Hp.
  unfold paired in Hp. rewrite Hpc in Hp. eauto using inv_begun.
Qed.

Lemma send_nil_delivered_witness :
  SendEnd 0 None ∈ wirelog demo_state /\ NoDup (begun (wirelog demo_state)).
Proof.
  apply (send_nil_delivered demo_state 0 (MkCall demo_msg (CDone None) (HDone None) None));
    [exact demo_reachable|reflexivity..].
Defined.

(** no sender is wedged past its own deadline: a caller whose context is
    done can return with the context's error in one step, whoever holds the slot
    and however long the peer stalls. *)
Theorem send_abandons_on_ctx st i c e :
  calls st !! i = Some c -> ctx c = Some e -> (pc c = CAcquire \/ pc c = CAwait) ->
  exists st' c', step st st' /\ calls st' !! i = Some c' /\ pc c' = CDone (Some e).
Proof.
  intros Hi Hc [Hpc|Hpc]; do 2 eexists;
    (split; [by eauto using s_acquire_ctx, s_await_ctx|]); simpl;
    (split; [apply lookup_insert_eq|done]).
Qed.

(** A sender queued behind a stalled send whose deadline has passed. *)
Definition stalled_state : state :=
  MkState true (Some 0)
    (<[0 := MkCall demo_msg CAwait HSending None]>
       {[1 := MkCall demo_msg CAcquire HNone (Some (str "context deadline exceeded"))]})
    [SendBegin 0 demo_msg].

Lemma send_abandons_on_ctx_witness :
  exists st' c', step stalled_state st' /\ calls st' !! 1 = Some c' /\
    pc c' = CDone (Some (str "context deadline exceeded")).
Proof.
  apply (send_abandons_on_ctx stalled_state 1
           (MkCall demo_msg CAcquire HNone (Some (str "context deadline exceeded"))));
    [reflexivity|reflexivity|left; reflexivity].
Defined.

End SendSlot.
