(* ===== verification/Client.v ===== *)
(** * The stream client ([src/client.go]): state, requests and dispatch

    [World] is the client's shared state with the state of the agent's handler
    and a trace of what leaves the client: calls into the handler, messages
    given to [stream.Send], goroutines started.  The handler, the transport, the
    ULID source and the struct validator are parameters.  Every operation is a
    function in a small state monad whose result is a value or a panic. *)
From S2P Require Import Prelude Messages.
Import pm.

Module Client.

(** ** Results of code that may panic *)
Inductive outcome (A : Type) := Returned (a : A) | Panicked.
Arguments Returned {A} a.
Arguments Panicked {A}.

(** ** Client state *)

(** A pending-request channel: capacity 1. *)
Record pending_chan := MkChan { buf : option ServerMessage; closed : bool }.

(** [type Client struct]: the fields that change, and the two identity fields.
    A nil channel field is [None]; [deliveryCh] holds what is queued and
    [heartbeatUpdate] the buffered interval. *)
Record Client := MkClient {
  deviceID : gostring;
  authToken : gostring;
  stream : bool;
  deliveryCh : option (list ManifestDelivery);
  pendingRequests : gmap gostring nat;
  chans : gmap nat pending_chan;
  heartbeatUpdate : option (option Z);
  invSem : nat;
  luksRevokeSem : nat
}.

Definition set_stream (b : bool) (c : Client) : Client :=
  MkClient (deviceID c) (authToken c) b (deliveryCh c) (pendingRequests c) (chans c)
    (heartbeatUpdate c) (invSem c) (luksRevokeSem c).
Definition set_deliveryCh (q : option (list ManifestDelivery)) (c : Client) : Client :=
  MkClient (deviceID c) (authToken c) (stream c) q (pendingRequests c) (chans c)
    (heartbeatUpdate c) (invSem c) (luksRevokeSem c).
Definition set_pending (p : gmap gostring nat) (ch : gmap nat pending_chan) (c : Client) : Client :=
  MkClient (deviceID c) (authToken c) (stream c) (deliveryCh c) p ch
    (heartbeatUpdate c) (invSem c) (luksRevokeSem c).
Definition set_heartbeat (h : option (option Z)) (c : Client) : Client :=
  MkClient (deviceID c) (authToken c) (stream c) (deliveryCh c) (pendingRequests c) (chans c)
    h (invSem c) (luksRevokeSem c).
Definition set_sems (i l : nat) (c : Client) : Client :=
  MkClient (deviceID c) (authToken c) (stream c) (deliveryCh c) (pendingRequests c) (chans c)
    (heartbeatUpdate c) i l.

Definition inventoryDispatchConcurrency : nat := 2.
Definition luksRevokeDispatchConcurrency : nat := 2.
Definition deliveryQueueDepth : nat := 256.

(** 5 s and 5 min in nanoseconds. *)
Definition MinHeartbeatInterval : Z := 5 * 1000000000.
Definition MaxHeartbeatInterval : Z := 5 * 60 * 1000000000.

(** [NewClient] with the identity that [WithAuth] sets. *)
Definition NewClient (deviceID authToken : gostring) : Client :=
  MkClient deviceID authToken false None ∅ ∅ None 0 0.

(** ** Pending requests *)

(** [registerPending]: a fresh channel under the id; the caller keeps it. *)
Definition registerPending (id : gostring) (ch : nat) (c : Client) : Client :=
  set_pending (<[id := ch]> (pendingRequests c)) (<[ch := MkChan None false]> (chans c)) c.

Definition unregisterPending (id : gostring) (c : Client) : Client :=
  set_pending (delete id (pendingRequests c)) (chans c) c.

(** [select { case ch <- msg: default: }] on a buffered-1 channel. *)
Definition chan_put (m : ServerMessage) (ch : pending_chan) : outcome pending_chan :=
  if closed ch then Panicked
  else match buf ch with
       | None => Returned (MkChan (Some m) false)
       | Some _ => Returned ch
       end.

(** [deliverPending]: whether the id matched a pending request. *)
Definition deliverPending (m : ServerMessage) (c : Client) : outcome bool * Client :=
  match pendingRequests c !! Id m with
  | None => (Returned false, c)
  | Some k =>
      match chans c !! k with
      | None => (Returned true, c)
      | Some ch => match chan_put m ch with
                   | Panicked => (Panicked, c)
                   | Returned ch' =>
                       (Returned true, set_pending (pendingRequests c) (<[k := ch']> (chans c)) c)
                   end
      end
  end.

(** The channels that [Close] closes. *)
Definition close_chan (k : nat) (cs : gmap nat pending_chan) : gmap nat pending_chan :=
  alter (fun ch => MkChan (buf ch) true) k cs.

Definition Close (c : Client) : Client :=
  if stream c then
    set_stream false
      (set_pending ∅ (foldr (fun kv => close_chan kv.2) (chans c) (map_to_list (pendingRequests c))) c)
  else c.

Definition Connect (c : Client) : result gostring Client :=
  if stream c then Err (str "already connected") else Ok (set_stream true c).

(** ** Heartbeat *)

Definition clamp_heartbeat (d : Z) : Z :=
  let d := if (d <? MinHeartbeatInterval)%Z then MinHeartbeatInterval else d in
  if (MaxHeartbeatInterval <? d)%Z then MaxHeartbeatInterval else d.

(** Non-blocking receive and send on the capacity-1 update channel. *)
Definition try_recv (b : option Z) : option Z := None.
Definition try_send (d : Z) (b : option Z) : option Z :=
  match b with None => Some d | Some old => Some old end.

(** [applyWelcomeHeartbeat]: drain the stale value, then push the fresh one. *)
Definition applyWelcomeHeartbeat (w : option Welcome) (c : Client) : Client :=
  match w ≫= HeartbeatInterval with
  | None => c
  | Some d =>
      if (d <=? 0)%Z then c
      else match heartbeatUpdate c with
           | None => c
           | Some b => set_heartbeat (Some (try_send (clamp_heartbeat d) (try_recv b))) c
           end
  end.

(** ** The handler, a parameter of the client

    A method reads and changes the handler's own state; the extension
    interfaces a handler may implement are options, as the type assertions
    [handler.(X)] see them. *)
Section Handler.
Context (S : Type).

Definition method (Req Res : Type) : Type := Req -> S -> outcome Res * S.

(** A streaming run: it may call [sendChunk] before it returns or panics. *)
Inductive streaming_run :=
| RunChunk (chunk : wire) (k : error -> streaming_run)
| RunEnd (r : outcome error) (s : S).

Record InventoryHandler := MkInventoryHandler {
  CollectInventory : method unit (option wire);
  OnRequestInventory : method wire (option wire)
}.

Record TerminalHandler := MkTerminalHandler {
  OnTerminalStart : method wire error;
  OnTerminalInput : method wire error;
  OnTerminalResize : method wire error;
  OnTerminalStop : method wire error
}.

Record StreamHandler := MkStreamHandler {
  OnWelcome : method Welcome error;
  OnManifestDelivery : method ManifestDelivery error;
  OnQuery : method wire (option wire * error);
  OnError : method Error error;
  OnManifestDeliveryWithStreaming : option (ManifestDelivery -> S -> streaming_run);
  OnRevokeLuksDeviceKey : option (method RevokeLuksDeviceKey (bool * gostring));
  OnLogQuery : option (method wire (option wire * error));
  inventoryHandler : option InventoryHandler;
  terminalHandler : option TerminalHandler
}.
End Handler.

(** What a method of the handler is called for: the payloads that [validateInbound] sees, and
    the collection of the inventory that the agent starts. *)
Inductive inbound :=
| InDelivery (d : ManifestDelivery)
| InQuery (q : wire)
| InInventory (r : wire)
| InLogQuery (q : wire)
| InRevoke (r : RevokeLuksDeviceKey)
| InTerminalStart (r : wire)
| InTerminalInput (r : wire)
| InTerminalResize (r : wire)
| InTerminalStop (r : wire)
| InWelcome (w : Welcome)
| InError (e : Error)
| InGetLuksKey (r : GetLuksKeyResponse)
| InValidateLuksToken (r : ValidateLuksTokenResponse)
| InSyncState (r : SyncState)
| InCollect.

#[export] Instance inbound_eq_dec : EqDecision inbound.
Proof. solve_decision. Defined.

(** How one [send] on a connected stream went: the message was written, or an
    error came back after it was handed to the stream, or the context was done
    before the slot was free. *)
Inductive send_result := Written | SendFailed (e : gostring) | Refused (e : gostring).

Record Env := MkEnv {
  transport : nat -> AgentMessage -> send_result;  (** the n-th send *)
  ulid : nat -> gostring;                          (** the n-th [NewULID] *)
  validator : option (inbound -> error);           (** nil, or the rejection text *)
  GOARCH : gostring
}.

(** ** The world *)

Inductive task := TaskInventory (r : wire) | TaskRevoke (r : RevokeLuksDeviceKey).

(** How a handler method came back: a nil error, an error, or a panic. *)
Inductive call_result := CallOk | CallErr | CallPanic.

Inductive event :=
| EvCall (p : inbound) (r : call_result)
| EvSent (m : AgentMessage) (ok : bool)
| EvSpawn (t : task).

Section World.
Context {S : Type} (env : Env) (h : StreamHandler S).

Record World := MkWorld {
  client : Client; hstate : S; trace : list event; n_ulid : nat; n_send : nat
}.

Definition M (A : Type) : Type := World -> outcome A * World.

#[export] Instance M_ret : MRet M := fun A a w => (Returned a, w).
#[export] Instance M_bind : MBind M := fun A B k m w =>
  match m w with
  | (Returned a, w') => k a w'
  | (Panicked, w') => (Panicked, w')
  end.

Definition get : M Client := fun w => (Returned (client w), w).
Definition modify (f : Client -> Client) : M unit := fun w =>
  (Returned tt, MkWorld (f (client w)) (hstate w) (trace w) (n_ulid w) (n_send w)).
Definition emit (e : event) : M unit := fun w =>
  (Returned tt, MkWorld (client w) (hstate w) (trace w ++ [e]) (n_ulid w) (n_send w)).

(** [defer func() { if r := recover(); r != nil {...} }()] around [m]. *)
Definition recovering {A} (on_panic : A) (m : M A) : M A := fun w =>
  match m w with
  | (Returned a, w') => (Returned a, w')
  | (Panicked, w') => (Returned on_panic, w')
  end.

(** [defer release()] around [m]: the release runs on a panic too. *)
Definition deferring {A} (release : Client -> Client) (m : M A) : M A := fun w =>
  let '(r, w') := m w in
  (r, MkWorld (release (client w')) (hstate w') (trace w') (n_ulid w') (n_send w')).

(** Invoke a handler method. *)
Definition invoke {Req Res} (p : inbound) (m : method S Req Res) (failed : Res -> bool) (x : Req)
    : M Res := fun w =>
  let '(r, s) := m x (hstate w) in
  let c := match r with
           | Panicked => CallPanic
           | Returned a => if failed a then CallErr else CallOk
           end in
  (r, MkWorld (client w) s (trace w ++ [EvCall p c]) (n_ulid w) (n_send w)).

Definition is_err (e : error) : bool := match e with Some _ => true | None => false end.

Definition NewULID : M gostring := fun w =>
  (Returned (ulid env (n_ulid w)),
   MkWorld (client w) (hstate w) (trace w) (Datatypes.S (n_ulid w)) (n_send w)).

(** [send]: one message on the stream. *)
Definition send (m : AgentMessage) : M error := fun w =>
  if stream (client w) then
    let w' tr := MkWorld (client w) (hstate w) tr (n_ulid w) (Datatypes.S (n_send w)) in
    match transport env (n_send w) m with
    | Written => (Returned None, w' (trace w ++ [EvSent m true]))
    | SendFailed e => (Returned (Some e), w' (trace w ++ [EvSent m false]))
    | Refused e => (Returned (Some e), w' (trace w))
    end
  else (Returned (Some (str "not connected")), w).

(** A message under a fresh id. *)
Definition send_new (p : AgentPayload) : M error :=
  id ← NewULID; send (MkAgentMessage id p).

(** ** One-way messages *)

Definition SendHello (hostname agentVersion : gostring) : M error :=
  c ← get;
  send_new (AgentMessage_Hello (deviceID c) agentVersion hostname (authToken c) (GOARCH env)).
Definition SendHeartbeat (hb : wire) : M error := send_new (AgentMessage_Heartbeat hb).
Definition SendActionResult (r : wire) : M error := send_new (AgentMessage_ActionResult r).
Definition SendManifestResult (r : wire) : M error := send_new (AgentMessage_ManifestResult r).
Definition SendDeliveryReceipt (deliveryID : gostring) : M error :=
  send_new (AgentMessage_DeliveryReceipt deliveryID).
Definition SendOutputChunk (c : wire) : M error := send_new (AgentMessage_OutputChunk c).
Definition SendQueryResult (r : wire) : M error := send_new (AgentMessage_QueryResult r).
Definition SendLogQueryResult (r : wire) : M error := send_new (AgentMessage_LogQueryResult r).
Definition SendSecurityAlert (a : wire) : M error := send_new (AgentMessage_SecurityAlert a).
Definition SendInventory (inv : option wire) : M error :=
  match inv with
  | None => mret None
  | Some i => send_new (AgentMessage_Inventory i)
  end.
Definition SendTerminalOutput (o : wire) : M error := send_new (AgentMessage_TerminalOutput o).
Definition SendTerminalStateChange (c : wire) : M error :=
  send_new (AgentMessage_TerminalStateChange c).
Definition SendRevokeLuksDeviceKeyResult (actionID : gostring) (success : bool) (e : gostring)
    : M error :=
  send_new (AgentMessage_RevokeLuksDeviceKeyResult actionID success e).

(** [validateInbound]. *)
Definition validateInbound (p : inbound) : error :=
  match validator env with
  | None => None
  | Some check => check p
  end.

(** ** Deliveries *)

(** Run a streaming handler; each chunk goes through [SendOutputChunk]. *)
Fixpoint run_streaming (d : ManifestDelivery) (r : streaming_run S) : M error :=
  match r with
  | RunChunk _ chunk k => e ← SendOutputChunk chunk; run_streaming d (k e)
  | RunEnd _ r s => invoke (InDelivery d) (fun _ _ => (r, s)) is_err d
  end.

(** The handler's part: record the delivery, streaming output if it can. *)
Definition record_delivery (d : ManifestDelivery) : M error := fun w =>
  match OnManifestDeliveryWithStreaming _ h with
  | Some run => run_streaming d (run d (hstate w)) w
  | None => invoke (InDelivery d) (OnManifestDelivery _ h) is_err d w
  end.

Definition runManifestDelivery (d : ManifestDelivery) : M unit :=
  recovering tt (
    err ← record_delivery d;
    match err with
    | Some _ => mret tt
    | None => SendDeliveryReceipt (DeliveryId d) ≫= fun _ => mret tt
    end).

(** ** Spawned goroutines

    [safeGo] recovers a panic; the deferred receive gives the slot back. *)
Definition run_task (t : task) : M unit :=
  recovering tt (
    match t with
    | TaskInventory r =>
        deferring (fun c => set_sems (invSem c - 1) (luksRevokeSem c) c) (
          match inventoryHandler _ h with
          | None => mret tt
          | Some ih =>
              inv ← invoke (InInventory r) (OnRequestInventory _ ih) (fun _ => false) r;
              match inv with
              | None => mret tt
              | Some i => SendInventory (Some i) ≫= fun _ => mret tt
              end
          end)
    | TaskRevoke r =>
        deferring (fun c => set_sems (invSem c) (luksRevokeSem c - 1) c) (
          match OnRevokeLuksDeviceKey _ h with
          | None => mret tt
          | Some f =>
              res ← invoke (InRevoke r) f (fun _ => false) r;
              SendRevokeLuksDeviceKeyResult (revoke_ActionId r) res.1 res.2 ≫= fun _ => mret tt
          end)
    end).

(** ** Dispatch, one definition per arm of the switch *)

(** The nil guard of every command arm. *)
Definition non_nil {P} (p : option P) (k : P -> M error) : M error :=
  match p with None => mret None | Some x => k x end.

(** The validation guard that follows it. *)
Definition validated {P} (inj : P -> inbound) (x : P) (k : M error) : M error :=
  match validateInbound (inj x) with Some _ => mret None | None => k end.

Definition dispatch_welcome (p : option Welcome) : M error :=
  non_nil p (fun w =>
    modify (applyWelcomeHeartbeat (Some w)) ≫= fun _ =>
    err ← invoke (InWelcome w) (OnWelcome _ h) is_err w;
    mret (wrap "handle welcome" <$> err)).

Definition dispatch_delivery (p : option ManifestDelivery) : M error :=
  non_nil p (fun d => validated InDelivery d (
    c ← get;
    match deliveryCh c with
    | Some q =>
        (if length q <? deliveryQueueDepth
         then modify (set_deliveryCh (Some (q ++ [d]))) else mret tt) ≫= fun _ => mret None
    | None => runManifestDelivery d ≫= fun _ => mret None
    end)).

(** The tail that [Query] and [LogQuery] share: an error is fatal, a result is
    sent back. *)
Definition reply_with (handle send_ctx : string) (snd : wire -> M error) (r : option wire * error)
    : M error :=
  match r with
  | (_, Some e) => mret (Some (wrap handle e))
  | (None, None) => mret None
  | (Some q, None) => err ← snd q; mret (wrap send_ctx <$> err)
  end.

Definition dispatch_query (p : option wire) : M error :=
  non_nil p (fun q => validated InQuery q (
    r ← invoke (InQuery q) (OnQuery _ h) (fun r => is_err r.2) q;
    reply_with "handle query" "send query result" SendQueryResult r)).

(** [deliverPending] on the shared state. *)
Definition deliver (m : ServerMessage) : M bool := fun w =>
  let '(r, c) := deliverPending m (client w) in
  (r, MkWorld c (hstate w) (trace w) (n_ulid w) (n_send w)).

Definition dispatch_error (m : ServerMessage) (p : option Error) : M error :=
  non_nil p (fun e =>
    delivered ← deliver m;
    if (delivered : bool) then mret None
    else err ← invoke (InError e) (OnError _ h) is_err e;
         mret (wrap "handle error" <$> err)).

Definition dispatch_response (m : ServerMessage) : M error := deliver m ≫= fun _ => mret None.

Definition dispatch_inventory (p : option wire) : M error :=
  non_nil p (fun r => validated InInventory r (
    match inventoryHandler _ h with
    | None => mret None
    | Some _ =>
        c ← get;
        if invSem c <? inventoryDispatchConcurrency then
          modify (set_sems (Datatypes.S (invSem c)) (luksRevokeSem c)) ≫= fun _ =>
          emit (EvSpawn (TaskInventory r)) ≫= fun _ => mret None
        else mret None
    end)).

Definition dispatch_logquery (p : option wire) : M error :=
  non_nil p (fun q => validated InLogQuery q (
    match OnLogQuery _ h with
    | None => mret None
    | Some f =>
        r ← invoke (InLogQuery q) f (fun r => is_err r.2) q;
        reply_with "handle log query" "send log query result" SendLogQueryResult r
    end)).

Definition dispatch_revoke (p : option RevokeLuksDeviceKey) : M error :=
  non_nil p (fun r => validated InRevoke r (
    match OnRevokeLuksDeviceKey _ h with
    | None => mret None
    | Some _ =>
        c ← get;
        if luksRevokeSem c <? luksRevokeDispatchConcurrency then
          modify (set_sems (invSem c) (Datatypes.S (luksRevokeSem c))) ≫= fun _ =>
          emit (EvSpawn (TaskRevoke r)) ≫= fun _ => mret None
        else mret None
    end)).

(** The four terminal arms. *)
Definition dispatch_terminal (inj : wire -> inbound) (sel : TerminalHandler S -> method S wire error)
    (what : string) (p : option wire) : M error :=
  non_nil p (fun r => validated inj r (
    match terminalHandler _ h with
    | None => mret None
    | Some th => err ← invoke (inj r) (sel th) is_err r; mret (wrap what <$> err)
    end)).

Definition dispatch_body (m : ServerMessage) : M error :=
  match Payload m with
  | ServerMessage_Welcome p => dispatch_welcome p
  | ServerMessage_ManifestDelivery p => dispatch_delivery p
  | ServerMessage_Query p => dispatch_query p
  | ServerMessage_Error p => dispatch_error m p
  | ServerMessage_SyncState _ | ServerMessage_GetLuksKey _ | ServerMessage_StoreLuksKey _
  | ServerMessage_StoreLpsPasswords _ | ServerMessage_ValidateLuksToken _ => dispatch_response m
  | ServerMessage_RequestInventory p => dispatch_inventory p
  | ServerMessage_LogQuery p => dispatch_logquery p
  | ServerMessage_RevokeLuksDeviceKey p => dispatch_revoke p
  | ServerMessage_TerminalStart p =>
      dispatch_terminal InTerminalStart (OnTerminalStart _) "handle terminal start" p
  | ServerMessage_TerminalInput p =>
      dispatch_terminal InTerminalInput (OnTerminalInput _) "handle terminal input" p
  | ServerMessage_TerminalResize p =>
      dispatch_terminal InTerminalResize (OnTerminalResize _) "handle terminal resize" p
  | ServerMessage_TerminalStop p =>
      dispatch_terminal InTerminalStop (OnTerminalStop _) "handle terminal stop" p
  | ServerMessage_Unknown => mret None
  end.

(** A nil message panics on [msg.Payload]; any panic becomes a nil error. *)
Definition dispatchServerMessage (m : option ServerMessage) : M error :=
  recovering None (match m with
                   | None => fun w => (Panicked, w)
                   | Some m => dispatch_body m
                   end).

End World.
End Client.
