(* ===== verification/ClientDispatch.v ===== *)
(** * Dispatch and delivery: what the client's routing guarantees

    Theorems about [dispatchServerMessage] and [runManifestDelivery] of
    [Client.v], for every handler, transport and validator. *)
From S2P Require Import Prelude Messages Client.
Import pm Client.Client.

Module Dispatch.
Section Dispatch.
Context {S : Type} (env : Env) (h : StreamHandler S).

Abbreviation M := (Client.M (S := S)).
Abbreviation World := (Client.World (S := S)).

(** ** Events *)

Definition is_chunk (e : event) : Prop :=
  exists id c ok, e = EvSent (MkAgentMessage id (AgentMessage_OutputChunk c)) ok.

Definition receipt_of (e : event) : option gostring :=
  match e with
  | EvSent (MkAgentMessage _ (AgentMessage_DeliveryReceipt id)) _ => Some id
  | _ => None
  end.

(** The arms that may answer a pending request. *)
Definition answers_request (p : ServerPayload) : Prop :=
  match p with
  | ServerMessage_SyncState _ | ServerMessage_GetLuksKey _ | ServerMessage_StoreLuksKey _
  | ServerMessage_StoreLpsPasswords _ | ServerMessage_ValidateLuksToken _
  | ServerMessage_Error (Some _) => True
  | _ => False
  end.

(** What one [send] of a fresh message logs. *)
Definition sent_log (w : World) (p : AgentPayload) : list event :=
  let m := MkAgentMessage (ulid env (n_ulid w)) p in
  if stream (client w) then
    match transport env (n_send w) m with
    | Written => [EvSent m true]
    | SendFailed _ => [EvSent m false]
    | Refused _ => []
    end
  else [].

Definition send_error (w : World) (p : AgentPayload) : error :=
  let m := MkAgentMessage (ulid env (n_ulid w)) p in
  if stream (client w) then
    match transport env (n_send w) m with
    | Written => None
    | SendFailed e | Refused e => Some e
    end
  else Some (str "not connected").

(** ** Lemmas on the monad *)

Lemma bind_unfold {A B} (m : M A) (k : A -> M B) w :
  (m ≫= k) w = match m w with
               | (Returned a, w') => k a w'
               | (Panicked, w') => (Panicked, w')
               end.
Proof. done. Qed.

Lemma send_new_spec p (w : World) :
  exists w', send_new env p w = (Returned (send_error w p), w') /\
    trace w' = trace w ++ sent_log w p /\ client w' = client w /\ hstate w' = hstate w.
Proof.
  unfold send_new, send_error, sent_log. rewrite bind_unfold. simpl. unfold send. simpl.
  destruct (stream (client w)); [destruct (transport _ _ _)|]; eexists; repeat split;
    simpl; by rewrite ?app_nil_r.
Qed.

Lemma sent_log_payload (w : World) p e :
  e ∈ sent_log w p -> exists id ok, e = EvSent (MkAgentMessage id p) ok.
Proof.
  unfold sent_log. destruct (stream _); [destruct (transport _ _ _)|];
    rewrite ?list_elem_of_singleton; try set_solver; intros ->; eauto.
Qed.

Lemma run_streaming_spec d r (w : World) :
  exists w' o chunks c, run_streaming env d r w = (o, w') /\
    trace w' = trace w ++ chunks ++ [EvCall (InDelivery d) c] /\
    Forall is_chunk chunks /\ client w' = client w /\
    c = match o with
        | Panicked => CallPanic
        | Returned None => CallOk
        | Returned (Some _) => CallErr
        end.
Proof.
  revert w; induction r as [chunk k IH|r s]; intros w; simpl.
  - rewrite bind_unfold.
    destruct (send_new_spec (AgentMessage_OutputChunk chunk) w) as (w1 & E1 & T1 & C1 & _).
    unfold SendOutputChunk. rewrite E1.
    destruct (IH (send_error w (AgentMessage_OutputChunk chunk)) w1)
      as (w' & o & chunks & c & -> & T & F & C & Hc).
    exists w', o, (sent_log w (AgentMessage_OutputChunk chunk) ++ chunks), c.
    split; [done|]. split; [by rewrite T, T1, <-!app_assoc|].
    split; [|split; [congruence|done]].
    apply Forall_app. split; [|done]. apply list.Forall_forall. intros e He.
    apply sent_log_payload in He as (id & ok & ->). unfold is_chunk. eauto.
  - unfold invoke. eexists _, r, [], _. split; [done|]. simpl. split; [done|].
    split; [constructor|]. split; [done|]. by destruct r as [[]|].
Qed.

(** The handler's part of [runManifestDelivery], streaming or not. *)
Lemma record_spec d (w : World) :
  exists w' o chunks c,
    record_delivery env h d w = (o, w') /\
    trace w' = trace w ++ chunks ++ [EvCall (InDelivery d) c] /\
    Forall is_chunk chunks /\ client w' = client w /\
    c = match o with
        | Panicked => CallPanic
        | Returned None => CallOk
        | Returned (Some _) => CallErr
        end.
Proof.
  unfold record_delivery.
  destruct (OnManifestDeliveryWithStreaming S h) as [run|]; [apply run_streaming_spec|].
  unfold invoke. destruct (OnManifestDelivery S h d (hstate w)) as [o s].
  eexists _, o, [], _. split; [done|]. simpl. split; [done|].
  split; [constructor|]. split; [done|]. by destruct o as [[]|].
Qed.

(** ** Properties *)

(** What handling a delivery does, as the later proofs use it. *)
Lemma delivery_spec d (w : World) :
  exists w' chunks c w1,
    runManifestDelivery env h d w = (Returned tt, w') /\
    trace w' = trace w ++ chunks ++ [EvCall (InDelivery d) c] ++
      match c with
      | CallOk => sent_log w1 (AgentMessage_DeliveryReceipt (DeliveryId d))
      | _ => []
      end /\
    Forall is_chunk chunks /\ client w1 = client w /\ client w' = client w.
Proof.
  destruct (record_spec d w) as (w1 & o & chunks & c & E & T & F & C & ->).
  unfold runManifestDelivery, recovering. rewrite bind_unfold, E.
  destruct o as [[e|]|].
  - exists w1, chunks, CallErr, w1. by rewrite T, ?app_nil_r.
  - rewrite bind_unfold. unfold SendDeliveryReceipt.
    destruct (send_new_spec (AgentMessage_DeliveryReceipt (DeliveryId d)) w1)
      as (w2 & -> & T2 & C2 & _).
    exists w2, chunks, CallOk, w1. split; [done|].
    rewrite T2, T, <-!app_assoc. repeat split; (done || congruence).
  - exists w1, chunks, CallPanic, w1. by rewrite T, ?app_nil_r.
Qed.

(** handling a delivery streams only output chunks, then has one outcome of
    the handler, and a receipt for exactly this delivery goes to the stream if
    and only if the handler returned nil; a handler error or panic leaves the
    delivery without a receipt and never escapes. *)
Theorem receipt_iff_recorded d (w : World) :
  exists w' chunks c w1,
    runManifestDelivery env h d w = (Returned tt, w') /\
    trace w' = trace w ++ chunks ++ [EvCall (InDelivery d) c] ++
      match c with
      | CallOk => sent_log w1 (AgentMessage_DeliveryReceipt (DeliveryId d))
      | _ => []
      end /\
    Forall is_chunk chunks /\ client w1 = client w /\ client w' = client w.
Proof. apply delivery_spec. Qed.

(** ** What each arm may do *)

(** The inbound payload of a message, for the arms that reach the handler. *)
Definition payload_of (p : ServerPayload) : option inbound :=
  match p with
  | ServerMessage_Welcome p => InWelcome <$> p
  | ServerMessage_ManifestDelivery p => InDelivery <$> p
  | ServerMessage_Query p => InQuery <$> p
  | ServerMessage_Error p => InError <$> p
  | ServerMessage_RequestInventory p => InInventory <$> p
  | ServerMessage_LogQuery p => InLogQuery <$> p
  | ServerMessage_RevokeLuksDeviceKey p => InRevoke <$> p
  | ServerMessage_TerminalStart p => InTerminalStart <$> p
  | ServerMessage_TerminalInput p => InTerminalInput <$> p
  | ServerMessage_TerminalResize p => InTerminalResize <$> p
  | ServerMessage_TerminalStop p => InTerminalStop <$> p
  | _ => None
  end.

(** Welcome and Error frames carry no command and are not validated. *)
Definition is_command (x : inbound) : bool :=
  match x with InWelcome _ | InError _ => false | _ => true end.

Definition task_payload (t : task) : inbound :=
  match t with TaskInventory r => InInventory r | TaskRevoke r => InRevoke r end.

(** [x] is the payload of [m], and a command only after it passed validation. *)
Definition admissible (m : ServerMessage) (x : inbound) : Prop :=
  payload_of (Payload m) = Some x /\
  (is_command x = true -> validateInbound env x = None).

Definition answers (x : inbound) : bool :=
  match x with InQuery _ | InLogQuery _ => true | _ => false end.

(** The message that carries the answer of the handler in state [s] to a query. *)
Definition answer_payload (x : inbound) (s : S) : option AgentPayload :=
  match x with
  | InQuery q =>
      match OnQuery S h q s with (Returned (Some a, None), _) => Some (AgentMessage_QueryResult a) | _ => None end
  | InLogQuery q =>
      match OnLogQuery S h with
      | Some f => match f q s with (Returned (Some a, None), _) => Some (AgentMessage_LogQueryResult a) | _ => None end
      | None => None
      end
  | _ => None
  end.

(** A call whose error ends the connection: that of a delivery does not. *)
Definition fatal_call (x : inbound) : bool := match x with InDelivery _ => false | _ => true end.

(** The events of one dispatch that begins in [w], against its message and its result. *)
Record explained (adm : inbound -> Prop) (w : World) (o : outcome error) (evs : list event) : Prop := {
  ex_call : forall x c, EvCall x c ∈ evs -> adm x;
  ex_spawn : forall t, EvSpawn t ∈ evs -> adm (task_payload t);
  (** the error that ends the connection, exactly *)
  ex_fatal : (exists e, o = Returned (Some e)) <->
    (exists x, fatal_call x = true /\ EvCall x CallErr ∈ evs) \/
    (exists x p, EvCall x CallOk ∈ evs /\ answer_payload x (hstate w) = Some p /\ send_error w p <> None);
  (** the answer of a query is what is sent *)
  ex_answer : forall x p, EvCall x CallOk ∈ evs -> answer_payload x (hstate w) = Some p -> evs = EvCall x CallOk :: sent_log w p
}.

Definition sound (adm : inbound -> Prop) (k : M error) : Prop :=
  forall w, exists o w' evs,
    k w = (o, w') /\ trace w' = trace w ++ evs /\ explained adm w o evs.

(** Code that answers no query is explained whatever it began with. *)
Definition sound' (adm : inbound -> Prop) (k : M error) : Prop :=
  forall w, exists o w' evs,
    k w = (o, w') /\ trace w' = trace w ++ evs /\ forall w0, explained adm w0 o evs.
Lemma sound_any adm k : sound' adm k -> sound adm k.
Proof. intros Hk w. destruct (Hk w) as (o & w' & evs & ? & ? & ?). eauto 10. Qed.

Lemma no_answer x s : answers x = false -> answer_payload x s = None.
Proof. by destruct x. Qed.

Lemma explained_quiet adm w o : (forall e, o <> Returned (Some e)) -> explained adm w o [].
Proof.
  intros Ho. split; [set_solver|set_solver| |set_solver]. split; [intros [e He]; by apply Ho in He|].
  intros [(? & _ & Hx)|(? & ? & Hx & _)]; set_solver.
Qed.

(** One handler call of which no answer is sent: its error alone is fatal. *)
Lemma explained_call (adm : inbound -> Prop) w x c o :
  adm x -> fatal_call x = true -> (c = CallOk -> answer_payload x (hstate w) = None) ->
  ((exists e, o = Returned (Some e)) <-> c = CallErr) -> explained adm w o [EvCall x c].
Proof.
  intros Hx Hf Ha Ho. split.
  - intros y d Hy%list_elem_of_singleton. congruence.
  - intros t Ht%list_elem_of_singleton. congruence.
  - rewrite Ho. split; [intros ->; left; exists x; split; [done|by left]|].
    intros [(y & _ & Hy%list_elem_of_singleton)|(y & p & Hy%list_elem_of_singleton & Hp & _)]; [congruence|].
    simplify_eq. by rewrite Ha in Hp.
  - intros y p Hy%list_elem_of_singleton Hp. simplify_eq. by rewrite Ha in Hp.
Qed.

Lemma sound_nil adm : sound adm (mret None).
Proof. intros w. exists (Returned None), w, []. rewrite app_nil_r. split; [done|]. split; [done|]. by apply explained_quiet. Qed.

Lemma sound_non_nil {P} adm (p : option P) k :
  (forall x, p = Some x -> sound adm (k x)) -> sound adm (non_nil p k).
Proof. destruct p as [x|]; [intros Hk; by apply Hk|]. intros _. apply sound_nil. Qed.

Lemma sound_validated {P} adm (inj : P -> inbound) x k :
  (validateInbound env (inj x) = None -> sound adm k) -> sound adm (validated env inj x k).
Proof.
  unfold validated. destruct (validateInbound env (inj x)); [intros _; apply sound_nil|].
  intros Hk. by apply Hk.
Qed.

Lemma invoke_spec {Req Res} x (m : method S Req Res) failed a (w : World) :
  exists o w', invoke x m failed a w = (o, w') /\ client w' = client w /\
    trace w' = trace w ++ [EvCall x (match o with
                                     | Panicked => CallPanic
                                     | Returned r => if failed r then CallErr else CallOk
                                     end)].
Proof. unfold invoke. destruct (m a (hstate w)) as [o s']. eexists o, _. by repeat split. Qed.

(** A method whose error is wrapped and returned. *)
Lemma sound_invoke {Req} (adm : inbound -> Prop) x (m : method S Req error) a what :
  adm x -> fatal_call x = true -> answers x = false -> sound' adm (err ← invoke x m is_err a; mret (wrap what <$> err)).
Proof.
  intros Hx Hf Hn w. rewrite bind_unfold.
  destruct (invoke_spec x m is_err a w) as ([err|] & w' & -> & _ & T).
  - eexists (Returned _), w', _. split; [reflexivity|]. split; [exact T|]. intros w0.
    apply explained_call; [done|done|by intros _; apply no_answer|]. destruct err; cbn; split; try done; [by eexists|by intros [? [=]]].
  - eexists Panicked, w', _. split; [done|]. split; [exact T|]. intros w0.
    apply explained_call; [done|done|done|]. split; [by intros [? [=]]|done].
Qed.

(** A query method: its error is fatal, its result is sent back. *)
Lemma sound_reply {Req} (adm : inbound -> Prop) x (m : method S Req (option wire * error)) a hd sd
    (mk : wire -> AgentPayload) :
  adm x -> fatal_call x = true ->
  (forall s, answer_payload x s = match m a s with (Returned (Some q, None), _) => Some (mk q) | _ => None end) ->
  sound adm (r ← invoke x m (fun r => is_err r.2) a;
             reply_with hd sd (fun q => send_new env (mk q)) r).
Proof.
  intros Hx Hf Ha w. rewrite bind_unfold. unfold invoke. specialize (Ha (hstate w)).
  destruct (m a (hstate w)) as [[[q err]|] s'] eqn:Em; cbn [snd fst] in *.
  2:{ eexists Panicked, _, _. split; [done|]. split; [reflexivity|]. apply explained_call; [done..|]. split; [by intros [? [=]]|done]. }
  destruct err as [e|]; [|destruct q as [q|]]; cbn [is_err reply_with].
  - eexists (Returned (Some (wrap hd e))), _, [EvCall x CallErr].
    split; [by destruct q|]. split; [reflexivity|]. apply explained_call; [done..|]. split; [done|by eexists].
  - rewrite bind_unfold.
    match goal with |- context [send_new env (mk q) ?w1] => destruct (send_new_spec (mk q) w1) as (w2 & -> & T2 & _) end.
    change (send_error _ (mk q)) with (send_error w (mk q)). cbn [trace] in T2. change (sent_log _ (mk q)) with (sent_log w (mk q)) in T2.
    eexists (Returned _), w2, (EvCall x CallOk :: sent_log w (mk q)). split; [reflexivity|].
    split; [by rewrite T2, <-app_assoc|].
    assert (forall y c, EvCall y c ∈ EvCall x CallOk :: sent_log w (mk q) -> y = x /\ c = CallOk) as Hy.
    { intros y c [Hy|Hy]%elem_of_cons; [by simplify_eq|]. apply sent_log_payload in Hy as (? & ? & ?). done. }
    split.
    + intros y c [-> _]%Hy. done.
    + intros t [Ht|Ht]%elem_of_cons; [done|]. apply sent_log_payload in Ht as (? & ? & ?). done.
    + split.
      * intros [e He]. right. exists x, (mk q). split; [by left|]. split; [done|]. by destruct (send_error w (mk q)).
      * intros [(y & _ & [_ [=]]%Hy)|(y & p & [-> _]%Hy & Hp & Hs)]. rewrite Ha in Hp. simplify_eq.
        destruct (send_error w (mk q)); [by eexists|done].
    + intros y p [-> _]%Hy Hp. rewrite Ha in Hp. by simplify_eq.
  - eexists (Returned None), _, _. split; [reflexivity|]. split; [reflexivity|]. apply explained_call; [done..|].
    split; [by intros [? [=]]|done].
Qed.

(** A pending delivery touches no handler. *)
Lemma deliver_spec m (w : World) :
  exists o w', deliver m w = (o, w') /\ trace w' = trace w.
Proof.
  unfold deliver. destruct (deliverPending m (client w)) as [o c]. eexists o, _. by split.
Qed.

(** Spawning a bounded goroutine. *)
Lemma sound_spawn (adm : inbound -> Prop) t f :
  adm (task_payload t) ->
  sound adm (modify f ≫= fun _ => emit (EvSpawn t) ≫= fun _ => mret None).
Proof.
  intros Ht w. eexists (Returned None), _, [EvSpawn t]. split; [reflexivity|]. split; [done|].
  split.
  - by intros x c Hx%list_elem_of_singleton.
  - intros t' Ht'%list_elem_of_singleton. by simplify_eq.
  - split; [by intros [? [=]]|]. by intros [(? & _ & ?%list_elem_of_singleton)|(? & ? & ?%list_elem_of_singleton & _)].
  - by intros ? ? ?%list_elem_of_singleton.
Qed.

Lemma sound_delivery (adm : inbound -> Prop) d :
  adm (InDelivery d) ->
  sound adm (runManifestDelivery env h d ≫= fun _ => mret None).
Proof.
  intros Hd w. rewrite bind_unfold.
  destruct (delivery_spec d w) as (w' & chunks & c & w1 & -> & T & F & _).
  eexists (Returned None), w', _. split; [reflexivity|]. split; [exact T|].
  rewrite list.Forall_forall in F.
  assert (forall e, e ∈ match c with
                        | CallOk => sent_log w1 (AgentMessage_DeliveryReceipt (DeliveryId d))
                        | _ => [] end -> exists m ok, e = EvSent m ok) as Htail.
  { intros e. destruct c; [|set_solver..]. intros (? & ? & ->)%sent_log_payload. eauto. }
  assert (forall x c', EvCall x c' ∈ chunks ++ [EvCall (InDelivery d) c] ++
    match c with CallOk => sent_log w1 (AgentMessage_DeliveryReceipt (DeliveryId d)) | _ => [] end -> x = InDelivery d) as Hcall.
  { intros x c'. rewrite !elem_of_app, list_elem_of_singleton. intros [Hx|[Hx|Hx]].
    - apply F in Hx as (? & ? & ? & ?). done.
    - by simplify_eq.
    - by apply Htail in Hx as (? & ? & ?). }
  split.
  - by intros x c' ->%Hcall.
  - intros t. rewrite !elem_of_app, list_elem_of_singleton. intros [Hx|[Hx|Hx]].
    + apply F in Hx as (? & ? & ? & ?). done.
    + done.
    + by apply Htail in Hx as (? & ? & ?).
  - split; [by intros [? [=]]|]. by intros [(? & Hfc & ->%Hcall)|(? & ? & ->%Hcall & Hp & _)].
  - by intros x p ->%Hcall.
Qed.

Lemma sound_terminal m inj sel what p :
  payload_of (Payload m) = inj <$> p -> (forall r, fatal_call (inj r) = true /\ answers (inj r) = false) ->
  sound (admissible m) (dispatch_terminal env h inj sel what p).
Proof.
  intros Hp Hinj. apply sound_non_nil. intros r ->. apply sound_validated. intros Hv. specialize (Hinj r).
  destruct (terminalHandler S h); [|apply sound_nil]. destruct Hinj as [Hf Hn]. apply sound_any, sound_invoke; [by split|done|done].
Qed.

Lemma dispatch_body_sound m : sound (admissible m) (dispatch_body env h m).
Proof.
  unfold dispatch_body. destruct (Payload m) eqn:Hp;
    try (apply sound_terminal; [by rewrite Hp|done]); try apply sound_nil;
    try (intros w; unfold dispatch_response; rewrite bind_unfold;
         destruct (deliver_spec m w) as ([b|] & w' & -> & T);
         eexists _, w', []; (split; [reflexivity|]); rewrite app_nil_r;
         (split; [done|]); by apply explained_quiet);
    apply sound_non_nil; intros x ->; try (apply sound_validated; intros Hv).
  - assert (admissible m (InWelcome x)) as Hadm by (split; [by rewrite Hp|done]).
    intros w. rewrite bind_unfold. simpl.
    destruct (sound_invoke _ _ (OnWelcome S h) x "handle welcome" Hadm eq_refl eq_refl
                (MkWorld (applyWelcomeHeartbeat (Some x) (client w)) (hstate w) (trace w)
                   (n_ulid w) (n_send w))) as (o & w' & evs & E & T & X).
    eauto 10.
  - assert (admissible m (InDelivery x)) as Hadm by (split; [by rewrite Hp|done]).
    intros w. rewrite bind_unfold. simpl. destruct (deliveryCh (client w)) as [q|].
    + destruct (length q <? deliveryQueueDepth); eexists (Returned None), _, [];
        (split; [reflexivity|]); rewrite app_nil_r; (split; [done|]); by apply explained_quiet.
    + by apply sound_delivery.
  - apply sound_reply; [split; [by rewrite Hp|done]|done|intros s; cbn; by repeat case_match].
  - destruct (inventoryHandler S h); [|apply sound_nil]. intros w. rewrite bind_unfold. simpl.
    destruct (invSem (client w) <? inventoryDispatchConcurrency); [|apply sound_nil].
    apply sound_spawn. split; [by rewrite Hp|done].
  - assert (admissible m (InError x)) as Hadm by (split; [by rewrite Hp|done]).
    intros w. rewrite bind_unfold.
    destruct (deliver_spec m w) as ([[]|] & w' & -> & T).
    + eexists _, w', []. rewrite app_nil_r. split; [reflexivity|]. split; [done|].
      by apply explained_quiet.
    + rewrite <-T. destruct (sound_invoke _ _ (OnError S h) x "handle error" Hadm eq_refl eq_refl w') as (o & w2 & evs & E & T2 & X).
      eauto 10.
    + eexists Panicked, w', []. rewrite app_nil_r. split; [reflexivity|]. split; [done|].
      by apply explained_quiet.
  - destruct (OnRevokeLuksDeviceKey S h); [|apply sound_nil]. intros w. rewrite bind_unfold. simpl.
    destruct (luksRevokeSem (client w) <? luksRevokeDispatchConcurrency); [|apply sound_nil].
    apply sound_spawn. split; [by rewrite Hp|done].
  - destruct (OnLogQuery S h) as [f|] eqn:Hl; [|apply sound_nil].
    apply sound_reply; [split; [by rewrite Hp|done]|done|intros s; cbn; rewrite Hl; by repeat case_match].
Qed.


(** a correlated response, or an error frame that answers a pending
    request, is put into that request's empty channel and reaches no handler. *)
Theorem correlated_to_waiter m (w : World) k :
  answers_request (Payload m) ->
  pendingRequests (client w) !! Id m = Some k ->
  chans (client w) !! k = Some (MkChan None false) ->
  exists w', dispatchServerMessage env h (Some m) w = (Returned None, w') /\
    trace w' = trace w /\
    pendingRequests (client w') = pendingRequests (client w) /\
    chans (client w') = <[k := MkChan (Some m) false]> (chans (client w)).
Proof.
  intros Ha Hk Hc.
  assert (deliver m w = (Returned true,
    MkWorld (set_pending (pendingRequests (client w))
              (<[k := MkChan (Some m) false]> (chans (client w))) (client w))
      (hstate w) (trace w) (n_ulid w) (n_send w))) as Hd
    by (unfold deliver, deliverPending; by rewrite Hk, Hc).
  unfold dispatchServerMessage, recovering, dispatch_body.
  destruct (Payload m) as [| | | | |p| | | | | | | | | | |]; try done;
    try (unfold dispatch_response; rewrite bind_unfold, Hd; by eexists).
  destruct p; [|done]. unfold dispatch_error, non_nil. rewrite bind_unfold, Hd. by eexists.
Qed.
End Dispatch.

(** ** A concrete instance *)

Definition quiet_handler : StreamHandler unit :=
  MkStreamHandler _ (fun _ s => (Returned None, s)) (fun _ s => (Returned None, s))
    (fun _ s => (Returned (None, None), s)) (fun _ s => (Returned None, s))
    None None None None None.
Definition quiet_env : Env := MkEnv (fun _ _ => Written) (fun _ => []) None [].

Definition waiting_world : Client.World (S := unit) :=
  MkWorld (registerPending (str "q") 0 (NewClient [] [])) tt [] 0 0.
Definition rejection : ServerMessage :=
  MkServerMessage (str "q") (ServerMessage_Error (Some (MkError (str "denied") (str "no")))).

Lemma correlated_to_waiter_witness :
  exists w', dispatchServerMessage quiet_env quiet_handler (Some rejection) waiting_world
      = (Returned None, w') /\
    trace w' = [] /\
    pendingRequests (client w') = pendingRequests (client waiting_world) /\
    chans (client w') = <[0 := MkChan (Some rejection) false]> (chans (client waiting_world)).
Proof.
  apply (correlated_to_waiter quiet_env quiet_handler rejection waiting_world 0);
    [exact I|reflexivity|reflexivity].
Defined.
End Dispatch.
