(* ===== verification/ClientRun.v ===== *)
(** * The running client ([src/client.go]: [Run] and its goroutines)

    While [Run] is active five kinds of goroutine share the client: the receive
    loop dispatches server messages, the delivery worker takes deliveries off
    the queue one at a time, the heartbeat goroutine applies new intervals, the
    inventory goroutine collects and sends, and bounded tasks serve inventory and key-revocation requests.  A step of the
    relation below is one such action; the interleaving of their writes inside
    [send] is the subject of [ClientSend.v]. *)
From S2P Require Import Prelude Messages Client ClientDispatch.
Import pm Client.Client ClientDispatch.Dispatch.

Module Run.
Section Run.
Context {S : Type} (env : Env) (h : StreamHandler S).

Abbreviation M := (Client.M (S := S)).
Abbreviation World := (Client.World (S := S)).

(** ** Entering and leaving [Run] *)

Definition Run_start (hostname agentVersion : gostring) : M error :=
  c ← get;
  match Connect c with
  | Err e => mret (Some e)
  | Ok c' =>
      modify (fun _ => c') ≫= fun _ =>
      err ← SendHello env hostname agentVersion;
      match err with
      | Some e => modify Close ≫= fun _ => mret (Some (wrap "send hello" e))
      | None =>
          modify (set_heartbeat (Some None)) ≫= fun _ =>
          modify (set_deliveryCh (Some [])) ≫= fun _ => mret None
      end
  end.

(** The deferred calls in their order; a queued delivery is skipped because the
    worker's context is done before the queue is closed and drained. *)
Definition Run_exit (c : Client) : Client :=
  Close (set_heartbeat None (set_deliveryCh None c)).

(** ** The goroutines of an active [Run] *)

Definition is_spawn (e : event) : option task :=
  match e with EvSpawn t => Some t | _ => None end.
Definition spawned (evs : list event) : list task := omap is_spawn evs.

Definition delivery_call (e : event) : option ManifestDelivery :=
  match e with EvCall (InDelivery d) _ => Some d | _ => None end.

(** The deliveries given to the handler, in order. *)
Definition handled (tr : list event) : list ManifestDelivery := omap delivery_call tr.

(** The ids of the receipts given to the stream, in order. *)
Definition receipts (tr : list event) : list gostring := omap receipt_of tr.

Definition queue (c : Client) : list ManifestDelivery := default [] (deliveryCh c).

Record run := MkRun {
  world : World;
  live : list task;                      (** started goroutines that have not ended *)
  interval : Z;                          (** the heartbeat ticker's period *)
  accepted : list ManifestDelivery;      (** deliveries that entered the queue *)
  skipped : list ManifestDelivery;       (** those the worker took and did not run *)
  cancelled : bool                       (** [workerCtx.Err() != nil] *)
}.

(** What a dispatch added to the trace and to the queue. *)
Definition new_events (w w' : World) : list event := drop (length (trace w)) (trace w').
Definition new_queued (w w' : World) : list ManifestDelivery :=
  drop (length (queue (client w))) (queue (client w')).

(** [CollectInventory], called by the goroutine of the inventory ticker. *)
Definition collect (ih : InventoryHandler S) : M (option wire) :=
  invoke InCollect (CollectInventory _ ih) (fun _ => false) tt.

Inductive step : run -> run -> Prop :=
(** The receive loop. *)
| r_dispatch rs m w' :
    dispatchServerMessage env h m (world rs) = (Returned None, w') ->
    step rs (MkRun w' (live rs ++ spawned (new_events (world rs) w')) (interval rs)
               (accepted rs ++ new_queued (world rs) w') (skipped rs) (cancelled rs))
(** The delivery worker. *)
| r_worker rs d q w' :
    deliveryCh (client (world rs)) = Some (d :: q) -> cancelled rs = false ->
    runManifestDelivery env h d
      (MkWorld (set_deliveryCh (Some q) (client (world rs))) (hstate (world rs))
         (trace (world rs)) (n_ulid (world rs)) (n_send (world rs))) = (Returned tt, w') ->
    step rs (MkRun w' (live rs) (interval rs) (accepted rs) (skipped rs) (cancelled rs))
(** The context ends: from then on the worker skips what it takes. *)
| r_cancel rs :
    step rs (MkRun (world rs) (live rs) (interval rs) (accepted rs) (skipped rs) true)
| r_skip rs d q :
    deliveryCh (client (world rs)) = Some (d :: q) -> cancelled rs = true ->
    step rs (MkRun (MkWorld (set_deliveryCh (Some q) (client (world rs))) (hstate (world rs))
                      (trace (world rs)) (n_ulid (world rs)) (n_send (world rs)))
               (live rs) (interval rs) (accepted rs) (skipped rs ++ [d]) (cancelled rs))
(** A started goroutine runs. *)
| r_task rs l1 t l2 w' :
    live rs = l1 ++ t :: l2 ->
    run_task env h t (world rs) = (Returned tt, w') ->
    step rs (MkRun w' (l1 ++ l2) (interval rs) (accepted rs) (skipped rs) (cancelled rs))
(** The heartbeat goroutine resets its ticker. *)
| r_reset rs d :
    heartbeatUpdate (client (world rs)) = Some (Some d) ->
    step rs (MkRun (MkWorld (set_heartbeat (Some None) (client (world rs))) (hstate (world rs))
                      (trace (world rs)) (n_ulid (world rs)) (n_send (world rs)))
               (live rs) d (accepted rs) (skipped rs) (cancelled rs))
(** The heartbeat goroutine's ticker fires. *)
| r_tick rs w' err :
    SendHeartbeat env [] (world rs) = (Returned err, w') ->
    step rs (MkRun w' (live rs) (interval rs) (accepted rs) (skipped rs) (cancelled rs))
(** The goroutine of the inventory ticker collects, and sends what it collected;
    [ClientInventory] has its control flow. *)
| r_collect rs ih o w' :
    inventoryHandler S h = Some ih -> collect ih (world rs) = (o, w') ->
    step rs (MkRun w' (live rs) (interval rs) (accepted rs) (skipped rs) (cancelled rs))
| r_inventory rs i err w' :
    SendInventory env (Some i) (world rs) = (Returned err, w') ->
    step rs (MkRun w' (live rs) (interval rs) (accepted rs) (skipped rs) (cancelled rs)).

(** An active [Run]: the channels exist and nothing is under way. *)
Definition started (iv : Z) (w : World) : Prop :=
  deliveryCh (client w) = Some [] /\ heartbeatUpdate (client w) = Some None /\
  invSem (client w) = 0 /\ luksRevokeSem (client w) = 0.

Definition reachable (iv : Z) (w : World) (rs : run) : Prop :=
  started iv w /\ rtc step (MkRun w [] iv (handled (trace w)) [] false) rs.

(** ** Effects of a dispatch on the client *)

Definition is_inventory (t : task) : bool := match t with TaskInventory _ => true | _ => false end.
Definition inventories (l : list task) : nat := length (List.filter is_inventory l).
Definition revokes (l : list task) : nat := length (List.filter (fun t => negb (is_inventory t)) l).

(** Fields that only [Welcome] frames and responses touch. *)
Record same_load (c c' : Client) : Prop := {
  sl_queue : deliveryCh c' = deliveryCh c;
  sl_inv : invSem c' = invSem c;
  sl_luks : luksRevokeSem c' = luksRevokeSem c
}.

Definition hb_ok (h : option (option Z)) : Prop :=
  forall d, h = Some (Some d) -> (MinHeartbeatInterval <= d <= MaxHeartbeatInterval)%Z.

Inductive effect (c c' : Client) (evs : list event) : Prop :=
| eff_same : same_load c c' -> spawned evs = [] ->
    (is_Some (deliveryCh c) -> handled evs = [] /\ receipts evs = []) ->
    (hb_ok (heartbeatUpdate c) -> hb_ok (heartbeatUpdate c')) -> effect c c' evs
| eff_enqueue q d : deliveryCh c = Some q -> length q < deliveryQueueDepth -> evs = [] ->
    c' = set_deliveryCh (Some (q ++ [d])) c -> effect c c' evs
| eff_inventory r : invSem c < inventoryDispatchConcurrency ->
    evs = [EvSpawn (TaskInventory r)] ->
    c' = set_sems (Datatypes.S (invSem c)) (luksRevokeSem c) c -> effect c c' evs
| eff_revoke r : luksRevokeSem c < luksRevokeDispatchConcurrency ->
    evs = [EvSpawn (TaskRevoke r)] ->
    c' = set_sems (invSem c) (Datatypes.S (luksRevokeSem c)) c -> effect c c' evs.

(** An effect that leaves the load alone. *)
Definition light (c c' : Client) (evs : list event) : Prop :=
  same_load c c' /\ spawned evs = [] /\ (is_Some (deliveryCh c) -> handled evs = [] /\ receipts evs = []) /\
  (hb_ok (heartbeatUpdate c) -> hb_ok (heartbeatUpdate c')).

Lemma light_nil c c' : same_load c c' ->
  (hb_ok (heartbeatUpdate c) -> hb_ok (heartbeatUpdate c')) -> light c c' [].
Proof. intros ??. split; [done|]. split; [done|]. by split. Qed.

Lemma light_trans c c1 c2 evs : light c c1 [] -> light c1 c2 evs -> light c c2 evs.
Proof.
  intros ([Eq Ei El] & _ & _ & Hb) ([Eq' Ei' El'] & Hs & Hh & Hb').
  split; [split; congruence|]. split; [done|]. split; [|by auto].
  intros Hq. apply Hh. by rewrite Eq.
Qed.

Lemma light_effect c c' evs : light c c' evs -> effect c c' evs.
Proof. intros (? & ? & ? & ?). by apply eff_same. Qed.

(** Only messages were sent. *)
Definition sent_only (evs : list event) : Prop := forall e, e ∈ evs -> exists m ok, e = EvSent m ok.

Lemma sent_log_sent (w : World) p : sent_only (sent_log env w p).
Proof. intros e (? & ? & ->)%sent_log_payload. eauto. Qed.

Lemma sent_only_omap {A} (f : event -> option A) evs :
  (forall m ok, f (EvSent m ok) = None) -> sent_only evs -> omap f evs = [].
Proof.
  intros Hf. induction evs as [|e evs IH]; intros Hs; [done|].
  destruct (Hs e ltac:(by left)) as (m & ok & ->). simpl. rewrite Hf. apply IH.
  intros e' He'. apply Hs. by right.
Qed.

Lemma spawned_sent evs : sent_only evs -> spawned evs = [].
Proof. by apply sent_only_omap. Qed.
Lemma handled_sent evs : sent_only evs -> handled evs = [].
Proof. by apply sent_only_omap. Qed.

Definition is_receipt (p : AgentPayload) : bool :=
  match p with AgentMessage_DeliveryReceipt _ => true | _ => false end.

Lemma receipts_sent_log (w : World) p : is_receipt p = false -> receipts (sent_log env w p) = [].
Proof.
  intros Hp. unfold sent_log. destruct (stream _); [destruct (transport _ _ _)|]; try done;
    unfold receipts; simpl; by destruct p.
Qed.

Lemma receipts_chunks evs : Forall is_chunk evs -> receipts evs = [].
Proof. induction 1 as [|e evs (? & ? & ? & ->) _ IH]; [done|]. exact IH. Qed.

Lemma chunks_sent evs : Forall is_chunk evs -> sent_only evs.
Proof. intros F e He. rewrite list.Forall_forall in F. apply F in He as (? & ? & ? & ->). eauto. Qed.

(** The events of one handled delivery. *)
Lemma delivery_events d chunks c tail :
  Forall is_chunk chunks -> sent_only tail ->
  let evs := chunks ++ [EvCall (InDelivery d) c] ++ tail in
  spawned evs = [] /\ handled evs = [d].
Proof.
  intros F%chunks_sent Ht evs. subst evs.
  pose proof (spawned_sent _ F) as S1. pose proof (spawned_sent _ Ht) as S2.
  pose proof (handled_sent _ F) as H1. pose proof (handled_sent _ Ht) as H2.
  unfold spawned, handled in *. rewrite !omap_app, S1, S2, H1, H2. done.
Qed.

Definition effectful (k : M error) : Prop :=
  forall w, exists o w' evs,
    k w = (o, w') /\ trace w' = trace w ++ evs /\ effect (client w) (client w') evs.

Lemma effectful_nil : effectful (mret None).
Proof.
  intros w. exists (Returned None), w, []. rewrite app_nil_r. split; [done|]. split; [done|].
  by apply light_effect, light_nil.
Qed.

Lemma effectful_non_nil {P} (p : option P) k :
  (forall x, effectful (k x)) -> effectful (non_nil p k).
Proof. destruct p as [x|]; [intros Hk; apply Hk|]. intros _. apply effectful_nil. Qed.

Lemma effectful_validated {P} (inj : P -> inbound) x k :
  effectful k -> effectful (validated env inj x k).
Proof. unfold validated. destruct (validateInbound env (inj x)); [|done]. intros _. apply effectful_nil. Qed.

Lemma invoke_light {Req} x (m : method S Req error) a what :
  (forall d, x <> InDelivery d) ->
  forall w, exists o w' evs, (err ← invoke x m is_err a; mret (wrap what <$> err)) w = (o, w') /\
    trace w' = trace w ++ evs /\ light (client w) (client w') evs.
Proof.
  intros Hx w. rewrite bind_unfold.
  destruct (invoke_spec x m is_err a w) as (o & w' & -> & C & T).
  exists (match o with Returned e => Returned (wrap what <$> e) | Panicked => Panicked end), w'.
  eexists. split; [by destruct o|]. split; [exact T|]. rewrite C.
  split; [done|]. split; [done|]. split; [|done].
  intros _. unfold handled, receipts. simpl. destruct x; try done. by destruct (Hx d).
Qed.

Lemma effectful_invoke {Req} x (m : method S Req error) a what :
  (forall d, x <> InDelivery d) ->
  effectful (err ← invoke x m is_err a; mret (wrap what <$> err)).
Proof.
  intros Hx w. destruct (invoke_light x m a what Hx w) as (o & w' & evs & ? & ? & ?).
  exists o, w', evs. eauto using light_effect.
Qed.

Lemma effectful_reply {Req} x (m : method S Req (option wire * error)) a hd sd
    (mk : wire -> AgentPayload) :
  answers x = true -> (forall q, is_receipt (mk q) = false) ->
  effectful (r ← invoke x m (fun r => is_err r.2) a;
             reply_with hd sd (fun q => send_new env (mk q)) r).
Proof.
  intros Ha Hmk w. rewrite bind_unfold.
  destruct (invoke_spec x m (fun r => is_err r.2) a w) as (o & w' & -> & C & T).
  assert (forall c, handled [EvCall x c] = [] /\ receipts [EvCall x c] = []) as Hx
    by (intros c; by destruct x).
  destruct o as [[[q|] [e|]]|]; simpl.
  2:{ rewrite bind_unfold. destruct (send_new_spec env (mk q) w') as (w2 & -> & T2 & C2 & _).
      eexists (Returned _), w2, _. split; [reflexivity|].
      split; [rewrite T2, T, <-app_assoc; reflexivity|]. rewrite C2, C.
      apply eff_same; [done|..|done].
      - simpl. apply spawned_sent, sent_log_sent.
      - intros _. pose proof (handled_sent _ (sent_log_sent w' (mk q))) as H1.
        pose proof (receipts_sent_log w' (mk q) (Hmk q)) as H2.
        unfold handled, receipts in *. destruct x; try discriminate Ha; (split; [exact H1|exact H2]). }
  all: eexists _, w', _; (split; [reflexivity|]); (split; [exact T|]); rewrite C;
    by apply eff_same.
Qed.

Lemma deliver_light m (w : World) :
  exists o w', deliver m w = (o, w') /\ trace w' = trace w /\ light (client w) (client w') [].
Proof.
  unfold deliver, deliverPending.
  destruct (pendingRequests (client w) !! Id m) as [k|]; [|by eexists _, _; (split; [reflexivity|]); (split; [done|]); apply light_nil].
  destruct (chans (client w) !! k) as [ch|]; [|by eexists _, _; (split; [reflexivity|]); (split; [done|]); apply light_nil].
  destruct (chan_put m ch); eexists _, _; (split; [reflexivity|]); (split; [done|]); by apply light_nil.
Qed.

Lemma clamp_heartbeat_range d :
  (MinHeartbeatInterval <= clamp_heartbeat d <= MaxHeartbeatInterval)%Z.
Proof.
  unfold clamp_heartbeat, MinHeartbeatInterval, MaxHeartbeatInterval.
  repeat case_match; go_bool; lia.
Qed.

Lemma welcome_light x c : light c (applyWelcomeHeartbeat (Some x) c) [].
Proof.
  unfold applyWelcomeHeartbeat. simpl. destruct (HeartbeatInterval x) as [d|]; [|by apply light_nil].
  destruct (d <=? 0)%Z; [by apply light_nil|].
  destruct (heartbeatUpdate c) as [b|] eqn:Hb; [|by apply light_nil].
  apply light_nil; [done|]. intros _ d' [= <-]. apply clamp_heartbeat_range.
Qed.

Lemma dispatch_body_effect m : effectful (dispatch_body env h m).
Proof.
  unfold dispatch_body. destruct (Payload m); try apply effectful_nil;
    try (apply effectful_non_nil; intros y; apply effectful_validated;
         destruct (terminalHandler S h); [by apply effectful_invoke|apply effectful_nil]);
    try (intros w; unfold dispatch_response; rewrite bind_unfold;
         destruct (deliver_light m w) as ([b|] & w' & -> & T & X);
         eexists _, w', []; (split; [reflexivity|]); rewrite app_nil_r; auto using light_effect);
    apply effectful_non_nil; intros y; try (apply effectful_validated).
  - intros w. rewrite bind_unfold. simpl.
    destruct (invoke_light (InWelcome y) (OnWelcome S h) y "handle welcome" ltac:(done)
                (MkWorld (applyWelcomeHeartbeat (Some y) (client w)) (hstate w) (trace w)
                   (n_ulid w) (n_send w))) as (o & w' & evs & E & T & X).
    exists o, w', evs. split; [done|]. split; [done|]. apply light_effect. by eapply light_trans; [apply welcome_light|].
  - intros w. rewrite bind_unfold. simpl. destruct (deliveryCh (client w)) as [q|] eqn:Hq.
    + destruct (length q <? deliveryQueueDepth) eqn:Hl; eexists (Returned None), _, [];
        (split; [reflexivity|]); rewrite app_nil_r; (split; [done|]);
        [|by apply light_effect, light_nil].
      apply Nat.ltb_lt in Hl. by eapply eff_enqueue.
    + rewrite bind_unfold.
      destruct (delivery_spec env h y w) as (w' & chunks & c & w1 & -> & T & F & C1 & C).
      eexists (Returned None), w', _. split; [reflexivity|]. split; [exact T|]. rewrite C.
      apply light_effect. split; [done|]. split; [|by rewrite Hq; split; [intros []|]].
      apply (delivery_events y chunks c); [done|].
      destruct c; [apply sent_log_sent|by intros ? []%not_elem_of_nil..].
  - by apply effectful_reply.
  - destruct (inventoryHandler S h); [|apply effectful_nil]. intros w. rewrite bind_unfold. simpl.
    destruct (invSem (client w) <? inventoryDispatchConcurrency) eqn:Hl; [|apply effectful_nil].
    apply Nat.ltb_lt in Hl. eexists (Returned None), _, [_]. split; [reflexivity|].
    split; [done|]. by eapply eff_inventory.
  - intros w. rewrite bind_unfold.
    destruct (deliver_light m w) as ([[]|] & w' & -> & T & X).
    + eexists _, w', []. rewrite app_nil_r. split; [reflexivity|]. auto using light_effect.
    + destruct (invoke_light (InError y) (OnError S h) y "handle error" ltac:(done) w')
        as (o & w2 & evs & E & T2 & X2).
      exists o, w2, evs. split; [done|]. rewrite T2, T. split; [done|].
      by eapply light_effect, light_trans.
    + eexists Panicked, w', []. rewrite app_nil_r. split; [reflexivity|]. auto using light_effect.
  - destruct (OnRevokeLuksDeviceKey S h); [|apply effectful_nil]. intros w. rewrite bind_unfold. simpl.
    destruct (luksRevokeSem (client w) <? luksRevokeDispatchConcurrency) eqn:Hl; [|apply effectful_nil].
    apply Nat.ltb_lt in Hl. eexists (Returned None), _, [_]. split; [reflexivity|].
    split; [done|]. by eapply eff_revoke.
  - destruct (OnLogQuery S h); [|apply effectful_nil]. by apply effectful_reply.
Qed.

Lemma dispatch_effect m (w w' : World) o :
  dispatchServerMessage env h m w = (o, w') ->
  exists evs, trace w' = trace w ++ evs /\ effect (client w) (client w') evs.
Proof.
  unfold dispatchServerMessage, recovering. destruct m as [m|].
  - destruct (dispatch_body_effect m w) as (o' & w2 & evs & -> & T & X).
    destruct o'; intros [= <- <-]; eauto.
  - intros [= <- <-]. exists []. rewrite app_nil_r. split; [done|]. by apply light_effect, light_nil.
Qed.

(** ** Invariant *)

(** Every receipt follows a nil return of the handler for the same delivery. *)
Definition justified (tr : list event) : Prop :=
  forall i e id, tr !! i = Some e -> receipt_of e = Some id ->
    exists j d, j < i /\ tr !! j = Some (EvCall (InDelivery d) CallOk) /\ DeliveryId d = id.

Record run_inv (rs : run) : Prop := {
  ri_queue : exists q, deliveryCh (client (world rs)) = Some q /\ length q <= deliveryQueueDepth;
  ri_fifo : accepted rs = handled (trace (world rs)) ++ skipped rs ++ queue (client (world rs));
  ri_skipped : cancelled rs = false -> skipped rs = [];
  ri_inv : invSem (client (world rs)) = inventories (live rs);
  ri_inv_max : invSem (client (world rs)) <= inventoryDispatchConcurrency;
  ri_luks : luksRevokeSem (client (world rs)) = revokes (live rs);
  ri_luks_max : luksRevokeSem (client (world rs)) <= luksRevokeDispatchConcurrency;
  ri_hb : hb_ok (heartbeatUpdate (client (world rs)));
  ri_justified : justified (trace (world rs))
}.

Lemma justified_quiet tr evs : justified tr -> receipts evs = [] -> justified (tr ++ evs).
Proof.
  intros Hj He i e id Hi Hr. apply lookup_app_Some in Hi as [Hi|[Hge Hi]].
  - destruct (Hj i e id Hi Hr) as (j & d & Hlt & Hd & Hid). exists j, d.
    split; [done|]. split; [|done]. by apply lookup_app_l_Some.
  - exfalso. assert (id ∈ receipts evs) as Hin.
    { apply list_elem_of_omap. exists e. split; [|done]. by eapply list_elem_of_lookup_2. }
    rewrite He in Hin. by apply not_elem_of_nil in Hin.
Qed.

Lemma justified_delivery tr d chunks c (w : World) :
  justified tr -> Forall is_chunk chunks ->
  justified (tr ++ chunks ++ [EvCall (InDelivery d) c] ++
    match c with
    | CallOk => sent_log env w (AgentMessage_DeliveryReceipt (DeliveryId d))
    | _ => []
    end).
Proof.
  intros Hj Hc.
  assert (justified (tr ++ chunks ++ [EvCall (InDelivery d) c])) as Hj'.
  { rewrite app_assoc. apply justified_quiet; [|done]. apply justified_quiet; [done|].
    by apply receipts_chunks. }
  destruct c; [|by rewrite app_nil_r..].
  rewrite !app_assoc in *. intros i e id Hi Hr.
  apply lookup_app_Some in Hi as [Hi|[Hge Hi]].
  - destruct (Hj' i e id Hi Hr) as (j & d' & Hlt & Hd & Hid). exists j, d'.
    split; [done|]. split; [|done]. by apply lookup_app_l_Some.
  - apply list_elem_of_lookup_2, sent_log_payload in Hi as (m & ok & ->). simpl in Hr.
    injection Hr as <-. exists (length (tr ++ chunks)), d. rewrite length_app in Hge. simpl in Hge.
    split; [lia|]. split; [|done]. apply lookup_app_l_Some. by rewrite list_lookup_middle.
Qed.
Lemma new_events_app (w w' : World) evs :
  trace w' = trace w ++ evs -> new_events w w' = evs.
Proof. intros T. unfold new_events. by rewrite T, drop_app_length. Qed.

Lemma inventories_app l1 l2 : inventories (l1 ++ l2) = inventories l1 + inventories l2.
Proof. unfold inventories. by rewrite filter_app, length_app. Qed.
Lemma revokes_app l1 l2 : revokes (l1 ++ l2) = revokes l1 + revokes l2.
Proof. unfold revokes. by rewrite filter_app, length_app. Qed.

Lemma handled_app a b : handled (a ++ b) = handled a ++ handled b.
Proof. apply omap_app. Qed.

Lemma dispatch_inv rs m w' :
  run_inv rs -> dispatchServerMessage env h m (world rs) = (Returned None, w') ->
  run_inv (MkRun w' (live rs ++ spawned (new_events (world rs) w')) (interval rs)
             (accepted rs ++ new_queued (world rs) w') (skipped rs) (cancelled rs)).
Proof.
  intros [(q & Hq & Hlen) Hf Hsk Hi Him Hl Hlm Hb Hj] Hd.
  apply dispatch_effect in Hd as (evs & T & X). rewrite (new_events_app _ _ _ T).
  unfold new_queued, queue in *. rewrite Hq in *. simpl in *.
  destruct X as [[Sq Si Sl] Hs Hh Hhb|q' d Eq Hlt -> Ec|r Hlt -> Ec|r Hlt -> Ec].
  - destruct Hh as [Hh Hr]; [by eexists|]. split; simpl.
    + exists q. by rewrite Sq.
    + unfold queue. rewrite Sq, T, Hq, drop_all, app_nil_r, handled_app, Hh, app_nil_r. exact Hf.
    + done.
    + by rewrite Hs, app_nil_r, Si.
    + by rewrite Si.
    + by rewrite Hs, app_nil_r, Sl.
    + by rewrite Sl.
    + auto.
    + rewrite T. by apply justified_quiet.
  - simplify_eq. rewrite app_nil_r in T. split; simpl; rewrite ?Ec; simpl; rewrite ?app_nil_r; try done.
    + eexists. split; [done|]. rewrite length_app. simpl. lia.
    + unfold queue. simpl. rewrite drop_app_length, T, Hf, !app_assoc. done.
    + by rewrite T.
  - split; simpl; rewrite ?Ec; simpl; try done.
    + by exists q.
    + unfold queue. simpl. rewrite Hq, drop_all, app_nil_r, T, handled_app. simpl. by rewrite app_nil_r.
    + rewrite inventories_app. simpl. unfold inventories in *. simpl. lia.
    + rewrite revokes_app. unfold revokes in *. simpl. lia.
    + rewrite T. by apply justified_quiet.
  - split; simpl; rewrite ?Ec; simpl; try done.
    + by exists q.
    + unfold queue. simpl. rewrite Hq, drop_all, app_nil_r, T, handled_app. simpl. by rewrite app_nil_r.
    + rewrite inventories_app. unfold inventories in *. simpl. lia.
    + rewrite revokes_app. unfold revokes in *. simpl. lia.
    + rewrite T. by apply justified_quiet.
Qed.

Lemma worker_inv rs d q w' :
  run_inv rs -> deliveryCh (client (world rs)) = Some (d :: q) -> cancelled rs = false ->
  runManifestDelivery env h d
    (MkWorld (set_deliveryCh (Some q) (client (world rs))) (hstate (world rs))
       (trace (world rs)) (n_ulid (world rs)) (n_send (world rs))) = (Returned tt, w') ->
  run_inv (MkRun w' (live rs) (interval rs) (accepted rs) (skipped rs) (cancelled rs)).
Proof.
  intros [(q0 & Hq0 & Hlen) Hf Hsk Hi Him Hl Hlm Hb Hj] Hq Hca Hrun. specialize (Hsk Hca). simplify_eq. simpl in Hlen.
  destruct (delivery_spec env h d
    (MkWorld (set_deliveryCh (Some q) (client (world rs))) (hstate (world rs))
       (trace (world rs)) (n_ulid (world rs)) (n_send (world rs))))
    as (w2 & chunks & c & w1 & E & T & F & _ & C).
  rewrite Hrun in E. simplify_eq. cbn [trace client] in T, C.
  destruct (delivery_events d chunks c
    (match c with
     | CallOk => sent_log env w1 (AgentMessage_DeliveryReceipt (DeliveryId d))
     | _ => [] end) F) as [_ Hh].
  { destruct c; [apply sent_log_sent|by intros ? []%not_elem_of_nil..]. }
  unfold queue in Hf. rewrite Hq0 in Hf. simpl in Hf.
  split; simpl; rewrite ?C; simpl; try done.
  - exists q. split; [done|lia].
  - unfold queue. simpl. rewrite T, handled_app, Hh, Hf, Hsk, <-app_assoc. done.
  - rewrite T. by apply justified_delivery.
Qed.
(** ** Tasks and ticks *)

Definition release_task (t : task) (c : Client) : Client :=
  match t with
  | TaskInventory _ => set_sems (invSem c - 1) (luksRevokeSem c) c
  | TaskRevoke _ => set_sems (invSem c) (luksRevokeSem c - 1) c
  end.

(** Nothing was delivered or receipted. *)
Definition silent (evs : list event) : Prop := handled evs = [] /\ receipts evs = [].

Lemma silent_app a b : silent a -> silent b -> silent (a ++ b).
Proof.
  unfold silent, handled, receipts. intros [H1 H2] [H3 H4].
  by rewrite !omap_app, H1, H2, H3, H4.
Qed.

Lemma silent_sent (w : World) p : is_receipt p = false -> silent (sent_log env w p).
Proof. intros Hp. split; [apply handled_sent, sent_log_sent|by apply receipts_sent_log]. Qed.

(** A method call and then one message that is not a receipt. *)
Lemma call_then_send {Req Res} x (m : method S Req Res) f a (k : Res -> option AgentPayload) (w : World) :
  (forall d, x <> InDelivery d) -> (forall r p, k r = Some p -> is_receipt p = false) ->
  exists o w' evs,
    (r ← invoke x m f a;
     match k r with
     | None => mret tt
     | Some p => send_new env p ≫= fun _ => mret tt
     end) w = (o, w') /\
    trace w' = trace w ++ evs /\ silent evs /\ client w' = client w.
Proof.
  intros Hx Hk. rewrite bind_unfold.
  destruct (invoke_spec x m f a w) as (o & w1 & -> & C & T).
  assert (forall c, silent [EvCall x c]) as Hs
    by (intros c; unfold silent, handled, receipts; destruct x; try done; by destruct (Hx d)).
  destruct o as [r|]; [|by eexists Panicked, w1, _].
  destruct (k r) as [p|] eqn:Ek; [|by eexists (Returned tt), w1, _].
  rewrite bind_unfold. destruct (send_new_spec env p w1) as (w2 & -> & T2 & C2 & _).
  eexists (Returned tt), w2, _. split; [reflexivity|].
  split; [rewrite T2, T, <-app_assoc; reflexivity|]. split; [|congruence].
  apply silent_app; [done|]. apply silent_sent. eauto.
Qed.

Lemma deferring_spec {A} release (k : M A) (w : World) o w' :
  k w = (o, w') ->
  deferring release k w =
  (o, MkWorld (release (client w')) (hstate w') (trace w') (n_ulid w') (n_send w')).
Proof. unfold deferring. by intros ->. Qed.

Lemma run_task_spec t (w : World) :
  exists w' evs, run_task env h t w = (Returned tt, w') /\
    trace w' = trace w ++ evs /\ silent evs /\ client w' = release_task t (client w).
Proof.
  unfold run_task, recovering. destruct t as [r|r].
  - destruct (inventoryHandler S h) as [ih|].
    2:{ eexists _, []. split; [reflexivity|]. by rewrite app_nil_r. }
    destruct (call_then_send (InInventory r) (OnRequestInventory S ih) (fun _ => false) r
                (fmap AgentMessage_Inventory) w) as (o & w' & evs & E & T & Hs & C);
      [done|by intros [] ? [= <-]|].
    erewrite deferring_spec; [|etransitivity; [|exact E]].
    + destruct o as [[]|]; eexists _, evs; (split; [reflexivity|]); simpl; by rewrite C.
    + rewrite !bind_unfold. destruct (invoke _ _ _ _ w) as [[[i|]|] w1]; done.
  - destruct (OnRevokeLuksDeviceKey S h) as [f|].
    2:{ eexists _, []. split; [reflexivity|]. by rewrite app_nil_r. }
    destruct (call_then_send (InRevoke r) f (fun _ => false) r
                (fun res => Some (AgentMessage_RevokeLuksDeviceKeyResult (revoke_ActionId r) res.1 res.2)) w)
      as (o & w' & evs & E & T & Hs & C); [done|by intros ? ? [= <-]|].
    erewrite deferring_spec; [|exact E].
    destruct o as [[]|]; eexists _, evs; (split; [reflexivity|]); simpl; by rewrite C.
Qed.

Lemma task_inv rs l1 t l2 w' :
  run_inv rs -> live rs = l1 ++ t :: l2 ->
  run_task env h t (world rs) = (Returned tt, w') ->
  run_inv (MkRun w' (l1 ++ l2) (interval rs) (accepted rs) (skipped rs) (cancelled rs)).
Proof.
  intros [(q & Hq & Hlen) Hf Hsk Hi Him Hl Hlm Hb Hj] Hlive Hrun.
  destruct (run_task_spec t (world rs)) as (w2 & evs & E & T & [Hh Hr] & C).
  rewrite Hrun in E. simplify_eq. rewrite Hlive in Hi, Hl.
  rewrite inventories_app in Hi. rewrite revokes_app in Hl.
  unfold queue in Hf. rewrite Hq in Hf.
  split; simpl; rewrite ?C, ?inventories_app, ?revokes_app, ?T.
  - exists q. by destruct t.
  - unfold queue. destruct t; simpl; rewrite Hq, handled_app, Hh, app_nil_r; done.
  - done.
  - destruct t; simpl; unfold inventories in *; simpl in *; lia.
  - destruct t; simpl; lia.
  - destruct t; simpl; unfold revokes in *; simpl in *; lia.
  - destruct t; simpl; lia.
  - by destruct t.
  - by apply justified_quiet.
Qed.

(** What changes neither the client nor the deliveries keeps the invariant. *)
Lemma quiet_inv rs w' evs :
  run_inv rs -> trace w' = trace (world rs) ++ evs -> silent evs -> client w' = client (world rs) ->
  run_inv (MkRun w' (live rs) (interval rs) (accepted rs) (skipped rs) (cancelled rs)).
Proof.
  intros [Hq Hf Hsk Hi Him Hl Hlm Hb Hj] T [Hh Hr] C. split; simpl; rewrite ?C; try done.
  - by rewrite T, handled_app, Hh, app_nil_r.
  - rewrite T. by apply justified_quiet.
Qed.

Lemma send_inv rs p err w' :
  is_receipt p = false -> run_inv rs -> send_new env p (world rs) = (Returned err, w') ->
  run_inv (MkRun w' (live rs) (interval rs) (accepted rs) (skipped rs) (cancelled rs)).
Proof.
  intros Hp Hinv Hs. destruct (send_new_spec env p (world rs)) as (w2 & E & T & C & _).
  rewrite E in Hs. simplify_eq. eapply quiet_inv; eauto using silent_sent.
Qed.

Lemma run_step_inv rs rs' : step rs rs' -> run_inv rs -> run_inv rs'.
Proof.
  intros Hstep Hinv.
  destruct Hstep as [rs m w' Hd|rs d q w' Hq Hca Hr|rs|rs d q Hq Hca|rs l1 t l2 w' Hl Hr|rs d Hd|rs w' err Hs|rs ih o w' Hih Hc|rs i err w' Hs].
  - by eapply dispatch_inv.
  - by eapply worker_inv.
  - destruct Hinv as [Hq Hf Hsk Hi Him Hl Hlm Hb Hj]. by split.
  - destruct Hinv as [(q' & Hq' & Hlen) Hf Hsk Hi Him Hl Hlm Hb Hj]. rewrite Hq in Hq'. injection Hq' as <-. simpl in Hlen. unfold queue in Hf. rewrite Hq in Hf.
    split; simpl; try done; [exists q; split; [done|lia]|unfold queue; simpl; by rewrite Hf, <-app_assoc|by rewrite Hca].
  - by eapply task_inv.
  - destruct Hinv as [Hq Hf Hsk Hi Him Hl Hlm Hb Hj]. split; simpl; try done.
  - by eapply send_inv; [|done|exact Hs].
  - destruct (invoke_spec InCollect (CollectInventory S ih) (fun _ => false) tt (world rs)) as (o' & w2 & E & C & T).
    unfold collect in Hc. rewrite E in Hc. simplify_eq. by eapply quiet_inv; [done|exact T| |done].
  - by eapply send_inv; [|done|exact Hs].
Qed.

Lemma run_reachable_inv iv w rs : reachable iv w rs -> justified (trace w) -> run_inv rs.
Proof.
  intros [(Hq & Hh & Hi & Hl) Hsteps] Hj.
  assert (run_inv (MkRun w [] iv (handled (trace w)) [] false)) as H0.
  { split; simpl; rewrite ?Hi, ?Hl, ?Hh; try done; try lia.
    - exists []. split; [done|]. simpl. lia.
    - unfold queue. rewrite Hq. simpl. by rewrite app_nil_r. }
  induction Hsteps as [|x y z Hxy _ IH]; [done|]. apply IH. by eapply run_step_inv.
Qed.

(** ** Properties *)

(** while [Run] is active the delivery queue never holds more than
    [deliveryQueueDepth] deliveries, at most [inventoryDispatchConcurrency]
    inventory and [luksRevokeDispatchConcurrency] revocation goroutines are live
    (the semaphores count them exactly), and a heartbeat interval waiting to be
    applied lies in the permitted range, under any flood of messages. *)
Theorem run_bounded iv w rs :
  reachable iv w rs -> justified (trace w) ->
  length (queue (client (world rs))) <= deliveryQueueDepth /\
  inventories (live rs) = invSem (client (world rs)) /\
  inventories (live rs) <= inventoryDispatchConcurrency /\
  revokes (live rs) = luksRevokeSem (client (world rs)) /\
  revokes (live rs) <= luksRevokeDispatchConcurrency /\
  hb_ok (heartbeatUpdate (client (world rs))).
Proof.
  intros Hr Hj. destruct (run_reachable_inv _ _ _ Hr Hj) as [(q & Hq & Hlen) _ _ Hi Him Hl Hlm Hb _].
  unfold queue. rewrite Hq. simpl. rewrite <-Hi, <-Hl. auto 10.
Qed.

Lemma cancelled_silent rs rs' : step rs rs' -> run_inv rs -> cancelled rs = true ->
  handled (trace (world rs')) = handled (trace (world rs)).
Proof.
  intros Hstep Hinv Hc.
  destruct Hstep as [rs m w' Hd|rs d q w' Hq Hca Hr|rs|rs d q Hq Hca|rs l1 t l2 w' Hl Hr|rs d Hd|rs w' err Hs|rs ih o w' Hih Hco|rs i err w' Hs];
    cbn [world trace]; try done; try congruence.
  - destruct (ri_queue _ Hinv) as (q & Hq & _). apply dispatch_effect in Hd as (evs & T & X). rewrite T, handled_app.
    destruct X as [_ _ Hh _|? ? _ _ -> _|? _ -> _|? _ -> _]; [|by rewrite app_nil_r..].
    destruct Hh as [-> _]; [by eexists|]. by rewrite app_nil_r.
  - destruct (run_task_spec t (world rs)) as (w2 & evs & E & T & [Hh _] & _). rewrite Hr in E. simplify_eq. by rewrite T, handled_app, Hh, app_nil_r.
  - destruct (send_new_spec env (AgentMessage_Heartbeat []) (world rs)) as (w2 & E & T & _). unfold SendHeartbeat in Hs. rewrite E in Hs.
    simplify_eq. by rewrite T, handled_app, (proj1 (silent_sent (world rs) (AgentMessage_Heartbeat []) eq_refl)), app_nil_r.
  - destruct (invoke_spec InCollect (CollectInventory S ih) (fun _ => false) tt (world rs)) as (o' & w2 & E & C & T).
    unfold collect in Hco. rewrite E in Hco. simplify_eq. rewrite T, handled_app. cbn. by rewrite app_nil_r.
  - destruct (send_new_spec env (AgentMessage_Inventory i) (world rs)) as (w2 & E & T & _). unfold SendInventory in Hs. rewrite E in Hs.
    simplify_eq. by rewrite T, handled_app, (proj1 (silent_sent (world rs) (AgentMessage_Inventory i) eq_refl)), app_nil_r.
Qed.


(** C1: over a whole run, whatever the interleaving, a delivery receipt is given
    to the stream only after the handler returned nil for that very delivery. *)
Theorem receipts_justified iv w rs :
  reachable iv w rs -> justified (trace w) -> justified (trace (world rs)).
Proof. intros Hr Hj. apply (ri_justified _ (run_reachable_inv _ _ _ Hr Hj)). Qed.

(** [Run] on an idle client connects, says hello as the first frame and
    only then publishes its empty delivery queue and update channel, the state
    the goroutines start from; a hello that cannot be sent closes the stream
    again and publishes nothing. *)
Theorem Run_start_started hostname version (w : World) :
  stream (client w) = false ->
  invSem (client w) = 0 -> luksRevokeSem (client w) = 0 ->
  exists err w', Run_start hostname version w = (Returned err, w') /\
    trace w' = trace w ++
      sent_log env (MkWorld (set_stream true (client w)) (hstate w) (trace w) (n_ulid w) (n_send w))
        (AgentMessage_Hello (deviceID (client w)) version hostname (authToken (client w)) (GOARCH env)) /\
    match err with
    | None => stream (client w') = true /\ forall iv, started iv w'
    | Some _ => stream (client w') = false /\ deliveryCh (client w') = deliveryCh (client w) /\
                heartbeatUpdate (client w') = heartbeatUpdate (client w)
    end.
Proof.
  intros Hs Hi Hl. unfold Run_start. rewrite bind_unfold. simpl. unfold Connect. rewrite Hs.
  rewrite bind_unfold. simpl. rewrite bind_unfold. unfold SendHello. rewrite bind_unfold. simpl.
  destruct (send_new_spec env
    (AgentMessage_Hello (deviceID (client w)) version hostname (authToken (client w)) (GOARCH env))
    (MkWorld (set_stream true (client w)) (hstate w) (trace w) (n_ulid w) (n_send w)))
    as (w2 & E & T & C & _).
  cbn [trace client] in T, C. rewrite E. destruct (send_error _ _ _) as [e|].
  - rewrite bind_unfold. eexists _, _. split; [reflexivity|]. split; [exact T|]. simpl.
    rewrite C. by repeat split.
  - rewrite !bind_unfold. eexists _, _. split; [reflexivity|]. split; [exact T|]. simpl.
    rewrite C. by repeat split.
Qed.

End Run.

(** ** A concrete agent, for the witnesses *)

(** A handler that keeps the ids of the deliveries it recorded. *)
Definition sample_handler : StreamHandler (list gostring) :=
  MkStreamHandler _ (fun _ s => (Returned None, s))
    (fun d s => (Returned None, s ++ [DeliveryId d]))
    (fun q s => (Returned (Some q, None), s))
    (fun _ s => (Returned None, s))
    None None None None None.

Definition sample_env : Env :=
  MkEnv (fun _ _ => Written) (fun n => itoa n) (Some (fun _ => None)) (str "amd64").

Definition idle_world : World (S := list gostring) :=
  MkWorld (NewClient (str "dev-1") (str "token")) [] [] 0 0.

Definition started_world : World (S := list gostring) := Eval vm_compute in
  (Run_start sample_env (str "host") (str "v1") idle_world).2.

Definition sample_delivery : ManifestDelivery := MkManifestDelivery (str "d-1") [].
Definition sample_frame : ServerMessage :=
  MkServerMessage (str "m-1") (ServerMessage_ManifestDelivery (Some sample_delivery)).

(** One delivery arrives and the worker handles it. *)
Definition queued_world : World := Eval vm_compute in
  (dispatchServerMessage sample_env sample_handler (Some sample_frame) started_world).2.
Definition handled_world : World := Eval vm_compute in
  (runManifestDelivery sample_env sample_handler sample_delivery
     (MkWorld (set_deliveryCh (Some []) (client queued_world)) (hstate queued_world)
        (trace queued_world) (n_ulid queued_world) (n_send queued_world))).2.
Definition handled_run : run := MkRun handled_world [] 0 [sample_delivery] [] false.

Lemma handled_run_reachable : reachable sample_env sample_handler 0 started_world handled_run.
Proof.
  split; [by repeat split|].
  eapply rtc_l; [apply (r_dispatch _ _ _ (Some sample_frame) queued_world); reflexivity|].
  eapply rtc_l; [apply (r_worker _ _ _ sample_delivery [] handled_world); reflexivity|].
  apply rtc_refl.
Qed.

Lemma started_world_justified : justified (trace started_world).
Proof. intros i e id Hi Hr. destruct i as [|[|]]; simplify_eq/=. Qed.

Lemma run_bounded_witness :
  length (queue (client (world handled_run))) <= deliveryQueueDepth /\
  inventories (live handled_run) = invSem (client (world handled_run)) /\
  inventories (live handled_run) <= inventoryDispatchConcurrency /\
  revokes (live handled_run) = luksRevokeSem (client (world handled_run)) /\
  revokes (live handled_run) <= luksRevokeDispatchConcurrency /\
  hb_ok (heartbeatUpdate (client (world handled_run))).
Proof.
  apply (run_bounded sample_env sample_handler 0 started_world handled_run);
    [exact handled_run_reachable|exact started_world_justified].
Defined.

(** A second delivery arrives, the context ends, and the worker skips it. *)
Definition second_delivery : ManifestDelivery := MkManifestDelivery (str "d-2") [].
Definition second_world : World := Eval vm_compute in
  (dispatchServerMessage sample_env sample_handler
     (Some (MkServerMessage (str "m-2") (ServerMessage_ManifestDelivery (Some second_delivery)))) handled_world).2.
Definition skipped_run : run :=
  MkRun (MkWorld (set_deliveryCh (Some []) (client second_world)) (hstate second_world) (trace second_world)
           (n_ulid second_world) (n_send second_world)) [] 0 [sample_delivery; second_delivery] [second_delivery] true.

Lemma skipped_run_reachable : reachable sample_env sample_handler 0 started_world skipped_run.
Proof.
  destruct handled_run_reachable as [Hs Hr]. split; [done|]. etransitivity; [exact Hr|].
  eapply rtc_l; [apply (r_dispatch _ _ _ (Some (MkServerMessage (str "m-2") (ServerMessage_ManifestDelivery (Some second_delivery)))) second_world); reflexivity|].
  eapply rtc_l; [apply r_cancel|]. eapply rtc_l; [by apply (r_skip _ _ _ second_delivery [])|]. apply rtc_refl.
Qed.


Lemma receipts_justified_witness :
  receipts (trace (world handled_run)) = [str "d-1"] /\ justified (trace (world handled_run)).
Proof.
  split; [reflexivity|].
  apply (receipts_justified sample_env sample_handler 0 started_world handled_run);
    [exact handled_run_reachable|exact started_world_justified].
Defined.

Lemma Run_start_started_witness :
  exists err w', Run_start sample_env (str "host") (str "v1") idle_world = (Returned err, w') /\
    trace w' = [] ++
      sent_log sample_env
        (MkWorld (set_stream true (client idle_world)) (hstate idle_world) [] 0 0)
        (AgentMessage_Hello (str "dev-1") (str "v1") (str "host") (str "token") (str "amd64")) /\
    match err with
    | None => stream (client w') = true /\ forall iv : Z, started iv w'
    | Some _ => stream (client w') = false /\ deliveryCh (client w') = None /\
                heartbeatUpdate (client w') = None
    end.
Proof. apply (Run_start_started sample_env (str "host") (str "v1") idle_world); reflexivity. Defined.

End Run.
