(* ===== verification/ClientInventory.v ===== *)
(** * The inventory ticker of a run ([src/client.go]: [Run], [sendWithRetry])

    The goroutine that collects an inventory when the stream is up and then once a day, and
    sends it with up to three attempts, interleaved with every other goroutine of the run.
    Its writes are steps of [ClientRun], so that the theorems there hold with it. *)
From S2P Require Import Prelude Messages Client ClientDispatch ClientRun.
Import pm Client.Client ClientDispatch.Dispatch ClientRun.Run.

Module InvTicker.
Section Inventory.
Context {S : Type} (env : Env) (h : StreamHandler S) (ih : InventoryHandler S).
Hypothesis Hih : inventoryHandler S h = Some ih.

Definition maxAttempts : nat := 3.
Definition second : Z := 1000000000.
(** The wait after the [k]-th attempt: [delay *= 3] after each. *)
Fixpoint delay (k : nat) : Z := match k with 0 | 1 => second | Datatypes.S k => delay k * 3 end.

(** Where the goroutine is.  [Attempt i k] is about to make the [k]-th attempt, [Backoff i k]
    waits after it, [Waiting] selects between the ticker and the end of the run. *)
Inductive pc :=
| Collecting
| Attempt (i : wire) (k : nat)
| Backoff (i : wire) (k : nat)
| Waiting
| Ended.

(** [tries] are the attempts with the last collected inventory, [waits] the pauses between
    them, [done] whether [heartbeatCtx] is cancelled. *)
Record state := MkState {
  rs : run (S := S); at_ : pc; collected : option wire; tries : list error; waits : list Z; done_ : bool
}.

Definition after (st : state) (w : World (S := S)) : run := MkRun w (live (rs st)) (interval (rs st)) (accepted (rs st)) (skipped (rs st)) (cancelled (rs st)).

Inductive step : state -> state -> Prop :=
(** Another goroutine acts; the run ends. *)
| i_other st r' : Run.step env h (rs st) r' ->
    step st (MkState r' (at_ st) (collected st) (tries st) (waits st) (done_ st))
| i_cancel st : step st (MkState (rs st) (at_ st) (collected st) (tries st) (waits st) true)
(** [CollectInventory]: an inventory, none, or a panic, which [safeGo] recovers. *)
| i_collected st i w' : at_ st = Collecting -> collect ih (world (rs st)) = (Returned (Some i), w') ->
    step st (MkState (after st w') (Attempt i 1) (Some i) [] [] (done_ st))
| i_nothing st w' : at_ st = Collecting -> collect ih (world (rs st)) = (Returned None, w') ->
    step st (MkState (after st w') Waiting None [] [] (done_ st))
| i_panic st w' : at_ st = Collecting -> collect ih (world (rs st)) = (Panicked, w') ->
    step st (MkState (after st w') Ended None [] [] (done_ st))
(** [sendWithRetry]. *)
| i_sent st i k w' : at_ st = Attempt i k -> SendInventory env (Some i) (world (rs st)) = (Returned None, w') ->
    step st (MkState (after st w') Waiting (collected st) (tries st ++ [None]) (waits st) (done_ st))
| i_gave_up st i k e w' : at_ st = Attempt i k -> SendInventory env (Some i) (world (rs st)) = (Returned (Some e), w') ->
    k = maxAttempts \/ done_ st = true ->
    step st (MkState (after st w') Waiting (collected st) (tries st ++ [Some e]) (waits st) (done_ st))
| i_failed st i k e w' : at_ st = Attempt i k -> SendInventory env (Some i) (world (rs st)) = (Returned (Some e), w') ->
    k <> maxAttempts -> done_ st = false ->
    step st (MkState (after st w') (Backoff i k) (collected st) (tries st ++ [Some e]) (waits st) (done_ st))
| i_retry st i k : at_ st = Backoff i k ->
    step st (MkState (rs st) (Attempt i (Datatypes.S k)) (collected st) (tries st) (waits st ++ [delay k]) (done_ st))
| i_stop_retry st i k : at_ st = Backoff i k -> done_ st = true ->
    step st (MkState (rs st) Waiting (collected st) (tries st) (waits st) (done_ st))
(** The loop. *)
| i_tick st : at_ st = Waiting -> step st (MkState (rs st) Collecting (collected st) (tries st) (waits st) (done_ st))
| i_stop st : at_ st = Waiting -> done_ st = true ->
    step st (MkState (rs st) Ended (collected st) (tries st) (waits st) (done_ st)).

Definition init (r : run) : state := MkState r Collecting None [] [] false.

(** ** The ticker is part of the run *)

Lemma step_refines st st' : step st st' -> rs st' = rs st \/ Run.step env h (rs st) (rs st').
Proof.
  destruct 1; cbn; try (by left); right; try done; unfold after.
  1-3: by eapply r_collect.
  all: by eapply r_inventory.
Qed.

(** What a run with the ticker reaches, the relation of the run reaches. *)
Theorem ticker_refines r st : rtc step (init r) st -> rtc (Run.step env h) r (rs st).
Proof.
  change r with (rs (init r)) at 2. generalize (init r). intros st0.
  induction 1 as [|x y z Hxy _ IH]; [done|]. destruct (step_refines _ _ Hxy) as [<-|Hs]; [done|]. by eapply rtc_l.
Qed.

(** ** Attempts *)

Definition failed (l : list error) : Prop := Forall is_Some l.
Definition pauses (k : nat) : list Z := map delay (seq 1 k).

(** The attempts before one, after one, and when the goroutine waits for the ticker. *)
Definition tried (st : state) : Prop :=
  match at_ st with
  | Collecting | Ended => True
  | Attempt i k => collected st = Some i /\ failed (tries st) /\ length (tries st) = k - 1 /\ waits st = pauses (k - 1) /\ 1 <= k <= maxAttempts
  | Backoff i k => collected st = Some i /\ failed (tries st) /\ length (tries st) = k /\ waits st = pauses (k - 1) /\ 1 <= k < maxAttempts
  | Waiting =>
      done_ st = true \/ collected st = None \/
      exists fs, failed fs /\ waits st = pauses (length (tries st) - 1) /\
        (tries st = fs ++ [None] /\ length fs < maxAttempts \/ tries st = fs /\ length fs = maxAttempts)
  end.

Lemma failed_snoc l e : failed l -> failed (l ++ [Some e]).
Proof. intros Hl. apply Forall_app. split; [done|]. by repeat constructor. Qed.

Lemma pauses_snoc k : 1 <= k -> pauses (k - 1) ++ [delay k] = pauses k.
Proof. destruct k as [|k]; [lia|]. intros _. unfold pauses. rewrite seq_S, map_app. by rewrite Nat.sub_succ, Nat.sub_0_r. Qed.

Lemma step_tried st st' : step st st' -> tried st -> tried st'.
Proof.
  unfold tried. destruct 1 as [st r'|st|st i w' Ha|st w' Ha|st w' Ha|st i k w' Ha|st i k e w' Ha _ Hk|st i k e w' Ha _ Hk Hd|st i k Ha|st i k Ha Hd|st Ha|st Ha Hd];
    cbn; rewrite ?Ha; cbn; try done.
  - destruct (at_ st); try done. intros [H|H]; [by left|by right].
  - intros _. split; [done|]. split; [constructor|]. split; [done|]. split; [done|]. unfold maxAttempts. lia.
  - intros _. by right; left.
  - intros (_ & Hf & Hl & Hw & Hb). right; right. exists (tries st). split; [done|]. rewrite length_app. cbn. rewrite Hw.
    split; [replace (length (tries st) + 1 - 1) with (k - 1) by lia; done|]. left. split; [done|]. lia.
  - intros (_ & Hf & Hl & Hw & Hb). destruct Hk as [->|Hd]; [|by left]. right; right. exists (tries st ++ [Some e]).
    split; [by apply failed_snoc|]. rewrite length_app. cbn. rewrite Hw. unfold maxAttempts in *.
    split; [replace (length (tries st) + 1 - 1) with (3 - 1) by lia; done|]. right. split; [done|]. lia.
  - intros (Hc & Hf & Hl & Hw & Hb). split; [done|]. split; [by apply failed_snoc|]. rewrite length_app. cbn. unfold maxAttempts in *.
    split; [lia|]. split; [done|]. lia.
  - intros (Hc & Hf & Hl & Hw & Hb). split; [done|]. split; [done|]. unfold maxAttempts in *. cbn. rewrite Nat.sub_0_r, Hw.
    rewrite pauses_snoc by lia. split; [done|]. split; [done|]. lia.
  - intros _. by left.
Qed.

(** Whatever the other goroutines do and however the sends go, when the goroutine waits for its
    ticker in a run that goes on, the inventory it collected last was sent by an attempt after
    which there was none, or three attempts failed; there were at most three, and the pauses
    between them were of one and of three seconds. *)
Theorem inventory_retried r st i :
  rtc step (init r) st -> at_ st = Waiting -> done_ st = false -> collected st = Some i ->
  exists fs, failed fs /\
    (tries st = fs ++ [None] /\ length fs < maxAttempts \/ tries st = fs /\ length fs = maxAttempts) /\
    waits st = take (length (tries st) - 1) [second; 3 * second]%Z.
Proof.
  intros Hr. assert (tried (init r)) as H0 by done. revert H0. generalize dependent (init r). intros st0 Hr H0.
  assert (tried st) as Ht by (induction Hr; eauto using step_tried). clear -Ht.
  unfold tried. intros Ha Hd Hc. unfold tried in Ht. rewrite Ha, Hd, Hc in Ht.
  destruct Ht as [|[|(fs & Hf & Hw & Hk)]]; [done..|]. exists fs. split; [done|]. split; [done|]. rewrite Hw. unfold maxAttempts in Hk.
  assert (length (tries st) - 1 <= 2) as Hle by (destruct Hk as [[-> ?]|[-> ?]]; rewrite ?length_app; cbn; lia).
  destruct (length (tries st) - 1) as [|[|[|n]]]; [reflexivity..|lia].
Qed.

(** Between two ticks the goroutine makes at most eight moves of its own. *)
Definition rank (p : pc) : nat :=
  match p with
  | Collecting => 8
  | Attempt _ k => 2 * (maxAttempts - k) + 3
  | Backoff _ k => 2 * (maxAttempts - k) + 2
  | Waiting => 1
  | Ended => 0
  end.

Lemma own_step_ranked st st' : tried st -> step st st' -> at_ st' <> Collecting -> at_ st' <> at_ st -> rank (at_ st') < rank (at_ st).
Proof.
  unfold tried. intros Ht Hs Hc Hn.
  destruct Hs as [st r'|st|st i w' Ha|st w' Ha|st w' Ha|st i k w' Ha|st i k e w' Ha _ Hk|st i k e w' Ha _ Hk Hd|st i k Ha|st i k Ha Hd|st Ha|st Ha Hd];
    cbn in *; try done; rewrite Ha in *; cbn in *; unfold maxAttempts in *; lia.
Qed.
End Inventory.

(** ** A collection whose first attempt fails *)

Definition toy_inventory : InventoryHandler (list gostring) :=
  MkInventoryHandler _ (fun _ s => (Returned (Some (str "inv")), s)) (fun _ s => (Returned None, s)).
Definition toy_handler : StreamHandler (list gostring) :=
  MkStreamHandler _ (OnWelcome _ sample_handler) (OnManifestDelivery _ sample_handler) (OnQuery _ sample_handler) (OnError _ sample_handler)
    None None None (Some toy_inventory) None.
(** The second message of the stream is lost. *)
Definition flaky_env : Env :=
  MkEnv (fun n _ => if n =? 1 then SendFailed (str "reset") else Written) (fun n => itoa n) None (str "amd64").

Definition start_run : run := MkRun started_world [] 0 [] [] false.
Definition w1 : World := Eval vm_compute in (collect toy_inventory started_world).2.
Definition w2 : World := Eval vm_compute in (SendInventory flaky_env (Some (str "inv")) w1).2.
Definition w3 : World := Eval vm_compute in (SendInventory flaky_env (Some (str "inv")) w2).2.
Definition resent : state :=
  MkState (MkRun w3 [] 0 [] [] false) Waiting (Some (str "inv")) [Some (str "reset"); None] [second] false.

Lemma resent_reachable : rtc (step flaky_env toy_handler toy_inventory) (init start_run) resent.
Proof.
  eapply rtc_l; [by apply (i_collected _ _ _ (init start_run) (str "inv") w1)|].
  eapply rtc_l; [by eapply (i_failed _ _ _ _ (str "inv") 1 (str "reset") w2)|].
  eapply rtc_l; [by eapply (i_retry _ _ _ _ (str "inv") 1)|].
  eapply rtc_l; [by eapply (i_sent _ _ _ _ (str "inv") 2 w3)|]. apply rtc_refl.
Qed.

Lemma inventory_retried_witness :
  exists fs, failed fs /\
    (tries resent = fs ++ [None] /\ length fs < maxAttempts \/ tries resent = fs /\ length fs = maxAttempts) /\
    waits resent = take (length (tries resent) - 1) [second; 3 * second]%Z.
Proof. by apply (inventory_retried flaky_env toy_handler toy_inventory start_run resent (str "inv") resent_reachable). Defined.

Lemma ticker_refines_witness : rtc (ClientRun.Run.step flaky_env toy_handler) start_run (rs resent).
Proof. apply (ticker_refines flaky_env toy_handler toy_inventory eq_refl start_run resent resent_reachable). Defined.
End InvTicker.
