(* ===== verification/ClientEnroll.v ===== *)
(** * The client's options, enrolment and renewal ([src/client.go])

    The functional options of [NewClient], the TLS configurations they build, the client of
    the unauthenticated bootstrap calls, [RegisterAgent] and [RenewCertificate].  Reading a
    key pair, the certificates of a PEM text, the roots of the host, the outcome of
    [http2.ConfigureTransport] and the generated RPC stubs are parameters.  A pool is a list
    that stands for the set of its certificates. *)
From S2P Require Import Prelude Messages Client.

Import pm Client.Client.

Module ClientEnroll.

Section Enroll.
(** [tls.Certificate] and [x509.Certificate]. *)
Context {key_pair certificate : Type}.
Context (X509KeyPair : gostring -> gostring -> option key_pair).
(** The certificates of a text that parse, in order. *)
Context (certs_of_pem : gostring -> list certificate).
(** [x509.SystemCertPool]; [None] is an error or a nil pool. *)
Context (SystemCertPool : option (list certificate)).
(** [os.ReadFile] while an option is built. *)
Context (ReadFile : gostring -> option gostring).
(** Whether [http2.ConfigureTransport] succeeds on a new transport. *)
Context (ConfigureTransport : bool).

(** ** HTTP clients *)

Record tls_config := MkTLS {
  Certificates : list key_pair; RootCAs : option (list certificate); MinVersion : Z; InsecureSkipVerify : bool
}.
Definition VersionTLS13 : Z := 772.

Inductive transport :=
| HTTPTransport (proxy_from_environment : bool) (TLSClientConfig : tls_config) (http2 : bool)
| H2CTransport (AllowHTTP DisableCompression : bool)
| OtherTransport.

(** [Timeout] in nanoseconds, 0 for none.  [OtherTransport] is one of the caller or the
    default one. *)
Record http_client := MkHTTPClient { Timeout : Z; Transport : transport }.
Definition DefaultClient : http_client := MkHTTPClient 0 OtherTransport.

(** What an option may change: the client, and the pointer to its HTTP client. *)
Definition target : Type := Client * option http_client.
Definition ClientOption : Type := target -> target.
Definition apply_all (opts : list ClientOption) (t : target) : target := fold_left (fun t opt => opt t) opts t.

Definition set_identity (device token : gostring) (c : Client) : Client :=
  MkClient device token (stream c) (deliveryCh c) (pendingRequests c) (chans c) (heartbeatUpdate c) (invSem c) (luksRevokeSem c).

Definition WithHTTPClient (hc : option http_client) : ClientOption := fun t => (fst t, hc).
Definition WithAuth (device token : gostring) : ClientOption := fun t => (set_identity device token (fst t), snd t).
(** The logger is not part of the model. *)
Definition WithLogger : ClientOption := fun t => t.

Definition newHTTPClientWithTLS (cfg : tls_config) : http_client :=
  MkHTTPClient 0 (HTTPTransport false cfg ConfigureTransport).
Definition WithTLSConfig (cfg : tls_config) : ClientOption := fun t => (fst t, Some (newHTTPClientWithTLS cfg)).
Definition WithH2C : ClientOption := fun t => (fst t, Some (MkHTTPClient 0 (H2CTransport true true))).

(** [CertPool.AppendCertsFromPEM]: [None] when the text holds no certificate. *)
Definition AppendCertsFromPEM (pool : list certificate) (pem : gostring) : option (list certificate) :=
  match certs_of_pem pem with [] => None | cs => Some (pool ++ cs) end.

Inductive enroll_error :=
| ErrLoadClientCertificate
| ErrParseClientCertificate
| ErrReadCA
| ErrParseCA
| ErrRegister (e : gostring)
| ErrRenew (e : gostring).

Definition with_roots (pair : key_pair) (pool : list certificate) (caPEM : gostring) : result enroll_error ClientOption :=
  match AppendCertsFromPEM pool caPEM with
  | None => Err ErrParseCA
  | Some caPool => Ok (fun t => (fst t, Some (newHTTPClientWithTLS (MkTLS [pair] (Some caPool) VersionTLS13 false))))
  end.

(** [tls.LoadX509KeyPair]. *)
Definition LoadX509KeyPair (certFile keyFile : gostring) : option key_pair :=
  match ReadFile certFile with
  | None => None
  | Some certPEM => match ReadFile keyFile with None => None | Some keyPEM => X509KeyPair certPEM keyPEM end
  end.

Definition WithMTLS (certFile keyFile caFile : gostring) : result enroll_error ClientOption :=
  match LoadX509KeyPair certFile keyFile with
  | None => Err ErrLoadClientCertificate
  | Some cert =>
      match ReadFile caFile with
      | None => Err ErrReadCA
      | Some caCert => with_roots cert [] caCert
      end
  end.

Definition WithMTLSFromPEM (certPEM keyPEM caPEM : gostring) : result enroll_error ClientOption :=
  match X509KeyPair certPEM keyPEM with
  | None => Err ErrParseClientCertificate
  | Some cert => with_roots cert [] caPEM
  end.

Definition WithMTLSFromPEMAndSystemRoots (certPEM keyPEM caPEM : gostring) : result enroll_error ClientOption :=
  match X509KeyPair certPEM keyPEM with
  | None => Err ErrParseClientCertificate
  | Some cert => with_roots cert (default [] SystemCertPool) caPEM
  end.

(** 60 s. *)
Definition bootstrapHTTPClient : http_client :=
  MkHTTPClient (60 * 1000000000) (HTTPTransport true (MkTLS [] None VersionTLS13 false) ConfigureTransport).

(** [NewClient] with its options; the limit on inbound messages is the argument of the
    generated stub. *)
Definition NewClientWith (opts : list ClientOption) : target := apply_all opts (NewClient [] [], Some DefaultClient).
(** The transport whose idle connections are closed, if any. *)
Definition CloseIdleConnections (c : option target) : option transport :=
  match c with Some (_, Some hc) => Some (Transport hc) | _ => None end.
Definition maxInboundMessageBytes : Z := Z.shiftl 16 20.

(** ** Enrolment and renewal *)

Record RegisterRequest := MkRegister {
  req_Token : gostring; req_Hostname : gostring; req_AgentVersion : gostring; req_Csr : gostring; req_AgentSealingPublicKey : gostring
}.
Record RegisterResponse := MkRegistered {
  resp_DeviceId : option gostring; resp_CaCert : gostring; resp_Certificate : gostring; resp_ControlUrl : gostring;
  resp_ControlSealingPublicKey : gostring
}.
Record RegisterAgentResult := MkRegisterResult {
  DeviceID : gostring; CACert : gostring; Certificate : gostring; ControlURL : gostring; ControlSealingPublicKey : gostring
}.
(** [NotAfter] is a protobuf timestamp: seconds and nanoseconds. *)
Record RenewResponse := MkRenewed { renewed_Certificate : gostring; renewed_NotAfter : option (Z * Z); renewed_CaCertificate : gostring }.
Record RenewCertificateResult := MkRenewResult { new_Certificate : gostring; new_NotAfter : Z * Z; new_CACert : gostring }.

(** [Timestamp.AsTime]: the getters of a nil message return 0. *)
Definition AsTime (t : option (Z * Z)) : Z * Z := default (0, 0)%Z t.

(** The control server and what is between, as a state and its answers. *)
Context {W : Type}.
Context (Register : option http_client -> gostring -> RegisterRequest -> W -> W * result gostring RegisterResponse).
Context (Renew : option http_client -> gostring -> gostring -> gostring -> W -> W * result gostring RenewResponse).

(** The client that a bootstrap call uses. *)
Definition bootstrap_client (opts : list ClientOption) : option http_client :=
  snd (apply_all opts (MkClient [] [] false None ∅ ∅ None 0 0, Some bootstrapHTTPClient)).

Definition RegisterAgent (controlURL token hostname agentVersion csr sealingPubKey : gostring) (opts : list ClientOption) (w : W)
    : W * result enroll_error RegisterAgentResult :=
  match Register (bootstrap_client opts) controlURL (MkRegister token hostname agentVersion csr sealingPubKey) w with
  | (w, Err e) => (w, Err (ErrRegister e))
  | (w, Ok m) => (w, Ok (MkRegisterResult (default [] (resp_DeviceId m)) (resp_CaCert m) (resp_Certificate m) (resp_ControlUrl m)
                           (resp_ControlSealingPublicKey m)))
  end.

Definition RenewCertificate (controlURL csr currentCert : gostring) (opts : list ClientOption) (w : W)
    : W * result enroll_error RenewCertificateResult :=
  match Renew (bootstrap_client opts) controlURL csr currentCert w with
  | (w, Err e) => (w, Err (ErrRenew e))
  | (w, Ok m) => (w, Ok (MkRenewResult (renewed_Certificate m) (AsTime (renewed_NotAfter m)) (renewed_CaCertificate m)))
  end.

(** ** What a client trusts *)

(** [crypto/tls]: the roots of the configuration, or else the ones of the host; a server is
    accepted with a chain to one of them. *)
Definition roots (cfg : tls_config) : list certificate :=
  match RootCAs cfg with Some p => p | None => default [] SystemCertPool end.
Definition accepts (cfg : tls_config) (root : certificate) : Prop := InsecureSkipVerify cfg = true \/ root ∈ roots cfg.

(** A client that speaks only TLS 1.3, presents [pairs] and trusts the roots in [P]. *)
Definition secured (pairs : list key_pair) (P : certificate -> Prop) (hc : option http_client) : Prop :=
  exists timeout proxy cfg h2, hc = Some (MkHTTPClient timeout (HTTPTransport proxy cfg h2)) /\
    MinVersion cfg = VersionTLS13 /\ InsecureSkipVerify cfg = false /\ Certificates cfg = pairs /\ forall root, accepts cfg root <-> P root.

(** Options that leave the HTTP client alone. *)
Inductive plain : ClientOption -> Prop :=
| plain_auth device token : plain (WithAuth device token)
| plain_logger : plain WithLogger.

Lemma plain_client opts t : Forall plain opts -> snd (apply_all opts t) = snd t.
Proof using Type.
  intros Hp. revert t. induction Hp as [|o opts Ho _ IH]; intros t; [done|]. cbn. fold (apply_all opts (o t)).
  rewrite IH. by destruct Ho.
Qed.

Lemma apply_all_app pre post t : apply_all (pre ++ post) t = apply_all post (apply_all pre t).
Proof. apply fold_left_app. Qed.

Lemma with_roots_secured pair pool caPEM opt pre post t :
  with_roots pair pool caPEM = Ok opt -> Forall plain post ->
  secured [pair] (fun root => root ∈ pool \/ root ∈ certs_of_pem caPEM) (snd (apply_all (pre ++ opt :: post) t)).
Proof using Type.
  unfold with_roots, AppendCertsFromPEM. destruct (certs_of_pem caPEM) as [|c cs] eqn:Hc; [done|]. intros [= <-] Hp.
  rewrite apply_all_app. cbn. fold (apply_all post). rewrite plain_client by done. cbn.
  eexists _, _, _, _. split; [reflexivity|]. repeat (split; [reflexivity|]). intros root. unfold accepts, roots. cbn.
  rewrite elem_of_app. split; [by intros [|]|by right].
Qed.

Lemma strict_secured certPEM keyPEM caPEM opt pre post t :
  WithMTLSFromPEM certPEM keyPEM caPEM = Ok opt -> Forall plain post ->
  exists pair, X509KeyPair certPEM keyPEM = Some pair /\
    secured [pair] (fun root => root ∈ certs_of_pem caPEM) (snd (apply_all (pre ++ opt :: post) t)).
Proof using Type.
  unfold WithMTLSFromPEM. destruct (X509KeyPair certPEM keyPEM) as [pair|]; [|done]. intros Ho Hp. exists pair. split; [done|].
  destruct (with_roots_secured _ _ _ _ pre _ t Ho Hp) as (tm & px & cfg & h2 & -> & Hv & Hi & Hc & Ha).
  exists tm, px, cfg, h2. do 4 (split; [done|]). intros root. rewrite Ha. split; [by intros [?%elem_of_nil|]|by right].
Qed.

Lemma system_secured certPEM keyPEM caPEM opt pre post t :
  WithMTLSFromPEMAndSystemRoots certPEM keyPEM caPEM = Ok opt -> Forall plain post ->
  exists pair, X509KeyPair certPEM keyPEM = Some pair /\
    secured [pair] (fun root => root ∈ default [] SystemCertPool \/ root ∈ certs_of_pem caPEM)
      (snd (apply_all (pre ++ opt :: post) t)).
Proof using Type.
  unfold WithMTLSFromPEMAndSystemRoots. destruct (X509KeyPair certPEM keyPEM) as [pair|]; [|done]. intros Ho Hp.
  exists pair. split; [done|]. by eapply with_roots_secured.
Qed.

(** An option from files is the option from what the files hold. *)
Lemma mtls_from_files certFile keyFile caFile opt :
  WithMTLS certFile keyFile caFile = Ok opt <->
  exists certPEM keyPEM caPEM, ReadFile certFile = Some certPEM /\ ReadFile keyFile = Some keyPEM /\ ReadFile caFile = Some caPEM /\
    WithMTLSFromPEM certPEM keyPEM caPEM = Ok opt.
Proof.
  unfold WithMTLS, WithMTLSFromPEM, LoadX509KeyPair. split.
  - destruct (ReadFile certFile) as [c|] eqn:?; [|done]. destruct (ReadFile keyFile) as [k|] eqn:?; [|done].
    destruct (X509KeyPair c k) eqn:Hk; [|done]. destruct (ReadFile caFile) as [ca|] eqn:?; [|done].
    intros H. exists c, k, ca. by rewrite Hk.
  - intros (c & k & ca & -> & -> & -> & H). by destruct (X509KeyPair c k).
Qed.

(** ** The bootstrap calls *)

(** The options that the package builds with TLS, and the plain ones. *)
Inductive safe : ClientOption -> Prop :=
| safe_plain opt : plain opt -> safe opt
| safe_strict certPEM keyPEM caPEM opt : WithMTLSFromPEM certPEM keyPEM caPEM = Ok opt -> safe opt
| safe_system certPEM keyPEM caPEM opt : WithMTLSFromPEMAndSystemRoots certPEM keyPEM caPEM = Ok opt -> safe opt
| safe_files certFile keyFile caFile opt : WithMTLS certFile keyFile caFile = Ok opt -> safe opt.

(** A client that verifies its server over TLS 1.3. *)
Definition verified (hc : option http_client) : Prop := exists pairs P, secured pairs P hc.

Lemma safe_verified opts t : Forall safe opts -> verified (snd t) -> verified (snd (apply_all opts t)).
Proof.
  intros Hs. revert t. induction Hs as [|o opts Ho _ IH]; intros t Ht; [done|]. change (verified (snd (apply_all opts (o t)))). apply IH.
  destruct Ho as [o Hp|c k ca o Ho|c k ca o Ho|c k ca o Ho].
  - rewrite <- (plain_client [o] t) in Ht by (by constructor). done.
  - destruct (strict_secured _ _ _ _ [] [] t Ho (Forall_nil_2 _)) as (pair & _ & Hsec). by eexists _, _.
  - destruct (system_secured _ _ _ _ [] [] t Ho (Forall_nil_2 _)) as (pair & _ & Hsec). by eexists _, _.
  - apply mtls_from_files in Ho as (? & ? & ? & _ & _ & _ & Ho).
    destruct (strict_secured _ _ _ _ [] [] t Ho (Forall_nil_2 _)) as (pair & _ & Hsec). by eexists _, _.
Qed.

Lemma bootstrap_verified : verified (Some bootstrapHTTPClient).
Proof.
  exists [], (fun root => root ∈ default [] SystemCertPool). eexists _, _, _, _. split; [reflexivity|]. repeat (split; [reflexivity|]).
  intros root. unfold accepts, roots. cbn. split; [by intros [|]|by right].
Qed.

Lemma bootstrap_client_verified opts : Forall safe opts -> verified (bootstrap_client opts).
Proof. intros Hs. by apply safe_verified, bootstrap_verified. Qed.

(** A call of the agent: enrolment or renewal. *)
Inductive bootstrap_call :=
| Enrol (controlURL token hostname agentVersion csr sealingPubKey : gostring) (opts : list ClientOption)
| Renewal (controlURL csr currentCert : gostring) (opts : list ClientOption).
Definition options_of (b : bootstrap_call) : list ClientOption :=
  match b with Enrol _ _ _ _ _ _ opts => opts | Renewal _ _ _ opts => opts end.
Definition call1 (w : W) (b : bootstrap_call) : W :=
  match b with
  | Enrol url token hostname version csr key opts => fst (RegisterAgent url token hostname version csr key opts w)
  | Renewal url csr cert opts => fst (RenewCertificate url csr cert opts w)
  end.

(** The identity of an agent only crosses verified channels: a property of the outside world
    that exchanges over clients with TLS 1.3 and a verified server keep is kept by every
    sequence of enrolments and renewals, whatever options of the package they get. *)
Theorem enrolment_verified (P : W -> Prop) calls w :
  (forall hc url r w, verified hc -> P w -> P (fst (Register hc url r w))) ->
  (forall hc url csr cert w, verified hc -> P w -> P (fst (Renew hc url csr cert w))) ->
  Forall (fun b => Forall safe (options_of b)) calls -> P w -> P (fold_left call1 calls w).
Proof.
  intros Hr Hn Hc. revert w. induction Hc as [|b calls Hb _ IH]; intros w Hw; [done|]. cbn [fold_left]. apply IH.
  destruct b as [url tok host ver csr key opts|url csr cert opts]; cbn in *; apply bootstrap_client_verified in Hb.
  - unfold RegisterAgent. specialize (Hr _ url (MkRegister tok host ver csr key) w Hb Hw). by destruct (Register _ _ _ w) as [? []].
  - unfold RenewCertificate. specialize (Hn _ url csr cert w Hb Hw). by destruct (Renew _ _ _ _ w) as [? []].
Qed.

(** The client of a call without an option of its own has a limit of 60 seconds, which every
    option with TLS takes away together with the proxy of the environment. *)
Theorem mtls_renewal_unbounded certPEM keyPEM caPEM opt post :
  WithMTLSFromPEMAndSystemRoots certPEM keyPEM caPEM = Ok opt -> Forall plain post ->
  (exists tr, bootstrap_client post = Some (MkHTTPClient (60 * 1000000000) tr)) /\
  exists cfg, bootstrap_client (opt :: post) = Some (MkHTTPClient 0 (HTTPTransport false cfg ConfigureTransport)).
Proof.
  unfold bootstrap_client. intros Ho Hp. split; [rewrite plain_client by done; by eexists|]. revert Ho.
  unfold WithMTLSFromPEMAndSystemRoots. destruct (X509KeyPair certPEM keyPEM); [|done]. unfold with_roots.
  destruct (AppendCertsFromPEM _ caPEM); [|done]. intros [= <-]. cbn. fold (apply_all post). rewrite plain_client by done. by eexists.
Qed.

(** What the agent gets of an enrolment is what the server said, and of a renewal too, except
    that an answer without a time of expiry becomes one that expired in 1970. *)
Lemma renewal_without_expiry url csr cert opts w w' c ca :
  Renew (bootstrap_client opts) url csr cert w = (w', Ok (MkRenewed c None ca)) ->
  RenewCertificate url csr cert opts w = (w', Ok (MkRenewResult c (0, 0)%Z ca)).
Proof. intros H. unfold RenewCertificate. by rewrite H. Qed.

(** ** The stream's client *)

(** The last identity that was set counts, whatever the HTTP client. *)
Lemma client_identity pre device token post :
  Forall (fun o => forall t, fst (o t) = fst t) post ->
  deviceID (fst (NewClientWith (pre ++ WithAuth device token :: post))) = device /\
  authToken (fst (NewClientWith (pre ++ WithAuth device token :: post))) = token.
Proof.
  intros Hp. unfold NewClientWith. rewrite apply_all_app. generalize (apply_all pre (NewClient [] [], Some DefaultClient)) as t. intros t.
  change (apply_all (WithAuth device token :: post) t) with (apply_all post (WithAuth device token t)).
  assert (forall t', fst (apply_all post t') = fst t') as ->; [|done].
  induction Hp as [|o post Ho _ IH]; intros t'; [done|]. change (fst (apply_all post (o t')) = fst t'). by rewrite IH, Ho.
Qed.
End Enroll.

(** The trust of an agent's client: with a strict option only the certificates of [caPEM]
    are accepted as roots, whatever the host trusts; with the other one they are added to the
    roots of the host.  Both speak only TLS 1.3 and present the key pair, whatever options
    came before and in whatever order the plain ones follow. *)
Theorem mtls_trust {key_pair certificate} X509KeyPair certs_of_pem SystemCertPool h2 certPEM keyPEM caPEM pre post opt t :
  Forall (plain (key_pair := key_pair) (certificate := certificate)) post ->
  let chosen := snd (apply_all (pre ++ opt :: post) t) in
  (WithMTLSFromPEM X509KeyPair certs_of_pem h2 certPEM keyPEM caPEM = Ok opt ->
    exists pair, X509KeyPair certPEM keyPEM = Some pair /\
      secured SystemCertPool [pair] (fun root => root ∈ certs_of_pem caPEM) chosen) /\
  (WithMTLSFromPEMAndSystemRoots X509KeyPair certs_of_pem SystemCertPool h2 certPEM keyPEM caPEM = Ok opt ->
    exists pair, X509KeyPair certPEM keyPEM = Some pair /\
      secured SystemCertPool [pair] (fun root => root ∈ default [] SystemCertPool \/ root ∈ certs_of_pem caPEM) chosen).
Proof. intros Hp chosen. split; intros Ho; [by eapply strict_secured|by eapply system_secured]. Qed.

(** ** Witnesses: certificates are numbers, a text holds the codes of its characters *)

Definition toy_pem (s : gostring) : list nat := map nat_of_ascii s.
Definition toy_pair (c k : gostring) : option gostring := if bool_decide (c = []) then None else Some (c ++ k).

Lemma mtls_trust_witness :
  exists hc, secured (Some [1; 2]) [str "ck"] (fun root => root ∈ toy_pem (str "A")) hc /\
    ~ secured (Some [1; 2]) [str "ck"] (fun root => root ∈ [1; 2] \/ root ∈ toy_pem (str "A")) hc.
Proof.
  destruct (WithMTLSFromPEM toy_pair toy_pem true (str "c") (str "k") (str "A")) as [opt|] eqn:Ho; [|discriminate Ho].
  destruct (mtls_trust toy_pair toy_pem (Some [1; 2]) true (str "c") (str "k") (str "A") [WithH2C] [WithAuth [] []] opt
              (NewClient [] [], None)) as [Hs _]; [repeat constructor|].
  destruct (Hs Ho) as (pair & [= <-] & Hsec). eexists. split; [exact Hsec|].
  intros (tm & px & cfg & h2 & He & _ & _ & _ & Ha). destruct Hsec as (tm' & px' & cfg' & h2' & He' & _ & _ & _ & Ha').
  rewrite He in He'. injection He' as -> -> -> ->.
  assert (accepts (Some [1; 2]) cfg' 1) as Hacc by (apply Ha; left; constructor).
  apply Ha' in Hacc. revert Hacc. by apply (bool_decide_unpack _).
Defined.

(** A world that counts the exchanges over anything else than verified TLS 1.3. *)
Definition insecure (hc : option (http_client (key_pair := gostring) (certificate := nat))) : nat :=
  match hc with
  | Some (MkHTTPClient _ (HTTPTransport _ cfg _)) => if bool_decide (MinVersion cfg = VersionTLS13) && negb (InsecureSkipVerify cfg) then 0 else 1
  | _ => 1
  end.
Definition toy_register (hc : option http_client) (_ : gostring) (_ : RegisterRequest) (n : nat) : nat * result gostring RegisterResponse :=
  (insecure hc + n, Ok (MkRegistered None [] [] [] [])).
Definition toy_renew (hc : option http_client) (_ _ _ : gostring) (n : nat) : nat * result gostring RenewResponse :=
  (insecure hc + n, Ok (MkRenewed [] None [])).

Lemma verified_secure sys hc : verified sys hc -> insecure hc = 0.
Proof. intros (pairs & P & tm & px & cfg & h2 & -> & Hv & Hi & _). cbn. by rewrite Hv, Hi. Qed.

(** Enrolment with the default client and a renewal with the strict option never leave
    verified TLS; a renewal with the cleartext option does. *)
Lemma enrolment_verified_witness :
  match WithMTLSFromPEM toy_pair toy_pem true (str "c") (str "k") (str "A") with
  | Err _ => False
  | Ok opt => fold_left (call1 true toy_register toy_renew) [Enrol [] [] [] [] [] [] []; Renewal [] [] [] [opt; WithAuth [] []]] 0 = 0
  end /\
  fold_left (call1 true toy_register toy_renew) [Renewal [] [] [] [WithH2C]] 0 = 1.
Proof.
  split; [|reflexivity]. destruct (WithMTLSFromPEM toy_pair toy_pem true (str "c") (str "k") (str "A")) as [opt|] eqn:Ho; [|discriminate Ho].
  apply (enrolment_verified toy_pair toy_pem (Some [1; 2]) (fun _ => None) true toy_register toy_renew (fun n => n = 0)).
  - intros hc url r n Hv ->. cbn. by rewrite (verified_secure _ _ Hv).
  - intros hc url csr cert n Hv ->. cbn. by rewrite (verified_secure _ _ Hv).
  - constructor; [constructor|]. constructor; [|constructor]. constructor; [by eapply safe_strict|].
    constructor; [apply safe_plain; constructor|constructor].
  - reflexivity.
Defined.

Lemma mtls_renewal_unbounded_witness :
  exists opt cfg, WithMTLSFromPEMAndSystemRoots toy_pair toy_pem (Some [1; 2]) true (str "c") (str "k") (str "A") = Ok opt /\
    bootstrap_client true [opt] = Some (MkHTTPClient 0 (HTTPTransport false cfg true)).
Proof.
  destruct (WithMTLSFromPEMAndSystemRoots toy_pair toy_pem (Some [1; 2]) true (str "c") (str "k") (str "A")) as [opt|] eqn:Ho;
    [|discriminate Ho].
  destruct (mtls_renewal_unbounded toy_pair toy_pem (Some [1; 2]) true (str "c") (str "k") (str "A") opt [] Ho (Forall_nil_2 _))
    as [_ [cfg Hc]]. by exists opt, cfg.
Defined.

(** What the options leave: HTTP/2 in the clear, and whatever client the caller brings. *)
Lemma h2c_unverified (sys : option (list nat)) pre t :
  ~ verified (key_pair := gostring) sys (snd (apply_all (pre ++ [WithH2C]) t)).
Proof. rewrite apply_all_app. by intros (? & ? & ? & ? & ? & ? & [=] & _). Qed.
End ClientEnroll.
