(* ===== verification/ClientPending.v ===== *)
(** * Correlated requests ([src/client.go]: [registerPending], [deliverPending],
      [Close], [StartReceiver] and the methods that wait for a response)

    First the five request methods as functions over the client's monad, with
    the wait for the response as a parameter; then the pending-request channels
    as a step relation in which requesters, the receiver goroutine and [Close]
    interleave between their critical sections. *)
From S2P Require Import Prelude Messages Client.

Import pm Client.Client.

Module Requests.

(** ** Request methods *)

(** What [select { case <-ctx.Done(): case resp, ok := <-ch: }] produced. *)
Inductive wait_result :=
| WaitCtx (e : gostring)
| WaitClosed
| WaitMsg (m : option ServerMessage).

Section Methods.
Context {S : Type} (env : Env).
Abbreviation M := (Client.M (S := S)).
Abbreviation World := (Client.World (S := S)).

(** The other goroutines run until the channel is ready or the context is done. *)
Context (await : nat -> M wait_result).

(** The part every response goes through: closed channel, error frame, arm. *)
Definition open_response {A B} (name : string) (arm : ServerPayload -> option A)
    (k : A -> result gostring B) (r : wait_result) : result gostring B :=
  match r with
  | WaitCtx e => Err e
  | WaitClosed | WaitMsg None =>
      Err (str "stream closed while waiting for " ++ str name ++ str " response")
  | WaitMsg (Some m) =>
      match Payload m with
      | ServerMessage_Error (Some e) => Err (str "server error: " ++ Message e)
      | p => match arm p with
             | None => Err (str "unexpected response type")
             | Some a => k a
             end
      end
  end.

(** [validateInbound] on a response. *)
Definition check_response {B} (name : string) (x : inbound) (b : B) : result gostring B :=
  match validateInbound env x with
  | Some e => Err (str "invalid " ++ str name ++ str " response: " ++ e)
  | None => Ok b
  end.

Definition register (id : gostring) : M nat := fun w =>
  let ch := fresh (dom (chans (client w))) in
  (Returned ch, MkWorld (registerPending id ch (client w)) (hstate w) (trace w) (n_ulid w) (n_send w)).

(** [id := NewULID(); ch := c.registerPending(id); defer c.unregisterPending(id)],
    the send, the wait. *)
Definition request {A} (p : AgentPayload) (what : string)
    (finish : wait_result -> result gostring A) : M (result gostring A) :=
  id ← NewULID env;
  ch ← register id;
  deferring (unregisterPending id) (
    err ← send env (MkAgentMessage id p);
    match err with
    | Some e => mret (Err (wrap what e))
    | None => r ← await ch; mret (finish r)
    end).

Definition GetLuksKey (actionID : gostring) : M (result gostring wire) :=
  request (AgentMessage_GetLuksKey actionID) "send get luks key request"
    (open_response "GetLuksKey"
       (fun p => match p with ServerMessage_GetLuksKey r => r | _ => None end)
       (fun r => check_response "GetLuksKey" (InGetLuksKey r) (Passphrase r))).

Definition StoreLuksKey (actionID devicePath : gostring) (passphrase : wire) (reason : Z)
    : M (result gostring unit) :=
  request (AgentMessage_StoreLuksKey actionID devicePath passphrase reason)
    "send store luks key request"
    (open_response "StoreLuksKey"
       (fun p => match p with ServerMessage_StoreLuksKey r => r | _ => None end)
       (fun r => if Success r then Ok tt else Err (str "server rejected key storage"))).

Definition StoreLpsPasswords (actionID : gostring) (rotations : list wire)
    : M (result gostring unit) :=
  match rotations with
  | [] => mret (Err (str "refusing to send an empty LPS rotation batch"))
  | _ =>
      request (AgentMessage_StoreLpsPasswords actionID rotations)
        "send store lps passwords request"
        (open_response "StoreLpsPasswords"
           (fun p => match p with ServerMessage_StoreLpsPasswords r => r | _ => None end)
           (fun r => if Success r then Ok tt else Err (str "server rejected LPS password storage")))
  end.

Record ValidateLuksTokenResult := MkValidateLuksTokenResult
  { ActionID : gostring; DevicePath : gostring; MinLength : Z; Complexity : Z }.

Definition ValidateLuksToken (token : gostring) : M (result gostring ValidateLuksTokenResult) :=
  request (AgentMessage_ValidateLuksToken token) "send validate luks token request"
    (open_response "ValidateLuksToken"
       (fun p => match p with ServerMessage_ValidateLuksToken r => r | _ => None end)
       (fun r => check_response "ValidateLuksToken" (InValidateLuksToken r)
                   (MkValidateLuksTokenResult (vlt_ActionId r) (vlt_DevicePath r)
                      (vlt_MinLength r) (vlt_Complexity r)))).

Record SyncStateResult := MkSyncStateResult
  { res_Deliveries : list ManifestDelivery; res_SyncIntervalMinutes : Z;
    res_MaintenanceWindow : option wire }.

Definition Sync : M (result gostring SyncStateResult) :=
  request AgentMessage_SyncRequest "send sync request"
    (open_response "SyncState"
       (fun p => match p with ServerMessage_SyncState r => r | _ => None end)
       (fun r => check_response "SyncState" (InSyncState r)
                   (MkSyncStateResult (Deliveries r) (SyncIntervalMinutes r) (MaintenanceWindow r)))).

(** ** Lemmas *)

Lemma open_response_ok {A B} name (arm : ServerPayload -> option A) (k : A -> result gostring B) r b :
  open_response name arm k r = Ok b ->
  exists m a, r = WaitMsg (Some m) /\ arm (Payload m) = Some a /\ k a = Ok b.
Proof.
  unfold open_response. destruct r as [| |[m|]]; try done.
  destruct (Payload m) eqn:Hp; try (destruct p; [done|]);
    (destruct (arm _) as [a|] eqn:Ha; [|done]); intros; exists m, a; by rewrite Hp.
Qed.

Lemma check_response_ok {B} name x (b b' : B) :
  check_response name x b = Ok b' -> validateInbound env x = None /\ b' = b.
Proof. unfold check_response. destruct (validateInbound env x); [done|]. by intros [= ->]. Qed.

Lemma request_ok {A} p what (finish : wait_result -> result gostring A) (w w' : World) a :
  request p what finish w = (Returned (Ok a), w') ->
  exists ch w1 w2 r, await ch w1 = (Returned r, w2) /\ finish r = Ok a /\
    trace w1 = trace w ++ [EvSent (MkAgentMessage (ulid env (n_ulid w)) p) true] /\
    pendingRequests (client w1) !! ulid env (n_ulid w) = Some ch /\
    chans (client w1) !! ch = Some (MkChan None false) /\
    client w' = unregisterPending (ulid env (n_ulid w)) (client w2).
Proof.
  unfold request, deferring, register, NewULID, send. simpl.
  unfold mbind, M_bind, mret, M_ret; simpl.
  destruct (stream (client w)); simpl; [|intros [= ]].
  destruct (transport env (n_send w) _) eqn:Ht; simpl; [|intros [= ]|intros [= ]].
  match goal with |- context [await ?c ?x] => destruct (await c x) as [[r|] w2] eqn:Ea end;
    [|intros [= ]].
  intros [= Hf <-]. eexists _, _, _, _. split; [exact Ea|]. split; [done|]. simpl.
  split; [done|]. split; [apply lookup_insert_eq|]. split; [apply lookup_insert_eq|done].
Qed.

(** ** Properties *)

(** [GetLuksKey] hands out a passphrase only when, while its id was
    registered and after its request was written, a response of the right arm
    arrived whose payload passed validation; and it leaves its id unregistered.
    An error frame, a closed stream or another arm gives an error. *)
Theorem GetLuksKey_ok actionID (w w' : World) pass :
  GetLuksKey actionID w = (Returned (Ok pass), w') ->
  exists ch w1 w2 m r,
    await ch w1 = (Returned (WaitMsg (Some m)), w2) /\
    EvSent (MkAgentMessage (ulid env (n_ulid w)) (AgentMessage_GetLuksKey actionID)) true
      ∈ trace w1 /\
    pendingRequests (client w1) !! ulid env (n_ulid w) = Some ch /\
    Payload m = ServerMessage_GetLuksKey (Some r) /\
    validateInbound env (InGetLuksKey r) = None /\ pass = Passphrase r /\
    pendingRequests (client w') !! ulid env (n_ulid w) = None.
Proof.
  intros (ch & w1 & w2 & r & Ha & Hf & Ht & Hp & _ & Hc)%request_ok.
  apply open_response_ok in Hf as (m & g & -> & Hg & Hk).
  apply check_response_ok in Hk as [Hv ->].
  destruct (Payload m) eqn:Em; try done. subst.
  exists ch, w1, w2, m, g. split; [done|]. split; [rewrite Ht; set_solver|].
  split; [done|]. split; [done|]. split; [done|]. split; [done|].
  rewrite Hc. apply lookup_delete_eq.
Qed.

(** [StoreLpsPasswords] reports success only after a written, non-empty
    batch was confirmed by a successful response of its own arm; an empty batch
    is refused without touching the stream. *)
Theorem StoreLpsPasswords_ok actionID rotations (w w' : World) :
  StoreLpsPasswords actionID rotations w = (Returned (Ok tt), w') ->
  rotations <> [] /\
  exists ch w1 w2 m,
    await ch w1 = (Returned (WaitMsg (Some m)), w2) /\
    EvSent (MkAgentMessage (ulid env (n_ulid w))
              (AgentMessage_StoreLpsPasswords actionID rotations)) true ∈ trace w1 /\
    Payload m = ServerMessage_StoreLpsPasswords (Some (MkStoreResponse true)).
Proof.
  destruct rotations as [|x xs]; [done|]. unfold StoreLpsPasswords.
  intros (ch & w1 & w2 & r & Ha & Hf & Ht & Hp & _ & Hc)%request_ok. split; [done|].
  apply open_response_ok in Hf as (m & g & -> & Hg & Hk).
  destruct g as [[]]; [|done]. destruct (Payload m) eqn:Em; try done. subst.
  exists ch, w1, w2, m. split; [done|]. split; [rewrite Ht; set_solver|done].
Qed.
End Methods.

(** ** Concrete instances *)

Definition open_env : Env := MkEnv (fun _ _ => Written) (fun n => itoa n) (Some (fun _ => None)) [].
Definition open_world : World (S := unit) :=
  MkWorld (set_stream true (NewClient (str "dev-1") [])) tt [] 0 0.

Definition key_response : GetLuksKeyResponse := MkGetLuksKeyResponse (str "sealed").
Definition answer_with (p : ServerPayload) : nat -> M (S := unit) wait_result :=
  fun _ => mret (WaitMsg (Some (MkServerMessage (str "0") p))).

Lemma GetLuksKey_ok_witness :
  exists ch w1 w2 m r,
    answer_with (ServerMessage_GetLuksKey (Some key_response)) ch w1
      = (Returned (WaitMsg (Some m)), w2) /\
    EvSent (MkAgentMessage (str "0") (AgentMessage_GetLuksKey (str "a-1"))) true ∈ trace w1 /\
    pendingRequests (client w1) !! str "0" = Some ch /\
    Payload m = ServerMessage_GetLuksKey (Some r) /\
    validateInbound open_env (InGetLuksKey r) = None /\ str "sealed" = Passphrase r /\
    pendingRequests
      (client (GetLuksKey open_env (answer_with (ServerMessage_GetLuksKey (Some key_response)))
                 (str "a-1") open_world).2) !! str "0" = None.
Proof.
  apply (GetLuksKey_ok open_env (answer_with (ServerMessage_GetLuksKey (Some key_response)))
           (str "a-1") open_world _ (str "sealed")).
  vm_compute. reflexivity.
Defined.

Lemma StoreLpsPasswords_ok_witness :
  [str "rotation"] <> [] /\
  exists ch w1 w2 m,
    answer_with (ServerMessage_StoreLpsPasswords (Some (MkStoreResponse true))) ch w1
      = (Returned (WaitMsg (Some m)), w2) /\
    EvSent (MkAgentMessage (str "0")
              (AgentMessage_StoreLpsPasswords (str "a-1") [str "rotation"])) true ∈ trace w1 /\
    Payload m = ServerMessage_StoreLpsPasswords (Some (MkStoreResponse true)).
Proof.
  apply (StoreLpsPasswords_ok open_env
           (answer_with (ServerMessage_StoreLpsPasswords (Some (MkStoreResponse true))))
           (str "a-1") [str "rotation"] open_world
           (StoreLpsPasswords open_env
              (answer_with (ServerMessage_StoreLpsPasswords (Some (MkStoreResponse true))))
              (str "a-1") [str "rotation"] open_world).2).
  vm_compute. reflexivity.
Defined.
End Requests.

(** * Pending-request channels under interleaving ([src/client.go]:
      [registerPending], [unregisterPending], [deliverPending], [Close],
      [StartReceiver])

    [deliverPending] looks the channel up under [pendingMu] and sends on it after
    the unlock, so [Close] can run in between.  Requesters, the one receiver
    goroutine and [Close] take turns between their critical sections; the
    operations on the shared maps are those of [Client.v]. *)

Import pm Client.Client.

Module Pending.

(** The receiver goroutine: between frames, or holding a channel it looked up. *)
Inductive receiver := RIdle | RFetched (m : ServerMessage) (k : nat) | RCrashed.

(** A requester: registered, waiting after a successful send, answered (with the
    message, or [None] for a closed channel), given up, or gone. *)
Inductive phase :=
| Registered
| Waiting
| Answered (m : option ServerMessage)
| GaveUp
| Left.

Record requester := MkRequester { req_id : gostring; req_chan : nat; req_phase : phase }.

Definition set_phase (p : phase) (r : requester) : requester :=
  MkRequester (req_id r) (req_chan r) p.

Record state := MkState { cl : Client; rcv : receiver; reqs : gmap nat requester }.

Section Machine.
(** Whether a panic in the receiver is recovered: true on the [Run] loop, where
    [dispatchServerMessage] recovers, false in [StartReceiver]'s goroutine. *)
Context (recovers : bool).

Definition panic_to : receiver := if recovers then RIdle else RCrashed.

(** The channel send of [deliverPending], after the lookup. *)
Definition put (m : ServerMessage) (k : nat) (c : Client) : receiver * Client :=
  match chans c !! k with
  | None => (RIdle, c)
  | Some ch => match chan_put m ch with
               | Panicked => (panic_to, c)
               | Returned ch' => (RIdle, set_pending (pendingRequests c) (<[k := ch']> (chans c)) c)
               end
  end.

Definition empty_chan (k : nat) (c : Client) : Client :=
  set_pending (pendingRequests c) (alter (fun ch => MkChan None (closed ch)) k (chans c)) c.

Inductive step : state -> state -> Prop :=
| p_connect st c' :
    Connect (cl st) = Ok c' -> step st (MkState c' (rcv st) (reqs st))
(** A request method registers under an id of its own ([NewULID]). *)
| p_register st i id :
    reqs st !! i = None -> (forall j r, reqs st !! j = Some r -> req_id r <> id) ->
    let k := fresh (dom (chans (cl st))) in
    step st (MkState (registerPending id k (cl st)) (rcv st)
               (<[i := MkRequester id k Registered]> (reqs st)))
(** Its send succeeds only on a stream that was open after it registered; if
    that stream has been closed since, so has its channel. *)
| p_sent st i r :
    reqs st !! i = Some r -> req_phase r = Registered ->
    (stream (cl st) = true \/ exists b, chans (cl st) !! req_chan r = Some (MkChan b true)) ->
    step st (MkState (cl st) (rcv st) (<[i := set_phase Waiting r]> (reqs st)))
| p_not_sent st i r :
    reqs st !! i = Some r -> req_phase r = Registered ->
    step st (MkState (cl st) (rcv st) (<[i := set_phase GaveUp r]> (reqs st)))
| p_take st i r m cb :
    reqs st !! i = Some r -> req_phase r = Waiting ->
    chans (cl st) !! req_chan r = Some (MkChan (Some m) cb) ->
    step st (MkState (empty_chan (req_chan r) (cl st)) (rcv st)
               (<[i := set_phase (Answered (Some m)) r]> (reqs st)))
| p_closed st i r :
    reqs st !! i = Some r -> req_phase r = Waiting ->
    chans (cl st) !! req_chan r = Some (MkChan None true) ->
    step st (MkState (cl st) (rcv st) (<[i := set_phase (Answered None) r]> (reqs st)))
| p_ctx st i r :
    reqs st !! i = Some r -> req_phase r = Waiting ->
    step st (MkState (cl st) (rcv st) (<[i := set_phase GaveUp r]> (reqs st)))
| p_unregister st i r :
    reqs st !! i = Some r -> (req_phase r = GaveUp \/ exists o, req_phase r = Answered o) ->
    step st (MkState (unregisterPending (req_id r) (cl st)) (rcv st)
               (<[i := set_phase Left r]> (reqs st)))
(** The receiver looks the channel of a frame up, and sends on it later. *)
| p_fetch st m k :
    rcv st = RIdle -> pendingRequests (cl st) !! Id m = Some k ->
    step st (MkState (cl st) (RFetched m k) (reqs st))
| p_put st m k :
    rcv st = RFetched m k ->
    step st (MkState (put m k (cl st)).2 (put m k (cl st)).1 (reqs st))
| p_close st :
    step st (MkState (Close (cl st)) (rcv st) (reqs st)).

Definition init (deviceID token : gostring) : state :=
  MkState (NewClient deviceID token) RIdle ∅.
Definition reachable (st : state) : Prop := exists d t, rtc step (init d t) st.

(** ** Invariant *)

(** A channel belongs to the requester that made it. *)
Definition owned (st : state) (k : nat) (id : gostring) : Prop :=
  exists i r, reqs st !! i = Some r /\ req_chan r = k /\ req_id r = id.

Record inv (st : state) : Prop := {
  i_chan : forall i r, reqs st !! i = Some r -> is_Some (chans (cl st) !! req_chan r);
  i_inj : forall i j r r', reqs st !! i = Some r -> reqs st !! j = Some r' ->
    req_chan r = req_chan r' -> i = j;
  i_idinj : forall i j r r', reqs st !! i = Some r -> reqs st !! j = Some r' ->
    req_id r = req_id r' -> i = j;
  i_pend : forall id k, pendingRequests (cl st) !! id = Some k -> owned st k id;
  i_buf : forall k ch m, chans (cl st) !! k = Some ch -> buf ch = Some m -> owned st k (Id m);
  i_fetched : forall m k, rcv st = RFetched m k -> owned st k (Id m);
  i_answer : forall i r m, reqs st !! i = Some r -> req_phase r = Answered (Some m) ->
    Id m = req_id r;
  i_wait : forall i r, reqs st !! i = Some r ->
    req_phase r = Registered \/ req_phase r = Waiting ->
    pendingRequests (cl st) !! req_id r = Some (req_chan r) \/
    exists b, chans (cl st) !! req_chan r = Some (MkChan b true);
  i_down : stream (cl st) = false -> forall i r, reqs st !! i = Some r -> req_phase r = Waiting ->
    exists b, chans (cl st) !! req_chan r = Some (MkChan b true)
}.

(** ** Lemmas *)

Lemma owned_insert st c rc i r r' k id :
  reqs st !! i = Some r -> req_id r' = req_id r -> req_chan r' = req_chan r ->
  owned st k id -> owned (MkState c rc (<[i := r']> (reqs st))) k id.
Proof.
  intros Hi Hid Hch (j & x & Hj & Hk & Hx). destruct (decide (i = j)) as [->|Hne].
  - simplify_eq. exists j, r'. simpl. rewrite lookup_insert_eq. repeat split; congruence.
  - exists j, x. simpl. by rewrite lookup_insert_ne.
Qed.

(** A requester changes its phase. *)
Lemma inv_phase st i r p :
  inv st -> reqs st !! i = Some r ->
  (forall m, p = Answered (Some m) -> Id m = req_id r) ->
  (p = Registered \/ p = Waiting -> req_phase r = Registered \/ req_phase r = Waiting) ->
  (p = Waiting -> stream (cl st) = false ->
   exists b, chans (cl st) !! req_chan r = Some (MkChan b true)) ->
  inv (MkState (cl st) (rcv st) (<[i := set_phase p r]> (reqs st))).
Proof.
  intros [H1 H2 H3 H4 H5 H6 H7 H8 H9] Hi Ha Hw Hd. split; simpl.
  - intros j x. rewrite lookup_insert. case_decide; [intros [= <-]; simpl; eauto|eauto].
  - intros j j' x x'. rewrite !lookup_insert. repeat case_decide; intros; simplify_eq/=; eauto.
  - intros j j' x x'. rewrite !lookup_insert. repeat case_decide; intros; simplify_eq/=; eauto.
  - intros id k Hk. eapply owned_insert; eauto.
  - intros k ch m Hk Hb. eapply owned_insert; eauto.
  - intros m k Hm. eapply owned_insert; eauto.
  - intros j x m. rewrite lookup_insert. case_decide; [intros [= <-]; simpl; auto|eauto].
  - intros j x. rewrite lookup_insert. case_decide; [intros [= <-]; simpl; eauto|eauto].
  - intros Hs j x. rewrite lookup_insert. case_decide; [intros [= <-]; simpl; eauto|eauto].
Qed.

(** The client changes only its channels, losing buffered messages at most. *)
Lemma inv_chans st cs :
  inv st ->
  (forall k ch, chans (cl st) !! k = Some ch ->
     exists ch', cs !! k = Some ch' /\ closed ch' = closed ch) ->
  (forall k ch m, cs !! k = Some ch -> buf ch = Some m -> owned st k (Id m)) ->
  inv (MkState (set_pending (pendingRequests (cl st)) cs (cl st)) (rcv st) (reqs st)).
Proof.
  intros [H1 H2 H3 H4 H5 H6 H7 H8 H9] Hc Hb.
  assert (forall k b, chans (cl st) !! k = Some (MkChan b true) ->
            exists b', cs !! k = Some (MkChan b' true)) as Hcl.
  { intros k b Hk. apply Hc in Hk as ([b' c'] & Hk' & E). simpl in E. subst. eauto. }
  split; simpl; try done.
  - intros i r Hi. destruct (H1 i r Hi) as [ch Hch]. apply Hc in Hch as (ch' & ? & _). eauto.
  - intros i r Hi Hp. destruct (H8 i r Hi Hp) as [|[b Hk]]; [by left|right; eauto].
  - intros Hs i r Hi Hp. destruct (H9 Hs i r Hi Hp) as [b Hk]. eauto.
Qed.

Lemma inv_empty st k : inv st -> inv (MkState (empty_chan k (cl st)) (rcv st) (reqs st)).
Proof.
  intros Hinv. apply inv_chans; [done| |].
  - intros k' ch Hk. destruct (decide (k = k')) as [<-|Hne].
    + exists (MkChan None (closed ch)). by rewrite lookup_alter_eq, Hk.
    + exists ch. by rewrite lookup_alter_ne.
  - intros k' ch m Hk Hb. rewrite lookup_alter_Some in Hk.
    destruct Hk as [(-> & x & _ & ->)|[_ Hk]]; [done|]. by eapply i_buf.
Qed.

Lemma inv_put st m k :
  inv st -> rcv st = RFetched m k -> inv (MkState (put m k (cl st)).2 (rcv st) (reqs st)).
Proof.
  intros Hinv Hr. pose proof (i_fetched _ Hinv m k Hr) as Ho. unfold put.
  destruct (chans (cl st) !! k) as [ch|] eqn:Hk; [|by destruct st].
  unfold chan_put. destruct ch as [b []]; simpl; [by destruct st|].
  destruct b as [m'|]; simpl; apply inv_chans; try done.
  - intros k' ch Hk'. exists ch. split; [|done]. by rewrite insert_id.
  - rewrite insert_id by done. by apply i_buf.
  - intros k' ch Hk'. destruct (decide (k = k')) as [<-|Hne].
    + simplify_eq. eexists. by rewrite lookup_insert_eq.
    + exists ch. by rewrite lookup_insert_ne.
  - intros k' ch x. rewrite lookup_insert. case_decide; [|by apply i_buf].
    intros [= <-] [= <-]. by subst.
Qed.

Lemma inv_rcv st rc :
  inv st -> (forall m k, rc = RFetched m k -> owned st k (Id m)) ->
  inv (MkState (cl st) rc (reqs st)).
Proof. intros [H1 H2 H3 H4 H5 H6 H7 H8 H9] Ho. by split. Qed.

Lemma inv_unregister st i r :
  inv st -> reqs st !! i = Some r -> req_phase r = Left ->
  inv (MkState (unregisterPending (req_id r) (cl st)) (rcv st) (reqs st)).
Proof.
  intros [H1 H2 H3 H4 H5 H6 H7 H8 H9] Hi Hp. split; simpl; try done.
  - intros id k. rewrite lookup_delete_Some. intros [_ Hk]. by apply H4.
  - intros j x Hj Hx. destruct (H8 j x Hj Hx) as [Hk|]; [|by right]. left.
    rewrite lookup_delete_ne; [done|]. intros E.
    assert (i = j) by (by eapply H3). subst. simplify_eq. rewrite Hp in Hx. by destruct Hx.
Qed.

Lemma inv_register st i id :
  inv st -> reqs st !! i = None -> (forall j r, reqs st !! j = Some r -> req_id r <> id) ->
  let k := fresh (dom (chans (cl st))) in
  inv (MkState (registerPending id k (cl st)) (rcv st)
         (<[i := MkRequester id k Registered]> (reqs st))).
Proof.
  intros [H1 H2 H3 H4 H5 H6 H7 H8 H9] Hi Hid k.
  assert (chans (cl st) !! k = None) as Hk by (apply not_elem_of_dom, is_fresh).
  assert (forall j r, reqs st !! j = Some r -> req_chan r <> k) as Hkr.
  { intros j r Hj E. destruct (H1 _ _ Hj) as [? Hch]. rewrite E in Hch. congruence. }
  assert (forall k' id', owned st k' id' -> owned (MkState (registerPending id k (cl st)) (rcv st)
         (<[i := MkRequester id k Registered]> (reqs st))) k' id') as Hown.
  { intros k' id' (j & r & Hj & Hr). exists j, r. simpl. by rewrite lookup_insert_ne by congruence. }
  split; simpl.
  - intros j r. rewrite lookup_insert. case_decide; [intros [= <-]; simpl; by rewrite lookup_insert_eq|].
    intros Hj. rewrite lookup_insert_ne by (intros E; by apply (Hkr _ _ Hj)). by eapply H1.
  - intros j j' r r'. rewrite !lookup_insert.
    repeat case_decide; intros Hj Hj' E; simplify_eq/=; try done; [| |by eapply H2].
    + by destruct (Hkr _ _ Hj').
    + by destruct (Hkr _ _ Hj).
  - intros j j' r r'. rewrite !lookup_insert.
    repeat case_decide; intros Hj Hj' E; simplify_eq/=; try done; [| |by eapply H3].
    + by destruct (Hid _ _ Hj').
    + by destruct (Hid _ _ Hj).
  - intros id' k'. rewrite lookup_insert. case_decide; [|eauto].
    intros [= <-]. exists i. eexists. simpl. rewrite lookup_insert_eq. by split.
  - intros k' ch m. rewrite lookup_insert. case_decide; [by intros [= <-]|eauto].
  - intros m k' Hr. eauto.
  - intros j r m. rewrite lookup_insert. case_decide; [by intros [= <-]|eauto].
  - intros j r. rewrite lookup_insert. case_decide.
    + intros [= <-] _. left. simpl. apply lookup_insert_eq.
    + intros Hj Hp. rewrite !lookup_insert_ne by (by apply not_eq_sym; eauto). eauto.
  - intros Hs j r. rewrite lookup_insert. case_decide; [by intros [= <-]|].
    intros Hj Hp. rewrite lookup_insert_ne by (by apply not_eq_sym; eauto). eauto.
Qed.

(** What [Close] does to a channel. *)
Lemma foldr_close l (cs : gmap nat pending_chan) k :
  foldr (fun kv => close_chan kv.2) cs l !! k =
  if decide (k ∈ (l : list (gostring * nat)).*2)
  then (fun ch => MkChan (buf ch) true) <$> cs !! k else cs !! k.
Proof.
  induction l as [|[id k'] l IH]; [rewrite decide_False; [done|set_solver]|].
  rewrite fmap_cons. cbn [foldr snd]. unfold close_chan at 1. destruct (decide (k' = k)) as [->|Hne].
  - rewrite lookup_alter_eq, IH, (decide_True (P := k ∈ k :: _)) by set_solver.
    case_decide; [|done]. by destruct (cs !! k).
  - rewrite lookup_alter_ne, IH by done.
    destruct (decide (k ∈ l.*2)); [by rewrite decide_True by set_solver|].
    by rewrite decide_False by set_solver.
Qed.

Lemma pending_range (p : gmap gostring nat) k :
  k ∈ (map_to_list p).*2 <-> exists id, p !! id = Some k.
Proof.
  rewrite list_elem_of_fmap. split.
  - intros ([id k'] & -> & Hin). apply elem_of_map_to_list in Hin. eauto.
  - intros [id Hid]. exists (id, k). split; [done|]. by apply elem_of_map_to_list.
Qed.

Lemma inv_close st : inv st -> inv (MkState (Close (cl st)) (rcv st) (reqs st)).
Proof.
  intros Hinv. unfold Close. destruct (stream (cl st)) eqn:Hs; [|by destruct st].
  destruct Hinv as [H1 H2 H3 H4 H5 H6 H7 H8 H9].
  assert (forall k b, chans (cl st) !! k = Some (MkChan b true) ->
    exists b', foldr (fun kv => close_chan kv.2) (chans (cl st))
                 (map_to_list (pendingRequests (cl st))) !! k = Some (MkChan b' true)) as Hstay.
  { intros k b Hk. rewrite foldr_close, Hk. case_decide; simpl; eauto. }
  assert (forall i r, reqs st !! i = Some r -> req_phase r = Registered \/ req_phase r = Waiting ->
    exists b, foldr (fun kv => close_chan kv.2) (chans (cl st))
                (map_to_list (pendingRequests (cl st))) !! req_chan r = Some (MkChan b true)) as Hcl.
  { intros i r Hi Hp. destruct (H8 i r Hi Hp) as [Hk|[b Hk]]; [|eauto].
    destruct (H1 i r Hi) as [ch Hch]. exists (buf ch).
    rewrite foldr_close, Hch, decide_True; [done|]. apply pending_range. eauto. }
  split; simpl; try done.
  - intros i r Hi. rewrite foldr_close. destruct (H1 i r Hi) as [ch ->]. case_decide; simpl; eauto.
  - intros k ch m. rewrite foldr_close. case_decide; [|eauto].
    destruct (chans (cl st) !! k) as [ch0|] eqn:Hk; simpl; [|done]. intros [= <-] Hb. eauto.
  - intros i r Hi Hp. right. eauto.
  - intros _ i r Hi Hp. eauto.
Qed.

Lemma inv_connect st c' : inv st -> Connect (cl st) = Ok c' -> inv (MkState c' (rcv st) (reqs st)).
Proof.
  intros [H1 H2 H3 H4 H5 H6 H7 H8 H9]. unfold Connect. destruct (stream (cl st)); [done|].
  intros [= <-]. by split.
Qed.

Lemma pending_step_inv st st' : step st st' -> inv st -> inv st'.
Proof.
  intros Hstep Hinv. destruct Hstep as
    [st c' Hc|st i id Hi Hid k|st i r Hi Hp Hs|st i r Hi Hp|st i r m cb Hi Hp Hch|st i r Hi Hp Hch
    |st i r Hi Hp|st i r Hi Hp|st m k Hr Hk|st m k Hr|st].
  - by apply inv_connect.
  - by apply inv_register.
  - apply inv_phase; try done; [by left|]. intros _ Hf. destruct Hs as [Ht|]; [congruence|done].
  - apply inv_phase; try done. by intros [].
  - refine (inv_empty (MkState (cl st) (rcv st) (<[i := set_phase (Answered (Some m)) r]> (reqs st)))
              (req_chan r) _).
    apply inv_phase; try done; [|by intros []]. intros m' [= <-].
    destruct (i_buf _ Hinv _ _ m Hch eq_refl) as (j & r' & Hj & Hk & Hid).
    assert (j = i) by (by eapply (i_inj _ Hinv)). subst. congruence.
  - apply inv_phase; try done. by intros [].
  - apply inv_phase; try done. by intros [].
  - refine (inv_unregister (MkState (cl st) (rcv st) (<[i := set_phase Left r]> (reqs st))) i
             (set_phase Left r) _ _ _); simpl; [|apply lookup_insert_eq|done].
    apply inv_phase; try done. by intros [].
  - apply inv_rcv; [done|]. intros m' k' [= <- <-]. by apply (i_pend _ Hinv).
  - refine (inv_rcv (MkState (put m k (cl st)).2 (rcv st) (reqs st)) _ _ _);
      [by apply inv_put|]. intros m' k'. unfold put, panic_to.
    destruct (chans (cl st) !! k) as [[b []]|]; simpl; [by destruct recovers| |done].
    by destruct b.
  - by apply inv_close.
Qed.

Lemma pending_reachable_inv st : reachable st -> inv st.
Proof.
  intros (d & t & Hsteps).
  assert (inv (init d t)) as H0 by (by split).
  induction Hsteps as [|x y z Hxy _ IH]; [done|]. apply IH. by eapply pending_step_inv.
Qed.

(** ** Properties *)

(** C21: whatever the interleaving of requests, frames, timeouts and [Close], a
    request is only ever answered with a message that carries its own id. *)
Theorem answered_by_own_id st i r m :
  reachable st -> reqs st !! i = Some r -> req_phase r = Answered (Some m) -> Id m = req_id r.
Proof. intros H%pending_reachable_inv. apply (i_answer _ H). Qed.

(** C38: [Close] strands no request: once the stream is closed, every request
    still waiting has its channel closed, so it can take a late answer or the
    closed signal in one step. *)
Theorem closed_wakes_waiters st i r :
  reachable st -> stream (cl st) = false ->
  reqs st !! i = Some r -> req_phase r = Waiting ->
  exists st' r' o, step st st' /\ reqs st' !! i = Some r' /\ req_phase r' = Answered o.
Proof.
  intros H%pending_reachable_inv Hs Hi Hp. destruct (i_down _ H Hs i r Hi Hp) as [[m|] Hch].
  - eexists _, _, _. split; [by eapply p_take|]. simpl. split; [apply lookup_insert_eq|done].
  - eexists _, _, _. split; [by eapply p_closed|]. simpl. split; [apply lookup_insert_eq|done].
Qed.
End Machine.

(** A request is registered and sent; the receiver looks its channel up; [Close]
    closes that channel; the receiver sends on it. *)
Definition race_msg : ServerMessage :=
  MkServerMessage (str "r") (ServerMessage_StoreLuksKey (Some (MkStoreResponse true))).

Definition race_state (recovers : bool) : state :=
  MkState (MkClient [] [] false None ∅ {[0 := MkChan None true]} None 0 0)
    (panic_to recovers) {[0 := MkRequester (str "r") 0 Waiting]}.

Lemma race_reachable recovers : reachable recovers (race_state recovers).
Proof.
  exists [], [].
  eapply rtc_l; [apply p_connect; reflexivity|].
  eapply rtc_l; [apply (p_register _ _ 0 (str "r")); [reflexivity|intros j r Hj; simpl in Hj; by apply lookup_empty_Some in Hj]|].
  eapply rtc_l; [apply (p_sent _ _ 0 (MkRequester (str "r") 0 Registered)); [reflexivity..|by left]|].
  eapply rtc_l; [apply (p_fetch _ _ race_msg 0); reflexivity|].
  eapply rtc_l; [apply p_close|].
  eapply rtc_l; [apply (p_put _ _ race_msg 0); reflexivity|].
  unfold race_state, panic_to. destruct recovers; apply rtc_refl.
Qed.

(** [StartReceiver] can crash the process: a frame whose channel was looked
    up just before [Close] is sent on the closed channel, and no recover guards
    that goroutine.  On the [Run] loop the same race is harmless. *)
Theorem StartReceiver_close_race :
  (exists st, reachable false st /\ rcv st = RCrashed) /\
  (forall st, reachable true st -> rcv st <> RCrashed).
Proof.
  split; [exists (race_state false); split; [apply race_reachable|done]|].
  intros st (d & t & Hsteps). assert (rcv (init d t) <> RCrashed) as H0 by done.
  induction Hsteps as [|x y z Hxy _ IH]; [done|]. apply IH.
  destruct Hxy; simpl in *; try done. unfold put, panic_to.
  destruct (chans (cl st) !! k) as [[b []]|]; simpl; try done. by destruct b.
Qed.

Lemma answered_by_own_id_witness : Id race_msg = str "r".
Proof.
  apply (answered_by_own_id true
    (MkState (MkClient [] [] true None {[str "r" := 0]} {[0 := MkChan None false]} None 0 0)
       RIdle {[0 := MkRequester (str "r") 0 (Answered (Some race_msg))]})
    0 (MkRequester (str "r") 0 (Answered (Some race_msg))) race_msg); [|reflexivity..].
  exists [], [].
  eapply rtc_l; [apply p_connect; reflexivity|].
  eapply rtc_l; [apply (p_register _ _ 0 (str "r")); [reflexivity|intros j r Hj; simpl in Hj; by apply lookup_empty_Some in Hj]|].
  eapply rtc_l; [apply (p_sent _ _ 0 (MkRequester (str "r") 0 Registered)); [reflexivity..|by left]|].
  eapply rtc_l; [apply (p_fetch _ _ race_msg 0); reflexivity|].
  eapply rtc_l; [apply (p_put _ _ race_msg 0); reflexivity|].
  eapply rtc_l; [apply (p_take _ _ 0 (MkRequester (str "r") 0 Waiting) race_msg false); reflexivity|].
  apply rtc_refl.
Defined.

Lemma closed_wakes_waiters_witness :
  exists st' r' o, step true (race_state true) st' /\ reqs st' !! 0 = Some r' /\
    req_phase r' = Answered o.
Proof.
  apply (closed_wakes_waiters true (race_state true) 0 (MkRequester (str "r") 0 Waiting));
    [apply race_reachable|reflexivity..].
Defined.
End Pending.
