(* ===== verification/Paths.v ===== *)
(** * Paths (Go's [path/filepath] on Unix, as the guards use it)

    [Clean], [IsAbs], [Dir], [Base], [Join] and [Abs], with the component view
    that gives them meaning: an absolute path names a location, the list of
    component names below the root; walking a path from a location follows its
    components.  The lemmas say that the string operations compute exactly that
    location, so the guards built on them can be stated on locations. *)
From S2P Require Import Prelude.

Module Paths.

Definition SLASH : ascii := "/"%char.
Definition dot : gostring := str ".".
Definition dotdot : gostring := str "..".

Definition IsAbs (s : gostring) : bool := has_prefix s [SLASH].

(** One component on a stack of components, the last one first. *)
Definition push (rooted : bool) (stack : list gostring) (w : gostring) : list gostring :=
  if bool_decide (w = []) || bool_decide (w = dot) then stack
  else if bool_decide (w = dotdot) then
    match stack with
    | top :: rest => if bool_decide (top = dotdot) then w :: stack else rest
    | [] => if rooted then [] else [w]
    end
  else w :: stack.

(** The components left after the whole path was read. *)
Definition walk (rooted : bool) (stack : list gostring) (s : gostring) : list gostring :=
  fold_left (push rooted) (split_byte s SLASH) stack.
Definition comps (s : gostring) : list gostring := rev (walk (IsAbs s) [] s).

Definition slashed (cs : list gostring) : gostring := join cs [SLASH].

Definition Clean (s : gostring) : gostring :=
  match s with
  | [] => dot
  | _ => if IsAbs s then SLASH :: slashed (comps s)
         else match comps s with [] => dot | cs => slashed cs end
  end.

(** [path[:i+1]] and [path[i+1:]] at the last slash. *)
Definition Split (s : gostring) : gostring * gostring :=
  match index_byte (rev s) SLASH with
  | Some i => (take (length s - i) s, drop (length s - i) s)
  | None => ([], s)
  end.
Definition Dir (s : gostring) : gostring := Clean (Split s).1.
Definition Base (s : gostring) : gostring :=
  match s with
  | [] => dot
  | _ => match (Split (trim_right_set s [SLASH])).2 with
         | [] => [SLASH]
         | b => b
         end
  end.

Fixpoint Join (elems : list gostring) : gostring :=
  match elems with
  | [] => []
  | [] :: rest => Join rest
  | _ => Clean (slashed elems)
  end.

(** [filepath.Abs] in the working directory [cwd] ([None]: [Getwd] fails). *)
Definition Abs (cwd : option gostring) (s : gostring) : option gostring :=
  if IsAbs s then Some (Clean s) else wd ← cwd; Some (Join [wd; s]).

(** ** Locations *)

(** The name of a directory entry. *)
Definition plain (w : gostring) : Prop := w <> [] /\ w <> dot /\ w <> dotdot /\ SLASH ∉ w.

(** The canonical path of a location. *)
Definition path_of (cs : list gostring) : gostring := SLASH :: slashed cs.

(** Where a path leads from the working directory. *)
Definition location (cwd : gostring) (s : gostring) : list gostring :=
  if IsAbs s then comps s else rev (walk true (rev (comps cwd)) s).

Lemma split_byte_not_elem s c w : w ∈ split_byte s c -> c ∉ w.
Proof.
  revert w; induction s as [|a s IH]; intros w; simpl.
  - rewrite list_elem_of_singleton. intros ->. apply not_elem_of_nil.
  - case_bool_decide; [rewrite elem_of_cons; intros [->|?]; [apply not_elem_of_nil|auto]|].
    destruct (split_byte s c) as [|v vs] eqn:E.
    + rewrite list_elem_of_singleton. intros ->. set_solver.
    + rewrite elem_of_cons. intros [->|?]; [|apply IH; set_solver].
      assert (c ∉ v) by (apply IH; set_solver). set_solver.
Qed.

Lemma split_byte_app a c s : c ∉ a -> split_byte (a ++ c :: s) c = a :: split_byte s c.
Proof.
  induction a as [|x a IH]; intros Hn; simpl; [by rewrite bool_decide_true|].
  rewrite bool_decide_false by set_solver. by rewrite IH by set_solver.
Qed.

Lemma split_byte_self a c : c ∉ a -> split_byte a c = [a].
Proof.
  induction a as [|x a IH]; intros Hn; simpl; [done|].
  rewrite bool_decide_false by set_solver. by rewrite IH by set_solver.
Qed.

Lemma split_byte_app2 a b c : split_byte (a ++ c :: b) c = split_byte a c ++ split_byte b c.
Proof.
  induction a as [|x a IH]; simpl; [by rewrite bool_decide_true|].
  case_bool_decide; [by rewrite IH|]. rewrite IH.
  destruct (split_byte a c) as [|w ws] eqn:E; [|done].
  destruct a as [|y a]; simpl in E; [done|]. case_bool_decide; [done|].
  by destruct (split_byte a c).
Qed.

Lemma split_join c cs : cs <> [] -> Forall (fun w => c ∉ w) cs -> split_byte (join cs [c]) c = cs.
Proof.
  intros Hne H. induction H as [|w cs Hw H IH]; [done|].
  destruct cs as [|v cs]; [by apply split_byte_self|].
  change (join (w :: v :: cs) [c]) with (w ++ c :: join (v :: cs) [c]).
  rewrite split_byte_app by done. by rewrite IH.
Qed.

Lemma split_slashed cs :
  cs <> [] -> Forall (fun w => SLASH ∉ w) cs -> split_byte (slashed cs) SLASH = cs.
Proof. apply split_join. Qed.

Lemma walk_app rooted st a b :
  walk rooted st (a ++ SLASH :: b) = walk rooted (walk rooted st a) b.
Proof. unfold walk. by rewrite split_byte_app2, fold_left_app. Qed.

Lemma push_plain rooted st w : plain w -> push rooted st w = w :: st.
Proof. intros (? & ? & ? & _). unfold push. by rewrite !bool_decide_false. Qed.

Lemma walk_plain rooted st cs : Forall plain cs -> walk rooted st (slashed cs) = rev cs ++ st.
Proof.
  intros H. destruct cs as [|v cs]; [done|].
  unfold walk. rewrite split_slashed; [|done|eapply list.Forall_impl; [done|by intros ? (?&?&?&?)]].
  revert st. generalize dependent (v :: cs). clear v cs. intros cs H. induction H as [|w cs Hw H IH]; intros st; [done|].
  simpl. rewrite push_plain, IH by done. by rewrite <-app_assoc.
Qed.

(** The stack of a walk holds entry names, below them [..] when not rooted. *)
Definition stack_ok (rooted : bool) (st : list gostring) : Prop :=
  Forall (fun w => plain w \/ (rooted = false /\ w = dotdot)) st.

Lemma push_ok rooted st w : SLASH ∉ w -> stack_ok rooted st -> stack_ok rooted (push rooted st w).
Proof.
  intros Hw Hst. unfold push.
  destruct (bool_decide (w = [])) eqn:E1, (bool_decide (w = dot)) eqn:E2; simpl; try done.
  go_bool. case_bool_decide as E3.
  - destruct st as [|t st].
    + destruct rooted; [done|]. constructor; [by right|done].
    + case_bool_decide; [|by inversion Hst]. constructor; [|done].
      inversion Hst as [|? ? [(_ & _ & ? & _)|[-> _]]]; subst; [done|by right].
  - constructor; [|done]. left. by split_and!.
Qed.

Lemma walk_ok rooted st s : stack_ok rooted st -> stack_ok rooted (walk rooted st s).
Proof.
  unfold walk. pose proof (split_byte_not_elem s SLASH) as Hs.
  revert st Hs. induction (split_byte s SLASH) as [|w ws IH]; intros st Hs Hst; [done|].
  simpl. apply IH; [intros v Hv; apply Hs; by right|].
  apply push_ok; [|done]. apply Hs. by left.
Qed.

Lemma rooted_plain st : stack_ok true st <-> Forall plain st.
Proof.
  unfold stack_ok. rewrite !list.Forall_forall.
  split; intros H w Hw; [by destruct (H w Hw) as [|[? ?]]|left; auto].
Qed.

Lemma comps_plain s : IsAbs s = true -> Forall plain (comps s).
Proof.
  intros H. unfold comps. rewrite H. apply Forall_rev. apply rooted_plain, walk_ok. constructor.
Qed.

Lemma IsAbs_cons s : IsAbs s = true -> exists t, s = SLASH :: t.
Proof. unfold IsAbs. rewrite has_prefix_spec. intros [t ->]. by exists t. Qed.

Lemma IsAbs_path_of cs : IsAbs (path_of cs) = true.
Proof. reflexivity. Qed.

Lemma walk_slash rooted st t : walk rooted st (SLASH :: t) = walk rooted st t.
Proof. apply (walk_app rooted st [] t). Qed.

Lemma comps_path_of cs : Forall plain cs -> comps (path_of cs) = cs.
Proof.
  intros H. unfold comps. rewrite IsAbs_path_of. unfold path_of. rewrite walk_slash, walk_plain by done.
  by rewrite app_nil_r, rev_involutive.
Qed.

Lemma Clean_abs s : IsAbs s = true -> Clean s = path_of (comps s).
Proof. intros H. destruct (IsAbs_cons s H) as [t ->]. reflexivity. Qed.

Lemma comps_Clean s : IsAbs s = true -> comps (Clean s) = comps s.
Proof. intros H. rewrite Clean_abs by done. by apply comps_path_of, comps_plain. Qed.

Lemma IsAbs_Clean s : IsAbs s = true -> IsAbs (Clean s) = true.
Proof. intros H. by rewrite Clean_abs. Qed.

Lemma Clean_idem_abs s : IsAbs s = true -> Clean (Clean s) = Clean s.
Proof.
  intros H. rewrite (Clean_abs (Clean s)) by by apply IsAbs_Clean.
  by rewrite comps_Clean, <-Clean_abs.
Qed.

Lemma slashed_inj cs ds :
  Forall plain cs -> Forall plain ds -> slashed cs = slashed ds -> cs = ds.
Proof.
  intros Hc Hd H. rewrite <-(comps_path_of cs), <-(comps_path_of ds) by done.
  unfold path_of. by rewrite H.
Qed.

Lemma path_of_inj cs ds : Forall plain cs -> Forall plain ds -> path_of cs = path_of ds -> cs = ds.
Proof. intros Hc Hd [=]. by apply slashed_inj. Qed.

(** *** Following a cleaned relative path is following the path *)

Lemma walk_push_false r w st :
  stack_ok false r ->
  fold_left (push true) (rev (push false r w)) st =
  push true (fold_left (push true) (rev r) st) w.
Proof.
  intros Hr. unfold push at 2.
  destruct (bool_decide (w = [])) eqn:E1; [go_bool; by subst|].
  destruct (bool_decide (w = dot)) eqn:E2; [go_bool; by subst|]. cbn [orb].
  destruct (bool_decide (w = dotdot)) eqn:E3; [|simpl; by rewrite fold_left_app].
  go_bool; subst. destruct r as [|t r]; [done|].
  case_bool_decide as Ht; [simpl; by rewrite !fold_left_app|].
  inversion Hr as [|? ? [Hp|[_ ?]]]; subst; [|done].
  simpl. rewrite fold_left_app. simpl. rewrite (push_plain _ _ t) by done.
  unfold push. rewrite (bool_decide_false (t = dotdot)) by done. done.
Qed.

Lemma walk_rel st r s :
  stack_ok false r ->
  fold_left (push true) (rev (walk false r s)) st = walk true (fold_left (push true) (rev r) st) s.
Proof.
  unfold walk. pose proof (split_byte_not_elem s SLASH) as Hs. revert r Hs.
  induction (split_byte s SLASH) as [|w ws IH]; intros r Hs Hr; [done|].
  simpl. rewrite IH; [|intros v Hv; apply Hs; by right|apply push_ok; [apply Hs; by left|done]].
  by rewrite walk_push_false.
Qed.

Lemma stack_no_slash rooted st : stack_ok rooted st -> Forall (fun w => SLASH ∉ w) st.
Proof.
  intros H. eapply list.Forall_impl; [done|]. intros w [(_ & _ & _ & ?)|[_ ->]]; [done|].
  by apply (bool_decide_unpack _).
Qed.

Lemma walk_Clean st s : IsAbs s = false -> walk true st (Clean s) = walk true st s.
Proof.
  intros Ha. destruct s as [|c s]; [done|]. unfold Clean. rewrite Ha.
  pose proof (walk_rel st [] (c :: s) ltac:(constructor)) as Hw. simpl in Hw. rewrite <-Hw.
  unfold comps. rewrite Ha.
  pose proof (walk_ok false [] (c :: s) ltac:(constructor)) as Hok.
  destruct (rev (walk false [] (c :: s))) as [|v cs] eqn:E; [done|].
  unfold walk. rewrite split_slashed; [done|done|]. rewrite <-E.
  apply Forall_rev. by eapply stack_no_slash.
Qed.

Lemma IsAbs_Clean_rel s : IsAbs s = false -> IsAbs (Clean s) = false.
Proof.
  intros Ha. destruct s as [|c s]; [done|]. unfold Clean. rewrite Ha.
  pose proof (walk_ok false [] (c :: s) ltac:(constructor)) as Hok%stack_no_slash.
  unfold comps. rewrite Ha. apply Forall_rev in Hok.
  assert (Forall (fun w => w <> []) (rev (walk false [] (c :: s)))) as Hne.
  { apply Forall_rev. eapply list.Forall_impl; [exact (walk_ok false [] (c :: s) ltac:(constructor))|].
    by intros w [(? & _)|[_ ->]]. }
  destruct (rev (walk false [] (c :: s))) as [|v cs]; [done|].
  apply list.Forall_cons in Hok as [Hv _]. apply list.Forall_cons in Hne as [Hv' _].
  destruct v as [|x v]; [done|]. unfold IsAbs. simpl.
  destruct cs; simpl; rewrite bool_decide_false; (done || set_solver).
Qed.

(** *** [Join], [Dir] and [Base] on locations *)

Lemma comps_walk_abs a b :
  IsAbs a = true -> comps (a ++ SLASH :: b) = rev (walk true (rev (comps a)) b).
Proof.
  intros Ha. unfold comps. rewrite Ha, rev_involutive.
  assert (IsAbs (a ++ SLASH :: b) = true) as ->.
  { apply IsAbs_cons in Ha as [t ->]. done. }
  by rewrite walk_app.
Qed.

Lemma Join2_comps a b :
  IsAbs a = true ->
  IsAbs (Join [a; b]) = true /\ comps (Join [a; b]) = rev (walk true (rev (comps a)) b).
Proof.
  intros Ha. destruct (IsAbs_cons a Ha) as [t ->].
  change (Join [SLASH :: t; b]) with (Clean ((SLASH :: t) ++ SLASH :: b)).
  rewrite comps_Clean by done. split; [by apply IsAbs_Clean|]. by apply comps_walk_abs.
Qed.

Lemma Abs_location cwd s :
  IsAbs cwd = true -> exists p, Abs (Some cwd) s = Some p /\ IsAbs p = true /\ Clean p = p /\
                                comps p = location cwd s.
Proof.
  intros Hc. unfold Abs, location. destruct (IsAbs s) eqn:Hs.
  - eexists. split_and!; [done|by apply IsAbs_Clean|by apply Clean_idem_abs|by apply comps_Clean].
  - destruct (Join2_comps cwd s Hc) as [Ha He]. simpl. eexists. split_and!; [done|done| |done].
    destruct (IsAbs_cons cwd Hc) as [t ->]. by apply Clean_idem_abs.
Qed.

Lemma join_snoc c cs w sep : join (c :: cs ++ [w]) sep = join (c :: cs) sep ++ sep ++ w.
Proof.
  revert c; induction cs as [|d cs IH]; intros c; [done|].
  change (join (c :: (d :: cs) ++ [w]) sep) with (c ++ sep ++ join (d :: cs ++ [w]) sep).
  rewrite IH. change (join (c :: d :: cs) sep) with (c ++ sep ++ join (d :: cs) sep).
  by rewrite <-!app_assoc.
Qed.

Lemma path_of_snoc cs w :
  path_of (cs ++ [w]) = (match cs with [] => [SLASH] | _ => path_of cs ++ [SLASH] end) ++ w.
Proof.
  unfold path_of, slashed. destruct cs as [|c cs]; [done|].
  rewrite <-app_comm_cons, join_snoc. simpl. by rewrite <-!app_assoc.
Qed.

Lemma Split_snoc a w : SLASH ∉ w -> Split (a ++ SLASH :: w) = (a ++ [SLASH], w).
Proof.
  intros Hw. unfold Split. rewrite rev_app_distr. simpl. rewrite <-app_assoc. simpl.
  rewrite index_byte_app by (rewrite list_elem_of_In, <-in_rev, <-list_elem_of_In; done). rewrite length_rev, length_app. simpl.
  replace (length a + S (length w) - length w) with (length (a ++ [SLASH]))
    by (rewrite length_app; simpl; lia).
  change (SLASH :: w) with ([SLASH] ++ w). rewrite app_assoc.
  by rewrite take_app_length, drop_app_length.
Qed.

Lemma path_of_split cs w :
  exists a, path_of (cs ++ [w]) = a ++ SLASH :: w /\ comps (a ++ [SLASH]) = comps (path_of cs) /\
            IsAbs (a ++ [SLASH]) = true.
Proof.
  destruct cs as [|c cs].
  - by exists [].
  - exists (path_of (c :: cs)). rewrite path_of_snoc. split_and!; [by rewrite <-app_assoc| |done].
    rewrite comps_walk_abs by done. unfold walk. simpl. unfold push. rewrite bool_decide_true by done.
    simpl. by rewrite rev_involutive.
Qed.

Lemma Dir_path_of cs w : Forall plain (cs ++ [w]) -> Dir (path_of (cs ++ [w])) = path_of cs.
Proof.
  intros [Hcs Hw]%list.Forall_app. rewrite list.Forall_singleton in Hw.
  destruct (path_of_split cs w) as (a & -> & Hc & Ha).
  unfold Dir. rewrite Split_snoc by apply Hw. simpl.
  by rewrite Clean_abs, Hc, comps_path_of.
Qed.

Lemma Dir_root : Dir (path_of []) = path_of [].
Proof. reflexivity. Qed.

Lemma trim_right_id s w : w <> [] -> SLASH ∉ w -> trim_right_set (s ++ w) [SLASH] = s ++ w.
Proof.
  intros Hne Hw. destruct w as [|x w _] using rev_ind; [done|].
  unfold trim_right_set. rewrite app_assoc, rev_unit. simpl.
  rewrite bool_decide_false by (rewrite list_elem_of_singleton; set_solver).
  by rewrite <-rev_unit, rev_involutive.
Qed.

Lemma Base_path_of cs w : Forall plain (cs ++ [w]) -> Base (path_of (cs ++ [w])) = w.
Proof.
  intros [_ Hw]%list.Forall_app. rewrite list.Forall_singleton in Hw.
  destruct (path_of_split cs w) as (a & E & _). unfold Base.
  destruct (path_of (cs ++ [w])) as [|x p] eqn:Ep; [done|]. rewrite E.
  destruct Hw as (Hne & _ & _ & Hs).
  change (SLASH :: w) with ([SLASH] ++ w). rewrite app_assoc, trim_right_id by done.
  rewrite <-app_assoc. change ([SLASH] ++ w) with (SLASH :: w). rewrite Split_snoc by done. simpl.
  by destruct w.
Qed.

Lemma rev_walk_plain st cs : Forall plain cs -> rev (walk true st (slashed cs)) = rev st ++ cs.
Proof. intros H. by rewrite walk_plain, rev_app_distr, rev_involutive. Qed.

(** The working directory cancels: cleaning first changes nothing. *)
Lemma location_Clean cwd s : location cwd (Clean s) = location cwd s.
Proof.
  unfold location. destruct (IsAbs s) eqn:Hs.
  - rewrite IsAbs_Clean by done. by apply comps_Clean.
  - rewrite IsAbs_Clean_rel, walk_Clean by done. done.
Qed.

Lemma location_plain cwd s : IsAbs cwd = true -> Forall plain (location cwd s).
Proof.
  intros Hc. unfold location. destruct (IsAbs s) eqn:Hs; [by apply comps_plain|].
  apply Forall_rev, rooted_plain, walk_ok, rooted_plain, Forall_rev. by apply comps_plain.
Qed.

(** *** Lexical prefixes are location prefixes *)

Lemma join_app cs ds sep :
  cs <> [] -> ds <> [] -> join (cs ++ ds) sep = join cs sep ++ sep ++ join ds sep.
Proof.
  intros Hc Hd. induction cs as [|c cs IH]; [done|].
  destruct cs as [|c' cs]; [simpl; by destruct ds|].
  change (join ((c :: c' :: cs) ++ ds) sep) with (c ++ sep ++ join ((c' :: cs) ++ ds) sep).
  rewrite IH by done. change (join (c :: c' :: cs) sep) with (c ++ sep ++ join (c' :: cs) sep).
  by rewrite <-!app_assoc.
Qed.

Lemma plain_no_slash cs : Forall plain cs -> Forall (fun w => SLASH ∉ w) cs.
Proof. intros H. eapply list.Forall_impl; [done|]. by intros ? (? & ? & ? & ?). Qed.

Lemma under_iff_prefix rs cs :
  rs <> [] -> Forall plain rs -> Forall plain cs ->
  (path_of cs = path_of rs \/ has_prefix (path_of cs) (path_of rs ++ [SLASH]) = true) <->
  rs `prefix_of` cs.
Proof.
  intros Hne Hr Hc. split.
  - intros [H|H]; [apply path_of_inj in H; by subst|].
    apply has_prefix_spec in H as [t [= H]]. rewrite <-app_assoc in H. simpl in H.
    exists (split_byte t SLASH).
    assert (cs <> []) by (intros ->; by destruct (slashed rs)).
    rewrite <-(split_slashed cs), <-(split_slashed rs) by (try apply plain_no_slash; done).
    rewrite H. apply split_byte_app2.
  - intros [ds ->]. destruct ds as [|d ds]; [left; by rewrite app_nil_r|right].
    apply has_prefix_spec. exists (slashed (d :: ds)).
    unfold path_of, slashed. rewrite join_app by done. simpl. by rewrite <-!app_assoc.
Qed.

#[export] Hint Resolve comps_plain location_plain IsAbs_path_of : go.

End Paths.
