(* ===== verification/Exec.v ===== *)
(** * Command execution ([src/sys/exec])

    The bounded output buffer, the environment gate, argument separation,
    privilege escalation and the runner.  The process itself, [exec.LookPath],
    the working directory and the agent's own environment are parameters. *)
From S2P Require Import Prelude Paths.

Module Exec.

Definition truncationMarker : gostring := NL :: str "[output truncated]".
Definition MaxOutputBytes : Z := 1048576.

(** ** CappedBuffer ([capped_buffer.go]) *)

Record CappedBuffer := MkCappedBuffer { cb_buf : gostring; cb_cap : Z; cb_truncated : bool }.

Definition NewCappedBuffer (cap : Z) : CappedBuffer :=
  MkCappedBuffer [] (if (cap <? 0)%Z then 0%Z else cap) false.

(** [Write]: the buffer and the reported byte count. *)
Definition Write (b : CappedBuffer) (p : gostring) : nat * CappedBuffer :=
  let remaining := (cb_cap b - Z.of_nat (length (cb_buf b)))%Z in
  if (remaining <=? 0)%Z then
    (length p, if 0 <? length p then MkCappedBuffer (cb_buf b) (cb_cap b) true else b)
  else if (remaining <? Z.of_nat (length p))%Z then
    (length p, MkCappedBuffer (cb_buf b ++ take (Z.to_nat remaining) p) (cb_cap b) true)
  else (length p, MkCappedBuffer (cb_buf b ++ p) (cb_cap b) (cb_truncated b)).

Definition Truncated (b : CappedBuffer) : bool := cb_truncated b.
Definition String_ (b : CappedBuffer) : gostring :=
  if cb_truncated b then cb_buf b ++ truncationMarker else cb_buf b.
Definition Bytes (b : CappedBuffer) : gostring :=
  if cb_truncated b then cb_buf b ++ truncationMarker else cb_buf b.

(** A sequence of writes. *)
Definition write_all (b : CappedBuffer) (ps : list gostring) : CappedBuffer :=
  fold_left (fun b p => (Write b p).2) ps b.

(** ** Arguments ([argv.go]) *)

Definition EndOfOptions : gostring := str "--".
Definition SeparatePositionals (flags positionals : list gostring) : list gostring :=
  flags ++ [EndOfOptions] ++ positionals.

(** ** Environment ([env.go], [exec.go], [runner.go]) *)

Inductive env_error :=
| ErrInvalidEnvVar (e : gostring)
| ErrBlockedEnvVar (key : gostring)
| ErrReservedEnvVar (key : gostring).

(** The regular expression [^[a-zA-Z_][a-zA-Z0-9_]*$]. *)
Definition name_start (c : ascii) : bool :=
  is_lower c || is_upper c || bool_decide (c = "_"%char).
Definition name_char (c : ascii) : bool := name_start c || is_digit c.
Definition ValidEnvVarName (s : gostring) : bool :=
  match s with
  | [] => false
  | c :: s' => name_start c && forallb name_char s'
  end.

Definition BlockedEnvVars : list gostring :=
  [str "GCONV_PATH"; str "HOSTALIASES"; str "RESOLV_HOST_CONF"; str "GETCONF_DIR";
   str "NODE_OPTIONS"; str "PYTHONPATH"; str "PERL5OPT"; str "PERL5LIB"; str "RUBYLIB";
   str "PATH"; str "IFS"; str "ENV"; str "BASH_ENV"; str "CDPATH"; str "GLOBIGNORE"].

Definition isReservedEnvVar (name : gostring) : bool :=
  let upper := to_upper name in
  bool_decide (upper ∈ [str "LANG"; str "LANGUAGE"; str "NO_COLOR"])
  || has_prefix upper (str "LC_").

Definition IsAllowedEnvVar (name : gostring) : bool :=
  ValidEnvVarName name &&
  let upper := to_upper name in
  negb (bool_decide (upper ∈ BlockedEnvVars)) &&
  negb (has_prefix upper (str "LD_") || has_prefix upper (str "BASH_FUNC_")
        || has_prefix upper (str "DYLD_")).

Fixpoint validateEnvVars (envVars : list gostring) : result env_error unit :=
  match envVars with
  | [] => Ok tt
  | e :: rest =>
      match cut e "="%char with
      | None => Err (ErrInvalidEnvVar e)
      | Some (key, _) =>
          if IsAllowedEnvVar key then validateEnvVars rest else Err (ErrBlockedEnvVar key)
      end
  end.

(** The key of an entry: all of it when there is no '='. *)
Definition env_key (e : gostring) : gostring :=
  match cut e "="%char with Some (k, _) => k | None => e end.

Fixpoint check_reserved (env : list gostring) : result env_error unit :=
  match env with
  | [] => Ok tt
  | e :: rest =>
      if isReservedEnvVar (env_key e) then Err (ErrReservedEnvVar (env_key e))
      else check_reserved rest
  end.

Definition ValidateCommandEnv (env : list gostring) : result env_error unit :=
  let? _ := validateEnvVars env in check_reserved env.

Definition composeEnv (childPath : gostring) (envVars : list gostring) : list gostring :=
  match childPath with
  | [] => envVars
  | _ => (str "PATH=" ++ childPath) :: envVars
  end.

Definition forcedEnv : list gostring := [str "LC_ALL=C"; str "LANG=C"; str "NO_COLOR=1"].

(** [type Command struct], without the stdin reader. *)
Record Command := MkCommand {
  Name : gostring; Args : list gostring; Dir : gostring; Env : list gostring;
  ChildPath : gostring; Escalate : bool
}.

(** The agent's own environment: [os.Getenv("PATH")] and [os.Environ()]. *)
Record ParentEnv := MkParentEnv { parent_PATH : gostring; Environ : list gostring }.

(** The inherited entries that survive the hijack filter. *)
Definition inheritable (e : gostring) : bool :=
  match cut e "="%char with
  | None => false
  | Some (key, _) => IsAllowedEnvVar key
  end.

Definition buildChildEnv (pe : ParentEnv) (c : Command) : result env_error (list gostring) :=
  let? _ := ValidateCommandEnv (Env c) in
  match ChildPath c, Env c with
  | _ :: _, _ => Ok (composeEnv (ChildPath c) (Env c) ++ forcedEnv)
  | [], _ :: _ => Ok (composeEnv (parent_PATH pe) (Env c) ++ forcedEnv)
  | [], [] => Ok (List.filter inheritable (Environ pe) ++ forcedEnv)
  end.

(** The value a child reads: the last entry of a name wins. *)
Fixpoint getenv (env : list gostring) (name : gostring) : option gostring :=
  match env with
  | [] => None
  | e :: rest =>
      match getenv rest name with
      | Some v => Some v
      | None => match cut e "="%char with
                | Some (k, v) => if bool_decide (k = name) then Some v else None
                | None => None
                end
      end
  end.

(** ** Escalation and the runner ([runner.go], [command_error.go]) *)

Inductive PrivilegeBackend := Sudo | Doas | Direct.

#[global] Instance PrivilegeBackend_eq_dec : EqDecision PrivilegeBackend.
Proof. solve_decision. Defined.

(** [NewRunner] on the integer constant; the zero value is invalid. *)
Definition NewRunner (b : Z) : option PrivilegeBackend :=
  if (b =? 1)%Z then Some Sudo else if (b =? 2)%Z then Some Doas
  else if (b =? 3)%Z then Some Direct else None.

Definition escalationTool (b : PrivilegeBackend) : gostring :=
  match b with Sudo => str "sudo" | Doas => str "doas" | Direct => [] end.

Definition wrapEscalation (b : PrivilegeBackend) (escalate : bool) (absPath : gostring)
    (args : list gostring) : gostring * list gostring :=
  let tool := escalationTool b in
  if negb escalate || bool_decide (tool = []) then (absPath, args)
  else (tool, str "-n" :: absPath :: args).

Record Result := MkResult { ExitCode : Z; Stdout : gostring; Stderr : gostring }.

Inductive exec_error :=
| ErrCtx (e : gostring)
| ErrNameRequired
| ErrEnv (e : env_error)
| ErrBackendUnavailable (name : gostring)
| ErrEscalationUnavailable (tool : gostring)
| ErrEscalationDenied (msg : gostring)
| ErrRun (e : gostring).

Definition detectEscalationDenied (b : PrivilegeBackend) (res : Result) : option exec_error :=
  if (ExitCode res =? 0)%Z then None
  else
    let s := Stderr res in
    let denied := ErrEscalationDenied (trim_space s) in
    match b with
    | Sudo => if contains s (str "a password is required")
                 || contains s (str "a terminal is required")
                 || contains s (str "no askpass program") then Some denied else None
    | Doas => if contains s (str "Authorization required")
                 || contains s (str "Authentication failed") then Some denied else None
    | Direct => None
    end.

(** ** The execution core ([exec.go]) *)

Inductive StreamType := StreamStdout | StreamStderr.

(** 64-bit counters wrap. *)
Definition wrap64 (z : Z) : Z := ((z + 2 ^ 63) mod 2 ^ 64 - 2 ^ 63)%Z.

(** One stream: the captured text, the byte counter, the sequence counter and
    the callbacks fired so far. *)
Record capture := MkCapture {
  out : gostring; nbytes : Z; seqno : Z; callbacks : list (gostring * Z)
}.
Definition empty_capture : capture := MkCapture [] 0 0 [].

(** One branch of [recordLine]; [cb] is [callback != nil]. *)
Definition record_on (cb : bool) (s : capture) (line : gostring) : capture :=
  let nbytes' := wrap64 (nbytes s + Z.of_nat (length line + 1)) in
  let out' := if (nbytes' <=? MaxOutputBytes)%Z then out s ++ line ++ [NL] else out s in
  if cb then
    let seqno' := wrap64 (seqno s + 1) in
    MkCapture out' nbytes' seqno' (callbacks s ++ [(line ++ [NL], wrap64 (seqno' - 1))])
  else MkCapture out' nbytes' (seqno s) (callbacks s).

Record captures := MkCaptures { cap_out : capture; cap_err : capture }.

Definition recordLine (cb : bool) (s : captures) (st : StreamType) (line : gostring) : captures :=
  match st with
  | StreamStdout => MkCaptures (record_on cb (cap_out s) line) (cap_err s)
  | StreamStderr => MkCaptures (cap_out s) (record_on cb (cap_err s) line)
  end.

(** [drainRemaining]: the lines left in a channel up to its close. *)
Definition drainRemaining (cb : bool) (s : captures) (st : StreamType) (ch : list gostring)
    : captures := fold_left (fun s l => recordLine cb s st l) ch s.

(** The reader goroutine: [sched] is the case each [select] takes; a channel is
    the list of the lines it will still deliver before it is closed.  [None]
    while the goroutine has not returned. *)
Inductive pick := PickOut | PickErr | PickDone.

#[global] Instance pick_eq_dec : EqDecision pick.
Proof. solve_decision. Defined.

Fixpoint drain (cb : bool) (sched : list pick) (outCh errCh : list gostring) (s : captures)
    : option captures :=
  match sched with
  | [] => None
  | PickOut :: sched' =>
      match outCh with
      | [] => Some (drainRemaining cb s StreamStderr errCh)
      | line :: outCh' => drain cb sched' outCh' errCh (recordLine cb s StreamStdout line)
      end
  | PickErr :: sched' =>
      match errCh with
      | [] => Some (drainRemaining cb s StreamStdout outCh)
      | line :: errCh' => drain cb sched' outCh errCh' (recordLine cb s StreamStderr line)
      end
  | PickDone :: _ => Some s
  end.

(** The captured text that goes into [Result]. *)
Definition rendered (s : capture) : gostring :=
  if (MaxOutputBytes <? nbytes s)%Z then out s ++ truncationMarker else out s.

Record Status := MkStatus { Exit : Z; Error : option gostring }.

(** What a started child does, as the core observes it. *)
Record outcome := MkOutcome {
  o_stdout : list gostring; o_stderr : list gostring; (* the lines of the streams *)
  o_sched : list pick;               (* the reader's choices *)
  o_ctx : option gostring;           (* ctx.Done won the select on the status *)
  o_status : Status;                 (* the status of a child that exits by itself *)
  o_term : option Status;            (* status read within killGrace of SIGTERM *)
  o_pid : Z;
  o_kill : option Status;            (* status read within killGrace of SIGKILL *)
  o_snapshot : Status                (* c.Status() after both graces *)
}.

Inductive signal := SIGTERM | SIGKILL (pgid : Z).

Definition awaitStatusOrKill (o : outcome) : list signal * Status :=
  match o_term o with
  | Some st => ([SIGTERM], st)
  | None =>
      let killed := if (0 <? o_pid o)%Z then [SIGKILL (- o_pid o)] else [] in
      (SIGTERM :: killed,
       match o_kill o with Some st => st | None => o_snapshot o end)
  end.

(** [runStreamingWithStdin] on the behaviour of the child: the signals sent, the
    callbacks fired, the result and the error.  [None] only while the reader
    goroutine has not returned ([<-done] blocks). *)
Definition runStreamingWithStdin (cb : bool) (o : outcome)
    : option (list signal * captures * Result * option gostring) :=
  let '(signals, status, runErr) :=
    match o_ctx o with
    | None => ([], o_status o, Error (o_status o))
    | Some e => let '(sg, st) := awaitStatusOrKill o in (sg, st, Some e)
    end in
  caps ← drain cb (o_sched o) (o_stdout o) (o_stderr o)
          (MkCaptures empty_capture empty_capture);
  Some (signals, caps,
        MkResult (Exit status) (rendered (cap_out caps)) (rendered (cap_err caps)), runErr).

(** ** The runner ([runner.go], [detect.go]) *)

(** The host, as far as the runner sees it. *)
Record Host := MkHost {
  LookPath : gostring -> option gostring;
  Getwd : option gostring;
  parent : ParentEnv;
  spawn : gostring -> list gostring -> list gostring -> gostring -> outcome
}.

Definition resolveAbsolute (h : Host) (name : gostring) : option gostring :=
  LookPath h name ≫= Paths.Abs (Getwd h).

Definition found {A} (o : option A) : bool := match o with Some _ => true | None => false end.

Definition Detect (h : Host) : list PrivilegeBackend :=
  (if found (LookPath h (str "sudo")) then [Sudo] else []) ++
  (if found (LookPath h (str "doas")) then [Doas] else []).

(** A started process: name, argv, environment and directory. *)
Record process := MkProcess {
  p_name : gostring; p_argv : list gostring; p_env : list gostring; p_dir : gostring
}.

Definition no_result : Result := MkResult 0 [] [].

(** How far [runner.exec] got: it returned before starting anything, or it
    started a process and returned its result ([None]: still waiting for it). *)
Inductive exec_outcome :=
| Refused (e : exec_error)
| Started (p : process) (r : option (Result * option exec_error)).

Definition exec (h : Host) (b : PrivilegeBackend) (ctxErr : option gostring) (c : Command)
    (onLine : bool) : exec_outcome :=
  match ctxErr with
  | Some e => Refused (ErrCtx e)
  | None =>
      match Name c with
      | [] => Refused ErrNameRequired
      | _ =>
          match buildChildEnv (parent h) c with
          | Err e => Refused (ErrEnv e)
          | Ok env =>
              match resolveAbsolute h (Name c) with
              | None => Refused (ErrBackendUnavailable (Name c))
              | Some absPath =>
                  let tool := escalationTool b in
                  if Escalate c && negb (bool_decide (tool = [])) && negb (found (LookPath h tool))
                  then Refused (ErrEscalationUnavailable tool)
                  else
                    let '(name, argv) := wrapEscalation b (Escalate c) absPath (Args c) in
                    Started (MkProcess name argv env (Dir c))
                      (r ← runStreamingWithStdin onLine (spawn h name argv env (Dir c));
                       let '(_, _, result, runErr) := r in
                       Some (result,
                             match runErr with
                             | Some e => Some (ErrRun e)
                             | None => if Escalate c then detectEscalationDenied b result
                                       else None
                             end))
              end
          end
      end
  end.

(** [Runner.Run] as the capability packages use it: a command gives a result or
    an error. *)
Definition Runner : Type := Command -> result exec_error Result.

(** ** Secrets ([secret.go]) *)

Record Secret := MkSecret { secret_v : gostring }.
Definition HasNewline (s : Secret) : bool := contains_any (secret_v s) [NL; ascii_of_nat 13].
Definition NewSecret (v : gostring) : option Secret :=
  if contains_any v [NL; ascii_of_nat 13] then None else Some (MkSecret v).
Definition NewMultilineSecret (v : gostring) : Secret := MkSecret v.
Definition String_secret (s : Secret) : gostring := str "[REDACTED]".
Definition Reveal (s : Secret) : gostring := secret_v s.
Definition IsZero (s : Secret) : bool := bool_decide (secret_v s = []).

(** ** The bounded buffer keeps the prefix and says so *)

Definition buf_inv (cap : nat) (all : gostring) (b : CappedBuffer) : Prop :=
  cb_cap b = Z.of_nat cap /\ cb_buf b = take cap all /\
  (cb_truncated b = true <-> cap < length all).

Lemma Write_inv cap all b p :
  buf_inv cap all b -> buf_inv cap (all ++ p) (Write b p).2 /\ (Write b p).1 = length p.
Proof.
  intros (Hc & Hb & Ht). unfold Write, buf_inv. rewrite Hc, Hb, length_take, length_app.
  destruct (_ <=? 0)%Z eqn:E1; go_bool.
  { split; [|done]. rewrite take_app_le by lia. simpl.
    destruct (0 <? length p) eqn:E; go_bool; simpl; (split_and!; [done|done|]).
    - split; [lia|done].
    - rewrite Ht. lia. }
  destruct (_ <? _)%Z eqn:E2; go_bool; simpl; (split; [|done]); (split_and!; [done| |]).
  - rewrite take_ge by lia. rewrite (take_app_ge all) by lia. do 2 f_equal. lia.
  - split; [lia|done].
  - by rewrite !take_ge by (rewrite ?length_app; lia).
  - rewrite Ht. lia.
Qed.

Lemma write_all_inv cap ps all b :
  buf_inv cap all b -> buf_inv cap (all ++ concat ps) (write_all b ps).
Proof.
  revert all b; induction ps as [|p ps IH]; intros all b Hb; simpl.
  - by rewrite app_nil_r.
  - rewrite app_assoc. apply IH. by apply Write_inv.
Qed.

(** whatever sequence of writes a [CappedBuffer] gets, each write reports
    its full length (so a pipe never sees a short write), the buffer holds
    exactly the first [cap] bytes of everything written, and the truncation
    marker is shown exactly when some byte was dropped. *)
Theorem write_all_prefix (cap : Z) (ps : list gostring) (p : gostring) :
  let b := write_all (NewCappedBuffer cap) ps in
  let all := concat ps in
  (Write b p).1 = length p /\
  (Truncated b = true <-> (Z.to_nat cap < length all)) /\
  String_ b = take (Z.to_nat cap) all ++ (if Truncated b then truncationMarker else []) /\
  Bytes b = String_ b.
Proof.
  intros b all.
  assert (buf_inv (Z.to_nat cap) all b) as Hinv.
  { apply (write_all_inv _ ps []). unfold buf_inv, NewCappedBuffer; simpl.
    rewrite take_nil. split_and!; [|done|split; [done|lia]].
    destruct (cap <? 0)%Z eqn:E; go_bool; lia. }
  split; [by eapply Write_inv|]. destruct Hinv as (_ & Hb & Ht).
  split; [done|]. unfold String_, Bytes, Truncated. rewrite Hb.
  destruct (cb_truncated b); by rewrite ?app_nil_r.
Qed.

(** ** The environment gate *)

(** A name the dynamic linker, the shell or an interpreter acts on. *)
Definition hijack_name (k : gostring) : bool :=
  let upper := to_upper k in
  bool_decide (upper ∈ BlockedEnvVars) || has_prefix upper (str "LD_")
  || has_prefix upper (str "BASH_FUNC_") || has_prefix upper (str "DYLD_").

Lemma allowed_not_hijack k : IsAllowedEnvVar k = true -> hijack_name k = false.
Proof.
  unfold IsAllowedEnvVar, hijack_name. intros H. go_bool.
  by rewrite bool_decide_false, !orb_false_l by done; repeat (apply orb_false_iff; split).
Qed.

Lemma validateEnvVars_ok env :
  validateEnvVars env = Ok tt <->
  Forall (fun e => exists k v, cut e "="%char = Some (k, v) /\ IsAllowedEnvVar k = true) env.
Proof.
  induction env as [|e env IH]; simpl; [by split|].
  rewrite list.Forall_cons, <-IH. destruct (cut e _) as [[k v]|] eqn:Hc.
  - destruct (IsAllowedEnvVar k) eqn:Ha.
    + split; [eauto 6|by intros [_ ?]].
    + split; [done|]. intros [(? & ? & [= <- <-] & ?) _]. congruence.
  - split; [done|]. by intros [(? & ? & ? & ?) _].
Qed.

Lemma check_reserved_ok env :
  check_reserved env = Ok tt <-> Forall (fun e => isReservedEnvVar (env_key e) = false) env.
Proof.
  induction env as [|e env IH]; simpl; [by split|].
  rewrite list.Forall_cons, <-IH. destruct (isReservedEnvVar _); naive_solver.
Qed.

(** A caller's environment passes the gate exactly when every entry is
    KEY=VALUE with an allowed, unreserved key. *)
Lemma ValidateCommandEnv_ok env :
  ValidateCommandEnv env = Ok tt <->
  Forall (fun e => exists k v, cut e "="%char = Some (k, v) /\ IsAllowedEnvVar k = true /\
                               isReservedEnvVar k = false) env.
Proof.
  unfold ValidateCommandEnv. rewrite result_bind_ok.
  split.
  - intros ([] & Hv%validateEnvVars_ok & Hr%check_reserved_ok).
    rewrite list.Forall_forall in *. intros e He.
    destruct (Hv e He) as (k & v & Hc & Ha). exists k, v. split_and!; [done|done|].
    specialize (Hr e He). unfold env_key in Hr. by rewrite Hc in Hr.
  - intros H. exists tt. rewrite validateEnvVars_ok, check_reserved_ok, !list.Forall_forall in *.
    split; intros e He; destruct (H e He) as (k & v & Hc & Ha & Hr); [eauto|].
    unfold env_key. by rewrite Hc.
Qed.

Lemma getenv_app a b k :
  getenv (a ++ b) k = match getenv b k with Some v => Some v | None => getenv a k end.
Proof.
  induction a as [|e a IH]; simpl; [by destruct (getenv b k)|].
  rewrite IH. by destruct (getenv b k).
Qed.

Lemma getenv_elem env k v :
  getenv env k = Some v -> exists e, e ∈ env /\ cut e "="%char = Some (k, v).
Proof.
  induction env as [|e env IH]; simpl; [done|].
  destruct (getenv env k) as [w|].
  - intros [= ->]. destruct (IH eq_refl) as (e' & ? & ?). exists e'. by split; [right|].
  - destruct (cut e _) as [[k' v']|] eqn:Hc; [|done]. case_bool_decide; [|done].
    intros [= ->]. exists e. subst. by split; [left|].
Qed.

(** Names the runner forces are reserved, so no caller entry collides. *)
Lemma forced_reserved k v : getenv forcedEnv k = Some v -> isReservedEnvVar k = true.
Proof.
  intros (e & He & Hc)%getenv_elem.
  repeat (apply elem_of_cons in He as [->|He]; [vm_compute in Hc; by simplify_eq|]).
  by apply not_elem_of_nil in He.
Qed.

Lemma forced_allowed :
  Forall (fun e => exists k v, cut e "="%char = Some (k, v) /\ IsAllowedEnvVar k = true) forcedEnv.
Proof. apply validateEnvVars_ok. by_eval. Qed.

(** The environment before the forced entries. *)
Definition base_env (pe : ParentEnv) (c : Command) : list gostring :=
  match ChildPath c, Env c with
  | _ :: _, _ => composeEnv (ChildPath c) (Env c)
  | [], _ :: _ => composeEnv (parent_PATH pe) (Env c)
  | [], [] => List.filter inheritable (Environ pe)
  end.

Lemma buildChildEnv_ok pe c env :
  buildChildEnv pe c = Ok env <->
  ValidateCommandEnv (Env c) = Ok tt /\ env = base_env pe c ++ forcedEnv.
Proof.
  unfold buildChildEnv, base_env. rewrite result_bind_ok. split.
  - intros ([] & Hv & H). split; [done|]. destruct (ChildPath c), (Env c); by simplify_eq.
  - intros [Hv ->]. exists tt. split; [done|]. by destruct (ChildPath c), (Env c).
Qed.

(** The curated PATH entry of an environment, if any. *)
Definition curated_path (pe : ParentEnv) (c : Command) (e : gostring) : Prop :=
  e = str "PATH=" ++ (match ChildPath c with [] => parent_PATH pe | p => p end).

Lemma composeEnv_elem p env e : e ∈ composeEnv p env -> (p <> [] /\ e = str "PATH=" ++ p) \/ e ∈ env.
Proof. unfold composeEnv. destruct p; set_solver. Qed.

Lemma base_env_elem pe c e :
  ValidateCommandEnv (Env c) = Ok tt -> e ∈ base_env pe c ->
  curated_path pe c e \/ exists k v, cut e "="%char = Some (k, v) /\ IsAllowedEnvVar k = true.
Proof.
  rewrite ValidateCommandEnv_ok, list.Forall_forall. unfold base_env, curated_path. intros Hv He.
  assert (e ∈ Env c -> exists k v, cut e "="%char = Some (k, v) /\ IsAllowedEnvVar k = true) as Hin.
  { intros H. destruct (Hv e H) as (k & v & ? & ? & ?). eauto. }
  destruct (ChildPath c) as [|x p] eqn:Hp.
  - destruct (Env c) as [|x env] eqn:Henv.
    + right. apply list_elem_of_In, filter_In in He as [_ He]. unfold inheritable in He.
      destruct (cut e _) as [[k v]|]; [eauto|done].
    + apply composeEnv_elem in He as [[_ ->]|He]; eauto.
  - apply composeEnv_elem in He as [[_ ->]|He]; eauto.
Qed.

Lemma composeEnv_getenv p env k v :
  getenv env k = Some v -> getenv (composeEnv p env) k = Some v.
Proof. intros H. destruct p; simpl; [done|]. by rewrite H. Qed.

(** C26: the child environment [buildChildEnv] returns is safe and
    deterministic: an entry whose name the linker, a shell or an interpreter
    would act on is the curated PATH and nothing else; the child reads LC_ALL=C,
    LANG=C and NO_COLOR=1 whatever the caller and the agent's own environment
    say; and every variable the caller set reaches the child with its value. *)
Theorem buildChildEnv_safe pe c env :
  buildChildEnv pe c = Ok env ->
  (forall e, e ∈ env -> hijack_name (env_key e) = true -> curated_path pe c e) /\
  getenv env (str "LC_ALL") = Some (str "C") /\
  getenv env (str "LANG") = Some (str "C") /\
  getenv env (str "NO_COLOR") = Some (str "1") /\
  (forall k v, getenv (Env c) k = Some v -> getenv env k = Some v).
Proof.
  intros [Hv ->]%buildChildEnv_ok. split_and!; try (rewrite getenv_app; by_eval).
  - intros e [He|He]%elem_of_app Hh; [destruct (base_env_elem pe c e Hv He) as [|(k & v & Hc & Ha)]|];
      [done| |].
    + unfold env_key in Hh. rewrite Hc in Hh. apply allowed_not_hijack in Ha. congruence.
    + pose proof forced_allowed as Hf. rewrite list.Forall_forall in Hf.
      destruct (Hf e He) as (k & v & Hc & Ha).
      unfold env_key in Hh. rewrite Hc in Hh. apply allowed_not_hijack in Ha. congruence.
  - intros k v Hk. rewrite getenv_app. destruct (getenv forcedEnv k) as [w|] eqn:Hf.
    + apply forced_reserved in Hf. apply getenv_elem in Hk as (e & He & Hc).
      rewrite ValidateCommandEnv_ok, list.Forall_forall in Hv.
      destruct (Hv e He) as (k' & v' & Hc' & _ & Hr). rewrite Hc in Hc'. simplify_eq. congruence.
    + unfold base_env. destruct (ChildPath c), (Env c) eqn:?; try by apply composeEnv_getenv.
      done.
Qed.

Definition demo_parent : ParentEnv :=
  MkParentEnv (str "/usr/bin") [str "LD_PRELOAD=/tmp/x.so"; str "HOME=/root"; str "PATH=/usr/bin"].
Definition demo_command : Command :=
  MkCommand (str "dnf") [str "-y"] [] [str "DEBIAN_FRONTEND=noninteractive"] [] true.

Lemma buildChildEnv_safe_witness :
  let env := [str "PATH=/usr/bin"; str "DEBIAN_FRONTEND=noninteractive"] ++ forcedEnv in
  buildChildEnv demo_parent demo_command = Ok env /\
  getenv env (str "LANG") = Some (str "C").
Proof.
  intros env. assert (buildChildEnv demo_parent demo_command = Ok env) as H by by_eval.
  split; [exact H|].
  destruct (buildChildEnv_safe demo_parent demo_command env H) as (_ & _ & Hl & _). exact Hl.
Defined.

(** The inherited branch carries no PATH at all: the child of a command without
    [Env] and [ChildPath] does not get the agent's PATH. *)
Lemma inherit_drops_path pe c env :
  ChildPath c = [] -> Env c = [] -> buildChildEnv pe c = Ok env ->
  getenv env (str "PATH") = None.
Proof.
  intros Hp He [_ ->]%buildChildEnv_ok. unfold base_env. rewrite Hp, He, getenv_app.
  change (getenv forcedEnv (str "PATH")) with (@None gostring). cbv iota.
  destruct (getenv _ _) as [v|] eqn:Hg; [|done].
  apply getenv_elem in Hg as (e & [_ Hf]%list_elem_of_In%filter_In & Hc).
  unfold inheritable in Hf. rewrite Hc in Hf. vm_compute in Hf. discriminate.
Qed.

(** ** The runner *)

Lemma Abs_absolute cwd s a :
  (forall w, cwd = Some w -> Paths.IsAbs w = true) -> Paths.Abs cwd s = Some a ->
  Paths.IsAbs a = true /\
  (Paths.IsAbs s = true -> a = Paths.Clean s) /\
  (Paths.IsAbs s = false -> exists w, cwd = Some w /\ a = Paths.Join [w; s]).
Proof.
  intros Hw. unfold Paths.Abs. destruct (Paths.IsAbs s) eqn:Hs.
  - intros [= <-]. split_and!; [by apply Paths.IsAbs_Clean|done|done].
  - destruct cwd as [w|]; [|done]. intros [= <-]. split_and!; [|done|eauto].
    by apply Paths.Join2_comps, Hw.
Qed.

(** C5: the runner starts a process only for a live context, a named command, a
    validated environment and a binary that was found, and made absolute: the
    cleaned path itself, or its place below the working directory when the
    search gave a relative one ([os.Getwd] gives a rooted path); an escalated
    command runs as [sudo -n <abs> args] or [doas -n <abs> args] with that wrapper
    installed and never bare (unless the backend is Direct), any other command
    runs bare with exactly its own arguments. *)
Theorem exec_started h b ctxErr c onLine p r :
  (forall w, Getwd h = Some w -> Paths.IsAbs w = true) ->
  exec h b ctxErr c onLine = Started p r ->
  ctxErr = None /\ Name c <> [] /\ p_dir p = Dir c /\
  buildChildEnv (parent h) c = Ok (p_env p) /\
  exists found_ absPath, LookPath h (Name c) = Some found_ /\
    Paths.IsAbs absPath = true /\
    (Paths.IsAbs found_ = true -> absPath = Paths.Clean found_) /\
    (Paths.IsAbs found_ = false -> exists w, Getwd h = Some w /\ absPath = Paths.Join [w; found_]) /\
    if Escalate c && negb (bool_decide (b = Direct)) then
      p_name p = escalationTool b /\ is_Some (LookPath h (escalationTool b)) /\
      p_argv p = str "-n" :: absPath :: Args c
    else p_name p = absPath /\ p_argv p = Args c.
Proof.
  intros Hw. unfold exec. destruct ctxErr; [done|]. destruct (Name c) as [|x n] eqn:Hn; [done|].
  destruct (buildChildEnv _ _) as [env|] eqn:He; [|done]. unfold resolveAbsolute.
  destruct (LookPath h (x :: n)) as [f|] eqn:Hf; [|done]. cbn [mbind option_bind].
  destruct (Paths.Abs _ _) as [a|] eqn:Ha; [|done].
  destruct (Abs_absolute _ _ _ Hw Ha) as (H1 & H2 & H3).
  unfold wrapEscalation, found. destruct (LookPath h (escalationTool b)) as [t|] eqn:Hl;
    destruct (Escalate c), b; cbn -[Paths.Join]; try done; intros [= <- <-]; simpl;
    split_and!; try done; exists f, a; split_and!; done.
Qed.

(** A child that prints one line and exits. *)
Definition demo_child : outcome :=
  MkOutcome [str "ok"] [] [PickOut; PickErr] None (MkStatus 0 None) None 42 None (MkStatus 0 None).
Definition demo_host : Host :=
  MkHost (fun n => Some (str "bin/" ++ n)) (Some (str "/usr")) demo_parent (fun _ _ _ _ => demo_child).

Definition demo_process : process :=
  MkProcess (str "sudo") [str "-n"; str "/usr/bin/dnf"; str "-y"]
    ([str "PATH=/usr/bin"; str "DEBIAN_FRONTEND=noninteractive"] ++ forcedEnv) [].

Lemma exec_started_witness :
  let r := Some (MkResult 0 (str "ok" ++ [NL]) [], None) in
  exec demo_host Sudo None demo_command false = Started demo_process r /\
  exists absPath, Paths.IsAbs absPath = true /\ 
    p_argv demo_process = str "-n" :: absPath :: Args demo_command.
Proof.
  intros r.
  assert (exec demo_host Sudo None demo_command false = Started demo_process r) as H by by_eval.
  split; [exact H|].
  destruct (exec_started demo_host Sudo None demo_command false demo_process r)
    as (_ & _ & _ & _ & f & a & _ & Ha & _ & _ & _ & _ & Hargv).
  - intros w Hw. vm_compute in Hw. injection Hw as <-. reflexivity.
  - exact H.
  - exists a. split; [exact Ha|exact Hargv].
Defined.

(** ** The execution core *)

(** The whole text of a list of lines, and its size. *)
Definition text (lines : list gostring) : gostring := concat (map (fun l => l ++ [NL]) lines).
Definition size (lines : list gostring) : Z := Z.of_nat (length (text lines)).

(** The lines that fit in [room] bytes: the longest prefix of whole lines. *)
Fixpoint fitting (room : Z) (lines : list gostring) : list gostring :=
  match lines with
  | [] => []
  | l :: rest =>
      let n := Z.of_nat (length l + 1) in
      if (n <=? room)%Z then l :: fitting (room - n) rest else []
  end.

Lemma size_cons l ls : size (l :: ls) = (Z.of_nat (length l + 1) + size ls)%Z.
Proof. unfold size, text. simpl. rewrite !length_app. simpl. lia. Qed.

Lemma size_app a b : size (a ++ b) = (size a + size b)%Z.
Proof. induction a as [|x a IH]; [done|]. rewrite <-app_comm_cons, !size_cons, IH. lia. Qed.

Lemma size_nonneg ls : (0 <= size ls)%Z.
Proof. unfold size. lia. Qed.

Lemma text_app a b : text (a ++ b) = text a ++ text b.
Proof. unfold text. by rewrite map_app, concat_app. Qed.

Lemma wrap64_id z : (- 2 ^ 63 <= z < 2 ^ 63)%Z -> wrap64 z = z.
Proof. intros. unfold wrap64. rewrite Z.mod_small; lia. Qed.

Lemma fitting_app room a b :
  fitting room (a ++ b) =
  if (size a <=? room)%Z then a ++ fitting (room - size a) b else fitting room a.
Proof.
  revert room; induction a as [|l a IH]; intros room; cbn [fitting app].
  - change (size []) with 0%Z. rewrite Z.sub_0_r. destruct (0 <=? room)%Z eqn:E; [done|]. go_bool.
    destruct b as [|x b]; simpl; [done|].
    by rewrite (proj2 (Z.leb_gt _ _)) by lia.
  - rewrite size_cons. pose proof (size_nonneg a). destruct (_ <=? room)%Z eqn:E; go_bool.
    + rewrite IH. destruct (size a <=? _)%Z eqn:E2; go_bool.
      * rewrite (proj2 (Z.leb_le _ _)) by lia. rewrite Z.sub_add_distr. done.
      * by rewrite (proj2 (Z.leb_gt _ _)) by lia.
    + by rewrite (proj2 (Z.leb_gt _ _)) by lia.
Qed.

Lemma fitting_all room a : (size a <= room)%Z -> fitting room a = a.
Proof.
  intros H. rewrite <-(app_nil_r a) at 1. rewrite fitting_app.
  rewrite (proj2 (Z.leb_le _ _)) by done. by rewrite app_nil_r.
Qed.

(** What one stream has recorded after [lines]. *)
Definition recorded (cb : bool) (lines : list gostring) (s : capture) : Prop :=
  out s = text (fitting MaxOutputBytes lines) /\
  nbytes s = size lines /\
  seqno s = (if cb then Z.of_nat (length lines) else 0)%Z /\
  callbacks s =
    if cb then zip (map (fun l => l ++ [NL]) lines) (map Z.of_nat (seq 0 (length lines))) else [].

Lemma length_le_size ls : (Z.of_nat (length ls) <= size ls)%Z.
Proof. induction ls as [|l ls IH]; [done|]. rewrite size_cons. simpl. lia. Qed.

Lemma record_on_recorded cb lines l s :
  (size (lines ++ [l]) < 2 ^ 63)%Z -> recorded cb lines s ->
  recorded cb (lines ++ [l]) (record_on cb s l).
Proof.
  rewrite size_app, size_cons. change (size []) with 0%Z. rewrite Z.add_0_r.
  intros Hsz (Ho & Hn & Hs & Hc). pose proof (size_nonneg lines). pose proof (length_le_size lines).
  unfold record_on. rewrite Ho, Hn, (wrap64_id (size lines + _)) by lia.
  assert ((if (size lines + Z.of_nat (length l + 1) <=? MaxOutputBytes)%Z
           then text (fitting MaxOutputBytes lines) ++ l ++ [NL]
           else text (fitting MaxOutputBytes lines))
          = text (fitting MaxOutputBytes (lines ++ [l]))) as ->.
  { rewrite fitting_app. cbn [fitting]. destruct (_ <=? _)%Z eqn:E; go_bool.
    - rewrite (fitting_all _ lines) by lia. rewrite !(proj2 (Z.leb_le _ _)) by lia.
      rewrite text_app. f_equal. unfold text; simpl. by rewrite app_nil_r.
    - destruct (size lines <=? _)%Z eqn:E2; go_bool; [|done].
      rewrite (proj2 (Z.leb_gt _ _)) by lia. rewrite app_nil_r. by rewrite fitting_all by lia. }
  unfold recorded. rewrite size_app, size_cons, length_app. change (size []) with 0%Z. rewrite Z.add_0_r.
  destruct cb; simpl; rewrite Hs, Hc; [|done].
  split_and!; [done|done|rewrite wrap64_id; lia|].
  rewrite map_app, seq_app, map_app. simpl.
  rewrite zip_with_app by (rewrite !length_map, length_seq; done). simpl.
  do 3 f_equal. rewrite !wrap64_id; try lia. rewrite wrap64_id; lia.
Qed.

Lemma record_all_recorded cb lines done_ s :
  (size (done_ ++ lines) < 2 ^ 63)%Z -> recorded cb done_ s ->
  recorded cb (done_ ++ lines) (fold_left (record_on cb) lines s).
Proof.
  revert done_ s; induction lines as [|l lines IH]; intros done_ s Hsz Hs; simpl.
  - by rewrite app_nil_r.
  - rewrite (cons_middle l done_ lines), app_assoc in Hsz |- *. apply IH; [done|].
    apply record_on_recorded; [|done]. rewrite size_app in Hsz.
    pose proof (size_nonneg lines). lia.
Qed.

(** The recorded state of both streams depends on each stream's own lines only. *)
Definition record_both (cb : bool) (o e : list gostring) (s : captures) : captures :=
  MkCaptures (fold_left (record_on cb) o (cap_out s)) (fold_left (record_on cb) e (cap_err s)).

Lemma drainRemaining_both cb s st ch :
  drainRemaining cb s st ch =
  match st with StreamStdout => record_both cb ch [] s | StreamStderr => record_both cb [] ch s end.
Proof.
  unfold drainRemaining, record_both. revert s; induction ch as [|l ch IH]; intros s; simpl.
  - by destruct s, st.
  - rewrite IH. by destruct st.
Qed.

Lemma drain_complete cb sched o e s :
  PickDone ∉ sched -> (length o + length e < length sched) ->
  drain cb sched o e s = Some (record_both cb o e s).
Proof.
  revert o e s; induction sched as [|p sched IH]; intros o e s Hn Hl; simpl in *; [lia|].
  destruct p; [| |set_solver].
  - destruct o as [|l o]; simpl in *; [by rewrite drainRemaining_both|].
    rewrite IH by (set_solver || lia). done.
  - destruct e as [|l e]; simpl in *; [by rewrite drainRemaining_both|].
    rewrite IH by (set_solver || lia). done.
Qed.

(** The text a stream contributes to [Result]. *)
Definition bounded_text (lines : list gostring) : gostring :=
  text (fitting MaxOutputBytes lines) ++
  if (MaxOutputBytes <? size lines)%Z then truncationMarker else [].

Lemma rendered_recorded cb lines s : recorded cb lines s -> rendered s = bounded_text lines.
Proof.
  intros (Ho & Hn & _). unfold rendered, bounded_text. rewrite Ho, Hn.
  destruct (_ <? _)%Z; by rewrite ?app_nil_r.
Qed.

(** a child that is not cancelled is reported faithfully whatever the
    interleaving of its two streams: the core returns (a schedule one longer
    than the number of lines suffices), sends no signal, reports the child's own
    exit status, captures of each stream the longest prefix of whole lines
    within 1 MiB plus the marker when some were dropped, and hands the callback
    every line of each stream, in order, numbered 0, 1, 2... *)
Theorem runStreaming_reports cb o :
  o_ctx o = None -> PickDone ∉ o_sched o ->
  (length (o_stdout o) + length (o_stderr o) < length (o_sched o)) ->
  (size (o_stdout o) < 2 ^ 63)%Z -> (size (o_stderr o) < 2 ^ 63)%Z ->
  exists caps,
    runStreamingWithStdin cb o =
      Some ([], caps,
            MkResult (Exit (o_status o)) (bounded_text (o_stdout o)) (bounded_text (o_stderr o)),
            Error (o_status o)) /\
    recorded cb (o_stdout o) (cap_out caps) /\ recorded cb (o_stderr o) (cap_err caps).
Proof.
  intros Hctx Hn Hl Ho He. unfold runStreamingWithStdin. rewrite Hctx, drain_complete by done.
  assert (forall lines, (size lines < 2 ^ 63)%Z ->
          recorded cb lines (fold_left (record_on cb) lines empty_capture)) as Hrec.
  { intros lines Hsz. apply (record_all_recorded cb lines []); [done|]. by destruct cb. }
  exists (record_both cb (o_stdout o) (o_stderr o) (MkCaptures empty_capture empty_capture)).
  split; [|split; by apply Hrec]. simpl.
  by rewrite (rendered_recorded cb _ _ (Hrec _ Ho)), (rendered_recorded cb _ _ (Hrec _ He)).
Qed.

Lemma runStreaming_reports_witness :
  exists caps,
    runStreamingWithStdin true demo_child =
      Some ([], caps, MkResult 0 (str "ok" ++ [NL]) [], None) /\
    recorded true [str "ok"] (cap_out caps).
Proof.
  destruct (runStreaming_reports true demo_child) as (caps & H & Hr & _);
    [reflexivity|apply (bool_decide_unpack _); vm_compute; exact I|simpl; lia
    |vm_compute; reflexivity|vm_compute; reflexivity|].
  exists caps. split; [exact H|exact Hr].
Defined.

(** The reader goroutine returns once its [select] saw the cancelled context or
    a channel that is closed, and it has recorded a prefix of each stream. *)
Lemma drain_returns cb sched o e s :
  PickDone ∈ sched \/ length o + length e < length sched ->
  exists n m, drain cb sched o e s = Some (record_both cb (take n o) (take m e) s).
Proof.
  revert o e s; induction sched as [|p sched IH]; intros o e s Hr; [set_unfold; simpl in Hr; lia|].
  destruct p; cbn [drain].
  - destruct o as [|l o].
    + exists 0, (length e). rewrite drainRemaining_both, (firstn_all e). done.
    + destruct (IH o e (recordLine cb s StreamStdout l)) as (n & m & Hd).
      { destruct Hr as [Hr|Hr]; [left; set_solver|right; simpl in Hr; lia]. }
      exists (S n), m. exact Hd.
  - destruct e as [|l e].
    + exists (length o), 0. rewrite drainRemaining_both, (firstn_all o). done.
    + destruct (IH o e (recordLine cb s StreamStderr l)) as (n & m & Hd).
      { destruct Hr as [Hr|Hr]; [left; set_solver|right; simpl in Hr; lia]. }
      exists n, (S m). exact Hd.
  - exists 0, 0. by destruct s.
Qed.

Lemma size_take n lines : (size (take n lines) <= size lines)%Z.
Proof. rewrite <-(take_drop n lines) at 2. rewrite size_app. pose proof (size_nonneg (drop n lines)). lia. Qed.

(** C39: a cancelled run returns, as soon as the reader's [select] takes the
    cancelled context or meets a closed stream, and escalates in order: SIGTERM
    always; after the grace passed without a status SIGKILL too, to the whole
    process group of a known pid; nothing else is sent.  The error is the
    context's, the exit status the one read within a grace or the snapshot after
    both, and the text of each stream is bounded and comes from a prefix of its
    lines. *)
Theorem runStreaming_cancelled cb o e :
  o_ctx o = Some e ->
  (PickDone ∈ o_sched o \/ length (o_stdout o) + length (o_stderr o) < length (o_sched o)) ->
  (size (o_stdout o) < 2 ^ 63)%Z -> (size (o_stderr o) < 2 ^ 63)%Z ->
  exists signals caps n m,
    runStreamingWithStdin cb o =
      Some (signals, caps,
            MkResult (Exit (match o_term o, o_kill o with
                            | Some st, _ => st | None, Some st => st | None, None => o_snapshot o end))
              (bounded_text (take n (o_stdout o))) (bounded_text (take m (o_stderr o))),
            Some e) /\
    (is_Some (o_term o) \/ (o_pid o <= 0)%Z -> signals = [SIGTERM]) /\
    (o_term o = None -> (0 < o_pid o)%Z -> signals = [SIGTERM; SIGKILL (- o_pid o)]).
Proof.
  intros Hctx Hret Ho He. unfold runStreamingWithStdin, awaitStatusOrKill. rewrite Hctx.
  destruct (drain_returns cb (o_sched o) (o_stdout o) (o_stderr o)
              (MkCaptures empty_capture empty_capture) Hret) as (n & m & ->).
  assert (forall k lines, (size lines < 2 ^ 63)%Z ->
          recorded cb (take k lines) (fold_left (record_on cb) (take k lines) empty_capture)) as Hrec.
  { intros k lines Hsz. pose proof (size_take k lines).
    apply (record_all_recorded cb (take k lines) []); [simpl; lia|]. by destruct cb. }
  destruct (o_term o) as [st|]; simpl;
    rewrite (rendered_recorded cb _ _ (Hrec n _ Ho)), (rendered_recorded cb _ _ (Hrec m _ He));
    eexists _, _, n, m; (split; [reflexivity|]).
  - split; [done|done].
  - split; [intros [[? ?]|Hp]; [done|]|intros _ Hp].
    + by rewrite (proj2 (Z.ltb_ge _ _)) by lia.
    + by rewrite (proj2 (Z.ltb_lt _ _)) by lia.
Qed.

(** A child that ignores SIGTERM. *)
Definition demo_stubborn : outcome :=
  MkOutcome [] [] [PickDone] (Some (str "context canceled")) (MkStatus 0 None) None 42
    (Some (MkStatus 137 None)) (MkStatus 0 None).

Lemma runStreaming_cancelled_witness :
  exists caps res,
    runStreamingWithStdin false demo_stubborn =
      Some ([SIGTERM; SIGKILL (-42)], caps, res, Some (str "context canceled")) /\
    ExitCode res = 137%Z.
Proof.
  destruct (runStreaming_cancelled false demo_stubborn (str "context canceled"))
    as (signals & caps & n & m & Hrun & _ & Hkill);
    [reflexivity|left; apply (bool_decide_unpack _); vm_compute; exact I
    |vm_compute; reflexivity|vm_compute; reflexivity|].
  rewrite Hrun, Hkill by (reflexivity || (vm_compute; reflexivity)). eexists _, _. split; reflexivity.
Defined.

(** A secret built for a line-oriented sink holds no record separator, and what
    the formatting verbs show does not depend on it. *)
Lemma NewSecret_line v s :
  NewSecret v = Some s -> Reveal s = v /\ HasNewline s = false /\
  forall s', String_secret s = String_secret s'.
Proof.
  unfold NewSecret, HasNewline. destruct (contains_any _ _) eqn:E; [done|]. by intros [= <-].
Qed.

End Exec.
