(* ===== verification/FsGuard.v ===== *)
(** * Destructive-path guards ([src/sys/fs/protected.go], [validate.go])

    [IsProtectedPath], [IsUnderProtectedPrefix] and [ResolveAndValidatePath].
    The working directory and the file system ([os.Stat], [os.Lstat],
    [filepath.EvalSymlinks]) are the parameters of a [FileSystem] record. *)
From S2P Require Import Prelude Paths.

Module FsGuard.
Import Paths.

Inductive io_error := ErrNotExist | ErrOther (msg : gostring).

(** What the guards ask of the host. *)
Record FileSystem := MkFileSystem {
  Getwd : option gostring;
  Stat : gostring -> result io_error unit;
  LstatSymlink : gostring -> bool;     (* Lstat succeeds and shows a symlink *)
  EvalSymlinks : gostring -> result io_error gostring
}.

Definition dangerousPaths : list gostring :=
  [str "/"; str "/boot"; str "/dev"; str "/etc"; str "/proc"; str "/run"; str "/sys";
   str "/usr"; str "/var"; str "/bin"; str "/sbin"; str "/lib"; str "/lib64"; str "/home";
   str "/root"; str "/lib32"; str "/libx32"; str "/media"; str "/mnt"; str "/opt";
   str "/srv"; str "/tmp"; str "/snap"].

(** The cleaned absolute path, [None] when it cannot be computed. *)
Definition clean_abs (fs : FileSystem) (path : gostring) : option gostring :=
  let clean := Clean path in
  if negb (IsAbs clean) then Abs (Getwd fs) clean else Some clean.

Definition IsProtectedPath (fs : FileSystem) (path : gostring) : bool :=
  match clean_abs fs path with
  | None => true
  | Some clean => bool_decide (clean ∈ dangerousPaths)
  end.

Definition protectedPrefixRoots : list gostring :=
  [str "/etc"; str "/boot"; str "/usr"; str "/home"; str "/root"; str "/var/lib"; str "/bin";
   str "/sbin"; str "/lib"; str "/lib64"; str "/lib32"; str "/libx32"; str "/proc";
   str "/sys"; str "/dev"; str "/run"].

Definition protectedExactPaths : list gostring := [str "/"; str "/var"].

Definition IsUnderProtectedPrefix (fs : FileSystem) (path : gostring) : bool :=
  match clean_abs fs path with
  | None => true
  | Some clean =>
      bool_decide (clean ∈ protectedExactPaths) ||
      existsb (fun root => bool_decide (clean = root) || has_prefix clean (root ++ [SLASH]))
        protectedPrefixRoots
  end.

Inductive resolve_error :=
| PathNotAbsolute (path : gostring)
| CannotStat (dir : gostring) (e : io_error)
| ResolveSymlinks (dir : gostring) (e : io_error)
| LoopFuel. (* never returned: see [ResolveAndValidatePath_total] *)

(** The walk up to the first existing parent: it and the missing tail. *)
Fixpoint find_parent (fuel : nat) (fs : FileSystem) (dir missingTail : gostring)
    : result resolve_error (gostring * gostring) :=
  match fuel with
  | 0 => Err LoopFuel
  | S fuel' =>
      if bool_decide (dir = [SLASH]) || bool_decide (dir = dot) then Ok ([], missingTail)
      else match Stat fs dir with
           | Ok _ => Ok (dir, missingTail)
           | Err ErrNotExist =>
               find_parent fuel' fs (Dir dir) (Join [Base dir; missingTail])
           | Err e => Err (CannotStat dir e)
           end
  end.

Definition ResolveAndValidatePath (fs : FileSystem) (path : gostring)
    : result resolve_error gostring :=
  let clean := Clean path in
  if negb (IsAbs clean) then Err (PathNotAbsolute path)
  else
    let? walked := find_parent (S (length clean)) fs (Dir clean) [] in
    let '(found, missingTail) := walked in
    let existingParent := match found with [] => [SLASH] | _ => found end in
    match EvalSymlinks fs existingParent with
    | Err e => Err (ResolveSymlinks existingParent e)
    | Ok resolved =>
        match missingTail with
        | [] => Ok (Join [resolved; Base clean])
        | _ => Ok (Join [resolved; missingTail; Base clean])
        end
    end.

(** ** The subtree guard, on locations *)

(** A location a managed delete must never touch. *)
Definition protected_location (cs : list gostring) : Prop :=
  cs = [] \/ cs = [str "var"] \/
  exists root, root ∈ protectedPrefixRoots /\ comps root `prefix_of` cs.

Lemma clean_abs_location fs cwd p :
  Getwd fs = Some cwd -> IsAbs cwd = true ->
  clean_abs fs p = Some (path_of (location cwd p)).
Proof.
  intros Hw Hc. unfold clean_abs. destruct (IsAbs p) eqn:Hp.
  - rewrite IsAbs_Clean by done. cbn [negb]. unfold location. by rewrite Hp, Clean_abs.
  - rewrite IsAbs_Clean_rel by done. cbn [negb]. rewrite Hw.
    destruct (Abs_location cwd (Clean p) Hc) as (q & -> & Hq & Hcl & Hl).
    by rewrite <-Hcl, Clean_abs, Hl, location_Clean.
Qed.

Lemma root_path_of root :
  root ∈ protectedPrefixRoots -> root = path_of (comps root) /\ comps root <> [] /\ IsAbs root = true.
Proof.
  intros Hr. assert (Forall (fun r => r = path_of (comps r) /\ comps r <> [] /\ IsAbs r = true)
                       protectedPrefixRoots) as H
    by (repeat constructor; try (by vm_compute); by_eval).
  rewrite list.Forall_forall in H. by apply H.
Qed.

Lemma prefix_test cs root :
  Forall plain cs -> root ∈ protectedPrefixRoots ->
  (bool_decide (path_of cs = root) || has_prefix (path_of cs) (root ++ [SLASH]) = true
   <-> comps root `prefix_of` cs).
Proof.
  intros Hc (Hr & Hne & Ha)%root_path_of.
  rewrite <-(under_iff_prefix (comps root) cs) by auto with go.
  rewrite <-Hr, orb_true_iff, bool_decide_eq_true. done.
Qed.

(** The guard decides protection of the location a cleaned absolute path names. *)
Lemma guard_location fs cwd p :
  Getwd fs = Some cwd -> IsAbs cwd = true ->
  IsUnderProtectedPrefix fs p = true <-> protected_location (location cwd p).
Proof.
  intros Hw Hc. unfold IsUnderProtectedPrefix. rewrite (clean_abs_location fs cwd p) by done.
  pose proof (location_plain cwd p Hc) as Hpl. revert Hpl. generalize (location cwd p). intros cs Hpl.
  rewrite orb_true_iff, bool_decide_eq_true, existsb_exists. unfold protected_location.
  assert (path_of cs ∈ protectedExactPaths <-> cs = [] \/ cs = [str "var"]) as ->.
  { unfold protectedExactPaths. rewrite !elem_of_cons, elem_of_nil.
    change (str "/") with (path_of []). change (str "/var") with (path_of [str "var"]).
    assert (Forall plain [str "var"]) by (repeat constructor; try done; by apply (bool_decide_unpack _)).
    split; [intros [He|[He|[]]]|intros [->| ->]; auto];
      apply path_of_inj in He; auto. }
  assert (forall A B C D : Prop, (C <-> D) -> ((A \/ B) \/ C <-> A \/ B \/ D)) as Hor by tauto.
  apply Hor. split; intros (root & Hin & H); exists root; rewrite <-list_elem_of_In in *;
    (split; [done|]); by apply prefix_test.
Qed.

(** [IsUnderProtectedPrefix] is exactly protection of the location the
    path leads to: for an absolute or relative input with any mix of [.], [..],
    doubled and trailing slashes it holds iff that location is the root, /var,
    or one of the protected trees or anything below it; a sibling that only
    shares a name prefix (/etcetera) is not caught by it. *)
Theorem IsUnderProtectedPrefix_location fs cwd p :
  Getwd fs = Some cwd -> IsAbs cwd = true ->
  IsUnderProtectedPrefix fs p = true <-> protected_location (location cwd p).
Proof. apply guard_location. Qed.

(** A host with nothing on it but the root. *)
Definition bare_fs : FileSystem :=
  MkFileSystem (Some (str "/root")) (fun _ => Err ErrNotExist) (fun _ => false) Ok.

Lemma IsUnderProtectedPrefix_location_witness :
  IsUnderProtectedPrefix bare_fs (str "../srv/./x/../../etc/sudoers.d") = true /\
  protected_location [str "etc"; str "sudoers.d"] /\
  IsUnderProtectedPrefix bare_fs (str "/etcetera") = false.
Proof.
  split; [by_eval|]. split; [|by_eval].
  apply (IsUnderProtectedPrefix_location bare_fs (str "/root")
           (str "../srv/./x/../../etc/sudoers.d") eq_refl eq_refl). by_eval.
Defined.

(** A relative path with no working directory is refused. *)
Lemma no_cwd_refused fs p :
  Getwd fs = None -> IsAbs p = false ->
  IsUnderProtectedPrefix fs p = true /\ IsProtectedPath fs p = true.
Proof.
  intros Hw Hp. unfold IsUnderProtectedPrefix, IsProtectedPath, clean_abs, Abs.
  by rewrite IsAbs_Clean_rel, Hw by done.
Qed.

(** Everything below a refused tree is refused. *)
Lemma protected_below cs ds :
  protected_location cs -> cs <> [] -> cs <> [str "var"] -> protected_location (cs ++ ds).
Proof.
  intros [->|[->|(root & Hr & Hp)]] H1 H2; [done|done|].
  right; right. exists root. split; [done|]. by apply prefix_app_r.
Qed.

(** ** Resolution of the parent chain *)

Lemma length_slashed cs : Forall plain cs -> length cs <= length (slashed cs).
Proof.
  induction 1 as [|w cs [Hw _] Hcs IH]; [done|]. unfold slashed in *.
  destruct w as [|x w]; [done|]. destruct cs as [|v cs]; simpl in *; [lia|].
  rewrite length_app. simpl. lia.
Qed.

Lemma walk_one rooted st w : plain w -> walk rooted st w = w :: st.
Proof. intros H. apply (walk_plain rooted st [w]). by constructor. Qed.

Lemma IsAbs_plain w s : plain w -> IsAbs (w ++ s) = false.
Proof.
  intros (Hne & _ & _ & Hs). destruct w as [|x w]; [done|]. unfold IsAbs. simpl.
  rewrite bool_decide_false; [done|set_solver].
Qed.

Lemma Join_tail w ms : plain w -> Forall plain ms -> Join [w; slashed ms] = slashed (w :: ms).
Proof.
  intros Hw Hms. assert (Join [w; slashed ms] = Clean (w ++ SLASH :: slashed ms)) as ->
    by (destruct Hw as [? _]; by destruct w).
  unfold Clean, comps. rewrite IsAbs_plain, walk_app, (walk_one _ _ w), walk_plain by done.
  rewrite rev_app_distr, rev_involutive. destruct Hw as [? _]. by destruct w.
Qed.

(** What the upward walk found below the location [ds]. *)
Definition walked (fs : FileSystem) (ds parent missing : list gostring) : Prop :=
  ds = parent ++ missing /\
  (parent = [] \/ Stat fs (path_of parent) = Ok tt) /\
  (forall k, 0 < k <= length missing -> Stat fs (path_of (parent ++ take k missing)) = Err ErrNotExist).

Lemma find_parent_ok fuel fs ds ms found tail :
  Forall plain ds -> Forall plain ms ->
  find_parent fuel fs (path_of ds) (slashed ms) = Ok (found, tail) ->
  exists parent missing, walked fs ds parent missing /\ tail = slashed (missing ++ ms) /\
    (match found with [] => [SLASH] | _ => found end) = path_of parent.
Proof.
  revert ds ms; induction fuel as [|fuel IH]; intros ds ms Hd Hm; [done|]. cbn [find_parent].
  destruct ds as [|w ds _] using rev_ind.
  - simpl. intros [= <- <-]. exists [], []. split_and!; [|done|done].
    unfold walked. split_and!; [done|by left|]. intros k [? ?]. simpl in *. lia.
  - apply list.Forall_app in Hd as [Hd Hw]. rewrite list.Forall_singleton in Hw.
    assert (Forall plain (ds ++ [w])) as Hdw by (apply list.Forall_app; by rewrite list.Forall_singleton).
    rewrite !bool_decide_false; [| |].
    3: { change [SLASH] with (path_of []). intros ?%path_of_inj; [by destruct ds|done|constructor]. }
    2: { unfold path_of, dot. by intros [=]. }
    cbn [orb]. destruct (Stat fs _) as [[]|[|]] eqn:Hst; [intros [= <- <-]| |done].
    + exists (ds ++ [w]), []. split_and!; [|done|done].
      unfold walked. rewrite app_nil_r. split_and!; [done|by right|]. simpl. intros; lia.
    + rewrite Dir_path_of, Base_path_of, Join_tail by done. intros H.
      apply IH in H as (parent & missing & (-> & Hp & Hk) & -> & Hf); [|done|by constructor].
      exists parent, (missing ++ [w]). split_and!; [|by rewrite <-app_assoc|done].
      unfold walked. split_and!; [by rewrite <-app_assoc|done|].
      intros k [? Hle]. rewrite length_app in Hle. simpl in Hle.
      destruct (decide (k <= length missing)) as [?|?].
      * rewrite take_app_le by lia. apply Hk. lia.
      * rewrite take_ge by (rewrite length_app; simpl; lia). by rewrite app_assoc.
Qed.

Lemma find_parent_fuel fuel fs ds tail :
  Forall plain ds -> length ds < fuel -> find_parent fuel fs (path_of ds) tail <> Err LoopFuel.
Proof.
  revert ds tail; induction fuel as [|fuel IH]; intros ds tail Hd Hl; [lia|]. cbn [find_parent].
  destruct (_ || _) eqn:E; [done|]. destruct (Stat fs _) as [|[|]]; [done| |done].
  destruct ds as [|w ds _] using rev_ind; [by vm_compute in E|].
  rewrite length_app in Hl. simpl in Hl. rewrite Dir_path_of by done.
  apply IH; [by apply list.Forall_app in Hd as [? _]|lia].
Qed.

Lemma last_cases cs : Forall plain cs -> cs = [] \/ exists ds w, cs = ds ++ [w].
Proof. destruct cs as [|w ds _] using rev_ind; eauto. Qed.

Lemma Join3_comps q ms w :
  IsAbs q = true -> Forall plain ms -> plain w -> ms <> [] ->
  IsAbs (Join [q; slashed ms; w]) = true /\ comps (Join [q; slashed ms; w]) = comps q ++ ms ++ [w].
Proof.
  intros Hq Hms Hw Hne. destruct (IsAbs_cons q Hq) as [t ->].
  change (Join [SLASH :: t; slashed ms; w]) with (Clean ((SLASH :: t) ++ SLASH :: (slashed ms ++ SLASH :: w))).
  split; [by apply IsAbs_Clean|]. rewrite comps_Clean, comps_walk_abs, walk_app by done.
  rewrite walk_plain, walk_one by done. simpl. rewrite rev_app_distr, !rev_involutive. by rewrite <-app_assoc.
Qed.

Lemma slashed_nil cs : Forall plain cs -> slashed cs = [] -> cs = [].
Proof. intros H E. apply length_slashed in H. rewrite E in H. by destruct cs; simpl in *; [|lia]. Qed.

(** [EvalSymlinks] of an absolute path is absolute. *)
Definition resolver_absolute (fs : FileSystem) : Prop :=
  forall p q, IsAbs p = true -> EvalSymlinks fs p = Ok q -> IsAbs q = true.

(** The resolved form of an absolute path that is not the root. *)
Definition resolved_to (fs : FileSystem) (cs : list gostring) (r : gostring) : Prop :=
  exists parent missing base q,
    cs = parent ++ missing ++ [base] /\ walked fs (parent ++ missing) parent missing /\
    EvalSymlinks fs (path_of parent) = Ok q /\
    IsAbs r = true /\ comps r = comps q ++ missing ++ [base].

Lemma resolve_spec fs p r :
  resolver_absolute fs -> comps p <> [] -> ResolveAndValidatePath fs p = Ok r ->
  IsAbs p = true /\ resolved_to fs (comps p) r.
Proof.
  intros Hres Hne. unfold ResolveAndValidatePath. destruct (IsAbs p) eqn:Hp;
    [|by rewrite IsAbs_Clean_rel by done].
  rewrite IsAbs_Clean, Clean_abs by done. cbn [negb]. pose proof (comps_plain p Hp) as Hpl.
  destruct (last_cases _ Hpl) as [?|(ds & w & E)]; [done|]. rewrite E in *. clear Hne.
  pose proof Hpl as [Hd Hw]%list.Forall_app. rewrite list.Forall_singleton in Hw.
  rewrite Dir_path_of, Base_path_of by done.
  intros ([found tail] & Hfind & Hrest)%result_bind_ok.
  apply (find_parent_ok _ fs ds []) in Hfind as (parent & missing & Hwalk & Ht & Hf); [|done|constructor].
  rewrite app_nil_r in Ht. rewrite Hf in Hrest.
  destruct (EvalSymlinks fs (path_of parent)) as [q|] eqn:Hq; [|done].
  pose proof (Hres _ _ (IsAbs_path_of parent) Hq) as Haq. split; [done|].
  pose proof Hwalk as (Hds & _). rewrite Hds in Hd. apply list.Forall_app in Hd as [_ Hm].
  assert (IsAbs r = true /\ comps r = comps q ++ missing ++ [w]) as [Ha Hc].
  { destruct tail as [|x tail].
    - symmetry in Ht. apply slashed_nil in Ht; [|done]. subst missing. apply ok_inj in Hrest as <-.
      destruct (Join2_comps q w Haq) as [Ha Hc]. split; [done|]. rewrite Hc, walk_one by done.
      simpl. by rewrite rev_involutive.
    - rewrite Ht in Hrest. apply ok_inj in Hrest as <-. apply Join3_comps; try done.
      intros ->. discriminate. }
  exists parent, missing, w, q. rewrite <-Hds. split_and!; try done.
  by rewrite Hds, <-app_assoc.
Qed.

(** what [ResolveAndValidatePath] returns: the path's own location with
    the deepest existing parent replaced by its symlink-resolved target and the
    not yet existing components and the file name appended unchanged, so no
    [..] of the input and no symlink of the existing part survives. *)
Theorem ResolveAndValidatePath_ok fs p r :
  resolver_absolute fs -> comps p <> [] -> ResolveAndValidatePath fs p = Ok r ->
  IsAbs p = true /\ resolved_to fs (comps p) r.
Proof. apply resolve_spec. Qed.

(** A host where /srv/app is a symlink to /etc. *)
Definition linked_fs : FileSystem :=
  MkFileSystem (Some (str "/"))
    (fun p => if bool_decide (p ∈ [str "/srv"; str "/srv/app"]) then Ok tt else Err ErrNotExist)
    (fun p => bool_decide (p = str "/srv/app"))
    (fun p => if bool_decide (p = str "/srv/app") then Ok (str "/etc") else Ok p).

Lemma linked_fs_absolute : resolver_absolute linked_fs.
Proof. intros p q Hp. simpl. case_bool_decide; intros [= <-]; done. Qed.

Lemma ResolveAndValidatePath_ok_witness :
  ResolveAndValidatePath linked_fs (str "/srv/app/cron.d/x/../y") = Ok (str "/etc/cron.d/y") /\
  resolved_to linked_fs [str "srv"; str "app"; str "cron.d"; str "y"] (str "/etc/cron.d/y").
Proof.
  assert (ResolveAndValidatePath linked_fs (str "/srv/app/cron.d/x/../y")
          = Ok (str "/etc/cron.d/y")) as H by by_eval.
  split; [exact H|].
  exact (proj2 (ResolveAndValidatePath_ok linked_fs (str "/srv/app/cron.d/x/../y") _
                  linked_fs_absolute ltac:(discriminate) H)).
Defined.

(** The upward walk always ends before its fuel: the path itself bounds it. *)
Lemma ResolveAndValidatePath_total fs p : ResolveAndValidatePath fs p <> Err LoopFuel.
Proof.
  unfold ResolveAndValidatePath. destruct (IsAbs p) eqn:Hp; [|by rewrite IsAbs_Clean_rel by done].
  rewrite IsAbs_Clean, Clean_abs by done. cbn [negb]. pose proof (comps_plain p Hp) as Hpl.
  assert (find_parent (S (length (path_of (comps p)))) fs (Dir (path_of (comps p))) [] <> Err LoopFuel)
    as Hfuel.
  { destruct (last_cases _ Hpl) as [->|(ds & w & E)]; [done|].
    rewrite E in *. rewrite Dir_path_of by done. pose proof (length_slashed _ Hpl) as Hl.
    apply list.Forall_app in Hpl as [Hd _]. apply find_parent_fuel; [done|].
    rewrite length_app in Hl. unfold path_of. simpl in *. lia. }
  destruct (find_parent _ _ _ _) as [[found tail]|]; simpl in *; [|congruence].
  destruct (EvalSymlinks fs _); [by destruct tail|done].
Qed.

End FsGuard.
