(* ===== verification/Remote.v ===== *)
(** * Remote sources: destinations and wiping ([src/sys/remote/paths.go],
    [wipe.go])

    The destination guard of a fetch, the allow list of a wipe with its
    process-local set of recorded destinations, and the wipe itself.  The file
    system is the [FileSystem] of the path guards plus [os.RemoveAll]. *)
From S2P Require Import Prelude Paths FsGuard.

Module Remote.
Import Paths FsGuard.

Inductive dest_error :=
| EmptyPath
| NotAbsolute (path : gostring)
| ResolvesToRoot (path : gostring)
| UnderProtected (path : gostring)
| Unresolvable (path : gostring) (e : resolve_error)
| ResolvesToProtected (path resolved : gostring)
| SymlinkToProtected (path target : gostring)
| NotRecorded (path : gostring)
| RemoveFailed (path : gostring) (e : io_error).

Definition wipeAllowedRoots : list gostring :=
  [str "/var/lib/power-manage/"; str "/etc/power-manage/"].

Definition isManagedRoot (clean : gostring) : bool :=
  existsb (fun root => has_prefix (clean ++ [SLASH]) (trim_suffix root [SLASH] ++ [SLASH]))
    wipeAllowedRoots.

Definition validateDestination (fs : FileSystem) (path : gostring) : result dest_error unit :=
  let trim := trim_space path in
  if bool_decide (trim = []) then Err EmptyPath
  else if negb (IsAbs trim) then Err (NotAbsolute path)
  else
    let clean := Clean trim in
    if bool_decide (clean = [SLASH]) then Err (ResolvesToRoot path)
    else if isManagedRoot clean then Ok tt
    else if IsUnderProtectedPrefix fs clean then Err (UnderProtected path)
    else match ResolveAndValidatePath fs trim with
         | Err e => Err (Unresolvable path e)
         | Ok resolved =>
             if IsUnderProtectedPrefix fs resolved then Err (ResolvesToProtected path resolved)
             else if LstatSymlink fs trim then
               match EvalSymlinks fs trim with
               | Ok target => if IsUnderProtectedPrefix fs target
                              then Err (SymlinkToProtected path target) else Ok tt
               | Err _ => Ok tt
               end
             else Ok tt
         end.

(** [recordedDests], the process-local set. *)
Definition Recorded : Type := gset gostring.

(** [errors.Is(err, os.ErrNotExist)] on what the resolver returns. *)
Definition is_not_exist (e : resolve_error) : bool :=
  match e with
  | CannotStat _ ErrNotExist | ResolveSymlinks _ ErrNotExist => true
  | _ => false
  end.

Definition canWipe (fs : FileSystem) (recordedDests : Recorded) (path : gostring)
    : result dest_error unit :=
  let trim := trim_space path in
  if bool_decide (trim = []) then Err EmptyPath
  else if negb (IsAbs trim) then Err (NotAbsolute path)
  else
    let clean := Clean trim in
    if bool_decide (clean = [SLASH]) then Err (ResolvesToRoot path)
    else if isManagedRoot clean then Ok tt
    else if IsUnderProtectedPrefix fs clean then Err (UnderProtected path)
    else if bool_decide (clean ∈ recordedDests) then Ok tt
    else match ResolveAndValidatePath fs trim with
         | Ok resolved =>
             if IsUnderProtectedPrefix fs resolved then Err (ResolvesToProtected path resolved)
             else if bool_decide (resolved ∈ recordedDests) then Ok tt
             else Err (NotRecorded path)
         | Err e => if negb (is_not_exist e) then Err (Unresolvable path e)
                    else Err (NotRecorded path)
         end.

Definition RecordDest (fs : FileSystem) (recordedDests : Recorded) (path : gostring) : Recorded :=
  let trim := trim_space path in
  if negb (IsAbs trim) then recordedDests
  else
    let rec' := {[ Clean trim ]} ∪ recordedDests in
    match ResolveAndValidatePath fs trim with
    | Ok resolved => {[ resolved ]} ∪ rec'
    | Err _ => rec'
    end.

Definition forgetDest (fs : FileSystem) (recordedDests : Recorded) (path : gostring) : Recorded :=
  let rec' := recordedDests ∖ {[ Clean (trim_space path) ]} in
  match ResolveAndValidatePath fs path with
  | Ok resolved => rec' ∖ {[ resolved ]}
  | Err _ => rec'
  end.

(** [wipeDest]: the argument given to [os.RemoveAll], if it was called, the
    recorded set afterwards and the result.  [after] is the file system once
    the tree is gone. *)
Definition wipeDest (fs after : FileSystem) (RemoveAll : gostring -> result io_error unit)
    (recordedDests : Recorded) (dest : gostring)
    : option gostring * Recorded * result dest_error unit :=
  match canWipe fs recordedDests dest with
  | Err e => (None, recordedDests, Err e)
  | Ok _ =>
      match RemoveAll dest with
      | Err ErrNotExist => (Some dest, recordedDests, Ok tt)
      | Err e => (Some dest, recordedDests, Err (RemoveFailed dest e))
      | Ok _ => (Some dest, forgetDest after recordedDests dest, Ok tt)
      end
  end.

(** ** Managed roots, on locations *)

Definition managed_location (cs : list gostring) : Prop :=
  [str "var"; str "lib"; str "power-manage"] `prefix_of` cs \/
  [str "etc"; str "power-manage"] `prefix_of` cs.

Lemma has_prefix_slash s r :
  has_prefix (s ++ [SLASH]) (r ++ [SLASH]) = true <-> s = r \/ has_prefix s (r ++ [SLASH]) = true.
Proof.
  rewrite !has_prefix_spec. split.
  - intros [t H]. destruct t as [|x t _] using rev_ind.
    + left. rewrite app_nil_r in H. by apply app_inj_tail in H as [-> _].
    + right. rewrite app_assoc in H. apply app_inj_tail in H as [-> _]. by exists t.
  - intros [->|[t ->]]; [exists []; by rewrite app_nil_r|]. exists (t ++ [SLASH]).
    by rewrite !app_assoc.
Qed.

Lemma plain_names ws :
  forallb (fun w => negb (bool_decide (w = [])) && negb (bool_decide (w = dot)) &&
                    negb (bool_decide (w = dotdot)) && negb (bool_decide (SLASH ∈ w))) ws = true ->
  Forall plain ws.
Proof.
  rewrite forallb_forall, list.Forall_forall. intros H w Hw%list_elem_of_In. specialize (H w Hw).
  go_bool. by split_and!.
Qed.

Lemma isManagedRoot_location cs :
  Forall plain cs -> isManagedRoot (path_of cs) = true <-> managed_location cs.
Proof.
  intros Hc. unfold isManagedRoot, wipeAllowedRoots, managed_location. cbn [existsb].
  rewrite orb_false_r, orb_true_iff.
  change (trim_suffix (str "/var/lib/power-manage/") [SLASH])
    with (path_of [str "var"; str "lib"; str "power-manage"]).
  change (trim_suffix (str "/etc/power-manage/") [SLASH])
    with (path_of [str "etc"; str "power-manage"]).
  rewrite !has_prefix_slash, !under_iff_prefix by (done || by apply plain_names). done.
Qed.

(** The location a guard checks. *)
Definition dest_location (path : gostring) : list gostring := comps (trim_space path).

Lemma clean_root t : IsAbs t = true -> Clean t = [SLASH] <-> comps t = [].
Proof.
  intros H. rewrite Clean_abs by done. change [SLASH] with (path_of []). split; [|by intros ->].
  intros E%path_of_inj; auto with go.
Qed.

Lemma guard_clean fs cwd t :
  Getwd fs = Some cwd -> IsAbs cwd = true -> IsAbs t = true ->
  IsUnderProtectedPrefix fs t = true <-> protected_location (comps t).
Proof.
  intros Hw Hc Ht. rewrite (guard_location fs cwd) by done. unfold location. by rewrite Ht.
Qed.

Lemma managed_clean t : IsAbs t = true -> isManagedRoot (Clean t) = true <-> managed_location (comps t).
Proof. intros H. rewrite Clean_abs by done. apply isManagedRoot_location. auto with go. Qed.

Lemma bool_false_iff (b : bool) (P : Prop) : (b = true <-> P) -> (b = false <-> ~ P).
Proof. destruct b; naive_solver. Qed.

(** ** The guards on a host with an absolute working directory *)

Section Host.
Context (fs : FileSystem) (cwd : gostring).
Hypothesis Hcwd : Getwd fs = Some cwd.
Hypothesis Habs : IsAbs cwd = true.
Hypothesis Hres : resolver_absolute fs.

(** Neither the resolved parent chain nor an existing symlink at the leaf
    leads into a protected tree. *)
Definition resolves_safely (t : gostring) : Prop :=
  exists r, ResolveAndValidatePath fs t = Ok r /\ ~ protected_location (comps r) /\
    (LstatSymlink fs t = true -> forall target, EvalSymlinks fs t = Ok target ->
     ~ protected_location (comps target)).

Lemma resolved_abs t r :
  comps t <> [] -> ResolveAndValidatePath fs t = Ok r -> IsAbs r = true.
Proof.
  intros Hne H. by destruct (resolve_spec fs t r Hres Hne H) as [_ (? & ? & ? & ? & _ & _ & _ & ? & _)].
Qed.

(** The common opening of both guards. *)
Lemma guard_head {A} path (k : result dest_error A) (a : A) :
  (if bool_decide (trim_space path = []) then Err EmptyPath
   else if negb (IsAbs (trim_space path)) then Err (NotAbsolute path)
   else if bool_decide (Clean (trim_space path) = [SLASH]) then Err (ResolvesToRoot path) else k) = Ok a
  <-> IsAbs (trim_space path) = true /\ dest_location path <> [] /\ k = Ok a.
Proof.
  unfold dest_location. destruct (IsAbs (trim_space path)) eqn:Ht; cbn [negb].
  - rewrite bool_decide_false by (by intros E; rewrite E in Ht).
    pose proof (clean_root _ Ht). case_bool_decide; naive_solver.
  - case_bool_decide; naive_solver.
Qed.

(** [validateDestination] accepts exactly the absolute destinations
    (surrounding white space ignored) below the root that are either inside an
    agent-owned managed root, or outside every protected system tree
    lexically, after resolving symlinks in the parent chain, and, when the leaf
    is an existing symlink, at its target; every other path is refused. *)
Theorem validateDestination_iff path :
  validateDestination fs path = Ok tt <->
  IsAbs (trim_space path) = true /\ dest_location path <> [] /\
  (managed_location (dest_location path) \/
   (~ protected_location (dest_location path) /\ resolves_safely (trim_space path))).
Proof.
  unfold validateDestination. rewrite guard_head.
  apply and_iff_under. intros Ht. apply and_iff_under. intros Hne.
  unfold dest_location in *. pose proof (managed_clean _ Ht) as Hm.
  pose proof (guard_clean fs cwd _ Hcwd Habs (IsAbs_Clean _ Ht)) as Hg. rewrite comps_Clean in Hg by done.
  destruct (isManagedRoot _); [naive_solver|].
  destruct (IsUnderProtectedPrefix fs (Clean _)); [naive_solver|].
  unfold resolves_safely.
  destruct (ResolveAndValidatePath fs (trim_space path)) as [r|] eqn:Hr; [|naive_solver].
  pose proof (guard_clean fs cwd r Hcwd Habs (resolved_abs _ _ Hne Hr)) as Hgr.
  destruct (IsUnderProtectedPrefix fs r); [naive_solver|].
  destruct (LstatSymlink fs _); [|naive_solver].
  destruct (EvalSymlinks fs (trim_space path)) as [t|] eqn:He; [|naive_solver].
  pose proof (guard_clean fs cwd t Hcwd Habs (Hres _ _ Ht He)) as Hgt.
  destruct (IsUnderProtectedPrefix fs t); naive_solver.
Qed.

(** The keys under which a destination is recorded and looked up. *)
Definition dest_key (fs' : FileSystem) (path key : gostring) : Prop :=
  key = Clean (trim_space path) \/ ResolveAndValidatePath fs' (trim_space path) = Ok key.

Lemma canWipe_ok rec path :
  canWipe fs rec path = Ok tt ->
  IsAbs (trim_space path) = true /\ dest_location path <> [] /\
  (managed_location (dest_location path) \/
   (~ protected_location (dest_location path) /\
    exists key, key ∈ rec /\ dest_key fs path key /\ ~ protected_location (comps key))).
Proof.
  unfold canWipe. rewrite guard_head. intros (Ht & Hne & Hk). split_and!; [done|done|].
  unfold dest_location in *. pose proof (managed_clean _ Ht) as Hm.
  pose proof (guard_clean fs cwd _ Hcwd Habs (IsAbs_Clean _ Ht)) as Hg. rewrite comps_Clean in Hg by done.
  destruct (isManagedRoot _); [naive_solver|].
  destruct (IsUnderProtectedPrefix fs (Clean _)); [done|]. right.
  split; [naive_solver|]. case_bool_decide as Hin.
  { eexists. split_and!; [done|by left|]. rewrite comps_Clean by done. naive_solver. }
  destruct (ResolveAndValidatePath fs (trim_space path)) as [r|e] eqn:Hr;
    [|by destruct (is_not_exist e)].
  pose proof (guard_clean fs cwd r Hcwd Habs (resolved_abs _ _ Hne Hr)) as Hgr.
  destruct (IsUnderProtectedPrefix fs r); [done|]. case_bool_decide; [|done].
  exists r. split_and!; [done|by right|naive_solver].
Qed.

End Host.

(** ** A whole process: fetches that record, wipes that forget *)

(** One use of the recorded set; the file system may differ at each use. *)
Inductive event :=
| Fetched (fs : FileSystem) (dest : gostring)
| Wiped (fs after : FileSystem) (RemoveAll : gostring -> result io_error unit) (dest : gostring).

Definition on_event (rec : Recorded) (e : event) : Recorded :=
  match e with
  | Fetched fs dest => RecordDest fs rec dest
  | Wiped fs after rm dest => (wipeDest fs after rm rec dest).1.2
  end.

(** The recorded set after a history that started empty. *)
Definition recorded_after (history : list event) : Recorded := fold_left on_event history ∅.

Lemma on_event_key rec e key :
  key ∈ on_event rec e ->
  key ∈ rec \/ exists fs dest, e = Fetched fs dest /\ dest_key fs dest key.
Proof.
  destruct e as [fs dest|fs after rm dest]; simpl.
  - unfold RecordDest, dest_key. destruct (IsAbs _); simpl; [|by left].
    destruct (ResolveAndValidatePath fs _) as [r|] eqn:Hr;
      rewrite ?elem_of_union, ?elem_of_singleton; naive_solver.
  - unfold wipeDest, forgetDest. destruct (canWipe _ _ _); [|by left].
    destruct (rm dest) as [|[|]]; simpl; [|by left|by left].
    destruct (ResolveAndValidatePath after dest); set_solver.
Qed.

Lemma recorded_key history key :
  key ∈ recorded_after history ->
  exists fs dest, Fetched fs dest ∈ history /\ dest_key fs dest key.
Proof.
  unfold recorded_after. induction history as [|e history IH] using rev_ind; [set_solver|].
  rewrite fold_left_app. simpl. intros [H|(fs & dest & -> & Hk)]%on_event_key.
  - destruct (IH H) as (fs & dest & ? & ?). exists fs, dest. set_solver.
  - exists fs, dest. set_solver.
Qed.

(** C8: after any history of fetches and wipes of a process, a wipe of a path
    without surrounding blanks calls [RemoveAll] only with that very path, which is
    absolute and, read component by component (symbolic links aside), lies strictly
    below the root and either inside a managed root, or outside every protected
    system tree and recorded by an earlier successful fetch under the same cleaned
    or resolved key; a refused wipe removes nothing and keeps the recorded set.
    (For a path with blanks around it see [wipeDest_untrimmed], for links
    [canWipe_skips_resolution].) *)
Theorem wipeDest_safe fs after rm cwd history dest :
  Getwd fs = Some cwd -> IsAbs cwd = true -> resolver_absolute fs -> trim_space dest = dest ->
  match wipeDest fs after rm (recorded_after history) dest with
  | (Some removed, _, _) =>
      removed = dest /\ IsAbs removed = true /\ comps removed <> [] /\
      (managed_location (comps removed) \/
       (~ protected_location (comps removed) /\
        exists fs' dest' key, Fetched fs' dest' ∈ history /\
          dest_key fs' dest' key /\ dest_key fs removed key /\ ~ protected_location (comps key)))
  | (None, rec, res) => rec = recorded_after history /\ exists e, res = Err e
  end.
Proof.
  intros Hcwd Habs Hres Htrim. unfold wipeDest.
  destruct (canWipe fs _ dest) as [[]|e] eqn:Hcan; [|naive_solver].
  destruct (canWipe_ok fs cwd Hcwd Habs Hres _ _ Hcan) as (Ht & Hne & Hor).
  unfold dest_location in *. rewrite Htrim in *.
  destruct (rm dest) as [|[|]]; (split_and!; [done|done|done|]);
    (destruct Hor as [?|(Hp & key & (fs' & dest' & ? & ?)%recorded_key & ? & ?)]; [by left|right]);
    (split; [done|]); exists fs', dest', key; done.
Qed.

Definition fetched_srv : list event := [Fetched bare_fs (str "/srv/www/site")].

Lemma wipeDest_safe_witness :
  (wipeDest bare_fs bare_fs (fun _ => Ok tt) (recorded_after fetched_srv) (str "/srv/www/site")).1.1
    = Some (str "/srv/www/site") /\ comps (str "/srv/www/site") <> [].
Proof.
  split; [by_eval|].
  assert (resolver_absolute bare_fs) as Hres by (intros p q Hp; simpl; intros [= <-]; exact Hp).
  pose proof (wipeDest_safe bare_fs bare_fs (fun _ => Ok tt) (str "/root") fetched_srv
                (str "/srv/www/site") eq_refl eq_refl Hres eq_refl) as H.
  destruct (wipeDest _ _ _ _ _) as [[[removed|] rec] res] eqn:E; [destruct H as (<- & _ & H & _); exact H|].
  exfalso. destruct H as [_ [e He]].
  assert (wipeDest bare_fs bare_fs (fun _ => Ok tt) (recorded_after fetched_srv) (str "/srv/www/site")
          = (None, rec, res)) as E' by exact E.
  assert ((wipeDest bare_fs bare_fs (fun _ => Ok tt) (recorded_after fetched_srv)
            (str "/srv/www/site")).1.1 = Some (str "/srv/www/site")) as E'' by by_eval.
  rewrite E' in E''. discriminate.
Defined.

Lemma validateDestination_iff_witness :
  validateDestination bare_fs (str " /srv/x ") = Ok tt /\
  IsAbs (trim_space (str " /srv/x ")) = true.
Proof.
  assert (resolver_absolute bare_fs) as Hres by (intros p q Hp; simpl; intros [= <-]; exact Hp).
  assert (validateDestination bare_fs (str " /srv/x ") = Ok tt) as H by by_eval.
  split; [exact H|].
  exact (proj1 (proj1 (validateDestination_iff bare_fs (str "/root") eq_refl eq_refl Hres
                         (str " /srv/x ")) H)).
Defined.

(** ** What the wipe guard does not check *)

(** A recorded cleaned path is accepted before any symlink resolution: once
    fetched, /srv/app/cron.d stays wipeable when /srv/app has become a symlink
    to /etc. *)
Lemma canWipe_skips_resolution :
  let rec := recorded_after [Fetched bare_fs (str "/srv/app/cron.d")] in
  canWipe linked_fs rec (str "/srv/app/cron.d") = Ok tt /\
  ResolveAndValidatePath linked_fs (str "/srv/app/cron.d") = Ok (str "/etc/cron.d") /\
  IsUnderProtectedPrefix linked_fs (str "/etc/cron.d") = true.
Proof. split_and!; by_eval. Qed.

(** The guard looks at the trimmed path, [RemoveAll] gets the raw one: here a
    relative path that no check has seen. *)
Lemma wipeDest_untrimmed :
  let dest := str " /etc/power-manage/x" in
  (wipeDest bare_fs bare_fs (fun _ => Ok tt) ∅ dest).1.1 = Some dest /\ IsAbs dest = false.
Proof. split; by_eval. Qed.

End Remote.
