(* ===== verification/RemoteTree.v ===== *)
(** * Remote sources: tree digest and pruning ([src/sys/remote/digest.go],
    [prune.go])

    [sha256Tree]: the canonical byte stream of a file tree and its digest, with
    the hash function a parameter.  [pruneTo]: the collect-then-act removal of
    the files outside a keep set and of the directories left empty, on the
    entries [filepath.WalkDir] reports below the destination. *)
From stdpp Require Import sorting.
From S2P Require Import Prelude Paths FsGuard Remote.

Module RemoteTree.
Import Paths FsGuard Remote.

(** ** The canonical stream of a tree ([digest.go]) *)

(** A regular file of the walk; [size] is what the stat said. *)
Record entry := MkEntry { rel : gostring; mode : Z; size : Z; body : gostring }.

(** [binary.BigEndian.AppendUint32]/[AppendUint64]: [k] bytes, most significant
    first, of the value modulo 256^k. *)
Fixpoint big_endian (k : nat) (n : Z) : gostring :=
  match k with
  | 0 => []
  | S k' => big_endian k' (n / 256) ++ [ascii_of_N (Z.to_N (n mod 256))]
  end.

Definition encode_entry (e : entry) : gostring :=
  big_endian 4 (Z.of_nat (length (rel e))) ++ rel e ++
  big_endian 4 (mode e) ++ big_endian 8 (size e) ++
  (if (0 <? size e)%Z then body e else []).

(** [strings.Compare(a, b) <= 0]. *)
Fixpoint str_le (a b : gostring) : bool :=
  match a, b with
  | [], _ => true
  | _ :: _, [] => false
  | x :: a', y :: b' =>
      (byte_val x <? byte_val y)%N || (bool_decide (x = y) && str_le a' b')
  end.
Definition entry_le (x y : entry) : Prop := str_le (rel x) (rel y) = true.
#[global] Instance entry_le_dec x y : Decision (entry_le x y).
Proof. unfold entry_le. apply _. Defined.

(** What is written to the hash. *)
Definition canonical (files : list entry) : gostring :=
  concat (encode_entry <$> merge_sort entry_le files).

(** [hex.EncodeToString]. *)
Definition hex_digit (n : N) : ascii :=
  if (n <? 10)%N then ascii_of_N (48 + n) else ascii_of_N (87 + n).
Definition hex_byte (c : ascii) : gostring :=
  [hex_digit (byte_val c / 16); hex_digit (byte_val c mod 16)].
Definition hex (s : gostring) : gostring := concat (hex_byte <$> s).

Definition sha256Tree (sha256 : gostring -> gostring) (files : list entry) : gostring :=
  hex (sha256 (canonical files)).

(** ** Pruning ([prune.go]) *)

(** An entry below the destination: its components and whether it is a
    directory. *)
Record node := MkNode { n_path : list gostring; n_dir : bool }.
#[global] Instance node_eq_dec : EqDecision node.
Proof. solve_decision. Defined.

(** The path the walk reports. *)
Definition walk_path (dest : gostring) (n : node) : gostring :=
  Clean dest ++ SLASH :: slashed (n_path n).

Definition victim (keep : gset gostring) (n : node) : bool :=
  negb (n_dir n) && negb (bool_decide (slashed (n_path n) ∈ keep)).

(** [os.Remove] on the tree: refused when the entry has children, otherwise the
    entry is gone.  [fault] is any other error of the host. *)
Inductive rm_error := NotEmpty | RmFault (msg : gostring).

Definition has_child (tree : list node) (n : node) : bool :=
  existsb (fun m => bool_decide (removelast (n_path m) = n_path n)
                    && bool_decide (n_path m <> [])) tree.

Definition os_Remove (fault : node -> option gostring) (tree : list node) (n : node)
    : result rm_error (list node) :=
  match fault n with
  | Some msg => Err (RmFault msg)
  | None => if n_dir n && has_child tree n then Err NotEmpty
            else Ok (filter (fun m => m <> n) tree)
  end.

Inductive prune_error :=
| PruneRefused (e : dest_error)
| PruneStat (e : io_error)
| PruneWalk (msg : gostring)
| PruneRemove (path : gostring) (msg : gostring).

Fixpoint remove_files (fault : node -> option gostring) (dest : gostring) (tree : list node)
    (victims : list node) : list node * option prune_error :=
  match victims with
  | [] => (tree, None)
  | v :: rest =>
      match os_Remove fault tree v with
      | Ok tree' => remove_files fault dest tree' rest
      | Err (RmFault msg) => (tree, Some (PruneRemove (walk_path dest v) msg))
      | Err NotEmpty => (tree, Some (PruneRemove (walk_path dest v) (str "directory not empty")))
      end
  end.

Fixpoint remove_dirs (fault : node -> option gostring) (dest : gostring) (tree : list node)
    (dirs : list node) : list node * option prune_error :=
  match dirs with
  | [] => (tree, None)
  | d :: rest =>
      match os_Remove fault tree d with
      | Ok tree' => remove_dirs fault dest tree' rest
      | Err NotEmpty => remove_dirs fault dest tree rest
      | Err (RmFault msg) => (tree, Some (PruneRemove (walk_path dest d) msg))
      end
  end.

(** Longest path first. *)
Definition longer (dest : gostring) (x y : node) : Prop :=
  length (walk_path dest y) <= length (walk_path dest x).
#[global] Instance longer_dec dest x y : Decision (longer dest x y).
Proof. unfold longer. apply _. Defined.

Definition prune_tree (fault : node -> option gostring) (dest : gostring) (keep : gset gostring)
    (tree : list node) : list node * option prune_error :=
  let victims := List.filter (victim keep) tree in
  let dirs := List.filter n_dir tree in
  match remove_files fault dest tree victims with
  | (tree', Some e) => (tree', Some e)
  | (tree', None) => remove_dirs fault dest tree' (merge_sort (longer dest) dirs)
  end.

(** [pruneTo]: the tree below [dest] afterwards and the error. *)
Definition pruneTo (fs : FileSystem) (recordedDests : Recorded) (walkErr : option gostring)
    (fault : node -> option gostring) (dest : gostring) (keep : gset gostring) (tree : list node)
    : list node * option prune_error :=
  match canWipe fs recordedDests dest with
  | Err e => (tree, Some (PruneRefused e))
  | Ok _ =>
      match Stat fs dest with
      | Err ErrNotExist => (tree, None)
      | Err e => (tree, Some (PruneStat e))
      | Ok _ =>
          match walkErr with
          | Some msg => (tree, Some (PruneWalk msg))
          | None => prune_tree fault dest keep tree
          end
      end
  end.

(** ** The stream determines the tree *)

Lemma length_big_endian k n : length (big_endian k n) = k.
Proof. revert n; induction k as [|k IH]; intros n; simpl; [done|]. rewrite length_app, IH. simpl. lia. Qed.

Lemma byte_inj a b : (a < 256)%N -> (b < 256)%N -> ascii_of_N a = ascii_of_N b -> a = b.
Proof. intros Ha Hb H%(f_equal N_of_ascii). by rewrite !N_ascii_embedding in H. Qed.

Lemma big_endian_inj k m n :
  (0 <= m < 256 ^ Z.of_nat k)%Z -> (0 <= n < 256 ^ Z.of_nat k)%Z ->
  big_endian k m = big_endian k n -> m = n.
Proof.
  revert m n; induction k as [|k IH]; intros m n Hm Hn H; [simpl in *; lia|].
  rewrite Nat2Z.inj_succ, Z.pow_succ_r in Hm, Hn by lia. simpl in H.
  apply app_inj_tail in H as [Hd Hb].
  pose proof (Z.mod_pos_bound m 256 ltac:(lia)). pose proof (Z.mod_pos_bound n 256 ltac:(lia)).
  apply byte_inj in Hb; [|lia|lia]. apply Z2N.inj in Hb; [|lia|lia].
  apply IH in Hd; try (split; [apply Z.div_pos; lia|apply Z.div_lt_upper_bound; lia]).
  rewrite (Z.div_mod m 256), (Z.div_mod n 256) by lia. congruence.
Qed.

(** The files a walk can report: the size is the body's and every field fits
    its width. *)
Definition entry_ok (e : entry) : Prop :=
  (Z.of_nat (length (rel e)) < 2 ^ 32)%Z /\ (0 <= mode e < 2 ^ 32)%Z /\
  size e = Z.of_nat (length (body e)) /\ (size e < 2 ^ 64)%Z.

Lemma encode_entry_body e : entry_ok e -> (if (0 <? size e)%Z then body e else []) = body e.
Proof.
  intros (_ & _ & Hs & _). rewrite Hs. destruct (0 <? _)%Z eqn:E; [done|]. go_bool.
  destruct (body e); [done|]. simpl in E. lia.
Qed.

Lemma app_inj_fixed {A} (a b s t : list A) : length a = length b -> a ++ s = b ++ t -> a = b /\ s = t.
Proof. intros Hl H. by apply app_inj_1. Qed.

(** An encoding is a prefix code: what follows it does not matter. *)
Lemma encode_entry_prefix_free e f s t :
  entry_ok e -> entry_ok f -> encode_entry e ++ s = encode_entry f ++ t -> e = f /\ s = t.
Proof.
  intros He Hf. unfold encode_entry. rewrite !encode_entry_body by done.
  destruct He as (Hr & Hm & Hs & Hz), Hf as (Hr' & Hm' & Hs' & Hz'). rewrite <-!app_assoc.
  intros [H1 H]%app_inj_fixed; [|by rewrite !length_big_endian].
  apply big_endian_inj in H1; [|lia|lia].
  apply app_inj_fixed in H as [H2 H]; [|lia].
  apply app_inj_fixed in H as [H3 H]; [|by rewrite !length_big_endian].
  apply big_endian_inj in H3; [|lia|lia].
  apply app_inj_fixed in H as [H4 H]; [|by rewrite !length_big_endian].
  apply big_endian_inj in H4; [|lia|lia].
  apply app_inj_fixed in H as [H5 H]; [|lia].
  destruct e, f; simpl in *. by subst.
Qed.

Lemma encode_nonempty e s : encode_entry e ++ s <> [].
Proof. intros H%(f_equal length). unfold encode_entry in H. rewrite !length_app, length_big_endian in H. simpl in H. lia. Qed.

Lemma encode_all_inj l1 l2 :
  Forall entry_ok l1 -> Forall entry_ok l2 ->
  concat (encode_entry <$> l1) = concat (encode_entry <$> l2) -> l1 = l2.
Proof.
  intros H1; revert l2; induction H1 as [|e l1 He H1 IH]; intros l2 H2 H;
    destruct H2 as [|f l2 Hf H2]; simpl in H; [done| | |].
  - symmetry in H. by apply encode_nonempty in H.
  - by apply encode_nonempty in H.
  - apply encode_entry_prefix_free in H as [-> H]; [|done|done]. f_equal. by apply IH.
Qed.

(** *** The order of the names *)

Lemma byte_val_inj a b : byte_val a = byte_val b -> a = b.
Proof. intros H%(f_equal ascii_of_N). unfold byte_val in H. by rewrite !ascii_N_embedding in H. Qed.

Lemma str_le_cons x a y b :
  str_le (x :: a) (y :: b) = true <->
  (byte_val x < byte_val y)%N \/ (x = y /\ str_le a b = true).
Proof.
  simpl. rewrite orb_true_iff, N.ltb_lt, andb_true_iff, bool_decide_eq_true. done.
Qed.

Lemma str_le_total a b : str_le a b = true \/ str_le b a = true.
Proof.
  revert b; induction a as [|x a IH]; intros [|y b]; [by left|by left|by right|].
  rewrite !str_le_cons. destruct (N.lt_trichotomy (byte_val x) (byte_val y)) as [?|[E|?]]; [auto| |auto].
  apply byte_val_inj in E. destruct (IH b); auto.
Qed.

Lemma str_le_trans a b c : str_le a b = true -> str_le b c = true -> str_le a c = true.
Proof.
  revert b c; induction a as [|x a IH]; intros [|y b] [|z c]; try done.
  rewrite !str_le_cons. intros [?|[-> ?]] [?|[-> ?]]; [left; lia|by left|by left|right; eauto].
Qed.

Lemma str_le_antisym a b : str_le a b = true -> str_le b a = true -> a = b.
Proof.
  revert b; induction a as [|x a IH]; intros [|y b]; try done.
  rewrite !str_le_cons. intros [?|[-> ?]] [?|[? ?]]; [lia|subst; lia|lia|f_equal; auto].
Qed.

#[global] Instance entry_le_total : Total entry_le.
Proof. intros x y. apply str_le_total. Qed.
#[global] Instance entry_le_trans : Transitive entry_le.
Proof. intros x y z. apply str_le_trans. Qed.

Lemma rel_unique l x y : NoDup (rel <$> l) -> x ∈ l -> y ∈ l -> rel x = rel y -> x = y.
Proof.
  intros Hnd Hx Hy Hr. induction l as [|z l IH]; [by apply not_elem_of_nil in Hx|].
  rewrite fmap_cons in Hnd. apply list.NoDup_cons in Hnd as [Hz Hnd].
  apply elem_of_cons in Hx as [->|Hx], Hy as [->|Hy]; [done| | |auto].
  - destruct Hz. rewrite Hr. by apply list_elem_of_fmap_2.
  - destruct Hz. rewrite <-Hr. by apply list_elem_of_fmap_2.
Qed.

(** The order in which the walk reports the files does not matter. *)
Lemma canonical_perm l1 l2 : NoDup (rel <$> l1) -> l1 ≡ₚ l2 -> canonical l1 = canonical l2.
Proof.
  intros Hnd Hp. unfold canonical. f_equal. f_equal.
  apply (StronglySorted_unique_strong entry_le).
  - intros x y Hx Hy Hxy Hyx. rewrite merge_sort_Permutation in Hx, Hy. rewrite <-Hp in Hy.
    by eapply rel_unique, str_le_antisym.
  - apply (StronglySorted_merge_sort _).
  - apply (StronglySorted_merge_sort _).
  - by rewrite !merge_sort_Permutation.
Qed.

Lemma canonical_inj l1 l2 :
  Forall entry_ok l1 -> Forall entry_ok l2 -> canonical l1 = canonical l2 -> l1 ≡ₚ l2.
Proof.
  intros H1 H2 H. rewrite <-(merge_sort_Permutation entry_le l1), <-(merge_sort_Permutation entry_le l2).
  apply encode_all_inj in H; [by rewrite H| |]; by rewrite merge_sort_Permutation.
Qed.

Lemma hex_digit_inj m n : (m < 16)%N -> (n < 16)%N -> hex_digit m = hex_digit n -> m = n.
Proof.
  unfold hex_digit. intros Hm Hn. destruct (m <? 10)%N eqn:E1, (n <? 10)%N eqn:E2;
    rewrite ?N.ltb_lt, ?N.ltb_ge in *; intros H; apply byte_inj in H; lia.
Qed.

Lemma hex_inj s t : hex s = hex t -> s = t.
Proof.
  unfold hex. revert t; induction s as [|c s IH]; intros [|d t]; [done|done|done|].
  rewrite !fmap_cons. unfold hex_byte at 1 3. simpl. intros [= H1 H2 H]. f_equal; [|by apply IH].
  pose proof (byte_val_lt c). pose proof (byte_val_lt d).
  apply hex_digit_inj in H1; [|apply N.Div0.div_lt_upper_bound; lia|apply N.Div0.div_lt_upper_bound; lia].
  apply hex_digit_inj in H2; [|apply N.mod_lt; lia|apply N.mod_lt; lia].
  apply byte_val_inj. rewrite (N.div_mod (byte_val c) 16), (N.div_mod (byte_val d) 16) by lia. congruence.
Qed.

(** the tree digest is a drift token: two walks that report the same
    files (names, permission bits, contents), in whatever order, get the same
    token, and two walks that differ in any of them get different tokens unless
    they exhibit a collision of the hash function itself. *)
Theorem sha256Tree_drift sha256 l1 l2 :
  Forall entry_ok l1 -> Forall entry_ok l2 -> NoDup (rel <$> l1) ->
  (l1 ≡ₚ l2 -> sha256Tree sha256 l1 = sha256Tree sha256 l2) /\
  (sha256Tree sha256 l1 = sha256Tree sha256 l2 ->
   l1 ≡ₚ l2 \/ (canonical l1 <> canonical l2 /\ sha256 (canonical l1) = sha256 (canonical l2))).
Proof.
  intros H1 H2 Hnd. unfold sha256Tree. split.
  - intros Hp. by rewrite (canonical_perm l1 l2).
  - intros H%hex_inj. destruct (decide (canonical l1 = canonical l2)) as [E|E]; [|by right].
    left. by apply canonical_inj.
Qed.

Lemma sha256Tree_drift_witness :
  let a := MkEntry (str "a") 420 1 (str "x") in
  let b := MkEntry (str "bin/run") 493 0 [] in
  sha256Tree id [a; b] = sha256Tree id [b; a].
Proof.
  intros a b.
  assert (entry_ok a) as Ha by (unfold entry_ok; simpl; lia).
  assert (entry_ok b) as Hb by (unfold entry_ok; simpl; lia).
  apply (sha256Tree_drift id [a; b] [b; a]).
  - apply list.Forall_cons; split; [exact Ha|]. apply list.Forall_cons; split; [exact Hb|constructor].
  - apply list.Forall_cons; split; [exact Hb|]. apply list.Forall_cons; split; [exact Ha|constructor].
  - apply (bool_decide_unpack _). vm_compute. exact I.
  - apply Permutation_swap.
Defined.

(** ** Pruning leaves exactly the kept files and their directories *)

Definition below (d f : list gostring) : Prop := exists x e, f = d ++ x :: e.

(** The entries of a directory tree below the destination. *)
Record tree_wf (tree : list node) : Prop := {
  wf_nodup : NoDup tree;
  wf_names : forall n, n ∈ tree -> n_path n <> [] /\ Forall plain (n_path n);
  wf_parents : forall n p, n ∈ tree -> p <> [] -> below p (n_path n) -> MkNode p true ∈ tree
}.

Definition survives (keep : gset gostring) (tree : list node) (n : node) : Prop :=
  if n_dir n then
    exists f, f ∈ tree /\ n_dir f = false /\ slashed (n_path f) ∈ keep /\ below (n_path n) (n_path f)
  else slashed (n_path n) ∈ keep.

Definition no_fault : node -> option gostring := fun _ => None.

Lemma remove_files_ok dest tree victims :
  Forall (fun v => n_dir v = false) victims ->
  exists tree', remove_files no_fault dest tree victims = (tree', None) /\
    forall n, n ∈ tree' <-> n ∈ tree /\ n ∉ victims.
Proof.
  intros Hv. revert tree. induction Hv as [|v victims Hv _ IH]; intros tree.
  - exists tree. split; [done|]. set_solver.
  - simpl. unfold os_Remove. simpl. rewrite Hv. simpl.
    destruct (IH (filter (fun m => m <> v) tree)) as (tree' & -> & H). exists tree'. split; [done|].
    intros n. rewrite H, list_elem_of_filter. set_solver.
Qed.

Lemma has_child_spec tree d :
  has_child tree d = true <-> exists m x, m ∈ tree /\ n_path m = n_path d ++ [x].
Proof.
  unfold has_child. rewrite existsb_exists. split.
  - intros (m & Hm%list_elem_of_In & Hb). go_bool. exists m.
    destruct (n_path m) as [|x l _] using rev_ind; [done|]. rewrite removelast_last in H. subst. eauto.
  - intros (m & x & Hm & E). exists m. split; [by apply list_elem_of_In|].
    rewrite E, removelast_last, !bool_decide_true; [done|by destruct (n_path d)|done].
Qed.

Lemma slashed_below_longer d x e :
  d <> [] -> length (slashed d) < length (slashed (d ++ x :: e)).
Proof.
  intros Hd. unfold slashed. rewrite join_app by done. rewrite !length_app. simpl. lia.
Qed.

Lemma below_longer dest m d :
  n_path d <> [] -> below (n_path d) (n_path m) ->
  length (walk_path dest d) < length (walk_path dest m).
Proof.
  intros Hd (x & e & E). unfold walk_path. rewrite !length_app, E. simpl.
  pose proof (slashed_below_longer (n_path d) x e Hd). lia.
Qed.

(** The directory pass: [R] is what is left to visit, longest first. *)
Definition dir_inv (keep : gset gostring) (tree T R : list node) : Prop :=
  forall n, n ∈ T <-> n ∈ tree /\ (n ∈ R \/ survives keep tree n).

Lemma dir_inv_child keep dest tree T d R :
  tree_wf tree -> d ∈ tree -> n_dir d = true ->
  Forall (fun m => longer dest d m) R -> dir_inv keep tree T (d :: R) ->
  has_child T d = true <-> survives keep tree d.
Proof.
  intros Hwf Hd Hdir Hlong Hinv. rewrite has_child_spec. unfold survives. rewrite Hdir.
  destruct (wf_names _ Hwf d Hd) as [Hne _]. rewrite list.Forall_forall in Hlong. split.
  - intros (m & x & Hm & E). apply Hinv in Hm as [Hmt Hm].
    assert (below (n_path d) (n_path m)) as Hb by (exists x, []; done).
    pose proof (below_longer dest m d Hne Hb) as Hl.
    destruct Hm as [[->|Hm]%elem_of_cons|Hs]; [lia|specialize (Hlong m Hm); unfold longer in *; lia|].
    unfold survives in Hs. destruct (n_dir m) eqn:Hmd; [|eauto 6].
    destruct Hs as (f & Hf & Hfd & Hk & (y & e & Ef)). exists f. split_and!; [done|done|done|].
    exists x, (y :: e). by rewrite Ef, E, <-app_assoc.
  - intros (f & Hf & Hfd & Hk & (x & e & Ef)). destruct e as [|y e].
    + exists f, x. split; [|done]. apply Hinv. split; [done|right]. unfold survives. by rewrite Hfd.
    + exists (MkNode (n_path d ++ [x]) true), x. split; [|done]. apply Hinv.
      assert (below (n_path d ++ [x]) (n_path f)) as Hb
        by (exists y, e; rewrite Ef, <-app_assoc; done).
      split; [eapply (wf_parents _ Hwf f); [done|by destruct (n_path d)|done]|].
      right. unfold survives. simpl. by exists f.
Qed.

Lemma remove_dirs_ok keep dest tree T R :
  tree_wf tree -> (forall d, d ∈ R -> d ∈ tree /\ n_dir d = true) -> NoDup R ->
  StronglySorted (longer dest) R -> dir_inv keep tree T R ->
  exists T', remove_dirs no_fault dest T R = (T', None) /\ dir_inv keep tree T' [].
Proof.
  intros Hwf. revert T; induction R as [|d R IH]; intros T HR Hnd Hs Hinv; simpl; [eauto|].
  apply StronglySorted_inv in Hs as [Hs Hlong]. apply list.NoDup_cons in Hnd as [HdR Hnd].
  destruct (HR d) as [Hd Hdir]; [by left|].
  pose proof (dir_inv_child keep dest tree T d R Hwf Hd Hdir Hlong Hinv) as Hch.
  unfold os_Remove. simpl. rewrite Hdir. simpl.
  destruct (has_child T d) eqn:Hc.
  - apply IH; try done; [intros e He; apply HR; by right|].
    intros n. rewrite (Hinv n), elem_of_cons. naive_solver.
  - apply IH; try done; [intros e He; apply HR; by right|].
    intros n. rewrite list_elem_of_filter, (Hinv n), elem_of_cons.
    assert (~ survives keep tree d) by (rewrite <-Hch; done).
    destruct (decide (n = d)) as [->|]; naive_solver.
Qed.

#[global] Instance longer_trans dest : Transitive (longer dest).
Proof. intros x y z. unfold longer. lia. Qed.
#[global] Instance longer_total dest : Total (longer dest).
Proof. intros x y. unfold longer. lia. Qed.

Lemma prune_tree_ok dest keep tree :
  tree_wf tree ->
  exists tree', prune_tree no_fault dest keep tree = (tree', None) /\
    forall n, n ∈ tree' <-> n ∈ tree /\ survives keep tree n.
Proof.
  intros Hwf. unfold prune_tree.
  destruct (remove_files_ok dest tree (List.filter (victim keep) tree)) as (T & -> & HT).
  { apply list.Forall_forall. intros v [_ Hv]%elem_of_List_filter. unfold victim in Hv. go_bool. done. }
  destruct (remove_dirs_ok keep dest tree T (merge_sort (longer dest) (List.filter n_dir tree)))
    as (T' & -> & HT'); try done.
  - intros d. rewrite merge_sort_Permutation. apply elem_of_List_filter.
  - rewrite merge_sort_Permutation. apply NoDup_List_filter. apply Hwf.
  - apply (StronglySorted_merge_sort _).
  - intros n. rewrite HT, merge_sort_Permutation, !elem_of_List_filter. unfold victim, survives.
    destruct (n_dir n) eqn:Hd; simpl; [naive_solver|].
    case_bool_decide; simpl; naive_solver.
  - exists T'. split; [done|]. intros n. rewrite (HT' n). set_solver.
Qed.

(** pruning an allowed, existing destination succeeds when the host lets
    every removal through, and afterwards the tree holds exactly the files whose
    relative path is in the keep set and the directories that still contain one
    of them at some depth; nothing else is left and nothing kept is lost. *)
Theorem pruneTo_mirror fs rec dest keep tree :
  canWipe fs rec dest = Ok tt -> Stat fs dest = Ok tt -> tree_wf tree ->
  exists tree', pruneTo fs rec None no_fault dest keep tree = (tree', None) /\
    forall n, n ∈ tree' <-> n ∈ tree /\ survives keep tree n.
Proof.
  intros Hc Hs Hwf. unfold pruneTo. rewrite Hc, Hs. by apply prune_tree_ok.
Qed.

(** A host where the destination exists. *)
Definition site_fs : FileSystem :=
  MkFileSystem (Some (str "/root")) (fun _ => Ok tt) (fun _ => false) Ok.
Definition site_dest : gostring := str "/var/lib/power-manage/site".
(** [old/x] and the empty directory chain above it go, [css/a] stays. *)
Definition site_tree : list node :=
  [MkNode [str "css"] true; MkNode [str "css"; str "a"] false;
   MkNode [str "old"] true; MkNode [str "old"; str "x"] false].

Lemma below_pair p n : p <> [] -> length (n_path n) <= 2 -> below p (n_path n) -> p = take 1 (n_path n).
Proof.
  intros Hp Hl (x & e & E). rewrite E in *. rewrite length_app in Hl. simpl in Hl.
  destruct p as [|a [|b p]]; simpl in *; [done|done|lia].
Qed.

Lemma site_tree_wf : tree_wf site_tree.
Proof.
  assert (forall n, n ∈ site_tree -> n_path n <> [] /\ Forall plain (n_path n) /\
            length (n_path n) <= 2 /\ MkNode (take 1 (n_path n)) true ∈ site_tree) as H.
  { apply list.Forall_forall.
    repeat (apply list.Forall_cons; split); [..|constructor];
      (split_and!; [discriminate|by apply plain_names|simpl; lia|by apply (bool_decide_unpack _)]). }
  constructor.
  - by apply (bool_decide_unpack _).
  - intros n Hn. destruct (H n Hn) as (? & ? & _). done.
  - intros n p Hn Hp Hb. destruct (H n Hn) as (_ & _ & Hl & Hin).
    by rewrite (below_pair p n Hp Hl Hb).
Qed.

Lemma pruneTo_mirror_witness :
  exists tree', pruneTo site_fs ∅ None no_fault site_dest {[ str "css/a" ]} site_tree = (tree', None) /\
    MkNode [str "css"] true ∈ tree'.
Proof.
  destruct (pruneTo_mirror site_fs ∅ site_dest {[ str "css/a" ]} site_tree) as (tree' & H & Hn);
    [vm_compute; reflexivity|reflexivity|exact site_tree_wf|].
  exists tree'. split; [exact H|]. apply Hn. split; [apply (bool_decide_unpack _); vm_compute; exact I|].
  exists (MkNode [str "css"; str "a"] false).
  split; [apply (bool_decide_unpack _); vm_compute; exact I|].
  split; [reflexivity|]. split; [apply (bool_decide_unpack _); vm_compute; exact I|].
  exists (str "a"), []. reflexivity.
Defined.

(** A refused destination is not touched. *)
Lemma pruneTo_refused fs rec walkErr fault dest keep tree e :
  canWipe fs rec dest = Err e ->
  pruneTo fs rec walkErr fault dest keep tree = (tree, Some (PruneRefused e)).
Proof. intros H. unfold pruneTo. by rewrite H. Qed.

End RemoteTree.
