(* ===== verification/Log.v ===== *)
(** * System log reader ([src/sys/log])

    The structural guard on grep patterns ([grepguard.go]), the query
    validation ([log.go]) and the two backends ([journald.go], [syslog.go],
    [detect.go]).  The command runner, the regular-expression engine of the
    syslog backend and the presence of the log files are parameters. *)
From S2P Require Import Prelude Exec.

Module Log.
Import Exec.

(** ** The pattern guard ([grepguard.go]) *)

(** The bytes between the braces of a token that starts the string: [j > 0]
    always holds for a closing brace after the opening one. *)
Definition brace_body (p : gostring) : option gostring :=
  match p with
  | c :: rest => if bool_decide (c = "{"%char) then
                   match index_byte rest "}"%char with
                   | Some j => Some (take j rest)
                   | None => None
                   end
                 else None
  | [] => None
  end.

Definition quantifierUnbounded (p : gostring) : bool :=
  match brace_body p with
  | None => false
  | Some body =>
      match cut body ","%char with
      | None => false
      | Some (_, after) => bool_decide (after = [])
      end
  end.

Definition boundedRepeatBounds (p : gostring) : option (Z * Z) :=
  match brace_body p with
  | None => None
  | Some body =>
      if has_suffix body (str ",") then None
      else match cut body ","%char with
           | None => n ← atoi (trim_space body); Some (n, n)
           | Some (lo, hi) =>
               n ← atoi (trim_space lo); m ← atoi (trim_space hi); Some (n, m)
           end
  end.

(** The first loop.  [skip] is how far the index has been advanced beyond the
    current byte. *)
Fixpoint count_unbounded (s : gostring) (skip : nat) : nat :=
  match s with
  | [] => 0
  | c :: t =>
      match skip with
      | S k => count_unbounded t k
      | 0 =>
          if bool_decide (c = "\"%char) && negb (bool_decide (t = [])) then count_unbounded t 1
          else if bool_decide (c ∈ ["*"%char; "+"%char]) then S (count_unbounded t 0)
          else if bool_decide (c = "{"%char) && quantifierUnbounded s
               then S (count_unbounded t 0)
          else count_unbounded t 0
      end
  end.

(** [groupState]; the start index is never read. *)
Record groupState := MkGroup { hasAlt : bool; hasInnerQuant : bool }.

(** [stack[len(stack)-1].hasAlt = true] and the like, when there is a group. *)
Definition mark (alt quant : bool) (stack : list groupState) : list groupState :=
  match stack with
  | [] => []
  | g :: rest => MkGroup (alt || hasAlt g) (quant || hasInnerQuant g) :: rest
  end.

Definition is_unbounded_start (s : gostring) : bool :=
  match s with
  | c :: _ => bool_decide (c ∈ ["*"%char; "+"%char])
              || (bool_decide (c = "{"%char) && quantifierUnbounded s)
  | [] => false
  end.

Definition nested_reason : gostring :=
  str "nested unbounded quantifier (catastrophic backtracking shape)".
Definition alternation_reason : gostring :=
  str "alternation under unbounded quantifier (catastrophic backtracking shape)".
Definition bounded_reason : gostring :=
  str "bounded repetition of an unbounded group (catastrophic backtracking shape)".

(** What a closing parenthesis followed by [next] says about its group. *)
Definition close_group (top : groupState) (next : gostring) : option gostring :=
  if is_unbounded_start next && hasInnerQuant top then Some nested_reason
  else if is_unbounded_start next && hasAlt top then Some alternation_reason
  else if bool_decide (take 1 next = str "{") && hasInnerQuant top then
    match boundedRepeatBounds next with
    | Some (_, hi) => if (2 <=? hi)%Z then Some bounded_reason else None
    | None => None
    end
  else None.

(** The second loop; [depth] is the length of the stack.  The empty string is
    acceptance. *)
Fixpoint scan (s : gostring) (skip : nat) (stack : list groupState) : gostring :=
  match s with
  | [] => []
  | c :: t =>
      match skip with
      | S k => scan t k stack
      | 0 =>
          if bool_decide (c = "\"%char) && negb (bool_decide (t = [])) then scan t 1 stack
          else if bool_decide (c = "("%char) then scan t 0 (MkGroup false false :: stack)
          else if bool_decide (c = ")"%char) then
            match stack with
            | [] => scan t 0 []
            | top :: rest =>
                match close_group top t with
                | Some reason => reason
                | None => scan t 0 (mark (hasAlt top) (hasInnerQuant top) rest)
                end
            end
          else if bool_decide (c = "|"%char) then scan t 0 (mark true false stack)
          else if bool_decide (c ∈ ["*"%char; "+"%char]) then scan t 0 (mark false true stack)
          else if bool_decide (c = "{"%char) && quantifierUnbounded s then
            match index_byte s "}"%char with
            | Some j => scan t j (mark false true stack)
            | None => scan t 0 stack
            end
          else scan t 0 stack
      end
  end.

Definition isPathologicalGrepPattern (p : gostring) : gostring :=
  if 5 <? count_unbounded p 0 then str "too many unbounded quantifiers (max 5)"
  else scan p 0 [].

(** ** Queries ([log.go]) *)

Inductive Backend := Journald | Syslog.

Record Query := MkQuery {
  Unit_ : gostring; Since : gostring; Until : gostring; Priority : gostring;
  Grep : gostring; Kernel : bool; Lines : Z
}.

Definition defaultLines : Z := 100.
Definition maxLines : Z := 10000.
Definition maxGrepLen : nat := 256.

Definition cappedLines (n : Z) : Z :=
  if (n <=? 0)%Z then defaultLines else if (maxLines <? n)%Z then maxLines else n.

Definition validPriorities : list gostring :=
  [str "0"; str "1"; str "2"; str "3"; str "4"; str "5"; str "6"; str "7"; str "emerg";
   str "alert"; str "crit"; str "err"; str "warning"; str "notice"; str "info"; str "debug"].

Inductive log_error :=
| InvalidPriority (p : gostring)
| GrepTooLong (n : nat)
| GrepRejected (reason : gostring)
| GrepMalformed
| NoSyslogFile
| RunFailed (e : exec_error)
| CommandFailed (name : gostring) (code : Z) (stderr : gostring).

Definition validateQuery (q : Query) : result log_error unit :=
  if negb (bool_decide (Priority q = [])) && negb (bool_decide (Priority q ∈ validPriorities))
  then Err (InvalidPriority (Priority q))
  else if bool_decide (Grep q = []) then Ok tt
  else if maxGrepLen <? length (Grep q) then Err (GrepTooLong (length (Grep q)))
  else match isPathologicalGrepPattern (Grep q) with
       | [] => Ok tt
       | reason => Err (GrepRejected reason)
       end.

(** ** The backends *)

(** A backend call: the command it ran, if any, and what it returned. *)
Definition call (A : Type) : Type := option Command * result log_error A.

Definition splitLines (out : gostring) : list gostring :=
  match trim_suffix out [NL] with
  | [] => []
  | out' => split_byte out' NL
  end.

Definition dropStatusMarkers (lines : list gostring) : list gostring :=
  List.filter (fun ln => let t := trim_space ln in
                         negb (has_prefix t (str "-- ") && has_suffix t (str " --"))) lines.

(** An option with its value, left out when the value is empty. *)
Definition opt_arg (flag value : gostring) : list gostring :=
  match value with [] => [] | _ => [flag; value] end.

Definition journal_args (q : Query) : list gostring :=
  [str "--no-pager"; str "-n"; itoa (Z.to_nat (cappedLines (Lines q)))] ++
  opt_arg (str "-u") (Unit_ q) ++ opt_arg (str "--since") (Since q) ++
  opt_arg (str "--until") (Until q) ++ opt_arg (str "-p") (Priority q) ++
  (if Kernel q then [str "-k"] else []) ++ opt_arg (str "--grep") (Grep q).

Definition escalated (name : gostring) (args : list gostring) : Command :=
  MkCommand name args [] [] [] true.

Definition journald_Query (r : Runner) (q : Query) : call (list gostring) :=
  match validateQuery q with
  | Err e => (None, Err e)
  | Ok _ =>
      let c := escalated (str "journalctl") (journal_args q) in
      (Some c,
       match r c with
       | Err e => Err (RunFailed e)
       | Ok res =>
           if negb (ExitCode res =? 0)%Z then
             if negb (bool_decide (Grep q = [])) && (ExitCode res =? 1)%Z
                && bool_decide (trim_space (Stderr res) = []) then Ok []
             else Err (CommandFailed (str "journalctl") (ExitCode res) (Stderr res))
           else Ok (dropStatusMarkers (splitLines (Stdout res)))
       end)
  end.

Definition runEscalated (r : Runner) (okExitCodes : list Z) (name : gostring) (args : list gostring)
    : Command * result log_error gostring :=
  let c := escalated name args in
  (c, match r c with
      | Err e => Err (RunFailed e)
      | Ok res =>
          if negb (ExitCode res =? 0)%Z && negb (bool_decide (ExitCode res ∈ okExitCodes))
          then Err (CommandFailed name (ExitCode res) (Stderr res))
          else Ok (Stdout res)
      end).

Definition syslogPaths : list gostring := [str "/var/log/syslog"; str "/var/log/messages"].

Fixpoint first_existing (exists_ : gostring -> bool) (paths : list gostring) : option gostring :=
  match paths with
  | [] => None
  | p :: rest => if exists_ p then Some p else first_existing exists_ rest
  end.
Definition syslogPath (exists_ : gostring -> bool) : option gostring :=
  first_existing exists_ syslogPaths.

(** [compile] is [regexp.Compile], giving [MatchString]. *)
Definition syslog_Query (compile : gostring -> option (gostring -> bool))
    (exists_ : gostring -> bool) (r : Runner) (q : Query) : call (list gostring) :=
  match validateQuery q with
  | Err e => (None, Err e)
  | Ok _ =>
      let re := match Grep q with [] => Some None | g => Some <$> compile g end in
      match re with
      | None => (None, Err GrepMalformed)
      | Some re =>
          match syslogPath exists_ with
          | None => (None, Err NoSyslogFile)
          | Some path =>
              let '(c, out) := runEscalated r [] (str "tail")
                  [str "-n"; itoa (Z.to_nat (cappedLines (Lines q))); str "--"; path] in
              (Some c,
               let? out := out in
               let lines := splitLines out in
               match re with
               | None => Ok lines
               | Some matches => Ok (List.filter matches lines)
               end)
          end
      end
  end.

Definition Detect (lookPath : gostring -> bool) (exists_ : gostring -> bool) : list Backend :=
  (if lookPath (str "journalctl") then [Journald] else []) ++
  (match syslogPath exists_ with Some _ => [Syslog] | None => [] end).

(** Shapes of the documentation, and a group hidden behind a bracket
    expression. *)
Example guard_nested : isPathologicalGrepPattern (str "(a+)+") = nested_reason.
Proof. reflexivity. Qed.
Example guard_bounded : isPathologicalGrepPattern (str "((.*a)){1,11}") = bounded_reason.
Proof. by_eval. Qed.
Example guard_escaped : isPathologicalGrepPattern (str "\(a+\)+") = [].
Proof. by_eval. Qed.

(** ** The guard decides the documented shapes

    A grammar of patterns without bracket expressions, its printer, and the
    shapes the guard documents as functions on the syntax. *)

Inductive quant :=
| QOnce | QStar | QPlus | QOpt
| QAtLeast (n : nat) | QExact (n : nat) | QRange (n m : nat).

Inductive re :=
| REmpty
| RChar (c : ascii) (q : quant)       (* an ordinary byte *)
| REsc (c : ascii) (q : quant)        (* an escaped byte *)
| RGroup (r : re) (q : quant)
| RCat (a b : re)
| RAlt (a b : re).

Definition print_quant (q : quant) : gostring :=
  match q with
  | QOnce => []
  | QStar => str "*"
  | QPlus => str "+"
  | QOpt => str "?"
  | QAtLeast n => str "{" ++ (itoa n ++ str ",") ++ str "}"
  | QExact n => str "{" ++ itoa n ++ str "}"
  | QRange n m => str "{" ++ (itoa n ++ str "," ++ itoa m) ++ str "}"
  end.

Fixpoint print (r : re) : gostring :=
  match r with
  | REmpty => []
  | RChar c q => c :: print_quant q
  | REsc c q => "\"%char :: c :: print_quant q
  | RGroup r q => str "(" ++ print r ++ str ")" ++ print_quant q
  | RCat a b => print a ++ print b
  | RAlt a b => print a ++ str "|" ++ print b
  end.

(** The bytes that are not syntax; the last of the list would open a bracket
    expression. *)
Definition ordinary (c : ascii) : bool :=
  negb (bool_decide (c ∈ ["\"%char; "("%char; ")"%char; "|"%char; "*"%char; "+"%char;
                          "{"%char; "["%char])).

(** Repetition counts fit a Go [int]. *)
Definition quant_ok (q : quant) : bool :=
  match q with
  | QExact n => (Z.of_nat n <=? int_max)%Z
  | QRange n m => (Z.of_nat n <=? int_max)%Z && (Z.of_nat m <=? int_max)%Z
  | _ => true
  end.
Fixpoint re_ok (r : re) : bool :=
  match r with
  | REmpty => true
  | RChar c q => ordinary c && quant_ok q
  | REsc _ q => quant_ok q
  | RGroup r q => re_ok r && quant_ok q
  | RCat a b | RAlt a b => re_ok a && re_ok b
  end.

Definition unbounded (q : quant) : bool :=
  match q with QStar | QPlus | QAtLeast _ => true | _ => false end.
(** The most often a bounded brace quantifier repeats. *)
Definition at_most (q : quant) : nat :=
  match q with QExact n => n | QRange _ m => m | _ => 0 end.

Fixpoint quants (r : re) : nat :=
  match r with
  | REmpty => 0
  | RChar _ q | REsc _ q => if unbounded q then 1 else 0
  | RGroup r q => quants r + (if unbounded q then 1 else 0)
  | RCat a b | RAlt a b => quants a + quants b
  end.
(** An unbounded quantifier, an alternation, somewhere inside. *)
Definition has_quant (r : re) : bool := 0 <? quants r.
Fixpoint has_alt (r : re) : bool :=
  match r with
  | REmpty | RChar _ _ | REsc _ _ => false
  | RGroup r _ => has_alt r
  | RCat a b => has_alt a || has_alt b
  | RAlt _ _ => true
  end.

(** The shapes that backtrack: an unbounded quantifier over a group with an
    unbounded quantifier or an alternation inside at any depth, or a group with
    an unbounded quantifier inside repeated up to two or more times. *)
Fixpoint dangerous (r : re) : bool :=
  match r with
  | REmpty | RChar _ _ | REsc _ _ => false
  | RGroup r q =>
      dangerous r || (unbounded q && (has_quant r || has_alt r))
      || ((2 <=? at_most q) && has_quant r)
  | RCat a b | RAlt a b => dangerous a || dangerous b
  end.

(** A continuation that does not start with a quantifier. *)
Definition no_quant (s : gostring) : Prop :=
  match s with [] => True | c :: _ => c ∉ ["*"%char; "+"%char; "{"%char] end.

Lemma ordinary_ne c x :
  ordinary c = true ->
  x ∈ ["\"%char; "("%char; ")"%char; "|"%char; "*"%char; "+"%char; "{"%char; "["%char] -> c <> x.
Proof. unfold ordinary. intros H Hx ->. go_bool. done. Qed.

(** Drop the case analysis on a byte that is not syntax. *)
Ltac not_syntax H :=
  repeat match type of H with
  | ordinary ?c = true =>
      match goal with
      | |- context [bool_decide (c = ?x)] =>
          rewrite (bool_decide_false (c = x))
            by (apply (ordinary_ne _ _ H); by apply (bool_decide_unpack _))
      | |- context [bool_decide (c ∈ ["*"%char; "+"%char])] =>
          rewrite (bool_decide_false (c ∈ ["*"%char; "+"%char]))
            by (intros Hin; unfold ordinary in H; go_bool; set_solver)
      end
  end; cbn [andb].

Lemma print_no_quant r rest : re_ok r = true -> no_quant rest -> no_quant (print r ++ rest).
Proof.
  revert rest; induction r as [|c q|c q|r IH q|a IHa b IHb|a IHa b IHb]; intros rest Hok Hr; simpl in *; go_bool.
  - done.
  - intros Hin. unfold ordinary in *. go_bool. set_solver.
  - by apply (bool_decide_unpack _).
  - by apply (bool_decide_unpack _).
  - rewrite <-app_assoc. auto.
  - rewrite <-app_assoc. apply IHa; [done|]. by apply (bool_decide_unpack _).
Qed.

Lemma digits_not c n : is_digit c = false -> c ∉ itoa n.
Proof. intros H. eapply forallb_not_elem; [apply itoa_digits|done]. Qed.

#[local] Opaque itoa atoi.

Lemma brace_body_app b rest : "}"%char ∉ b -> brace_body (str "{" ++ b ++ str "}" ++ rest) = Some b.
Proof. intros H. simpl. rewrite index_byte_app by done. by rewrite take_app_length. Qed.

Lemma not_in_app c (a b : gostring) : c ∉ a -> c ∉ b -> c ∉ a ++ b.
Proof. set_solver. Qed.

Ltac not_in := repeat apply not_in_app; (by apply digits_not) || by apply (bool_decide_unpack _).

(** *** Quantifier tokens *)

Lemma unbounded_start_brace s : is_unbounded_start (str "{" ++ s) = quantifierUnbounded (str "{" ++ s).
Proof. reflexivity. Qed.

Lemma quantifierUnbounded_body b rest :
  "}"%char ∉ b ->
  quantifierUnbounded (str "{" ++ b ++ str "}" ++ rest) =
  match cut b ","%char with None => false | Some (_, after) => bool_decide (after = []) end.
Proof. intros H. unfold quantifierUnbounded. by rewrite brace_body_app. Qed.

Lemma cut_range n s : cut (itoa n ++ str "," ++ s) ","%char = Some (itoa n, s).
Proof. change (str "," ++ s) with (","%char :: s). apply cut_app. by apply digits_not. Qed.

Lemma quant_unbounded q rest :
  no_quant rest -> is_unbounded_start (print_quant q ++ rest) = unbounded q.
Proof.
  intros Hr. destruct q; try done; cbn [print_quant unbounded].
  - destruct rest as [|c rest]; [done|]. simpl in *.
    rewrite !bool_decide_false by set_solver. done.
  - rewrite <-app_assoc, unbounded_start_brace, <-(app_assoc _ (str "}")), quantifierUnbounded_body by not_in.
    pose proof (cut_range n []) as H. rewrite app_nil_r in H. by rewrite H.
  - rewrite <-app_assoc, unbounded_start_brace, <-(app_assoc _ (str "}")), quantifierUnbounded_body by not_in.
    by rewrite (proj2 (cut_None _ _)) by not_in.
  - rewrite <-app_assoc, unbounded_start_brace, <-(app_assoc _ (str "}")), quantifierUnbounded_body by not_in.
    rewrite cut_range. by rewrite bool_decide_false by apply itoa_nonempty.
Qed.

Lemma has_suffix_snoc s c d : has_suffix (s ++ [c]) [d] = bool_decide (d = c).
Proof. unfold has_suffix. rewrite rev_unit. simpl. apply andb_true_r. Qed.

Lemma digits_no_comma_suffix s n : has_suffix (s ++ itoa n) (str ",") = false.
Proof.
  pose proof (itoa_nonempty n) as Hne. pose proof (digits_not ","%char n eq_refl) as Hc.
  destruct (itoa n) as [|c t _] using rev_ind; [done|].
  rewrite app_assoc. change (str ",") with [","%char]. rewrite has_suffix_snoc.
  apply bool_decide_false. set_solver.
Qed.

Lemma atoi_token n : (Z.of_nat n <= int_max)%Z -> atoi (trim_space (itoa n)) = Some (Z.of_nat n).
Proof. intros H. rewrite trim_space_digits by apply itoa_digits. by apply atoi_itoa. Qed.

Lemma bounded_exact n rest :
  (Z.of_nat n <= int_max)%Z ->
  boundedRepeatBounds (str "{" ++ itoa n ++ str "}" ++ rest) = Some (Z.of_nat n, Z.of_nat n).
Proof.
  intros H. unfold boundedRepeatBounds. rewrite brace_body_app by not_in.
  pose proof (digits_no_comma_suffix [] n) as Hs. rewrite app_nil_l in Hs. rewrite Hs.
  rewrite (proj2 (cut_None _ _)) by not_in. by rewrite atoi_token.
Qed.

Lemma bounded_range n m rest :
  (Z.of_nat n <= int_max)%Z -> (Z.of_nat m <= int_max)%Z ->
  boundedRepeatBounds (str "{" ++ (itoa n ++ str "," ++ itoa m) ++ str "}" ++ rest)
  = Some (Z.of_nat n, Z.of_nat m).
Proof.
  intros Hn Hm. unfold boundedRepeatBounds. rewrite brace_body_app by not_in.
  rewrite (app_assoc (itoa n)), digits_no_comma_suffix, <-app_assoc, cut_range.
  by rewrite !atoi_token.
Qed.

(** The verdict on a group with the flags [alt], [quant] under [q]. *)
Definition bad_group (alt inner : bool) (q : quant) : bool :=
  (unbounded q && (inner || alt)) || ((2 <=? at_most q) && inner).

Lemma two_le n : (2 <=? Z.of_nat n)%Z = (2 <=? n).
Proof. destruct (Nat.leb_spec 2 n); [apply Z.leb_le|apply Z.leb_gt]; lia. Qed.

Lemma close_group_quant top q rest :
  quant_ok q = true -> no_quant rest ->
  match close_group top (print_quant q ++ rest) with
  | Some reason => bad_group (hasAlt top) (hasInnerQuant top) q = true /\ reason <> []
  | None => bad_group (hasAlt top) (hasInnerQuant top) q = false
  end.
Proof.
  intros Hq Hr. unfold close_group. rewrite quant_unbounded by done. unfold bad_group.
  destruct q; simpl unbounded; cbv iota; cbn [andb orb at_most quant_ok] in *.
  - destruct rest as [|c rest]; [done|]. simpl in Hr. simpl.
    rewrite bool_decide_false; [done|intros [= ->]; set_solver].
  - destruct top as [[] []]; done.
  - destruct top as [[] []]; done.
  - done.
  - destruct top as [[] []]; done.
  - cbn [print_quant]. rewrite <-app_assoc, <-(app_assoc _ (str "}")).
    change (bool_decide (take 1 (str "{" ++ ?x) = str "{")) with true. go_bool.
    rewrite bounded_exact by done. rewrite two_le.
    destruct (hasInnerQuant top), (2 <=? n); done.
  - cbn [print_quant]. rewrite <-app_assoc, <-(app_assoc _ (str "}")). go_bool.
    rewrite bounded_range by done. rewrite two_le.
    destruct (hasInnerQuant top), (2 <=? m); done.
Qed.

(** *** Both loops run through a printed pattern *)

Lemma scan_skip a b st : scan (a ++ b) (length a) st = scan b 0 st.
Proof. induction a as [|c a IH]; [done|]. simpl. apply IH. Qed.

Lemma scan_char c rest st : ordinary c = true -> scan (c :: rest) 0 st = scan rest 0 st.
Proof.
  intros H. simpl. by not_syntax H.
Qed.

Lemma scan_chars s rest st : forallb ordinary s = true -> scan (s ++ rest) 0 st = scan rest 0 st.
Proof.
  induction s as [|c s IH]; intros H; [done|]. simpl in H. go_bool.
  rewrite <-app_comm_cons, scan_char by done. by apply IH.
Qed.

Lemma digit_ordinary c : is_digit c = true -> ordinary c = true.
Proof.
  intros H%is_digit_range. unfold ordinary. apply negb_true_iff, bool_decide_false.
  intros Hin. repeat (apply elem_of_cons in Hin as [->|Hin]; [vm_compute in H; lia|]).
  by apply not_elem_of_nil in Hin.
Qed.

Lemma itoa_ordinary n : forallb ordinary (itoa n) = true.
Proof.
  pose proof (itoa_digits n) as H. rewrite forallb_forall in *. intros c Hc.
  apply digit_ordinary. auto.
Qed.

Lemma mark_none st : mark false false st = st.
Proof. by destruct st as [|[]]. Qed.

Lemma unbounded_brace_token b rest :
  quantifierUnbounded (str "{" ++ b ++ str "}" ++ rest) =
  is_unbounded_start (str "{" ++ b ++ str "}" ++ rest).
Proof. by rewrite unbounded_start_brace. Qed.

(** A brace token: the unbounded one marks the group and is jumped over, a
    bounded one is read through. *)
Lemma scan_brace b rest st :
  "}"%char ∉ b -> forallb ordinary b = true ->
  scan (str "{" ++ b ++ str "}" ++ rest) 0 st =
  scan rest 0 (mark false (is_unbounded_start (str "{" ++ b ++ str "}" ++ rest)) st).
Proof.
  intros Hb Ho. rewrite <-unbounded_brace_token.
  change (str "{" ++ b ++ str "}" ++ rest) with ("{"%char :: (b ++ "}"%char :: rest)).
  cbn [scan]. change (bool_decide ("{"%char = "\"%char)) with false.
  change (bool_decide ("{"%char = "("%char)) with false.
  change (bool_decide ("{"%char = ")"%char)) with false.
  change (bool_decide ("{"%char = "|"%char)) with false.
  change (bool_decide ("{"%char ∈ ["*"%char; "+"%char])) with false.
  change (bool_decide ("{"%char = "{"%char)) with true. cbn [andb].
  destruct (quantifierUnbounded _).
  - change ("{"%char :: b ++ "}"%char :: rest) with (("{"%char :: b) ++ "}"%char :: rest).
    rewrite index_byte_app by set_solver.
    change (b ++ "}"%char :: rest) with (b ++ [("}"%char)] ++ rest). rewrite app_assoc.
    replace (length ("{"%char :: b)) with (length (b ++ ["}"%char])) by (rewrite length_app; simpl; lia).
    by rewrite scan_skip.
  - rewrite mark_none, scan_chars by done. by apply (scan_char "}"%char).
Qed.

Lemma scan_token b rest st u :
  "}"%char ∉ b -> forallb ordinary b = true ->
  is_unbounded_start ((str "{" ++ b ++ str "}") ++ rest) = u ->
  scan ((str "{" ++ b ++ str "}") ++ rest) 0 st = scan rest 0 (mark false u st).
Proof. intros Hb Ho <-. rewrite <-!app_assoc. by apply scan_brace. Qed.

Lemma scan_quant q rest st :
  no_quant rest -> scan (print_quant q ++ rest) 0 st = scan rest 0 (mark false (unbounded q) st).
Proof.
  intros Hr. pose proof itoa_ordinary as Ho. pose proof (quant_unbounded q rest Hr) as Hu.
  destruct q; cbn [print_quant unbounded] in *; try done.
  - by rewrite mark_none.
  - rewrite mark_none. by apply (scan_char "?"%char).
  - eapply scan_token; [not_in| |done]. by rewrite forallb_app, Ho.
  - eapply scan_token; [not_in|done|done].
  - eapply scan_token; [not_in| |done]. by rewrite !forallb_app, !Ho.
Qed.

Lemma mark_mark a q a' q' st : mark a q (mark a' q' st) = mark (a || a') (q || q') st.
Proof. destruct st as [|[]]; simpl; [done|]. by rewrite !orb_assoc. Qed.

Lemma has_quant_cat m n : (0 <? m + n) = (0 <? m) || (0 <? n).
Proof. destruct m; [done|]. simpl. by destruct (n). Qed.

(** The second loop on a printed pattern: it stops with a reason in a dangerous
    one and otherwise only marks the enclosing group. *)
Lemma scan_print r rest st :
  re_ok r = true -> no_quant rest ->
  if dangerous r then scan (print r ++ rest) 0 st <> []
  else scan (print r ++ rest) 0 st = scan rest 0 (mark (has_alt r) (has_quant r) st).
Proof.
  revert rest st; induction r as [|c q|c q|r IH q|a IHa b IHb|a IHa b IHb];
    intros rest st Hok Hr; simpl in Hok; go_bool; cbn [print dangerous has_alt].
  - by rewrite mark_none.
  - rewrite <-app_comm_cons, scan_char, scan_quant by done. unfold has_quant; simpl.
    by destruct (unbounded q).
  - change (scan (("\"%char :: c :: print_quant q) ++ rest) 0 st)
      with (scan (print_quant q ++ rest) 0 st).
    rewrite scan_quant by done. unfold has_quant; simpl. by destruct (unbounded q).
  - rewrite <-!app_assoc.
    change (scan (str "(" ++ print r ++ str ")" ++ print_quant q ++ rest) 0 st)
      with (scan (print r ++ str ")" ++ print_quant q ++ rest) 0 (MkGroup false false :: st)).
    specialize (IH (str ")" ++ print_quant q ++ rest) (MkGroup false false :: st)).
    destruct (dangerous r); [apply IH; [done|by apply (bool_decide_unpack _)]|].
    rewrite IH by (done || by apply (bool_decide_unpack _)). cbn [mark hasAlt hasInnerQuant].
    rewrite !orb_false_r. set (top := MkGroup (has_alt r) (has_quant r)).
    change (scan (str ")" ++ print_quant q ++ rest) 0 (top :: st))
      with (match close_group top (print_quant q ++ rest) with
            | Some reason => reason
            | None => scan (print_quant q ++ rest) 0 (mark (hasAlt top) (hasInnerQuant top) st)
            end).
    pose proof (close_group_quant top q rest ltac:(done) Hr) as Hc. unfold bad_group in Hc.
    cbn [hasAlt hasInnerQuant top] in Hc. cbn [orb].
    destruct (close_group top _) as [reason|].
    + destruct Hc as [Hb Hne]. by rewrite Hb.
    + rewrite Hc, scan_quant, mark_mark by done. cbn [hasAlt hasInnerQuant top].
      f_equal. f_equal. unfold has_quant. simpl. rewrite has_quant_cat.
      by destruct (unbounded q), (0 <? quants r).
  - rewrite <-app_assoc. pose proof (print_no_quant b rest ltac:(done) Hr) as Hb.
    specialize (IHa (print b ++ rest) st ltac:(done) Hb).
    destruct (dangerous a); [done|]. cbn [orb]. rewrite IHa.
    specialize (IHb rest (mark (has_alt a) (has_quant a) st) ltac:(done) Hr).
    destruct (dangerous b); [done|]. rewrite IHb, mark_mark. unfold has_quant. simpl.
    by rewrite has_quant_cat, (orb_comm (has_alt b)), (orb_comm (0 <? quants b)).
  - rewrite <-!app_assoc.
    specialize (IHa (str "|" ++ print b ++ rest) st ltac:(done) ltac:(by apply (bool_decide_unpack _))).
    destruct (dangerous a); [done|]. cbn [orb]. rewrite IHa.
    change (scan (str "|" ++ print b ++ rest) 0 ?x) with (scan (print b ++ rest) 0 (mark true false x)).
    rewrite mark_mark. cbn [orb].
    specialize (IHb rest (mark true (has_quant a) st) ltac:(done) Hr).
    destruct (dangerous b); [done|]. rewrite IHb, mark_mark. unfold has_quant. simpl.
    by rewrite has_quant_cat, orb_true_r, (orb_comm (0 <? quants b)).
Qed.

Lemma count_char c rest : ordinary c = true -> count_unbounded (c :: rest) 0 = count_unbounded rest 0.
Proof. intros H. simpl. by not_syntax H. Qed.

Lemma count_chars s rest : forallb ordinary s = true -> count_unbounded (s ++ rest) 0 = count_unbounded rest 0.
Proof.
  induction s as [|c s IH]; intros H; [done|]. simpl in H. go_bool.
  rewrite <-app_comm_cons, count_char by done. by apply IH.
Qed.

Lemma count_token b rest u :
  forallb ordinary b = true ->
  is_unbounded_start ((str "{" ++ b ++ str "}") ++ rest) = u ->
  count_unbounded ((str "{" ++ b ++ str "}") ++ rest) 0 = (if u then 1 else 0) + count_unbounded rest 0.
Proof.
  intros Ho <-. rewrite <-!app_assoc, <-unbounded_brace_token.
  assert (count_unbounded (b ++ str "}" ++ rest) 0 = count_unbounded rest 0) as Hb.
  { rewrite count_chars by done. by apply (count_char "}"%char). }
  change (count_unbounded (str "{" ++ b ++ str "}" ++ rest) 0)
    with (if quantifierUnbounded (str "{" ++ b ++ str "}" ++ rest)
          then S (count_unbounded (b ++ str "}" ++ rest) 0)
          else count_unbounded (b ++ str "}" ++ rest) 0).
  rewrite Hb. by destruct (quantifierUnbounded _).
Qed.

Lemma count_quant q rest :
  no_quant rest ->
  count_unbounded (print_quant q ++ rest) 0 = (if unbounded q then 1 else 0) + count_unbounded rest 0.
Proof.
  intros Hr. pose proof itoa_ordinary as Ho. pose proof (quant_unbounded q rest Hr) as Hu.
  destruct q; cbn [print_quant unbounded] in *; try done.
  - apply (count_token _ _ true); [|done]. by rewrite forallb_app, Ho.
  - by apply (count_token _ _ false).
  - apply (count_token _ _ false); [|done]. by rewrite !forallb_app, !Ho.
Qed.

Lemma count_print r rest :
  re_ok r = true -> no_quant rest ->
  count_unbounded (print r ++ rest) 0 = quants r + count_unbounded rest 0.
Proof.
  revert rest; induction r as [|c q|c q|r IH q|a IHa b IHb|a IHa b IHb];
    intros rest Hok Hr; simpl in Hok; go_bool; cbn [print quants].
  - done.
  - by rewrite <-app_comm_cons, count_char, count_quant.
  - change (count_unbounded (("\"%char :: c :: print_quant q) ++ rest) 0)
      with (count_unbounded (print_quant q ++ rest) 0). by apply count_quant.
  - rewrite <-!app_assoc.
    change (count_unbounded (str "(" ++ print r ++ str ")" ++ print_quant q ++ rest) 0)
      with (count_unbounded (print r ++ str ")" ++ print_quant q ++ rest) 0).
    rewrite IH by (done || by apply (bool_decide_unpack _)).
    change (count_unbounded (str ")" ++ print_quant q ++ rest) 0)
      with (count_unbounded (print_quant q ++ rest) 0). rewrite count_quant by done. lia.
  - rewrite <-app_assoc, IHa, IHb by (done || by apply print_no_quant). lia.
  - rewrite <-!app_assoc, IHa by (done || by apply (bool_decide_unpack _)).
    change (count_unbounded (str "|" ++ print b ++ rest) 0) with (count_unbounded (print b ++ rest) 0).
    rewrite IHb by done. lia.
Qed.



(** Outside that grammar the guard can be bypassed: a bracket expression is not
    tracked, so a parenthesis inside one closes the group. *)
Lemma guard_bracket_bypass : isPathologicalGrepPattern (str "(a+[)]?)+") = [].
Proof. by_eval. Qed.
(** Nor is a literal brace: everything from one to the next closing brace is skipped as a
    quantifier when the last byte before that is the first comma. *)
Lemma guard_brace_bypass : isPathologicalGrepPattern (str "{(a+)+,}") = [].
Proof. by_eval. Qed.

(** ** Validate, then execute *)

Lemma cappedLines_range n : (1 <= cappedLines n <= maxLines)%Z.
Proof.
  unfold cappedLines, defaultLines, maxLines. destruct (n <=? 0)%Z eqn:E1; [lia|].
  destruct (10000 <? n)%Z eqn:E2; go_bool; lia.
Qed.

(** What a validated query satisfies. *)
Definition query_ok (q : Query) : Prop :=
  (Priority q = [] \/ Priority q ∈ validPriorities) /\
  (Grep q = [] \/ (length (Grep q) <= maxGrepLen /\ isPathologicalGrepPattern (Grep q) = [])).

Lemma validateQuery_ok q : validateQuery q = Ok tt <-> query_ok q.
Proof.
  unfold validateQuery, query_ok.
  destruct (bool_decide (Priority q = [])) eqn:E1, (bool_decide (Priority q ∈ validPriorities)) eqn:E2;
    simpl; go_bool; try (by split; [done|intros [[?|?] _]]);
    (destruct (bool_decide (Grep q = [])) eqn:E3; go_bool; [naive_solver|]);
    (destruct (maxGrepLen <? length (Grep q)) eqn:E4; go_bool;
      [split; [done|intros [_ [?|[? _]]]; [done|lia]]|]);
    (destruct (isPathologicalGrepPattern (Grep q)); naive_solver).
Qed.

Lemma first_existing_ok exists_ paths p :
  first_existing exists_ paths = Some p -> p ∈ paths /\ exists_ p = true.
Proof.
  induction paths as [|x paths IH]; simpl; [done|]. destruct (exists_ x) eqn:E.
  - intros [= <-]. by split; [left|].
  - intros H. destruct (IH H). by split; [right|].
Qed.

(** a log query validates before it executes: either backend runs at most
    one command, only for a query that passed the priority, length and pattern
    checks, escalated, with a line count between 1 and 10000; journald's dynamic
    values only ever follow their own option, and the syslog file follows the
    end-of-options marker; a rejected query runs nothing and returns its error. *)
Theorem Query_validates compile exists_ r q :
  match (journald_Query r q).1 with
  | None => exists e, validateQuery q = Err e /\ (journald_Query r q).2 = Err e
  | Some c => query_ok q /\ Name c = str "journalctl" /\ Escalate c = true /\ Env c = [] /\
      exists n, (1 <= n <= maxLines)%Z /\
        Args c = [str "--no-pager"; str "-n"; itoa (Z.to_nat n)] ++
          opt_arg (str "-u") (Unit_ q) ++ opt_arg (str "--since") (Since q) ++
          opt_arg (str "--until") (Until q) ++ opt_arg (str "-p") (Priority q) ++
          (if Kernel q then [str "-k"] else []) ++ opt_arg (str "--grep") (Grep q)
  end /\
  match (syslog_Query compile exists_ r q).1 with
  | None => exists e, (syslog_Query compile exists_ r q).2 = Err e
  | Some c => query_ok q /\ Name c = str "tail" /\ Escalate c = true /\ Env c = [] /\
      (Grep q = [] \/ is_Some (compile (Grep q))) /\
      exists n path, (1 <= n <= maxLines)%Z /\ path ∈ syslogPaths /\ exists_ path = true /\
        Args c = SeparatePositionals [str "-n"; itoa (Z.to_nat n)] [path]
  end.
Proof.
  pose proof (cappedLines_range (Lines q)) as Hn. split.
  - unfold journald_Query. destruct (validateQuery q) as [[]|e] eqn:Hv; simpl; [|eauto].
    apply validateQuery_ok in Hv. split_and!; eauto.
  - unfold syslog_Query. destruct (validateQuery q) as [[]|e] eqn:Hv; simpl; [|eauto].
    apply validateQuery_ok in Hv.
    destruct (match Grep q with [] => _ | _ :: _ => _ end) as [re|] eqn:Hre; [|simpl; eauto].
    destruct (syslogPath exists_) as [path|] eqn:Hp; [|simpl; eauto].
    apply first_existing_ok in Hp as [Hin He]. simpl. split_and!; try done.
    + destruct (Grep q) as [|c g]; [by left|right]. by destruct (compile (c :: g)).
    + eauto 8.
Qed.

End Log.
