(* ===== verification/Repo.v ===== *)
(** * Package repositories ([src/sys/repo], and the URL and key validators of
    [src/pkg/validate.go])

    The field validators and the generated apt, dnf and pacman configuration: what a
    generated file says when it is read back, and the editing of [pacman.conf].  The URL
    parser of the standard library is a parameter. *)
From S2P Require Import Prelude Paths Exec.

Module Repo.
Import Exec.

Definition SPACE : ascii := " "%char.

(** ** Field grammars ([validate.go]) *)

(** [r < 0x20 || r == 0x7f] and [r <= ' ' || r == 0x7f] on some rune. *)
Definition control_byte (c : ascii) : bool := (byte_val c <? 32)%N || (byte_val c =? 127)%N.
Definition control_or_space (c : ascii) : bool := (byte_val c <=? 32)%N || (byte_val c =? 127)%N.
Definition hasControl (s : gostring) : bool := existsb control_byte s.
Definition hasCtrlOrSpace (s : gostring) : bool := existsb control_or_space s.

Definition alnum (c : ascii) : bool := is_lower c || is_upper c || is_digit c.
Definition one_of (set : gostring) (c : ascii) : bool := bool_decide (c ∈ set).

(** [^[first][rest]*$]. *)
Definition matches (first rest : ascii -> bool) (s : gostring) : bool :=
  match s with [] => false | c :: s' => first c && forallb rest s' end.

Definition validName : gostring -> bool := matches alnum (fun c => alnum c || one_of (str "._-") c).
Definition validAptDistribution : gostring -> bool :=
  matches alnum (fun c => alnum c || one_of (str "._-") c).
Definition validAptComponent : gostring -> bool :=
  matches alnum (fun c => alnum c || one_of (str "._-") c).
Definition validAptArch : gostring -> bool :=
  matches (fun c => is_lower c || is_digit c) (fun c => is_lower c || is_digit c || one_of (str ",_-") c).
Definition validPacmanSigLevel : gostring -> bool :=
  let letter c := is_lower c || is_upper c || one_of [SPACE] c in matches letter letter.

Definition maxNameLen : nat := 128.

Inductive repo_error :=
| ErrInvalidName
| ErrMissing (field : gostring)
| ErrControl (field : gostring)
| BadShape (field : gostring)
| ErrComponents
| ErrSigDisabled
| ErrReservedName (name : gostring).

Definition validateName (name : gostring) : result repo_error unit :=
  if bool_decide (name = []) then Err ErrInvalidName
  else if maxNameLen <? length name then Err ErrInvalidName
  else if negb (validName name) then Err ErrInvalidName
  else Ok tt.

Definition rejectControl (field s : gostring) : result repo_error unit :=
  if hasControl s then Err (ErrControl field) else Ok tt.

(** What the validators read of a parsed URL. *)
Record URL := MkURL { Scheme : gostring; Host : gostring; HasUser : bool; Path : gostring }.

Record AptConfig := MkApt {
  apt_URL : gostring; Distribution : gostring; Components : list gostring; Arch : gostring;
  apt_GPGKey : gostring; Trusted : bool
}.
Record DnfConfig := MkDnf {
  BaseURL : gostring; Description : gostring; Enabled : bool; GPGCheck : bool;
  dnf_GPGKey : gostring; ModuleHotfixes : bool
}.
Record PacmanConfig := MkPacman { Server : gostring; SigLevel : gostring }.

Section Validators.
(** [url.Parse]. *)
Context (Parse : gostring -> option URL).

(** [pkg.ValidateRepoBaseURL] and [pkg.ValidateGpgKeyRef]: nil or not. *)
Definition ValidateRepoBaseURL (rawURL : gostring) : bool :=
  if bool_decide (rawURL = []) then false
  else if hasCtrlOrSpace rawURL then false
  else match Parse rawURL with
       | None => false
       | Some u => bool_decide (Scheme u = str "https") && negb (bool_decide (Host u = []))
       end.

Definition ValidateGpgKeyRef (ref : gostring) : bool :=
  if bool_decide (ref = []) then false
  else if hasCtrlOrSpace ref then false
  else if has_prefix ref (str "-") then false
  else if has_prefix ref (str "https://") then
    match Parse ref with
    | None => false
    | Some u => negb (bool_decide (Host u = []))
    end
  else if has_prefix ref (str "file://") then
    match Parse ref with
    | None => false
    | Some u => bool_decide (Host u = []) && has_prefix (Path u) (str "/")
                && negb (contains (Path u) (str ".."))
    end
  else if has_prefix ref (str "/") then negb (contains ref (str ".."))
  else false.

Definition validateAptURL (rawURL : gostring) : result repo_error unit :=
  if bool_decide (rawURL = []) then Err (ErrMissing (str "apt.url"))
  else if existsb control_or_space rawURL then Err (BadShape (str "apt.url"))
  else match Parse rawURL with
       | None => Err (BadShape (str "apt.url"))
       | Some u =>
           if negb (bool_decide (Scheme u = str "http")) && negb (bool_decide (Scheme u = str "https"))
           then Err (BadShape (str "apt.url"))
           else if bool_decide (Host u = []) then Err (BadShape (str "apt.url"))
           else if HasUser u then Err (BadShape (str "apt.url"))
           else Ok tt
       end.

Fixpoint check_components (cs : list gostring) : result repo_error unit :=
  match cs with
  | [] => Ok tt
  | comp :: rest =>
      let? _ := rejectControl (str "apt.components") comp in
      if negb (validAptComponent comp) then Err (BadShape (str "apt.components"))
      else check_components rest
  end.

Definition validateApt (c : AptConfig) : result repo_error unit :=
  let? _ := validateAptURL (apt_URL c) in
  let? _ := rejectControl (str "apt.distribution") (Distribution c) in
  if negb (bool_decide (Distribution c = [])) && negb (validAptDistribution (Distribution c))
  then Err (BadShape (str "apt.distribution"))
  else if bool_decide (Distribution c = []) && negb (bool_decide (Components c = []))
  then Err ErrComponents
  else
    let? _ := check_components (Components c) in
    let? _ := rejectControl (str "apt.arch") (Arch c) in
    if negb (bool_decide (Arch c = [])) && negb (validAptArch (Arch c))
    then Err (BadShape (str "apt.arch"))
    else Ok tt.

Definition validateDnf (c : DnfConfig) : result repo_error unit :=
  if bool_decide (BaseURL c = []) then Err (ErrMissing (str "dnf.baseurl"))
  else
    let? _ := rejectControl (str "dnf.description") (Description c) in
    if negb (ValidateRepoBaseURL (BaseURL c)) then Err (BadShape (str "dnf.baseurl"))
    else if negb (bool_decide (dnf_GPGKey c = [])) && negb (ValidateGpgKeyRef (dnf_GPGKey c))
    then Err (BadShape (str "dnf.gpgkey"))
    else Ok tt.

Definition disablesPacmanSig (sigLevel : gostring) : bool :=
  existsb (fun tok => bool_decide (to_lower tok ∈ [str "never"; str "packagenever"; str "databasenever"]))
    (fields sigLevel).

Definition validatePacman (c : PacmanConfig) : result repo_error unit :=
  if bool_decide (Server c = []) then Err (ErrMissing (str "pacman.server"))
  else
    let? _ := rejectControl (str "pacman.sig_level") (SigLevel c) in
    if negb (bool_decide (SigLevel c = [])) && negb (validPacmanSigLevel (SigLevel c))
    then Err (BadShape (str "pacman.sig_level"))
    else if disablesPacmanSig (SigLevel c) then Err ErrSigDisabled
    else if negb (ValidateRepoBaseURL (Server c)) then Err (BadShape (str "pacman.server"))
    else Ok tt.

End Validators.

(** [strings.EqualFold] on names, which are ASCII when this is reached. *)
Definition validatePacmanName (name : gostring) : result repo_error unit :=
  if bool_decide (lower_byte <$> name = str "options") then Err (ErrReservedName name) else Ok tt.

(** ** Generated configuration ([apt.go], [dnf.go], [pacman.go]) *)

(** [fmt.Fprintf(&b, "<label>%s\n", v)]. *)
Definition line (label v : gostring) : gostring := label ++ v ++ [NL].

Definition buildAptSources (name : gostring) (c : AptConfig) (keyFile : gostring) : gostring :=
  line (str "# Repository: ") name ++
  line (str "Types: deb") [] ++
  line (str "URIs: ") (apt_URL c) ++
  (match Distribution c with [] => line (str "Suites: /") [] | d => line (str "Suites: ") d end) ++
  (match Components c with [] => [] | cs => line (str "Components: ") (join cs [SPACE]) end) ++
  (match Arch c with [] => [] | a => line (str "Architectures: ") a end) ++
  (match apt_GPGKey c with
   | [] => if Trusted c then line (str "Trusted: yes") [] else []
   | _ => line (str "Signed-By: ") keyFile
   end).

Definition dnf_content (name : gostring) (c : DnfConfig) : gostring :=
  line (str "[" ++ name ++ str "]") [] ++
  (match Description c with [] => line (str "name=") name | d => line (str "name=") d end) ++
  line (str "baseurl=") (BaseURL c) ++
  (if Enabled c then line (str "enabled=1") [] else line (str "enabled=0") []) ++
  (if GPGCheck c then
     line (str "gpgcheck=1") [] ++
     (match dnf_GPGKey c with [] => [] | k => line (str "gpgkey=") k end)
   else line (str "gpgcheck=0") []) ++
  (if ModuleHotfixes c then line (str "module_hotfixes=1") [] else []).

Definition section_header (name : gostring) : gostring := str "[" ++ name ++ str "]".

(** The loop of [removePacmanSection] over the lines. *)
Fixpoint drop_section (header : gostring) (lines : list gostring) (inSection : bool)
    : list gostring :=
  match lines with
  | [] => []
  | l :: rest =>
      let trimmed := trim_space l in
      if bool_decide (trimmed = header) then drop_section header rest true
      else
        let inSection' := inSection && negb (has_prefix trimmed (str "[")) in
        if inSection' then drop_section header rest true
        else l :: drop_section header rest false
  end.
Definition removePacmanSection (content name : gostring) : gostring :=
  join (drop_section (section_header name) (split_byte content NL) false) [NL].

Definition pacman_section (name : gostring) (c : PacmanConfig) : gostring :=
  NL :: line (section_header name) [] ++
  (match SigLevel c with [] => [] | s => line (str "SigLevel = ") s end) ++
  line (str "Server = ") (Server c).

(** The new pacman.conf. *)
Definition pacman_conf (confStr name : gostring) (c : PacmanConfig) : gostring :=
  (if contains confStr (section_header name) then removePacmanSection confStr name else confStr)
  ++ pacman_section name c.

(** ** Editing pacman.conf *)

(** No line of the text is the header. *)
Definition no_header (header : gostring) (lines : list gostring) : Prop :=
  Forall (fun l => trim_space l <> header) lines.

Lemma drop_section_keeps header lines rest :
  no_header header lines ->
  drop_section header (lines ++ rest) false = lines ++ drop_section header rest false.
Proof.
  intros H. induction H as [|l lines Hl H IH]; [done|]. simpl.
  rewrite bool_decide_false by done. simpl. by rewrite IH.
Qed.

Lemma drop_section_drops header lines :
  Forall (fun l => has_prefix (trim_space l) (str "[") = false) lines -> has_prefix header (str "[") = true ->
  drop_section header lines true = [].
Proof.
  intros H Hh. induction H as [|l lines Hl H IH]; [done|]. cbn [drop_section].
  case_bool_decide; [done|]. by rewrite Hl.
Qed.

Lemma drop_section_no_header header lines b : no_header header (drop_section header lines b).
Proof.
  revert b; induction lines as [|l lines IH]; intros b; simpl; [constructor|].
  case_bool_decide; [apply IH|]. destruct (b && _); [apply IH|]. constructor; [done|apply IH].
Qed.

Lemma join_split s c : join (split_byte s c) [c] = s.
Proof.
  induction s as [|a s IH]; [done|]. simpl. case_bool_decide as Hac.
  - subst. destruct (split_byte s c) as [|w ws] eqn:E; [|].
    + destruct s; simpl in E; [done|]. case_bool_decide; [done|]. by destruct (split_byte s c).
    + change (join ([] :: w :: ws) [c]) with (c :: join (w :: ws) [c]). by rewrite IH.
  - destruct (split_byte s c) as [|w ws]; [by rewrite <-IH|].
    destruct ws as [|v ws]; [by rewrite <-IH|].
    change (join ((a :: w) :: v :: ws) [c]) with (a :: join (w :: v :: ws) [c]). by rewrite IH.
Qed.

Lemma split_elem_infix s c l : l ∈ split_byte s c -> exists a b, s = a ++ l ++ b.
Proof.
  intros H. rewrite <-(join_split s c). revert H. generalize (split_byte s c).
  induction l0 as [|w ws IH]; [by intros ?%not_elem_of_nil|].
  intros [->|H]%elem_of_cons.
  - destruct ws; [by exists [], []; rewrite app_nil_r|].
    eexists [], _. reflexivity.
  - destruct ws as [|v ws]; [by apply not_elem_of_nil in H|].
    destruct (IH H) as (a & b & E). change (join (w :: v :: ws) [c]) with (w ++ [c] ++ join (v :: ws) [c]).
    rewrite E. exists (w ++ [c] ++ a), b. by rewrite <-!app_assoc.
Qed.

(** What a validated pacman repository gives the generated section. *)
Definition safe_text (s : gostring) : Prop := Forall (fun c => control_byte c = false) s.

Lemma existsb_false {A} (p : A -> bool) l : existsb p l = false <-> Forall (fun x => p x = false) l.
Proof.
  induction l as [|x l IH]; simpl; [by split|]. rewrite orb_false_iff, IH, list.Forall_cons. done.
Qed.

Lemma hasControl_false s : hasControl s = false <-> safe_text s.
Proof. apply existsb_false. Qed.

Lemma space_is_control s : hasCtrlOrSpace s = false -> safe_text s.
Proof.
  intros Hs%existsb_false. eapply list.Forall_impl; [done|].
  unfold control_or_space, control_byte. intros c Hc. apply orb_false_iff in Hc as [Hc1 Hc2].
  apply orb_false_iff. split; [|done]. apply N.leb_gt in Hc1. apply N.ltb_ge. lia.
Qed.

Lemma safe_no_newline s : safe_text s -> NL ∉ s.
Proof. unfold safe_text. intros Hs Hin. rewrite list.Forall_forall in Hs. by specialize (Hs NL Hin). Qed.

Lemma safe_app a b : safe_text (a ++ b) <-> safe_text a /\ safe_text b.
Proof. apply list.Forall_app. Qed.

Lemma matches_all first rest s p :
  (forall c, first c = true -> p c = false) -> (forall c, rest c = true -> p c = false) ->
  matches first rest s = true -> Forall (fun c => p c = false) s.
Proof.
  intros H1 H2 Hm. destruct s as [|c s]; [constructor|]. simpl in Hm. go_bool. constructor; [auto|].
  rewrite list.Forall_forall. rewrite forallb_forall in *. intros x Hx%list_elem_of_In. auto.
Qed.

Lemma all_bytes (P : ascii -> Prop) (p : ascii -> bool) :
  (forall c, p c = true -> P c) -> forallb p (ascii_of_nat <$> seq 0 256) = true -> forall c, P c.
Proof.
  intros Hp Hall c. apply Hp. rewrite forallb_forall in Hall. apply Hall.
  apply list_elem_of_In, list_elem_of_fmap. exists (nat_of_ascii c).
  split; [by rewrite ascii_nat_embedding|]. apply elem_of_seq. pose proof (nat_ascii_bounded c). lia.
Qed.

(** A class of bytes has no control byte: by evaluation over all bytes. *)
Lemma class_safe (cls : ascii -> bool) :
  forallb (fun c => implb (cls c) (negb (control_byte c))) (ascii_of_nat <$> seq 0 256) = true ->
  forall c, cls c = true -> control_byte c = false.
Proof.
  intros Hall. apply (all_bytes (fun c => cls c = true -> control_byte c = false) (fun c => implb (cls c) (negb (control_byte c)))); [|done].
  intros c Hi Hc. rewrite Hc in Hi. simpl in Hi. by apply negb_true_iff.
Qed.

Lemma validName_safe name : validName name = true -> safe_text name.
Proof. apply matches_all; apply class_safe; by_eval. Qed.

Lemma validateName_ok name : validateName name = Ok tt -> validName name = true /\ name <> [].
Proof.
  unfold validateName. case_bool_decide; [done|]. destruct (_ <? _); [done|].
  by destruct (validName name).
Qed.

Lemma ValidateRepoBaseURL_safe Parse u : ValidateRepoBaseURL Parse u = true -> safe_text u.
Proof.
  unfold ValidateRepoBaseURL. case_bool_decide; [done|].
  destruct (hasCtrlOrSpace u) eqn:E; [done|]. intros _. by apply space_is_control.
Qed.

Lemma sigLevel_safe s : validPacmanSigLevel s = true -> safe_text s.
Proof. apply matches_all; apply class_safe; by_eval. Qed.

Lemma validatePacman_ok Parse c :
  validatePacman Parse c = Ok tt -> safe_text (SigLevel c) /\ safe_text (Server c).
Proof.
  unfold validatePacman, rejectControl. case_bool_decide; [done|]. intros Hv.
  destruct (hasControl (SigLevel c)) eqn:E; [done|]. simpl in Hv.
  split; [by apply hasControl_false|]. destruct (_ && _); [done|]. destruct (disablesPacmanSig _); [done|].
  destruct (ValidateRepoBaseURL Parse (Server c)) eqn:Eu; [|done]. by eapply ValidateRepoBaseURL_safe.
Qed.

(** The lines of the generated section after its header. *)
Definition section_lines (c : PacmanConfig) : list gostring :=
  (match SigLevel c with [] => [] | s => [str "SigLevel = " ++ s] end) ++ [str "Server = " ++ Server c; []].

Lemma split_line label v rest :
  NL ∉ label -> NL ∉ v -> split_byte (line label v ++ rest) NL = (label ++ v) :: split_byte rest NL.
Proof.
  intros Hl Hv. unfold line. rewrite <-!app_assoc. rewrite (app_assoc label v).
  apply Paths.split_byte_app. set_solver.
Qed.

Ltac no_nl := first [by apply safe_no_newline | by apply (bool_decide_unpack _) | apply not_elem_of_nil].

Lemma split_section R name c :
  safe_text name -> safe_text (SigLevel c) -> safe_text (Server c) ->
  split_byte (R ++ pacman_section name c) NL =
  split_byte R NL ++ section_header name :: section_lines c.
Proof.
  intros Hn Hs Hv. unfold pacman_section, section_lines. rewrite Paths.split_byte_app2. f_equal.
  rewrite split_line; [rewrite app_nil_r; f_equal| |no_nl].
  - destruct (SigLevel c) as [|x sl] eqn:E.
    + rewrite app_nil_l, <-(app_nil_r (line _ _)), split_line by no_nl. done.
    + rewrite <-E in *. rewrite split_line by no_nl.
      rewrite <-(app_nil_r (line (str "Server = ") _)), split_line by no_nl. done.
  - unfold section_header. apply safe_no_newline. rewrite !safe_app.
    split_and!; [by repeat constructor|done|by repeat constructor].
Qed.

Lemma header_trim name : trim_space (section_header name) = section_header name.
Proof. apply (trim_space_id "["%char name "]"%char); by_eval. Qed.

Lemma section_lines_plain c :
  Forall (fun l => has_prefix (trim_space l) (str "[") = false) (section_lines c).
Proof.
  assert (forall t, has_prefix (trim_space ("S"%char :: t)) (str "[") = false) as HS.
  { intros t. destruct (has_prefix _ _) eqn:E; [|done].
    apply trim_space_head in E; [done|by_eval]. }
  unfold section_lines. apply list.Forall_app. split.
  - destruct (SigLevel c); [constructor|]. constructor; [apply HS|constructor].
  - constructor; [apply HS|]. constructor; [by_eval|constructor].
Qed.

Lemma remove_appended R name c :
  safe_text name -> safe_text (SigLevel c) -> safe_text (Server c) ->
  no_header (section_header name) (split_byte R NL) ->
  removePacmanSection (R ++ pacman_section name c) name = R.
Proof.
  intros Hn Hs Hv HR. unfold removePacmanSection. rewrite split_section by done.
  rewrite drop_section_keeps by done. cbn [drop_section].
  rewrite header_trim, bool_decide_true by done.
  rewrite drop_section_drops; [|apply section_lines_plain|reflexivity].
  rewrite app_nil_r. apply join_split.
Qed.

(** What the edit leaves before the section has no header of the name. *)
Lemma kept_no_header conf name :
  safe_text name ->
  no_header (section_header name)
    (split_byte (if contains conf (section_header name) then removePacmanSection conf name else conf) NL).
Proof.
  intros Hn. destruct (contains conf (section_header name)) eqn:E.
  - unfold removePacmanSection.
    pose proof (drop_section_no_header (section_header name) (split_byte conf NL) false) as Hd.
    assert (Forall (fun w => NL ∉ w) (drop_section (section_header name) (split_byte conf NL) false)) as Hnl.
    { pose proof (Paths.split_byte_not_elem conf NL) as Hs. revert Hs. generalize (split_byte conf NL), false.
      induction l as [|w ws IH]; intros b Hs; simpl; [constructor|].
      assert (forall v, v ∈ ws -> NL ∉ v) by (intros v Hv; apply Hs; by right).
      case_bool_decide; [auto|]. destruct (b && _); [auto|]. constructor; [apply Hs; by left|auto]. }
    destruct (drop_section _ _ _) as [|w ws]; [by repeat constructor|].
    by rewrite Paths.split_join.
  - apply list.Forall_forall. intros l Hl Ht.
    apply split_elem_infix in Hl as (a & b & Hc). destruct (trim_space_infix l) as (a' & b' & Hl).
    rewrite Ht in Hl. assert (contains conf (section_header name) = true) as Ec; [|congruence].
    apply contains_spec. exists (a ++ a'), (b' ++ b). by rewrite Hc, Hl, <-!app_assoc.
Qed.

Lemma pacman_conf_idem conf name c :
  safe_text name -> safe_text (SigLevel c) -> safe_text (Server c) ->
  pacman_conf (pacman_conf conf name c) name c = pacman_conf conf name c.
Proof.
  intros Hn Hs Hv. pose proof (kept_no_header conf name Hn) as Hk.
  unfold pacman_conf at 2 3. revert Hk. generalize (if contains conf (section_header name)
    then removePacmanSection conf name else conf). intros R HR. unfold pacman_conf.
  assert (contains (R ++ pacman_section name c) (section_header name) = true) as ->.
  { apply contains_spec. unfold pacman_section, line.
    exists (R ++ [NL]). eexists. rewrite <-!app_assoc. simpl. rewrite <-!app_assoc. reflexivity. }
  by rewrite remove_appended.
Qed.

(** A URL parser that knows one scheme. *)
Definition https_only (u : gostring) : option URL :=
  if has_prefix u (str "https://") then Some (MkURL (str "https") (drop 8 u) false []) else None.

(** ** Generated files say exactly what was configured *)

Definition BLANKS : list ascii := [SPACE; TAB].

(** The fields of a deb822 stanza: comments skipped, values trimmed. *)
Definition deb822_field (l : gostring) : option (gostring * gostring) :=
  if has_prefix l (str "#") then None
  else match cut l ":"%char with
       | Some (k, v) => Some (k, trim_set v BLANKS)
       | None => None
       end.
Definition parse_deb822 (file : gostring) : list (gostring * gostring) :=
  omap deb822_field (split_byte file NL).

(** A repository file as dnf reads it: the sections with their options, comments and empty
    lines skipped, blanks around keys and values removed, a line that starts with a blank
    continuing the value before it; an option that holds a list is split at blanks, commas
    and line ends.  Variables are not substituted. *)
Inductive ini_value := Text (v : gostring) | Items (vs : list gostring).
Definition INI_BLANKS : list ascii := [SPACE; TAB; "013"%char].
Fixpoint pieces (s cur : gostring) : list gostring :=
  match s with
  | [] => flush cur
  | c :: s' => if bool_decide (c ∈ [SPACE; ","%char; NL]) then flush cur ++ pieces s' [] else pieces s' (cur ++ [c])
  end.
Definition ini_value_of (key v : gostring) : ini_value :=
  if bool_decide (key ∈ [str "baseurl"; str "gpgkey"]) then Items (pieces v []) else Text v.
Fixpoint continue (more : gostring) (es : list (gostring * gostring * gostring)) : list (gostring * gostring * gostring) :=
  match es with
  | [] => []
  | [(s, k, v)] => [(s, k, v ++ NL :: more)]
  | e :: rest => e :: continue more rest
  end.
Definition ini_line (st : gostring * list (gostring * gostring * gostring)) (l : gostring) : gostring * list (gostring * gostring * gostring) :=
  let trimmed := trim_set l INI_BLANKS in
  match l with
  | [] => st
  | c :: rest =>
      if bool_decide (c ∈ ["#"%char; ";"%char]) || bool_decide (trimmed = []) then st
      else if bool_decide (c ∈ INI_BLANKS) then (st.1, continue trimmed st.2)
      else if bool_decide (c = "["%char) then (match cut rest "]"%char with Some (name, _) => name | None => rest end, st.2)
      else match cut l "="%char with
           | Some (k, v) => (st.1, st.2 ++ [(st.1, trim_set k INI_BLANKS, trim_set v INI_BLANKS)])
           | None => st
           end
  end.
Definition read_ini (st : gostring * list (gostring * gostring * gostring)) (file : gostring) : gostring * list (gostring * gostring * gostring) :=
  foldl ini_line st (split_byte file NL).
Definition parse_ini (file : gostring) : list (gostring * gostring * ini_value) :=
  (fun e => (e.1, ini_value_of e.1.2 e.2)) <$> (read_ini ([], []) file).2.

(** Starts and ends with a byte that is not blank. *)
Definition edges_ok (v : gostring) : Prop :=
  (exists c t, v = c :: t /\ c ∉ BLANKS) /\ (exists t d, v = t ++ [d] /\ d ∉ BLANKS).

Lemma edges_app a m b : edges_ok a -> edges_ok b -> edges_ok (a ++ m ++ b).
Proof.
  intros [(c & t & -> & Hc) _] [_ (t' & d & -> & Hd)]. split.
  - exists c, (t ++ m ++ t' ++ [d]). done.
  - exists ((c :: t) ++ m ++ t'), d. by rewrite <-!app_assoc.
Qed.

Lemma edges_all v : v <> [] -> Forall (fun c => c ∉ BLANKS) v -> edges_ok v.
Proof.
  intros Hne Hv. split.
  - destruct v as [|c t]; [done|]. exists c, t. by apply list.Forall_cons in Hv as [? _].
  - destruct v as [|d t _] using rev_ind; [done|]. apply list.Forall_app in Hv as [_ Hd].
    rewrite list.Forall_singleton in Hd. by exists t, d.
Qed.

Lemma edges_join ws sep : ws <> [] -> Forall edges_ok ws -> edges_ok (join ws sep).
Proof.
  intros Hne Hw. induction Hw as [|w ws Hw Hws IH]; [done|].
  destruct ws as [|v ws]; [done|].
  change (join (w :: v :: ws) sep) with (w ++ sep ++ join (v :: ws) sep). apply edges_app; [done|].
  by apply IH.
Qed.

Lemma trim_value v : edges_ok v -> trim_set (SPACE :: v) BLANKS = v.
Proof.
  intros [(c & t & E & Hc) (t' & d & E' & Hd)]. unfold trim_set. cbn [trim_left_set].
  rewrite bool_decide_true by (by left). rewrite E. cbn [trim_left_set].
  rewrite bool_decide_false by done. rewrite <-E, E'. unfold trim_right_set. rewrite rev_unit.
  cbn [trim_left_set]. rewrite bool_decide_false by done. by rewrite <-rev_unit, rev_involutive.
Qed.

Lemma blank_control c : control_byte c = false -> c <> SPACE -> c ∉ BLANKS.
Proof.
  intros Hc Hs Hin. apply elem_of_cons in Hin as [->|Hin]; [done|].
  rewrite list_elem_of_singleton in Hin. by subst.
Qed.

Lemma class_not_blank (cls : ascii -> bool) :
  forallb (fun c => implb (cls c) (negb (bool_decide (c ∈ BLANKS)))) (ascii_of_nat <$> seq 0 256) = true ->
  forall c, cls c = true -> bool_decide (c ∈ BLANKS) = false.
Proof.
  intros Hall. apply (all_bytes (fun c => cls c = true -> bool_decide (c ∈ BLANKS) = false)
    (fun c => implb (cls c) (negb (bool_decide (c ∈ BLANKS))))); [|done].
  intros c Hi Hc. rewrite Hc in Hi. simpl in Hi. by apply negb_true_iff.
Qed.

Lemma matches_edges first rest v :
  (forall c, first c = true -> bool_decide (c ∈ BLANKS) = false) ->
  (forall c, rest c = true -> bool_decide (c ∈ BLANKS) = false) ->
  matches first rest v = true -> edges_ok v.
Proof.
  intros H1 H2 Hm. apply edges_all; [by intros ->|].
  eapply list.Forall_impl; [apply (matches_all _ _ _ _ H1 H2 Hm)|]. intros c. apply bool_decide_eq_false.
Qed.

Lemma name_edges v : validName v = true -> edges_ok v.
Proof. apply matches_edges; apply class_not_blank; by_eval. Qed.
Lemma arch_edges v : validAptArch v = true -> edges_ok v.
Proof. apply matches_edges; apply class_not_blank; by_eval. Qed.
Lemma arch_safe v : validAptArch v = true -> safe_text v.
Proof. apply matches_all; apply class_safe; by_eval. Qed.

Lemma url_edges u : u <> [] -> hasCtrlOrSpace u = false -> edges_ok u.
Proof.
  intros Hne Hu%existsb_false. apply edges_all; [done|]. eapply list.Forall_impl; [done|].
  intros c Hc. unfold control_or_space in Hc. apply orb_false_iff in Hc as [Hc _].
  apply N.leb_gt in Hc. intros Hin. apply elem_of_cons in Hin as [->|Hin]; [by vm_compute in Hc|].
  rewrite list_elem_of_singleton in Hin. subst. by vm_compute in Hc.
Qed.

(** What [validateApt] establishes. *)
Record apt_ok (c : AptConfig) : Prop := {
  ok_url : apt_URL c <> [] /\ hasCtrlOrSpace (apt_URL c) = false;
  ok_dist : Distribution c = [] \/ validAptDistribution (Distribution c) = true;
  ok_flat : Distribution c = [] -> Components c = [];
  ok_comps : Forall (fun w => validAptComponent w = true) (Components c);
  ok_arch : Arch c = [] \/ validAptArch (Arch c) = true
}.

Lemma check_components_ok cs :
  check_components cs = Ok tt -> Forall (fun w => validAptComponent w = true) cs.
Proof.
  induction cs as [|w cs IH]; simpl; [constructor|].
  rewrite result_seq_ok. intros [_ Hw]. destruct (validAptComponent w) eqn:E; [|done].
  simpl in Hw. constructor; auto.
Qed.

Lemma validateAptURL_ok Parse u :
  validateAptURL Parse u = Ok tt -> u <> [] /\ hasCtrlOrSpace u = false.
Proof.
  unfold validateAptURL, hasCtrlOrSpace. case_bool_decide; [done|].
  by destruct (existsb control_or_space u).
Qed.

(** An optional field: empty or of its grammar. *)
Lemma optional_ok {E} (v : gostring) (p : gostring -> bool) (e : E) (k : result E unit) :
  (if negb (bool_decide (v = [])) && negb (p v) then Err e else k) = Ok tt ->
  (v = [] \/ p v = true) /\ k = Ok tt.
Proof. case_bool_decide; simpl; [by auto|]. destruct (p v); simpl; [auto|done]. Qed.

Lemma validateApt_ok Parse c : validateApt Parse c = Ok tt -> apt_ok c.
Proof.
  unfold validateApt. rewrite result_seq_ok. intros [Hu%validateAptURL_ok Hv].
  rewrite result_seq_ok in Hv. destruct Hv as [_ Hv].
  apply optional_ok in Hv as [Hd Hv].
  destruct (bool_decide (Distribution c = []) && _) eqn:Ef; [done|].
  rewrite result_seq_ok in Hv. destruct Hv as [Hc%check_components_ok Hv].
  rewrite result_seq_ok in Hv. destruct Hv as [_ Hv]. apply optional_ok in Hv as [Ha _].
  constructor; try done. intros Hde. rewrite bool_decide_true in Ef by done. simpl in Ef. by go_bool.
Qed.


(** The fields of an apt source, as configured. *)
Definition apt_fields (name : gostring) (c : AptConfig) (keyFile : gostring)
    : list (gostring * gostring) :=
  [(str "Types", str "deb"); (str "URIs", apt_URL c);
   (str "Suites", match Distribution c with [] => str "/" | d => d end)] ++
  (match Components c with [] => [] | cs => [(str "Components", join cs [SPACE])] end) ++
  (match Arch c with [] => [] | a => [(str "Architectures", a)] end) ++
  (match apt_GPGKey c with
   | [] => if Trusted c then [(str "Trusted", str "yes")] else []
   | _ => [(str "Signed-By", keyFile)]
   end).

Definition aptKeyFile (name : gostring) : gostring := str "/etc/apt/keyrings/" ++ name ++ str ".gpg".

(** The options of a dnf repository, as configured: one section, the description without the
    blanks around it, and one base URL and one key, unless there are commas in them. *)
Definition comma_parts (s : gostring) : list gostring := List.filter (fun w => negb (bool_decide (w = []))) (split_byte s ","%char).
Definition dnf_options (name : gostring) (c : DnfConfig) : list (gostring * ini_value) :=
  [(str "name", Text (match Description c with [] => name | d => trim_set d INI_BLANKS end)); (str "baseurl", Items (comma_parts (BaseURL c)));
   (str "enabled", Text (if Enabled c then str "1" else str "0"))] ++
  (if GPGCheck c then (str "gpgcheck", Text (str "1")) ::
     match dnf_GPGKey c with [] => [] | k => [(str "gpgkey", Items (comma_parts k))] end
   else [(str "gpgcheck", Text (str "0"))]) ++
  (if ModuleHotfixes c then [(str "module_hotfixes", Text (str "1"))] else []).
Definition dnf_fields (name : gostring) (c : DnfConfig) : list (gostring * gostring * ini_value) :=
  (fun kv => (name, kv.1, kv.2)) <$> dnf_options name c.

Lemma omap_cons_eq {A B} (f : A -> option B) x l :
  omap f (x :: l) = match f x with Some y => y :: omap f l | None => omap f l end.
Proof. reflexivity. Qed.

(** One rendered line is one field, whatever follows. *)
Lemma deb822_line key v rest :
  ":"%char ∉ key -> has_prefix (key ++ str ": " ++ v) (str "#") = false ->
  NL ∉ key -> NL ∉ v -> edges_ok v ->
  parse_deb822 (line (key ++ str ": ") v ++ rest) = (key, v) :: parse_deb822 rest.
Proof.
  intros Hk Hh Hnk Hnv He. unfold parse_deb822. rewrite split_line by (no_nl || set_solver).
  rewrite omap_cons_eq, <-app_assoc. unfold deb822_field at 1. rewrite Hh.
  change (key ++ str ": " ++ v) with (key ++ ":"%char :: SPACE :: v). rewrite cut_app by done.
  by rewrite trim_value.
Qed.

(** Values that are safe to render: one line, no blank at either end. *)
Definition value_ok (v : gostring) : Prop := safe_text v /\ edges_ok v.

Lemma deb822_step (key : string) v rest :
  bool_decide (":"%char ∈ str key) = false -> bool_decide (NL ∈ str key) = false ->
  bool_decide (str key = []) = false -> has_prefix (str key) (str "#") = false -> value_ok v ->
  parse_deb822 (line (str key ++ str ": ") v ++ rest) = (str key, v) :: parse_deb822 rest.
Proof.
  intros H1 H2 H3 H4 [Hs He]. go_bool. apply deb822_line; try done; [|by apply safe_no_newline].
  destruct (str key) as [|c k]; [done|]. exact H4.
Qed.

Lemma deb822_nil : parse_deb822 [] = [].
Proof. reflexivity. Qed.

Lemma deb822_comment name rest :
  safe_text name -> parse_deb822 (line (str "# Repository: ") name ++ rest) = parse_deb822 rest.
Proof. intros Hn. unfold parse_deb822. rewrite split_line by no_nl. by rewrite omap_cons_eq. Qed.

Lemma literal_ok (v : string) :
  bool_decide (Forall (fun c => control_byte c = false /\ c <> SPACE) (str v)) = true -> str v <> [] ->
  value_ok (str v).
Proof.
  rewrite bool_decide_eq_true. intros Hv Hne. split.
  - eapply list.Forall_impl; [done|]. by intros c [? _].
  - apply edges_all; [done|]. eapply list.Forall_impl; [done|]. intros c [? ?]. by apply blank_control.
Qed.

Lemma component_ok w : validAptComponent w = true -> value_ok w.
Proof. intros Hw. split; [by apply validName_safe|by apply name_edges]. Qed.

Lemma safe_join ws : Forall safe_text ws -> safe_text (join ws [SPACE]).
Proof.
  intros Hw. induction Hw as [|w ws Hw Hws IH]; [constructor|].
  destruct ws as [|v ws]; [done|].
  change (join (w :: v :: ws) [SPACE]) with (w ++ [SPACE] ++ join (v :: ws) [SPACE]).
  rewrite !safe_app. split_and!; [done|by repeat constructor|done].
Qed.

Lemma components_ok ws :
  ws <> [] -> Forall (fun w => validAptComponent w = true) ws -> value_ok (join ws [SPACE]).
Proof.
  intros Hne Hw. split.
  - apply safe_join. eapply list.Forall_impl; [done|]. intros w Hc. by apply component_ok.
  - apply edges_join; [done|]. eapply list.Forall_impl; [done|]. intros w Hc. by apply component_ok.
Qed.

Lemma keyfile_ok name : safe_text name -> value_ok (aptKeyFile name).
Proof.
  intros Hn. unfold aptKeyFile. split.
  - rewrite !safe_app. split_and!; [by repeat constructor|done|by repeat constructor].
  - apply edges_app; apply edges_all; try done;
      (eapply (list.Forall_impl (fun c => bool_decide (c ∈ BLANKS) = false));
       [by repeat constructor|intros c; apply bool_decide_eq_false]).
Qed.

Ltac deb key := rewrite (deb822_step key) by (reflexivity || (by apply literal_ok) || by auto).

Lemma suites_parse c rest :
  apt_ok c ->
  parse_deb822 ((match Distribution c with [] => line (str "Suites: /") []
                 | d => line (str "Suites: ") d end) ++ rest)
  = (str "Suites", match Distribution c with [] => str "/" | d => d end) :: parse_deb822 rest.
Proof.
  intros [_ Hd _ _ _]. destruct (Distribution c) as [|x d] eqn:E.
  - change (line (str "Suites: /") []) with (line (str "Suites" ++ str ": ") (str "/")).
    by deb "Suites"%string.
  - rewrite <-E in *. change (line (str "Suites: ") (Distribution c))
      with (line (str "Suites" ++ str ": ") (Distribution c)).
    rewrite (deb822_step "Suites") by (reflexivity || (apply component_ok; destruct Hd; [congruence|done])).
    by rewrite E.
Qed.

Lemma components_parse c rest :
  apt_ok c ->
  parse_deb822 ((match Components c with [] => []
                 | cs => line (str "Components: ") (join cs [SPACE]) end) ++ rest)
  = (match Components c with [] => [] | cs => [(str "Components", join cs [SPACE])] end)
    ++ parse_deb822 rest.
Proof.
  intros [_ _ _ Hc _]. destruct (Components c) as [|w cs] eqn:E; [done|]. rewrite <-E in *.
  change (line (str "Components: ") (join (Components c) [SPACE]))
    with (line (str "Components" ++ str ": ") (join (Components c) [SPACE])).
  by rewrite (deb822_step "Components") by (reflexivity || (apply components_ok; [by rewrite E|done])).
Qed.

Lemma arch_parse c rest :
  apt_ok c ->
  parse_deb822 ((match Arch c with [] => [] | a => line (str "Architectures: ") a end) ++ rest)
  = (match Arch c with [] => [] | a => [(str "Architectures", a)] end) ++ parse_deb822 rest.
Proof.
  intros [_ _ _ _ Ha]. destruct (Arch c) as [|x a] eqn:E; [done|]. rewrite <-E in *.
  change (line (str "Architectures: ") (Arch c)) with (line (str "Architectures" ++ str ": ") (Arch c)).
  by rewrite (deb822_step "Architectures")
    by (reflexivity || (destruct Ha; [congruence|]; split; [by apply arch_safe|by apply arch_edges])).
Qed.

Lemma trust_parse name c :
  safe_text name ->
  parse_deb822 (match apt_GPGKey c with
                | [] => if Trusted c then line (str "Trusted: yes") [] else []
                | _ => line (str "Signed-By: ") (aptKeyFile name)
                end)
  = match apt_GPGKey c with
    | [] => if Trusted c then [(str "Trusted", str "yes")] else []
    | _ => [(str "Signed-By", aptKeyFile name)]
    end.
Proof.
  intros Hn. destruct (apt_GPGKey c) as [|x k].
  - destruct (Trusted c); [|done]. rewrite <-(app_nil_r (line _ _)).
    change (line (str "Trusted: yes") []) with (line (str "Trusted" ++ str ": ") (str "yes")).
    by deb "Trusted"%string.
  - rewrite <-(app_nil_r (line _ _)).
    change (line (str "Signed-By: ") (aptKeyFile name))
      with (line (str "Signed-By" ++ str ": ") (aptKeyFile name)).
    by rewrite (deb822_step "Signed-By") by (reflexivity || by apply keyfile_ok).
Qed.

Lemma apt_parse name c :
  safe_text name -> apt_ok c ->
  parse_deb822 (buildAptSources name c (aptKeyFile name)) = apt_fields name c (aptKeyFile name).
Proof.
  intros Hn Hok. pose proof Hok as [[Hne Hu] _ _ _ _]. unfold buildAptSources, apt_fields.
  rewrite deb822_comment by done.
  change (line (str "Types: deb") []) with (line (str "Types" ++ str ": ") (str "deb")).
  change (line (str "URIs: ") (apt_URL c)) with (line (str "URIs" ++ str ": ") (apt_URL c)).
  deb "Types"%string.
  rewrite (deb822_step "URIs")
    by (reflexivity || (split; [by apply space_is_control|by apply url_edges])).
  by rewrite suites_parse, components_parse, arch_parse, trust_parse.
Qed.

(** What [validateDnf] establishes. *)
Lemma ValidateGpgKeyRef_nospace Parse k : ValidateGpgKeyRef Parse k = true -> hasCtrlOrSpace k = false.
Proof. unfold ValidateGpgKeyRef. case_bool_decide; [done|]. by destruct (hasCtrlOrSpace k). Qed.
Lemma ValidateRepoBaseURL_nospace Parse u : ValidateRepoBaseURL Parse u = true -> hasCtrlOrSpace u = false.
Proof. unfold ValidateRepoBaseURL. case_bool_decide; [done|]. by destruct (hasCtrlOrSpace u). Qed.

Lemma validateDnf_ok Parse c :
  validateDnf Parse c = Ok tt ->
  safe_text (Description c) /\ hasCtrlOrSpace (BaseURL c) = false /\ hasCtrlOrSpace (dnf_GPGKey c) = false.
Proof.
  unfold validateDnf, rejectControl. case_bool_decide; [done|]. rewrite result_seq_ok. intros [Hd Hv].
  destruct (hasControl (Description c)) eqn:Ec; [done|].
  destruct (ValidateRepoBaseURL Parse (BaseURL c)) eqn:Eu; [|done]. cbn [negb] in Hv.
  apply optional_ok in Hv as [Hk _]. split_and!.
  - by apply hasControl_false.
  - by eapply ValidateRepoBaseURL_nospace.
  - destruct Hk as [->|Hk]; [done|by eapply ValidateGpgKeyRef_nospace].
Qed.

(** *** Reading a dnf repository *)

Lemma nospace_elem u c : hasCtrlOrSpace u = false -> control_or_space c = true -> c ∉ u.
Proof. intros Hu%existsb_false Hc Hin. rewrite list.Forall_forall in Hu. by rewrite Hu in Hc. Qed.
Lemma pieces_commas s cur : hasCtrlOrSpace s = false -> ","%char ∉ cur -> pieces s cur = comma_parts (cur ++ s).
Proof.
  unfold comma_parts. revert cur. induction s as [|c s IH]; intros cur Hs Hc; cbn [pieces].
  - rewrite app_nil_r, Paths.split_byte_self by done. by destruct cur.
  - unfold hasCtrlOrSpace in Hs. cbn [existsb] in Hs. apply orb_false_iff in Hs as [Hx Hs]. case_bool_decide as E.
    + assert (c = ","%char) as ->.
      { rewrite !elem_of_cons, elem_of_nil in E. destruct E as [->|[->|[->|[]]]]; done. }
      rewrite IH by (done || apply not_elem_of_nil). cbn [app]. rewrite Paths.split_byte_app by done. cbn [List.filter]. by destruct cur.
    + rewrite IH; [by rewrite <- app_assoc|done|]. rewrite not_elem_of_app. split; [done|].
      rewrite list_elem_of_singleton. intros <-. apply E. right. left.
Qed.
Lemma comma_parts_one s : s <> [] -> ","%char ∉ s -> comma_parts s = [s].
Proof. intros Hne Hs. unfold comma_parts. rewrite Paths.split_byte_self by done. by destruct s. Qed.
Lemma trim_left_none s set : (forall c, c ∈ s -> c ∉ set) -> trim_left_set s set = s.
Proof. intros H. destruct s as [|c s]; [done|]. cbn [trim_left_set]. rewrite bool_decide_false; [done|apply H; left]. Qed.
Lemma trim_set_none s set : (forall c, c ∈ s -> c ∉ set) -> trim_set s set = s.
Proof.
  intros H. unfold trim_set, trim_right_set. rewrite (trim_left_none s) by done. rewrite trim_left_none; [apply rev_involutive|].
  intros c Hc. apply H. rewrite list_elem_of_In in *. by apply in_rev.
Qed.
Lemma trim_nospace u : hasCtrlOrSpace u = false -> trim_set u INI_BLANKS = u.
Proof.
  intros Hu. apply trim_set_none. intros c Hc Hb. revert Hc. apply nospace_elem; [done|]. unfold INI_BLANKS in Hb.
  rewrite !elem_of_cons, elem_of_nil in Hb. by destruct Hb as [->|[->|[->|[]]]].
Qed.
Lemma class_nospace (cls : ascii -> bool) :
  forallb (fun c => implb (cls c) (negb (control_or_space c))) (ascii_of_nat <$> seq 0 256) = true ->
  forall c, cls c = true -> control_or_space c = false.
Proof.
  intros Hall. apply (all_bytes (fun c => cls c = true -> control_or_space c = false) (fun c => implb (cls c) (negb (control_or_space c)))); [|done].
  intros c Hi Hc. rewrite Hc in Hi. simpl in Hi. by apply negb_true_iff.
Qed.
Lemma name_nospace v : validName v = true -> hasCtrlOrSpace v = false.
Proof. intros Hv. apply existsb_false. revert Hv. apply matches_all; apply class_nospace; by_eval. Qed.

(** A key of the generated file: it starts no comment, section or continuation. *)
Definition plain_key (key : gostring) : bool :=
  match key with
  | [] => false
  | c :: _ => negb (bool_decide (c ∈ ["#"%char; ";"%char; "["%char; SPACE; TAB; "013"%char])) && bool_decide ("="%char ∉ key) &&
              bool_decide (NL ∉ key) && bool_decide (trim_set key INI_BLANKS = key)
  end.
Lemma ini_step (key : string) v rest sec es :
  plain_key (str key) = true -> safe_text v ->
  read_ini (sec, es) (line (str key ++ str "=") v ++ rest) = read_ini (sec, es ++ [(sec, str key, trim_set v INI_BLANKS)]) rest.
Proof.
  intros Hk Hv. unfold plain_key in Hk. destruct (str key) as [|c k] eqn:Ek; [done|]. go_bool.
  unfold read_ini. rewrite split_line by (set_solver || by apply safe_no_newline). cbn [foldl]. f_equal.
  rewrite <- app_assoc. cbn [app]. unfold ini_line. cbv zeta. rewrite (bool_decide_false (c ∈ ["#"%char; ";"%char])) by set_solver.
  assert (Ht : trim_set (c :: k ++ str "=" ++ v) INI_BLANKS <> []).
  { unfold trim_set. cbn [trim_left_set]. rewrite bool_decide_false by (unfold INI_BLANKS; set_solver). unfold trim_right_set. intros E.
    apply (f_equal (@rev ascii)) in E. rewrite rev_involutive in E. cbn [rev] in E. revert E.
    generalize (rev (k ++ str "=" ++ v)) as r. intros r. induction r as [|x r IH]; cbn [app trim_left_set].
    - by rewrite bool_decide_false by (unfold INI_BLANKS; set_solver).
    - case_bool_decide; [exact IH|done]. }
  rewrite (bool_decide_false _ Ht). cbn [orb]. rewrite (bool_decide_false (c ∈ INI_BLANKS)) by (unfold INI_BLANKS; set_solver).
  rewrite bool_decide_false by set_solver. change (c :: k ++ str "=" ++ v) with ((c :: k) ++ "="%char :: v).
  rewrite cut_app by done. cbn [fst snd]. match goal with H : trim_set (c :: k) _ = _ |- _ => by rewrite H end.
Qed.
Lemma ini_flag (key v : string) rest sec es :
  plain_key (str key) = true -> bool_decide (Forall (fun c => control_byte c = false) (str v)) = true ->
  read_ini (sec, es) (line (str key ++ str "=" ++ str v) [] ++ rest) = read_ini (sec, es ++ [(sec, str key, trim_set (str v) INI_BLANKS)]) rest.
Proof.
  intros Hk Hv%bool_decide_eq_true. rewrite <- ini_step by done. f_equal. unfold line. by rewrite app_nil_l, <-!app_assoc.
Qed.
Lemma ini_header name rest es :
  validName name = true -> read_ini ([], es) (line (str "[" ++ name ++ str "]") [] ++ rest) = read_ini (name, es) rest.
Proof.
  intros Hn. pose proof (name_nospace name Hn) as Hs. unfold read_ini.
  assert (Hb : "]"%char ∉ name).
  { intros Hin. assert (Hf : Forall (fun c => bool_decide (c = "]"%char) = false) name).
    { revert Hn. apply matches_all; intros c Hc; apply bool_decide_eq_false; intros ->; by vm_compute in Hc. }
    rewrite list.Forall_forall in Hf. specialize (Hf _ Hin). by apply bool_decide_eq_false in Hf. }
  rewrite split_line; [|apply safe_no_newline; rewrite !safe_app; split_and!; [by repeat constructor|by apply space_is_control|by repeat constructor]|apply not_elem_of_nil].
  cbn [foldl]. f_equal. rewrite app_nil_r. change (str "[" ++ name ++ str "]") with ("["%char :: (name ++ "]"%char :: [])).
  unfold ini_line. cbv zeta. rewrite trim_set_none.
  - rewrite (cut_app name) by done. reflexivity.
  - intros c Hc Hbl. unfold INI_BLANKS in Hbl. rewrite !elem_of_cons, elem_of_nil in Hbl. apply elem_of_cons in Hc as [->|Hc]; [by destruct Hbl as [?|[?|[?|[]]]]|].
    apply elem_of_app in Hc as [Hc|Hc]; [|apply list_elem_of_singleton in Hc as ->; by destruct Hbl as [?|[?|[?|[]]]]].
    revert Hc. apply nospace_elem; [done|]. by destruct Hbl as [->|[->|[->|[]]]].
Qed.

Ltac flag key v := rewrite (ini_flag key v) by reflexivity; change (trim_set (str v) INI_BLANKS) with (str v).

Lemma dnf_parse name c :
  validName name = true -> safe_text (Description c) -> hasCtrlOrSpace (BaseURL c) = false -> hasCtrlOrSpace (dnf_GPGKey c) = false ->
  parse_ini (dnf_content name c) = dnf_fields name c.
Proof.
  intros Hn Hd Hu Hk. unfold parse_ini, dnf_content. rewrite ini_header by done.
  assert (forall rest, read_ini (name, []) ((match Description c with [] => line (str "name=") name | d => line (str "name=") d end) ++ rest)
          = read_ini (name, [(name, str "name", match Description c with [] => name | d => trim_set d INI_BLANKS end)]) rest) as ->.
  { intros rest. destruct (Description c).
    - rewrite (ini_step "name") by (reflexivity || by apply validName_safe). cbn [app]. by rewrite trim_nospace by by apply name_nospace.
    - by rewrite (ini_step "name") by (reflexivity || done). }
  rewrite (ini_step "baseurl") by (reflexivity || by apply space_is_control). rewrite trim_nospace by done. cbn [app].
  assert (forall rest es, read_ini (name, es) ((if Enabled c then line (str "enabled=1") [] else line (str "enabled=0") []) ++ rest)
          = read_ini (name, es ++ [(name, str "enabled", if Enabled c then str "1" else str "0")]) rest) as ->
    by (intros rest es; destruct (Enabled c); [by flag "enabled"%string "1"%string|by flag "enabled"%string "0"%string]).
  assert (forall rest es, read_ini (name, es) ((if GPGCheck c then line (str "gpgcheck=1") [] ++ (match dnf_GPGKey c with [] => [] | k => line (str "gpgkey=") k end)
                else line (str "gpgcheck=0") []) ++ rest)
          = read_ini (name, es ++ (if GPGCheck c then (name, str "gpgcheck", str "1") :: match dnf_GPGKey c with [] => [] | k => [(name, str "gpgkey", k)] end
             else [(name, str "gpgcheck", str "0")])) rest) as ->.
  { intros rest es. destruct (GPGCheck c); [|by flag "gpgcheck"%string "0"%string]. rewrite <- app_assoc. flag "gpgcheck"%string "1"%string.
    revert Hk. destruct (dnf_GPGKey c) as [|x k]; [done|]. intros Hk. rewrite (ini_step "gpgkey") by (reflexivity || by apply space_is_control).
    by rewrite trim_nospace, <- app_assoc. }
  assert (forall es, (read_ini (name, es) (if ModuleHotfixes c then line (str "module_hotfixes=1") [] else [])).2
          = es ++ (if ModuleHotfixes c then [(name, str "module_hotfixes", str "1")] else [])) as ->.
  { intros es. destruct (ModuleHotfixes c); [|by rewrite app_nil_r]. rewrite <- (app_nil_r (line _ _)). by flag "module_hotfixes"%string "1"%string. }
  assert (Hitems : forall u, hasCtrlOrSpace u = false -> pieces u [] = comma_parts u) by (intros u Hu'; by apply (pieces_commas u []), not_elem_of_nil).
  unfold dnf_fields, dnf_options. rewrite <- (Hitems (BaseURL c)) by done. revert Hk. clear -Hitems.
  destruct (GPGCheck c), (dnf_GPGKey c) as [|x k], (ModuleHotfixes c); intros Hk; try reflexivity; rewrite <- (Hitems (x :: k)) by done; reflexivity.
Qed.

Lemma no_space_split u : hasCtrlOrSpace u = false -> split_byte u SPACE = [u].
Proof.
  intros Hu%existsb_false. apply Paths.split_byte_self. intros Hin.
  rewrite list.Forall_forall in Hu. by specialize (Hu SPACE Hin).
Qed.

Lemma components_split ws :
  ws <> [] -> Forall (fun w => validAptComponent w = true) ws ->
  split_byte (join ws [SPACE]) SPACE = ws.
Proof.
  intros Hne Hw. apply Paths.split_join; [done|]. eapply list.Forall_impl; [done|]. intros w Hc Hin.
  assert (Forall (fun c => bool_decide (c ∈ BLANKS) = false) w) as Hf
    by (revert Hc; apply matches_all; apply class_not_blank; by_eval).
  rewrite list.Forall_forall in Hf. by specialize (Hf SPACE Hin).
Qed.

(** C35: no field of a validated repository can smuggle configuration into the
    generated file: reading an apt source back gives exactly the configured
    fields, in order, with one URI and the configured component list, and
    reading a dnf repository the way dnf does gives its own section with exactly the
    configured options, in order: the description without the blanks around it, and base URLs
    and keys split at commas only, so one of each where there is no comma in them. *)
Theorem repo_files_parse_back Parse name :
  validateName name = Ok tt ->
  (forall c, validateApt Parse c = Ok tt ->
   parse_deb822 (buildAptSources name c (aptKeyFile name)) = apt_fields name c (aptKeyFile name) /\
   split_byte (apt_URL c) SPACE = [apt_URL c] /\
   (Components c <> [] -> split_byte (join (Components c) [SPACE]) SPACE = Components c)) /\
  (forall c, validateDnf Parse c = Ok tt ->
   parse_ini (dnf_content name c) = dnf_fields name c /\
   (","%char ∉ BaseURL c -> comma_parts (BaseURL c) = [BaseURL c]) /\
   (dnf_GPGKey c <> [] -> ","%char ∉ dnf_GPGKey c -> comma_parts (dnf_GPGKey c) = [dnf_GPGKey c])).
Proof.
  intros [Hn _]%validateName_ok. split; intros c Hc.
  - apply validateApt_ok in Hc as Hok. split_and!; [by apply apt_parse; [apply validName_safe|]| |].
    + apply no_space_split. apply Hok.
    + intros Hne. apply components_split; [done|apply Hok].
  - assert (Hne : BaseURL c <> []) by (unfold validateDnf in Hc; by case_bool_decide).
    apply validateDnf_ok in Hc as (? & ? & ?). split_and!; [by apply dnf_parse|intros ?; by apply comma_parts_one|intros ? ?; by apply comma_parts_one].
Qed.

(** A URL with a comma in its path passes the validation, and dnf reads two of them, the
    second with a scheme and a host that were never looked at. *)
Lemma comma_adds_baseurl :
  let u := str "https://a/x,http://evil/" in
  let c := MkDnf u [] true true [] false in
  validateDnf (fun s => if bool_decide (s = u) then Some (MkURL (str "https") (str "a") false (str "/x,http://evil/")) else None) c = Ok tt /\
  (str "corp", str "baseurl", Items [str "https://a/x"; str "http://evil/"]) ∈ parse_ini (dnf_content (str "corp") c).
Proof. split; [by_eval|]. apply list_elem_of_In. vm_compute. right. left. reflexivity. Qed.

Definition demo_apt : AptConfig :=
  MkApt (str "https://deb.example/x") (str "bookworm") [str "main"; str "contrib"] (str "amd64") (str "KEY") true.

Lemma repo_files_parse_back_witness :
  validateApt https_only demo_apt = Ok tt /\
  parse_deb822 (buildAptSources (str "corp") demo_apt (aptKeyFile (str "corp")))
  = apt_fields (str "corp") demo_apt (aptKeyFile (str "corp")).
Proof.
  assert (validateApt https_only demo_apt = Ok tt) as Ha by by_eval.
  split; [exact Ha|].
  destruct (repo_files_parse_back https_only (str "corp") ltac:(vm_compute; reflexivity)) as [H _].
  exact (proj1 (H demo_apt Ha)).
Defined.

End Repo.
