(* ===== verification/Reboot.v ===== *)
(** * Reboot scheduling ([src/sys/reboot/reboot.go])

    Detection, scheduling and cancellation through the command runner; the
    presence of the marker file is a parameter. *)
From S2P Require Import Prelude Exec.

Module Reboot.
Import Exec.

Inductive stat_result := Present | Absent | StatError (msg : gostring).

Inductive reboot_error :=
| StatMarker (msg : gostring)
| RunError (op : gostring) (e : exec_error)
| ExitError (op : gostring) (code : Z) (stderr : gostring)
| InvalidDelay (delay : gostring)
| DelayTooShort (delay : gostring)
| InvalidMessage.

Definition command (name : gostring) (args : list gostring) (escalate : bool) : Command :=
  MkCommand name args [] [] [] escalate.

(** [IsRequired]: the command it ran, if any, and the answer. *)
Definition IsRequired (marker : stat_result) (r : Runner) : option Command * result reboot_error bool :=
  match marker with
  | Present => (None, Ok true)
  | StatError msg => (None, Err (StatMarker msg))
  | Absent =>
      let c := command (str "needs-restarting") [str "-r"] false in
      (Some c,
       match r c with
       | Err (ErrBackendUnavailable _) => Ok false
       | Err e => Err (RunError (str "run needs-restarting") e)
       | Ok res => Ok (ExitCode res =? 1)%Z
       end)
  end.

Definition minRebootGraceMinutes : Z := 1.

(** [strings.CutPrefix(delay, "+")]. *)
Definition cut_plus (delay : gostring) : option gostring :=
  match delay with
  | c :: rest => if bool_decide (c = "+"%char) then Some rest else None
  | [] => None
  end.

Definition validateDelay (delay : gostring) : result reboot_error unit :=
  match cut_plus delay with
  | None | Some [] => Err (InvalidDelay delay)
  | Some digits =>
      if negb (forallb is_digit digits) then Err (InvalidDelay delay)
      else match atoi digits with
           | None => Err (InvalidDelay delay)
           | Some n => if (n <? minRebootGraceMinutes)%Z then Err (DelayTooShort delay) else Ok tt
           end
  end.

Definition control_byte (c : ascii) : bool := (byte_val c <? 32)%N || (byte_val c =? 127)%N.
Definition validateMessage (message : gostring) : result reboot_error unit :=
  if existsb control_byte message then Err InvalidMessage else Ok tt.

Definition shutdown (r : Runner) (op : gostring) (args : list gostring)
    : option Command * result reboot_error unit :=
  let c := command (str "shutdown") args true in
  (Some c,
   match r c with
   | Err e => Err (RunError op e)
   | Ok res => if (ExitCode res =? 0)%Z then Ok tt
               else Err (ExitError op (ExitCode res) (Stderr res))
   end).

Record ScheduleOptions := MkScheduleOptions { Delay : gostring; Message : gostring }.

Definition Schedule (r : Runner) (opts : ScheduleOptions) : option Command * result reboot_error unit :=
  let delay := match Delay opts with [] => str "+1" | d => d end in
  match validateDelay delay with
  | Err e => (None, Err e)
  | Ok _ =>
      match validateMessage (Message opts) with
      | Err e => (None, Err e)
      | Ok _ =>
          shutdown r (str "schedule reboot")
            ([str "-r"; delay] ++ match Message opts with [] => [] | m => [m] end)
      end
  end.

Definition Cancel (r : Runner) : option Command * result reboot_error unit :=
  shutdown r (str "cancel reboot") [str "-c"].

(** ** A reboot always leaves a grace window *)

(** A relative offset in minutes. *)
Definition minutes (delay : gostring) (n : Z) : Prop :=
  exists digits, delay = "+"%char :: digits /\ digits <> [] /\ forallb is_digit digits = true /\
                 digits_val digits = n.

Lemma digits_head c ds :
  forallb is_digit (c :: ds) = true ->
  bool_decide (c = "-"%char) = false /\ bool_decide (c = "+"%char) = false.
Proof.
  simpl. intros H. go_bool. split; apply bool_decide_false; intros ->; by vm_compute in *.
Qed.

Lemma atoi_digits c ds n :
  forallb is_digit (c :: ds) = true ->
  atoi (c :: ds) = Some n <-> digits_val (c :: ds) = n /\ (int_min <= n <= int_max)%Z.
Proof.
  intros Hd. destruct (digits_head c ds Hd) as [H1 H2]. unfold atoi. rewrite H1, H2, Hd.
  destruct (_ && _)%Z eqn:E.
  - apply andb_true_iff in E as [E1%Z.leb_le E2%Z.leb_le]. naive_solver.
  - apply andb_false_iff in E as [E%Z.leb_gt|E%Z.leb_gt]; split; try done; intros [<- ?]; lia.
Qed.

Lemma validateDelay_ok delay :
  validateDelay delay = Ok tt <->
  exists n, minutes delay n /\ (minRebootGraceMinutes <= n <= int_max)%Z.
Proof.
  unfold validateDelay, minutes, minRebootGraceMinutes. destruct delay as [|c rest]; cbn [cut_plus].
  { split; [done|]. by intros (n & (ds & [=] & _) & _). }
  case_bool_decide as Hc; [subst|split; [done|by intros (n & (ds & [= -> _] & _) & _)]].
  destruct rest as [|d ds]; [split; [done|by intros (n & (ds & [= <-] & ? & _) & _)]|].
  destruct (forallb is_digit (d :: ds)) eqn:Hd; cbn [negb].
  2: { split; [done|]. intros (n & (digits & [= <-] & _ & Hx & _) & _). congruence. }
  pose proof (atoi_digits d ds) as Ha. destruct (atoi (d :: ds)) as [n|].
  - destruct (proj1 (Ha n Hd) eq_refl) as [Hv Hr].
    destruct (n <? 1)%Z eqn:E; go_bool; (split; [try done|]).
    + intros (m & (digits & [= <-] & _ & _ & <-) & ?). lia.
    + intros _. exists n. split; [by exists (d :: ds)|lia].
    + done.
  - split; [done|]. intros (m & (digits & [= <-] & _ & _ & Hm) & Hr).
    assert (None = Some m) as Hf; [|done]. apply Ha; [done|]. split; [done|].
    unfold int_min. lia.
Qed.

(** scheduling runs at most one command, and that is an escalated
    [shutdown -r +N] with N at least one minute and no control character in the
    message, whatever delay and message were asked for; [now], [+0], clock times,
    signs and junk run nothing and return an error. *)
Theorem Schedule_grace r opts :
  match (Schedule r opts).1 with
  | Some c =>
      Name c = str "shutdown" /\ Escalate c = true /\ existsb control_byte (Message opts) = false /\
      exists delay n, Args c = [str "-r"; delay] ++ (match Message opts with [] => [] | m => [m] end) /\
        minutes delay n /\ (1 <= n <= int_max)%Z /\ (Delay opts = [] \/ delay = Delay opts)
  | None =>
      (exists e, (Schedule r opts).2 = Err e) /\
      (existsb control_byte (Message opts) = true \/
       (Delay opts <> [] /\ forall n, minutes (Delay opts) n -> ~ (1 <= n <= int_max)%Z))
  end.
Proof.
  unfold Schedule. set (delay := match Delay opts with [] => _ | _ => _ end).
  pose proof (validateDelay_ok delay) as Hd. unfold validateMessage.
  destruct (validateDelay delay) as [[]|e] eqn:E.
  - destruct (proj1 Hd eq_refl) as (n & Hm & Hn).
    destruct (existsb control_byte (Message opts)); simpl; [eauto|]. split_and!; try done.
    exists delay, n. split_and!; try done; try apply Hn. unfold delay. destruct (Delay opts); auto.
  - simpl. split; [eauto|]. right. unfold delay in *. destruct (Delay opts) as [|x d]; [by vm_compute in E|].
    split; [done|]. intros n Hm Hn. assert (Err e = Ok tt) as Hf; [|done]. apply Hd. eauto.
Qed.

(** A message is an operand without an end-of-options marker: a message that
    starts with a dash is read by shutdown as an option, here as a request to
    cancel. *)
Lemma message_as_option r :
  (Schedule r (MkScheduleOptions (str "+5") (str "-c"))).1
  = Some (command (str "shutdown") [str "-r"; str "+5"; str "-c"] true).
Proof. reflexivity. Qed.

End Reboot.
