(* ===== verification/Terminal.v ===== *)
(** * Terminal sessions ([src/sys/terminal])

    [Open] with its guards and the shell's environment, the UID mapping of the
    dedicated TTY users, and the life of a session: the reaper goroutine and any
    number of [Close], [Resize] and [Wait] calls interleave as a step relation
    over the shared [Session].  The user database, the file system, the process
    ids of the agent and [pty.StartWithSize] are parameters. *)
From S2P Require Import Prelude Paths Exec.
From Stdlib Require Import NArith.

Module Terminal.

(** ** TTY users ([users.go]) *)

Definition DefaultUIDOffset : Z := 100000.
Definition TTYUsernamePrefix : gostring := str "pm-tty-".
Definition TTYUsername (linuxUsername : gostring) : gostring := TTYUsernamePrefix ++ linuxUsername.
(** Go's [int] addition and subtraction wrap at 64 bits. *)
Definition TTYUID (linuxUID offset : Z) : Z := Exec.wrap64 (linuxUID + offset).
Definition OriginalUID (ttyUID offset : Z) : Z := Exec.wrap64 (ttyUID - offset).

(** ** Opening a session ([terminal.go]: [Open], [defaultWorkDir], [buildEnv]) *)

Definition DefaultShell : gostring := str "/bin/bash".
Definition DefaultCols : N := 80.
Definition DefaultRows : N := 24.

(** [Cols] and [Rows] are 16-bit. *)
Record SessionConfig := MkSessionConfig {
  User : gostring; Shell : gostring; Cols : N; Rows : N; Env : list gostring; WorkDir : gostring
}.

(** What the package reads of [user.User] and of [os.FileInfo]. *)
Record UserRec := MkUserRec {
  Uid : gostring; Gid : gostring; Username : gostring; HomeDir : gostring
}.
Record FileInfo := MkFileInfo { IsDir : bool; Mode : N }.

Inductive term_error :=
| CtxErr (e : gostring)
| UserRequired
| LookupFailed (u : gostring)
| ParseUid (s : gostring)
| ParseGid (s : gostring)
| ShellNotAbs (s : gostring)
| ShellStat (s : gostring)
| ShellIsDir (s : gostring)
| ShellNotExec (s : gostring)
| StartPty
| InvalidDims (cols rows : N)
| ErrClosed
| SysError (msg : gostring).

(** [strconv.ParseUint(s, 10, 32)]. *)
Definition ParseUint32 (s : gostring) : option Z :=
  match s with
  | [] => None
  | _ => if forallb is_digit s then
           if (digits_val s <? 2 ^ 32)%Z then Some (digits_val s) else None
         else None
  end.

(** Conversion of an [int] to [uint32]. *)
Definition uint32 (z : Z) : Z := (z mod 2 ^ 32)%Z.

(** What [pty.StartWithSize] is given. *)
Record Launch := MkLaunch {
  l_path : gostring; l_args : list gostring; l_dir : gostring; l_env : list gostring;
  l_setsid : bool; l_cred : option (Z * Z); l_cols : N; l_rows : N
}.

Record System := MkSystem {
  ctx_Err : option gostring;
  lookupUser : gostring -> option UserRec;
  getuid : Z; getgid : Z;
  Stat : gostring -> option FileInfo;
  StartWithSize : Launch -> bool
}.

Definition defaultWorkDir (sys : System) (u : UserRec) : gostring :=
  match HomeDir u with
  | [] => str "/tmp"
  | h => match Stat sys h with
         | Some info => if IsDir info then h else str "/tmp"
         | None => str "/tmp"
         end
  end.

(** The key an entry puts into [have]: the part before an [=] that is not first. *)
Definition have_key (e : gostring) : option gostring :=
  match index_byte e "="%char with
  | Some i => if 0 <? i then Some (take i e) else None
  | None => None
  end.

Definition add_default (have : list gostring) (kv : gostring * gostring) : list gostring :=
  let '(k, v) := kv in
  if bool_decide (v = []) then []
  else if bool_decide (k ∈ have) then []
  else [k ++ str "=" ++ v].

Definition defaults (u : UserRec) (shell : gostring) : list (gostring * gostring) :=
  [(str "HOME", HomeDir u); (str "USER", Username u); (str "LOGNAME", Username u);
   (str "SHELL", shell); (str "TERM", str "xterm-256color");
   (str "PATH", str "/usr/local/sbin:/usr/local/bin:/usr/sbin:/usr/bin:/sbin:/bin")].

Definition buildEnv (extra : list gostring) (u : UserRec) (shell : gostring) : list gostring :=
  let have := omap have_key extra in
  extra ++ concat (map (add_default have) (defaults u shell)).

(** [Open] up to [pty.StartWithSize]: the launch it asks for, or the error. *)
Definition prepare (sys : System) (cfg : SessionConfig) : result term_error Launch :=
  match ctx_Err sys with
  | Some e => Err (CtxErr e)
  | None =>
    if bool_decide (User cfg = []) then Err UserRequired
    else match lookupUser sys (User cfg) with
    | None => Err (LookupFailed (User cfg))
    | Some u =>
      match ParseUint32 (Uid u) with
      | None => Err (ParseUid (Uid u))
      | Some uid =>
        match ParseUint32 (Gid u) with
        | None => Err (ParseGid (Gid u))
        | Some gid =>
          let shell := match Shell cfg with [] => DefaultShell | s => s end in
          if negb (Paths.IsAbs shell) then Err (ShellNotAbs shell)
          else match Stat sys shell with
          | None => Err (ShellStat shell)
          | Some info =>
            if IsDir info then Err (ShellIsDir shell)
            else if (N.land (Mode info) 73 =? 0)%N then Err (ShellNotExec shell)
            else
              let cols := if (Cols cfg =? 0)%N then DefaultCols else Cols cfg in
              let rows := if (Rows cfg =? 0)%N then DefaultRows else Rows cfg in
              let workDir := match WorkDir cfg with [] => defaultWorkDir sys u | w => w end in
              let cred := if negb (uint32 uid =? uint32 (getuid sys))%Z
                             || negb (uint32 gid =? uint32 (getgid sys))%Z
                          then Some (uint32 uid, uint32 gid) else None in
              Ok (MkLaunch shell [str "-l"] workDir (buildEnv (Env cfg) u shell) true cred cols rows)
          end
        end
      end
    end
  end.

(** [Open]: the launch that became a session. *)
Definition Open (sys : System) (cfg : SessionConfig) : result term_error Launch :=
  let? l := prepare sys cfg in
  if StartWithSize sys l then Ok l else Err StartPty.

(** The user and group ids the shell runs with. *)
Definition child_ids (sys : System) (l : Launch) : Z * Z :=
  match l_cred l with
  | Some ids => ids
  | None => (uint32 (getuid sys), uint32 (getgid sys))
  end.

(** [validateDims]. *)
Definition validateDims (cols rows : N) : result term_error unit :=
  if (cols =? 0)%N || (rows =? 0)%N then Err (InvalidDims cols rows) else Ok tt.

(** ** The life of a session

    Every goroutine is a thread at an index; index 0 is the reaper that [Open]
    starts.  [Close], [Resize] and [Wait] calls are the other threads, each at
    its first instruction until it is scheduled. *)

(** What [cmd.Wait] reports: the exit code and its error. *)
Definition status : Type := Z * option term_error.

(** The child in the kernel.  Once it is [Reaped] its pid may be reused. *)
Inductive proc := Alive | Zombie (st : status) | Reaped (st : status).

(** [sync.Once]. *)
Inductive once := NotStarted | InProgress (i : nat) | Finished.

Inductive reap_pc :=
| RWait | RRecord (st : status) | RLock | RClose | RUnlock | RSignal | RFinished.
Inductive close_pc :=
| KEnter | KSelect | KKill | KLock | KClose
| KUnlock (err : option term_error) | KSet (err : option term_error)
| KReturn | KDone (r : option term_error).
Inductive resize_pc :=
| ZValidate | ZLock | ZIoctl | ZUnlock (r : result term_error unit) | ZDone (r : result term_error unit).

Inductive thread :=
| Reap (pc : reap_pc)
| Closer (pc : close_pc)
| Resizer (cols rows : N) (pc : resize_pc)
| Waiter (got : option status).

(** The fields of [Session], the child, the window size and the signals sent:
    one entry per [kill], telling whether the child was already reaped. *)
Record shared := MkShared {
  child : proc; fdMu : option nat; fd_open : bool; closeOnce : once;
  closeErr : option term_error; exit_info : status; done : bool;
  winsize : N * N; kills : list bool
}.

Definition reaped (p : proc) : bool := match p with Reaped _ => true | _ => false end.

(** [os.File.Close]: the first call closes whatever it returns, a later one
    returns [os.ErrClosed]. *)
Inductive pty_close (sh : shared) : shared -> option term_error -> Prop :=
| close_first e :
    fd_open sh = true -> e <> Some ErrClosed ->
    pty_close sh (MkShared (child sh) (fdMu sh) false (closeOnce sh) (closeErr sh) (exit_info sh)
                    (done sh) (winsize sh) (kills sh)) e
| close_again :
    fd_open sh = false -> pty_close sh sh (Some ErrClosed).

(** [pty.Setsize]: an open descriptor takes the size or the ioctl fails; a
    closed one always fails. *)
Inductive setsize (sh : shared) (c r : N) : shared -> result term_error unit -> Prop :=
| setsize_ok :
    fd_open sh = true ->
    setsize sh c r (MkShared (child sh) (fdMu sh) (fd_open sh) (closeOnce sh) (closeErr sh)
                      (exit_info sh) (done sh) (c, r) (kills sh)) (Ok tt)
| setsize_err e : setsize sh c r sh (Err e).

Definition with_fdMu (sh : shared) (m : option nat) : shared :=
  MkShared (child sh) m (fd_open sh) (closeOnce sh) (closeErr sh) (exit_info sh) (done sh)
    (winsize sh) (kills sh).
Definition with_child (sh : shared) (p : proc) : shared :=
  MkShared p (fdMu sh) (fd_open sh) (closeOnce sh) (closeErr sh) (exit_info sh) (done sh)
    (winsize sh) (kills sh).
Definition with_once (sh : shared) (o : once) (e : option term_error) : shared :=
  MkShared (child sh) (fdMu sh) (fd_open sh) o e (exit_info sh) (done sh) (winsize sh) (kills sh).
Definition with_exit (sh : shared) (st : status) : shared :=
  MkShared (child sh) (fdMu sh) (fd_open sh) (closeOnce sh) (closeErr sh) st (done sh)
    (winsize sh) (kills sh).
Definition with_done (sh : shared) : shared :=
  MkShared (child sh) (fdMu sh) (fd_open sh) (closeOnce sh) (closeErr sh) (exit_info sh) true
    (winsize sh) (kills sh).
Definition with_kill (sh : shared) : shared :=
  MkShared (child sh) (fdMu sh) (fd_open sh) (closeOnce sh) (closeErr sh) (exit_info sh) (done sh)
    (winsize sh) (kills sh ++ [reaped (child sh)]).

(** [if err != nil && !errors.Is(err, os.ErrClosed) { s.closeErr = err }]. *)
Definition record_close (old err : option term_error) : option term_error :=
  match err with
  | None | Some ErrClosed => old
  | Some e => Some e
  end.

(** One instruction of thread [i]. *)
Inductive tstep (i : nat) : shared -> thread -> shared -> thread -> Prop :=
(** [reap] *)
| r_wait sh st :
    child sh = Zombie st ->
    tstep i sh (Reap RWait) (with_child sh (Reaped st)) (Reap (RRecord st))
| r_record sh st : tstep i sh (Reap (RRecord st)) (with_exit sh st) (Reap RLock)
| r_lock sh : fdMu sh = None -> tstep i sh (Reap RLock) (with_fdMu sh (Some i)) (Reap RClose)
| r_close sh sh' e : pty_close sh sh' e -> tstep i sh (Reap RClose) sh' (Reap RUnlock)
| r_unlock sh : tstep i sh (Reap RUnlock) (with_fdMu sh None) (Reap RSignal)
| r_signal sh : tstep i sh (Reap RSignal) (with_done sh) (Reap RFinished)
(** [Close] *)
| k_first sh :
    closeOnce sh = NotStarted ->
    tstep i sh (Closer KEnter) (with_once sh (InProgress i) (closeErr sh)) (Closer KSelect)
| k_later sh : closeOnce sh = Finished -> tstep i sh (Closer KEnter) sh (Closer KReturn)
| k_exited sh : done sh = true -> tstep i sh (Closer KSelect) sh (Closer KLock)
| k_running sh : done sh = false -> tstep i sh (Closer KSelect) sh (Closer KKill)
| k_kill sh : tstep i sh (Closer KKill) (with_kill sh) (Closer KLock)
| k_lock sh : fdMu sh = None -> tstep i sh (Closer KLock) (with_fdMu sh (Some i)) (Closer KClose)
| k_close sh sh' e : pty_close sh sh' e -> tstep i sh (Closer KClose) sh' (Closer (KUnlock e))
| k_unlock sh e : tstep i sh (Closer (KUnlock e)) (with_fdMu sh None) (Closer (KSet e))
| k_set sh e :
    tstep i sh (Closer (KSet e)) (with_once sh Finished (record_close (closeErr sh) e))
      (Closer KReturn)
| k_return sh : tstep i sh (Closer KReturn) sh (Closer (KDone (closeErr sh)))
(** [Resize] *)
| z_invalid sh c r e :
    validateDims c r = Err e -> tstep i sh (Resizer c r ZValidate) sh (Resizer c r (ZDone (Err e)))
| z_valid sh c r :
    validateDims c r = Ok tt -> tstep i sh (Resizer c r ZValidate) sh (Resizer c r ZLock)
| z_lock sh c r :
    fdMu sh = None ->
    tstep i sh (Resizer c r ZLock) (with_fdMu sh (Some i)) (Resizer c r ZIoctl)
| z_ioctl sh c r sh' res :
    setsize sh c r sh' res -> tstep i sh (Resizer c r ZIoctl) sh' (Resizer c r (ZUnlock res))
| z_unlock sh c r res :
    tstep i sh (Resizer c r (ZUnlock res)) (with_fdMu sh None) (Resizer c r (ZDone res))
(** [Wait] *)
| w_done sh : done sh = true -> tstep i sh (Waiter None) sh (Waiter (Some (exit_info sh))).

Record state := MkState { sh : shared; threads : list thread }.

Inductive step : state -> state -> Prop :=
| s_thread st i t sh' t' :
    threads st !! i = Some t -> tstep i (sh st) t sh' t' ->
    step st (MkState sh' (<[i := t']> (threads st)))
(** The shell exits. *)
| s_exit st x :
    child (sh st) = Alive ->
    step st (MkState (with_child (sh st) (Zombie x)) (threads st)).

(** A thread that [Open] starts or a caller runs, before its first instruction. *)
Definition fresh_call (t : thread) : bool :=
  match t with
  | Closer KEnter | Resizer _ _ ZValidate | Waiter None => true
  | _ => false
  end.

(** The session [Open] returns, and the calls made on it. *)
Definition opened (size : N * N) (calls : list thread) : state :=
  MkState (MkShared Alive None true NotStarted None (0%Z, None) false size [])
    (Reap RWait :: calls).

Definition reachable (size : N * N) (calls : list thread) (st : state) : Prop :=
  forallb fresh_call calls = true /\ rtc step (opened size calls) st.


(** ** Invariant

    Every thread owns an assertion about the shared fields that the other
    threads leave true: the threads are verified one at a time. *)

Definition fd_closed (sh : shared) : Prop := fd_open sh = false.
(** The exit status is the child's and no longer changes. *)
Definition recorded (sh : shared) : Prop := child sh = Reaped (exit_info sh).

Definition reap_inv (i : nat) (sh : shared) (pc : reap_pc) : Prop :=
  match pc with
  | RWait => reaped (child sh) = false /\ done sh = false
  | RRecord st => child sh = Reaped st /\ done sh = false
  | RLock => recorded sh /\ done sh = false
  | RClose => recorded sh /\ done sh = false /\ fdMu sh = Some i
  | RUnlock => recorded sh /\ done sh = false /\ fdMu sh = Some i /\ fd_closed sh
  | RSignal => recorded sh /\ done sh = false /\ fd_closed sh
  | RFinished => done sh = true
  end.

Definition close_inv (i : nat) (sh : shared) (pc : close_pc) : Prop :=
  match pc with
  | KEnter => True
  | KSelect | KKill => closeOnce sh = InProgress i /\ kills sh = []
  | KLock => closeOnce sh = InProgress i
  | KClose => closeOnce sh = InProgress i /\ fdMu sh = Some i
  | KUnlock _ => closeOnce sh = InProgress i /\ fdMu sh = Some i /\ fd_closed sh
  | KSet _ => closeOnce sh = InProgress i /\ fd_closed sh
  | KReturn => closeOnce sh = Finished
  | KDone r => closeOnce sh = Finished /\ r = closeErr sh
  end.

Definition thread_inv (i : nat) (sh : shared) (t : thread) : Prop :=
  match t with
  | Reap pc => i = 0 /\ reap_inv i sh pc
  | Closer pc => i <> 0 /\ close_inv i sh pc
  | Resizer c r pc =>
      i <> 0 /\
      match pc with
      | ZValidate => True
      | ZLock => validateDims c r = Ok tt
      | ZIoctl | ZUnlock _ => validateDims c r = Ok tt /\ fdMu sh = Some i
      | ZDone res => res = Ok tt -> validateDims c r = Ok tt
      end
  | Waiter None => i <> 0
  | Waiter (Some x) => i <> 0 /\ done sh = true /\ x = exit_info sh
  end.

Definition shared_inv (sh : shared) : Prop :=
  (done sh = true -> recorded sh /\ fd_closed sh) /\
  (closeOnce sh = NotStarted -> kills sh = [] /\ closeErr sh = None) /\
  (closeOnce sh = Finished -> fd_closed sh) /\
  length (kills sh) <= 1.

(** The thread is between [fdMu.Lock] and [fdMu.Unlock]. *)
Definition critical (t : thread) : bool :=
  match t with
  | Reap (RClose | RUnlock) | Closer (KClose | KUnlock _) | Resizer _ _ (ZIoctl | ZUnlock _) => true
  | _ => false
  end.
(** The thread runs the body of [closeOnce.Do]. *)
Definition in_once (t : thread) : bool :=
  match t with
  | Closer (KSelect | KKill | KLock | KClose | KUnlock _ | KSet _) => true
  | _ => false
  end.

(** A lock that is held is held by a thread that will release it. *)
Definition held_inv (st : state) : Prop :=
  (forall j, fdMu (sh st) = Some j -> exists t, threads st !! j = Some t /\ critical t = true) /\
  (forall j, closeOnce (sh st) = InProgress j ->
     exists t, threads st !! j = Some t /\ in_once t = true).

Definition inv (st : state) : Prop :=
  shared_inv (sh st) /\
  (forall i t, threads st !! i = Some t -> thread_inv i (sh st) t) /\
  held_inv st /\
  (exists pc, threads st !! 0 = Some (Reap pc)).

(** Open every definition of the state and decide a step by cases. *)
Ltac session_cases :=
  unfold recorded, fd_closed in *; simpl in *;
  repeat match goal with
  | H : pty_close _ _ _ |- _ => inversion H; subst; clear H; simpl in *
  | H : setsize _ _ _ _ _ |- _ => inversion H; subst; clear H; simpl in *
  | H : _ /\ _ |- _ => destruct H
  end.

Lemma tstep_shared i s t s' t' :
  tstep i s t s' t' -> shared_inv s -> thread_inv i s t -> shared_inv s'.
Proof.
  intros Hs (Hd & Hn & Hf & Hk) Ht.
  destruct Hs; session_cases; unfold shared_inv, recorded, fd_closed; simpl;
    split_and!; intros; simplify_eq/=; first [done | lia | naive_solver congruence | idtac].
  rewrite H1. simpl. lia.
Qed.

Lemma tstep_own i s t s' t' :
  tstep i s t s' t' -> shared_inv s -> thread_inv i s t -> thread_inv i s' t'.
Proof.
  intros Hs (Hd & Hn & Hf & Hk) Ht.
  destruct Hs; session_cases; unfold recorded, fd_closed; simpl; naive_solver congruence.
Qed.

Lemma tstep_other i j s t s' t' u :
  tstep i s t s' t' -> i <> j -> shared_inv s -> thread_inv i s t ->
  thread_inv j s u -> thread_inv j s' u.
Proof.
  intros Hs Hij (Hd & Hn & Hf & Hk) Ht Hu.
  destruct Hs; session_cases;
    destruct u as [[]|[]|?? []|[|]]; unfold recorded, fd_closed in *; simpl in *;
    first [done | naive_solver congruence].
Qed.

(** How a step moves the two locks. *)
Lemma thread_locks i s t :
  thread_inv i s t ->
  (critical t = true -> fdMu s = Some i) /\ (in_once t = true -> closeOnce s = InProgress i).
Proof. destruct t as [[]|[]|?? []|[|]]; simpl; naive_solver. Qed.

Lemma tstep_locks i s t s' t' j :
  tstep i s t s' t' -> thread_inv i s t ->
  (fdMu s' = Some j -> (j = i /\ critical t' = true) \/
     (fdMu s = Some j /\ (critical t = true -> critical t' = true))) /\
  (closeOnce s' = InProgress j -> (j = i /\ in_once t' = true) \/
     (closeOnce s = InProgress j /\ (in_once t = true -> in_once t' = true))).
Proof.
  intros Hs Ht. destruct Hs; session_cases; split; intros; simplify_eq/=; eauto.
Qed.

Lemma step_inv st st' : step st st' -> inv st -> inv st'.
Proof.
  intros Hs (Hsh & Hth & [Hm Ho] & [pc0 H0]).
  destruct Hs as [st i t sh' t' Hi Hs|st x Ha]; simpl.
  - assert (Hti := Hth _ _ Hi). assert (Hlt := lookup_lt_Some _ _ _ Hi).
    assert (Hheld : forall (P : thread -> bool) j,
      (exists u, threads st !! j = Some u /\ P u = true) -> (P t = true -> P t' = true) ->
      exists u, <[i := t']> (threads st) !! j = Some u /\ P u = true).
    { intros P j (u & Hu & HP) Himp. destruct (decide (i = j)) as [->|Hne].
      - exists t'. rewrite list_lookup_insert_eq by done. naive_solver.
      - exists u. by rewrite list_lookup_insert_ne. }
    assert (Hown : forall (P : thread -> bool), P t' = true ->
      exists u, <[i := t']> (threads st) !! i = Some u /\ P u = true).
    { intros P HP. exists t'. by rewrite list_lookup_insert_eq. }
    split_and!; simpl.
    + by eapply tstep_shared.
    + intros j u Hu. destruct (decide (i = j)) as [->|Hne].
      * rewrite list_lookup_insert_eq in Hu by done. simplify_eq. by eapply tstep_own.
      * rewrite list_lookup_insert_ne in Hu by done. eapply tstep_other; eauto.
    + split; intros j Hj; destruct (tstep_locks _ _ _ _ _ j Hs Hti) as [Hmu Hon]; simpl in *.
      * destruct (Hmu Hj) as [[-> ?]|[? ?]]; eauto.
      * destruct (Hon Hj) as [[-> ?]|[? ?]]; eauto.
    + destruct (decide (i = 0)) as [->|Hne].
      * rewrite list_lookup_insert_eq by done. simplify_eq. inversion Hs; subst; eauto.
      * rewrite list_lookup_insert_ne by done. eauto.
  - split_and!; simpl; [| |by split|eauto].
    + destruct Hsh as (Hd & ? & ? & ?). unfold shared_inv; simpl; split_and!; try done.
      intros Hdn. destruct (Hd Hdn). unfold recorded in *. congruence.
    + intros j u Hu. specialize (Hth _ _ Hu).
      destruct u as [[]|[]|?? []|[|]]; unfold recorded in *; simpl in *; try done.
      all: naive_solver congruence.
Qed.

Lemma opened_inv size calls : forallb fresh_call calls = true -> inv (opened size calls).
Proof.
  intros Hf. split_and!; simpl; try done; eauto.
  - split_and!; simpl; try done. lia.
  - intros [|i] t Ht; simplify_eq/=; [done|].
    assert (Hc : fresh_call t = true).
    { apply list_elem_of_lookup_2, list_elem_of_In in Ht.
      rewrite forallb_forall in Hf. by apply Hf. }
    destruct t as [|[]|?? []|[|]]; simpl in *; done.
Qed.

Lemma reachable_inv size calls st : reachable size calls st -> inv st.
Proof.
  intros [Hf Hr]. apply opened_inv with (size := size) in Hf.
  revert Hf. induction Hr; eauto using step_inv.
Qed.

(** ** Theorems on sessions *)

(** C6: The window-size ioctl, the reaper's close and the close of [Close] never
    overlap; all [Wait] calls return the child's status; a returned [Close] has
    closed the PTY and every later one returns the same error; at most one
    signal is sent; a finished session has released its descriptor. *)
Theorem session_safe size calls st :
  reachable size calls st ->
  (forall i j t u, threads st !! i = Some t -> threads st !! j = Some u ->
     critical t = true -> critical u = true -> i = j) /\
  (forall i x, threads st !! i = Some (Waiter (Some x)) -> child (sh st) = Reaped x) /\
  (forall i r, threads st !! i = Some (Closer (KDone r)) ->
     fd_open (sh st) = false /\ r = closeErr (sh st)) /\
  (forall i c r, threads st !! i = Some (Resizer c r (ZDone (Ok tt))) -> (c <> 0 /\ r <> 0)%N) /\
  (done (sh st) = true -> fd_open (sh st) = false) /\
  length (kills (sh st)) <= 1.
Proof.
  intros (Hsh & Hth & _)%reachable_inv. destruct Hsh as (Hd & _ & Hf & Hk).
  split_and!; [| | | | naive_solver |done].
  - intros i j t u Ht Hu Hct Hcu.
    destruct (thread_locks _ _ _ (Hth _ _ Ht)) as [Hi _].
    destruct (thread_locks _ _ _ (Hth _ _ Hu)) as [Hj _].
    specialize (Hi Hct). specialize (Hj Hcu). congruence.
  - intros i x Ht. destruct (Hth _ _ Ht) as (_ & Hdn & ->). by apply Hd.
  - intros i r Ht. destruct (Hth _ _ Ht) as (_ & Ho & ->). split; [by apply Hf|done].
  - intros i c r Ht. destruct (Hth _ _ Ht) as (_ & Hv). specialize (Hv eq_refl).
    unfold validateDims in Hv. destruct (c =? 0)%N eqn:?, (r =? 0)%N eqn:?; try done.
    split; by apply N.eqb_neq.
Qed.

(** *** Termination *)

Definition rank (t : thread) : nat :=
  match t with
  | Reap pc => match pc with RWait => 6 | RRecord _ => 5 | RLock => 4 | RClose => 3 | RUnlock => 2
               | RSignal => 1 | RFinished => 0 end
  | Closer pc => match pc with KEnter => 8 | KSelect => 7 | KKill => 6 | KLock => 5 | KClose => 4
                 | KUnlock _ => 3 | KSet _ => 2 | KReturn => 1 | KDone _ => 0 end
  | Resizer _ _ pc => match pc with ZValidate => 4 | ZLock => 3 | ZIoctl => 2 | ZUnlock _ => 1
                      | ZDone _ => 0 end
  | Waiter None => 1
  | Waiter (Some _) => 0
  end.

Definition alive (p : proc) : nat := match p with Alive => 1 | _ => 0 end.
Definition measure (st : state) : nat := alive (child (sh st)) + list_sum (rank <$> threads st).

Lemma list_sum_insert (l : list thread) i t t' :
  l !! i = Some t ->
  list_sum (rank <$> <[i := t']> l) + rank t = list_sum (rank <$> l) + rank t'.
Proof.
  revert i. induction l as [|u l IH]; intros [|i] Hi; simplify_eq/=; [lia|].
  specialize (IH _ Hi). lia.
Qed.

Lemma tstep_rank i s t s' t' :
  tstep i s t s' t' -> rank t' < rank t /\ alive (child s') <= alive (child s).
Proof. destruct 1; simpl; try lia; session_cases; rewrite ?H; simpl; lia. Qed.

Lemma step_measure st st' : step st st' -> measure st' < measure st.
Proof.
  destruct 1 as [st i t sh' t' Hi Hs|st x Ha]; unfold measure; simpl.
  - apply tstep_rank in Hs as [??]. pose proof (list_sum_insert _ _ _ t' Hi). lia.
  - rewrite Ha. simpl. lia.
Qed.

(** A thread in a locked section, or in the body of the once, is never blocked
    by the state of its own section. *)
Lemma critical_steps i s t :
  critical t = true -> exists s' t', tstep i s t s' t'.
Proof.
  assert (Hclose : exists s' e, pty_close s s' e).
  { destruct (fd_open s) eqn:Hfd; [eexists _, None|eexists _, _]; by constructor. }
  destruct Hclose as (s' & e & Hc).
  destruct t as [[]|[]|?? []|[|]]; intros [=]; eauto using tstep.
  eexists _, _. apply z_ioctl, (setsize_err _ _ _ (SysError [])).
Qed.

Definition finished (t : thread) : bool :=
  match t with
  | Reap RFinished | Closer (KDone _) | Resizer _ _ (ZDone _) | Waiter (Some _) => true
  | _ => false
  end.

(** An unfinished thread can move, or the lock or the once it needs is taken, or
    it waits for the child to exit or for the reaper. *)
Lemma thread_progress i s t :
  thread_inv i s t -> finished t = false ->
  (exists s' t', tstep i s t s' t') \/ is_Some (fdMu s) \/
  (t = Closer KEnter /\ exists j, closeOnce s = InProgress j) \/
  (t = Waiter None /\ done s = false) \/ (t = Reap RWait /\ child s = Alive).
Proof.
  intros Hi Hf. destruct (critical t) eqn:Hc; [left; by apply critical_steps|].
  destruct (fdMu s) as [m|] eqn:Hm; [eauto|].
  assert (Hmv : forall s' t', tstep i s t s' t' -> exists s' t', tstep i s t s' t') by eauto.
  destruct t as [[]|[]|c r []|[|]]; simplify_eq/=; try (left; eapply Hmv; by constructor).
  - destruct Hi as (_ & Hr & _). destruct (child s) eqn:Hch; [tauto|left|done].
    by eapply Hmv, r_wait.
  - destruct (closeOnce s) eqn:Ho; [left; by eapply Hmv, k_first|naive_solver|].
    left. by eapply Hmv, k_later.
  - left. destruct (done s) eqn:Hd; [by eapply Hmv, k_exited|by eapply Hmv, k_running].
  - left. destruct (validateDims c r) as [[]|e] eqn:Hv; [by eapply Hmv, z_valid|by eapply Hmv, z_invalid].
  - destruct (done s) eqn:Hd; [left; by eapply Hmv, w_done|tauto].
Qed.

(** No deadlock: a reachable session in which nothing can happen is finished. *)
Lemma stuck_finished st :
  inv st -> (forall st', ~ step st st') ->
  (forall i t, threads st !! i = Some t -> finished t = true) /\ done (sh st) = true.
Proof.
  intros (Hsh & Hth & [Hm Ho] & [pc0 H0]) Hstuck.
  assert (Hno : forall i t, threads st !! i = Some t -> ~ exists s' t', tstep i (sh st) t s' t').
  { intros i t Hi (s' & t' & Hs). eapply Hstuck, s_thread; eauto. }
  assert (Hal : child (sh st) <> Alive).
  { intros Ha. apply (Hstuck _ (s_exit _ (0%Z, None) Ha)). }
  assert (Hfree : fdMu (sh st) = None).
  { destruct (fdMu (sh st)) as [j|]; [|done]. destruct (Hm j eq_refl) as (t & Ht & Hc).
    destruct (Hno _ _ Ht). by apply critical_steps. }
  assert (Hprog : forall i t, threads st !! i = Some t -> finished t = false ->
    (t = Closer KEnter /\ exists j, closeOnce (sh st) = InProgress j) \/
    (t = Waiter None /\ done (sh st) = false)).
  { intros i t Hi Hf.
    destruct (thread_progress _ _ _ (Hth _ _ Hi) Hf) as [?|[[? Hl]|[?|[?|[_ ?]]]]]; eauto.
    - by destruct (Hno _ _ Hi).
    - congruence.
    - done. }
  assert (Hdone : done (sh st) = true).
  { destruct (finished (Reap pc0)) eqn:Hf; [|by destruct (Hprog _ _ H0 Hf) as [[? _]|[? _]]].
    destruct pc0; try done. by destruct (Hth _ _ H0). }
  split; [|done]. intros i t Hi. destruct (finished t) eqn:Hf; [done|].
  destruct (Hprog _ _ Hi Hf) as [[_ (j & Hj)]|[_ ?]]; [|congruence].
  destruct (Ho _ Hj) as (u & Hu & Hin). destruct (finished u) eqn:Hfu.
  - by destruct u as [[]|[]|?? []|[|]].
  - destruct (Hprog _ _ Hu Hfu) as [[-> _]|[-> _]]; done.
Qed.

Lemma nsteps_measure n st st' : nsteps step n st st' -> measure st' + n <= measure st.
Proof.
  induction 1 as [|n a b c Hab Hbc IH]; [lia|]. apply step_measure in Hab. lia.
Qed.

Lemma fresh_ranks calls :
  forallb fresh_call calls = true -> list_sum (rank <$> calls) <= 8 * length calls.
Proof.
  induction calls as [|t calls IH]; simpl; [lia|]. intros [Ht Hc]%andb_prop.
  specialize (IH Hc). destruct t as [|[]|?? []|[|]]; simplify_eq/=; lia.
Qed.

(** C27: Every interleaving of the calls on a session ends, after a bounded number of
    steps, and it ends with every call returned, the session done and its
    descriptor closed; no schedule deadlocks. *)
Theorem session_terminates size calls n st :
  forallb fresh_call calls = true -> nsteps step n (opened size calls) st ->
  n <= 7 + 8 * length calls /\
  ((forall st', ~ step st st') ->
     (forall i t, threads st !! i = Some t -> finished t = true) /\
     done (sh st) = true /\ fd_open (sh st) = false).
Proof.
  intros Hf Hn. split.
  - apply nsteps_measure in Hn. apply fresh_ranks in Hf. 
    change (measure (opened size calls)) with (7 + list_sum (rank <$> calls)) in Hn. lia.
  - intros Hstuck.
    assert (Hi : inv st) by (eapply reachable_inv; split; [done|apply rtc_nsteps; eauto]).
    destruct (stuck_finished _ Hi Hstuck) as [Hall Hd]. split_and!; try done.
    destruct Hi as ((Hrec & _) & _). by apply Hrec.
Qed.

(** The calls a witness makes: a close, a resize and a wait. *)
Definition demo_calls : list thread := [Closer KEnter; Resizer 100 40 ZValidate; Waiter None].

Lemma session_terminates_witness :
  exists st, nsteps step 2 (opened (80, 24)%N demo_calls) st /\ 2 <= 7 + 8 * length demo_calls.
Proof.
  eexists. split.
  - eapply nsteps_l; [by apply (s_exit _ (0%Z, None))|].
    eapply nsteps_l; [|apply nsteps_O]. by apply (s_thread _ 0 (Reap RWait)), r_wait.
  - eapply (session_terminates (80, 24)%N demo_calls 2); [done|].
    eapply nsteps_l; [by apply (s_exit _ (0%Z, None))|].
    eapply nsteps_l; [|apply nsteps_O]. by apply (s_thread _ 0 (Reap RWait)), r_wait.
Defined.

(** A [Wait] that ran to its end beside the reaper. *)
Lemma demo_session_reachable : exists st, reachable (80, 24)%N [Waiter None] st /\
  threads st !! 1 = Some (Waiter (Some (3%Z, None))).
Proof.
  eexists. split.
  - split; [done|].
    eapply rtc_l; [by apply (s_exit _ (3%Z, None))|].
    eapply rtc_l; [by apply (s_thread _ 0 (Reap RWait)), r_wait|].
    eapply rtc_l; [by apply (s_thread _ 0 (Reap (RRecord (3%Z, None)))), r_record|].
    eapply rtc_l; [by apply (s_thread _ 0 (Reap RLock)), r_lock|].
    eapply rtc_l; [by apply (s_thread _ 0 (Reap RClose)), r_close with (e := None), close_first|].
    eapply rtc_l; [by apply (s_thread _ 0 (Reap RUnlock)), r_unlock|].
    eapply rtc_l; [by apply (s_thread _ 0 (Reap RSignal)), r_signal|].
    eapply rtc_l; [by apply (s_thread _ 1 (Waiter None)), w_done|].
    apply rtc_refl.
  - done.
Qed.

Lemma session_safe_witness :
  exists st, reachable (80, 24)%N [Waiter None] st /\ child (sh st) = Reaped (3%Z, None).
Proof.
  destruct demo_session_reachable as (st & Hr & Ht). exists st. split; [done|].
  by apply (session_safe _ _ _ Hr) with (i := 1).
Defined.

(** A [Close] that starts after the session is done sends no signal, whatever
    the other calls do. *)
Theorem close_after_done_never_signals size calls st st' :
  reachable size calls st -> done (sh st) = true -> closeOnce (sh st) = NotStarted ->
  rtc step st st' -> kills (sh st') = [].
Proof.
  intros (Hsh & Hth & _)%reachable_inv Hd Ho Hr.
  assert (Hk : kills (sh st) = []) by (by apply Hsh).
  assert (Hnk : forall i, threads st !! i <> Some (Closer KKill)).
  { intros i Hi. destruct (Hth _ _ Hi) as (_ & Hc & _). congruence. }
  clear Hsh Hth Ho. induction Hr as [|a b c Hab Hbc IH]; [done|].
  destruct Hab as [a i t s' t' Hi Hs|a x Ha]; simpl in *; [|by apply IH].
  assert (Hnt : t <> Closer KKill) by (intros ->; by destruct (Hnk i)).
  assert (Hrest : done s' = true /\ kills s' = [] /\ t' <> Closer KKill)
    by (destruct Hs; session_cases; repeat split; congruence).
  destruct Hrest as (? & ? & ?). apply IH; try done.
  intros j. rewrite list_lookup_insert_Some. naive_solver.
Qed.

Lemma close_after_done_never_signals_witness :
  exists st st', done (sh st) = true /\ rtc step st st' /\ kills (sh st') = [].
Proof.
  assert (Hr : exists st, reachable (80, 24)%N [Closer KEnter] st /\ done (sh st) = true /\
                closeOnce (sh st) = NotStarted).
  { eexists. split; [split; [done|]|].
    - eapply rtc_l; [by apply (s_exit _ (3%Z, None))|].
      eapply rtc_l; [by apply (s_thread _ 0 (Reap RWait)), r_wait|].
      eapply rtc_l; [by apply (s_thread _ 0 (Reap (RRecord (3%Z, None)))), r_record|].
      eapply rtc_l; [by apply (s_thread _ 0 (Reap RLock)), r_lock|].
      eapply rtc_l; [by apply (s_thread _ 0 (Reap RClose)), r_close with (e := None), close_first|].
      eapply rtc_l; [by apply (s_thread _ 0 (Reap RUnlock)), r_unlock|].
      eapply rtc_l; [by apply (s_thread _ 0 (Reap RSignal)), r_signal|].
      apply rtc_refl.
    - done. }
  destruct Hr as (st & Hr & Hd & Ho). exists st, st. split_and!; [done|apply rtc_refl|].
  exact (close_after_done_never_signals _ _ _ _ Hr Hd Ho (rtc_refl _ _)).
Defined.

(** The check of [Close] and its [kill] are two steps, and the reaper collects
    the child before it closes [done]: the signal can reach a process group
    whose id is free for reuse. *)
Lemma kill_may_follow_reap :
  exists st, reachable (80, 24)%N [Closer KEnter] st /\ kills (sh st) = [true].
Proof.
  eexists. split; [split; [done|]|].
  - eapply rtc_l; [by apply (s_exit _ (0%Z, None))|].
    eapply rtc_l; [by apply (s_thread _ 0 (Reap RWait)), r_wait|].
    eapply rtc_l; [by apply (s_thread _ 1 (Closer KEnter)), k_first|].
    eapply rtc_l; [by apply (s_thread _ 1 (Closer KSelect)), k_running|].
    eapply rtc_l; [by apply (s_thread _ 1 (Closer KKill)), k_kill|].
    apply rtc_refl.
  - done.
Qed.

(** ** Theorems on [Open] *)

Lemma ParseUint32_range s z : ParseUint32 s = Some z -> (0 <= z < 2 ^ 32)%Z.
Proof.
  unfold ParseUint32. destruct s as [|c s]; [done|].
  destruct (forallb _ _); [|done]. destruct (_ <? _)%Z eqn:Hlt; [|done]. intros [= <-].
  apply Z.ltb_lt in Hlt. split; [|done]. generalize (c :: s). intros l.
  unfold digits_val. assert (forall acc, (0 <= acc)%Z -> (0 <= fold_left
    (fun acc c => (acc * 10 + Z.of_nat (digit_val c))%Z) l acc)%Z) as Hf; [|by apply Hf].
  induction l as [|d l IH]; intros acc Hacc; simpl; [done|]. apply IH. lia.
Qed.

(** C40: A session that [Open] starts runs the configured (or default) shell, an
    existing executable file given by an absolute path, with the ids of the
    looked-up user, in a session of its own and with a window that is not empty;
    nothing starts under a cancelled context. *)
Theorem Open_runs_as_user sys cfg l :
  Open sys cfg = Ok l ->
  ctx_Err sys = None /\
  (exists u uid gid, lookupUser sys (User cfg) = Some u /\
     ParseUint32 (Uid u) = Some uid /\ ParseUint32 (Gid u) = Some gid /\
     child_ids sys l = (uid, gid) /\ l_env l = buildEnv (Env cfg) u (l_path l)) /\
  l_path l = (if bool_decide (Shell cfg = []) then DefaultShell else Shell cfg) /\
  Paths.IsAbs (l_path l) = true /\
  (exists info, Stat sys (l_path l) = Some info /\ IsDir info = false /\
     N.land (Mode info) 73 <> 0%N) /\
  l_setsid l = true /\ l_cols l <> 0%N /\ l_rows l <> 0%N.
Proof.
  unfold Open, prepare. destruct (ctx_Err sys) eqn:Hctx; [done|].
  case_bool_decide; [done|].
  destruct (lookupUser sys (User cfg)) as [u|] eqn:Hu; [|done].
  destruct (ParseUint32 (Uid u)) as [uid|] eqn:Huid; [|done].
  destruct (ParseUint32 (Gid u)) as [gid|] eqn:Hgid; [|done].
  set (shell := match Shell cfg with [] => _ | _ => _ end).
  destruct (Paths.IsAbs shell) eqn:Habs; [|done]. cbn [negb].
  destruct (Stat sys shell) as [info|] eqn:Hst; [|done].
  destruct (IsDir info) eqn:Hdir; [done|].
  destruct (N.land _ _ =? 0)%N eqn:Hx; [done|].
  cbn [result_bind]. destruct (StartWithSize _ _); [|done]. intros [= <-].
  apply N.eqb_neq in Hx. cbn [l_path l_env l_setsid l_cols l_rows l_cred].
  split_and!; try done.
  - exists u, uid, gid. split_and!; try done.
    pose proof (ParseUint32_range _ _ Huid). pose proof (ParseUint32_range _ _ Hgid).
    assert (Hid : forall z, (0 <= z < 2 ^ 32)%Z -> uint32 z = z) by (intros; by apply Z.mod_small).
    unfold child_ids. cbn [l_cred].
    destruct (uint32 uid =? _)%Z eqn:E1, (uint32 gid =? _)%Z eqn:E2; cbn [negb orb];
      rewrite ?(Hid uid), ?(Hid gid) in * by done; try done.
    apply Z.eqb_eq in E1, E2. by rewrite <- E1, <- E2.
  - unfold shell. by destruct (Shell cfg).
  - by exists info.
  - destruct (Cols cfg =? 0)%N eqn:E; [done|by apply N.eqb_neq].
  - destruct (Rows cfg =? 0)%N eqn:E; [done|by apply N.eqb_neq].
Qed.

Definition demo_user : UserRec :=
  MkUserRec (str "101000") (str "101000") (str "pm-tty-alice") (str "/home/pm-tty-alice").
Definition demo_system : System :=
  MkSystem None
    (fun n => if bool_decide (n = str "pm-tty-alice") then Some demo_user else None) 0 0
    (fun p => if bool_decide (p = str "/bin/bash") then Some (MkFileInfo false 493) else None)
    (fun _ => true).
Definition demo_config : SessionConfig :=
  MkSessionConfig (str "pm-tty-alice") [] 0 0 [str "TERM=dumb"] [].

Lemma Open_runs_as_user_witness :
  exists l, Open demo_system demo_config = Ok l /\ child_ids demo_system l = (101000, 101000)%Z /\
    Paths.IsAbs (l_path l) = true.
Proof.
  assert (Ho : is_ok (Open demo_system demo_config) = true) by by_eval.
  destruct (Open demo_system demo_config) as [l|] eqn:E; [|done]. exists l.
  destruct (Open_runs_as_user _ _ _ E) as (_ & (u & uid & gid & Hu & Hi & Hg & Hc & _) & _ & Ha & _).
  split_and!; [done| |done]. rewrite Hc. vm_compute in Hu. injection Hu as <-.
  vm_compute in Hi, Hg. congruence.
Defined.

(** *** Environment *)

Lemma have_key_cut e k :
  k <> [] -> have_key e = Some k <-> exists v, cut e "="%char = Some (k, v).
Proof.
  intros Hk. unfold have_key, cut. destruct (index_byte e "="%char) as [i|]; [|naive_solver].
  destruct (0 <? i) eqn:Hi; go_bool; split.
  - intros [= <-]. eauto.
  - intros (v & [= <- <-]). done.
  - done.
  - intros (v & [= <- <-]). assert (i = 0) as -> by lia. by rewrite take_0 in Hk.
Qed.

Lemma have_getenv extra k :
  k <> [] -> k ∈ omap have_key extra <-> exists v, Exec.getenv extra k = Some v.
Proof.
  intros Hk. rewrite list_elem_of_omap. split.
  - intros (e & He & Hh). apply (have_key_cut _ _ Hk) in Hh as (v & Hc).
    induction extra as [|f extra IH]; [by apply not_elem_of_nil in He|]. cbn [Exec.getenv].
    destruct (Exec.getenv extra k) as [w|]; [eauto|].
    apply elem_of_cons in He as [->|He]; [rewrite Hc, bool_decide_true by done; eauto|].
    by destruct (IH He).
  - intros (v & (e & He & Hc)%Exec.getenv_elem). exists e. split; [done|].
    apply have_key_cut; eauto.
Qed.

Lemma getenv_add have k v k' :
  "="%char ∉ k -> k ∉ have ->
  Exec.getenv (add_default have (k, v)) k' = if bool_decide (k' = k) then
    (if bool_decide (v = []) then None else Some v) else None.
Proof.
  intros Hk Hh. unfold add_default. rewrite (bool_decide_false (k ∈ have)) by done.
  destruct (decide (v = [])) as [->|Hv]; [rewrite !(bool_decide_true ([] = [])) by done; by destruct (bool_decide _)|].
  rewrite !(bool_decide_false (v = [])) by done. cbn [Exec.getenv].
  change (str "=") with ["="%char]. cbn [app]. rewrite cut_app by done.
  destruct (decide (k' = k)) as [->|Hne]; [by rewrite !bool_decide_true|].
  by rewrite !bool_decide_false by congruence.
Qed.

(** The value a default list gives to a key. *)
Fixpoint default_of (ds : list (gostring * gostring)) (k : gostring) : option gostring :=
  match ds with
  | [] => None
  | (k', v) :: ds' => if bool_decide (k = k') then (if bool_decide (v = []) then None else Some v)
                      else default_of ds' k
  end.

Lemma getenv_defaults have ds k :
  Forall (fun kv => "="%char ∉ kv.1) ds -> NoDup ds.*1 -> k ∉ have ->
  Exec.getenv (concat (map (add_default have) ds)) k = default_of ds k.
Proof.
  intros Hf Hn Hk. induction ds as [|[k' v] ds IH]; [done|]. cbn [map concat default_of].
  inversion Hf; subst. rewrite fmap_cons in Hn. apply list.NoDup_cons in Hn as [Hni Hn].
  rewrite Exec.getenv_app, (IH ltac:(done) Hn).
  destruct (decide (k = k')) as [->|Hne].
  - assert (Hd : default_of ds k' = None).
    { clear -Hni. induction ds as [|[a b] ds IH]; [done|]. cbn [default_of].
      rewrite fmap_cons, not_elem_of_cons in Hni. simpl in Hni.
      rewrite bool_decide_false by tauto. apply IH. tauto. }
    rewrite Hd, getenv_add by done. by rewrite (bool_decide_true (k' = k')) by done.
  - rewrite (bool_decide_false (k = k')) by done.
    destruct (default_of ds k); [done|]. unfold add_default.
    repeat case_bool_decide; try done. cbn [Exec.getenv].
    change (str "=") with ["="%char]. cbn [app]. rewrite cut_app by done.
    by rewrite bool_decide_false by congruence.
Qed.

Lemma defaults_plain u shell : Forall (fun kv => "="%char ∉ kv.1) (defaults u shell).
Proof. repeat constructor; by apply (bool_decide_unpack _). Qed.

(** The shell sees the caller's value of a variable if the caller set it, and
    otherwise the default, if that is not empty; no other variable appears. *)
Theorem buildEnv_layers extra u shell k :
  k <> [] ->
  Exec.getenv (buildEnv extra u shell) k =
    match Exec.getenv extra k with
    | Some v => Some v
    | None => default_of (defaults u shell) k
    end.
Proof.
  intros Hk. unfold buildEnv. rewrite Exec.getenv_app.
  destruct (Exec.getenv extra k) as [v|] eqn:He.
  - assert (Hh : k ∈ omap have_key extra) by (apply have_getenv; eauto).
    assert (Hn : Exec.getenv (concat (map (add_default (omap have_key extra)) (defaults u shell))) k
                 = None); [|by rewrite Hn].
    destruct (Exec.getenv (concat _) k) as [w|] eqn:Hg; [|done].
    apply Exec.getenv_elem in Hg as (e & Hin & Hc).
    apply list_elem_of_In, in_concat in Hin as (l & Hl & Hin).
    apply in_map_iff in Hl as ([k' v'] & <- & Hd). unfold add_default in Hin.
    destruct (decide (v' = [])); [by rewrite bool_decide_true in Hin|].
    rewrite (bool_decide_false (v' = [])) in Hin by done.
    destruct (decide (k' ∈ omap have_key extra)); [by rewrite bool_decide_true in Hin|].
    rewrite bool_decide_false in Hin by done. destruct Hin as [<-|[]].
    change (str "=") with ["="%char] in Hc. cbn [app] in Hc.
    apply list_elem_of_In in Hd.
    pose proof (proj1 (list.Forall_forall _ _) (defaults_plain u shell) _ Hd) as Hp. simpl in Hp.
    by rewrite (cut_app _ _ _ Hp) in Hc; simplify_eq.
  - assert (Hh : k ∉ omap have_key extra).
    { intros (w & ?)%have_getenv; [congruence|done]. }
    rewrite getenv_defaults; [by destruct (default_of _ _)| | |done].
    + apply defaults_plain.
    + by apply (bool_decide_unpack _).
Qed.

Lemma buildEnv_layers_witness :
  Exec.getenv (buildEnv (Env demo_config) demo_user (str "/bin/bash")) (str "TERM") = Some (str "dumb") /\
  Exec.getenv (buildEnv (Env demo_config) demo_user (str "/bin/bash")) (str "SHELL")
    = Some (str "/bin/bash").
Proof. split; rewrite buildEnv_layers by done; by_eval. Defined.

(** ** TTY users *)

(** The mapping to TTY users is undone by [OriginalUID] for every pair of Go
    integers, also when the sum wraps, and distinct users get distinct names. *)
Theorem tty_user_roundtrip uid offset a b :
  (int_min <= uid <= int_max)%Z -> (int_min <= offset <= int_max)%Z ->
  OriginalUID (TTYUID uid offset) offset = uid /\ (TTYUsername a = TTYUsername b <-> a = b).
Proof.
  unfold int_min, int_max, OriginalUID, TTYUID, Exec.wrap64. intros Hu Ho. split.
  - pose proof (Z.mod_pos_bound (uid + offset + 2 ^ 63) (2 ^ 64)).
    pose proof (Z.mod_pos_bound ((uid + offset + 2 ^ 63) mod 2 ^ 64 - 2 ^ 63 - offset + 2 ^ 63) (2 ^ 64)).
    pose proof (Z.div_mod (uid + offset + 2 ^ 63) (2 ^ 64)).
    pose proof (Z.div_mod ((uid + offset + 2 ^ 63) mod 2 ^ 64 - 2 ^ 63 - offset + 2 ^ 63) (2 ^ 64)).
    lia.
  - split; [apply app_inv_head|by intros ->].
Qed.

Lemma tty_user_roundtrip_witness :
  OriginalUID (TTYUID 1000 DefaultUIDOffset) DefaultUIDOffset = 1000%Z.
Proof. apply (tty_user_roundtrip 1000 DefaultUIDOffset [] []); unfold int_min, int_max, DefaultUIDOffset; lia. Defined.

End Terminal.
