(* ===== verification/HostProg.v ===== *)
(** * Programs over the host

    The capability packages ([src/pkg], [src/sys]) are sequential code between
    calls of an injected [exec.Runner], of [context.Context] and of a few file
    probes.  Such code is a [prog]: a finite tree that asks the host one [call]
    at a time and continues with whatever the host answers.  [run] executes a
    program on a host given as a state and an answer function, [asked] lists the
    calls it makes there, and [wp] states what holds of every call and of the
    result whatever the host answers.

    The file also has the text routines of the Go standard library these packages
    parse tool output with. *)
From S2P Require Import Prelude Exec.

Module HostProg.
Import Exec.

(** ** Calls *)

Inductive fs_err := NotExist | OtherErr (msg : gostring).

(** The operations of [fs.Manager] that change files. *)
Inductive fs_op :=
| FsWriteFile (path data : gostring) (mode : N) (owner group : gostring)
| FsRemove (path : gostring)
| FsMkdir (path : gostring) (mode : N) (owner group : gostring) (recursive : bool)
| FsCopyTree (src dst : gostring)
| FsChownR (path owner group : gostring)
| FsChmod (path : gostring) (mode : N).

(** What [os.Lstat], [os.Stat] and [File.Stat] report.  [fi_id] is the device and
    inode [os.SameFile] compares; a platform without an owner reports none. *)
Record FileInfo := MkFileInfo {
  fi_dir : bool; fi_regular : bool; fi_perm : N; fi_sticky : bool; fi_uid : option Z;
  fi_size : N; fi_id : Z * Z
}.

(** Flags of an [open] call, and the type bits a [stat] call reports. *)
Inductive open_flag := O_RDONLY | O_RDWR | O_NOFOLLOW | O_DIRECTORY | O_NONBLOCK | O_CLOEXEC.
Inductive file_type := S_IFREG | S_IFDIR | S_IFLNK | S_IFOTHER.
#[export] Instance open_flag_eq : EqDecision open_flag.
Proof. solve_decision. Defined.
#[export] Instance file_type_eq : EqDecision file_type.
Proof. solve_decision. Defined.
(** An exclusive create tells that the file exists. *)
Inductive create_err := CreateExist | CreateOther (e : fs_err).
(** An HTTP response: the body that arrives, and the error that ends it early. *)
Record http_response := MkResponse {
  StatusCode : Z; ETag : gostring; ContentType : gostring; Body : gostring; BodyErr : option gostring
}.
(** The operations of the go-git library on a repository, named by its directory or its
    URL, and what they answer.  Hashes are their hexadecimal text. *)
Inductive git_op :=
| GitPlainOpen (dest : gostring)
| GitPlainClone (dest url : gostring) (submodules : bool)
| GitFetch (dest remote : gostring) (refspecs : list gostring)
| GitReference (dest name : gostring)
| GitCommitObject (dest hash : gostring)
| GitHead (dest : gostring)
| GitWorktree (dest : gostring)
| GitStatus (dest : gostring)
| GitCheckout (dest hash : gostring)
| GitClean (dest : gostring)
| GitList (url : gostring).
Inductive git_fetch_err := NoErrAlreadyUpToDate | GitFetchErr (msg : gostring).
Definition git_ans (o : git_op) : Type :=
  match o with
  | GitPlainOpen _ | GitPlainClone _ _ _ | GitWorktree _ | GitCheckout _ _ | GitClean _ => option gostring
  | GitFetch _ _ _ => option git_fetch_err
  | GitReference _ _ | GitHead _ => option gostring
  | GitCommitObject _ _ => bool
  (** every path with whether it is untracked *)
  | GitStatus _ => result gostring (list (gostring * bool))
  (** the references of a remote, in its order: name and hash *)
  | GitList _ => result gostring (list (gostring * gostring))
  end.
Definition git_absent (o : git_op) : git_ans o :=
  match o with
  | GitPlainOpen _ | GitPlainClone _ _ _ | GitWorktree _ | GitCheckout _ _ | GitClean _ => Some []
  | GitFetch _ _ _ => Some (GitFetchErr [])
  | GitReference _ _ | GitHead _ => None
  | GitCommitObject _ _ => false
  | GitStatus _ | GitList _ => Err []
  end.

(** The calls of package [unix] on descriptors, [O_CREAT] with its mode, and [Read] of at
    most some bytes and [Write] of a file over one. *)
Inductive unix_flag := U_RDONLY | U_WRONLY | U_RDWR | U_CREAT | U_EXCL | U_DIRECTORY | U_CLOEXEC | U_NOFOLLOW.
Inductive unix_err := U_EEXIST | U_ENOENT | U_Err (msg : gostring).
Record stat_t := MkStat { st_type : file_type; st_perm : N; st_uid : Z }.
Inductive unix_op :=
| UnixOpen (path : gostring) (flags : list unix_flag) (perm : N)
| UnixOpenat (dirfd : nat) (name : gostring) (flags : list unix_flag) (perm : N)
| UnixFstat (fd : nat)
| UnixFstatat (dirfd : nat) (name : gostring)
| UnixRenameat (dirfd : nat) (old new : gostring)
| UnixUnlinkat (dirfd : nat) (name : gostring)
| UnixFsync (fd : nat)
| UnixClose (fd : nat)
| UnixWrite (fd : nat) (data : gostring)
| UnixRead (fd : nat) (limit : N).
Definition unix_ans (o : unix_op) : Type :=
  match o with
  | UnixOpen _ _ _ | UnixOpenat _ _ _ _ => result unix_err nat
  | UnixFstat _ | UnixFstatat _ _ => result unix_err stat_t
  | UnixRead _ _ => result unix_err gostring
  | _ => option unix_err
  end.
Definition unix_absent (o : unix_op) : unix_ans o :=
  match o with
  | UnixOpen _ _ _ | UnixOpenat _ _ _ _ => Err U_ENOENT
  | UnixFstat _ | UnixFstatat _ _ => Err U_ENOENT
  | UnixRead _ _ => Err U_ENOENT
  | _ => Some U_ENOENT
  end.

Inductive rename_err := EEXIST | ENOSYS | EINVAL | ERename (msg : gostring).

(** The functions of packages [os], [os/user] and [unix] the capability packages call
    themselves, some through a seam; files are named by handles. *)
Inductive os_op :=
| OsLstat (path : gostring)
| OsGeteuid
| OsMkdirTemp (dir pattern : gostring)
| OsCreateTemp (dir pattern : gostring)
| OsFChmod (fd : nat) (mode : N)
| OsFWrite (fd : nat) (data : gostring)
| OsFClose (fd : nat)
(** [os.OpenFile(path, O_WRONLY|O_NOFOLLOW|O_NONBLOCK, 0)] *)
| OsOpenNoFollow (path : gostring)
| OsFStat (fd : nat)
| OsFWriteAt (fd : nat) (data : gostring) (off : N)
| OsRemove (path : gostring)
| OsRemoveAll (path : gostring)
| OsRename (old new : gostring)
| OsMkdirAll (path : gostring) (mode : N)
| OsWriteFile (path data : gostring) (mode : N)
| OsEvalSymlinks (path : gostring)
| OsGetwd
| OsStat (path : gostring)
| OsReadDir (path : gostring)
| OsOpenFile (path : gostring) (flags : list open_flag) (perm : N)
| OsFSync (fd : nat)
| OsFReadAll (fd : nat)
| OsFChown (fd : nat) (uid gid : Z)
| OsReaddirnames (fd : nat)
(** [renameat2] with [RENAME_NOREPLACE] *)
| OsRenameNoReplace (old new : gostring)
| OsOpenat (dirfd : nat) (name : gostring) (flags : list open_flag)
(** [fstatat] with [AT_SYMLINK_NOFOLLOW] *)
| OsFstatat (dirfd : nat) (name : gostring)
(** [unlinkat], with [AT_REMOVEDIR] or without flags *)
| OsUnlinkat (dirfd : nat) (name : gostring) (removedir : bool)
(** the user and group database: the id of a name, the name of an id *)
| UserLookup (name : gostring)
| UserLookupGroup (name : gostring)
| UserLookupId (id : gostring)
| UserLookupGroupId (id : gostring)
| OsChmod (path : gostring) (mode : N)
(** [os.OpenFile] with [O_CREATE|O_WRONLY|O_TRUNC], and [O_EXCL] or without *)
| OsCreate (path : gostring) (excl : bool) (mode : N)
(** [rand.Read] *)
| OsRand (n : nat)
(** [http.Client.Do] with an [If-None-Match] header when [etag] is not empty *)
| OsHttp (method url etag : gostring)
(** [filepath.WalkDir]: the entries below a directory by their components, each with
    whether it is a directory *)
| OsWalkDir (path : gostring)
| OsGit (o : git_op)
| OsUnix (o : unix_op).

Definition os_ans (o : os_op) : Type :=
  match o with
  | OsLstat _ | OsFStat _ | OsStat _ => result fs_err FileInfo
  | OsGeteuid => Z
  | OsMkdirTemp _ _ | OsEvalSymlinks _ | OsGetwd | OsFReadAll _ => result fs_err gostring
  | UserLookup _ | UserLookupGroup _ | UserLookupId _ | UserLookupGroupId _ => result fs_err gostring
  | OsCreateTemp _ _ => result fs_err (nat * gostring)
  | OsOpenNoFollow _ | OsOpenFile _ _ _ | OsOpenat _ _ _ => result fs_err nat
  | OsReadDir _ => result fs_err (list (gostring * bool))
  | OsReaddirnames _ => result fs_err (list gostring)
  | OsRenameNoReplace _ _ => option rename_err
  | OsFstatat _ _ => result fs_err file_type
  | OsCreate _ _ _ => result create_err nat
  | OsRand _ => option gostring
  | OsHttp _ _ _ => result gostring http_response
  | OsWalkDir _ => result gostring (list (list gostring * bool))
  | OsGit o => git_ans o
  | OsUnix o => unix_ans o
  | _ => option fs_err
  end.

Inductive call : Type -> Type :=
(** [r.Run(ctx, Command{..., Stdin: strings.NewReader(stdin)})] *)
| CRun (c : Command) (stdin : gostring) : call (Result * option exec_error)
(** [ctx.Err()] *)
| CCtxErr : call (option gostring)
(** [os.Stat]: whether the path is a directory *)
| CStat (path : gostring) : call (result fs_err bool)
(** [os.ReadFile] *)
| CReadFile (path : gostring) : call (result fs_err gostring)
(** [exec.LookPath] *)
| CLookPath (bin : gostring) : call (option gostring)
(** the privileged file manager of [sys/fs] *)
| CFs (op : fs_op) : call (option fs_err)
| CFsExists (path : gostring) : call (result fs_err bool)
| CFsReadFile (path : gostring) : call (result fs_err gostring)
(** the entries of a directory, each with whether it is one *)
| CFsReadDir (path : gostring) : call (result fs_err (list (gostring * bool)))
(** a function of package [os] *)
| COs (o : os_op) : call (os_ans o).

Inductive prog (A : Type) : Type :=
| Ret (a : A)
| Call {X : Type} (c : call X) (k : X -> prog A).
Arguments Ret {A} a.
Arguments Call {A X} c k.

Fixpoint bind {A B} (p : prog A) (f : A -> prog B) : prog B :=
  match p with
  | Ret a => f a
  | Call c k => Call c (fun x => bind (k x) f)
  end.

Definition ask {X} (c : call X) : prog X := Call c Ret.

(** [let! x := p in q] runs [p] and then [q]. *)
Notation "'let!' x := p 'in' q" := (bind p (fun x => q))
  (at level 10, x name, p at level 100, q at level 200) : go_scope.
Notation "'let!' ( x , y ) := p 'in' q" := (bind p (fun r => let (x, y) := r in q))
  (at level 10, x name, y name, p at level 100, q at level 200) : go_scope.
(** [let!? x := p in q] also returns the error of [p]. *)
Definition bind_ok {E A B} (p : prog (result E A)) (f : A -> prog (result E B))
    : prog (result E B) :=
  bind p (fun r => match r with Ok a => f a | Err e => Ret (Err e) end).
Notation "'let!?' x := p 'in' q" := (bind_ok p (fun x => q))
  (at level 10, x name, p at level 100, q at level 200) : go_scope.
Notation "'let!?' ( x , y ) := p 'in' q" := (bind_ok p (fun r => let (x, y) := r in q))
  (at level 10, x name, y name, p at level 100, q at level 200) : go_scope.

(** A [for] loop with an early return. *)
Fixpoint for_each {E A S} (body : S -> A -> prog (result E S)) (l : list A) (s : S)
    : prog (result E S) :=
  match l with
  | [] => Ret (Ok s)
  | a :: l' => let!? s' := body s a in for_each body l' s'
  end.

(** ** Running *)

Definition handler (S : Type) : Type := forall X, S -> call X -> S * X.

Fixpoint run {S A} (h : handler S) (s : S) (p : prog A) : S * A :=
  match p with
  | Ret a => (s, a)
  | Call c k => let '(s', x) := h _ s c in run h s' (k x)
  end.

(** A call without its answer type. *)
Inductive request :=
| QRun (c : Command) (stdin : gostring)
| QCtxErr
| QStat (path : gostring)
| QReadFile (path : gostring)
| QLookPath (bin : gostring)
| QFs (op : fs_op)
| QFsExists (path : gostring)
| QFsReadFile (path : gostring)
| QFsReadDir (path : gostring)
| QOs (o : os_op).
Definition request_of {X} (c : call X) : request :=
  match c with
  | CRun c stdin => QRun c stdin
  | CCtxErr => QCtxErr
  | CStat p => QStat p
  | CReadFile p => QReadFile p
  | CLookPath b => QLookPath b
  | CFs op => QFs op
  | CFsExists p => QFsExists p
  | CFsReadFile p => QFsReadFile p
  | CFsReadDir p => QFsReadDir p
  | COs o => QOs o
  end.

(** The requests a program makes on a host, in order. *)
Fixpoint asked {S A} (h : handler S) (s : S) (p : prog A) : list request :=
  match p with
  | Ret _ => []
  | Call c k => request_of c :: (let '(s', x) := h _ s c in asked h s' (k x))
  end.

(** The commands among them. *)
Definition command_of (q : request) : option (Command * gostring) :=
  match q with QRun c i => Some (c, i) | _ => None end.
Definition commands {S A} (h : handler S) (s : S) (p : prog A) : list (Command * gostring) :=
  omap command_of (asked h s p).

(** Package [os] of a host that has nothing: no file is found, and what changes a
    file fails. *)
Definition os_absent (o : os_op) : os_ans o :=
  match o with
  | OsLstat _ | OsFStat _ | OsMkdirTemp _ _ | OsEvalSymlinks _ | OsGetwd | OsCreateTemp _ _
  | OsOpenNoFollow _ | OsStat _ | OsReadDir _ | OsOpenFile _ _ _ | OsFReadAll _ | OsReaddirnames _
  | OsOpenat _ _ _ | OsFstatat _ _ | UserLookup _ | UserLookupGroup _ | UserLookupId _
  | UserLookupGroupId _ => Err NotExist
  | OsGeteuid => 0%Z
  | OsRenameNoReplace _ _ => Some (ERename [])
  | OsCreate _ _ _ => Err (CreateOther NotExist)
  | OsRand _ => None
  | OsHttp _ _ _ | OsWalkDir _ => Err []
  | OsGit o => git_absent o
  | OsUnix o => unix_absent o
  | _ => Some NotExist
  end.

(** A host that answers commands and file probes with given functions and has
    nothing else: the context is live, no tool is looked up, file operations of the
    privileged manager succeed without effect. *)
Definition command_host {S} (f : S -> Command -> gostring -> S * (Result * option exec_error))
    (stat : gostring -> result fs_err bool) (read : gostring -> result fs_err gostring) : handler S :=
  fun X s c =>
    match c in call X return S * X with
    | CRun c i => f s c i
    | CCtxErr => (s, None)
    | CStat p => (s, stat p)
    | CReadFile p => (s, read p)
    | CLookPath _ => (s, None)
    | CFs _ => (s, None)
    | CFsExists p => (s, match stat p with Ok _ => Ok true | Err _ => Ok false end)
    | CFsReadFile p => (s, read p)
    | CFsReadDir _ => (s, Err NotExist)
    | COs o => (s, os_absent o)
    end.
Definition absent {A} (_ : gostring) : result fs_err A := Err NotExist.

Lemma run_bind {S A B} (h : handler S) s (p : prog A) (f : A -> prog B) :
  run h s (bind p f) = run h (run h s p).1 (f (run h s p).2).
Proof. revert s. induction p as [a|X c k IH]; intros s; simpl; [done|]. destruct (h X s c). apply IH. Qed.

Lemma asked_bind {S A B} (h : handler S) s (p : prog A) (f : A -> prog B) :
  asked h s (bind p f) = asked h s p ++ asked h (run h s p).1 (f (run h s p).2).
Proof.
  revert s. induction p as [a|X c k IH]; intros s; simpl; [done|].
  destruct (h X s c) as [s' x]. simpl. by rewrite IH.
Qed.

(** ** Reasoning about every answer *)

Section Wp.
Context (G : request -> Prop).

Fixpoint wp {A} (p : prog A) (Q : A -> Prop) : Prop :=
  match p with
  | Ret a => Q a
  | Call c k => G (request_of c) /\ forall x, wp (k x) Q
  end.

Lemma wp_mono {A} (p : prog A) (Q Q' : A -> Prop) :
  (forall a, Q a -> Q' a) -> wp p Q -> wp p Q'.
Proof. intros HQ. induction p as [a|X c k IH]; simpl; [auto|]. intros [? Hk]. split; auto. Qed.

Lemma wp_bind {A B} (p : prog A) (f : A -> prog B) Q :
  wp p (fun a => wp (f a) Q) -> wp (bind p f) Q.
Proof. induction p as [a|X c k IH]; simpl; [done|]. intros [? Hk]. split; auto. Qed.

Lemma wp_bind_ok {E A B} (p : prog (result E A)) (f : A -> prog (result E B)) Q :
  wp p (fun r => match r with Ok a => wp (f a) Q | Err e => Q (Err e) end) ->
  wp (bind_ok p f) Q.
Proof. intros H. apply wp_bind. eapply wp_mono; [|exact H]. by intros [a|e]. Qed.

Lemma wp_for_each {E A S} (body : S -> A -> prog (result E S)) l s (I : S -> Prop) Q :
  (forall s, I s -> Q (Ok s)) -> (forall e, Q (Err e)) -> I s ->
  (forall s a, I s -> a ∈ l ->
     wp (body s a) (fun r => match r with Ok s' => I s' | Err _ => True end)) ->
  wp (for_each body l s) Q.
Proof.
  intros HQ HE. revert s. induction l as [|a l IH]; intros s Hs Hb; simpl; [auto|].
  apply wp_bind_ok. eapply wp_mono; [|apply Hb; [done|left]].
  intros [s'|e] H; [|apply HE]. apply IH; [done|]. intros s'' b HI Hin. apply Hb; [done|by right].
Qed.

(** What holds whatever the host answers holds on every host. *)
Lemma wp_run {S A} (h : handler S) s (p : prog A) Q :
  wp p Q -> Forall G (asked h s p) /\ Q (run h s p).2.
Proof.
  revert s. induction p as [a|X c k IH]; intros s; simpl; [by split|].
  intros [Hg Hk]. destruct (h X s c) as [s' x]. destruct (IH x s' (Hk x)). by repeat constructor.
Qed.
End Wp.

(** ** Reasoning with a ghost state

    [wpg] threads a state that the proof keeps about the run so far: every call is
    allowed where it is made, and updates the state with its answer. *)
Section Ghost.
Context {G : Type} (upd : G -> forall X, call X -> X -> G) (ok : G -> forall X, call X -> Prop).

Fixpoint wpg {A} (p : prog A) (g : G) (Q : G -> A -> Prop) : Prop :=
  match p with
  | Ret a => Q g a
  | Call c k => ok g _ c /\ forall x, wpg (k x) (upd g _ c x) Q
  end.

(** The ghost state at the end of a run, and whether every call was allowed. *)
Fixpoint ghost_end {S A} (h : handler S) (s : S) (p : prog A) (g : G) : G :=
  match p with
  | Ret _ => g
  | Call c k => let '(s', x) := h _ s c in ghost_end h s' (k x) (upd g _ c x)
  end.
Fixpoint ghost_ok {S A} (h : handler S) (s : S) (p : prog A) (g : G) : Prop :=
  match p with
  | Ret _ => True
  | Call c k => ok g _ c /\ let '(s', x) := h _ s c in ghost_ok h s' (k x) (upd g _ c x)
  end.

Lemma wpg_mono {A} (p : prog A) g (Q Q' : G -> A -> Prop) :
  (forall g a, Q g a -> Q' g a) -> wpg p g Q -> wpg p g Q'.
Proof.
  intros HQ. revert g. induction p as [a|X c k IH]; simpl; [auto|]. intros g [? Hk]. split; auto.
Qed.

Lemma wpg_bind {A B} (p : prog A) (f : A -> prog B) g Q :
  wpg p g (fun g a => wpg (f a) g Q) -> wpg (bind p f) g Q.
Proof. revert g. induction p as [a|X c k IH]; simpl; [done|]. intros g [? Hk]. split; auto. Qed.

Lemma wpg_bind_ok {E A B} (p : prog (result E A)) (f : A -> prog (result E B)) g Q :
  wpg p g (fun g r => match r with Ok a => wpg (f a) g Q | Err e => Q g (Err e) end) ->
  wpg (bind_ok p f) g Q.
Proof. intros H. apply wpg_bind. eapply wpg_mono; [|exact H]. by intros g' [a|e]. Qed.

(** What is proved with a ghost state holds on every host. *)
Lemma wpg_run {S A} (h : handler S) s (p : prog A) g Q :
  wpg p g Q -> ghost_ok h s p g /\ Q (ghost_end h s p g) (run h s p).2.
Proof.
  revert s g. induction p as [a|X c k IH]; intros s g; simpl; [done|].
  intros [Hok Hk]. destruct (h X s c) as [s' x]. destruct (IH x s' _ (Hk x)). done.
Qed.
End Ghost.

(** ** Histories

    What a program did on a host: every call with its answer, in order. *)
Inductive event :=
| EvRun (c : Command) (stdin : gostring) (a : Result * option exec_error)
| EvOs (o : os_op) (a : os_ans o)
| EvOther (q : request).
Definition event_of {X} (c : call X) : X -> event :=
  match c in call X return X -> event with
  | CRun c i => EvRun c i
  | COs o => EvOs o
  | c' => fun _ => EvOther (request_of c')
  end.

Fixpoint history {S A} (h : handler S) (s : S) (p : prog A) : list event :=
  match p with
  | Ret _ => []
  | Call c k => let '(s', x) := h _ s c in event_of c x :: history h s' (k x)
  end.

Section History.
(** A property of every command and the history before it. *)
Context (P : list event -> Command -> gostring -> Prop).

Definition log_event (tr : list event) X (c : call X) (x : X) : list event := tr ++ [event_of c x].
Definition ok_run (tr : list event) X (c : call X) : Prop :=
  match c with CRun c i => P tr c i | _ => True end.
Abbreviation wph := (wpg log_event ok_run).

Lemma ghost_history {S A} (h : handler S) s (p : prog A) tr :
  ghost_end log_event h s p tr = tr ++ history h s p.
Proof.
  revert s tr. induction p as [a|X c k IH]; intros s tr; simpl; [by rewrite app_nil_r|].
  destruct (h X s c) as [s' x]. rewrite IH. unfold log_event. by rewrite <- app_assoc.
Qed.

Lemma ghost_ok_split {S A} (h : handler S) s (p : prog A) tr pre c i a post :
  ghost_ok log_event ok_run h s p tr -> history h s p = pre ++ EvRun c i a :: post -> P (tr ++ pre) c i.
Proof.
  revert s tr pre. induction p as [b|X d k IH]; intros s tr pre; simpl; [by destruct pre|].
  intros [Hok H]. destruct (h X s d) as [s' x]. destruct pre as [|e pre]; simpl.
  - intros [= Hd _]. rewrite app_nil_r. destruct d; by simplify_eq/=.
  - intros [= Hd Ht]. apply (IH x s' (log_event tr X d x) pre H) in Ht. unfold log_event in Ht.
    by rewrite <- app_assoc, Hd in Ht.
Qed.

(** What a proof over histories says of a run. *)
Lemma wph_run {S A} (h : handler S) s (p : prog A) Q :
  wph p [] Q ->
  (forall pre c i a post, history h s p = pre ++ EvRun c i a :: post -> P pre c i) /\
  Q (history h s p) (run h s p).2.
Proof.
  intros [Hok HQ]%(wpg_run _ _ h s). rewrite ghost_history in HQ. split; [|done].
  intros pre c i a post H. by apply (ghost_ok_split _ _ _ _ _ _ _ _ _ Hok) in H.
Qed.
End History.

(** One step of a proof over histories. *)
Ltac wph_step :=
  match goal with
  | |- wpg _ _ (bind _ _) _ _ => apply wpg_bind
  | |- wpg _ _ (bind_ok _ _) _ _ => apply wpg_bind_ok
  | |- wpg _ _ (Ret _) _ _ => cbn [wpg]
  | |- wpg _ _ (ask _) _ _ => cbn [ask wpg]; split; [cbn [ok_run]|intros ?; unfold log_event; cbn [event_of]]
  | |- wpg _ _ (match ?x with _ => _ end) _ _ => destruct x eqn:?
  end.

(** Every command satisfies [P], and nothing else is asked of the request. *)
Definition on_run (P : Command -> gostring -> Prop) (q : request) : Prop :=
  match q with QRun c i => P c i | _ => True end.

Lemma wp_commands {S A} (P : Command -> gostring -> Prop) (h : handler S) s (p : prog A) Q :
  wp (on_run P) p Q -> Forall (fun ci => P ci.1 ci.2) (commands h s p) /\ Q (run h s p).2.
Proof.
  intros [Hf HQ]%(wp_run _ h s). split; [|done]. unfold commands. clear HQ.
  induction Hf as [|q qs Hq _ IH]; simpl; [constructor|].
  destruct q; simpl; try done. by constructor.
Qed.

Lemma wp_weaken {A} (G G' : request -> Prop) (p : prog A) Q :
  (forall q, G q -> G' q) -> wp G p Q -> wp G' p Q.
Proof. intros HG. induction p as [a|X c k IH]; simpl; [done|]. intros [? ?]. split; auto. Qed.

(** One step of a proof about a program. *)
Create HintDb wp.
Ltac wp_step :=
  match goal with
  | |- wp _ (bind _ _) _ => apply wp_bind
  | |- wp _ (bind_ok _ _) _ => apply wp_bind_ok
  | |- wp _ (Ret _) _ => cbn [wp]
  | |- wp _ (ask _) _ => cbn [ask wp]; split; [cbn [request_of on_run]|intros ?]
  | |- wp _ (match ?x with _ => _ end) _ => destruct x eqn:?
  end.

(** ** Reasoning about the commands of one host *)

(** Run one call of a program: name the answer. *)
Ltac answer h := match goal with
  | H : context [h ?X ?s ?c] |- _ => destruct (h X s c) as [? ?] eqn:?
  | |- context [h ?X ?s ?c] => destruct (h X s c) as [? ?] eqn:?
  end.

Lemma elem_of_commands_cons {A S} (h : handler S) s X (c : call X) (k : X -> prog A) ci :
  ci ∈ commands h s (Call c k) <->
  command_of (request_of c) = Some ci \/ ci ∈ commands h (h _ s c).1 (k (h _ s c).2).
Proof.
  unfold commands. cbn [asked omap list_omap]. destruct (h X s c) as [s' x]. simpl.
  destruct (command_of (request_of c)) as [d|]; [rewrite elem_of_cons|]; naive_solver.
Qed.

Lemma commands_ret {A S} (h : handler S) s (a : A) ci : ci ∈ commands h s (Ret a) <-> False.
Proof. unfold commands. simpl. by rewrite elem_of_nil. Qed.

(** What follows the answer to a call in a program. *)
Ltac reveal H := cbn [bind ask] in H; rewrite elem_of_commands_cons in H; cbn [request_of command_of] in H.

(** ** Text routines *)

(** [strings.Index] and [strings.Cut] with a longer separator. *)
Fixpoint cut_str (s sep : gostring) : option (gostring * gostring) :=
  if has_prefix s sep then Some ([], drop (length sep) s)
  else match s with
       | [] => None
       | c :: s' => match cut_str s' sep with
                    | Some (a, b) => Some (c :: a, b)
                    | None => None
                    end
       end.

Lemma cut_str_Some s sep a b : cut_str s sep = Some (a, b) -> s = a ++ sep ++ b.
Proof.
  revert a. induction s as [|c s IH]; intros a; cbn [cut_str].
  - destruct (has_prefix [] sep) eqn:E; [|done]. intros [= <- <-].
    apply has_prefix_spec in E as [t Ht]. by destruct sep.
  - destruct (has_prefix (c :: s) sep) eqn:E.
    + intros [= <- <-]. apply has_prefix_spec in E as [t Ht]. rewrite Ht.
      by rewrite drop_app_length.
    + destruct (cut_str s sep) as [[a' b']|]; [|done]. intros [= <- <-].
      cbn [app]. f_equal. by apply IH.
Qed.

(** A trailing carriage return is dropped from every line. *)
Definition CR : ascii := "013"%char.
Definition drop_cr (l : gostring) : gostring := trim_suffix l [CR].

Definition maxScanTokenSize : N := 65536.

(** [bufio.Scanner] with its default split function: the lines, up to the first
    one that does not fit the buffer; the boolean is [scanner.Err() == nil]. *)
Fixpoint scan_from (lines : list gostring) : list gostring * bool :=
  match lines with
  | [] => ([], true)
  | [l] => match l with
           | [] => ([], true)
           | _ => if (N.of_nat (length l) <? maxScanTokenSize)%N
                  then ([drop_cr l], true) else ([], false)
           end
  | l :: rest => if (N.of_nat (length l) <? maxScanTokenSize)%N
                 then let '(ls, ok) := scan_from rest in (drop_cr l :: ls, ok)
                 else ([], false)
  end.
Definition scan (s : gostring) : list gostring * bool := scan_from (split_byte s NL).
(** The loops that do not look at [scanner.Err]. *)
Definition scan_lines (s : gostring) : list gostring := (scan s).1.

(** [strconv.ParseInt(s, 10, 64)]: the value and whether there was an error; an
    out-of-range number gives the nearest bound. *)
Definition parse_int64 (s : gostring) : Z * bool :=
  let '(neg, ds) :=
    match s with
    | c :: s' => if bool_decide (c = "-"%char) then (true, s')
                 else if bool_decide (c = "+"%char) then (false, s') else (false, s)
    | [] => (false, [])
    end in
  match ds with
  | [] => (0%Z, false)
  | _ => if forallb is_digit ds then
           let v := if (neg : bool) then (- digits_val ds)%Z else digits_val ds in
           if (v <? int_min)%Z then (int_min, false)
           else if (int_max <? v)%Z then (int_max, false) else (v, true)
         else (0%Z, false)
  end.

(** The longest prefix of bytes that satisfy [p], and the rest. *)
Fixpoint span (p : ascii -> bool) (s : gostring) : gostring * gostring :=
  match s with
  | c :: s' => if p c then let '(a, b) := span p s' in (c :: a, b) else ([], s)
  | [] => ([], [])
  end.

(** The class [\s] of a regular expression. *)
Definition re_space (c : ascii) : bool :=
  bool_decide (c ∈ [TAB; NL; "012"%char; CR; " "%char]).
Definition re_not_space (c : ascii) : bool := negb (re_space c).

(** [x+] for a class: at least one byte. *)
Definition span1 (p : ascii -> bool) (s : gostring) : option (gostring * gostring) :=
  match span p s with
  | ([], _) => None
  | r => Some r
  end.

End HostProg.
