(* ===== verification/Words.v ===== *)
(** * Words

    Visible ASCII text: it is not trimmed, [strings.Fields] splits it only at blanks,
    and numbers are read back from it. *)
From S2P Require Import Prelude HostProg.
From Stdlib Require Import ZifyBool ZifyN.

Module Words.
Import HostProg.

(** A visible ASCII byte. *)
Definition visible (c : ascii) : bool := in_range "!"%char "~"%char c.
Definition word (s : gostring) : bool :=
  negb (bool_decide (s = [])) && forallb visible s.

Lemma visible_not_space c :
  visible c = true -> not_space_start c = true /\ not_space_end c = true.
Proof. by destruct c as [[] [] [] [] [] [] [] []]; vm_compute. Qed.

Lemma visible_strip c s : visible c = true -> strip_one space_encodings (c :: s) = None.
Proof.
  intros [Hs _]%visible_not_space. eapply strip_one_avoid; [exact Hs|by apply bool_decide_eq_true].
Qed.

(** Text that starts and ends with a visible byte is not trimmed. *)
Lemma trim_space_visible c s :
  visible c = true -> visible (List.last (c :: s) c) = true -> trim_space (c :: s) = c :: s.
Proof.
  intros [Hc Hc']%visible_not_space Hl. destruct s as [|d s' _] using rev_ind.
  - unfold trim_space. rewrite trim_left_space_id by done. unfold trim_right_space. change (rev [c]) with [c].
    rewrite (strip_all_avoid _ _ _ _ Hc') by by apply bool_decide_eq_true. done.
  - rewrite app_comm_cons, last_last in Hl. apply visible_not_space in Hl as [_ Hd].
    by apply trim_space_id.
Qed.

Lemma fields_aux_word w n s cur :
  forallb visible w = true -> fields_aux (length w + n) (w ++ s) cur = fields_aux n s (cur ++ w).
Proof.
  revert cur. induction w as [|c w IH]; intros cur; [by rewrite app_nil_r|].
  cbn [forallb length app]. intros [Hc Hw]%andb_prop. cbn [Nat.add fields_aux].
  rewrite visible_strip by done. rewrite IH by done. by rewrite <- app_assoc.
Qed.

Lemma strip_blank s : strip_one space_encodings (" "%char :: s) = Some s.
Proof. vm_compute. by rewrite ?drop_0. Qed.

Lemma word_spec w : word w = true -> w <> [] /\ forallb visible w = true.
Proof. unfold word. intros [Hn Hv]%andb_prop. go_bool. done. Qed.

(** Splitting what [strings.Join] put together. *)
Lemma fields_join ws :
  Forall (fun w => word w = true) ws -> fields (join ws (str " ")) = ws.
Proof.
  intros H. unfold fields. induction H as [|w ws Hw H IH]; [done|].
  apply word_spec in Hw as [Hn Hv].
  assert (Hflush : forall rest, flush ([] ++ w) ++ rest = w :: rest) by (by destruct w).
  destruct ws as [|v ws].
  - cbn [join]. rewrite <- (app_nil_r w) at 2. rewrite <- (Nat.add_0_r (length w)).
    rewrite fields_aux_word by done. cbn [fields_aux]. specialize (Hflush []).
    by rewrite app_nil_r in Hflush.
  - change (join (w :: v :: ws) (str " ")) with (w ++ " "%char :: join (v :: ws) (str " ")).
    rewrite length_app. rewrite fields_aux_word by done. cbn [length fields_aux].
    rewrite strip_blank, IH. apply Hflush.
Qed.

(** A line that starts and ends visibly loses its newline and nothing else. *)
Lemma trim_line c s d :
  visible c = true -> visible d = true ->
  trim_space ((c :: s ++ [d]) ++ [NL]) = c :: s ++ [d].
Proof.
  intros [Hc _]%visible_not_space [_ Hd]%visible_not_space.
  unfold trim_space. rewrite <-app_comm_cons, trim_left_space_id by done. unfold trim_right_space.
  rewrite app_comm_cons, rev_unit, length_app, Nat.add_comm.
  set (m := length (c :: s ++ [d])). cbn [length Nat.add strip_all].
  change (strip_one (rev (A:=ascii) <$> space_encodings) (NL :: rev (c :: s ++ [d])))
    with (Some (rev (c :: s ++ [d]))). cbv iota beta.
  rewrite app_comm_cons, rev_unit.
  rewrite (strip_all_avoid _ _ _ _ Hd) by by apply bool_decide_eq_true.
  by rewrite <-rev_unit, rev_involutive.
Qed.

Lemma lower_visible c : is_lower c = true -> visible c = true.
Proof. by destruct c as [[] [] [] [] [] [] [] []]; vm_compute. Qed.

Lemma digit_visible c : is_digit c = true -> visible c = true.
Proof. by destruct c as [[] [] [] [] [] [] [] []]; vm_compute. Qed.

Lemma visible_word s : s <> [] -> forallb visible s = true -> word s = true.
Proof. intros Hn Hs. unfold word. by rewrite Hs, bool_decide_false. Qed.
Lemma word_app a b : word a = true -> forallb visible b = true -> word (a ++ b) = true.
Proof.
  intros [Hn Ha]%word_spec Hb. apply visible_word; [by intros [? _]%app_eq_nil|].
  by rewrite forallb_app, Ha, Hb.
Qed.
Lemma forallb_mono (p q : ascii -> bool) s :
  (forall c, p c = true -> q c = true) -> forallb p s = true -> forallb q s = true.
Proof. intros H. rewrite !forallb_forall. auto. Qed.
Lemma itoa_word n : word (itoa n) = true.
Proof.
  apply visible_word; [apply itoa_nonempty|]. eapply forallb_mono; [apply digit_visible|apply itoa_digits].
Qed.

Lemma forallb_join (p : ascii -> bool) ws sep :
  forallb p sep = true -> Forall (fun w => forallb p w = true) ws -> forallb p (join ws sep) = true.
Proof.
  intros Hs H. induction H as [|w ws Hw H IH]; [done|]. destruct ws as [|v ws]; [done|].
  change (join (w :: v :: ws) sep) with (w ++ sep ++ join (v :: ws) sep). by rewrite !forallb_app, Hw, Hs, IH.
Qed.

(** Text of one class of bytes has none of a set outside it. *)
Lemma contains_any_class (p : ascii -> bool) s set :
  forallb p s = true -> forallb (fun c => negb (p c)) set = true -> contains_any s set = false.
Proof.
  intros Hs Hn. unfold contains_any. destruct (existsb _ s) eqn:E; [|done].
  apply existsb_exists in E as (c & Hin & Hc). go_bool. rewrite forallb_forall in Hs, Hn.
  apply Hs in Hin. apply list_elem_of_In, Hn in Hc. by rewrite Hin in Hc.
Qed.

Lemma trim_suffix_app s p : has_suffix s p = true -> s = trim_suffix s p ++ p.
Proof.
  intros E. unfold trim_suffix. rewrite E. unfold has_suffix in E.
  apply has_prefix_spec in E as [t Ht]. apply (f_equal (@rev ascii)) in Ht. rewrite rev_app_distr, !rev_involutive in Ht.
  rewrite Ht, length_app. replace (length (rev t) + length p - length p) with (length (rev t)) by lia.
  by rewrite take_app_length.
Qed.

(** ** Numbers *)

Lemma parse_int64_itoa n : (Z.of_nat n <= int_max)%Z -> parse_int64 (itoa n) = (Z.of_nat n, true).
Proof.
  intros Hn. pose proof (itoa_digits n) as Hd. pose proof (itoa_val n) as Hv.
  pose proof (itoa_nonempty n) as Hne. unfold parse_int64.
  destruct (itoa n) as [|c t] eqn:E; [done|]. pose proof Hd as [Hc _]%andb_prop.
  rewrite !bool_decide_false by (intros ->; done). rewrite Hd, Hv.
  unfold int_min, int_max in *.
  rewrite (proj2 (Z.ltb_ge _ _)) by lia. by rewrite (proj2 (Z.ltb_ge _ _)) by lia.
Qed.

End Words.

(** * Runes

    [for _, r := range s] over a Go string: UTF-8 decoding, where every byte that
    does not start a valid encoding is the rune U+FFFD of width one. *)

Module Runes.
Import HostProg.

Definition byte_in (lo hi : N) (c : ascii) : bool := (lo <=? byte_val c)%N && (byte_val c <=? hi)%N.
Definition cont (c : ascii) : bool := byte_in 128 191 c.
Definition RuneError : N := 65533.

(** The second byte of an encoding is limited by the first: no overlong form, no
    surrogate, nothing above U+10FFFF. *)
Definition second_ok (b c : ascii) : bool :=
  let v := byte_val b in
  byte_in (if (v =? 224)%N then 160 else if (v =? 240)%N then 144 else 128)
          (if (v =? 237)%N then 159 else if (v =? 244)%N then 143 else 191) c.

(** [utf8.DecodeRuneInString] at the first byte [b]: the rune and what follows it. *)
Definition decode (b : ascii) (s : gostring) : N * gostring :=
  let v := byte_val b in
  if (v <? 128)%N then (v, s)
  else if byte_in 194 223 b then
    match s with
    | c :: s' => if cont c then ((v - 192) * 64 + (byte_val c - 128), s')%N else (RuneError, s)
    | _ => (RuneError, s)
    end
  else if byte_in 224 239 b then
    match s with
    | c :: d :: s' =>
        if second_ok b c && cont d
        then ((v - 224) * 4096 + (byte_val c - 128) * 64 + (byte_val d - 128), s')%N
        else (RuneError, s)
    | _ => (RuneError, s)
    end
  else if byte_in 240 244 b then
    match s with
    | c :: d :: e :: s' =>
        if second_ok b c && cont d && cont e
        then ((v - 240) * 262144 + (byte_val c - 128) * 4096 + (byte_val d - 128) * 64 +
              (byte_val e - 128), s')%N
        else (RuneError, s)
    | _ => (RuneError, s)
    end
  else (RuneError, s).

Fixpoint runes_from (fuel : nat) (s : gostring) : list N :=
  match fuel, s with
  | S fuel, b :: s' => let '(r, rest) := decode b s' in r :: runes_from fuel rest
  | _, _ => []
  end.
Definition runes (s : gostring) : list N := runes_from (length s) s.

(** The control characters the validators refuse. *)
Definition control_rune (r : N) : bool := (r <? 32)%N || (r =? 127)%N.
Definition contains_control (s : gostring) : bool := existsb control_rune (runes s).

(** ** ASCII runes are the ASCII bytes *)

Lemma second_cont b c :
  second_ok b c = true ->
  ((if byte_val b =? 224 then 160 else if byte_val b =? 240 then 144 else 128) <= byte_val c <= 191)%N.
Proof.
  unfold second_ok, byte_in. intros [Hl%N.leb_le Hh%N.leb_le]%andb_prop. repeat case_match; lia.
Qed.
Lemma cont_spec c : cont c = true -> (128 <= byte_val c <= 191)%N.
Proof. unfold cont, byte_in. lia. Qed.

(** What one step of decoding does: an ASCII byte is its own rune; otherwise only
    non-ASCII bytes are consumed and the rune is not ASCII. *)
Definition decoded (b : ascii) (s : gostring) (r : N) (rest : gostring) : Prop :=
  (byte_val b < 128 /\ r = byte_val b /\ rest = s)%N \/
  (128 <= byte_val b /\ 128 <= r)%N /\
    exists cs, s = cs ++ rest /\ Forall (fun c => 128 <= byte_val c)%N cs.

Lemma decoded_bad b s : (128 <= byte_val b)%N -> decoded b s RuneError s.
Proof. right. split; [unfold RuneError; lia|by exists []]. Qed.

Lemma decode_spec b s : decoded b s (decode b s).1 (decode b s).2.
Proof.
  unfold decode. destruct (N.ltb_spec (byte_val b) 128) as [|Hb]; [by left|].
  destruct (byte_in 194 223 b) eqn:E2; [|destruct (byte_in 224 239 b) eqn:E3;
    [|destruct (byte_in 240 244 b) eqn:E4; [|by apply decoded_bad]]].
  - destruct s as [|c s]; [by apply decoded_bad|]. destruct (cont c) eqn:Ec; [|by apply decoded_bad].
    apply cont_spec in Ec. unfold byte_in in E2. right. split; [cbn; lia|].
    exists [c]. split; [done|]. repeat constructor. lia.
  - destruct s as [|c [|d s]]; [by apply decoded_bad..|].
    destruct (second_ok b c && cont d) eqn:Ec; [|by apply decoded_bad].
    apply andb_prop in Ec as [Ec%second_cont Ed%cont_spec]. unfold byte_in in E3.
    right. split; [|exists [c; d]; split; [done|]; repeat constructor; repeat case_match; lia].
    cbn. repeat case_match; lia.
  - destruct s as [|c [|d [|e s]]]; [by apply decoded_bad..|].
    destruct (second_ok b c && cont d && cont e) eqn:Ec; [|by apply decoded_bad].
    apply andb_prop in Ec as [[Ec%second_cont Ed%cont_spec]%andb_prop Ee%cont_spec]. unfold byte_in in E4.
    right. split; [|exists [c; d; e]; split; [done|]; repeat constructor; repeat case_match; lia].
    cbn. repeat case_match; lia.
Qed.

Lemma runes_from_ascii fuel s r :
  length s <= fuel -> (r < 128)%N -> r ∈ runes_from fuel s <-> exists c, c ∈ s /\ byte_val c = r.
Proof.
  revert s. induction fuel as [|fuel IH]; intros [|b s] Hl Hr; cbn [runes_from length] in *;
    try (rewrite elem_of_nil; split; [done|]; intros (c & Hc & _); by apply elem_of_nil in Hc).
  { lia. }
  pose proof (decode_spec b s) as Hd. destruct (decode b s) as [r' rest]. cbn [fst snd] in Hd.
  destruct Hd as [(Hb & -> & ->)|([Hb Hr'] & cs & -> & Hcs)]; rewrite elem_of_cons.
  - rewrite IH by lia. setoid_rewrite elem_of_cons. naive_solver.
  - rewrite length_app in Hl. rewrite IH by lia. rewrite list.Forall_forall in Hcs.
    setoid_rewrite elem_of_cons. setoid_rewrite elem_of_app.
    split.
    + intros [->|(c & Hc & <-)]; [lia|]. exists c. auto.
    + intros (c & [->|[Hc|Hc]] & <-); [lia|by specialize (Hcs _ Hc); lia|]. right. by exists c.
Qed.

(** An ASCII rune occurs exactly where its byte does. *)
Lemma elem_of_runes s c : (byte_val c < 128)%N -> byte_val c ∈ runes s <-> c ∈ s.
Proof.
  intros Hc. unfold runes. rewrite runes_from_ascii by done. split; [|by exists c].
  intros (d & Hd & He). apply (f_equal ascii_of_N) in He. unfold byte_val in He.
  rewrite !ascii_N_embedding in He. by subst.
Qed.

(** So a text has a control character exactly when it has a control byte. *)
Lemma contains_control_spec s :
  contains_control s = false <-> Forall (fun c => control_rune (byte_val c) = false) s.
Proof.
  unfold contains_control. rewrite list.Forall_forall. split.
  - intros H c Hc. destruct (control_rune (byte_val c)) eqn:E; [|done].
    enough (existsb control_rune (runes s) = true) by congruence.
    apply existsb_exists. exists (byte_val c). split; [|done]. apply list_elem_of_In, elem_of_runes; [|done].
    unfold control_rune in E. lia.
  - intros H. destruct (existsb control_rune (runes s)) eqn:E; [|done].
    apply existsb_exists in E as (r & Hr%list_elem_of_In & Hc).
    assert (Hlt : (r < 128)%N) by (unfold control_rune in Hc; lia).
    unfold runes in Hr. apply runes_from_ascii in Hr as (c & Hin & <-); [|done|done].
    rewrite H in Hc by done. done.
Qed.

Lemma contains_control_not c s : control_rune (byte_val c) = true -> contains_control s = false -> c ∉ s.
Proof.
  rewrite contains_control_spec, list.Forall_forall. intros Hc H Hin. rewrite H in Hc by done. done.
Qed.

End Runes.
