(* ===== verification/Pkg.v ===== *)
(** * Package managers: shared part ([src/pkg]: [types.go], [validate.go],
    [exec.go], [repair.go], [pkg.go])

    The package-manager data types, the argument validators, the helpers every
    backend runs its commands with, the best-effort repair helpers and the
    [Manager] interface.  The five backends are in the files [PkgPacman],
    [PkgApt], [PkgDnf], [PkgZypper] and [PkgFlatpak].  Floating-point parsing of
    human-readable sizes is a parameter. *)
From S2P Require Import Prelude Exec HostProg Repo.

Module Pkg.
Import Exec HostProg.

(** ** Data ([types.go], [pkg.go]) *)

Record Package := MkPackage {
  p_Name : gostring; p_Version : gostring; p_Architecture : gostring; p_Description : gostring;
  p_Status : gostring; p_Size : Z; p_Repository : gostring; p_Pinned : bool
}.
Record LocalPackage := MkLocalPackage { l_Name : gostring; l_Version : gostring; l_Arch : gostring }.
Record PackageUpdate := MkUpdate {
  u_Name : gostring; u_CurrentVersion : gostring; u_NewVersion : gostring;
  u_Architecture : gostring; u_Repository : gostring
}.
Record SearchResult := MkSearch {
  s_Name : gostring; s_Version : gostring; s_Description : gostring; s_Repository : gostring
}.
Record AvailableVersion := MkAvailable {
  a_Version : gostring; a_Repository : gostring; a_Size : Z
}.
Record VersionInfo := MkVersionInfo {
  v_Name : gostring; Versions : list AvailableVersion; Installed : gostring
}.
Record InstallOptions := MkInstallOptions {
  Version : gostring; AllowDowngrade : bool; Remote : gostring
}.
Record InstallLocalOptions := MkInstallLocal { il_AllowDowngrade : bool; AllowUnsigned : bool }.
Record RemoveOptions := MkRemoveOptions { Purge : bool }.
Record UpgradeOptions := MkUpgradeOptions { SecurityOnly : bool }.

Inductive Backend := Apt | Dnf | Pacman | Zypper | Flatpak.
#[global] Instance Backend_eq_dec : EqDecision Backend.
Proof. solve_decision. Defined.

Inductive pkg_error :=
| EmptyName | InvalidName (n : gostring) | InvalidVersion (v : gostring)
| BadLocalPath | BadQuery | InvalidRemote (n : gostring) | BadURL
| VersionNeedsOne (got : nat)
| ERun (e : exec_error)
| ECommand (name : gostring) (code : Z) (stderr : gostring)
| ECtx (e : gostring)
| ErrSecurityOnlyUnsupported
| EBackendUnavailable (bin : gostring)
| ENotFound (n : gostring)
| ENoName (path : gostring)
| EUnsupported
| EWrap (msg : gostring) (e : pkg_error).

(** [errors.As(err, &ce)] with a [*exec.CommandError]. *)
Fixpoint as_command_error (e : pkg_error) : bool :=
  match e with
  | ECommand _ _ _ => true
  | EWrap _ e' => as_command_error e'
  | _ => false
  end.

(** ** Validators ([validate.go]) *)

Definition alnum : ascii -> bool := Repo.alnum.
(** [^[a-zA-Z0-9][a-zA-Z0-9<set>]{0,max}$]. *)
Definition grammar (set : gostring) (max : nat) (s : gostring) : bool :=
  Repo.matches alnum (fun c => alnum c || Repo.one_of set c) s && (length s <=? S max).

Definition validPackageName : gostring -> bool := grammar (str "._+:/@~-") 255.
Definition validPackageVersion : gostring -> bool := grammar (str "._+:~^-") 127.
Definition validRpmPackageName : gostring -> bool := grammar (str "._+-") 255.
Definition validRemoteName : gostring -> bool := grammar (str "._-") 127.

Definition ValidatePackageName (name : gostring) : result pkg_error unit :=
  if bool_decide (name = []) then Err EmptyName
  else if negb (validPackageName name) then Err (InvalidName name)
  else Ok tt.

Fixpoint ValidatePackageNames (names : list gostring) : result pkg_error unit :=
  match names with
  | [] => Ok tt
  | n :: rest => let? _ := ValidatePackageName n in ValidatePackageNames rest
  end.

Definition ValidatePackageVersion (version : gostring) : result pkg_error unit :=
  if bool_decide (version = []) then Ok tt
  else if negb (validPackageVersion version) then Err (InvalidVersion version)
  else Ok tt.

Definition ValidateRpmPackageName (name : gostring) : result pkg_error unit :=
  if bool_decide (name = []) then Err EmptyName
  else if negb (validRpmPackageName name) then Err (InvalidName name)
  else Ok tt.

Definition hasControlChar (s : gostring) : bool := existsb Repo.control_byte s.

Definition ValidateLocalPackagePath (path : gostring) : result pkg_error unit :=
  if bool_decide (path = []) then Err BadLocalPath
  else if hasControlChar path then Err BadLocalPath
  else if negb (has_prefix path (str "/")) then Err BadLocalPath
  else if contains path (str "..") then Err BadLocalPath
  else Ok tt.

Definition ValidateSearchQuery (query : gostring) : result pkg_error unit :=
  if has_prefix query (str "-") then Err BadQuery
  else if hasControlChar query then Err BadQuery
  else Ok tt.

Definition ValidateRemoteName (name : gostring) : result pkg_error unit :=
  if bool_decide (name = []) then Err EmptyName
  else if negb (validRemoteName name) then Err (InvalidRemote name)
  else Ok tt.

(** ** Running commands ([exec.go]) *)

(** What a mutation returns, and what a query returns. *)
Abbreviation mutation := (prog (Result * option pkg_error)).
Abbreviation query A := (prog (result pkg_error A)).

Definition runRead (name : gostring) (args : list gostring) : prog (Result * option exec_error) :=
  ask (CRun (MkCommand name args [] [] [] false) []).

Definition runPriv (escalate : bool) (env : list gostring) (name : gostring) (args : list gostring)
    : prog (Result * option exec_error) :=
  ask (CRun (MkCommand name args [] env [] escalate) []).

Definition runPrivStdin (escalate : bool) (env : list gostring) (stdin name : gostring)
    (args : list gostring) : prog (Result * option exec_error) :=
  ask (CRun (MkCommand name args [] env [] escalate) stdin).

(** [res, err := runRead(...); if err != nil { return nil, err }]. *)
Definition read_result (name : gostring) (args : list gostring) : query Result :=
  let! (res, err) := runRead name args in
  Ret (match err with Some e => Err (ERun e) | None => Ok res end).

Definition probe (name : gostring) (args : list gostring) : query (gostring * bool) :=
  let!? res := read_result name args in
  Ret (Ok (Stdout res, (ExitCode res =? 0)%Z)).

Definition readOut (name : gostring) (args : list gostring) : query gostring :=
  let!? res := read_result name args in
  Ret (if negb (ExitCode res =? 0)%Z then Err (ECommand name (ExitCode res) (Stderr res))
       else Ok (Stdout res)).

Definition asCommandError (name : gostring) (res : Result) : option pkg_error :=
  if (ExitCode res =? 0)%Z then None else Some (ECommand name (ExitCode res) (Stderr res)).

(** The body of the backends' [write] methods. *)
Definition write_with (escalate : bool) (env : list gostring) (name : gostring)
    (args : list gostring) : mutation :=
  let! (res, err) := runPriv escalate env name args in
  Ret (match err with
       | Some e => (no_result, Some (ERun e))
       | None => (res, asCommandError name res)
       end).

(** A failed check returns before anything runs. *)
Definition check (v : result pkg_error unit) (k : mutation) : mutation :=
  match v with Ok _ => k | Err e => Ret (no_result, Some e) end.
Definition checkq {A} (v : result pkg_error unit) (k : query A) : query A :=
  match v with Ok _ => k | Err e => Ret (Err e) end.

Definition parseColonValue (line : gostring) : gostring :=
  match cut line ":"%char with
  | None => []
  | Some (_, v) => trim_space v
  end.

Section Sizes.
(** [int64(f * float64(mult))] for [f, _ := strconv.ParseFloat(s, 64)]. *)
Context (float_size : gostring -> Z -> Z).

Fixpoint match_unit (s : gostring) (units : list (gostring * Z)) : gostring * Z :=
  match units with
  | [] => (s, 1%Z)
  | (suffix, mult) :: rest =>
      if has_suffix s suffix then (trim_suffix s suffix, mult) else match_unit s rest
  end.

Definition parseSizeWithUnits (s : gostring) (units : list (gostring * Z)) : Z :=
  let '(t, multiplier) := match_unit (trim_space s) units in
  float_size (trim_space t) multiplier.
End Sizes.

Definition splitPositionalFields (data : gostring) : list gostring :=
  trim_space <$> split_byte (trim_right_set data [NL]) NL.

Definition countNonEmptyLines (data : gostring) : nat :=
  length (List.filter (fun l => negb (bool_decide (trim_space l = []))) (split_byte data NL)).

Definition rpmLocalPackageInfo (path : gostring) : query LocalPackage :=
  checkq (ValidateLocalPackagePath path) (
  let!? out := readOut (str "rpm")
    [str "-qp"; str "--qf";
     str "%{NAME}" ++ NL :: str "%{VERSION}-%{RELEASE}" ++ NL :: str "%{ARCH}"; path] in
  match splitPositionalFields out with
  | [] => Ret (Err (ENoName path))
  | name :: rest =>
      match ValidateRpmPackageName name with
      | Err e => Ret (Err (EWrap (str "pkg: local .rpm reports an unsafe package name") e))
      | Ok _ => Ret (Ok (MkLocalPackage name (default [] (rest !! 0)) (default [] (rest !! 1))))
      end
  end).

(** ** Repair ([repair.go]) *)

Definition bestEffortStep (err : option pkg_error) : prog (option pkg_error) :=
  match err with
  | None => Ret None
  | Some _ => let! ctxErr := ask CCtxErr in
              Ret (match ctxErr with Some e => Some (ECtx e) | None => None end)
  end.

Definition repairErr (msg : gostring) (err : pkg_error) : prog pkg_error :=
  let! ctxErr := ask CCtxErr in
  Ret (match ctxErr with Some e => ECtx e | None => EWrap msg err end).

(** [if ctxErr := ctx.Err(); ctxErr != nil { return ctxErr }; return nil]. *)
Definition ctx_or_nil : prog (option pkg_error) :=
  let! ctxErr := ask CCtxErr in
  Ret (match ctxErr with Some e => Some (ECtx e) | None => None end).

Definition remove_file (path : gostring) : prog (option pkg_error) :=
  let! (_, err) := runPriv true [] (str "rm") [str "-f"; path] in
  match err with
  | Some _ => ctx_or_nil
  | None => Ret None
  end.

Definition removeStaleLock (path : gostring) : prog (option pkg_error) :=
  let! ctxErr := ask CCtxErr in
  match ctxErr with
  | Some e => Ret (Some (ECtx e))
  | None =>
      let! st := ask (CStat path) in
      match st with
      | Err _ => ctx_or_nil
      | Ok _ =>
          let! (res, err) := runRead (str "fuser") [path] in
          match err with
          | Some _ => ctx_or_nil
          | None =>
              if (ExitCode res =? 0)%Z then Ret None
              else if negb (ExitCode res =? 1)%Z then Ret None
              else remove_file path
          end
      end
  end.

Definition isAllDigits (s : gostring) : bool :=
  match s with [] => false | _ => forallb is_digit s end.

Definition removeStaleZyppLock (path : gostring) : prog (option pkg_error) :=
  let! ctxErr := ask CCtxErr in
  match ctxErr with
  | Some e => Ret (Some (ECtx e))
  | None =>
      let! st := ask (CStat path) in
      match st with
      | Err _ => ctx_or_nil
      | Ok _ =>
          let! content := ask (CReadFile path) in
          match content with
          | Err _ => ctx_or_nil
          | Ok content =>
              let pid := trim_space content in
              if negb (bool_decide (pid = [])) && negb (isAllDigits pid) then Ret None
              else if negb (bool_decide (pid = [])) then
                let! (res, err) := runPriv true [] (str "kill") [str "-0"; pid] in
                match err with
                | Some _ => ctx_or_nil
                | None => if (ExitCode res =? 0)%Z then Ret None else remove_file path
                end
              else remove_file path
          end
      end
  end.

Definition verifyOrRebuildRPMDB : mutation :=
  let! (res, err) := runRead (str "rpm") [str "--verifydb"] in
  match err with
  | Some e => Ret (res, Some (ERun e))
  | None =>
      if (ExitCode res =? 0)%Z then Ret (res, None)
      else
        let! (rebuilt, rerr) := runPriv true [] (str "rpm") [str "--rebuilddb"] in
        Ret (rebuilt, match rerr with
                      | Some e => Some (ERun e)
                      | None => asCommandError (str "rpm") rebuilt
                      end)
  end.

(** The step loop of the repairs that report the last step. *)
Fixpoint best_effort_steps (steps : list mutation) (last : Result) : mutation :=
  match steps with
  | [] => Ret (last, None)
  | s :: rest =>
      let! (res, err) := s in
      let! e := bestEffortStep err in
      match e with
      | Some e => Ret (res, Some e)
      | None => best_effort_steps rest res
      end
  end.

(** ** The interface ([pkg.go]: [Manager]) *)

Record Manager := MkManager {
  m_Backend : Backend;
  m_Version : query gostring;
  m_Search : gostring -> query (list SearchResult);
  m_List : query (list Package);
  m_ListUpgradable : query (list PackageUpdate);
  m_Show : gostring -> query Package;
  m_ListVersions : gostring -> query VersionInfo;
  m_IsInstalled : gostring -> query bool;
  m_LocalPackageInfo : gostring -> query LocalPackage;
  m_InstalledVersion : gostring -> query gostring;
  m_InstalledCount : query nat;
  m_HasUpdates : bool -> query bool;
  m_IsPinned : gostring -> query bool;
  m_ListPinned : query (list Package);
  m_Install : InstallOptions -> list gostring -> mutation;
  m_InstallLocal : gostring -> InstallLocalOptions -> mutation;
  m_Remove : RemoveOptions -> list gostring -> mutation;
  m_Update : mutation;
  m_Upgrade : list gostring -> mutation;
  m_UpgradeAll : UpgradeOptions -> mutation;
  m_Pin : list gostring -> mutation;
  m_Unpin : list gostring -> mutation;
  m_Repair : mutation;
  m_Autoremove : mutation
}.

(** [for _, name := range names] of the listings that look every name up. *)
Definition pinned_packages (version : gostring -> query gostring) (names : list gostring)
    : query (list Package) :=
  for_each (fun packages name =>
    let!? v := version name in
    Ret (Ok (packages ++ [MkPackage name v [] [] (str "installed") 0 [] true]))) names [].

Definition set_Version (p : Package) (v : gostring) : Package :=
  MkPackage (p_Name p) v (p_Architecture p) (p_Description p) (p_Status p) (p_Size p)
    (p_Repository p) (p_Pinned p).
Definition set_Architecture (p : Package) (v : gostring) : Package :=
  MkPackage (p_Name p) (p_Version p) v (p_Description p) (p_Status p) (p_Size p)
    (p_Repository p) (p_Pinned p).
Definition set_Description (p : Package) (v : gostring) : Package :=
  MkPackage (p_Name p) (p_Version p) (p_Architecture p) v (p_Status p) (p_Size p)
    (p_Repository p) (p_Pinned p).
Definition set_Status (p : Package) (v : gostring) : Package :=
  MkPackage (p_Name p) (p_Version p) (p_Architecture p) (p_Description p) v (p_Size p)
    (p_Repository p) (p_Pinned p).
Definition set_Size (p : Package) (v : Z) : Package :=
  MkPackage (p_Name p) (p_Version p) (p_Architecture p) (p_Description p) (p_Status p) v
    (p_Repository p) (p_Pinned p).
Definition set_Repository (p : Package) (v : gostring) : Package :=
  MkPackage (p_Name p) (p_Version p) (p_Architecture p) (p_Description p) (p_Status p) (p_Size p)
    v (p_Pinned p).
Definition set_Pinned (p : Package) (v : bool) : Package :=
  MkPackage (p_Name p) (p_Version p) (p_Architecture p) (p_Description p) (p_Status p) (p_Size p)
    (p_Repository p) v.

(** ** What every backend promises

    An argument is an operand if no tool can read it as an option.  The flags a
    backend uses are a fixed list; everything else it puts on a command line,
    whatever the caller or the host supplied, is an operand. *)

Definition operand (a : gostring) : bool := negb (has_prefix a (str "-")).
Definition argv_ok (flags : list gostring) (c : Command) : Prop :=
  Forall (fun a => a ∈ flags \/ operand a = true) (Args c).

Definition reads (flags : list gostring) (c : Command) (stdin : gostring) : Prop :=
  Escalate c = false /\ stdin = [] /\ Env c = [] /\ argv_ok flags c.
Definition writes (flags : list gostring) (c : Command) (stdin : gostring) : Prop := argv_ok flags c.

Definition read_only {A} (flags : list gostring) (q : prog A) : Prop :=
  wp (on_run (reads flags)) q (fun _ => True).
Definition contained {A} (flags : list gostring) (m : prog A) : Prop :=
  wp (on_run (writes flags)) m (fun _ => True).

(** The mutation returns [e] without asking the host anything. *)
Definition refuses (m : mutation) : Prop := exists e, m = Ret (no_result, Some e).
Definition no_op (m : mutation) : Prop := m = Ret (no_result, None).

Class ManagerLaws (flags : list gostring) (m : Manager) : Prop := {
  law_Version : read_only flags (m_Version m);
  law_Search q : read_only flags (m_Search m q);
  law_List : read_only flags (m_List m);
  law_ListUpgradable : read_only flags (m_ListUpgradable m);
  law_Show n : read_only flags (m_Show m n);
  law_ListVersions n : read_only flags (m_ListVersions m n);
  law_IsInstalled n : read_only flags (m_IsInstalled m n);
  law_LocalPackageInfo p : read_only flags (m_LocalPackageInfo m p);
  law_InstalledVersion n : read_only flags (m_InstalledVersion m n);
  law_InstalledCount : read_only flags (m_InstalledCount m);
  law_HasUpdates b : read_only flags (m_HasUpdates m b);
  law_IsPinned n : read_only flags (m_IsPinned m n);
  law_ListPinned : contained flags (m_ListPinned m);
  law_ListPinned_ro : m_Backend m <> Dnf -> read_only flags (m_ListPinned m);
  law_Install o ps : contained flags (m_Install m o ps);
  law_InstallLocal p o : contained flags (m_InstallLocal m p o);
  law_Remove o ps : contained flags (m_Remove m o ps);
  law_Update : contained flags (m_Update m);
  law_Upgrade ps : contained flags (m_Upgrade m ps);
  law_UpgradeAll o : contained flags (m_UpgradeAll m o);
  law_Pin ps : contained flags (m_Pin m ps);
  law_Unpin ps : contained flags (m_Unpin m ps);
  law_Repair : contained flags (m_Repair m);
  law_Autoremove : m_Backend m <> Pacman -> contained flags (m_Autoremove m);
  law_refuse ps o ro :
    ValidatePackageNames ps <> Ok tt ->
    refuses (m_Install m o ps) /\ refuses (m_Remove m ro ps) /\ refuses (m_Upgrade m ps) /\
    refuses (m_Pin m ps) /\ refuses (m_Unpin m ps);
  law_refuse_local p o :
    ValidateLocalPackagePath p <> Ok tt -> refuses (m_InstallLocal m p o);
  law_empty ro :
    no_op (m_Remove m ro []) /\ no_op (m_Upgrade m []) /\ no_op (m_Pin m []) /\
    no_op (m_Unpin m [])
}.

(** *** Operands *)

Lemma alnum_operand c s : alnum c = true -> operand (c :: s) = true.
Proof.
  intros Hc. unfold operand. change (str "-") with ["-"%char]. simpl.
  rewrite bool_decide_false; [done|]. by intros <-.
Qed.

Lemma grammar_operand set max s t : grammar set max s = true -> operand (s ++ t) = true.
Proof.
  unfold grammar. intros [Hm _]%andb_prop. destruct s as [|c s]; [done|].
  apply andb_prop in Hm as [Hc _]. by apply alnum_operand.
Qed.

Lemma ValidatePackageName_iff n : ValidatePackageName n = Ok tt <-> validPackageName n = true.
Proof.
  unfold ValidatePackageName. case_bool_decide as Hn; [by subst|].
  by destruct (validPackageName n).
Qed.

Lemma name_operand n t : ValidatePackageName n = Ok tt -> operand (n ++ t) = true.
Proof. intros H%ValidatePackageName_iff. by eapply grammar_operand. Qed.

Lemma ValidatePackageNames_iff ps :
  ValidatePackageNames ps = Ok tt <-> Forall (fun n => ValidatePackageName n = Ok tt) ps.
Proof.
  induction ps as [|n ps IH]; cbn [ValidatePackageNames]; [done|].
  rewrite result_bind_ok, list.Forall_cons, <- IH. split.
  - by intros ([] & ? & ?).
  - intros []. by exists tt.
Qed.

Lemma names_operands ps :
  ValidatePackageNames ps = Ok tt -> Forall (fun n => operand n = true) ps.
Proof.
  intros H%ValidatePackageNames_iff. eapply list.Forall_impl; [exact H|].
  intros n Hn. pose proof (name_operand n [] Hn) as Ho. by rewrite app_nil_r in Ho.
Qed.

Lemma head_operand p ps t : ValidatePackageNames (p :: ps) = Ok tt -> operand (p ++ t) = true.
Proof. intros H%ValidatePackageNames_iff. inversion H; subst. by apply name_operand. Qed.

Lemma path_operand p : ValidateLocalPackagePath p = Ok tt -> operand p = true.
Proof.
  unfold ValidateLocalPackagePath. repeat case_match; try done. intros _.
  go_bool. apply has_prefix_spec in H1 as (t & ->). by_eval.
Qed.

Lemma query_operand q : ValidateSearchQuery q = Ok tt -> operand q = true.
Proof. unfold ValidateSearchQuery, operand. by destruct (has_prefix q _). Qed.

Lemma remote_operand n : ValidateRemoteName n = Ok tt -> operand n = true.
Proof.
  unfold ValidateRemoteName. case_bool_decide; [done|].
  destruct (validRemoteName n) eqn:Hv; [|done]. intros _.
  apply (grammar_operand _ _ _ []) in Hv. by rewrite app_nil_r in Hv.
Qed.

Lemma digits_operand s : isAllDigits s = true -> operand s = true.
Proof.
  destruct s as [|c s]; [done|]. intros [Hc _]%andb_prop. apply alnum_operand.
  unfold alnum, Repo.alnum. rewrite Hc. apply orb_true_r.
Qed.

(** *** Laws of the helpers *)

Lemma unit_ok {E} (r : result E unit) e : r = Ok e -> r = Ok tt.
Proof. by destruct e. Qed.

Lemma reads_writes flags q : on_run (reads flags) q -> on_run (writes flags) q.
Proof. destruct q; simpl; [intros (?&?&?&?)|..]; done. Qed.

Lemma read_only_contained {A} flags (q : prog A) : read_only flags q -> contained flags q.
Proof. apply wp_weaken, reads_writes. Qed.

Lemma read_only_bind_ok {A B} flags (p : query A) (f : A -> query B) :
  read_only flags p -> (forall a, read_only flags (f a)) -> read_only flags (bind_ok p f).
Proof.
  intros Hp Hf. apply wp_bind_ok. eapply wp_mono; [|exact Hp]. intros [a|e] _; [apply Hf|done].
Qed.
Lemma read_only_bind {A B} flags (p : prog A) (f : A -> prog B) :
  read_only flags p -> (forall a, read_only flags (f a)) -> read_only flags (bind p f).
Proof. intros Hp Hf. apply wp_bind. eapply wp_mono; [|exact Hp]. intros a _. apply Hf. Qed.
Lemma contained_bind {A B} flags (p : prog A) (f : A -> prog B) :
  contained flags p -> (forall a, contained flags (f a)) -> contained flags (bind p f).
Proof. intros Hp Hf. apply wp_bind. eapply wp_mono; [|exact Hp]. intros a _. apply Hf. Qed.
Lemma contained_bind_ok {A B} flags (p : query A) (f : A -> query B) :
  contained flags p -> (forall a, contained flags (f a)) -> contained flags (bind_ok p f).
Proof.
  intros Hp Hf. apply wp_bind_ok. eapply wp_mono; [|exact Hp]. intros [a|e] _; [apply Hf|done].
Qed.
Lemma read_only_ret {A} flags (a : A) : read_only flags (Ret a).
Proof. done. Qed.
Lemma contained_ret {A} flags (a : A) : contained flags (Ret a).
Proof. done. Qed.

Lemma read_only_checkq {A} flags v (k : query A) :
  (v = Ok tt -> read_only flags k) -> read_only flags (checkq v k).
Proof. destruct v as [[]|e]; simpl; [auto|done]. Qed.
Lemma contained_check flags v (k : mutation) :
  (v = Ok tt -> contained flags k) -> contained flags (check v k).
Proof. destruct v as [[]|e]; simpl; [auto|done]. Qed.

Lemma read_only_for_each {A S} flags (body : S -> A -> query S) l s :
  (forall s a, read_only flags (body s a)) -> read_only flags (for_each body l s).
Proof.
  intros Hb. apply (wp_for_each _ _ _ _ (fun _ => True)); try done.
  intros s' a _ _. eapply wp_mono; [|apply Hb]. by intros [].
Qed.

Definition argv_list (flags args : list gostring) : Prop :=
  Forall (fun a => a ∈ flags \/ operand a = true) args.

Lemma runRead_ro flags name args : argv_list flags args -> read_only flags (runRead name args).
Proof. by repeat split. Qed.
Lemma read_result_ro flags name args :
  argv_list flags args -> read_only flags (read_result name args).
Proof.
  intros H. apply read_only_bind; [by apply runRead_ro|]. intros [r e]. apply read_only_ret.
Qed.
Lemma readOut_ro flags name args : argv_list flags args -> read_only flags (readOut name args).
Proof. intros H. apply read_only_bind_ok; [by apply read_result_ro|]. intros r. apply read_only_ret. Qed.
Lemma probe_ro flags name args : argv_list flags args -> read_only flags (probe name args).
Proof. intros H. apply read_only_bind_ok; [by apply read_result_ro|]. intros r. apply read_only_ret. Qed.
Lemma runPriv_ct flags e env name args : argv_list flags args -> contained flags (runPriv e env name args).
Proof. by repeat split. Qed.
Lemma runPrivStdin_ct flags e env i name args :
  argv_list flags args -> contained flags (runPrivStdin e env i name args).
Proof. by repeat split. Qed.
Lemma write_with_ct flags e env name args :
  argv_list flags args -> contained flags (write_with e env name args).
Proof. intros H. apply contained_bind; [by apply runPriv_ct|]. intros [r o]. apply contained_ret. Qed.

Lemma argv_app flags a b : argv_list flags a -> argv_list flags b -> argv_list flags (a ++ b).
Proof. apply list.Forall_app_2. Qed.
Lemma argv_names flags ps : ValidatePackageNames ps = Ok tt -> argv_list flags ps.
Proof. intros H%names_operands. eapply list.Forall_impl; [exact H|]. simpl; auto. Qed.
Lemma argv_cons flags a l : a ∈ flags \/ operand a = true -> argv_list flags l -> argv_list flags (a :: l).
Proof. intros. by constructor. Qed.
Lemma argv_nil flags : argv_list flags [].
Proof. constructor. Qed.

Lemma remove_file_ct flags p : str "-f" ∈ flags -> operand p = true -> contained flags (remove_file p).
Proof.
  intros Hf Hp. apply contained_bind; [apply runPriv_ct; repeat apply argv_cons; auto using argv_nil|].
  intros [r [e|]]; [|apply contained_ret]. apply contained_bind; [by repeat split|].
  intros o. apply contained_ret.
Qed.

Lemma ctx_or_nil_ct flags : contained flags ctx_or_nil.
Proof. by repeat split. Qed.

Lemma removeStaleLock_ct flags p :
  str "-f" ∈ flags -> operand p = true -> contained flags (removeStaleLock p).
Proof.
  intros Hf Hp. apply contained_bind; [by repeat split|]. intros [e|]; [apply contained_ret|].
  apply contained_bind; [by repeat split|]. intros [d|e]; [|apply ctx_or_nil_ct].
  apply contained_bind.
  - apply read_only_contained, runRead_ro, argv_cons; [auto|apply argv_nil].
  - intros [r [e|]]; [apply ctx_or_nil_ct|]. repeat case_match; try apply contained_ret.
    by apply remove_file_ct.
Qed.

Lemma removeStaleZyppLock_ct flags p :
  str "-f" ∈ flags -> str "-0" ∈ flags -> operand p = true ->
  contained flags (removeStaleZyppLock p).
Proof.
  intros Hf H0 Hp. apply contained_bind; [by repeat split|]. intros [e|]; [apply contained_ret|].
  apply contained_bind; [by repeat split|]. intros [d|e]; [|apply ctx_or_nil_ct].
  apply contained_bind; [by repeat split|]. intros [content|e]; [|apply ctx_or_nil_ct].
  cbv zeta. destruct (decide (trim_space content = [])) as [Hn|Hn].
  - rewrite !bool_decide_true by done. cbn [negb andb]. by apply remove_file_ct.
  - rewrite !bool_decide_false by done. cbn [negb andb].
    destruct (isAllDigits (trim_space content)) eqn:Hd; [|apply contained_ret]. cbn [negb].
    apply contained_bind.
    + apply runPriv_ct. repeat apply argv_cons; auto using argv_nil, digits_operand.
    + intros [r [e|]]; [apply ctx_or_nil_ct|]. case_match; [apply contained_ret|].
      by apply remove_file_ct.
Qed.

Lemma bestEffortStep_ct flags e : contained flags (bestEffortStep e).
Proof. destruct e; by repeat split. Qed.
Lemma repairErr_ct flags m e : contained flags (repairErr m e).
Proof. by repeat split. Qed.

Lemma verifyOrRebuildRPMDB_ct flags :
  str "--verifydb" ∈ flags -> str "--rebuilddb" ∈ flags -> contained flags verifyOrRebuildRPMDB.
Proof.
  intros Hv Hr. apply contained_bind.
  - apply read_only_contained, runRead_ro, argv_cons; [auto|apply argv_nil].
  - intros [r [e|]]; [apply contained_ret|]. case_match; [apply contained_ret|].
    apply contained_bind; [apply runPriv_ct, argv_cons; [auto|apply argv_nil]|].
    intros [r' o]. apply contained_ret.
Qed.

Lemma best_effort_steps_ct flags steps last :
  Forall (contained flags) steps -> contained flags (best_effort_steps steps last).
Proof.
  intros H. revert last. induction H as [|s rest Hs _ IH]; intros last; [apply contained_ret|].
  apply contained_bind; [done|]. intros [r e].
  apply contained_bind; [apply bestEffortStep_ct|]. intros [e'|]; [apply contained_ret|apply IH].
Qed.

Lemma pinned_packages_ro flags version names :
  (forall n, read_only flags (version n)) -> read_only flags (pinned_packages version names).
Proof.
  intros Hv. apply read_only_for_each. intros s n. apply read_only_bind_ok; [done|].
  intros v. apply read_only_ret.
Qed.

Lemma rpmLocalPackageInfo_ro flags p :
  str "-qp" ∈ flags -> str "--qf" ∈ flags -> read_only flags (rpmLocalPackageInfo p).
Proof.
  intros H1 H2. apply read_only_checkq. intros Hp. apply read_only_bind_ok.
  - apply readOut_ro. repeat apply argv_cons; auto using argv_nil, path_operand.
  - intros out. repeat case_match; apply read_only_ret.
Qed.

(** A failed name check refuses whatever follows it. *)
Lemma check_refuses v k : v <> Ok tt -> refuses (check v k).
Proof. destruct v as [[]|e]; [done|]. intros _. by exists e. Qed.

(** *** Automation: decide a closed membership, then apply the laws of the
    helpers, the monad and the checks. *)
Create HintDb pkg.
#[export] Hint Resolve path_operand query_operand remote_operand name_operand head_operand : pkg.

Ltac in_flags := apply (bool_decide_unpack _); vm_compute; exact I.
Ltac arg :=
  first [ left; in_flags
        | right; by_eval
        | right; solve [eauto with pkg]
        | right; match goal with H : ValidatePackageName ?n = Ok tt |- operand ?n = true =>
                   rewrite <- (app_nil_r n); by apply name_operand end ].
Ltac argv :=
  repeat first [ apply argv_nil | by apply argv_names | apply argv_cons; [arg|]
               | apply argv_app | case_match ].
Ltac ro :=
  repeat lazymatch goal with
  | |- read_only _ (Ret _) => apply read_only_ret
  | |- read_only _ (checkq _ _) => apply read_only_checkq; intros ?
  | |- read_only _ (readOut _ _) => apply readOut_ro; solve [argv]
  | |- read_only _ (probe _ _) => apply probe_ro; solve [argv]
  | |- read_only _ (read_result _ _) => apply read_result_ro; solve [argv]
  | |- read_only _ (runRead _ _) => apply runRead_ro; solve [argv]
  | |- read_only _ (pinned_packages _ _) => apply pinned_packages_ro; intros ?
  | |- read_only _ (for_each _ _ _) => apply read_only_for_each; intros ? ?
  | |- read_only _ (bind_ok _ _) => apply read_only_bind_ok; [|intros ?]
  | |- read_only _ (bind _ _) => apply read_only_bind; [|intros ?]
  | |- read_only _ (let (_, _) := ?x in _) => destruct x
  | |- read_only _ (match ?x with _ => _ end) => destruct x eqn:?
  | |- read_only _ (let _ := _ in _) => cbv zeta
  | |- read_only _ _ => solve [auto with pkg]
  end.
Ltac ct :=
  repeat lazymatch goal with
  | |- contained _ (Ret _) => apply contained_ret
  | |- contained _ (check _ _) => apply contained_check; intros ?
  | |- contained _ (write_with _ _ _ _) => apply write_with_ct; solve [argv]
  | |- contained _ (runPriv _ _ _ _) => apply runPriv_ct; solve [argv]
  | |- contained _ (runPrivStdin _ _ _ _ _) => apply runPrivStdin_ct; solve [argv]
  | |- contained _ (bestEffortStep _) => apply bestEffortStep_ct
  | |- contained _ (repairErr _ _) => apply repairErr_ct
  | |- contained _ (removeStaleLock _) => apply removeStaleLock_ct; [in_flags|by_eval]
  | |- contained _ (removeStaleZyppLock _) => apply removeStaleZyppLock_ct; [in_flags|in_flags|by_eval]
  | |- contained _ verifyOrRebuildRPMDB => apply verifyOrRebuildRPMDB_ct; in_flags
  | |- contained _ (best_effort_steps _ _) => apply best_effort_steps_ct; repeat first [apply List.Forall_nil | apply List.Forall_cons]
  | |- contained _ (bind _ _) => apply contained_bind; [|intros ?]
  | |- contained _ (bind_ok _ _) => apply contained_bind_ok; [|intros ?]
  | |- contained _ (let (_, _) := ?x in _) => destruct x
  | |- contained _ (match ?x with _ => _ end) => destruct x eqn:?
  | |- contained _ (let _ := _ in _) => cbv zeta
  | |- contained _ _ => solve [auto with pkg | apply read_only_contained; ro]
  end.

End Pkg.
