(* ===== verification/PkgPacman.v ===== *)
(** * The pacman backend ([src/pkg/pacman.go])

    Every operation of the Arch Linux package manager, and the rewriting of
    [/etc/pacman.conf] that pins and unpins packages. *)
From S2P Require Import Prelude Paths Exec HostProg Repo Pkg.

Module PkgPacman.
Import Exec HostProg Pkg.

Definition PACMAN : gostring := str "pacman".

(** [^[a-zA-Z0-9][a-zA-Z0-9._+-]*$]. *)
Definition validPacmanPkgName : gostring -> bool :=
  Repo.matches alnum (fun c => alnum c || Repo.one_of (str "._+-") c).

Definition write (args : list gostring) : mutation := write_with true [] PACMAN args.

(** The [Version] loop: the first field that starts with [v] of the first line
    that has one among those that mention [Pacman v]. *)
Fixpoint find_version (lines : list gostring) : gostring :=
  match lines with
  | [] => []
  | l :: rest =>
      if contains l (str "Pacman v") then
        match List.filter (fun f => has_prefix f (str "v")) (fields l) with
        | f :: _ => trim_prefix f (str "v")
        | [] => find_version rest
        end
      else find_version rest
  end.
Definition Version_ : query gostring :=
  let!? out := readOut PACMAN [str "--version"] in
  Ret (Ok (find_version (split_byte out NL))).

Definition Install (opts : InstallOptions) (packages : list gostring) : mutation :=
  check (ValidatePackageNames packages) (
  check (ValidatePackageVersion (Version opts)) (
  if negb (bool_decide (Version opts = [])) && negb (length packages =? 1)
  then Ret (no_result, Some (VersionNeedsOne (length packages)))
  else match packages with
       | [] => Ret (no_result, None)
       | p0 :: _ =>
           if bool_decide (Version opts = []) then
             write ([str "-S"; str "--noconfirm"; str "--needed"] ++ packages)
           else write [str "-S"; str "--noconfirm"; p0 ++ str "=" ++ Version opts]
       end)).

Definition InstallLocal (path : gostring) (_ : InstallLocalOptions) : mutation :=
  check (ValidateLocalPackagePath path) (write [str "-U"; str "--noconfirm"; path]).

Definition Remove (opts : RemoveOptions) (packages : list gostring) : mutation :=
  check (ValidatePackageNames packages) (
  match packages with
  | [] => Ret (no_result, None)
  | _ => let flag := if Purge opts then str "-Rns" else str "-R" in
         write ([flag; str "--noconfirm"] ++ packages)
  end).

Definition Update : mutation := write [str "-Sy"; str "--noconfirm"].

Definition Upgrade (packages : list gostring) : mutation :=
  check (ValidatePackageNames packages) (
  match packages with
  | [] => Ret (no_result, None)
  | _ => write ([str "-S"; str "--noconfirm"] ++ packages)
  end).

Definition UpgradeAll (opts : UpgradeOptions) : mutation :=
  if SecurityOnly opts then Ret (no_result, Some ErrSecurityOnlyUnsupported)
  else write [str "-Syu"; str "--noconfirm"].

Definition Autoremove : mutation :=
  let! (res, err) := runRead PACMAN [str "-Qtdq"] in
  match err with
  | Some e => Ret (no_result, Some (ERun e))
  | None =>
      if (ExitCode res =? 1)%Z then Ret (no_result, None)
      else if negb (ExitCode res =? 0)%Z then Ret (res, asCommandError PACMAN res)
      else
        let orphans := List.filter (fun n => negb (bool_decide (n = [])))
                         (trim_space <$> split_byte (Stdout res) NL) in
        match orphans with
        | [] => Ret (no_result, None)
        | _ => write ([str "-Rns"; str "--noconfirm"] ++ orphans)
        end
  end.

Definition pacmanKeyring : gostring := str "archlinux".

Definition keyWrite (args : list gostring) : mutation := write_with true [] (str "pacman-key") args.

(** The keyring steps report the zero result when the context ends. *)
Fixpoint key_steps (steps : list mutation) : query unit :=
  match steps with
  | [] => Ret (Ok tt)
  | s :: rest =>
      let! (_, err) := s in
      let! e := bestEffortStep err in
      match e with
      | Some e => Ret (Err e)
      | None => key_steps rest
      end
  end.

Definition Repair : mutation :=
  let! e := removeStaleLock (str "/var/lib/pacman/db.lck") in
  match e with
  | Some e => Ret (no_result, Some e)
  | None =>
      let! r := key_steps [keyWrite [str "--init"]; keyWrite [str "--populate"; pacmanKeyring]] in
      match r with
      | Err e => Ret (no_result, Some e)
      | Ok _ =>
          let! (res, err) := write [str "-Syy"; str "--noconfirm"] in
          match err with
          | Some e => let! e' := repairErr (str "pacman -Syy failed") e in Ret (res, Some e')
          | None => Ret (res, None)
          end
      end
  end.

(** The [Search] loop over the lines; [current] is the entry whose description is
    still to come. *)
Fixpoint search_loop (lines : list gostring) (current : option SearchResult)
    (results : list SearchResult) : list SearchResult :=
  match lines with
  | [] => results
  | l :: rest =>
      if has_prefix l (str " ") then
        match current with
        | Some c => search_loop rest None
            (results ++ [MkSearch (s_Name c) (s_Version c) (trim_space l) (s_Repository c)])
        | None => search_loop rest None results
        end
      else match l with
           | [] => search_loop rest current results
           | _ =>
               match fields l with
               | f0 :: f1 :: _ =>
                   let nameParts := split_byte f0 "/"%char in
                   let name := List.last nameParts [] in
                   let repo := if 1 <? length nameParts then hd [] nameParts else [] in
                   search_loop rest (Some (MkSearch name f1 [] repo)) results
               | _ => search_loop rest current results
               end
           end
  end.

Definition Search (query_ : gostring) : query (list SearchResult) :=
  checkq (ValidateSearchQuery query_) (
  let!? res := read_result PACMAN [str "-Ss"; query_] in
  if (ExitCode res =? 1)%Z then Ret (Ok [])
  else match asCommandError PACMAN res with
       | Some e => Ret (Err e)
       | None => Ret (Ok (search_loop (scan_lines (Stdout res)) None []))
       end).

(** *** [pacman.conf] *)

Definition IGNORE : gostring := str "IgnorePkg".
Definition is_ignore_line (l : gostring) : bool := has_prefix (trim_space l) IGNORE.

Definition ignored_of_line (l : gostring) : list gostring :=
  if is_ignore_line l then
    match cut (trim_space l) "="%char with
    | Some (_, v) => fields (trim_space v)
    | None => []
    end
  else [].
Definition getIgnoredPackages (conf : gostring) : list gostring :=
  concat (ignored_of_line <$> scan_lines conf).

Definition ignore_line (ignored : list gostring) : gostring :=
  str "IgnorePkg = " ++ join ignored (str " ") ++ [NL].

(** The loop that copies the lines and replaces the first [IgnorePkg] line. *)
Fixpoint rewrite_lines (ignored : list gostring) (lines : list gostring) (found : bool)
    : gostring * bool :=
  match lines with
  | [] => ([], found)
  | l :: rest =>
      if is_ignore_line l then
        let '(b, found') := rewrite_lines ignored rest true in
        ((if found then [] else match ignored with [] => [] | _ => ignore_line ignored end) ++ b,
         found')
      else
        let '(b, found') := rewrite_lines ignored rest found in (l ++ NL :: b, found')
  end.

Definition buildIgnorePkgConf (conf : gostring) (ignored : list gostring) : gostring :=
  let '(content, found) := rewrite_lines ignored (scan_lines conf) false in
  match ignored with
  | [] => content
  | _ =>
      if found then content
      else match cut_str content (str "[options]") with
           | None => content
           | Some (before, after) =>
               match cut after NL with
               | None => content
               | Some (rest_of_line, tail) =>
                   before ++ str "[options]" ++ rest_of_line ++ NL :: ignore_line ignored ++ tail
               end
           end
  end.

Definition readConf : query gostring :=
  let! r := readOut (str "cat") [str "/etc/pacman.conf"] in
  Ret (match r with
       | Ok out => Ok out
       | Err e => Err (EWrap (str "failed to read pacman.conf") e)
       end).

Definition writeIgnorePkg (conf : gostring) (ignored : list gostring) : prog (option pkg_error) :=
  let! (res, err) := runPrivStdin true [] (buildIgnorePkgConf conf ignored) (str "tee")
                       [str "/etc/pacman.conf"] in
  Ret (match err with Some e => Some (ERun e) | None => asCommandError (str "tee") res end).

(** [if !slices.Contains(ignored, name) { ignored = append(ignored, name) }]. *)
Definition add_ignored (ignored packages : list gostring) : list gostring :=
  fold_left (fun acc n => if bool_decide (n ∈ acc) then acc else acc ++ [n]) packages ignored.
Definition remove_ignored (ignored packages : list gostring) : list gostring :=
  List.filter (fun n => negb (bool_decide (n ∈ packages))) ignored.

Definition check_pacman_names (packages : list gostring) : result pkg_error unit :=
  match List.filter (fun n => negb (validPacmanPkgName n)) packages with
  | [] => Ok tt
  | n :: _ => Err (InvalidName n)
  end.

Definition Pin (packages : list gostring) : mutation :=
  check (ValidatePackageNames packages) (
  match packages with
  | [] => Ret (no_result, None)
  | _ =>
      check (check_pacman_names packages) (
      let! r := readConf in
      match r with
      | Err e => Ret (no_result, Some e)
      | Ok conf =>
          let! err := writeIgnorePkg conf (add_ignored (getIgnoredPackages conf) packages) in
          Ret (no_result, err)
      end)
  end).

Definition Unpin (packages : list gostring) : mutation :=
  check (ValidatePackageNames packages) (
  match packages with
  | [] => Ret (no_result, None)
  | _ =>
      let! r := readConf in
      match r with
      | Err e => Ret (no_result, Some e)
      | Ok conf =>
          let! err := writeIgnorePkg conf (remove_ignored (getIgnoredPackages conf) packages) in
          Ret (no_result, err)
      end
  end).

(** *** Queries *)

Definition InstalledVersion (name : gostring) : query gostring :=
  checkq (ValidatePackageName name) (
  let!? res := read_result PACMAN [str "-Q"; name] in
  Ret (Ok (if negb (ExitCode res =? 0)%Z then []
           else match fields (Stdout res) with _ :: v :: _ => v | _ => [] end))).

Definition IsInstalled (name : gostring) : query bool :=
  checkq (ValidatePackageName name) (
  let!? res := read_result PACMAN [str "-Q"; name] in
  Ret (Ok (ExitCode res =? 0)%Z)).

Definition InstalledCount : query nat :=
  let!? out := readOut PACMAN [str "-Qq"] in
  Ret (Ok (countNonEmptyLines out)).

Definition HasUpdates (_ : bool) : query bool :=
  let!? res := read_result PACMAN [str "-Qu"] in
  if (ExitCode res =? 1)%Z then Ret (Ok false)
  else match asCommandError PACMAN res with
       | Some e => Ret (Err e)
       | None => Ret (Ok (negb (bool_decide (trim_space (Stdout res) = []))))
       end.

Definition ListPinned : query (list Package) :=
  let!? conf := readConf in pinned_packages InstalledVersion (getIgnoredPackages conf).

Definition IsPinned (name : gostring) : query bool :=
  checkq (ValidatePackageName name) (
  let!? conf := readConf in
  Ret (Ok (bool_decide (name ∈ getIgnoredPackages conf)))).

(** The set as the list of its members. *)
Definition getPinnedSet : query (list gostring) :=
  let!? conf := readConf in Ret (Ok (getIgnoredPackages conf)).

Definition list_line (pinned : list gostring) (l : gostring) : option Package :=
  match fields l with
  | f0 :: f1 :: _ =>
      Some (MkPackage f0 f1 [] [] (str "installed") 0 [] (bool_decide (f0 ∈ pinned)))
  | _ => None
  end.
Definition List_ : query (list Package) :=
  let!? out := readOut PACMAN [str "-Q"] in
  let!? pinned := getPinnedSet in
  Ret (Ok (omap (list_line pinned) (scan_lines out))).

Definition upgradable_line (updates : list PackageUpdate) (l : gostring)
    : query (list PackageUpdate) :=
  match fields l with
  | f0 :: f1 :: f2 :: f3 :: _ =>
      if bool_decide (f2 = str "->") then Ret (Ok (updates ++ [MkUpdate f0 f1 f3 [] []]))
      else let!? current := InstalledVersion f0 in
           Ret (Ok (updates ++ [MkUpdate f0 current f1 [] []]))
  | f0 :: f1 :: _ =>
      let!? current := InstalledVersion f0 in
      Ret (Ok (updates ++ [MkUpdate f0 current f1 [] []]))
  | _ => Ret (Ok updates)
  end.
Definition ListUpgradable : query (list PackageUpdate) :=
  let!? res := read_result PACMAN [str "-Qu"] in
  if (ExitCode res =? 1)%Z then Ret (Ok [])
  else match asCommandError PACMAN res with
       | Some e => Ret (Err e)
       | None => for_each upgradable_line (scan_lines (Stdout res)) []
       end.

(** [line[0] == ' ' || line[0] == '\t']. *)
Definition starts_blank (l : gostring) : bool :=
  has_prefix l (str " ") || has_prefix l [TAB].

Definition LocalPackageInfo (path : gostring) : query LocalPackage :=
  checkq (ValidateLocalPackagePath path) (
  let!? out := readOut PACMAN [str "-Qp"; path] in
  let line := trim_right_set out [CR; NL] in
  if bool_decide (trim_space line = []) || starts_blank line then Ret (Err (ENoName path))
  else match fields line with
       | [] => Ret (Err (ENoName path))
       | name :: rest =>
           match ValidatePackageName name with
           | Err e => Ret (Err (EWrap (str "pkg: local package reports an unsafe name") e))
           | Ok _ => Ret (Ok (MkLocalPackage name (default [] (rest !! 0)) []))
           end
       end).

Section Sizes.
Context (float_size : gostring -> Z -> Z).

Definition parsePacmanSize (s : gostring) : Z :=
  parseSizeWithUnits float_size s
    [(str " KiB", 1024%Z); (str " MiB", (1024 * 1024)%Z); (str " GiB", (1024 * 1024 * 1024)%Z);
     (str " B", 1%Z)].

Definition show_line (p : Package) (l : gostring) : Package :=
  if has_prefix l (str "Version") then set_Version p (parseColonValue l)
  else if has_prefix l (str "Architecture") then set_Architecture p (parseColonValue l)
  else if has_prefix l (str "Description") then set_Description p (parseColonValue l)
  else if has_prefix l (str "Installed Size") then set_Size p (parsePacmanSize (parseColonValue l))
  else if has_prefix l (str "Repository") then set_Repository p (parseColonValue l)
  else p.

(** The part of [Show] after the output and the status are known. *)
Definition show_rest (name out status : gostring) : query Package :=
  let p := fold_left show_line (scan_lines out) (MkPackage name [] [] [] status 0 [] false) in
  let!? pinned := IsPinned name in
  Ret (Ok (set_Pinned p pinned)).

Definition Show (name : gostring) : query Package :=
  checkq (ValidatePackageName name) (
  let!? (out, ok) := probe PACMAN [str "-Qi"; name] in
  if ok then show_rest name out (str "installed")
  else
    let!? (out, ok) := probe PACMAN [str "-Si"; name] in
    if ok then show_rest name out (str "available") else Ret (Err (ENotFound name))).

Definition version_line (vr : gostring * gostring) (l : gostring) : gostring * gostring :=
  if has_prefix l (str "Version") then (parseColonValue l, vr.2)
  else if has_prefix l (str "Repository") then (vr.1, parseColonValue l)
  else vr.

Definition ListVersions (name : gostring) : query VersionInfo :=
  checkq (ValidatePackageName name) (
  let!? installed := InstalledVersion name in
  let!? (out, ok) := probe PACMAN [str "-Si"; name] in
  if negb ok then Ret (Ok (MkVersionInfo name [] installed))
  else
    let '(version, repo) := fold_left version_line (scan_lines out) ([], []) in
    Ret (Ok (MkVersionInfo name
               (match version with [] => [] | _ => [MkAvailable version repo 0] end) installed))).

Definition pacman : Manager :=
  MkManager Pacman Version_ Search List_ ListUpgradable Show ListVersions IsInstalled
    LocalPackageInfo InstalledVersion InstalledCount HasUpdates IsPinned ListPinned Install
    InstallLocal Remove Update Upgrade UpgradeAll Pin Unpin Repair Autoremove.
End Sizes.


(** ** Laws *)

Definition pacman_flags : list gostring :=
  [str "--version"; str "-S"; str "--noconfirm"; str "--needed"; str "-U"; str "-R"; str "-Rns";
   str "-Sy"; str "-Syu"; str "-Syy"; str "--init"; str "--populate"; str "-Ss"; str "-Q"; str "-Qi";
   str "-Si"; str "-Qu"; str "-Qq"; str "-Qp"; str "-Qtdq"; str "-f"].

Section Laws.
Context (float_size : gostring -> Z -> Z).

Lemma readConf_ro flags : read_only flags readConf.
Proof. unfold readConf. ro. Qed.
#[local] Hint Resolve readConf_ro : pkg.
Lemma pacman_InstalledVersion_ro n : read_only pacman_flags (InstalledVersion n).
Proof. unfold InstalledVersion. ro. Qed.
Lemma pacman_IsPinned_ro n : read_only pacman_flags (IsPinned n).
Proof. unfold IsPinned. ro. Qed.

Lemma write_ct args : argv_list pacman_flags args -> contained pacman_flags (write args).
Proof. apply write_with_ct. Qed.

Lemma pin_edit_ct conf names : contained pacman_flags (writeIgnorePkg conf names).
Proof. unfold writeIgnorePkg. ct. Qed.

#[local] Hint Resolve pacman_InstalledVersion_ro pacman_IsPinned_ro pin_edit_ct : pkg.

Lemma pacman_ListPinned_ro : read_only pacman_flags ListPinned.
Proof. unfold ListPinned. ro. Qed.

#[global] Instance pacman_laws : ManagerLaws pacman_flags (pacman float_size).
Proof.
  split; cbn [pacman m_Version m_Search m_List m_ListUpgradable m_Show m_ListVersions m_IsInstalled
    m_LocalPackageInfo m_InstalledVersion m_InstalledCount m_HasUpdates m_IsPinned m_ListPinned
    m_Install m_InstallLocal m_Remove m_Update m_Upgrade m_UpgradeAll m_Pin m_Unpin m_Repair m_Autoremove m_Backend].
  - unfold Version_. ro.
  - intros q. unfold Search. ro.
  - unfold List_, getPinnedSet. ro.
  - unfold ListUpgradable. ro. unfold upgradable_line. ro.
  - intros n. unfold Show, show_rest. ro.
  - intros n. unfold ListVersions. ro.
  - intros n. unfold IsInstalled. ro.
  - intros p. unfold LocalPackageInfo. ro.
  - auto with pkg.
  - unfold InstalledCount. ro.
  - intros b. unfold HasUpdates. ro.
  - auto with pkg.
  - apply read_only_contained, pacman_ListPinned_ro.
  - intros _. apply pacman_ListPinned_ro.
  - intros o ps. unfold Install, write. ct.
  - intros p o. unfold InstallLocal, write. ct.
  - intros o ps. unfold Remove, write. ct.
  - unfold Update, write. ct.
  - intros ps. unfold Upgrade, write. ct.
  - intros o. unfold UpgradeAll, write. ct.
  - intros ps. unfold Pin. ct.
  - intros ps. unfold Unpin. ct.
  - unfold Repair, key_steps, keyWrite, write. ct.
  - done.
  - intros ps o ro H. split_and!; by apply check_refuses.
  - intros p o H. by apply check_refuses.
  - done.
Qed.
End Laws.

End PkgPacman.
