(* ===== verification/PkgPins.v ===== *)
(** * Pinning in [/etc/pacman.conf] ([src/pkg/pacman.go]: [Pin], [Unpin],
    [buildIgnorePkgConf], [getIgnoredPackages])

    The set of pinned packages a configuration file denotes, and what pinning and
    unpinning do to it, on any host whose [cat] prints the file and whose [tee]
    replaces it. *)
From S2P Require Import Prelude Paths Exec HostProg Words Repo Pkg PkgPacman.

Module PkgPins.
Import Exec HostProg Words Pkg PkgPacman.

(** ** Lines *)

Lemma drop_cr_id l : CR ∉ l -> drop_cr l = l.
Proof.
  intros Hl. unfold drop_cr, trim_suffix. destruct (has_suffix l [CR]) eqn:E; [|done].
  unfold has_suffix in E. apply has_prefix_spec in E as [t Ht].
  destruct Hl. apply list_elem_of_In, in_rev. rewrite Ht. by left.
Qed.

(** Every line fits the scanner's buffer, and no line has a carriage return. *)
Definition line_fits (l : gostring) : Prop := (N.of_nat (length l) < maxScanTokenSize)%N.
#[global] Instance line_fits_dec l : Decision (line_fits l).
Proof. unfold line_fits. apply _. Defined.
Definition scannable (s : gostring) : Prop := Forall line_fits (split_byte s NL) /\ CR ∉ s.

Lemma scan_from_fits ls :
  Forall line_fits ls -> Forall (fun l => CR ∉ l) ls ->
  exists tail, ls = (scan_from ls).1 ++ tail /\ Forall (fun l => l = []) tail.
Proof.
  intros Hf Hc. induction ls as [|l ls IH]; [by exists []|].
  inversion Hf as [|? ? Hl Hf']; inversion Hc as [|? ? Hcl Hc']; subst.
  apply N.ltb_lt in Hl. destruct ls as [|m ls].
  - destruct l as [|c l]; [by exists [[]]; repeat constructor|].
    cbn [scan_from]. rewrite Hl. exists []. by rewrite drop_cr_id.
  - cbn [scan_from] in *. rewrite Hl. destruct (IH Hf' Hc') as (tail & Ht & Hn).
    destruct (scan_from (m :: ls)) as [a b] eqn:E. cbn [scan_from] in E. rewrite E in Ht.
    rewrite E. exists tail. cbn [fst app]. rewrite drop_cr_id by done. by rewrite Ht at 1.
Qed.

Lemma split_elems s l c : l ∈ split_byte s NL -> c ∈ l -> c ∈ s.
Proof.
  intros (a & b & ->)%Repo.split_elem_infix Hc. rewrite !elem_of_app. tauto.
Qed.

(** The pinned packages line by line, without the scanner. *)
Definition ignored_in (s : gostring) : list gostring :=
  concat (ignored_of_line <$> split_byte s NL).

Lemma concat_blank tail :
  Forall (fun l => l = []) tail -> concat (ignored_of_line <$> tail) = [].
Proof. induction 1 as [|l tail -> _ IH]; [done|]. exact IH. Qed.

Lemma getIgnored_split s : scannable s -> getIgnoredPackages s = ignored_in s.
Proof.
  intros [Hf Hc]. unfold getIgnoredPackages, ignored_in, scan_lines, scan.
  destruct (scan_from_fits (split_byte s NL)) as (tail & Ht & Hn); [done| |].
  - apply list.Forall_forall. intros l Hl Hin. eauto using split_elems.
  - set (ls := split_byte s NL) in *. clearbody ls. symmetry. rewrite Ht at 1.
    rewrite fmap_app, concat_app, (concat_blank tail Hn). apply app_nil_r.
Qed.

(** ** What the rewritten file denotes *)

(** Names that may be pinned. *)
Definition pin_name (n : gostring) : bool := validPacmanPkgName n.

Lemma visible_name_byte c : alnum c || Repo.one_of (str "._+-") c = true -> visible c = true.
Proof. by destruct c as [[] [] [] [] [] [] [] []]; vm_compute. Qed.

Lemma pin_name_word n : pin_name n = true -> word n = true.
Proof.
  unfold pin_name, validPacmanPkgName, word. destruct n as [|c n]; [done|].
  cbn [Repo.matches forallb]. intros [Hc Hn]%andb_prop. apply andb_true_iff. split; [done|].
  apply andb_true_iff. split; [apply visible_name_byte; by rewrite Hc|].
  rewrite forallb_forall in Hn |- *. intros x Hx. by apply visible_name_byte, Hn.
Qed.

Lemma join_words_ends c ws :
  Forall (fun w => word w = true) ws -> ws <> [] ->
  exists b t, join ws (str " ") = b :: t /\ visible b = true /\
    visible (List.last (join ws (str " ")) c) = true.
Proof.
  intros H Hne. induction H as [|w ws Hw H IH]; [done|].
  apply word_spec in Hw as [Hn Hv]. destruct w as [|b w]; [done|].
  pose proof Hv as [Hb Hw]%andb_prop.
  destruct ws as [|v ws].
  - cbn [join]. exists b, w. split_and!; try done.
    rewrite (app_removelast_last c (l := b :: w)) in Hv by done.
    rewrite forallb_app in Hv. apply andb_prop in Hv as [_ Hv]. cbn [forallb] in Hv.
    by apply andb_prop in Hv as [Hv _].
  - destruct (IH ltac:(done)) as (b' & t & Hj & _ & Hlast).
    change (join ((b :: w) :: v :: ws) (str " "))
      with ((b :: w) ++ " "%char :: join (v :: ws) (str " ")).
    exists b, (w ++ " "%char :: join (v :: ws) (str " ")). split_and!; try done.
    rewrite Hj in Hlast |- *.
    assert (Hl : List.last ((b :: w) ++ " "%char :: b' :: t) c = List.last (b' :: t) c).
    { clear. revert b. induction w as [|x w IHw]; intros b; [done|]. apply IHw. }
    by rewrite Hl.
Qed.

Definition ignore_text (ignored : list gostring) : gostring :=
  str "IgnorePkg = " ++ join ignored (str " ").

(** The directive reads back. *)
Lemma ignored_of_ignore_text ns :
  Forall (fun w => word w = true) ns -> ns <> [] ->
  is_ignore_line (ignore_text ns) = true /\ ignored_of_line (ignore_text ns) = ns.
Proof.
  intros H Hne. destruct (join_words_ends "I"%char ns H Hne) as (b & t & Hj & Hb & Hl).
  assert (Ht : trim_space (ignore_text ns) = ignore_text ns).
  { unfold ignore_text. rewrite Hj in *.
    change (str "IgnorePkg = " ++ b :: t) with ("I"%char :: (str "gnorePkg = " ++ b :: t)).
    apply trim_space_visible; [done|].
    assert (Hla : forall l, List.last (l ++ b :: t) "I"%char = List.last (b :: t) "I"%char).
    { clear. induction l as [|x l IH]; [done|]. cbn [app]. rewrite <- IH. by destruct l. }
    change (visible (List.last (str "IgnorePkg = " ++ b :: t) "I"%char) = true).
    by rewrite Hla. }
  assert (Hi : is_ignore_line (ignore_text ns) = true).
  { unfold is_ignore_line. rewrite Ht. unfold ignore_text.
    change (str "IgnorePkg = ") with (IGNORE ++ str " = "). rewrite <- app_assoc.
    apply has_prefix_app. }
  split; [done|]. unfold ignored_of_line. rewrite Hi, Ht. unfold ignore_text.
  change (str "IgnorePkg = " ++ join ns (str " "))
    with (str "IgnorePkg " ++ "="%char :: " "%char :: join ns (str " ")).
  rewrite cut_app by (by apply (bool_decide_unpack _)).
  assert (Hv : trim_space (" "%char :: join ns (str " ")) = join ns (str " ")).
  { transitivity (trim_space (join ns (str " "))).
    - unfold trim_space, trim_left_space. cbn [length strip_all]. by rewrite strip_blank.
    - rewrite Hj in *. apply trim_space_visible; [done|].
      assert (Hd : List.last (b :: t) b = List.last (b :: t) "I"%char).
      { clear. revert b. induction t as [|x t IH]; intros b; [done|].
        change (List.last (x :: t) b = List.last (x :: t) "I"%char). clear IH.
        revert x. induction t as [|y t IH]; intros x; [done|]. apply IH. }
      by rewrite Hd. }
  rewrite Hv. by apply fields_join.
Qed.

(** *** The rewriting, line by line *)

(** A line as it can come out of a scanner and go back into one. *)
Definition clean_line (l : gostring) : Prop := (NL ∉ l) /\ (CR ∉ l) /\ line_fits l.

Lemma scan_from_text ls :
  Forall clean_line ls -> scan_from (ls ++ [[]]) = (ls, true).
Proof.
  induction 1 as [|l ls (Hn & Hc & Hf) H IH]; [done|].
  assert (Hne : exists m ms, ls ++ [[]] = m :: ms) by (destruct ls; simpl; eauto).
  destruct Hne as (m & ms & Hm). cbn [app]. rewrite Hm in *. cbn [scan_from] in *.
  apply N.ltb_lt in Hf. rewrite Hf, IH, drop_cr_id by done. done.
Qed.

Lemma split_text ls :
  Forall (fun l => NL ∉ l) ls -> split_byte (text ls) NL = ls ++ [[]].
Proof.
  induction 1 as [|l ls Hl H IH]; [done|]. change (text (l :: ls)) with ((l ++ [NL]) ++ text ls).
  rewrite <- app_assoc. cbn [app]. rewrite Paths.split_byte_app by done. by rewrite IH.
Qed.

Lemma clean_no_nl ls : Forall clean_line ls -> Forall (fun l => NL ∉ l) ls.
Proof. intros H. eapply list.Forall_impl; [exact H|]. by intros l (? & _). Qed.

Lemma scan_lines_text ls : Forall clean_line ls -> scan_lines (text ls) = ls.
Proof.
  intros H. unfold scan_lines, scan. rewrite split_text by by apply clean_no_nl.
  by rewrite scan_from_text.
Qed.

Lemma scan_lines_clean s : scannable s -> Forall clean_line (scan_lines s).
Proof.
  intros [Hf Hc]. unfold scan_lines, scan.
  destruct (scan_from_fits (split_byte s NL)) as (tail & Ht & Hn); [done| |].
  - apply list.Forall_forall. intros l Hl Hin. eauto using split_elems.
  - apply list.Forall_forall. intros l Hl.
    assert (Hs : l ∈ split_byte s NL) by (rewrite Ht, elem_of_app; by left).
    split_and!; [by eapply Paths.split_byte_not_elem|intros Hin; eauto using split_elems|].
    rewrite list.Forall_forall in Hf. by apply Hf.
Qed.

(** What the copying loop writes. *)
Fixpoint out_lines (ig : list gostring) (lines : list gostring) (found : bool) : list gostring :=
  match lines with
  | [] => []
  | l :: rest =>
      if is_ignore_line l then
        (if found then [] else match ig with [] => [] | _ => [ignore_text ig] end)
        ++ out_lines ig rest true
      else l :: out_lines ig rest found
  end.

Lemma lines_text_app a b : text (a ++ b) = text a ++ text b.
Proof. unfold text. by rewrite map_app, concat_app. Qed.

Lemma rewrite_lines_out ig lines f :
  rewrite_lines ig lines f = (text (out_lines ig lines f), f || existsb is_ignore_line lines).
Proof.
  revert f. induction lines as [|l rest IH]; intros f; cbn [rewrite_lines out_lines existsb].
  - by rewrite orb_false_r.
  - destruct (is_ignore_line l) eqn:Hi; rewrite IH; cbn [orb]; f_equal.
    + rewrite lines_text_app. f_equal. destruct f; [done|]. destruct ig; [done|].
      unfold text, ignore_line, ignore_text. cbn [map concat]. by rewrite app_nil_r, <- app_assoc.
    + by rewrite orb_true_r.
    + change (text (l :: ?x)) with ((l ++ [NL]) ++ text x). by rewrite <- app_assoc.
Qed.

Definition other (l : gostring) : bool := negb (is_ignore_line l).

Lemma filter_other_cons l ls :
  List.filter other (l :: ls) = if is_ignore_line l then List.filter other ls
                                else l :: List.filter other ls.
Proof. cbn [List.filter]. unfold other at 1. by destruct (is_ignore_line l). Qed.

Section Rewriting.
Context (ig : list gostring) (Hw : Forall (fun w => word w = true) ig).

Lemma ignore_text_line : ig <> [] -> is_ignore_line (ignore_text ig) = true.
Proof. intros Hne. by apply ignored_of_ignore_text. Qed.

Lemma ignored_of_other l : is_ignore_line l = false -> ignored_of_line l = [].
Proof. unfold ignored_of_line. by intros ->. Qed.

(** The loop keeps the other lines and leaves exactly the new directive. *)
Lemma out_lines_spec lines f :
  List.filter other (out_lines ig lines f) = List.filter other lines /\
  concat (ignored_of_line <$> out_lines ig lines f)
    = (if f then [] else if existsb is_ignore_line lines then ig else []).
Proof.
  revert f. induction lines as [|l rest IH]; intros f; cbn [out_lines existsb]; [by destruct f|].
  rewrite filter_other_cons. destruct (is_ignore_line l) eqn:Hi; cbn [orb].
  - destruct (IH true) as [IH1 IH2]. rewrite fmap_app, concat_app, IH2, app_nil_r.
    destruct f; [done|]. destruct (decide (ig = [])) as [->|Hne]; [done|].
    assert (Hm : (match ig with [] => [] | _ => [ignore_text ig] end) = [ignore_text ig])
      by (by destruct ig).
    rewrite Hm. cbn [app]. rewrite filter_other_cons, (ignore_text_line Hne). split; [done|].
    rewrite list_fmap_singleton. cbn [concat]. rewrite app_nil_r.
    by apply ignored_of_ignore_text.
  - destruct (IH f) as [IH1 IH2]. rewrite filter_other_cons, Hi, IH1. split; [done|].
    rewrite fmap_cons. cbn [concat]. by rewrite (ignored_of_other _ Hi).
Qed.

Lemma out_lines_clean lines f :
  Forall clean_line lines -> (ig <> [] -> clean_line (ignore_text ig)) ->
  Forall clean_line (out_lines ig lines f).
Proof.
  intros H Hi. revert f. induction H as [|l rest Hl H IH]; intros f; cbn [out_lines]; [constructor|].
  case_match; [|by constructor]. apply list.Forall_app_2; [|done].
  destruct f; [constructor|]. destruct ig; [constructor|]. constructor; [by apply Hi|constructor].
Qed.
End Rewriting.

Lemma NL_split (x y t u : gostring) :
  NL ∉ x -> NL ∉ y -> x ++ NL :: t = y ++ NL :: u -> x = y /\ t = u.
Proof.
  intros Hx Hy H. pose proof (cut_app x NL t Hx) as Hc. rewrite H, cut_app in Hc by done.
  by simplify_eq.
Qed.

Lemma text_cut ls x t :
  Forall (fun l => NL ∉ l) ls -> text ls = x ++ NL :: t ->
  exists a b, ls = a ++ b /\ text a = x ++ [NL] /\ text b = t.
Proof.
  intros H. revert x. induction H as [|l ls Hl H IH]; intros x Ht; [by destruct x|].
  change (text (l :: ls)) with ((l ++ [NL]) ++ text ls) in Ht.
  rewrite <- app_assoc in Ht. cbn [app] in Ht.
  destruct (cut x NL) as [[x1 x2]|] eqn:Hx.
  - apply cut_Some in Hx as [-> Hx1]. rewrite <- app_assoc in Ht. cbn [app] in Ht.
    destruct (NL_split _ _ _ _ Hl Hx1 Ht) as [-> Ht']. destruct (IH _ Ht') as (a & b & -> & Ha & Hb).
    exists (x1 :: a), b. split_and!; try done.
    change (text (x1 :: a)) with ((x1 ++ [NL]) ++ text a). rewrite Ha, <- !app_assoc. done.
  - apply cut_None in Hx. destruct (NL_split _ _ _ _ Hl Hx Ht) as [-> Ht'].
    exists [x], ls. split_and!; try done. unfold text. cbn [map concat]. by rewrite app_nil_r.
Qed.

Lemma cut_str_contains s sep : contains s sep = true -> exists a b, cut_str s sep = Some (a, b).
Proof.
  induction s as [|c s IH]; cbn [contains cut_str].
  - intros H. rewrite orb_false_r in H. rewrite H. eauto.
  - destruct (has_prefix (c :: s) sep); [eauto|]. cbn [orb]. intros H.
    destruct (IH H) as (a & b & ->). eauto.
Qed.

Lemma contains_app a s b sub : contains s sub = true -> contains (a ++ s ++ b) sub = true.
Proof.
  rewrite !contains_spec. intros (x & y & ->). exists (a ++ x), (y ++ b). by rewrite <- !app_assoc.
Qed.

Lemma contains_text ls l sub : l ∈ ls -> contains l sub = true -> contains (text ls) sub = true.
Proof.
  intros (a & b & ->)%list_elem_of_split Hc. rewrite lines_text_app.
  change (text (l :: b)) with ((l ++ [NL]) ++ text b). rewrite <- app_assoc. by apply contains_app.
Qed.

(** Text that ends with a newline has one after every line-free substring. *)
Lemma text_NL_after ls x sub y :
  NL ∉ sub -> sub <> [] -> text ls = x ++ sub ++ y -> NL ∈ y.
Proof.
  intros Hs Hne Ht. destruct (decide (NL ∈ y)) as [|Hy]; [done|].
  destruct ls as [|l ls _] using rev_ind; [by destruct x, sub|].
  rewrite lines_text_app in Ht. assert (Hl : text [l] = l ++ [NL]).
  { unfold text. cbn [map concat]. by rewrite app_nil_r. }
  rewrite Hl, app_assoc in Ht. destruct y as [|c y _] using rev_ind.
  - destruct sub as [|c sub _] using rev_ind; [done|]. rewrite app_nil_r, app_assoc in Ht.
    apply app_inj_tail in Ht as [_ <-]. set_solver.
  - rewrite !app_assoc in Ht. apply app_inj_tail in Ht as [_ <-]. set_solver.
Qed.

(** *** The file after [writeIgnorePkg] *)

(** The file has a line that takes the directive. *)
Definition has_place (conf : gostring) : bool :=
  existsb (fun l => is_ignore_line l || contains l (str "[options]")) (scan_lines conf).

Definition OPTIONS : gostring := str "[options]".

Lemma out_lines_keep ig lines l :
  existsb is_ignore_line lines = false -> out_lines ig lines l = lines.
Proof.
  induction lines as [|x rest IH]; cbn [existsb out_lines]; [done|].
  intros [Hx Hr]%orb_false_iff. rewrite Hx. by rewrite IH.
Qed.

Lemma insert_after_options ls ig before after rest tail :
  Forall (fun l => NL ∉ l) ls -> cut_str (text ls) OPTIONS = Some (before, after) ->
  cut after NL = Some (rest, tail) ->
  exists a b, ls = a ++ b /\
    before ++ OPTIONS ++ rest ++ NL :: ignore_line ig ++ tail = text (a ++ ignore_text ig :: b).
Proof.
  intros Hn Hc Ha. apply cut_str_Some in Hc. apply cut_Some in Ha as [-> Hr].
  destruct (text_cut ls (before ++ OPTIONS ++ rest) tail Hn) as (a & b & -> & Hta & Htb).
  { rewrite Hc. by rewrite <- !app_assoc. }
  exists a, b. split; [done|]. rewrite lines_text_app, Hta.
  change (text (ignore_text ig :: b)) with ((ignore_text ig ++ [NL]) ++ text b).
  rewrite Htb. unfold ignore_line, ignore_text. by rewrite <- !app_assoc.
Qed.

(** The lines of the new file. *)
Lemma build_lines conf ig :
  scannable conf -> Forall (fun w => word w = true) ig ->
  (ig <> [] -> has_place conf = true) ->
  exists ls, buildIgnorePkgConf conf ig = text ls /\
    (ls = out_lines ig (scan_lines conf) false \/
     exists a b, ls = a ++ ignore_text ig :: b /\ a ++ b = scan_lines conf /\ ig <> []) /\
    List.filter other ls = List.filter other (scan_lines conf) /\
    concat (ignored_of_line <$> ls) = ig.
Proof.
  intros Hs Hw Hp. pose proof (scan_lines_clean _ Hs) as Hcl. set (L := scan_lines conf) in *.
  destruct (out_lines_spec ig Hw L false) as [Hf Hi].
  unfold buildIgnorePkgConf. fold L. rewrite rewrite_lines_out. cbn [orb].
  destruct (decide (ig = [])) as [->|Hne].
  { exists (out_lines [] L false). split_and!; auto. rewrite Hi. by case_match. }
  assert (Hm : forall (x y : gostring), (match ig with [] => x | _ => y end) = y) by (by destruct ig).
  rewrite Hm. destruct (existsb is_ignore_line L) eqn:Hex; [by exists (out_lines ig L false); auto|].
  rewrite (out_lines_keep ig L false Hex) in *.
  assert (Hopt : exists l, l ∈ L /\ contains l OPTIONS = true).
  { specialize (Hp Hne). apply existsb_exists in Hp as (l & Hl & Ho). exists l.
    split; [by apply list_elem_of_In|]. apply orb_true_iff in Ho as [Ho|Ho]; [|done].
    assert (existsb is_ignore_line L = true) by (apply existsb_exists; eauto). congruence. }
  destruct Hopt as (l & Hl & Ho). pose proof (contains_text _ _ _ Hl Ho) as Hc.
  destruct (cut_str_contains _ _ Hc) as (before & after & Hcut). fold OPTIONS. rewrite Hcut.
  assert (HNL : NL ∈ after).
  { pose proof (cut_str_Some _ _ _ _ Hcut) as Heq. eapply text_NL_after; [| |exact Heq]; [|done].
    by apply (bool_decide_unpack _). }
  destruct (cut after NL) as [[rest tail]|] eqn:Ha; [|by apply cut_None in Ha].
  destruct (insert_after_options L ig before after rest tail) as (a & b & Hab & Ht); try done.
  { by apply clean_no_nl. }
  exists (a ++ ignore_text ig :: b). split_and!; [exact Ht|right; eauto 10| |].
  - rewrite Hab, !List.filter_app, filter_other_cons. by rewrite (ignore_text_line _ Hw Hne).
  - rewrite Hab, fmap_app, concat_app in Hi. apply app_eq_nil in Hi as [Ha' Hb'].
    rewrite fmap_app, concat_app, fmap_cons. cbn [concat]. rewrite Ha', Hb', app_nil_r.
    by apply ignored_of_ignore_text.
Qed.

Lemma ignore_text_no ig c :
  Forall (fun w => word w = true) ig -> c ∉ str "IgnorePkg = " -> visible c = false ->
  c ∉ ignore_text ig.
Proof.
  intros Hw Hc Hv. unfold ignore_text. apply not_elem_of_app. split; [done|].
  assert (Hb : c ∉ str " ") by (intros H; apply Hc; revert H; clear;
    change (str "IgnorePkg = ") with (str "IgnorePkg =" ++ str " "); set_solver).
  induction Hw as [|w ws [_ Hw]%word_spec _ IH]; [apply not_elem_of_nil|].
  assert (Hcw : c ∉ w) by (by eapply forallb_not_elem).
  destruct ws as [|v ws]; [done|].
  change (join (w :: v :: ws) (str " ")) with (w ++ str " " ++ join (v :: ws) (str " ")).
  rewrite !not_elem_of_app. tauto.
Qed.

Lemma ignore_text_clean ig :
  Forall (fun w => word w = true) ig -> line_fits (ignore_text ig) -> clean_line (ignore_text ig).
Proof.
  intros Hw Hl. split_and!; [| |done]; apply ignore_text_no; try done;
    by apply (bool_decide_unpack _).
Qed.

Lemma text_scannable ls : Forall clean_line ls -> scannable (text ls).
Proof.
  intros H. split.
  - rewrite split_text by by apply clean_no_nl. apply list.Forall_app_2; [|by repeat constructor].
    eapply list.Forall_impl; [exact H|]. by intros l (_ & _ & ?).
  - induction H as [|l ls (_ & Hc & _) _ IH]; [apply not_elem_of_nil|].
    change (text (l :: ls)) with ((l ++ [NL]) ++ text ls).
    rewrite !not_elem_of_app, not_elem_of_cons. split_and!; try done. apply not_elem_of_nil.
Qed.

(** Writing a set of pins and reading it back gives that set, and every line that
    is not an [IgnorePkg] directive stays as it was. *)
Lemma build_roundtrip conf ig :
  scannable conf -> Forall (fun n => word n = true) ig ->
  line_fits (ignore_text ig) -> (ig <> [] -> has_place conf = true) ->
  getIgnoredPackages (buildIgnorePkgConf conf ig) = ig /\
  List.filter other (scan_lines (buildIgnorePkgConf conf ig))
    = List.filter other (scan_lines conf) /\
  scannable (buildIgnorePkgConf conf ig).
Proof.
  intros Hs Hw Hl Hp.
  destruct (build_lines conf ig Hs Hw Hp) as (ls & -> & Hls & Hf & Hi).
  pose proof (scan_lines_clean _ Hs) as Hcl.
  assert (Hc : Forall clean_line ls).
  { destruct Hls as [->|(a & b & -> & Hab & Hne)].
    - apply out_lines_clean; [done|done|]. intros _. by apply ignore_text_clean.
    - rewrite <- Hab in Hcl. apply list.Forall_app in Hcl as [Ha Hb].
      apply list.Forall_app_2; [done|]. constructor; [by apply ignore_text_clean|done]. }
  split; [|split; [by rewrite scan_lines_text|by apply text_scannable]].
  unfold getIgnoredPackages. by rewrite scan_lines_text.
Qed.

Lemma add_ignored_elem ignored ps n : n ∈ add_ignored ignored ps <-> n ∈ ignored \/ n ∈ ps.
Proof.
  unfold add_ignored. revert ignored. induction ps as [|p ps IH]; intros ignored; cbn [fold_left].
  - rewrite elem_of_nil. tauto.
  - rewrite IH, elem_of_cons. case_bool_decide; [|rewrite elem_of_app, list_elem_of_singleton];
      split; intros H1; decompose [or] H1; subst; auto.
Qed.

Lemma remove_ignored_elem ignored ps n : n ∈ remove_ignored ignored ps <-> n ∈ ignored /\ n ∉ ps.
Proof.
  unfold remove_ignored. rewrite list_elem_of_In, filter_In, <- list_elem_of_In.
  rewrite negb_true_iff, bool_decide_eq_false. done.
Qed.

Lemma names_words ps :
  check_pacman_names ps = Ok tt -> Forall (fun w => word w = true) ps.
Proof.
  unfold check_pacman_names. intros H. apply list.Forall_forall. intros n Hn.
  apply pin_name_word. destruct (validPacmanPkgName n) eqn:Hv; [done|].
  destruct (List.filter _ ps) as [|m ms] eqn:Hf; [|done].
  assert (Hin : In n (List.filter (fun n => negb (validPacmanPkgName n)) ps))
    by (apply filter_In; split; [by apply list_elem_of_In|by rewrite Hv]).
  by rewrite Hf in Hin.
Qed.

(** ** The programs on a host *)

Definition cat_conf : Command := MkCommand (str "cat") [str "/etc/pacman.conf"] [] [] [] false.
Definition tee_conf : Command := MkCommand (str "tee") [str "/etc/pacman.conf"] [] [] [] true.

(** A host that keeps the configuration file: [cat] prints it, [tee] replaces it. *)
Class ConfHost (S : Type) (h : handler S) (conf : S -> gostring) : Prop := {
  cat_prints s : exists s' err, h _ s (CRun cat_conf []) = (s', (MkResult 0 (conf s) err, None)) /\
    conf s' = conf s;
  tee_writes s i : exists s' out err, h _ s (CRun tee_conf i) = (s', (MkResult 0 out err, None)) /\
    conf s' = i
}.

Section OnHost.
Context {S : Type} (h : handler S) (conf : S -> gostring) `{Hhost : !ConfHost S h conf}.

Definition pins (s : S) : list gostring := getIgnoredPackages (conf s).

(** The file can be edited without loss. *)
Definition editable (s : S) : Prop :=
  scannable (conf s) /\ Forall (fun w => word w = true) (pins s).

Lemma run_readConf {A} s (k : gostring -> prog A) (e : pkg_error -> prog A) :
  exists s', conf s' = conf s /\
    run h s (let! r := readConf in match r with Ok c => k c | Err x => e x end)
      = run h s' (k (conf s)).
Proof.
  destruct (cat_prints s) as (s' & err & Hc & Hs). exists s'. split; [done|].
  unfold readConf, readOut, read_result, runRead, ask, bind_ok. cbn [bind run].
  fold cat_conf. rewrite Hc. done.
Qed.

Lemma run_writeIgnorePkg {A} s c ig (k : option pkg_error -> prog A) :
  exists s', conf s' = buildIgnorePkgConf c ig /\
    run h s (let! e := writeIgnorePkg c ig in k e) = run h s' (k None).
Proof.
  destruct (tee_writes s (buildIgnorePkgConf c ig)) as (s' & out & err & Ht & Hs). exists s'.
  split; [done|]. unfold writeIgnorePkg, runPrivStdin, ask. cbn [bind run]. fold tee_conf.
  rewrite Ht. done.
Qed.

Lemma run_IsPinned s n :
  ValidatePackageName n = Ok tt -> (run h s (IsPinned n)).2 = Ok (bool_decide (n ∈ pins s)).
Proof.
  intros Hn. unfold IsPinned. rewrite Hn. cbn [checkq]. unfold bind_ok.
  destruct (run_readConf s (fun c => Ret (Ok (bool_decide (n ∈ getIgnoredPackages c))))
              (fun e => Ret (Err e))) as (s' & _ & Hr).
  by rewrite Hr.
Qed.

(** One edit of the set: read the file, compute the new set, write the file. *)
Definition edit (f : list gostring -> list gostring) : mutation :=
  let! r := readConf in
  match r with
  | Err e => Ret (no_result, Some e)
  | Ok c => let! err := writeIgnorePkg c (f (getIgnoredPackages c)) in Ret (no_result, err)
  end.

Lemma run_edit s f :
  editable s -> Forall (fun w => word w = true) (f (pins s)) ->
  line_fits (ignore_text (f (pins s))) -> (f (pins s) <> [] -> has_place (conf s) = true) ->
  exists s', run h s (edit f) = (s', (no_result, None)) /\ pins s' = f (pins s) /\ editable s' /\
    List.filter other (scan_lines (conf s')) = List.filter other (scan_lines (conf s)).
Proof.
  intros [Hs Hw] Hfw Hl Hp. unfold edit.
  destruct (run_readConf s
    (fun c => let! err := writeIgnorePkg c (f (getIgnoredPackages c)) in Ret (no_result, err))
    (fun e => Ret (no_result, Some e))) as (s1 & H1 & ->).
  destruct (run_writeIgnorePkg s1 (conf s) (f (getIgnoredPackages (conf s)))
    (fun err => Ret (no_result, err))) as (s2 & H2 & ->).
  exists s2. split; [done|]. fold (pins s) in *.
  destruct (build_roundtrip (conf s) (f (pins s)) Hs Hfw Hl Hp) as (Hg & Ho & Hsc).
  unfold editable, pins in *. rewrite H2, Hg. done.
Qed.

Lemma pins_place s : pins s <> [] -> has_place (conf s) = true.
Proof.
  unfold pins, getIgnoredPackages, has_place. intros Hne. apply existsb_exists.
  destruct (existsb is_ignore_line (scan_lines (conf s))) eqn:He.
  - apply existsb_exists in He as (l & Hl & Hi). exists l. by rewrite Hi.
  - destruct Hne. induction (scan_lines (conf s)) as [|l ls IH]; [done|].
    cbn [existsb] in He. apply orb_false_iff in He as [Hl Hls]. rewrite fmap_cons. cbn [concat].
    by rewrite (ignored_of_other l Hl), IH.
Qed.


(** Unpinning implements difference on the set of pinned packages, under the same
    conditions. *)
Theorem unpin_refines_difference s ps :
  editable s -> ps <> [] -> ValidatePackageNames ps = Ok tt ->
  line_fits (ignore_text (remove_ignored (pins s) ps)) ->
  exists s', run h s (Unpin ps) = (s', (no_result, None)) /\ editable s' /\
    (forall n, ValidatePackageName n = Ok tt ->
       (run h s' (IsPinned n)).2 = Ok (bool_decide (n ∈ pins s /\ n ∉ ps))) /\
    List.filter other (scan_lines (conf s')) = List.filter other (scan_lines (conf s)).
Proof.
  intros He Hne Hv Hl.
  assert (Hrun : run h s (Unpin ps) = run h s (edit (fun ig => remove_ignored ig ps))).
  { unfold Unpin. rewrite Hv. cbn [check]. by destruct ps. }
  destruct (run_edit s (fun ig => remove_ignored ig ps)) as (s' & Hr & Hpins & He' & Ho); try done.
  - apply list.Forall_forall. intros n [Hn _]%remove_ignored_elem.
    destruct He as [_ Hw]. rewrite list.Forall_forall in Hw. by apply Hw.
  - intros Hn. apply pins_place. intros Hz. rewrite Hz in Hn. done.
  - exists s'. rewrite Hrun. split; [done|]. split; [done|]. split; [|done]. intros n Hn.
    rewrite run_IsPinned, Hpins by done. f_equal. apply bool_decide_ext. apply remove_ignored_elem.
Qed.
End OnHost.

(** ** A concrete host *)

Definition demo_handler : handler gostring :=
  command_host (fun s c i =>
    if bool_decide (Name c = str "cat") then (s, (MkResult 0 s [], None))
    else if bool_decide (Name c = str "tee") then (i, (MkResult 0 i [], None))
    else (s, (MkResult 1 [] [], None))) absent absent.

#[global] Instance demo_conf_host : ConfHost gostring demo_handler id.
Proof.
  split.
  - intros s. by exists s, [].
  - intros s i. by exists i, i, [].
Qed.

Definition demo_conf : gostring :=
  str "[options]" ++ NL :: str "HoldPkg = pacman" ++ NL :: str "IgnorePkg = linux" ++ [NL].

Lemma demo_editable : editable id demo_conf.
Proof.
  split; [split|]; apply (bool_decide_unpack _); by_eval.
Qed.


Lemma unpin_refines_difference_witness :
  exists s', run demo_handler demo_conf (Unpin [str "linux"]) = (s', (no_result, None)) /\
    (run demo_handler s' (IsPinned (str "linux"))).2 = Ok false.
Proof.
  destruct (unpin_refines_difference demo_handler id demo_conf [str "linux"] demo_editable)
    as (s' & Hr & _ & Hp & _); [done|by_eval|by_eval|].
  exists s'. split; [exact Hr|]. rewrite Hp by by_eval. by_eval.
Defined.

(** ** What goes wrong outside the hypotheses *)

(** A file with neither an [IgnorePkg] line nor an [[options]] section loses the
    pin, and [Pin] reports success. *)
Lemma pin_silently_lost :
  run demo_handler (str "Server = x") (Pin [str "vim"])
    = (str "Server = x" ++ [NL], (no_result, None)).
Proof. by_eval. Qed.

(** A line too long for the scanner: it and everything after it disappear from
    the file that [Pin] and [Unpin] write. *)
Lemma long_line_truncates l rest ig :
  NL ∉ l -> (maxScanTokenSize <= N.of_nat (length l))%N ->
  buildIgnorePkgConf (l ++ NL :: rest) ig = [].
Proof.
  intros Hl Hlen. unfold buildIgnorePkgConf, scan_lines, scan. rewrite Paths.split_byte_app by done.
  assert (Hs : forall r, r <> [] -> scan_from (l :: r) = ([], false)).
  { intros [|x r] Hr; [done|]. cbn [scan_from]. by rewrite (proj2 (N.ltb_ge _ _) Hlen). }
  rewrite Hs by (by destruct rest as [|c r]; cbn [split_byte]; repeat case_match).
  cbn [fst rewrite_lines]. by destruct ig.
Qed.
End PkgPins.
