(* ===== verification/PkgApt.v ===== *)
(** * The apt backend ([src/pkg/apt.go])

    Every operation of the Debian package manager.  [found_apt] is the answer
    [lookPath("apt")] gave when the manager resolved its command once. *)
From S2P Require Import Prelude Exec HostProg Repo Pkg.

Module PkgApt.
Import Exec HostProg Pkg.

Definition aptWriteEnv : list gostring := [str "DEBIAN_FRONTEND=noninteractive"].
Definition dpkgConfOptions : list gostring :=
  [str "-o"; str "Dpkg::Options::=--force-confdef"; str "-o"; str "Dpkg::Options::=--force-confold"].

Section Manager.
Context (found_apt : bool).

Definition aptCommand : gostring := if found_apt then str "apt" else str "apt-get".
Definition hasApt : bool := bool_decide (aptCommand = str "apt").

Definition write (cmd : gostring) (args : list gostring) : mutation :=
  let cmd := if bool_decide (cmd = str "apt") || bool_decide (cmd = str "apt-get")
             then aptCommand else cmd in
  write_with true aptWriteEnv cmd args.

(** [parts := strings.Fields(out); if len(parts) >= 2 { return parts[1] }]. *)
Definition second_field (out : gostring) : gostring :=
  match fields out with _ :: v :: _ => v | _ => [] end.

Definition Version_ : query gostring :=
  let!? out := readOut aptCommand [str "--version"] in Ret (Ok (second_field out)).

Definition Install (opts : InstallOptions) (packages : list gostring) : mutation :=
  check (ValidatePackageNames packages) (
  check (ValidatePackageVersion (Version opts)) (
  if negb (bool_decide (Version opts = [])) && negb (length packages =? 1)
  then Ret (no_result, Some (VersionNeedsOne (length packages)))
  else match packages with
       | [] => Ret (no_result, None)
       | p0 :: _ =>
           write (str "apt")
             ([str "install"; str "-y"; str "--fix-broken"]
              ++ (if AllowDowngrade opts then [str "--allow-downgrades"] else [])
              ++ (if bool_decide (Version opts = []) then packages
                  else [p0 ++ str "=" ++ Version opts]))
       end)).

Definition InstallLocal (path : gostring) (opts : InstallLocalOptions) : mutation :=
  check (ValidateLocalPackagePath path) (
  write (str "apt")
    ([str "install"; str "-y"] ++ dpkgConfOptions
     ++ (if il_AllowDowngrade opts then [str "--allow-downgrades"] else []) ++ [path])).

Definition Remove (opts : RemoveOptions) (packages : list gostring) : mutation :=
  check (ValidatePackageNames packages) (
  match packages with
  | [] => Ret (no_result, None)
  | _ => let verb := if Purge opts then str "purge" else str "remove" in
         write (str "apt") ([verb; str "-y"] ++ packages)
  end).

Definition Update : mutation := write (str "apt") [str "update"].

Definition Upgrade (packages : list gostring) : mutation :=
  check (ValidatePackageNames packages) (
  match packages with
  | [] => Ret (no_result, None)
  | _ => write (str "apt")
           ([str "install"; str "-y"; str "--only-upgrade"] ++ dpkgConfOptions ++ packages)
  end).

Definition unattendedUpgradeBinPaths : list gostring :=
  [str "/usr/bin/unattended-upgrade"; str "/usr/sbin/unattended-upgrade"].

(** The first of the paths that is there and not a directory. *)
Fixpoint stat_first (paths : list gostring) : prog (option gostring) :=
  match paths with
  | [] => Ret None
  | p :: rest =>
      let! st := ask (CStat p) in
      match st with
      | Ok false => Ret (Some p)
      | _ => stat_first rest
      end
  end.

Definition resolveUnattendedUpgrade : query gostring :=
  let! hit := stat_first unattendedUpgradeBinPaths in
  match hit with
  | Some p => Ret (Ok p)
  | None =>
      let! found := ask (CLookPath (str "unattended-upgrade")) in
      Ret (match found with
           | Some p => Ok p
           | None => Err (EBackendUnavailable (str "unattended-upgrade"))
           end)
  end.

Definition securityUpgrade : mutation :=
  let! bin := resolveUnattendedUpgrade in
  match bin with
  | Err e => Ret (no_result, Some e)
  | Ok bin => write bin [str "-v"]
  end.

Definition UpgradeAll (opts : UpgradeOptions) : mutation :=
  if SecurityOnly opts then securityUpgrade
  else write (str "apt") ([str "dist-upgrade"; str "-y"] ++ dpkgConfOptions).

Definition Pin (packages : list gostring) : mutation :=
  check (ValidatePackageNames packages) (
  match packages with
  | [] => Ret (no_result, None)
  | _ => write (str "apt-mark") ([str "hold"] ++ packages)
  end).
Definition Unpin (packages : list gostring) : mutation :=
  check (ValidatePackageNames packages) (
  match packages with
  | [] => Ret (no_result, None)
  | _ => write (str "apt-mark") ([str "unhold"] ++ packages)
  end).

Definition Autoremove : mutation := write (str "apt") [str "autoremove"; str "-y"].

Definition lock_files : list gostring :=
  [str "/var/lib/dpkg/lock"; str "/var/lib/dpkg/lock-frontend"; str "/var/lib/apt/lists/lock";
   str "/var/cache/apt/archives/lock"].

Fixpoint remove_locks (files : list gostring) : prog (option pkg_error) :=
  match files with
  | [] => Ret None
  | lf :: rest =>
      let! e := removeStaleLock lf in
      match e with Some e => Ret (Some e) | None => remove_locks rest end
  end.

Definition Repair : mutation :=
  let! e := remove_locks lock_files in
  match e with
  | Some e => Ret (no_result, Some e)
  | None =>
      let! (res, err) := best_effort_steps
        [write (str "dpkg") [str "--configure"; str "-a"];
         write (str "apt") ([str "--fix-broken"; str "install"; str "-y"] ++ dpkgConfOptions)]
        no_result in
      match err with
      | Some e => Ret (res, Some e)
      | None =>
          let! (res, err) := write (str "apt") [str "update"] in
          match err with
          | Some e => let! e' := repairErr (str "apt update failed") e in Ret (res, Some e')
          | None => Ret (res, None)
          end
      end
  end.

(** *** Queries *)

Definition search_line (l : gostring) : option SearchResult :=
  match cut_str l (str " - ") with
  | None => None
  | Some (a, b) => Some (MkSearch (trim_space a) [] (trim_space b) [])
  end.
Definition Search (query_ : gostring) : query (list SearchResult) :=
  checkq (ValidateSearchQuery query_) (
  let!? out := readOut (str "apt-cache") [str "search"; query_] in
  Ret (Ok (omap search_line (scan_lines out)))).

(** The set as the list of its members. *)
Definition held_names (out : gostring) : list gostring :=
  List.filter (fun n => negb (bool_decide (n = []))) (trim_space <$> scan_lines out).
Definition getPinnedSet : query (list gostring) :=
  let!? out := readOut (str "apt-mark") [str "showhold"] in Ret (Ok (held_names out)).

Definition list_line (pinned : list gostring) (l : gostring) : option Package :=
  match split_byte l TAB with
  | f0 :: f1 :: f2 :: f3 :: f4 :: rest =>
      if contains f3 (str "installed") then
        Some (MkPackage f0 f1 f2 (hd [] rest) (str "installed")
                (wrap64 ((parse_int64 f4).1 * 1024)) [] (bool_decide (f0 ∈ pinned)))
      else None
  | _ => None
  end.
Definition list_format : gostring :=
  str "-f=${Package}" ++ TAB :: str "${Version}" ++ TAB :: str "${Architecture}" ++ TAB ::
  str "${Status}" ++ TAB :: str "${Installed-Size}" ++ TAB :: str "${Description}" ++ [NL].
Definition List_ : query (list Package) :=
  let!? out := readOut (str "dpkg-query") [str "-W"; list_format] in
  let!? pinned := getPinnedSet in
  Ret (Ok (omap (list_line pinned) (scan_lines out))).

(** [^([^/]+)/(\S+)\s+(\S+)\s+(\S+)\s+\[upgradable from: ([^\]]+)\]]: each class
    excludes the byte that ends it, so every group is the longest run. *)
Definition aptUpgradableRe (l : gostring) : option PackageUpdate :=
  '(name, r) ← span1 (fun c => negb (bool_decide (c = "/"%char))) l;
  match r with
  | _ :: r =>
      '(repo, r) ← span1 re_not_space r;
      '(_, r) ← span1 re_space r;
      '(newv, r) ← span1 re_not_space r;
      '(_, r) ← span1 re_space r;
      '(arch, r) ← span1 re_not_space r;
      '(_, r) ← span1 re_space r;
      if has_prefix r (str "[upgradable from: ") then
        '(cur, r) ← span1 (fun c => negb (bool_decide (c = "]"%char)))
                      (drop (length (str "[upgradable from: ")) r);
        match r with
        | _ :: _ => Some (MkUpdate name cur newv arch repo)
        | [] => None
        end
      else None
  | [] => None
  end.
Definition ListUpgradable : query (list PackageUpdate) :=
  let!? out := readOut aptCommand [str "list"; str "--upgradable"] in
  Ret (Ok (omap aptUpgradableRe (tail (scan_lines out)))).

Definition IsInstalled (name : gostring) : query bool :=
  checkq (ValidatePackageName name) (
  let!? res := read_result (str "dpkg") [str "-s"; name] in
  Ret (Ok (ExitCode res =? 0)%Z)).

Definition InstalledVersion (name : gostring) : query gostring :=
  checkq (ValidatePackageName name) (
  let!? (out, ok) := probe (str "dpkg-query") [str "-W"; str "-f=${Version}"; name] in
  Ret (Ok (if negb ok then [] else trim_space out))).

Definition IsPinned (name : gostring) : query bool :=
  checkq (ValidatePackageName name) (
  let!? out := readOut (str "apt-mark") [str "showhold"; name] in
  Ret (Ok (bool_decide (trim_space out = name)))).

Definition show_line (p : Package) (l : gostring) : Package :=
  let value label := trim_space (trim_prefix l label) in
  if has_prefix l (str "Version:") then set_Version p (value (str "Version:"))
  else if has_prefix l (str "Architecture:") then set_Architecture p (value (str "Architecture:"))
  else if has_prefix l (str "Description:") then set_Description p (value (str "Description:"))
  else if has_prefix l (str "Installed-Size:") then
    match parse_int64 (value (str "Installed-Size:")) with
    | (size, true) => set_Size p (wrap64 (size * 1024))
    | (_, false) => p
    end
  else p.
Definition Show (name : gostring) : query Package :=
  checkq (ValidatePackageName name) (
  let cmd := if hasApt then str "apt" else str "apt-cache" in
  let!? out := readOut cmd [str "show"; name] in
  let p := fold_left show_line (scan_lines out) (MkPackage name [] [] [] [] 0 [] false) in
  let!? installed := IsInstalled name in
  let p := set_Status p (if installed : bool then str "installed" else str "available") in
  let!? pinned := IsPinned name in
  Ret (Ok (set_Pinned p pinned))).

(** The loop of [ListVersions]; [seen] is the set of the versions so far. *)
Fixpoint madison (lines : list gostring) (seen : list gostring) : list AvailableVersion :=
  match lines with
  | [] => []
  | l :: rest =>
      match split_byte l "|"%char with
      | _ :: f1 :: f2 :: _ =>
          let version := trim_space f1 in
          if bool_decide (version ∈ seen) then madison rest seen
          else MkAvailable version (trim_space f2) 0 :: madison rest (version :: seen)
      | _ => madison rest seen
      end
  end.
Definition ListVersions (name : gostring) : query VersionInfo :=
  checkq (ValidatePackageName name) (
  let!? out := readOut (str "apt-cache") [str "madison"; name] in
  let!? installed := InstalledVersion name in
  Ret (Ok (MkVersionInfo name (madison (scan_lines out) []) installed))).

(** The map as the list of its bindings, the latest first. *)
Definition parseControlFields (out : gostring) : list (gostring * gostring) :=
  fold_left (fun m l => match cut l ":"%char with
                        | None => m
                        | Some (k, v) => (trim_space k, trim_space v) :: m
                        end) (split_byte out NL) [].
(** [m[key]], the zero value when absent. *)
Definition field (m : list (gostring * gostring)) (key : gostring) : gostring :=
  match List.find (fun kv => bool_decide (kv.1 = key)) m with
  | Some (_, v) => v
  | None => []
  end.
Definition LocalPackageInfo (path : gostring) : query LocalPackage :=
  checkq (ValidateLocalPackagePath path) (
  let!? out := readOut (str "dpkg-deb") [str "-f"; path; str "Package"; str "Version"; str "Architecture"] in
  let fs := parseControlFields out in
  let name := field fs (str "Package") in
  if bool_decide (name = []) then Ret (Err (ENoName path))
  else match ValidatePackageName name with
       | Err e => Ret (Err (EWrap (str "pkg: local .deb reports an unsafe package name") e))
       | Ok _ => Ret (Ok (MkLocalPackage name (field fs (str "Version")) (field fs (str "Architecture"))))
       end).

Definition InstalledCount : query nat :=
  let!? out := readOut (str "dpkg-query") [str "-f"; "."%char :: [NL]; str "-W"] in
  Ret (Ok (countNonEmptyLines out)).

Definition HasUpdates (_ : bool) : query bool :=
  let!? out := readOut aptCommand [str "-s"; str "upgrade"] in
  Ret (Ok (existsb (fun l => has_prefix l (str "Inst ")) (scan_lines out))).

Definition ListPinned : query (list Package) :=
  let!? out := readOut (str "apt-mark") [str "showhold"] in
  pinned_packages InstalledVersion (held_names out).

Definition apt : Manager :=
  MkManager Apt Version_ Search List_ ListUpgradable Show ListVersions IsInstalled
    LocalPackageInfo InstalledVersion InstalledCount HasUpdates IsPinned ListPinned Install
    InstallLocal Remove Update Upgrade UpgradeAll Pin Unpin Repair Autoremove.

(** ** Laws *)

Definition apt_flags : list gostring :=
  [str "--version"; str "-y"; str "--fix-broken"; str "--allow-downgrades"; str "-o";
   str "--only-upgrade"; str "-v"; str "--configure"; str "-a"; str "-W"; list_format;
   str "--upgradable"; str "-s"; str "-f=${Version}"; str "-f"].

Lemma apt_IsInstalled_ro n : read_only apt_flags (IsInstalled n).
Proof. unfold IsInstalled. ro. Qed.
Lemma apt_InstalledVersion_ro n : read_only apt_flags (InstalledVersion n).
Proof. unfold InstalledVersion. ro. Qed.
Lemma apt_IsPinned_ro n : read_only apt_flags (IsPinned n).
Proof. unfold IsPinned. ro. Qed.
Lemma apt_getPinnedSet_ro : read_only apt_flags getPinnedSet.
Proof. unfold getPinnedSet. ro. Qed.
#[local] Hint Resolve apt_IsInstalled_ro apt_InstalledVersion_ro apt_IsPinned_ro apt_getPinnedSet_ro : pkg.

Lemma stat_first_ct ps : contained apt_flags (stat_first ps).
Proof.
  induction ps as [|p ps IH]; [apply contained_ret|]. apply contained_bind; [by repeat split|].
  intros [[]|e]; [done|apply contained_ret|done].
Qed.

Lemma remove_locks_ct files :
  Forall (fun f => operand f = true) files -> contained apt_flags (remove_locks files).
Proof.
  induction 1 as [|f fs Hf _ IH]; [apply contained_ret|].
  apply contained_bind; [apply removeStaleLock_ct; [in_flags|done]|].
  intros [e|]; [apply contained_ret|done].
Qed.

Lemma securityUpgrade_ct : contained apt_flags securityUpgrade.
Proof.
  unfold securityUpgrade, resolveUnattendedUpgrade, write.
  apply contained_bind; [|intros [b|e]; ct].
  apply contained_bind; [apply stat_first_ct|]. intros [p|]; [apply contained_ret|].
  apply contained_bind; [by repeat split|]. intros o. apply contained_ret.
Qed.
#[local] Hint Resolve stat_first_ct securityUpgrade_ct : pkg.

Lemma apt_ListPinned_ro : read_only apt_flags ListPinned.
Proof. unfold ListPinned. ro. Qed.

#[global] Instance apt_laws : ManagerLaws apt_flags apt.
Proof.
  split; cbn [apt m_Version m_Search m_List m_ListUpgradable m_Show m_ListVersions m_IsInstalled
    m_LocalPackageInfo m_InstalledVersion m_InstalledCount m_HasUpdates m_IsPinned m_ListPinned
    m_Install m_InstallLocal m_Remove m_Update m_Upgrade m_UpgradeAll m_Pin m_Unpin m_Repair m_Autoremove m_Backend].
  - unfold Version_. ro.
  - intros q. unfold Search. ro.
  - unfold List_. ro.
  - unfold ListUpgradable. ro.
  - intros n. unfold Show. ro.
  - intros n. unfold ListVersions. ro.
  - auto with pkg.
  - intros p. unfold LocalPackageInfo. ro.
  - auto with pkg.
  - unfold InstalledCount. ro.
  - intros b. unfold HasUpdates. ro.
  - auto with pkg.
  - apply read_only_contained, apt_ListPinned_ro.
  - intros _. apply apt_ListPinned_ro.
  - intros o ps. unfold Install, write. ct.
  - intros p o. unfold InstallLocal, write, dpkgConfOptions. ct.
  - intros o ps. unfold Remove, write. ct.
  - unfold Update, write. ct.
  - intros ps. unfold Upgrade, write, dpkgConfOptions. ct.
  - intros o. unfold UpgradeAll, write, dpkgConfOptions. ct.
  - intros ps. unfold Pin, write. ct.
  - intros ps. unfold Unpin, write. ct.
  - unfold Repair, write, dpkgConfOptions. apply contained_bind; [|intros ?; ct].
    apply remove_locks_ct. apply (bool_decide_unpack _). by_eval.
  - intros _. unfold Autoremove, write. ct.
  - intros ps o ro H. split_and!; by apply check_refuses.
  - intros p o H. by apply check_refuses.
  - done.
Qed.
End Manager.
End PkgApt.
