(* ===== verification/PkgDnf.v ===== *)
(** * The dnf backend ([src/pkg/dnf.go])

    Every operation of the Fedora package manager, with the version-lock plugin
    and the explicit downgrade retry. *)
From S2P Require Import Prelude Exec HostProg Repo Pkg.

Module PkgDnf.
Import Exec HostProg Pkg.

Definition DNF : gostring := str "dnf".

(** What precedes the first match of [-\d]; the whole string if there is none. *)
Fixpoint parseNEVRAName (nevra : gostring) : gostring :=
  match nevra with
  | [] => []
  | c :: rest =>
      match rest with
      | d :: _ => if bool_decide (c = "-"%char) && is_digit d then [] else c :: parseNEVRAName rest
      | [] => [c]
      end
  end.

Definition write (args : list gostring) : mutation := write_with true [] DNF args.

Definition first_line (out : gostring) : gostring := hd [] (split_byte out NL).
Definition Version_ : query gostring :=
  let!? out := readOut DNF [str "--version"] in Ret (Ok (trim_space (first_line out))).

Definition is_command_error (err : option pkg_error) : bool :=
  match err with Some e => as_command_error e | None => false end.

Definition Install (opts : InstallOptions) (packages : list gostring) : mutation :=
  check (ValidatePackageNames packages) (
  check (ValidatePackageVersion (Version opts)) (
  if negb (bool_decide (Version opts = [])) && negb (length packages =? 1)
  then Ret (no_result, Some (VersionNeedsOne (length packages)))
  else match packages with
       | [] => Ret (no_result, None)
       | p0 :: _ =>
           let pkgSpec := p0 ++ str "-" ++ Version opts in
           let! (res, err) := write
             ([str "install"; str "-y"]
              ++ (if AllowDowngrade opts then [str "--allowerasing"] else [])
              ++ (if bool_decide (Version opts = []) then packages else [pkgSpec])) in
           if is_command_error err && AllowDowngrade opts && negb (bool_decide (Version opts = []))
           then write [str "downgrade"; str "-y"; pkgSpec]
           else Ret (res, err)
       end)).

Definition InstallLocal (path : gostring) (opts : InstallLocalOptions) : mutation :=
  check (ValidateLocalPackagePath path) (
  let! (res, err) := write
    ([str "install"; str "-y"]
     ++ (if AllowUnsigned opts then [str "--nogpgcheck"] else [])
     ++ (if il_AllowDowngrade opts then [str "--allowerasing"] else []) ++ [path]) in
  if is_command_error err && il_AllowDowngrade opts
  then write ([str "downgrade"; str "-y"]
              ++ (if AllowUnsigned opts then [str "--nogpgcheck"] else []) ++ [path])
  else Ret (res, err)).

Definition Remove (_ : RemoveOptions) (packages : list gostring) : mutation :=
  check (ValidatePackageNames packages) (
  match packages with
  | [] => Ret (no_result, None)
  | _ => write ([str "remove"; str "-y"] ++ packages)
  end).

Definition Update : mutation :=
  let! (res, err) := runPriv true [] DNF [str "check-update"] in
  Ret (match err with
       | Some e => (no_result, Some (ERun e))
       | None => if (ExitCode res =? 0)%Z || (ExitCode res =? 100)%Z then (res, None)
                 else (res, asCommandError DNF res)
       end).

Definition Upgrade (packages : list gostring) : mutation :=
  check (ValidatePackageNames packages) (
  match packages with
  | [] => Ret (no_result, None)
  | _ => write ([str "upgrade"; str "-y"] ++ packages)
  end).

Definition UpgradeAll (opts : UpgradeOptions) : mutation :=
  write ([str "upgrade"; str "-y"] ++ (if SecurityOnly opts then [str "--security"] else [])).

Definition ensureVersionLock : prog (option pkg_error) :=
  let! r := probe DNF [str "versionlock"; str "--help"] in
  match r with
  | Err e => Ret (Some e)
  | Ok (_, true) => Ret None
  | Ok (_, false) =>
      let! (_, err) := write [str "install"; str "-y"; str "python3-dnf-plugin-versionlock"] in
      Ret err
  end.

Definition Pin (packages : list gostring) : mutation :=
  check (ValidatePackageNames packages) (
  match packages with
  | [] => Ret (no_result, None)
  | _ =>
      let! e := ensureVersionLock in
      match e with
      | Some e => Ret (no_result, Some e)
      | None => write ([str "versionlock"; str "add"] ++ packages)
      end
  end).
Definition Unpin (packages : list gostring) : mutation :=
  check (ValidatePackageNames packages) (
  match packages with
  | [] => Ret (no_result, None)
  | _ =>
      let! e := ensureVersionLock in
      match e with
      | Some e => Ret (no_result, Some e)
      | None => write ([str "versionlock"; str "delete"] ++ packages)
      end
  end).

Definition Autoremove : mutation := write [str "autoremove"; str "-y"].

Definition Repair : mutation :=
  best_effort_steps
    [write [str "history"; str "redo"; str "last"; str "-y"];
     write [str "remove"; str "--duplicates"; str "-y"];
     verifyOrRebuildRPMDB] no_result.

(** *** Queries *)

Definition search_line (l : gostring) : option SearchResult :=
  if has_prefix l (str "=") || bool_decide (l = []) then None
  else match cut_str l (str " : ") with
       | None => None
       | Some (a, b) => Some (MkSearch (hd [] (split_byte a "."%char)) [] (trim_space b) [])
       end.
Definition Search (query_ : gostring) : query (list SearchResult) :=
  checkq (ValidateSearchQuery query_) (
  let!? res := read_result DNF [str "search"; str "-q"; query_] in
  if (ExitCode res =? 1)%Z then Ret (Ok [])
  else match asCommandError DNF res with
       | Some e => Ret (Err e)
       | None => Ret (Ok (omap search_line (scan_lines (Stdout res))))
       end).

(** The set as the list of its members. *)
Definition locked_names (out : gostring) : list gostring :=
  parseNEVRAName <$> List.filter (fun l => negb (bool_decide (l = []))) (trim_space <$> scan_lines out).
Definition getPinnedSet : query (list gostring) :=
  let!? (out, ok) := probe DNF [str "versionlock"; str "list"; str "-q"] in
  Ret (Ok (if negb ok then [] else locked_names out)).

Definition list_line (pinned : list gostring) (l : gostring) : option Package :=
  match split_byte l TAB with
  | f0 :: f1 :: f2 :: f3 :: rest =>
      Some (MkPackage f0 f1 f2 (hd [] rest) (str "installed") (parse_int64 f3).1 []
              (bool_decide (f0 ∈ pinned)))
  | _ => None
  end.
Definition list_format : gostring :=
  str "%{NAME}" ++ TAB :: str "%{VERSION}-%{RELEASE}" ++ TAB :: str "%{ARCH}" ++ TAB ::
  str "%{SIZE}" ++ TAB :: str "%{SUMMARY}" ++ [NL].
Definition List_ : query (list Package) :=
  let!? out := readOut (str "rpm") [str "-qa"; str "--queryformat"; list_format] in
  let!? pinned := getPinnedSet in
  Ret (Ok (omap (list_line pinned) (scan_lines out))).

Definition IsInstalled (name : gostring) : query bool :=
  checkq (ValidatePackageName name) (
  let!? res := read_result (str "rpm") [str "-q"; name] in
  Ret (Ok (ExitCode res =? 0)%Z)).

Definition InstalledVersion (name : gostring) : query gostring :=
  checkq (ValidatePackageName name) (
  let!? res := read_result (str "rpm")
    [str "-q"; str "--queryformat"; str "%{VERSION}-%{RELEASE}"; name] in
  Ret (Ok (if negb (ExitCode res =? 0)%Z then [] else trim_space (Stdout res)))).

Definition upgradable_line (updates : list PackageUpdate) (l : gostring)
    : query (list PackageUpdate) :=
  match l with
  | [] => Ret (Ok updates)
  | _ =>
      match fields l with
      | f0 :: f1 :: f2 :: _ =>
          let nameParts := split_byte f0 "."%char in
          let name := hd [] nameParts in
          let arch := if 1 <? length nameParts then List.last nameParts [] else [] in
          let!? current := InstalledVersion name in
          Ret (Ok (updates ++ [MkUpdate name current f1 arch f2]))
      | _ => Ret (Ok updates)
      end
  end.
Definition ListUpgradable : query (list PackageUpdate) :=
  let!? res := read_result DNF [str "check-update"; str "-q"] in
  if negb (ExitCode res =? 0)%Z && negb (ExitCode res =? 100)%Z
  then Ret (match asCommandError DNF res with Some e => Err e | None => Ok [] end)
  else for_each upgradable_line (scan_lines (Stdout res)) [].

Definition IsPinned (name : gostring) : query bool :=
  checkq (ValidatePackageName name) (
  let!? (out, ok) := probe DNF [str "versionlock"; str "list"; str "-q"] in
  Ret (Ok (if negb ok then false else bool_decide (name ∈ locked_names out)))).

Section Sizes.
Context (float_size : gostring -> Z -> Z).
Definition parseSize (s : gostring) : Z :=
  parseSizeWithUnits float_size s
    [(str " k", 1024%Z); (str " K", 1024%Z); (str " M", (1024 * 1024)%Z);
     (str " G", (1024 * 1024 * 1024)%Z)].

Definition show_line (p : Package) (l : gostring) : Package :=
  if has_prefix l (str "Version") then set_Version p (parseColonValue l)
  else if has_prefix l (str "Release") then
    match p_Version p with
    | [] => p
    | v => set_Version p (v ++ str "-" ++ parseColonValue l)
    end
  else if has_prefix l (str "Architecture") then set_Architecture p (parseColonValue l)
  else if has_prefix l (str "Size") then set_Size p (parseSize (parseColonValue l))
  else if has_prefix l (str "Summary") then set_Description p (parseColonValue l)
  else if has_prefix l (str "Repository") then set_Repository p (parseColonValue l)
  else p.
Definition Show (name : gostring) : query Package :=
  checkq (ValidatePackageName name) (
  let!? out := readOut DNF [str "info"; str "-q"; name] in
  let p := fold_left show_line (scan_lines out) (MkPackage name [] [] [] (str "available") 0 [] false) in
  let!? installed := IsInstalled name in
  let p := if installed : bool then set_Status p (str "installed") else p in
  let!? pinned := IsPinned name in
  Ret (Ok (set_Pinned p pinned))).

(** The loop of [ListVersions]; [seen] is the set of the versions so far. *)
Fixpoint versions (lines : list gostring) (seen : list gostring) : list AvailableVersion :=
  match lines with
  | [] => []
  | l :: rest =>
      if bool_decide (l = []) || has_prefix l (str "Installed") || has_prefix l (str "Available")
      then versions rest seen
      else match fields l with
           | _ :: version :: repo :: _ =>
               if bool_decide (version ∈ seen) then versions rest seen
               else MkAvailable version repo 0 :: versions rest (version :: seen)
           | _ => versions rest seen
           end
  end.
Definition ListVersions (name : gostring) : query VersionInfo :=
  checkq (ValidatePackageName name) (
  let!? out := readOut DNF [str "list"; str "--showduplicates"; str "-q"; name] in
  let!? installed := InstalledVersion name in
  Ret (Ok (MkVersionInfo name (versions (scan_lines out) []) installed))).

Definition LocalPackageInfo (path : gostring) : query LocalPackage := rpmLocalPackageInfo path.

Definition InstalledCount : query nat :=
  let!? out := readOut (str "rpm") [str "-qa"; str "--qf"; "."%char :: [NL]] in
  Ret (Ok (countNonEmptyLines out)).

Definition HasUpdates (securityOnly : bool) : query bool :=
  let!? res := read_result DNF
    ([str "check-update"; str "-q"] ++ (if securityOnly then [str "--security"] else [])) in
  Ret (if (ExitCode res =? 0)%Z then Ok false
       else if (ExitCode res =? 100)%Z then Ok true
       else match asCommandError DNF res with Some e => Err e | None => Ok false end).

Definition ListPinned : query (list Package) :=
  let! e := ensureVersionLock in
  match e with
  | Some e => Ret (Err e)
  | None =>
      let!? out := readOut DNF [str "versionlock"; str "list"; str "-q"] in
      pinned_packages InstalledVersion (locked_names out)
  end.

Definition dnf : Manager :=
  MkManager Dnf Version_ Search List_ ListUpgradable Show ListVersions IsInstalled
    LocalPackageInfo InstalledVersion InstalledCount HasUpdates IsPinned ListPinned Install
    InstallLocal Remove Update Upgrade UpgradeAll Pin Unpin Repair Autoremove.

(** ** Laws *)

Definition dnf_flags : list gostring :=
  [str "--version"; str "-y"; str "--allowerasing"; str "--nogpgcheck"; str "--security"; str "--help";
   str "--duplicates"; str "-q"; str "-qa"; str "--queryformat"; str "--qf"; str "-qp";
   str "--showduplicates"; str "--verifydb"; str "--rebuilddb"].

Lemma dnf_IsInstalled_ro n : read_only dnf_flags (IsInstalled n).
Proof. unfold IsInstalled. ro. Qed.
Lemma dnf_InstalledVersion_ro n : read_only dnf_flags (InstalledVersion n).
Proof. unfold InstalledVersion. ro. Qed.
Lemma dnf_IsPinned_ro n : read_only dnf_flags (IsPinned n).
Proof. unfold IsPinned. ro. Qed.
Lemma dnf_getPinnedSet_ro : read_only dnf_flags getPinnedSet.
Proof. unfold getPinnedSet. ro. Qed.
Lemma ensureVersionLock_ct : contained dnf_flags ensureVersionLock.
Proof. unfold ensureVersionLock, write. ct. Qed.
#[local] Hint Resolve dnf_IsInstalled_ro dnf_InstalledVersion_ro dnf_IsPinned_ro dnf_getPinnedSet_ro
  ensureVersionLock_ct : pkg.

#[global] Instance dnf_laws : ManagerLaws dnf_flags dnf.
Proof.
  split; cbn [dnf m_Version m_Search m_List m_ListUpgradable m_Show m_ListVersions m_IsInstalled
    m_LocalPackageInfo m_InstalledVersion m_InstalledCount m_HasUpdates m_IsPinned m_ListPinned
    m_Install m_InstallLocal m_Remove m_Update m_Upgrade m_UpgradeAll m_Pin m_Unpin m_Repair m_Autoremove m_Backend].
  - unfold Version_. ro.
  - intros q. unfold Search. ro.
  - unfold List_. ro.
  - unfold ListUpgradable. ro. unfold upgradable_line. ro.
  - intros n. unfold Show. ro.
  - intros n. unfold ListVersions. ro.
  - auto with pkg.
  - intros p. apply rpmLocalPackageInfo_ro; in_flags.
  - auto with pkg.
  - unfold InstalledCount. ro.
  - intros b. unfold HasUpdates. ro.
  - auto with pkg.
  - unfold ListPinned. ct.
  - done.
  - intros o ps. unfold Install, write. ct.
  - intros p o. unfold InstallLocal, write. ct.
  - intros o ps. unfold Remove, write. ct.
  - unfold Update, write. ct.
  - intros ps. unfold Upgrade, write. ct.
  - intros o. unfold UpgradeAll, write. ct.
  - intros ps. unfold Pin, write. ct.
  - intros ps. unfold Unpin, write. ct.
  - unfold Repair, write. ct.
  - intros _. unfold Autoremove, write. ct.
  - intros ps o ro H. split_and!; by apply check_refuses.
  - intros p o H. by apply check_refuses.
  - done.
Qed.
End Sizes.
End PkgDnf.
