(* ===== verification/PkgZypper.v ===== *)
(** * The zypper backend ([src/pkg/zypper.go])

    Every operation of the openSUSE package manager. *)
From S2P Require Import Prelude Exec HostProg Repo Pkg.

Module PkgZypper.
Import Exec HostProg Pkg.

Definition ZYPPER : gostring := str "zypper".
Definition NI : gostring := str "--non-interactive".

(** The prefix [\s*\d+\s*\|\s*] of a row of the lock table: what follows it. *)
Definition lock_row (l : gostring) : option gostring :=
  '(_, r) ← Some (span re_space l);
  '(_, r) ← span1 is_digit r;
  '(_, r) ← Some (span re_space r);
  match r with
  | c :: r => if bool_decide (c = "|"%char) then Some (span re_space r).2 else None
  | [] => None
  end.
(** [^\s*\d+\s*\|\s*(\S+)]. *)
Definition zypperLockRe (l : gostring) : option gostring :=
  r ← lock_row l; '(name, _) ← span1 re_not_space r; Some name.
(** [^\s*\d+\s*\|\s*NAME\s*\|] for a quoted name. *)
Definition locks_name (name l : gostring) : bool :=
  match lock_row l with
  | Some r => has_prefix r name &&
              (match (span re_space (drop (length name) r)).2 with
               | c :: _ => bool_decide (c = "|"%char)
               | [] => false
               end)
  | None => false
  end.

Definition isZypperInfoExit (code : Z) : bool :=
  ((code =? 0) || ((100 <=? code) && (code <=? 103)))%Z.

Definition write (args : list gostring) : mutation := write_with true [] ZYPPER args.

Definition Version_ : query gostring :=
  let!? out := readOut ZYPPER [str "--version"] in
  Ret (Ok (match fields out with _ :: v :: _ => v | _ => [] end)).

Definition Install (opts : InstallOptions) (packages : list gostring) : mutation :=
  check (ValidatePackageNames packages) (
  check (ValidatePackageVersion (Version opts)) (
  if negb (bool_decide (Version opts = [])) && negb (length packages =? 1)
  then Ret (no_result, Some (VersionNeedsOne (length packages)))
  else match packages with
       | [] => Ret (no_result, None)
       | p0 :: _ =>
           write ([NI; str "install"]
                  ++ (if AllowDowngrade opts then [str "--oldpackage"] else [])
                  ++ (if bool_decide (Version opts = []) then packages
                      else [p0 ++ str "=" ++ Version opts]))
       end)).

Definition InstallLocal (path : gostring) (opts : InstallLocalOptions) : mutation :=
  check (ValidateLocalPackagePath path) (
  write ([NI; str "install"]
         ++ (if AllowUnsigned opts then [str "--allow-unsigned-rpm"] else [])
         ++ (if il_AllowDowngrade opts then [str "--oldpackage"] else []) ++ [path])).

Definition Remove (_ : RemoveOptions) (packages : list gostring) : mutation :=
  check (ValidatePackageNames packages) (
  match packages with
  | [] => Ret (no_result, None)
  | _ => write ([NI; str "remove"] ++ packages)
  end).

Definition Update : mutation := write [NI; str "refresh"].

Definition Upgrade (packages : list gostring) : mutation :=
  check (ValidatePackageNames packages) (
  match packages with
  | [] => Ret (no_result, None)
  | _ => write ([NI; str "update"] ++ packages)
  end).

Definition UpgradeAll (opts : UpgradeOptions) : mutation :=
  if SecurityOnly opts then write [NI; str "patch"; str "--category"; str "security"]
  else write [NI; str "dist-upgrade"].

Definition Autoremove : mutation := Ret (no_result, None).

Definition Repair : mutation :=
  let! e := removeStaleZyppLock (str "/run/zypp.pid") in
  match e with
  | Some e => Ret (no_result, Some e)
  | None =>
      best_effort_steps
        [write [NI; str "clean"; str "--all"]; write [NI; str "refresh"];
         write [NI; str "verify"; str "--recommends"]; verifyOrRebuildRPMDB] no_result
  end.

Definition Pin (packages : list gostring) : mutation :=
  check (ValidatePackageNames packages) (
  match packages with
  | [] => Ret (no_result, None)
  | _ => write ([NI; str "addlock"] ++ packages)
  end).
Definition Unpin (packages : list gostring) : mutation :=
  check (ValidatePackageNames packages) (
  match packages with
  | [] => Ret (no_result, None)
  | _ => write ([NI; str "removelock"] ++ packages)
  end).

(** *** Queries *)

(** The lines below the table header; further rules are skipped. *)
Definition is_rule (l : gostring) : bool := has_prefix l (str "---") || has_prefix l (str "+-").
Fixpoint table_rows (lines : list gostring) (headerPassed : bool) : list gostring :=
  match lines with
  | [] => []
  | l :: rest =>
      if is_rule l then table_rows rest true
      else if negb headerPassed then table_rows rest headerPassed
      else l :: table_rows rest headerPassed
  end.

Definition search_row (l : gostring) : option SearchResult :=
  match split_byte l "|"%char with
  | _ :: p1 :: p2 :: _ =>
      match trim_space p1 with
      | [] => None
      | name => Some (MkSearch name [] (trim_space p2) [])
      end
  | _ => None
  end.
Definition Search (query_ : gostring) : query (list SearchResult) :=
  checkq (ValidateSearchQuery query_) (
  let!? res := read_result ZYPPER [NI; str "search"; query_] in
  if (ExitCode res =? 104)%Z then Ret (Ok [])
  else match asCommandError ZYPPER res with
       | Some e => Ret (Err e)
       | None => Ret (Ok (omap search_row (table_rows (scan_lines (Stdout res)) false)))
       end).

(** The set as the list of its members. *)
Definition getPinnedSet : query (list gostring) :=
  let!? (out, ok) := probe ZYPPER [NI; str "locks"] in
  Ret (Ok (if negb ok then [] else omap zypperLockRe (scan_lines out))).

Definition list_line (pinned : list gostring) (l : gostring) : option Package :=
  match split_byte l TAB with
  | f0 :: f1 :: f2 :: f3 :: rest =>
      Some (MkPackage f0 f1 f2 (hd [] rest) (str "installed") (parse_int64 f3).1 []
              (bool_decide (f0 ∈ pinned)))
  | _ => None
  end.
Definition list_format : gostring :=
  str "%{NAME}" ++ TAB :: str "%{VERSION}-%{RELEASE}" ++ TAB :: str "%{ARCH}" ++ TAB ::
  str "%{SIZE}" ++ TAB :: str "%{SUMMARY}" ++ [NL].
Definition List_ : query (list Package) :=
  let!? out := readOut (str "rpm") [str "-qa"; str "--queryformat"; list_format] in
  let!? pinned := getPinnedSet in
  Ret (Ok (omap (list_line pinned) (scan_lines out))).

Definition update_row (l : gostring) : option PackageUpdate :=
  match split_byte l "|"%char with
  | _ :: p1 :: p2 :: p3 :: p4 :: rest =>
      match trim_space p2 with
      | [] => None
      | name => Some (MkUpdate name (trim_space p3) (trim_space p4)
                        (match rest with p5 :: _ => trim_space p5 | [] => [] end) (trim_space p1))
      end
  | _ => None
  end.
Definition ListUpgradable : query (list PackageUpdate) :=
  let!? res := read_result ZYPPER [NI; str "list-updates"] in
  if negb (isZypperInfoExit (ExitCode res))
  then Ret (match asCommandError ZYPPER res with Some e => Err e | None => Ok [] end)
  else Ret (Ok (omap update_row (table_rows (scan_lines (Stdout res)) false))).

Definition IsInstalled (name : gostring) : query bool :=
  checkq (ValidatePackageName name) (
  let!? res := read_result (str "rpm") [str "-q"; name] in
  Ret (Ok (ExitCode res =? 0)%Z)).

Definition InstalledVersion (name : gostring) : query gostring :=
  checkq (ValidatePackageName name) (
  let!? res := read_result (str "rpm")
    [str "-q"; str "--queryformat"; str "%{VERSION}-%{RELEASE}"; name] in
  Ret (Ok (if negb (ExitCode res =? 0)%Z then [] else trim_space (Stdout res)))).

Definition IsPinned (name : gostring) : query bool :=
  checkq (ValidatePackageName name) (
  let!? (out, ok) := probe ZYPPER [NI; str "locks"] in
  Ret (Ok (if negb ok then false else existsb (locks_name name) (scan_lines out)))).

Section Sizes.
Context (float_size : gostring -> Z -> Z).
Definition parseZypperSize (s : gostring) : Z :=
  parseSizeWithUnits float_size s
    [(str " KiB", 1024%Z); (str " MiB", (1024 * 1024)%Z); (str " GiB", (1024 * 1024 * 1024)%Z);
     (str " B", 1%Z)].

Definition show_line (p : Package) (l : gostring) : Package :=
  if has_prefix l (str "Version") then set_Version p (parseColonValue l)
  else if has_prefix l (str "Arch") then set_Architecture p (parseColonValue l)
  else if has_prefix l (str "Summary") then set_Description p (parseColonValue l)
  else if has_prefix l (str "Installed Size") then set_Size p (parseZypperSize (parseColonValue l))
  else if has_prefix l (str "Repository") then set_Repository p (parseColonValue l)
  else if has_prefix l (str "Status") then
    if contains (to_lower (parseColonValue l)) (str "installed")
    then set_Status p (str "installed") else p
  else p.
Definition Show (name : gostring) : query Package :=
  checkq (ValidatePackageName name) (
  let!? out := readOut ZYPPER [NI; str "info"; name] in
  let p := fold_left show_line (scan_lines out) (MkPackage name [] [] [] (str "available") 0 [] false) in
  let!? installed := IsInstalled name in
  let p := if installed : bool then set_Status p (str "installed") else p in
  let!? pinned := IsPinned name in
  Ret (Ok (set_Pinned p pinned))).

(** The rows of [ListVersions]; [seen] is the set of the versions so far. *)
Fixpoint versions (name : gostring) (rows : list gostring) (seen : list gostring)
    : list AvailableVersion :=
  match rows with
  | [] => []
  | l :: rest =>
      match split_byte l "|"%char with
      | _ :: p1 :: _ :: p3 :: _ :: p5 :: _ =>
          if negb (bool_decide (trim_space p1 = name)) then versions name rest seen
          else
            let version := trim_space p3 in
            if bool_decide (version ∈ seen) then versions name rest seen
            else MkAvailable version (trim_space p5) 0 :: versions name rest (version :: seen)
      | _ => versions name rest seen
      end
  end.
Definition ListVersions (name : gostring) : query VersionInfo :=
  checkq (ValidatePackageName name) (
  let!? res := read_result ZYPPER [NI; str "search"; str "-s"; str "--match-exact"; name] in
  let!? installed := InstalledVersion name in
  if (ExitCode res =? 104)%Z then Ret (Ok (MkVersionInfo name [] installed))
  else match asCommandError ZYPPER res with
       | Some e => Ret (Err e)
       | None => Ret (Ok (MkVersionInfo name
                   (versions name (table_rows (scan_lines (Stdout res)) false) []) installed))
       end).

Definition LocalPackageInfo (path : gostring) : query LocalPackage := rpmLocalPackageInfo path.

Definition InstalledCount : query nat :=
  let!? out := readOut (str "rpm") [str "-qa"; str "--qf"; "."%char :: [NL]] in
  Ret (Ok (countNonEmptyLines out)).

Definition HasUpdates (securityOnly : bool) : query bool :=
  let!? res := read_result ZYPPER
    ([NI; str "list-updates"]
     ++ (if securityOnly then [str "--type"; str "patch"; str "--category"; str "security"] else [])) in
  if (ExitCode res =? 100)%Z then Ret (Ok true)
  else match asCommandError ZYPPER res with
       | Some e => Ret (Err e)
       | None => Ret (Ok (existsb (fun l => contains l (str "v |") || contains l (str "i |"))
                            (scan_lines (Stdout res))))
       end.

Definition ListPinned : query (list Package) :=
  let!? out := readOut ZYPPER [NI; str "locks"] in
  pinned_packages InstalledVersion (omap zypperLockRe (table_rows (scan_lines out) false)).

Definition zypper : Manager :=
  MkManager Zypper Version_ Search List_ ListUpgradable Show ListVersions IsInstalled
    LocalPackageInfo InstalledVersion InstalledCount HasUpdates IsPinned ListPinned Install
    InstallLocal Remove Update Upgrade UpgradeAll Pin Unpin Repair Autoremove.

(** ** Laws *)

Definition zypper_flags : list gostring :=
  [str "--version"; NI; str "--oldpackage"; str "--allow-unsigned-rpm"; str "--category"; str "--all";
   str "--recommends"; str "-s"; str "--match-exact"; str "--type"; str "-q"; str "-qa"; str "-qp";
   str "--queryformat"; str "--qf"; str "--verifydb"; str "--rebuilddb"; str "-f"; str "-0"].

Lemma zypper_IsInstalled_ro n : read_only zypper_flags (IsInstalled n).
Proof. unfold IsInstalled. ro. Qed.
Lemma zypper_InstalledVersion_ro n : read_only zypper_flags (InstalledVersion n).
Proof. unfold InstalledVersion. ro. Qed.
Lemma zypper_IsPinned_ro n : read_only zypper_flags (IsPinned n).
Proof. unfold IsPinned. ro. Qed.
Lemma zypper_getPinnedSet_ro : read_only zypper_flags getPinnedSet.
Proof. unfold getPinnedSet. ro. Qed.
#[local] Hint Resolve zypper_IsInstalled_ro zypper_InstalledVersion_ro zypper_IsPinned_ro zypper_getPinnedSet_ro : pkg.

Lemma zypper_ListPinned_ro : read_only zypper_flags ListPinned.
Proof. unfold ListPinned. ro. Qed.

#[global] Instance zypper_laws : ManagerLaws zypper_flags zypper.
Proof.
  split; cbn [zypper m_Version m_Search m_List m_ListUpgradable m_Show m_ListVersions m_IsInstalled
    m_LocalPackageInfo m_InstalledVersion m_InstalledCount m_HasUpdates m_IsPinned m_ListPinned
    m_Install m_InstallLocal m_Remove m_Update m_Upgrade m_UpgradeAll m_Pin m_Unpin m_Repair m_Autoremove m_Backend].
  - unfold Version_. ro.
  - intros q. unfold Search. ro.
  - unfold List_. ro.
  - unfold ListUpgradable. ro.
  - intros n. unfold Show. ro.
  - intros n. unfold ListVersions. ro.
  - auto with pkg.
  - intros p. apply rpmLocalPackageInfo_ro; in_flags.
  - auto with pkg.
  - unfold InstalledCount. ro.
  - intros b. unfold HasUpdates. ro.
  - auto with pkg.
  - apply read_only_contained, zypper_ListPinned_ro.
  - intros _. apply zypper_ListPinned_ro.
  - intros o ps. unfold Install, write. ct.
  - intros p o. unfold InstallLocal, write. ct.
  - intros o ps. unfold Remove, write. ct.
  - unfold Update, write. ct.
  - intros ps. unfold Upgrade, write. ct.
  - intros o. unfold UpgradeAll, write. ct.
  - intros ps. unfold Pin, write. ct.
  - intros ps. unfold Unpin, write. ct.
  - unfold Repair, write. ct.
  - intros _. apply contained_ret.
  - intros ps o ro H. split_and!; by apply check_refuses.
  - intros p o H. by apply check_refuses.
  - done.
Qed.
End Sizes.
End PkgZypper.
