(* ===== verification/PkgFlatpak.v ===== *)
(** * The flatpak backend ([src/pkg/flatpak.go])

    Every operation of the application-bundle manager, in system or user scope,
    and the management of remotes.  [system] is the manager's scope; URL parsing
    is a parameter, as in [Repo]. *)
From S2P Require Import Prelude Exec HostProg Repo Pkg.

Module PkgFlatpak.
Import Exec HostProg Pkg.

Definition FLATPAK : gostring := str "flatpak".
Definition YES : list gostring := [str "-y"; str "--noninteractive"].

Section Manager.
Context (system : bool).

Definition scope : gostring := if system then str "--system" else str "--user".

Definition write (args : list gostring) : mutation := write_with system [] FLATPAK args.

Definition Version_ : query gostring :=
  let!? out := readOut FLATPAK [str "--version"] in
  Ret (Ok (match fields out with _ :: v :: _ => v | _ => [] end)).

Definition Install (opts : InstallOptions) (packages : list gostring) : mutation :=
  check (ValidatePackageNames packages) (
  check (ValidatePackageVersion (Version opts)) (
  check (if bool_decide (Remote opts = []) then Ok tt else ValidateRemoteName (Remote opts)) (
  match packages with
  | [] => Ret (no_result, None)
  | _ => write ([str "install"] ++ YES ++ [scope]
                ++ (if bool_decide (Remote opts = []) then [] else [Remote opts]) ++ packages)
  end))).

Definition InstallLocal (path : gostring) (_ : InstallLocalOptions) : mutation :=
  check (ValidateLocalPackagePath path) (write ([str "install"] ++ YES ++ [scope] ++ [path])).

Definition Remove (opts : RemoveOptions) (packages : list gostring) : mutation :=
  check (ValidatePackageNames packages) (
  match packages with
  | [] => Ret (no_result, None)
  | _ => write ([str "uninstall"] ++ YES ++ (if Purge opts then [str "--delete-data"] else [])
                ++ [scope] ++ packages)
  end).

Definition Update : mutation := write ([str "update"; str "--appstream"] ++ YES ++ [scope]).

Definition Upgrade (packages : list gostring) : mutation :=
  check (ValidatePackageNames packages) (
  match packages with
  | [] => Ret (no_result, None)
  | _ => write ([str "update"] ++ YES ++ [scope] ++ packages)
  end).

Definition UpgradeAll (opts : UpgradeOptions) : mutation :=
  if SecurityOnly opts then Ret (no_result, Some ErrSecurityOnlyUnsupported)
  else write ([str "update"] ++ YES ++ [scope]).

Definition Autoremove : mutation := write ([str "uninstall"; str "--unused"] ++ YES ++ [scope]).

Definition Repair : mutation :=
  let! (res, err) := write [str "repair"; scope] in
  match err with
  | Some e => let! e' := repairErr (str "flatpak repair failed") e in Ret (res, Some e')
  | None => Ret (res, None)
  end.

(** The best-effort loop of [Pin] and [Unpin]: every bundle is attempted and the
    last error is kept. *)
Fixpoint mask_all (pre : list gostring) (names : list gostring) (last : Result)
    (lastErr : option pkg_error) : mutation :=
  match names with
  | [] => Ret (last, lastErr)
  | name :: rest =>
      let! (res, err) := write (pre ++ [name; scope]) in
      mask_all pre rest res (match err with Some e => Some e | None => lastErr end)
  end.
Definition Pin (packages : list gostring) : mutation :=
  check (ValidatePackageNames packages) (mask_all [str "mask"] packages no_result None).
Definition Unpin (packages : list gostring) : mutation :=
  check (ValidatePackageNames packages)
    (mask_all [str "mask"; str "--remove"] packages no_result None).

(** *** Queries *)

Definition parseFlatpakSearchLine (l : gostring) : option SearchResult :=
  match split_byte l TAB with
  | _ :: f1 :: f2 :: _ => Some (MkSearch f2 [] f1 [])
  | _ => None
  end.
Definition parseFlatpakValue (l : gostring) : gostring :=
  match cut l ":"%char with
  | None => []
  | Some (_, v) => trim_space v
  end.

Definition search_lines (lines : list gostring) : list SearchResult :=
  match lines with
  | [] => []
  | first :: rest =>
      (if contains_any first [TAB] then omap parseFlatpakSearchLine [first] else [])
      ++ omap parseFlatpakSearchLine rest
  end.
Definition Search (query_ : gostring) : query (list SearchResult) :=
  checkq (ValidateSearchQuery query_) (
  let!? res := read_result FLATPAK [str "search"; query_] in
  if (ExitCode res =? 1)%Z then Ret (Ok [])
  else match asCommandError FLATPAK res with
       | Some e => Ret (Err e)
       | None => Ret (Ok (search_lines (scan_lines (Stdout res))))
       end).

(** The non-empty trimmed lines; the set as the list of its members. *)
Definition trimmed_lines (out : gostring) : list gostring :=
  List.filter (fun n => negb (bool_decide (n = []))) (trim_space <$> scan_lines out).
Definition getPinnedSet : query (list gostring) :=
  let!? (out, ok) := probe FLATPAK [str "mask"; scope] in
  Ret (Ok (if negb ok then [] else trimmed_lines out)).

Definition IsInstalled (name : gostring) : query bool :=
  checkq (ValidatePackageName name) (
  let!? res := read_result FLATPAK [str "info"; name; scope] in
  Ret (Ok (ExitCode res =? 0)%Z)).

Definition InstalledVersion (name : gostring) : query gostring :=
  checkq (ValidatePackageName name) (
  let!? res := read_result FLATPAK [str "info"; str "--show-version"; name; scope] in
  Ret (Ok (if negb (ExitCode res =? 0)%Z then [] else trim_space (Stdout res)))).

Definition InstalledCount : query nat :=
  let!? out := readOut FLATPAK [str "list"; str "--columns=application"; scope] in
  Ret (Ok (countNonEmptyLines out)).

Definition HasUpdates (_ : bool) : query bool :=
  let!? out := readOut FLATPAK [str "remote-ls"; str "--updates"; str "--columns=application"; scope] in
  Ret (Ok (negb (bool_decide (trim_space out = [])))).

Definition ListPinned : query (list Package) :=
  let!? out := readOut FLATPAK [str "mask"; scope] in
  pinned_packages InstalledVersion (trimmed_lines out).

Definition IsPinned (name : gostring) : query bool :=
  checkq (ValidatePackageName name) (
  let!? (out, ok) := probe FLATPAK [str "mask"; scope] in
  Ret (Ok (if negb ok then false
           else existsb (fun l => bool_decide (trim_space l = name)) (scan_lines out)))).

Definition upgradable_line (updates : list PackageUpdate) (l : gostring)
    : query (list PackageUpdate) :=
  match split_byte l TAB with
  | f0 :: f1 :: rest =>
      let!? current := InstalledVersion f0 in
      Ret (Ok (updates ++ [MkUpdate f0 current f1 [] (hd [] rest)]))
  | _ => Ret (Ok updates)
  end.
Definition ListUpgradable : query (list PackageUpdate) :=
  let!? out := readOut FLATPAK
    [str "remote-ls"; str "--updates"; str "--columns=application,version,origin"; scope] in
  for_each upgradable_line (scan_lines out) [].

(** The first [Version:] line. *)
Definition remote_version (lines : list gostring) : list AvailableVersion :=
  match List.find (fun l => has_prefix l (str "Version:")) lines with
  | Some l => [MkAvailable (parseFlatpakValue l) (str "flathub") 0]
  | None => []
  end.
Definition ListVersions (name : gostring) : query VersionInfo :=
  checkq (ValidatePackageName name) (
  let!? installed := InstalledVersion name in
  let!? (out, ok) := probe FLATPAK [str "remote-info"; str "flathub"; name] in
  Ret (Ok (MkVersionInfo name (if negb ok then [] else remote_version (scan_lines out)) installed))).

Definition LocalPackageInfo (_ : gostring) : query LocalPackage := Ret (Err EUnsupported).

(** *** Remotes *)

Section Remotes.
Context (Parse : gostring -> option Repo.URL).
Definition AddRemote (name url : gostring) : prog (option pkg_error) :=
  match ValidateRemoteName name with
  | Err e => Ret (Some e)
  | Ok _ =>
      if negb (Repo.ValidateRepoBaseURL Parse url) then Ret (Some BadURL)
      else let! (_, err) := write [str "remote-add"; str "--if-not-exists"; name; url; scope] in
           Ret err
  end.
End Remotes.
Definition RemoveRemote (name : gostring) : prog (option pkg_error) :=
  match ValidateRemoteName name with
  | Err e => Ret (Some e)
  | Ok _ => let! (_, err) := write [str "remote-delete"; str "--force"; name; scope] in Ret err
  end.
Definition ListRemotes : query (list gostring) :=
  let!? out := readOut FLATPAK [str "remotes"; str "--columns=name"; scope] in
  Ret (Ok (trimmed_lines out)).

Section Sizes.
Context (float_size : gostring -> Z -> Z).
Definition parseFlatpakSize (s : gostring) : Z :=
  parseSizeWithUnits float_size (List.filter (fun c => negb (bool_decide (c = ","%char))) s)
    [(str " kB", 1000%Z); (str " KB", 1000%Z); (str " KiB", 1024%Z); (str " MB", 1000000%Z);
     (str " MiB", (1024 * 1024)%Z); (str " GB", 1000000000%Z); (str " GiB", (1024 * 1024 * 1024)%Z);
     (str " bytes", 1%Z)].

Definition list_line (pinned : list gostring) (l : gostring) : option Package :=
  match split_byte l TAB with
  | f0 :: f1 :: f2 :: f3 :: rest =>
      Some (MkPackage f0 f1 f2 (hd [] rest) (str "installed") (parseFlatpakSize f3) (hd [] (tail rest))
              (bool_decide (f0 ∈ pinned)))
  | _ => None
  end.
Definition List_ : query (list Package) :=
  let!? out := readOut FLATPAK
    [str "list"; str "--columns=application,version,arch,size,description,origin"; scope] in
  let!? pinned := getPinnedSet in
  Ret (Ok (omap (list_line pinned) (scan_lines out))).

Definition show_line (size_label : gostring) (local : bool) (p : Package) (l : gostring) : Package :=
  if has_prefix l (str "Version:") then set_Version p (parseFlatpakValue l)
  else if has_prefix l (str "Arch:") then set_Architecture p (parseFlatpakValue l)
  else if has_prefix l (str "Description:") then set_Description p (parseFlatpakValue l)
  else if has_prefix l size_label || has_prefix l (str "Size:") then
    set_Size p (parseFlatpakSize (parseFlatpakValue l))
  else if local && has_prefix l (str "Origin:") then set_Repository p (parseFlatpakValue l)
  else p.

Definition showFromRemote (name : gostring) : query Package :=
  let!? (out, ok) := probe FLATPAK [str "remote-info"; str "flathub"; name] in
  if negb ok then Ret (Err (ENotFound name))
  else Ret (Ok (fold_left (show_line (str "Download:") false) (scan_lines out)
                  (MkPackage name [] [] [] (str "available") 0 (str "flathub") false))).

Definition Show (name : gostring) : query Package :=
  checkq (ValidatePackageName name) (
  let!? (out, ok) := probe FLATPAK [str "info"; name; scope] in
  if negb ok then showFromRemote name
  else
    let p := fold_left (show_line (str "Installed:") true) (scan_lines out)
               (MkPackage name [] [] [] (str "installed") 0 [] false) in
    let!? pinned := IsPinned name in
    Ret (Ok (set_Pinned p pinned))).

Definition flatpak : Manager :=
  MkManager Flatpak Version_ Search List_ ListUpgradable Show ListVersions IsInstalled
    LocalPackageInfo InstalledVersion InstalledCount HasUpdates IsPinned ListPinned Install
    InstallLocal Remove Update Upgrade UpgradeAll Pin Unpin Repair Autoremove.

(** ** Laws *)

Definition flatpak_flags : list gostring :=
  [str "--version"; str "-y"; str "--noninteractive"; str "--system"; str "--user";
   str "--delete-data"; str "--appstream"; str "--unused"; str "--remove"; str "--show-version";
   str "--columns=application"; str "--updates"; str "--columns=application,version,origin";
   str "--columns=application,version,arch,size,description,origin"; str "--if-not-exists";
   str "--force"; str "--columns=name"].

Lemma scope_flag a l : argv_list flatpak_flags l -> a = scope -> argv_list flatpak_flags (a :: l).
Proof.
  intros Hl ->. apply argv_cons; [|done]. left. unfold scope. destruct system; in_flags.
Qed.

(** Arguments that end with the scope are handled by cases on the scope. *)
Ltac by_scope t := unfold scope, write, YES; destruct system; t.

Lemma flatpak_IsInstalled_ro n : read_only flatpak_flags (IsInstalled n).
Proof. unfold IsInstalled. by_scope ro. Qed.
Lemma flatpak_InstalledVersion_ro n : read_only flatpak_flags (InstalledVersion n).
Proof. unfold InstalledVersion. by_scope ro. Qed.
Lemma flatpak_IsPinned_ro n : read_only flatpak_flags (IsPinned n).
Proof. unfold IsPinned. by_scope ro. Qed.
Lemma flatpak_getPinnedSet_ro : read_only flatpak_flags getPinnedSet.
Proof. unfold getPinnedSet. by_scope ro. Qed.
Lemma showFromRemote_ro n : ValidatePackageName n = Ok tt -> read_only flatpak_flags (showFromRemote n).
Proof. intros H. unfold showFromRemote. ro. Qed.
#[local] Hint Resolve flatpak_IsInstalled_ro flatpak_InstalledVersion_ro flatpak_IsPinned_ro flatpak_getPinnedSet_ro
  showFromRemote_ro : pkg.
Lemma flatpak_ListPinned_ro : read_only flatpak_flags ListPinned.
Proof. unfold ListPinned, scope. destruct system eqn:?; ro. Qed.

Lemma mask_all_ct pre ps last e :
  argv_list flatpak_flags pre -> Forall (fun n => operand n = true) ps ->
  contained flatpak_flags (mask_all pre ps last e).
Proof.
  intros Hpre H. revert last e. induction H as [|p ps Hp _ IH]; intros last e; [apply contained_ret|].
  apply contained_bind; [|intros [r o]; apply IH]. apply write_with_ct, argv_app; [done|].
  apply argv_cons; [by right|]. apply scope_flag; [apply argv_nil|done].
Qed.

#[global] Instance flatpak_laws : ManagerLaws flatpak_flags flatpak.
Proof.
  split; cbn [flatpak m_Version m_Search m_List m_ListUpgradable m_Show m_ListVersions m_IsInstalled
    m_LocalPackageInfo m_InstalledVersion m_InstalledCount m_HasUpdates m_IsPinned m_ListPinned
    m_Install m_InstallLocal m_Remove m_Update m_Upgrade m_UpgradeAll m_Pin m_Unpin m_Repair m_Autoremove m_Backend].
  - unfold Version_. ro.
  - intros q. unfold Search. ro.
  - unfold List_. unfold scope; destruct system eqn:?; ro.
  - unfold ListUpgradable, scope. destruct system eqn:?; ro; unfold upgradable_line; ro.
  - intros n. unfold Show, scope. destruct system eqn:?; ro.
  - intros n. unfold ListVersions. ro.
  - auto with pkg.
  - intros p. apply read_only_ret.
  - auto with pkg.
  - unfold InstalledCount. by_scope ro.
  - intros b. unfold HasUpdates. by_scope ro.
  - auto with pkg.
  - apply read_only_contained, flatpak_ListPinned_ro.
  - intros _. apply flatpak_ListPinned_ro.
  - intros o ps. unfold Install. by_scope ct.
  - intros p o. unfold InstallLocal. by_scope ct.
  - intros o ps. unfold Remove. by_scope ct.
  - unfold Update. by_scope ct.
  - intros ps. unfold Upgrade. by_scope ct.
  - intros o. unfold UpgradeAll. by_scope ct.
  - intros ps. apply contained_check. intros H. apply mask_all_ct; [argv|by apply names_operands].
  - intros ps. apply contained_check. intros H. apply mask_all_ct; [argv|by apply names_operands].
  - unfold Repair. by_scope ct.
  - intros _. unfold Autoremove. by_scope ct.
  - intros ps o ro H. split_and!; by apply check_refuses.
  - intros p o H. by apply check_refuses.
  - done.
Qed.
End Sizes.
End Manager.
End PkgFlatpak.
