(* ===== verification/PkgManagers.v ===== *)
(** * The package managers together ([src/pkg/pkg.go]: [New], [Detect])

    Construction of a manager for a backend, detection, and the theorems that
    hold of all five backends, proved from the laws of the interface: what can
    reach a command line, which operations are privileged, what is refused before
    anything runs, what a crafted package file can make a manager report. *)
From S2P Require Import Prelude Exec HostProg Repo Pkg PkgPacman PkgApt PkgDnf PkgZypper PkgFlatpak.

Module PkgManagers.
Import Exec HostProg Pkg.

(** ** Construction *)

Inductive new_error := ErrRunnerRequired | ErrUnknownBackend (b : Z).

Record config := MkConfig { cfg_system : bool }.
Definition Option_ : Type := config -> config.
Definition WithUserScope : Option_ := fun _ => MkConfig false.

(** The integer constants; the zero value is invalid. *)
Definition backend_of (b : Z) : option Backend :=
  if (b =? 1)%Z then Some Apt else if (b =? 2)%Z then Some Dnf
  else if (b =? 3)%Z then Some Pacman else if (b =? 4)%Z then Some Zypper
  else if (b =? 5)%Z then Some Flatpak else None.

Definition backend_name (b : Backend) : gostring :=
  match b with
  | Apt => str "apt" | Dnf => str "dnf" | Pacman => str "pacman" | Zypper => str "zypper"
  | Flatpak => str "flatpak"
  end.

Section Construction.
Context (float_size : gostring -> Z -> Z) (found_apt : bool).

Definition New (b : Z) (has_runner : bool) (opts : list (option Option_)) : result new_error Manager :=
  if negb has_runner then Err ErrRunnerRequired
  else
    let cfg := fold_left (fun c o => match o with Some f => f c | None => c end) opts (MkConfig true) in
    match backend_of b with
    | Some Apt => Ok (PkgApt.apt found_apt)
    | Some Dnf => Ok (PkgDnf.dnf float_size)
    | Some Pacman => Ok (PkgPacman.pacman float_size)
    | Some Zypper => Ok (PkgZypper.zypper float_size)
    | Some Flatpak => Ok (PkgFlatpak.flatpak (cfg_system cfg) float_size)
    | None => Err (ErrUnknownBackend b)
    end.

Definition detect_table : list (gostring * Backend) :=
  [(str "apt-get", Apt); (str "dnf", Dnf); (str "pacman", Pacman); (str "zypper", Zypper);
   (str "flatpak", Flatpak)].
Definition Detect (lookPath : gostring -> bool) : list Backend :=
  omap (fun cb => if lookPath cb.1 then Some cb.2 else None) detect_table.

(** ** The operations of a manager *)

Inductive is_query (m : Manager) : forall A, query A -> Prop :=
| q_Version : is_query m _ (m_Version m)
| q_Search q : is_query m _ (m_Search m q)
| q_List : is_query m _ (m_List m)
| q_ListUpgradable : is_query m _ (m_ListUpgradable m)
| q_Show n : is_query m _ (m_Show m n)
| q_ListVersions n : is_query m _ (m_ListVersions m n)
| q_IsInstalled n : is_query m _ (m_IsInstalled m n)
| q_LocalPackageInfo p : is_query m _ (m_LocalPackageInfo m p)
| q_InstalledVersion n : is_query m _ (m_InstalledVersion m n)
| q_InstalledCount : is_query m _ (m_InstalledCount m)
| q_HasUpdates b : is_query m _ (m_HasUpdates m b)
| q_IsPinned n : is_query m _ (m_IsPinned m n)
(** dnf may install its lock plugin first. *)
| q_ListPinned : m_Backend m <> Dnf -> is_query m _ (m_ListPinned m).

Inductive is_mutation (m : Manager) : mutation -> Prop :=
| x_Install o ps : is_mutation m (m_Install m o ps)
| x_InstallLocal p o : is_mutation m (m_InstallLocal m p o)
| x_Remove o ps : is_mutation m (m_Remove m o ps)
| x_Update : is_mutation m (m_Update m)
| x_Upgrade ps : is_mutation m (m_Upgrade m ps)
| x_UpgradeAll o : is_mutation m (m_UpgradeAll m o)
| x_Pin ps : is_mutation m (m_Pin m ps)
| x_Unpin ps : is_mutation m (m_Unpin m ps)
| x_Repair : is_mutation m (m_Repair m)
(** pacman removes the orphans its own query printed. *)
| x_Autoremove : m_Backend m <> Pacman -> is_mutation m (m_Autoremove m).

(** Every method of the manager but pacman's [Autoremove]. *)
Inductive is_operation (m : Manager) : forall A, prog A -> Prop :=
| op_query A (q : query A) : is_query m A q -> is_operation m _ q
| op_ListPinned : is_operation m _ (m_ListPinned m)
| op_mutation p : is_mutation m p -> is_operation m _ p.

Definition backend_flags (b : Backend) : list gostring :=
  match b with
  | Apt => PkgApt.apt_flags | Dnf => PkgDnf.dnf_flags | Pacman => PkgPacman.pacman_flags
  | Zypper => PkgZypper.zypper_flags | Flatpak => PkgFlatpak.flatpak_flags
  end.

Lemma New_laws b r opts m : New b r opts = Ok m -> ManagerLaws (backend_flags (m_Backend m)) m.
Proof.
  unfold New. destruct r; [|done]. cbn [negb]. cbv zeta.
  destruct (backend_of b) as [[]|]; [..|done]; intros [= <-]; cbn [m_Backend PkgApt.apt PkgDnf.dnf
    PkgPacman.pacman PkgZypper.zypper PkgFlatpak.flatpak backend_flags]; apply _.
Qed.

Lemma is_query_ro m A (q : query A) flags :
  ManagerLaws flags m -> is_query m A q -> read_only flags q.
Proof.
  destruct 2; [apply law_Version|apply law_Search|apply law_List|apply law_ListUpgradable|apply law_Show
    |apply law_ListVersions|apply law_IsInstalled|apply law_LocalPackageInfo|apply law_InstalledVersion
    |apply law_InstalledCount|apply law_HasUpdates|apply law_IsPinned|by apply law_ListPinned_ro].
Qed.

Lemma is_mutation_ct m p flags : ManagerLaws flags m -> is_mutation m p -> contained flags p.
Proof.
  destruct 2; [apply law_Install|apply law_InstallLocal|apply law_Remove|apply law_Update
    |apply law_Upgrade|apply law_UpgradeAll|apply law_Pin|apply law_Unpin|apply law_Repair
    |by apply law_Autoremove].
Qed.

Lemma is_operation_ct m A (p : prog A) flags :
  ManagerLaws flags m -> is_operation m A p -> contained flags p.
Proof.
  intros Hm. destruct 1 as [B q Hq| |p Hp]; [|apply law_ListPinned|by eapply is_mutation_ct].
  by eapply read_only_contained, is_query_ro.
Qed.

(** On every host, whatever the tools answer, a query runs no escalated command,
    feeds no input and sets no environment; dnf's [ListPinned], which may install
    its lock plugin, is the exception. *)
Theorem queries_unprivileged b r opts m A (q : query A) {S} (h : handler S) s :
  New b r opts = Ok m -> is_query m A q ->
  Forall (fun ci => Escalate ci.1 = false /\ ci.2 = [] /\ Env ci.1 = []) (commands h s q).
Proof.
  intros Hm%New_laws Hq. pose proof (is_query_ro _ _ _ _ Hm Hq) as Hr.
  apply (wp_commands _ h s) in Hr as [Hr _]. eapply list.Forall_impl; [exact Hr|].
  intros ci (? & ? & ? & _). done.
Qed.

(** C4: On every host, whatever names, versions, paths, queries and tool output are
    involved, every command of every operation, the queries as well as the
    changes, passes only arguments that are one of the backend's own flags or do
    not start with a dash; the one operation left out is pacman's [Autoremove],
    which passes on what its own query printed. *)
Theorem arguments_confined b r opts m A (p : prog A) {S} (h : handler S) s :
  New b r opts = Ok m -> is_operation m A p ->
  Forall (fun ci => forall a, a ∈ Args ci.1 -> has_prefix a (str "-") = true ->
                    a ∈ backend_flags (m_Backend m)) (commands h s p).
Proof.
  intros Hm%New_laws Hp. pose proof (is_operation_ct _ _ _ _ Hm Hp) as Hc.
  apply (wp_commands _ h s) in Hc as [Hc _]. eapply list.Forall_impl; [exact Hc|].
  intros ci Ha a Hin Hd. unfold writes, argv_ok in Ha. rewrite list.Forall_forall in Ha.
  destruct (Ha a Hin) as [?|Ho]; [done|]. unfold operand in Ho. by rewrite Hd in Ho.
Qed.

(** An invalid package name or file path is refused before the host is asked
    anything, and an empty list does nothing. *)
Theorem invalid_refused b r opts m ps path io lo ro :
  New b r opts = Ok m ->
  (ValidatePackageNames ps <> Ok tt ->
     refuses (m_Install m io ps) /\ refuses (m_Remove m ro ps) /\ refuses (m_Upgrade m ps) /\
     refuses (m_Pin m ps) /\ refuses (m_Unpin m ps)) /\
  (ValidateLocalPackagePath path <> Ok tt -> refuses (m_InstallLocal m path lo)) /\
  (no_op (m_Remove m ro []) /\ no_op (m_Upgrade m []) /\ no_op (m_Pin m []) /\ no_op (m_Unpin m [])).
Proof.
  intros Hm%New_laws.
  split; [intros H; by apply (law_refuse (ManagerLaws := Hm))|].
  split; [intros H; by apply (law_refuse_local (ManagerLaws := Hm))|].
  apply (law_empty (ManagerLaws := Hm)).
Qed.

(** *** Names read out of package files *)

Lemma rpm_name_package_name n : validRpmPackageName n = true -> validPackageName n = true.
Proof.
  unfold validRpmPackageName, validPackageName, grammar. intros [Hm Hl]%andb_prop.
  rewrite Hl, andb_true_r. destruct n as [|c n]; [done|]. cbn [Repo.matches] in *.
  apply andb_prop in Hm as [Hc Hn]. rewrite Hc. cbn [andb].
  rewrite forallb_forall in Hn |- *. intros x Hx. specialize (Hn x Hx). revert Hn. clear.
  by destruct x as [[] [] [] [] [] [] [] []]; vm_compute.
Qed.

Definition local_name_ok (r : result pkg_error LocalPackage) : Prop :=
  match r with Ok i => validPackageName (l_Name i) = true | Err _ => True end.

Lemma local_checked (v : result pkg_error unit) (k : query LocalPackage) :
  wp (fun _ => True) k local_name_ok -> wp (fun _ => True) (checkq v k) local_name_ok.
Proof. by destruct v. Qed.

Lemma local_read name args (f : gostring -> query LocalPackage) :
  (forall out, wp (fun _ => True) (f out) local_name_ok) ->
  wp (fun _ => True) (bind_ok (readOut name args) f) local_name_ok.
Proof.
  intros Hf. apply wp_bind_ok. unfold readOut, read_result, runRead, ask, bind_ok. cbn [bind wp].
  split; [done|]. intros [res [e|]]; cbn [bind wp]; [done|].
  destruct (negb _); [done|apply Hf].
Qed.

Lemma rpmLocal_ok p : wp (fun _ => True) (rpmLocalPackageInfo p) local_name_ok.
Proof.
  apply local_checked, local_read. intros out.
  destruct (splitPositionalFields out) as [|n rest]; [done|].
  destruct (ValidateRpmPackageName n) eqn:Hv; [|done]. cbn [wp local_name_ok l_Name].
  apply rpm_name_package_name. revert Hv. unfold ValidateRpmPackageName.
  case_bool_decide; [done|]. by destruct (validRpmPackageName n).
Qed.

(** Whatever a package file embeds, the name a manager reports for it is a valid
    package name, so it can be handed back to any operation. *)
Theorem local_name_safe b r opts m path {S} (h : handler S) s i :
  New b r opts = Ok m -> (run h s (m_LocalPackageInfo m path)).2 = Ok i ->
  ValidatePackageName (l_Name i) = Ok tt.
Proof.
  intros Hm Hr. apply ValidatePackageName_iff.
  assert (Hwp : wp (fun _ => True) (m_LocalPackageInfo m path) local_name_ok).
  { unfold New in Hm. destruct r; [|done]. cbn [negb] in Hm. cbv zeta in Hm.
    destruct (backend_of b) as [[]|]; [..|done]; injection Hm as <-;
      cbn [m_LocalPackageInfo PkgApt.apt PkgDnf.dnf PkgPacman.pacman PkgZypper.zypper
        PkgFlatpak.flatpak].
    - apply local_checked, local_read. intros out. cbv zeta. case_match; [done|].
      destruct (ValidatePackageName _) as [[]|e] eqn:Hv; [|done]. by apply ValidatePackageName_iff.
    - apply rpmLocal_ok.
    - apply local_checked, local_read. intros out. cbv zeta. case_match; [done|].
      destruct (fields _) as [|n rest]; [done|].
      destruct (ValidatePackageName n) as [[]|e] eqn:Hv; [|done]. by apply ValidatePackageName_iff.
    - apply rpmLocal_ok.
    - done. }
  apply (wp_run _ h s) in Hwp as [_ Hok]. by rewrite Hr in Hok.
Qed.

(** *** Security-only upgrades *)

(** The restricted command of each backend; pacman and flatpak have none. *)
Definition restricted (b : Backend) (c : Command) (_ : gostring) : Prop :=
  match b with
  | Apt => Args c = [str "-v"]
  | Dnf => Args c = [str "upgrade"; str "-y"; str "--security"]
  | Zypper => Args c = [PkgZypper.NI; str "patch"; str "--category"; str "security"]
  | Pacman | Flatpak => False
  end.

Lemma stat_first_wp P ps : wp (on_run P) (PkgApt.stat_first ps) (fun _ => True).
Proof.
  induction ps as [|p ps IH]; [done|]. apply wp_bind. cbn [ask wp]. split; [done|].
  intros [[]|e]; done.
Qed.

(** A security-only upgrade never runs the full upgrade of its backend: every
    command it runs is the restricted one, and a backend without one refuses. *)
Theorem security_only_restricted b r opts m {S} (h : handler S) s :
  New b r opts = Ok m ->
  Forall (fun ci => restricted (m_Backend m) ci.1 ci.2)
    (commands h s (m_UpgradeAll m (MkUpgradeOptions true))).
Proof.
  intros Hm. eapply (wp_commands _ h s _ (fun _ => True)). revert Hm.
  unfold New. destruct r; [|done]. cbn [negb]. cbv zeta.
  destruct (backend_of b) as [[]|]; [..|done]; intros [= <-];
    cbn [m_UpgradeAll m_Backend PkgApt.apt PkgDnf.dnf PkgPacman.pacman PkgZypper.zypper
      PkgFlatpak.flatpak].
  - unfold PkgApt.UpgradeAll. cbn [SecurityOnly]. apply wp_bind. apply wp_bind.
    eapply wp_mono; [|apply stat_first_wp]. intros [p|] _; cbn [ask bind wp].
    + split; [done|]. by intros [res [e|]].
    + split; [done|]. intros [p|]; cbn [wp]; [|done]. split; [done|]. by intros [res [e|]].
  - cbn. split; [done|]. by intros [res [e|]].
  - done.
  - cbn. split; [done|]. by intros [res [e|]].
  - done.
Qed.
End Construction.

(** ** Witnesses *)

(** A host on which every command succeeds and prints nothing. *)
Definition quiet_handler : handler unit :=
  command_host (fun s _ _ => (s, (MkResult 0 [] [], None))) absent absent.

Definition no_size : gostring -> Z -> Z := fun _ _ => 0%Z.

Lemma queries_unprivileged_witness :
  exists m, New no_size true 1 true [] = Ok m /\
    Forall (fun ci => Escalate ci.1 = false /\ ci.2 = [] /\ Env ci.1 = [])
      (commands quiet_handler tt (m_Show m (str "vim"))).
Proof.
  eexists. split; [reflexivity|]. eapply (queries_unprivileged no_size true 1 true []); [reflexivity|].
  constructor.
Defined.

Lemma arguments_confined_witness :
  exists m, New no_size true 2 true [] = Ok m /\
    Forall (fun ci => forall a, a ∈ Args ci.1 -> has_prefix a (str "-") = true ->
                      a ∈ backend_flags (m_Backend m))
      (commands quiet_handler tt (m_Search m (str "-y"))) /\
    Forall (fun ci => forall a, a ∈ Args ci.1 -> has_prefix a (str "-") = true ->
                      a ∈ backend_flags (m_Backend m))
      (commands quiet_handler tt (m_Remove m (MkRemoveOptions true) [str "vim"])).
Proof.
  eexists. split; [reflexivity|].
  split; (eapply (arguments_confined no_size true 2 true []); [reflexivity|]).
  - apply op_query. constructor.
  - apply op_mutation. constructor.
Defined.

Lemma invalid_refused_witness :
  exists m, New no_size true 4 true [] = Ok m /\ refuses (m_Pin m [str "--force"]).
Proof.
  eexists. split; [reflexivity|].
  eapply (invalid_refused no_size true 4 true [] _ [str "--force"] [] (MkInstallOptions [] false [])
    (MkInstallLocal false false) (MkRemoveOptions false)); [reflexivity|]. by vm_compute.
Defined.

(** A host whose [rpm] describes the package [vim-9.1-1.x86_64]. *)
Definition rpm_handler : handler unit :=
  command_host (fun s _ _ =>
    (s, (MkResult 0 (str "vim" ++ NL :: str "9.1-1" ++ NL :: str "x86_64") [], None))) absent absent.

Lemma local_name_safe_witness :
  exists m i, New no_size true 2 true [] = Ok m /\
    (run rpm_handler tt (m_LocalPackageInfo m (str "/tmp/vim.rpm"))).2 = Ok i /\
    l_Name i = str "vim" /\ ValidatePackageName (l_Name i) = Ok tt.
Proof.
  eexists _, (MkLocalPackage (str "vim") (str "9.1-1") (str "x86_64")).
  split; [reflexivity|]. split; [by_eval|]. split; [reflexivity|].
  eapply (local_name_safe no_size true 2 true [] _ (str "/tmp/vim.rpm") rpm_handler tt); [reflexivity|].
  by_eval.
Defined.

Lemma security_only_restricted_witness :
  exists m, New no_size true 2 true [] = Ok m /\
    Forall (fun ci => restricted (m_Backend m) ci.1 ci.2)
      (commands quiet_handler tt (m_UpgradeAll m (MkUpgradeOptions true))).
Proof.
  eexists. split; [reflexivity|]. by apply (security_only_restricted no_size true 2 true []).
Defined.

End PkgManagers.
