(* ===== verification/PkgBehaviour.v ===== *)
(** * Behaviour of the package managers

    What the repair, install and listing operations of [src/pkg] do on a host:
    when a lock file is removed, when an install is retried, that listings read
    back what the tools print, that a version is offered once, and inputs on
    which the parsers lose information. *)
From S2P Require Import Prelude Paths Exec HostProg Words Repo Pkg PkgPacman PkgApt PkgDnf PkgZypper.
From S2P Require Import PkgFlatpak PkgManagers PkgPins.

Module PkgBehaviour.
Import Exec HostProg Pkg.

(** ** Stale locks ([repair.go]) *)

Definition rm_cmd (path : gostring) : Command :=
  MkCommand (str "rm") [str "-f"; path] [] [] [] true.
Definition fuser_cmd (path : gostring) : Command := MkCommand (str "fuser") [path] [] [] [] false.
Definition kill_cmd (pid : gostring) : Command :=
  MkCommand (str "kill") [str "-0"; pid] [] [] [] true.

Lemma ctx_or_nil_commands {S} (h : handler S) s ci : ci ∈ commands h s ctx_or_nil -> False.
Proof.
  unfold ctx_or_nil. intros H. reveal H. destruct H as [H|H]; [done|]. by rewrite commands_ret in H.
Qed.

(** A lock is removed only after [fuser] ran and reported, with exit code 1, that
    no process holds it. *)
Theorem stale_lock_safe {S} (h : handler S) s path i :
  (rm_cmd path, i) ∈ commands h s (removeStaleLock path) ->
  exists s1 s2 res, h _ s1 (CRun (fuser_cmd path) []) = (s2, (res, None)) /\ ExitCode res = 1%Z.
Proof.
  unfold removeStaleLock. intros H. reveal H. destruct H as [H|H]; [done|].
  destruct (h _ s CCtxErr) as [s1 [e|]]; cbn [fst snd negb] in H; [by rewrite commands_ret in H|].
  reveal H. destruct H as [H|H]; [done|].
  destruct (h _ s1 (CStat path)) as [s2 [d|e]]; cbn [fst snd negb] in H; [|by apply ctx_or_nil_commands in H].
  unfold runRead in H. reveal H. destruct H as [H|H]; [by injection H|].
  change (MkCommand (str "fuser") [path] [] [] [] false) with (fuser_cmd path) in H.
  destruct (h _ s2 (CRun (fuser_cmd path) [])) as [s3 [res [e|]]] eqn:Hf; cbn [fst snd negb] in H;
    [by apply ctx_or_nil_commands in H|].
  destruct (ExitCode res =? 0)%Z; [by rewrite commands_ret in H|].
  destruct (ExitCode res =? 1)%Z eqn:E; cbn [fst snd negb] in H; [|by rewrite commands_ret in H].
  exists s2, s3, res. split; [done|]. by apply Z.eqb_eq.
Qed.

(** The zypp PID file is removed only if it is blank, or it names a process id
    and the escalated liveness probe of that process failed. *)
Theorem zypp_lock_safe {S} (h : handler S) s path i :
  (rm_cmd path, i) ∈ commands h s (removeStaleZyppLock path) ->
  exists s1 s2 content, h _ s1 (CReadFile path) = (s2, Ok content) /\
    (trim_space content = [] \/
     isAllDigits (trim_space content) = true /\
     exists s3 res, h _ s2 (CRun (kill_cmd (trim_space content)) []) = (s3, (res, None)) /\
       ExitCode res <> 0%Z).
Proof.
  unfold removeStaleZyppLock. intros H. reveal H. destruct H as [H|H]; [done|].
  destruct (h _ s CCtxErr) as [s1 [e|]]; cbn [fst snd negb] in H; [by rewrite commands_ret in H|].
  reveal H. destruct H as [H|H]; [done|].
  destruct (h _ s1 (CStat path)) as [s2 [d|e]]; cbn [fst snd negb] in H; [|by apply ctx_or_nil_commands in H].
  reveal H. destruct H as [H|H]; [done|].
  destruct (h _ s2 (CReadFile path)) as [s3 [content|e]] eqn:Hr; cbn [fst snd negb] in H;
    [|by apply ctx_or_nil_commands in H].
  exists s2, s3, content. split; [done|].
  destruct (decide (trim_space content = [])) as [Hn|Hn]; [by left|]. right.
  rewrite !(bool_decide_false (trim_space content = [])) in H by done. cbn [negb andb] in H.
  destruct (isAllDigits (trim_space content)); [|by rewrite commands_ret in H]. split; [done|].
  cbn [negb] in H. unfold runPriv in H. reveal H. destruct H as [H|H]; [by injection H|].
  change (MkCommand (str "kill") [str "-0"; trim_space content] [] [] [] true)
    with (kill_cmd (trim_space content)) in H.
  destruct (h _ s3 (CRun (kill_cmd (trim_space content)) [])) as [s4 [res [e|]]] eqn:Hk; cbn [fst snd negb] in H;
    [by apply ctx_or_nil_commands in H|].
  destruct (ExitCode res =? 0)%Z eqn:E; [by rewrite commands_ret in H|].
  exists s4, res. split; [done|]. by apply Z.eqb_neq.
Qed.

(** ** The downgrade retry of dnf *)

(** dnf runs at most two commands for an install, and the second, an explicit
    downgrade, only when the caller allowed it, gave a version, and dnf itself
    rejected the first with a non-zero exit. *)
Theorem downgrade_after_rejection {S} (h : handler S) s o ps :
  length (commands h s (PkgDnf.Install o ps)) <= 2 /\
  (length (commands h s (PkgDnf.Install o ps)) = 2 ->
   AllowDowngrade o = true /\ Version o <> [] /\
   exists c s' res, h _ s (CRun c []) = (s', (res, None)) /\ ExitCode res <> 0%Z).
Proof.
  remember (commands h s (PkgDnf.Install o ps)) as L eqn:HL.
  assert (Hshort : length L <= 1 -> length L <= 2 /\ (length L = 2 -> AllowDowngrade o = true /\
    Version o <> [] /\ exists c s' res, h _ s (CRun c []) = (s', (res, None)) /\ ExitCode res <> 0%Z))
    by (intros; split; lia).
  unfold PkgDnf.Install in HL.
  destruct (ValidatePackageNames ps) as [[]|]; cbn [check] in HL; [|apply Hshort; by subst; simpl; lia].
  destruct (ValidatePackageVersion (Version o)) as [[]|]; cbn [check] in HL;
    [|apply Hshort; by subst; simpl; lia].
  destruct (_ && negb (length ps =? 1)); [apply Hshort; by subst; simpl; lia|].
  destruct ps as [|p0 ps]; [apply Hshort; by subst; simpl; lia|]. cbv zeta in HL.
  set (spec := p0 ++ str "-" ++ Version o) in HL.
  match type of HL with context [PkgDnf.write ?a] => set (args := a) in HL end.
  unfold PkgDnf.write at 1, write_with, runPriv, commands in HL. cbn [bind ask asked] in HL.
  set (cmd := MkCommand PkgDnf.DNF args [] [] [] true) in HL.
  destruct (h _ s (CRun cmd [])) as [s1 [res [e|]]] eqn:Hc; cbn [bind] in HL.
  { apply Hshort. subst. cbn [PkgDnf.is_command_error as_command_error andb]. simpl. lia. }
  unfold asCommandError in HL. destruct (ExitCode res =? 0)%Z eqn:E; cbn [PkgDnf.is_command_error
    as_command_error andb] in HL; [apply Hshort; subst; simpl; lia|].
  destruct (AllowDowngrade o); [|apply Hshort; subst; simpl; lia]. cbn [andb] in HL.
  destruct (decide (Version o = [])) as [Hv|Hv].
  - rewrite bool_decide_true in HL by done. apply Hshort. subst. simpl. lia.
  - rewrite bool_decide_false in HL by done. cbn [negb] in HL.
    unfold PkgDnf.write, write_with, runPriv in HL. cbn [bind ask asked] in HL.
    set (cmd2 := MkCommand PkgDnf.DNF [str "downgrade"; str "-y"; spec] [] [] [] true) in HL.
    destruct (h _ s1 (CRun cmd2 [])) as [s2 [res2 [e|]]]; subst L; (split; [simpl; lia|]); intros _;
      split_and!; try done; exists cmd, s1, res; (split; [done|]); by apply Z.eqb_neq.
Qed.

(** ** Listings read back *)

(** One installed package as [dpkg-query] prints it. *)
Record dpkg_entry := MkEntry {
  e_name : gostring; e_version : gostring; e_arch : gostring; e_status : gostring; e_kb : nat;
  e_desc : gostring
}.
Definition cells (e : dpkg_entry) : list gostring :=
  [e_name e; e_version e; e_arch e; e_status e; itoa (e_kb e); e_desc e].
Definition row (e : dpkg_entry) : gostring := join (cells e) [TAB].
Definition cell_ok (c : gostring) : Prop := Forall (fun b => b ∉ c) [TAB; NL; CR].
Definition entry_ok (e : dpkg_entry) : Prop :=
  Forall cell_ok [e_name e; e_version e; e_arch e; e_status e; e_desc e] /\
  PkgPins.line_fits (row e) /\ (Z.of_nat (e_kb e) <= int_max)%Z.

(** The package an entry stands for, if its status says it is installed. *)
Definition package_of (held : list gostring) (e : dpkg_entry) : option Package :=
  if contains (e_status e) (str "installed") then
    Some (MkPackage (e_name e) (e_version e) (e_arch e) (e_desc e) (str "installed")
            (wrap64 (Z.of_nat (e_kb e) * 1024)) [] (bool_decide (e_name e ∈ held)))
  else None.

Lemma itoa_cell n : cell_ok (itoa n).
Proof.
  apply list.Forall_forall. intros b Hb. eapply forallb_not_elem; [apply itoa_digits|].
  revert b Hb. apply list.Forall_forall. by repeat constructor.
Qed.

Lemma cells_ok e : entry_ok e -> Forall cell_ok (cells e).
Proof.
  intros [Hc _]. rewrite !list.Forall_cons in Hc. destruct Hc as (? & ? & ? & ? & ? & _).
  unfold cells. rewrite !list.Forall_cons. split_and!; try done. apply itoa_cell.
Qed.

Lemma join_no (b : ascii) (ws : list gostring) c :
  b <> c -> Forall (fun w => b ∉ w) ws -> b ∉ join ws [c].
Proof.
  intros Hb H. induction H as [|w ws Hw H IH]; [apply not_elem_of_nil|].
  destruct ws as [|v ws]; [done|]. change (join (w :: v :: ws) [c]) with (w ++ [c] ++ join (v :: ws) [c]).
  rewrite !not_elem_of_app, not_elem_of_cons. split_and!; try done. apply not_elem_of_nil.
Qed.

Lemma cell_no b e : b ∈ [TAB; NL; CR] -> entry_ok e -> Forall (fun c => b ∉ c) (cells e).
Proof.
  intros Hb He%cells_ok. eapply list.Forall_impl; [exact He|]. intros c Hc.
  unfold cell_ok in Hc. rewrite list.Forall_forall in Hc. by apply Hc.
Qed.

Lemma row_clean e : entry_ok e -> PkgPins.clean_line (row e).
Proof.
  intros He. pose proof He as (_ & Hf & _). split; [|split; [|done]]; apply join_no; try done;
    apply cell_no; try done; set_solver.
Qed.

Lemma list_line_row held e : entry_ok e -> PkgApt.list_line held (row e) = package_of held e.
Proof.
  intros He. pose proof He as (_ & _ & Hk). unfold PkgApt.list_line, row.
  rewrite Paths.split_join by first [done | by apply cell_no; [set_solver|]].
  unfold cells, package_of. cbn [hd]. by rewrite Words.parse_int64_itoa by done.
Qed.

Lemma held_names_text held :
  Forall (fun w => Words.word w = true) held -> Forall PkgPins.line_fits held ->
  PkgApt.held_names (text held) = held.
Proof.
  intros Hw Hf. unfold PkgApt.held_names. rewrite PkgPins.scan_lines_text.
  - induction Hw as [|w ws Hw _ IH]; [done|]. inversion Hf; subst.
    apply Words.word_spec in Hw as [Hn Hv]. rewrite fmap_cons.
    assert (Ht : trim_space w = w).
    { destruct w as [|c w]; [done|]. pose proof Hv as [Hc _]%andb_prop.
      apply Words.trim_space_visible; [done|].
      rewrite (app_removelast_last c (l := c :: w)) in Hv by done.
      rewrite forallb_app in Hv. apply andb_prop in Hv as [_ Hv]. cbn [forallb] in Hv.
      by apply andb_prop in Hv as [Hv _]. }
    rewrite Ht. cbn [List.filter]. rewrite bool_decide_false by done. cbn [negb]. f_equal. by apply IH.
  - apply list.Forall_forall. intros w Hin. rewrite list.Forall_forall in Hw, Hf.
    destruct (Words.word_spec w (Hw w Hin)) as [_ Hv].
    split; [|split; [|by apply Hf]]; by eapply forallb_not_elem.
Qed.

Definition dpkg_list_cmd : Command :=
  MkCommand (str "dpkg-query") [str "-W"; PkgApt.list_format] [] [] [] false.
Definition showhold_cmd : Command := MkCommand (str "apt-mark") [str "showhold"] [] [] [] false.

(** [List] returns exactly the installed entries that [dpkg-query] prints, each
    with its fields, its size in bytes and its hold. *)
Theorem apt_list_roundtrip {S} (h : handler S) s s1 s2 es held e1 e2 :
  Forall entry_ok es ->
  Forall (fun w => Words.word w = true) held -> Forall PkgPins.line_fits held ->
  h _ s (CRun dpkg_list_cmd []) = (s1, (MkResult 0 (text (row <$> es)) e1, None)) ->
  h _ s1 (CRun showhold_cmd []) = (s2, (MkResult 0 (text held) e2, None)) ->
  run h s PkgApt.List_ = (s2, Ok (omap (package_of held) es)).
Proof.
  intros He Hw Hf H1 H2. unfold PkgApt.List_, PkgApt.getPinnedSet, readOut, read_result, runRead,
    bind_ok, ask. cbn [bind run]. fold dpkg_list_cmd. rewrite H1. cbn [bind ExitCode Stdout Z.eqb negb].
  cbn [run]. fold showhold_cmd. rewrite H2. cbn [bind ExitCode Stdout Z.eqb negb run].
  rewrite held_names_text by done.
  rewrite PkgPins.scan_lines_text.
  - f_equal. f_equal. clear -He. induction He as [|e es He _ IH]; [done|].
    rewrite fmap_cons. cbn [omap list_omap]. rewrite list_line_row by done. by rewrite IH.
  - apply list.Forall_fmap. eapply list.Forall_impl; [exact He|]. apply row_clean.
Qed.

Definition demo_entries : list dpkg_entry :=
  [MkEntry (str "vim") (str "2:9.1-1") (str "amd64") (str "install ok installed") 3700 (str "editor");
   MkEntry (str "old") (str "1.0") (str "amd64") (str "deinstall ok config-files") 0 (str "gone")].
Definition demo_host : handler unit :=
  command_host (fun s c _ =>
    (s, (MkResult 0 (if bool_decide (Name c = str "dpkg-query")
                     then text (row <$> demo_entries) else text [str "vim"]) [], None))) absent absent.

#[global] Instance cell_ok_dec c : Decision (cell_ok c).
Proof. unfold cell_ok. apply _. Defined.
#[global] Instance entry_ok_dec e : Decision (entry_ok e).
Proof. unfold entry_ok. apply _. Defined.

Lemma apt_list_roundtrip_witness :
  run demo_host tt PkgApt.List_
    = (tt, Ok [MkPackage (str "vim") (str "2:9.1-1") (str "amd64") (str "editor") (str "installed")
                 3788800 [] true]).
Proof.
  rewrite (apt_list_roundtrip demo_host tt tt tt demo_entries [str "vim"] [] []); try reflexivity;
    apply (bool_decide_unpack _); by_eval.
Defined.

(** ** Versions are offered once *)

Definition fresh_versions (seen : list gostring) (vs : list AvailableVersion) : Prop :=
  NoDup (a_Version <$> vs) /\ Forall (fun v => a_Version v ∉ seen) vs.

Lemma fresh_nil seen : fresh_versions seen [].
Proof. split; constructor. Qed.

Lemma fresh_cons seen v vs :
  a_Version v ∉ seen -> fresh_versions (a_Version v :: seen) vs -> fresh_versions seen (v :: vs).
Proof.
  intros Hv [Hn Hf]. rewrite list.Forall_forall in Hf. split.
  - rewrite fmap_cons. apply list.NoDup_cons. split; [|done].
    intros (w & Hw & Hin)%list_elem_of_fmap. specialize (Hf w Hin). rewrite <- Hw in Hf. set_solver.
  - constructor; [done|]. apply list.Forall_forall. intros w Hw. specialize (Hf w Hw). set_solver.
Qed.

Lemma madison_fresh lines seen : fresh_versions seen (PkgApt.madison lines seen).
Proof.
  revert seen. induction lines as [|l lines IH]; intros seen; cbn [PkgApt.madison]; [apply fresh_nil|].
  destruct (split_byte l _) as [|? [|? [|? ?]]]; try done. cbv zeta.
  case_bool_decide; [done|]. by apply fresh_cons.
Qed.

Lemma dnf_versions_fresh lines seen : fresh_versions seen (PkgDnf.versions lines seen).
Proof.
  revert seen. induction lines as [|l lines IH]; intros seen; cbn [PkgDnf.versions]; [apply fresh_nil|].
  destruct (_ || _); [done|]. destruct (fields l) as [|? [|? [|? ?]]]; try done.
  case_bool_decide; [done|]. by apply fresh_cons.
Qed.

Lemma zypper_versions_fresh name rows seen : fresh_versions seen (PkgZypper.versions name rows seen).
Proof.
  revert seen. induction rows as [|l rows IH]; intros seen; cbn [PkgZypper.versions]; [apply fresh_nil|].
  destruct (split_byte l _) as [|? [|? [|? [|? [|? [|? ?]]]]]]; try done.
  destruct (negb _); [done|]. cbv zeta. case_bool_decide; [done|]. by apply fresh_cons.
Qed.

Definition distinct (r : result pkg_error VersionInfo) : Prop :=
  match r with Ok i => NoDup (a_Version <$> Versions i) | Err _ => True end.

Lemma fresh_distinct vs : fresh_versions [] vs -> NoDup (a_Version <$> vs).
Proof. by intros []. Qed.

(** Whatever its result, a query followed by one that lists distinct versions. *)
Lemma distinct_bind {A} (p : query A) f :
  (forall a, wp (fun _ => True) (f a) distinct) -> wp (fun _ => True) (bind_ok p f) distinct.
Proof.
  intros Hf. apply wp_bind_ok.
  assert (Hp : forall B (q : prog B) (Q : B -> Prop), (forall b, Q b) -> wp (fun _ => True) q Q).
  { intros B q Q HQ. induction q; simpl; auto. }
  apply Hp. by intros [a|e].
Qed.
Lemma distinct_check v k :
  wp (fun _ => True) k distinct -> wp (fun _ => True) (checkq v k) distinct.
Proof. by destruct v. Qed.

(** No backend offers the same version of a package twice. *)
Theorem versions_distinct float_size found_apt b r opts m n {S} (h : handler S) s i :
  PkgManagers.New float_size found_apt b r opts = Ok m ->
  (run h s (m_ListVersions m n)).2 = Ok i -> NoDup (a_Version <$> Versions i).
Proof.
  intros Hm Hr.
  assert (Hwp : wp (fun _ => True) (m_ListVersions m n) distinct).
  { unfold PkgManagers.New in Hm. destruct r; [|done]. cbn [negb] in Hm. cbv zeta in Hm.
    destruct (PkgManagers.backend_of b) as [[]|]; [..|done]; injection Hm as <-;
      cbn [m_ListVersions PkgApt.apt PkgDnf.dnf PkgPacman.pacman PkgZypper.zypper
        PkgFlatpak.flatpak]; apply distinct_check.
    - do 2 (apply distinct_bind; intros ?). apply fresh_distinct, madison_fresh.
    - do 2 (apply distinct_bind; intros ?). apply fresh_distinct, dnf_versions_fresh.
    - apply distinct_bind; intros ?. apply distinct_bind; intros [out ok]. destruct ok; cbn [negb];
        [|constructor]. destruct (fold_left _ _ _) as [v repo]. destruct v as [|c v]; [constructor|].
      apply list.NoDup_singleton.
    - do 2 (apply distinct_bind; intros ?). case_match; [constructor|]. case_match; [done|].
      apply fresh_distinct, zypper_versions_fresh.
    - apply distinct_bind; intros ?. apply distinct_bind; intros [out ok]. destruct ok; cbn [negb];
        [|constructor]. cbn [wp distinct Versions]. unfold PkgFlatpak.remote_version.
      case_match; [apply list.NoDup_singleton|constructor]. }
  apply (wp_run _ h s) in Hwp as [_ Hd]. by rewrite Hr in Hd.
Qed.

Lemma versions_distinct_witness :
  exists m i, PkgManagers.New PkgManagers.no_size true 1 true [] = Ok m /\
    (run demo_host tt (m_ListVersions m (str "vim"))).2 = Ok i /\ NoDup (a_Version <$> Versions i).
Proof.
  eexists _, _. split; [reflexivity|]. split; [vm_compute; reflexivity|].
  eapply (versions_distinct PkgManagers.no_size true 1 true [] _ (str "vim") demo_host tt);
    [reflexivity|by_eval].
Defined.

(** ** Witnesses for the lock files and the retry *)

(** A host with a lock nobody holds, a PID file of a dead process, and tools that
    reject what they are asked. *)
Definition stale_host : handler unit :=
  command_host (fun s _ _ => (s, (MkResult 1 [] [], None)))
    (fun _ => Ok false) (fun _ => Ok (str "4711" ++ [NL])).

Lemma stale_lock_safe_witness :
  exists s1 s2 res,
    stale_host _ s1 (CRun (fuser_cmd (str "/var/lib/dpkg/lock")) []) = (s2, (res, None)) /\
    ExitCode res = 1%Z.
Proof.
  apply (stale_lock_safe stale_host tt (str "/var/lib/dpkg/lock") []).
  apply list_elem_of_In. vm_compute. auto.
Defined.

Lemma zypp_lock_safe_witness :
  exists s1 s2 content, stale_host _ s1 (CReadFile (str "/run/zypp.pid")) = (s2, Ok content) /\
    (trim_space content = [] \/
     isAllDigits (trim_space content) = true /\
     exists s3 res, stale_host _ s2 (CRun (kill_cmd (trim_space content)) []) = (s3, (res, None)) /\
       ExitCode res <> 0%Z).
Proof.
  apply (zypp_lock_safe stale_host tt (str "/run/zypp.pid") []).
  apply list_elem_of_In. vm_compute. auto.
Defined.

Example retried :
  length (commands stale_host tt
    (PkgDnf.Install (MkInstallOptions (str "1.0") true []) [str "vim"])) = 2.
Proof. by_eval. Qed.

(** ** What the parsers lose *)

(** A half-installed package is listed as installed: the status is searched for
    the word, not parsed. *)
Lemma half_installed_listed held e :
  entry_ok e -> e_status e = str "install reinstreq half-installed" ->
  is_Some (PkgApt.list_line held (row e)).
Proof. intros He Hs. rewrite list_line_row by done. unfold package_of. rewrite Hs. by eexists. Qed.

(** dnf prints [name.arch]; everything from the first dot of the name is lost. *)
Lemma dnf_search_dotted_name :
  PkgDnf.search_line (str "java-1.8.0-openjdk.x86_64 : OpenJDK")
    = Some (MkSearch (str "java-1") [] (str "OpenJDK") []).
Proof. by_eval. Qed.

(** The name in a version lock ends at the first dash before a digit. *)
Lemma nevra_dash_digit :
  PkgDnf.parseNEVRAName (str "java-1.8.0-openjdk-1.8.0.412-1.fc40.*") = str "java".
Proof. by_eval. Qed.

(** zypper's code 101 announces security updates; [HasUpdates] reports an error. *)
Definition exit_host (code : Z) : handler unit :=
  command_host (fun s _ _ => (s, (MkResult code [] [], None))) absent absent.
Lemma zypper_info_exit_is_error code :
  (101 <= code <= 103)%Z -> PkgZypper.isZypperInfoExit code = true /\
  (run (exit_host code) tt (PkgZypper.HasUpdates true)).2 = Err (ECommand PkgZypper.ZYPPER code []).
Proof.
  intros Hc. assert (code = 101 \/ code = 102 \/ code = 103)%Z as [->|[->| ->]] by lia; by vm_compute.
Qed.

(** Listing the pins with dnf can install a package with escalated rights. *)
Lemma dnf_ListPinned_escalates :
  existsb (fun ci => Escalate ci.1) (commands (exit_host 1) tt PkgDnf.ListPinned) = true.
Proof. by_eval. Qed.

(** pacman's orphan query prints names that are passed on as they are. *)
Definition orphan_host : handler unit :=
  command_host (fun s _ _ => (s, (MkResult 0 (str "--root=/mnt" ++ [NL]) [], None))) absent absent.
Lemma pacman_orphans_unvalidated :
  existsb (fun ci => bool_decide (str "--root=/mnt" ∈ Args ci.1) && Escalate ci.1)
    (commands orphan_host tt PkgPacman.Autoremove) = true.
Proof. by_eval. Qed.

End PkgBehaviour.
