(* ===== verification/User.v ===== *)
(** * Users and groups ([src/sys/user])

    The shadow-utils manager: name and field validators, account and group
    operations, password generation, session killing, the last-login parser.  The
    privileged file manager, the command runner and [os.Stat] are calls of the
    host; the random source and [time.ParseInLocation] are parameters.  Deadlines
    of the context do not change what is run and are left out. *)
From S2P Require Import Prelude Paths Exec HostProg Repo.

Module User.
Import Exec HostProg.

(** ** Data *)

Record Info := MkInfo {
  UID : Z; GID : Z; Comment : gostring; HomeDir : gostring; Shell : gostring;
  Groups : list gostring; GroupsKnown : bool; Locked : bool; LockedKnown : bool
}.
Record CreateOptions := MkCreate {
  c_UID : Z; c_PrimaryGroup : gostring; c_Groups : list gostring; c_Shell : gostring;
  c_HomeDir : gostring; c_Comment : gostring; c_System : bool; c_CreateHome : bool
}.
Record EnsureHomeOptions := MkEnsureHome { eh_Group : gostring; eh_Skel : gostring; eh_Mode : N }.
Record ModifyOptions := MkModify {
  m_Shell : gostring; m_HomeDir : gostring; m_Comment : gostring; m_PrimaryGroup : gostring
}.
Record DeleteOptions := MkDelete { RemoveHome : bool }.
Record GroupCreateOptions := MkGroupCreate { g_GID : Z; g_System : bool }.

Inductive user_error :=
| EInvalidName (kind name : gostring)
| EInvalidField (kind : gostring)
| EInvalidHome (why : gostring)
| EInvalidShell (why : gostring)
| EInvalidID (n : Z)
| ERun (e : exec_error)
| ECommand (name : gostring) (code : Z) (stderr : gostring)
| EFs (e : fs_err)
| EMalformed (what : gostring)
| ENotExist (name : gostring)
| ENoHome
| ENoAccountsService
| EWrap (msg : gostring) (e : user_error).

(** ** Validation *)

Definition name_char (c : ascii) : bool :=
  is_lower c || is_digit c || bool_decide (c = "_"%char) || bool_decide (c = "-"%char).
Definition IsValidName (name : gostring) : bool :=
  match name with
  | [] => false
  | c :: rest => (length name <=? 32) && is_lower c && forallb name_char rest
  end.

Definition DefaultShell (system : bool) : gostring :=
  if system then str "/usr/sbin/nologin" else str "/bin/bash".

Definition validateName (kind name : gostring) : result user_error unit :=
  if IsValidName name then Ok tt else Err (EInvalidName kind name).
Definition validateUsername (name : gostring) : result user_error unit :=
  validateName (str "username") name.

(** The separators are ASCII, so scanning bytes finds the same ones. *)
Definition validateField (kind val : gostring) (reject : gostring) : result user_error unit :=
  if existsb (fun c => Repo.control_byte c || bool_decide (c ∈ reject)) val
  then Err (EInvalidField kind) else Ok tt.

Definition worldWritablePersistenceRoots : list gostring :=
  [str "/tmp"; str "/var/tmp"; str "/dev/shm"].

Definition hasDotDot (p : gostring) : bool := bool_decide (str ".." ∈ split_byte p "/"%char).

Definition validateHomeDir (homeDir : gostring) : result user_error unit :=
  if bool_decide (homeDir = []) then Ok tt
  else if negb (has_prefix homeDir (str "/")) then Err (EInvalidHome (str "absolute"))
  else if hasDotDot homeDir then Err (EInvalidHome (str "traversal"))
  else
    let clean := Paths.Clean homeDir in
    if bool_decide (clean = str "/") || bool_decide (Paths.Dir clean = str "/")
    then Err (EInvalidHome (str "top-level"))
    else if bool_decide (Paths.Dir clean ∈ worldWritablePersistenceRoots)
    then Err (EInvalidHome (str "world-writable"))
    else Ok tt.

Definition shellMetacharacters : gostring :=
  " "%char :: TAB :: str "$&|;<>()`\" ++ "034"%char :: str "'*?!{}[]~#".

Definition validateShell (shell : gostring) : result user_error unit :=
  if bool_decide (shell = []) then Ok tt
  else if negb (has_prefix shell (str "/")) then Err (EInvalidShell (str "absolute"))
  else if hasDotDot shell then Err (EInvalidShell (str "traversal"))
  else if contains_any shell shellMetacharacters then Err (EInvalidShell (str "metacharacters"))
  else
    let clean := Paths.Clean shell in
    if existsb (fun root => bool_decide (clean = root) || has_prefix clean (root ++ str "/"))
         worldWritablePersistenceRoots
    then Err (EInvalidShell (str "world-writable")) else Ok tt.

Fixpoint validate_groups (groups : list gostring) : result user_error unit :=
  match groups with
  | [] => Ok tt
  | g :: rest => let? _ := validateField (str "supplementary group") g (str ":,") in
                 validate_groups rest
  end.
Definition validateAccountFields (comment homeDir shell primaryGroup : gostring)
    (groups : list gostring) : result user_error unit :=
  let? _ := validateField (str "comment") comment (str ":") in
  let? _ := validateField (str "home directory") homeDir (str ":") in
  let? _ := validateHomeDir homeDir in
  let? _ := validateField (str "shell") shell (str ":") in
  let? _ := validateShell shell in
  let? _ := validateField (str "primary group") primaryGroup (str ":,") in
  validate_groups groups.

(** ** Commands *)

Abbreviation op := (prog (option user_error)).
Abbreviation query A := (prog (result user_error A)).

Definition check (v : result user_error unit) (k : op) : op :=
  match v with Ok _ => k | Err e => Ret (Some e) end.
Definition checkq {A} (v : result user_error unit) (k : query A) : query A :=
  match v with Ok _ => k | Err e => Ret (Err e) end.

Definition exec_ (escalate : bool) (stdin name : gostring) (args : list gostring)
    : query Result :=
  let! (res, err) := ask (CRun (MkCommand name args [] [] [] escalate) stdin) in
  Ret (match err with Some e => Err (ERun e) | None => Ok res end).

Definition exit_error (name : gostring) (res : Result) : option user_error :=
  if (ExitCode res =? 0)%Z then None else Some (ECommand name (ExitCode res) (Stderr res)).

Definition run_ (name : gostring) (args : list gostring) : op :=
  let! r := exec_ true [] name args in
  Ret (match r with Err e => Some e | Ok res => exit_error name res end).

Definition query_ (name : gostring) (args : list gostring) : query gostring :=
  let!? res := exec_ false [] name args in
  Ret (match exit_error name res with Some e => Err e | None => Ok (trim_space (Stdout res)) end).

(** A file operation whose error is returned with a message. *)
Definition fs_do (msg : gostring) (o : fs_op) (k : op) : op :=
  let! e := ask (CFs o) in
  match e with Some e => Ret (Some (EWrap msg (EFs e))) | None => k end.

(** ** Accounts ([user.go]) *)

(** [strconv.Itoa] on a non-negative id. *)
Definition itoa_id (z : Z) : gostring := itoa (Z.to_nat z).

Definition create_args (opts : CreateOptions) (homeExists : bool) (name : gostring) : list gostring :=
  (if (0 <? c_UID opts)%Z then [str "-u"; itoa_id (c_UID opts)] else []) ++
  (match c_PrimaryGroup opts with [] => [] | g => [str "-g"; g] end) ++
  (match c_Groups opts with [] => [] | gs => [str "-G"; join gs (str ",")] end) ++
  (match c_HomeDir opts with [] => [] | d => [str "-d"; d] end) ++
  [str "-s"; match c_Shell opts with [] => DefaultShell (c_System opts) | s => s end] ++
  (if c_System opts then [str "-r"] else []) ++
  (if c_CreateHome opts && negb homeExists then [str "-m"] else [str "-M"]) ++
  (match c_Comment opts with [] => [] | c => [str "-c"; c] end) ++
  [name].

Definition Create (name : gostring) (opts : CreateOptions) : op :=
  check (validateUsername name) (
  if (c_UID opts <? 0)%Z then Ret (Some (EInvalidID (c_UID opts)))
  else
  check (validateAccountFields (c_Comment opts) (c_HomeDir opts) (c_Shell opts)
           (c_PrimaryGroup opts) (c_Groups opts)) (
  let homeDir := match c_HomeDir opts with [] => str "/home/" ++ name | d => d end in
  let! st := ask (CStat homeDir) in
  let homeExists := is_ok st in
  let! err := run_ (str "useradd") (create_args opts homeExists name) in
  match err with
  | Some e => Ret (Some e)
  | None =>
      if c_CreateHome opts && homeExists then
        let group := match c_PrimaryGroup opts with [] => name | g => g end in
        fs_do (str "fix ownership of existing home") (FsChownR homeDir name group) (Ret None)
      else Ret None
  end)).

Definition Modify (name : gostring) (opts : ModifyOptions) : op :=
  check (validateUsername name) (
  check (validateAccountFields (m_Comment opts) (m_HomeDir opts) (m_Shell opts)
           (m_PrimaryGroup opts) []) (
  let args :=
    (match m_Shell opts with [] => [] | s => [str "-s"; s] end) ++
    (match m_HomeDir opts with [] => [] | d => [str "-d"; d] end) ++
    (match m_Comment opts with [] => [] | c => [str "-c"; c] end) ++
    (match m_PrimaryGroup opts with [] => [] | g => [str "-g"; g] end) in
  match args with
  | [] => Ret None
  | _ => run_ (str "usermod") (args ++ [name])
  end)).

Definition Delete (name : gostring) (opts : DeleteOptions) : op :=
  check (validateUsername name) (
  if RemoveHome opts then run_ (str "userdel") [str "-r"; name] else run_ (str "userdel") [name]).

Definition Lock (name : gostring) : op :=
  check (validateUsername name) (run_ (str "usermod") [str "-L"; name]).

Definition shadowPassword (name : gostring) : query gostring :=
  let!? res := exec_ true [] (str "getent") [str "shadow"; name] in
  Ret (if negb (ExitCode res =? 0)%Z || bool_decide (Stdout res = []) then Err (EMalformed (str "exit"))
       else match split_byte (trim_space (Stdout res)) ":"%char with
            | _ :: f :: _ => Ok f
            | _ => Err (EMalformed (str "shadow entry"))
            end).

Definition Unlock (name : gostring) : op :=
  check (validateUsername name) (
  let! field := shadowPassword name in
  match field with
  | Err _ => run_ (str "usermod") [str "-U"; name]
  | Ok field =>
      if negb (has_prefix field (str "!")) then Ret None
      else
        let rest := trim_left_set field (str "!") in
        if bool_decide (rest = []) || bool_decide (rest = str "*")
        then run_ (str "usermod") [str "-p"; str "*"; name]
        else run_ (str "usermod") [str "-U"; name]
  end).

(** [strings.IndexByte(gout, ':')] and the part before it. *)
Definition before_colon (s : gostring) : gostring :=
  match index_byte s ":"%char with
  | Some i => if 0 <? i then take i s else []
  | None => []
  end.

Definition not_group (primary g : gostring) : bool := negb (bool_decide (g = primary)).

Definition Get (name : gostring) : query Info :=
  checkq (validateUsername name) (
  let! out := query_ (str "getent") [str "passwd"; name] in
  match out with
  | Err e => Ret (Err (EWrap (str "lookup passwd entry") e))
  | Ok out =>
      match split_byte out ":"%char with
      | _ :: _ :: f2 :: f3 :: f4 :: f5 :: f6 :: _ =>
          match atoi f2, atoi f3 with
          | None, _ => Ret (Err (EMalformed (str "UID")))
          | Some _, None => Ret (Err (EMalformed (str "GID")))
          | Some uid, Some gid =>
              let! gout := query_ (str "getent") [str "group";
                 if (gid <? 0)%Z then str "-" ++ itoa (Z.to_nat (- gid)) else itoa_id gid] in
              let primary := match gout with Ok g => before_colon g | Err _ => [] end in
              let! all := query_ (str "id") [str "-Gn"; name] in
              let '(groups, known) :=
                match all with
                | Ok gs => (List.filter (not_group primary) (fields gs), true)
                | Err _ => ([], false)
                end in
              let! field := shadowPassword name in
              let '(locked, lknown) :=
                match field with
                | Ok f => (has_prefix f (str "!"), true)
                | Err _ => (false, false)
                end in
              Ret (Ok (MkInfo uid gid f4 f5 f6 groups known locked lknown))
          end
      | _ => Ret (Err (EMalformed (str "passwd entry")))
      end
  end).

Definition Exists (name : gostring) : query bool :=
  if negb (IsValidName name) then Ret (Ok false)
  else
    let!? res := exec_ false [] (str "id") [name] in
    Ret (Ok (ExitCode res =? 0)%Z).

Definition PrimaryGroup (name : gostring) : query gostring :=
  checkq (validateUsername name) (query_ (str "id") [str "-gn"; name]).

Definition SupplementaryGroups (name : gostring) : query (list gostring) :=
  checkq (validateUsername name) (
  let!? out := query_ (str "id") [str "-Gn"; name] in
  let groups := fields out in
  let! primary := query_ (str "id") [str "-gn"; name] in
  Ret (match primary with
       | Err e => Err (EWrap (str "lookup primary group") e)
       | Ok primary => Ok (List.filter (not_group primary) groups)
       end)).

(** An error of a step of [EnsureHome] is returned with its message. *)
Definition home_step {A} (p : query A) (k : A -> op) : op :=
  let! r := p in
  match r with Ok a => k a | Err e => Ret (Some (EWrap (str "ensure home") e)) end.
Definition fs_exists (path : gostring) : query bool :=
  let! r := ask (CFsExists path) in
  Ret (match r with Ok b => Ok b | Err e => Err (EFs e) end).

Definition EnsureHome (name : gostring) (opts : EnsureHomeOptions) : op :=
  check (validateUsername name) (
  home_step (Get name) (fun info =>
  let home := HomeDir info in
  if bool_decide (home = []) then Ret (Some ENoHome)
  else
  home_step (match eh_Group opts with [] => PrimaryGroup name | g => Ret (Ok g) end) (fun group =>
  let mode := if (eh_Mode opts =? 0)%N then 448%N else eh_Mode opts in
  let skel := match eh_Skel opts with [] => str "/etc/skel" | s => s end in
  let own :=
    fs_do (str "ensure home") (FsChownR home name group) (
    fs_do (str "ensure home") (FsChmod home mode) (Ret None)) in
  home_step (fs_exists home) (fun exists_ =>
  if exists_ : bool then own
  else
    fs_do (str "ensure home") (FsMkdir home mode [] [] true) (
    home_step (fs_exists skel) (fun skelExists =>
    if skelExists : bool then fs_do (str "ensure home") (FsCopyTree skel home) own else own)))))).

(** ** Groups ([group.go]) *)

(** The sets as duplicate-free lists. *)
Definition MembersMatch (a b : list gostring) : bool :=
  let sa := remove_dups a in
  let sb := remove_dups b in
  (length sa =? length sb) && forallb (fun k => bool_decide (k ∈ sb)) sa.

Definition GroupExists (name : gostring) : query bool :=
  checkq (validateName (str "group name") name) (
  let!? res := exec_ false [] (str "getent") [str "group"; name] in
  Ret (Ok (ExitCode res =? 0)%Z)).

(** [errors.As] and the exit code 2 of [getent]. *)
Definition not_found (e : user_error) : bool :=
  match e with ECommand _ code _ => (code =? 2)%Z | _ => false end.

Definition GroupMembers (name : gostring) : query (list gostring) :=
  checkq (validateName (str "group name") name) (
  let! out := query_ (str "getent") [str "group"; name] in
  Ret (match out with
       | Err e => if not_found e then Err (ENotExist name) else Err e
       | Ok out =>
           match split_byte out ":"%char with
           | _ :: _ :: _ :: f3 :: _ =>
               Ok (match f3 with
                   | [] => []
                   | _ => List.filter (fun m => negb (bool_decide (m = []))) (split_byte f3 ","%char)
                   end)
           | _ => Ok []
           end
       end)).

Definition GroupCreate (name : gostring) (opts : GroupCreateOptions) : op :=
  check (validateName (str "group name") name) (
  if (g_GID opts <? 0)%Z then Ret (Some (EInvalidID (g_GID opts)))
  else run_ (str "groupadd")
         ((if (0 <? g_GID opts)%Z then [str "-g"; itoa_id (g_GID opts)] else []) ++
          (if g_System opts then [str "-r"] else []) ++ [name])).

Definition GroupDelete (name : gostring) : op :=
  check (validateName (str "group name") name) (run_ (str "groupdel") [name]).

Definition GroupEnsure (name : gostring) : op :=
  let! r := GroupExists name in
  match r with
  | Err e => Ret (Some e)
  | Ok true => Ret None
  | Ok false => GroupCreate name (MkGroupCreate 0 false)
  end.

Definition AddToGroup (name group : gostring) : op :=
  check (validateUsername name) (
  check (validateName (str "group name") group) (run_ (str "usermod") [str "-aG"; group; name])).
Definition RemoveFromGroup (name group : gostring) : op :=
  check (validateUsername name) (
  check (validateName (str "group name") group) (run_ (str "gpasswd") [str "-d"; name; group])).

(** ** Passwords ([password.go]) *)

Definition MinPasswordLength : Z := 8.
Definition MaxPasswordLength : Z := 128.
Definition charsetAlphanumeric : gostring :=
  str "abcdefghijklmnopqrstuvwxyzABCDEFGHIJKLMNOPQRSTUVWXYZ0123456789".
Definition charsetSpecial : gostring := str "!@#$%^&*()_+-=[]{}|;:,.<>?".
Inductive Complexity := ComplexityAlphanumeric | ComplexityComplex.

Definition charset (c : Complexity) : gostring :=
  match c with
  | ComplexityAlphanumeric => charsetAlphanumeric
  | ComplexityComplex => charsetAlphanumeric ++ charsetSpecial
  end.

Inductive password_error := TooShort | TooLong | RandFailed | BadSecret.

(** [randInt i max] is the answer of the random source for byte [i]. *)
Fixpoint draw (randInt : nat -> nat -> option nat) (cs : gostring) (i n : nat) : option gostring :=
  match n with
  | 0 => Some []
  | S n' =>
      idx ← randInt i (length cs);
      rest ← draw randInt cs (S i) n';
      Some (nth idx cs "000"%char :: rest)
  end.

Definition GeneratePassword (randInt : nat -> nat -> option nat) (length_ : Z) (c : Complexity)
    : result password_error Secret :=
  if (length_ <? MinPasswordLength)%Z then Err TooShort
  else if (MaxPasswordLength <? length_)%Z then Err TooLong
  else match draw randInt (charset c) 0 (Z.to_nat length_) with
       | None => Err RandFailed
       | Some buf => match NewSecret buf with Some s => Ok s | None => Err BadSecret end
       end.

Definition SetPassword (name : gostring) (password : Secret) : op :=
  check (validateUsername name) (
  let! r := exec_ true (name ++ str ":" ++ Reveal password) (str "chpasswd") [] in
  Ret (match r with Err e => Some e | Ok res => exit_error (str "chpasswd") res end)).

Definition ExpirePassword (name : gostring) : op :=
  check (validateUsername name) (run_ (str "chage") [str "-d"; str "0"; name]).

(** ** Sessions ([sessions.go], [accountsservice.go]) *)

Definition KillSessions (name : gostring) : op :=
  check (validateUsername name) (
  let! r := exec_ true [] (str "loginctl") [str "terminate-user"; name] in
  if match r with Ok res => (ExitCode res =? 0)%Z | Err _ => false end then Ret None
  else
    let! r := exec_ true [] (str "pkill") [str "-KILL"; str "-u"; name] in
    Ret (match r with
         | Err e => Some (EWrap (str "kill sessions") e)
         | Ok res => if negb (ExitCode res =? 0)%Z && negb (ExitCode res =? 1)%Z
                     then Some (ECommand (str "pkill") (ExitCode res) (Stderr res)) else None
         end)).

Section LastLogin.
(** [time.ParseInLocation] with the layout of [last -F], as a Unix time. *)
Context (ParseLast : gostring -> option Z).

Fixpoint extract_from (fs : list gostring) (fuel : nat) : option Z :=
  match fuel with
  | 0 => None
  | S fuel' =>
      match ParseLast (join (take 5 fs) (str " ")) with
      | Some t => Some t
      | None => extract_from (tail fs) fuel'
      end
  end.
(** One candidate per index with five fields left. *)
Definition extractLastTimestamp (line : gostring) : option Z :=
  let fs := fields line in extract_from fs (length fs - 4).

Fixpoint first_timestamp (lines : list gostring) : option Z :=
  match lines with
  | [] => None
  | l :: rest =>
      let line := trim_space l in
      if bool_decide (line = []) || has_prefix line (str "wtmp begins") then first_timestamp rest
      else match extractLastTimestamp line with
           | Some t => Some t
           | None => first_timestamp rest
           end
  end.
Definition parseLastLogin (out : gostring) : option Z := first_timestamp (scan_lines out).

(** [None] is the zero time. *)
Definition LastLogin (name : gostring) : query (option Z) :=
  checkq (validateUsername name) (
  let! r := exec_ false [] (str "last") [str "-1"; str "-F"; name] in
  Ret (match r with
       | Err e => Err (EWrap (str "last login") e)
       | Ok res => match exit_error (str "last") res with
                   | Some e => Err e
                   | None => Ok (parseLastLogin (Stdout res))
                   end
       end)).
End LastLogin.

Definition accountsServiceDir : gostring := str "/var/lib/AccountsService/users".
Definition SetHiddenOnLoginScreen (name : gostring) (hidden : bool) : op :=
  check (validateUsername name) (
  let configPath := Paths.Join [accountsServiceDir; name] in
  if negb hidden then
    let! e := ask (CFs (FsRemove configPath)) in
    Ret (match e with Some e => Some (EFs e) | None => None end)
  else
    let! st := ask (CStat accountsServiceDir) in
    match st with
    | Err NotExist => Ret (Some ENoAccountsService)
    | _ =>
        let! e := ask (CFs (FsWriteFile configPath
          (str "[User]" ++ NL :: str "SystemAccount=true" ++ [NL]) 420 (str "root") (str "root"))) in
        Ret (match e with Some e => Some (EFs e) | None => None end)
    end).

End User.
