(* ===== verification/UserOps.v ===== *)
(** * Users and groups: theorems ([src/sys/user])

    What the account operations of [User] do on every host: the shape of every
    escalated command line, the fate of an existing home, that validated fields
    survive the passwd file, locking and unlocking, generated passwords. *)
From S2P Require Import Prelude Paths Exec HostProg Words Repo Pkg User.

Module UserOps.
Import Exec HostProg Words User.

(** ** Command lines

    The shadow tools read their arguments as [getopt] does: a plain flag, a flag
    with the value that follows it, or an operand. *)

Definition plain_flags : list gostring :=
  [str "-r"; str "-m"; str "-M"; str "-L"; str "-U"; str "-KILL"].
Definition valued_flags : list gostring :=
  [str "-u"; str "-g"; str "-G"; str "-d"; str "-s"; str "-c"; str "-p"; str "-aG"].

Fixpoint getopt_ok (args : list gostring) : bool :=
  match args with
  | [] => true
  | a :: rest =>
      if bool_decide (a ∈ plain_flags) then getopt_ok rest
      else if bool_decide (a ∈ valued_flags) then
        match rest with
        | [] => false
        | _ :: rest' => getopt_ok rest'
        end
      else Pkg.operand a && getopt_ok rest
  end.

(** An escalated command line is read as it was meant, and only [chpasswd] gets
    input. *)
Definition safe_call (c : Command) (stdin : gostring) : Prop :=
  (Escalate c = true -> getopt_ok (Args c) = true) /\ (stdin <> [] -> Name c = str "chpasswd").
Definition safe {A} (p : prog A) : Prop := wp (on_run safe_call) p (fun _ => True).

Lemma getopt_plain a rest : bool_decide (a ∈ plain_flags) = true -> getopt_ok (a :: rest) = getopt_ok rest.
Proof. intros H. cbn [getopt_ok]. by rewrite H. Qed.
Lemma getopt_valued a v rest :
  bool_decide (a ∈ plain_flags) = false -> bool_decide (a ∈ valued_flags) = true ->
  getopt_ok (a :: v :: rest) = getopt_ok rest.
Proof. intros H1 H2. cbn [getopt_ok]. by rewrite H1, H2. Qed.
Lemma getopt_operand a rest : Pkg.operand a = true -> getopt_ok (a :: rest) = getopt_ok rest.
Proof.
  intros Ho. cbn [getopt_ok]. assert (Hd : forall l, forallb (fun f => negb (Pkg.operand f)) l = true -> a ∉ l).
  { intros l Hl Hin. rewrite forallb_forall in Hl. apply list_elem_of_In in Hin.
    specialize (Hl a Hin). by rewrite Ho in Hl. }
  rewrite !bool_decide_false by (by apply Hd). by rewrite Ho.
Qed.

Lemma valid_name_operand n : IsValidName n = true -> Pkg.operand n = true.
Proof.
  destruct n as [|c n]; [done|]. cbn [IsValidName]. intros H. go_bool.
  apply Pkg.alnum_operand. unfold Pkg.alnum, Repo.alnum. by rewrite H1.
Qed.
Lemma username_operand n : validateUsername n = Ok tt -> Pkg.operand n = true.
Proof.
  unfold validateUsername, validateName. destruct (IsValidName n) eqn:H; [|done].
  intros _. by apply valid_name_operand.
Qed.
Lemma group_operand n : validateName (str "group name") n = Ok tt -> Pkg.operand n = true.
Proof.
  unfold validateName. destruct (IsValidName n) eqn:H; [|done]. intros _. by apply valid_name_operand.
Qed.

(** Decide a command line: strip its literal flags, leave its operands. *)
Ltac getopt :=
  repeat first
    [ reflexivity
    | rewrite getopt_plain by reflexivity
    | rewrite getopt_valued by reflexivity
    | rewrite getopt_operand by first [by apply username_operand | by apply group_operand | reflexivity] ].

Lemma safe_bind {A B} (p : prog A) (f : A -> prog B) :
  safe p -> (forall a, safe (f a)) -> safe (bind p f).
Proof. intros Hp Hf. apply wp_bind. eapply wp_mono; [|exact Hp]. intros a _. apply Hf. Qed.
Lemma safe_bind_ok {A B} (p : query A) (f : A -> query B) :
  safe p -> (forall a, safe (f a)) -> safe (bind_ok p f).
Proof.
  intros Hp Hf. apply wp_bind_ok. eapply wp_mono; [|exact Hp]. intros [a|e] _; [apply Hf|done].
Qed.
Lemma safe_ret {A} (a : A) : safe (Ret a).
Proof. done. Qed.
Lemma safe_check v k : (v = Ok tt -> safe k) -> safe (check v k).
Proof. destruct v as [[]|e]; simpl; [auto|done]. Qed.
Lemma safe_checkq {A} v (k : query A) : (v = Ok tt -> safe k) -> safe (checkq v k).
Proof. destruct v as [[]|e]; simpl; [auto|done]. Qed.
Lemma safe_exec esc i name args :
  (esc = true -> getopt_ok args = true) -> (i <> [] -> name = str "chpasswd") -> safe (exec_ esc i name args).
Proof. intros Ha Hi. apply safe_bind; [by repeat split|]. intros [r e]. apply safe_ret. Qed.
Lemma safe_run name args : getopt_ok args = true -> safe (run_ name args).
Proof. intros H. apply safe_bind; [by apply safe_exec|]. intros r. apply safe_ret. Qed.
Lemma safe_query name args : safe (query_ name args).
Proof. apply safe_bind_ok; [by apply safe_exec|]. intros r. apply safe_ret. Qed.
Lemma safe_fs_do msg o k : safe k -> safe (fs_do msg o k).
Proof. intros Hk. apply safe_bind; [by repeat split|]. intros [e|]; [apply safe_ret|done]. Qed.
Lemma safe_home_step {A} (p : query A) k :
  safe p -> (forall a, safe (k a)) -> safe (home_step p k).
Proof. intros Hp Hk. apply safe_bind; [done|]. intros [a|e]; [apply Hk|apply safe_ret]. Qed.
Lemma safe_fs_exists p : safe (fs_exists p).
Proof. by repeat split. Qed.

Lemma safe_shadowPassword n : Pkg.operand n = true -> safe (shadowPassword n).
Proof.
  intros Hn. apply safe_bind_ok; [apply safe_exec; [|done]|intros r; apply safe_ret].
  intros _. rewrite getopt_operand by reflexivity. by rewrite getopt_operand.
Qed.

Create HintDb user.
#[export] Hint Resolve safe_ret safe_query safe_fs_do safe_fs_exists safe_shadowPassword
  username_operand group_operand : user.

Lemma create_args_ok opts he n : Pkg.operand n = true -> getopt_ok (create_args opts he n) = true.
Proof.
  intros Hn. unfold create_args.
  assert (Hlast : getopt_ok [n] = true) by by rewrite getopt_operand.
  destruct (0 <? c_UID opts)%Z, (c_PrimaryGroup opts), (c_Groups opts), (c_HomeDir opts),
    (c_System opts), (c_CreateHome opts && negb he), (c_Comment opts); cbn [app];
    repeat first [rewrite getopt_plain by reflexivity | rewrite getopt_valued by reflexivity]; done.
Qed.

Lemma safe_Create n o : safe (Create n o).
Proof.
  apply safe_check. intros Hn. destruct (c_UID o <? 0)%Z; [apply safe_ret|].
  apply safe_check. intros _. cbv zeta. apply safe_bind; [by repeat split|]. intros st.
  apply safe_bind; [apply safe_run, create_args_ok; auto with user|].
  intros [e|]; [apply safe_ret|]. case_match; auto with user.
Qed.

Lemma safe_Modify n o : safe (Modify n o).
Proof.
  apply safe_check. intros Hn. apply safe_check. intros _. cbv zeta.
  assert (Hlast : getopt_ok [n] = true) by (rewrite getopt_operand; auto with user).
  destruct (m_Shell o), (m_HomeDir o), (m_Comment o), (m_PrimaryGroup o); cbn [app];
    try apply safe_ret; apply safe_run;
    repeat first [rewrite getopt_plain by reflexivity | rewrite getopt_valued by reflexivity]; done.
Qed.

Lemma safe_Unlock n : safe (Unlock n).
Proof.
  apply safe_check. intros Hn. apply safe_bind; [auto with user|].
  intros [f|e]; [|apply safe_run; getopt].
  case_match; [apply safe_ret|]. cbv zeta. case_match; apply safe_run; getopt.
Qed.

Lemma safe_Get n : safe (Get n).
Proof.
  apply safe_checkq. intros Hn. apply safe_bind; [auto with user|].
  intros [out|e]; [|apply safe_ret].
  destruct (split_byte out _) as [|? [|? [|? [|? [|? [|? [|? ?]]]]]]]; try apply safe_ret.
  destruct (atoi _); [|apply safe_ret]. destruct (atoi _); [|apply safe_ret].
  apply safe_bind; [auto with user|]. intros g. cbv zeta.
  apply safe_bind; [auto with user|]. intros gs. destruct gs; cbv iota beta;
    (apply safe_bind; [auto with user|]; intros [?|?]; apply safe_ret).
Qed.

Lemma safe_EnsureHome n o : safe (EnsureHome n o).
Proof.
  apply safe_check. intros Hn. apply safe_home_step; [apply safe_Get|]. intros info. cbv zeta.
  case_match; [apply safe_ret|]. apply safe_home_step.
  { case_match; [|apply safe_ret]. apply safe_checkq. intros _. apply safe_query. }
  intros g. apply safe_home_step; [apply safe_fs_exists|]. intros b.
  assert (Hown : forall home mode, safe (fs_do (str "ensure home") (FsChownR home n g)
    (fs_do (str "ensure home") (FsChmod home mode) (Ret None)))) by auto with user.
  destruct b; [apply Hown|]. apply safe_fs_do, safe_home_step; [apply safe_fs_exists|].
  intros []; auto with user.
Qed.

(** The operations of the manager that change accounts, groups or sessions. *)
Inductive is_op : op -> Prop :=
| o_Create n o : is_op (Create n o)
| o_EnsureHome n o : is_op (EnsureHome n o)
| o_Modify n o : is_op (Modify n o)
| o_Delete n o : is_op (Delete n o)
| o_Lock n : is_op (Lock n)
| o_Unlock n : is_op (Unlock n)
| o_SetPassword n pw : is_op (SetPassword n pw)
| o_ExpirePassword n : is_op (ExpirePassword n)
| o_KillSessions n : is_op (KillSessions n)
| o_Hidden n b : is_op (SetHiddenOnLoginScreen n b)
| o_GroupCreate n o : is_op (GroupCreate n o)
| o_GroupDelete n : is_op (GroupDelete n)
| o_GroupEnsure n : is_op (GroupEnsure n)
| o_AddToGroup n g : is_op (AddToGroup n g)
| o_RemoveFromGroup n g : is_op (RemoveFromGroup n g).

Lemma is_op_safe p : is_op p -> safe p.
Proof.
  assert (Hgc : forall n o, safe (GroupCreate n o)).
  { intros n o. apply safe_check. intros Hn. case_match; [apply safe_ret|].
    assert (Hlast : getopt_ok [n] = true) by (rewrite getopt_operand; auto with user).
    destruct (0 <? g_GID o)%Z, (g_System o); cbn [app]; apply safe_run;
      repeat first [rewrite getopt_plain by reflexivity | rewrite getopt_valued by reflexivity]; done. }
  destruct 1.
  - apply safe_Create.
  - apply safe_EnsureHome.
  - apply safe_Modify.
  - apply safe_check. intros Hn. case_match; apply safe_run; getopt.
  - apply safe_check. intros Hn. apply safe_run. getopt.
  - apply safe_Unlock.
  - apply safe_check. intros Hn. apply safe_bind; [by apply safe_exec|]. intros r. apply safe_ret.
  - apply safe_check. intros Hn. apply safe_run. getopt.
  - apply safe_check. intros Hn. apply safe_bind; [apply safe_exec; [intros _; getopt|done]|].
    intros r. case_match; [apply safe_ret|].
    apply safe_bind; [apply safe_exec; [intros _; getopt|done]|]. intros r'. apply safe_ret.
  - apply safe_check. intros Hn. cbv zeta. case_match.
    + apply safe_bind; [by repeat split|]. intros e. apply safe_ret.
    + apply safe_bind; [by repeat split|]. intros [?|[]]; try apply safe_ret;
        (apply safe_bind; [by repeat split|]; intros ?; apply safe_ret).
  - apply Hgc.
  - apply safe_check. intros Hn. apply safe_run. getopt.
  - apply safe_bind; [|intros [[]|e]; try apply safe_ret; apply Hgc].
    apply safe_checkq. intros Hn. apply safe_bind_ok; [by apply safe_exec|]. intros r. apply safe_ret.
  - apply safe_check. intros Hn. apply safe_check. intros Hg. apply safe_run. getopt.
  - apply safe_check. intros Hn. apply safe_check. intros Hg. apply safe_run. getopt.
Qed.

(** Whatever names, groups, comments, shells and homes an operation is given, and
    whatever the host answers, every escalated command line is read as it was
    meant: no value becomes a flag or swallows one, and only [chpasswd] is fed
    input. *)
Theorem account_argv_safe p {S} (h : handler S) s :
  is_op p ->
  Forall (fun ci => (Escalate ci.1 = true -> getopt_ok (Args ci.1) = true) /\
                    (ci.2 <> [] -> Name ci.1 = str "chpasswd")) (commands h s p).
Proof. intros Hp%is_op_safe. by apply (wp_commands _ h s) in Hp as [Hp _]. Qed.


Definition quiet : handler unit :=
  command_host (fun s _ _ => (s, (MkResult 0 [] [], None))) absent absent.
Lemma account_argv_safe_witness :
  Forall (fun ci => (Escalate ci.1 = true -> getopt_ok (Args ci.1) = true) /\
                    (ci.2 <> [] -> Name ci.1 = str "chpasswd"))
    (commands quiet tt (Create (str "alice")
       (MkCreate 1000 [] [str "-r"] [] [] (str "-o -u 0") false true))).
Proof. apply account_argv_safe. constructor. Defined.

(** ** What [getent] prints is read back *)

Lemma validName_inv kind n :
  validateName kind n = Ok tt -> exists c r, n = c :: r /\ visible c = true /\ ":"%char ∉ n.
Proof.
  unfold validateName. destruct (IsValidName n) eqn:H; [|done]. intros _.
  destruct n as [|c r]; [done|]. cbn [IsValidName] in H. go_bool. exists c, r.
  split; [done|]. split; [by apply lower_visible|]. apply not_elem_of_cons. split.
  - by intros <-.
  - by eapply forallb_not_elem.
Qed.

Lemma validField_no kind v reject b :
  b ∈ reject -> validateField kind v reject = Ok tt -> b ∉ v.
Proof.
  intros Hb. unfold validateField. destruct (existsb _ v) eqn:E; [done|]. intros _ Hin.
  apply list_elem_of_In in Hin.
  assert (existsb (fun c => Repo.control_byte c || bool_decide (c ∈ reject)) v = true) as E'.
  { apply existsb_exists. exists b. split; [done|]. apply orb_true_iff. right. by apply bool_decide_eq_true. }
  by rewrite E in E'.
Qed.

Lemma validFields_inv c h s g gs :
  validateAccountFields c h s g gs = Ok tt ->
  (":"%char ∉ c) /\ (":"%char ∉ h) /\ ":"%char ∉ s.
Proof.
  unfold validateAccountFields. intros H. apply result_seq_ok in H as [Hc H].
  apply result_seq_ok in H as [Hh H]. apply result_seq_ok in H as [_ H].
  apply result_seq_ok in H as [Hs _].
  split_and!; (eapply validField_no; [|eassumption]; set_solver).
Qed.

Definition getent_cmd (args : list gostring) : Command := MkCommand (str "getent") args [] [] [] false.
Definition passwd_line (name : gostring) (uid gid : nat) (comment home shell : gostring) : gostring :=
  join [name; str "x"; itoa uid; itoa gid; comment; home; shell] (str ":").

Lemma trim_passwd_line name uid gid comment home sh d :
  (exists c r, name = c :: r /\ visible c = true) -> visible d = true ->
  trim_space (passwd_line name uid gid comment home (sh ++ [d]) ++ [NL])
    = passwd_line name uid gid comment home (sh ++ [d]).
Proof.
  intros (c & r & -> & Hc) Hd.
  assert (exists t, passwd_line (c :: r) uid gid comment home (sh ++ [d]) = c :: t ++ [d]) as [t ->].
  { exists (r ++ str ":x:" ++ itoa uid ++ str ":" ++ itoa gid ++ str ":" ++ comment ++ str ":" ++
             home ++ str ":" ++ sh).
    unfold passwd_line. cbn [join]. change (str ":x:") with (str ":" ++ str "x" ++ str ":").
    rewrite <-!app_comm_cons, <-!app_assoc. done. }
  by apply trim_line.
Qed.

Lemma split_passwd_line name uid gid comment home shell :
  Forall (fun f => ":"%char ∉ f) [name; comment; home; shell] ->
  split_byte (passwd_line name uid gid comment home shell) ":"%char
    = [name; str "x"; itoa uid; itoa gid; comment; home; shell].
Proof.
  intros H. rewrite !list.Forall_cons in H. destruct H as (? & ? & ? & ? & _).
  unfold passwd_line. apply Paths.split_join; [done|].
  assert (forall n, ":"%char ∉ itoa n) by (intros n; by eapply forallb_not_elem; [apply itoa_digits|]).
  repeat constructor; auto. by apply (bool_decide_unpack _).
Qed.

(** The fields [Create] and [Modify] accept survive the passwd file: a [Get] on
    a host whose [getent] prints the entry made of them returns the same UID, GID,
    comment, home and shell, whatever the rest of the host answers. *)
Theorem passwd_roundtrip {S} (h : handler S) s s' name uid gid comment home sh d pg groups e :
  validateUsername name = Ok tt ->
  validateAccountFields comment home (sh ++ [d]) pg groups = Ok tt ->
  visible d = true -> (Z.of_nat uid <= int_max)%Z -> (Z.of_nat gid <= int_max)%Z ->
  h _ s (CRun (getent_cmd [str "passwd"; name]) [])
    = (s', (MkResult 0 (passwd_line name uid gid comment home (sh ++ [d]) ++ [NL]) e, None)) ->
  exists info, (run h s (Get name)).2 = Ok info /\ UID info = Z.of_nat uid /\ GID info = Z.of_nat gid /\
    Comment info = comment /\ HomeDir info = home /\ Shell info = sh ++ [d].
Proof.
  intros Hn Hf Hd Hu Hg Hh. unfold Get. rewrite Hn. cbn [checkq].
  apply validName_inv in Hn as (c & r & En & Hc & Hno). apply validFields_inv in Hf as (? & ? & ?).
  unfold query_ at 1, exec_ at 1, bind_ok, ask. cbn [bind run]. fold (getent_cmd [str "passwd"; name]).
  rewrite Hh. unfold exit_error at 1. cbn [bind ExitCode Stdout Z.eqb].
  rewrite trim_passwd_line by eauto. rewrite split_passwd_line by (repeat constructor; done).
  rewrite !atoi_itoa by done. cbv beta iota.
  match goal with |- context [run h s' ?p] => refine (proj2 (wp_run (fun _ => True) h s' p
    (fun r => exists info, r = Ok info /\ UID info = Z.of_nat uid /\ GID info = Z.of_nat gid /\
       Comment info = comment /\ HomeDir info = home /\ Shell info = sh ++ [d]) _)) end.
  assert (Hany : forall A (p : prog A), wp (fun _ => True) p (fun _ => True)).
  { intros A p. induction p; [done|]. by split. }
  apply wp_bind. eapply wp_mono; [|apply Hany]. intros g _. cbv zeta.
  apply wp_bind. eapply wp_mono; [|apply Hany]. intros all _.
  destruct all; (apply wp_bind; eapply wp_mono; [|apply Hany]; intros [f|?] _); cbn [wp]; eauto 10.
Qed.
Definition alice_host : handler unit :=
  command_host (fun s c _ => (s, (MkResult 0
    (if bool_decide (Args c = [str "passwd"; str "alice"])
     then passwd_line (str "alice") 1000 1001 (str "Alice A.,room 2") (str "/srv/home/alice") (str "/bin/bash") ++ [NL]
     else str "root:x:0:") [], None))) absent absent.
Lemma passwd_roundtrip_witness :
  exists info, (run alice_host tt (Get (str "alice"))).2 = Ok info /\ UID info = 1000%Z /\ GID info = 1001%Z /\
    Comment info = str "Alice A.,room 2" /\ HomeDir info = str "/srv/home/alice" /\ Shell info = str "/bin/bash".
Proof.
  apply (passwd_roundtrip alice_host tt tt (str "alice") 1000 1001 (str "Alice A.,room 2")
    (str "/srv/home/alice") (str "/bin/bas") "h"%char [] [] []); solve [by_eval | unfold int_max; lia].
Defined.

(** ** Locking and unlocking

    What the manual pages of [usermod] and [getent] say of the password field of
    the shadow file: [-L] puts one "!" in front unless there is one, [-U] takes one
    away unless nothing would remain, [-p] sets the field, and [getent shadow]
    prints the entry. *)

Definition usermod (args : list gostring) : Command := MkCommand (str "usermod") args [] [] [] true.
Definition done_ : Result * option exec_error := (MkResult 0 [] [], None).

Class ShadowLaws {S} (h : handler S) (field : S -> gostring -> option gostring) : Prop := {
  sh_clean s n f : field s n = Some f -> ":"%char ∉ f;
  sh_read s n f : field s n = Some f ->
    exists aging, h _ s (CRun (MkCommand (str "getent") [str "shadow"; n] [] [] [] true) [])
      = (s, (MkResult 0 (n ++ str ":" ++ f ++ str ":" ++ aging ++ str ":" ++ [NL]) [], None));
  sh_lock s n f : field s n = Some f ->
    exists s', h _ s (CRun (usermod [str "-L"; n]) []) = (s', done_) /\
      field s' n = Some (if has_prefix f (str "!") then f else str "!" ++ f);
  sh_unlock s n r : field s n = Some (str "!" ++ r) -> r <> [] ->
    exists s', h _ s (CRun (usermod [str "-U"; n]) []) = (s', done_) /\ field s' n = Some r;
  sh_set s n v f : field s n = Some f -> ":"%char ∉ v ->
    exists s', h _ s (CRun (usermod [str "-p"; v; n]) []) = (s', done_) /\ field s' n = Some v
}.

Section Shadow.
Context {S} (h : handler S) (field : S -> gostring -> option gostring) `{!ShadowLaws h field}.

Lemma run_run_ s s' args : h _ s (CRun (usermod args) []) = (s', done_) ->
  run h s (run_ (str "usermod") args) = (s', None).
Proof. intros H. unfold run_, exec_, ask. cbn [bind run]. fold (usermod args). by rewrite H. Qed.

Lemma run_shadowPassword s n f :
  validateUsername n = Ok tt -> field s n = Some f -> run h s (shadowPassword n) = (s, Ok f).
Proof.
  intros (c & r & En & Hc & Hno)%validName_inv Hf. destruct (sh_read s n f Hf) as [aging Hr].
  unfold shadowPassword, exec_, bind_ok, ask. cbn [bind run]. rewrite Hr. cbn [bind run ExitCode Stdout Z.eqb negb orb].
  rewrite bool_decide_false by by rewrite En.
  assert (Ht : trim_space (n ++ str ":" ++ f ++ str ":" ++ aging ++ str ":" ++ [NL])
    = n ++ str ":" ++ f ++ str ":" ++ aging ++ str ":").
  { replace (n ++ str ":" ++ f ++ str ":" ++ aging ++ str ":" ++ [NL])
      with ((c :: (r ++ str ":" ++ f ++ str ":" ++ aging) ++ [":"%char]) ++ [NL])
      by (rewrite En, <-!app_comm_cons, <-!app_assoc; done).
    rewrite trim_line by done. rewrite En, <-!app_comm_cons, <-!app_assoc. done. }
  rewrite Ht. change (str ":") with [":"%char]. cbn [app].
  rewrite Paths.split_byte_app, Paths.split_byte_app by (done || by eapply sh_clean). done.
Qed.

Lemma run_Lock s n f :
  validateUsername n = Ok tt -> field s n = Some f ->
  exists s', run h s (Lock n) = (s', None) /\
    field s' n = Some (if has_prefix f (str "!") then f else str "!" ++ f).
Proof.
  intros Hn (s' & Hh & Hf')%(sh_lock s n f). exists s'. unfold Lock. rewrite Hn. cbn [check].
  split; [by apply run_run_|done].
Qed.

(** What [Unlock] leaves: an unlocked field as it is, "*" for a locked account
    without a password, and the field less one mark otherwise. *)
Definition unlocked (f : gostring) : gostring :=
  match f with
  | "!"%char :: r => if bool_decide (trim_left_set r (str "!") ∈ [[]; str "*"]) then str "*" else r
  | _ => f
  end.

Lemma run_Unlock s n f :
  validateUsername n = Ok tt -> field s n = Some f ->
  exists s', run h s (Unlock n) = (s', None) /\ field s' n = Some (unlocked f).
Proof.
  intros Hn Hf. unfold Unlock. rewrite Hn. cbn [check]. rewrite run_bind, run_shadowPassword with (f := f) by done.
  cbn [fst snd]. destruct (has_prefix f (str "!")) eqn:Hp; cbn [negb].
  - apply has_prefix_spec in Hp as [r ->]. cbv zeta. change (str "!" ++ r) with ("!"%char :: r).
    cbn [trim_left_set]. change (bool_decide ("!"%char ∈ str "!")) with true. cbn [unlocked].
    set (t := trim_left_set r (str "!")).
    replace (bool_decide (t = []) || bool_decide (t = str "*")) with (bool_decide (t ∈ [[]; str "*"]))
      by (rewrite <-bool_decide_or; apply bool_decide_ext; set_solver).
    case_bool_decide as Ht.
    + destruct (sh_set s n (str "*") _ Hf) as (s' & Hh & Hf'); [by apply (bool_decide_unpack _)|]. exists s'. split; [by apply run_run_|done].
    + assert (r <> []) by (intros ->; apply Ht; set_solver).
      destruct (sh_unlock s n r Hf) as (s' & Hh & Hf'); [done|]. exists s'. split; [by apply run_run_|done].
  - exists s. split; [done|]. rewrite Hf. f_equal. destruct f as [|a f]; [done|].
    destruct (decide (a = "!"%char)) as [->|Hne]; [done|]. cbn [unlocked].
    by destruct a as [[] [] [] [] [] [] [] []].
Qed.
End Shadow.

(** Locking an unlocked account and unlocking it again restores its password
    field, except that an empty one comes back as "*": no sequence of the two leaves
    an account that logs in without a password. *)
Theorem lock_unlock_roundtrip {S} (h : handler S) field `{!ShadowLaws h field} s n f :
  validateUsername n = Ok tt -> field s n = Some f -> has_prefix f (str "!") = false ->
  exists s1 s2, run h s (Lock n) = (s1, None) /\ run h s1 (Unlock n) = (s2, None) /\
    field s2 n = Some (if bool_decide (f = []) then str "*" else f).
Proof.
  intros Hn Hf Hp. destruct (run_Lock h field s n f Hn Hf) as (s1 & H1 & Hf1). rewrite Hp in Hf1.
  destruct (run_Unlock h field s1 n _ Hn Hf1) as (s2 & H2 & Hf2). exists s1, s2.
  split; [done|]. split; [done|]. rewrite Hf2. f_equal. destruct f as [|a f]; [done|].
  change (str "!" ++ a :: f) with ("!"%char :: a :: f). cbn [unlocked trim_left_set].
  assert (Ha : a <> "!"%char) by (intros ->; done).
  rewrite (bool_decide_false (a ∈ str "!")) by (by intros ?%list_elem_of_singleton). rewrite (bool_decide_false (a :: f = [])) by done.
  case_bool_decide as Hi; [|done]. by apply list_elem_of_In in Hi as [?|[?|[]]].
Qed.
(** A host with one account, whose password field is the state. *)
Definition shadow_run (f : gostring) (c : Command) (_ : gostring)
    : gostring * (Result * option exec_error) :=
  if bool_decide (Name c = str "usermod") then
    match Args c with
    | [flag; _] =>
        if bool_decide (flag = str "-L") then (if has_prefix f (str "!") then f else str "!" ++ f, done_)
        else (match f with _ :: (_ :: _) as r => tail f | _ => f end, done_)
    | [_; v; _] => (v, done_)
    | _ => (f, done_)
    end
  else match Args c with
       | [_; n] => (f, (MkResult 0 (n ++ str ":" ++ f ++ str ":" ++ str "19000:0:99999:7::" ++ str ":" ++ [NL]) [], None))
       | _ => (f, done_)
       end.
Definition shadow_host : handler gostring := command_host shadow_run absent absent.
Definition shadow_field (f n : gostring) : option gostring :=
  if bool_decide (":"%char ∈ f) then None else Some f.

#[export] Instance shadow_host_laws : ShadowLaws shadow_host shadow_field.
Proof.
  assert (Hin : forall s n f, shadow_field s n = Some f <-> s = f /\ ":"%char ∉ f).
  { intros s n f. unfold shadow_field. case_bool_decide; naive_solver. }
  split; intros s n; setoid_rewrite Hin.
  - naive_solver.
  - intros f [-> _]. exists (str "19000:0:99999:7::"). reflexivity.
  - intros f [-> Hf]. eexists. split; [reflexivity|]. split; [done|]. case_match; [done|].
    apply not_elem_of_app. split; [by apply (bool_decide_unpack _)|done].
  - intros r [-> Hr] Hne. destruct r as [|a r]; [done|]. eexists. split; [reflexivity|].
    split; [done|]. intros ?. apply Hr. by right.
  - intros v f [-> Hf] Hv. by eexists.
Qed.

Lemma lock_unlock_roundtrip_witness :
  exists s1 s2, run shadow_host (str "$6$salt$hash") (Lock (str "alice")) = (s1, None) /\
    run shadow_host s1 (Unlock (str "alice")) = (s2, None) /\
    shadow_field s2 (str "alice") = Some (str "$6$salt$hash").
Proof.
  apply (lock_unlock_roundtrip shadow_host shadow_field (str "$6$salt$hash") (str "alice")
    (str "$6$salt$hash")); by_eval.
Defined.

(** An account locked twice over, as [passwd -l] of some distributions does, is
    still locked after an [Unlock] that succeeds. *)
Lemma unlock_strips_one_mark :
  run shadow_host (str "!!$6$salt$hash") (Unlock (str "alice")) = (str "!$6$salt$hash", None).
Proof. by_eval. Qed.

(** ** Passwords *)

Lemma draw_spec (randInt : nat -> nat -> option nat) cs i n buf :
  (forall i m k, randInt i m = Some k -> k < m) -> draw randInt cs i n = Some buf ->
  length buf = n /\ Forall (fun c => c ∈ cs) buf.
Proof.
  intros Hr. revert i buf. induction n as [|n IH]; intros i buf; cbn [draw]; [by intros [= <-]|].
  destruct (randInt i (length cs)) as [k|] eqn:Hk; [|done]. cbn [mbind option_bind].
  destruct (draw randInt cs (S i) n) as [rest|] eqn:Hd; [|done]. cbn [mbind option_bind].
  intros [= <-]. apply IH in Hd as [Hl Hf]. split; [by simpl; rewrite Hl|]. constructor; [|done].
  apply list_elem_of_In, nth_In. by eapply Hr.
Qed.

Lemma charset_one_line c : Forall (fun b => b ∉ [NL; ascii_of_nat 13]) (charset c).
Proof. destruct c; apply (bool_decide_unpack _); by_eval. Qed.

Lemma NewSecret_drawn c buf : Forall (fun b => b ∈ charset c) buf -> NewSecret buf = Some (MkSecret buf).
Proof.
  intros H. unfold NewSecret, contains_any. destruct (existsb _ buf) eqn:E; [|done].
  apply existsb_exists in E as (b & Hb & Hbad%bool_decide_eq_true). apply list_elem_of_In in Hb.
  rewrite list.Forall_forall in H. apply H in Hb. pose proof (charset_one_line c) as Hc.
  rewrite list.Forall_forall in Hc. by apply Hc in Hb.
Qed.

(** A generated password has exactly the requested length and only bytes of its
    character set; it is refused only for a length outside 8 to 128 or when the
    random source fails, never for its content. *)
Theorem GeneratePassword_spec (randInt : nat -> nat -> option nat) n c :
  (forall i m k, randInt i m = Some k -> k < m) ->
  match GeneratePassword randInt n c with
  | Ok pw => (8 <= n <= 128)%Z /\ Z.of_nat (length (Reveal pw)) = n /\
             Forall (fun b => b ∈ charset c) (Reveal pw) /\ HasNewline pw = false
  | Err e => (e = TooShort /\ n < 8)%Z \/ (e = TooLong /\ 128 < n)%Z \/
             (e = RandFailed /\ exists i, i < Z.to_nat n /\ randInt i (length (charset c)) = None)
  end.
Proof.
  intros Hr. unfold GeneratePassword, MinPasswordLength, MaxPasswordLength.
  destruct (Z.ltb_spec n 8); [auto|]. destruct (Z.ltb_spec 128 n); [auto|].
  destruct (draw randInt (charset c) 0 (Z.to_nat n)) as [buf|] eqn:Hd.
  - apply draw_spec in Hd as [Hl Hf]; [|done]. rewrite (NewSecret_drawn c) by done.
    apply NewSecret_drawn in Hf as Hs. apply NewSecret_line in Hs as (_ & Hn & _).
    split; [lia|]. split; [cbn; lia|]. by split.
  - right. right. split; [done|]. clear -Hd.
    assert (H : forall m i, draw randInt (charset c) i m = None ->
      exists j, j < i + m /\ randInt j (length (charset c)) = None).
    { induction m as [|m IH]; intros i; cbn [draw]; [done|].
      destruct (randInt i _) as [k|] eqn:Hk; [|intros _; exists i; split; [lia|done]].
      cbn [mbind option_bind]. destruct (draw randInt (charset c) (S i) m) eqn:E; [done|].
      intros _. apply IH in E as (j & ? & ?). exists j. split; [lia|done]. }
    by apply H in Hd.
Qed.

Lemma GeneratePassword_spec_witness :
  match GeneratePassword (fun i m => if m =? 0 then None else Some (i * 7 mod m)) 12 ComplexityComplex with
  | Ok pw => (8 <= 12 <= 128)%Z /\ Z.of_nat (length (Reveal pw)) = 12%Z /\
             Forall (fun b => b ∈ charset ComplexityComplex) (Reveal pw) /\ HasNewline pw = false
  | Err e => False
  end.
Proof.
  assert (Hr : forall i m k, (fun i m => if m =? 0 then None else Some (i * 7 mod m)) i m = Some k -> k < m).
  { intros i m k. cbv beta. destruct (Nat.eqb_spec m 0); [done|]. intros [= <-]. by apply Nat.mod_upper_bound. }
  exact (GeneratePassword_spec _ 12 ComplexityComplex Hr).
Defined.
(** [chpasswd] reads one record a line: a password that fits one line is one
    record, that of the named account. *)
Lemma SetPassword_one_record name v pw :
  validateUsername name = Ok tt -> NewSecret v = Some pw ->
  split_byte (name ++ str ":" ++ Reveal pw) NL = [name ++ str ":" ++ v] /\
  cut (name ++ str ":" ++ Reveal pw) ":"%char = Some (name, v).
Proof.
  intros Hn Hv. assert (HNL : NL ∉ name).
  { unfold validateUsername, validateName in Hn. destruct (IsValidName name) eqn:E; [|done].
    destruct name as [|c r]; [done|]. cbn [IsValidName] in E. go_bool. apply not_elem_of_cons.
    split; [by intros <-|by eapply forallb_not_elem]. }
  apply validName_inv in Hn as (_ & _ & _ & _ & Hcol).
  unfold NewSecret in Hv. destruct (contains_any v _) eqn:E; [done|]. injection Hv as <-. cbn [Reveal secret_v].
  split; [|by apply cut_app]. apply Paths.split_byte_self. rewrite !not_elem_of_app. split_and!; [done| |].
  - by apply (bool_decide_unpack _).
  - intros Hin. assert (contains_any v [NL; ascii_of_nat 13] = true); [|congruence].
    apply existsb_exists. exists NL. split; [by apply list_elem_of_In|]. by apply bool_decide_eq_true; left.
Qed.

(** A multi-line secret is as many records as it has lines. *)
Lemma SetPassword_multiline :
  let pw := NewMultilineSecret (str "x" ++ NL :: str "root:owned") in
  exists c, commands quiet tt (SetPassword (str "alice") pw) = [(c, str "alice:x" ++ NL :: str "root:owned")].
Proof. eexists. by_eval. Qed.

(** ** Homes *)

(** The file operations that put something into a home. *)
Definition populates (q : request) : Prop :=
  match q with QFs (FsMkdir _ _ _ _ _) | QFs (FsCopyTree _ _) | QFs (FsWriteFile _ _ _ _ _) | QFs (FsRemove _) => True | _ => False end.
Definition leaves_files {A} (p : prog A) : Prop := wp (fun q => ~ populates q) p (fun _ => True).

Lemma leaves_asked {S A} (h : handler S) s (p : prog A) :
  leaves_files p -> Forall (fun q => ~ populates q) (asked h s p).
Proof. intros H. by apply (wp_run _ h s) in H as [H _]. Qed.

Lemma leaves_exec esc i name args : leaves_files (exec_ esc i name args).
Proof. split; [by intros []|]. by intros [r [e|]]. Qed.
Lemma leaves_query name args : leaves_files (query_ name args).
Proof. apply wp_bind_ok. eapply wp_mono; [|apply leaves_exec]. by intros [r|e] _. Qed.
Lemma leaves_shadow n : leaves_files (shadowPassword n).
Proof. apply wp_bind_ok. eapply wp_mono; [|apply leaves_exec]. by intros [r|e] _. Qed.

Lemma leaves_Get n : leaves_files (Get n).
Proof.
  unfold Get. destruct (validateUsername n); [|done]. cbn [checkq].
  apply wp_bind. eapply wp_mono; [|apply leaves_query]. intros [out|e] _; [|done].
  destruct (split_byte out _) as [|? [|? [|? [|? [|? [|? [|? ?]]]]]]]; try done.
  destruct (atoi _); [|done]. destruct (atoi _); [|done].
  apply wp_bind. eapply wp_mono; [|apply leaves_query]. intros g _. cbv zeta.
  apply wp_bind. eapply wp_mono; [|apply leaves_query]. intros [gs|e'] _; cbv iota beta;
    (apply wp_bind; eapply wp_mono; [|apply leaves_shadow]; by intros [?|?] _).
Qed.

Lemma leaves_owned {S} (h : handler S) s home name group mode :
  Forall (fun q => ~ populates q)
    (asked h s (fs_do (str "ensure home") (FsChownR home name group)
       (fs_do (str "ensure home") (FsChmod home mode) (Ret None)))).
Proof.
  apply leaves_asked. split; [by intros []|]. intros [e|]; [done|]. split; [by intros []|]. by intros [e|].
Qed.

Lemma asked_home_step {S A} (h : handler S) s (p : query A) k :
  asked h s (home_step p k) = asked h s p ++ asked h (run h s p).1
    (match (run h s p).2 with Ok a => k a | Err e => Ret (Some (EWrap (str "ensure home") e)) end).
Proof. unfold home_step. by rewrite asked_bind. Qed.

(** [EnsureHome] on an account whose home exists changes its owner and mode
    only: it makes, copies, writes and removes nothing. *)
Theorem EnsureHome_keeps_home {S} (h : handler S) s name opts info :
  (run h s (Get name)).2 = Ok info ->
  (forall s', (h _ s' (CFsExists (HomeDir info))).2 = Ok true) ->
  Forall (fun q => ~ populates q) (asked h s (EnsureHome name opts)).
Proof.
  intros Hg Hex. unfold EnsureHome. destruct (validateUsername name) eqn:Hn; [|constructor]. cbn [check].
  rewrite asked_home_step. apply list.Forall_app. split; [apply leaves_asked, leaves_Get|].
  rewrite Hg. cbv beta iota zeta. case_bool_decide; [constructor|]. rewrite asked_home_step.
  apply list.Forall_app. split.
  { apply leaves_asked. destruct (eh_Group opts); [|done]. unfold PrimaryGroup. rewrite Hn. apply leaves_query. }
  match goal with |- context [match snd ?r with Ok _ => _ | Err _ => _ end] => destruct (snd r) as [g|e] end;
    [|constructor]. cbv beta iota. rewrite asked_home_step. apply list.Forall_app.
  split; [apply leaves_asked; split; [by intros []|]; by intros [b|e]|].
  unfold fs_exists, ask. cbn [bind run].
  match goal with |- context [h ?X ?t (CFsExists ?p)] =>
    pose proof (Hex t) as He; destruct (h X t (CFsExists p)) as [t' r] end.
  cbn [snd] in He. subst r. cbn [run fst snd]. apply leaves_owned.
Qed.

Definition home_host : handler unit :=
  command_host (fun s c _ => (s, (MkResult 0
    (if bool_decide (Args c = [str "passwd"; str "alice"])
     then passwd_line (str "alice") 1000 1001 [] (str "/home/alice") (str "/bin/bash") ++ [NL]
     else str "alice:x:1001:") [], None))) (fun _ => Ok true) absent.
Lemma EnsureHome_keeps_home_witness :
  Forall (fun q => ~ populates q)
    (asked home_host tt (EnsureHome (str "alice") (MkEnsureHome [] [] 0%N))) /\
  rev (asked home_host tt (EnsureHome (str "alice") (MkEnsureHome [] [] 0%N))) !! 0
    = Some (QFs (FsChmod (str "/home/alice") 448)).
Proof.
  split.
  - eapply EnsureHome_keeps_home; [by_eval|]. by intros [].
  - by_eval.
Defined.

(** ** Memberships *)

(** [MembersMatch] decides that two lists have the same elements. *)
Lemma MembersMatch_spec a b : MembersMatch a b = true <-> (forall x, x ∈ a <-> x ∈ b).
Proof.
  unfold MembersMatch. rewrite andb_true_iff, Nat.eqb_eq, forallb_forall.
  split.
  - intros [Hl Hf]. assert (Hs : remove_dups a ⊆ remove_dups b).
    { intros x Hx. apply list_elem_of_In, Hf in Hx. by apply bool_decide_eq_true in Hx. }
    assert (Hp : remove_dups a ≡ₚ remove_dups b).
    { apply submseteq_length_Permutation; [|lia]. apply NoDup_submseteq; [apply NoDup_remove_dups|done]. }
    intros x. rewrite <-(elem_of_remove_dups a), <-(elem_of_remove_dups b). by rewrite Hp.
  - intros H. assert (Hp : remove_dups a ≡ₚ remove_dups b).
    { apply NoDup_Permutation; try apply NoDup_remove_dups. intros x. by rewrite !elem_of_remove_dups. }
    split; [by rewrite Hp|]. intros x Hx. apply bool_decide_eq_true. rewrite <-Hp. by apply list_elem_of_In.
Qed.

(** ** Facts about the validators *)

(** The world-writable roots that are themselves below another directory are
    accepted as homes; only what is directly below them is refused. *)
Lemma home_may_be_tmp_root :
  validateHomeDir (str "/var/tmp") = Ok tt /\ validateHomeDir (str "/dev/shm") = Ok tt /\
  validateHomeDir (str "/tmp/x/y") = Ok tt /\ validateHomeDir (str "/var/tmp/x") <> Ok tt.
Proof. repeat split; by_eval || by vm_compute. Qed.

(** When the lookup of the primary group fails, that group is listed among the
    supplementary ones, and the list is marked as known. *)
Definition no_group_host : handler unit :=
  command_host (fun s c _ => (s,
    (if bool_decide (Args c = [str "passwd"; str "alice"])
     then MkResult 0 (passwd_line (str "alice") 1000 1001 [] (str "/home/alice") (str "/bin/bash") ++ [NL]) []
     else if bool_decide (Name c = str "id") then MkResult 0 (str "staff wheel") []
     else MkResult 2 [] [], None))) absent absent.
Lemma Get_counts_primary_group :
  exists info, (run no_group_host tt (Get (str "alice"))).2 = Ok info /\
    Groups info = [str "staff"; str "wheel"] /\ GroupsKnown info = true.
Proof. eexists. split; [by_eval|]. by split. Qed.
End UserOps.
