(* ===== verification/Json.v ===== *)
(** * JSON text ([encoding/json])

    The part of Go's [encoding/json] the tool parsers use: [parse] reads a text into
    a tree, the [dec_*] combinators decode a tree into struct fields (a field that is
    absent or null keeps its zero value, keys match without regard to case, a value
    of another type is an error).  When a key occurs twice the last value counts, and invalid
    UTF-8 is read as U+FFFD.  [print] writes a tree back; [parse] inverts it on valid text. *)
From S2P Require Import Prelude HostProg Words.

Module Json.
Import HostProg.

Inductive json :=
| JNull
| JBool (b : bool)
| JNum (lit : gostring)
| JStr (s : gostring)
| JArr (l : list json)
| JObj (l : list (gostring * json)).

(** ** Lexing *)

Definition QUOTE : ascii := "034"%char.
Definition json_space (c : ascii) : bool := bool_decide (c ∈ [" "%char; TAB; NL; CR]).
Definition skip_ws (s : gostring) : gostring := (span json_space s).2.

(** [-? (0 | [1-9][0-9]* ) (\.[0-9]+)? ([eE][+-]?[0-9]+)?] *)
Definition lex_int (s : gostring) : option (gostring * gostring) :=
  match span1 is_digit s with
  | Some (ds, rest) =>
      if has_prefix ds (str "0") then Some (str "0", drop 1 s) else Some (ds, rest)
  | None => None
  end.
Definition lex_frac (s : gostring) : option (gostring * gostring) :=
  match s with
  | c :: s' =>
      if bool_decide (c = "."%char) then
        match span1 is_digit s' with
        | Some (ds, rest) => Some (c :: ds, rest)
        | None => None
        end
      else Some ([], s)
  | [] => Some ([], [])
  end.
Definition lex_sign (s : gostring) : gostring * gostring :=
  match s with
  | c :: s' => if bool_decide (c ∈ ["+"%char; "-"%char]) then ([c], s') else ([], s)
  | [] => ([], [])
  end.
Definition lex_exp (s : gostring) : option (gostring * gostring) :=
  match s with
  | c :: s' =>
      if bool_decide (c ∈ ["e"%char; "E"%char]) then
        let '(sg, s1) := lex_sign s' in
        match span1 is_digit s1 with
        | Some (ds, rest) => Some (c :: sg ++ ds, rest)
        | None => None
        end
      else Some ([], s)
  | [] => Some ([], [])
  end.
Definition lex_num (s : gostring) : option (gostring * gostring) :=
  let '(sg, s1) := if has_prefix s (str "-") then (str "-", drop 1 s) else ([], s) in
  match lex_int s1 with
  | None => None
  | Some (i, s2) =>
      match lex_frac s2 with
      | None => None
      | Some (f, s3) =>
          match lex_exp s3 with
          | None => None
          | Some (e, s4) => Some (sg ++ i ++ f ++ e, s4)
          end
      end
  end.

Definition hex_val (c : ascii) : option N :=
  if is_digit c then Some (byte_val c - 48)%N
  else if in_range "a"%char "f"%char c then Some (byte_val c - 87)%N
  else if in_range "A"%char "F"%char c then Some (byte_val c - 55)%N
  else None.
Definition hex4 (s : gostring) : option (N * gostring) :=
  match s with
  | a :: b :: c :: d :: rest =>
      match hex_val a, hex_val b, hex_val c, hex_val d with
      | Some a, Some b, Some c, Some d => Some (((a * 16 + b) * 16 + c) * 16 + d, rest)%N
      | _, _, _, _ => None
      end
  | _ => None
  end.
(** UTF-8 of a code point. *)
Definition utf8 (n : N) : gostring :=
  ascii_of_N <$>
  (if n <? 128 then [n]
   else if n <? 2048 then [192 + n / 64; 128 + n mod 64]
   else if n <? 65536 then [224 + n / 4096; 128 + n / 64 mod 64; 128 + n mod 64]
   else [240 + n / 262144; 128 + n / 4096 mod 64; 128 + n / 64 mod 64; 128 + n mod 64])%N.
Definition replacement : N := 65533.
Definition high_surrogate (n : N) : bool := ((55296 <=? n) && (n <? 56320))%N.
Definition low_surrogate (n : N) : bool := ((56320 <=? n) && (n <? 57344))%N.

(** A [\u] escape after its four digits: a surrogate pair is one code point, a
    lone surrogate is replaced. *)
Definition unescape_u (n : N) (rest : gostring) : gostring * gostring :=
  if high_surrogate n then
    match (if has_prefix rest (str "\u") then hex4 (drop 2 rest) else None) with
    | Some (m, rest') =>
        if low_surrogate m then (utf8 (65536 + (n - 55296) * 1024 + (m - 56320)), rest')
        else (utf8 replacement, rest)
    | None => (utf8 replacement, rest)
    end
  else if low_surrogate n then (utf8 replacement, rest)
  else (utf8 n, rest).

Definition escape (c : ascii) : option ascii :=
  if bool_decide (c ∈ [QUOTE; "\"%char; "/"%char]) then Some c
  else if bool_decide (c = "b"%char) then Some "008"%char
  else if bool_decide (c = "f"%char) then Some "012"%char
  else if bool_decide (c = "n"%char) then Some NL
  else if bool_decide (c = "r"%char) then Some CR
  else if bool_decide (c = "t"%char) then Some TAB
  else None.

(** The rest of a string after its opening quote. *)
Fixpoint lex_str (fuel : nat) (s : gostring) : option (gostring * gostring) :=
  match fuel with
  | 0 => None
  | S fuel' =>
      match s with
      | [] => None
      | c :: s' =>
          if bool_decide (c = QUOTE) then Some ([], s')
          else if (byte_val c <? 32)%N then None
          else if bool_decide (c = "\"%char) then
            match s' with
            | e :: s1 =>
                if bool_decide (e = "u"%char) then
                  match hex4 s1 with
                  | Some (n, s2) =>
                      let '(u, s3) := unescape_u n s2 in
                      match lex_str fuel' s3 with
                      | Some (t, rest) => Some (u ++ t, rest)
                      | None => None
                      end
                  | None => None
                  end
                else match escape e, lex_str fuel' s1 with
                     | Some b, Some (t, rest) => Some (b :: t, rest)
                     | _, _ => None
                     end
            | [] => None
            end
          else match lex_str fuel' s' with
               | Some (t, rest) => Some (c :: t, rest)
               | None => None
               end
      end
  end.

(** ** Parsing

    Every call consumes a byte or is followed by one that does, so twice the length
    of the text is fuel enough. *)

Definition keyword (s kw : gostring) (v : json) : option (json * gostring) :=
  if has_prefix s kw then Some (v, drop (length kw) s) else None.

(** What follows the byte [c], after white space. *)
Definition next (c : ascii) (s : gostring) : option gostring :=
  match skip_ws s with
  | d :: rest => if bool_decide (d = c) then Some rest else None
  | [] => None
  end.
Definition quoted (s : gostring) : option (gostring * gostring) :=
  match next QUOTE s with Some s' => lex_str (S (length s')) s' | None => None end.

Fixpoint value (fuel : nat) (s : gostring) : option (json * gostring) :=
  match fuel with
  | 0 => None
  | S fuel' =>
      match skip_ws s with
      | [] => None
      | c :: s' =>
          if bool_decide (c = QUOTE) then
            match quoted s with Some (t, rest) => Some (JStr t, rest) | None => None end
          else if bool_decide (c = "["%char) then
            match next "]"%char s' with
            | Some rest => Some (JArr [], rest)
            | None => match elements fuel' s' with Some (l, rest) => Some (JArr l, rest) | None => None end
            end
          else if bool_decide (c = "{"%char) then
            match next "}"%char s' with
            | Some rest => Some (JObj [], rest)
            | None => match members fuel' s' with Some (l, rest) => Some (JObj l, rest) | None => None end
            end
          else if bool_decide (c = "t"%char) then keyword (c :: s') (str "true") (JBool true)
          else if bool_decide (c = "f"%char) then keyword (c :: s') (str "false") (JBool false)
          else if bool_decide (c = "n"%char) then keyword (c :: s') (str "null") JNull
          else match lex_num (c :: s') with Some (lit, rest) => Some (JNum lit, rest) | None => None end
      end
  end
with elements (fuel : nat) (s : gostring) : option (list json * gostring) :=
  match fuel with
  | 0 => None
  | S fuel' =>
      match value fuel' s with
      | None => None
      | Some (v, rest) =>
          match next ","%char rest with
          | Some rest' => match elements fuel' rest' with
                          | Some (l, r) => Some (v :: l, r)
                          | None => None
                          end
          | None => match next "]"%char rest with Some rest' => Some ([v], rest') | None => None end
          end
      end
  end
with members (fuel : nat) (s : gostring) : option (list (gostring * json) * gostring) :=
  match fuel with
  | 0 => None
  | S fuel' =>
      match quoted s with
      | None => None
      | Some (k, rest) =>
          match next ":"%char rest with
          | None => None
          | Some rest1 =>
              match value fuel' rest1 with
              | None => None
              | Some (v, rest2) =>
                  match next ","%char rest2 with
                  | Some rest3 => match members fuel' rest3 with
                                  | Some (l, r) => Some ((k, v) :: l, r)
                                  | None => None
                                  end
                  | None => match next "}"%char rest2 with
                            | Some rest3 => Some ([(k, v)], rest3)
                            | None => None
                            end
                  end
              end
          end
      end
  end.

(** Invalid UTF-8 is read as U+FFFD, a rune for every byte that starts no encoding.  An escape
    stands for a whole encoding, so this may be done after the escapes are resolved. *)
Definition coerce_str (s : gostring) : gostring := concat (map utf8 (Runes.runes s)).
Fixpoint coerce (v : json) : json :=
  match v with
  | JStr s => JStr (coerce_str s)
  | JArr l => JArr (map coerce l)
  | JObj l => JObj (map (fun kv => (coerce_str kv.1, coerce kv.2)) l)
  | v => v
  end.

Definition parse (s : gostring) : option json :=
  match value (S (2 * length s)) s with
  | Some (v, rest) => match skip_ws rest with [] => Some (coerce v) | _ => None end
  | None => None
  end.

(** ** Decoding into fields *)

Definition fold_eq (a b : gostring) : bool := bool_decide (to_lower a = to_lower b).
Definition field (kvs : list (gostring * json)) (name : gostring) : option json :=
  match List.filter (fun kv => fold_eq kv.1 name) (rev kvs) with
  | kv :: _ => Some kv.2
  | [] => None
  end.

(** [None] is a value of the wrong type. *)
Definition dec_object (v : option json) : option (list (gostring * json)) :=
  match v with
  | None | Some JNull => Some []
  | Some (JObj kvs) => Some kvs
  | _ => None
  end.
Definition dec_str (v : option json) : option gostring :=
  match v with
  | None | Some JNull => Some []
  | Some (JStr s) => Some s
  | _ => None
  end.
Definition dec_bool (v : option json) : option bool :=
  match v with
  | None | Some JNull => Some false
  | Some (JBool b) => Some b
  | _ => None
  end.
Definition dec_int (v : option json) : option Z :=
  match v with
  | None | Some JNull => Some 0%Z
  | Some (JNum lit) => let '(z, ok) := parse_int64 lit in if ok then Some z else None
  | _ => None
  end.
Definition dec_ptr {A} (d : option json -> option A) (v : option json) : option (option A) :=
  match v with
  | None | Some JNull => Some None
  | Some w => match d (Some w) with Some a => Some (Some a) | None => None end
  end.
Definition dec_list {A} (d : option json -> option A) (v : option json) : option (list A) :=
  match v with
  | None | Some JNull => Some []
  | Some (JArr l) => mapM (fun w => d (Some w)) l
  | _ => None
  end.

(** ** Printing *)

Definition hex_byte (n : N) : ascii := ascii_of_N (if (n <? 10)%N then 48 + n else 87 + n)%N.
(** Quotes, backslashes and control bytes are escaped. *)
Definition escaped (c : ascii) : gostring :=
  if bool_decide (c ∈ [QUOTE; "\"%char]) then ["\"%char; c]
  else if (byte_val c <? 32)%N then str "\u00" ++ [hex_byte (byte_val c / 16); hex_byte (byte_val c mod 16)]
  else [c].
Definition escape_all (s : gostring) : gostring := concat (map escaped s).

Fixpoint print (v : json) : gostring :=
  match v with
  | JNull => str "null"
  | JBool b => if b then str "true" else str "false"
  | JNum lit => lit
  | JStr s => QUOTE :: escape_all s ++ [QUOTE]
  | JArr l => str "[" ++ join (map print l) (str ",") ++ str "]"
  | JObj l => str "{" ++ join (map (fun kv => QUOTE :: escape_all kv.1 ++ QUOTE :: ":"%char :: print kv.2) l) (str ",")
                ++ str "}"
  end.

(** An integer literal as [strconv.Itoa] writes it. *)
Definition int_lit (z : Z) : gostring :=
  if (z <? 0)%Z then str "-" ++ itoa (Z.to_nat (- z)) else itoa (Z.to_nat z).

Fixpoint printable (v : json) : Prop :=
  match v with
  | JNum lit => exists z, lit = int_lit z
  | JArr l => (fix all l := match l with [] => True | w :: l' => printable w /\ all l' end) l
  | JObj l => (fix all l := match l with
                            | [] => True
                            | kv :: l' => printable kv.2 /\ all l'
                            end) l
  | _ => True
  end.

(** Valid UTF-8, and a tree all of whose strings are. *)
Definition text (s : gostring) : Prop := coerce_str s = s.
Definition textual (v : json) : Prop := coerce v = v.

Example parse_coerces :
  parse (QUOTE :: str "a" ++ bytes [195] ++ str "b" ++ bytes [226; 130] ++ [QUOTE]) =
    Some (JStr (str "a" ++ bytes [239; 191; 189] ++ str "b" ++ bytes [239; 191; 189; 239; 191; 189])).
Proof. by_eval. Qed.

Example parse_demo :
  parse (str "{ " ++ QUOTE :: str "a" ++ QUOTE :: str ": [1, -2.5e3, null, true, " ++ QUOTE :: str "x\n\u00e9" ++
         QUOTE :: str "] }")
  = Some (JObj [(str "a", JArr [JNum (str "1"); JNum (str "-2.5e3"); JNull; JBool true;
            JStr (str "x" ++ NL :: bytes [195; 169])])]).
Proof. by_eval. Qed.

Example parse_rejects :
  parse (str "[1,]") = None /\ parse (str "01") = None /\ parse (str "{} x") = None /\ parse [] = None.
Proof. repeat split; by_eval. Qed.

(** ** Parsing inverts printing *)

(** Induction over trees, with the hypothesis for every child. *)
Section Induction.
Context (P : json -> Prop).
Context (Hnull : P JNull) (Hbool : forall b, P (JBool b)) (Hnum : forall l, P (JNum l)) (Hstr : forall s, P (JStr s)).
Context (Harr : forall l, Forall P l -> P (JArr l)).
Context (Hobj : forall l, Forall (fun kv => P kv.2) l -> P (JObj l)).
Fixpoint json_tree_ind (v : json) : P v :=
  match v with
  | JNull => Hnull
  | JBool b => Hbool b
  | JNum l => Hnum l
  | JStr s => Hstr s
  | JArr l => Harr l ((fix go l := match l return Forall P l with
                                   | [] => List.Forall_nil _
                                   | w :: l' => @List.Forall_cons _ P w l' (json_tree_ind w) (go l')
                                   end) l)
  | JObj l => Hobj l ((fix go l := match l return Forall (fun kv => P kv.2) l with
                                   | [] => List.Forall_nil _
                                   | kv :: l' => @List.Forall_cons _ (fun kv => P kv.2) kv l' (json_tree_ind kv.2) (go l')
                                   end) l)
  end.
End Induction.

Lemma printable_arr l : printable (JArr l) <-> Forall printable l.
Proof.
  split; [induction l as [|v l IH]; [constructor|intros [? ?]; constructor; auto]|].
  induction 1; [done|by split].
Qed.
Lemma printable_obj l : printable (JObj l) <-> Forall (fun kv => printable kv.2) l.
Proof.
  split; [induction l as [|v l IH]; [constructor|intros [? ?]; constructor; auto]|].
  induction 1; [done|by split].
Qed.

Lemma skip_ws_cons c s : json_space c = false -> skip_ws (c :: s) = c :: s.
Proof. intros H. unfold skip_ws. cbn [span]. by rewrite H. Qed.
Lemma next_hit c s : json_space c = false -> next c (c :: s) = Some s.
Proof. intros H. unfold next. rewrite skip_ws_cons by done. by rewrite bool_decide_true. Qed.
Lemma next_miss c d s : json_space d = false -> d <> c -> next c (d :: s) = None.
Proof. intros H Hne. unfold next. rewrite skip_ws_cons by done. by rewrite bool_decide_false. Qed.

Lemma lex_str_escaped c rest fuel :
  lex_str (S fuel) (escaped c ++ rest)
  = match lex_str fuel rest with Some (t, r) => Some (c :: t, r) | None => None end.
Proof. by destruct c as [[] [] [] [] [] [] [] []]. Qed.

Lemma escaped_length s : length s <= length (escape_all s).
Proof.
  induction s as [|c s IH]; [done|]. unfold escape_all in *. cbn [map concat]. rewrite length_app. cbn [length].
  assert (1 <= length (escaped c)) by (unfold escaped; repeat case_match; simpl; lia). lia.
Qed.

Lemma lex_str_all t rest fuel :
  length t < fuel -> lex_str fuel (escape_all t ++ QUOTE :: rest) = Some (t, rest).
Proof.
  revert fuel. induction t as [|c t IH]; intros [|fuel] Hf; try (simpl in Hf; lia).
  - cbn [escape_all map concat app lex_str]. by rewrite bool_decide_true.
  - change (escape_all (c :: t)) with (escaped c ++ escape_all t).
    rewrite <-app_assoc, lex_str_escaped, IH; [done|simpl in Hf; lia].
Qed.

Lemma quoted_all t rest : quoted (QUOTE :: escape_all t ++ QUOTE :: rest) = Some (t, rest).
Proof.
  unfold quoted. rewrite next_hit by done. apply lex_str_all.
  pose proof (escaped_length t). rewrite length_app. lia.
Qed.

(** A value is followed by the end, a separator or a bracket. *)
Definition follows (rest : gostring) : Prop :=
  match rest with [] => True | c :: _ => c ∈ [","%char; "]"%char; "}"%char] end.

Ltac separator := first [by left | by right; left | by right; right; left].

Lemma follows_inv rest :
  follows rest -> rest = [] \/ exists c t, rest = c :: t /\ json_space c = false /\ is_digit c = false /\
    c <> "."%char /\ bool_decide (c ∈ ["e"%char; "E"%char]) = false.
Proof.
  destruct rest as [|c t]; [by left|]. intros H. right. exists c, t. split; [done|].
  cbn [follows] in H. rewrite !elem_of_cons, elem_of_nil in H.
  destruct H as [->|[->|[->|[]]]]; by repeat split.
Qed.

Lemma span_digits ds rest :
  forallb is_digit ds = true -> match rest with [] => True | c :: _ => is_digit c = false end ->
  span is_digit (ds ++ rest) = (ds, rest).
Proof.
  intros Hd Hr. induction ds as [|c ds IH]; cbn [app].
  - destruct rest as [|c t]; [done|]. cbn [span]. by rewrite Hr.
  - cbn [forallb] in Hd. apply andb_true_iff in Hd as [Hc Hd]. cbn [span]. rewrite Hc, IH by done. done.
Qed.

(** [Itoa] writes no leading zero. *)
Lemma itoa_zero n : has_prefix (itoa n) (str "0") = true -> n = 0.
Proof.
  intros H. destruct (decide (n = 0)) as [|Hn]; [done|]. exfalso.
  assert (Hg : forall fuel n, 0 < n -> n < fuel -> exists c t, itoa_aux fuel n [] = c :: t /\ c <> "0"%char).
  { induction fuel as [|fuel IH]; intros m Hm Hlt; [lia|]. rewrite itoa_aux_S.
    destruct (m <? 10) eqn:E.
    - apply Nat.ltb_lt in E. exists (digit_byte (m mod 10)), []. split; [done|]. intros Hz.
      rewrite Nat.mod_small in Hz by done. apply (f_equal nat_of_ascii) in Hz.
      rewrite nat_of_digit_byte in Hz by done. change (nat_of_ascii "0") with 48 in Hz. lia.
    - apply Nat.ltb_ge in E. rewrite itoa_aux_acc.
      destruct (IH (m / 10)) as (c & t & -> & Hc).
      + apply Nat.div_str_pos. lia.
      + apply Nat.lt_le_trans with m; [apply Nat.div_lt; lia|lia].
      + exists c, (t ++ [digit_byte (m mod 10)]). by split. }
  destruct (Hg (S n) n) as (c & t & Hi & Hc); [lia|lia|]. unfold itoa in H. rewrite Hi in H.
  apply has_prefix_spec in H as [u Hu]. by injection Hu.
Qed.

Lemma lex_num_int z rest : follows rest -> lex_num (int_lit z ++ rest) = Some (int_lit z, rest).
Proof.
  intros Hf. assert (Hr : match rest with [] => True | c :: _ => is_digit c = false end).
  { apply follows_inv in Hf as [->|(c & t & -> & _ & H & _)]; done. }
  assert (Hi : forall n, lex_int (itoa n ++ rest) = Some (itoa n, rest)).
  { intros n. unfold lex_int, span1. rewrite span_digits by (done || apply itoa_digits).
    destruct (itoa n) as [|c t] eqn:E; [by apply itoa_nonempty in E|]. rewrite <-E.
    destruct (has_prefix (itoa n) (str "0")) eqn:Hz; [|by rewrite E].
    apply itoa_zero in Hz as ->. done. }
  assert (Ht : lex_frac rest = Some ([], rest) /\ lex_exp rest = Some ([], rest)).
  { apply follows_inv in Hf as [->|(c & t & -> & _ & _ & Hd & He)]; [done|]. unfold lex_frac, lex_exp.
    by rewrite bool_decide_false, He. }
  destruct Ht as [Hfr Hex]. unfold lex_num, int_lit. destruct (z <? 0)%Z.
  - rewrite <-app_assoc, has_prefix_app. change (drop 1 (str "-" ++ itoa (Z.to_nat (- z)) ++ rest))
      with (itoa (Z.to_nat (- z)) ++ rest). rewrite Hi, Hfr, Hex. by rewrite app_nil_r.
  - replace (has_prefix (itoa (Z.to_nat z) ++ rest) (str "-")) with false.
    + rewrite Hi, Hfr, Hex. by rewrite app_nil_r.
    + symmetry. apply not_true_iff_false. intros [u Hu]%has_prefix_spec.
      pose proof (itoa_digits (Z.to_nat z)) as Hd.
      destruct (itoa (Z.to_nat z)) as [|c t] eqn:E; [by apply itoa_nonempty in E|].
      injection Hu as -> _. done.
Qed.
Lemma int_lit_head z : exists c t, int_lit z = c :: t /\ is_digit c || bool_decide (c = "-"%char) = true.
Proof.
  unfold int_lit. destruct (z <? 0)%Z; [by eexists _, _|].
  pose proof (itoa_digits (Z.to_nat z)) as Hd.
  destruct (itoa (Z.to_nat z)) as [|c t] eqn:E; [by apply itoa_nonempty in E|].
  cbn [forallb] in Hd. apply andb_true_iff in Hd as [Hc _]. exists c, t. by rewrite Hc.
Qed.

Definition opens (c : ascii) : bool :=
  is_digit c || bool_decide (c ∈ ["-"%char; QUOTE; "["%char; "{"%char; "t"%char; "f"%char; "n"%char]).
Lemma opens_spec c : opens c = true -> json_space c = false /\ c <> "]"%char /\ c <> "}"%char.
Proof. by destruct c as [[] [] [] [] [] [] [] []]. Qed.

Lemma print_head v : printable v -> exists c t, print v = c :: t /\ opens c = true.
Proof.
  destruct v as [|[]|lit|t|l|l]; intros Hp; try by eexists _, _.
  destruct Hp as [z ->]. destruct (int_lit_head z) as (c & t & Hc & Ho). exists c, t. split; [done|].
  unfold opens. apply orb_true_iff in Ho as [Ho|Ho]; rewrite ?Ho; [done|].
  apply bool_decide_eq_true in Ho as ->. by apply orb_true_r.
Qed.

Lemma number_dispatch c :
  is_digit c || bool_decide (c = "-"%char) = true ->
  json_space c = false /\ c <> QUOTE /\ c <> "["%char /\ c <> "{"%char /\ c <> "t"%char /\ c <> "f"%char /\ c <> "n"%char.
Proof. by destruct c as [[] [] [] [] [] [] [] []]. Qed.

Definition reads (v : json) : Prop :=
  forall fuel rest, follows rest -> 2 * length (print v) <= fuel -> value fuel (print v ++ rest) = Some (v, rest).

Lemma reads_num z : reads (JNum (int_lit z)).
Proof.
  intros [|fuel] rest Hf Hl; cbn [print] in *; destruct (int_lit_head z) as (c & t & Hc & Ho);
    [rewrite Hc in Hl; simpl in Hl; lia|].
  cbn [value]. rewrite Hc. cbn [app]. apply number_dispatch in Ho as (Hs & Hd).
  rewrite skip_ws_cons by done. rewrite !bool_decide_false by tauto.
  change (c :: t ++ rest) with ((c :: t) ++ rest). rewrite <-Hc, lex_num_int by done. done.
Qed.

Lemma reads_str t : reads (JStr t).
Proof.
  intros [|fuel] rest Hf Hl; [simpl in Hl; lia|]. cbn [print value app].
  rewrite skip_ws_cons by done. rewrite bool_decide_true by done.
  rewrite <-app_assoc. cbn [app]. by rewrite quoted_all.
Qed.

Lemma elements_print l rest fuel :
  l <> [] -> Forall printable l -> Forall reads l ->
  2 * length (join (map print l) (str ",") ++ str "]") <= fuel ->
  elements fuel (join (map print l) (str ",") ++ str "]" ++ rest) = Some (l, rest).
Proof.
  intros Hne Hp Hr. revert fuel. induction l as [|v l IH]; [done|]. intros fuel Hl.
  apply list.Forall_cons in Hp as [Hpv Hp]. apply list.Forall_cons in Hr as [Hrv Hr].
  destruct fuel as [|fuel]; [rewrite length_app in Hl; simpl in Hl; lia|].
  destruct l as [|w l].
  - cbn [map join elements] in *. rewrite length_app in Hl. simpl in Hl. rewrite Hrv; [|separator|lia].
    cbn [app]. change (str "]" ++ rest) with ("]"%char :: rest).
    rewrite next_miss, next_hit by done. done.
  - assert (E : forall u : gostring, join (map print (v :: w :: l)) (str ",") ++ u
      = print v ++ ","%char :: (join (map print (w :: l)) (str ",") ++ u)).
    { intros u. cbn [map join]. by rewrite <-!app_assoc. }
    rewrite E in Hl |- *. rewrite !length_app in Hl. cbn [length] in Hl. cbn [elements].
    rewrite Hrv; [|separator|lia]. rewrite next_hit by done. rewrite IH; [done|done|done|done|].
    rewrite length_app in Hl |- *. lia.
Qed.

Lemma members_print l rest fuel :
  l <> [] -> Forall (fun kv => printable kv.2) l -> Forall (fun kv => reads kv.2) l ->
  2 * length (join (map (fun kv => QUOTE :: escape_all kv.1 ++ QUOTE :: ":"%char :: print kv.2) l) (str ",") ++ str "}") <= fuel ->
  members fuel (join (map (fun kv => QUOTE :: escape_all kv.1 ++ QUOTE :: ":"%char :: print kv.2) l) (str ",") ++ str "}" ++ rest)
    = Some (l, rest).
Proof.
  intros Hne Hp Hr. revert fuel. induction l as [|[k v] l IH]; [done|]. intros fuel Hl.
  apply list.Forall_cons in Hp as [Hpv Hp]. apply list.Forall_cons in Hr as [Hrv Hr]. cbn [fst snd] in *.
  destruct fuel as [|fuel]; [rewrite length_app in Hl; simpl in Hl; lia|].
  set (entry := fun kv : gostring * json => QUOTE :: escape_all kv.1 ++ QUOTE :: ":"%char :: print kv.2) in *.
  assert (E1 : forall u : gostring, entry (k, v) ++ u = QUOTE :: escape_all k ++ QUOTE :: ":"%char :: (print v ++ u)).
  { intros u. unfold entry. cbn [fst snd app]. by rewrite <-app_assoc. }
  destruct l as [|w l].
  - cbn [map join] in *. rewrite E1 in Hl |- *. cbn [length] in Hl. rewrite length_app in Hl. cbn [length] in Hl.
    rewrite length_app in Hl. cbn [members]. rewrite quoted_all, next_hit by done.
    rewrite Hrv; [|separator|lia]. change (str "}" ++ rest) with ("}"%char :: rest).
    rewrite next_miss, next_hit by done. done.
  - assert (E : forall u : gostring, join (map entry ((k, v) :: w :: l)) (str ",") ++ u
      = entry (k, v) ++ ","%char :: (join (map entry (w :: l)) (str ",") ++ u)).
    { intros u. cbn [map join]. by rewrite <-!app_assoc. }
    rewrite E, E1 in Hl |- *. cbn [length] in Hl. rewrite length_app in Hl. cbn [length] in Hl.
    rewrite !length_app in Hl. cbn [length] in Hl. rewrite length_app in Hl. cbn [members]. rewrite quoted_all, next_hit by done.
    rewrite Hrv; [|separator|lia]. rewrite next_hit by done. rewrite IH; [done|done|done|done|].
    rewrite length_app. lia.
Qed.

Lemma object_print l rest fuel :
  Forall (fun kv => printable kv.2) l -> Forall (fun kv => reads kv.2) l -> 2 * length (print (JObj l)) <= fuel ->
  value fuel (print (JObj l) ++ rest) = Some (JObj l, rest).
Proof.
  intros Hp Hr Hl. destruct fuel as [|fuel]; cbn [print] in *; [rewrite !length_app in Hl; simpl in Hl; lia|].
  destruct l as [|kv l]; [done|].
  rewrite <-!app_assoc. cbn [value]. change (str "{" ++ ?x) with ("{"%char :: x).
  rewrite skip_ws_cons by done. rewrite !bool_decide_false, bool_decide_true by done.
  match goal with |- context [next "}"%char ?x] => replace (next "}"%char x) with (@None gostring)
    by (destruct l; cbn [map join app]; by rewrite next_miss) end.
  rewrite members_print; [done|done|done|done|]. rewrite !length_app in *. simpl in *. lia.
Qed.

Lemma value_print v : printable v -> reads v.
Proof.
  induction v as [|b|lit|t|l IH|l IH] using json_tree_ind; intros Hp.
  - intros [|fuel] rest Hf Hl; [simpl in Hl; lia|]. done.
  - intros [|fuel] rest Hf Hl; [destruct b; simpl in Hl; lia|]. by destruct b.
  - destruct Hp as [z ->]. apply reads_num.
  - apply reads_str.
  - apply printable_arr in Hp. intros [|fuel] rest Hf Hl; cbn [print] in *;
      [rewrite !length_app in Hl; simpl in Hl; lia|].
    destruct l as [|v l]; [done|].
    assert (Hr : Forall reads (v :: l)).
    { clear -IH Hp. induction IH; [constructor|]. apply list.Forall_cons in Hp as [? ?]. constructor; auto. }
    rewrite <-!app_assoc. cbn [value]. change (str "[" ++ ?x) with ("["%char :: x).
    rewrite skip_ws_cons by done. rewrite bool_decide_false, bool_decide_true by done.
    assert (Hn : next "]"%char (join (map print (v :: l)) (str ",") ++ str "]" ++ rest) = None).
    { apply list.Forall_cons in Hp as [Hv _]. destruct (print_head v Hv) as (c & t & Hc & Ho).
      apply opens_spec in Ho as (? & ? & _).
      destruct l; cbn [map join]; rewrite Hc; cbn [app]; by apply next_miss. }
    rewrite Hn, elements_print; [done|done|done|done|]. rewrite !length_app in *. simpl in *. lia.
  - apply printable_obj in Hp. intros fuel rest _ Hl. apply object_print; [done| |done].
    clear -IH Hp. induction IH; [constructor|]. apply list.Forall_cons in Hp as [? ?]. constructor; auto.
Qed.

(** *** Text *)

Lemma utf8_ascii n : (n < 128)%N -> utf8 n = [ascii_of_N n].
Proof. intros H. unfold utf8. by rewrite (proj2 (N.ltb_lt _ _) H). Qed.
Lemma text_ascii s : forallb (fun c => (byte_val c <? 128)%N) s = true -> text s.
Proof.
  unfold text, coerce_str, Runes.runes. induction s as [|c s IH]; [done|]. cbn [forallb length Runes.runes_from]. intros [Hc Hs]%andb_prop.
  unfold Runes.decode. rewrite Hc. cbn [map concat]. rewrite utf8_ascii by (by apply N.ltb_lt). rewrite IH by done. cbn [app].
  f_equal. unfold byte_val. apply ascii_N_embedding.
Qed.
Lemma word_text w : forallb Words.visible w = true -> text w.
Proof.
  intros H. apply text_ascii, forallb_forall. intros c Hc. rewrite forallb_forall in H. specialize (H c Hc).
  revert H. clear. by destruct c as [[] [] [] [] [] [] [] []].
Qed.
Lemma digit_ascii c : is_digit c = true -> (byte_val c <? 128)%N = true.
Proof. by destruct c as [[] [] [] [] [] [] [] []]. Qed.
Lemma textual_str s : text s -> textual (JStr s).
Proof. unfold textual. cbn [coerce]. by intros ->. Qed.
Lemma textual_arr l : Forall textual l -> textual (JArr l).
Proof. intros H. unfold textual. cbn [coerce]. f_equal. induction H as [|v l Hv H IH]; [done|]. cbn [map]. by rewrite Hv, IH. Qed.
Lemma textual_obj l : Forall (fun kv => text kv.1 /\ textual kv.2) l -> textual (JObj l).
Proof.
  intros H. unfold textual. cbn [coerce]. f_equal. induction H as [|[k v] l [Hk Hv] H IH]; [done|]. cbn [map fst snd] in *. by rewrite Hk, Hv, IH.
Qed.

(** [parse] reads back every tree that [print] writes, with its text made valid. *)
Lemma parse_print_coerce v : printable v -> parse (print v) = Some (coerce v).
Proof.
  intros Hp. unfold parse. rewrite <-(app_nil_r (print v)) at 2.
  by rewrite (value_print v Hp); [|done|lia].
Qed.
Lemma parse_print v : printable v -> textual v -> parse (print v) = Some v.
Proof. intros Hp Ht. by rewrite parse_print_coerce, Ht. Qed.

(** An object may be followed by anything, a newline by nothing but white space. *)
Lemma parse_print_line l : printable (JObj l) -> textual (JObj l) -> parse (print (JObj l) ++ [NL]) = Some (JObj l).
Proof.
  intros Hp%printable_obj Ht. unfold parse. rewrite object_print; [by rewrite Ht|done| |rewrite length_app; lia].
  eapply list.Forall_impl; [exact Hp|]. intros kv. apply value_print.
Qed.

(** ** Integers *)

Lemma int_lit_nonneg z : (0 <= z)%Z -> int_lit z = itoa (Z.to_nat z).
Proof. intros H. unfold int_lit. destruct (Z.ltb_spec z 0); [lia|done]. Qed.
Lemma dec_int_lit z : (0 <= z <= int_max)%Z -> dec_int (Some (JNum (int_lit z))) = Some z.
Proof.
  intros H. cbn [dec_int]. rewrite int_lit_nonneg by lia.
  rewrite Words.parse_int64_itoa by (rewrite Z2Nat.id; lia). by rewrite Z2Nat.id by lia.
Qed.
(** Numbers are digits and a sign. *)
Lemma int_lit_avoids c z : is_digit c = false -> c <> "-"%char -> c ∉ int_lit z.
Proof.
  intros Hd Hm. assert (H : forall n, c ∉ itoa n) by (intros n; by eapply forallb_not_elem; [apply itoa_digits|]).
  unfold int_lit. destruct (z <? 0)%Z; [|done]. apply not_elem_of_app. split; [|done].
  change (str "-") with ["-"%char]. by rewrite list_elem_of_singleton.
Qed.
End Json.
