(* ===== verification/Net.v ===== *)
(** * Address text ([net.ParseIP], [net.ParseCIDR])

    The address parsers of Go's [net] package, as the firewall, DNS and network
    packages call them.  An address is its eight 16-bit groups; an IPv4 address is
    held in its IPv4-mapped form, as [net.IP] holds it. *)
From S2P Require Import Prelude Paths HostProg Words.

Module Net.
Import HostProg Words.

(** ** Parsing *)

(** A decimal octet: no leading zero, at most 255. *)
Definition octet (s : gostring) : option N :=
  match s with
  | [] => None
  | c :: t =>
      if negb (forallb is_digit s) then None
      else if bool_decide (c = "0"%char) && negb (bool_decide (t = [])) then None
      else let v := Z.to_N (digits_val s) in if (v <=? 255)%N then Some v else None
  end.

(** The two groups of a dotted quad. *)
Definition parseIPv4 (s : gostring) : option (list N) :=
  match split_byte s "."%char with
  | [a; b; c; d] =>
      match octet a, octet b, octet c, octet d with
      | Some a, Some b, Some c, Some d => Some [a * 256 + b; c * 256 + d]%N
      | _, _, _, _ => None
      end
  | _ => None
  end.

Definition is_hex (c : ascii) : bool :=
  is_digit c || in_range "a"%char "f"%char c || in_range "A"%char "F"%char c.
Definition hex_digit_val (c : ascii) : N :=
  if is_digit c then byte_val c - 48
  else if in_range "a"%char "f"%char c then byte_val c - 87 else byte_val c - 55.
Definition hex_value (s : gostring) : N := foldl (fun v c => v * 16 + hex_digit_val c)%N 0%N s.

(** The loop of [parseIPv6]: at most eight groups, one ellipsis, an IPv4 tail in
    the last two groups. *)
Fixpoint groups6 (fuel : nat) (acc : list N) (ellipsis : option nat) (s : gostring)
    : option (list N * option nat) :=
  match fuel with
  | 0 => None
  | S fuel' =>
      let '(hex, rest) := span is_hex s in
      if bool_decide (hex = []) || (4 <? length hex) then None
      else
        let acc' := acc ++ [hex_value hex] in
        match rest with
        | [] => Some (acc', ellipsis)
        | c :: r =>
            if bool_decide (c = "."%char) then
              if bool_decide (ellipsis = None) && negb (length acc =? 6) then None
              else if 8 <? length acc + 2 then None
              else match parseIPv4 s with
                   | Some v4 => Some (acc ++ v4, ellipsis)
                   | None => None
                   end
            else if negb (bool_decide (c = ":"%char)) then None
            else match r with
                 | [] => None
                 | c' :: r' =>
                     if bool_decide (c' = ":"%char) then
                       match ellipsis with
                       | Some _ => None
                       | None =>
                           match r' with
                           | [] => Some (acc', Some (length acc'))
                           | _ => groups6 fuel' acc' (Some (length acc')) r'
                           end
                       end
                     else groups6 fuel' acc' ellipsis r
                 end
        end
  end.

Definition expand (r : list N * option nat) : option (list N) :=
  let '(gs, ellipsis) := r in
  if length gs <? 8 then
    match ellipsis with
    | Some e => Some (take e gs ++ replicate (8 - length gs) 0%N ++ drop e gs)
    | None => None
    end
  else match ellipsis with Some _ => None | None => Some gs end.

Definition parseIPv6 (s : gostring) : option (list N) :=
  if has_prefix s (str "::") then
    match drop 2 s with
    | [] => Some (replicate 8 0%N)
    | s' => r ← groups6 8 [] (Some 0) s'; expand r
    end
  else r ← groups6 8 [] None s; expand r.

Definition mapped (v4 : list N) : list N := replicate 5 0%N ++ [65535%N] ++ v4.

(** [netip.ParseAddr] without a zone: whether the text is dotted, and the groups.
    The first dot or colon decides the family. *)
Fixpoint first_sep (s : gostring) : option ascii :=
  match s with
  | [] => None
  | c :: s' => if bool_decide (c ∈ ["."%char; ":"%char; "%"%char]) then Some c else first_sep s'
  end.
Definition ParseAddr (s : gostring) : option (bool * list N) :=
  if bool_decide ("%"%char ∈ s) then None
  else match first_sep s with
       | Some c => if bool_decide (c = "."%char)
                   then (v4 ← parseIPv4 s; Some (true, mapped v4))
                   else (v6 ← parseIPv6 s; Some (false, v6))
       | None => None
       end.

Definition ParseIP (s : gostring) : option (list N) :=
  match ParseAddr s with Some (_, ip) => Some ip | None => None end.

Definition ParseCIDR (s : gostring) : option (list N * N) :=
  match cut s "/"%char with
  | None => None
  | Some (addr, mask) =>
      match ParseAddr addr with
      | None => None
      | Some (is4, ip) =>
          if bool_decide (mask = []) || negb (forallb is_digit mask) then None
          else let n := Z.to_N (digits_val mask) in
               if (n <=? (if is4 : bool then 32 else 128))%N then Some (ip, n) else None
      end
  end.

(** [ip.To4() != nil] *)
Definition To4 (ip : list N) : bool := bool_decide (take 6 ip = replicate 5 0%N ++ [65535%N]).
(** [ip.IsUnspecified()] *)
Definition IsUnspecified (ip : list N) : bool :=
  bool_decide (ip = replicate 8 0%N) || bool_decide (ip = mapped [0%N; 0%N]).

Example addresses :
  ParseIP (str "10.0.0.1") = Some (mapped [2560; 1]%N) /\
  ParseIP (str "::1") = Some [0; 0; 0; 0; 0; 0; 0; 1]%N /\
  ParseIP (str "fe80::a:1.2.3.4") = Some [65152; 0; 0; 0; 0; 10; 258; 772]%N /\
  ParseIP (str "1:2:3:4:5:6:7:8::") = None /\ ParseIP (str "01.2.3.4") = None /\
  ParseIP (str "fe80::1%eth0") = None /\ ParseIP (str "example.org") = None /\
  ParseCIDR (str "10.0.0.0/33") = None /\ is_Some (ParseCIDR (str "2001:db8::/32")).
Proof. repeat split; try by_eval. by eexists; by_eval. Qed.

(** ** What an accepted text looks like *)

Definition ip_byte (c : ascii) : bool :=
  is_hex c || bool_decide (c = "."%char) || bool_decide (c = ":"%char).
Definition addr_byte (c : ascii) : bool := ip_byte c || bool_decide (c = "/"%char).

Lemma digit_ip c : is_digit c = true -> ip_byte c = true.
Proof. intros H. unfold ip_byte, is_hex. by rewrite H. Qed.
Lemma ip_addr c : ip_byte c = true -> addr_byte c = true.
Proof. intros H. unfold addr_byte. by rewrite H. Qed.
Lemma octet_bytes s v : octet s = Some v -> forallb ip_byte s = true.
Proof.
  unfold octet. destruct s as [|c t]; [done|]. destruct (forallb is_digit (c :: t)) eqn:E; [|done].
  intros _. by eapply forallb_mono; [apply digit_ip|].
Qed.

Lemma split_join_inv s c ws : split_byte s c = ws -> s = join ws [c].
Proof.
  revert ws. induction s as [|d s IH]; intros ws <-; [done|]. cbn [split_byte].
  case_bool_decide as Hc.
  - subst d. rewrite (IH _ eq_refl) at 1. destruct (split_byte s c) eqn:E; [|done].
    by destruct s as [|e s]; cbn [split_byte] in E; [|case_bool_decide; [|destruct (split_byte s c)]].
  - destruct (split_byte s c) as [|w ws] eqn:E; rewrite (IH _ eq_refl) at 1; [done|]. by destruct ws.
Qed.

Lemma parseIPv4_bytes s v : parseIPv4 s = Some v -> forallb ip_byte s = true /\ s <> [].
Proof.
  unfold parseIPv4. destruct (split_byte s "."%char) as [|a [|b [|c [|d [|]]]]] eqn:E; try done.
  apply split_join_inv in E. destruct (octet a) eqn:Ha, (octet b) eqn:Hb, (octet c) eqn:Hc, (octet d) eqn:Hd; try done.
  intros _. apply octet_bytes in Ha, Hb, Hc, Hd. rewrite E. cbn [join].
  rewrite !forallb_app, Ha, Hb, Hc, Hd. split; [done|]. intros H. by apply app_eq_nil in H as [_ H].
Qed.

Lemma span_spec p s a b : span p s = (a, b) -> s = a ++ b /\ forallb p a = true.
Proof.
  revert a b. induction s as [|c s IH]; intros a b; cbn [span]; [by intros [= <- <-]|].
  destruct (p c) eqn:Hp; [|by intros [= <- <-]]. destruct (span p s) as [a' b'] eqn:E.
  intros [= <- <-]. destruct (IH _ _ eq_refl) as [-> Ha]. cbn [app forallb]. by rewrite Hp, Ha.
Qed.

Lemma groups6_bytes fuel acc e s r : groups6 fuel acc e s = Some r -> forallb ip_byte s = true /\ s <> [].
Proof.
  revert acc e s. induction fuel as [|fuel IH]; intros acc e s; cbn [groups6]; [done|].
  destruct (span is_hex s) as [hex rest] eqn:Es. apply span_spec in Es as [-> Hh].
  assert (Hx : forallb ip_byte hex = true).
  { eapply forallb_mono; [|exact Hh]. intros c Hc. unfold ip_byte. by rewrite Hc. }
  case_bool_decide as He; [done|]. cbn [orb]. destruct (4 <? length hex); [done|].
  assert (Hne : forall t, hex ++ t <> []) by (intros t Ht; by apply app_eq_nil in Ht as [? _]).
  rewrite forallb_app, Hx. destruct rest as [|c rest]; [by intros _; split|].
  case_bool_decide as Hdot.
  { destruct (_ && _); [done|]. destruct (8 <? _); [done|].
    destruct (parseIPv4 _) as [v4|] eqn:Hv; [|done]. intros _. apply parseIPv4_bytes in Hv as [Hv _].
    rewrite forallb_app, Hx in Hv. by split. }
  case_bool_decide as Hcol; cbn [negb]; [subst c|done].
  destruct rest as [|c' rest]; [done|]. case_bool_decide as Hc'.
  - subst c'. destruct e; [done|]. destruct rest as [|d rest]; [by intros _; split|].
    intros Hg. apply IH in Hg as [Hg _]. cbn [forallb andb] in Hg |- *. by rewrite Hg; split.
  - intros Hg. apply IH in Hg as [Hg _]. cbn [forallb andb] in Hg |- *. by rewrite Hg; split.
Qed.

Lemma ParseAddr_bytes s r : ParseAddr s = Some r -> forallb ip_byte s = true /\ s <> [].
Proof.
  unfold ParseAddr. case_bool_decide; [done|]. destruct (first_sep s) as [c|]; [|done].
  case_bool_decide.
  - destruct (parseIPv4 s) eqn:E; [|done]. intros _. by eapply parseIPv4_bytes.
  - unfold parseIPv6. destruct (has_prefix s (str "::")) eqn:Hp.
    + apply has_prefix_spec in Hp as [t ->]. change (drop 2 (str "::" ++ t)) with t.
      destruct t as [|d t]; [done|]. destruct (groups6 _ _ _ (d :: t)) eqn:E; [|done]. intros _.
      apply groups6_bytes in E as [E _]. rewrite forallb_app, E. by split.
    + destruct (groups6 _ _ _ s) eqn:E; [|done]. intros _. by eapply groups6_bytes.
Qed.

Lemma ParseIP_bytes s ip : ParseIP s = Some ip -> forallb ip_byte s = true /\ s <> [].
Proof. unfold ParseIP. destruct (ParseAddr s) as [r|] eqn:E; [|done]. intros _. by eapply ParseAddr_bytes. Qed.

Lemma ParseCIDR_bytes s r : ParseCIDR s = Some r -> forallb addr_byte s = true /\ s <> [].
Proof.
  unfold ParseCIDR. destruct (cut s "/"%char) as [[a m]|] eqn:E; [|done].
  apply cut_Some in E as [-> _]. destruct (ParseAddr a) as [[b ip]|] eqn:Ea; [|done].
  destruct (forallb is_digit m) eqn:Hm; [|by rewrite orb_true_r]. intros _.
  apply ParseAddr_bytes in Ea as [Ha _]. split; [|by intros [_ ?]%app_eq_nil].
  rewrite forallb_app. cbn [forallb]. apply andb_true_iff. split.
  - by eapply forallb_mono; [apply ip_addr|].
  - apply andb_true_iff. split; [done|]. eapply forallb_mono; [|exact Hm]. intros c Hc. by apply ip_addr, digit_ip.
Qed.
End Net.
