(* ===== verification/Firewall.v ===== *)
(** * Firewall rules ([src/sys/firewall])

    Rule validation and the three managers (nftables, firewalld, ufw) with their
    parsers.  The command runner, the privileged file writer and [os.ReadFile] are
    calls of the host. *)
From S2P Require Import Prelude Paths Exec HostProg Json Net.

Module Firewall.
Import Exec HostProg.

(** ** Data ([firewall.go]) *)

(** [type Protocol string] *)
Definition ProtocolTCP : gostring := str "tcp".
Definition ProtocolUDP : gostring := str "udp".
Definition ProtocolAny : gostring := [].

Record Rule := MkRule {
  ID : gostring; Allow : bool; Protocol : gostring; Port : Z; Source : gostring; Dest : gostring
}.
#[export] Instance Rule_eq_dec : EqDecision Rule.
Proof. solve_decision. Defined.

Inductive fw_error :=
| InvalidRule (why : gostring)
| InvalidNamespace (ns : gostring)
| UnknownBackend (b : Z)
| RunnerRequired
| ERun (e : exec_error)
| ECommand (name : gostring) (code : Z) (stderr : gostring)
| EFs (e : fs_err)
| EJson
| EAbsent (ns : gostring)
| ENoZone
| EWrap (msg : gostring) (e : fw_error).

Inductive Backend := Nftables | Firewalld | UFW.
(** [iota + 1] *)
Definition backend_of (b : Z) : option Backend :=
  match b with 1%Z => Some Nftables | 2%Z => Some Firewalld | 3%Z => Some UFW | _ => None end.

(** ** Validation *)

Definition ns_byte (c : ascii) : bool := is_lower c || is_digit c || bool_decide (c = "_"%char).
Definition namespaceRE (ns : gostring) : bool :=
  match ns with
  | c :: rest => is_lower c && forallb ns_byte rest && (length rest <=? 30)
  | [] => false
  end.
Definition id_byte (c : ascii) : bool := ns_byte c || bool_decide (c = "-"%char).
Definition ruleIDRE (id : gostring) : bool :=
  match id with
  | c :: rest => (is_lower c || is_digit c) && forallb id_byte rest && (length rest <=? 62)
  | [] => false
  end.

Definition validateNamespace (ns : gostring) : result fw_error unit :=
  if bool_decide (ns = []) then Err (InvalidNamespace ns)
  else if negb (namespaceRE ns) then Err (InvalidNamespace ns) else Ok tt.
Definition validateRuleID (id : gostring) : result fw_error unit :=
  if bool_decide (id = []) then Err (InvalidRule (str "ID"))
  else if negb (ruleIDRE id) then Err (InvalidRule (str "ID")) else Ok tt.
Definition validatePort (port : Z) : result fw_error unit :=
  if (port <? 0)%Z || (65535 <? port)%Z then Err (InvalidRule (str "port")) else Ok tt.
Definition validateProtocol (p : gostring) : result fw_error unit :=
  if bool_decide (p ∈ [ProtocolTCP; ProtocolUDP; ProtocolAny]) then Ok tt
  else Err (InvalidRule (str "protocol")).
Definition validateAddr (field addr : gostring) : result fw_error unit :=
  if bool_decide (addr = []) then Ok tt
  else match Net.ParseCIDR addr with
       | Some _ => Ok tt
       | None => match Net.ParseIP addr with
                 | Some _ => Ok tt
                 | None => Err (InvalidRule field)
                 end
       end.
Definition validateAllowScope (rule : Rule) : result fw_error unit :=
  if Allow rule && bool_decide (Protocol rule = ProtocolAny) && (Port rule =? 0)%Z &&
     bool_decide (Source rule = []) && bool_decide (Dest rule = [])
  then Err (InvalidRule (str "allows all ingress")) else Ok tt.

Definition validateRule (rule : Rule) : result fw_error unit :=
  let? _ := validateRuleID (ID rule) in
  let? _ := validatePort (Port rule) in
  let? _ := validateProtocol (Protocol rule) in
  let? _ := validateAddr (str "source") (Source rule) in
  let? _ := validateAddr (str "dest") (Dest rule) in
  validateAllowScope rule.

(** ** Commands *)

Abbreviation op := (prog (option fw_error)).
Abbreviation query A := (prog (result fw_error A)).

Definition check (v : result fw_error unit) (k : op) : op :=
  match v with Ok _ => k | Err e => Ret (Some e) end.

Definition exec (stdin name : gostring) (args : list gostring) : query Result :=
  let! (res, err) := ask (CRun (MkCommand name args [] [] [] true) stdin) in
  Ret (match err with
       | Some e => Err (ERun e)
       | None => if (ExitCode res =? 0)%Z then Ok res
                 else Err (ECommand name (ExitCode res) (Stderr res))
       end).
Definition run_ (name : gostring) (args : list gostring) : query Result := exec [] name args.
Definition runStdin (stdin name : gostring) (args : list gostring) : query Result := exec stdin name args.

(** Run a command, return its error with a message, or go on. *)
Definition step (msg : gostring) (p : query Result) (k : op) : op :=
  let! r := p in
  match r with Err e => Ret (Some (EWrap msg e)) | Ok _ => k end.

(** [errors.As] looks through the wrapping. *)
Fixpoint isNoTable (e : fw_error) : bool :=
  match e with
  | ECommand _ _ stderr => contains stderr (str "No such file or directory")
  | EWrap _ e' => isNoTable e'
  | _ => false
  end.

(** ** nftables ([nftables.go]) *)

Definition nftFamily : gostring := str "inet".
Definition nftChain : gostring := str "input".
Definition nftTableName (namespace : gostring) : gostring := namespace ++ str "_filter".

Definition family_of (ip : list N) : gostring := if Net.To4 ip then str "ip" else str "ip6".
Definition nftAddressFamily (addr : gostring) : result fw_error gostring :=
  match Net.ParseCIDR addr with
  | Some (ip, _) => Ok (family_of ip)
  | None => match Net.ParseIP addr with
            | Some ip => Ok (family_of ip)
            | None => Err (InvalidRule (str "address"))
            end
  end.

Record nftRuleObject := MkNftRule {
  n_Family : gostring; n_Table : gostring; n_Chain : gostring; n_Handle : Z; n_Comment : gostring;
  n_Expr : list Json.json
}.

(** The words of the match on one address, and its family. *)
Definition addr_match (side : gostring) (addr word : gostring) : result fw_error (list gostring * gostring) :=
  match addr with
  | [] => Ok ([], [])
  | _ => match nftAddressFamily addr with
         | Ok fam => Ok ([fam; word; addr], fam)
         | Err e => Err (EWrap side e)
         end
  end.

Definition nftBuildApplyScriptStrict (namespace : gostring) (rule : Rule) (replaceHandle : Z)
    : result fw_error gostring :=
  if (0 <? Port rule)%Z && bool_decide (Protocol rule = ProtocolAny)
  then Err (InvalidRule (str "port without protocol"))
  else
    let table := nftTableName namespace in
    let head :=
      str "add table " ++ nftFamily ++ str " " ++ table ++ [NL] ++
      str "add chain " ++ nftFamily ++ str " " ++ table ++ str " " ++ nftChain ++
        str " { type filter hook input priority 0; policy accept; }" ++ [NL] ++
      (if (0 <? replaceHandle)%Z
       then str "delete rule " ++ nftFamily ++ str " " ++ table ++ str " " ++ nftChain ++ str " handle " ++
            Json.int_lit replaceHandle ++ [NL]
       else []) in
    let? src := addr_match (str "source") (Source rule) (str "saddr") in
    let? dst := addr_match (str "dest") (Dest rule) (str "daddr") in
    if negb (bool_decide (src.2 = [])) && negb (bool_decide (dst.2 = [])) && negb (bool_decide (src.2 = dst.2))
    then Err (InvalidRule (str "mixed families"))
    else
      let parts :=
        [str "add rule"; nftFamily; table; nftChain] ++ src.1 ++ dst.1 ++
        (if bool_decide (Protocol rule = ProtocolTCP) || bool_decide (Protocol rule = ProtocolUDP)
         then Protocol rule :: (if (0 <? Port rule)%Z then [str "dport"; Json.int_lit (Port rule)] else [])
         else []) ++
        [if Allow rule then str "accept" else str "drop"] ++
        [str "comment"; Json.QUOTE :: ID rule ++ [Json.QUOTE]] in
      Ok (head ++ join parts (str " ") ++ [NL]).

(** *** Listings *)

Definition dec_rule (v : option Json.json) : option nftRuleObject :=
  kvs ← Json.dec_object v;
  fam ← Json.dec_str (Json.field kvs (str "family"));
  tab ← Json.dec_str (Json.field kvs (str "table"));
  chain ← Json.dec_str (Json.field kvs (str "chain"));
  handle ← Json.dec_int (Json.field kvs (str "handle"));
  comment ← Json.dec_str (Json.field kvs (str "comment"));
  expr ← Json.dec_list id (Json.field kvs (str "expr"));
  Some (MkNftRule fam tab chain handle comment expr).
(** An item holds a rule, a table, a chain or something else; only rules are used. *)
Definition dec_item (v : option Json.json) : option (option nftRuleObject) :=
  kvs ← Json.dec_object v;
  Json.dec_ptr dec_rule (Json.field kvs (str "rule")).
Definition unmarshal_list (raw : gostring) : option (list (option nftRuleObject)) :=
  v ← Json.parse raw;
  kvs ← Json.dec_object (Some v);
  Json.dec_list dec_item (Json.field kvs (str "nftables")).

Definition nftDecodeAddr (raw : option Json.json) : gostring :=
  match raw with
  | None => []
  | Some v =>
      match Json.dec_str (Some v) with
      | Some bare => bare
      | None =>
          default [] (
            kvs ← Json.dec_object (Some v);
            p ← Json.dec_ptr Json.dec_object (Json.field kvs (str "prefix"));
            match p with
            | None => Some []
            | Some p =>
                addr ← Json.dec_str (Json.field p (str "addr"));
                len ← Json.dec_int (Json.field p (str "len"));
                Some (addr ++ str "/" ++ Json.int_lit len)
            end)
      end
  end.

(** [verdict] decodes whenever the element is an object; the values may be null. *)
Definition apply_verdict (e : Json.json) (out : Rule) : Rule :=
  match Json.dec_object (Some e) with
  | None => out
  | Some kvs =>
      match Json.field kvs (str "accept"), Json.field kvs (str "drop") with
      | Some _, _ => MkRule (ID out) true (Protocol out) (Port out) (Source out) (Dest out)
      | None, Some _ => MkRule (ID out) false (Protocol out) (Port out) (Source out) (Dest out)
      | None, None => out
      end
  end.
(** The protocol, the field and the right-hand side of a payload match; [None] when
    the element does not decode or is no payload match. *)
Definition payload_match (e : Json.json) : option (gostring * gostring * option Json.json) :=
  kvs ← Json.dec_object (Some e);
  m ← Json.dec_ptr Json.dec_object (Json.field kvs (str "match"));
  m ← m;
  _ ← Json.dec_str (Json.field m (str "op"));
  lhs ← Json.dec_object (Json.field m (str "left"));
  pl ← Json.dec_ptr (fun v =>
         p ← Json.dec_object v;
         proto ← Json.dec_str (Json.field p (str "protocol"));
         f ← Json.dec_str (Json.field p (str "field"));
         Some (proto, f)) (Json.field lhs (str "payload"));
  pl ← pl;
  Some (pl.1, pl.2, Json.field m (str "right")).
Definition apply_match (e : Json.json) (out : Rule) : Rule :=
  match payload_match e with
  | None => out
  | Some (proto, f, rhs) =>
      if bool_decide (f = str "dport") then
        MkRule (ID out) (Allow out) proto (default 0%Z (v ← rhs; Json.dec_int (Some v))) (Source out) (Dest out)
      else if bool_decide (f = str "saddr") then
        MkRule (ID out) (Allow out) (Protocol out) (Port out) (nftDecodeAddr rhs) (Dest out)
      else if bool_decide (f = str "daddr") then
        MkRule (ID out) (Allow out) (Protocol out) (Port out) (Source out) (nftDecodeAddr rhs)
      else out
  end.
Definition applyExprToRule (expr : list Json.json) (out : Rule) : Rule :=
  foldl (fun r e => apply_match e (apply_verdict e r)) out expr.

Definition item_rule (item : option nftRuleObject) : option Rule :=
  r ← item;
  if bool_decide (n_Comment r = []) then None
  else Some (applyExprToRule (n_Expr r) (MkRule (n_Comment r) false [] 0 [] [])).
Definition nftParseRules (raw : gostring) : result fw_error (list Rule) :=
  match raw with
  | [] => Ok []
  | _ => match unmarshal_list raw with
         | None => Err EJson
         | Some items => Ok (omap item_rule items)
         end
  end.

Definition has_comment (id : gostring) (item : option nftRuleObject) : option Z :=
  r ← item; if bool_decide (n_Comment r = id) then Some (n_Handle r) else None.
Definition nftFindRuleHandle (raw id : gostring) : option Z :=
  match raw with
  | [] => None
  | _ => items ← unmarshal_list raw; head (omap (has_comment id) items)
  end.

(** *** The manager *)

Definition nftListJSON (ns : gostring) : query gostring :=
  let! r := run_ (str "nft") [str "-j"; str "list"; str "table"; nftFamily; nftTableName ns] in
  Ret (match r with Ok res => Ok (Stdout res) | Err e => Err (EWrap (str "nft list table") e) end).
Definition nftRunScript (script : gostring) : op :=
  step (str "nft -f -") (runStdin script (str "nft") [str "-f"; str "-"]) (Ret None).
Definition nftDeleteManagedTable (ns : gostring) : op :=
  let! r := runStdin (str "delete table " ++ nftFamily ++ str " " ++ nftTableName ns ++ [NL])
              (str "nft") [str "-f"; str "-"] in
  Ret (match r with Ok _ => None | Err e => Some e end).

Definition nft_ApplyRule (ns : gostring) (rule : Rule) : op :=
  check (validateRule rule) (
  let! raw := nftListJSON ns in
  let handle := match raw with
                | Ok raw => default 0%Z (nftFindRuleHandle raw (ID rule))
                | Err _ => 0%Z
                end in
  match nftBuildApplyScriptStrict ns rule handle with
  | Err e => Ret (Some e)
  | Ok script => nftRunScript script
  end).

Definition delete_script (ns : gostring) (handle : Z) : gostring :=
  str "delete rule " ++ nftFamily ++ str " " ++ nftTableName ns ++ str " " ++ nftChain ++ str " handle " ++
  Json.int_lit handle ++ [NL].
Definition nft_RemoveRule (ns id : gostring) : op :=
  check (validateRuleID id) (
  let! raw := nftListJSON ns in
  match raw with
  | Err e => if isNoTable e then Ret None else Ret (Some e)
  | Ok raw => match nftFindRuleHandle raw id with
              | None => Ret None
              | Some handle => nftRunScript (delete_script ns handle)
              end
  end).

Definition nft_List (ns : gostring) : query (list Rule) :=
  let! raw := nftListJSON ns in
  Ret (match raw with
       | Err e => if isNoTable e then Err (EAbsent ns) else Err e
       | Ok raw => nftParseRules raw
       end).

(** ** ufw ([ufw.go]) *)

Definition ufwCommentIdentity (namespace id : gostring) : gostring := namespace ++ str ":" ++ id.

Record ufw_line := MkLine { u_num : gostring; u_to : gostring; u_action : gostring; u_from : gostring; u_comment : gostring }.

(** *** The regular expression [ufwStatusRuleRE]

    The parts are matched in order; where the expression can match in several ways
    the alternatives are tried in its order of preference. *)

Definition strip1 (p : ascii -> bool) (s : gostring) : option gostring :=
  match span1 p s with Some (_, rest) => Some rest | None => None end.
Definition skip_byte (c : ascii) (s : gostring) : option gostring :=
  match s with d :: rest => if bool_decide (d = c) then Some rest else None | [] => None end.
(** [\s*(.+?)\s*$] after the mark: the text without surrounding space; when there
    is only space, its last byte. *)
Definition comment_group (s : gostring) : option gostring :=
  match (span re_space s).2 with
  | [] => match rev s with c :: _ => Some [c] | [] => None end
  | t => Some (rev (span re_space (rev t)).2)
  end.
(** [(.+?)\s*#\s*(.+?)\s*$]: the shortest first group that works. *)
Fixpoint from_group (fuel : nat) (taken s : gostring) : option (gostring * gostring) :=
  match fuel with
  | 0 => None
  | S fuel' =>
      match s with
      | [] => None
      | c :: s' =>
          let taken' := taken ++ [c] in
          match skip_byte "#"%char ((span re_space s').2) with
          | Some after =>
              match comment_group after with
              | Some cm => Some (taken', cm)
              | None => from_group fuel' taken' s'
              end
          | None => from_group fuel' taken' s'
          end
      end
  end.
(** [\s+] before it: the longest run first, then shorter ones. *)
Fixpoint spaces_then (n : nat) (s : gostring) : option (gostring * gostring) :=
  match n with
  | 0 => None
  | S n' => match from_group (length s) [] (drop n s) with
            | Some r => Some r
            | None => spaces_then n' s
            end
  end.
Definition from_part (s : gostring) : option (gostring * gostring) :=
  spaces_then (length (span re_space s).1) s.

Definition actions : list gostring := [str "ALLOW"; str "DENY"; str "REJECT"; str "LIMIT"].
Fixpoint first_prefix (ws : list gostring) (s : gostring) : option (gostring * gostring) :=
  match ws with
  | [] => None
  | w :: rest => if has_prefix s w then Some (w, drop (length w) s) else first_prefix rest s
  end.
(** [(?:\s+(?:IN|OUT))?] and the rest. *)
Definition after_action (s : gostring) : option (gostring * gostring) :=
  match (s1 ← strip1 re_space s; r ← first_prefix [str "IN"; str "OUT"] s1; from_part r.2) with
  | Some r => Some r
  | None => from_part s
  end.
Definition ufwStatusRuleRE (s : gostring) : option ufw_line :=
  s1 ← skip_byte "["%char s;
  num ← span1 is_digit ((span re_space s1).2);
  s2 ← skip_byte "]"%char num.2;
  s3 ← strip1 re_space s2;
  col ← span1 re_not_space s3;
  s4 ← strip1 re_space col.2;
  act ← first_prefix actions s4;
  r ← after_action act.2;
  Some (MkLine num.1 col.1 act.1 r.1 r.2).

Definition status_line (line : gostring) : option ufw_line :=
  ufwStatusRuleRE (trim_right_set line [" "%char; TAB]).

Definition line_number (target line : gostring) : option Z :=
  m ← status_line line;
  if bool_decide (u_comment m = target) then atoi (u_num m) else None.
Definition ufwFindRuleNumber (status namespace id : gostring) : option Z :=
  head (omap (line_number (ufwCommentIdentity namespace id)) (split_byte status NL)).

Definition ufwParseToColumn (col0 : gostring) (out : Rule) : Rule :=
  let col := trim_space col0 in
  let with_port p := MkRule (ID out) (Allow out) (Protocol out) p (Source out) (Dest out) in
  if bool_decide (col = str "Anywhere") || bool_decide (col = str "Anywhere (v6)") then out
  else match index_byte col "/"%char with
       | Some (S i) =>
           let out1 := match atoi (take (S i) col) with Some p => with_port p | None => out end in
           let proto := drop (S (S i)) col in
           if bool_decide (proto = str "tcp") || bool_decide (proto = str "udp")
           then MkRule (ID out1) (Allow out1) proto (Port out1) (Source out1) (Dest out1) else out1
       | _ => match atoi col with
              | Some p => with_port p
              | None => MkRule (ID out) (Allow out) (Protocol out) (Port out) (Source out) col
              end
       end.

Definition cut_prefix (s p : gostring) : option gostring :=
  if has_prefix s p then Some (drop (length p) s) else None.
Definition status_rule (namespace line : gostring) : option Rule :=
  m ← status_line line;
  id ← cut_prefix (u_comment m) (namespace ++ str ":");
  let rule := ufwParseToColumn (u_to m)
                (MkRule id (bool_decide (u_action m = str "ALLOW")) [] 0 [] []) in
  let from := trim_space (u_from m) in
  Some (if bool_decide (from ∈ [[]; str "Anywhere"; str "Anywhere (v6)"]) then rule
        else MkRule (ID rule) (Allow rule) (Protocol rule) (Port rule) from (Dest rule)).
Definition ufwParseStatus (status namespace : gostring) : list Rule :=
  if contains status (str "Status: inactive") then []
  else omap (status_rule namespace) (split_byte status NL).

(** *** The manager *)

Definition ufwValidateRule (rule : Rule) : result fw_error unit :=
  if (0 <? Port rule)%Z && bool_decide (Protocol rule = ProtocolAny)
  then Err (InvalidRule (str "port without protocol"))
  else if (Port rule =? 0)%Z && bool_decide (Protocol rule = ProtocolAny) &&
          bool_decide (Source rule = []) && bool_decide (Dest rule = [])
  then Err (InvalidRule (str "empty")) else Ok tt.

Definition or_any (addr : gostring) : gostring := match addr with [] => str "any" | _ => addr end.
Definition ufwBuildAddArgs (namespace : gostring) (rule : Rule) : result fw_error (list gostring) :=
  let? _ := ufwValidateRule rule in
  let concrete := bool_decide (Protocol rule = ProtocolTCP) || bool_decide (Protocol rule = ProtocolUDP) in
  let scoped := negb (bool_decide (Source rule = [])) || negb (bool_decide (Dest rule = [])) in
  let body :=
    if scoped then
      [str "from"; or_any (Source rule); str "to"; or_any (Dest rule)] ++
      (if (0 <? Port rule)%Z then [str "port"; Json.int_lit (Port rule)] else []) ++
      (if concrete then [str "proto"; Protocol rule] else [])
    else if (0 <? Port rule)%Z then [Json.int_lit (Port rule) ++ str "/" ++ Protocol rule]
    else [str "from"; str "any"; str "to"; str "any"; str "proto"; Protocol rule] in
  Ok ([if Allow rule then str "allow" else str "deny"] ++ body ++
      [str "comment"; ufwCommentIdentity namespace (ID rule)]).

Definition ufwStatusNumbered : query gostring :=
  let! r := run_ (str "ufw") [str "status"; str "numbered"] in
  Ret (match r with Ok res => Ok (Stdout res) | Err e => Err (EWrap (str "ufw status numbered") e) end).
Definition ufwDeleteByNumber (num : Z) : op :=
  step (str "ufw --force delete") (run_ (str "ufw") [str "--force"; str "delete"; Json.int_lit num]) (Ret None).

Definition ufw_ApplyRule (ns : gostring) (rule : Rule) : op :=
  check (validateRule rule) (
  match ufwBuildAddArgs ns rule with
  | Err e => Ret (Some e)
  | Ok args =>
      let! status := ufwStatusNumbered in
      let add := step (str "ufw") (run_ (str "ufw") args) (Ret None) in
      match status with
      | Err _ => add
      | Ok status =>
          match ufwFindRuleNumber status ns (ID rule) with
          | None => add
          | Some num =>
              let! e := ufwDeleteByNumber num in
              match e with
              | Some e => Ret (Some (EWrap (str "ufw delete existing rule") e))
              | None => add
              end
          end
      end
  end).
Definition ufw_RemoveRule (ns id : gostring) : op :=
  check (validateRuleID id) (
  let! status := ufwStatusNumbered in
  match status with
  | Err _ => Ret None
  | Ok status => match ufwFindRuleNumber status ns id with
                 | None => Ret None
                 | Some num => ufwDeleteByNumber num
                 end
  end).
Definition ufw_List (ns : gostring) : query (list Rule) :=
  let!? status := ufwStatusNumbered in Ret (Ok (ufwParseStatus status ns)).

(** ** firewalld ([firewalld.go]) *)

Definition firewalldServicesDir : gostring := str "/etc/firewalld/services".
Definition firewalldServiceName (namespace id : gostring) : gostring := namespace ++ str "-" ++ id.
Definition service_path (svc : gostring) : gostring := Paths.Join [firewalldServicesDir; svc ++ str ".xml"].

Definition firewalldValidateRule (rule : Rule) : result fw_error unit :=
  if negb (Allow rule) then Err (InvalidRule (str "deny"))
  else if negb (bool_decide (Source rule = [])) then Err (InvalidRule (str "source"))
  else if negb (bool_decide (Dest rule = [])) then Err (InvalidRule (str "dest"))
  else if negb (bool_decide (Protocol rule = ProtocolTCP)) && negb (bool_decide (Protocol rule = ProtocolUDP))
  then Err (InvalidRule (str "protocol"))
  else if (Port rule <=? 0)%Z then Err (InvalidRule (str "port")) else Ok tt.

Definition q (s : gostring) : gostring := Json.QUOTE :: s ++ [Json.QUOTE].
Definition firewalldServiceXML (namespace : gostring) (rule : Rule) : gostring :=
  join [str "<?xml version=" ++ q (str "1.0") ++ str " encoding=" ++ q (str "utf-8") ++ str "?>";
        str "<service>";
        str "  <short>" ++ firewalldServiceName namespace (ID rule) ++ str "</short>";
        str "  <description>" ++ namespace ++ str " managed rule</description>";
        str "  <port port=" ++ q (Json.int_lit (Port rule)) ++ str " protocol=" ++ q (Protocol rule) ++ str "/>";
        str "</service>"; []] [NL].

Definition firewalldFilterNamespaceServices (out namespace : gostring) : list gostring :=
  omap (fun f => cut_prefix f (namespace ++ str "-")) (fields out).

(** The text between [key] and the next quote; nothing when it is empty. *)
Definition attribute (key body : gostring) : option gostring :=
  match cut_str body (key ++ [Json.QUOTE]) with
  | None => None
  | Some (_, rest) =>
      match index_byte rest Json.QUOTE with
      | Some (S i) => Some (take (S i) rest)
      | _ => None
      end
  end.
Definition service_rule (id body : gostring) : option Rule :=
  let port := default 0%Z (p ← attribute (str "port port=") body; atoi p) in
  let proto := default [] (attribute (str "protocol=") body) in
  if (port =? 0)%Z || bool_decide (proto = []) then None
  else Some (MkRule id true proto port [] []).
Definition firewalldReadServiceRule (namespace id : gostring) : prog (option Rule) :=
  let! r := ask (CReadFile (service_path (firewalldServiceName namespace id))) in
  Ret (match r with Err _ => None | Ok body => service_rule id body end).

Definition firewalldDefaultZone : query gostring :=
  let! r := run_ (str "firewall-cmd") [str "--get-default-zone"] in
  Ret (match r with
       | Err e => Err (EWrap (str "firewall-cmd --get-default-zone") e)
       | Ok res => let zone := trim_space (Stdout res) in
                   if bool_decide (zone = []) then Err ENoZone else Ok zone
       end).
Definition list_services (zone : gostring) : query Result :=
  run_ (str "firewall-cmd") [str "--permanent"; str "--zone=" ++ zone; str "--list-services"].
Definition firewalldServiceIsEnabled (zone svc : gostring) : query bool :=
  let!? res := list_services zone in
  Ret (Ok (bool_decide (svc ∈ fields (Stdout res)))).

Definition reload (msg : gostring) (k : op) : op :=
  step msg (run_ (str "firewall-cmd") [str "--reload"]) k.
Definition fs_do (msg : gostring) (o : fs_op) (k : op) : op :=
  let! e := ask (CFs o) in
  match e with Some e => Ret (Some (EWrap msg (EFs e))) | None => k end.

Definition firewalld_ApplyRule (ns : gostring) (rule : Rule) : op :=
  check (validateRule rule) (check (firewalldValidateRule rule) (
  let! zone := firewalldDefaultZone in
  match zone with
  | Err e => Ret (Some e)
  | Ok zone =>
      let svc := firewalldServiceName ns (ID rule) in
      fs_do (str "write service xml") (FsWriteFile (service_path svc) (firewalldServiceXML ns rule) 420 (str "root") (str "root")) (
      reload (str "firewall-cmd --reload") (
      step (str "firewall-cmd add-service")
        (run_ (str "firewall-cmd") [str "--permanent"; str "--zone=" ++ zone; str "--add-service=" ++ svc]) (
      reload (str "firewall-cmd --reload (post-enable)") (Ret None))))
  end)).

Definition firewalld_RemoveRule (ns id : gostring) : op :=
  check (validateRuleID id) (
  let! zone := firewalldDefaultZone in
  match zone with
  | Err e => Ret (Some e)
  | Ok zone =>
      let svc := firewalldServiceName ns id in
      let! enabled := firewalldServiceIsEnabled zone svc in
      let tail :=
        fs_do (str "remove") (FsRemove (service_path svc)) (
        reload (str "firewall-cmd --reload") (Ret None)) in
      match enabled with
      | Err e => Ret (Some (EWrap (str "firewall-cmd list-services") e))
      | Ok true => step (str "firewall-cmd --remove-service")
                     (run_ (str "firewall-cmd") [str "--permanent"; str "--zone=" ++ zone; str "--remove-service=" ++ svc]) tail
      | Ok false => tail
      end
  end).

Fixpoint read_services (ns : gostring) (ids : list gostring) : prog (list Rule) :=
  match ids with
  | [] => Ret []
  | id :: rest =>
      let! r := firewalldReadServiceRule ns id in
      let! rs := read_services ns rest in
      Ret (match r with Some rule => rule :: rs | None => rs end)
  end.
Definition firewalld_List (ns : gostring) : query (list Rule) :=
  let!? zone := firewalldDefaultZone in
  let! res := list_services zone in
  match res with
  | Err e => Ret (Err (EWrap (str "firewall-cmd list-services") e))
  | Ok res =>
      let! rs := read_services ns (firewalldFilterNamespaceServices (Stdout res) ns) in
      Ret (Ok rs)
  end.

(** ** Managers *)

Record Manager := MkManager {
  ApplyRule : Rule -> op; RemoveRule : gostring -> op; List_ : query (list Rule); Namespace : gostring
}.
Definition manager (b : Backend) (ns : gostring) : Manager :=
  match b with
  | Nftables => MkManager (nft_ApplyRule ns) (nft_RemoveRule ns) (nft_List ns) ns
  | Firewalld => MkManager (firewalld_ApplyRule ns) (firewalld_RemoveRule ns) (firewalld_List ns) ns
  | UFW => MkManager (ufw_ApplyRule ns) (ufw_RemoveRule ns) (ufw_List ns) ns
  end.

(** [runner] is whether a runner was given; [fs.New] then does not fail. *)
Definition New (b : Z) (namespace : gostring) (runner : bool) : result fw_error Manager :=
  let? _ := validateNamespace namespace in
  if negb runner then Err RunnerRequired
  else match backend_of b with
       | Some b => Ok (manager b namespace)
       | None => Err (UnknownBackend b)
       end.

Definition Detect : prog (list Backend) :=
  let! n := ask (CLookPath (str "nft")) in
  let! f := ask (CLookPath (str "firewall-cmd")) in
  let! u := ask (CLookPath (str "ufw")) in
  Ret ((match n with Some _ => [Nftables] | None => [] end) ++
       (match f with Some _ => [Firewalld] | None => [] end) ++
       (match u with Some _ => [UFW] | None => [] end)).

(** ** Checks against captured output *)

Definition ufw_sample : gostring :=
  str "Status: active" ++ NL :: NL :: str "     To                         Action      From" ++ NL ::
  str "[ 1] 22/tcp                     ALLOW IN    Anywhere                   # pm:ssh" ++ NL ::
  str "[ 2] 22/tcp (v6)                ALLOW IN    Anywhere (v6)              # pm:ssh" ++ NL ::
  str "[10] 53/udp                     DENY IN     10.0.0.0/8                 # other:dns" ++ [NL].
Example ufw_sample_parses :
  ufwParseStatus ufw_sample (str "pm") = [MkRule (str "ssh") true (str "tcp") 22 [] []] /\
  ufwParseStatus ufw_sample (str "other") = [MkRule (str "dns") false (str "udp") 53 (str "10.0.0.0/8") []] /\
  ufwFindRuleNumber ufw_sample (str "other") (str "dns") = Some 10%Z.
Proof. repeat split; by_eval. Qed.

Example nft_script_sample :
  nftBuildApplyScriptStrict (str "pm") (MkRule (str "ssh") true (str "tcp") 22 (str "10.0.0.0/8") []) 7 =
  Ok (str "add table inet pm_filter" ++ NL ::
      str "add chain inet pm_filter input { type filter hook input priority 0; policy accept; }" ++ NL ::
      str "delete rule inet pm_filter input handle 7" ++ NL ::
      str "add rule inet pm_filter input ip saddr 10.0.0.0/8 tcp dport 22 accept comment " ++ q (str "ssh") ++ [NL]).
Proof. by_eval. Qed.
End Firewall.
