(* ===== verification/FirewallMap.v ===== *)
(** * nftables: the manager is a map ([src/sys/firewall/nftables.go])

    On a host whose [nft] executes scripts and lists tables as its manual says, the
    nftables manager of a namespace implements a finite map from rule ids to rules:
    [ApplyRule] is insertion, [RemoveRule] deletion, [List] enumeration, and no other
    table changes. *)
From S2P Require Import Prelude Paths Exec HostProg Words Json Net Firewall FirewallNft.

Module FirewallMap.
Import Exec HostProg Words Firewall FirewallNft.

(** ** What [nft] does *)

(** A table: its rules with their handles. *)
Abbreviation table := (list (Z * Rule)).

(** Executing the commands of a batch on one table; new handles are fresh. *)
Inductive nft_exec : list nft_cmd -> option table -> option table -> Prop :=
| x_nil t : nft_exec [] t t
| x_table cs t t' : nft_exec cs (Some (default [] t)) t' -> nft_exec (AddTable :: cs) t t'
| x_chain cs t t' : nft_exec cs (Some t) t' -> nft_exec (AddChain :: cs) (Some t) t'
| x_delete cs h t t' :
    h ∈ t.*1 -> nft_exec cs (Some (List.filter (fun hr => negb (hr.1 =? h)%Z) t)) t' ->
    nft_exec (DeleteRule h :: cs) (Some t) t'
| x_add cs r t t' h :
    h ∉ t.*1 -> nft_exec cs (Some (t ++ [(h, r)])) t' ->
    nft_exec (AddRule r :: cs) (Some t) t'.

(** The listing of a table. *)
Definition match_expr (proto fld : gostring) (rhs : Json.json) : Json.json :=
  Json.JObj [(str "match", Json.JObj
    [(str "op", Json.JStr (str "=="));
     (str "left", Json.JObj [(str "payload", Json.JObj
        [(str "protocol", Json.JStr proto); (str "field", Json.JStr fld)])]);
     (str "right", rhs)])].
(** An address is a string, a network an address and a prefix length. *)
Definition addr_json (a : gostring) : Json.json :=
  match cut a "/"%char with
  | Some (addr, len) => Json.JObj [(str "prefix", Json.JObj [(str "addr", Json.JStr addr); (str "len", Json.JNum len)])]
  | None => Json.JStr a
  end.
Definition addr_exprs (a fld : gostring) : list Json.json :=
  match nftAddressFamily a with Ok fam => [match_expr fam fld (addr_json a)] | Err _ => [] end.
Definition rule_exprs (r : Rule) : list Json.json :=
  addr_exprs (Source r) (str "saddr") ++ addr_exprs (Dest r) (str "daddr") ++
  (if (0 <? Port r)%Z then [match_expr (Protocol r) (str "dport") (Json.JNum (Json.int_lit (Port r)))] else []) ++
  [Json.JObj [(if Allow r then str "accept" else str "drop", Json.JNull)]].
Definition rule_item (tbl : gostring) (hr : Z * Rule) : Json.json :=
  Json.JObj [(str "rule", Json.JObj
    [(str "family", Json.JStr nftFamily); (str "table", Json.JStr tbl); (str "chain", Json.JStr nftChain);
     (str "handle", Json.JNum (Json.int_lit hr.1)); (str "comment", Json.JStr (ID hr.2));
     (str "expr", Json.JArr (rule_exprs hr.2))])].
(** The items in front of the rules. *)
Definition preamble (v : Json.json) : Prop :=
  exists k w, v = Json.JObj [(k, w)] /\ k ∈ [str "metainfo"; str "table"; str "chain"].
Definition listing (tbl : gostring) (pre : list Json.json) (t : table) : Json.json :=
  Json.JObj [(str "nftables", Json.JArr (pre ++ (rule_item tbl <$> t)))].

Definition nft_cmd_of (args : list gostring) : Command := MkCommand (str "nft") args [] [] [] true.
Definition list_cmd (tbl : gostring) : Command := nft_cmd_of [str "-j"; str "list"; str "table"; nftFamily; tbl].
Definition batch_cmd : Command := nft_cmd_of [str "-f"; str "-"].

(** The batches the manager writes. *)
Definition batch (cs : list nft_cmd) : Prop := (exists hd r, cs = apply_cmds hd r) \/ exists hd, cs = [DeleteRule hd].
(** There is a handle left. *)
Definition room (t : option table) : Prop := (Z.of_nat (length (default [] t)) < int_max)%Z.

(** [canon a]: the address is written as [nft] prints it. *)
Class NftHost {S} (h : handler S) (tables : S -> gostring -> option table) (canon : gostring -> Prop) : Prop := {
  canon_len a addr len : canon a -> cut a "/"%char = Some (addr, len) -> exists n, len = itoa n /\ n <= 128;
  nft_handles s tbl t : tables s tbl = Some t -> Forall (fun hr => 0 < hr.1 <= int_max)%Z t;
  nft_absent s tbl : tables s tbl = None ->
    exists out err, h _ s (CRun (list_cmd tbl) []) = (s, (MkResult 1 out err, None)) /\
      contains err (str "No such file or directory") = true;
  nft_listed s tbl t : tables s tbl = Some t ->
    exists out err pre, h _ s (CRun (list_cmd tbl) []) = (s, (MkResult 0 out err, None)) /\
      Json.parse out = Some (Json.coerce (listing tbl pre t)) /\ Forall preamble pre;
  nft_batch s tbl cs script t' :
    batch cs -> parse_script script = Some ((fun c => (tbl, c)) <$> cs) ->
    (forall r a, AddRule r ∈ cs -> a ∈ [Source r; Dest r] -> a = [] \/ canon a) ->
    room (tables s tbl) -> nft_exec cs (tables s tbl) t' ->
    exists s' t'', nft_exec cs (tables s tbl) t'' /\
      h _ s (CRun batch_cmd script) = (s', (MkResult 0 [] [], None)) /\
      tables s' tbl = t'' /\ forall tbl', tbl' <> tbl -> tables s' tbl' = tables s tbl'
}.

(** ** Listings are read back *)

Lemma decode_addr a :
  (forall addr len, cut a "/"%char = Some (addr, len) -> exists n, len = itoa n /\ n <= 128) ->
  nftDecodeAddr (Some (addr_json a)) = a.
Proof.
  intros Hc. unfold addr_json. destruct (cut a "/"%char) as [[addr len]|] eqn:E; [|done].
  destruct (Hc _ _ eq_refl) as (n & -> & Hn). apply cut_Some in E as [-> _].
  assert (Hl : Json.int_lit (Z.of_nat n) = itoa n) by (rewrite Json.int_lit_nonneg by lia; by rewrite Nat2Z.id).
  rewrite <-Hl. unfold nftDecodeAddr. cbn [Json.dec_str Json.dec_object mbind option_bind].
  change (Json.field [(str "prefix", ?v)] (str "prefix")) with (Some v).
  cbn [Json.dec_ptr Json.dec_object mbind option_bind].
  change (Json.field [(str "addr", ?v); (str "len", ?w)] (str "addr")) with (Some v).
  change (Json.field [(str "addr", ?v); (str "len", ?w)] (str "len")) with (Some w).
  rewrite Json.dec_int_lit by (unfold int_max; lia). done.
Qed.

Lemma payload_match_expr proto fld rhs : payload_match (match_expr proto fld rhs) = Some (proto, fld, Some rhs).
Proof. reflexivity. Qed.
Lemma verdict_match_expr proto fld rhs r : apply_verdict (match_expr proto fld rhs) r = r.
Proof. reflexivity. Qed.

Lemma apply_port_expr proto n r : (0 <= n <= int_max)%Z ->
  apply_match (match_expr proto (str "dport") (Json.JNum (Json.int_lit n))) r
    = MkRule (ID r) (Allow r) proto n (Source r) (Dest r).
Proof.
  intros Hn. unfold apply_match. rewrite payload_match_expr, bool_decide_true by done.
  cbn [mbind option_bind]. by rewrite Json.dec_int_lit.
Qed.

(** A rule as its table lists it. *)
Definition listed_rule (r : Rule) : Prop :=
  valid_rule r /\ expressible r /\ (0 < Port r -> Protocol r <> [])%Z /\
  (forall a addr len, a ∈ [Source r; Dest r] -> cut a "/"%char = Some (addr, len) -> exists n, len = itoa n /\ n <= 128).

Lemma apply_addr_exprs a fld r k :
  (fld = str "saddr" \/ fld = str "daddr") ->
  a = [] \/ (word a = true /\ exists fam, fam ∈ family_words /\ nftAddressFamily a = Ok fam) ->
  (forall addr len, cut a "/"%char = Some (addr, len) -> exists n, len = itoa n /\ n <= 128) ->
  Source r = [] \/ fld = str "daddr" -> Dest r = [] ->
  foldl (fun r e => apply_match e (apply_verdict e r)) r (addr_exprs a fld ++ k)
  = foldl (fun r e => apply_match e (apply_verdict e r))
      (if bool_decide (fld = str "saddr") then MkRule (ID r) (Allow r) (Protocol r) (Port r) a (Dest r)
       else MkRule (ID r) (Allow r) (Protocol r) (Port r) (Source r) a) k.
Proof.
  intros Hfld Ha Hc Hs Hd. unfold addr_exprs. destruct Ha as [->|(_ & fam & _ & Hfam)].
  - rewrite nftAddressFamily_nil. cbn [app]. f_equal. destruct r as [i al p po s d]; cbn [Source Dest] in *; subst d.
    destruct Hfld as [->| ->]; [|done]. destruct Hs as [->|Hs]; [done|]. done.
  - rewrite Hfam. cbn [app foldl]. f_equal. rewrite verdict_match_expr. unfold apply_match. rewrite payload_match_expr.
    destruct Hfld as [->| ->]; cbn [bool_decide].
    + rewrite (bool_decide_false (str "saddr" = str "dport")), bool_decide_true by done.
      by rewrite decode_addr.
    + rewrite (bool_decide_false (str "daddr" = str "dport")), (bool_decide_false (str "daddr" = str "saddr")),
        bool_decide_true by done. by rewrite decode_addr.
Qed.

Lemma applyExpr_listed r :
  listed_rule r -> applyExprToRule (rule_exprs r) (MkRule (ID r) false [] 0 [] []) = r.
Proof.
  intros (Hv & He & Hp & Hc). unfold applyExprToRule, rule_exprs.
  rewrite apply_addr_exprs; [|by left|apply (v_src r Hv)|intros ??; apply Hc; left|by left|done].
  rewrite (bool_decide_true (str "saddr" = str "saddr")) by done. cbn [ID Allow Protocol Port Source Dest].
  rewrite apply_addr_exprs; [|by right|apply (v_dst r Hv)|intros ??; apply Hc; right; left|by right|done].
  rewrite (bool_decide_false (str "daddr" = str "saddr")) by done. cbn [ID Allow Protocol Port Source Dest].
  pose proof (v_port r Hv) as Hport.
  assert (Hfin : forall p n, foldl (fun r e => apply_match e (apply_verdict e r)) (MkRule (ID r) false p n (Source r) (Dest r))
    [Json.JObj [(if Allow r then str "accept" else str "drop", Json.JNull)]] = MkRule (ID r) (Allow r) p n (Source r) (Dest r)).
  { intros p n. by destruct (Allow r). }
  destruct (Z.ltb_spec 0 (Port r)) as [Hpos|Hpos]; cbn [app].
  - cbn [foldl]. rewrite verdict_match_expr, apply_port_expr by (unfold int_max; lia).
    cbn [ID Allow Source Dest]. specialize (Hfin (Protocol r) (Port r)). cbn [foldl] in Hfin.
    rewrite Hfin. by destruct r.
  - rewrite Hfin. assert (Hz : Port r = 0%Z) by lia.
    assert (Hn : Protocol r = []). { destruct (decide (Protocol r = [])) as [|Hne]; [done|]. by apply He in Hne. }
    rewrite <-Hz, <-Hn at 1. by destruct r.
Qed.
Definition obj_of (tbl : gostring) (hr : Z * Rule) : nftRuleObject :=
  MkNftRule nftFamily tbl nftChain hr.1 (ID hr.2) (rule_exprs hr.2).

Lemma mapM_id {A} (l : list A) : mapM (fun w => id (Some w)) l = Some l.
Proof. induction l as [|a l IH]; [done|]. cbn [mapM]. unfold id in *. cbn [mbind option_bind]. by rewrite IH. Qed.
Lemma dec_item_rule tbl hr : (0 < hr.1 <= int_max)%Z -> dec_item (Some (rule_item tbl hr)) = Some (Some (obj_of tbl hr)).
Proof.
  intros Hh. unfold dec_item, rule_item. cbn [Json.dec_object mbind option_bind].
  change (Json.field [(str "rule", ?v)] (str "rule")) with (Some v). cbn [Json.dec_ptr].
  unfold dec_rule. cbn [Json.dec_object mbind option_bind].
  match goal with |- context [Json.field ?kvs (str "family")] => set (l := kvs) end.
  change (Json.field l (str "family")) with (Some (Json.JStr nftFamily)).
  change (Json.field l (str "table")) with (Some (Json.JStr tbl)).
  change (Json.field l (str "chain")) with (Some (Json.JStr nftChain)).
  change (Json.field l (str "handle")) with (Some (Json.JNum (Json.int_lit hr.1))).
  change (Json.field l (str "comment")) with (Some (Json.JStr (ID hr.2))).
  change (Json.field l (str "expr")) with (Some (Json.JArr (rule_exprs hr.2))).
  rewrite Json.dec_int_lit by lia. cbn [Json.dec_str mbind option_bind Json.dec_list].
  by rewrite mapM_id.
Qed.
Lemma dec_item_preamble v : preamble v -> dec_item (Some v) = Some None.
Proof.
  intros (k & w & -> & Hk). rewrite !elem_of_cons, elem_of_nil in Hk.
  by destruct Hk as [->|[->|[->|[]]]].
Qed.

(** A listing of the manager's rules has only valid text. *)
Ltac textual := repeat first
  [ apply Json.textual_obj; repeat (apply list.Forall_cons; split); try apply list.Forall_nil
  | apply Json.textual_arr; repeat (apply list.Forall_cons; split); try apply list.Forall_nil
  | split; cbn [fst snd] | apply Json.textual_str | by apply Json.text_ascii | reflexivity ].
Lemma textual_addr a : forallb visible a = true -> Json.textual (addr_json a).
Proof.
  intros H. unfold addr_json. destruct (cut a "/"%char) as [[addr len]|] eqn:E; [|by apply Json.textual_str, Json.word_text].
  apply cut_Some in E as [-> _]. rewrite forallb_app in H. apply andb_prop in H as [H _].
  textual. by apply Json.word_text.
Qed.
Lemma textual_match proto fld rhs : Json.text proto -> Json.text fld -> Json.textual rhs -> Json.textual (match_expr proto fld rhs).
Proof. intros. unfold match_expr. textual; done. Qed.
Lemma textual_addr_exprs a fld :
  a = [] \/ (word a = true /\ exists fam, fam ∈ family_words /\ nftAddressFamily a = Ok fam) -> Json.text fld -> Forall Json.textual (addr_exprs a fld).
Proof.
  unfold addr_exprs. intros [->|(Hw & fam & Hf & Ha)] Hfld; [constructor|]. rewrite Ha. apply list.Forall_singleton, textual_match; [|done|].
  - unfold family_words in Hf. rewrite !elem_of_cons, elem_of_nil in Hf. destruct Hf as [->|[->|[]]]; by apply Json.text_ascii.
  - apply textual_addr. by apply word_spec in Hw as [_ ?].
Qed.
Lemma textual_rule tbl hr : Json.text tbl -> listed_rule hr.2 -> Json.textual (rule_item tbl hr).
Proof.
  intros Ht (Hv & _). unfold rule_item. textual; [exact Ht| |].
  - apply Json.word_text. eapply forallb_mono; [|apply (v_id _ Hv)]. intros c Hc. unfold id_byte in Hc.
    apply orb_true_iff in Hc as [Hc|Hc%bool_decide_eq_true]; [by apply ns_byte_visible|by subst].
  - unfold rule_exprs. rewrite !list.Forall_app. split_and!.
    + apply textual_addr_exprs; [apply (v_src _ Hv)|by apply Json.text_ascii].
    + apply textual_addr_exprs; [apply (v_dst _ Hv)|by apply Json.text_ascii].
    + destruct (0 <? _)%Z; [|constructor]. apply list.Forall_singleton, textual_match; [|by apply Json.text_ascii|reflexivity].
      pose proof (v_proto _ Hv) as Hp. rewrite !elem_of_cons, elem_of_nil in Hp. destruct Hp as [->|[->|[->|[]]]]; by apply Json.text_ascii.
    + apply list.Forall_singleton. destruct (Allow _); textual.
Qed.
Lemma coerce_listing tbl pre t :
  Json.text tbl -> Forall (fun hr => listed_rule hr.2) t -> Forall preamble pre ->
  Json.coerce (listing tbl pre t) = listing tbl (map Json.coerce pre) t /\ Forall preamble (map Json.coerce pre).
Proof.
  intros Ht Hr Hp. split.
  - unfold listing. cbn [Json.coerce map fst snd]. do 4 f_equal. rewrite map_app. f_equal.
    induction Hr as [|hr t Hh Hr IH]; [done|]. rewrite fmap_cons. cbn [map]. by rewrite IH, (textual_rule tbl hr Ht Hh).
  - induction Hp as [|v pre (k & w & -> & Hk) Hp IH]; [constructor|]. constructor; [|done]. exists k, (Json.coerce w). split; [|done].
    cbn [Json.coerce map fst snd]. assert (Json.coerce_str k = k) as ->; [|done].
    rewrite !elem_of_cons, elem_of_nil in Hk. destruct Hk as [->|[->|[->|[]]]]; by apply Json.text_ascii.
Qed.

Lemma unmarshal_listing out tbl pre t :
  Json.parse out = Some (listing tbl pre t) -> Forall preamble pre -> Forall (fun hr => 0 < hr.1 <= int_max)%Z t ->
  unmarshal_list out = Some (((fun _ => None) <$> pre) ++ ((fun hr => Some (obj_of tbl hr)) <$> t)).
Proof.
  intros Hp Hpre Ht. unfold unmarshal_list. rewrite Hp. cbn [mbind option_bind]. unfold listing. cbn [Json.dec_object].
  cbn [mbind option_bind]. change (Json.field [(str "nftables", ?v)] (str "nftables")) with (Some v). cbn [Json.dec_list].
  clear Hp. apply mapM_Some_2, Forall2_app.
  - apply list.Forall2_fmap_r. induction Hpre; [constructor|]. constructor; [by apply dec_item_preamble|done].
  - apply list.Forall2_fmap. induction Ht; [constructor|]. constructor; [by apply dec_item_rule|done].
Qed.

(** ** The manager *)

Section Host.
Context {S} (h : handler S) (tables : S -> gostring -> option table) (canon : gostring -> Prop).
Context `{!NftHost h tables canon} (ns : gostring) (Hns : validateNamespace ns = Ok tt).

Let tbl := nftTableName ns.
(** The namespace is the manager's own: distinct ids and handles, rules it wrote. *)
Record owned (t : table) : Prop := {
  o_ids : NoDup ((fun hr => ID hr.2) <$> t);
  o_handles : NoDup (t.*1);
  o_rules : Forall (fun hr => listed_rule hr.2) t
}.

Definition rules_map (t : table) : gmap gostring Rule := list_to_map ((fun hr => (ID hr.2, hr.2)) <$> t).

Lemma run_list s t : tables s tbl = Some t -> owned t ->
  exists out, run h s (nftListJSON ns) = (s, Ok out) /\ out <> [] /\
    exists pre : list Json.json, unmarshal_list out = Some (((fun _ => None) <$> pre) ++ ((fun hr => Some (obj_of tbl hr)) <$> t)).
Proof.
  intros Ht Ho. destruct (nft_listed s tbl t Ht) as (out & err & pre & Hh & Hp & Hpre). exists out.
  assert (Htbl : Json.text tbl) by (apply Json.word_text; pose proof (table_word ns Hns) as Hw; by apply word_spec in Hw as [_ ?]).
  destruct (coerce_listing tbl pre t Htbl (o_rules t Ho) Hpre) as [Hc Hpre']. rewrite Hc in Hp.
  unfold nftListJSON, run_, exec, ask. cbn [bind run]. fold tbl. change (MkCommand (str "nft")
    [str "-j"; str "list"; str "table"; nftFamily; tbl] [] [] [] true) with (list_cmd tbl).
  rewrite Hh. cbn [bind run ExitCode Z.eqb Stdout]. split; [done|].
  split; [by intros ->|]. exists (map Json.coerce pre). apply unmarshal_listing; [done|done|by eapply nft_handles].
Qed.
Lemma run_list_absent s : tables s tbl = None ->
  exists e, run h s (nftListJSON ns) = (s, Err e) /\ isNoTable e = true.
Proof.
  intros Ht. destruct (nft_absent s tbl Ht) as (out & err & Hh & Hc).
  unfold nftListJSON, run_, exec, ask. cbn [bind run]. fold tbl. change (MkCommand (str "nft")
    [str "-j"; str "list"; str "table"; nftFamily; tbl] [] [] [] true) with (list_cmd tbl).
  rewrite Hh. cbn [bind run ExitCode Z.eqb Stderr]. eexists. split; [done|]. exact Hc.
Qed.

Lemma find_handle (pre : list Json.json) t id out :
  out <> [] -> unmarshal_list out = Some (((fun _ => None) <$> pre) ++ ((fun hr => Some (obj_of tbl hr)) <$> t)) ->
  nftFindRuleHandle out id = head (omap (fun hr => if bool_decide (ID hr.2 = id) then Some hr.1 else None) t).
Proof.
  intros Hne Hu. unfold nftFindRuleHandle. destruct out; [done|]. rewrite Hu. cbn [mbind option_bind].
  f_equal. clear Hu Hne. rewrite omap_app.
  replace (omap (has_comment id) ((fun _ : Json.json => None) <$> pre)) with (@nil Z) by by induction pre.
  cbn [app]. induction t as [|hr t IH]; [done|]. rewrite fmap_cons. cbn [omap list_omap].
  change (has_comment id (Some (obj_of tbl hr))) with (if bool_decide (ID hr.2 = id) then Some hr.1 else None).
  by case_bool_decide; rewrite IH.
Qed.

(** The handle found for an id is the one of its rule. *)
Lemma found_spec t id :
  owned t -> Forall (fun hr => 0 < hr.1 <= int_max)%Z t ->
  match head (omap (fun hr => if bool_decide (ID hr.2 = id) then Some hr.1 else None) t) with
  | Some hd => hd ∈ t.*1 /\ (0 < hd <= int_max)%Z /\
      List.filter (fun hr => negb (hr.1 =? hd)%Z) t = List.filter (fun hr => negb (bool_decide (ID hr.2 = id))) t
  | None => List.filter (fun hr => negb (bool_decide (ID hr.2 = id))) t = t
  end.
Proof.
  intros [Hi Hh _] Hr. induction t as [|[hd r] t IH]; [done|]. rewrite !fmap_cons in *.
  apply list.NoDup_cons in Hi as [Hi1 Hi]. apply list.NoDup_cons in Hh as [Hh1 Hh].
  apply list.Forall_cons in Hr as [Hr1 Hr]. cbn [fst snd] in *. specialize (IH Hi Hh Hr).
  cbn [omap list_omap fst snd]. case_bool_decide as Hid.
  - cbn [head]. split; [by left|]. split; [done|]. cbn [List.filter fst snd].
    rewrite Z.eqb_refl, bool_decide_true by done. cbn [negb]. clear IH Hr.
    induction t as [|[hd' r'] t IHt]; [done|]. rewrite !fmap_cons in *. cbn [fst snd] in *.
    apply not_elem_of_cons in Hi1 as [Hne Hi1]. apply not_elem_of_cons in Hh1 as [Hne' Hh1].
    apply list.NoDup_cons in Hi as [_ Hi]. apply list.NoDup_cons in Hh as [_ Hh]. cbn [List.filter fst snd].
    rewrite (proj2 (Z.eqb_neq hd' hd)) by congruence. rewrite bool_decide_false by congruence. cbn [negb].
    f_equal. by apply IHt.
  - cbn [List.filter fst snd]. rewrite bool_decide_false by done. cbn [negb].
    destruct (head _) as [hd'|].
    + destruct IH as (Hin & Hran & Heq). split; [by right|]. split; [done|].
      rewrite (proj2 (Z.eqb_neq hd hd')) by (intros ->; done). cbn [negb]. by rewrite Heq.
    + by rewrite IH.
Qed.

Definition without (id : gostring) (t : table) : table := List.filter (fun hr => negb (bool_decide (ID hr.2 = id))) t.

Lemma NoDup_fmap_filter {A B} (g : A -> B) (p : A -> bool) (l : list A) :
  NoDup (g <$> l) -> NoDup (g <$> List.filter p l).
Proof.
  induction l as [|a l IH]; [done|]. rewrite fmap_cons. intros [Ha Hl]%list.NoDup_cons. cbn [List.filter].
  destruct (p a); [|auto]. rewrite fmap_cons. apply list.NoDup_cons. split; [|auto].
  intros (x & Hx & [Hin _]%elem_of_List_filter)%list_elem_of_fmap. apply Ha. rewrite Hx. by apply list_elem_of_fmap_2.
Qed.
Lemma owned_filter p t : owned t -> owned (List.filter p t).
Proof.
  intros [Hi Hh Hr]. split; [by apply NoDup_fmap_filter..|]. rewrite list.Forall_forall in *.
  intros hr [Hin _]%elem_of_List_filter. auto.
Qed.
Lemma without_no_id id t : id ∉ (fun hr => ID hr.2) <$> without id t.
Proof.
  intros (hr & -> & Hin)%list_elem_of_fmap. apply list_elem_of_In, filter_In in Hin as [_ Hb].
  by rewrite bool_decide_true in Hb.
Qed.
Lemma owned_snoc t hd r :
  owned t -> listed_rule r -> hd ∉ t.*1 -> ID r ∉ (fun hr => ID hr.2) <$> t -> owned (t ++ [(hd, r)]).
Proof.
  intros [Hi Hh Hr] Hl Hhd Hid. split.
  - rewrite fmap_app. apply list.NoDup_app. split; [done|]. split; [|apply NoDup_singleton].
    intros x Hx. cbn. by intros ->%list_elem_of_singleton.
  - rewrite fmap_app. apply list.NoDup_app. split; [done|]. split; [|apply NoDup_singleton].
    intros x Hx. cbn. by intros ->%list_elem_of_singleton.
  - apply list.Forall_app. split; [done|]. by constructor.
Qed.

Lemma rules_map_without id t : rules_map (without id t) = delete id (rules_map t).
Proof.
  unfold rules_map. induction t as [|[hd r] t IH]; [symmetry; apply delete_id, lookup_empty|]. cbn [without List.filter].
  rewrite fmap_cons, list_to_map_cons. cbn [fst snd]. case_bool_decide as Hid; cbn [negb].
  - rewrite Hid. by rewrite delete_insert_eq.
  - rewrite fmap_cons, list_to_map_cons. cbn [fst snd]. fold (without id t). rewrite IH.
    by rewrite delete_insert_ne.
Qed.
Lemma rules_map_snoc t hd r :
  ID r ∉ (fun hr => ID hr.2) <$> t -> rules_map (t ++ [(hd, r)]) = <[ID r := r]> (rules_map t).
Proof.
  intros H. unfold rules_map. rewrite fmap_app. cbn [fmap list_fmap]. apply list_to_map_snoc.
  by rewrite <-list_fmap_compose.
Qed.

(** The abstract state: the map the namespace's table denotes. *)
Definition holds (s : S) (m : gmap gostring Rule) : Prop :=
  match tables s tbl with
  | None => m = ∅
  | Some t => owned t /\ rules_map t = m
  end.
Definition others_kept (s s' : S) : Prop := forall tbl', tbl' <> tbl -> tables s' tbl' = tables s tbl'.

Lemma exec_apply t0 hd r t' :
  nft_exec (apply_cmds hd r) t0 t' ->
  exists nh, let t1 := if (0 <? hd)%Z then List.filter (fun hr => negb (hr.1 =? hd)%Z) (default [] t0) else default [] t0 in
    t' = Some (t1 ++ [(nh, r)]) /\ nh ∉ t1.*1.
Proof.
  unfold apply_cmds. intros H. cbn [app] in H. inversion H as [|? ? ? H1| | |]; subst.
  inversion H1 as [| |? ? ? H2| |]; subst. destruct (0 <? hd)%Z; cbn [app] in H2.
  - inversion H2 as [| | |? ? ? ? Hin H3|]; subst. inversion H3 as [| | | |? ? ? ? nh Hf H4]; subst.
    inversion H4; subst. by exists nh.
  - inversion H2 as [| | | |? ? ? ? nh Hf H4]; subst. inversion H4; subst. by exists nh.
Qed.
Lemma exec_apply_ok t0 hd r :
  (0 < hd -> hd ∈ (default [] t0).*1)%Z -> exists t', nft_exec (apply_cmds hd r) t0 t'.
Proof.
  intros Hin. unfold apply_cmds. cbn [app]. destruct (Z.ltb_spec 0 hd).
  - eexists. apply x_table, x_chain. cbn [app]. apply x_delete; [auto|].
    eapply (x_add _ _ _ _ (fresh _)); [apply infinite_is_fresh|apply x_nil].
  - eexists. apply x_table, x_chain. cbn [app].
    eapply (x_add _ _ _ _ (fresh _)); [apply infinite_is_fresh|apply x_nil].
Qed.

Lemma run_batch s script cs t' :
  batch cs -> parse_script script = Some ((fun c => (tbl, c)) <$> cs) ->
  (forall r a, AddRule r ∈ cs -> a ∈ [Source r; Dest r] -> a = [] \/ canon a) -> room (tables s tbl) ->
  nft_exec cs (tables s tbl) t' ->
  exists s' t'', run h s (nftRunScript script) = (s', None) /\ nft_exec cs (tables s tbl) t'' /\
    tables s' tbl = t'' /\ others_kept s s'.
Proof.
  intros Hb Hp Hc Hroom Hx. destruct (nft_batch s tbl cs script t' Hb Hp Hc Hroom Hx) as (s' & t'' & Hx' & Hh & Ht & Ho).
  exists s', t''. split; [|done]. unfold nftRunScript, step, runStdin, exec, ask. cbn [bind run].
  change (MkCommand (str "nft") [str "-f"; str "-"] [] [] [] true) with batch_cmd. by rewrite Hh.
Qed.

(** A port comes with a protocol, and two addresses are of one family. *)
Definition coherent (r : Rule) : Prop :=
  (0 < Port r -> Protocol r <> [])%Z /\
  (Source r <> [] -> Dest r <> [] -> nftAddressFamily (Source r) = nftAddressFamily (Dest r)).
(** A rule the manager can install: valid, coherent, with a protocol only beside a port and
    with addresses in [nft]'s notation. *)
Definition installable (r : Rule) : Prop :=
  validateRule r = Ok tt /\ expressible r /\ (forall a, a ∈ [Source r; Dest r] -> a = [] \/ canon a) /\ coherent r.

Lemma addr_match_family side a w :
  a = [] \/ (word a = true /\ exists fam, fam ∈ family_words /\ nftAddressFamily a = Ok fam) ->
  exists ws fam, addr_match side a w = Ok (ws, fam) /\
    (a = [] /\ fam = [] \/ a <> [] /\ fam <> [] /\ nftAddressFamily a = Ok fam).
Proof.
  intros [->|(Hw & fam & Hin & Hf)]; [by exists [], []; split; [|left]|]. unfold addr_match. rewrite Hf.
  destruct a as [|c a]; [done|]. eexists _, fam. split; [done|]. right. split_and!; [done| |done].
  intros ->. revert Hin. apply (bool_decide_unpack _). reflexivity.
Qed.
(** The script is built exactly for the coherent ones of the valid rules. *)
Lemma build_iff r hd : validateRule r = Ok tt -> is_ok (nftBuildApplyScriptStrict ns r hd) = true <-> coherent r.
Proof.
  intros Hv%validateRule_ok. unfold nftBuildApplyScriptStrict, coherent.
  destruct (addr_match_family (str "source") _ (str "saddr") (v_src r Hv)) as (ws & f1 & -> & Hs).
  destruct (addr_match_family (str "dest") _ (str "daddr") (v_dst r Hv)) as (wd & f2 & -> & Hd).
  cbn [result_bind snd]. destruct ((0 <? Port r)%Z && _) eqn:Ep.
  { apply andb_prop in Ep as [Ep%Z.ltb_lt ->%bool_decide_eq_true]. split; [done|]. intros [H _]. by destruct (H Ep). }
  assert (0 < Port r -> Protocol r <> [])%Z as Hp.
  { intros Hp He. apply andb_false_iff in Ep as [Ep%Z.ltb_ge|Ep%bool_decide_eq_false]; [lia|done]. }
  cbv zeta. destruct (_ && _ && _) eqn:Ef; cbn [is_ok].
  - rewrite !andb_true_iff, !negb_true_iff, !bool_decide_eq_false in Ef. destruct Ef as ((H1 & H2) & H3).
    split; [done|]. intros [_ H]. destruct Hs as [[_ ?]|(Hs & _ & Hs')]; [done|]. destruct Hd as [[_ ?]|(Hd & _ & Hd')]; [done|].
    rewrite Hs', Hd' in H. specialize (H Hs Hd). congruence.
  - split; [|done]. intros _. split; [done|]. intros Hs' Hd'.
    destruct Hs as [[? _]|(_ & Hf1 & ->)]; [done|]. destruct Hd as [[? _]|(_ & Hf2 & ->)]; [done|].
    rewrite !bool_decide_false in Ef by done. cbn [negb andb] in Ef. apply negb_false_iff, bool_decide_eq_true in Ef. by rewrite Ef.
Qed.

Lemma installable_listed r : installable r -> listed_rule r.
Proof.
  intros (Hv & He & Hc & Hb). split; [by apply validateRule_ok|]. split; [done|]. split.
  - apply Hb.
  - intros a addr len Ha Hcut. destruct (Hc a Ha) as [->|Hca]; [done|]. by eapply canon_len.
Qed.

(** The handle [ApplyRule] replaces and what it leaves of the table. *)
Lemma run_lookup s id :
  (forall t, tables s tbl = Some t -> owned t) ->
  exists raw, run h s (nftListJSON ns) = (s, raw) /\
    let hd := match raw with Ok raw => default 0%Z (nftFindRuleHandle raw id) | Err _ => 0%Z end in
    (0 <= hd <= int_max)%Z /\ (0 < hd -> hd ∈ (default [] (tables s tbl)).*1)%Z /\
    (if (0 <? hd)%Z then List.filter (fun hr => negb (hr.1 =? hd)%Z) (default [] (tables s tbl))
     else default [] (tables s tbl)) = without id (default [] (tables s tbl)).
Proof.
  intros Ho. destruct (tables s tbl) as [t|] eqn:Ht.
  - destruct (run_list s t Ht (Ho t eq_refl)) as (out & Hr & Hne & pre & Hu). exists (Ok out). split; [done|]. cbv zeta.
    rewrite (find_handle pre t id out Hne Hu).
    pose proof (found_spec t id (Ho t eq_refl) (nft_handles s tbl t Ht)) as Hf.
    destruct (head _) as [hd|]; cbn [from_option]; unfold Datatypes.id.
    + destruct Hf as (Hin & Hran & Heq). split; [lia|]. split; [done|].
      rewrite (proj2 (Z.ltb_lt 0 hd)) by lia. done.
    + split; [unfold int_max; lia|]. split; [intros ?; exfalso; lia|]. done.
  - destruct (run_list_absent s Ht) as (e & Hr & _). exists (Err e). split; [done|]. cbv zeta.
    split; [unfold int_max; lia|]. split; [intros ?; exfalso; lia|]. done.
Qed.

Lemma apply_inserts s m r :
  holds s m -> room (tables s tbl) -> installable r ->
  exists s', run h s (nft_ApplyRule ns r) = (s', None) /\ holds s' (<[ID r := r]> m) /\ others_kept s s'.
Proof.
  intros Hm Hroom Hi. pose proof (installable_listed r Hi) as Hl. destruct Hi as (Hv & He & Hc & Hb).
  assert (Ho : forall t, tables s tbl = Some t -> owned t).
  { intros t Ht. unfold holds in Hm. rewrite Ht in Hm. apply Hm. }
  destruct (run_lookup s (ID r) Ho) as (raw & Hr & Hran & Hin & Hw).
  set (hd := match raw with Ok raw => default 0%Z (nftFindRuleHandle raw (ID r)) | Err _ => 0%Z end) in *.
  apply (build_iff r hd Hv) in Hb. destruct (nftBuildApplyScriptStrict ns r hd) as [script|] eqn:Hs; [|done].
  destruct (exec_apply_ok (tables s tbl) hd r Hin) as [t' Hx].
  assert (Hadd : forall r', AddRule r' ∈ apply_cmds hd r -> r' = r).
  { unfold apply_cmds. intros r'. destruct (0 <? hd)%Z; cbn [app]; rewrite !elem_of_cons, elem_of_nil; naive_solver. }
  assert (Hca : forall r' a, AddRule r' ∈ apply_cmds hd r -> a ∈ [Source r'; Dest r'] -> a = [] \/ canon a).
  { intros r' a ->%Hadd. apply Hc. }
  destruct (run_batch s script (apply_cmds hd r) t') as (s' & t'' & Hrun & Hx' & Ht'' & Hoth);
    [left; eauto|by apply nft_script_exact|done|done|done|].
  exists s'. split; [|split; [|done]].
  - unfold nft_ApplyRule. rewrite Hv. cbn [check]. rewrite run_bind, Hr. cbn [fst snd]. fold hd. cbv zeta.
    by rewrite Hs.
  - apply exec_apply in Hx' as (nh & Hx' & Hnh). rewrite Hw in Hx', Hnh. unfold holds. rewrite Ht'', Hx'.
    set (t := default [] (tables s tbl)) in *.
    assert (Hot : owned t). { unfold t. destruct (tables s tbl) as [t0|]; [by apply Ho|]. split; constructor. }
    assert (Hmt : rules_map t = m). { unfold t, holds in *. destruct (tables s tbl) as [t0|]; [apply Hm|by rewrite Hm]. }
    split; [apply owned_snoc; [by apply owned_filter|done|done|apply without_no_id]|].
    rewrite rules_map_snoc, rules_map_without, Hmt by apply without_no_id. apply insert_delete_eq.
Qed.

(** A rule that is not valid or not coherent changes nothing. *)
Lemma apply_refuses s r :
  (validateRule r <> Ok tt \/ ~ coherent r) -> exists e, run h s (nft_ApplyRule ns r) = (s, Some e).
Proof.
  intros Hr. unfold nft_ApplyRule. destruct (validateRule r) as [[]|e] eqn:Hv; [|by exists e].
  destruct Hr as [Hr|Hr]; [done|]. cbn [check]. rewrite run_bind.
  assert (exists raw, run h s (nftListJSON ns) = (s, raw)) as [raw ->].
  { destruct (tables s tbl) as [t|] eqn:Ht; [destruct (nft_listed s tbl t Ht) as (out & err & pre & Hh & _)|destruct (run_list_absent s Ht) as (e & -> & _)]; [|eauto].
    unfold nftListJSON, run_, exec, ask. cbn [bind run]. fold tbl. change (MkCommand (str "nft")
      [str "-j"; str "list"; str "table"; nftFamily; tbl] [] [] [] true) with (list_cmd tbl). rewrite Hh. cbn [bind run ExitCode Z.eqb]. eauto. }
  cbn [fst snd]. set (hd := match raw with Ok _ => _ | Err _ => _ end).
  destruct (nftBuildApplyScriptStrict ns r hd) as [sc|e] eqn:Hb; [|by exists e].
  destruct Hr. apply (build_iff r hd Hv). by rewrite Hb.
Qed.

Lemma remove_deletes s m id :
  holds s m -> room (tables s tbl) -> validateRuleID id = Ok tt ->
  exists s', run h s (nft_RemoveRule ns id) = (s', None) /\ holds s' (delete id m) /\ others_kept s s'.
Proof.
  intros Hm Hroom Hid. unfold nft_RemoveRule. rewrite Hid. cbn [check]. rewrite run_bind.
  destruct (tables s tbl) as [t|] eqn:Ht.
  - pose proof Hm as Hm'. unfold holds in Hm'. rewrite Ht in Hm'. destruct Hm' as [Ho Hmt].
    destruct (run_list s t Ht Ho) as (out & Hr & Hne & pre & Hu). rewrite Hr. cbn [fst snd].
    rewrite (find_handle pre t id out Hne Hu).
    pose proof (found_spec t id Ho (nft_handles s tbl t Ht)) as Hf. destruct (head _) as [hd|].
    + destruct Hf as (Hin & Hran & Heq).
      destruct (run_batch s (delete_script ns hd) [DeleteRule hd] (Some (without id t))) as (s' & t'' & Hrun & Hx & Ht'' & Hoth).
      * right. eauto.
      * apply delete_script_exact; [done|lia].
      * intros r a Hr'%list_elem_of_singleton. done.
      * by rewrite Ht.
      * rewrite Ht. apply x_delete; [done|]. rewrite Heq. apply x_nil.
      * exists s'. split; [done|]. split; [|done]. unfold holds. rewrite Ht'', Ht in *.
        inversion Hx as [| | |? ? ? ? _ Hx1|]; subst. inversion Hx1; subst. rewrite Heq.
        split; [by apply owned_filter|apply rules_map_without].
    + exists s. split; [done|]. split; [|done]. unfold holds. rewrite Ht. split; [done|].
      rewrite <-Hmt, <-rules_map_without. unfold without. by rewrite Hf.
  - destruct (run_list_absent s Ht) as (e & Hr & Hno). rewrite Hr. cbn [fst snd]. rewrite Hno.
    exists s. split; [done|]. split; [|done]. unfold holds in *. rewrite Ht in *. subst m.
    apply delete_id, lookup_empty.
Qed.

Lemma list_enumerates s m :
  holds s m ->
  match tables s tbl with
  | None => run h s (nft_List ns) = (s, Err (EAbsent ns))
  | Some _ => exists l, run h s (nft_List ns) = (s, Ok l) /\ l ≡ₚ (map_to_list m).*2
  end.
Proof.
  intros Hm. unfold nft_List. rewrite run_bind. destruct (tables s tbl) as [t|] eqn:Ht.
  - unfold holds in Hm. rewrite Ht in Hm. destruct Hm as [Ho <-].
    destruct (run_list s t Ht Ho) as (out & Hr & Hne & pre & Hu). rewrite Hr. cbn [fst snd run].
    exists (t.*2). split.
    + f_equal. unfold nftParseRules. destruct out; [done|]. rewrite Hu. f_equal. rewrite omap_app.
      replace (omap item_rule ((fun _ : Json.json => None) <$> pre)) with (@nil Rule) by (clear Hu; by induction pre).
      cbn [app]. pose proof (o_rules t Ho) as Hl. clear -Hl. induction Hl as [|hr t Hh _ IH]; [done|].
      rewrite fmap_cons. cbn [omap list_omap]. unfold item_rule at 1. cbn [mbind option_bind obj_of n_Comment n_Expr].
      rewrite bool_decide_false by apply Hh. rewrite applyExpr_listed by done. by rewrite IH.
    + unfold rules_map. rewrite map_to_list_to_map.
      * rewrite <-list_fmap_compose. done.
      * rewrite <-list_fmap_compose. apply (o_ids t Ho).
  - destruct (run_list_absent s Ht) as (e & Hr & Hno). rewrite Hr. cbn [fst snd run]. by rewrite Hno.
Qed.
End Host.

(** ** A host *)

(** The state maps tables to their rules; only well-formed entries count. *)
Definition len_ok (a : gostring) : bool :=
  match cut a "/"%char with
  | Some (_, len) => bool_decide (len = itoa (Z.to_nat (digits_val len))) && (digits_val len <=? 128)%Z
  | None => true
  end.
Definition entry_good (hr : Z * Rule) : bool :=
  ((0 <? hr.1) && (hr.1 <=? int_max))%Z && len_ok (Source hr.2) && len_ok (Dest hr.2).
Definition kernel := gostring -> option table.
Definition kernel_tables (k : kernel) (tbl : gostring) : option table := List.filter entry_good <$> k tbl.

Definition fresh_handle (t : table) : Z :=
  default 1%Z (head (List.filter (fun z => negb (bool_decide (z ∈ t.*1))) (seqZ 1 (Z.of_nat (length t) + 1)))).
Lemma fresh_handle_spec t : room (Some t) -> (fresh_handle t ∉ t.*1) /\ (0 < fresh_handle t <= int_max)%Z.
Proof.
  unfold room, fresh_handle. cbn [from_option]. unfold Datatypes.id. intros Hroom.
  destruct (List.filter _ _) as [|z zs] eqn:E; cbn [head from_option].
  - exfalso. assert (Hsub : seqZ 1 (Z.of_nat (length t) + 1) ⊆ t.*1).
    { intros z Hz. destruct (decide (z ∈ t.*1)) as [|Hn]; [done|]. exfalso.
      assert (Hin : z ∈ List.filter (fun z => negb (bool_decide (z ∈ t.*1))) (seqZ 1 (Z.of_nat (length t) + 1))).
      { apply elem_of_List_filter. split; [done|by rewrite bool_decide_false]. }
      rewrite E in Hin. by apply elem_of_nil in Hin. }
    apply NoDup_submseteq in Hsub; [|apply NoDup_seqZ]. apply submseteq_length in Hsub.
    rewrite length_seqZ, length_fmap in Hsub. lia.
  - assert (Hin : z ∈ z :: zs) by left. rewrite <-E in Hin. apply elem_of_List_filter in Hin as [Hz Hb].
    apply negb_true_iff, bool_decide_eq_false in Hb. apply elem_of_seqZ in Hz. split; [done|].
    unfold Datatypes.id. lia.
Qed.

Definition exec_cmd (t : option table) (c : nft_cmd) : option table :=
  match c, t with
  | AddTable, _ => Some (default [] t)
  | AddChain, _ => t
  | DeleteRule hd, Some t => Some (List.filter (fun hr => negb (hr.1 =? hd)%Z) t)
  | AddRule r, Some t => Some (t ++ [(fresh_handle t, r)])
  | _, None => None
  end.
Definition kernel_run (k : kernel) (c : Command) (stdin : gostring) : kernel * (Result * option exec_error) :=
  match Args c with
  | [_; _; _; _; tbl] =>
      (k, (match kernel_tables k tbl with
           | None => MkResult 1 [] (str "Error: No such file or directory")
           | Some t => MkResult 0 (Json.print (listing tbl [Json.JObj [(str "metainfo", Json.JObj [])]] t)) []
           end, None))
  | _ =>
      match parse_script stdin with
      | Some ((tbl, c) :: cs) =>
          let t := foldl exec_cmd (kernel_tables k tbl) (c :: cs.*2) in
          (fun tbl' => if bool_decide (tbl' = tbl) then t else k tbl', (MkResult 0 [] [], None))
      | _ => (k, (MkResult 1 [] (str "Error: syntax error"), None))
      end
  end.
Definition kernel_host : handler kernel := command_host kernel_run absent absent.
Definition kernel_canon (a : gostring) : Prop := len_ok a = true.

Lemma len_ok_spec a addr len : len_ok a = true -> cut a "/"%char = Some (addr, len) -> exists n, len = itoa n /\ n <= 128.
Proof.
  unfold len_ok. intros H E. rewrite E in H. apply andb_true_iff in H as [H1%bool_decide_eq_true H2%Z.leb_le].
  exists (Z.to_nat (digits_val len)). split; [done|lia].
Qed.

Lemma printable_addr a : len_ok a = true -> Json.printable (addr_json a).
Proof.
  intros H. unfold addr_json. destruct (cut a "/"%char) as [[addr len]|] eqn:E; [|done].
  destruct (len_ok_spec a addr len H E) as (n & -> & _). repeat split. exists (Z.of_nat n).
  rewrite Json.int_lit_nonneg by lia. by rewrite Nat2Z.id.
Qed.
Lemma printable_addr_exprs a fld : len_ok a = true -> Forall Json.printable (addr_exprs a fld).
Proof.
  intros H. unfold addr_exprs. destruct (nftAddressFamily a); [|constructor]. constructor; [|constructor].
  by repeat split; try apply printable_addr.
Qed.
Lemma printable_listing tbl t :
  Forall (fun hr => entry_good hr = true) t ->
  Json.printable (listing tbl [Json.JObj [(str "metainfo", Json.JObj [])]] t).
Proof.
  intros H. apply Json.printable_obj. constructor; [|constructor]. apply Json.printable_arr.
  constructor; [done|]. apply list.Forall_fmap. eapply list.Forall_impl; [exact H|]. intros hr Hg.
  unfold entry_good in Hg. apply andb_true_iff in Hg as [[_ Hs]%andb_true_iff Hd].
  apply Json.printable_obj. constructor; [|constructor]. apply Json.printable_obj.
  do 3 (constructor; [done|]). constructor; [by exists hr.1|]. constructor; [done|].
  constructor; [|constructor]. apply Json.printable_arr.
  unfold rule_exprs. rewrite !list.Forall_app. split_and!; try by apply printable_addr_exprs.
  - destruct (0 <? Port hr.2)%Z; [|constructor]. constructor; [|constructor]. repeat split. by exists (Port hr.2).
  - by constructor.
Qed.
Lemma good_all k tbl t : kernel_tables k tbl = Some t -> Forall (fun hr => entry_good hr = true) t.
Proof.
  unfold kernel_tables. destruct (k tbl) as [t0|]; [|done]. intros [= <-]. apply list.Forall_forall.
  by intros hr [_ ?]%elem_of_List_filter.
Qed.
Lemma filter_good t : Forall (fun hr => entry_good hr = true) t -> List.filter entry_good t = t.
Proof. induction 1 as [|hr t Hg _ IH]; [done|]. cbn [List.filter]. by rewrite Hg, IH. Qed.

(** The fold is an execution, and keeps the table well formed. *)
Lemma kernel_exec cs t t' :
  batch cs -> (forall r a, AddRule r ∈ cs -> a ∈ [Source r; Dest r] -> a = [] \/ kernel_canon a) -> room t ->
  (forall t0, t = Some t0 -> Forall (fun hr => entry_good hr = true) t0) -> nft_exec cs t t' ->
  exists t1, foldl exec_cmd t cs = Some t1 /\ nft_exec cs t (Some t1) /\ Forall (fun hr => entry_good hr = true) t1.
Proof.
  intros Hb Hc Hroom Hg Hx.
  assert (Hf : forall p t0, Forall (fun hr => entry_good hr = true) t0 -> Forall (fun hr => entry_good hr = true) (List.filter p t0)).
  { intros p t0 H. rewrite list.Forall_forall in *. intros hr [? _]%elem_of_List_filter. auto. }
  destruct Hb as [(hd & r & ->)|(hd & ->)].
  - set (t0 := default [] t). set (t1 := if (0 <? hd)%Z then List.filter (fun hr => negb (hr.1 =? hd)%Z) t0 else t0).
    assert (Hg0 : Forall (fun hr => entry_good hr = true) t0).
    { unfold t0. destruct t as [t0'|]; [by apply Hg|constructor]. }
    assert (Hr1 : room (Some t1)).
    { unfold room, t1 in *. cbn [from_option]. unfold Datatypes.id. fold t0 in Hroom.
      destruct (0 <? hd)%Z; [|done]. pose proof (filter_length_le (fun hr : Z * Rule => negb (hr.1 =? hd)%Z) t0). lia. }
    destruct (fresh_handle_spec t1 Hr1) as [Hfr Hran].
    assert (Hgr : entry_good (fresh_handle t1, r) = true).
    { unfold entry_good. cbn [fst snd].
      assert (Hl : forall a, a ∈ [Source r; Dest r] -> len_ok a = true).
      { intros a Ha. destruct (Hc r a) as [->|H]; [|done|done|done].
        unfold apply_cmds. apply elem_of_app. right. apply elem_of_app. right. left. }
      rewrite !Hl by set_solver. rewrite (proj2 (Z.ltb_lt _ _)), (proj2 (Z.leb_le _ _)) by lia. done. }
    exists (t1 ++ [(fresh_handle t1, r)]). unfold apply_cmds, t1 in *. cbn [app foldl exec_cmd].
    inversion Hx as [|? ? ? H1| | |]; subst. inversion H1 as [| |? ? ? H2| |]; subst. fold t0 in H2 |- *.
    destruct (0 <? hd)%Z; cbn [app foldl exec_cmd] in *.
    + inversion H2 as [| | |? ? ? ? Hin H3|]; subst. split; [done|]. split.
      * apply x_table. fold t0. apply x_chain, x_delete; [done|]. by eapply x_add; [|apply x_nil].
      * apply list.Forall_app. split; [by apply Hf|by constructor].
    + split; [done|]. split.
      * apply x_table. fold t0. apply x_chain. by eapply x_add; [|apply x_nil].
      * apply list.Forall_app. split; [done|by constructor].
  - inversion Hx as [| | |? ? t0 ? Hin H1|]; subst. cbn [foldl exec_cmd]. eexists. split; [done|].
    split; [apply x_delete; [done|apply x_nil]|]. by apply Hf, Hg.
Qed.

#[export] Instance kernel_host_laws : NftHost kernel_host kernel_tables kernel_canon.
Proof.
  split.
  - intros a addr len. apply len_ok_spec.
  - intros k tbl t Ht%good_all. eapply list.Forall_impl; [exact Ht|]. intros hr Hg. unfold entry_good in Hg.
    apply andb_true_iff in Hg as [[Hg _]%andb_true_iff _]. lia.
  - intros k tbl Ht. eexists _, _. split.
    + unfold kernel_host, command_host, kernel_run. cbn [Args list_cmd nft_cmd_of]. rewrite Ht. reflexivity.
    + by_eval.
  - intros k tbl t Ht. eexists _, _, _. split; [|split].
    + unfold kernel_host, command_host, kernel_run. cbn [Args list_cmd nft_cmd_of]. rewrite Ht. reflexivity.
    + apply Json.parse_print_coerce, printable_listing. by eapply good_all.
    + constructor; [|constructor]. eexists _, _. split; [reflexivity|]. left.
  - intros k tbl cs script t' Hb Hp Hc Hroom Hx.
    destruct (kernel_exec cs (kernel_tables k tbl) t' Hb Hc Hroom (good_all k tbl) Hx) as (t1 & Hfold & Hx1 & Hg1).
    destruct cs as [|c cs]; [by destruct Hb as [(? & ? & ?)|(? & ?)]|].
    exists (fun tbl' => if bool_decide (tbl' = tbl) then Some t1 else k tbl'), (Some t1).
    split; [done|]. split; [|split].
    + unfold kernel_host, command_host, kernel_run. cbn [Args batch_cmd nft_cmd_of]. rewrite Hp, fmap_cons.
      rewrite <-list_fmap_compose. change (snd ∘ (fun c => (tbl, c))) with (fun c : nft_cmd => c).
      rewrite list_fmap_id. by rewrite Hfold.
    + unfold kernel_tables. rewrite bool_decide_true by done. cbn [fmap option_fmap option_map]. by rewrite filter_good.
    + intros tbl' Hne. unfold kernel_tables. by rewrite bool_decide_false.
Qed.

Definition ssh_rule : Rule := MkRule (str "ssh") true (str "tcp") 22 (str "10.0.0.0/8") [].
Definition empty_kernel : kernel := fun _ => None.

End FirewallMap.
