(* ===== verification/FirewallOps.v ===== *)
(** * Firewall: theorems about all backends ([src/sys/firewall])

    Namespaces do not meet, an unconstrained allow rule reaches no backend, no value
    becomes an option, ufw deletes only its own rules, and firewalld service files
    read back as the rule they were written for. *)
From S2P Require Import Prelude Paths Exec HostProg Words Json Net Firewall FirewallNft.

Module FirewallOps.
Import Exec HostProg Words Firewall FirewallNft.

(** ** Namespaces *)

Lemma ns_no c ns : ns_byte c = false -> validateNamespace ns = Ok tt -> c ∉ ns.
Proof. intros Hc [_ Hb]%validateNamespace_ok. by eapply forallb_not_elem. Qed.

Lemma separated_inj c (a b x y : gostring) : c ∉ a -> c ∉ b -> a ++ c :: x = b ++ c :: y -> a = b /\ x = y.
Proof.
  intros Ha Hb E. assert (cut (a ++ c :: x) c = cut (b ++ c :: y) c) as Hc by by rewrite E.
  rewrite !cut_app in Hc by done. by injection Hc.
Qed.
Lemma cut_prefix_other c (ns ns' id : gostring) :
  c ∉ ns -> c ∉ ns' -> ns <> ns' -> cut_prefix (ns' ++ c :: id) (ns ++ [c]) = None.
Proof.
  intros Hn Hn' Hne. unfold cut_prefix. destruct (has_prefix _ _) eqn:E; [|done].
  apply has_prefix_spec in E as [t E]. rewrite <-app_assoc in E. cbn [app] in E.
  apply separated_inj in E as [? _]; by try congruence.
Qed.
Lemma cut_prefix_own (ns id : gostring) : cut_prefix (ns ++ id) ns = Some id.
Proof. unfold cut_prefix. rewrite has_prefix_app. f_equal. apply drop_app_length. Qed.

(** Managers of different namespaces do not meet: their nft tables, ufw comments
    and firewalld services have different names for every rule id, and neither's
    listing takes the other's entries for its own. *)
Theorem namespaces_isolated ns ns' id id' :
  validateNamespace ns = Ok tt -> validateNamespace ns' = Ok tt -> ns <> ns' ->
  nftTableName ns <> nftTableName ns' /\
  ufwCommentIdentity ns id <> ufwCommentIdentity ns' id' /\
  firewalldServiceName ns id <> firewalldServiceName ns' id' /\
  cut_prefix (ufwCommentIdentity ns' id') (ns ++ str ":") = None /\
  cut_prefix (firewalldServiceName ns' id') (ns ++ str "-") = None.
Proof.
  intros Hn Hn' Hne.
  assert (Hc : forall c, ns_byte c = false -> (c ∉ ns) /\ c ∉ ns') by (intros c Hc; split; by apply ns_no).
  destruct (Hc ":"%char eq_refl) as [? ?]. destruct (Hc "-"%char eq_refl) as [? ?]. split_and!.
  - intros E. by apply app_inv_tail in E.
  - intros E. by apply separated_inj in E as [? _].
  - intros E. by apply separated_inj in E as [? _].
  - by apply cut_prefix_other.
  - by apply cut_prefix_other.
Qed.
Lemma namespaces_isolated_witness :
  nftTableName (str "a") <> nftTableName (str "a_b") /\
  ufwCommentIdentity (str "a") (str "x") <> ufwCommentIdentity (str "a_b") (str "x") /\
  firewalldServiceName (str "a") (str "b-x") <> firewalldServiceName (str "a_b") (str "x") /\
  cut_prefix (ufwCommentIdentity (str "a_b") (str "x")) (str "a" ++ str ":") = None /\
  cut_prefix (firewalldServiceName (str "a_b") (str "x")) (str "a" ++ str "-") = None.
Proof.
  destruct (namespaces_isolated (str "a") (str "a_b") (str "x") (str "x")) as (? & ? & _ & ? & ?); [by_eval|by_eval|done|].
  destruct (namespaces_isolated (str "a") (str "a_b") (str "b-x") (str "x")) as (_ & _ & ? & _); [by_eval|by_eval|done|].
  by split_and!.
Defined.

(** ** Refusals *)

(** A rule that fails validation, in particular one that allows all ingress, is
    refused by every backend before the host is asked anything. *)
Theorem invalid_rule_refused b ns rule e :
  validateRule rule = Err e -> ApplyRule (manager b ns) rule = Ret (Some e).
Proof. intros H. destruct b; cbn [manager ApplyRule]; unfold nft_ApplyRule, firewalld_ApplyRule, ufw_ApplyRule; by rewrite H. Qed.
Lemma invalid_rule_refused_witness :
  ApplyRule (manager UFW (str "pm")) (MkRule (str "all") true [] 0 [] [])
    = Ret (Some (InvalidRule (str "allows all ingress"))).
Proof. apply invalid_rule_refused. by_eval. Defined.

Lemma unconstrained_refused id :
  exists e, validateRule (MkRule id true [] 0 [] []) = Err e.
Proof.
  destruct (validateRule (MkRule id true [] 0 [] [])) as [[]|e] eqn:E; [|by eexists].
  exfalso. apply validateRule_ok in E. by destruct (v_scope _ E).
Qed.

(** ** Command lines *)

Definition own_options : list gostring :=
  [str "-j"; str "-f"; str "-"; str "--force"; str "--reload"; str "--permanent"; str "--get-default-zone";
   str "--list-services"].
Definition option_keys : list gostring := [str "--zone="; str "--add-service="; str "--remove-service="].
(** An argument that starts with a dash is one of the manager's own options. *)
Definition confined_arg (a : gostring) : Prop :=
  has_prefix a (str "-") = true -> a ∈ own_options \/ exists k, k ∈ option_keys /\ has_prefix a k = true.
Definition confined_call (c : Command) (_ : gostring) : Prop := Forall confined_arg (Args c).
Definition confined {A} (p : prog A) : Prop := wp (on_run confined_call) p (fun _ => True).

Lemma confined_bind {A B} (p : prog A) (f : A -> prog B) : confined p -> (forall a, confined (f a)) -> confined (bind p f).
Proof. intros Hp Hf. apply wp_bind. eapply wp_mono; [|exact Hp]. intros a _. apply Hf. Qed.
Lemma confined_ret {A} (a : A) : confined (Ret a).
Proof. done. Qed.
Lemma confined_check v k : (v = Ok tt -> confined k) -> confined (check v k).
Proof. destruct v as [[]|e]; [auto|done]. Qed.
Lemma confined_exec i name args : Forall confined_arg args -> confined (exec i name args).
Proof. intros H. apply confined_bind; [by repeat split|]. intros [r e]. apply confined_ret. Qed.
Lemma confined_step msg i name args k : Forall confined_arg args -> confined k -> confined (step msg (exec i name args) k).
Proof. intros Ha Hk. apply confined_bind; [by apply confined_exec|]. intros [r|e]; [done|apply confined_ret]. Qed.
Lemma confined_fs msg o k : confined k -> confined (fs_do msg o k).
Proof. intros Hk. apply confined_bind; [by repeat split|]. intros [e|]; [apply confined_ret|done]. Qed.

Lemma literal_arg a : bool_decide (has_prefix a (str "-") = false \/ a ∈ own_options) = true -> confined_arg a.
Proof. intros [H|H]%bool_decide_eq_true Hp; [by rewrite H in Hp|by left]. Qed.
Lemma keyed_arg k v : k ∈ option_keys -> confined_arg (k ++ v).
Proof. intros Hk _. right. exists k. split; [done|apply has_prefix_app]. Qed.
Lemma plain_arg c s : c <> "-"%char -> confined_arg (c :: s).
Proof. intros Hc H. apply has_prefix_spec in H as [t [= E _]]. done. Qed.

Lemma ns_arg ns s : validateNamespace ns = Ok tt -> confined_arg (ns ++ s).
Proof.
  intros [Hn Hb]%validateNamespace_ok. destruct ns as [|c r]; [done|]. apply plain_arg. intros ->.
  by apply andb_prop in Hb as [Hb _].
Qed.
Lemma num_arg z s : (0 <= z)%Z -> confined_arg (Json.int_lit z ++ s).
Proof.
  intros Hz. rewrite Json.int_lit_nonneg by done. pose proof (itoa_digits (Z.to_nat z)) as Hd.
  destruct (itoa (Z.to_nat z)) as [|c t] eqn:E; [by apply itoa_nonempty in E|]. apply plain_arg. intros ->.
  by apply andb_prop in Hd as [Hd _].
Qed.
Lemma addr_arg fld a : validateAddr fld a = Ok tt -> confined_arg a.
Proof.
  unfold validateAddr. case_bool_decide as Hn; [by subst a|]. destruct a as [|c a]; [done|].
  assert (Hb : forallb Net.addr_byte (c :: a) = true -> confined_arg (c :: a)).
  { intros [Hc _]%andb_prop. apply plain_arg. by intros ->. }
  destruct (Net.ParseCIDR _) eqn:Hc; [by apply Net.ParseCIDR_bytes in Hc as [? _]; auto|].
  destruct (Net.ParseIP _) eqn:Hi; [|done]. intros _. apply Net.ParseIP_bytes in Hi as [Hi _].
  apply Hb. eapply forallb_mono; [apply Net.ip_addr|exact Hi].
Qed.

Create HintDb confined.
#[export] Hint Resolve confined_ret confined_exec confined_step confined_fs literal_arg keyed_arg : confined.
(** Decide an argument list argument by argument. *)
Ltac args := repeat first
  [ apply List.Forall_nil
  | apply List.Forall_cons
  | apply list.Forall_app; split
  | match goal with |- confined_arg (str _) => apply literal_arg; reflexivity end
  | match goal with |- confined_arg (str _ ++ _) => apply keyed_arg; set_solver end
  | assumption ].
Lemma confined_list ns : validateNamespace ns = Ok tt -> confined (nftListJSON ns).
Proof.
  intros Hns. apply confined_bind; [|by intros [r|e]]. apply confined_exec.
  assert (confined_arg (nftTableName ns)) by by apply ns_arg. by args.
Qed.
Lemma confined_script s : confined (nftRunScript s).
Proof. apply confined_step; [args|done]. Qed.

Lemma confined_add_args ns rule args :
  validateNamespace ns = Ok tt -> validateRule rule = Ok tt -> ufwBuildAddArgs ns rule = Ok args -> Forall confined_arg args.
Proof.
  intros Hns Hv Ha. pose proof (validateRule_ok rule Hv) as [_ Hport Hproto _ _ _].
  unfold validateRule in Hv. apply result_seq_ok in Hv as [_ Hv]. apply result_seq_ok in Hv as [_ Hv].
  apply result_seq_ok in Hv as [_ Hv]. apply result_seq_ok in Hv as [Hs Hv]. apply result_seq_ok in Hv as [Hd _].
  unfold ufwBuildAddArgs in Ha. apply result_seq_ok in Ha as [_ Ha]. cbv zeta in Ha. apply ok_inj in Ha as <-.
  assert (Hany : forall a, confined_arg a -> confined_arg (or_any a)) by (intros [|c a] H; [by apply literal_arg|done]).
  apply addr_arg in Hs, Hd. assert (Hp : confined_arg (Protocol rule)).
  { rewrite !elem_of_cons, elem_of_nil in Hproto. destruct Hproto as [->|[->|[->|[]]]]; by apply literal_arg. }
  assert (Hn : confined_arg (Json.int_lit (Port rule))).
  { rewrite <-(app_nil_r (Json.int_lit _)). apply num_arg. lia. }
  assert (Hid : confined_arg (ufwCommentIdentity ns (ID rule))) by by apply ns_arg.
  assert (Hpp : confined_arg (Json.int_lit (Port rule) ++ str "/" ++ Protocol rule)) by (apply num_arg; lia).
  assert (Hverb : confined_arg (if Allow rule then str "allow" else str "deny")) by (destruct (Allow rule); by apply literal_arg).
  destruct (negb (bool_decide (Source rule = [])) || negb (bool_decide (Dest rule = []))), (0 <? Port rule)%Z, (bool_decide (Protocol rule = ProtocolTCP) || bool_decide (Protocol rule = ProtocolUDP));
    cbn [app]; args; by apply Hany.
Qed.

(** Numbers ufw is asked to delete are those of its listing: not negative. *)
Lemma ufwRE_num s m : ufwStatusRuleRE s = Some m -> u_num m <> [] /\ forallb is_digit (u_num m) = true.
Proof.
  unfold ufwStatusRuleRE. intros (s1 & _ & H)%bind_Some. apply bind_Some in H as ([num rest] & Hd & H).
  apply bind_Some in H as (s2 & _ & H). apply bind_Some in H as (s3 & _ & H). apply bind_Some in H as (col & _ & H).
  apply bind_Some in H as (s4 & _ & H). apply bind_Some in H as (act & _ & H). apply bind_Some in H as (r & _ & H).
  injection H as <-. cbn [u_num fst]. unfold span1 in Hd. destruct (span is_digit _) as [a b] eqn:Es.
  apply Net.span_spec in Es as [_ Ha]. destruct a as [|c a]; [done|]. by injection Hd as <- <-.
Qed.
Lemma digits_val_nonneg s : (0 <= digits_val s)%Z.
Proof.
  unfold digits_val. assert (H : forall v, (0 <= v)%Z -> (0 <= fold_left (fun acc c => acc * 10 + Z.of_nat (digit_val c)) s v)%Z).
  { induction s as [|c s IH]; intros v Hv; [done|]. cbn [fold_left]. apply IH. lia. }
  by apply H.
Qed.
Lemma atoi_digits_nonneg s n : forallb is_digit s = true -> atoi s = Some n -> (0 <= n)%Z.
Proof.
  intros Hd. unfold atoi. destruct s as [|c s]; [done|]. pose proof Hd as [Hc _]%andb_prop.
  rewrite !bool_decide_false by (by intros ->). rewrite Hd. destruct (_ && _); [|done]. intros [= <-].
  apply digits_val_nonneg.
Qed.
Lemma line_number_inv target line n :
  line_number target line = Some n ->
  (0 <= n)%Z /\ exists m, status_line line = Some m /\ u_comment m = target /\ atoi (u_num m) = Some n.
Proof.
  unfold line_number. intros (m & Hm & H)%bind_Some. case_bool_decide as Hc; [|done].
  split; [|by eauto]. unfold status_line in Hm. apply ufwRE_num in Hm as [_ Hd]. by eapply atoi_digits_nonneg.
Qed.
Lemma find_number_inv status ns id n :
  ufwFindRuleNumber status ns id = Some n ->
  (0 <= n)%Z /\ exists line m, line ∈ split_byte status NL /\ status_line line = Some m /\
    u_comment m = ufwCommentIdentity ns id /\ atoi (u_num m) = Some n.
Proof.
  unfold ufwFindRuleNumber. intros H.
  assert (Hin : n ∈ omap (line_number (ufwCommentIdentity ns id)) (split_byte status NL)).
  { destruct (omap _ _) as [|z zs]; [done|]. injection H as ->. left. }
  apply list_elem_of_omap in Hin as (line & Hl & Hn). apply line_number_inv in Hn as (? & m & ? & ? & ?).
  split; [done|]. by exists line, m.
Qed.

Lemma confined_delete n : (0 <= n)%Z -> confined (ufwDeleteByNumber n).
Proof.
  intros Hn. apply confined_step; [|done].
  assert (confined_arg (Json.int_lit n)) by (rewrite <-(app_nil_r (Json.int_lit n)); by apply num_arg).
  by args.
Qed.
Lemma confined_status : confined ufwStatusNumbered.
Proof. apply confined_bind; [apply confined_exec; args|by intros [r|e]]. Qed.
Lemma confined_zone : confined firewalldDefaultZone.
Proof. apply confined_bind; [apply confined_exec; args|]. intros [r|e]; [|done]. cbv zeta. by case_match. Qed.
Lemma confined_reload msg k : confined k -> confined (reload msg k).
Proof. intros Hk. apply confined_step; [args|done]. Qed.
Lemma confined_services zone : confined (list_services zone).
Proof. apply confined_exec. args. Qed.
Lemma confined_read ns ids : confined (read_services ns ids).
Proof.
  induction ids as [|id ids IH]; [done|]. apply confined_bind; [by repeat split|]. intros r.
  by apply confined_bind; [exact IH|].
Qed.
Lemma confined_enabled zone svc : confined (firewalldServiceIsEnabled zone svc).
Proof.
  apply wp_bind_ok. eapply wp_mono; [|apply confined_services]. by intros [r|e] _.
Qed.
#[export] Hint Resolve confined_list confined_script confined_delete confined_status confined_zone
  confined_reload confined_services confined_read confined_enabled : confined.

(** The operations of a manager. *)
Inductive is_op (m : Manager) : forall A, prog A -> Prop :=
| o_apply r : is_op m _ (ApplyRule m r)
| o_remove id : is_op m _ (RemoveRule m id)
| o_list : is_op m _ (List_ m).

Lemma confined_apply b ns r : validateNamespace ns = Ok tt -> confined (ApplyRule (manager b ns) r).
Proof.
  intros Hns. destruct b; cbn [manager ApplyRule]; apply confined_check; intros Hv.
  - apply confined_bind; [auto with confined|]. intros raw. cbv zeta.
    destruct (nftBuildApplyScriptStrict _ _ _); auto with confined.
  - apply confined_check. intros _. apply confined_bind; [auto with confined|]. intros [z|e]; [|done]. cbv zeta.
    apply confined_fs, confined_reload, confined_step; [args|]. by apply confined_reload.
  - destruct (ufwBuildAddArgs ns r) as [args|e] eqn:Ha; [|done].
    apply confined_bind; [auto with confined|]. intros st. cbv zeta.
    assert (Hadd : confined (step (str "ufw") (run_ (str "ufw") args) (Ret None))).
    { apply confined_step; [by eapply confined_add_args|done]. }
    destruct st as [st|e]; [|done]. destruct (ufwFindRuleNumber st ns (ID r)) as [n|] eqn:Hf; [|done].
    apply find_number_inv in Hf as [Hn _]. apply confined_bind; [by apply confined_delete|]. by intros [e|].
Qed.
Lemma confined_remove b ns id : validateNamespace ns = Ok tt -> confined (RemoveRule (manager b ns) id).
Proof.
  intros Hns. destruct b; cbn [manager RemoveRule]; apply confined_check; intros Hv.
  - apply confined_bind; [auto with confined|]. intros [raw|e]; [|by destruct (isNoTable e)].
    destruct (nftFindRuleHandle raw id); auto with confined.
  - apply confined_bind; [auto with confined|]. intros [z|e]; [|done]. cbv zeta.
    apply confined_bind; [auto with confined|].
    assert (Htail : forall p, confined (fs_do (str "remove") (FsRemove p) (reload (str "firewall-cmd --reload") (Ret None)))).
    { intros p. by apply confined_fs, confined_reload. }
    intros [[]|e]; [|apply Htail|done]. apply confined_step; [args|apply Htail].
  - apply confined_bind; [auto with confined|]. intros [st|e]; [|done].
    destruct (ufwFindRuleNumber st ns id) as [n|] eqn:Hf; [|done].
    apply find_number_inv in Hf as [Hn _]. by apply confined_delete.
Qed.
Lemma confined_List b ns : validateNamespace ns = Ok tt -> confined (List_ (manager b ns)).
Proof.
  intros Hns. destruct b; cbn [manager List_].
  - by apply confined_bind; [auto with confined|intros raw; apply confined_ret].
  - apply wp_bind_ok. eapply wp_mono; [|apply confined_zone]. intros [z|e] _; [|done].
    apply confined_bind; [auto with confined|]. intros [res|e]; [|done].
    by apply confined_bind; [auto with confined|].
  - apply wp_bind_ok. eapply wp_mono; [|apply confined_status]. by intros [st|e] _.
Qed.

(** On every host and whatever the rule, every argument that starts with a dash in
    the command line of any backend is one of that backend's own options. *)
Theorem firewall_args_confined b namespace runner m A (p : prog A) {S} (h : handler S) s :
  New b namespace runner = Ok m -> is_op m A p ->
  Forall (fun ci => Forall confined_arg (Args ci.1)) (commands h s p).
Proof.
  unfold New. intros Hm Hp. apply result_seq_ok in Hm as [Hns Hm]. destruct runner; [|done]. cbn [negb] in Hm.
  destruct (backend_of b) as [bk|]; [|done]. injection Hm as <-.
  assert (Hc : confined p) by (destruct Hp; [by apply confined_apply|by apply confined_remove|by apply confined_List]).
  by apply (wp_commands _ h s) in Hc as [Hc _].
Qed.

Definition quiet : handler unit := command_host (fun s _ _ => (s, (MkResult 0 [] [], None))) absent absent.
Lemma firewall_args_confined_witness :
  Forall (fun ci => Forall confined_arg (Args ci.1))
    (commands quiet tt (ApplyRule (manager UFW (str "pm")) (MkRule (str "ssh") true (str "tcp") 22 [] []))).
Proof.
  refine (firewall_args_confined 3 (str "pm") true (manager UFW (str "pm")) _ _ quiet tt eq_refl _). constructor.
Defined.
(** ** ufw deletes its own rules *)

Definition ufw_cmd (args : list gostring) : Command := MkCommand (str "ufw") args [] [] [] true.
Definition status_cmd : Command := ufw_cmd [str "status"; str "numbered"].
Definition delete_cmd (n : Z) : Command := ufw_cmd [str "--force"; str "delete"; Json.int_lit n].
(** The host listed rule [n] with the comment of [ns] and [id]. *)
Definition listed_as {S} (h : handler S) (ns id : gostring) (n : Z) : Prop :=
  exists s1 s2 res line m, h _ s1 (CRun status_cmd []) = (s2, (res, None)) /\ ExitCode res = 0%Z /\
    line ∈ split_byte (Stdout res) NL /\ status_line line = Some m /\
    u_comment m = ufwCommentIdentity ns id /\ atoi (u_num m) = Some n.

Lemma elem_step {S} (h : handler S) s msg i name args k ci :
  ci ∈ commands h s (step msg (exec i name args) k) ->
  ci = (MkCommand name args [] [] [] true, i) \/ exists s', ci ∈ commands h s' k.
Proof.
  unfold step, exec, ask. cbn [bind]. rewrite elem_of_commands_cons. cbn [request_of command_of].
  intros [[= <-]|H]; [by left|]. right. destruct (h _ s _) as [s' [res err]]. cbn [fst snd bind] in H.
  exists s'. destruct err; [by rewrite commands_ret in H|]. destruct (ExitCode res =? 0)%Z; [done|].
  by rewrite commands_ret in H.
Qed.
Lemma elem_delete {S} (h : handler S) s n ci : ci ∈ commands h s (ufwDeleteByNumber n) -> ci = (delete_cmd n, []).
Proof. intros [->|[s' H]]%elem_step; [done|by rewrite commands_ret in H]. Qed.

Lemma elem_status {S} {A} (h : handler S) s (k : result fw_error gostring -> prog A) ci :
  ci ∈ commands h s (bind ufwStatusNumbered k) ->
  ci = (status_cmd, []) \/ exists s', (exists e, ci ∈ commands h s' (k (Err e))) \/
    exists s1 res, h _ s1 (CRun status_cmd []) = (s', (res, None)) /\ ExitCode res = 0%Z /\
      ci ∈ commands h s' (k (Ok (Stdout res))).
Proof.
  unfold ufwStatusNumbered, run_, exec, ask. cbn [bind]. rewrite elem_of_commands_cons. cbn [request_of command_of].
  intros [[= <-]|H]; [by left|]. right. fold status_cmd in H |- *.
  change (MkCommand (str "ufw") [str "status"; str "numbered"] [] [] [] true) with status_cmd in H.
  destruct (h _ s (CRun status_cmd [])) as [s' [res err]] eqn:Hh. cbn [fst snd bind] in H. exists s'.
  destruct err; [left; by eexists|]. destruct (Z.eqb_spec (ExitCode res) 0); [right; by eauto|left; by eexists].
Qed.

Lemma find_listed {S} (h : handler S) s1 s2 res ns id n :
  h _ s1 (CRun status_cmd []) = (s2, (res, None)) -> ExitCode res = 0%Z ->
  ufwFindRuleNumber (Stdout res) ns id = Some n -> listed_as h ns id n.
Proof.
  intros Hh Hc (_ & line & m & ? & ? & ? & ?)%find_number_inv. by exists s1, s2, res, line, m.
Qed.

(** ufw is told to delete a rule number only after its own listing showed that
    number with exactly this manager's comment for this rule id. *)
Theorem ufw_deletes_own {S} (h : handler S) s ns id rule n i :
  (delete_cmd n, i) ∈ commands h s (ufw_RemoveRule ns id) \/
  ((delete_cmd n, i) ∈ commands h s (ufw_ApplyRule ns rule) /\ id = ID rule) ->
  exists n', delete_cmd n = delete_cmd n' /\ listed_as h ns id n'.
Proof.
  intros [H|[H ->]].
  - unfold ufw_RemoveRule in H. destruct (validateRuleID id); [|by rewrite commands_ret in H]. cbn [check] in H.
    apply elem_status in H as [H|(s' & [(e & H)|(s1 & res & Hh & Hc & H)])]; [done|by rewrite commands_ret in H|].
    destruct (ufwFindRuleNumber _ _ _) as [n'|] eqn:Hf; [|by rewrite commands_ret in H].
    apply elem_delete in H. exists n'. split; [by apply (f_equal fst) in H|]. by eapply find_listed.
  - unfold ufw_ApplyRule in H. destruct (validateRule rule); [|by rewrite commands_ret in H]. cbn [check] in H.
    destruct (ufwBuildAddArgs ns rule) as [args|] eqn:Ha; [|by rewrite commands_ret in H].
    assert (Hadd : forall s', (delete_cmd n, i) ∈ commands h s' (step (str "ufw") (run_ (str "ufw") args) (Ret None)) -> False).
    { intros s' [[= Ho _]|[s'' Hr]]%elem_step; [|by rewrite commands_ret in Hr].
      unfold ufwBuildAddArgs in Ha. apply result_seq_ok in Ha as [_ Ha]. cbv zeta in Ha. apply ok_inj in Ha.
      rewrite <-Ho in Ha. cbn [app] in Ha. by destruct (Allow rule). }
    apply elem_status in H as [H|(s' & [(e & H)|(s1 & res & Hh & Hc & H)])]; [done|by apply Hadd in H|].
    cbv zeta in H. destruct (ufwFindRuleNumber _ _ _) as [n'|] eqn:Hf; [|by apply Hadd in H].
    unfold ufwDeleteByNumber, step, run_, exec, ask in H. cbn [bind] in H.
    rewrite elem_of_commands_cons in H. cbn [request_of command_of] in H. destruct H as [[= Hn <-]|H].
    + exists n'. split; [by unfold delete_cmd, ufw_cmd; rewrite Hn|]. by eapply find_listed.
    + destruct (h _ s' _) as [s'' [res' err]]. cbn [fst snd bind] in H.
      destruct err; [by rewrite commands_ret in H|]. destruct (ExitCode res' =? 0)%Z; cbn [bind] in H;
        [by apply Hadd in H|by rewrite commands_ret in H].
Qed.

Definition sample_host : handler unit := command_host (fun s _ _ => (s, (MkResult 0 ufw_sample [], None))) absent absent.
Lemma ufw_deletes_own_witness : exists n', delete_cmd 10 = delete_cmd n' /\ listed_as sample_host (str "other") (str "dns") n'.
Proof.
  apply (ufw_deletes_own sample_host tt (str "other") (str "dns") (MkRule [] false [] 0 [] []) 10 []). left.
  apply list_elem_of_In. right. left. by_eval.
Defined.
(** ** firewalld service files *)

(** [cut_str] finds a key that ends in its only [c] after text without [c]. *)
Lemma cut_str_here (m k : gostring) c rest :
  c ∉ m -> c ∉ k -> cut_str (m ++ k ++ c :: rest) (k ++ [c]) = Some (m, rest).
Proof.
  intros Hm Hk. induction m as [|a m IH].
  - cbn [app]. change (k ++ c :: rest) with (k ++ [c] ++ rest). rewrite app_assoc.
    destruct ((k ++ [c]) ++ rest) as [|x y] eqn:E; [by destruct k|]. cbn [cut_str]. rewrite <-E.
    rewrite has_prefix_app. by rewrite drop_app_length.
  - apply not_elem_of_cons in Hm as [Ha Hm]. cbn [app cut_str].
    destruct (has_prefix _ _) eqn:E; [|by rewrite IH]. exfalso. apply has_prefix_spec in E as [t E].
    rewrite <-app_assoc in E. cbn [app] in E.
    assert (E2 : cut ((a :: m ++ k) ++ c :: rest) c = cut (k ++ c :: t) c) by (f_equal; cbn [app]; by rewrite <-app_assoc).
    rewrite (cut_app k) in E2 by done.
    rewrite cut_app in E2 by (apply not_elem_of_cons; split; [done|]; by apply not_elem_of_app).
    injection E2 as E2 _. apply (f_equal length) in E2. cbn [length] in E2. rewrite length_app in E2. lia.
Qed.
(** A [c] that does not end the key is passed over. *)
Lemma cut_str_skip (m k : gostring) c rest :
  c ∉ m -> c ∉ k -> k <> [] -> has_suffix m k = false ->
  cut_str (m ++ c :: rest) (k ++ [c]) =
  match cut_str rest (k ++ [c]) with Some (a, b) => Some (m ++ c :: a, b) | None => None end.
Proof.
  intros Hm Hk Hne. revert Hm. induction m as [|a m IH]; intros Hm Hs.
  - cbn [app cut_str]. destruct (has_prefix _ _) eqn:E; [|by destruct (cut_str rest _) as [[]|]].
    exfalso. apply has_prefix_spec in E as [t E]. destruct k as [|x k]; [done|]. injection E as -> _.
    apply Hk. left.
  - apply not_elem_of_cons in Hm as [Ha Hm]. cbn [app cut_str]. destruct (has_prefix _ _) eqn:E.
    + exfalso. apply has_prefix_spec in E as [t E]. rewrite <-app_assoc in E. cbn [app] in E.
      assert (E2 : cut ((a :: m) ++ c :: rest) c = cut (k ++ c :: t) c) by (by f_equal).
      rewrite (cut_app k) in E2 by done. rewrite cut_app in E2 by by apply not_elem_of_cons. injection E2 as E2 _.
      rewrite E2 in Hs. unfold has_suffix in Hs. rewrite <-(app_nil_r (rev k)) in Hs at 1.
      by rewrite has_prefix_app in Hs.
    + rewrite IH.
      * by destruct (cut_str rest _) as [[]|].
      * done.
      * unfold has_suffix in *. cbn [rev] in Hs. apply not_true_iff_false. intros [t Ht]%has_prefix_spec.
        rewrite Ht, <-app_assoc, has_prefix_app in Hs. done.
Qed.

Definition xml_head : gostring :=
  str "<?xml version=" ++ q (str "1.0") ++ str " encoding=" ++ q (str "utf-8") ++ str "?>" ++ [NL].
Definition xml_middle (ns id : gostring) : gostring :=
  str "<service>" ++ [NL] ++ str "  <short>" ++ firewalldServiceName ns id ++ str "</short>" ++ [NL] ++
  str "  <description>" ++ ns ++ str " managed rule</description>" ++ [NL] ++ str "  <".
Lemma xml_shape ns r :
  firewalldServiceXML ns r =
  xml_head ++ xml_middle ns (ID r) ++ str "port port=" ++ Json.QUOTE :: Json.int_lit (Port r) ++ Json.QUOTE ::
  str " protocol=" ++ Json.QUOTE :: Protocol r ++ Json.QUOTE :: str "/>" ++ [NL] ++ str "</service>" ++ [NL].
Proof.
  unfold firewalldServiceXML, xml_head, xml_middle, q. cbn [join]. rewrite <-!app_assoc. cbn [app].
  rewrite <-!app_assoc. reflexivity.
Qed.

Lemma head_skipped (k : gostring) rest :
  k = str "port port=" \/ k = str "protocol=" ->
  cut_str (xml_head ++ rest) (k ++ [Json.QUOTE]) =
  match cut_str rest (k ++ [Json.QUOTE]) with Some (a, b) => Some (xml_head ++ a, b) | None => None end.
Proof.
  intros [->| ->]; unfold xml_head, q; cbn [app str String.list_ascii_of_string]; cbn [cut_str has_prefix];
    (match goal with |- context [cut_str rest ?k] => destruct (cut_str rest k) as [[]|] end); reflexivity.
Qed.

Lemma attribute_at (key pre body v rest : gostring) :
  cut_str body (key ++ [Json.QUOTE]) = Some (pre, v ++ Json.QUOTE :: rest) -> v <> [] -> Json.QUOTE ∉ v ->
  attribute key body = Some v.
Proof.
  intros Hc Hv Hq. unfold attribute. rewrite Hc, index_byte_app by done.
  destruct v as [|a v]; [done|]. cbn [length]. f_equal. change (S (length v)) with (length (a :: v)).
  apply take_app_length.
Qed.

(** The service file firewalld gets for a rule reads back as that rule: [List]
    returns what [ApplyRule] wrote, id, protocol and port. *)
Theorem firewalld_service_roundtrip ns r :
  validateNamespace ns = Ok tt -> validateRule r = Ok tt -> firewalldValidateRule r = Ok tt ->
  service_rule (ID r) (firewalldServiceXML ns r) = Some r.
Proof.
  intros Hns Hv Hf. apply validateRule_ok in Hv.
  assert (Hr : Allow r = true /\ Source r = [] /\ Dest r = [] /\ (Protocol r = ProtocolTCP \/ Protocol r = ProtocolUDP) /\ (0 < Port r)%Z).
  { unfold firewalldValidateRule in Hf. destruct (Allow r); [|done]. cbn [negb] in Hf.
    do 2 (case_bool_decide; [|done]; cbn [negb] in Hf).
    destruct (negb _ && negb _) eqn:Ep; [done|]. destruct (Z.leb_spec (Port r) 0); [done|].
    split_and!; try done. repeat case_bool_decide; auto; done. }
  destruct Hr as (Ha & Hs & Hd & Hp & Hport). pose proof (v_port r Hv) as Hmax.
  assert (Hqn : (Json.QUOTE ∉ Json.int_lit (Port r)) /\ Json.int_lit (Port r) <> []).
  { rewrite Json.int_lit_nonneg by lia. split; [|apply itoa_nonempty]. by eapply forallb_not_elem; [apply itoa_digits|]. }
  destruct Hqn as [Hqn Hnn].
  assert (Hqm : Json.QUOTE ∉ xml_middle ns (ID r)).
  { unfold xml_middle, firewalldServiceName. rewrite !not_elem_of_app.
    assert (Json.QUOTE ∉ ns) by by apply ns_no.
    assert (Json.QUOTE ∉ ID r) by (eapply forallb_not_elem; [apply (v_id r Hv)|done]).
    split_and!; try done; by apply (bool_decide_unpack _). }
  assert (Hatt1 : attribute (str "port port=") (firewalldServiceXML ns r) = Some (Json.int_lit (Port r))).
  { eapply attribute_at; [|done|done]. rewrite xml_shape, head_skipped by by left.
    rewrite cut_str_here by (done || by apply (bool_decide_unpack _)). reflexivity. }
  assert (Hatt2 : attribute (str "protocol=") (firewalldServiceXML ns r) = Some (Protocol r)).
  { eapply attribute_at.
    - rewrite xml_shape, head_skipped by by right. rewrite app_assoc, cut_str_skip.
      + rewrite cut_str_skip.
        * change (str " protocol=" ++ Json.QUOTE :: ?x) with (str " " ++ str "protocol=" ++ Json.QUOTE :: x).
          rewrite cut_str_here by by apply (bool_decide_unpack _). reflexivity.
        * done.
        * by apply (bool_decide_unpack _).
        * done.
        * unfold has_suffix. rewrite Json.int_lit_nonneg by lia. pose proof (itoa_digits (Z.to_nat (Port r))) as Hdg.
          rewrite <-forallb_rev in Hdg. destruct (rev (itoa _)) as [|d ds]; [done|].
          apply andb_prop in Hdg as [Hdg _]. apply not_true_iff_false. intros [t [= -> _]]%has_prefix_spec. done.
      + apply not_elem_of_app. split; [done|by apply (bool_decide_unpack _)].
      + by apply (bool_decide_unpack _).
      + done.
      + unfold has_suffix. rewrite rev_app_distr. reflexivity.
    - by destruct Hp as [->| ->].
    - destruct Hp as [->| ->]; by apply (bool_decide_unpack _). }
  unfold service_rule. rewrite Hatt1, Hatt2. cbn [mbind option_bind from_option]. unfold Datatypes.id.
  rewrite Json.int_lit_nonneg by lia. rewrite atoi_itoa by (rewrite Z2Nat.id by lia; unfold int_max; lia).
  cbn [from_option]. rewrite Z2Nat.id by lia. rewrite (proj2 (Z.eqb_neq _ _)) by lia.
  rewrite bool_decide_false by (by destruct Hp as [->| ->]). cbn [orb].
  destruct r as [id al pr po so de]; cbn in *. by subst.
Qed.
Lemma firewalld_service_roundtrip_witness :
  service_rule (str "ssh") (firewalldServiceXML (str "pm") (MkRule (str "ssh") true (str "tcp") 22 [] []))
    = Some (MkRule (str "ssh") true (str "tcp") 22 [] []).
Proof. apply (firewalld_service_roundtrip (str "pm") (MkRule (str "ssh") true (str "tcp") 22 [] [])); by_eval. Defined.

(** ** What the ufw listing parser does not see *)

(** The IPv6 twin of a rule is not recognised: after a removal that succeeds, the
    twin is still there and every further removal does nothing. *)
Lemma ufw_v6_twin_survives :
  let status := str "[ 1] 22/tcp (v6)                ALLOW IN    Anywhere (v6)              # pm:ssh" ++ [NL] in
  ufwFindRuleNumber status (str "pm") (str "ssh") = None /\ ufwParseStatus status (str "pm") = [].
Proof. split; by_eval. Qed.
(** Nor is a rule with a destination and a port, whose first column is two words. *)
Lemma ufw_scoped_rule_unseen :
  let status := str "[ 1] 10.0.0.1 22/tcp            ALLOW IN    Anywhere                   # pm:db" ++ [NL] in
  ufwFindRuleNumber status (str "pm") (str "db") = None /\ ufwParseStatus status (str "pm") = [].
Proof. split; by_eval. Qed.
(** A ufw that cannot be run at all makes [RemoveRule] report success. *)
Lemma ufw_remove_swallows_errors {S} (h : handler S) s s' ns id res e :
  validateRuleID id = Ok tt -> h _ s (CRun status_cmd []) = (s', (res, Some e)) ->
  run h s (ufw_RemoveRule ns id) = (s', None).
Proof.
  intros Hid Hh. unfold ufw_RemoveRule. rewrite Hid. cbn [check]. unfold ufwStatusNumbered, run_, exec, ask.
  cbn [bind run]. change (MkCommand (str "ufw") [str "status"; str "numbered"] [] [] [] true) with status_cmd.
  by rewrite Hh.
Qed.
End FirewallOps.
