(* ===== verification/Wordlist.v ===== *)
(** * The words of generated passphrases ([src/sys/encryption/wordlist.go]) *)
From S2P Require Import Prelude.

Module Wordlist.

Definition wordList : list gostring := str <$> [
  "Able"; "About"; "Above"; "Acid"; "Acre"; "Adam"; "After"; "Again"; "Agent"; "Agree"; "Ahead";
  "Aisle"; "Alarm"; "Album"; "Alert"; "Alien"; "Align"; "Alive"; "Allen"; "Alloy"; "Allow";
  "Along"; "Alpha"; "Alter"; "Among"; "Ample"; "Angel"; "Anger"; "Angle"; "Angry"; "Ankle";
  "Annie"; "Annual"; "Apart"; "Apple"; "April"; "Arena"; "Argue"; "Arise"; "Array"; "Arrow";
  "Aside"; "Asset"; "Atlas"; "Atoms"; "Audio"; "Audit"; "Avoid"; "Award"; "Aware"; "Badge";
  "Baker"; "Basin"; "Basis"; "Batch"; "Beach"; "Beast"; "Begin"; "Being"; "Below"; "Bench";
  "Berry"; "Bible"; "Black"; "Blade"; "Blake"; "Blame"; "Bland"; "Blank"; "Blast"; "Blaze";
  "Bleed"; "Blend"; "Bless"; "Blind"; "Block"; "Blood"; "Bloom"; "Blown"; "Board"; "Bonus";
  "Books"; "Booth"; "Bound"; "Brain"; "Brand"; "Brass"; "Brave"; "Bread"; "Break"; "Breed";
  "Brick"; "Brief"; "Bring"; "Broad"; "Brook"; "Brown"; "Brush"; "Build"; "Built"; "Bunch";
  "Burst"; "Buyer"; "Cable"; "Cabin"; "Camel"; "Canal"; "Canon"; "Cards"; "Cargo"; "Carol";
  "Carry"; "Catch"; "Cause"; "Cedar"; "Chain"; "Chair"; "Chalk"; "Chaos"; "Charm"; "Chart";
  "Chase"; "Cheap"; "Check"; "Cheek"; "Chess"; "Chest"; "Chief"; "Child"; "Chips"; "Chord";
  "Chunk"; "Cider"; "Cigar"; "Claim"; "Clash"; "Class"; "Clean"; "Clear"; "Clerk"; "Click";
  "Cliff"; "Climb"; "Cling"; "Clock"; "Clone"; "Close"; "Cloud"; "Coach"; "Coast"; "Color";
  "Comet"; "Comic"; "Coral"; "Count"; "Court"; "Cover"; "Craft"; "Crane"; "Crash"; "Crazy";
  "Cream"; "Creek"; "Crest"; "Crew"; "Crime"; "Cross"; "Crowd"; "Crown"; "Crush"; "Curve"; "Cycle";
  "Daily"; "Dance"; "Dealt"; "Decay"; "Delta"; "Dense"; "Depth"; "Derby"; "Deuce"; "Devil";
  "Diary"; "Dirty"; "Disco"; "Donor"; "Doubt"; "Dough"; "Draft"; "Drain"; "Drake"; "Drama";
  "Drawn"; "Dream"; "Dress"; "Drift"; "Drill"; "Drink"; "Drive"; "Drums"; "Drunk"; "Dusty";
  "Dutch"; "Dwarf"; "Eagle"; "Early"; "Earth"; "Eight"; "Elder"; "Elite"; "Email"; "Embed";
  "Enemy"; "Enjoy"; "Enter"; "Entry"; "Equal"; "Error"; "Essay"; "Event"; "Every"; "Exact";
  "Exile"; "Extra"; "Fable"; "Facet"; "Faith"; "False"; "Fancy"; "Fault"; "Feast"; "Fence";
  "Ferry"; "Fetch"; "Fever"; "Fiber"; "Field"; "Fifth"; "Fifty"; "Fight"; "Final"; "Flair";
  "Flame"; "Flash"; "Fleet"; "Flesh"; "Float"; "Flock"; "Flood"; "Floor"; "Flora"; "Flour";
  "Fluid"; "Flush"; "Flute"; "Focus"; "Force"; "Forge"; "Forum"; "Found"; "Frame"; "Frank";
  "Fraud"; "Fresh"; "Fried"; "Front"; "Frost"; "Fruit"; "Fully"; "Funds"; "Gamma"; "Gauge";
  "Genes"; "Ghost"; "Giant"; "Given"; "Glade"; "Gland"; "Glass"; "Globe"; "Gloom"; "Glory";
  "Gloss"; "Glove"; "Gnome"; "Going"; "Grace"; "Grade"; "Grain"; "Grand"; "Grant"; "Graph";
  "Grasp"; "Grass"; "Grave"; "Great"; "Green"; "Greet"; "Grief"; "Grill"; "Grind"; "Groan";
  "Groom"; "Group"; "Grove"; "Grown"; "Guard"; "Guess"; "Guest"; "Guide"; "Guild"; "Guilt";
  "Happy"; "Hardy"; "Haven"; "Hazel"; "Heart"; "Heavy"; "Hedge"; "Hello"; "Hence"; "Herbs";
  "Heron"; "Hilfe"; "Hobby"; "Honey"; "Honor"; "Horse"; "Hotel"; "House"; "Human"; "Humor";
  "Hurry"; "Ideal"; "Image"; "Inbox"; "Index"; "India"; "Indie"; "Inner"; "Input"; "Irish";
  "Issue"; "Ivory"; "Japan"; "Jason"; "Jewel"; "Joint"; "Joker"; "Jones"; "Judge"; "Juice";
  "Karen"; "Kenya"; "Knife"; "Known"; "Label"; "Labor"; "Lager"; "Lance"; "Large"; "Laser";
  "Later"; "Latin"; "Laugh"; "Layer"; "Learn"; "Lease"; "Leave"; "Legal"; "Lemon"; "Level";
  "Light"; "Limit"; "Linen"; "Links"; "Lions"; "Liver"; "Local"; "Lodge"; "Logic"; "Loose";
  "Lorry"; "Lotus"; "Lover"; "Lower"; "Lucky"; "Lunar"; "Lunch"; "Lyric"; "Magic"; "Major";
  "Maker"; "Manor"; "Maple"; "March"; "Match"; "Mayor"; "Medal"; "Media"; "Mercy"; "Merge";
  "Merit"; "Melon"; "Metal"; "Meter"; "Metro"; "Micro"; "Might"; "Minor"; "Minus"; "Mirth";
  "Mixed"; "Model"; "Money"; "Month"; "Moral"; "Moses"; "Motor"; "Mount"; "Mouse"; "Mouth";
  "Movie"; "Music"; "Nasal"; "Naval"; "Nerve"; "Never"; "Newer"; "Night"; "Ninth"; "Noble";
  "Noise"; "North"; "Noted"; "Novel"; "Nurse"; "Nylon"; "Oasis"; "Ocean"; "Offer"; "Often";
  "Olive"; "Omega"; "Onset"; "Opera"; "Orbit"; "Order"; "Other"; "Outer"; "Owned"; "Owner";
  "Oxide"; "Ozone"; "Packs"; "Padre"; "Paint"; "Pairs"; "Panda"; "Panel"; "Panic"; "Paper";
  "Parks"; "Party"; "Pasta"; "Patch"; "Pause"; "Peace"; "Peach"; "Pearl"; "Penny"; "Peter";
  "Phase"; "Phone"; "Photo"; "Piano"; "Picks"; "Piece"; "Pilot"; "Pinch"; "Pixel"; "Pizza";
  "Place"; "Plain"; "Plane"; "Plant"; "Plate"; "Plaza"; "Plead"; "Pluck"; "Point"; "Poker";
  "Polar"; "Polls"; "Poppy"; "Porch"; "Poser"; "Pound"; "Power"; "Press"; "Price"; "Pride";
  "Prime"; "Print"; "Prior"; "Prism"; "Prize"; "Probe"; "Proof"; "Proud"; "Prove"; "Proxy";
  "Prune"; "Psalm"; "Pulse"; "Punch"; "Pupil"; "Purse"; "Pushy"; "Quail"; "Queen"; "Quest";
  "Queue"; "Quick"; "Quiet"; "Quota"; "Quote"; "Radar"; "Radio"; "Ranch"; "Range"; "Rapid";
  "Ratio"; "Reach"; "React"; "Ready"; "Realm"; "Rebel"; "Refer"; "Reign"; "Relax"; "Relay";
  "Reply"; "Rider"; "Ridge"; "Rifle"; "Right"; "Rigid"; "Riley"; "Risen"; "Risky"; "River";
  "Robin"; "Robot"; "Rocky"; "Roman"; "Roots"; "Round"; "Route"; "Royal"; "Rugby"; "Ruler";
  "Rural"; "Safer"; "Saint"; "Sales"; "Sandy"; "Sarah"; "Sauce"; "Scale"; "Scene"; "Scent";
  "Score"; "Scout"; "Screw"; "Seeds"; "Sense"; "Serve"; "Setup"; "Seven"; "Shade"; "Shaft";
  "Shake"; "Shall"; "Shape"; "Share"; "Sharp"; "Shave"; "Sheet"; "Shell"; "Shelf"; "Shift";
  "Shine"; "Shirt"; "Shock"; "Shore"; "Short"; "Shout"; "Siege"; "Sight"; "Sigma"; "Since";
  "Sixth"; "Sixty"; "Skate"; "Skill"; "Skull"; "Slate"; "Slave"; "Sleep"; "Slice"; "Slide";
  "Slope"; "Smart"; "Smell"; "Smile"; "Smith"; "Smoke"; "Snake"; "Solar"; "Solid"; "South";
  "Space"; "Spare"; "Spark"; "Speak"; "Speed"; "Spell"; "Spend"; "Spice"; "Spine"; "Split";
  "Spoke"; "Spoon"; "Sport"; "Spray"; "Squad"; "Stack"; "Staff"; "Stage"; "Stain"; "Stake";
  "Stale"; "Stalk"; "Stall"; "Stamp"; "Stand"; "Stare"; "Start"; "State"; "Steam"; "Steel";
  "Steep"; "Steer"; "Stems"; "Steps"; "Stern"; "Steve"; "Stick"; "Stiff"; "Still"; "Stock";
  "Stole"; "Stone"; "Stood"; "Store"; "Storm"; "Story"; "Stove"; "Strap"; "Straw"; "Strip";
  "Stuck"; "Study"; "Stuff"; "Style"; "Sugar"; "Suite"; "Sunny"; "Super"; "Surge"; "Swamp";
  "Swear"; "Sweep"; "Sweet"; "Swift"; "Swing"; "Sword"; "Table"; "Taken"; "Tales"; "Taste";
  "Teach"; "Teams"; "Teeth"; "Terms"; "Thank"; "Theme"; "There"; "Thick"; "Thing"; "Think";
  "Third"; "Thorn"; "Those"; "Three"; "Threw"; "Throw"; "Thumb"; "Tidal"; "Tiger"; "Tight";
  "Timer"; "Times"; "Title"; "Toast"; "Today"; "Token"; "Tonic"; "Tools"; "Topic"; "Torch";
  "Total"; "Touch"; "Tough"; "Tower"; "Town"; "Toxic"; "Trace"; "Track"; "Trade"; "Trail"; "Train";
  "Trait"; "Trash"; "Treat"; "Trend"; "Trial"; "Tribe"; "Trick"; "Tried"; "Troop"; "Truck";
  "Truly"; "Trump"; "Trunk"; "Trust"; "Truth"; "Tudor"; "Tulip"; "Tumor"; "Tuner"; "Tunes";
  "Turns"; "Twist"; "Ultra"; "Under"; "Union"; "Unity"; "Until"; "Upper"; "Upset"; "Urban";
  "Usage"; "Usual"; "Utter"; "Vague"; "Valid"; "Value"; "Valve"; "Vault"; "Venus"; "Verse";
  "Video"; "Views"; "Vigor"; "Vinyl"; "Viola"; "Virus"; "Visit"; "Vital"; "Vivid"; "Vocal";
  "Voice"; "Voter"; "Wagon"; "Waist"; "Waste"; "Watch"; "Water"; "Waves"; "Weary"; "Wheat";
  "Wheel"; "Where"; "Which"; "While"; "White"; "Whole"; "Whose"; "Wider"; "Witch"; "Woman";
  "Women"; "World"; "Worth"; "Would"; "Wound"; "Wrath"; "Write"; "Wrong"; "Wrote"; "Yacht";
  "Youth"; "Zebra"; "Zones"; "Absorb"; "Accept"; "Access"; "Across"; "Action"; "Active"; "Actual";
  "Adjust"; "Affirm"; "Afghan"; "Agency"; "Agenda"; "Albert"; "Almost"; "Alpine"; "Always";
  "Amount"; "Anchor"; "Andrew"; "Animal"; "Annual"; "Answer"; "Anyone"; "Appeal"; "Archer";
  "Arctic"; "Armour"; "Arnold"; "Around"; "Artist"; "Aspect"; "Assert"; "Assist"; "Assume";
  "Attach"; "Attack"; "Attend"; "Austin"; "Author"; "Avenue"; "Backup"; "Banner"; "Barely";
  "Barley"; "Basket"; "Battle"; "Before"; "Behind"; "Beyond"; "Bishop"; "Blanch"; "Blocks";
  "Blonde"; "Borrow"; "Boston"; "Bottle"; "Bottom"; "Bounce"; "Branch"; "Breath"; "Bridge";
  "Bright"; "Bronze"; "Broken"; "Broker"; "Browse"; "Bubble"; "Bucket"; "Budget"; "Buffet";
  "Bullet"; "Bundle"; "Burden"; "Bureau"; "Burger"; "Burton"; "Butter"; "Button"; "Buying";
  "Caesar"; "Camera"; "Campus"; "Canada"; "Cancel"; "Canvas"; "Carbon"; "Career"; "Castle";
  "Cattle"; "Caught"; "Causal"; "Center"; "Centre"; "Cereal"; "Chance"; "Change"; "Chapel";
  "Charge"; "Cherry"; "Choice"; "Choose"; "Church"; "Circle"; "Circus"; "Client"; "Closed";
  "Closet"; "Clouds"; "Clover"; "Cobalt"; "Coffee"; "Collar"; "Colony"; "Column"; "Combat";
  "Comedy"; "Coming"; "Common"; "Comply"; "Convey"; "Cookie"; "Copper"; "Corner"; "Cotton";
  "Couple"; "Course"; "Create"; "Credit"; "Crisis"; "Cruise"; "Custom"; "Dagger"; "Damage";
  "Danger"; "Danish"; "Debate"; "Decade"; "Decent"; "Defeat"; "Defend"; "Define"; "Degree";
  "Deluxe"; "Demand"; "Denial"; "Denver"; "Deploy"; "Depths"; "Deputy"; "Desert"; "Design";
  "Detail"; "Detect"; "Device"; "Dialog"; "Diesel"; "Digest"; "Dinner"; "Direct"; "Doctor";
  "Dollar"; "Domain"; "Donkey"; "Double"; "Dragon"; "Drawer"; "Dreams"; "Dublin"; "During";
  "Earned"; "Easter"; "Eating"; "Ecology"; "Editor"; "Effect"; "Effort"; "Eighth"; "Either";
  "Empire"; "Enable"; "Ending"; "Energy"; "Engine"; "Enough"; "Ensure"; "Entire"; "Entity";
  "Equity"; "Eraser"; "Escape"; "Estate"; "Ethnic"; "Europe"; "Events"; "Evolve"; "Exceed";
  "Except"; "Excuse"; "Exempt"; "Expect"; "Expert"; "Export"; "Extend"; "Extent"; "Fabric";
  "Factor"; "Failed"; "Fairly"; "Family"; "Famous"; "Farmer"; "Father"; "Faucet"; "Fellow";
  "Female"; "Figure"; "Filter"; "Finale"; "Finder"; "Finger"; "Finite"; "Fiscal"; "Fished";
  "Flight"; "Flower"; "Flying"; "Follow"; "Forest"; "Forget"; "Formal"; "Format"; "Former";
  "Fossil"; "Foster"; "Freeze"; "French"; "Friday"; "Fridge"; "Friend"; "Frozen"; "Fruits";
  "Fulfil"; "Funded"; "Funnel"; "Future"; "Galaxy"; "Garden"; "Garlic"; "Gather"; "Gazebo";
  "Gender"; "Gentle"; "German"; "Gibson"; "Gifted"; "Ginger"; "Global"; "Gloves"; "Golden";
  "Gothic"; "Govern"; "Gravel"; "Grease"; "Greece"; "Ground"; "Growth"; "Guitar"; "Gutter";
  "Handle"; "Harbor"; "Harper"; "Hazard"; "Header"; "Health"; "Hearts"; "Hebrew"; "Height";
  "Helmet"; "Herald"; "Hidden"; "Hockey"; "Hollow"; "Honest"; "Horror"; "Hostel"; "Howard";
  "Humane"; "Humble"; "Hunter"; "Hustle"; "Hybrid"; "Impact"; "Import"; "Impose"; "Income";
  "Indeed"; "Indoor"; "Infant"; "Inform"; "Injury"; "Inland"; "Insect"; "Insert"; "Inside";
  "Insist"; "Intact"; "Intake"; "Intend"; "Intent"; "Invest"; "Invite"; "Island"; "Israel";
  "Issued"; "Itself"; "Jacket"; "Jaguar"; "Jersey"; "Joseph"; "Joshua"; "Joyful"; "Jumble";
  "Jungle"; "Junior"; "Justin"; "Kaiser"; "Keeper"; "Kernel"; "Kettle"; "Kidney"; "Kimono";
  "Knight"; "Ladder"; "Launch"; "Laurel"; "Lawyer"; "Layout"; "Leader"; "League"; "Legacy";
  "Legend"; "Length"; "Lesson"; "Letter"; "Limits"; "Linear"; "Liquid"; "Listen"; "Little";
  "Living"; "Locker"; "London"; "Lonely"; "Looked"; "Lovely"; "Lowest"; "Luxury"; "Maiden";
  "Making"; "Manage"; "Manner"; "Marble"; "Margin"; "Marine"; "Market"; "Marvel"; "Master";
  "Matter"; "Medium"; "Member"; "Memory"; "Mental"; "Mentor"; "Method"; "Metric"; "Middle";
  "Miller"; "Milton"; "Minded"; "Mingle"; "Mirror"; "Mobile"; "Modern"; "Modest"; "Module";
  "Moment"; "Monkey"; "Morgan"; "Morris"; "Mortar"; "Moscow"; "Mother"; "Motion"; "Muffin";
  "Munich"; "Murmur"; "Muscle"; "Museum"; "Mutual"; "Myrtle"; "Mystic"; "Napkin"; "Narrow";
  "Nation"; "Native"; "Nature"; "Nearly"; "Neatly"; "Needle"; "Nelson"; "Nerves"; "Nestle";
  "Newest"; "Newton"; "Nicole"; "Nimble"; "Nordic"; "Normal"; "Notice"; "Notion"; "Number";
  "Nutmeg"; "Object"; "Obtain"; "Occupy"; "Occurs"; "Office"; "Offset"; "Online"; "Opener";
  "Option"; "Oracle"; "Orange"; "Orient"; "Origin"; "Output"; "Oxford"; "Oxygen"; "Oyster";
  "Packet"; "Palace"; "Palmer"; "Pallet"; "Pamela"; "Parade"; "Parent"; "Parker"; "Parrot";
  "Pastel"; "Pastor"; "Patent"; "Patrol"; "Patron"; "Pebble"; "Pencil"; "People"; "Pepper";
  "Period"; "Permit"; "Person"; "Phrase"; "Pierce"; "Pillar"; "Pirate"; "Pistol"; "Planet";
  "Player"; "Plaque"; "Please"; "Pledge"; "Plenty"; "Plunge"; "Pocket"; "Poetry"; "Points";
  "Poison"; "Poland"; "Police"; "Policy"; "Polish"; "Polite"; "Ponder"; "Portal"; "Poster";
  "Potato"; "Potter"; "Powder"; "Prayer"; "Prefer"; "Prince"; "Prison"; "Profit"; "Prompt";
  "Propel"; "Proven"; "Public"; "Pueblo"; "Punish"; "Purple"; "Pursue"; "Puzzle"; "Quaint";
  "Quarry"; "Rabbit"; "Racing"; "Radius"; "Random"; "Ranger"; "Rather"; "Rattle"; "Reader";
  "Really"; "Reason"; "Rebels"; "Recent"; "Recipe"; "Record"; "Reduce"; "Reform"; "Refuge";
  "Regard"; "Region"; "Reject"; "Relate"; "Relief"; "Remain"; "Remind"; "Remote"; "Remove";
  "Render"; "Rental"; "Repeat"; "Report"; "Rescue"; "Resign"; "Resist"; "Resort"; "Result";
  "Retail"; "Retain"; "Retire"; "Return"; "Reveal"; "Review"; "Revolt"; "Reward"; "Ribbon";
  "Rights"; "Rising"; "Ritual"; "Robust"; "Rocket"; "Roland"; "Roller"; "Romans"; "Rosary";
  "Rotary"; "Rubber"; "Rubble"; "Runner"; "Rustic"; "Sacred"; "Safari"; "Safety"; "Sailor";
  "Salary"; "Salmon"; "Saloon"; "Sample"; "Sandra"; "Savage"; "Saving"; "Scarce"; "Schema";
  "School"; "Screen"; "Script"; "Search"; "Season"; "Seated"; "Second"; "Secure"; "Select";
  "Senate"; "Senior"; "Serial"; "Series"; "Server"; "Settle"; "Shorts"; "Should"; "Shower";
  "Signal"; "Silent"; "Silver"; "Simple"; "Simply"; "Singer"; "Single"; "Sketch"; "Sleeve";
  "Slight"; "Smooth"; "Snatch"; "Soccer"; "Social"; "Socket"; "Soften"; "Solver"; "Solemn";
  "Source"; "Speech"; "Spirit"; "Splash"; "Spoken"; "Spread"; "Spring"; "Sprite"; "Square";
  "Stable"; "Staple"; "Statue"; "Status"; "Steady"; "Stereo"; "Stitch"; "Stolen"; "Stored";
  "Strain"; "Strand"; "Stream"; "Street"; "Stress"; "Strict"; "Stride"; "Strike"; "String";
  "Stripe"; "Stroke"; "Strong"; "Studio"; "Submit"; "Subtle"; "Suffix"; "Summer"; "Summit";
  "Sunday"; "Sunset"; "Supply"; "Surely"; "Survey"; "Switch"; "Symbol"; "System"; "Tackle";
  "Tactic"; "Tailor"; "Talent"; "Target"; "Temple"; "Tenant"; "Tender"; "Tennis"; "Terror";
  "Theory"; "Thesis"; "Thirty"; "Thread"; "Thrill"; "Thrive"; "Throne"; "Thrown"; "Ticket";
  "Timber"; "Toggle"; "Tongue"; "Toward"; "Trades"; "Travel"; "Treaty"; "Triple"; "Trophy";
  "Tunnel"; "Turkey"; "Turner"; "Turtle"; "Twelve"; "Unbind"; "Undone"; "Unfair"; "Unfold";
  "Unique"; "Unison"; "United"; "Unless"; "Unlike"; "Unlock"; "Unrest"; "Unsafe"; "Update";
  "Uphold"; "Upload"; "Upward"; "Usable"; "Useful"; "Valley"; "Vanish"; "Varied"; "Vector";
  "Velvet"; "Vendor"; "Venice"; "Verbal"; "Verify"; "Vessel"; "Vienna"; "Viking"; "Virgin";
  "Vision"; "Visual"; "Volume"; "Wallet"; "Walnut"; "Wander"; "Warmth"; "Warner"; "Warren";
  "Wealth"; "Weapon"; "Weekly"; "Weight"; "Wilson"; "Window"; "Winner"; "Winter"; "Wisdom";
  "Wizard"; "Wonder"; "Wooden"; "Worker"; "Worthy"; "Wright"; "Writer"; "Yearly"; "Zenith";
  "Zigzag"; "Zombie"; "Abstain"; "Account"; "Achieve"; "Acquire"; "Address"; "Advance"; "Adverse";
  "Affable"; "African"; "Ailment"; "Airline"; "Airport"; "Alchemy"; "Alcohol"; "Amalgam";
  "Amateur"; "Analyst"; "Anatomy"; "Ancient"; "Antenna"; "Antique"; "Anvil"; "Anxiety"; "Appoint";
  "Approve"; "Archive"; "Article"; "Artwork"; "Asphalt"; "Attempt"; "Auction"; "Auditor";
  "Aviator"; "Awesome"; "Baggage"; "Balance"; "Balloon"; "Banking"; "Bargain"; "Barrier";
  "Basilic"; "Battery"; "Because"; "Bedroom"; "Believe"; "Benefit"; "Between"; "Bicycle";
  "Blanket"; "Blaster"; "Blender"; "Blossom"; "Boarder"; "Bologna"; "Bonfire"; "Booster";
  "Boulder"; "Bracket"; "Breaker"; "Brewery"; "Bristle"; "Browser"; "Buffalo"; "Builder";
  "Burrito"; "Cabinet"; "Calcium"; "Caliber"; "Camping"; "Canteen"; "Capital"; "Captain";
  "Capture"; "Caramel"; "Careful"; "Catalog"; "Caution"; "Central"; "Century"; "Ceramic";
  "Certain"; "Chamber"; "Channel"; "Chapter"; "Charity"; "Charter"; "Checker"; "Chelsea";
  "Chester"; "Chicken"; "Chimney"; "Circuit"; "Citizen"; "Classic"; "Climate"; "Clipper";
  "Cluster"; "Coastal"; "Collect"; "College"; "Colonel"; "Combine"; "Comfort"; "Command";
  "Comment"; "Compact"; "Company"; "Compare"; "Compel"; "Complex"; "Compose"; "Compute"; "Concept";
  "Concern"; "Conduct"; "Confess"; "Confirm"; "Confuse"; "Connect"; "Conquer"; "Consent";
  "Consist"; "Consult"; "Contact"; "Contain"; "Content"; "Contest"; "Context"; "Control";
  "Convert"; "Convict"; "Corinth"; "Counter"; "Country"; "Courage"; "Creator"; "Cricket";
  "Crimson"; "Crouton"; "Crucial"; "Crystal"; "Cubicle"; "Culture"; "Curator"; "Current";
  "Curtain"; "Cushion"; "Customs"; "Cypress"; "Damaged"; "Dealing"; "Declare"; "Decline";
  "Decoded"; "Default"; "Defence"; "Deficit"; "Delight"; "Deliver"; "Density"; "Deposit";
  "Desktop"; "Destiny"; "Develop"; "Devoted"; "Diamond"; "Digital"; "Diploma"; "Disable";
  "Discard"; "Discuss"; "Disease"; "Display"; "Dispose"; "Dispute"; "Distant"; "Diverse";
  "Dolphin"; "Donated"; "Dormant"; "Drawing"; "Durable"; "Dutiful"; "Dynamic"; "Earnest";
  "Eclipse"; "Economy"; "Edition"; "Educate"; "Elastic"; "Elderly"; "Elegant"; "Element";
  "Elevate"; "Embrace"; "Emerald"; "Emotion"; "Emperor"; "Empiric"; "Employs"; "Empower";
  "Encoder"; "Encrypt"; "Endless"; "Enforce"; "Engaged"; "English"; "Enhance"; "Enquiry";
  "Ensured"; "Entitle"; "Environ"; "Erosion"; "Essence"; "Ethical"; "Evident"; "Exactly";
  "Examine"; "Example"; "Excited"; "Exclude"; "Execute"; "Exhibit"; "Existed"; "Expense";
  "Explain"; "Exploit"; "Explore"; "Express"; "Extract"; "Extreme"; "Eyebrow"; "Faction";
  "Factory"; "Faculty"; "Failure"; "Farmers"; "Fashion"; "Feature"; "Federal"; "Fiction";
  "Fighter"; "Finance"; "Firefly"; "Flannel"; "Flatten"; "Florida"; "Flutter"; "Forbear";
  "Foreign"; "Formula"; "Fortune"; "Forward"; "Founder"; "Fragile"; "Francis"; "Freedom";
  "Freight"; "Frigate"; "Fulfill"; "Furnace"; "Gallery"; "Garnish"; "Gateway"; "Gazette";
  "Genetic"; "Genuine"; "Geology"; "Georgia"; "Glimpse"; "Gondola"; "Gourmet"; "Granite";
  "Graphic"; "Gratify"; "Gravity"; "Grocery"; "Guardia"; "Habitat"; "Halfway"; "Hamburg";
  "Hamster"; "Handful"; "Handmade"; "Hanging"; "Happily"; "Harbour"; "Hardest"; "Harmful";
  "Harmony"; "Harvest"; "Healthy"; "Helpful"; "Herbert"; "Heroine"; "Highway"; "Himself";
  "History"; "Holiday"; "Holland"; "Horizon"; "Hostile"; "Housing"; "Hungary"; "Hunting";
  "Husband"; "Iceberg"; "Imagine"; "Immense"; "Implant"; "Implied"; "Improve"; "Include";
  "Indexed"; "Indiana"; "Indices"; "Initial"; "Inquire"; "Insight"; "Inspect"; "Install";
  "Instead"; "Insulin"; "Integer"; "Interim"; "Invader"; "Invoice"; "Involve"; "Ireland";
  "Italian"; "Javelin"; "Jenkins"; "Jewelry"; "Journal"; "Journey"; "Joyride"; "Jubilee";
  "Justice"; "Justify"; "Kenmore"; "Keyword"; "Kindred"; "Kingdom"; "Kitchen"; "Knitted";
  "Lacking"; "Landing"; "Lantern"; "Lasting"; "Lateral"; "Lattice"; "Laundry"; "Leading";
  "Leather"; "Lecture"; "Leipzig"; "Lending"; "Leonard"; "Leopold"; "Lettuce"; "Liberty";
  "Library"; "Lighten"; "Lincoln"; "Lineage"; "Literal"; "Locally"; "Lockout"; "Logical";
  "Longest"; "Lottery"; "Luggage"; "Machine"; "Madison"; "Magenta"; "Magical"; "Mailbox";
  "Maintain"; "Mandate"; "Mankind"; "Mansion"; "Mapping"; "Martial"; "Massage"; "Mastery";
  "Maurice"; "Maxwell"; "Meaning"; "Measure"; "Medical"; "Meeting"; "Melting"; "Mercury";
  "Midland"; "Militia"; "Mineral"; "Minimum"; "Miracle"; "Mission"; "Mixture"; "Mobster";
  "Modular"; "Monitor"; "Monthly"; "Morning"; "Mounted"; "Mozilla"; "Musical"; "Mystery";
  "Namibia"; "Narrate"; "Natural"; "Nearest"; "Neither"; "Neutral"; "Nominal"; "Norfolk";
  "Notable"; "Nothing"; "Novelty"; "Nuclear"; "Nursery"; "Oakland"; "Oakwood"; "Observe";
  "Obvious"; "Octagon"; "Offline"; "Ontario"; "Opening"; "Operate"; "Opinion"; "Optimal";
  "Organic"; "Orphans"; "Outline"; "Outlook"; "Outside"; "Overall"; "Overlap"; "Overrun";
  "Oversee"; "Oxidize"; "Pacific"; "Package"; "Paddock"; "Painful"; "Painted"; "Palette";
  "Pandora"; "Panther"; "Parking"; "Partial"; "Partner"; "Passage"; "Passing"; "Passion";
  "Passive"; "Patient"; "Patriot"; "Pattern"; "Payload"; "Payment"; "Peasant"; "Penalty";
  "Pending"; "Pension"; "Percent"; "Perfect"; "Perform"; "Perhaps"; "Persist"; "Phoenix";
  "Photons"; "Picking"; "Picture"; "Pilgrim"; "Pioneer"; "Pitcher"; "Pivotal"; "Planner";
  "Plastic"; "Platoon"; "Playful"; "Pleased"; "Plotter"; "Plumber"; "Podcast"; "Polaris";
  "Popular"; "Portion"; "Portray"; "Posture"; "Pottery"; "Poultry"; "Poverty"; "Prairie";
  "Precise"; "Predict"; "Preface"; "Premier"; "Premium"; "Prepare"; "Present"; "Preside";
  "Presume"; "Pretend"; "Prevent"; "Preview"; "Primary"; "Printer"; "Privacy"; "Private";
  "Probity"; "Problem"; "Proceed"; "Process"; "Produce"; "Product"; "Profile"; "Program";
  "Project"; "Promise"; "Promote"; "Prosper"; "Protect"; "Protest"; "Provide"; "Provoke";
  "Publish"; "Pugilist"; "Pumpkin"; "Puncture"; "Quarter"; "Rainbow"; "Reality"; "Rebuild";
  "Receipt"; "Receive"; "Reclaim"; "Recover"; "Recruit"; "Recycle"; "Reduced"; "Reflect";
  "Refresh"; "Regular"; "Reissue"; "Related"; "Release"; "Remains"; "Removal"; "Renewal";
  "Replica"; "Require"; "Reserve"; "Reshape"; "Residue"; "Resolve"; "Respect"; "Respond";
  "Restore"; "Retract"; "Retreat"; "Reunion"; "Routine"; "Royalty"; "Rupture"; "Saffron";
  "Sandbar"; "Satisfy"; "Savings"; "Scandal"; "Scatter"; "Scholar"; "Science"; "Scratch";
  "Sectors"; "Segment"; "Serious"; "Servant"; "Service"; "Session"; "Setting"; "Settler";
  "Shallow"; "Shelter"; "Shifted"; "Shingle"; "Shipley"; "Shuttle"; "Silence"; "Silicon";
  "Similar"; "Sleeper"; "Slender"; "Slipped"; "Society"; "Soldier"; "Somehow"; "Speaker";
  "Special"; "Sponsor"; "Stadium"; "Starter"; "Station"; "Stealth"; "Stellar"; "Stephen";
  "Storage"; "Stopped"; "Strange"; "Stretch"; "Striker"; "Stumble"; "Subject"; "Subsidy";
  "Succeed"; "Suggest"; "Summary"; "Sunrise"; "Support"; "Supreme"; "Surface"; "Surgeon";
  "Surplus"; "Survive"; "Suspend"; "Symptom"; "Tactics"; "Tangent"; "Teacher"; "Tempest";
  "Textile"; "Theatre"; "Theorem"; "Therapy"; "Thermal"; "Thomson"; "Thought"; "Through";
  "Thunder"; "Timothy"; "Tobacco"; "Tonight"; "Topical"; "Tourism"; "Tracker"; "Trading";
  "Traffic"; "Trainer"; "Transit"; "Travail"; "Tribute"; "Trigger"; "Trinity"; "Triumph";
  "Trouble"; "Trustee"; "Tuition"; "Turbine"; "Turning"; "Tycoon"; "Typical"; "Ukraine"; "Uniform";
  "Unknown"; "Unleash"; "Updated"; "Upgrade"; "Upscale"; "Utensil"; "Utility"; "Vaccine";
  "Vagrant"; "Vanilla"; "Various"; "Vehicle"; "Venture"; "Verdict"; "Version"; "Veteran";
  "Viceroy"; "Victory"; "Village"; "Vintage"; "Violent"; "Visible"; "Visitor"; "Volcano";
  "Voltage"; "Voucher"; "Vulture"; "Walking"; "Walkway"; "Warfare"; "Warming"; "Warning";
  "Warrant"; "Watcher"; "Wealthy"; "Weather"; "Webster"; "Wedding"; "Weekend"; "Welcome";
  "Welfare"; "Western"; "Whiskey"; "Whisper"; "Widgets"; "Willing"; "Windsor"; "Winning";
  "Witness"; "Woodcut"; "Workout"; "Wrapper"; "Yielded"; "Zealand"; "Zephyr"]%string.

(** Every word is a letter in upper case and at least three in lower case. *)
Definition good_word (w : gostring) : bool :=
  match w with
  | c :: rest => is_upper c && forallb is_lower rest && (3 <=? length rest)
  | [] => false
  end.
Lemma wordList_good : forallb good_word wordList = true.
Proof. by_eval. Qed.
Lemma wordList_length : length wordList = 2284.
Proof. by_eval. Qed.

End Wordlist.
