(* ===== verification/Encryption.v ===== *)
(** * Disk encryption ([src/sys/encryption])

    The LUKS manager with its key-file staging, the TPM enroller, volume detection,
    passphrase generation and validation.  Commands and the functions of package
    [os] are calls of the host.  The staging directory is package state and is
    threaded through the operations ([Staging]); [stagingMu] makes each use of it
    sequential.  The random source, SHA-512 and the Unicode classes are parameters. *)
From S2P Require Import Prelude Exec HostProg Words Json Wordlist.

Module Encryption.
Import Exec HostProg.

(** ** Data ([encryption.go], [luks.go]) *)

Record Volume := MkVolume { DevicePath : gostring; MapperName : gostring; MountPoint : gostring }.
(** [Slot *int]: [None] lets cryptsetup choose. *)
Record AddKeyOptions := MkAddKey { Slot : option Z }.

Inductive enc_error :=
| EUnknownBackend (b : Z)
| ERunnerRequired
| EInvalidDevice (dev : gostring)
| EInvalidKeySlot (slot : Z)
| EEmptyKeyMaterial (what : gostring)
| EKeyFileStaging (dir : gostring) (why : gostring)
| EKeyFileTampered (path : gostring)
(** a file operation failed; [left] is the error of the cleanup, when that failed too *)
| EKeyFile (stage : gostring) (e : fs_err) (left : option fs_err)
| ERun (what : gostring) (e : exec_error)
| ECryptsetup (what detail : gostring) (code : Z)
| ECommand (name : gostring) (code : Z) (stderr : gostring)
| EJson
| ENoVolumes
| ENoMatch
| ERandom
| ENewline
| EWrap (msg : gostring) (e : enc_error).

(** [New]: only [LUKS = 1] is a backend. *)
Definition New (b : Z) (runner : bool) : result enc_error unit :=
  if negb (b =? 1)%Z then Err (EUnknownBackend b)
  else if negb runner then Err ERunnerRequired else Ok tt.

Definition dev_byte (c : ascii) : bool :=
  is_lower c || is_upper c || is_digit c || bool_decide (c ∈ str "/_.-").
Definition validDevicePath (dev : gostring) : bool :=
  has_prefix dev (str "/dev/") &&
  match drop 5 dev with [] => false | rest => forallb dev_byte rest end.
Fixpoint containsDotDot (s : gostring) : bool :=
  match s with
  | a :: ((b :: _) as rest) => (bool_decide (a = "."%char) && bool_decide (b = "."%char)) || containsDotDot rest
  | _ => false
  end.
Definition validateDevicePath (dev : gostring) : result enc_error unit :=
  if negb (validDevicePath dev) || containsDotDot dev then Err (EInvalidDevice dev) else Ok tt.

Definition LuksMinKeySlot : Z := 0.
Definition LuksMaxKeySlot : Z := 7.
Definition validateKeySlot (slot : Z) : result enc_error unit :=
  if (slot <? LuksMinKeySlot)%Z || (LuksMaxKeySlot <? slot)%Z then Err (EInvalidKeySlot slot) else Ok tt.

(** ** Key files ([luks.go]) *)

Definition keyFileDir : gostring := str "/dev/shm".

(** [stagingRoot] and [stagingDir]; both empty before the first use. *)
Record Staging := MkStaging { stagingRoot : gostring; stagingDir : gostring }.

Definition verifyStagingParent (dir : gostring) : prog (option enc_error) :=
  let! r := ask (COs (OsLstat dir)) in
  match r with
  | Err _ => Ret (Some (EKeyFileStaging dir (str "lstat")))
  | Ok info =>
      if negb (fi_dir info) then Ret (Some (EKeyFileStaging dir (str "not a directory")))
      else match fi_uid info with
           | None => Ret (Some (EKeyFileStaging dir (str "no owner")))
           | Some uid =>
               let! euid := ask (COs OsGeteuid) in
               Ret (if negb (uid =? 0)%Z && negb (uid =? euid)%Z
                    then Some (EKeyFileStaging dir (str "owner"))
                    else if negb (N.land (fi_perm info) 18 =? 0)%N && negb (fi_sticky info)
                    then Some (EKeyFileStaging dir (str "writable"))
                    else None)
           end
  end.

Definition verifyStagingDir (dir : gostring) : prog (option enc_error) :=
  let! r := ask (COs (OsLstat dir)) in
  match r with
  | Err _ => Ret (Some (EKeyFileStaging dir (str "lstat")))
  | Ok info =>
      if negb (fi_dir info) then Ret (Some (EKeyFileStaging dir (str "not a directory")))
      else if negb (fi_perm info =? 448)%N then Ret (Some (EKeyFileStaging dir (str "mode")))
      else match fi_uid info with
           | None => Ret (Some (EKeyFileStaging dir (str "no owner")))
           | Some uid =>
               let! euid := ask (COs OsGeteuid) in
               Ret (if negb (uid =? euid)%Z then Some (EKeyFileStaging dir (str "owner")) else None)
           end
  end.

Definition keyFileStagingDir (st : Staging) : prog (Staging * result enc_error gostring) :=
  if negb (bool_decide (stagingDir st = [])) && bool_decide (stagingRoot st = keyFileDir) then
    let! e := verifyStagingDir (stagingDir st) in
    Ret (st, match e with Some e => Err e | None => Ok (stagingDir st) end)
  else
    let! e := verifyStagingParent keyFileDir in
    match e with
    | Some e => Ret (st, Err e)
    | None =>
        let! r := ask (COs (OsMkdirTemp keyFileDir (str "pm-luks-"))) in
        match r with
        | Err _ => Ret (st, Err (EKeyFileStaging keyFileDir (str "create")))
        | Ok dir =>
            let! e := verifyStagingDir dir in
            match e with
            | Some e => Ret (st, Err e)
            | None => Ret (MkStaging keyFileDir dir, Ok dir)
            end
        end
    end.

Record stagedKeyFile := MkStaged { path : gostring; id : option FileInfo }.

Definition verify (k : stagedKeyFile) : prog (option enc_error) :=
  match path k, id k with
  | [], _ | _, None => Ret (Some (EKeyFileTampered (path k)))
  | _, Some i =>
      let! r := ask (COs (OsLstat (path k))) in
      Ret (match r with
           | Err _ => Some (EKeyFileTampered (path k))
           | Ok now =>
               if negb (fi_regular now) || negb (fi_perm now =? 384)%N ||
                  negb (bool_decide (fi_id i = fi_id now))
               then Some (EKeyFileTampered (path k)) else None
           end)
  end.

Fixpoint verifyStaged (files : list stagedKeyFile) : prog (option enc_error) :=
  match files with
  | [] => Ret None
  | f :: rest => let! e := verify f in
                 match e with Some e => Ret (Some e) | None => verifyStaged rest end
  end.

(** A removal error other than "not found". *)
Definition remains (e : option fs_err) : option fs_err :=
  match e with Some (OtherErr m) => Some (OtherErr m) | _ => None end.

Definition cleanupKeyFileAfter (stage name : gostring) (cause : fs_err) : prog enc_error :=
  let! rm := ask (COs (OsRemove name)) in
  Ret (EKeyFile stage cause (remains rm)).

Definition writeKeyFile (st : Staging) (key : Secret) : prog (Staging * result enc_error stagedKeyFile) :=
  let! (st, d) := keyFileStagingDir st in
  match d with
  | Err e => Ret (st, Err e)
  | Ok dir =>
      let! f := ask (COs (OsCreateTemp dir (str "key-*"))) in
      match f with
      | Err e => Ret (st, Err (EKeyFile (str "create key file") e None))
      | Ok (fd, name) =>
          let! c := ask (COs (OsFChmod fd 384)) in
          match c with
          | Some e =>
              let! _ := ask (COs (OsFClose fd)) in
              let! e := cleanupKeyFileAfter (str "set key file permissions") name e in Ret (st, Err e)
          | None =>
              let! w := ask (COs (OsFWrite fd (Reveal key))) in
              match w with
              | Some e =>
                  let! _ := ask (COs (OsFClose fd)) in
                  let! e := cleanupKeyFileAfter (str "write key file") name e in Ret (st, Err e)
              | None =>
                  let! c := ask (COs (OsFClose fd)) in
                  match c with
                  | Some e => let! e := cleanupKeyFileAfter (str "close key file") name e in Ret (st, Err e)
                  | None =>
                      let! i := ask (COs (OsLstat name)) in
                      match i with
                      | Err e => let! e := cleanupKeyFileAfter (str "identify key file") name e in Ret (st, Err e)
                      | Ok i => Ret (st, Ok (MkStaged name (Some i)))
                      end
                  end
              end
          end
      end
  end.

Definition zeros (n : N) : gostring := replicate (N.to_nat n) "000"%char.

(** Failures are only logged. *)
Definition cleanupKeyFile (p : gostring) : prog unit :=
  match p with
  | [] => Ret tt
  | _ =>
      let! f := ask (COs (OsOpenNoFollow p)) in
      match f with
      | Err _ => let! _ := ask (COs (OsRemove p)) in Ret tt
      | Ok fd =>
          let! i := ask (COs (OsFStat fd)) in
          let! _ := match i with
                    | Ok info =>
                        if fi_regular info && (0 <? fi_size info)%N
                        then ask (COs (OsFWriteAt fd (zeros (fi_size info)) 0)) else Ret None
                    | Err _ => Ret None
                    end in
          let! _ := ask (COs (OsFClose fd)) in
          let! _ := ask (COs (OsRemove p)) in
          Ret tt
      end
  end.

(** [defer]: the cleanup runs whatever the body returned. *)
Definition defer {A} (cleanup : prog unit) (body : prog A) : prog A :=
  let! r := body in let! _ := cleanup in Ret r.

(** ** cryptsetup ([luks.go]) *)

Definition exitCodeDetail (code : Z) : gostring :=
  match code with
  | 1 => str "wrong parameters"
  | 2 => str "no key available with this passphrase"
  | 3 => str "out of memory"
  | 4 => str "wrong device specified or device does not exist"
  | 5 => str "device already exists or device is busy"
  | _ => str "unexpected error (exit code " ++ Json.int_lit code ++ str ")"
  end%Z.
Definition cryptsetupError (op_ : gostring) (res : Result) : enc_error :=
  let detail := match trim_space (Stderr res) with [] => exitCodeDetail (ExitCode res) | s => s end in
  ECryptsetup op_ detail (ExitCode res).

Definition cryptsetup (args : list gostring) : Command := MkCommand (str "cryptsetup") args [] [] [] true.

Definition runCryptsetup (op_ : gostring) (args : list gostring) (staged : list stagedKeyFile)
    : prog (option enc_error) :=
  let! e := verifyStaged staged in
  match e with
  | Some e => Ret (Some (EWrap (str "cryptsetup " ++ op_) e))
  | None =>
      let! (res, err) := ask (CRun (cryptsetup args) []) in
      Ret (match err with
           | Some e => Some (ERun (str "cryptsetup " ++ op_) e)
           | None => if (ExitCode res =? 0)%Z then None else Some (cryptsetupError op_ res)
           end)
  end.

Definition IsEncrypted (dev : gostring) : prog (result enc_error bool) :=
  match validateDevicePath dev with
  | Err e => Ret (Err e)
  | Ok _ =>
      let! (res, err) := ask (CRun (cryptsetup [str "isLuks"; dev]) []) in
      Ret (match err with
           | Some e => Err (ERun (str "cryptsetup isLuks") e)
           | None => match ExitCode res with
                     | 0%Z => Ok true
                     | 1%Z => Ok false
                     | _ => Err (cryptsetupError (str "isLuks") res)
                     end
           end)
  end.

(** An operation on key files: the package state, and an error. *)
Abbreviation op := (prog (Staging * option enc_error)).
Definition check (st : Staging) (v : result enc_error unit) (k : op) : op :=
  match v with Ok _ => k | Err e => Ret (st, Some e) end.
Definition nonzero (k : Secret) (what : gostring) : result enc_error unit :=
  if IsZero k then Err (EEmptyKeyMaterial what) else Ok tt.

(** Stage a key, run the body with it, clean up. *)
Definition with_key (st : Staging) (key : Secret) (body : Staging -> stagedKeyFile -> op) : op :=
  let! (st, f) := writeKeyFile st key in
  match f with
  | Err e => Ret (st, Some e)
  | Ok f => defer (cleanupKeyFile (path f)) (body st f)
  end.

Definition slot_valid (s : option Z) : result enc_error unit :=
  match s with Some n => validateKeySlot n | None => Ok tt end.
Definition addKeyArgs (dev newPath oldPath : gostring) (slot : option Z) : list gostring :=
  [str "luksAddKey"; dev; newPath; str "--key-file"; oldPath] ++
  match slot with Some n => [str "--key-slot"; Json.int_lit n] | None => [] end ++ [str "--batch-mode"].

Definition AddKey (st : Staging) (dev : gostring) (existing newKey : Secret) (opts : AddKeyOptions) : op :=
  check st (validateDevicePath dev) (
  check st (slot_valid (Slot opts)) (
  check st (nonzero newKey (str "new key")) (
  check st (nonzero existing (str "authenticating passphrase")) (
  with_key st existing (fun st existingFile =>
  with_key st newKey (fun st newFile =>
    let op_ := match Slot opts with
               | Some n => str "luksAddKey (slot " ++ Json.int_lit n ++ str ")"
               | None => str "luksAddKey"
               end in
    let! e := runCryptsetup op_ (addKeyArgs dev (path newFile) (path existingFile) (Slot opts))
                [existingFile; newFile] in
    Ret (st, e))))))).

Definition RemoveKey (st : Staging) (dev : gostring) (key : Secret) : op :=
  check st (validateDevicePath dev) (
  check st (nonzero key (str "passphrase")) (
  with_key st key (fun st keyFile =>
    let! e := runCryptsetup (str "luksRemoveKey")
                [str "luksRemoveKey"; dev; str "--key-file"; path keyFile; str "--batch-mode"] [keyFile] in
    Ret (st, e)))).

Definition KillSlot (st : Staging) (dev : gostring) (slot : Z) (existing : Secret) : op :=
  check st (validateDevicePath dev) (
  check st (validateKeySlot slot) (
  check st (nonzero existing (str "authenticating passphrase")) (
  with_key st existing (fun st keyFile =>
    let! e := runCryptsetup (str "luksKillSlot " ++ Json.int_lit slot)
                [str "luksKillSlot"; dev; Json.int_lit slot; str "--key-file"; path keyFile;
                 str "--batch-mode"] [keyFile] in
    Ret (st, e))))).

Definition VerifyPassphrase (st : Staging) (dev : gostring) (p : Secret)
    : prog (Staging * result enc_error bool) :=
  match validateDevicePath dev with
  | Err e => Ret (st, Err e)
  | Ok _ =>
      let! (st, f) := writeKeyFile st p in
      match f with
      | Err e => Ret (st, Err e)
      | Ok keyFile =>
          defer (cleanupKeyFile (path keyFile)) (
          let! e := verifyStaged [keyFile] in
          match e with
          | Some e => Ret (st, Err e)
          | None =>
              let! (res, err) := ask (CRun (cryptsetup [str "open"; str "--test-passphrase"; dev;
                                     str "--key-file"; path keyFile; str "--batch-mode"]) []) in
              Ret (st, match err with
                       | Some e => Err (ERun (str "cryptsetup test-passphrase") e)
                       | None => match ExitCode res with
                                 | 0%Z => Ok true
                                 | 2%Z => Ok false
                                 | _ => Err (cryptsetupError (str "test-passphrase") res)
                                 end
                       end)
          end)
      end
  end.

(** ** TPM ([tpm.go]) *)

Definition tpmDevicePaths : list gostring := [str "/dev/tpm0"; str "/dev/tpmrm0"].
Fixpoint available_in (ps : list gostring) : prog bool :=
  match ps with
  | [] => Ret false
  | p :: rest => let! r := ask (CStat p) in
                 match r with Ok _ => Ret true | Err _ => available_in rest end
  end.
Definition Available : prog bool := available_in tpmDevicePaths.

Definition tpm_run (op_ : gostring) (args : list gostring) (key : Secret) : prog (option enc_error) :=
  if IsZero key then Ret (Some (EEmptyKeyMaterial (str "authenticating passphrase")))
  else
    let! (res, err) := ask (CRun (MkCommand (str "systemd-cryptenroll") args [] [] [] true) (Reveal key)) in
    Ret (match err with
         | Some e => Some (ERun (str "systemd-cryptenroll " ++ op_) e)
         | None => if (ExitCode res =? 0)%Z then None
                   else Some (ECommand (str "systemd-cryptenroll") (ExitCode res) (Stderr res))
         end).
Definition Enroll (dev : gostring) (existing : Secret) : prog (option enc_error) :=
  match validateDevicePath dev with
  | Err e => Ret (Some e)
  | Ok _ => tpm_run (str "enroll") [str "--tpm2-device=auto"; str "--tpm2-pcrs=7+14"; dev] existing
  end.
Definition Wipe (dev : gostring) (existing : Secret) : prog (option enc_error) :=
  match validateDevicePath dev with
  | Err e => Ret (Some e)
  | Ok _ => tpm_run (str "wipe") [str "--wipe-slot=tpm2"; dev] existing
  end.

(** ** Detection ([detect.go]) *)

Inductive lsblkDevice :=
| MkDev (name type : gostring) (fstype mountpoint : option gostring) (children : list lsblkDevice).
Definition dname (d : lsblkDevice) : gostring := let '(MkDev n _ _ _ _) := d in n.
Definition dtype (d : lsblkDevice) : gostring := let '(MkDev _ t _ _ _) := d in t.
Definition dfstype (d : lsblkDevice) : option gostring := let '(MkDev _ _ f _ _) := d in f.
Definition dmount (d : lsblkDevice) : option gostring := let '(MkDev _ _ _ m _) := d in m.
Definition dchildren (d : lsblkDevice) : list lsblkDevice := let '(MkDev _ _ _ _ c) := d in c.

(** [json.Unmarshal] into the struct; the recursion is on the JSON value. *)
Fixpoint dec_dev (v : Json.json) : option lsblkDevice :=
  let dec_children (w : Json.json) : option (list lsblkDevice) :=
    match w with
    | Json.JNull => Some []
    | Json.JArr l =>
        (fix go l := match l with
                     | [] => Some []
                     | x :: r => match dec_dev x, go r with
                                 | Some d, Some ds => Some (d :: ds)
                                 | _, _ => None
                                 end
                     end) l
    | _ => None
    end in
  match v with
  | Json.JNull => Some (MkDev [] [] None None [])
  | Json.JObj kvs =>
      (** the decoded [children] of the last such field *)
      let kids := (fix go kvs acc := match kvs with
                     | [] => acc
                     | (k, w) :: r => go r (if Json.fold_eq k (str "children") then dec_children w else acc)
                     end) kvs (Some []) in
      match Json.dec_str (Json.field kvs (str "name")), Json.dec_str (Json.field kvs (str "type")),
            Json.dec_ptr Json.dec_str (Json.field kvs (str "fstype")),
            Json.dec_ptr Json.dec_str (Json.field kvs (str "mountpoint")), kids with
      | Some n, Some t, Some f, Some m, Some c => Some (MkDev n t f m c)
      | _, _, _, _, _ => None
      end
  | _ => None
  end.
Definition dec_lsblk (v : Json.json) : option (list lsblkDevice) :=
  match Json.dec_object (Some v) with
  | Some kvs => Json.dec_list (fun w => match w with Some w => dec_dev w | None => None end)
                  (Json.field kvs (str "blockdevices"))
  | None => None
  end.

(** The mount point of a mapping: its own, then the last mounted grandchild's. *)
Definition mounted (m : option gostring) (cur : gostring) : gostring :=
  match m with Some ((_ :: _) as p) => p | _ => cur end.
Definition add_child (vol : Volume) (child : lsblkDevice) : Volume :=
  if bool_decide (dtype child = str "crypt") then
    let mp := mounted (dmount child) (MountPoint vol) in
    MkVolume (DevicePath vol) (dname child)
      (foldl (fun mp gc => mounted (dmount gc) mp) mp (dchildren child))
  else vol.
Definition volume_of (d : lsblkDevice) : list Volume :=
  if bool_decide (default [] (dfstype d) = str "crypto_LUKS")
  then [foldl add_child (MkVolume (str "/dev/" ++ dname d) [] []) (dchildren d)] else [].

Fixpoint find_dev (d : lsblkDevice) : list Volume :=
  volume_of d ++ concat (map find_dev (dchildren d)).
Definition findLuksVolumes (devices : list lsblkDevice) : list Volume := concat (map find_dev devices).

Definition DetectAllVolumes : prog (result enc_error (list Volume)) :=
  let! (res, err) := ask (CRun (MkCommand (str "lsblk") [str "-J"; str "-o"; str "NAME,TYPE,FSTYPE,MOUNTPOINT"]
                            [] [] [] false) []) in
  Ret (match err with
       | Some e => Err (ERun (str "lsblk") e)
       | None =>
           if negb (ExitCode res =? 0)%Z then Err (ECommand (str "lsblk") (ExitCode res) (Stderr res))
           else match Json.parse (Stdout res) with
                | None => Err EJson
                | Some v => match dec_lsblk v with
                            | None => Err EJson
                            | Some ds => Ok (findLuksVolumes ds)
                            end
                end
       end).

Definition at_mount (want : gostring) (volumes : list Volume) : option Volume :=
  List.find (fun v => bool_decide (MountPoint v = want)) volumes.
Definition choose (volumes : list Volume) : result enc_error Volume :=
  match volumes with
  | [] => Err ENoVolumes
  | v0 :: _ => match at_mount (str "/home") volumes with
               | Some v => Ok v
               | None => match at_mount (str "/") volumes with Some v => Ok v | None => Ok v0 end
               end
  end.
Definition DetectVolume : prog (result enc_error Volume) :=
  let!? volumes := DetectAllVolumes in Ret (choose volumes).

Fixpoint try_volumes (st : Staging) (volumes : list Volume) (p : Secret) : prog (Staging * result enc_error Volume) :=
  match volumes with
  | [] => Ret (st, Err ENoMatch)
  | v :: rest =>
      let! (st, ok) := VerifyPassphrase st (DevicePath v) p in
      match ok with
      | Ok true => Ret (st, Ok v)
      | _ => try_volumes st rest p
      end
  end.
Definition DetectVolumeByKey (st : Staging) (p : Secret) : prog (Staging * result enc_error Volume) :=
  let! r := DetectAllVolumes in
  match r with
  | Err e => Ret (st, Err e)
  | Ok [] => Ret (st, Err ENoVolumes)
  | Ok volumes => try_volumes st volumes p
  end.

(** ** Passphrases ([passphrase.go], [validate.go]) *)

(** The [i]-th draw of [rand.Int] below a bound. *)
Fixpoint gen_loop (fuel : nat) (randInt : nat -> nat -> option nat) (i : nat) (minWords : Z)
    (words : list gostring) : option (result enc_error Secret) :=
  match fuel with
  | 0 => None
  | S fuel =>
      match randInt i (length Wordlist.wordList) with
      | None => Some (Err ERandom)
      | Some idx =>
          let words := words ++ [nth idx Wordlist.wordList []] in
          let phrase := join words (str "-") in
          if (minWords <=? Z.of_nat (length words))%Z && (32 <=? length phrase)
          then Some (match NewSecret phrase with Some s => Ok s | None => Err ENewline end)
          else gen_loop fuel randInt (S i) minWords words
      end
  end.
Definition GeneratePassphrase (fuel : nat) (randInt : nat -> nat -> option nat) (minWords : Z)
    : option (result enc_error Secret) :=
  gen_loop fuel randInt 0 (if (minWords <? 3)%Z then 3%Z else minWords) [].

Section Unicode.
(** [unicode.IsLetter] and [unicode.IsDigit] *)
Context (IsLetter IsDigit : N -> bool).

(** [Complexity] is an integer; the cases are [1] and [2]. *)
Definition ValidatePassphrase (passphrase : gostring) (minLength complexity : Z) : gostring :=
  let rs := Runes.runes passphrase in
  if (Z.of_nat (length passphrase) <? minLength)%Z
  then str "Passphrase must be at least " ++ Json.int_lit minLength ++ str " characters long."
  else match complexity with
       | 1%Z => if existsb IsLetter rs && existsb IsDigit rs then []
                else str "Passphrase must contain both letters and digits."
       | 2%Z => if existsb IsLetter rs && existsb (fun r => negb (IsLetter r) && IsDigit r) rs &&
                   existsb (fun r => negb (IsLetter r) && negb (IsDigit r)) rs
                then [] else str "Passphrase must contain letters, digits, and special characters."
       | _ => []
       end.
End Unicode.

Section Hash.
Context (sha512 : gostring -> gostring).
Definition hex_of (c : ascii) : gostring :=
  [Json.hex_byte (N.div (byte_val c) 16); Json.hex_byte (N.modulo (byte_val c) 16)].
Definition HashPassphrase (passphrase : gostring) : gostring := concat (map hex_of (sha512 passphrase)).
Definition IsRecentlyUsed (passphrase : gostring) (recentHashes : list gostring) : bool :=
  bool_decide (HashPassphrase passphrase ∈ recentHashes).
End Hash.

End Encryption.
