(* ===== verification/EncryptionKeys.v ===== *)
(** * Key files of the LUKS manager ([src/sys/encryption/luks.go])

    Key material reaches cryptsetup through a file.  On every host, whatever its
    calls answer: the file is written only in a private directory checked right
    before, cryptsetup is started only while the path still names the file that was
    written, and the removal of every file that was made is called for before the
    operation returns, so that one stays behind only where that call failed. *)
From S2P Require Import Prelude Exec HostProg Words Json Encryption.

Module EncryptionKeys.
Import Exec HostProg Encryption.

(** ** What a history leaves behind *)

(** The key files that were made and whose removal was not called for since,
    whatever that call answered.  [os.CreateTemp] does not return an empty name. *)
Definition pending_step (pending : list gostring) (e : event) : list gostring :=
  match e with
  | EvOs (OsCreateTemp _ _) (Ok (_, n)) => if bool_decide (n = []) then pending else n :: pending
  | EvOs (OsRemove n) _ => List.filter (fun m => negb (bool_decide (m = n))) pending
  | _ => pending
  end.
Definition pending (tr : list event) : list gostring := foldl pending_step [] tr.

Lemma pending_app tr e : pending (tr ++ [e]) = pending_step (pending tr) e.
Proof. unfold pending. by rewrite foldl_app. Qed.

(** The key files that are there: made, and not removed since.  A removal that fails
    leaves the file. *)
Definition removed (a : option fs_err) : bool :=
  match a with None | Some NotExist => true | Some _ => false end.
Definition live_step (live : list gostring) (e : event) : list gostring :=
  match e with
  | EvOs (OsCreateTemp _ _) (Ok (_, n)) => if bool_decide (n = []) then live else n :: live
  | EvOs (OsRemove n) a => if removed a then List.filter (fun m => negb (bool_decide (m = n))) live else live
  | _ => live
  end.
Definition live (tr : list event) : list gostring := foldl live_step [] tr.

(** The events of staging a key: the directory is checked to be private, a file is
    made in it, closed to others, written, closed, and its identity taken. *)
Definition private (info : FileInfo) (uid : Z) : Prop :=
  fi_dir info = true /\ fi_perm info = 448%N /\ fi_uid info = Some uid.
Definition stages (key : Secret) (f : stagedKeyFile) (tr : list event) : Prop :=
  exists dir di uid fd i, private di uid /\ id f = Some i /\
    tr = [EvOs (OsLstat dir) (Ok di); EvOs OsGeteuid uid;
          EvOs (OsCreateTemp dir (str "key-*")) (Ok (fd, path f));
          EvOs (OsFChmod fd 384) None; EvOs (OsFWrite fd (Reveal key)) None;
          EvOs (OsFClose fd) None; EvOs (OsLstat (path f)) (Ok i)].

(** The check before cryptsetup is started: the path names the same file, which is
    regular and closed to others. *)
Definition rechecked (f : stagedKeyFile) (e : event) : Prop :=
  exists i now, id f = Some i /\ e = EvOs (OsLstat (path f)) (Ok now) /\
    fi_regular now = true /\ fi_perm now = 384%N /\ fi_id now = fi_id i.

(** [tr'] continues [tr] and leaves at most [L] behind. *)
Definition leads (L : list gostring) (tr tr' : list event) : Prop :=
  (exists pre, tr' = tr ++ pre) /\ pending tr' ⊆ L.
Definition adds (p : gostring) (L : list gostring) : list gostring :=
  if bool_decide (p = []) then L else p :: L.

Lemma leads_refl L tr : pending tr ⊆ L -> leads L tr tr.
Proof. split; [|done]. exists []. by rewrite app_nil_r. Qed.

Lemma pending_step_remove L n m : m ∈ pending_step L (EvOs (OsRemove n) None) <-> m ∈ L /\ m <> n.
Proof. simpl. rewrite elem_of_List_filter, negb_true_iff, bool_decide_eq_false. done. Qed.

(** Only making a file leaves something behind. *)
Definition makes_none (e : event) : Prop :=
  match e with EvOs (OsCreateTemp _ _) (Ok _) => False | _ => True end.
Lemma pending_step_sub L L' e : L ⊆ L' -> makes_none e -> pending_step L e ⊆ L'.
Proof.
  intros HL He. destruct e as [|o a|]; [done| |done]. destruct o; try done; simpl.
  - destruct a; done.
  - intros n [Hn _]%elem_of_List_filter. by apply HL.
Qed.

Lemma leads_snoc L tr tr' e : leads L tr tr' -> makes_none e -> leads L tr (tr' ++ [e]).
Proof.
  intros [[pre ->] HL] He. split; [exists (pre ++ [e]); by rewrite app_assoc|].
  rewrite pending_app. by apply pending_step_sub.
Qed.
Lemma leads_remove L tr tr' p a : leads (adds p L) tr tr' -> leads L tr (tr' ++ [EvOs (OsRemove p) a]).
Proof.
  intros [[pre ->] HL]. split; [exists (pre ++ [EvOs (OsRemove p) a]); by rewrite app_assoc|].
  rewrite pending_app. unfold adds in HL. intros n [Hn Hp]%pending_step_remove. apply HL in Hn.
  case_bool_decide; [done|]. by apply elem_of_cons in Hn as [|].
Qed.
Lemma leads_make L tr tr' d q fd n :
  leads L tr tr' -> leads (adds n L) tr (tr' ++ [EvOs (OsCreateTemp d q) (Ok (fd, n))]).
Proof.
  intros [[pre ->] HL]. split; [eexists; by rewrite <- app_assoc|].
  rewrite pending_app. unfold adds. simpl. case_bool_decide; [done|]. set_solver.
Qed.
Lemma leads_mono L L' tr tr' : L ⊆ L' -> leads L tr tr' -> leads L' tr tr'.
Proof. intros HL [? ?]. split; [done|]. set_solver. Qed.
Lemma leads_trans L tr tr' tr'' : leads L tr tr' -> leads L tr' tr'' -> leads L tr tr''.
Proof. intros [[p ->] _] [[q ->] ?]. split; [|done]. exists (p ++ q). by rewrite app_assoc. Qed.
Lemma leads_app L tr tr' es : leads L tr tr' -> Forall makes_none es -> leads L tr (tr' ++ es).
Proof.
  intros H He. revert tr' H. induction He as [|e es He _ IH]; intros tr' H; [by rewrite app_nil_r|].
  rewrite (app_assoc _ [e] es). by apply IH, leads_snoc.
Qed.
Lemma stages_leads L key f blk tr tr' :
  stages key f blk -> leads L tr tr' -> leads (adds (path f) L) tr (tr' ++ blk).
Proof.
  intros (dir & di & uid & fd & i & _ & _ & ->) H.
  match goal with |- leads _ _ (tr' ++ ?a :: ?b :: ?c :: ?r) =>
    replace (tr' ++ a :: b :: c :: r) with (((tr' ++ [a; b]) ++ [c]) ++ r) by by rewrite <- !app_assoc end.
  apply leads_app; [|by repeat constructor]. apply leads_make, leads_app; [done|by repeat constructor].
Qed.

Create HintDb leads.
#[local] Hint Resolve leads_refl leads_snoc leads_remove leads_make : leads.
#[local] Hint Extern 0 (makes_none _) => exact I : leads.

Section Programs.
Context (P : list event -> Command -> gostring -> Prop).
Abbreviation wph := (wpg log_event (ok_run P)).

Lemma verifyStagingDir_wph dir L tr0 tr Q :
  leads L tr0 tr ->
  (forall tr' e, leads L tr0 tr' -> Q tr' (Some e)) ->
  (forall di uid, private di uid ->
     Q (tr ++ [EvOs (OsLstat dir) (Ok di); EvOs OsGeteuid uid]) None) ->
  wph (verifyStagingDir dir) tr Q.
Proof.
  intros HL HE HO. unfold verifyStagingDir. repeat wph_step; try done; try (apply HE; by eauto with leads).
  case_match; [apply HE; by eauto with leads|]. rewrite <- app_assoc. apply HO.
  apply negb_false_iff, Z.eqb_eq in H. subst. go_bool. done.
Qed.

Lemma verifyStagingParent_wph dir L tr0 tr Q :
  leads L tr0 tr -> (forall tr' r, leads L tr0 tr' -> Q tr' r) -> wph (verifyStagingParent dir) tr Q.
Proof.
  intros HL HQ. unfold verifyStagingParent. repeat wph_step; try done; apply HQ; eauto with leads.
Qed.

Lemma keyFileStagingDir_wph st L tr0 tr Q :
  leads L tr0 tr ->
  (forall tr' st' e, leads L tr0 tr' -> Q tr' (st', Err e)) ->
  (forall tr' st' dir di uid, private di uid -> leads L tr0 tr' ->
     Q (tr' ++ [EvOs (OsLstat dir) (Ok di); EvOs OsGeteuid uid]) (st', Ok dir)) ->
  wph (keyFileStagingDir st) tr Q.
Proof.
  intros HL HE HO. unfold keyFileStagingDir. case_match.
  - wph_step. eapply verifyStagingDir_wph; [exact HL|intros; by apply HE|]. intros di uid Hd. by apply HO.
  - wph_step. eapply verifyStagingParent_wph; [exact HL|]. intros tr1 [e|] H1; [by apply HE|].
    wph_step. wph_step; [done|]. wph_step; [|apply HE; by eauto with leads].
    wph_step. eapply (verifyStagingDir_wph _ L tr0); [by eauto with leads|intros; by apply HE|].
    intros di uid Hd. apply HO; [done|]. by eauto with leads.
Qed.

(** Staging a key: an error leaves nothing, success leaves the one file. *)
Lemma writeKeyFile_wph st key L tr0 tr Q :
  leads L tr0 tr ->
  (forall tr' st' e, leads L tr0 tr' -> Q tr' (st', Err e)) ->
  (forall tr' st' f blk, leads L tr0 tr' -> stages key f blk -> Q (tr' ++ blk) (st', Ok f)) ->
  wph (writeKeyFile st key) tr Q.
Proof.
  intros HL HE HO. unfold writeKeyFile, cleanupKeyFileAfter.
  wph_step. eapply keyFileStagingDir_wph; [exact HL|intros; by apply HE|].
  intros tr1 st1 dir di uid Hd H1. do 2 wph_step; [done|].
  assert (H2 : leads L tr0 (tr1 ++ [EvOs (OsLstat dir) (Ok di); EvOs OsGeteuid uid]))
    by (apply leads_app; [done|by repeat constructor]).
  wph_step; [|apply HE; by eauto with leads]. destruct a as [fd n].
  repeat wph_step; try done; simplify_eq/=; try (apply HE; by eauto 20 with leads).
  rewrite <- !app_assoc. apply HO; [done|]. by exists dir, di, uid, fd, a.
Qed.

Lemma cleanupKeyFile_wph p L tr0 tr :
  leads (adds p L) tr0 tr -> wph (cleanupKeyFile p) tr (fun tr' _ => leads L tr0 tr').
Proof.
  intros H. unfold cleanupKeyFile. destruct p as [|c p]; [exact H|].
  repeat wph_step; try done; eauto 20 with leads.
Qed.

Lemma verifyStaged_wph files L tr0 tr Q :
  leads L tr0 tr ->
  (forall tr' e, leads L tr0 tr' -> Q tr' (Some e)) ->
  (forall es, Forall2 rechecked files es -> leads L tr0 (tr ++ es) -> Q (tr ++ es) None) ->
  wph (verifyStaged files) tr Q.
Proof.
  revert tr Q. induction files as [|f files IH]; intros tr Q HL HE HO; cbn [verifyStaged].
  - wph_step. specialize (HO []). rewrite app_nil_r in HO. by apply HO.
  - wph_step. unfold verify. destruct (path f) as [|c p] eqn:Ep; [apply HE; done|].
    destruct (id f) as [i|] eqn:Ei; [|apply HE; done]. rewrite <- Ep.
    wph_step. wph_step; [done|]. destruct x as [now|]; [|apply HE; by eauto with leads].
    cbn [wpg]. destruct (_ || _) eqn:Eb; [apply HE; by eauto with leads|]. go_bool.
    apply IH; [by eauto with leads|done|]. intros es Hes HLes.
    rewrite <- app_assoc in *. apply HO; [|done]. constructor; [|done]. by exists i, now.
Qed.

Lemma runCryptsetup_wph op_ args files L tr0 tr :
  leads L tr0 tr ->
  (forall es, Forall2 rechecked files es -> P (tr ++ es) (cryptsetup args) []) ->
  wph (runCryptsetup op_ args files) tr (fun tr' _ => leads L tr0 tr').
Proof.
  intros HL HP. unfold runCryptsetup. wph_step. eapply verifyStaged_wph; [exact HL|by intros|].
  intros es Hes HLes. wph_step. wph_step; [by apply HP|]. destruct x. wph_step. by eauto with leads.
Qed.

(** Staging a key around a body: the file is gone afterwards. *)
Lemma with_key_wph st key body L tr0 tr :
  leads L tr0 tr ->
  (forall st' f tr' blk, leads L tr0 tr' -> stages key f blk -> leads (adds (path f) L) tr0 (tr' ++ blk) ->
     wph (body st' f) (tr' ++ blk) (fun tr'' _ => leads (adds (path f) L) tr0 tr'')) ->
  wph (with_key st key body) tr (fun tr' _ => leads L tr0 tr').
Proof.
  intros HL HB. unfold with_key, defer. wph_step. eapply writeKeyFile_wph; [exact HL|by intros|].
  intros tr' st' f blk H1 Hs. wph_step. eapply wpg_mono; [|apply (HB st' f tr' blk H1 Hs); by apply (stages_leads _ key)].
  intros tr2 r H2. wph_step. eapply wpg_mono; [|exact (cleanupKeyFile_wph _ _ _ _ H2)]. by intros.
Qed.

Lemma check_wph st v k L tr0 tr :
  leads L tr0 tr -> (v = Ok tt -> wph k tr (fun tr' _ => leads L tr0 tr')) ->
  wph (check st v k) tr (fun tr' _ => leads L tr0 tr').
Proof. intros HL Hk. unfold check. destruct v as [[]|]; [by apply Hk|done]. Qed.
End Programs.

(** ** The operations *)

Inductive luks_op :=
| OpAddKey (dev : gostring) (existing newKey : Secret) (opts : AddKeyOptions)
| OpRemoveKey (dev : gostring) (key : Secret)
| OpKillSlot (dev : gostring) (slot : Z) (existing : Secret)
| OpVerify (dev : gostring) (p : Secret)
| OpDetectByKey (p : Secret).

Inductive luks_answer :=
| ADone (e : option enc_error)
| AVerdict (r : result enc_error bool)
| AVolume (r : result enc_error Volume).
(** The package state and the answer of an operation. *)
Definition answering {A} (f : A -> luks_answer) (p : prog (Staging * A)) : prog (Staging * luks_answer) :=
  let! r := p in Ret (r.1, f r.2).
Definition luks_prog (st : Staging) (o : luks_op) : prog (Staging * luks_answer) :=
  match o with
  | OpAddKey dev existing newKey opts => answering ADone (AddKey st dev existing newKey opts)
  | OpRemoveKey dev key => answering ADone (RemoveKey st dev key)
  | OpKillSlot dev slot existing => answering ADone (KillSlot st dev slot existing)
  | OpVerify dev p => answering AVerdict (VerifyPassphrase st dev p)
  | OpDetectByKey p => answering AVolume (DetectVolumeByKey st p)
  end.

(** A command was started with one staged key: the path it is handed was staged
    with that key and rechecked by the very last call. *)
Definition with_one (key : Secret) (mk : gostring -> list gostring) (pre : list event) (c : Command)
    (stdin : gostring) : Prop :=
  exists f p0 blk es, stages key f blk /\ Forall2 rechecked [f] es /\ pre = p0 ++ blk ++ es /\
    c = cryptsetup (mk (path f)) /\ stdin = [].
Definition with_two (old new : Secret) (mk : gostring -> gostring -> list gostring) (pre : list event)
    (c : Command) (stdin : gostring) : Prop :=
  exists ef nf p0 b1 p1 b2 es, stages old ef b1 /\ stages new nf b2 /\ Forall2 rechecked [ef; nf] es /\
    pre = p0 ++ b1 ++ p1 ++ b2 ++ es /\ c = cryptsetup (mk (path ef) (path nf)) /\ stdin = [].
Definition testArgs (dev p : gostring) : list gostring :=
  [str "open"; str "--test-passphrase"; dev; str "--key-file"; p; str "--batch-mode"].
Definition add_args (dev newPath oldPath : gostring) (slot : option Z) : list gostring :=
  match slot with
  | Some n => [str "luksAddKey"; dev; newPath; str "--key-file"; oldPath; str "--key-slot"; Json.int_lit n; str "--batch-mode"]
  | None => [str "luksAddKey"; dev; newPath; str "--key-file"; oldPath; str "--batch-mode"]
  end.
Lemma addKeyArgs_args dev n o slot : addKeyArgs dev n o slot = add_args dev n o slot.
Proof. by destruct slot. Qed.
Definition device (dev : gostring) : Prop := validateDevicePath dev = Ok tt.

Definition started (o : luks_op) (pre : list event) (c : Command) (stdin : gostring) : Prop :=
  match o with
  | OpAddKey dev existing newKey opts =>
      device dev /\ Reveal newKey <> [] /\ Reveal existing <> [] /\
      (forall n, Slot opts = Some n -> (0 <= n <= 7)%Z) /\
      with_two existing newKey (fun old new => add_args dev new old (Slot opts)) pre c stdin
  | OpRemoveKey dev key =>
      device dev /\ Reveal key <> [] /\
      with_one key (fun p => [str "luksRemoveKey"; dev; str "--key-file"; p; str "--batch-mode"]) pre c stdin
  | OpKillSlot dev slot existing =>
      device dev /\ (0 <= slot <= 7)%Z /\ Reveal existing <> [] /\
      with_one existing (fun p => [str "luksKillSlot"; dev; Json.int_lit slot; str "--key-file"; p;
                                   str "--batch-mode"]) pre c stdin
  | OpVerify dev p => device dev /\ with_one p (testArgs dev) pre c stdin
  | OpDetectByKey p =>
      Name c = str "lsblk" /\ stdin = [] \/ exists dev, device dev /\ with_one p (testArgs dev) pre c stdin
  end.

Lemma nonzero_ok k what : nonzero k what = Ok tt -> Reveal k <> [].
Proof. unfold nonzero, IsZero. case_bool_decide; done. Qed.
Lemma validateKeySlot_ok n : validateKeySlot n = Ok tt -> (0 <= n <= 7)%Z.
Proof. unfold validateKeySlot, LuksMinKeySlot, LuksMaxKeySlot. destruct (_ || _) eqn:E; [done|]. go_bool. lia. Qed.

Lemma answering_wph {A} P (f : A -> luks_answer) p L tr0 tr :
  wpg log_event (ok_run P) p tr (fun tr' _ => leads L tr0 tr') ->
  wpg log_event (ok_run P) (answering f p) tr (fun tr' _ => leads L tr0 tr').
Proof. intros H. unfold answering. by wph_step. Qed.

Lemma VerifyPassphrase_wph (P : list event -> Command -> gostring -> Prop) st dev p L tr0 tr Q :
  (forall pre c i, device dev -> with_one p (testArgs dev) pre c i -> P pre c i) ->
  leads L tr0 tr -> (forall tr' r, leads L tr0 tr' -> Q tr' r) ->
  wpg log_event (ok_run P) (VerifyPassphrase st dev p) tr Q.
Proof.
  intros HP HL HQ. unfold VerifyPassphrase, defer.
  destruct (validateDevicePath dev) as [[]|] eqn:Ed; [|by apply HQ].
  wph_step. eapply writeKeyFile_wph; [exact HL|by intros; apply HQ|]. intros tr1 st1 f blk H1 Hs.
  assert (H2 : leads (adds (path f) L) tr0 (tr1 ++ blk)) by by apply (stages_leads L p).
  wph_step. wph_step. eapply verifyStaged_wph; [exact H2| |].
  - intros tr2 e H3. wph_step. wph_step. eapply wpg_mono; [|exact (cleanupKeyFile_wph _ _ _ _ _ H3)].
    intros tr3 [] H4. by apply HQ.
  - intros es Hes H3. wph_step. wph_step.
    { apply HP; [done|]. exists f, tr1, blk, es. by rewrite <- app_assoc. }
    destruct x as [res err]. wph_step. wph_step. eapply wpg_mono; [|apply cleanupKeyFile_wph; by eauto with leads].
    intros tr3 [] H4. by apply HQ.
Qed.

Lemma try_volumes_wph (P : list event -> Command -> gostring -> Prop) vs p st L tr0 tr :
  (forall dev pre c i, device dev -> with_one p (testArgs dev) pre c i -> P pre c i) ->
  leads L tr0 tr ->
  wpg log_event (ok_run P) (try_volumes st vs p) tr (fun tr' _ => leads L tr0 tr').
Proof.
  intros HP. revert st tr. induction vs as [|v vs IH]; intros st tr HL; cbn [try_volumes]; [exact HL|].
  wph_step. eapply VerifyPassphrase_wph; [by intros; eapply HP|exact HL|].
  intros tr1 [st1 [[]|]] H1; [exact H1|by apply IH..].
Qed.

Lemma luks_prog_wph st o :
  wpg log_event (ok_run (started o)) (luks_prog st o) [] (fun tr' _ => leads [] [] tr').
Proof.
  assert (H0 : leads [] [] []) by by apply leads_refl.
  destruct o as [dev ex nk opts|dev key|dev slot ex|dev p|p]; cbn [luks_prog]; apply answering_wph.
  - unfold AddKey. apply check_wph; [done|]. intros Hd. apply check_wph; [done|]. intros Hs.
    apply check_wph; [done|]. intros Hn%nonzero_ok. apply check_wph; [done|]. intros He%nonzero_ok.
    apply with_key_wph; [done|]. intros st1 ef tr1 b1 H1 Hb1 H1'.
    eapply wpg_mono; [intros tr' r; apply (leads_trans _ _ (tr1 ++ b1)), H1'|].
    apply with_key_wph; [apply leads_refl, H1'|]. intros st2 nf tr2 b2 [[p1 ->] H2] Hb2 H2'.
    wph_step. eapply wpg_mono; [|eapply runCryptsetup_wph; [exact H2'|]]; [by intros|].
    intros es Hes. repeat (split; [done|]). split.
    { intros n En. rewrite En in Hs. by apply validateKeySlot_ok. }
    exists ef, nf, tr1, b1, p1, b2, es. rewrite addKeyArgs_args. by rewrite <- !app_assoc.
  - unfold RemoveKey. apply check_wph; [done|]. intros Hd. apply check_wph; [done|]. intros Hn%nonzero_ok.
    apply with_key_wph; [done|]. intros st1 f tr1 blk H1 Hb H1'.
    wph_step. eapply wpg_mono; [|eapply runCryptsetup_wph; [exact H1'|]]; [by intros|].
    intros es Hes. repeat (split; [done|]). exists f, tr1, blk, es. by rewrite <- !app_assoc.
  - unfold KillSlot. apply check_wph; [done|]. intros Hd. apply check_wph; [done|]. intros Hs%validateKeySlot_ok.
    apply check_wph; [done|]. intros Hn%nonzero_ok.
    apply with_key_wph; [done|]. intros st1 f tr1 blk H1 Hb H1'.
    wph_step. eapply wpg_mono; [|eapply runCryptsetup_wph; [exact H1'|]]; [by intros|].
    intros es Hes. repeat (split; [done|]). exists f, tr1, blk, es. by rewrite <- !app_assoc.
  - eapply VerifyPassphrase_wph; [by intros|exact H0|by intros].
  - unfold DetectVolumeByKey, DetectAllVolumes. wph_step. wph_step. wph_step; [by left|].
    destruct x as [res err]. cbn [wpg]. set (r := match err with Some _ => _ | None => _ end).
    assert (H1 : leads [] [] ([] ++ [EvRun (MkCommand (str "lsblk") [str "-J"; str "-o";
      str "NAME,TYPE,FSTYPE,MOUNTPOINT"] [] [] [] false) [] (res, err)])) by by apply leads_snoc.
    destruct r as [[|v vs]|]; [exact H1| |exact H1].
    apply try_volumes_wph; [|exact H1]. intros dev pre c i Hd Hw. right. by exists dev.
Qed.

Lemma pending_gone tr pre d q fd n post :
  pending tr = [] -> tr = pre ++ EvOs (OsCreateTemp d q) (Ok (fd, n)) :: post -> n <> [] ->
  exists a, EvOs (OsRemove n) a ∈ post.
Proof.
  intros Hl -> Hn. set (e := EvOs (OsCreateTemp d q) (Ok (fd, n))) in *.
  assert (Hin : n ∈ pending (pre ++ [e])).
  { rewrite pending_app. simpl. rewrite bool_decide_false by done. left. }
  change (e :: post) with ([e] ++ post) in Hl. rewrite app_assoc in Hl. revert Hl Hin. clearbody e.
  generalize (pre ++ [e]). clear e. induction post as [|e post IH]; intros t Hl Hin.
  { rewrite app_nil_r in Hl. rewrite Hl in Hin. by apply elem_of_nil in Hin. }
  change (e :: post) with ([e] ++ post) in Hl. rewrite app_assoc in Hl.
  destruct (decide (n ∈ pending (t ++ [e]))) as [Hin'|Hout].
  - destruct (IH _ Hl Hin') as [a Ha]. exists a. by right.
  - rewrite pending_app in Hout. destruct e as [|o a|]; [done| |done]. destruct o; try done; simpl in Hout.
    + destruct a as [[? m]|]; [|done]. case_bool_decide; [done|]. set_solver.
    + rewrite elem_of_List_filter, negb_true_iff, bool_decide_eq_false in Hout.
      destruct (decide (n = path0)) as [<-|]; [|tauto]. exists a. left.
Qed.

(** An event that does not remove [n]. *)
Definition keeps (n : gostring) (e : event) : bool :=
  match e with EvOs (OsRemove m) a => negb (bool_decide (m = n)) || negb (removed a) | _ => true end.
Definition makes (n : gostring) (e : event) : bool :=
  match e with EvOs (OsCreateTemp _ _) (Ok (_, m)) => bool_decide (m = n) && negb (bool_decide (n = [])) | _ => false end.

Lemma live_step_in l e n : n ∈ live_step l e -> makes n e = true \/ (n ∈ l) /\ keeps n e = true.
Proof.
  destruct e as [|o a|]; [by right| |by right]. destruct o; try by right.
  - cbn [live_step makes keeps]. destruct a as [[fd m]|]; [|by right]. case_bool_decide as E; [by right|].
    intros [->|H]%elem_of_cons; [left|by right]. by rewrite bool_decide_true, bool_decide_false.
  - cbn [live_step keeps]. right. destruct (removed a); [|by rewrite orb_true_r].
    apply elem_of_List_filter in H as [H1 H2]. split; [|rewrite orb_false_r]; [done|].
    rewrite negb_true_iff, bool_decide_eq_false in *. congruence.
Qed.

(** A file that is there was made, and no removal of it succeeded since. *)
Lemma live_made tr n : n ∈ live tr ->
  exists pre e post, tr = pre ++ e :: post /\ makes n e = true /\ Forall (fun e => keeps n e = true) post.
Proof.
  induction tr as [|e tr IH] using rev_ind; [by intros ?%elem_of_nil|].
  unfold live. rewrite foldl_app. intros [Hm|[Hl Hk]]%live_step_in.
  - exists tr, e, []. done.
  - destruct (IH Hl) as (pre & e' & post & -> & Hm & Hp). exists pre, e', (post ++ [e]).
    rewrite <- app_assoc. split; [done|]. split; [done|]. by apply list.Forall_app; split; [|constructor].
Qed.

(** C11: On every host, whatever it answers: cryptsetup is started only for a valid
    device, with paths of files that were just staged with the given keys in a
    directory checked to be private and that still are those files, never with key
    material in its arguments or input; the removal of every key file that was made
    is called for afterwards and before the operation returns, on its error paths
    too, so that a key file is left only where its removal itself failed. *)
Theorem key_files_safe {S} (h : handler S) s st o :
  (forall pre c i a post,
     history h s (luks_prog st o) = pre ++ EvRun c i a :: post -> started o pre c i) /\
  (forall pre d q fd n post,
     history h s (luks_prog st o) = pre ++ EvOs (OsCreateTemp d q) (Ok (fd, n)) :: post -> n <> [] ->
     exists a, EvOs (OsRemove n) a ∈ post) /\
  (forall n, n ∈ live (history h s (luks_prog st o)) ->
     exists m, EvOs (OsRemove n) (Some (OtherErr m)) ∈ history h s (luks_prog st o)).
Proof.
  destruct (wph_run _ h s _ _ (luks_prog_wph st o)) as [HP [_ HL]]. split; [exact HP|].
  assert (Hgone : forall pre d q fd n post,
     history h s (luks_prog st o) = pre ++ EvOs (OsCreateTemp d q) (Ok (fd, n)) :: post -> n <> [] ->
     exists a, EvOs (OsRemove n) a ∈ post).
  { intros pre d q fd n post E Hn. eapply pending_gone; [|exact E|done].
    destruct (pending _) as [|m l]; [done|]. assert (m ∈ []) as []%elem_of_nil by (apply HL; left). }
  split; [exact Hgone|]. intros n (pre & e & post & E & Hm & Hk)%live_made.
  destruct e as [|o' a'|]; [done| |done]. destruct o'; try done. cbn [makes] in Hm. destruct a' as [[fd m]|]; [|done].
  apply andb_prop in Hm as [->%bool_decide_eq_true Hn%negb_true_iff%bool_decide_eq_false].
  destruct (Hgone _ _ _ _ _ _ E Hn) as [a Ha]. pose proof Ha as Hin. rewrite list.Forall_forall in Hk. apply Hk in Ha.
  cbn [keeps] in Ha. rewrite bool_decide_true in Ha by done. cbn [negb orb] in Ha.
  destruct a as [[|msg]|]; [done| |done]. exists msg. rewrite E. apply elem_of_app. right. by right.
Qed.

End EncryptionKeys.
