(* ===== verification/EncryptionSlots.v ===== *)
(** * LUKS keyslots ([src/sys/encryption/luks.go])

    On a host whose package [os] is a tmpfs and whose cryptsetup does what its manual
    says, the operations of the LUKS manager are the operations of a map from
    keyslots to keys: adding a key is an insertion, killing a slot a deletion, and
    testing a passphrase a search; other devices and other files stay as they were. *)
From S2P Require Import Prelude Exec HostProg Words Json Wordlist Encryption EncryptionKeys.

Module EncryptionSlots.
Import Exec HostProg Encryption EncryptionKeys.

(** ** What cryptsetup does (cryptsetup(8)) *)

Definition exits (code : Z) : Result * option exec_error := (MkResult code [] [], None).
Definition holds (m : gmap Z gostring) (k : gostring) : Prop := exists n, m !! n = Some k.

(** A key is added by a key that opens the device, to the keyslot that is asked for
    or to one that is free. *)
Definition add_granted (m : gmap Z gostring) (ko : gostring) (slot : option Z) (n : Z) : Prop :=
  holds m ko /\ m !! n = None /\ forall i, slot = Some i -> n = i.
Definition add_denied (m : gmap Z gostring) (ko : gostring) (slot : option Z) : Prop :=
  ~ holds m ko \/
  match slot with
  | Some n => is_Some (m !! n)
  | None => forall n, (0 <= n <= 7)%Z -> is_Some (m !! n)
  end.
(** A keyslot is wiped by the key of another one. *)
Definition kill_granted (m : gmap Z gostring) (n : Z) (k : gostring) : Prop := is_Some (m !! n) /\ holds (delete n m) k.

(** The exit codes are those of the manual: 0, 1 for wrong parameters, 2 when no key
    is available.  The machine does not fail (3: out of memory, 4 and 5: the device is
    gone or busy). *)
Definition refuses_ (code : Z) : Prop := code = 1%Z \/ code = 2%Z.
Definition frames {D} (slots : D -> gostring -> option (gmap Z gostring)) (dev : gostring) (d d' : D) : Prop :=
  forall dev', dev' <> dev -> slots d' dev' = slots d dev'.

Class Cryptsetup (D : Type) := {
  (** the keyslots of a LUKS device *)
  slots : D -> gostring -> option (gmap Z gostring);
  (** executing a command, which reads key files *)
  crypt : D -> (gostring -> option gostring) -> list gostring -> D * (Result * option exec_error);
  crypt_add d rd dev old new slot m ko kn :
    slots d dev = Some m -> rd old = Some ko -> rd new = Some kn -> (forall i, slot = Some i -> (0 <= i <= 7)%Z) ->
    exists d' res, crypt d rd (add_args dev new old slot) = (d', (res, None)) /\ frames slots dev d d' /\
      (ExitCode res = 0%Z /\ (exists n, add_granted m ko slot n /\ slots d' dev = Some (<[n := kn]> m)) \/
       refuses_ (ExitCode res) /\ add_denied m ko slot /\ slots d' dev = Some m);
  crypt_kill d rd dev f n m k :
    slots d dev = Some m -> rd f = Some k -> (0 <= n <= 7)%Z ->
    exists d' res, crypt d rd [str "luksKillSlot"; dev; Json.int_lit n; str "--key-file"; f; str "--batch-mode"]
        = (d', (res, None)) /\ frames slots dev d d' /\
      (ExitCode res = 0%Z /\ kill_granted m n k /\ slots d' dev = Some (delete n m) \/
       refuses_ (ExitCode res) /\ ~ kill_granted m n k /\ slots d' dev = Some m);
  crypt_remove d rd dev f m k :
    slots d dev = Some m -> rd f = Some k ->
    exists d' res, crypt d rd [str "luksRemoveKey"; dev; str "--key-file"; f; str "--batch-mode"]
        = (d', (res, None)) /\ frames slots dev d d' /\
      (ExitCode res = 0%Z /\ (exists n, m !! n = Some k /\ slots d' dev = Some (delete n m)) \/
       refuses_ (ExitCode res) /\ ~ holds m k /\ slots d' dev = Some m);
  crypt_test d rd dev f m k :
    slots d dev = Some m -> rd f = Some k -> exists res, crypt d rd (testArgs dev f) = (d, (res, None)) /\
      (ExitCode res = 0%Z /\ holds m k \/ ExitCode res = 2%Z /\ ~ holds m k)
}.

(** The manager's operations as operations of the map: what each makes of the keyslots
    and answers, refusals included. *)
Definition add_valid (old new : Secret) (slot : option Z) : Prop :=
  Reveal new <> [] /\ Reveal old <> [] /\ forall i, slot = Some i -> (0 <= i <= 7)%Z.
Definition kill_valid (n : Z) (k : Secret) : Prop := (0 <= n <= 7)%Z /\ Reveal k <> [].
Inductive slot_step : luks_op -> gmap Z gostring -> gmap Z gostring -> luks_answer -> Prop :=
| add_step dev old new slot n m :
    add_valid old new slot -> add_granted m (Reveal old) slot n ->
    slot_step (OpAddKey dev old new (MkAddKey slot)) m (<[n := Reveal new]> m) (ADone None)
| add_refused dev old new slot m e :
    ~ add_valid old new slot \/ add_denied m (Reveal old) slot ->
    slot_step (OpAddKey dev old new (MkAddKey slot)) m m (ADone (Some e))
| kill_step dev n k m :
    kill_valid n k -> kill_granted m n (Reveal k) -> slot_step (OpKillSlot dev n k) m (delete n m) (ADone None)
| kill_refused dev n k m e :
    ~ (kill_valid n k /\ kill_granted m n (Reveal k)) -> slot_step (OpKillSlot dev n k) m m (ADone (Some e))
| remove_step dev n k m :
    m !! n = Some (Reveal k) -> Reveal k <> [] -> slot_step (OpRemoveKey dev k) m (delete n m) (ADone None)
| remove_refused dev k m e :
    ~ (Reveal k <> [] /\ holds m (Reveal k)) -> slot_step (OpRemoveKey dev k) m m (ADone (Some e))
| test_step dev k m : holds m (Reveal k) -> slot_step (OpVerify dev k) m m (AVerdict (Ok true))
| test_denied dev k m : ~ holds m (Reveal k) -> slot_step (OpVerify dev k) m m (AVerdict (Ok false)).

Definition op_device (o : luks_op) : gostring :=
  match o with
  | OpAddKey dev _ _ _ | OpRemoveKey dev _ | OpKillSlot dev _ _ | OpVerify dev _ => dev
  | OpDetectByKey _ => []
  end.

(** ** A tmpfs *)

Section Tmpfs.
Context {D : Type} {CS : Cryptsetup D}.
(** The name [os.CreateTemp] and [os.MkdirTemp] pick does not exist yet. *)
Context (pick : gmap gostring (FileInfo * gostring) -> gostring -> gostring -> gostring).

Record tmpfs := MkTmp {
  ents : gmap gostring (FileInfo * gostring); handles : gmap nat gostring; next : nat; disk : D
}.
Definition with_ents (s : tmpfs) e : tmpfs := MkTmp e (handles s) (next s) (disk s).

Definition directory (ino : nat) : FileInfo := MkFileInfo true false 448 false (Some 0%Z) 0 (0, Z.of_nat ino)%Z.
Definition file_info (ino : nat) : FileInfo := MkFileInfo false true 384 false (Some 0%Z) 0 (0, Z.of_nat ino)%Z.
Definition sized (e : FileInfo * gostring) : FileInfo :=
  let '(i, data) := e in
  MkFileInfo (fi_dir i) (fi_regular i) (fi_perm i) (fi_sticky i) (fi_uid i) (N.of_nat (length data)) (fi_id i).
Definition chmod_info (mode : N) (i : FileInfo) : FileInfo :=
  MkFileInfo (fi_dir i) (fi_regular i) mode (fi_sticky i) (fi_uid i) (fi_size i) (fi_id i).

(** An operation on the file of a handle. *)
Definition on_handle (s : tmpfs) (fd : nat) (f : FileInfo * gostring -> FileInfo * gostring) : tmpfs * option fs_err :=
  match handles s !! fd with
  | Some p => match ents s !! p with
              | Some e => (with_ents s (<[p := f e]> (ents s)), None)
              | None => (s, Some NotExist)
              end
  | None => (s, Some NotExist)
  end.

Definition tmp_os (s : tmpfs) (o : os_op) : tmpfs * os_ans o :=
  match o return tmpfs * os_ans o with
  | OsLstat p => (s, match ents s !! p with Some e => Ok (sized e) | None => Err NotExist end)
  | OsGeteuid => (s, 0%Z)
  | OsMkdirTemp d pat =>
      let p := pick (ents s) d pat in
      (MkTmp (<[p := (directory (next s), [])]> (ents s)) (handles s) (S (next s)) (disk s), Ok p)
  | OsCreateTemp d pat =>
      let p := pick (ents s) d pat in
      (MkTmp (<[p := (file_info (next s), [])]> (ents s)) (<[next s := p]> (handles s)) (S (next s)) (disk s),
       Ok (next s, p))
  | OsFChmod fd mode => on_handle s fd (fun e => (chmod_info mode e.1, e.2))
  | OsFWrite fd data => on_handle s fd (fun e => (e.1, e.2 ++ data))
  | OsFClose fd => (MkTmp (ents s) (delete fd (handles s)) (next s) (disk s), None)
  | OsOpenNoFollow p =>
      match ents s !! p with
      | Some _ => (MkTmp (ents s) (<[next s := p]> (handles s)) (S (next s)) (disk s), Ok (next s))
      | None => (s, Err NotExist)
      end
  | OsFStat fd => (s, match handles s !! fd with
                      | Some p => match ents s !! p with Some e => Ok (sized e) | None => Err NotExist end
                      | None => Err NotExist
                      end)
  | OsFWriteAt fd data off => on_handle s fd (fun e => (e.1, take (N.to_nat off) e.2 ++ data ++
                                                          drop (N.to_nat off + length data) e.2))
  | OsRemove p => match ents s !! p with
                  | Some _ => (with_ents s (delete p (ents s)), None)
                  | None => (s, Some NotExist)
                  end
  | o => (s, os_absent o)
  end.

Definition read_file (s : tmpfs) (p : gostring) : option gostring := snd <$> ents s !! p.
Definition tmp_run (s : tmpfs) (c : Command) (stdin : gostring) : tmpfs * (Result * option exec_error) :=
  if bool_decide (Name c = str "cryptsetup") then
    let '(d, r) := crypt (disk s) (read_file s) (Args c) in (MkTmp (ents s) (handles s) (next s) d, r)
  else (s, exits 127).

Definition tmp_host : handler tmpfs :=
  fun X s c =>
    match c in call X return tmpfs * X with
    | CRun c i => tmp_run s c i
    | CCtxErr => (s, None)
    | CStat p => (s, Err NotExist)
    | CReadFile p => (s, Err NotExist)
    | CLookPath _ => (s, None)
    | CFs _ => (s, None)
    | CFsExists p => (s, Ok false)
    | CFsReadFile p => (s, Err NotExist)
    | CFsReadDir p => (s, Err NotExist)
    | COs o => tmp_os s o
    end.

(** [/dev/shm] is root's and sticky; a staging directory of this process is its own. *)
Definition shm_ok (e : FileInfo * gostring) : Prop :=
  fi_dir e.1 = true /\ fi_uid e.1 = Some 0%Z /\ fi_sticky e.1 = true.
Definition private_dir (e : FileInfo * gostring) : Prop :=
  fi_dir e.1 = true /\ fi_perm e.1 = 448%N /\ fi_uid e.1 = Some 0%Z.
Definition ready (s : tmpfs) (st : Staging) : Prop :=
  (exists e, ents s !! keyFileDir = Some e /\ shm_ok e) /\
  (stagingDir st <> [] -> stagingRoot st = keyFileDir ->
   exists e, ents s !! stagingDir st = Some e /\ private_dir e).


Context (pick_fresh : forall m d p, m !! pick m d p = None) (pick_named : forall m d p, pick m d p <> []).
Abbreviation h := tmp_host.

(** The files that were there are kept; only [new] may be added. *)
Definition keeps (new : list gostring) (s s' : tmpfs) : Prop :=
  (forall p e, ents s !! p = Some e -> ents s' !! p = Some e) /\
  (forall p, p ∉ new -> ents s' !! p = ents s !! p) /\ disk s' = disk s.

Definition staged_in (s : tmpfs) (st : Staging) (d : gostring) : Prop :=
  ready s st /\ stagingDir st = d /\ d <> [] /\ stagingRoot st = keyFileDir.

Lemma verifyStagingDir_run s d e :
  ents s !! d = Some e -> private_dir e -> run h s (verifyStagingDir d) = (s, None).
Proof.
  intros He (Hd & Hp & Hu). unfold verifyStagingDir. cbn [bind ask run tmp_host tmp_os]. rewrite He.
  destruct e as [i data]. cbn [sized fi_dir fi_perm fi_uid fst] in *. rewrite Hd, Hp, Hu. reflexivity.
Qed.

Lemma verifyStagingParent_run s e :
  ents s !! keyFileDir = Some e -> shm_ok e -> run h s (verifyStagingParent keyFileDir) = (s, None).
Proof.
  intros He (Hd & Hu & Hs). unfold verifyStagingParent. cbn [bind ask run tmp_host tmp_os]. rewrite He.
  destruct e as [i data]. cbn [sized fi_dir fi_perm fi_uid fi_sticky fst] in *. rewrite Hd, Hu.
  cbn [negb bind run tmp_host tmp_os fi_sticky fi_perm]. rewrite Hs. cbn [negb]. by rewrite !andb_false_r.
Qed.

Lemma staging_run s st :
  ready s st -> exists s1 st1 d, run h s (keyFileStagingDir st) = (s1, (st1, Ok d)) /\
    staged_in s1 st1 d /\ keeps [d] s s1 /\ (stagingDir st <> [] -> stagingRoot st = keyFileDir -> st1 = st).
Proof.
  intros Hr. pose proof Hr as [(e & He & Hok) Hst]. unfold keyFileStagingDir. case_match eqn:Ec.
  - go_bool. destruct Hst as (e' & He' & Hp); [done..|].
    exists s, st, (stagingDir st). rewrite run_bind, (verifyStagingDir_run _ _ _ He' Hp).
    split; [done|]. split; [unfold staged_in; by split_and!|]. split; [unfold keeps; by split_and!|done].
  - rewrite run_bind, (verifyStagingParent_run _ _ He Hok). cbn [fst snd bind ask run tmp_host tmp_os].
    set (d := pick (ents s) keyFileDir (str "pm-luks-")).
    assert (Hf : ents s !! d = None) by apply pick_fresh.
    set (s1 := MkTmp _ _ _ _). assert (Hd : ents s1 !! d = Some (directory (next s), [])) by apply lookup_insert_eq.
    rewrite run_bind, (verifyStagingDir_run _ _ _ Hd) by done. cbn [fst snd run].
    exists s1, (MkStaging keyFileDir d), d. split; [done|].
    assert (Hk : keyFileDir <> d) by congruence.
    split; [unfold staged_in, ready; split_and!|split; [unfold keeps; split_and!|]]; try done;
      [| |apply pick_named|..].
    + exists e. split; [|done]. cbn. by rewrite lookup_insert_ne.
    + intros _ _. exists (directory (next s), []). done.
    + intros p e' He'. cbn. rewrite lookup_insert_ne by congruence. done.
    + intros p Hp%not_elem_of_cons. cbn. apply lookup_insert_ne. naive_solver.
    + intros H1 H2. by rewrite (bool_decide_false (stagingDir st = [])), bool_decide_true in Ec by done.
Qed.

(** A staged key file holds its key and is the file it was. *)
Definition key_file (s : tmpfs) (f : stagedKeyFile) (k : gostring) : Prop :=
  exists i i', ents s !! path f = Some (i, k) /\ fi_regular i = true /\ fi_perm i = 384%N /\
    id f = Some i' /\ fi_id i' = fi_id i.
Definition staged (s : tmpfs) (st : Staging) (key : Secret) (s1 : tmpfs) (st1 : Staging) (f : stagedKeyFile) : Prop :=
  staged_in s1 st1 (stagingDir st1) /\ path f <> [] /\ ents s !! path f = None /\
  path f <> stagingDir st1 /\ key_file s1 f (Reveal key) /\ keeps [stagingDir st1; path f] s s1 /\
  (stagingDir st <> [] -> stagingRoot st = keyFileDir -> st1 = st).

Lemma writeKeyFile_run s st key :
  ready s st -> exists s1 st1 f, run h s (writeKeyFile st key) = (s1, (st1, Ok f)) /\ staged s st key s1 st1 f.
Proof.
  intros Hr. destruct (staging_run s st Hr) as (s1 & st1 & d & E & ([(e & He & Hs) Hst] & Hd & Hn & Hroot) & (Hk1 & Hk2 & Hk3) & Hsame).
  unfold writeKeyFile. rewrite run_bind, E. cbn [fst snd bind ask run tmp_host tmp_os].
  set (n := pick (ents s1) d (str "key-*")).
  assert (Hf : ents s1 !! n = None) by apply pick_fresh. subst d.
  destruct Hst as (ed & Hed & Hpd); [done..|].
  unfold on_handle. cbn [handles ents with_ents next disk]. rewrite !lookup_insert_eq.
  cbn [bind run tmp_host tmp_os on_handle handles ents with_ents next disk fst snd].
  unfold on_handle. cbn [handles ents with_ents next disk fst snd]. rewrite !lookup_insert_eq.
  cbn [bind run tmp_host tmp_os handles ents with_ents next disk fst snd]. rewrite !lookup_insert_eq.
  cbn [bind run]. eexists _, st1, (MkStaged n _). split; [reflexivity|].
  assert (n <> stagingDir st1 /\ n <> keyFileDir) as [Hn1 Hn2] by (split; congruence).
  unfold staged, staged_in, ready, keeps, key_file. cbn [path id ents disk]. rewrite !insert_insert_eq.
  assert (Hs1 : ents s !! n = None) by (destruct (ents s !! n) as [x|] eqn:En; [|done]; apply Hk1 in En; congruence).
  split_and!; try done.
  - exists e. by rewrite lookup_insert_ne.
  - intros _ _. exists ed. by rewrite lookup_insert_ne.
  - apply pick_named.
  - eexists _, _. rewrite lookup_insert_eq. split_and!; done.
  - intros p e0 H0. rewrite lookup_insert_ne by congruence. by apply Hk1.
  - intros p [Hp1 [Hp2 _]%not_elem_of_cons]%not_elem_of_cons. rewrite lookup_insert_ne by done.
    apply Hk2. set_solver.
Qed.

Lemma verifyStaged_run s fs : Forall (fun f => path f <> [] /\ exists k, key_file s f k) fs -> run h s (verifyStaged fs) = (s, None).
Proof.
  induction 1 as [|f fs (Hn & k & i & i' & Hi & Hr & Hp & Hid & He) _ IH]; [done|].
  cbn [verifyStaged]. rewrite run_bind.
  assert (run h s (verify f) = (s, None)) as ->; [|exact IH].
  unfold verify. destruct (path f) as [|c p] eqn:Ep; [done|]. rewrite Hid.
  cbn [bind ask run tmp_host tmp_os]. rewrite Hi. cbn [sized fi_regular fi_perm fi_id].
  by rewrite Hr, Hp, He, bool_decide_true.
Qed.

Lemma cleanupKeyFile_run s p e :
  ents s !! p = Some e -> p <> [] ->
  exists s', run h s (cleanupKeyFile p) = (s', tt) /\ ents s' = delete p (ents s) /\ disk s' = disk s.
Proof.
  intros He Hp. unfold cleanupKeyFile. destruct p as [|c p']; [done|]. set (p := c :: p') in *.
  cbn [bind ask run tmp_host tmp_os]. rewrite He. cbn [bind run tmp_host tmp_os handles ents].
  rewrite lookup_insert_eq, He. case_match; cbn [bind ask run tmp_host tmp_os handles ents].
  - unfold on_handle. cbn [handles ents]. rewrite lookup_insert_eq, He.
    cbn [bind run tmp_host tmp_os with_ents handles ents next disk]. rewrite lookup_insert_eq.
    cbn [bind run]. eexists. split; [reflexivity|]. cbn [with_ents ents disk]. by rewrite delete_insert_eq.
  - rewrite He. cbn [bind run]. eexists. split; [reflexivity|]. done.
Qed.

(** Only the staging directory may have been added. *)
Definition settled (s s' : tmpfs) (st : Staging) : Prop :=
  ready s' st /\ forall p, p <> stagingDir st -> ents s' !! p = ents s !! p.

Lemma settled_same s s' st : ready s st -> ents s' = ents s -> settled s s' st.
Proof. intros Hr He. unfold settled, ready. by rewrite He. Qed.

(** Running a body with a staged key: afterwards the key file is gone. *)
Lemma unstage s st key s1 st1 f s2 s3 :
  ready s st -> staged s st key s1 st1 f -> settled s1 s2 st1 ->
  ents s3 = delete (path f) (ents s2) -> settled s s3 st1.
Proof.
  intros Hr (Hin & Hn & Hfr & Hd & Hkf & Hk & _) [[(e & He & Hs) Hst] Hp] Hdel.
  unfold settled, ready. rewrite Hdel. split; [split|].
  - exists e. split; [|done]. rewrite lookup_delete_ne; [done|]. destruct Hr as [(e' & He' & _) _]. congruence.
  - intros H1 H2. destruct (Hst H1 H2) as (e' & He' & ?). exists e'. by rewrite lookup_delete_ne.
  - intros p Hpd. destruct (decide (p = path f)) as [->|Hpf]; [by rewrite lookup_delete_eq|].
    rewrite lookup_delete_ne, Hp by done. apply Hk. set_solver.
Qed.

Lemma with_key_run (body : Staging -> stagedKeyFile -> op) (Φ : D -> option enc_error -> Prop) s st key :
  ready s st ->
  (forall s1 st1 f, staged s st key s1 st1 f -> exists s2 r,
     run h s1 (body st1 f) = (s2, (st1, r)) /\ settled s1 s2 st1 /\ Φ (disk s2) r) ->
  exists s3 st1 r, run h s (with_key st key body) = (s3, (st1, r)) /\ settled s s3 st1 /\ Φ (disk s3) r /\
    (stagingDir st <> [] -> stagingRoot st = keyFileDir -> st1 = st).
Proof.
  intros Hr HB. destruct (writeKeyFile_run s st key Hr) as (s1 & st1 & f & E & Hst).
  destruct (HB s1 st1 f Hst) as (s2 & r & E2 & Hset & HΦ).
  destruct Hst as (Hin & Hn & Hfr & Hd & Hkf & Hk & Hsame) eqn:EH.
  pose proof Hkf as (i & i' & Hi & _). pose proof Hset as [_ Hp].
  destruct (cleanupKeyFile_run s2 (path f) (i, Reveal key)) as (s3 & E3 & He3 & Hd3); [by rewrite Hp|done|].
  exists s3, st1, r. unfold with_key, defer. rewrite run_bind, E. cbn [fst snd].
  rewrite run_bind, E2. cbn [fst snd]. rewrite run_bind, E3. cbn [fst snd run].
  split; [done|]. split; [by eapply unstage|]. by rewrite Hd3.
Qed.

Lemma runCryptsetup_run op_ args fs s d' res :
  Forall (fun f => path f <> [] /\ exists k, key_file s f k) fs ->
  crypt (disk s) (read_file s) args = (d', (res, None)) ->
  run h s (runCryptsetup op_ args fs) =
    (MkTmp (ents s) (handles s) (next s) d', if (ExitCode res =? 0)%Z then None else Some (cryptsetupError op_ res)).
Proof.
  intros Hf Hc. unfold runCryptsetup. rewrite run_bind, verifyStaged_run by done.
  cbn [fst snd bind ask run tmp_host]. unfold tmp_run. cbn [cryptsetup Name Args].
  rewrite bool_decide_true by done. rewrite Hc. done.
Qed.

Lemma staged_reads s st key s1 st1 f :
  staged s st key s1 st1 f -> read_file s1 (path f) = Some (Reveal key) /\ disk s1 = disk s /\
    path f <> [] /\ exists k, key_file s1 f k.
Proof.
  intros (_ & Hn & _ & _ & Hkf & (_ & _ & Hd) & _). pose proof Hkf as (i & i' & Hi & _).
  unfold read_file. rewrite Hi. split_and!; try done. by eexists.
Qed.
Lemma staged_ready s st key s1 st1 f : staged s st key s1 st1 f -> ready s1 st1.
Proof. by intros [[? _] _]. Qed.

Lemma one_key_run s st key op_ mk (Φ : D -> option enc_error -> Prop) :
  ready s st ->
  (forall rd p, rd p = Some (Reveal key) ->
     exists d' res, crypt (disk s) rd (mk p) = (d', (res, None)) /\
       Φ d' (if (ExitCode res =? 0)%Z then None else Some (cryptsetupError op_ res))) ->
  exists s3 st1 r,
    run h s (with_key st key (fun st f => let! e := runCryptsetup op_ (mk (path f)) [f] in Ret (st, e))) = (s3, (st1, r)) /\
    settled s s3 st1 /\ Φ (disk s3) r.
Proof.
  intros Hr Hc. edestruct (with_key_run (fun st f => let! e := runCryptsetup op_ (mk (path f)) [f] in Ret (st, e)) Φ)
    as (s3 & st1 & r & H1 & H2 & H3 & _); [exact Hr| |by exists s3, st1, r].
  intros s1 st1 f Hst. destruct (staged_reads _ _ _ _ _ _ Hst) as (Hrd & Hd & Hn & Hk).
  destruct (Hc _ _ Hrd) as (d' & res & Ec & HΦ). rewrite <- Hd in Ec.
  rewrite run_bind, (runCryptsetup_run _ _ _ _ _ _ (proj2 (list.Forall_singleton _ _) (conj Hn Hk)) Ec). cbn [fst snd run].
  eexists _, _. split; [reflexivity|]. split; [|exact HΦ]. by apply settled_same; [eapply staged_ready|].
Qed.

Lemma two_keys_run s st k1 k2 op_ mk (Φ : D -> option enc_error -> Prop) :
  ready s st ->
  (forall rd p1 p2, rd p1 = Some (Reveal k1) -> rd p2 = Some (Reveal k2) ->
     exists d' res, crypt (disk s) rd (mk p1 p2) = (d', (res, None)) /\
       Φ d' (if (ExitCode res =? 0)%Z then None else Some (cryptsetupError op_ res))) ->
  exists s3 st1 r,
    run h s (with_key st k1 (fun st f => with_key st k2 (fun st g =>
      let! e := runCryptsetup op_ (mk (path f) (path g)) [f; g] in Ret (st, e)))) = (s3, (st1, r)) /\
    settled s s3 st1 /\ Φ (disk s3) r.
Proof.
  intros Hr Hc.
  edestruct (with_key_run (fun st f => with_key st k2 (fun st g =>
    let! e := runCryptsetup op_ (mk (path f) (path g)) [f; g] in Ret (st, e))) Φ)
    as (s3 & st1 & r & H1 & H2 & H3 & _); [exact Hr| |by exists s3, st1, r].
  intros s1 st1 f Hst. destruct (staged_reads _ _ _ _ _ _ Hst) as (Hrd & Hd & Hn & k & Hk).
  pose proof Hst as ((Hr1 & _ & Hne & Hroot) & _).
  edestruct (with_key_run (fun st g => let! e := runCryptsetup op_ (mk (path f) (path g)) [f; g] in Ret (st, e)) Φ
    s1 st1 k2) as (s3 & st2 & r & H1 & H2 & H3 & H4); [exact Hr1| |].
  - intros s2 st2 g Hst2. destruct (staged_reads _ _ _ _ _ _ Hst2) as (Hrd2 & Hd2 & Hn2 & Hk2).
    destruct Hst2 as (Hin2 & _ & _ & _ & _ & (Hkeep & _) & _).
    assert (Hk' : key_file s2 f k).
    { destruct Hk as (i & i' & Hi & Hrest). exists i, i'. split; [by apply Hkeep|done]. }
    assert (Hrd' : read_file s2 (path f) = Some (Reveal k1)).
    { unfold read_file in *. destruct (ents s1 !! path f) as [e|] eqn:Ee; [|done]. by rewrite (Hkeep _ _ Ee). }
    destruct (Hc _ _ _ Hrd' Hrd2) as (d' & res & Ec & HΦ). rewrite <- Hd, <- Hd2 in Ec.
    assert (Hfs : Forall (fun f => path f <> [] /\ exists k, key_file s2 f k) [f; g]).
    { constructor; [|by constructor]. split; [done|by exists k]. }
    rewrite run_bind, (runCryptsetup_run _ _ _ _ _ _ Hfs Ec).
    cbn [fst snd run]. eexists _, _. split; [reflexivity|]. split; [|exact HΦ]. apply settled_same; [apply Hin2|done].
  - rewrite (H4 Hne Hroot) in H1, H2. by exists s3, r.
Qed.

Lemma VerifyPassphrase_run s st dev p (Φ : result enc_error bool -> Prop) :
  device dev -> ready s st ->
  (forall rd f, rd f = Some (Reveal p) -> exists res, crypt (disk s) rd (testArgs dev f) = (disk s, (res, None)) /\
     Φ match ExitCode res with
       | 0%Z => Ok true
       | 2%Z => Ok false
       | _ => Err (cryptsetupError (str "test-passphrase") res)
       end) ->
  exists s3 st1 r, run h s (VerifyPassphrase st dev p) = (s3, (st1, r)) /\ settled s s3 st1 /\
    disk s3 = disk s /\ Φ r.
Proof.
  intros Hdev Hr Hc. unfold VerifyPassphrase. rewrite Hdev.
  destruct (writeKeyFile_run s st p Hr) as (s1 & st1 & f & E & Hst). rewrite run_bind, E. cbn [fst snd].
  destruct (staged_reads _ _ _ _ _ _ Hst) as (Hrd & Hd & Hn & k & Hk).
  destruct (Hc _ _ Hrd) as (res & Ec & HΦ). rewrite <- Hd in Ec.
  assert (Hv : run h s1 (verifyStaged [f]) = (s1, None)).
  { apply verifyStaged_run. constructor; [|done]. split; [done|by exists k]. }
  unfold defer. rewrite run_bind, (run_bind _ s1 (verifyStaged [f])), Hv.
  cbn [fst snd bind ask run tmp_host]. unfold tmp_run. cbn [cryptsetup Name Args].
  rewrite bool_decide_true by done. change [str "open"; _; dev; _; _; _] with (testArgs dev (path f)). rewrite Ec.
  cbn [fst snd run]. set (s2 := MkTmp _ _ _ _).
  pose proof Hk as (i & i' & Hi & _).
  destruct (cleanupKeyFile_run s2 (path f) (i, k)) as (s3 & E3 & He3 & Hd3); [done..|].
  rewrite run_bind, E3. cbn [fst snd run]. eexists _, _, _. split; [reflexivity|].
  split; [eapply (unstage s st p s1 st1 f s2); try done; by apply settled_same; [eapply staged_ready|]|].
  split; [by rewrite Hd3|exact HΦ].
Qed.

(** The operation answered [a], and the device holds [m'] now. *)
Definition refined (s : tmpfs) (dev : gostring) (m' : gmap Z gostring) (a : luks_answer)
    (r : tmpfs * (Staging * luks_answer)) : Prop :=
  exists s' st', r = (s', (st', a)) /\ slots (disk s') dev = Some m' /\
    (forall dev', dev' <> dev -> slots (disk s') dev' = slots (disk s) dev') /\
    ready s' st' /\ forall p, p <> stagingDir st' -> ents s' !! p = ents s !! p.
(** What the map allows happened. *)
Definition stepped (s : tmpfs) (o : luks_op) (m : gmap Z gostring) (d : D) (r : option enc_error) : Prop :=
  exists m', slot_step o m m' (ADone r) /\ slots d (op_device o) = Some m' /\ frames slots (op_device o) (disk s) d.

Lemma done_refined s o m (q : op) :
  (exists s3 st1 r, run h s q = (s3, (st1, r)) /\ settled s s3 st1 /\ stepped s o m (disk s3) r) ->
  exists m' a, slot_step o m m' a /\ refined s (op_device o) m' a (run h s (answering ADone q)).
Proof.
  intros (s3 & st1 & r & E & [H1 H2] & m' & Hs & H3 & H4). exists m', (ADone r). split; [done|].
  exists s3, st1. unfold answering. rewrite run_bind, E. done.
Qed.
(** Refused before anything was done. *)
Lemma check_refused s st o m v (q : op) :
  ready s st -> slots (disk s) (op_device o) = Some m ->
  (v <> Ok tt -> forall e, slot_step o m m (ADone (Some e))) ->
  (v = Ok tt -> exists s3 st1 r, run h s q = (s3, (st1, r)) /\ settled s s3 st1 /\ stepped s o m (disk s3) r) ->
  exists s3 st1 r, run h s (check st v q) = (s3, (st1, r)) /\ settled s s3 st1 /\ stepped s o m (disk s3) r.
Proof.
  intros Hr Hm Hno Hyes. destruct v as [[]|e]; [by apply Hyes|]. exists s, st, (Some e). cbn [check run].
  split; [done|]. split; [by apply settled_same|]. exists m. split; [by apply Hno|done].
Qed.

Lemma nonzero_true k w : Reveal k <> [] -> nonzero k w = Ok tt.
Proof. intros Hk. unfold nonzero, IsZero. by rewrite bool_decide_false. Qed.
Lemma nonzero_iff k w : nonzero k w = Ok tt <-> Reveal k <> [].
Proof. split; [apply nonzero_ok|apply nonzero_true]. Qed.
Lemma slot_in_range n : validateKeySlot n = Ok tt <-> (0 <= n <= 7)%Z.
Proof.
  split; [apply validateKeySlot_ok|]. intros Hn. unfold validateKeySlot, LuksMinKeySlot, LuksMaxKeySlot.
  destruct (_ || _) eqn:E; [|done]. apply orb_prop in E as [E|E]; go_bool; lia.
Qed.
Lemma slot_valid_iff slot : slot_valid slot = Ok tt <-> forall i, slot = Some i -> (0 <= i <= 7)%Z.
Proof.
  destruct slot as [n|]; cbn [slot_valid]; [|by split]. rewrite slot_in_range. split; [by intros H i [= <-]|intros H; by apply H].
Qed.

Lemma AddKey_stepped s st dev old new slot m :
  ready s st -> device dev -> slots (disk s) dev = Some m ->
  exists s3 st1 r, run h s (AddKey st dev old new (MkAddKey slot)) = (s3, (st1, r)) /\ settled s s3 st1 /\
    stepped s (OpAddKey dev old new (MkAddKey slot)) m (disk s3) r.
Proof.
  intros Hr Hdev Hm. unfold device in Hdev. unfold AddKey. rewrite Hdev. cbn [check Slot].
  apply check_refused; [done..|intros Hv e; apply add_refused; left; intros (_ & _ & H); by apply Hv, slot_valid_iff|].
  intros Hs. pose proof (proj1 (slot_valid_iff slot) Hs) as Hs'. clear Hs.
  apply check_refused; [done..|intros Hv e; apply add_refused; left; intros (H & _); by apply Hv, nonzero_iff|].
  intros Hn%nonzero_iff.
  apply check_refused; [done..|intros Hv e; apply add_refused; left; intros (_ & H & _); by apply Hv, nonzero_iff|].
  intros Ho%nonzero_iff.
  apply (two_keys_run s st old new _ (fun f g => addKeyArgs dev g f slot) _ Hr).
  intros rd p1 p2 Hp1 Hp2. destruct (crypt_add _ _ _ _ _ slot _ _ _ Hm Hp1 Hp2 Hs') as (d' & res & Ec & Hf & Hres).
  exists d', res. rewrite addKeyArgs_args. split; [done|].
  destruct Hres as [[-> (n & Hg & Hd)]|(Hx & Hden & Hd)].
  - exists (<[n := Reveal new]> m). split; [by apply add_step|done].
  - exists m. destruct (ExitCode res =? 0)%Z eqn:Ex; [apply Z.eqb_eq in Ex; destruct Hx; lia|].
    split; [apply add_refused; by right|done].
Qed.

Lemma KillSlot_stepped s st dev n k m :
  ready s st -> device dev -> slots (disk s) dev = Some m ->
  exists s3 st1 r, run h s (KillSlot st dev n k) = (s3, (st1, r)) /\ settled s s3 st1 /\
    stepped s (OpKillSlot dev n k) m (disk s3) r.
Proof.
  intros Hr Hdev Hm. unfold device in Hdev. unfold KillSlot. rewrite Hdev. cbn [check].
  apply check_refused; [done..|intros Hv e; apply kill_refused; intros [[H _] _]; by apply Hv, slot_in_range|].
  intros Hs%slot_in_range.
  apply check_refused; [done..|intros Hv e; apply kill_refused; intros [[_ H] _]; by apply Hv, nonzero_iff|].
  intros Hn%nonzero_iff.
  apply (one_key_run s st k _ (fun f => [str "luksKillSlot"; dev; Json.int_lit n; str "--key-file"; f;
                         str "--batch-mode"]) _ Hr).
  intros rd p Hp. destruct (crypt_kill _ _ _ _ n _ _ Hm Hp Hs) as (d' & res & Ec & Hf & Hres).
  exists d', res. split; [done|]. destruct Hres as [(-> & Hg & Hd)|(Hx & Hden & Hd)].
  - exists (delete n m). split; [by apply kill_step|done].
  - exists m. destruct (ExitCode res =? 0)%Z eqn:Ex; [apply Z.eqb_eq in Ex; destruct Hx; lia|].
    split; [apply kill_refused; tauto|done].
Qed.

Lemma RemoveKey_stepped s st dev k m :
  ready s st -> device dev -> slots (disk s) dev = Some m ->
  exists s3 st1 r, run h s (RemoveKey st dev k) = (s3, (st1, r)) /\ settled s s3 st1 /\
    stepped s (OpRemoveKey dev k) m (disk s3) r.
Proof.
  intros Hr Hdev Hm. unfold device in Hdev. unfold RemoveKey. rewrite Hdev. cbn [check].
  apply check_refused; [done..|intros Hv e; apply remove_refused; intros [H _]; by apply Hv, nonzero_iff|].
  intros Hn%nonzero_iff.
  apply (one_key_run s st k _ (fun f => [str "luksRemoveKey"; dev; str "--key-file"; f; str "--batch-mode"]) _ Hr).
  intros rd p Hp. destruct (crypt_remove _ _ _ _ _ _ Hm Hp) as (d' & res & Ec & Hf & Hres).
  exists d', res. split; [done|]. destruct Hres as [(-> & n & Hg & Hd)|(Hx & Hden & Hd)].
  - exists (delete n m). split; [by apply remove_step|done].
  - exists m. destruct (ExitCode res =? 0)%Z eqn:Ex; [apply Z.eqb_eq in Ex; destruct Hx; lia|].
    split; [apply remove_refused; tauto|done].
Qed.

Lemma Verify_stepped s st dev k m :
  ready s st -> device dev -> slots (disk s) dev = Some m ->
  exists m' a, slot_step (OpVerify dev k) m m' a /\
    refined s dev m' a (run h s (answering AVerdict (VerifyPassphrase st dev k))).
Proof.
  intros Hr Hdev Hm.
  destruct (VerifyPassphrase_run s st dev k (fun r => slot_step (OpVerify dev k) m m (AVerdict r)) Hdev Hr)
    as (s3 & st1 & r & E & [H1 H2] & Hd & Hs).
  - intros rd f Hf. destruct (crypt_test _ _ _ _ _ _ Hm Hf) as (res & Ec & Hres). exists res. split; [done|].
    destruct Hres as [[-> Hh]|[-> Hh]]; [by apply test_step|by apply test_denied].
  - exists m, (AVerdict r). split; [done|]. exists s3, st1. unfold answering. rewrite run_bind, E, Hd. done.
Qed.

End Tmpfs.

(** ** A cryptsetup *)

Definition slot_of (a : gostring) : option Z :=
  List.find (fun n => bool_decide (Json.int_lit n = a)) [0; 1; 2; 3; 4; 5; 6; 7]%Z.
Definition find_key (m : gmap Z gostring) (k : gostring) : option Z :=
  fst <$> head (List.filter (fun kv : Z * gostring => bool_decide (kv.2 = k)) (map_to_list m)).

Definition disks : Type := gmap gostring (gmap Z gostring).
Definition free_slot (m : gmap Z gostring) : option Z :=
  List.find (fun n => bool_decide (m !! n = None)) [0; 1; 2; 3; 4; 5; 6; 7]%Z.
Definition add_sample (d : disks) (rd : gostring -> option gostring) (dev new old : gostring) (slot : gmap Z gostring -> option Z)
    : disks * (Result * option exec_error) :=
  match d !! dev, rd old, rd new with
  | Some m, Some ko, Some kn =>
      match find_key m ko, slot m with
      | Some _, Some n => match m !! n with None => (<[dev := <[n := kn]> m]> d, exits 0) | Some _ => (d, exits 1) end
      | Some _, None => (d, exits 1)
      | None, _ => (d, exits 2)
      end
  | _, _, _ => (d, exits 2)
  end.
Definition crypt_sample (d : disks) (rd : gostring -> option gostring) (args : list gostring)
    : disks * (Result * option exec_error) :=
  match args with
  | [verb; dev; new; _; old; _; slot; _] => add_sample d rd dev new old (fun _ => slot_of slot)
  | [a; b; c; e; f; g] =>
      if bool_decide (a = str "luksAddKey") then add_sample d rd b c f free_slot
      else if bool_decide (a = str "luksKillSlot") then
        match d !! b, rd f, slot_of c with
        | Some m, Some k, Some n =>
            match m !! n, find_key (delete n m) k with
            | Some _, Some _ => (<[b := delete n m]> d, exits 0)
            | None, _ => (d, exits 1)
            | _, None => (d, exits 2)
            end
        | _, _, _ => (d, exits 2)
        end
      else
        match d !! c, rd f with
        | Some m, Some k => (d, exits (match find_key m k with Some _ => 0 | None => 2 end))
        | _, _ => (d, exits 2)
        end
  | [_; dev; _; f; _] =>
      match d !! dev, rd f with
      | Some m, Some k => match find_key m k with
                          | Some n => (<[dev := delete n m]> d, exits 0)
                          | None => (d, exits 2)
                          end
      | _, _ => (d, exits 2)
      end
  | _ => (d, exits 2)
  end.

Lemma find_key_Some m k n : find_key m k = Some n -> m !! n = Some k.
Proof.
  unfold find_key. destruct (List.filter _ _) as [|[n' k'] l] eqn:E; [done|]. intros [= <-].
  assert (Hin : (n', k') ∈ (n', k') :: l) by left. rewrite <- E in Hin.
  apply elem_of_List_filter in Hin as [Hin Hk]. go_bool. simpl in Hk. subst. by apply elem_of_map_to_list.
Qed.
Lemma find_key_holds m k : holds m k -> exists n, find_key m k = Some n.
Proof.
  intros (n & Hn). unfold find_key.
  assert (Hin : (n, k) ∈ List.filter (fun kv : Z * gostring => bool_decide (kv.2 = k)) (map_to_list m)).
  { apply elem_of_List_filter. split; [by apply elem_of_map_to_list|by apply bool_decide_eq_true]. }
  destruct (List.filter _ _) as [|[n' k'] l]; [by apply elem_of_nil in Hin|by exists n'].
Qed.
Lemma find_key_not m k : ~ holds m k -> find_key m k = None.
Proof. intros H. destruct (find_key m k) as [n|] eqn:E; [|done]. destruct H. exists n. by apply find_key_Some. Qed.
Lemma slot_of_lit n : (0 <= n <= 7)%Z -> slot_of (Json.int_lit n) = Some n.
Proof.
  intros H. assert (n = 0 \/ n = 1 \/ n = 2 \/ n = 3 \/ n = 4 \/ n = 5 \/ n = 6 \/ n = 7)%Z as Hn by lia.
  by repeat destruct Hn as [->|Hn]; subst.
Qed.

Lemma find_key_None m k : find_key m k = None -> ~ holds m k.
Proof. intros E H. destruct (find_key_holds m k H) as [n E']. congruence. Qed.
Lemma free_slot_None m : free_slot m = None -> forall n, (0 <= n <= 7)%Z -> is_Some (m !! n).
Proof.
  intros E n Hn. destruct (m !! n) as [k|] eqn:El; [by eexists|]. exfalso.
  assert (n = 0 \/ n = 1 \/ n = 2 \/ n = 3 \/ n = 4 \/ n = 5 \/ n = 6 \/ n = 7)%Z as Hc by lia.
  pose proof (find_none _ _ E n) as Hf. cbv beta in Hf. rewrite bool_decide_true in Hf by done.
  discriminate Hf. simpl. naive_solver.
Qed.
Lemma insert_frames (d : disks) dev m : frames (fun (d : disks) dev => d !! dev) dev d (<[dev := m]> d).
Proof. intros dev' H. by apply lookup_insert_ne. Qed.

Lemma add_sample_ok d rd dev old new (slot : option Z) (pick : gmap Z gostring -> option Z) m ko kn :
  d !! dev = Some m -> rd old = Some ko -> rd new = Some kn ->
  (forall n, pick m = Some n -> forall i, slot = Some i -> n = i) ->
  (forall n, pick m = Some n -> is_Some (m !! n) -> slot = Some n) ->
  (pick m = None -> slot = None /\ forall n, (0 <= n <= 7)%Z -> is_Some (m !! n)) ->
  exists d' res, add_sample d rd dev new old pick = (d', (res, None)) /\
    frames (fun (d : disks) dev => d !! dev) dev d d' /\
    (ExitCode res = 0%Z /\ (exists n, add_granted m ko slot n /\ d' !! dev = Some (<[n := kn]> m)) \/
     refuses_ (ExitCode res) /\ add_denied m ko slot /\ d' !! dev = Some m).
Proof.
  intros Hm Ho Hn H1 H2 H3. unfold add_sample. rewrite Hm, Ho, Hn.
  destruct (find_key m ko) as [n0|] eqn:Ek.
  2:{ eexists d, _. split; [reflexivity|]. split; [done|]. right. split; [by right|]. split; [left; by apply find_key_None|done]. }
  assert (holds m ko) as Hh by (exists n0; by apply find_key_Some).
  destruct (pick m) as [n|].
  - destruct (m !! n) as [k|] eqn:El.
    + eexists d, _. split; [reflexivity|]. split; [done|]. right. split; [by left|]. split; [|done]. right.
      rewrite (H2 n) by eauto. by eexists.
    + eexists _, _. split; [reflexivity|]. split; [apply insert_frames|]. left. split; [done|]. exists n.
      split; [split_and!; [done|done|by apply H1]|apply lookup_insert_eq].
  - destruct (H3 eq_refl) as [-> Hfull]. eexists d, _. split; [reflexivity|]. split; [done|]. right.
    split; [by left|]. split; [by right|done].
Qed.

#[export] Program Instance cryptsetup_sample : Cryptsetup disks :=
  {| slots d dev := d !! dev; crypt := crypt_sample |}.
Next Obligation.
  intros d rd dev old new slot m ko kn Hm Ho Hn Hs. destruct slot as [i|]; cbn [add_args crypt_sample].
  - apply add_sample_ok; try done; rewrite slot_of_lit by (by apply Hs);
      [by intros n [= <-] j [= <-]|by intros n [= <-]|done].
  - rewrite bool_decide_true by done. apply add_sample_ok; try done.
    + intros n E [k Hk]. apply find_some in E as [_ E]. go_bool. congruence.
    + intros E. split; [done|]. by apply free_slot_None.
Qed.
Next Obligation.
  intros d rd dev f n m k Hm Hf Hs. cbn [crypt_sample]. rewrite bool_decide_false, bool_decide_true by done.
  rewrite Hm, Hf, slot_of_lit by done. destruct (m !! n) as [k'|] eqn:El.
  - destruct (find_key (delete n m) k) as [n'|] eqn:Ek.
    + eexists _, _. split; [reflexivity|]. split; [apply insert_frames|]. left. split; [done|].
      split; [split; [by eexists|exists n'; by apply find_key_Some]|apply lookup_insert_eq].
    + eexists d, _. split; [reflexivity|]. split; [done|]. right. split; [by right|]. split; [|done].
      intros [_ H]. by apply find_key_None in Ek.
  - eexists d, _. split; [reflexivity|]. split; [done|]. right. split; [by left|]. split; [|done].
    intros [[? H] _]. congruence.
Qed.
Next Obligation.
  intros d rd dev f m k Hm Hf. cbn [crypt_sample]. rewrite Hm, Hf. destruct (find_key m k) as [n|] eqn:Ek.
  - eexists _, _. split; [reflexivity|]. split; [apply insert_frames|]. left. split; [done|]. exists n.
    split; [by apply find_key_Some|apply lookup_insert_eq].
  - eexists d, _. split; [reflexivity|]. split; [done|]. right. split; [by right|]. split; [by apply find_key_None|done].
Qed.
Next Obligation.
  intros d rd dev f m k Hm Hf. unfold testArgs. cbn [crypt_sample]. rewrite !bool_decide_false, Hm, Hf by done.
  eexists. split; [reflexivity|]. destruct (find_key m k) as [n|] eqn:Ek; [left|right]; (split; [done|]).
  - exists n. by apply find_key_Some.
  - by apply find_key_None.
Qed.

(** A name longer than every name there is. *)
Definition pick_long (m : gmap gostring (FileInfo * gostring)) (d p : gostring) : gostring :=
  d ++ str "/" ++ p ++ replicate (list_max (length <$> (map_to_list m).*1)) "x"%char.
Lemma pick_long_fresh m d p : m !! pick_long m d p = None.
Proof.
  destruct (m !! _) as [e|] eqn:E; [|done]. exfalso.
  assert (Hin : pick_long m d p ∈ (map_to_list m).*1).
  { apply list_elem_of_fmap. eexists (_, e). split; [done|]. by apply elem_of_map_to_list. }
  apply (list_elem_of_fmap_2 length) in Hin.
  pose proof (proj1 (list_max_le (length <$> (map_to_list m).*1) _) (le_n _)) as Hall.
  rewrite List.Forall_forall in Hall. apply list_elem_of_In, Hall in Hin.
  unfold pick_long in Hin. rewrite !length_app, length_replicate in Hin. cbn [length str] in Hin.
  change (length (str "/")) with 1 in Hin. lia.
Qed.
Lemma pick_long_named m d p : pick_long m d p <> [].
Proof. unfold pick_long. destruct d; [|done]. by vm_compute. Qed.

Definition shm_entry : FileInfo * gostring := (MkFileInfo true false 511 true (Some 0%Z) 0 (0, 1)%Z, []).
Definition demo_fs : tmpfs (D := disks) :=
  MkTmp {[keyFileDir := shm_entry]} ∅ 10 {[str "/dev/sda2" := {[0%Z := str "old secret"]}]}.
Definition demo_op : luks_op :=
  OpAddKey (str "/dev/sda2") (MkSecret (str "old secret")) (MkSecret (str "new secret")) (MkAddKey (Some 3%Z)).


End EncryptionSlots.

(** * Volume detection and passphrases ([src/sys/encryption])

    What [lsblk] prints is read back as the device tree it describes; the primary
    volume is the one with the home directory, then the root, then the first;
    generating a passphrase always ends. *)

Module EncryptionDetect.
Import Exec HostProg Words Encryption.

(** ** The listing *)

Definition opt_json (o : option gostring) : Json.json :=
  match o with Some s => Json.JStr s | None => Json.JNull end.

(** A device as [lsblk -J -o NAME,TYPE,FSTYPE,MOUNTPOINT] prints it. *)
Fixpoint dev_json (d : lsblkDevice) : Json.json :=
  let '(MkDev n t f m c) := d in
  Json.JObj ([(str "name", Json.JStr n); (str "type", Json.JStr t); (str "fstype", opt_json f);
              (str "mountpoint", opt_json m)] ++
             match c with [] => [] | _ => [(str "children", Json.JArr (map dev_json c))] end).
Definition lsblk_json (ds : list lsblkDevice) : Json.json :=
  Json.JObj [(str "blockdevices", Json.JArr (map dev_json ds))].

Section Dev_ind.
Context (P : lsblkDevice -> Prop) (H : forall n t f m c, Forall P c -> P (MkDev n t f m c)).
Fixpoint dev_ind (d : lsblkDevice) : P d :=
  let '(MkDev n t f m c) := d in
  H n t f m c ((fix go c := match c return Forall P c with
                            | [] => List.Forall_nil _
                            | d :: c' => @List.Forall_cons _ P d c' (dev_ind d) (go c')
                            end) c).
End Dev_ind.

Definition dec_devs : list Json.json -> option (list lsblkDevice) :=
  fix go l := match l with
              | [] => Some []
              | x :: r => match dec_dev x, go r with
                          | Some d, Some ds => Some (d :: ds)
                          | _, _ => None
                          end
              end.
Definition dec_children (w : Json.json) : option (list lsblkDevice) :=
  match w with Json.JNull => Some [] | Json.JArr l => dec_devs l | _ => None end.
Definition kids_of : list (gostring * Json.json) -> option (list lsblkDevice) -> option (list lsblkDevice) :=
  fix go kvs acc := match kvs with
                    | [] => acc
                    | (k, w) :: r => go r (if Json.fold_eq k (str "children") then dec_children w else acc)
                    end.
Lemma dec_dev_obj kvs :
  dec_dev (Json.JObj kvs) =
  match Json.dec_str (Json.field kvs (str "name")), Json.dec_str (Json.field kvs (str "type")),
        Json.dec_ptr Json.dec_str (Json.field kvs (str "fstype")),
        Json.dec_ptr Json.dec_str (Json.field kvs (str "mountpoint")), kids_of kvs (Some []) with
  | Some n, Some t, Some f, Some m, Some c => Some (MkDev n t f m c)
  | _, _, _, _, _ => None
  end.
Proof. reflexivity. Qed.

Lemma dec_opt o : Json.dec_ptr Json.dec_str (Some (opt_json o)) = Some o.
Proof. by destruct o. Qed.

Lemma dec_dev_json d : dec_dev (dev_json d) = Some d.
Proof.
  induction d as [n t f m c IH] using dev_ind. cbn [dev_json].
  assert (Hc : dec_devs (map dev_json c) = Some c).
  { induction IH as [|d l Hd _ IHl]; [done|]. cbn [map dec_devs]. by rewrite Hd, IHl. }
  set (rest := match c with [] => [] | _ => _ end).
  assert (Hrest : rest = [] /\ c = [] \/ exists w, rest = [(str "children", w)] /\ dec_children w = Some c).
  { destruct c; [by left|right]. by eexists. }
  rewrite dec_dev_obj. clearbody rest. generalize (opt_json f), (opt_json m), (dec_opt f), (dec_opt m).
  intros jf jm Hf Hm.
  set (kvs := _ ++ rest). assert (Hfields : Json.field kvs (str "name") = Some (Json.JStr n) /\
    Json.field kvs (str "type") = Some (Json.JStr t) /\ Json.field kvs (str "fstype") = Some jf /\
    Json.field kvs (str "mountpoint") = Some jm).
  { destruct Hrest as [[-> _]|(w & -> & _)]; repeat split; by_eval. }
  destruct Hfields as (-> & -> & -> & ->). rewrite Hf, Hm. cbn [Json.dec_str].
  assert (kids_of kvs (Some []) = Some c) as ->; [|done]. unfold kvs.
  destruct Hrest as [[-> ->]|(w & -> & <-)]; reflexivity.
Qed.

Lemma printable_dev d : Json.printable (dev_json d).
Proof.
  induction d as [n t f m c IH] using dev_ind. cbn [dev_json]. apply Json.printable_obj.
  apply Forall_app. split; [repeat constructor; by destruct f, m|].
  destruct c; constructor; [|constructor]. apply Json.printable_arr. by apply List.Forall_map.
Qed.

Lemma dec_lsblk_json ds : dec_lsblk (lsblk_json ds) = Some ds.
Proof.
  unfold dec_lsblk, lsblk_json. cbn [Json.dec_object].
  set (w := Json.JArr _). assert (Json.field [(str "blockdevices", w)] (str "blockdevices") = Some w) as -> by by_eval.
  cbn [Json.dec_list w]. induction ds as [|d ds IH]; [done|]. cbn [map mapM]. rewrite dec_dev_json.
  by rewrite IH.
Qed.

(** A host whose [lsblk] prints the tree, in valid UTF-8. *)
Definition lsblk_host {S} (h : handler S) (s : S) (ds : list lsblkDevice) : Prop :=
  Json.textual (lsblk_json ds) /\
  exists stderr, (h _ s (CRun (MkCommand (str "lsblk") [str "-J"; str "-o"; str "NAME,TYPE,FSTYPE,MOUNTPOINT"]
    [] [] [] false) [])).2 = (MkResult 0 (Json.print (lsblk_json ds)) stderr, None).

Lemma elem_of_concat_map {A B} (f : A -> list B) l x : x ∈ concat (map f l) <-> exists a, a ∈ l /\ x ∈ f a.
Proof.
  induction l as [|a l IH]; cbn [map concat].
  - rewrite elem_of_nil. split; [done|]. intros (a & Ha & _). by apply elem_of_nil in Ha.
  - rewrite elem_of_app, IH. setoid_rewrite elem_of_cons. naive_solver.
Qed.

(** What is under a device, the device first. *)
Fixpoint devices (d : lsblkDevice) : list lsblkDevice := d :: concat (map devices (dchildren d)).

Lemma find_dev_devices d : find_dev d = concat (map volume_of (devices d)).
Proof.
  induction d as [n t f m c IH] using dev_ind. cbn [find_dev devices map concat dchildren]. f_equal.
  induction IH as [|d l Hd _ IHl]; [done|]. cbn [map concat]. rewrite map_app, concat_app, <- Hd. by f_equal.
Qed.

Lemma volume_of_elem d v :
  v ∈ volume_of d <-> dfstype d = Some (str "crypto_LUKS") /\
    v = foldl add_child (MkVolume (str "/dev/" ++ dname d) [] []) (dchildren d).
Proof.
  unfold volume_of. destruct (dfstype d) as [f|]; cbn [default from_option]; unfold Datatypes.id;
    case_bool_decide as Hf; rewrite ?list_elem_of_singleton, ?elem_of_nil; naive_solver.
Qed.

(** Detection reads the tree [lsblk] printed: the volumes are its LUKS devices,
    wherever they are in the tree. *)
Theorem detects_all_luks {S} (h : handler S) s ds :
  lsblk_host h s ds ->
  exists vs, (run h s DetectAllVolumes).2 = Ok vs /\
    forall v, v ∈ vs <-> exists top d, top ∈ ds /\ d ∈ devices top /\ dfstype d = Some (str "crypto_LUKS") /\
      v = foldl add_child (MkVolume (str "/dev/" ++ dname d) [] []) (dchildren d).
Proof.
  intros (Htext & stderr & Hh). exists (findLuksVolumes ds). split.
  - unfold DetectAllVolumes. cbn [bind ask run]. destruct (h _ s _) as [s' x]. cbn [snd] in Hh. subst x.
    cbn [run snd ExitCode Stdout Z.eqb negb].
    rewrite Json.parse_print by first [exact Htext|apply Json.printable_obj; repeat constructor; apply Json.printable_arr;
      apply List.Forall_map, list.Forall_true, printable_dev].
    by rewrite dec_lsblk_json.
  - intros v. unfold findLuksVolumes. rewrite elem_of_concat_map. split.
    + intros (top & Ht & Hv). rewrite find_dev_devices, elem_of_concat_map in Hv.
      destruct Hv as (d & Hd & Hv%volume_of_elem). by exists top, d.
    + intros (top & d & Ht & Hd & Hv%volume_of_elem). exists top. split; [done|].
      rewrite find_dev_devices, elem_of_concat_map. by exists d.
Qed.

Definition demo_tree : list lsblkDevice :=
  [MkDev (str "sda") (str "disk") None None
     [MkDev (str "sda1") (str "part") (Some (str "vfat")) (Some (str "/boot")) [];
      MkDev (str "sda2") (str "part") (Some (str "crypto_LUKS")) None
        [MkDev (str "luks-1") (str "crypt") (Some (str "LVM2_member")) None
           [MkDev (str "vg-home") (str "lvm") (Some (str "ext4")) (Some (str "/home")) []]]]].
Definition demo_lsblk : handler unit :=
  command_host (fun s _ _ => (s, (MkResult 0 (Json.print (lsblk_json demo_tree)) [], None))) absent absent.
Lemma detects_all_luks_witness :
  lsblk_host demo_lsblk tt demo_tree /\
  exists vs, (run demo_lsblk tt DetectAllVolumes).2 = Ok vs /\
    forall v, v ∈ vs <-> exists top d, top ∈ demo_tree /\ d ∈ devices top /\ dfstype d = Some (str "crypto_LUKS") /\
      v = foldl add_child (MkVolume (str "/dev/" ++ dname d) [] []) (dchildren d).
Proof.
  assert (H : lsblk_host demo_lsblk tt demo_tree) by (split; [by vm_compute|by exists []]).
  split; [exact H|]. exact (detects_all_luks demo_lsblk tt demo_tree H).
Defined.

(** The volume of the demo: the mount of the logical volume inside the mapping. *)
Example demo_volume :
  (run demo_lsblk tt DetectVolume).2 = Ok (MkVolume (str "/dev/sda2") (str "luks-1") (str "/home")).
Proof. by_eval. Qed.

(** A LUKS device inside a volume group is named after its mapping, whose node is
    under [/dev/mapper]: the path that is reported does not name it. *)
Lemma luks_on_lvm_path name mount children :
  DevicePath <$> findLuksVolumes
    [MkDev (str "sda") (str "disk") None None
       [MkDev name (str "lvm") (Some (str "crypto_LUKS")) mount children]]
  = (str "/dev/" ++ name) :: (DevicePath <$> concat (map find_dev children)).
Proof.
  unfold findLuksVolumes. cbn [map concat find_dev volume_of dfstype dchildren dname default from_option].
  unfold volume_of. cbn [dfstype dchildren dname default from_option].
  rewrite !app_nil_r. unfold Datatypes.id. rewrite bool_decide_false by done. rewrite bool_decide_true by done.
  cbn [app fmap list_fmap]. f_equal.
  assert (H : forall cs v, DevicePath (foldl add_child v cs) = DevicePath v); [|by rewrite H].
  induction cs as [|c cs IH]; intros v; [done|]. cbn [foldl]. rewrite IH. unfold add_child. by case_bool_decide.
Qed.

(** ** The primary volume *)

(** [/home] first, then [/], then the first volume; the choice fails only without a
    volume. *)
Lemma choose_spec vs v :
  choose vs = Ok v ->
  v ∈ vs /\
  (MountPoint v = str "/home" \/
   (forall w, w ∈ vs -> MountPoint w <> str "/home") /\
   (MountPoint v = str "/" \/ (forall w, w ∈ vs -> MountPoint w <> str "/") /\ head vs = Some v)).
Proof.
  assert (Hat : forall want vs, match at_mount want vs with
    | Some v => v ∈ vs /\ MountPoint v = want
    | None => forall w, w ∈ vs -> MountPoint w <> want end).
  { intros want ws. unfold at_mount. destruct (List.find _ ws) as [w|] eqn:E.
    - apply find_some in E as [Hin Hm]. go_bool. by rewrite list_elem_of_In.
    - intros w Hw%list_elem_of_In. apply (find_none _ _ E) in Hw. by go_bool. }
  unfold choose. destruct vs as [|v0 vs]; [done|].
  pose proof (Hat (str "/home") (v0 :: vs)) as H1. pose proof (Hat (str "/") (v0 :: vs)) as H2.
  destruct (at_mount (str "/home") _); [|destruct (at_mount (str "/") _)]; intros [= <-].
  - naive_solver.
  - naive_solver.
  - split; [left|]. right. split; [done|]. by right.
Qed.

(** ** Generated passphrases *)

(** A random source that does not fail and keeps below the bound. *)
Definition draws (randInt : nat -> nat -> option nat) : Prop :=
  forall i bound, 0 < bound -> exists x, randInt i bound = Some x /\ x < bound.

Definition listed (w : gostring) : Prop := w ∈ Wordlist.wordList.

Lemma listed_good w : listed w -> 4 <= length w /\ forallb (fun c => is_upper c || is_lower c) w = true.
Proof.
  intros Hw. pose proof Wordlist.wordList_good as H. rewrite forallb_forall in H.
  apply list_elem_of_In, H in Hw. destruct w as [|c rest]; [done|]. cbn [Wordlist.good_word] in Hw. go_bool.
  cbn [length forallb]. split; [lia|]. match goal with H : is_upper c = true |- _ => rewrite H end. cbn [orb andb].
  eapply forallb_mono; [|eassumption]. intros x. cbn. intros ->. apply orb_true_r.
Qed.

Lemma join_dash_length ws : ws <> [] -> Forall (fun w => 4 <= length w) ws -> 5 * length ws <= S (length (join ws (str "-"))).
Proof.
  intros Hn H. induction H as [|w ws Hw H IH]; [done|]. destruct ws as [|v ws]; [cbn [join length]; lia|].
  change (join (w :: v :: ws) (str "-")) with (w ++ str "-" ++ join (v :: ws) (str "-")).
  rewrite !length_app. change (length (str "-")) with 1. specialize (IH ltac:(done)). cbn [length] in *. lia.
Qed.

Definition letter (c : ascii) : bool := is_upper c || is_lower c.
Lemma phrase_clean ws : Forall listed ws -> NewSecret (join ws (str "-")) = Some (MkSecret (join ws (str "-"))).
Proof.
  intros H. unfold NewSecret.
  rewrite (contains_any_class (fun c => letter c || bool_decide (c = "-"%char))); [done| |by_eval].
  apply forallb_join; [by_eval|]. eapply list.Forall_impl; [exact H|]. intros w [_ Hw]%listed_good.
  eapply forallb_mono; [|exact Hw]. intros c Hc. unfold letter. by rewrite Hc.
Qed.

(** What the loop returns: listed words, enough of them and of their letters, and
    not more than the bound needs. *)
Definition passphrase_of (min : Z) (r : option (result enc_error Secret)) : Prop :=
  exists words s, r = Some (Ok s) /\ Reveal s = join words (str "-") /\ Forall listed words /\
    (min <= Z.of_nat (length words) <= Z.max min 7)%Z /\ 32 <= length (Reveal s).

Lemma gen_loop_total randInt min fuel i words :
  draws randInt -> Forall listed words ->
  (Z.of_nat (length words) < Z.max min 7)%Z -> (Z.max min 7 - Z.of_nat (length words) <= Z.of_nat fuel)%Z ->
  passphrase_of min (gen_loop fuel randInt i min words).
Proof.
  intros Hr. revert i words. induction fuel as [|fuel IH]; intros i words Hw Hlt Hf; [lia|]. cbn [gen_loop].
  destruct (Hr i (length Wordlist.wordList)) as (x & -> & Hx); [rewrite Wordlist.wordList_length; lia|].
  set (words' := words ++ _).
  assert (Hw' : Forall listed words').
  { apply Forall_app. split; [done|]. constructor; [|done]. apply list_elem_of_In, nth_In. exact Hx. }
  assert (Hl : length words' = S (length words)) by (unfold words'; rewrite length_app; cbn; lia).
  assert (Hj : 5 * length words' <= S (length (join words' (str "-")))).
  { apply join_dash_length; [by intros E; rewrite E in Hl|]. eapply list.Forall_impl; [exact Hw'|].
    by intros w [? _]%listed_good. }
  destruct (_ && _) eqn:E.
  - apply andb_prop in E as [E1%Z.leb_le E2%Nat.leb_le]. rewrite phrase_clean by done.
    exists words', (MkSecret (join words' (str "-"))). split_and!; try done; lia.
  - apply IH; [done|..]; [|lia]. apply andb_false_iff in E as [E%Z.leb_gt|E%Nat.leb_gt]; lia.
Qed.

(** Generating a passphrase ends after at most as many draws as the larger of the
    minimum and seven, with listed words joined by dashes, at least three and the
    minimum of them, at least 32 bytes long. *)
Theorem GeneratePassphrase_total randInt minWords fuel :
  draws randInt -> (Z.max minWords 7 <= Z.of_nat fuel)%Z ->
  passphrase_of (Z.max minWords 3) (GeneratePassphrase fuel randInt minWords).
Proof.
  intros Hr Hf. unfold GeneratePassphrase.
  replace (if (minWords <? 3)%Z then 3%Z else minWords) with (Z.max minWords 3)
    by (destruct (Z.ltb_spec minWords 3); lia).
  apply gen_loop_total; [done|constructor|cbn; lia|cbn; lia].
Qed.

Lemma GeneratePassphrase_total_witness :
  draws (fun _ _ => Some 0) /\
  passphrase_of 3 (GeneratePassphrase 7 (fun _ _ => Some 0) 1).
Proof.
  assert (H : draws (fun _ _ => Some 0)) by (intros i b Hb; by exists 0).
  split; [exact H|]. exact (GeneratePassphrase_total (fun _ _ => Some 0) 1 7 H ltac:(done)).
Defined.

(** ** Devices *)

(** A device argument is a path under [/dev], with no flag, blank or parent step. *)
Lemma validDevicePath_word dev : validateDevicePath dev = Ok tt -> word dev = true /\ has_prefix dev (str "/dev/") = true.
Proof.
  unfold validateDevicePath, validDevicePath. destruct (_ || _) eqn:E; [done|]. intros _. go_bool.
  split; [|done]. match goal with H : has_prefix _ _ = true |- _ => apply has_prefix_spec in H as [t ->] end.
  change (drop 5 (str "/dev/" ++ t)) with t in *. unfold word. rewrite forallb_app.
  destruct t as [|c t]; [done|]. cbn [bool_decide app]. change (forallb visible (str "/dev/")) with true.
  rewrite bool_decide_false by done. cbn [negb andb]. eapply forallb_mono; [|eassumption].
  intros x Hx. destruct x as [[] [] [] [] [] [] [] []]; vm_compute in Hx; done.
Qed.

End EncryptionDetect.
