(* ===== verification/Ini.v ===== *)
(** * Key files

    The line format of systemd units, [resolved.conf] drop-ins and NetworkManager
    key files: sections, [key=value] entries, comments.  [ini] reads a text the way
    those tools split it; a text built from items reads back as those items, so a
    generator that only emits items cannot be made to emit another one. *)
From S2P Require Import Prelude Paths HostProg.

Module Ini.
Import HostProg.

Record entry := MkEntry { e_section : gostring; e_key : gostring; e_value : gostring }.

(** The state is the current section. *)
Definition ini_step (st : gostring * list entry) (l : gostring) : gostring * list entry :=
  let '(sec, es) := st in
  match l with
  | [] => st
  | c :: rest =>
      if bool_decide (c = "#"%char) || bool_decide (c = ";"%char) then st
      else if bool_decide (c = "["%char) && has_suffix rest (str "]") then (removelast rest, es)
      else match cut l "="%char with
           | Some (k, v) => (sec, es ++ [MkEntry sec k v])
           | None => st
           end
  end.
Definition ini (s : gostring) : list entry := (foldl ini_step ([], []) (split_byte s NL)).2.

(** ** Generated texts *)

Definition unlines (ls : list gostring) : gostring := concat (map (fun l => l ++ [NL]) ls).

Inductive item :=
| IBlank
| IComment (text : gostring)
| IHeader (name : gostring)
| IEntry (key value : gostring).
Definition item_line (i : item) : gostring :=
  match i with
  | IBlank => []
  | IComment t => "#"%char :: t
  | IHeader n => "["%char :: n ++ str "]"
  | IEntry k v => k ++ "="%char :: v
  end.
Definition text_of (is_ : list item) : gostring := unlines (map item_line is_).

Definition key_start (c : ascii) : bool := negb (bool_decide (c ∈ str "#;[=")).
Definition item_ok (i : item) : Prop :=
  match i with
  | IBlank => True
  | IComment t => NL ∉ t
  | IHeader n => NL ∉ n
  | IEntry k v => match k with c :: _ => key_start c = true | [] => False end /\
                  ("="%char ∉ k) /\ (NL ∉ k) /\ (NL ∉ v)
  end.

(** The entries, each under the last header before it. *)
Fixpoint entries_of (sec : gostring) (is_ : list item) : list entry :=
  match is_ with
  | [] => []
  | IHeader n :: rest => entries_of n rest
  | IEntry k v :: rest => MkEntry sec k v :: entries_of sec rest
  | _ :: rest => entries_of sec rest
  end.

Lemma split_unlines ls : Forall (fun l => NL ∉ l) ls -> split_byte (unlines ls) NL = ls ++ [[]].
Proof.
  induction 1 as [|l ls Hl _ IH]; [done|]. unfold unlines in *. cbn [map concat].
  rewrite <- app_assoc. cbn [app]. rewrite Paths.split_byte_app by done. by rewrite IH.
Qed.

Lemma unlines_app a b : unlines (a ++ b) = unlines a ++ unlines b.
Proof. unfold unlines. by rewrite map_app, concat_app. Qed.
Lemma text_of_app a b : text_of (a ++ b) = text_of a ++ text_of b.
Proof. unfold text_of. by rewrite map_app, unlines_app. Qed.
Lemma text_of_cons i is_ : text_of (i :: is_) = (item_line i ++ [NL]) ++ text_of is_.
Proof. done. Qed.

Lemma item_line_NL i : item_ok i -> NL ∉ item_line i.
Proof.
  destruct i as [|t|n|k v]; cbn [item_ok item_line].
  - intros _. apply not_elem_of_nil.
  - intros Ht. apply not_elem_of_cons. done.
  - intros Hn. rewrite not_elem_of_cons, not_elem_of_app. split_and!; [done..|].
    change (str "]") with ["]"%char]. by rewrite list_elem_of_singleton.
  - intros (_ & _ & Hk & Hv). rewrite not_elem_of_app, not_elem_of_cons. done.
Qed.

Lemma has_suffix_app a b : has_suffix (a ++ b) b = true.
Proof. unfold has_suffix. rewrite rev_app_distr. apply has_prefix_app. Qed.

Lemma ini_step_item sec es i :
  item_ok i ->
  ini_step (sec, es) (item_line i) =
    match i with
    | IHeader n => (n, es)
    | IEntry k v => (sec, es ++ [MkEntry sec k v])
    | _ => (sec, es)
    end.
Proof.
  destruct i as [|t|n|k v]; cbn [item_ok item_line]; intros Hi; [done|done| |].
  - unfold ini_step. rewrite !bool_decide_false by done. cbn [orb].
    rewrite bool_decide_true, has_suffix_app by done. cbn [andb]. change (str "]") with ["]"%char]. by rewrite removelast_last.
  - destruct Hi as (Hc & Heq & _). destruct k as [|c k]; [done|]. unfold key_start in Hc. go_bool.
    unfold ini_step. cbn [app].
    assert (c <> "#"%char /\ c <> ";"%char /\ c <> "["%char) as (H1 & H2 & H3).
    { split_and!; intros ->; apply Hc; by eapply (bool_decide_unpack _). }
    rewrite !bool_decide_false by done. cbn [orb andb].
    rewrite app_comm_cons, cut_app by done. done.
Qed.

Lemma foldl_items is_ sec es :
  Forall item_ok is_ -> (foldl ini_step (sec, es) (map item_line is_)).2 = es ++ entries_of sec is_.
Proof.
  intros H. revert sec es. induction H as [|i is_ Hi _ IH]; intros sec es; [by rewrite app_nil_r|].
  cbn [map foldl]. rewrite ini_step_item by done.
  destruct i; rewrite IH; cbn [entries_of]; try done. by rewrite <- app_assoc.
Qed.

(** A text of items has the entries of the items and nothing else. *)
Lemma ini_text_of is_ : Forall item_ok is_ -> ini (text_of is_) = entries_of [] is_.
Proof.
  intros H. unfold ini, text_of. rewrite split_unlines.
  - rewrite foldl_app. cbn [foldl ini_step].
    pose proof (foldl_items is_ [] [] H) as E. by destruct (foldl _ _ _).
  - apply List.Forall_map. eapply list.Forall_impl; [exact H|]. apply item_line_NL.
Qed.

End Ini.
