(* ===== verification/Network.v ===== *)
(** * WiFi profiles ([src/sys/network])

    The NetworkManager manager: profile validation, the PSK key file, EAP-TLS
    certificates with their staged swap, the nmcli commands and the parsers of its
    terse output.  Commands and the functions of package [os] are calls of the host. *)
From S2P Require Import Prelude Paths Exec HostProg Words Json Ini.

Module Network.
Import Exec HostProg.

(** ** Data ([network.go]) *)

(** [AuthType] is an integer; [AuthPSK = 1], [AuthEAPTLS = 2]. *)
Definition AuthPSK : Z := 1.
Definition AuthEAPTLS : Z := 2.
Definition CertBaseDir : gostring := str "/var/lib/power-manage/wifi".

Record Profile := MkProfile {
  p_Name : gostring; SSID : gostring; p_Auth : Z; PSK : Secret; CACert : gostring;
  ClientCert : gostring; ClientKey : Secret; Identity : gostring; AutoConnect : bool;
  Hidden : bool; Priority : Z; CertDir : gostring
}.

Inductive net_error :=
| EUnknownBackend (b : Z)
| ERunnerRequired
| EInvalid (what : gostring)
| ERun (e : exec_error)
| ECommand (code : Z) (stderr : gostring)
| EFile (stage : gostring) (e : fs_err) (left : option fs_err)
| ECerts (e left : net_error)
| EWrap (msg : gostring) (e : net_error).

Definition New (b : Z) (runner : bool) : result net_error unit :=
  if negb (b =? 1)%Z then Err (EUnknownBackend b)
  else if negb runner then Err ERunnerRequired else Ok tt.
(** Whether nmcli is on the PATH. *)
Definition Detect : prog (list Z) :=
  let! r := ask (CLookPath (str "nmcli")) in Ret (match r with Some _ => [1%Z] | None => [] end).

(** ** Paths *)

Definition absPath (p : gostring) : prog (option gostring) :=
  if Paths.IsAbs p then Ret (Some (Paths.Clean p))
  else let! wd := ask (COs OsGetwd) in
       Ret (match wd with Ok w => Some (Paths.Join [w; p]) | Err _ => None end).

Fixpoint strip_common (a b : list gostring) : list gostring * list gostring :=
  match a, b with
  | x :: a', y :: b' => if bool_decide (x = y) then strip_common a' b' else (a, b)
  | _, _ => (a, b)
  end.
(** [filepath.Rel] *)
Definition Rel (base targ : gostring) : option gostring :=
  let b := Paths.Clean base in let t := Paths.Clean targ in
  if bool_decide (b = t) then Some (str ".")
  else if negb (Bool.eqb (Paths.IsAbs b) (Paths.IsAbs t)) then None
  else let '(b', t') := strip_common (Paths.comps b) (Paths.comps t) in
       match b' with
       | [] => Some (Paths.slashed t')
       | c :: _ => if bool_decide (c = Paths.dotdot) then None
                   else Some (Paths.slashed (replicate (length b') Paths.dotdot ++ t'))
       end.

(** The walk up to the deepest ancestor that exists; [None] is out of fuel. *)
Fixpoint resolve_up (fuel : nat) (current : gostring) (suffix : list gostring)
    : prog (option (gostring * list gostring)) :=
  match fuel with
  | 0 => Ret None
  | S fuel =>
      let! r := ask (CStat current) in
      match r with
      | Ok _ => Ret (Some (current, suffix))
      | Err _ =>
          let suffix := Paths.Base current :: suffix in
          let parent := Paths.Dir current in
          if bool_decide (parent = current) then Ret (Some (current, suffix))
          else resolve_up fuel parent suffix
      end
  end.
Definition resolvePath (p : gostring) : prog gostring :=
  let! a := absPath (Paths.Clean p) in
  match a with
  | None => Ret (Paths.Clean p)
  | Some abs =>
      let! r := ask (COs (OsEvalSymlinks abs)) in
      match r with
      | Ok resolved => Ret resolved
      | Err _ =>
          let! up := resolve_up (S (length abs)) abs [] in
          match up with
          | None => Ret abs
          | Some (current, suffix) =>
              let! r := ask (COs (OsEvalSymlinks current)) in
              Ret (match r with Ok resolved => Paths.Join (resolved :: suffix) | Err _ => abs end)
          end
      end
  end.

Definition inside (rel : option gostring) : bool :=
  match rel with
  | None => false
  | Some r => negb (bool_decide (r = str ".")) && negb (has_prefix r (str ".."))
  end.
Definition isSubdirOf (parent child : gostring) : prog bool :=
  let! resolvedParent := resolvePath parent in
  let! resolvedChild := resolvePath child in
  Ret (inside (Rel resolvedParent resolvedChild)).

(** ** Validation *)

Definition containsControl : gostring -> bool := Runes.contains_control.

Definition validateConnName (name : gostring) : result net_error unit :=
  if bool_decide (name = []) then Err (EInvalid (str "connection name is required"))
  else if containsControl name then Err (EInvalid (str "connection name: control characters"))
  else if has_prefix name (str "-") then Err (EInvalid (str "connection name: leading dash"))
  else if bool_decide ("/"%char ∈ name) then Err (EInvalid (str "connection name: slash"))
  else Ok tt.

Definition hex_char (c : ascii) : bool := is_digit c || in_range "a" "f" c || in_range "A" "F" c.
Definition isHex (s : gostring) : bool :=
  match s with [] => false | _ => forallb hex_char s end.
Definition printable (c : ascii) : bool := in_range " " "~" c.
Definition validatePSK (psk : Secret) : result net_error unit :=
  let v := Reveal psk in
  let n := length v in
  if (n =? 64) && isHex v then Ok tt
  else if (n <? 8) || (63 <? n) then Err (EInvalid (str "PSK length"))
  else if forallb printable v then Ok tt else Err (EInvalid (str "PSK characters")).

Definition require (b : bool) (what : gostring) : result net_error unit :=
  if b then Ok tt else Err (EInvalid what).

Definition validate_psk_profile (p : Profile) : result net_error unit :=
  let? _ := require (negb (IsZero (PSK p))) (str "PSK is required") in
  let? _ := require (negb (HasNewline (PSK p))) (str "PSK newline") in
  validatePSK (PSK p).

Definition validate_eap_profile (p : Profile) : prog (result net_error unit) :=
  match (let? _ := require (negb (bool_decide (Identity p = []))) (str "identity is required") in
         let? _ := require (negb (containsControl (Identity p))) (str "identity: control characters") in
         require (negb (bool_decide (CertDir p = []))) (str "cert directory is required")) with
  | Err e => Ret (Err e)
  | Ok _ =>
      let! sub := isSubdirOf CertBaseDir (CertDir p) in
      Ret (let? _ := require sub (str "cert directory outside") in
           let? _ := require (negb (bool_decide (ClientCert p = []))) (str "client certificate is required") in
           require (negb (IsZero (ClientKey p))) (str "client key is required"))
  end.

Definition validateProfile (p : Profile) : prog (result net_error unit) :=
  match (let? _ := validateConnName (p_Name p) in
         let? _ := require (negb (bool_decide (SSID p = []))) (str "SSID is required") in
         require (negb (containsControl (SSID p))) (str "SSID: control characters")) with
  | Err e => Ret (Err e)
  | Ok _ =>
      if (p_Auth p =? AuthPSK)%Z then Ret (validate_psk_profile p)
      else if (p_Auth p =? AuthEAPTLS)%Z then validate_eap_profile p
      else Ret (Err (EInvalid (str "unknown auth type")))
  end.

(** ** The key file ([keyfile.go]) *)

Definition nmKeyfileDir : gostring := str "/etc/NetworkManager/system-connections".
Definition keyfilePath (name : gostring) : gostring :=
  let safe := map (fun c => if bool_decide (c = "/"%char) then "_"%char else c) name in
  Paths.Join [nmKeyfileDir; safe ++ str ".nmconnection"].

Definition managed_comment : gostring :=
  str "# Managed by power-manage-agent " ++ bytes [226; 128; 148] ++ str " do not edit by hand.".

Definition ln (s : gostring) : gostring := s ++ [NL].
Definition buildPSKKeyfile (p : Profile) : gostring :=
  ln managed_comment ++
  ln (str "[connection]") ++ ln (str "id=" ++ p_Name p) ++ ln (str "type=wifi") ++
  ln (if AutoConnect p then str "autoconnect=true" else str "autoconnect=false") ++
  ln (str "autoconnect-priority=" ++ Json.int_lit (Priority p)) ++ ln [] ++
  ln (str "[wifi]") ++ ln (str "ssid=" ++ SSID p) ++ ln (str "mode=infrastructure") ++
  (if Hidden p then ln (str "hidden=true") else []) ++ ln [] ++
  ln (str "[wifi-security]") ++ ln (str "key-mgmt=wpa-psk") ++ ln (str "psk=" ++ Reveal (PSK p)) ++ ln [] ++
  ln (str "[ipv4]") ++ ln (str "method=auto") ++ ln [] ++ ln (str "[ipv6]") ++ ln (str "method=auto").

(** A removal error other than "not found". *)
Definition remains (e : option fs_err) : option fs_err :=
  match e with Some (OtherErr m) => Some (OtherErr m) | _ => None end.
Definition cleanupTempKeyfile (tmpPath stage : gostring) (cause : fs_err) : prog (option net_error) :=
  let! rm := ask (COs (OsRemove tmpPath)) in
  Ret (Some (EFile stage cause (remains rm))).

Definition writeKeyfile (path content : gostring) : prog (option net_error) :=
  let dir := Paths.Dir path in
  let! r := ask (COs (OsMkdirAll dir 448)) in
  match r with
  | Some e => Ret (Some (EFile (str "create keyfile dir") e None))
  | None =>
      let! t := ask (COs (OsCreateTemp dir (str ".pm-keyfile-*.tmp"))) in
      match t with
      | Err e => Ret (Some (EFile (str "create temp keyfile") e None))
      | Ok (fd, tmpPath) =>
          let! r := ask (COs (OsFWrite fd content)) in
          match r with
          | Some e => let! _ := ask (COs (OsFClose fd)) in cleanupTempKeyfile tmpPath (str "write keyfile") e
          | None =>
              let! r := ask (COs (OsFChmod fd 384)) in
              match r with
              | Some e => let! _ := ask (COs (OsFClose fd)) in cleanupTempKeyfile tmpPath (str "chmod keyfile") e
              | None =>
                  let! r := ask (COs (OsFClose fd)) in
                  match r with
                  | Some e => cleanupTempKeyfile tmpPath (str "close keyfile") e
                  | None =>
                      let! r := ask (COs (OsRename tmpPath path)) in
                      match r with
                      | Some e => cleanupTempKeyfile tmpPath (str "rename keyfile") e
                      | None => Ret None
                      end
                  end
              end
          end
      end
  end.

(** ** Certificates ([certs.go]) *)

Definition cert_files (p : Profile) : list (gostring * gostring * N) :=
  [(str "ca.pem", CACert p, 416%N); (str "client.pem", ClientCert p, 416%N);
   (str "client-key.pem", Reveal (ClientKey p), 384%N)].
Fixpoint write_files (dir : gostring) (files : list (gostring * gostring * N)) : prog (option net_error) :=
  match files with
  | [] => Ret None
  | (name, content, mode) :: rest =>
      if bool_decide (content = []) then write_files dir rest
      else
        let! r := ask (COs (OsWriteFile (Paths.Join [dir; name]) content mode)) in
        match r with
        | Some e => Ret (Some (EFile (str "write " ++ name) e None))
        | None => write_files dir rest
        end
  end.
Definition writeCerts (p : Profile) : prog (option net_error) :=
  let! r := ask (COs (OsMkdirAll (CertDir p) 488)) in
  match r with
  | Some e => Ret (Some (EFile (str "create cert directory") e None))
  | None => write_files (CertDir p) (cert_files p)
  end.

Fixpoint remove_files (dir : gostring) (names : list gostring) (firstErr : option net_error)
    : prog (option net_error) :=
  match names with
  | [] => Ret firstErr
  | name :: rest =>
      let! r := ask (COs (OsRemove (Paths.Join [dir; name]))) in
      remove_files dir rest
        (match remains r, firstErr with
         | Some e, None => Some (EFile (str "remove " ++ name) e None)
         | _, _ => firstErr
         end)
  end.
Definition removeCerts (certDir : gostring) : prog (option net_error) :=
  remove_files certDir [str "ca.pem"; str "client.pem"; str "client-key.pem"] None.

Fixpoint files_changed (dir : gostring) (files : list (gostring * gostring * N)) : prog bool :=
  match files with
  | [] => Ret false
  | (name, content, _) :: rest =>
      if bool_decide (content = []) then files_changed dir rest
      else
        let! r := ask (CReadFile (Paths.Join [dir; name])) in
        match r with
        | Ok existing => if bool_decide (existing = content) then files_changed dir rest else Ret true
        | Err _ => Ret true
        end
  end.
Definition certsChanged (p : Profile) : prog bool := files_changed (CertDir p) (cert_files p).

(** ** nmcli ([networkmanager.go]) *)

Definition nmcliRead (args : list gostring) : prog (result net_error gostring) :=
  let! (res, err) := ask (CRun (MkCommand (str "nmcli") args [] [] [] false) []) in
  Ret (match err with
       | Some e => Err (ERun e)
       | None => if (ExitCode res =? 0)%Z then Ok (Stdout res) else Err (ECommand (ExitCode res) (Stderr res))
       end).
Definition nmcliWrite (args : list gostring) : prog (option net_error) :=
  let! (res, err) := ask (CRun (MkCommand (str "nmcli") args [] [] [] true) []) in
  Ret (match err with
       | Some e => Some (ERun e)
       | None => if (ExitCode res =? 0)%Z then None else Some (ECommand (ExitCode res) (Stderr res))
       end).

(** [strings.ReplaceAll] of a non-empty text. *)
Fixpoint replace_from (fuel : nat) (s old new : gostring) : gostring :=
  match fuel with
  | 0 => s
  | S fuel => match cut_str s old with
              | Some (a, b) => a ++ new ++ replace_from fuel b old new
              | None => s
              end
  end.
Definition replace_all (s old new : gostring) : gostring := replace_from (length s) s old new.
Definition NUL : ascii := "000"%char.
Definition unescapeNmcli (s : gostring) : gostring :=
  let s := replace_all s (str "\\") [NUL] in
  let s := replace_all s (str "\:") (str ":") in
  replace_all s [NUL] (str "\").

Definition nmcli_line (l : gostring) : gostring := trim_right_set l [CR].
Definition ConnectionExists (name : gostring) : prog (result net_error bool) :=
  match validateConnName name with
  | Err e => Ret (Err e)
  | Ok _ =>
      let! r := nmcliRead [str "-t"; str "-f"; str "NAME"; str "con"; str "show"] in
      Ret (match r with
           | Err e => Err (EWrap (str "list connections") e)
           | Ok out => Ok (existsb (fun l => bool_decide (unescapeNmcli (nmcli_line l) = name)) (split_byte out NL))
           end)
  end.

Definition settings_of (out : gostring) : gmap gostring gostring :=
  foldl (fun m l => match cut (nmcli_line l) ":"%char with
                    | Some (k, v) => <[k := unescapeNmcli v]> m
                    | None => m
                    end) ∅ (split_byte out NL).
Definition Settings (name : gostring) : prog (result net_error (gmap gostring gostring)) :=
  match validateConnName name with
  | Err e => Ret (Err e)
  | Ok _ =>
      let! r := nmcliRead [str "-t"; str "-f"; str "all"; str "con"; str "show"; name] in
      Ret (match r with
           | Err e => Err (EWrap (str "get settings") e)
           | Ok out => Ok (settings_of out)
           end)
  end.

Definition provisionPSK (p : Profile) : prog (option net_error) :=
  let! e := writeKeyfile (keyfilePath (p_Name p)) (buildPSKKeyfile p) in
  match e with
  | Some e => Ret (Some e)
  | None =>
      let! e := nmcliWrite [str "connection"; str "reload"] in
      Ret (match e with Some e => Some (EWrap (str "nmcli connection reload") e) | None => None end)
  end.

Definition cert_path (p : Profile) (name : gostring) : gostring := Paths.Join [CertDir p; name].
Definition present (b : bool) (k v : gostring) : list (gostring * gostring) := if b then [(k, v)] else [].
(** The certificate settings that are set. *)
Definition cert_settings (p : Profile) : list (gostring * gostring) :=
  present (negb (bool_decide (CACert p = []))) (str "802-1x.ca-cert") (cert_path p (str "ca.pem")) ++
  present (negb (bool_decide (ClientCert p = []))) (str "802-1x.client-cert") (cert_path p (str "client.pem")) ++
  present (negb (IsZero (ClientKey p))) (str "802-1x.private-key") (cert_path p (str "client-key.pem")).
Definition eap_settings (p : Profile) : list (gostring * gostring) :=
  [(str "wifi-sec.key-mgmt", str "wpa-eap"); (str "802-1x.eap", str "tls");
   (str "802-1x.identity", Identity p)] ++ cert_settings p.
Definition yes_no (b : bool) : gostring := if b then str "yes" else str "no".
Definition common_settings (p : Profile) : list (gostring * gostring) :=
  [(str "connection.autoconnect", yes_no (AutoConnect p));
   (str "connection.autoconnect-priority", Json.int_lit (Priority p));
   (str "wifi.hidden", yes_no (Hidden p))].
Definition args_of (kvs : list (gostring * gostring)) : list gostring := concat (map (fun kv => [kv.1; kv.2]) kvs).
Definition appendEAPAuthArgs (args : list gostring) (p : Profile) : list gostring := args ++ args_of (eap_settings p).
Definition appendCommonArgs (args : list gostring) (p : Profile) : list gostring := args ++ args_of (common_settings p).

Definition buildAddArgs (p : Profile) : list gostring :=
  appendCommonArgs (appendEAPAuthArgs
    [str "con"; str "add"; str "con-name"; p_Name p; str "type"; str "wifi"; str "ssid"; SSID p] p) p.

Definition allManagedKeys : list gostring :=
  [str "wifi.ssid"; str "connection.autoconnect"; str "connection.autoconnect-priority"; str "wifi.hidden";
   str "wifi-sec.key-mgmt"; str "wifi-sec.psk"; str "802-1x.eap"; str "802-1x.identity";
   str "802-1x.ca-cert"; str "802-1x.client-cert"; str "802-1x.private-key"].

Definition buildDesiredSettings (p : Profile) : gmap gostring gostring :=
  list_to_map ((str "wifi.ssid", SSID p) :: eap_settings p ++ common_settings p).

(** Managed keys that are set and should not be. *)
Definition stale_keys (current desired : gmap gostring gostring) : list gostring :=
  List.filter (fun k => bool_decide (is_Some (current !! k)) && bool_decide (desired !! k = None)) allManagedKeys.
Definition buildModifyArgs (p : Profile) (current : option (gmap gostring gostring)) : list gostring :=
  appendCommonArgs (appendEAPAuthArgs [str "con"; str "mod"; p_Name p; str "wifi.ssid"; SSID p] p) p ++
  match current with
  | Some cur => args_of ((fun k => (k, [])) <$> stale_keys cur (buildDesiredSettings p))
  | None => []
  end.

Definition needsModify (current : gmap gostring gostring) (p : Profile) : prog bool :=
  let desired := buildDesiredSettings p in
  if existsb (fun kv : gostring * gostring => negb (bool_decide (default [] (current !! kv.1) = kv.2))) (map_to_list desired)
  then Ret true
  else match stale_keys current desired with
       | _ :: _ => Ret true
       | [] => certsChanged p
       end.

(** The answer of [Apply] and its parts: whether something changed, and an error. *)
Abbreviation change := (prog (bool * option net_error)).

Definition with_certdir (p : Profile) (d : gostring) : Profile :=
  MkProfile (p_Name p) (SSID p) (p_Auth p) (PSK p) (CACert p) (ClientCert p) (ClientKey p) (Identity p)
    (AutoConnect p) (Hidden p) (Priority p) d.

(** The swap after nmcli succeeded. *)
Definition install (p : Profile) (tmpDir oldDir : gostring) (liveExists : bool) : change :=
  let! r := ask (COs (OsRename tmpDir (CertDir p))) in
  match r with
  | Some e =>
      if liveExists then
        let! rr := ask (COs (OsRename oldDir (CertDir p))) in
        Ret (true, Some (EFile (str "install staged certs") e rr))
      else Ret (true, Some (EFile (str "install staged certs") e None))
  | None =>
      if liveExists then
        let! r := ask (COs (OsRemoveAll oldDir)) in
        Ret (true, match r with Some e => Some (EFile (str "remove old cert directory") e None) | None => None end)
      else Ret (true, None)
  end.
Definition stagedModify (p : Profile) (current : option (gmap gostring gostring)) : change :=
  let tmpDir := CertDir p ++ str ".tmp" in
  let oldDir := CertDir p ++ str ".old" in
  let! out :=
    let! e := writeCerts (with_certdir p tmpDir) in
    match e with
    | Some e => Ret (false, Some (EWrap (str "write staged certificates") e))
    | None =>
        let! e := nmcliWrite (buildModifyArgs p current) in
        match e with
        | Some e => Ret (false, Some (EWrap (str "modify connection") e))
        | None =>
            let! st := ask (CStat (CertDir p)) in
            match st with
            | Ok _ =>
                let! r := ask (COs (OsRename (CertDir p) oldDir)) in
                match r with
                | Some e => Ret (true, Some (EFile (str "backup old cert directory") e None))
                | None => install p tmpDir oldDir true
                end
            | Err _ => install p tmpDir oldDir false
            end
        end
    end in
  let! _ := ask (COs (OsRemoveAll tmpDir)) in
  Ret out.

Definition create (p : Profile) : change :=
  if (p_Auth p =? AuthPSK)%Z then
    let! e := provisionPSK p in
    Ret (match e with Some e => (false, Some (EWrap (str "create PSK connection") e)) | None => (true, None) end)
  else
    let! e := writeCerts p in
    match e with
    | Some e => Ret (false, Some (EWrap (str "write certificates") e))
    | None =>
        let! e := nmcliWrite (buildAddArgs p) in
        match e with
        | None => Ret (true, None)
        | Some e =>
            let! rm := removeCerts (CertDir p) in
            Ret (false, Some (match rm with
                              | Some l => ECerts e l
                              | None => EWrap (str "create connection") e
                              end))
        end
    end.

Definition update (p : Profile) : change :=
  if (p_Auth p =? AuthPSK)%Z then
    let! e := provisionPSK p in
    Ret (match e with Some e => (false, Some (EWrap (str "update PSK connection") e)) | None => (true, None) end)
  else
    let! cur := Settings (p_Name p) in
    match cur with
    | Err _ => stagedModify p None
    | Ok cur =>
        let! m := needsModify cur p in
        if (m : bool) then stagedModify p (Some cur) else Ret (false, None)
    end.

Definition Apply (p : Profile) : change :=
  let! v := validateProfile p in
  match v with
  | Err e => Ret (false, Some e)
  | Ok _ =>
      let! ex := ConnectionExists (p_Name p) in
      match ex with
      | Err e => Ret (false, Some e)
      | Ok true => update p
      | Ok false => create p
      end
  end.

(** [Delete] *)
Definition safeRemoveCertDir (certDir : gostring) : prog (option net_error) :=
  let! a := absPath (Paths.Clean certDir) in
  match a with
  | None => Ret (Some (EInvalid (str "resolve cert directory")))
  | Some abs =>
      let! sub := isSubdirOf CertBaseDir abs in
      if negb sub then Ret (Some (EInvalid (str "cert directory outside")))
      else
        let! st := ask (CStat abs) in
        match st with
        | Err NotExist => Ret None
        | Err e => Ret (Some (EFile (str "stat cert directory") e None))
        | Ok false => Ret (Some (EInvalid (str "cert path is not a directory")))
        | Ok true =>
            let! r := ask (COs (OsRemoveAll abs)) in
            Ret (match r with Some e => Some (EFile (str "remove cert directory") e None) | None => None end)
        end
  end.

Definition Delete (name certDir : gostring) : prog (option net_error) :=
  match validateConnName name with
  | Err e => Ret (Some e)
  | Ok _ =>
      let! ex := ConnectionExists name in
      match ex with
      | Err e => Ret (Some e)
      | Ok ex =>
          let! e := (if (ex : bool) then nmcliWrite [str "con"; str "delete"; name] else Ret None) in
          match e with
          | Some e => Ret (Some (EWrap (str "delete connection") e))
          | None => if bool_decide (certDir = []) then Ret None else safeRemoveCertDir certDir
          end
      end
  end.

End Network.
