(* ===== verification/NetworkCerts.v ===== *)
(** * WiFi profiles: the certificate directory ([src/sys/network])

    Updating an EAP-TLS profile swaps a staged directory in.  Whatever the file
    system and nmcli answer, the installed certificates are not lost: after the
    update they are in place, in the backup directory, or replaced by the new ones.
    And only directories below the managed tree are ever removed. *)
From S2P Require Import Prelude Exec Paths FsGuard Repo HostProg Words Json Ini Network NetworkOps.

Module NetworkCerts.
Import Exec HostProg Network.

(** ** What the answers say about files

    Files as a function of their path.  A failed write may have destroyed the file, a
    failed removal may have removed everything; a rename either happened or did not. *)
Definition files : Type := gostring -> option gostring.
Definition under (d k : gostring) : bool := has_prefix k (d ++ str "/").
Definition set (f : files) (p : gostring) (v : option gostring) : files :=
  fun k => if bool_decide (k = p) then v else f k.
Definition remove_under (f : files) (d : gostring) : files := fun k => if under d k then None else f k.
Definition rename (f : files) (a b : gostring) : files :=
  fun k => if under b k then f (a ++ drop (length b) k) else if under a k then None else f k.

Definition upd (f : files) X (c : call X) : X -> files :=
  match c in call X return X -> files with
  | COs o =>
      match o return os_ans o -> files with
      | OsWriteFile p d _ => fun r => set f p (match r with None => Some d | Some _ => None end)
      | OsRename a b => fun r => match r with None => rename f a b | Some _ => f end
      | OsRemoveAll d => fun _ => remove_under f d
      | OsRemove p => fun _ => set f p None
      | _ => fun _ => f
      end
  | _ => fun _ => f
  end.
Definition any (f : files) X (c : call X) : Prop := True.
Abbreviation wpf := (wpg upd any).

Lemma set_ne f q v k : k <> q -> set f q v k = f k.
Proof. intros H. unfold set. by rewrite bool_decide_false. Qed.
Lemma set_eq f q v : set f q v q = v.
Proof. unfold set. by rewrite bool_decide_true. Qed.

(** The files after a run. *)
Definition files_after {S A} (h : handler S) (s : S) (p : prog A) (f : files) : files := ghost_end upd h s p f.

Lemma has_prefix_cancel a x y : has_prefix (a ++ x) (a ++ y) = has_prefix x y.
Proof. induction a as [|c a IH]; [done|]. cbn. by rewrite bool_decide_true. Qed.
Lemma under_app c x y : under (c ++ x) (c ++ y) = has_prefix y (x ++ str "/").
Proof. unfold under. by rewrite <- app_assoc, has_prefix_cancel. Qed.
Lemma under_self d n : under d (d ++ str "/" ++ n) = true.
Proof. unfold under. rewrite app_assoc. apply has_prefix_app. Qed.

Lemma rename_into f a b n : rename f a b (b ++ str "/" ++ n) = f (a ++ str "/" ++ n).
Proof. unfold rename. by rewrite under_self, drop_app_length. Qed.
Lemma rename_other f a b k : under a k = false -> under b k = false -> rename f a b k = f k.
Proof. unfold rename. by intros -> ->. Qed.

(** ** Paths of certificate files *)

Section Dir.
Context (p : Profile) (cs : list gostring) (w : gostring).
Context (Hplain : Forall Paths.plain (cs ++ [w])) (Hdir : CertDir p = Paths.path_of (cs ++ [w])).

Definition cert_at (d n : gostring) : gostring := d ++ str "/" ++ n.
Abbreviation C := (CertDir p).
Abbreviation TMP := (C ++ str ".tmp").
Abbreviation OLD := (C ++ str ".old").

Lemma Join_path ds n : Forall Paths.plain (ds ++ [n]) -> ds <> [] -> Paths.Join [Paths.path_of ds; n] = cert_at (Paths.path_of ds) n.
Proof.
  intros [Hd Hn]%Forall_app Hne. rewrite list.Forall_singleton in Hn.
  destruct (Paths.Join2_comps (Paths.path_of ds) n) as [Ha Hc]; [done|].
  assert (Hcl : Paths.Clean (Paths.Join [Paths.path_of ds; n]) = Paths.Join [Paths.path_of ds; n]).
  { cbn [Paths.Join Paths.path_of]. by apply Paths.Clean_idem_abs. }
  rewrite <- Hcl, Paths.Clean_abs, Hc by done.
  rewrite Paths.comps_path_of by done.
  rewrite FsGuard.walk_one by done. cbn [rev]. rewrite rev_involutive, Paths.path_of_snoc.
  destruct ds; [done|]. unfold cert_at. by rewrite <- app_assoc.
Qed.

Lemma suffix_plain t : t ∈ [str ".tmp"; str ".old"] -> Forall Paths.plain (cs ++ [w ++ t]).
Proof.
  pose proof Hplain as [Hc Hw]%Forall_app. rewrite list.Forall_singleton in Hw. destruct Hw as (H1 & H2 & H3 & H4).
  intros Ht. apply Forall_app. split; [done|]. constructor; [|done].
  assert (Hl : length t = 4 /\ Paths.SLASH ∉ t).
  { repeat (apply elem_of_cons in Ht as [->|Ht]); [..|by apply elem_of_nil in Ht];
      (split; [done|by apply (bool_decide_unpack _)]). }
  assert (Hlen : forall x, length x < 4 -> w ++ t <> x).
  { intros x Hx E. apply (f_equal length) in E. rewrite length_app in E. lia. }
  split_and!; [apply Hlen; cbn; lia..|]. rewrite not_elem_of_app. split; [exact H4|apply Hl].
Qed.
Lemma suffix_path t : C ++ t = Paths.path_of (cs ++ [w ++ t]).
Proof. rewrite Hdir, !Paths.path_of_snoc. destruct cs; by rewrite <- app_assoc. Qed.

(** The names of the certificate files. *)
Definition cert_name (n : gostring) : Prop := n ∈ [str "ca.pem"; str "client.pem"; str "client-key.pem"].
Lemma cert_name_plain n : cert_name n -> Paths.plain n.
Proof.
  intros Hn. repeat (apply elem_of_cons in Hn as [->|Hn]); [..|by apply elem_of_nil in Hn];
    (split_and!; [done|done|done|by apply (bool_decide_unpack _)]).
Qed.
Lemma tmp_path n : cert_name n -> Paths.Join [TMP; n] = cert_at TMP n.
Proof.
  intros Hn. assert (Ht : str ".tmp" ∈ [str ".tmp"; str ".old"]) by left.
  rewrite suffix_path. apply Join_path; [|by destruct cs]. apply Forall_app.
  split; [by apply suffix_plain|]. constructor; [by apply cert_name_plain|done].
Qed.

(** The staged, live and backup directories are apart. *)
Lemma apart_tmp_live n : under TMP (cert_at C n) = false.
Proof. unfold cert_at. by rewrite under_app. Qed.
Lemma apart_old_live n : under OLD (cert_at C n) = false.
Proof. unfold cert_at. by rewrite under_app. Qed.
Lemma apart_live x n : x ∈ [str ".tmp"; str ".old"] -> under C (cert_at (C ++ x) n) = false.
Proof.
  intros Hx. unfold cert_at. rewrite <- (app_nil_r C) at 1. rewrite <- app_assoc, under_app.
  repeat (apply elem_of_cons in Hx as [->|Hx]); [done|done|by apply elem_of_nil in Hx].
Qed.
Lemma apart_tmp_old n : under TMP (cert_at OLD n) = false /\ under OLD (cert_at TMP n) = false.
Proof. unfold cert_at. by rewrite <- !app_assoc, !under_app. Qed.

(** ** The staged update *)

(** The new certificates are at a directory. *)
Definition holds_new (d : gostring) (f : files) : Prop :=
  forall n data mode, (n, data, mode) ∈ cert_files p -> data <> [] -> f (cert_at d n) = Some data.
(** The files of the live directory are, unchanged, at another. *)
Definition holds_old (f0 : files) (d : gostring) (f : files) : Prop := forall n, f (cert_at d n) = f0 (cert_at C n).
Definition kept (f0 f : files) : Prop := holds_old f0 C f \/ holds_old f0 OLD f \/ holds_new C f.

Lemma cert_files_names n data mode : (n, data, mode) ∈ cert_files p -> cert_name n.
Proof. unfold cert_files, cert_name. rewrite !elem_of_cons, elem_of_nil. naive_solver. Qed.

Lemma cert_at_inj d n m : cert_at d n = cert_at d m -> n = m.
Proof. unfold cert_at. by intros ?%app_inv_head%app_inv_head. Qed.

(** Writing the files of a list: those written before stay. *)
Lemma write_files_wpf l f Q :
  (forall x, x ∈ l -> cert_name x.1.1) -> NoDup (l.*1.*1) ->
  (forall f' e, (forall n, f' (cert_at C n) = f (cert_at C n)) -> Q f' (Some e)) ->
  (forall f', (forall n, f' (cert_at C n) = f (cert_at C n)) ->
     (forall n, n ∉ l.*1.*1 -> f' (cert_at TMP n) = f (cert_at TMP n)) ->
     (forall n data mode, (n, data, mode) ∈ l -> data <> [] -> f' (cert_at TMP n) = Some data) -> Q f' None) ->
  wpf (write_files TMP l) f Q.
Proof.
  revert f Q. induction l as [|[[n data] mode] l IH]; intros f Q Hn Hd HE HO; cbn [write_files].
  { apply HO; [done|done|]. intros ??? []%elem_of_nil. }
  rewrite !fmap_cons in Hd. apply list.NoDup_cons in Hd as [Hnew Hd].
  assert (Hrest : forall x, x ∈ l -> cert_name x.1.1) by (intros; apply Hn; by right).
  case_bool_decide as Hdata.
  - apply IH; [done|done|done|]. intros f' H1 H2 H3. apply HO; [done| |].
    + intros m Hm. apply H2. rewrite !fmap_cons in Hm. by apply not_elem_of_cons in Hm as [_ Hm].
    + intros m d o [[= -> -> ->]|Hin]%elem_of_cons Hne; [done|by eapply H3].
  - apply wpg_bind. cbn [ask wpg]. split; [done|]. rewrite tmp_path by (apply (Hn (n, data, mode)); left).
    assert (Hlive : forall v m, set f (cert_at TMP n) v (cert_at C m) = f (cert_at C m)).
    { intros v m. apply set_ne. intros E.
      pose proof (apart_tmp_live m) as Hu. rewrite E in Hu. unfold cert_at in Hu. by rewrite under_self in Hu. }
    intros [e|]; cbn [upd].
    + apply HE. intros m. apply Hlive.
    + apply IH; [done|done|intros f' e H1; apply HE; intros m; by rewrite H1|].
      intros f' H1 H2 H3. apply HO.
      * intros m. by rewrite H1.
      * intros m Hm. rewrite !fmap_cons in Hm. apply not_elem_of_cons in Hm as [Hm1 Hm2].
        rewrite H2 by done. apply set_ne. by intros ?%cert_at_inj.
      * intros m d o [[= -> -> ->]|Hin]%elem_of_cons Hne; [|by eapply H3].
        rewrite H2 by done. apply set_eq.
Qed.

Lemma NoDup_cert_names : NoDup ((cert_files p).*1.*1).
Proof. cbn [cert_files fmap list_fmap fst]. by apply (bool_decide_unpack _). Qed.

(** Staging: the live directory is untouched, and on success the new files are all in
    the staging directory. *)
Lemma stage_wpf f Q :
  (forall f' e, (forall n, f' (cert_at C n) = f (cert_at C n)) -> Q f' (Some e)) ->
  (forall f', (forall n, f' (cert_at C n) = f (cert_at C n)) -> holds_new TMP f' -> Q f' None) ->
  wpf (writeCerts (with_certdir p TMP)) f Q.
Proof.
  intros HE HO. unfold writeCerts. apply wpg_bind. cbn [ask wpg]. split; [done|]. cbn [upd].
  intros [e|]; [by apply HE|]. change (CertDir (with_certdir p TMP)) with TMP.
  change (cert_files (with_certdir p TMP)) with (cert_files p).
  apply write_files_wpf; [|apply NoDup_cert_names|done|].
  - intros [[n d] m] Hin. by eapply cert_files_names.
  - intros f' H1 _ H3. by apply HO.
Qed.

Lemma holds_new_rename f : holds_new TMP f -> holds_new C (rename f TMP C).
Proof. intros H n d m Hin Hd. unfold cert_at. rewrite rename_into. by apply (H n d m). Qed.
Lemma holds_new_remove f d : (forall n, under d (cert_at C n) = false) -> holds_new C f -> holds_new C (remove_under f d).
Proof. intros Hd H n x m Hin Hx. unfold remove_under. rewrite Hd. by apply (H n x m). Qed.
Lemma holds_old_remove f0 f e d :
  (forall n, under d (cert_at e n) = false) -> holds_old f0 e f -> holds_old f0 e (remove_under f d).
Proof. intros Hd H n. unfold remove_under. by rewrite Hd. Qed.

(** The outcome: nothing is lost, and success means the new files are installed. *)
Definition outcome (f0 f : files) (r : bool * option net_error) : Prop :=
  kept f0 f /\ (r = (true, None) -> holds_new C f).

Lemma outcome_cleanup f0 f r :
  outcome f0 f r -> outcome f0 (remove_under f TMP) r.
Proof.
  intros [Hk Hs]. split; [|intros Hr; apply holds_new_remove; [apply apart_tmp_live|by apply Hs]].
  destruct Hk as [H|[H|H]].
  - left. apply holds_old_remove; [apply apart_tmp_live|done].
  - right; left. apply holds_old_remove; [intros n; apply apart_tmp_old|done].
  - right; right. apply holds_new_remove; [apply apart_tmp_live|done].
Qed.

Lemma install_live f0 f Q :
  holds_old f0 OLD f -> holds_new TMP f -> (forall f' r, outcome f0 f' r -> Q f' r) ->
  wpf (install p TMP OLD true) f Q.
Proof.
  intros Hold Hnew HQ. unfold install. apply wpg_bind. cbn [ask wpg]. split; [done|]. intros [e|]; cbn [upd].
  - apply wpg_bind. cbn [ask wpg]. split; [done|]. intros rr. cbn [upd wpg]. apply HQ. split; [|done].
    destruct rr; [by right; left|]. left. intros n. unfold cert_at. rewrite rename_into. apply Hold.
  - apply wpg_bind. cbn [ask wpg]. split; [done|]. intros rr. cbn [upd wpg]. apply HQ.
    assert (H : holds_new C (remove_under (rename f TMP C) OLD))
      by (apply holds_new_remove; [apply apart_old_live|by apply holds_new_rename]).
    split; [by right; right|done].
Qed.
Lemma install_fresh f0 f Q :
  holds_old f0 C f -> holds_new TMP f -> (forall f' r, outcome f0 f' r -> Q f' r) ->
  wpf (install p TMP OLD false) f Q.
Proof.
  intros Hold Hnew HQ. unfold install. apply wpg_bind. cbn [ask wpg]. split; [done|]. intros [e|]; cbn [upd wpg]; apply HQ.
  - split; [by left|done].
  - assert (H : holds_new C (rename f TMP C)) by by apply holds_new_rename. split; [by right; right|done].
Qed.

Lemma stagedModify_wpf cur f0 : wpf (stagedModify p cur) f0 (outcome f0).
Proof.
  unfold stagedModify. apply wpg_bind.
  apply (wpg_mono _ _ _ _ (outcome f0)).
  { intros f r H. cbn [bind ask wpg]. split; [done|]. intros x. cbn [upd wpg]. by apply outcome_cleanup. }
  apply wpg_bind. apply stage_wpf.
  { intros f e H. cbn [wpg]. split; [by left|done]. }
  intros f Hlive Hnew. apply wpg_bind. unfold nmcliWrite. apply wpg_bind. cbn [ask wpg]. split; [done|].
  intros [res err]. cbn [upd wpg]. set (r := match err with Some _ => _ | None => _ end).
  destruct r as [e|]; [cbn [wpg]; split; [by left|done]|].
  apply wpg_bind. cbn [ask wpg]. split; [done|]. intros [b|e]; cbn [upd].
  - apply wpg_bind. cbn [ask wpg]. split; [done|]. intros [e|]; cbn [upd]; [cbn [wpg]; split; [by left|done]|].
    apply (install_live f0); [| |by intros].
    + intros n. unfold cert_at. rewrite rename_into. apply Hlive.
    + intros n d m Hin Hd. rewrite rename_other; [by apply (Hnew n d m)|apply apart_live; left|apply apart_tmp_old].
  - apply (install_fresh f0); [done|done|by intros].
Qed.
End Dir.

(** Whatever the file system and nmcli answer while an EAP-TLS profile is updated, the
    certificates that were installed are afterwards in place, or in the backup
    directory, or replaced by the complete new set; and a reported success means the
    complete new set is in place. *)
Theorem certs_never_lost {S} (h : handler S) s p cs w cur f0 :
  Forall Paths.plain (cs ++ [w]) -> CertDir p = Paths.path_of (cs ++ [w]) ->
  outcome p f0 (files_after h s (stagedModify p cur) f0) (run h s (stagedModify p cur)).2.
Proof. intros Hp Hd. apply (wpg_run upd any), (stagedModify_wpf p cs w Hp Hd cur f0). Qed.

Definition demo_eap : Profile :=
  MkProfile (str "pm-wifi-2") (str "Office") 2 (MkSecret []) (str "CA") (str "CERT") (MkSecret (str "KEY"))
    (str "host") true false 0 (str "/var/lib/power-manage/wifi/a").
(** A host where the swap fails at its last step. *)
Definition faulty : handler nat := fun X n c =>
  match c in call X return nat * X with
  | COs o => (S n, match o return os_ans o with
                   | OsRename a b => if has_prefix a (str "/var/lib/power-manage/wifi/a.tmp")
                                     then Some (OtherErr (str "EIO")) else None
                   | OsMkdirAll _ _ | OsWriteFile _ _ _ | OsRemoveAll _ => None
                   | o => os_absent o
                   end)
  | CRun _ _ => (n, (MkResult 0 [] [], None))
  | CStat _ => (n, Ok true)
  | CCtxErr => (n, None)
  | CReadFile _ | CFsReadFile _ => (n, Err NotExist)
  | CFsReadDir _ => (n, Err NotExist)
  | CLookPath _ => (n, None)
  | CFs _ => (n, None)
  | CFsExists _ => (n, Ok false)
  end.
Definition demo_files : files := fun k =>
  if bool_decide (k = str "/var/lib/power-manage/wifi/a/client-key.pem") then Some (str "OLDKEY") else None.
Lemma certs_never_lost_witness :
  outcome demo_eap demo_files (files_after faulty 0 (stagedModify demo_eap None) demo_files)
    (run faulty 0 (stagedModify demo_eap None)).2 /\
  files_after faulty 0 (stagedModify demo_eap None) demo_files (str "/var/lib/power-manage/wifi/a/client-key.pem")
    = Some (str "OLDKEY").
Proof.
  split; [|by_eval].
  apply (certs_never_lost faulty 0 demo_eap [str "var"; str "lib"; str "power-manage"; str "wifi"] (str "a"));
    [by apply (bool_decide_unpack _)|reflexivity].
Defined.

(** ** Removing a certificate directory *)

Lemma strip_common_spec a b : exists c, a = c ++ (strip_common a b).1 /\ b = c ++ (strip_common a b).2.
Proof.
  revert b. induction a as [|x a IH]; intros [|y b]; cbn [strip_common]; try by exists [].
  case_bool_decide; [|by exists []]. subst. destruct (IH b) as (c & Ha & Hb). exists (y :: c).
  cbn [app]. by rewrite <- Ha, <- Hb.
Qed.

(** A relative path that does not climb: the target is strictly below the base. *)
Lemma inside_strict a b :
  Paths.IsAbs a = true -> Paths.IsAbs b = true -> inside (Rel a b) = true ->
  exists rest, rest <> [] /\ Paths.comps b = Paths.comps a ++ rest.
Proof.
  intros Ha Hb. unfold Rel. case_bool_decide as Heq; [done|].
  rewrite !Paths.IsAbs_Clean by done. cbn [Bool.eqb negb]. rewrite !Paths.comps_Clean by done.
  destruct (strip_common_spec (Paths.comps a) (Paths.comps b)) as (c & Ea & Eb).
  destruct (strip_common _ _) as [a' b']. cbn [fst snd] in *. destruct a' as [|x a'].
  - intros _. exists b'. rewrite app_nil_r in Ea. rewrite Ea. split; [|done]. intros ->. apply Heq.
    rewrite !Paths.Clean_abs by done. by rewrite Ea, Eb, app_nil_r.
  - case_bool_decide; [done|]. cbn [inside length replicate app]. destruct (replicate (length a') Paths.dotdot ++ b') as [|y l].
    + by vm_compute.
    + change (Paths.slashed (Paths.dotdot :: y :: l)) with (Paths.dotdot ++ [Paths.SLASH] ++ Paths.slashed (y :: l)).
      change (str "..") with Paths.dotdot. by rewrite has_prefix_app, andb_false_r.
Qed.

Definition no_removal (q : request) : Prop := match q with QOs (OsRemoveAll _) => False | _ => True end.
Lemma subdir_no_removal a b : wp no_removal (isSubdirOf a b) (fun _ => True).
Proof. by apply NetworkOps.isSubdirOf_wp. Qed.
Lemma absPath_no_removal a : wp no_removal (absPath a) (fun _ => True).
Proof. unfold absPath. destruct (Paths.IsAbs a); [done|]. by repeat wp_step. Qed.

Lemma asked_no_removal {S A} (h : handler S) s (q : prog A) d :
  wp no_removal q (fun _ => True) -> QOs (OsRemoveAll d) ∉ asked h s q.
Proof.
  intros H Hin. destruct (wp_run no_removal h s q _ H) as [Hf _]. rewrite list.Forall_forall in Hf. by apply Hf in Hin.
Qed.

(** A directory is removed only when, as the host resolved the symbolic links of both,
    it is strictly below the managed tree. *)
Theorem removal_confined {S} (h : handler S) s certDir d :
  QOs (OsRemoveAll d) ∈ asked h s (safeRemoveCertDir certDir) ->
  exists s1 s2, let base := (run h s1 (resolvePath CertBaseDir)).2 in let dir := (run h s2 (resolvePath d)).2 in
    Paths.IsAbs base = true -> Paths.IsAbs dir = true ->
    exists rest, rest <> [] /\ Paths.comps dir = Paths.comps base ++ rest.
Proof.
  unfold safeRemoveCertDir. rewrite asked_bind, elem_of_app.
  intros [[]%(asked_no_removal _ _ _ _ (absPath_no_removal _))|H].
  destruct (run h s (absPath _)) as [s1 [abs|]]; cbn [fst snd] in H; [|by apply elem_of_nil in H].
  rewrite asked_bind, elem_of_app in H.
  destruct H as [[]%(asked_no_removal _ _ _ _ (subdir_no_removal _ _))|H].
  destruct (run h s1 (isSubdirOf CertBaseDir abs)) as [s2 sub] eqn:E. cbn [fst snd] in H.
  destruct sub; cbn [negb] in H; [|by apply elem_of_nil in H].
  assert (d = abs) as ->.
  { cbn [bind ask asked] in H. destruct (h _ s2 _) as [s3 [[]|[]]]; cbn [asked bind request_of] in H;
      repeat (apply elem_of_cons in H as [?|H]; [simplify_eq|]); try (by apply elem_of_nil in H); try done.
    destruct (h _ s3 _). by apply elem_of_nil in H. }
  unfold isSubdirOf in E. rewrite run_bind in E. cbn [bind] in E. rewrite run_bind in E. cbn [run] in E.
  apply (f_equal snd) in E. cbn [snd] in E. exists s1, (run h s1 (resolvePath CertBaseDir)).1. cbv zeta. intros Hb Hd.
  exact (inside_strict _ _ Hb Hd E).
Qed.

(** A host without symbolic links where everything exists. *)
Definition plain_host : handler unit := fun X s c =>
  match c in call X return unit * X with
  | COs o => (s, match o return os_ans o with
                 | OsEvalSymlinks p => Ok p
                 | OsRemoveAll _ => None
                 | o => os_absent o
                 end)
  | CRun _ _ => (s, (MkResult 0 [] [], None))
  | CStat _ => (s, Ok true)
  | CCtxErr => (s, None)
  | CReadFile _ | CFsReadFile _ => (s, Err NotExist)
  | CFsReadDir _ => (s, Err NotExist)
  | CLookPath _ => (s, None)
  | CFs _ => (s, None)
  | CFsExists _ => (s, Ok false)
  end.
Lemma removal_confined_witness :
  QOs (OsRemoveAll (str "/var/lib/power-manage/wifi/a")) ∈ asked plain_host tt (safeRemoveCertDir (str "/var/lib/power-manage/wifi/x/../a")) /\
  exists s1 s2, let base := (run plain_host s1 (resolvePath CertBaseDir)).2 in
    let dir := (run plain_host s2 (resolvePath (str "/var/lib/power-manage/wifi/a"))).2 in
    Paths.IsAbs base = true -> Paths.IsAbs dir = true ->
    exists rest, rest <> [] /\ Paths.comps dir = Paths.comps base ++ rest.
Proof.
  assert (H : QOs (OsRemoveAll (str "/var/lib/power-manage/wifi/a")) ∈
              asked plain_host tt (safeRemoveCertDir (str "/var/lib/power-manage/wifi/x/../a"))).
  { vm_compute. repeat (first [left|right]). }
  split; [exact H|]. exact (removal_confined plain_host tt _ _ H).
Defined.
Example base_itself_kept :
  asked plain_host tt (safeRemoveCertDir (str "/var/lib/power-manage/wifi/a/..")) =
  asked plain_host tt (isSubdirOf CertBaseDir CertBaseDir).
Proof. by_eval. Qed.

End NetworkCerts.

(** * WiFi profiles: nmcli's terse output ([src/sys/network/networkmanager.go]) *)

Module NetworkText.
Import Exec HostProg Network.

(** ** Replacing *)

Section Replace.
Context (old new : gostring) (Hold : old <> []).

Lemma replace_fuel n m s :
  length s <= n -> length s <= m -> replace_from n s old new = replace_from m s old new.
Proof.
  revert m s. induction n as [|n IH]; intros [|m] s Hn Hm; cbn [replace_from]; try done.
  - destruct s; [|cbn in Hn; lia]. destruct (cut_str [] old) as [[a b]|] eqn:E; [|done].
    apply cut_str_Some in E. destruct a, old; done.
  - destruct s; [|cbn in Hm; lia]. destruct (cut_str [] old) as [[a b]|] eqn:E; [|done].
    apply cut_str_Some in E. destruct a, old; done.
  - destruct (cut_str s old) as [[a b]|] eqn:E; [|done]. do 2 f_equal.
    apply cut_str_Some in E. subst s. rewrite !length_app in Hn, Hm.
    assert (0 < length old) by (destruct old; [done|cbn; lia]). apply IH; lia.
Qed.

Lemma replace_hit s : replace_all (old ++ s) old new = new ++ replace_all s old new.
Proof.
  unfold replace_all. assert (0 < length old) by (destruct old; [done|cbn; lia]).
  rewrite length_app. destruct (length old + length s) as [|n] eqn:E; [lia|]. cbn [replace_from].
  assert (cut_str (old ++ s) old = Some ([], s)) as ->.
  { pose proof (has_prefix_app old s) as Hp. destruct (old ++ s) as [|c t] eqn:Es.
    - destruct old; done.
    - cbn [cut_str]. rewrite Hp, <- Es, drop_app_length. done. }
  cbn [app]. f_equal. apply replace_fuel; lia.
Qed.

Lemma replace_miss c s : has_prefix (c :: s) old = false -> replace_all (c :: s) old new = c :: replace_all s old new.
Proof.
  intros Hp. unfold replace_all. cbn [length replace_from cut_str]. rewrite Hp.
  destruct (cut_str s old) as [[a b]|] eqn:E.
  - cbn [app]. f_equal. destruct (length s) as [|n] eqn:El.
    + apply cut_str_Some in E. subst s. destruct a; [|done]. destruct old; done.
    + cbn [replace_from]. rewrite E. do 2 f_equal. apply cut_str_Some in E. subst s.
      assert (0 < length old) by (destruct old; [done|cbn; lia]).
      rewrite !length_app in El.
      change (replace_from (S n) b old new = replace_from n b old new). apply replace_fuel; lia.
  - f_equal. destruct (length s); cbn [replace_from]; [done|]. by rewrite E.
Qed.
End Replace.

(** ** Escaping *)

(** What nmcli does to a value in terse mode. *)
Definition escape_with (f : ascii -> gostring) (s : gostring) : gostring := concat (map f s).
Definition BS : ascii := "\"%char.
Definition COLON : ascii := ":"%char.
Definition escape_byte (c : ascii) : gostring :=
  if bool_decide (c = BS) then [BS; BS] else if bool_decide (c = COLON) then [BS; COLON] else [c].
Definition escapeNmcli : gostring -> gostring := escape_with escape_byte.
(** The text after each of the three replacements. *)
Definition stage1 (c : ascii) : gostring :=
  if bool_decide (c = BS) then [NUL] else if bool_decide (c = COLON) then [BS; COLON] else [c].
Definition stage2 (c : ascii) : gostring := if bool_decide (c = BS) then [NUL] else [c].

Lemma escape_cons f c s : escape_with f (c :: s) = f c ++ escape_with f s.
Proof. done. Qed.

(** A two-byte text is not at a byte it does not start with, nor at its first byte
    when something else follows. *)
Lemma pair_miss a b c s : c <> a -> has_prefix (c :: s) [a; b] = false.
Proof. intros H. cbn. by rewrite bool_decide_false. Qed.
Lemma pair_miss2 a b d s : d <> b -> has_prefix (a :: d :: s) [a; b] = false.
Proof. intros H. cbn. rewrite bool_decide_true, bool_decide_false by done. done. Qed.

Lemma replace_stage1 s : replace_all (escapeNmcli s) [BS; BS] [NUL] = escape_with stage1 s.
Proof.
  unfold escapeNmcli. induction s as [|c s IH]; [done|]. rewrite !escape_cons. unfold escape_byte at 1, stage1 at 1.
  case_bool_decide; [by rewrite replace_hit, IH|]. case_bool_decide; subst; cbn [app].
  - rewrite replace_miss by (done || by apply pair_miss2). rewrite replace_miss by (done || by apply pair_miss). by rewrite IH.
  - rewrite replace_miss by (done || by apply pair_miss). by rewrite IH.
Qed.
Lemma replace_stage2 s : replace_all (escape_with stage1 s) [BS; COLON] [COLON] = escape_with stage2 s.
Proof.
  induction s as [|c s IH]; [done|]. rewrite !escape_cons. unfold stage1 at 1, stage2 at 1.
  case_bool_decide; cbn [app].
  - rewrite replace_miss by (done || by apply pair_miss). by rewrite IH.
  - case_bool_decide; cbn [app].
    + subst. change (BS :: COLON :: escape_with stage1 s) with ([BS; COLON] ++ escape_with stage1 s).
      by rewrite replace_hit, IH.
    + rewrite replace_miss by (done || by apply pair_miss). by rewrite IH.
Qed.
Lemma replace_stage3 s : NUL ∉ s -> replace_all (escape_with stage2 s) [NUL] [BS] = s.
Proof.
  induction s as [|c s IH]; [done|]. intros [Hc Hs]%not_elem_of_cons. rewrite escape_cons. unfold stage2 at 1.
  case_bool_decide; cbn [app].
  - change (NUL :: escape_with stage2 s) with ([NUL] ++ escape_with stage2 s). rewrite replace_hit, IH by done. by subst.
  - rewrite replace_miss; [by rewrite IH|done|]. cbn. by rewrite bool_decide_false.
Qed.

Lemma unescape_escape s : NUL ∉ s -> unescapeNmcli (escapeNmcli s) = s.
Proof.
  intros H. unfold unescapeNmcli. change (str "\\") with [BS; BS]. change (str "\:") with [BS; COLON].
  change (str ":") with [COLON]. change (str "\") with [BS].
  by rewrite replace_stage1, replace_stage2, replace_stage3.
Qed.

(** ** Listing connections *)

(** A name NetworkManager may list: one line, no NUL. *)
Definition listable (n : gostring) : Prop := Forall (fun c => c ∉ [NUL; NL; CR]) n.
Definition listing_host {S} (h : handler S) (s : S) (names : list gostring) : Prop :=
  exists stderr, (h _ s (CRun (MkCommand (str "nmcli") [str "-t"; str "-f"; str "NAME"; str "con"; str "show"]
    [] [] [] false) [])).2 = (MkResult 0 (Ini.unlines (map escapeNmcli names)) stderr, None).

Lemma escape_elem c n : c ∈ escapeNmcli n -> c ∈ n \/ c = BS \/ c = COLON.
Proof.
  unfold escapeNmcli, escape_with. induction n as [|a n IH]; cbn [map concat]; [by intros ?%elem_of_nil|].
  rewrite elem_of_app, elem_of_cons. unfold escape_byte at 1. intros [H|H]; [|naive_solver].
  repeat case_bool_decide; repeat (apply elem_of_cons in H as [->|H]; [naive_solver|]); by apply elem_of_nil in H.
Qed.
Lemma listable_escape n c : listable n -> c ∈ [NUL; NL; CR] -> c ∉ escapeNmcli n.
Proof.
  intros Hn Hc [Hin|[->| ->]]%escape_elem.
  - unfold listable in Hn. rewrite list.Forall_forall in Hn. by apply (Hn c).
  - revert Hc. by apply (bool_decide_unpack (BS ∉ [NUL; NL; CR])).
  - revert Hc. by apply (bool_decide_unpack (COLON ∉ [NUL; NL; CR])).
Qed.

Lemma trim_right_set_id s set : (forall c, c ∈ set -> c ∉ s) -> trim_right_set s set = s.
Proof.
  intros H. unfold trim_right_set. destruct s as [|c s _] using rev_ind; [done|].
  rewrite rev_unit. cbn [trim_left_set]. rewrite bool_decide_false.
  - by rewrite <- rev_unit, rev_involutive.
  - intros Hc. apply (H c Hc). apply elem_of_app. right. left.
Qed.
Lemma nmcli_line_escape n : listable n -> nmcli_line (escapeNmcli n) = escapeNmcli n.
Proof.
  intros Hn. apply trim_right_set_id. intros c ->%list_elem_of_singleton.
  apply listable_escape; [done|]. by apply (bool_decide_unpack _).
Qed.

Lemma existsb_mem names name :
  Forall listable names ->
  existsb (fun l => bool_decide (unescapeNmcli (nmcli_line l) = name)) (map escapeNmcli names) = bool_decide (name ∈ names).
Proof.
  induction 1 as [|n names Hn _ IH]; [done|]. cbn [map existsb]. rewrite IH, nmcli_line_escape by done.
  rewrite unescape_escape.
  - apply eq_true_iff_eq. rewrite orb_true_iff, !bool_decide_eq_true, elem_of_cons. naive_solver.
  - intros Hin. unfold listable in Hn. rewrite list.Forall_forall in Hn. apply (Hn NUL Hin). left.
Qed.

(** Whatever connections there are, [ConnectionExists] answers whether the name is
    one of them: nmcli's escaping is undone exactly. *)
Theorem connection_exists_exact {S} (h : handler S) s names name :
  validateConnName name = Ok tt -> Forall listable names -> listing_host h s names ->
  (run h s (ConnectionExists name)).2 = Ok (bool_decide (name ∈ names)).
Proof.
  intros Hv Hn (stderr & Hh). unfold ConnectionExists. rewrite Hv. unfold nmcliRead. cbn [bind ask run].
  destruct (h _ s _) as [s' x]. cbn [snd] in Hh. subst x. cbn [bind run snd ExitCode Stdout Z.eqb].
  rewrite Ini.split_unlines.
  - rewrite existsb_app, existsb_mem by done. cbn [existsb]. rewrite !orb_false_r.
    assert (name <> []) as Hne by by intros ->. change (nmcli_line []) with (@nil ascii).
    change (unescapeNmcli []) with (@nil ascii). rewrite (bool_decide_false ([] = name)) by congruence.
    by rewrite orb_false_r.
  - apply List.Forall_map. eapply list.Forall_impl; [exact Hn|]. intros n Hl. apply listable_escape; [done|].
    by apply (bool_decide_unpack _).
Qed.

Definition demo_names : list gostring := [str "Wired: 1"; str "back\slash"; str "pm-wifi-1"].
Definition demo_nmcli : handler unit :=
  command_host (fun s _ _ => (s, (MkResult 0 (Ini.unlines (map escapeNmcli demo_names)) [], None))) absent absent.
Lemma connection_exists_exact_witness :
  Forall listable demo_names /\ (run demo_nmcli tt (ConnectionExists (str "back\slash"))).2 = Ok true.
Proof.
  assert (H : Forall listable demo_names) by by apply (bool_decide_unpack _).
  split; [exact H|].
  exact (connection_exists_exact demo_nmcli tt demo_names (str "back\slash") eq_refl H (ex_intro _ [] eq_refl)).
Defined.

(** ** Settings *)

(** An unchanged EAP-TLS profile is still rewritten when nmcli lists the network
    under another name than [wifi.ssid] (nmcli prints [802-11-wireless.ssid]). *)
Lemma needs_modify_without_alias cur p :
  cur !! str "wifi.ssid" = None -> SSID p <> [] -> needsModify cur p = Ret true.
Proof.
  intros Hc Hs. unfold needsModify. rewrite (proj2 (existsb_exists _ _)); [done|].
  exists (str "wifi.ssid", SSID p). split.
  - apply list_elem_of_In, elem_of_map_to_list. apply lookup_insert_eq.
  - cbn [fst snd]. rewrite Hc. by rewrite bool_decide_false.
Qed.

End NetworkText.
