(* ===== verification/HostCmd.v ===== *)
(** * Privileged and unprivileged commands

    The helpers [runPriv] and [runRead] that the configuration packages share: a
    command that must succeed, with and without escalation. *)
From S2P Require Import Prelude Exec HostProg.

Module HostCmd.
Import Exec HostProg.

Inductive cmd_error :=
| RunFailed (e : exec_error)
| ExitFailed (name : gostring) (code : Z) (stderr : gostring).

Definition cmd_result (name : gostring) (r : Result * option exec_error) : result cmd_error gostring :=
  let '(res, err) := r in
  match err with
  | Some e => Err (RunFailed e)
  | None => if (ExitCode res =? 0)%Z then Ok (Stdout res) else Err (ExitFailed name (ExitCode res) (Stderr res))
  end.
Definition priv (name : gostring) (args : list gostring) : Command := MkCommand name args [] [] [] true.
Definition unpriv (name : gostring) (args : list gostring) : Command := MkCommand name args [] [] [] false.

Definition runPriv (name : gostring) (args : list gostring) : prog (option cmd_error) :=
  let! r := ask (CRun (priv name args) []) in
  Ret (match cmd_result name r with Err e => Some e | Ok _ => None end).
Definition runRead (name : gostring) (args : list gostring) : prog (result cmd_error gostring) :=
  let! r := ask (CRun (unpriv name args) []) in Ret (cmd_result name r).

(** The first error of a list of checks. *)
Fixpoint each {E A} (f : A -> result E unit) (l : list A) : result E unit :=
  match l with [] => Ok tt | a :: l' => let? _ := f a in each f l' end.
Lemma each_ok {E A} (f : A -> result E unit) l : each f l = Ok tt <-> Forall (fun a => f a = Ok tt) l.
Proof.
  induction l as [|a l IH]; [by split|]. cbn [each]. rewrite list.Forall_cons, <- IH.
  destruct (f a) as [[]|]; cbn; naive_solver.
Qed.

(** A command that the host answers with success. *)
Definition succeeds {S} (h : handler S) (s : S) (c : Command) (out : gostring) (s' : S) : Prop :=
  exists stderr, h _ s (CRun c []) = (s', (MkResult 0 out stderr, None)).

Lemma runRead_run {S} (h : handler S) s name args out s' :
  succeeds h s (unpriv name args) out s' -> run h s (runRead name args) = (s', Ok out).
Proof. intros (stderr & H). unfold runRead. cbn [bind ask run]. by rewrite H. Qed.
Lemma runPriv_run {S} (h : handler S) s name args out s' :
  succeeds h s (priv name args) out s' -> run h s (runPriv name args) = (s', None).
Proof. intros (stderr & H). unfold runPriv. cbn [bind ask run]. by rewrite H. Qed.

Lemma runPriv_wp (G : request -> Prop) name args Q :
  G (QRun (priv name args) []) -> (forall r, Q r) -> wp G (runPriv name args) Q.
Proof. intros HG HQ. unfold runPriv. wp_step. cbn [ask wp]. split; [done|]. intros x. apply HQ. Qed.
Lemma runRead_wp (G : request -> Prop) name args Q :
  G (QRun (unpriv name args) []) -> (forall r, Q r) -> wp G (runRead name args) Q.
Proof. intros HG HQ. unfold runRead. wp_step. cbn [ask wp]. split; [done|]. intros x. apply HQ. Qed.

(** ** Command lines

    An argument that starts with a dash is one of the options the code itself uses. *)
Definition dashed (a : gostring) : bool := has_prefix a (str "-").
Definition safe_call (own : list gostring) (c : Command) (_ : gostring) : Prop :=
  Forall (fun a => dashed a = true -> a ∈ own) (Args c).

Lemma safe_literal (own : list gostring) a : bool_decide (dashed a = false \/ a ∈ own) = true -> dashed a = true -> a ∈ own.
Proof. intros [H|H]%bool_decide_eq_true Hp; [by rewrite H in Hp|done]. Qed.
Lemma undashed_cons c s : c <> "-"%char -> dashed (c :: s) = false.
Proof. intros Hc. unfold dashed. cbn. by rewrite bool_decide_false. Qed.
Lemma undashed (own : list gostring) a : dashed a = false -> dashed a = true -> a ∈ own.
Proof. by intros ->. Qed.
(** Text of a class that has no dash. *)
Lemma undashed_class (p : ascii -> bool) s : p "-"%char = false -> forallb p s = true -> dashed s = false.
Proof.
  intros Hp Hs. destruct s as [|c s]; [done|]. apply undashed_cons. intros ->. cbn in Hs. by rewrite Hp in Hs.
Qed.
(** A joined list starts with its first word. *)
Lemma undashed_join ws sep : Forall (fun w => w <> [] /\ dashed w = false) ws -> dashed (join ws sep) = false.
Proof.
  intros H. destruct H as [|w ws [Hn Hw] _]; [done|]. destruct w as [|c w]; [done|].
  assert (Hc : c <> "-"%char) by (intros ->; by cbn in Hw). destruct ws; [done|]. by apply undashed_cons.
Qed.
Create HintDb args.
#[export] Hint Resolve undashed undashed_cons undashed_join : args.
Ltac safe_args := repeat first
  [ apply List.Forall_nil
  | apply List.Forall_cons
  | apply list.Forall_app; split
  | match goal with |- dashed (str _) = true -> _ => apply safe_literal; reflexivity end
  | match goal with |- dashed [] = true -> _ => done end
  | apply undashed; assumption ].

End HostCmd.
