(* ===== verification/Dns.v ===== *)
(** * DNS resolver configuration ([src/sys/dns])

    The resolved and NetworkManager backends: validation, the drop-in file, the
    command lines, and the reader of [resolv.conf]. *)
From S2P Require Import Prelude Paths Exec HostProg Words Json Net Repo Ini HostCmd.

Module Dns.
Import Exec HostProg HostCmd.

(** ** Data ([dns.go]) *)

Record Config := MkConfig {
  Nameservers : list gostring; SearchDomains : list gostring; Interface : gostring
}.
Record State := MkState { s_Nameservers : list gostring; s_SearchDomains : list gostring }.

Inductive dns_error :=
| EUnknownBackend (b : Z)
| ERunnerRequired
| EInvalidConfig (why : gostring)
| EFs (what : gostring) (e : fs_err)
| ECmd (what : gostring) (e : cmd_error).

Inductive Backend := Resolved | NetworkManager.
(** [iota + 1] *)
Definition backend_of (b : Z) : option Backend :=
  match b with 1%Z => Some Resolved | 2%Z => Some NetworkManager | _ => None end.
Definition String (b : Z) : gostring :=
  match backend_of b with
  | Some Resolved => str "resolved"
  | Some NetworkManager => str "networkmanager"
  | None => str "Backend(" ++ Json.int_lit b ++ str ")"
  end.
Definition New (b : Z) (runner : bool) : result dns_error Backend :=
  if negb runner then Err ERunnerRequired
  else match backend_of b with Some b => Ok b | None => Err (EUnknownBackend b) end.
Definition Detect : prog (list Backend) :=
  let! r := ask (CLookPath (str "resolvectl")) in
  let! n := ask (CLookPath (str "nmcli")) in
  Ret (match r with Some _ => [Resolved] | None => [] end ++ match n with Some _ => [NetworkManager] | None => [] end).

(** ** Validation ([validate.go]) *)

Definition validInterface (s : gostring) : bool :=
  match s with
  | c :: rest => Repo.alnum c && forallb (fun c => Repo.alnum c || Repo.one_of (str "._@-") c) rest && (length rest <=? 14)
  | [] => false
  end.
(** [^[a-zA-Z0-9]([a-zA-Z0-9-]{0,61}[a-zA-Z0-9])?$] *)
Definition validDomainLabel (l : gostring) : bool :=
  match l with
  | [] => false
  | c :: rest => Repo.alnum c && forallb (fun c => Repo.alnum c || bool_decide (c = "-"%char)) rest &&
                 Repo.alnum (List.last l c) && (length rest <=? 62)
  end.
Definition validateDomain (d : gostring) : result dns_error unit :=
  if bool_decide (d = []) then Err (EInvalidConfig (str "empty search domain"))
  else if 253 <? length d then Err (EInvalidConfig (str "search domain too long"))
  else if contains_any d [" "%char; TAB; NL; CR; "000"%char] then Err (EInvalidConfig (str "search domain: whitespace"))
  else if forallb validDomainLabel (split_byte (trim_suffix d (str ".")) "."%char) then Ok tt
  else Err (EInvalidConfig (str "search domain: label")).

Definition validateNameserver (ns : gostring) : result dns_error unit :=
  match Net.ParseIP ns with
  | None => Err (EInvalidConfig (str "nameserver"))
  | Some ip => if Net.IsUnspecified ip then Err (EInvalidConfig (str "unspecified nameserver")) else Ok tt
  end.
Definition validateConfig (cfg : Config) : result dns_error unit :=
  let? _ := each validateNameserver (Nameservers cfg) in
  let? _ := each validateDomain (SearchDomains cfg) in
  if negb (bool_decide (Interface cfg = [])) && negb (validInterface (Interface cfg))
  then Err (EInvalidConfig (str "interface")) else Ok tt.

Definition is_v4 (ns : gostring) : option bool :=
  match Net.ParseIP ns with Some ip => Some (Net.To4 ip) | None => None end.
Definition partitionByFamily (nameservers : list gostring) : list gostring * list gostring :=
  (List.filter (fun ns => bool_decide (is_v4 ns = Some true)) nameservers,
   List.filter (fun ns => bool_decide (is_v4 ns = Some false)) nameservers).

(** ** Reading [resolv.conf] ([resolved.go]) *)

Definition comment_start (l : gostring) : bool := has_prefix l (str "#") || has_prefix l (str ";").
Fixpoint before_comment (fs : list gostring) : list gostring :=
  match fs with
  | [] => []
  | f :: rest => if comment_start f then [] else f :: before_comment rest
  end.
Definition resolv_line (st : State) (raw : gostring) : State :=
  let line := trim_space raw in
  if bool_decide (line = []) || comment_start line then st
  else match before_comment (fields line) with
       | [] => st
       | kw :: args =>
           if bool_decide (kw = str "nameserver") then
             match args with
             | a :: _ => MkState (s_Nameservers st ++ [a]) (s_SearchDomains st)
             | [] => st
             end
           else if bool_decide (kw = str "search") || bool_decide (kw = str "domain")
           then MkState (s_Nameservers st) args else st
       end.
Definition parseResolvConf (data : gostring) : State := foldl resolv_line (MkState [] []) (scan_lines data).

(** ** Resolved ([resolved.go]) *)

Definition resolvConfPath : gostring := str "/run/systemd/resolve/resolv.conf".
Definition resolvedDropInDir : gostring := str "/etc/systemd/resolved.conf.d".
Definition resolvedDropInPath : gostring := resolvedDropInDir ++ str "/10-power-manage.conf".

Definition read_state (path : gostring) : prog (result dns_error State) :=
  let! r := ask (CReadFile path) in
  Ret (match r with Err e => Err (EFs (str "read") e) | Ok data => Ok (parseResolvConf data) end).
Definition resolved_Get : prog (result dns_error State) := read_state resolvConfPath.

Definition resolvectlDNSArgs (iface : gostring) (nameservers : list gostring) : list gostring :=
  [str "dns"; iface] ++ SeparatePositionals [] nameservers.
Definition resolvectlDomainArgs (iface : gostring) (domains : list gostring) : list gostring :=
  [str "domain"; iface] ++ SeparatePositionals [] domains.

Definition managed_comment : gostring :=
  str "# Managed by power-manage-agent " ++ bytes [226; 128; 148] ++ str " do not edit by hand.".
(** A list directive, when there is something to list. *)
Definition directive (key : gostring) (vs : list gostring) : result dns_error gostring :=
  match vs with
  | [] => Ok []
  | _ => let v := join vs (str " ") in
         if contains_any v [NL; CR] then Err (EInvalidConfig (str "newline")) else Ok (key ++ str "=" ++ v ++ [NL])
  end.
Definition renderResolvedDropIn (cfg : Config) : result dns_error gostring :=
  let? dns := directive (str "DNS") (Nameservers cfg) in
  let? domains := directive (str "Domains") (SearchDomains cfg) in
  Ok (managed_comment ++ [NL] ++ str "[Resolve]" ++ [NL] ++ dns ++ domains).

Definition failed (what : gostring) (r : option cmd_error) : option dns_error :=
  match r with Some e => Some (ECmd what e) | None => None end.
(** Run, return its error, or go on. *)
Definition step (what : gostring) (p : prog (option cmd_error)) (k : prog (option dns_error)) : prog (option dns_error) :=
  let! r := p in match failed what r with Some e => Ret (Some e) | None => k end.
Definition fs_step (what : gostring) (op : fs_op) (k : prog (option dns_error)) : prog (option dns_error) :=
  let! r := ask (CFs op) in match r with Some e => Ret (Some (EFs what e)) | None => k end.

Definition resolved_Apply (cfg : Config) : prog (option dns_error) :=
  match validateConfig cfg with
  | Err e => Ret (Some e)
  | Ok _ =>
      if negb (bool_decide (Interface cfg = [])) then
        step (str "resolvectl dns") (runPriv (str "resolvectl") (resolvectlDNSArgs (Interface cfg) (Nameservers cfg))) (
        match SearchDomains cfg with
        | [] => Ret None
        | ds => step (str "resolvectl domain") (runPriv (str "resolvectl") (resolvectlDomainArgs (Interface cfg) ds)) (Ret None)
        end)
      else match renderResolvedDropIn cfg with
           | Err e => Ret (Some e)
           | Ok body =>
               fs_step (str "create") (FsMkdir resolvedDropInDir 493 (str "root") (str "root") true) (
               fs_step (str "write") (FsWriteFile resolvedDropInPath body 420 (str "root") (str "root")) (
               step (str "restart systemd-resolved") (runPriv (str "systemctl") [str "restart"; str "systemd-resolved"]) (Ret None)))
           end
  end.

(** ** NetworkManager ([networkmanager.go]) *)

Definition etcResolvConfPath : gostring := str "/etc/resolv.conf".
Definition nm_Get : prog (result dns_error State) := read_state etcResolvConfPath.

Definition validateConnName (name : gostring) : result dns_error unit :=
  if Runes.contains_control name then Err (EInvalidConfig (str "connection name: control"))
  else if has_prefix name (str "-") then Err (EInvalidConfig (str "connection name: flag")) else Ok tt.

Definition activeConnection (iface : gostring) : prog (result dns_error gostring) :=
  let! r := runRead (str "nmcli") [str "-g"; str "GENERAL.CONNECTION"; str "device"; str "show"; iface] in
  Ret (match r with
       | Err e => Err (ECmd (str "resolve connection") e)
       | Ok out =>
           let conn := trim_space out in
           if bool_decide (conn = []) || bool_decide (conn = str "--") then Err (EInvalidConfig (str "no connection"))
           else let? _ := validateConnName conn in Ok conn
       end).

Definition setting (k : gostring) (vs : list gostring) : list gostring :=
  match vs with [] => [] | _ => [k; join vs (str ",")] end.
Definition nm_modify_args (conn : gostring) (cfg : Config) : list gostring :=
  let '(v4, v6) := partitionByFamily (Nameservers cfg) in
  [str "connection"; str "modify"; conn] ++ setting (str "ipv4.dns") v4 ++ setting (str "ipv6.dns") v6 ++
  match SearchDomains cfg with
  | [] => []
  | ds => let domains := join ds (str ",") in
          [str "ipv4.dns-search"; domains; str "ipv6.dns-search"; domains]
  end.
Definition nm_rollback_args (conn : gostring) : list gostring :=
  [str "connection"; str "modify"; conn; str "ipv4.dns"; []; str "ipv6.dns"; [];
   str "ipv4.dns-search"; []; str "ipv6.dns-search"; []].

Definition nm_Apply (cfg : Config) : prog (option dns_error) :=
  match validateConfig cfg with
  | Err e => Ret (Some e)
  | Ok _ =>
      if bool_decide (Interface cfg = []) then Ret (Some (EInvalidConfig (str "interface required")))
      else
        let! c := activeConnection (Interface cfg) in
        match c with
        | Err e => Ret (Some e)
        | Ok conn =>
            step (str "nmcli connection modify") (runPriv (str "nmcli") (nm_modify_args conn cfg)) (
            let! r := runPriv (str "nmcli") [str "connection"; str "up"; conn] in
            match r with
            | Some e =>
                let! _ := runPriv (str "nmcli") (nm_rollback_args conn) in
                Ret (Some (ECmd (str "nmcli connection up") e))
            | None => Ret None
            end)
        end
  end.

Definition Get (b : Backend) : prog (result dns_error State) :=
  match b with Resolved => resolved_Get | NetworkManager => nm_Get end.
Definition Apply (b : Backend) (cfg : Config) : prog (option dns_error) :=
  match b with Resolved => resolved_Apply cfg | NetworkManager => nm_Apply cfg end.

End Dns.
