(* ===== verification/DnsOps.v ===== *)
(** * DNS: what reaches the tools ([src/sys/dns])

    A validated configuration cannot inject an option or a directive, an invalid one
    has no effect, and [resolv.conf] is read back. *)
From S2P Require Import Prelude Paths Exec HostProg Words Json Net Repo Ini Pkg PkgPacman PkgPins HostCmd Dns.

Module DnsOps.
Import Exec HostProg HostCmd Words Dns.

(** ** What validation gives *)

Definition domain_byte (c : ascii) : bool := Repo.alnum c || Repo.one_of (str ".-") c.
Definition iface_byte (c : ascii) : bool := Repo.alnum c || Repo.one_of (str "._@-") c.

Lemma alnum_visible c : Repo.alnum c = true -> visible c = true /\ c <> "-"%char.
Proof. destruct c as [[] [] [] [] [] [] [] []]; vm_compute; by try split. Qed.
Lemma domain_visible c : domain_byte c = true -> visible c = true.
Proof. destruct c as [[] [] [] [] [] [] [] []]; by vm_compute. Qed.
Lemma ip_byte_visible c : Net.ip_byte c = true -> visible c = true.
Proof. destruct c as [[] [] [] [] [] [] [] []]; by vm_compute. Qed.

(** A nameserver is a non-empty word of address characters. *)
Lemma nameserver_word ns : validateNameserver ns = Ok tt -> word ns = true /\ dashed ns = false.
Proof.
  unfold validateNameserver. destruct (Net.ParseIP ns) as [ip|] eqn:E; [|done]. intros _.
  apply Net.ParseIP_bytes in E as [Hb Hn]. split; [|by eapply undashed_class; [|exact Hb]].
  unfold word. rewrite bool_decide_false by done. by eapply forallb_mono; [apply ip_byte_visible|].
Qed.

Lemma label_bytes l : validDomainLabel l = true -> forallb domain_byte l = true /\ l <> [] /\ dashed l = false.
Proof.
  unfold validDomainLabel. destruct l as [|c l]; [done|]. intros [[[Hc Hl]%andb_prop _]%andb_prop _]%andb_prop.
  split_and!; [|done|apply undashed_cons, (alnum_visible c Hc)]. cbn [forallb]. unfold domain_byte at 1. rewrite Hc. cbn.
  eapply forallb_mono; [|exact Hl]. intros x [Hx|Hx]%orb_prop; unfold domain_byte; [by rewrite Hx|].
  apply bool_decide_eq_true in Hx as ->. by_eval.
Qed.

Lemma trim_suffix_cases s p : trim_suffix s p = s \/ s = trim_suffix s p ++ p.
Proof.
  destruct (has_suffix s p) eqn:E; [right; by apply trim_suffix_app|left]. unfold trim_suffix. by rewrite E.
Qed.

Lemma domain_bytes d : validateDomain d = Ok tt -> forallb domain_byte d = true /\ d <> [] /\ dashed d = false.
Proof.
  unfold validateDomain. case_bool_decide as Hd; [done|]. case_match; [done|]. case_match; [done|].
  destruct (forallb validDomainLabel _) eqn:Hl; [|done]. intros _.
  set (t := trim_suffix d (str ".")) in *. destruct (split_byte t "."%char) as [|l ls] eqn:Es.
  { by destruct t; cbn in Es; repeat case_match. }
  pose proof (Net.split_join_inv _ _ _ Es) as Ht.
  assert (Hall : Forall (fun w => forallb domain_byte w = true /\ w <> [] /\ dashed w = false) (l :: ls)).
  { apply list.Forall_forall. intros w Hw. apply label_bytes. rewrite forallb_forall in Hl. by apply Hl, list_elem_of_In. }
  assert (Hb : forallb domain_byte t = true).
  { rewrite Ht. apply forallb_join; [by_eval|]. eapply list.Forall_impl; [exact Hall|]. by intros w [? _]. }
  assert (Hdash : dashed t = false).
  { rewrite Ht. apply undashed_join. eapply list.Forall_impl; [exact Hall|]. by intros w [_ ?]. }
  assert (Hne : t <> []).
  { rewrite Ht. inversion Hall as [|? ? (_ & Hn & _)]; subst. destruct l; [done|]. by destruct ls. }
  assert (forallb domain_byte d = true /\ dashed d = false) as [Hdb Hdd].
  { destruct (trim_suffix_cases d (str ".")) as [E|E]; fold t in E; [by rewrite <- E|].
    rewrite E, forallb_app, Hb. split; [by_eval|]. destruct t as [|c t']; [done|]. exact Hdash. }
  done.
Qed.
Lemma domain_word d : validateDomain d = Ok tt -> word d = true /\ dashed d = false.
Proof.
  intros (Hb & Hn & Hd)%domain_bytes. split; [|done]. apply visible_word; [done|].
  by eapply forallb_mono; [apply domain_visible|].
Qed.

Lemma interface_word i : validInterface i = true -> dashed i = false.
Proof.
  unfold validInterface. destruct i as [|c i]; [done|]. intros [[Hc _]%andb_prop _]%andb_prop.
  apply undashed_cons, (alnum_visible c Hc).
Qed.

Lemma validateConfig_ok cfg :
  validateConfig cfg = Ok tt ->
  Forall (fun w => word w = true /\ dashed w = false) (Nameservers cfg) /\
  Forall (fun w => word w = true /\ dashed w = false) (SearchDomains cfg) /\
  dashed (Interface cfg) = false.
Proof.
  unfold validateConfig. intros [H1 [H2 H3]%result_seq_ok]%result_seq_ok.
  apply each_ok in H1, H2. split_and!.
  - eapply list.Forall_impl; [exact H1|]. apply nameserver_word.
  - eapply list.Forall_impl; [exact H2|]. apply domain_word.
  - case_bool_decide as Hi; [by rewrite Hi|]. destruct (validInterface _) eqn:E; [|done]. by apply interface_word.
Qed.

(** ** Command lines *)

Definition own : list gostring := [str "--"; str "-g"].

Lemma nonempty_words ws :
  Forall (fun w => word w = true /\ dashed w = false) ws -> Forall (fun w => w <> [] /\ dashed w = false) ws.
Proof. intros H. eapply list.Forall_impl; [exact H|]. intros w [[? _]%word_spec ?]. done. Qed.

Lemma setting_safe k vs :
  dashed k = false -> Forall (fun w => w <> [] /\ dashed w = false) vs ->
  Forall (fun a => dashed a = true -> a ∈ own) (setting k vs).
Proof.
  intros Hk Hv. unfold setting. destruct vs as [|v vs]; [constructor|]. pose proof (undashed_join _ (str ",") Hv).
  safe_args.
Qed.
Lemma filter_words (f : gostring -> bool) ws :
  Forall (fun w => w <> [] /\ dashed w = false) ws -> Forall (fun w => w <> [] /\ dashed w = false) (List.filter f ws).
Proof.
  rewrite !list.Forall_forall. intros H w [Hw _]%elem_of_List_filter. by apply H.
Qed.

Lemma modify_args_safe conn cfg :
  dashed conn = false -> validateConfig cfg = Ok tt ->
  Forall (fun a => dashed a = true -> a ∈ own) (nm_modify_args conn cfg).
Proof.
  intros Hc (Hn & Hs & _)%validateConfig_ok. apply nonempty_words in Hn, Hs.
  unfold nm_modify_args, partitionByFamily. cbn [app].
  do 3 (apply List.Forall_cons; [first [by apply undashed|by apply safe_literal]|]).
  apply list.Forall_app; split; [by apply setting_safe; [|by apply filter_words]|].
  apply list.Forall_app; split; [by apply setting_safe; [|by apply filter_words]|].
  destruct (SearchDomains cfg) as [|d ds]; [constructor|]. pose proof (undashed_join _ (str ",") Hs). safe_args.
Qed.

Lemma conn_name_undashed n : validateConnName n = Ok tt -> dashed n = false.
Proof. unfold validateConnName, dashed. by destruct (Runes.contains_control n), (has_prefix n _). Qed.

Abbreviation safe := (wp (on_run (safe_call own))).

Lemma step_safe what name args k :
  Forall (fun a => dashed a = true -> a ∈ own) args -> safe k (fun _ => True) ->
  safe (step what (runPriv name args) k) (fun _ => True).
Proof.
  intros Ha Hk. unfold step. wp_step. apply runPriv_wp; [exact Ha|]. intros [e|]; [done|exact Hk].
Qed.
Lemma fs_step_safe what op k : safe k (fun _ => True) -> safe (fs_step what op k) (fun _ => True).
Proof. intros Hk. unfold fs_step. wp_step. cbn [ask wp]. split; [done|]. by intros [e|]. Qed.

Lemma Apply_safe b cfg : safe (Apply b cfg) (fun _ => True).
Proof.
  destruct b; cbn [Apply].
  - unfold resolved_Apply. destruct (validateConfig cfg) as [[]|] eqn:Hv; [|done].
    apply validateConfig_ok in Hv as (Hn & Hs & Hi). case_bool_decide; cbn [negb].
    + destruct (renderResolvedDropIn cfg); [|done]. do 2 apply fs_step_safe. apply step_safe; [safe_args|done].
    + assert (Hwords : forall ws, Forall (fun w => word w = true /\ dashed w = false) ws ->
        Forall (fun a => dashed a = true -> a ∈ own) ws).
      { intros ws H0. eapply list.Forall_impl; [exact H0|]. intros w [_ Hw]. by apply undashed. }
      apply step_safe; [unfold resolvectlDNSArgs, SeparatePositionals, EndOfOptions; cbn [app]; safe_args; by apply Hwords|].
      destruct (SearchDomains cfg) as [|d ds] eqn:Ed; [done|]. rewrite <- Ed in *.
      apply step_safe; [|done]. unfold resolvectlDomainArgs, SeparatePositionals, EndOfOptions. cbn [app].
      safe_args. by apply Hwords.
  - unfold nm_Apply. destruct (validateConfig cfg) as [[]|] eqn:Hv; [|done]. case_bool_decide; [done|].
    pose proof (validateConfig_ok _ Hv) as (_ & _ & Hi). unfold activeConnection. wp_step. wp_step.
    apply runRead_wp; [safe_args|]. intros [out|e]; [|done]. cbn [wp]. destruct (bool_decide _ || bool_decide _); [exact I|].
    destruct (validateConnName (trim_space out)) as [[]|] eqn:Hc; [|done]. cbn [result_bind].
    apply conn_name_undashed in Hc. apply step_safe; [by apply modify_args_safe|]. wp_step.
    apply runPriv_wp; [safe_args|]. intros [e|]; [|done]. wp_step. apply runPriv_wp; [|done].
    cbn [request_of on_run safe_call Args priv]. unfold nm_rollback_args. safe_args.
Qed.

(** Whatever the host answers, connection names included, an argument that starts with
    a dash is one of the package's own options. *)
Theorem dns_args_confined {S} (h : handler S) s b cfg :
  Forall (fun ci => safe_call own ci.1 ci.2) (commands h s (Apply b cfg)).
Proof. apply (wp_commands (safe_call own) h s _ _ (Apply_safe b cfg)). Qed.

(** An invalid configuration has no effect at all. *)
Lemma invalid_no_effect {S} (h : handler S) s b cfg e :
  validateConfig cfg = Err e -> asked h s (Apply b cfg) = [] /\ (run h s (Apply b cfg)).2 = Some e.
Proof. intros H. by destruct b; cbn [Apply]; unfold resolved_Apply, nm_Apply; rewrite H. Qed.

(** ** The drop-in file *)

Definition blank_or_visible (c : ascii) : bool := visible c || bool_decide (c = " "%char).
Lemma words_visible {P : gostring -> Prop} ws :
  Forall (fun w => word w = true /\ P w) ws -> forallb blank_or_visible (join ws (str " ")) = true.
Proof.
  intros H. apply forallb_join; [done|]. eapply list.Forall_impl; [exact H|]. intros w [[_ Hw]%word_spec _]. unfold blank_or_visible.
  eapply forallb_mono; [|exact Hw]. by intros c ->.
Qed.

Definition list_items (key : gostring) (vs : list gostring) : list Ini.item :=
  match vs with [] => [] | _ => [Ini.IEntry key (join vs (str " "))] end.

Lemma directive_ok key vs :
  Forall (fun w => word w = true /\ dashed w = false) vs -> directive key vs = Ok (Ini.text_of (list_items key vs)).
Proof.
  intros H. unfold directive, list_items. destruct vs as [|v vs]; [done|].
  rewrite (contains_any_class _ _ _ (words_visible _ H)) by by_eval.
  unfold Ini.text_of, Ini.unlines. cbn [map Ini.item_line concat]. rewrite app_nil_r, <- app_assoc. done.
Qed.

Lemma list_items_ok key vs :
  Ini.item_ok (Ini.IEntry key []) -> Forall (fun w => word w = true /\ dashed w = false) vs ->
  Forall Ini.item_ok (list_items key vs).
Proof.
  intros (Hk & He & Hn & _) H. unfold list_items. destruct vs as [|v vs]; [constructor|].
  apply list.Forall_singleton. split_and!; [done..|].
  pose proof (words_visible _ H) as Hv. rewrite forallb_forall in Hv.
  intros Hin%list_elem_of_In%Hv. done.
Qed.

Lemma dropin_text cfg :
  validateConfig cfg = Ok tt ->
  renderResolvedDropIn cfg = Ok (Ini.text_of (
    [Ini.IComment (tail managed_comment); Ini.IHeader (str "Resolve")] ++
    list_items (str "DNS") (Nameservers cfg) ++ list_items (str "Domains") (SearchDomains cfg))).
Proof.
  intros (Hn & Hs & _)%validateConfig_ok. unfold renderResolvedDropIn. rewrite !directive_ok by done.
  cbn [result_bind]. f_equal. rewrite !Ini.text_of_app. done.
Qed.

Definition resolved_entries (cfg : Config) : list Ini.entry :=
  Ini.entries_of (str "Resolve") (list_items (str "DNS") (Nameservers cfg) ++ list_items (str "Domains") (SearchDomains cfg)).

(** Without an interface a valid configuration is written to the drop-in: when the file
    operations and the restart succeed the run succeeds, the file holds one section with
    the nameservers and the domains and no other directive, and the lists split back. *)
Theorem dropin_exact {S} (h : handler S) (s s1 s2 s3 : S) cfg out :
  validateConfig cfg = Ok tt -> Interface cfg = [] ->
  h _ s (CFs (FsMkdir resolvedDropInDir 493 (str "root") (str "root") true)) = (s1, None) ->
  (forall body, h _ s1 (CFs (FsWriteFile resolvedDropInPath body 420 (str "root") (str "root"))) = (s2, None)) ->
  succeeds h s2 (priv (str "systemctl") [str "restart"; str "systemd-resolved"]) out s3 ->
  (run h s (Apply Resolved cfg)).2 = None /\
  exists body,
    QFs (FsWriteFile resolvedDropInPath body 420 (str "root") (str "root")) ∈ asked h s (Apply Resolved cfg) /\
    Ini.ini body = resolved_entries cfg /\
    fields (join (Nameservers cfg) (str " ")) = Nameservers cfg /\
    fields (join (SearchDomains cfg) (str " ")) = SearchDomains cfg.
Proof.
  intros Hv Hi H1 H2 (stderr & H3). pose proof (dropin_text cfg Hv) as Hr. pose proof (validateConfig_ok _ Hv) as (Hn & Hs & _).
  cbn [Apply]. unfold resolved_Apply. rewrite Hv, bool_decide_true by done. cbn [negb]. rewrite Hr.
  set (body := Ini.text_of _) in *. unfold fs_step, step, runPriv. split.
  - cbn [bind ask run]. rewrite H1. cbn [bind ask run]. rewrite H2. cbn [bind ask run]. by rewrite H3.
  - exists body. split_and!.
    + unfold asked. cbn [bind ask asked]. rewrite H1. cbn [bind ask asked]. right. left.
    + unfold body. rewrite Ini.ini_text_of; [done|]. apply list.Forall_app; split.
      * apply List.Forall_cons; [by apply (bool_decide_unpack _)|]. apply list.Forall_singleton. by apply (bool_decide_unpack _).
      * apply list.Forall_app; split; apply list_items_ok; try done; split_and!; by apply (bool_decide_unpack _).
    + apply fields_join. eapply list.Forall_impl; [exact Hn|]. by intros w [? _].
    + apply fields_join. eapply list.Forall_impl; [exact Hs|]. by intros w [? _].
Qed.

Definition sample : Config := MkConfig [str "192.0.2.1"; str "2001:db8::1"] [str "corp.example"] [].
Definition ready : handler unit := command_host (fun s _ _ => (s, (MkResult 0 [] [], None))) absent absent.
Lemma dropin_exact_witness :
  (run ready tt (Apply Resolved sample)).2 = None /\
  exists body,
    QFs (FsWriteFile resolvedDropInPath body 420 (str "root") (str "root")) ∈ asked ready tt (Apply Resolved sample) /\
    Ini.ini body = resolved_entries sample /\
    fields (join (Nameservers sample) (str " ")) = Nameservers sample /\
    fields (join (SearchDomains sample) (str " ")) = SearchDomains sample.
Proof.
  apply (dropin_exact ready tt tt tt tt sample []); try reflexivity.
  by exists [].
Defined.

(** ** Reading [resolv.conf] back *)

Lemma words_last sep ws :
  ws <> [] -> Forall (fun w => word w = true) ws -> exists pre c, join ws sep = pre ++ [c] /\ visible c = true.
Proof.
  intros Hn H. induction H as [|w ws [Hw Hv]%word_spec _ IH]; [done|]. destruct ws as [|v ws].
  - destruct w as [|c w _] using rev_ind; [done|]. exists w, c. split; [done|].
    rewrite forallb_app in Hv. apply andb_prop in Hv as [_ Hv]. cbn in Hv. by rewrite andb_true_r in Hv.
  - destruct IH as (pre & c & E & Hc); [done|]. exists (w ++ sep ++ pre), c. split; [|done].
    change (join (w :: v :: ws) sep) with (w ++ sep ++ join (v :: ws) sep). by rewrite E, !app_assoc.
Qed.

(** A line of words is not trimmed. *)
Lemma trim_words ws : Forall (fun w => word w = true) ws -> trim_space (join ws (str " ")) = join ws (str " ").
Proof.
  intros H. destruct ws as [|w ws]; [done|]. destruct (words_last (str " ") (w :: ws)) as (pre & d & E & Hd); [done..|].
  inversion H as [|? ? [Hw Hv]%word_spec _]; subst. destruct w as [|c w]; [done|].
  apply andb_prop in Hv as [Hc _].
  assert (Hj : exists t, join ((c :: w) :: ws) (str " ") = c :: t) by (destruct ws; eauto). destruct Hj as [t Ht].
  rewrite Ht in *. apply trim_space_visible; [done|]. by rewrite E, last_last.
Qed.

Lemma before_comment_all ws : Forall (fun w => comment_start w = false) ws -> before_comment ws = ws.
Proof. induction 1 as [|w ws Hw _ IH]; [done|]. cbn [before_comment]. by rewrite Hw, IH. Qed.

Lemma resolv_words st kw args :
  Forall (fun w => word w = true /\ comment_start w = false) (kw :: args) ->
  resolv_line st (join (kw :: args) (str " ")) =
    if bool_decide (kw = str "nameserver") then
      match args with a :: _ => MkState (s_Nameservers st ++ [a]) (s_SearchDomains st) | [] => st end
    else if bool_decide (kw = str "search") || bool_decide (kw = str "domain")
    then MkState (s_Nameservers st) args else st.
Proof.
  intros [Hw Hc]%list.Forall_and. unfold resolv_line. rewrite trim_words, fields_join, before_comment_all by done.
  inversion Hw as [|? ? [Hn Hv]%word_spec _]; subst. inversion Hc; subst. destruct kw as [|c kw]; [done|].
  assert (Hj : exists t, join ((c :: kw) :: args) (str " ") = c :: t) by (destruct args; eauto). destruct Hj as [t ->].
  rewrite bool_decide_false by done. assert (comment_start (c :: t) = false) as ->; [|done].
  unfold comment_start in *. cbn in *. done.
Qed.

(** What a resolver writes: a line for each nameserver and one for the domains. *)
Definition resolv_lines (st : State) : list gostring :=
  ((fun n => join [str "nameserver"; n] (str " ")) <$> s_Nameservers st) ++
  match s_SearchDomains st with [] => [] | ds => [join (str "search" :: ds) (str " ")] end.

Lemma visible_clean s : forallb blank_or_visible s = true -> (NL ∉ s) /\ (CR ∉ s).
Proof. rewrite forallb_forall. intros H. split; by intros Hin%list_elem_of_In%H. Qed.

Lemma valid_words st :
  each validateNameserver (s_Nameservers st) = Ok tt -> each validateDomain (s_SearchDomains st) = Ok tt ->
  Forall (fun w => word w = true /\ comment_start w = false) (s_Nameservers st ++ s_SearchDomains st).
Proof.
  rewrite !each_ok. intros H1 H2. apply list.Forall_app; split; eapply list.Forall_impl; [exact H1| |exact H2|].
  - intros w Hw. split; [by apply nameserver_word|]. unfold validateNameserver in Hw.
    destruct (Net.ParseIP w) eqn:E; [|done]. apply Net.ParseIP_bytes in E as [Hb _].
    destruct w as [|c w]; [done|]. apply andb_prop in Hb as [Hb _]. by destruct c as [[] [] [] [] [] [] [] []].
  - intros w Hw. split; [by apply domain_word|]. apply domain_bytes in Hw as (Hb & _).
    destruct w as [|c w]; [done|]. apply andb_prop in Hb as [Hb _]. by destruct c as [[] [] [] [] [] [] [] []].
Qed.

(** Resolvers and domains that pass the package's own validation are read back from a
    [resolv.conf] that lists them, in order. *)
Theorem resolv_conf_roundtrip st :
  each validateNameserver (s_Nameservers st) = Ok tt -> each validateDomain (s_SearchDomains st) = Ok tt ->
  Forall PkgPins.line_fits (resolv_lines st) ->
  parseResolvConf (Exec.text (resolv_lines st)) = st.
Proof.
  intros H1 H2 Hf. pose proof (valid_words _ H1 H2) as [Hn Hd]%list.Forall_app.
  unfold parseResolvConf. rewrite PkgPins.scan_lines_text.
  - destruct st as [ns ds]. unfold resolv_lines in *. cbn [s_Nameservers s_SearchDomains] in *. rewrite foldl_app.
    assert (Hns : forall acc, foldl resolv_line (MkState acc []) ((fun n => join [str "nameserver"; n] (str " ")) <$> ns) = MkState (acc ++ ns) []).
    { clear H1 Hf. induction Hn as [|n ns Hw _ IH]; intros acc; [by rewrite app_nil_r|]. cbn [fmap list_fmap foldl].
      rewrite resolv_words; [|by repeat (apply List.Forall_cons; [done|])]. rewrite bool_decide_true by done.
      cbn [s_Nameservers s_SearchDomains]. rewrite IH, <- app_assoc. done. }
    rewrite Hns. cbn [app]. destruct ds as [|d ds]; [done|]. cbn [foldl].
    rewrite resolv_words by (apply List.Forall_cons; done). done.
  - assert (Hv : Forall (fun l => forallb blank_or_visible l = true) (resolv_lines st)).
    { unfold resolv_lines. apply list.Forall_app; split.
      - apply list.Forall_fmap. eapply list.Forall_impl; [exact Hn|]. intros n Hw. apply (words_visible (P := fun w => comment_start w = false)).
        repeat (apply List.Forall_cons; [done|]). apply List.Forall_nil.
      - destruct (s_SearchDomains st); [constructor|]. apply list.Forall_singleton. apply (words_visible (P := fun w => comment_start w = false)).
        by apply List.Forall_cons. }
    rewrite list.Forall_forall in Hf, Hv |- *. intros l Hl. destruct (visible_clean l (Hv l Hl)). by split_and!; [..|apply Hf].
Qed.

Lemma resolv_conf_roundtrip_witness :
  let st := MkState [str "192.0.2.1"; str "2001:db8::1"] [str "corp.example"; str "lab.example."] in
  parseResolvConf (Exec.text (resolv_lines st)) = st.
Proof.
  apply (resolv_conf_roundtrip (MkState [str "192.0.2.1"; str "2001:db8::1"] [str "corp.example"; str "lab.example."]));
    [reflexivity..|]. repeat (apply List.Forall_cons; [by vm_compute|]). constructor.
Defined.

(** When the activation fails the undo sets the four resolver fields to nothing, also
    those that held other servers before the change. *)
Definition up_fails : handler unit :=
  command_host (fun s c _ =>
    (s, (if bool_decide (str "up" ∈ Args c) then MkResult 4 [] [] else MkResult 0 (str "Wired") [], None))) absent absent.
Lemma rollback_erases :
  (Args ∘ fst) <$> commands up_fails tt (Apply NetworkManager (MkConfig [str "192.0.2.1"] [] (str "eth0"))) =
    [[str "-g"; str "GENERAL.CONNECTION"; str "device"; str "show"; str "eth0"];
     [str "connection"; str "modify"; str "Wired"; str "ipv4.dns"; str "192.0.2.1"];
     [str "connection"; str "up"; str "Wired"];
     [str "connection"; str "modify"; str "Wired"; str "ipv4.dns"; []; str "ipv6.dns"; [];
      str "ipv4.dns-search"; []; str "ipv6.dns-search"; []]].
Proof. by vm_compute. Qed.
End DnsOps.
