(* ===== verification/NetConf.v ===== *)
(** * Interface configuration ([src/sys/netconfig])

    The NetworkManager and systemd-networkd backends: validation, the [.network] unit,
    the [nmcli] properties, and the kernel state read from [ip -j]. *)
From S2P Require Import Prelude Paths Exec HostProg Words Json Net Repo Ini HostCmd Dns.

Module NetConf.
Import Exec HostProg HostCmd.

(** ** Data ([netconfig.go]) *)

Inductive Backend := NetworkManager | SystemdNetworkd.
Definition backend_of (b : Z) : option Backend :=
  match b with 1%Z => Some NetworkManager | 2%Z => Some SystemdNetworkd | _ => None end.
Definition String (b : Z) : gostring :=
  match backend_of b with
  | Some NetworkManager => str "networkmanager"
  | Some SystemdNetworkd => str "systemd-networkd"
  | None => str "Backend(" ++ Json.int_lit b ++ str ")"
  end.

(** [AddressMode] is an [int]; the zero value is neither. *)
Definition DHCP : Z := 1.
Definition Static : Z := 2.

Record Route := MkRoute { Destination : gostring; r_Gateway : gostring; Metric : Z }.
Record InterfaceConfig := MkInterfaceConfig {
  Name : gostring; Mode : Z; Addresses : list gostring; Gateway : gostring;
  DNS : list gostring; MTU : Z; Routes : list Route
}.

Inductive nc_error :=
| EUnknownBackend (b : Z)
| ERunnerRequired
| ENewFS (e : fs_err)
| EInvalidConfig (why : gostring)
| EFs (what : gostring) (e : fs_err)
| ECmd (what : gostring) (e : cmd_error)
| EJson (what : gostring).

(** [newFS] is the result of building the file manager. *)
Definition New (b : Z) (runner : bool) (newFS : option fs_err) : result nc_error Backend :=
  if negb runner then Err ERunnerRequired
  else match backend_of b with
       | Some NetworkManager => Ok NetworkManager
       | Some SystemdNetworkd => match newFS with Some e => Err (ENewFS e) | None => Ok SystemdNetworkd end
       | None => Err (EUnknownBackend b)
       end.

(** ** Detection ([detect.go]) *)

Definition Detect : prog (list Backend) :=
  let! n := ask (CLookPath (str "nmcli")) in
  let! d := ask (CLookPath (str "networkctl")) in
  Ret (match n with Some _ => [NetworkManager] | None => [] end ++ match d with Some _ => [SystemdNetworkd] | None => [] end).

(** ** Validation ([validate.go]) *)

Definition validInterface (s : gostring) : bool :=
  match s with
  | c :: rest => Repo.alnum c && forallb (fun c => Repo.alnum c || Repo.one_of (str "._@-") c) rest && (length rest <=? 14)
  | [] => false
  end.
Definition validateInterfaceName (name : gostring) : result nc_error unit :=
  if validInterface name then Ok tt else Err (EInvalidConfig (str "interface")).

Definition validateRoute (rt : Route) : result nc_error unit :=
  if negb (bool_decide (Destination rt = str "default")) && bool_decide (Net.ParseCIDR (Destination rt) = None)
  then Err (EInvalidConfig (str "route destination"))
  else if bool_decide (Net.ParseIP (r_Gateway rt) = None) then Err (EInvalidConfig (str "route gateway"))
  else if (Metric rt <? 0)%Z then Err (EInvalidConfig (str "route metric")) else Ok tt.

(** The families seen so far. *)
Fixpoint check_addresses (v4 v6 : bool) (addrs : list gostring) : result nc_error (bool * bool) :=
  match addrs with
  | [] => Ok (v4, v6)
  | a :: rest =>
      match Net.ParseCIDR a with
      | None => Err (EInvalidConfig (str "address"))
      | Some (ip, _) => if Net.To4 ip then check_addresses true v6 rest else check_addresses v4 true rest
      end
  end.
Definition check_gateway (cfg : InterfaceConfig) (hasV4 hasV6 : bool) : result nc_error unit :=
  if bool_decide (Gateway cfg = []) then Ok tt
  else match Net.ParseIP (Gateway cfg) with
       | None => Err (EInvalidConfig (str "gateway"))
       | Some gw =>
           if (Mode cfg =? Static)%Z && ((Net.To4 gw && negb hasV4) || (negb (Net.To4 gw) && negb hasV6))
           then Err (EInvalidConfig (str "gateway family")) else Ok tt
       end.
Definition check_dns (d : gostring) : result nc_error unit :=
  match Net.ParseIP d with None => Err (EInvalidConfig (str "DNS")) | Some _ => Ok tt end.

Definition validateInterfaceConfig (cfg : InterfaceConfig) : result nc_error unit :=
  let? _ := validateInterfaceName (Name cfg) in
  if negb (Mode cfg =? DHCP)%Z && negb (Mode cfg =? Static)%Z then Err (EInvalidConfig (str "address mode"))
  else if (Mode cfg =? Static)%Z && bool_decide (Addresses cfg = []) then Err (EInvalidConfig (str "static mode"))
  else
    let? fam := check_addresses false false (Addresses cfg) in
    let? _ := check_gateway cfg fam.1 fam.2 in
    let? _ := each check_dns (DNS cfg) in
    if negb (MTU cfg =? 0)%Z && ((MTU cfg <? 68)%Z || (65535 <? MTU cfg)%Z) then Err (EInvalidConfig (str "MTU"))
    else each validateRoute (Routes cfg).

Definition addr_family (a : gostring) : option bool :=
  match Net.ParseCIDR a with Some (ip, _) => Some (Net.To4 ip) | None => None end.
Definition ip_family (s : gostring) : option bool :=
  match Net.ParseIP s with Some ip => Some (Net.To4 ip) | None => None end.
Definition partition_by (family : gostring -> option bool) (l : list gostring) : list gostring * list gostring :=
  (List.filter (fun a => bool_decide (family a = Some true)) l,
   List.filter (fun a => bool_decide (family a = Some false)) l).
Definition partitionAddrsByFamily : list gostring -> list gostring * list gostring := partition_by addr_family.
Definition partitionIPsByFamily : list gostring -> list gostring * list gostring := partition_by ip_family.

(** ** Networkd ([networkd.go]) *)

Definition networkDir : gostring := str "/etc/systemd/network".
Definition line (s : gostring) : gostring := s ++ [NL].

Definition render_route (rt : Route) : gostring :=
  [NL] ++ line (str "[Route]") ++
  (if negb (bool_decide (Destination rt = str "default")) then line (str "Destination=" ++ Destination rt) else []) ++
  line (str "Gateway=" ++ r_Gateway rt) ++
  (if negb (Metric rt =? 0)%Z then line (str "Metric=" ++ Json.int_lit (Metric rt)) else []).

Definition renderNetworkUnit (cfg : InterfaceConfig) : gostring :=
  line Dns.managed_comment ++
  line (str "[Match]") ++ line (str "Name=" ++ Name cfg) ++ [NL] ++
  line (str "[Network]") ++
  (if (Mode cfg =? DHCP)%Z then line (str "DHCP=yes")
   else concat ((fun a => line (str "Address=" ++ a)) <$> Addresses cfg) ++
        (if negb (bool_decide (Gateway cfg = [])) then line (str "Gateway=" ++ Gateway cfg) else [])) ++
  concat ((fun d => line (str "DNS=" ++ d)) <$> DNS cfg) ++
  (if negb (MTU cfg =? 0)%Z then [NL] ++ line (str "[Link]") ++ line (str "MTUBytes=" ++ Json.int_lit (MTU cfg)) else []) ++
  concat (render_route <$> Routes cfg).

Definition unit_path (cfg : InterfaceConfig) : gostring := networkDir ++ str "/" ++ Name cfg ++ str ".network".

(** Run, return its error, or go on. *)
Definition step (what : gostring) (p : prog (option cmd_error)) (k : prog (option nc_error)) : prog (option nc_error) :=
  let! r := p in match r with Some e => Ret (Some (ECmd what e)) | None => k end.

Definition networkd_Apply (cfg : InterfaceConfig) : prog (option nc_error) :=
  match validateInterfaceConfig cfg with
  | Err e => Ret (Some e)
  | Ok _ =>
      let! w := ask (CFs (FsWriteFile (unit_path cfg) (renderNetworkUnit cfg) 420 (str "root") (str "root"))) in
      match w with
      | Some e => Ret (Some (EFs (str "write") e))
      | None => step (str "networkctl reload") (runPriv (str "networkctl") [str "reload"]) (Ret None)
      end
  end.

(** ** NetworkManager ([networkmanager.go]) *)

Definition activeConnection (iface : gostring) : prog (result nc_error gostring) :=
  let! r := runRead (str "nmcli") [str "-g"; str "GENERAL.CONNECTION"; str "device"; str "show"; iface] in
  Ret (match r with
       | Err e => Err (ECmd (str "resolve connection") e)
       | Ok out =>
           let conn := trim_space out in
           if bool_decide (conn = []) || bool_decide (conn = str "--") then Err (EInvalidConfig (str "no connection"))
           else Ok conn
       end).

(** A list property, when there is something to list. *)
Definition listed (key : gostring) (vs : list gostring) : list gostring :=
  match vs with [] => [] | _ => [key; join vs (str ",")] end.

Definition route_dst (isV4 : bool) (rt : Route) : gostring :=
  if bool_decide (Destination rt = str "default") then (if isV4 then str "0.0.0.0/0" else str "::/0") else Destination rt.
Definition route_text (isV4 : bool) (rt : Route) : gostring :=
  route_dst isV4 rt ++ str " " ++ r_Gateway rt ++ (if negb (Metric rt =? 0)%Z then str " " ++ Json.int_lit (Metric rt) else []).
(** [To4] of an address that does not parse is nil. *)
Definition gateway_v4 (rt : Route) : bool := bool_decide (ip_family (r_Gateway rt) = Some true).
Definition nmRoutesByFamily (routes : list Route) : list gostring * list gostring :=
  (route_text true <$> List.filter gateway_v4 routes,
   route_text false <$> List.filter (fun rt => negb (gateway_v4 rt)) routes).

(** The addressing properties of one family. *)
Definition manual (fam : string) (addrs : list gostring) (gw : gostring) : list gostring :=
  match addrs with
  | [] => []
  | _ => [str (fam ++ ".method"); str "manual"; str (fam ++ ".addresses"); join addrs (str ",")] ++
         (if negb (bool_decide (gw = [])) then [str (fam ++ ".gateway"); gw] else [])
  end.

Definition nmModifyArgs (cfg : InterfaceConfig) : list gostring :=
  (if (Mode cfg =? DHCP)%Z then
     [str "ipv4.method"; str "auto"; str "ipv4.addresses"; []; str "ipv4.gateway"; [];
      str "ipv6.method"; str "auto"; str "ipv6.addresses"; []; str "ipv6.gateway"; []]
   else
     let '(v4addr, v6addr) := partitionAddrsByFamily (Addresses cfg) in
     let v4gw := bool_decide (ip_family (Gateway cfg) = Some true) in
     let gwV4 := if negb (bool_decide (Gateway cfg = [])) && v4gw then Gateway cfg else [] in
     let gwV6 := if negb (bool_decide (Gateway cfg = [])) && negb v4gw then Gateway cfg else [] in
     manual "ipv4" v4addr gwV4 ++ manual "ipv6" v6addr gwV6) ++
  (let '(v4dns, v6dns) := partitionIPsByFamily (DNS cfg) in listed (str "ipv4.dns") v4dns ++ listed (str "ipv6.dns") v6dns) ++
  (if negb (MTU cfg =? 0)%Z then [str "802-3-ethernet.mtu"; Json.int_lit (MTU cfg)] else []) ++
  (let '(v4r, v6r) := nmRoutesByFamily (Routes cfg) in listed (str "ipv4.routes") v4r ++ listed (str "ipv6.routes") v6r).

Definition nm_Apply (cfg : InterfaceConfig) : prog (option nc_error) :=
  match validateInterfaceConfig cfg with
  | Err e => Ret (Some e)
  | Ok _ =>
      let! c := activeConnection (Name cfg) in
      match c with
      | Err e => Ret (Some e)
      | Ok conn =>
          step (str "nmcli connection modify")
               (runPriv (str "nmcli") ([str "connection"; str "modify"; conn] ++ nmModifyArgs cfg)) (
          step (str "nmcli connection up") (runPriv (str "nmcli") [str "connection"; str "up"; conn]) (Ret None))
      end
  end.

Definition Apply (b : Backend) (cfg : InterfaceConfig) : prog (option nc_error) :=
  match b with NetworkManager => nm_Apply cfg | SystemdNetworkd => networkd_Apply cfg end.

(** ** Kernel state ([ip.go]) *)

Record ipAddr := MkIpAddr { Family : gostring; Local : gostring; Prefixlen : Z; Scope : gostring }.
Record ipLink := MkIpLink { Ifname : gostring; l_MTU : Z; AddrInfo : list ipAddr }.
Record ipRoute := MkIpRoute { Dst : gostring; ir_Gateway : gostring; ir_Metric : Z }.

Definition dec_addr (v : option Json.json) : option ipAddr :=
  kvs ← Json.dec_object v;
  f ← Json.dec_str (Json.field kvs (str "family"));
  l ← Json.dec_str (Json.field kvs (str "local"));
  p ← Json.dec_int (Json.field kvs (str "prefixlen"));
  s ← Json.dec_str (Json.field kvs (str "scope"));
  Some (MkIpAddr f l p s).
Definition dec_link (v : option Json.json) : option ipLink :=
  kvs ← Json.dec_object v;
  n ← Json.dec_str (Json.field kvs (str "ifname"));
  m ← Json.dec_int (Json.field kvs (str "mtu"));
  a ← Json.dec_list dec_addr (Json.field kvs (str "addr_info"));
  Some (MkIpLink n m a).
Definition dec_route (v : option Json.json) : option ipRoute :=
  kvs ← Json.dec_object v;
  d ← Json.dec_str (Json.field kvs (str "dst"));
  g ← Json.dec_str (Json.field kvs (str "gateway"));
  m ← Json.dec_int (Json.field kvs (str "metric"));
  Some (MkIpRoute d g m).
Definition unmarshal {A} (dec : option Json.json -> option A) (text : gostring) : option (list A) :=
  v ← Json.parse text; Json.dec_list dec (Some v).

Definition kept_addr (a : ipAddr) : bool :=
  negb (bool_decide (Scope a = str "link")) && negb (bool_decide (Local a = [])).
Definition addr_text (a : ipAddr) : gostring := Local a ++ str "/" ++ Json.int_lit (Prefixlen a).
Definition add_route (cfg : InterfaceConfig) (rt : ipRoute) : InterfaceConfig :=
  if bool_decide (ir_Gateway rt = []) then cfg
  else if bool_decide (Dst rt = str "default")
  then MkInterfaceConfig (Name cfg) (Mode cfg) (Addresses cfg) (ir_Gateway rt) (DNS cfg) (MTU cfg) (Routes cfg)
  else MkInterfaceConfig (Name cfg) (Mode cfg) (Addresses cfg) (Gateway cfg) (DNS cfg) (MTU cfg)
         (Routes cfg ++ [MkRoute (Dst rt) (ir_Gateway rt) (ir_Metric rt)]).

Definition parseIPState (name addrJSON routeJSON : gostring) : result nc_error InterfaceConfig :=
  match unmarshal dec_link addrJSON with
  | None => Err (EJson (str "parse ip addr JSON"))
  | Some links =>
      let cfg := match links with
                 | [] => MkInterfaceConfig name 0 [] [] [] 0 []
                 | l :: _ => MkInterfaceConfig name 0 (addr_text <$> List.filter kept_addr (AddrInfo l)) [] [] (l_MTU l) []
                 end in
      match unmarshal dec_route routeJSON with
      | None => Err (EJson (str "parse ip route JSON"))
      | Some routes => Ok (foldl add_route cfg routes)
      end
  end.

Definition Get (name : gostring) : prog (result nc_error InterfaceConfig) :=
  match validateInterfaceName name with
  | Err e => Ret (Err e)
  | Ok _ =>
      let! a := runRead (str "ip") [str "-j"; str "addr"; str "show"; str "dev"; name] in
      match a with
      | Err e => Ret (Err (ECmd (str "ip addr show") e))
      | Ok addrOut =>
          let! r := runRead (str "ip") [str "-j"; str "route"; str "show"; str "dev"; name] in
          match r with
          | Err e => Ret (Err (ECmd (str "ip route show") e))
          | Ok routeOut => Ret (parseIPState name addrOut routeOut)
          end
      end
  end.

End NetConf.
