(* ===== verification/NetConfOps.v ===== *)
(** * Interface configuration: what is written and run ([src/sys/netconfig])

    The unit file and the [nmcli] properties of a valid configuration carry exactly
    its settings, and the kernel state is read back from what [ip] prints. *)
From S2P Require Import Prelude Paths Exec HostProg Words Json Net Repo Ini HostCmd Dns NetConf.

Module NetConfOps.
Import Exec HostProg HostCmd Words NetConf.

(** ** What validation gives *)

Lemma cidr_text a ip n : Net.ParseCIDR a = Some (ip, n) -> (NL ∉ a) /\ dashed a = false /\ (","%char ∉ a) /\ a <> [].
Proof.
  intros [Hb Hn]%Net.ParseCIDR_bytes.
  split_and!; [by eapply forallb_not_elem|by eapply undashed_class; [|exact Hb]|by eapply forallb_not_elem|done].
Qed.
Lemma ip_text a ip : Net.ParseIP a = Some ip -> (NL ∉ a) /\ dashed a = false /\ (","%char ∉ a) /\ a <> [].
Proof.
  intros [Hb Hn]%Net.ParseIP_bytes.
  split_and!; [by eapply forallb_not_elem|by eapply undashed_class; [|exact Hb]|by eapply forallb_not_elem|done].
Qed.

Lemma check_addresses_ok v4 v6 addrs fam :
  check_addresses v4 v6 addrs = Ok fam ->
  Forall (fun a => is_Some (addr_family a)) addrs /\
  fam = (v4 || existsb (fun a => bool_decide (addr_family a = Some true)) addrs,
         v6 || existsb (fun a => bool_decide (addr_family a = Some false)) addrs).
Proof.
  revert v4 v6. induction addrs as [|a addrs IH]; intros v4 v6; cbn [check_addresses existsb].
  - intros [= <-]. rewrite !orb_false_r. split; [constructor|done].
  - destruct (Net.ParseCIDR a) as [[ip n]|] eqn:E; [|done].
    assert (Ha : addr_family a = Some (Net.To4 ip)) by (unfold addr_family; by rewrite E). rewrite Ha.
    destruct (Net.To4 ip); intros [Hf ->]%IH; (split; [constructor; [by rewrite Ha|done]|]).
    + rewrite (bool_decide_true (Some true = Some true)) by done. rewrite (bool_decide_false (Some true = Some false)) by done.
      by rewrite orb_true_r.
    + rewrite (bool_decide_true (Some false = Some false)) by done. rewrite (bool_decide_false (Some false = Some true)) by done.
      by rewrite orb_true_r.
Qed.

Record valid (cfg : InterfaceConfig) : Prop := {
  v_name : validInterface (Name cfg) = true;
  v_mode : Mode cfg = DHCP \/ Mode cfg = Static /\ Addresses cfg <> [];
  v_addrs : Forall (fun a => is_Some (addr_family a)) (Addresses cfg);
  v_gateway : Gateway cfg = [] \/
    exists f, ip_family (Gateway cfg) = Some f /\
      (Mode cfg = Static -> exists a, a ∈ Addresses cfg /\ addr_family a = Some f);
  v_dns : Forall (fun d => is_Some (ip_family d)) (DNS cfg);
  v_mtu : (MTU cfg = 0 \/ 68 <= MTU cfg <= 65535)%Z;
  v_routes : Forall (fun rt => (Destination rt = str "default" \/ is_Some (Net.ParseCIDR (Destination rt))) /\
                               is_Some (ip_family (r_Gateway rt)) /\ (0 <= Metric rt)%Z) (Routes cfg)
}.

Lemma ip_family_some s : is_Some (ip_family s) <-> is_Some (Net.ParseIP s).
Proof. unfold ip_family. destruct (Net.ParseIP s); split; intros [? ?]; eauto; done. Qed.

Lemma validateRoute_ok rt :
  validateRoute rt = Ok tt ->
  (Destination rt = str "default" \/ is_Some (Net.ParseCIDR (Destination rt))) /\
  is_Some (ip_family (r_Gateway rt)) /\ (0 <= Metric rt)%Z.
Proof.
  unfold validateRoute. rewrite ip_family_some. intros H.
  destruct (negb (bool_decide (Destination rt = str "default")) && _) eqn:Hd; [done|].
  case_bool_decide as Hg; [done|]. destruct (Z.ltb_spec (Metric rt) 0); [done|].
  split_and!; [|by apply not_eq_None_Some|done]. apply andb_false_iff in Hd as [Hd|Hd]; go_bool; [by left|right].
  by apply not_eq_None_Some.
Qed.

Lemma check_gateway_ok cfg v4 v6 :
  check_gateway cfg v4 v6 = Ok tt ->
  Gateway cfg = [] \/
  exists f, ip_family (Gateway cfg) = Some f /\ (Mode cfg = Static -> (if f : bool then v4 else v6) = true).
Proof.
  unfold check_gateway, ip_family. case_bool_decide; [by left|]. destruct (Net.ParseIP (Gateway cfg)) as [gw|]; [|done].
  intros H0. right. exists (Net.To4 gw). split; [done|]. intros HS. rewrite (proj2 (Z.eqb_eq _ _) HS) in H0.
  by destruct (Net.To4 gw), v4, v6.
Qed.

Lemma family_exists f addrs :
  existsb (fun a => bool_decide (addr_family a = Some f)) addrs = true -> exists a, a ∈ addrs /\ addr_family a = Some f.
Proof. intros (a & Hin & Ha)%existsb_exists. go_bool. exists a. split; [by apply list_elem_of_In|done]. Qed.

Lemma validate_ok cfg : validateInterfaceConfig cfg = Ok tt -> valid cfg.
Proof.
  unfold validateInterfaceConfig, validateInterfaceName. destruct (validInterface (Name cfg)) eqn:Hn; [|done].
  cbn [result_bind]. destruct (negb _ && negb _) eqn:Hm; [done|]. destruct (_ && bool_decide _) eqn:Hs; [done|].
  intros (fam & Ha & H)%result_bind_ok. apply check_addresses_ok in Ha as [Ha ->]. cbn [fst snd orb] in H.
  apply result_seq_ok in H as [Hg [Hd H]%result_seq_ok].
  destruct (negb _ && (_ || _)) eqn:Hmtu; [done|]. apply each_ok in H, Hd. split.
  - done.
  - destruct (Z.eqb_spec (Mode cfg) DHCP) as [?|Hnd]; [by left|]. right. cbn in Hm.
    destruct (Z.eqb_spec (Mode cfg) Static); [|done]. cbn in Hs. by go_bool.
  - done.
  - apply check_gateway_ok in Hg as [?|(f & Hf & Hg)]; [by left|]. right. exists f. split; [done|].
    intros HS. apply Hg in HS. destruct f; by apply family_exists.
  - eapply list.Forall_impl; [exact Hd|]. intros d. unfold check_dns, ip_family. destruct (Net.ParseIP d); eauto. done.
  - lia.
  - eapply list.Forall_impl; [exact H|]. apply validateRoute_ok.
Qed.

(** ** The unit file *)

Definition opt_item (b : bool) (i : Ini.item) : list Ini.item := if b then [i] else [].
Definition route_items (rt : Route) : list Ini.item :=
  [Ini.IBlank; Ini.IHeader (str "Route")] ++
  opt_item (negb (bool_decide (Destination rt = str "default"))) (Ini.IEntry (str "Destination") (Destination rt)) ++
  [Ini.IEntry (str "Gateway") (r_Gateway rt)] ++
  opt_item (negb (Metric rt =? 0)%Z) (Ini.IEntry (str "Metric") (Json.int_lit (Metric rt))).
Definition link_items (cfg : InterfaceConfig) : list Ini.item :=
  if negb (MTU cfg =? 0)%Z
  then [Ini.IBlank; Ini.IHeader (str "Link"); Ini.IEntry (str "MTUBytes") (Json.int_lit (MTU cfg))] else [].
Definition network_items (cfg : InterfaceConfig) : list Ini.item :=
  (if (Mode cfg =? DHCP)%Z then [Ini.IEntry (str "DHCP") (str "yes")]
   else (Ini.IEntry (str "Address") <$> Addresses cfg) ++
        opt_item (negb (bool_decide (Gateway cfg = []))) (Ini.IEntry (str "Gateway") (Gateway cfg))) ++
  (Ini.IEntry (str "DNS") <$> DNS cfg).
Definition unit_items (cfg : InterfaceConfig) : list Ini.item :=
  [Ini.IComment (tail Dns.managed_comment); Ini.IHeader (str "Match"); Ini.IEntry (str "Name") (Name cfg);
   Ini.IBlank; Ini.IHeader (str "Network")] ++
  network_items cfg ++ link_items cfg ++ concat (route_items <$> Routes cfg).

Lemma text_of_opt b i : Ini.text_of (opt_item b i) = if b then line (Ini.item_line i) else [].
Proof. destruct b; [|done]. unfold Ini.text_of, Ini.unlines. cbn. by rewrite app_nil_r. Qed.
Lemma text_of_entries k vs : Ini.text_of (Ini.IEntry k <$> vs) = concat ((fun v => line (k ++ "="%char :: v)) <$> vs).
Proof. induction vs as [|v vs IH]; [done|]. cbn [fmap list_fmap]. rewrite Ini.text_of_cons, IH. done. Qed.
Lemma text_of_concat {A} (f : A -> list Ini.item) l : Ini.text_of (concat (f <$> l)) = concat ((Ini.text_of ∘ f) <$> l).
Proof. induction l as [|a l IH]; [done|]. cbn [fmap list_fmap concat]. by rewrite Ini.text_of_app, IH. Qed.

Lemma render_route_items rt : render_route rt = Ini.text_of (route_items rt).
Proof.
  unfold route_items. rewrite !Ini.text_of_app, !text_of_opt. unfold render_route. rewrite !Ini.text_of_cons.
  change (Ini.text_of []) with (@nil ascii). rewrite !app_nil_r. done.
Qed.

Lemma render_items cfg : renderNetworkUnit cfg = Ini.text_of (unit_items cfg).
Proof.
  unfold unit_items, network_items, link_items. rewrite !Ini.text_of_app, text_of_entries, text_of_concat.
  unfold renderNetworkUnit.
  assert (Hr : concat (render_route <$> Routes cfg) = concat ((Ini.text_of ∘ route_items) <$> Routes cfg)).
  { f_equal. apply list_fmap_ext. intros i rt _. apply render_route_items. }
  rewrite Hr.
  assert (Hm : forall x, (if negb (MTU cfg =? 0)%Z then [NL] ++ line (str "[Link]") ++ line (str "MTUBytes=" ++ x) else []) =
    Ini.text_of (if negb (MTU cfg =? 0)%Z then [Ini.IBlank; Ini.IHeader (str "Link"); Ini.IEntry (str "MTUBytes") x] else [])).
  { intros x. destruct (negb _); [|done]. rewrite !Ini.text_of_cons. change (Ini.text_of []) with (@nil ascii). by rewrite !app_nil_r. }
  rewrite Hm.
  assert (Ha : (if (Mode cfg =? DHCP)%Z then line (str "DHCP=yes")
   else concat ((fun a => line (str "Address=" ++ a)) <$> Addresses cfg) ++
        (if negb (bool_decide (Gateway cfg = [])) then line (str "Gateway=" ++ Gateway cfg) else [])) =
   Ini.text_of (if (Mode cfg =? DHCP)%Z then [Ini.IEntry (str "DHCP") (str "yes")]
   else (Ini.IEntry (str "Address") <$> Addresses cfg) ++
        opt_item (negb (bool_decide (Gateway cfg = []))) (Ini.IEntry (str "Gateway") (Gateway cfg)))).
  { destruct (Mode cfg =? DHCP)%Z; [done|]. by rewrite Ini.text_of_app, text_of_entries, text_of_opt. }
  rewrite Ha, !Ini.text_of_cons. change (Ini.text_of []) with (@nil ascii).
  unfold line at 1 2 3 4. cbn [Ini.item_line]. rewrite <- !app_assoc. cbn [app]. reflexivity.
Qed.

Lemma iface_bytes n :
  validInterface n = true -> forallb (fun c => Repo.alnum c || Repo.one_of (str "._@-") c) n = true /\ n <> [] /\ dashed n = false.
Proof.
  unfold validInterface. destruct n as [|c n]; [done|]. intros [[Hc Hn]%andb_prop _]%andb_prop.
  split_and!; [|done|]; [cbn [forallb]; by rewrite Hc, Hn|]. apply undashed_cons. intros ->. done.
Qed.
Lemma entry_ok k v : Ini.item_ok (Ini.IEntry k []) -> NL ∉ v -> Ini.item_ok (Ini.IEntry k v).
Proof. intros (? & ? & ? & _) Hv. done. Qed.
Lemma entries_ok k (P : gostring -> Prop) vs :
  Ini.item_ok (Ini.IEntry k []) -> (forall v, P v -> NL ∉ v) -> Forall P vs -> Forall Ini.item_ok (Ini.IEntry k <$> vs).
Proof.
  intros Hk HP H. apply list.Forall_fmap. eapply list.Forall_impl; [exact H|]. intros v Hv. by apply entry_ok; [|apply HP].
Qed.
Lemma opt_ok b i : (b = true -> Ini.item_ok i) -> Forall Ini.item_ok (opt_item b i).
Proof. intros H. destruct b; [|constructor]. apply list.Forall_singleton. by apply H. Qed.
Ltac key_ok := split_and!; by apply (bool_decide_unpack _).

Lemma unit_items_ok cfg : valid cfg -> Forall Ini.item_ok (unit_items cfg).
Proof.
  intros [Hn Hm Ha Hg Hd _ Hr]. unfold unit_items.
  assert (Hip : forall v, is_Some (ip_family v) -> NL ∉ v) by (intros v [ip Hv]%ip_family_some; by apply (ip_text _ _ Hv)).
  assert (Hci : forall v, is_Some (addr_family v) -> NL ∉ v).
  { intros v [f Hf]. unfold addr_family in Hf. destruct (Net.ParseCIDR v) as [[ip n]|] eqn:E; [|done]. by apply (cidr_text _ _ _ E). }
  apply list.Forall_app; split; [|apply list.Forall_app; split; [|apply list.Forall_app; split]].
  - repeat apply List.Forall_cons; try constructor; try (by apply (bool_decide_unpack _)).
    apply entry_ok; [key_ok|]. apply iface_bytes in Hn as [Hn _]. by eapply forallb_not_elem.
  - unfold network_items. apply list.Forall_app; split; [|by eapply entries_ok; [key_ok| |exact Hd]].
    destruct (Mode cfg =? DHCP)%Z; [apply list.Forall_singleton; key_ok|]. apply list.Forall_app; split.
    + by eapply entries_ok; [key_ok| |exact Ha].
    + apply opt_ok. intros Hne. apply entry_ok; [key_ok|]. destruct Hg as [Hg|(f & Hf & _)]; [go_bool; done|]. apply Hip. eauto.
  - unfold link_items. destruct (negb _); [|constructor]. repeat apply List.Forall_cons; [done| | |constructor].
    + by apply (bool_decide_unpack _).
    + apply entry_ok; [key_ok|by apply Json.int_lit_avoids].
  - apply List.Forall_concat, list.Forall_fmap. eapply list.Forall_impl; [exact Hr|]. intros rt (Hdst & Hgw & _).
    unfold route_items. apply List.Forall_cons; [done|]. apply List.Forall_cons; [by apply (bool_decide_unpack _)|].
    apply list.Forall_app; split; [|apply list.Forall_app; split].
    + apply opt_ok. intros Hne. apply entry_ok; [key_ok|]. destruct Hdst as [Hdst|[[ip n] Hdst]]; [go_bool; done|].
      by apply (cidr_text _ _ _ Hdst).
    + apply list.Forall_singleton, entry_ok; [key_ok|by apply Hip].
    + apply opt_ok. intros _. apply entry_ok; [key_ok|by apply Json.int_lit_avoids].
Qed.

(** The directives of a configuration, by section. *)
Definition in_section (sec : gostring) (kvs : list (gostring * gostring)) : list Ini.entry :=
  (fun kv => Ini.MkEntry sec kv.1 kv.2) <$> kvs.
Definition opt_kv (b : bool) (k v : gostring) : list (gostring * gostring) := if b then [(k, v)] else [].
Definition unit_entries (cfg : InterfaceConfig) : list Ini.entry :=
  in_section (str "Match") [(str "Name", Name cfg)] ++
  in_section (str "Network")
    ((if (Mode cfg =? DHCP)%Z then [(str "DHCP", str "yes")]
      else (pair (str "Address") <$> Addresses cfg) ++
           opt_kv (negb (bool_decide (Gateway cfg = []))) (str "Gateway") (Gateway cfg)) ++
     (pair (str "DNS") <$> DNS cfg)) ++
  in_section (str "Link") (opt_kv (negb (MTU cfg =? 0)%Z) (str "MTUBytes") (Json.int_lit (MTU cfg))) ++
  concat ((fun rt => in_section (str "Route")
    (opt_kv (negb (bool_decide (Destination rt = str "default"))) (str "Destination") (Destination rt) ++
     [(str "Gateway", r_Gateway rt)] ++
     opt_kv (negb (Metric rt =? 0)%Z) (str "Metric") (Json.int_lit (Metric rt)))) <$> Routes cfg).

(** Entries after items that have no header keep the section. *)
Definition plain (i : Ini.item) : bool := match i with Ini.IHeader _ => false | _ => true end.
Lemma entries_of_app sec a b :
  forallb plain a = true -> Ini.entries_of sec (a ++ b) = Ini.entries_of sec a ++ Ini.entries_of sec b.
Proof. induction a as [|[] a IH]; cbn; intros H; try done; rewrite ?IH by done; done. Qed.
Lemma entries_of_fmap sec k vs :
  Ini.entries_of sec (Ini.IEntry k <$> vs) = in_section sec (pair k <$> vs).
Proof. unfold in_section. induction vs as [|v vs IH]; [done|]. cbn. by rewrite IH. Qed.
Lemma entries_of_opt sec b k v : Ini.entries_of sec (opt_item b (Ini.IEntry k v)) = in_section sec (opt_kv b k v).
Proof. by destruct b. Qed.
Lemma plain_fmap k vs : forallb plain (Ini.IEntry k <$> vs) = true.
Proof. by induction vs. Qed.
Lemma plain_opt b k v : forallb plain (opt_item b (Ini.IEntry k v)) = true.
Proof. by destruct b. Qed.
Lemma in_section_app sec a b : in_section sec (a ++ b) = in_section sec a ++ in_section sec b.
Proof. apply fmap_app. Qed.

Lemma route_entries sec rts :
  Ini.entries_of sec (concat (route_items <$> rts)) =
  concat ((fun rt => in_section (str "Route")
    (opt_kv (negb (bool_decide (Destination rt = str "default"))) (str "Destination") (Destination rt) ++
     [(str "Gateway", r_Gateway rt)] ++
     opt_kv (negb (Metric rt =? 0)%Z) (str "Metric") (Json.int_lit (Metric rt)))) <$> rts).
Proof.
  revert sec. induction rts as [|rt rts IH]; intros sec; [done|]. cbn [fmap list_fmap concat].
  unfold route_items at 1. cbn [app Ini.entries_of]. rewrite <- !app_assoc. cbn [app].
  rewrite entries_of_app, entries_of_opt by apply plain_opt. rewrite !in_section_app, <- !app_assoc. f_equal.
  cbn [Ini.entries_of]. rewrite entries_of_app, entries_of_opt, IH by apply plain_opt. done.
Qed.

Lemma unit_items_entries cfg : Ini.entries_of [] (unit_items cfg) = unit_entries cfg.
Proof.
  unfold unit_items, unit_entries. cbn [app Ini.entries_of]. cbn [in_section fmap list_fmap app fst snd]. f_equal.
  rewrite entries_of_app.
  2: { unfold network_items. rewrite forallb_app, plain_fmap, andb_true_r. destruct (Mode cfg =? DHCP)%Z; [done|].
       by rewrite forallb_app, plain_fmap, plain_opt. }
  f_equal.
  - unfold network_items. rewrite entries_of_app, entries_of_fmap.
    2: { destruct (Mode cfg =? DHCP)%Z; [done|]. by rewrite forallb_app, plain_fmap, plain_opt. }
    rewrite in_section_app. f_equal. destruct (Mode cfg =? DHCP)%Z; [done|].
    by rewrite entries_of_app, entries_of_fmap, entries_of_opt, in_section_app by apply plain_fmap.
  - unfold link_items. destruct (negb (MTU cfg =? 0)%Z); cbn [app Ini.entries_of opt_kv in_section fmap list_fmap fst snd].
    + f_equal. apply route_entries.
    + apply route_entries.
Qed.

(** A valid configuration is written to one file directly below the directory of
    networkd, read there as exactly the directives of the configuration, and networkd is
    reloaded; nothing else happens, and on a host that accepts both the run succeeds. *)
Theorem networkd_apply_exact {S} (h : handler S) (s s1 s2 : S) cfg out :
  validateInterfaceConfig cfg = Ok tt ->
  (forall body, h _ s (CFs (FsWriteFile (unit_path cfg) body 420 (str "root") (str "root"))) = (s1, None)) ->
  succeeds h s1 (priv (str "networkctl") [str "reload"]) out s2 ->
  run h s (Apply SystemdNetworkd cfg) = (s2, None) /\
  exists body,
    asked h s (Apply SystemdNetworkd cfg) =
      [QFs (FsWriteFile (unit_path cfg) body 420 (str "root") (str "root")); QRun (priv (str "networkctl") [str "reload"]) []] /\
    Ini.ini body = unit_entries cfg /\
    ("/"%char ∉ Name cfg ++ str ".network").
Proof.
  intros Hv Hw (stderr & Hr). pose proof (validate_ok _ Hv) as Hok.
  cbn [Apply]. unfold networkd_Apply. rewrite Hv. unfold step, runPriv. split.
  - cbn [bind ask run]. rewrite Hw. cbn [bind ask run]. by rewrite Hr.
  - exists (renderNetworkUnit cfg). split_and!.
    + cbn [bind ask asked]. rewrite Hw. cbn [bind ask asked]. by rewrite Hr.
    + rewrite render_items, Ini.ini_text_of by by apply unit_items_ok. apply unit_items_entries.
    + destruct (iface_bytes _ (v_name _ Hok)) as [Hb _]. apply not_elem_of_app. split; [by eapply forallb_not_elem|].
      by apply (bool_decide_unpack _).
Qed.

Definition server : InterfaceConfig :=
  MkInterfaceConfig (str "eth0") Static [str "192.0.2.10/24"; str "2001:db8::5/64"] (str "192.0.2.1") [str "192.0.2.53"] 1400
    [MkRoute (str "10.0.0.0/8") (str "192.0.2.254") 50; MkRoute (str "default") (str "2001:db8::1") 0].
Definition ready : handler unit := command_host (fun s _ _ => (s, (MkResult 0 [] [], None))) absent absent.
Lemma networkd_apply_exact_witness :
  run ready tt (Apply SystemdNetworkd server) = (tt, None) /\
  exists body,
    asked ready tt (Apply SystemdNetworkd server) =
      [QFs (FsWriteFile (unit_path server) body 420 (str "root") (str "root")); QRun (priv (str "networkctl") [str "reload"]) []] /\
    Ini.ini body = unit_entries server /\
    ("/"%char ∉ Name server ++ str ".network").
Proof.
  apply (networkd_apply_exact ready tt tt tt server []); [vm_compute; reflexivity|done|by exists []].
Defined.
End NetConfOps.
