(* ===== verification/NetConfNm.v ===== *)
(** * Interface configuration: NetworkManager and the kernel state ([src/sys/netconfig])

    What [nmcli connection modify] is given, read as properties, and the state [Get]
    reads from the output of [ip -j]. *)
From S2P Require Import Prelude Exec Paths Repo HostProg Words Json Net Ini HostCmd Dns NetConf NetConfOps.

Module NetConfNm.
Import Exec HostProg HostCmd Words NetConf NetConfOps.

(** ** Properties *)

(** The value the command gives a property. *)
Fixpoint prop (k : gostring) (args : list gostring) : option gostring :=
  match args with
  | a :: v :: rest => if bool_decide (a = k) then Some v else prop k rest
  | _ => None
  end.
(** A property that lists values. *)
Definition items (v : option gostring) : list gostring :=
  match v with None | Some [] => [] | Some v => split_byte v ","%char end.

Definition fam (v4 : bool) (k : string) : gostring := str ((if v4 then "ipv4" else "ipv6") ++ "." ++ k)%string.

Lemma prop_listed k key vs rest :
  prop k (listed key vs ++ rest) =
  match vs with [] => prop k rest | _ => if bool_decide (key = k) then Some (join vs (str ",")) else prop k rest end.
Proof. by destruct vs. Qed.
Lemma prop_cons k a v rest : prop k ([a; v] ++ rest) = if bool_decide (a = k) then Some v else prop k rest.
Proof. done. Qed.

Definition listable (vs : list gostring) : Prop := Forall (fun v => (","%char ∉ v) /\ v <> []) vs.
Lemma items_join vs : listable vs -> vs <> [] -> items (Some (join vs (str ","))) = vs.
Proof.
  intros H Hn. unfold items. destruct (join vs (str ",")) as [|c t] eqn:E.
  - destruct H as [|v vs [_ Hv] H]; [done|]. destruct v as [|c v]; [done|]. by destruct vs.
  - rewrite <- E. apply Paths.split_join; [done|]. eapply list.Forall_impl; [exact H|]. by intros v [? _].
Qed.
Lemma listable_filter f vs : listable vs -> listable (List.filter f vs).
Proof. unfold listable. rewrite !list.Forall_forall. intros H v [Hv _]%elem_of_List_filter. by apply H. Qed.

(** The segments of the command line. *)
Definition seg_addr (cfg : InterfaceConfig) : list gostring :=
  if (Mode cfg =? DHCP)%Z then
    [str "ipv4.method"; str "auto"; str "ipv4.addresses"; []; str "ipv4.gateway"; [];
     str "ipv6.method"; str "auto"; str "ipv6.addresses"; []; str "ipv6.gateway"; []]
  else
    let '(v4addr, v6addr) := partitionAddrsByFamily (Addresses cfg) in
    let v4gw := bool_decide (ip_family (Gateway cfg) = Some true) in
    manual "ipv4" v4addr (if negb (bool_decide (Gateway cfg = [])) && v4gw then Gateway cfg else []) ++
    manual "ipv6" v6addr (if negb (bool_decide (Gateway cfg = [])) && negb v4gw then Gateway cfg else []).
Definition other_props (cfg : InterfaceConfig) : list gostring :=
  (let '(v4dns, v6dns) := partitionIPsByFamily (DNS cfg) in listed (str "ipv4.dns") v4dns ++ listed (str "ipv6.dns") v6dns) ++
  (if negb (MTU cfg =? 0)%Z then [str "802-3-ethernet.mtu"; Json.int_lit (MTU cfg)] else []) ++
  (let '(v4r, v6r) := nmRoutesByFamily (Routes cfg) in listed (str "ipv4.routes") v4r ++ listed (str "ipv6.routes") v6r).
Lemma args_segments cfg : nmModifyArgs cfg = seg_addr cfg ++ other_props cfg.
Proof. done. Qed.

Ltac prop_compute := repeat match goal with
  | |- context [prop ?k (listed ?key ?vs ++ ?rest)] => rewrite (prop_listed k key vs rest)
  | |- context [bool_decide (str ?a = str ?b)] =>
      first [rewrite (bool_decide_true (str a = str b)) by done | rewrite (bool_decide_false (str a = str b)) by done]
  end.

Lemma prop_manual_skip k f addrs gw rest :
  k ∉ [str (f ++ ".method"); str (f ++ ".addresses"); str (f ++ ".gateway")] ->
  prop k (manual f addrs gw ++ rest) = prop k rest.
Proof.
  rewrite !not_elem_of_cons. intros (H1 & H2 & H3 & _). unfold manual. destruct addrs; [done|].
  destruct (negb _); cbn [app prop]; by rewrite !bool_decide_false by done.
Qed.
Lemma prop_auto_skip cfg k :
  k ∉ (fun p => fam p.1 p.2) <$> [(true, "method"); (true, "addresses"); (true, "gateway");
                                   (false, "method"); (false, "addresses"); (false, "gateway")]%string ->
  forall rest, prop k (seg_addr cfg ++ rest) = prop k rest.
Proof.
  cbn [fmap list_fmap fst snd]. rewrite !not_elem_of_cons. intros (H1 & H2 & H3 & H4 & H5 & H6 & _) rest.
  unfold seg_addr. destruct (Mode cfg =? DHCP)%Z.
  - cbn [app prop]. by rewrite !bool_decide_false by done.
  - cbn [partitionAddrsByFamily partition_by]. rewrite <- app_assoc.
    rewrite !prop_manual_skip; [done|..]; rewrite !not_elem_of_cons; split_and!; try done; apply not_elem_of_nil.
Qed.

Definition as_list (vs : list gostring) : option gostring :=
  match vs with [] => None | _ => Some (join vs (str ",")) end.
Lemma prop_listed_last k key vs :
  prop k (listed key vs) = if bool_decide (key = k) then as_list vs else None.
Proof. destruct vs; cbn [listed prop as_list]; by case_bool_decide. Qed.
Lemma prop_listed_skip k key vs rest : key <> k -> prop k (listed key vs ++ rest) = prop k rest.
Proof. intros H. rewrite prop_listed. destruct vs; [done|]. by rewrite bool_decide_false. Qed.
Lemma prop_listed_first k vs rest : prop k rest = None -> prop k (listed k vs ++ rest) = as_list vs.
Proof. intros H. rewrite prop_listed. destruct vs; [done|]. by rewrite bool_decide_true. Qed.
Lemma prop_mtu_skip k cfg rest :
  k <> str "802-3-ethernet.mtu" ->
  prop k ((if negb (MTU cfg =? 0)%Z then [str "802-3-ethernet.mtu"; Json.int_lit (MTU cfg)] else []) ++ rest) = prop k rest.
Proof. intros H. destruct (negb _); [|done]. rewrite prop_cons. by rewrite bool_decide_false. Qed.

Definition of_family (v4 : bool) (family : gostring -> option bool) (l : list gostring) : list gostring :=
  List.filter (fun a => bool_decide (family a = Some v4)) l.
Definition routes_of (v4 : bool) (l : list Route) : list gostring :=
  route_text v4 <$> List.filter (fun rt => Bool.eqb (gateway_v4 rt) v4) l.

Lemma dns_prop v4 cfg : prop (fam v4 "dns") (nmModifyArgs cfg) = as_list (of_family v4 ip_family (DNS cfg)).
Proof.
  rewrite args_segments, prop_auto_skip by (destruct v4; by apply (bool_decide_unpack _)).
  unfold other_props. cbn [partitionIPsByFamily partition_by nmRoutesByFamily]. rewrite <- !app_assoc. destruct v4.
  - apply prop_listed_first. rewrite prop_listed_skip, prop_mtu_skip, prop_listed_skip, prop_listed_last by done. done.
  - rewrite prop_listed_skip by done. apply prop_listed_first.
    rewrite prop_mtu_skip, prop_listed_skip, prop_listed_last by done. done.
Qed.
Lemma routes_prop v4 cfg : prop (fam v4 "routes") (nmModifyArgs cfg) = as_list (routes_of v4 (Routes cfg)).
Proof.
  rewrite args_segments, prop_auto_skip by (destruct v4; by apply (bool_decide_unpack _)).
  unfold other_props. cbn [partitionIPsByFamily partition_by nmRoutesByFamily]. rewrite <- !app_assoc.
  rewrite !prop_listed_skip, prop_mtu_skip by (by destruct v4). unfold routes_of. destruct v4.
  - rewrite prop_listed_first; [|by rewrite prop_listed_last, bool_decide_false by done].
    do 2 f_equal. apply List.filter_ext. intros rt. by destruct (gateway_v4 rt).
  - rewrite prop_listed_skip, prop_listed_last, bool_decide_true by done.
    done.
Qed.
Lemma mtu_prop cfg :
  prop (str "802-3-ethernet.mtu") (nmModifyArgs cfg) = if (MTU cfg =? 0)%Z then None else Some (Json.int_lit (MTU cfg)).
Proof.
  rewrite args_segments, prop_auto_skip by (by apply (bool_decide_unpack _)).
  unfold other_props. cbn [partitionIPsByFamily partition_by nmRoutesByFamily]. rewrite <- !app_assoc.
  rewrite !prop_listed_skip by done. destruct (MTU cfg =? 0)%Z; cbn [negb app prop].
  - by rewrite prop_listed_skip, prop_listed_last by done.
  - by rewrite bool_decide_true.
Qed.

Lemma other_none cfg k :
  k ∉ [str "ipv4.dns"; str "ipv6.dns"; str "802-3-ethernet.mtu"; str "ipv4.routes"; str "ipv6.routes"] ->
  prop k (other_props cfg) = None.
Proof.
  rewrite !not_elem_of_cons. intros (H1 & H2 & H3 & H4 & H5 & _). unfold other_props.
  cbn [partitionIPsByFamily partition_by nmRoutesByFamily]. rewrite <- !app_assoc.
  by rewrite !prop_listed_skip, prop_mtu_skip, prop_listed_skip, prop_listed_last, bool_decide_false by done.
Qed.

(** Static addressing: what one family is given. *)
Lemma manual_props (v4 : bool) addrs gw rest :
  (forall k, k ∈ ["method"; "addresses"; "gateway"]%string -> prop (fam v4 k) rest = None) ->
  let args := manual (if v4 then "ipv4" else "ipv6") addrs gw ++ rest in
  prop (fam v4 "method") args = (if bool_decide (addrs = []) then None else Some (str "manual")) /\
  prop (fam v4 "addresses") args = as_list addrs /\
  prop (fam v4 "gateway") args = (if bool_decide (addrs = []) || bool_decide (gw = []) then None else Some gw).
Proof.
  intros Hr args. subst args. unfold manual. destruct addrs as [|a addrs].
  { cbn [app]. by rewrite !Hr by (by apply (bool_decide_unpack _)). }
  rewrite (bool_decide_false (a :: addrs = [])) by done. cbn [orb]. destruct (bool_decide (gw = [])) eqn:Hg; cbn [negb app].
  - split_and!.
    + by destruct v4.
    + by destruct v4.
    + destruct v4; cbn [prop]; rewrite !bool_decide_false by done; by apply Hr, (bool_decide_unpack _).
  - by destruct v4.
Qed.

Lemma manual_other (v4 : bool) addrs gw rest k :
  prop (fam (negb v4) k) (manual (if v4 then "ipv4" else "ipv6") addrs gw ++ rest) = prop (fam (negb v4) k) rest.
Proof. apply prop_manual_skip. rewrite !not_elem_of_cons. split_and!; [by destruct v4..|apply not_elem_of_nil]. Qed.
Lemma manual_other_last (v4 : bool) addrs gw k :
  prop (fam (negb v4) k) (manual (if v4 then "ipv4" else "ipv6") addrs gw) = None.
Proof. rewrite <- (app_nil_r (manual _ _ _)). by rewrite manual_other. Qed.

Lemma static_props v4 cfg :
  Mode cfg = Static ->
  let addrs := of_family v4 addr_family (Addresses cfg) in
  prop (fam v4 "method") (nmModifyArgs cfg) = (if bool_decide (addrs = []) then None else Some (str "manual")) /\
  prop (fam v4 "addresses") (nmModifyArgs cfg) = as_list addrs /\
  prop (fam v4 "gateway") (nmModifyArgs cfg) =
    (if bool_decide (addrs = []) || bool_decide (Gateway cfg = []) || negb (Bool.eqb (bool_decide (ip_family (Gateway cfg) = Some true)) v4)
     then None else Some (Gateway cfg)).
Proof.
  intros Hm addrs. rewrite args_segments. unfold seg_addr. rewrite Hm. cbn [Static DHCP Z.eqb Pos.eqb].
  cbn [partitionAddrsByFamily partition_by]. rewrite <- app_assoc.
  set (gw4 := if negb (bool_decide (Gateway cfg = [])) && bool_decide (ip_family (Gateway cfg) = Some true) then Gateway cfg else []).
  set (gw6 := if negb (bool_decide (Gateway cfg = [])) && negb (bool_decide (ip_family (Gateway cfg) = Some true)) then Gateway cfg else []).
  assert (Hoth : forall v4 k, k ∈ ["method"; "addresses"; "gateway"]%string -> prop (fam v4 k) (other_props cfg) = None).
  { intros b k Hk. apply other_none. destruct b;
      repeat (apply elem_of_cons in Hk as [->|Hk]; [by apply (bool_decide_unpack _)|]); by apply elem_of_nil in Hk. }
  destruct v4.
  - destruct (manual_props true addrs gw4 (manual "ipv6" (of_family false addr_family (Addresses cfg)) gw6 ++ other_props cfg)) as (E1 & E2 & E3).
    { intros k Hk. rewrite (manual_other false). by apply Hoth. }
    split_and!; [exact E1|exact E2|]. etransitivity; [exact E3|]. unfold gw4.
    destruct (bool_decide (addrs = [])), (bool_decide (Gateway cfg = [])) eqn:Hg, (bool_decide (ip_family _ = _)); try done.
    cbn [negb andb orb Bool.eqb]. by rewrite Hg.
  - rewrite !(manual_other true).
    destruct (manual_props false addrs gw6 (other_props cfg)) as (E1 & E2 & E3); [intros k Hk; by apply Hoth|].
    split_and!; [exact E1|exact E2|]. etransitivity; [exact E3|]. unfold gw6.
    destruct (bool_decide (addrs = [])), (bool_decide (Gateway cfg = [])) eqn:Hg, (bool_decide (ip_family _ = _)); try done.
    cbn [negb andb orb Bool.eqb]. by rewrite Hg.
Qed.

Lemma items_as_list vs : listable vs -> items (as_list vs) = vs.
Proof. intros H. destruct vs as [|v vs]; [done|]. by apply items_join. Qed.

Lemma addr_listable l : Forall (fun a => is_Some (addr_family a)) l -> listable l.
Proof.
  intros H. eapply list.Forall_impl; [exact H|]. intros a [f Hf]. unfold addr_family in Hf.
  destruct (Net.ParseCIDR a) as [[ip n]|] eqn:E; [|done]. by apply cidr_text in E as (_ & _ & ? & ?).
Qed.
Lemma ip_listable l : Forall (fun a => is_Some (ip_family a)) l -> listable l.
Proof.
  intros H. eapply list.Forall_impl; [exact H|]. intros a [ip Hf]%ip_family_some. by apply ip_text in Hf as (_ & _ & ? & ?).
Qed.
Lemma route_listable cfg v4 : valid cfg -> listable (routes_of v4 (Routes cfg)).
Proof.
  intros Hv. unfold listable, routes_of. apply list.Forall_fmap, list.Forall_forall. intros rt [Hin _]%elem_of_List_filter.
  pose proof (v_routes _ Hv) as Hr. rewrite list.Forall_forall in Hr. destruct (Hr rt Hin) as (Hd & [ip Hg]%ip_family_some & _).
  apply ip_text in Hg as (_ & _ & Hg & _). unfold compose, route_text, route_dst. cbn beta. split.
  - rewrite !not_elem_of_app. split_and!; [| |done|].
    + destruct Hd as [->|[[ip' n] Hd]].
      * destruct v4; rewrite bool_decide_true by done; by apply (bool_decide_unpack _).
      * apply cidr_text in Hd as (_ & _ & Hd & _). case_bool_decide; [|done]. by destruct v4; apply (bool_decide_unpack _).
    + by apply (bool_decide_unpack _).
    + destruct (negb _); [|by apply not_elem_of_nil]. rewrite not_elem_of_app. split; [by apply (bool_decide_unpack _)|by apply Json.int_lit_avoids].
  - intros [_ H]%app_eq_nil. done.
Qed.

(** A valid configuration reaches NetworkManager completely and under the right family:
    the name servers, the routes and, in static mode, the addresses of a family are
    exactly what its properties list, the gateway is set on its own family and is never
    dropped, and DHCP clears the static addressing of both. *)
Theorem nm_properties_exact cfg v4 :
  validateInterfaceConfig cfg = Ok tt ->
  let value k := prop (fam v4 k) (nmModifyArgs cfg) in
  items (value "dns"%string) = of_family v4 ip_family (DNS cfg) /\
  items (value "routes"%string) = routes_of v4 (Routes cfg) /\
  prop (str "802-3-ethernet.mtu") (nmModifyArgs cfg) = (if (MTU cfg =? 0)%Z then None else Some (Json.int_lit (MTU cfg))) /\
  (Mode cfg = DHCP -> value "method"%string = Some (str "auto") /\ value "addresses"%string = Some [] /\ value "gateway"%string = Some []) /\
  (Mode cfg = Static ->
   items (value "addresses"%string) = of_family v4 addr_family (Addresses cfg) /\
   (value "method"%string = Some (str "manual") <-> exists a, a ∈ Addresses cfg /\ addr_family a = Some v4) /\
   (forall gw, value "gateway"%string = Some gw <-> gw = Gateway cfg /\ Gateway cfg <> [] /\ ip_family (Gateway cfg) = Some v4)).
Proof.
  intros Hok%validate_ok value. subst value. cbn beta. pose proof (v_gateway _ Hok) as Hgw.
  rewrite dns_prop, routes_prop, mtu_prop, !items_as_list
    by first [by apply route_listable|apply listable_filter, ip_listable, (v_dns _ Hok)].
  split_and!; [done|done|done|..].
  - intros Hm. rewrite args_segments. unfold seg_addr. rewrite Hm. by destruct v4.
  - intros Hm. destruct (static_props v4 cfg Hm) as (-> & -> & ->).
    assert (Hfam : of_family v4 addr_family (Addresses cfg) <> [] <-> exists a, a ∈ Addresses cfg /\ addr_family a = Some v4).
    { unfold of_family. split.
      - destruct (List.filter _ (Addresses cfg)) as [|a l] eqn:E; [done|]. intros _. exists a.
        assert (Ha : a ∈ List.filter (fun a => bool_decide (addr_family a = Some v4)) (Addresses cfg)) by (rewrite E; left).
        apply elem_of_List_filter in Ha as [? Ha]. by go_bool.
      - intros (a & Ha & Hf) E. assert (Hin : a ∈ []) by (rewrite <- E; apply elem_of_List_filter; by rewrite bool_decide_true).
        by apply elem_of_nil in Hin. }
    split_and!.
    + apply items_as_list, listable_filter, addr_listable, (v_addrs _ Hok).
    + rewrite <- Hfam. by case_bool_decide.
    + intros gw. destruct Hgw as [Hg|(f & Hf & Hg)].
      { rewrite (bool_decide_true (Gateway cfg = [])) by done. rewrite orb_true_r. cbn [orb]. naive_solver. }
      rewrite Hf. destruct (Hg Hm) as (a & Ha & Haf).
      case_bool_decide as He; [|case_bool_decide as Hge].
      * cbn [orb]. split; [done|]. intros (_ & _ & [= ->]). exfalso. by apply Hfam in He; [|exists a].
      * cbn [orb]. naive_solver.
      * cbn [orb]. case_bool_decide as Ht; destruct f, v4; cbn [Bool.eqb negb]; try done; naive_solver.
Qed.

Lemma nm_properties_exact_witness :
  items (prop (str "ipv6.addresses") (nmModifyArgs server)) = [str "2001:db8::5/64"] /\
  items (prop (str "ipv6.routes") (nmModifyArgs server)) = [str "::/0 2001:db8::1"].
Proof.
  destruct (nm_properties_exact server false) as (_ & Hr & _ & _ & Hs); [vm_compute; reflexivity|].
  destruct (Hs eq_refl) as (Ha & _). split; [exact Ha|exact Hr].
Defined.

(** A configuration without routes and name servers does not mention those properties:
    the ones an earlier configuration set stay. *)
Lemma old_routes_stay cfg v4 :
  Routes cfg = [] -> DNS cfg = [] ->
  prop (fam v4 "routes") (nmModifyArgs cfg) = None /\ prop (fam v4 "dns") (nmModifyArgs cfg) = None.
Proof. intros Hr Hd. rewrite routes_prop, dns_prop, Hr, Hd. done. Qed.
End NetConfNm.

(** * Interface configuration: the kernel state ([src/sys/netconfig/ip.go])

    [Get] reads back the links and routes that [ip -j] printed. *)

Module NetConfGet.
Import Exec HostProg HostCmd NetConf.

Definition addr_json (a : ipAddr) : Json.json :=
  Json.JObj [(str "family", Json.JStr (Family a)); (str "local", Json.JStr (Local a));
             (str "prefixlen", Json.JNum (Json.int_lit (Prefixlen a))); (str "scope", Json.JStr (Scope a))].
Definition link_json (l : ipLink) : Json.json :=
  Json.JObj [(str "ifname", Json.JStr (Ifname l)); (str "mtu", Json.JNum (Json.int_lit (l_MTU l)));
             (str "addr_info", Json.JArr (map addr_json (AddrInfo l)))].
(** A connected route has no gateway field, a route of the default metric no metric. *)
Definition route_json (r : ipRoute) : Json.json :=
  Json.JObj ([(str "dst", Json.JStr (Dst r))] ++
             (if bool_decide (ir_Gateway r = []) then [] else [(str "gateway", Json.JStr (ir_Gateway r))]) ++
             (if (ir_Metric r =? 0)%Z then [] else [(str "metric", Json.JNum (Json.int_lit (ir_Metric r)))])).

Definition int_range (z : Z) : Prop := (0 <= z <= int_max)%Z.

Lemma dec_addr_json a : int_range (Prefixlen a) -> dec_addr (Some (addr_json a)) = Some a.
Proof.
  intros H. destruct a as [f l p s]. unfold dec_addr, addr_json. cbn [Json.dec_object mbind option_bind Family Local Prefixlen Scope].
  change (Json.field [(str "family", ?a); (str "local", ?b); (str "prefixlen", ?c); (str "scope", ?d)] (str "family")) with (Some a).
  change (Json.field [(str "family", ?a); (str "local", ?b); (str "prefixlen", ?c); (str "scope", ?d)] (str "local")) with (Some b).
  change (Json.field [(str "family", ?a); (str "local", ?b); (str "prefixlen", ?c); (str "scope", ?d)] (str "prefixlen")) with (Some c).
  change (Json.field [(str "family", ?a); (str "local", ?b); (str "prefixlen", ?c); (str "scope", ?d)] (str "scope")) with (Some d).
  rewrite Json.dec_int_lit by done. done.
Qed.
Lemma mapM_json {A} (dec : option Json.json -> option A) (enc : A -> Json.json) (P : A -> Prop) l :
  (forall a, P a -> dec (Some (enc a)) = Some a) -> Forall P l -> mapM (fun w => dec (Some w)) (map enc l) = Some l.
Proof. intros Hd. induction 1 as [|a l Ha _ IH]; [done|]. cbn [map mapM]. by rewrite Hd, IH. Qed.

Definition link_ok (l : ipLink) : Prop := int_range (l_MTU l) /\ Forall (fun a => int_range (Prefixlen a)) (AddrInfo l).
Lemma dec_link_json l : link_ok l -> dec_link (Some (link_json l)) = Some l.
Proof.
  intros [Hm Ha]. destruct l as [n m addrs]. unfold dec_link, link_json. cbn [Json.dec_object mbind option_bind Ifname l_MTU AddrInfo] in *.
  change (Json.field [(str "ifname", ?a); (str "mtu", ?b); (str "addr_info", ?c)] (str "ifname")) with (Some a).
  change (Json.field [(str "ifname", ?a); (str "mtu", ?b); (str "addr_info", ?c)] (str "mtu")) with (Some b).
  change (Json.field [(str "ifname", ?a); (str "mtu", ?b); (str "addr_info", ?c)] (str "addr_info")) with (Some c).
  rewrite Json.dec_int_lit by done. cbn [Json.dec_str Json.dec_list mbind option_bind].
  by rewrite (mapM_json dec_addr addr_json (fun a => int_range (Prefixlen a)) addrs dec_addr_json Ha).
Qed.
Lemma dec_route_json r : int_range (ir_Metric r) -> dec_route (Some (route_json r)) = Some r.
Proof.
  intros Hm. destruct r as [d g m]. unfold dec_route, route_json. cbn [Json.dec_object mbind option_bind Dst ir_Gateway ir_Metric] in *.
  case_bool_decide as Hg; destruct (Z.eqb_spec m 0) as [Hz|Hz]; cbn [app].
  - subst. done.
  - change (Json.field [(str "dst", ?a); (str "metric", ?b)] (str "dst")) with (Some a).
    change (Json.field [(str "dst", ?a); (str "metric", ?b)] (str "gateway")) with (@None Json.json).
    change (Json.field [(str "dst", ?a); (str "metric", ?b)] (str "metric")) with (Some b).
    rewrite Json.dec_int_lit by done. by subst.
  - subst m. done.
  - change (Json.field [(str "dst", ?a); (str "gateway", ?c); (str "metric", ?b)] (str "dst")) with (Some a).
    change (Json.field [(str "dst", ?a); (str "gateway", ?c); (str "metric", ?b)] (str "gateway")) with (Some c).
    change (Json.field [(str "dst", ?a); (str "gateway", ?c); (str "metric", ?b)] (str "metric")) with (Some b).
    rewrite Json.dec_int_lit by done. done.
Qed.

Lemma printable_ip_addr a : Json.printable (addr_json a).
Proof. apply Json.printable_obj. repeat (apply List.Forall_cons; [cbn; eauto|]). constructor. Qed.
Lemma printable_link l : Json.printable (link_json l).
Proof.
  apply Json.printable_obj. do 2 (apply List.Forall_cons; [cbn; eauto|]). apply list.Forall_singleton. cbn [snd].
  apply Json.printable_arr, List.Forall_map, list.Forall_true, printable_ip_addr.
Qed.
Lemma printable_route r : Json.printable (route_json r).
Proof.
  apply Json.printable_obj. apply List.Forall_cons; [done|]. apply list.Forall_app. split; case_match; try constructor; cbn; eauto.
Qed.

Lemma unmarshal_print {A} (dec : option Json.json -> option A) (enc : A -> Json.json) (P : A -> Prop) l :
  (forall a, P a -> dec (Some (enc a)) = Some a) -> (forall a, Json.printable (enc a)) -> Forall P l ->
  Forall (fun a => Json.textual (enc a)) l ->
  unmarshal dec (Json.print (Json.JArr (map enc l))) = Some l.
Proof.
  intros Hd Hp Hl Ht. unfold unmarshal.
  rewrite Json.parse_print by first [apply Json.printable_arr, List.Forall_map, list.Forall_true, Hp|by apply Json.textual_arr, List.Forall_map].
  cbn [mbind option_bind Json.dec_list]. by eapply mapM_json.
Qed.

(** ** The state read *)

Definition via (r : ipRoute) : bool := negb (bool_decide (ir_Gateway r = [])).
Definition is_default (r : ipRoute) : bool := bool_decide (Dst r = str "default").
Definition to_route (r : ipRoute) : Route := MkRoute (Dst r) (ir_Gateway r) (ir_Metric r).

Lemma last_cons_default {A} (l : list A) a d : List.last (a :: l) d = List.last l a.
Proof.
  revert a d. induction l as [|x l IH]; intros a d; [done|]. change (List.last (a :: x :: l) d) with (List.last (x :: l) d).
  by rewrite !IH.
Qed.
Lemma foldl_routes cfg rs :
  foldl add_route cfg rs =
  MkInterfaceConfig (Name cfg) (Mode cfg) (Addresses cfg)
    (List.last (ir_Gateway <$> List.filter (fun r => via r && is_default r) rs) (Gateway cfg)) (DNS cfg) (MTU cfg)
    (Routes cfg ++ (to_route <$> List.filter (fun r => via r && negb (is_default r)) rs)).
Proof.
  revert cfg. induction rs as [|r rs IH]; intros cfg; [destruct cfg; cbn; by rewrite app_nil_r|].
  cbn [foldl List.filter]. rewrite IH. unfold add_route.
  change (via r) with (negb (bool_decide (ir_Gateway r = []))). change (is_default r) with (bool_decide (Dst r = str "default")).
  destruct (bool_decide (ir_Gateway r = [])); cbn [negb andb]; [done|].
  destruct (bool_decide (Dst r = str "default")); cbn [negb andb Name Mode Addresses Gateway DNS MTU Routes fmap list_fmap].
  - f_equal. by rewrite last_cons_default.
  - f_equal. by rewrite <- app_assoc.
Qed.

(** On a host where [ip] prints a link and the routes of its device in valid UTF-8, [Get] returns its MTU,
    its addresses but those of link scope, the routes that have a gateway, in order, and
    the gateway of the last default route. *)
Theorem netconfig_get_exact {S} (h : handler S) (s s1 s2 : S) name l rs :
  validateInterfaceName name = Ok tt -> link_ok l -> Forall (fun r => int_range (ir_Metric r)) rs ->
  Json.textual (link_json l) -> Forall (fun r => Json.textual (route_json r)) rs ->
  succeeds h s (unpriv (str "ip") [str "-j"; str "addr"; str "show"; str "dev"; name])
    (Json.print (Json.JArr [link_json l])) s1 ->
  succeeds h s1 (unpriv (str "ip") [str "-j"; str "route"; str "show"; str "dev"; name])
    (Json.print (Json.JArr (map route_json rs))) s2 ->
  run h s (Get name) =
    (s2, Ok (MkInterfaceConfig name 0 (addr_text <$> List.filter kept_addr (AddrInfo l))
               (List.last (ir_Gateway <$> List.filter (fun r => via r && is_default r) rs) [])
               [] (l_MTU l) (to_route <$> List.filter (fun r => via r && negb (is_default r)) rs))).
Proof.
  intros Hn Hl Hr Htl Htr Ha Hro. unfold Get. rewrite Hn. rewrite run_bind, (runRead_run _ _ _ _ _ _ Ha). cbn [fst snd].
  rewrite run_bind, (runRead_run _ _ _ _ _ _ Hro). cbn [fst snd run]. do 2 f_equal. unfold parseIPState.
  change [link_json l] with (map link_json [l]).
  rewrite (unmarshal_print dec_link link_json link_ok [l] dec_link_json printable_link) by (by apply list.Forall_singleton).
  rewrite (unmarshal_print dec_route route_json _ rs dec_route_json printable_route Hr Htr).
  by rewrite foldl_routes.
Qed.

Definition eth0 : ipLink :=
  MkIpLink (str "eth0") 1500 [MkIpAddr (str "inet") (str "192.0.2.10") 24 (str "global");
                              MkIpAddr (str "inet6") (str "fe80::1") 64 (str "link")].
Definition routes0 : list ipRoute :=
  [MkIpRoute (str "default") (str "192.0.2.1") 100; MkIpRoute (str "192.0.2.0/24") [] 100;
   MkIpRoute (str "10.0.0.0/8") (str "192.0.2.254") 0].
Definition ip_host : handler unit :=
  command_host (fun s c _ => (s, (MkResult 0 (if bool_decide (str "addr" ∈ Args c) then Json.print (Json.JArr [link_json eth0])
                                             else Json.print (Json.JArr (map route_json routes0))) [], None))) absent absent.
Lemma netconfig_get_exact_witness :
  (run ip_host tt (Get (str "eth0"))).2 =
    Ok (MkInterfaceConfig (str "eth0") 0 [str "192.0.2.10/24"] (str "192.0.2.1") [] 1500
          [MkRoute (str "10.0.0.0/8") (str "192.0.2.254") 0]).
Proof.
  rewrite (netconfig_get_exact ip_host tt tt tt (str "eth0") eth0 routes0); [reflexivity|reflexivity|..].
  - split; [by vm_compute|]. repeat (apply List.Forall_cons; [by vm_compute|]). constructor.
  - repeat (apply List.Forall_cons; [by vm_compute|]). constructor.
  - by vm_compute.
  - repeat (apply List.Forall_cons; [by vm_compute|]). constructor.
  - by exists [].
  - by exists [].
Defined.

(** ** Findings *)

(** The connection name of the host is not checked before it is an argument of a
    privileged command. *)
Definition hostile : handler unit :=
  command_host (fun s _ _ => (s, (MkResult 0 (str "--wait") [], None))) absent absent.
Lemma connection_name_unchecked :
  [str "connection"; str "up"; str "--wait"] ∈
  (Args ∘ fst) <$> commands hostile tt (Apply NetworkManager NetConfOps.server).
Proof. by apply (bool_decide_unpack _); vm_compute. Qed.
End NetConfGet.
