(* ===== verification/Service.v ===== *)
(** * Service management ([src/sys/service])

    The systemd backend: unit names, queries with whitelisted answers, mutations, unit
    files and the version. *)
From S2P Require Import Prelude Paths Exec HostProg Words Net Repo UnitContent HostCmd.

Module Service.
Import Exec HostProg HostCmd.

(** ** Data ([service.go]) *)

Definition Systemd : Z := 1.
Record UnitStatus := MkUnitStatus { Enabled : bool; Active : bool; Masked : bool; Static : bool }.

Inductive svc_error :=
| EUnknownBackend (b : Z)
| ERunnerRequired
| ENewFS (e : fs_err)
| EUnitName (unit : gostring)
| EUnitContent (e : UnitContent.unsafe)
| ERun (what : gostring) (e : exec_error)
| EOutput (what out : gostring) (code : Z)
| EVerb (verb : gostring)
| ECmd (e : cmd_error)
| EFs (e : fs_err).

(** [newFS] is the result of building the file manager. *)
Definition New (b : Z) (runner : bool) (newFS : option fs_err) : result svc_error Z :=
  if negb (b =? Systemd)%Z then Err (EUnknownBackend b)
  else if negb runner then Err ERunnerRequired
  else match newFS with Some e => Err (ENewFS e) | None => Ok b end.

Definition systemdRunMarker : gostring := str "/run/systemd/system".
Definition Detect : prog (list Z) :=
  let! p := ask (CLookPath (str "systemctl")) in
  match p with
  | None => Ret []
  | Some _ =>
      let! st := ask (CStat systemdRunMarker) in
      Ret (match st with Err _ => [] | Ok _ => [Systemd] end)
  end.

(** ** Unit names ([systemd.go]) *)

Definition unit_types : list gostring :=
  str <$> ["service"; "socket"; "device"; "timer"; "mount"; "automount"; "swap"; "target"; "path"; "slice"; "scope"]%string.
Definition BACKSLASH : ascii := "\"%char.

(** One character of the class or one [\xHH] escape. *)
Definition atom (extra : gostring) (s : gostring) : option gostring :=
  match s with
  | c :: rest =>
      if Repo.alnum c || Repo.one_of extra c then Some rest
      else if bool_decide (c = BACKSLASH) then
        match rest with
        | x :: a :: b :: rest' => if bool_decide (x = "x"%char) && Net.is_hex a && Net.is_hex b then Some rest' else None
        | _ => None
        end
      else None
  | [] => None
  end.
Fixpoint atoms (fuel : nat) (s : gostring) : bool :=
  match s, fuel with
  | [], _ => true
  | _, 0 => false
  | _, S fuel' => match atom (str "@._:-") s with Some rest => atoms fuel' rest | None => false end
  end.
Definition unit_stem (s : gostring) : bool :=
  match atom (str "@_:-") s with Some rest => atoms (length rest) rest | None => false end.
(** A stem, a dot and a type. *)
Definition validSystemdUnitName (u : gostring) : bool :=
  existsb (fun ty => has_suffix u (str "." ++ ty) && unit_stem (trim_suffix u (str "." ++ ty))) unit_types.
Definition ValidateUnitName (u : gostring) : result svc_error unit :=
  if validSystemdUnitName u then Ok tt else Err (EUnitName u).

(** ** Queries *)

Definition enabled_outputs : list gostring :=
  str <$> ["enabled"; "enabled-runtime"; "linked"; "linked-runtime"; "alias"; "masked"; "masked-runtime"; "static";
           "indirect"; "disabled"; "generated"; "transient"]%string.
Definition active_outputs : list gostring :=
  str <$> ["active"; "reloading"; "inactive"; "failed"; "activating"; "deactivating"]%string.
Definition validSystemctlOutputs (verb : gostring) : option (list gostring) :=
  if bool_decide (verb = str "is-enabled") then Some enabled_outputs
  else if bool_decide (verb = str "is-active") then Some active_outputs else None.

Definition query (u verb : gostring) : prog (result svc_error gostring) :=
  let! r := ask (CRun (unpriv (str "systemctl") [verb; str "--"; u]) []) in
  Ret (match r with
       | (_, Some e) => Err (ERun verb e)
       | (res, None) =>
           let trimmed := trim_space (Stdout res) in
           match validSystemctlOutputs verb with
           | None => Err (EVerb verb)
           | Some allowed => if bool_decide (trimmed ∈ allowed) then Ok trimmed else Err (EOutput verb trimmed (ExitCode res))
           end
       end).

(** Every operation on a unit validates its name first. *)
Definition named {A} (u : gostring) (k : prog (result svc_error A)) : prog (result svc_error A) :=
  match ValidateUnitName u with Err e => Ret (Err e) | Ok _ => k end.

Definition is_one (out : gostring) (l : list string) : bool := bool_decide (out ∈ str <$> l).

Definition Status (u : gostring) : prog (result svc_error UnitStatus) :=
  named u (
  let!? enabled := query u (str "is-enabled") in
  let!? active := query u (str "is-active") in
  Ret (Ok (MkUnitStatus (is_one enabled ["enabled"; "enabled-runtime"]) (is_one active ["active"])
             (is_one enabled ["masked"; "masked-runtime"]) (is_one enabled ["static"; "indirect"; "generated"])))).
Definition IsEnabled (u : gostring) : prog (result svc_error bool) :=
  named u (let!? out := query u (str "is-enabled") in Ret (Ok (is_one out ["enabled"; "enabled-runtime"]))).
Definition IsMasked (u : gostring) : prog (result svc_error bool) :=
  named u (let!? out := query u (str "is-enabled") in Ret (Ok (is_one out ["masked"; "masked-runtime"]))).
Definition IsActive (u : gostring) : prog (result svc_error bool) :=
  named u (let!? out := query u (str "is-active") in Ret (Ok (is_one out ["active"]))).

(** ** Mutations *)

Definition mutate (args : list gostring) : prog (result svc_error unit) :=
  let! r := runPriv (str "systemctl") args in
  Ret (match r with Some e => Err (ECmd e) | None => Ok tt end).
Definition verb (words : list string) (u : gostring) : prog (result svc_error unit) :=
  named u (mutate ((str <$> words) ++ [str "--"; u])).
Definition Enable := verb ["enable"].
Definition Disable := verb ["disable"].
Definition EnableNow := verb ["enable"; "--now"].
Definition DisableNow := verb ["disable"; "--now"].
Definition Start := verb ["start"].
Definition Stop := verb ["stop"].
Definition Restart := verb ["restart"].
Definition Reload := verb ["reload"].
Definition Mask := verb ["mask"].
Definition Unmask := verb ["unmask"].
Definition DaemonReload : prog (result svc_error unit) := mutate [str "daemon-reload"].

(** ** Unit files *)

Definition unit_path (u : gostring) : gostring := str "/etc/systemd/system/" ++ u.
Definition fs_result (r : option fs_err) : result svc_error unit := match r with Some e => Err (EFs e) | None => Ok tt end.

Definition WriteUnit (u content : gostring) : prog (result svc_error unit) :=
  named u (
  match UnitContent.validateUnitContent content with
  | Err e => Ret (Err (EUnitContent e))
  | Ok _ => let! r := ask (CFs (FsWriteFile (unit_path u) content 420 (str "root") (str "root"))) in Ret (fs_result r)
  end).
Definition ReadUnit (u : gostring) : prog (result svc_error gostring) :=
  named u (
  let! r := ask (CFsReadFile (unit_path u)) in
  Ret (match r with Err e => Err (EFs e) | Ok content => Ok content end)).
Definition RemoveUnit (u : gostring) : prog (result svc_error unit) :=
  named u (let! r := ask (CFs (FsRemove (unit_path u))) in Ret (fs_result r)).

Definition NeedsReload (u : gostring) : prog (result svc_error bool) :=
  named u (
  let! r := ask (CRun (unpriv (str "systemctl") [str "show"; str "--property=NeedDaemonReload"; str "--"; u]) []) in
  Ret (match r with
       | (_, Some e) => Err (ERun (str "show") e)
       | (res, None) =>
           let out := trim_space (Stdout res) in
           if bool_decide (out = str "NeedDaemonReload=yes") then Ok true
           else if bool_decide (out = str "NeedDaemonReload=no") then Ok false
           else Err (EOutput (str "show") out (ExitCode res))
       end)).

(** ** Version *)

Fixpoint first_int (toks : list gostring) : option Z :=
  match toks with
  | [] => None
  | t :: rest => match atoi t with Some v => Some v | None => first_int rest end
  end.
Definition first_line (s : gostring) : gostring := match cut s NL with Some (l, _) => l | None => s end.
Definition Version : prog (result svc_error Z) :=
  let! r := ask (CRun (unpriv (str "systemctl") [str "--version"]) []) in
  Ret (match r with
       | (_, Some e) => Err (ERun (str "--version") e)
       | (res, None) =>
           match first_int (fields (first_line (Stdout res))) with
           | Some v => Ok v
           | None => Err (EOutput (str "--version") (first_line (Stdout res)) (ExitCode res))
           end
       end).

End Service.
