(* ===== verification/ServiceOps.v ===== *)
(** * Service management: what the manager promises ([src/sys/service])

    On every host the operations run exactly the documented command on a valid unit name,
    and a query answers what systemctl reported; the unit files are a map from names to contents. *)
From S2P Require Import Prelude Exec Paths UnitContent Repo HostProg Words Net HostCmd Service.

Module ServiceOps.
Import Exec HostProg HostCmd Words Service.

(** ** Unit names *)

Definition unit_byte (c : ascii) : bool := Repo.alnum c || Repo.one_of (str "@._:-") c || bool_decide (c = BACKSLASH).

Lemma hex_unit c : Net.is_hex c = true -> unit_byte c = true.
Proof. destruct c as [[] [] [] [] [] [] [] []]; by vm_compute. Qed.

Lemma atom_bytes extra s rest :
  forallb (fun c => Repo.one_of (str "@._:-") c) extra = true -> atom extra s = Some rest ->
  exists a, s = a ++ rest /\ forallb unit_byte a = true /\ a <> [].
Proof.
  intros He. unfold atom. destruct s as [|c s]; [done|]. destruct (_ || _) eqn:Hc.
  - intros [= <-]. exists [c]. split_and!; [done| |done]. cbn. rewrite andb_true_r. unfold unit_byte.
    apply orb_prop in Hc as [->|Hc]; [done|]. assert (Repo.one_of (str "@._:-") c = true) as ->.
    { rewrite forallb_forall in He. apply He. unfold Repo.one_of in Hc. go_bool. by apply list_elem_of_In. }
    by rewrite orb_true_r.
  - case_bool_decide as Hb; [|done]. destruct s as [|x [|a [|b s]]]; try done.
    destruct (_ && _) eqn:Hx; [|done]. intros [= <-]. apply andb_prop in Hx as [[Hx%bool_decide_eq_true Ha]%andb_prop Hh].
    exists [c; x; a; b]. split_and!; [done| |done]. subst. cbn [forallb]. by rewrite (hex_unit a), (hex_unit b).
Qed.
Lemma atoms_bytes n s : atoms n s = true -> forallb unit_byte s = true.
Proof.
  revert s. induction n as [|n IH]; intros s; cbn [atoms]; destruct s as [|c s]; try done.
  destruct (atom _ _) as [rest|] eqn:E; [|done]. intros H%IH.
  apply atom_bytes in E as (a & -> & Ha & _); [|by_eval]. by rewrite forallb_app, Ha, H.
Qed.

Lemma unit_name_shape u :
  validSystemdUnitName u = true ->
  exists s ty, u = s ++ str "." ++ ty /\ ty ∈ unit_types /\ forallb unit_byte s = true /\
    match s with c :: _ => c <> "."%char | [] => False end.
Proof.
  unfold validSystemdUnitName. intros (ty & Hin & [Hs Hst]%andb_prop)%existsb_exists.
  pose proof (trim_suffix_app _ _ Hs) as Hu. set (s := trim_suffix u (str "." ++ ty)) in *.
  exists s, ty. clearbody s. split_and!; [done|by apply list_elem_of_In| |].
  - unfold unit_stem in Hst. destruct (atom _ s) as [rest|] eqn:E; [|done]. apply atoms_bytes in Hst.
    apply atom_bytes in E as (a & -> & Ha & _); [|by_eval]. by rewrite forallb_app, Ha, Hst.
  - unfold unit_stem, atom in Hst. destruct s as [|c s]; [done|]. intros ->. done.
Qed.

(** A valid name is one path component: no slash, not a dot file. *)
Lemma unit_name_component u :
  validSystemdUnitName u = true -> ("/"%char ∉ u) /\ (NL ∉ u) /\ has_prefix u (str ".") = false /\ u <> [].
Proof.
  intros (s & ty & -> & Hty & Hs & Hd)%unit_name_shape.
  assert (Ht : forallb unit_byte (str "." ++ ty) = true).
  { unfold unit_types in Hty. apply list_elem_of_fmap in Hty as (t & -> & Ht).
    repeat (apply elem_of_cons in Ht as [->|Ht]; [by_eval|]). by apply elem_of_nil in Ht. }
  assert (Hb : forallb unit_byte (s ++ str "." ++ ty) = true) by (by rewrite forallb_app, Hs, Ht).
  split_and!; [by eapply forallb_not_elem|by eapply forallb_not_elem| |].
  - destruct s as [|c s]; [done|]. cbn. by rewrite bool_decide_false by congruence.
  - by destruct s.
Qed.

(** ** Command lines and files *)

Inductive query_op := QStatus | QEnabled | QMasked | QActive.
Inductive mutation :=
| MEnable | MDisable | MEnableNow | MDisableNow | MStart | MStop | MRestart | MReload | MMask | MUnmask.
Inductive op :=
| OQuery (q : query_op) (u : gostring)
| OMutate (m : mutation) (u : gostring)
| ONeedsReload (u : gostring)
| ODaemonReload
| OVersion
| OWrite (u content : gostring)
| ORead (u : gostring)
| ORemove (u : gostring).
Inductive answer := ANone | ABool (b : bool) | AStatus (st : UnitStatus) | AText (t : gostring) | AInt (z : Z).

Definition answering {A} (f : A -> answer) (p : prog (result svc_error A)) : prog (result svc_error answer) :=
  let!? a := p in Ret (Ok (f a)).
Definition mutation_prog (m : mutation) : gostring -> prog (result svc_error unit) :=
  match m with
  | MEnable => Enable | MDisable => Disable | MEnableNow => EnableNow | MDisableNow => DisableNow
  | MStart => Start | MStop => Stop | MRestart => Restart | MReload => Reload | MMask => Mask | MUnmask => Unmask
  end.
Definition perform (o : op) : prog (result svc_error answer) :=
  match o with
  | OQuery QStatus u => answering AStatus (Status u)
  | OQuery QEnabled u => answering ABool (IsEnabled u)
  | OQuery QMasked u => answering ABool (IsMasked u)
  | OQuery QActive u => answering ABool (IsActive u)
  | ONeedsReload u => answering ABool (NeedsReload u)
  | OMutate m u => answering (fun _ => ANone) (mutation_prog m u)
  | ODaemonReload => answering (fun _ => ANone) DaemonReload
  | OVersion => answering AInt Version
  | OWrite u c => answering (fun _ => ANone) (WriteUnit u c)
  | ORead u => answering AText (ReadUnit u)
  | ORemove u => answering (fun _ => ANone) (RemoveUnit u)
  end.

(** The fixed words of the commands on a unit, and whether they escalate. *)
Definition unit_commands : list (bool * list string) :=
  [(false, ["is-enabled"]); (false, ["is-active"]); (false, ["show"; "--property=NeedDaemonReload"]);
   (true, ["enable"]); (true, ["disable"]); (true, ["enable"; "--now"]); (true, ["disable"; "--now"]);
   (true, ["start"]); (true, ["stop"]); (true, ["restart"]); (true, ["reload"]); (true, ["mask"]); (true, ["unmask"])]%string.
Definition unit_file (p : gostring) : Prop :=
  exists u, p = str "/etc/systemd/system/" ++ u /\ ("/"%char ∉ u) /\ has_prefix u (str ".") = false /\ u <> [].
Definition confined (q : request) : Prop :=
  match q with
  | QRun c i => i = [] /\
      (c = MkCommand (str "systemctl") [str "daemon-reload"] [] [] [] true \/
       c = MkCommand (str "systemctl") [str "--version"] [] [] [] false \/
       exists esc words u, (esc, words) ∈ unit_commands /\ validSystemdUnitName u = true /\
         c = MkCommand (str "systemctl") ((str <$> words) ++ [str "--"; u]) [] [] [] esc)
  | QFs (FsWriteFile p d m o g) => unit_file p /\ UnitContent.validateUnitContent d = Ok tt /\ m = 420%N /\ o = str "root" /\ g = str "root"
  | QFs (FsRemove p) | QFsReadFile p => unit_file p
  | _ => False
  end.

Lemma named_wp {A} (u : gostring) (k : prog (result svc_error A)) Q :
  (forall e, Q (Err e)) -> (validSystemdUnitName u = true -> wp confined k Q) -> wp confined (named u k) Q.
Proof. intros He Hk. unfold named, ValidateUnitName. destruct (validSystemdUnitName u); [by apply Hk|by apply He]. Qed.
Lemma unit_path_file u : validSystemdUnitName u = true -> unit_file (unit_path u).
Proof. intros (? & _ & ? & ?)%unit_name_component. by exists u. Qed.
Lemma unit_command_ok esc words u :
  (esc, words) ∈ unit_commands -> validSystemdUnitName u = true ->
  confined (QRun (MkCommand (str "systemctl") ((str <$> words) ++ [str "--"; u]) [] [] [] esc) []).
Proof. intros Hc Hu. split; [done|]. right. right. by exists esc, words, u. Qed.

Lemma query_wp u v (Q : result svc_error gostring -> Prop) :
  validSystemdUnitName u = true -> v ∈ (["is-enabled"; "is-active"]%string) -> (forall r, Q r) -> wp confined (query u (str v)) Q.
Proof.
  intros Hu Hv HQ. unfold query. wp_step. cbn [ask wp request_of]. split; [|intros x; apply HQ].
  apply (unit_command_ok false [v]); [|done]. unfold unit_commands.
  repeat (apply elem_of_cons in Hv as [->|Hv]; [by apply (bool_decide_unpack _)|]). by apply elem_of_nil in Hv.
Qed.
Lemma verb_wp words u Q :
  (true, words) ∈ unit_commands -> (forall r : result svc_error unit, Q r) -> wp confined (verb words u) Q.
Proof.
  intros Hw HQ. unfold verb. apply named_wp; [auto|]. intros Hu. unfold mutate, runPriv. wp_step. wp_step.
  cbn [ask wp request_of]. split; [by apply unit_command_ok|]. intros r. apply HQ.
Qed.
Lemma answering_wp {A} (f : A -> answer) p : wp confined p (fun _ => True) -> wp confined (answering f p) (fun _ => True).
Proof. intros H. unfold answering. wp_step. eapply wp_mono; [|exact H]. by intros [a|e]. Qed.

Lemma perform_wp o : wp confined (perform o) (fun _ => True).
Proof.
  destruct o as [[] u|m u|u| | |u c|u|u]; cbn [perform]; apply answering_wp.
  - apply named_wp; [done|]. intros Hu. wp_step. apply query_wp; [done|by apply (bool_decide_unpack _)|]. intros [e|]; [|done].
    wp_step. apply query_wp; [done|by apply (bool_decide_unpack _)|]. by intros [a|].
  - apply named_wp; [done|]. intros Hu. wp_step. apply query_wp; [done|by apply (bool_decide_unpack _)|]. by intros [e|].
  - apply named_wp; [done|]. intros Hu. wp_step. apply query_wp; [done|by apply (bool_decide_unpack _)|]. by intros [e|].
  - apply named_wp; [done|]. intros Hu. wp_step. apply query_wp; [done|by apply (bool_decide_unpack _)|]. by intros [e|].
  - destruct m; apply verb_wp; try done; by apply (bool_decide_unpack _).
  - apply named_wp; [done|]. intros Hu. wp_step. cbn [ask wp request_of]. split; [|done].
    apply (unit_command_ok false ["show"; "--property=NeedDaemonReload"]%string); [by apply (bool_decide_unpack _)|done].
  - unfold DaemonReload, mutate, runPriv. do 2 wp_step. cbn [ask wp request_of]. split; [|done]. split; [done|by left].
  - unfold Version. wp_step. cbn [ask wp request_of]. split; [|done]. split; [done|]. right. by left.
  - apply named_wp; [done|]. intros Hu. destruct (UnitContent.validateUnitContent c) as [[]|] eqn:Hc; [|done].
    wp_step. cbn [ask wp request_of]. split; [|done]. split_and!; try done. by apply unit_path_file.
  - apply named_wp; [done|]. intros Hu. wp_step. cbn [ask wp request_of]. split; [|done]. by apply unit_path_file.
  - apply named_wp; [done|]. intros Hu. wp_step. cbn [ask wp request_of]. split; [|done]. by apply unit_path_file.
Qed.

(** On every host an operation only runs [systemctl] with its own words and a valid unit
    name after the end of the options, escalated exactly when it changes something, and
    only touches files directly in the unit directory, writing nothing the content policy
    refuses. *)
Theorem service_confined {S} (h : handler S) s o : Forall confined (asked h s (perform o)).
Proof. apply (wp_run confined h s _ _ (perform_wp o)). Qed.

(** ** What systemctl reports *)

Inductive file_state :=
| FEnabled | FEnabledRuntime | FLinked | FLinkedRuntime | FAlias | FMasked | FMaskedRuntime | FStatic | FIndirect
| FDisabled | FGenerated | FTransient.
Inductive active_state := AActive | AReloading | AInactive | AFailed | AActivating | ADeactivating.
Definition file_name (f : file_state) : string :=
  match f with
  | FEnabled => "enabled" | FEnabledRuntime => "enabled-runtime" | FLinked => "linked" | FLinkedRuntime => "linked-runtime"
  | FAlias => "alias" | FMasked => "masked" | FMaskedRuntime => "masked-runtime" | FStatic => "static"
  | FIndirect => "indirect" | FDisabled => "disabled" | FGenerated => "generated" | FTransient => "transient"
  end.
Definition active_name (a : active_state) : string :=
  match a with
  | AActive => "active" | AReloading => "reloading" | AInactive => "inactive" | AFailed => "failed"
  | AActivating => "activating" | ADeactivating => "deactivating"
  end.
Definition unit_state : Type := file_state * active_state.

Definition mutation_words (m : mutation) : list string :=
  match m with
  | MEnable => ["enable"] | MDisable => ["disable"] | MEnableNow => ["enable"; "--now"] | MDisableNow => ["disable"; "--now"]
  | MStart => ["start"] | MStop => ["stop"] | MRestart => ["restart"] | MReload => ["reload"] | MMask => ["mask"] | MUnmask => ["unmask"]
  end.
Lemma mutation_verb m : mutation_prog m = verb (mutation_words m).
Proof. by destruct m. Qed.

Definition file_states : list file_state :=
  [FEnabled; FEnabledRuntime; FLinked; FLinkedRuntime; FAlias; FMasked; FMaskedRuntime; FStatic; FIndirect;
   FDisabled; FGenerated; FTransient].
Definition active_states : list active_state := [AActive; AReloading; AInactive; AFailed; AActivating; ADeactivating].

(** The state that the output names, whatever the exit code: [is-enabled] and [is-active]
    fail for most of them. *)
Definition said {A} (name : A -> string) (all : list A) (x : Result * option exec_error) : option A :=
  match x with
  | (res, None) => List.find (fun f => bool_decide (trim_space (Stdout res) = str (name f))) all
  | (_, Some _) => None
  end.
Definition succeeded (x : Result * option exec_error) : bool :=
  match x with (res, None) => (ExitCode res =? 0)%Z | _ => false end.

(** What a state means. *)
Definition status_of (st : unit_state) : UnitStatus :=
  MkUnitStatus (match st.1 with FEnabled | FEnabledRuntime => true | _ => false end)
               (match st.2 with AActive => true | _ => false end)
               (match st.1 with FMasked | FMaskedRuntime => true | _ => false end)
               (match st.1 with FStatic | FIndirect | FGenerated => true | _ => false end).
Definition query_of (q : query_op) (st : unit_state) : answer :=
  match q with
  | QStatus => AStatus (status_of st)
  | QEnabled => ABool (Enabled (status_of st))
  | QMasked => ABool (Masked (status_of st))
  | QActive => ABool (Active (status_of st))
  end.
Inductive unit_op := UQuery (q : query_op) (u : gostring) | UMutate (m : mutation) (u : gostring).
Definition to_op (o : unit_op) : op := match o with UQuery q u => OQuery q u | UMutate m u => OMutate m u end.

(** What the operations come to on a host: one command per question, on a valid name. *)
Section Observed.
Context {S} (h : handler S).
Definition ask_unit (s : S) (escalate : bool) (words : list string) (u : gostring) : S * (Result * option exec_error) :=
  h _ s (CRun (MkCommand (str "systemctl") ((str <$> words) ++ [str "--"; u]) [] [] [] escalate) []).
Definition file_asked (s : S) (u : gostring) : S * option file_state :=
  let '(s1, x) := ask_unit s false ["is-enabled"%string] u in (s1, said file_name file_states x).
Definition active_asked (s : S) (u : gostring) : S * option active_state :=
  let '(s1, x) := ask_unit s false ["is-active"%string] u in (s1, said active_name active_states x).
Definition observed (s : S) (o : unit_op) : S * option answer :=
  match o with
  | UQuery q u =>
      if negb (validSystemdUnitName u) then (s, None)
      else match q with
      | QStatus =>
          match file_asked s u with
          | (s1, Some f) => let '(s2, a) := active_asked s1 u in (s2, (fun a => query_of q (f, a)) <$> a)
          | (s1, None) => (s1, None)
          end
      | QActive => let '(s1, a) := active_asked s u in (s1, (fun a => query_of q (FStatic, a)) <$> a)
      | QEnabled | QMasked => let '(s1, f) := file_asked s u in (s1, (fun f => query_of q (f, AInactive)) <$> f)
      end
  | UMutate m u =>
      if negb (validSystemdUnitName u) then (s, None)
      else let '(s1, x) := ask_unit s true (mutation_words m) u in (s1, if succeeded x then Some ANone else None)
  end.
Fixpoint observed_all (s : S) (os : list unit_op) : S * list (option answer) :=
  match os with
  | [] => (s, [])
  | o :: os' => let '(s1, a) := observed s o in let '(s2, l) := observed_all s1 os' in (s2, a :: l)
  end.
End Observed.
(** The operations one after the other. *)
Fixpoint perform_all (os : list unit_op) : prog (list (option answer)) :=
  match os with
  | [] => Ret []
  | o :: os' =>
      let! r := perform (to_op o) in
      let! l := perform_all os' in
      Ret ((match r with Ok a => Some a | Err _ => None end) :: l)
  end.

(** A command on a unit has a plain file name for the unit behind the end of its options. *)
Definition unit_command (q : request) : Prop :=
  exists esc words u, (esc, words) ∈ unit_commands /\
    q = QRun (MkCommand (str "systemctl") ((str <$> words) ++ [str "--"; u]) [] [] [] esc) [] /\
    ("/"%char ∉ u) /\ (NL ∉ u) /\ has_prefix u (str ".") = false /\ u <> [].

Section Refinement.
Context {S} (h : handler S).

Definition ok_of {A} (r : result svc_error A) : option A := match r with Ok a => Some a | Err _ => None end.
Lemma query_run {A} (name : A -> string) all v u s :
  validSystemctlOutputs (str v) = Some ((fun f => str (name f)) <$> all) ->
  let '(s1, x) := ask_unit h s false [v] u in
  exists r, run h s (query u (str v)) = (s1, r) /\ ok_of r = (fun f => str (name f)) <$> said name all x.
Proof.
  intros Hall. unfold query, ask_unit, unpriv. cbn [bind ask run fmap list_fmap app]. destruct (h _ s _) as [s1 [res [e|]]].
  { by eexists. }
  cbn [run said]. rewrite Hall. eexists. split; [done|].
  assert (Hf : forall out, ok_of (if bool_decide (out ∈ (fun f => str (name f)) <$> all) then Ok out else Err (EOutput (str v) out (ExitCode res)))
    = (fun f => str (name f)) <$> List.find (fun f => bool_decide (out = str (name f))) all).
  { clear Hall. intros out. induction all as [|f all IH]; [done|]. cbn [List.find]. rewrite fmap_cons.
    destruct (decide (out = str (name f))) as [->|E].
    - by rewrite !bool_decide_true by (done || left).
    - rewrite (bool_decide_false (out = _)), <- IH by done.
      by rewrite (bool_decide_ext (out ∈ str (name f) :: _) (out ∈ (fun f => str (name f)) <$> all)) by set_solver. }
  apply Hf.
Qed.

Lemma file_query_run u s :
  exists r, run h s (query u (str "is-enabled")) = ((file_asked h s u).1, r) /\
    ok_of r = (fun f => str (file_name f)) <$> (file_asked h s u).2.
Proof.
  pose proof (query_run file_name file_states "is-enabled" u s eq_refl) as H. unfold file_asked.
  by destruct (ask_unit h s false _ u) as [s1 x].
Qed.
Lemma active_query_run u s :
  exists r, run h s (query u (str "is-active")) = ((active_asked h s u).1, r) /\
    ok_of r = (fun f => str (active_name f)) <$> (active_asked h s u).2.
Proof.
  pose proof (query_run active_name active_states "is-active" u s eq_refl) as H. unfold active_asked.
  by destruct (ask_unit h s false _ u) as [s1 x].
Qed.

Lemma observed_run s o : exists r, run h s (perform (to_op o)) = ((observed h s o).1, r) /\ ok_of r = (observed h s o).2.
Proof.
  destruct o as [q u|m u]; cbn [to_op perform observed].
  - destruct q; cbn [perform]; unfold answering, bind_ok, Status, IsEnabled, IsMasked, IsActive, named, ValidateUnitName;
      (destruct (validSystemdUnitName u) eqn:Hu; cbn [negb]; [|by eexists]); unfold bind_ok; rewrite !run_bind;
      first [destruct (active_query_run u s) as (r & -> & Hr); destruct (active_asked h s u) as [s1 f]
            |destruct (file_query_run u s) as (r & -> & Hr); destruct (file_asked h s u) as [s1 f]]; cbn [fst snd] in *.
    + destruct r as [out|e], f as [f|]; try done; [|by eexists]. rewrite run_bind.
      destruct (active_query_run u s1) as (r & -> & Ha); destruct (active_asked h s1 u) as [s2 a]; cbn [fst snd] in *.
      destruct r as [out2|e], a as [a|]; try done; [|by eexists]. injection Hr as ->. injection Ha as ->.
      eexists. split; [reflexivity|]. by destruct f, a.
    + destruct r as [out|e], f as [f|]; try done; [|by eexists]. injection Hr as ->. eexists. split; [reflexivity|]. by destruct f.
    + destruct r as [out|e], f as [f|]; try done; [|by eexists]. injection Hr as ->. eexists. split; [reflexivity|]. by destruct f.
    + destruct r as [out|e], f as [f|]; try done; [|by eexists]. injection Hr as ->. eexists. split; [reflexivity|]. by destruct f.
  - rewrite mutation_verb. unfold answering, bind_ok, verb, named, ValidateUnitName, ask_unit.
    destruct (validSystemdUnitName u) eqn:Hu; cbn [negb]; [|by eexists]. unfold mutate, runPriv, priv. cbn [bind ask run].
    destruct (h _ s _) as [s1 [res [e|]]]; cbn [run cmd_result succeeded bind]; [by eexists|].
    destruct (ExitCode res =? 0)%Z; cbn [bind run]; by eexists.
Qed.

Lemma unit_command_wp o : wp unit_command (perform (to_op o)) (fun _ => True).
Proof.
  assert (Hq : forall u v Q, validSystemdUnitName u = true -> v ∈ (["is-enabled"; "is-active"]%string) -> (forall r : result svc_error gostring, Q r) ->
    wp unit_command (query u (str v)) Q).
  { intros u v Q Hu Hv HQ. unfold query. wp_step. cbn [ask wp request_of]. split; [|intros x; apply HQ].
    exists false, [v], u. split; [|split; [done|by apply unit_name_component]]. unfold unit_commands.
    repeat (apply elem_of_cons in Hv as [->|Hv]; [by apply (bool_decide_unpack _)|]). by apply elem_of_nil in Hv. }
  assert (Ha : forall A (f : A -> answer) p, wp unit_command p (fun _ => True) -> wp unit_command (answering f p) (fun _ => True)).
  { intros A f p H. unfold answering. wp_step. eapply wp_mono; [|exact H]. by intros [a|e]. }
  assert (Hn : forall A u (k : prog (result svc_error A)),
    (validSystemdUnitName u = true -> wp unit_command k (fun _ => True)) -> wp unit_command (named u k) (fun _ => True)).
  { intros A u k Hk. unfold named, ValidateUnitName. destruct (validSystemdUnitName u); [by apply Hk|done]. }
  destruct o as [[] u|m u]; cbn [to_op perform]; apply Ha.
  - apply Hn. intros Hu. wp_step. apply Hq; [done|by apply (bool_decide_unpack _)|]. intros [e|]; [|done].
    wp_step. apply Hq; [done|by apply (bool_decide_unpack _)|]. by intros [a|].
  - apply Hn. intros Hu. wp_step. apply Hq; [done|by apply (bool_decide_unpack _)|]. by intros [e|].
  - apply Hn. intros Hu. wp_step. apply Hq; [done|by apply (bool_decide_unpack _)|]. by intros [e|].
  - apply Hn. intros Hu. wp_step. apply Hq; [done|by apply (bool_decide_unpack _)|]. by intros [e|].
  - rewrite mutation_verb. apply Hn. intros Hu. unfold mutate, runPriv. wp_step. wp_step. cbn [ask wp request_of]. split; [|done].
    exists true, (mutation_words m), u. split; [destruct m; by apply (bool_decide_unpack _)|]. split; [done|by apply unit_name_component].
Qed.

(** C18: On every host, any sequence of queries and mutations runs exactly one [systemctl] command
    for each question (a status asks two), with the unit behind the end of the options,
    escalated only for a mutation, and none for an invalid unit name; a query answers what the
    state that the command printed means, and fails when it printed no such state or did not
    run; a mutation succeeds exactly when its command ran and exited with 0; and every unit
    name that reaches a command is a single plain path component. *)
Theorem service_observed os s :
  run h s (perform_all os) = observed_all h s os /\ Forall unit_command (asked h s (perform_all os)).
Proof.
  revert s. induction os as [|o os IH]; intros s; [by split|]. cbn [perform_all observed_all].
  destruct (observed_run s o) as (r & Hr & Ho). rewrite run_bind, Hr. cbn [fst snd]. rewrite run_bind.
  destruct (observed h s o) as [s1 a]. cbn [fst snd] in *. destruct (IH s1) as [E Hasked]. rewrite E.
  destruct (observed_all h s1 os) as [s2 l]. cbn [fst snd run] in *. subst a. split; [by destruct r|].
  rewrite asked_bind, Hr. cbn [fst snd]. apply list.Forall_app. split; [apply (wp_run unit_command h s _ _ (unit_command_wp o))|].
  rewrite asked_bind. cbn [asked]. by rewrite app_nil_r.
Qed.
End Refinement.

Definition nginx : gostring := str "nginx.service".
End ServiceOps.

(** * Service management: unit files and the version ([src/sys/service])

    The unit files are a finite map from names to contents. *)

Module ServiceFiles.
Import Exec HostProg HostCmd Words Service ServiceOps.

(** ** Unit files *)

Inductive file_op := FWrite (u content : gostring) | FRead (u : gostring) | FRemove (u : gostring).
Definition file_prog (o : file_op) : prog (result svc_error answer) :=
  match o with
  | FWrite u c => perform (OWrite u c)
  | FRead u => perform (ORead u)
  | FRemove u => perform (ORemove u)
  end.
Fixpoint file_progs (os : list file_op) : prog (list (result svc_error answer)) :=
  match os with
  | [] => Ret []
  | o :: os' => let! r := file_prog o in let! l := file_progs os' in Ret (r :: l)
  end.

(** The units as a map from names to contents. *)
Definition map_step (m : gmap gostring gostring) (o : file_op) : gmap gostring gostring * result svc_error answer :=
  let named u k := if validSystemdUnitName u then k else (m, Err (EUnitName u)) in
  match o with
  | FWrite u c => named u (match UnitContent.validateUnitContent c with
                           | Err e => (m, Err (EUnitContent e))
                           | Ok _ => (<[u := c]> m, Ok ANone)
                           end)
  | FRead u => named u (m, match m !! u with Some c => Ok (AText c) | None => Err (EFs NotExist) end)
  | FRemove u => named u (delete u m, Ok ANone)
  end.
Fixpoint map_run (m : gmap gostring gostring) (os : list file_op) : gmap gostring gostring * list (result svc_error answer) :=
  match os with
  | [] => (m, [])
  | o :: os' => let '(m1, a) := map_step m o in let '(m2, l) := map_run m1 os' in (m2, a :: l)
  end.

(** What the file manager promises about whole files. *)
Class FileHost {S} (h : handler S) (files : S -> gostring -> option gostring) : Prop := {
  writes s p d m o g : exists s', h _ s (CFs (FsWriteFile p d m o g)) = (s', None) /\
    forall q, files s' q = if bool_decide (q = p) then Some d else files s q;
  removes s p : exists s', h _ s (CFs (FsRemove p)) = (s', None) /\
    forall q, files s' q = if bool_decide (q = p) then None else files s q;
  reads s p : h _ s (CFsReadFile p) = (s, match files s p with Some d => Ok d | None => Err NotExist end)
}.

Section Files.
Context {S} (h : handler S) (files : S -> gostring -> option gostring) `{FileHost S h files}.

(** The files of the units are the map, and every other file is as it was. *)
Definition represents (f0 : gostring -> option gostring) (s : S) (m : gmap gostring gostring) : Prop :=
  (forall u, validSystemdUnitName u = true -> files s (unit_path u) = m !! u) /\
  (forall p, (forall u, validSystemdUnitName u = true -> p <> unit_path u) -> files s p = f0 p).

Lemma unit_path_inj u v : unit_path u = unit_path v -> u = v.
Proof. apply app_inv_head. Qed.

Lemma file_step f0 s m o :
  represents f0 s m ->
  exists s', run h s (file_prog o) = (s', (map_step m o).2) /\ represents f0 s' (map_step m o).1.
Proof.
  intros [Hu Ho]. destruct o as [u c|u|u]; cbn [file_prog perform map_step]; unfold answering, bind_ok, WriteUnit, ReadUnit, RemoveUnit, named, ValidateUnitName;
    destruct (validSystemdUnitName u) eqn:Hv; try (by exists s).
  - destruct (UnitContent.validateUnitContent c) as [[]|e]; [|by exists s].
    destruct (writes s (unit_path u) c 420%N (str "root") (str "root")) as (s' & Hw & Hf).
    cbn [bind ask run]. rewrite Hw. exists s'. split; [done|]. split; cbn [fst].
    + intros v Hvv. rewrite Hf. case_bool_decide as E.
      * apply unit_path_inj in E as ->. by rewrite lookup_insert_eq.
      * rewrite lookup_insert_ne by (by intros ->). by apply Hu.
    + intros p Hp. rewrite Hf, bool_decide_false by by apply Hp. by apply Ho.
  - cbn [bind ask run]. rewrite reads, Hu by done. exists s. by destruct (m !! u).
  - destruct (removes s (unit_path u)) as (s' & Hw & Hf). cbn [bind ask run]. rewrite Hw. exists s'. split; [done|].
    split; cbn [fst].
    + intros v Hvv. rewrite Hf. case_bool_decide as E.
      * apply unit_path_inj in E as ->. by rewrite lookup_delete_eq.
      * rewrite lookup_delete_ne by (by intros ->). by apply Hu.
    + intros p Hp. rewrite Hf, bool_decide_false by by apply Hp. by apply Ho.
Qed.

(** Any sequence of writes, reads and removals of unit files answers as the map does, and
    leaves every file that is not the file of a unit alone. *)
Theorem unit_files_refine_map os f0 s m :
  represents f0 s m ->
  (run h s (file_progs os)).2 = (map_run m os).2 /\ represents f0 (run h s (file_progs os)).1 (map_run m os).1.
Proof.
  revert s m. induction os as [|o os IH]; intros s m Hr; [done|]. cbn [file_progs map_run]. rewrite run_bind.
  destruct (file_step _ _ _ o Hr) as (s1 & -> & Hr1). destruct (map_step m o) as [m1 a]. cbn [fst snd] in *.
  rewrite run_bind. destruct (IH s1 m1 Hr1) as [Ha Hs]. destruct (run h s1 (file_progs os)) as [s2 l], (map_run m1 os) as [m2 l'].
  cbn [fst snd run] in *. by subst.
Qed.
End Files.

(** A host of files. *)
Definition files_host : handler (gmap gostring gostring) :=
  fun X s c =>
    match c in call X return gmap gostring gostring * X with
    | CFs (FsWriteFile p d _ _ _) => (<[p := d]> s, None)
    | CFs (FsRemove p) => (delete p s, None)
    | CFs _ => (s, None)
    | CFsReadFile p => (s, match s !! p with Some d => Ok d | None => Err NotExist end)
    | c' => command_host (fun s _ _ => (s, (MkResult 1 [] [], None))) absent absent _ s c'
    end.
#[export] Instance files_host_ok : FileHost files_host (fun s p => s !! p).
Proof.
  split.
  - intros s p d m o g. eexists. split; [done|]. intros q. case_bool_decide as E; [by rewrite E, lookup_insert_eq|by rewrite lookup_insert_ne].
  - intros s p. eexists. split; [done|]. intros q. case_bool_decide as E; [by rewrite E, lookup_delete_eq|by rewrite lookup_delete_ne].
  - intros s p. done.
Qed.

Definition unit_text : gostring := str "[Service]" ++ [NL] ++ str "ExecStart=/usr/bin/agent" ++ [NL].
Lemma unit_files_refine_map_witness :
  (run files_host ∅ (file_progs [FRead nginx; FWrite nginx unit_text; FRead nginx; FWrite (str "../x.service") unit_text;
     FRemove nginx; FRead nginx])).2 =
  [Err (EFs NotExist); Ok ANone; Ok (AText unit_text); Err (EUnitName (str "../x.service")); Ok ANone; Err (EFs NotExist)].
Proof.
  destruct (unit_files_refine_map files_host (fun s p => s !! p)
    [FRead nginx; FWrite nginx unit_text; FRead nginx; FWrite (str "../x.service") unit_text; FRemove nginx; FRead nginx]
    (fun _ => None) ∅ ∅) as [-> _]; [by split; intros; rewrite !lookup_empty|]. vm_compute. reflexivity.
Defined.

(** ** The version *)

(** The first line of [systemctl --version] names the program and then the version. *)
Lemma Version_reads {S} (h : handler S) s s' (n : nat) tail rest :
  (Z.of_nat n <= int_max)%Z -> Forall (fun w => word w = true) tail ->
  succeeds h s (unpriv (str "systemctl") [str "--version"])
    (join ([str "systemd"; itoa n] ++ tail) (str " ") ++ NL :: rest) s' ->
  run h s Version = (s', Ok (Z.of_nat n)).
Proof.
  intros Hn Ht (stderr & Hh). unfold Version. cbn [bind ask run]. rewrite Hh. cbn [run Stdout].
  assert (Hw : Forall (fun w => word w = true) ([str "systemd"; itoa n] ++ tail)).
  { apply List.Forall_cons; [done|]. apply List.Forall_cons; [apply itoa_word|done]. }
  unfold first_line. rewrite cut_app.
  - rewrite fields_join by done. cbn [app first_int]. change (atoi (str "systemd")) with (@None Z). cbn iota.
    rewrite atoi_itoa; [done|lia].
  - eapply forallb_not_elem with (p := fun c => visible c || bool_decide (c = " "%char)); [|done].
    apply forallb_join; [done|]. eapply list.Forall_impl; [exact Hw|]. intros w [_ Hv]%word_spec.
    eapply forallb_mono; [|exact Hv]. by intros c ->.
Qed.
End ServiceFiles.
