(* ===== verification/RepoMgr.v ===== *)
(** * Package repositories: the managers ([src/sys/repo])

    Applying and removing repositories for apt, dnf, pacman and zypper, and the
    dispatch between them, as programs over the host's file manager and runner. *)
From S2P Require Import Prelude Paths Exec HostProg Words Json Repo HostCmd.

Module RepoMgr.
Import Exec HostProg HostCmd Repo.

(** ** Zypper's configuration and the dispatch's data ([repo.go], [validate.go]) *)

Record ZypperConfig := MkZypper {
  z_URL : gostring; z_Description : gostring; z_Enabled : bool; Autorefresh : bool;
  z_GPGCheck : bool; z_GPGKey : gostring; z_Type : gostring
}.
Definition validZypperType : gostring -> bool := matches alnum (fun c => alnum c || one_of (str "-") c).

Record Repository := MkRepository {
  Name : gostring; Apt : option AptConfig; Dnf : option DnfConfig; Pacman : option PacmanConfig; Zypper : option ZypperConfig
}.
(** [Outcome]: the notes of the log (error texts left out) and the flag. *)
Record Outcome := MkOutcome { o_log : list gostring; Changed : bool }.

Inductive mgr_error :=
| EConfig (e : repo_error)
| EMissingConfig (backend : gostring)
| EUnsupported
| ERunnerRequired
| ENewFS (e : fs_err)
| EFs (what : gostring) (e : fs_err)
| ECmd (what : gostring) (e : cmd_error)
| ERejected (file : gostring) (e : cmd_error).

Section Manager.
Context (Parse : gostring -> option URL).
(** The text of a runner error. *)
Context (exec_text : exec_error -> gostring).

Definition validateZypper (c : ZypperConfig) : result repo_error unit :=
  if bool_decide (z_URL c = []) then Err (ErrMissing (str "zypper.url"))
  else
    let? _ := rejectControl (str "zypper.description") (z_Description c) in
    let? _ := rejectControl (str "zypper.type") (z_Type c) in
    if negb (bool_decide (z_Type c = [])) && negb (validZypperType (z_Type c)) then Err (BadShape (str "zypper.type"))
    else if negb (ValidateRepoBaseURL Parse (z_URL c)) then Err (BadShape (str "zypper.url"))
    else if negb (bool_decide (z_GPGKey c = [])) && negb (ValidateGpgKeyRef Parse (z_GPGKey c))
    then Err (BadShape (str "zypper.gpgkey")) else Ok tt.

(** The four backends [New] accepts. *)
Inductive backend := BApt | BDnf | BPacman | BZypper.
Definition backend_of (b : Z) : option backend :=
  match b with 1%Z => Some BApt | 2%Z => Some BDnf | 3%Z => Some BPacman | 4%Z => Some BZypper | _ => None end.
Definition New (b : Z) (runner : bool) (newFS : option fs_err) : result mgr_error backend :=
  if negb runner then Err ERunnerRequired
  else match backend_of b with
       | None => Err EUnsupported
       | Some k => match newFS with Some e => Err (ENewFS e) | None => Ok k end
       end.

Definition when {A} (o : option A) (f : A -> result repo_error unit) : result repo_error unit :=
  match o with Some a => f a | None => Ok tt end.
Definition Validate (b : backend) (r : Repository) : result repo_error unit :=
  let? _ := validateName (Name r) in
  match b with
  | BApt => when (Apt r) (validateApt Parse)
  | BDnf => when (Dnf r) (validateDnf Parse)
  | BPacman => let? _ := validatePacmanName (Name r) in when (Pacman r) (validatePacman Parse)
  | BZypper => when (Zypper r) validateZypper
  end.

(** ** Commands and files ([repo.go]) *)

(** [CommandError.Error()] ([exec/command_error.go]). *)
Definition error_text (e : cmd_error) : gostring :=
  match e with
  | RunFailed e => exec_text e
  | ExitFailed name code stderr =>
      let s := trim_space stderr in
      name ++ str ": exit " ++ Json.int_lit code ++ (if bool_decide (s = []) then [] else str ": " ++ s)
  end.

Definition with_error (name : gostring) (r : Result * option exec_error) : Result * option cmd_error :=
  (r.1, match r.2 with
        | Some e => Some (RunFailed e)
        | None => if (ExitCode r.1 =? 0)%Z then None else Some (ExitFailed name (ExitCode r.1) (Stderr r.1))
        end).
Definition runPriv (name : gostring) (args : list gostring) : prog (Result * option cmd_error) :=
  let! r := ask (CRun (priv name args) []) in Ret (with_error name r).
Definition runStdin (stdin name : gostring) (args : list gostring) : prog (Result * option cmd_error) :=
  let! r := ask (CRun (unpriv name args) stdin) in Ret (with_error name r).

Definition note (o : gostring) : list gostring := match o with [] => [] | _ => [o] end.
Definition runNonFatal (log : list gostring) (warnMsg name : gostring) (args : list gostring) : prog (list gostring) :=
  let! (res, err) := runPriv name args in
  Ret (log ++ note (Stdout res) ++ match err with Some _ => [warnMsg] | None => [] end).

(** Absence is no content; other errors are fatal. *)
Definition read_opt (what p : gostring) : prog (result mgr_error (option gostring)) :=
  let! r := ask (CFsReadFile p) in
  Ret (match r with
       | Ok d => Ok (Some d)
       | Err NotExist => Ok None
       | Err e => Err (EFs what e)
       end).
Definition fs (what : gostring) (op : fs_op) : prog (result mgr_error unit) :=
  let! r := ask (CFs op) in Ret (match r with Some e => Err (EFs what e) | None => Ok tt end).
Definition write (p d : gostring) : fs_op := FsWriteFile p d 420 [] [].
Definition exists_ (what p : gostring) : prog (result mgr_error bool) :=
  let! r := ask (CFsExists p) in Ret (match r with Err e => Err (EFs what e) | Ok b => Ok b end).
(** A removal whose failure is a warning. *)
Definition try_remove (log : list gostring) (p warning : gostring) : prog (list gostring) :=
  let! r := ask (CFs (FsRemove p)) in Ret (log ++ match r with Some _ => [warning] | None => [] end).

(** ** dnf ([dnf.go]) *)

Definition dnfRepoFile (name : gostring) : gostring := str "/etc/yum.repos.d/" ++ name ++ str ".repo".

Definition applyDnf (name : gostring) (c : DnfConfig) : prog (result mgr_error Outcome) :=
  let repoFile := dnfRepoFile name in
  let desired := dnf_content name c in
  let!? existing := read_opt (str "read existing repo file") repoFile in
  if bool_decide (default [] existing = desired)
  then Ret (Ok (MkOutcome [str "repository " ++ name ++ str " already up to date"] false))
  else
    let!? _ := fs (str "write repo file") (write repoFile desired) in
    let log := [str "configured repository: " ++ name] in
    let! log :=
      if GPGCheck c && negb (bool_decide (dnf_GPGKey c = [])) then
        runNonFatal log (str "warning: failed to import GPG key") (str "rpm")
          (SeparatePositionals [str "--import"] [dnf_GPGKey c])
      else Ret log in
    let! log := runNonFatal log (str "warning: failed to refresh repo metadata") (str "dnf")
                  [str "-y"; str "makecache"; str "--repo"; name] in
    Ret (Ok (MkOutcome log true)).

Definition removeDnf (name : gostring) : prog (result mgr_error Outcome) :=
  let repoFile := dnfRepoFile name in
  let!? e := exists_ (str "check repo file") repoFile in
  if negb e then Ret (Ok (MkOutcome [str "repository " ++ name ++ str " already absent"] false))
  else
    let!? _ := fs (str "remove repo file") (FsRemove repoFile) in
    Ret (Ok (MkOutcome [str "removed repository: " ++ name] true)).

(** ** pacman ([pacman.go]) *)

Definition pacmanConf : gostring := str "/etc/pacman.conf".

Definition applyPacman (name : gostring) (c : PacmanConfig) : prog (result mgr_error Outcome) :=
  let!? conf := read_opt (str "read pacman.conf") pacmanConf in
  let confStr := default [] conf in
  let newConf := pacman_conf confStr name c in
  if bool_decide (newConf = confStr)
  then Ret (Ok (MkOutcome [str "repository " ++ name ++ str " already configured"] false))
  else
    let!? _ := fs (str "write pacman.conf") (write pacmanConf newConf) in
    let! log := runNonFatal [str "configured repository: " ++ name] (str "warning: failed to sync repository database")
                  (str "pacman") [str "-Sy"; str "--noconfirm"] in
    Ret (Ok (MkOutcome log true)).

Definition removePacman (name : gostring) : prog (result mgr_error Outcome) :=
  match validatePacmanName name with
  | Err e => Ret (Err (EConfig e))
  | Ok _ =>
      let!? conf := read_opt (str "read pacman.conf") pacmanConf in
      let confStr := default [] conf in
      if negb (contains confStr (section_header name))
      then Ret (Ok (MkOutcome [str "repository " ++ name ++ str " not found, nothing to remove"] false))
      else
        let!? _ := fs (str "write pacman.conf") (write pacmanConf (removePacmanSection confStr name)) in
        Ret (Ok (MkOutcome [str "removed repository: " ++ name] true))
  end.

(** ** zypper ([zypper.go]) *)

Definition addrepo_args (name : gostring) (c : ZypperConfig) : list gostring :=
  [str "--non-interactive"; str "addrepo"] ++
  (if Autorefresh c then [str "--refresh"] else []) ++
  (if negb (z_GPGCheck c) then [str "--no-gpgcheck"] else []) ++
  (if negb (bool_decide (z_Type c = [])) then [str "--type"; z_Type c] else []) ++
  [z_URL c; name].
Definition fatal (what name : gostring) (args : list gostring) : prog (result mgr_error unit) :=
  let! (res, err) := runPriv name args in Ret (match err with Some e => Err (ECmd what e) | None => Ok tt end).

Definition applyZypper (name : gostring) (c : ZypperConfig) : prog (result mgr_error Outcome) :=
  let! (_, pre) := runPriv (str "zypper") [str "--non-interactive"; str "removerepo"; name] in
  let log := match pre with Some _ => [str "note: pre-add removerepo failed"] | None => [] end in
  let! (res, err) := runPriv (str "zypper") (addrepo_args name c) in
  let log := log ++ note (Stdout res) in
  match err with
  | Some e => Ret (Err (ECmd (str "add repository") e))
  | None =>
      let log := log ++ [str "configured repository: " ++ name] in
      let!? _ :=
        if negb (bool_decide (z_Description c = [])) then
          fatal (str "set repo description") (str "zypper")
            [str "--non-interactive"; str "modifyrepo"; str "--name=" ++ z_Description c; name]
        else Ret (Ok tt) in
      let!? _ :=
        if z_Enabled c
        then fatal (str "enable repo") (str "zypper") [str "--non-interactive"; str "modifyrepo"; str "--enable"; name]
        else fatal (str "disable repo") (str "zypper") [str "--non-interactive"; str "modifyrepo"; str "--disable"; name] in
      let! log :=
        if z_GPGCheck c && negb (bool_decide (z_GPGKey c = [])) then
          runNonFatal log (str "warning: failed to import GPG key") (str "rpm")
            (SeparatePositionals [str "--import"] [z_GPGKey c])
        else Ret log in
      let! log := runNonFatal log (str "warning: failed to refresh repo") (str "zypper")
                    [str "--non-interactive"; str "refresh"; name] in
      Ret (Ok (MkOutcome log true))
  end.

Definition removeZypper (name : gostring) : prog (result mgr_error Outcome) :=
  let! (res, err) := runPriv (str "zypper") [str "--non-interactive"; str "removerepo"; name] in
  match err with
  | Some e => Ret (Err (ECmd (str "remove repository") e))
  | None =>
      if contains (Stdout res ++ Stderr res) (str "not found")
      then Ret (Ok (MkOutcome [str "repository " ++ name ++ str " not found, nothing to remove"] false))
      else Ret (Ok (MkOutcome [str "removed repository: " ++ name] true))
  end.

(** ** apt ([apt.go]) *)

Definition aptSourcesDir : gostring := str "/etc/apt/sources.list.d".
Definition aptKeyringDir : gostring := str "/etc/apt/keyrings".
Definition aptLegacyKeyDir : gostring := str "/etc/apt/trusted.gpg.d".
Definition aptRepoFile (name : gostring) : gostring := aptSourcesDir ++ str "/" ++ name ++ str ".sources".
Definition aptLegacyRepoFile (name : gostring) : gostring := aptSourcesDir ++ str "/" ++ name ++ str ".list".
Definition aptKeyFile (name : gostring) : gostring := aptKeyringDir ++ str "/" ++ name ++ str ".gpg".
Definition aptLegacyKeyFile (name : gostring) : gostring := aptLegacyKeyDir ++ str "/" ++ name ++ str ".gpg".

(** [signed-by=([^\s\]]+)], every match. *)
Definition key_char (c : ascii) : bool := negb (re_space c || bool_decide (c = "]"%char)).
Fixpoint aptListSignedBy (fuel : nat) (s : gostring) : list gostring :=
  match fuel, s with
  | 0, _ | _, [] => []
  | S fuel', _ :: s' =>
      if has_prefix s (str "signed-by=") then
        let '(m, rest) := span key_char (drop 10 s) in
        match m with [] => aptListSignedBy fuel' s' | _ => m :: aptListSignedBy fuel' rest end
      else aptListSignedBy fuel' s'
  end.

Definition in_dir (dir p : gostring) : option bool :=
  let prefix := dir ++ str "/" in
  if has_prefix p prefix then
    let rest := drop (length prefix) p in
    Some (negb (bool_decide (rest = []) || contains rest (str "/") || contains rest (str "..")))
  else None.
Definition isAptKeyringPath (p : gostring) : bool :=
  match in_dir aptKeyringDir p with
  | Some b => b
  | None => match in_dir aptLegacyKeyDir p with Some b => b | None => false end
  end.

Definition signed_by_line (l : gostring) : option gostring :=
  let l := trim_space l in
  if has_prefix l (str "Signed-By:") then Some (trim_space (drop (length (str "Signed-By:")) l)) else None.
Definition keyPaths (filename content : gostring) : list gostring :=
  if has_suffix filename (str ".sources") then omap signed_by_line (split_byte content NL)
  else aptListSignedBy (length content) content.

Fixpoint remove_keys (log : list gostring) (skipKeyFile : gostring) (paths : list gostring) : prog (list gostring) :=
  match paths with
  | [] => Ret log
  | p :: rest =>
      if bool_decide (p = skipKeyFile) || negb (has_prefix p (str "/")) then remove_keys log skipKeyFile rest
      else if negb (isAptKeyringPath p)
      then remove_keys (log ++ [str "refusing to remove out-of-jail Signed-By key: " ++ p]) skipKeyFile rest
      else
        let! log := try_remove (log ++ [str "removing associated GPG key: " ++ p]) p
                      (str "warning: failed to remove conflicting GPG key") in
        remove_keys log skipKeyFile rest
  end.
Definition removeConflictKeys (log : list gostring) (filename content skipKeyFile : gostring) : prog (list gostring) :=
  remove_keys log skipKeyFile (keyPaths filename content).

(** Whether the scan looks into an entry. *)
Definition candidate (skipRepoFile : gostring) (e : gostring * bool) : option gostring :=
  let '(filename, isDir) := e in
  let filePath := aptSourcesDir ++ str "/" ++ filename in
  if isDir then None
  else if negb (has_suffix filename (str ".sources")) && negb (has_suffix filename (str ".list")) then None
  else if bool_decide (filePath = skipRepoFile) then None
  else if bool_decide (trim_suffix filePath (str ".list") ++ str ".sources" = skipRepoFile) then None
  else Some filePath.
Fixpoint clean_entries (url skipRepoFile skipKeyFile : gostring) (log : list gostring) (cleaned : bool)
    (entries : list (gostring * bool)) : prog (list gostring * bool) :=
  match entries with
  | [] => Ret (log, cleaned)
  | e :: rest =>
      match candidate skipRepoFile e with
      | None => clean_entries url skipRepoFile skipKeyFile log cleaned rest
      | Some filePath =>
          let! r := ask (CFsReadFile filePath) in
          match r with
          | Err _ => clean_entries url skipRepoFile skipKeyFile log cleaned rest
          | Ok content =>
              if negb (contains content url) then clean_entries url skipRepoFile skipKeyFile log cleaned rest
              else
                let! log := removeConflictKeys (log ++ [str "removing conflicting repository config: " ++ filePath])
                              e.1 content skipKeyFile in
                let! log := try_remove log filePath (str "warning: failed to remove conflicting repo file") in
                clean_entries url skipRepoFile skipKeyFile log true rest
          end
      end
  end.
Definition cleanupConflictingApt (url skipRepoFile skipKeyFile : gostring) : prog (list gostring * bool) :=
  let! r := ask (CFsReadDir aptSourcesDir) in
  match r with
  | Err NotExist => Ret ([], false)
  | Err _ => Ret ([str "warning: could not scan for conflicts"], false)
  | Ok entries => clean_entries url skipRepoFile skipKeyFile [] false entries
  end.

(** A legacy file is removed when it is there. *)
Definition drop_legacy (check what p : gostring) (st : list gostring * bool) : prog (result mgr_error (list gostring * bool)) :=
  let!? e := exists_ check p in
  if e then
    let! log := try_remove (st.1 ++ [str "removing legacy " ++ what ++ p]) p (str "warning: failed to remove legacy") in
    Ret (Ok (log, true))
  else Ret (Ok st).

Definition updateAptKey (keyFile key : gostring) (log : list gostring) : prog (result mgr_error (list gostring * bool)) :=
  let! (res, err) := runStdin key (str "gpg") [str "--dearmor"] in
  match err with
  | Some e => Ret (Err (ECmd (str "dearmor GPG key") e))
  | None =>
      let newKey := Stdout res in
      let!? existing := read_opt (str "read existing GPG key") keyFile in
      if bool_decide (existing = Some newKey) then Ret (Ok (log ++ [str "GPG key already installed and matches"], false))
      else
        let log := log ++ [match existing with None => str "GPG key not found, installing" | Some _ => str "GPG key differs, updating" end] in
        let!? _ := fs (str "install GPG key") (write keyFile newKey) in
        Ret (Ok (log, true))
  end.

(** The refresh after a change: a rejection of the file just written is undone. *)
Definition refresh (name repoFile : gostring) (existing : option gostring) (log : list gostring) : prog (result mgr_error Outcome) :=
  let! (res, err) := runPriv (str "apt-get") [str "update"] in
  let log := log ++ note (Stdout res) in
  match err with
  | None => Ret (Ok (MkOutcome log true))
  | Some e =>
      if contains (error_text e ++ Stdout res ++ Stderr res) repoFile then
        let! _ := (match default [] existing with
                   | [] => ask (CFs (FsRemove repoFile))
                   | old => ask (CFs (write repoFile old))
                   end) in
        Ret (Err (ERejected repoFile e))
      else Ret (Ok (MkOutcome (log ++ [str "warning: apt-get update failed after configuring " ++ name]) true))
  end.

Definition applyApt (name : gostring) (c : AptConfig) : prog (result mgr_error Outcome) :=
  let repoFile := aptRepoFile name in
  let keyFile := aptKeyFile name in
  let! st := cleanupConflictingApt (apt_URL c) repoFile keyFile in
  let!? st := drop_legacy (str "check legacy repo file") (str "repository file: ") (aptLegacyRepoFile name) st in
  let!? st := drop_legacy (str "check legacy GPG key") (str "GPG key: ") (aptLegacyKeyFile name) st in
  let!? _ := fs (str "create keyrings directory") (FsMkdir aptKeyringDir 493 [] [] true) in
  let!? st :=
    if negb (bool_decide (apt_GPGKey c = [])) then
      let!? (log, updated) := updateAptKey keyFile (apt_GPGKey c) st.1 in
      Ret (Ok (log ++ [if updated : bool then str "GPG key updated" else str "GPG key unchanged"], st.2 || updated))
    else Ret (Ok st) in
  let (log, changed) := st in
  let desired := buildAptSources name c keyFile in
  let!? existing := read_opt (str "read existing repo file") repoFile in
  if bool_decide (default [] existing = desired) && negb changed
  then Ret (Ok (MkOutcome (log ++ [str "repository already up to date: " ++ name]) false))
  else if negb (bool_decide (default [] existing = desired)) then
    let!? _ := fs (str "write repo file") (write repoFile desired) in
    refresh name repoFile existing (log ++ [str "configured repository: " ++ name])
  else refresh name repoFile existing log.

Fixpoint any_exists (paths : list gostring) (found : bool) : prog (result mgr_error bool) :=
  match paths with
  | [] => Ret (Ok found)
  | p :: rest => let!? e := exists_ (str "check") p in any_exists rest (found || e)
  end.
Definition removeApt (name : gostring) : prog (result mgr_error Outcome) :=
  let repoFile := aptRepoFile name in
  let legacyFile := aptLegacyRepoFile name in
  let keyFile := aptKeyFile name in
  let!? anyExists := any_exists [repoFile; legacyFile; keyFile] false in
  if negb anyExists then Ret (Ok (MkOutcome [str "repository " ++ name ++ str " already absent"] false))
  else
    let!? _ := fs (str "remove repo file") (FsRemove repoFile) in
    let! log := try_remove [] legacyFile (str "warning: failed to remove legacy repo file") in
    let! log := try_remove log keyFile (str "warning: failed to remove GPG key") in
    Ret (Ok (MkOutcome (log ++ [str "removed repository: " ++ name]) true)).

(** ** Dispatch ([repo.go]) *)

Definition configured {A} (backend : string) (o : option A) (f : A -> prog (result mgr_error Outcome)) : prog (result mgr_error Outcome) :=
  match o with None => Ret (Err (EMissingConfig (str backend))) | Some a => f a end.
Definition Apply (b : backend) (r : Repository) : prog (result mgr_error Outcome) :=
  match Validate b r with
  | Err e => Ret (Err (EConfig e))
  | Ok _ =>
      match b with
      | BApt => configured "apt" (Apt r) (applyApt (Name r))
      | BDnf => configured "dnf" (Dnf r) (applyDnf (Name r))
      | BPacman => configured "pacman" (Pacman r) (applyPacman (Name r))
      | BZypper => configured "zypper" (Zypper r) (applyZypper (Name r))
      end
  end.
Definition Remove (b : backend) (name : gostring) : prog (result mgr_error Outcome) :=
  match validateName name with
  | Err e => Ret (Err (EConfig e))
  | Ok _ =>
      match b with
      | BApt => removeApt name
      | BDnf => removeDnf name
      | BPacman => removePacman name
      | BZypper => removeZypper name
      end
  end.
End Manager.
End RepoMgr.
