(* ===== verification/RepoOps.v ===== *)
(** * Package repositories: what the managers do ([src/sys/repo])

    Applying twice changes nothing; the apt manager only touches its own files, source
    lists that mention the URL and keyrings in the two keyring directories; no
    configuration value becomes an option of a command. *)
From S2P Require Import Prelude Paths Exec HostProg Words Json Repo HostCmd RepoMgr.

Module RepoOps.
Import Exec HostProg HostCmd Repo RepoMgr.

(** ** Applying dnf and pacman repositories twice *)

(** What the theorem relies on: reading reports the files, a successful write is read
    back, and commands leave the repository files alone. *)
Class RepoHost {S} (h : handler S) (read : S -> gostring -> result fs_err gostring) : Prop := {
  read_ok s p : h _ s (CFsReadFile p) = (s, read s p);
  write_read s p d m o g s' : h _ s (CFs (FsWriteFile p d m o g)) = (s', None) -> read s' p = Ok d;
  run_read s c i p : read (h _ s (CRun c i)).1 p = read s p
}.

Section Idempotence.
Context {S} (h : handler S) (read : S -> gostring -> result fs_err gostring) `{RepoHost S h read}.

Lemma runNonFatal_read s log warn name args p : read (run h s (RepoMgr.runNonFatal log warn name args)).1 p = read s p.
Proof.
  unfold RepoMgr.runNonFatal, RepoMgr.runPriv. cbn [bind ask run]. pose proof (run_read s (priv name args) [] p) as Hr.
  destruct (h _ s _) as [s' [res err]]. cbn [run]. destruct (with_error _ _). done.
Qed.

Lemma read_opt_run s what p :
  run h s (read_opt what p) =
  (s, match read s p with Ok d => Ok (Some d) | Err NotExist => Ok None | Err e => Err (EFs what e) end).
Proof. unfold read_opt. cbn [bind ask run]. by rewrite read_ok. Qed.
Lemma write_run s what p d s' r :
  run h s (fs what (write p d)) = (s', r) -> r = Ok tt -> read s' p = Ok d.
Proof.
  unfold fs, write. cbn [bind ask run]. destruct (h _ s _) as [s1 [e|]] eqn:E; cbn [run].
  - by intros [= <- <-].
  - intros [= <- <-] _. by apply write_read in E.
Qed.

Lemma applyDnf_again s s1 name c o :
  run h s (applyDnf name c) = (s1, Ok o) ->
  exists o', run h s1 (applyDnf name c) = (s1, Ok o') /\ Changed o' = false.
Proof.
  assert (Hsame : forall s, read s (dnfRepoFile name) = Ok (dnf_content name c) ->
    exists o', run h s (applyDnf name c) = (s, Ok o') /\ Changed o' = false).
  { intros s0 Hr. unfold applyDnf, bind_ok. rewrite run_bind, read_opt_run, Hr. cbn [fst snd default].
    rewrite bool_decide_true by done. eauto. }
  unfold applyDnf at 1, bind_ok at 1. rewrite run_bind, read_opt_run. cbn [fst snd].
  destruct (match read s _ with Ok _ => _ | Err _ => _ end) as [existing|] eqn:Hr; [|done].
  case_bool_decide as He.
  { intros [= <- <-]. unfold applyDnf, bind_ok. rewrite run_bind, read_opt_run, Hr. cbn [fst snd].
    rewrite bool_decide_true by done. eauto. }
  unfold bind_ok. rewrite run_bind. destruct (run h s (fs _ _)) as [sw [[]|e]] eqn:Hw; cbn [fst snd]; [|done].
  apply write_run in Hw; [|done]. rewrite run_bind. set (imp := if GPGCheck c && _ then _ else _).
  assert (Hs : read (run h sw imp).1 (dnfRepoFile name) = Ok (dnf_content name c)).
  { unfold imp. destruct (_ && _); [by rewrite runNonFatal_read|done]. }
  destruct (run h sw imp) as [s2 log2]. cbn [fst snd] in *. rewrite run_bind.
  match goal with |- context [run h s2 (RepoMgr.runNonFatal ?l ?w ?n ?a)] =>
    pose proof (runNonFatal_read s2 l w n a (dnfRepoFile name)) as H3; destruct (run h s2 (RepoMgr.runNonFatal l w n a)) as [s3 log3] end.
  cbn [fst snd run] in *. intros [= <- <-]. apply Hsame. congruence.
Qed.

Lemma applyPacman_again s s1 name c o :
  safe_text name -> safe_text (SigLevel c) -> safe_text (Server c) ->
  run h s (applyPacman name c) = (s1, Ok o) ->
  exists o', run h s1 (applyPacman name c) = (s1, Ok o') /\ Changed o' = false.
Proof.
  intros Hn Hsl Hv. unfold applyPacman at 1, bind_ok at 1. rewrite run_bind, read_opt_run. cbn [fst snd].
  destruct (match read s _ with Ok _ => _ | Err _ => _ end) as [existing|] eqn:Hr; [|done].
  case_bool_decide as He.
  { intros [= <- <-]. unfold applyPacman, bind_ok. rewrite run_bind, read_opt_run, Hr. cbn [fst snd].
    rewrite bool_decide_true by done. eauto. }
  unfold bind_ok. rewrite run_bind. destruct (run h s (fs _ _)) as [sw [[]|e]] eqn:Hw; cbn [fst snd]; [|done].
  apply write_run in Hw; [|done]. rewrite run_bind.
  match goal with |- context [run h sw (RepoMgr.runNonFatal ?l ?w ?n ?a)] =>
    pose proof (runNonFatal_read sw l w n a pacmanConf) as H3; destruct (run h sw (RepoMgr.runNonFatal l w n a)) as [s3 log3] end.
  cbn [fst snd run] in *. intros [= <- <-]. unfold applyPacman, bind_ok. rewrite run_bind, read_opt_run, H3, Hw.
  cbn [fst snd from_option]. unfold Datatypes.id. rewrite pacman_conf_idem, bool_decide_true by done. eauto.
Qed.

(** Applying a repository is idempotent on every host that keeps what was written: after
    a successful dnf or pacman Apply of a validated repository, applying it again
    succeeds, reports Changed=false and leaves the host untouched, wherever the section
    stood before. *)
Theorem apply_idempotent Parse text b r s :
  b = BDnf \/ b = BPacman ->
  forall s1 o, run h s (Apply Parse text b r) = (s1, Ok o) ->
  exists o', run h s1 (Apply Parse text b r) = (s1, Ok o') /\ Changed o' = false.
Proof.
  intros Hb s1 o. unfold Apply. destruct (Validate Parse b r) as [[]|e] eqn:Hv; [|done].
  unfold Validate in Hv. apply result_seq_ok in Hv as [[Hn%validName_safe _]%validateName_ok Hv].
  destruct Hb as [-> | ->]; cbn [configured].
  - destruct (Dnf r) as [c|]; [|done]. apply applyDnf_again.
  - destruct (Pacman r) as [c|]; [|done]. apply result_seq_ok in Hv as [_ Hv]. cbn [when] in Hv.
    apply validatePacman_ok in Hv as [Hs Hv]. by apply applyPacman_again.
Qed.
End Idempotence.

(** A host with files only, where every command succeeds silently. *)
Abbreviation Files := (gmap gostring gostring).
Definition repo_files : handler Files :=
  fun X s c =>
    match c in call X return Files * X with
    | CFs (FsWriteFile p d _ _ _) => (<[p := d]> s, None)
    | CFs (FsRemove p) => (delete p s, None)
    | CFs _ => (s, None)
    | CFsExists p => (s, Ok (bool_decide (is_Some (s !! p))))
    | CFsReadFile p => (s, match s !! p with Some d => Ok d | None => Err NotExist end)
    | CFsReadDir d => (s, Ok (omap (fun pc => if has_prefix pc.1 (d ++ str "/") then
                                                let n := drop (length (d ++ str "/")) pc.1 in
                                                if contains n (str "/") then None else Some (n, false)
                                              else None) (map_to_list s)))
    | c' => command_host (fun s _ _ => (s, (MkResult 0 [] [], None))) absent absent _ s c'
    end.
#[export] Instance repo_files_ok : RepoHost repo_files (fun s p => match s !! p with Some d => Ok d | None => Err NotExist end).
Proof.
  split; [done| |done]. intros s p d m o g s' E.
  assert (<[p := d]> s = s') as <- by (by apply (f_equal fst) in E). by rewrite lookup_insert_eq.
Qed.

Definition demo_conf : gostring :=
  join [str "[options]"; str "HoldPkg = pacman"; str "[corp]"; str "Server = https://old"; str "[core]"; []] [NL].
Definition demo_repo : Repository :=
  MkRepository (str "corp") None None (Some (MkPacman (str "https://repo.example/x") (str "Required"))) None.
Definition demo_files : Files := {[ pacmanConf := demo_conf ]}.

Lemma apply_idempotent_witness :
  exists s1 o o', run repo_files demo_files (Apply https_only (fun _ => []) BPacman demo_repo) = (s1, Ok o) /\ Changed o = true /\
    run repo_files s1 (Apply https_only (fun _ => []) BPacman demo_repo) = (s1, Ok o') /\ Changed o' = false.
Proof.
  assert (Hc : match (run repo_files demo_files (Apply https_only (fun _ => []) BPacman demo_repo)).2 with
          | Ok o => Changed o | Err _ => false end = true) by by_eval.
  destruct (run repo_files demo_files (Apply https_only (fun _ => []) BPacman demo_repo)) as [s1 [o|e]] eqn:E; [|discriminate Hc].
  destruct (apply_idempotent repo_files (fun s p => match s !! p with Some d => Ok d | None => Err NotExist end)
    https_only (fun _ => []) BPacman demo_repo demo_files (or_intror eq_refl) s1 o E) as (o' & H1 & H2).
  exists s1, o, o'. split; [reflexivity|]. split; [exact Hc|]. split; assumption.
Defined.


(** ** Command lines *)

Definition own : list gostring :=
  str <$> ["--import"; "--"; "-y"; "--repo"; "-Sy"; "--noconfirm"; "--non-interactive"; "--refresh"; "--no-gpgcheck"; "--type";
           "--enable"; "--disable"; "--dearmor"]%string.
(** An argument that starts with a dash is an option of the package, or the description
    glued to its option. *)
Definition plain_arg (a : gostring) : Prop := dashed a = true -> a ∈ own \/ exists d, a = str "--name=" ++ d.
Definition plain_call (cmd : Command) (_ : gostring) : Prop := Forall plain_arg (Args cmd).
Abbreviation safe := (wp (on_run plain_call)).

Lemma plain_undashed a : dashed a = false -> plain_arg a.
Proof. unfold plain_arg. by intros ->. Qed.
Lemma plain_own a : bool_decide (dashed a = false \/ a ∈ own) = true -> plain_arg a.
Proof. intros [H|H]%bool_decide_eq_true Hd; [by rewrite H in Hd|by left]. Qed.
Lemma plain_glued d : plain_arg (str "--name=" ++ d).
Proof. intros _. right. by exists d. Qed.
Ltac plain := repeat first
  [ apply List.Forall_nil | apply List.Forall_cons | apply list.Forall_app; split
  | match goal with |- plain_arg (str _) => apply plain_own; reflexivity end
  | apply plain_glued | apply plain_undashed; assumption ].

Lemma runPriv_safe name args (Q : Result * option cmd_error -> Prop) :
  Forall plain_arg args -> (forall r, Q r) -> safe (RepoMgr.runPriv name args) Q.
Proof. intros Ha HQ. unfold RepoMgr.runPriv. cbn [bind ask wp]. split; [exact Ha|]. intros x. apply HQ. Qed.
Lemma runNonFatal_safe log w name args (Q : list gostring -> Prop) :
  Forall plain_arg args -> (forall r, Q r) -> safe (RepoMgr.runNonFatal log w name args) Q.
Proof. intros Ha HQ. unfold RepoMgr.runNonFatal. apply wp_bind, runPriv_safe; [done|]. intros [res err]. apply HQ. Qed.
Lemma fatal_safe what name args (Q : result mgr_error unit -> Prop) :
  Forall plain_arg args -> (forall r, Q r) -> safe (fatal what name args) Q.
Proof. intros Ha HQ. unfold fatal. apply wp_bind, runPriv_safe; [done|]. intros [res err]. apply HQ. Qed.
Lemma fs_safe what op (Q : result mgr_error unit -> Prop) : (forall r, Q r) -> safe (fs what op) Q.
Proof. intros HQ. unfold fs. cbn [bind ask wp]. split; [done|]. intros x. apply HQ. Qed.
Lemma read_safe what p (Q : result mgr_error (option gostring) -> Prop) : (forall r, Q r) -> safe (read_opt what p) Q.
Proof. intros HQ. unfold read_opt. cbn [bind ask wp]. split; [done|]. intros x. apply HQ. Qed.
Lemma exists_safe what p (Q : result mgr_error bool -> Prop) : (forall r, Q r) -> safe (exists_ what p) Q.
Proof. intros HQ. unfold exists_. cbn [bind ask wp]. split; [done|]. intros x. apply HQ. Qed.
Lemma try_remove_safe log p w (Q : list gostring -> Prop) : (forall r, Q r) -> safe (try_remove log p w) Q.
Proof. intros HQ. unfold try_remove. cbn [bind ask wp]. split; [done|]. intros x. apply HQ. Qed.

Lemma applyDnf_safe name c : dashed name = false -> dashed (dnf_GPGKey c) = false -> safe (applyDnf name c) (fun _ => True).
Proof.
  intros Hn Hk. unfold applyDnf. apply wp_bind_ok, read_safe. intros [ex|e]; [|done]. case_bool_decide; [done|].
  apply wp_bind_ok, fs_safe. intros [[]|e]; [|done]. apply wp_bind. apply (wp_mono _ _ (fun _ => True)).
  - intros log _. apply wp_bind, runNonFatal_safe; [|done]. plain.
  - destruct (_ && _); [|done]. apply runNonFatal_safe; [|done]. unfold SeparatePositionals, EndOfOptions. cbn [app]. plain.
Qed.
Lemma applyPacman_safe name c : safe (applyPacman name c) (fun _ => True).
Proof.
  unfold applyPacman. apply wp_bind_ok, read_safe. intros [ex|e]; [|done]. case_bool_decide; [done|].
  apply wp_bind_ok, fs_safe. intros [[]|e]; [|done]. apply wp_bind, runNonFatal_safe; [|done]. plain.
Qed.
Lemma applyZypper_safe name c :
  dashed name = false -> dashed (z_URL c) = false -> dashed (z_Type c) = false -> dashed (z_GPGKey c) = false ->
  safe (applyZypper name c) (fun _ => True).
Proof.
  intros Hn Hu Ht Hk. unfold applyZypper. apply wp_bind, runPriv_safe; [plain|]. intros [res0 pre].
  apply wp_bind, runPriv_safe.
  { unfold addrepo_args. plain; [destruct (Autorefresh c)|destruct (negb (z_GPGCheck c))|destruct (negb (bool_decide (z_Type c = [])))]; plain. }
  intros [res [e|]]; [done|]. apply wp_bind_ok. apply (wp_mono _ _ (fun _ => True)).
  2: { destruct (negb _); [|done]. apply fatal_safe; [plain|done]. }
  intros [[]|e] _; [|done]. apply wp_bind_ok. apply (wp_mono _ _ (fun _ => True)).
  2: { destruct (z_Enabled c); (apply fatal_safe; [plain|done]). }
  intros [[]|e] _; [|done]. apply wp_bind. apply (wp_mono _ _ (fun _ => True)).
  2: { destruct (_ && _); [|done]. apply runNonFatal_safe; [|done]. unfold SeparatePositionals, EndOfOptions. cbn [app]. plain. }
  intros log _. apply wp_bind, runNonFatal_safe; [plain|done].
Qed.

Lemma remove_keys_safe log k paths (Q : list gostring -> Prop) : (forall r, Q r) -> safe (remove_keys log k paths) Q.
Proof.
  intros HQ. revert log. induction paths as [|p paths IH]; intros log; cbn [remove_keys]; [apply HQ|].
  destruct (_ || _); [apply IH|]. destruct (negb _); [apply IH|]. apply wp_bind, try_remove_safe. intros l. apply IH.
Qed.
Lemma clean_entries_safe url r k log cl es : safe (clean_entries url r k log cl es) (fun _ => True).
Proof.
  revert log cl. induction es as [|e es IH]; intros log cl; cbn [clean_entries]; [done|].
  destruct (candidate r e); [|apply IH]. cbn [bind ask wp]. split; [done|]. intros [d|err]; [|apply IH].
  destruct (negb _); [apply IH|]. apply wp_bind, remove_keys_safe. intros ?. apply wp_bind, try_remove_safe. intros ?. apply IH.
Qed.
Lemma drop_legacy_safe check what p st (Q : result mgr_error (list gostring * bool) -> Prop) :
  (forall r, Q r) -> safe (drop_legacy check what p st) Q.
Proof.
  intros HQ. unfold drop_legacy. apply wp_bind_ok, exists_safe. intros [[]|e]; [|apply HQ|apply HQ].
  apply wp_bind, try_remove_safe. intros l. apply HQ.
Qed.
Lemma refresh_safe text name f ex log : safe (refresh text name f ex log) (fun _ => True).
Proof.
  unfold refresh. apply wp_bind, runPriv_safe; [plain|]. intros [res [e|]]; [|done]. destruct (contains _ _); [|done].
  apply wp_bind. by destruct (default [] ex); cbn [ask wp].
Qed.
Lemma updateAptKey_safe f key log (Q : result mgr_error (list gostring * bool) -> Prop) :
  (forall r, Q r) -> safe (updateAptKey f key log) Q.
Proof.
  intros HQ. unfold updateAptKey, runStdin. cbn [bind ask wp]. split; [cbn [request_of on_run plain_call]; unfold plain_call; cbn [Args unpriv]; plain|].
  intros r. destruct (with_error _ r) as [res [e|]]; [apply HQ|]. apply wp_bind_ok, read_safe. intros [ex|e]; [|apply HQ].
  case_bool_decide; [apply HQ|]. apply wp_bind_ok, fs_safe. intros [[]|e]; apply HQ.
Qed.
Lemma applyApt_safe text name c : safe (applyApt text name c) (fun _ => True).
Proof.
  unfold applyApt. apply wp_bind. apply (wp_mono _ _ (fun _ => True)).
  2: { unfold cleanupConflictingApt. cbn [bind ask wp]. split; [done|]. intros [es|[]]; [apply clean_entries_safe|done|done]. }
  intros st _. apply wp_bind_ok, drop_legacy_safe. intros [st1|e]; [|done].
  apply wp_bind_ok, drop_legacy_safe. intros [st2|e]; [|done]. apply wp_bind_ok, fs_safe. intros [[]|e]; [|done].
  apply wp_bind_ok. apply (wp_mono _ _ (fun _ => True)).
  2: { case_bool_decide; [done|]. apply wp_bind_ok, updateAptKey_safe. by intros [[log u]|e]. }
  intros [[log changed]|e] _; [|done]. apply wp_bind_ok, read_safe. intros [ex|e]; [|done].
  destruct (_ && _); [done|]. destruct (negb _); [|apply refresh_safe].
  apply wp_bind_ok, fs_safe. intros [[]|e]; [apply refresh_safe|done].
Qed.

Lemma name_undashed name : validName name = true -> dashed name = false.
Proof.
  unfold validName, matches. destruct name as [|x name]; [done|]. intros [Hx _]%andb_prop. apply undashed_cons. by intros ->.
Qed.

Lemma Remove_safe b name : safe (Remove b name) (fun _ => True).
Proof.
  unfold Remove. destruct (validateName name) as [[]|] eqn:Hv; [|done]. apply validateName_ok in Hv as [Hn _].
  assert (Hd : dashed name = false) by (by apply name_undashed). destruct b.
  - unfold removeApt. apply wp_bind_ok. apply (wp_mono _ _ (fun _ => True)).
    2: { generalize [aptRepoFile name; aptLegacyRepoFile name; aptKeyFile name], false. intros ps.
         induction ps as [|p ps IH]; intros b; cbn [any_exists]; [done|]. apply wp_bind_ok, exists_safe. intros [e|e]; [apply IH|done]. }
    intros [[]|e] _; cbn [negb]; try done. apply wp_bind_ok, fs_safe. intros [[]|e]; [|done].
    apply wp_bind, try_remove_safe. intros l. apply wp_bind, try_remove_safe. done.
  - unfold removeDnf. apply wp_bind_ok, exists_safe. intros [[]|e]; cbn [negb]; try done. apply wp_bind_ok, fs_safe. by intros [[]|e].
  - unfold removePacman. destruct (validatePacmanName name); [|done]. apply wp_bind_ok, read_safe. intros [ex|e]; [|done].
    destruct (negb _); [done|]. apply wp_bind_ok, fs_safe. by intros [[]|e].
  - unfold removeZypper. apply wp_bind, runPriv_safe; [plain|]. intros [res [e|]]; [done|]. by destruct (contains _ _).
Qed.

Section Parse.
(** The only fact about [url.Parse]: text with a scheme does not start with a dash. *)
Context (Parse : gostring -> option URL).
Hypothesis scheme_start : forall raw u, Parse raw = Some u -> Scheme u <> [] -> dashed raw = false.

Lemma base_url_undashed raw : ValidateRepoBaseURL Parse raw = true -> dashed raw = false.
Proof.
  unfold ValidateRepoBaseURL. repeat case_match; try done. intros [Hs _]%andb_prop. go_bool. eapply scheme_start; [done|].
  by rewrite Hs.
Qed.
Lemma key_ref_undashed ref : ValidateGpgKeyRef Parse ref = true -> dashed ref = false.
Proof. unfold ValidateGpgKeyRef, dashed. do 2 (case_match; [done|]). by destruct (has_prefix ref (str "-")). Qed.

Lemma dnf_key_undashed c : validateDnf Parse c = Ok tt -> dashed (dnf_GPGKey c) = false.
Proof.
  unfold validateDnf. case_bool_decide; [done|]. intros [_ Hv]%result_seq_ok. destruct (negb (ValidateRepoBaseURL _ _)); [done|].
  destruct (bool_decide (dnf_GPGKey c = [])) eqn:E; [by apply bool_decide_eq_true in E as ->|]. cbn [negb andb] in Hv.
  destruct (ValidateGpgKeyRef Parse (dnf_GPGKey c)) eqn:Hk; [|done]. by apply key_ref_undashed.
Qed.
Lemma zypper_undashed c :
  validateZypper Parse c = Ok tt -> dashed (z_URL c) = false /\ dashed (z_Type c) = false /\ dashed (z_GPGKey c) = false.
Proof.
  unfold validateZypper. case_bool_decide; [done|]. intros [_ [_ Hv]%result_seq_ok]%result_seq_ok.
  destruct (_ && negb (validZypperType _)) eqn:Ht; [done|]. destruct (ValidateRepoBaseURL Parse (z_URL c)) eqn:Hu; [|done].
  cbn [negb] in Hv. destruct (_ && negb (ValidateGpgKeyRef _ _)) eqn:Hk; [done|]. split_and!.
  - by apply base_url_undashed.
  - apply andb_false_iff in Ht as [Ht|Ht]; apply negb_false_iff in Ht; [by apply bool_decide_eq_true in Ht as ->|].
    unfold validZypperType, matches in Ht. destruct (z_Type c) as [|x t]; [done|]. apply andb_prop in Ht as [Hx _].
    apply undashed_cons. by intros ->.
  - apply andb_false_iff in Hk as [Hk|Hk]; apply negb_false_iff in Hk; [by apply bool_decide_eq_true in Hk as ->|].
    by apply key_ref_undashed.
Qed.

(** No part of a configuration that Apply accepts, and no name that Remove accepts,
    reaches a package manager as an option. *)
Theorem repo_args_confined {S} (h : handler S) s text b r name :
  Forall (fun ci => plain_call ci.1 ci.2) (commands h s (Apply Parse text b r)) /\
  Forall (fun ci => plain_call ci.1 ci.2) (commands h s (Remove b name)).
Proof.
  split; [|apply (wp_commands plain_call h s _ _ (Remove_safe b name))].
  apply (wp_commands plain_call h s _ (fun _ => True)).
  unfold Apply. destruct (Validate Parse b r) as [[]|] eqn:Hv; [|done].
  unfold Validate in Hv. apply result_seq_ok in Hv as [[Hn _]%validateName_ok Hv]. apply name_undashed in Hn.
  destruct b; cbn [configured].
  - destruct (Apt r); [apply applyApt_safe|done].
  - destruct (Dnf r) as [c|]; [|done]. apply applyDnf_safe; [done|]. cbn [when] in Hv. by apply dnf_key_undashed in Hv.
  - destruct (Pacman r); [apply applyPacman_safe|done].
  - destruct (Zypper r) as [c|]; [|done]. cbn [when] in Hv. apply zypper_undashed in Hv as (? & ? & ?). by apply applyZypper_safe.
Qed.
End Parse.

Definition dashed_description : Repository :=
  MkRepository (str "corp") None None None
    (Some (MkZypper (str "https://rpm.example/x") (str "--evil") true true true (str "https://rpm.example/key") (str "rpm-md"))).
Lemma repo_args_confined_witness :
  length (commands repo_files ∅ (Apply https_only (fun _ => []) BZypper dashed_description)) = 6 /\
  Forall (fun ci => plain_call ci.1 ci.2) (commands repo_files ∅ (Apply https_only (fun _ => []) BZypper dashed_description)).
Proof.
  split; [vm_compute; reflexivity|]. refine (proj1 (repo_args_confined https_only _ repo_files ∅ (fun _ => []) BZypper dashed_description [])).
  intros raw u Hp _. unfold https_only in Hp. destruct (has_prefix raw (str "https://")) eqn:E; [|discriminate Hp].
  apply has_prefix_spec in E as [t ->]. reflexivity.
Defined.
End RepoOps.
