(* ===== verification/RepoApt.v ===== *)
(** * apt repositories ([src/sys/repo/apt.go])

    What applying an apt repository may remove, and the state it reaches on a host where
    writing, making directories, gpg and apt may fail. *)
From S2P Require Import Prelude Paths Exec HostProg Words Json Repo HostCmd RepoMgr RepoOps.

Module RepoApt.
Import Exec HostProg HostCmd Repo RepoMgr.

(** ** What is removed *)

(** The files read so far, with what they held. *)
Definition seen : Type := list (gostring * gostring).
Definition see (g : seen) X (c : call X) : X -> seen :=
  match c in call X return X -> seen with
  | CFsReadFile p => fun r => match r with Ok d => (p, d) :: g | Err _ => g end
  | _ => fun _ => g
  end.

Section Confined.
Context (name : gostring) (c : AptConfig).

Definition source_path (n : gostring) : gostring := aptSourcesDir ++ str "/" ++ n.
Definition is_source (n : gostring) : bool := has_suffix n (str ".sources") || has_suffix n (str ".list").
(** A source list, not the repository's own, that was read and mentions the URL. *)
Definition conflicting (g : seen) (n d : gostring) : Prop :=
  is_source n = true /\ source_path n <> aptRepoFile name /\ (source_path n, d) ∈ g /\ contains d (apt_URL c) = true.
(** A file directly in one of the keyring directories. *)
Definition jailed (p : gostring) : Prop :=
  exists dir n, dir ∈ [aptKeyringDir; aptLegacyKeyDir] /\ p = dir ++ str "/" ++ n /\ n <> [] /\
    contains n (str "/") = false /\ contains n (str "..") = false.
Definition may_remove (g : seen) (p : gostring) : Prop :=
  p ∈ [aptLegacyRepoFile name; aptLegacyKeyFile name; aptRepoFile name] \/
  (exists n d, p = source_path n /\ conflicting g n d) \/
  (jailed p /\ p <> aptKeyFile name /\ exists n d, conflicting g n d /\ p ∈ keyPaths n d).
Definition may (g : seen) X (q : call X) : Prop :=
  match q with
  | CRun cmd i => (cmd = unpriv (str "gpg") [str "--dearmor"] /\ i = apt_GPGKey c) \/
                  (cmd = priv (str "apt-get") [str "update"] /\ i = [])
  | CFs (FsRemove p) => may_remove g p
  | CFs (FsWriteFile p _ m _ _) => p ∈ [aptRepoFile name; aptKeyFile name] /\ m = 420%N
  | CFs (FsMkdir p _ _ _ _) => p = aptKeyringDir
  | CFsReadFile _ | CFsReadDir _ | CFsExists _ => True
  | _ => False
  end.
Abbreviation wpa := (wpg see may).

Lemma in_dir_spec dir p b :
  in_dir dir p = Some b -> exists n, p = dir ++ str "/" ++ n /\
    (b = true -> n <> [] /\ contains n (str "/") = false /\ contains n (str "..") = false).
Proof.
  unfold in_dir. destruct (has_prefix p (dir ++ str "/")) eqn:E; [|done]. apply has_prefix_spec in E as [n ->].
  intros [= <-]. exists n. split; [by rewrite <- app_assoc|]. rewrite drop_app_length. intros Hb.
  apply negb_true_iff in Hb. apply orb_false_iff in Hb as [[Hn Hs]%orb_false_iff Hd]. go_bool. done.
Qed.
Lemma keyring_jailed p : isAptKeyringPath p = true -> jailed p.
Proof.
  unfold isAptKeyringPath. destruct (in_dir aptKeyringDir p) as [b|] eqn:E.
  - intros ->. apply in_dir_spec in E as (n & -> & Hn). destruct (Hn eq_refl) as (? & ? & ?).
    exists aptKeyringDir, n. split_and!; try done. left.
  - destruct (in_dir aptLegacyKeyDir p) as [b|] eqn:E'; [|done]. intros ->. apply in_dir_spec in E' as (n & -> & Hn).
    destruct (Hn eq_refl) as (? & ? & ?). exists aptLegacyKeyDir, n. split_and!; try done. right. left.
Qed.

Lemma try_remove_wpa g log p w (Q : seen -> list gostring -> Prop) :
  may_remove g p -> (forall l, Q g l) -> wpa (try_remove log p w) g Q.
Proof. intros Hp HQ. unfold try_remove. cbn [bind ask wpg]. split; [exact Hp|]. intros x. apply HQ. Qed.

Lemma remove_keys_wpa g log paths :
  (forall p, p ∈ paths -> exists n d, conflicting g n d /\ p ∈ keyPaths n d) ->
  wpa (remove_keys log (aptKeyFile name) paths) g (fun g' _ => g' = g).
Proof.
  intros Hp. revert log. induction paths as [|p paths IH]; intros log; cbn [remove_keys]; [done|].
  assert (IH' := IH (fun q Hq => Hp q (list_elem_of_further _ _ _ Hq))). destruct (_ || _) eqn:Hs; [apply IH'|].
  apply orb_false_iff in Hs as [Hs _]. go_bool. destruct (isAptKeyringPath p) eqn:Hj; cbn [negb]; [|apply IH'].
  apply wpg_bind, try_remove_wpa; [|intros l; apply IH']. right. right.
  split_and!; [by apply keyring_jailed|done|]. apply Hp. left.
Qed.

Lemma candidate_spec e p :
  candidate (aptRepoFile name) e = Some p -> p = source_path e.1 /\ is_source e.1 = true /\ p <> aptRepoFile name.
Proof.
  destruct e as [n []]; cbn [candidate fst]; [done|]. fold (source_path n). unfold is_source.
  destruct (negb _ && negb _) eqn:Hs; [done|]. case_bool_decide; [done|]. case_bool_decide; [done|]. intros [= <-].
  split_and!; [done| |done]. by destruct (has_suffix n (str ".sources")), (has_suffix n (str ".list")).
Qed.

Lemma clean_entries_wpa g log cleaned entries :
  wpa (clean_entries (apt_URL c) (aptRepoFile name) (aptKeyFile name) log cleaned entries) g (fun _ _ => True).
Proof.
  revert g log cleaned. induction entries as [|e entries IH]; intros g log cleaned; cbn [clean_entries]; [done|].
  destruct (candidate _ e) as [p|] eqn:Hc; [|apply IH]. apply candidate_spec in Hc as (-> & Hs & Hne).
  cbn [bind ask wpg]. split; [done|]. intros [d|err]; cbn [see]; [|apply IH].
  destruct (contains d (apt_URL c)) eqn:Hu; cbn [negb]; [|apply IH].
  assert (Hconf : conflicting ((source_path e.1, d) :: g) e.1 d) by (split_and!; [done|done|left|done]).
  apply wpg_bind. eapply wpg_mono; [|apply remove_keys_wpa; by eauto]. cbn beta. intros g' l ->.
  apply wpg_bind, try_remove_wpa; [|intros; apply IH]. right. left. by exists e.1, d.
Qed.

Lemma exists_wpa g what p (Q : seen -> result mgr_error bool -> Prop) : (forall r, Q g r) -> wpa (exists_ what p) g Q.
Proof. intros HQ. unfold exists_. cbn [bind ask wpg]. split; [done|]. intros x. apply HQ. Qed.
Lemma read_opt_wpa g what p (Q : seen -> result mgr_error (option gostring) -> Prop) :
  (forall g r, Q g r) -> wpa (read_opt what p) g Q.
Proof. intros HQ. unfold read_opt. cbn [bind ask wpg]. split; [done|]. intros x. apply HQ. Qed.
Lemma fs_wpa g what op (Q : seen -> result mgr_error unit -> Prop) :
  may g _ (CFs op) -> (forall r, Q g r) -> wpa (fs what op) g Q.
Proof. intros Ho HQ. unfold fs. cbn [bind ask wpg]. split; [done|]. intros x. apply HQ. Qed.
Lemma drop_legacy_wpa g check what p st (Q : seen -> result mgr_error (list gostring * bool) -> Prop) :
  may_remove g p -> (forall r, Q g r) -> wpa (drop_legacy check what p st) g Q.
Proof.
  intros Hp HQ. unfold drop_legacy. apply wpg_bind_ok, exists_wpa. intros [[]|e]; [|apply HQ|apply HQ].
  apply wpg_bind, try_remove_wpa; [done|]. intros l. apply HQ.
Qed.
Lemma updateAptKey_wpa g log (Q : seen -> result mgr_error (list gostring * bool) -> Prop) :
  (forall g r, Q g r) -> wpa (updateAptKey (aptKeyFile name) (apt_GPGKey c) log) g Q.
Proof.
  intros HQ. unfold updateAptKey, runStdin. cbn [bind ask wpg]. split; [by left|]. intros r.
  destruct (with_error _ r) as [res [e|]]; [apply HQ|]. apply wpg_bind_ok, read_opt_wpa. intros g' [ex|e]; [|apply HQ].
  case_bool_decide; [apply HQ|]. apply wpg_bind_ok, fs_wpa; [|intros [[]|e]; apply HQ]. split; [right; left|done].
Qed.
Lemma refresh_wpa text g existing log :
  wpa (refresh text name (aptRepoFile name) existing log) g (fun _ _ => True).
Proof.
  unfold refresh, RepoMgr.runPriv. cbn [bind ask wpg]. split; [by right|]. intros r.
  destruct (with_error _ r) as [res [e|]]; [|done]. destruct (contains _ _); [|done]. apply wpg_bind.
  destruct (default [] existing); cbn [ask wpg].
  - split; [|done]. left. right. right. left.
  - split; [|done]. split; [left|done].
Qed.

Lemma applyApt_wpa text g : wpa (applyApt text name c) g (fun _ _ => True).
Proof.
  unfold applyApt. apply wpg_bind. apply (wpg_mono _ _ _ _ (fun _ _ => True)).
  2: { unfold cleanupConflictingApt. cbn [bind ask wpg]. split; [done|].
       intros [es|[]]; [apply clean_entries_wpa|done|done]. }
  intros g1 st _. apply wpg_bind_ok, drop_legacy_wpa; [left; left|]. intros [st1|e]; [|done].
  apply wpg_bind_ok, drop_legacy_wpa; [left; right; left|]. intros [st2|e]; [|done].
  apply wpg_bind_ok, fs_wpa; [done|]. intros [[]|e]; [|done]. apply wpg_bind_ok.
  apply (wpg_mono _ _ _ _ (fun _ _ => True)).
  2: { case_bool_decide; [done|]. apply wpg_bind_ok, updateAptKey_wpa. by intros g2 [[log u]|e]. }
  intros g2 [[log changed]|e] _; [|done]. apply wpg_bind_ok, read_opt_wpa. intros g3 [existing|e]; [|done].
  destruct (_ && _); [done|]. destruct (negb _); [|apply refresh_wpa].
  apply wpg_bind_ok, fs_wpa; [split; [left|done]|]. intros [[]|e]; [apply refresh_wpa|done].
Qed.

(** Whatever the host holds and answers, applying an apt repository writes only its own
    source and keyring, runs only [gpg --dearmor] on the key and [apt-get update], and
    removes only its own legacy files, source lists it has read and that mention its URL,
    and the keyrings those name, when they are directly in a keyring directory. *)
Theorem apt_apply_confined {S} (h : handler S) s text : ghost_ok see may h s (applyApt text name c) [].
Proof. apply (wpg_run _ _ h s _ _ _ (applyApt_wpa text [])). Qed.
End Confined.

(** ** The state an Apply reaches *)

(** A host whose files are a store that it can read, list and remove from.  Writing a file,
    making a directory and running a command may fail, without an effect on the store; a
    [gpg] that succeeds converts the key. *)
Class AptHost {S} (h : handler S) (files : S -> gostring -> option gostring) (dearmor : gostring -> gostring) : Prop := {
  h_read s p : h _ s (CFsReadFile p) = (s, match files s p with Some d => Ok d | None => Err NotExist end);
  h_exists s p : h _ s (CFsExists p) = (s, Ok (bool_decide (is_Some (files s p))));
  h_readdir s d : exists entries, h _ s (CFsReadDir d) = (s, Ok entries) /\
    (forall n, is_Some (files s (d ++ str "/" ++ n)) -> contains n (str "/") = false -> (n, false) ∈ entries) /\
    (forall n b, (n, b) ∈ entries -> contains n (str "/") = false);
  h_write s p d m o g q : let (s', fault) := h _ s (CFs (FsWriteFile p d m o g)) in
    files s' q = match fault with None => if bool_decide (q = p) then Some d else files s q | Some _ => files s q end;
  h_remove s p : exists s', h _ s (CFs (FsRemove p)) = (s', None) /\
    forall q, files s' q = if bool_decide (q = p) then None else files s q;
  h_mkdir s p m o g r q : files (h _ s (CFs (FsMkdir p m o g r))).1 q = files s q;
  h_run s cmd i q : files (h _ s (CRun cmd i)).1 q = files s q;
  h_gpg s key res : (h _ s (CRun (unpriv (str "gpg") [str "--dearmor"]) key)).2 = (res, None) -> ExitCode res = 0%Z -> Stdout res = dearmor key
}.

Section Settles.
Context {S} (h : handler S) (files : S -> gostring -> option gostring) (dearmor : gostring -> gostring) `{AptHost S h files dearmor}.
Context (text : exec_error -> gostring) (name : gostring) (c : AptConfig).

Definition shrinks (s s' : S) : Prop := forall p, files s' p = files s p \/ files s' p = None.
Lemma shrinks_refl s : shrinks s s.
Proof. by left. Qed.
Lemma shrinks_trans s1 s2 s3 : shrinks s1 s2 -> shrinks s2 s3 -> shrinks s1 s3.
Proof. intros H1 H2 p. destruct (H2 p) as [->|]; [apply H1|by right]. Qed.

Lemma try_remove_run s log p w : exists s', run h s (try_remove log p w) = (s', log) /\
  forall q, files s' q = if bool_decide (q = p) then None else files s q.
Proof.
  unfold try_remove. cbn [bind ask run]. destruct (h_remove s p) as (s' & -> & Hf). exists s'. cbn [run].
  by rewrite app_nil_r.
Qed.
Lemma remove_shrinks s s' p : (forall q, files s' q = if bool_decide (q = p) then None else files s q) -> shrinks s s'.
Proof. intros Hf q. rewrite Hf. case_bool_decide; [by right|by left]. Qed.

(** Neither the keyrings nor the candidates are the repository's own file. *)
Definition keeps (s s' : S) : Prop := files s' (aptRepoFile name) = files s (aptRepoFile name).
Lemma remove_keeps s s' p :
  (forall q, files s' q = if bool_decide (q = p) then None else files s q) -> p <> aptRepoFile name -> keeps s s'.
Proof. intros Hf Hp. unfold keeps. by rewrite Hf, bool_decide_false. Qed.

Lemma remove_keys_run s log k paths :
  exists s' l, run h s (remove_keys log k paths) = (s', l) /\ shrinks s s' /\ keeps s s'.
Proof.
  revert s log. induction paths as [|p paths IH]; intros s log; cbn [remove_keys].
  { exists s, log. split_and!; [done|apply shrinks_refl|done]. }
  destruct (_ || _); [apply IH|]. destruct (isAptKeyringPath p) eqn:Hj; cbn [negb]; [|apply IH]. rewrite run_bind.
  destruct (try_remove_run s (log ++ [str "removing associated GPG key: " ++ p]) p (str "warning: failed to remove conflicting GPG key"))
    as (s1 & -> & Hf). cbn [fst snd].
  destruct (IH s1 (log ++ [str "removing associated GPG key: " ++ p])) as (s2 & l & -> & Hs & Hk). exists s2, l. split_and!; [done| |].
  - eapply shrinks_trans; [by eapply remove_shrinks|done].
  - unfold keeps in *. rewrite Hk. eapply remove_keeps; [done|]. intros ->. done.
Qed.

(** No listed candidate mentions the URL. *)
Definition clear_of (s : S) (entries : list (gostring * bool)) : Prop :=
  forall e p d, e ∈ entries -> candidate (aptRepoFile name) e = Some p -> files s p = Some d -> contains d (apt_URL c) = false.
Lemma clear_shrinks s s' es : shrinks s s' -> clear_of s es -> clear_of s' es.
Proof. intros Hs Hc e p d He Hp Hd. destruct (Hs p) as [E|E]; rewrite E in Hd; [by eapply Hc|done]. Qed.

Abbreviation clean := (clean_entries (apt_URL c) (aptRepoFile name) (aptKeyFile name)).

Lemma clean_entries_run s log cl entries :
  exists s' r, run h s (clean log cl entries) = (s', r) /\ shrinks s s' /\ keeps s s' /\ clear_of s' entries.
Proof.
  revert s log cl. induction entries as [|e entries IH]; intros s log cl; cbn [clean_entries].
  { exists s, (log, cl). split_and!; [done|apply shrinks_refl|done|]. intros e p d He. by apply elem_of_nil in He. }
  assert (Hskip : (forall p d, candidate (aptRepoFile name) e = Some p -> files s p = Some d -> contains d (apt_URL c) = false) ->
    exists s' r, run h s (clean log cl entries) = (s', r) /\ shrinks s s' /\ keeps s s' /\ clear_of s' (e :: entries)).
  { intros He. destruct (IH s log cl) as (s' & r & Hr & Hs & Hk & Hc). exists s', r. split_and!; [done..|].
    intros e' p d Hin Hp Hd. apply elem_of_cons in Hin as [->|Hin]; [|by eapply Hc].
    destruct (Hs p) as [E|E]; rewrite E in Hd; [by eapply He|done]. }
  destruct (candidate (aptRepoFile name) e) as [p|] eqn:Hp; [|by apply Hskip].
  cbn [bind ask run]. rewrite h_read. destruct (files s p) as [d|] eqn:Hd.
  2: { apply Hskip. intros p' d [= <-]. by rewrite Hd. }
  destruct (contains d (apt_URL c)) eqn:Hu; cbn [negb].
  2: { apply Hskip. intros p' d' [= <-]. rewrite Hd. by intros [= <-]. }
  unfold removeConflictKeys. rewrite run_bind.
  match goal with |- context [run h s (remove_keys ?l ?k ?ps)] => destruct (remove_keys_run s l k ps) as (s1 & l1 & -> & Hs1 & Hk1) end.
  cbn [fst snd]. rewrite run_bind.
  destruct (try_remove_run s1 l1 p (str "warning: failed to remove conflicting repo file")) as (s2 & -> & Hf). cbn [fst snd].
  destruct (IH s2 l1 true) as (s3 & r & -> & Hs3 & Hk3 & Hc). exists s3, r. split_and!; [done| | |].
  - eapply shrinks_trans; [exact Hs1|]. eapply shrinks_trans; [by eapply remove_shrinks|done].
  - unfold keeps in *. rewrite Hk3, <- Hk1. eapply remove_keeps; [done|]. by apply candidate_spec in Hp as (_ & _ & ?).
  - intros e' p' d' Hin Hp' Hd'. apply elem_of_cons in Hin as [->|Hin]; [|by eapply Hc].
    rewrite Hp in Hp'. injection Hp' as <-. destruct (Hs3 p) as [E|E]; rewrite E in Hd'; [|done].
    by rewrite Hf, bool_decide_true in Hd'.
Qed.

Lemma clean_entries_idle s log cl entries : clear_of s entries -> run h s (clean log cl entries) = (s, (log, cl)).
Proof.
  induction entries as [|e entries IH]; intros Hc; cbn [clean_entries]; [done|].
  assert (Hc' : clear_of s entries) by (intros e' p d Hin; apply Hc; by right).
  destruct (candidate (aptRepoFile name) e) as [p|] eqn:Hp; [|by apply IH].
  cbn [bind ask run]. rewrite h_read. destruct (files s p) as [d|] eqn:Hd; [|by apply IH].
  rewrite (Hc e p d) by (done || left). by apply IH.
Qed.

(** ** The whole Apply *)

(** The repository is configured: its source is the rendered one, its key is installed,
    the legacy files are gone and no other source list mentions its URL. *)
Record settled (s : S) : Prop := {
  st_clear n p d : contains n (str "/") = false -> candidate (aptRepoFile name) (n, false) = Some p ->
    files s p = Some d -> contains d (apt_URL c) = false;
  st_legacy : files s (aptLegacyRepoFile name) = None;
  st_legacy_key : files s (aptLegacyKeyFile name) = None;
  st_key : apt_GPGKey c <> [] -> files s (aptKeyFile name) = Some (dearmor (apt_GPGKey c));
  st_source : files s (aptRepoFile name) = Some (buildAptSources name c (aptKeyFile name))
}.
Definition unconflicted (s : S) : Prop :=
  forall n p d, contains n (str "/") = false -> candidate (aptRepoFile name) (n, false) = Some p ->
    files s p = Some d -> contains d (apt_URL c) = false.

Lemma cleanup_run s : exists s' r,
  run h s (cleanupConflictingApt (apt_URL c) (aptRepoFile name) (aptKeyFile name)) = (s', r) /\ shrinks s s' /\ keeps s s' /\ unconflicted s'.
Proof.
  unfold cleanupConflictingApt. cbn [bind ask run]. destruct (h_readdir s aptSourcesDir) as (es & -> & Hin & _).
  destruct (clean_entries_run s [] false es) as (s' & r & -> & Hs & Hk & Hc). exists s', r. split_and!; [done..|].
  intros n p d Hn Hp Hd. eapply (Hc (n, false)); [|done|done]. apply Hin; [|done].
  apply candidate_spec in Hp as (Hp & _). unfold source_path in Hp. cbn [fst] in Hp. rewrite <- Hp.
  destruct (Hs p) as [E|E]; rewrite E in Hd; [by rewrite Hd|done].
Qed.
Lemma cleanup_idle s :
  unconflicted s -> run h s (cleanupConflictingApt (apt_URL c) (aptRepoFile name) (aptKeyFile name)) = (s, ([], false)).
Proof.
  intros Hu. unfold cleanupConflictingApt. cbn [bind ask run]. destruct (h_readdir s aptSourcesDir) as (es & -> & _ & Hb).
  apply clean_entries_idle. intros [n []] p d Hin; [done|]. apply Hu. by eapply Hb.
Qed.

Lemma drop_legacy_run s check what p st : exists s' st',
  run h s (drop_legacy check what p st) = (s', Ok st') /\ forall q, files s' q = if bool_decide (q = p) then None else files s q.
Proof.
  unfold drop_legacy, exists_, bind_ok. cbn [bind ask run]. rewrite h_exists. cbn [bind run].
  destruct (bool_decide (is_Some (files s p))) eqn:He; cbn [bind run].
  - rewrite run_bind. match goal with |- context [run h s (try_remove ?l ?p ?w)] => destruct (try_remove_run s l p w) as (s' & -> & Hf) end.
    exists s'. cbn [fst snd run]. eauto.
  - exists s, st. split; [done|]. intros q.
    destruct (decide (q = p)) as [->|Hq]; [rewrite bool_decide_true by done|by rewrite bool_decide_false].
    apply bool_decide_eq_false in He. by apply eq_None_not_Some.
Qed.
Lemma drop_legacy_idle s check what p st : files s p = None -> run h s (drop_legacy check what p st) = (s, Ok st).
Proof. intros Hp. unfold drop_legacy, exists_, bind_ok. cbn [bind ask run]. rewrite h_exists, Hp. done. Qed.

Lemma read_opt_files s what p : run h s (read_opt what p) = (s, Ok (files s p)).
Proof. unfold read_opt. cbn [bind ask run]. rewrite h_read. by destruct (files s p). Qed.
Lemma write_files s what p d : exists s' r, run h s (fs what (write p d)) = (s', r) /\
  match r with
  | Ok _ => forall q, files s' q = if bool_decide (q = p) then Some d else files s q
  | Err e => (exists f, e = EFs what f) /\ forall q, files s' q = files s q
  end.
Proof.
  unfold fs, write. cbn [bind ask run]. pose proof (h_write s p d 420%N [] []) as Hf. destruct (h _ s _) as [s' [f|]]; cbn [run]; exists s'; eexists; (split; [done|]);
    [split; [by eexists|exact Hf]|exact Hf].
Qed.
Lemma mkdir_files s what : exists s' r, run h s (fs what (FsMkdir aptKeyringDir 493 [] [] true)) = (s', r) /\
  (forall q, files s' q = files s q) /\ (r = Ok tt \/ exists f, r = Err (EFs what f)).
Proof.
  unfold fs. cbn [bind ask run]. pose proof (h_mkdir s aptKeyringDir 493%N [] [] true) as Hf. destruct (h _ s _) as [s' [f|]]; cbn [run fst] in *;
    exists s'; eexists; (split; [done|]); (split; [exact Hf|]); [right; by eexists|by left].
Qed.

(** The key is installed, or nothing was written. *)
Lemma updateAptKey_run s log : exists s' r, run h s (updateAptKey (aptKeyFile name) (apt_GPGKey c) log) = (s', r) /\
  match r with
  | Ok (_, b) => (forall q, files s' q = if bool_decide (q = aptKeyFile name) then Some (dearmor (apt_GPGKey c)) else files s q) /\
                 (files s (aptKeyFile name) = Some (dearmor (apt_GPGKey c)) -> b = false)
  | Err e => (forall q, files s' q = files s q) /\
             ((exists f, e = ECmd (str "dearmor GPG key") f) \/
              (exists f, e = EFs (str "install GPG key") f) /\ files s (aptKeyFile name) <> Some (dearmor (apt_GPGKey c)))
  end.
Proof.
  unfold updateAptKey, runStdin. cbn [bind ask run]. pose proof (h_gpg s (apt_GPGKey c)) as Hg.
  pose proof (h_run s (unpriv (str "gpg") [str "--dearmor"]) (apt_GPGKey c)) as Hr.
  destruct (h _ s (CRun _ (apt_GPGKey c))) as [s1 [res f]]. cbn [fst snd] in Hg, Hr. cbn [bind run]. unfold with_error. cbn [fst snd].
  destruct f as [f|]; [cbn [run]; exists s1; eexists; split; [done|]; split; [exact Hr|left; by eexists]|].
  destruct (Z.eqb_spec (ExitCode res) 0) as [E|E]; [|cbn [run]; exists s1; eexists; split; [done|]; split; [exact Hr|left; by eexists]].
  rewrite (Hg _ eq_refl E). unfold bind_ok. rewrite run_bind, read_opt_files. cbn [fst snd]. rewrite Hr. case_bool_decide as He; cbn [run].
  - exists s1. eexists. split; [done|]. split; [|done]. intros q. rewrite Hr. case_bool_decide as E'; [by rewrite E'|done].
  - rewrite run_bind. destruct (write_files s1 (str "install GPG key") (aptKeyFile name) (dearmor (apt_GPGKey c))) as (s2 & r & -> & Hw).
    cbn [fst snd]. destruct r as [[]|e]; cbn [run]; exists s2; eexists; (split; [done|]).
    + split; [|done]. intros q. rewrite Hw. case_bool_decide; [done|apply Hr].
    + destruct Hw as [Hf Hw]. split; [intros q; by rewrite Hw, Hr|auto].
Qed.

(** After the source was written: apt accepts it, or it is undone, or undoing it fails. *)
Lemma refresh_run s existing log : exists s' r,
  run h s (refresh text name (aptRepoFile name) existing log) = (s', r) /\
  ((exists o, r = Ok o /\ forall q, files s' q = files s q) \/
   (exists e, r = Err (ERejected (aptRepoFile name) e)) /\
     (default [] (files s' (aptRepoFile name)) = default [] existing \/
      files s' (aptRepoFile name) = files s (aptRepoFile name) /\
      exists s0 f, h _ s0 (CFs (write (aptRepoFile name) (default [] existing))) = (s', Some f))).
Proof.
  unfold refresh, RepoMgr.runPriv. cbn [bind ask run]. pose proof (h_run s (priv (str "apt-get") [str "update"]) []) as Hr.
  destruct (h _ s (CRun _ [])) as [s1 r]. cbn [fst] in Hr. cbn [bind run]. destruct (with_error (str "apt-get") r) as [res [e|]].
  2: { exists s1. eexists. split; [done|]. left. by eexists. }
  destruct (contains _ _).
  2: { exists s1. eexists. split; [done|]. left. by eexists. }
  rewrite run_bind. destruct (default [] existing) as [|b old] eqn:He; cbn [ask run].
  - destruct (h_remove s1 (aptRepoFile name)) as (s2 & -> & Hf). cbn [fst snd run]. exists s2. eexists. split; [done|]. right.
    split; [by eexists|]. left. by rewrite Hf, bool_decide_true.
  - unfold write. pose proof (h_write s1 (aptRepoFile name) (b :: old) 420%N [] [] (aptRepoFile name)) as Hf.
    destruct (h _ s1 _) as [s2 [f|]] eqn:Ew; cbn [fst snd run]; exists s2; eexists; (split; [done|]); right; (split; [by eexists|]).
    + right. split; [by rewrite Hf|]. by exists s1, f.
    + left. by rewrite Hf, bool_decide_true.
Qed.

(** The paths of a repository are different files. *)
Lemma own_paths :
  NoDup [aptRepoFile name; aptLegacyRepoFile name; aptKeyFile name; aptLegacyKeyFile name] /\
  (forall e p, candidate (aptRepoFile name) e = Some p -> p <> aptRepoFile name /\ p <> aptKeyFile name).
Proof.
  assert (H1 : aptRepoFile name <> aptLegacyRepoFile name).
  { unfold aptRepoFile, aptLegacyRepoFile. intros E. apply app_inv_head in E. do 2 apply app_inv_head in E. done. }
  split.
  - rewrite !list.NoDup_cons, !not_elem_of_cons. split_and!; try done; first [apply not_elem_of_nil|apply NoDup_nil_2].
  - intros e p Hp. apply candidate_spec in Hp as (-> & _ & Hne). done.
Qed.
Lemma sources_nonempty n d k : [] <> buildAptSources n d k.
Proof. unfold buildAptSources. by destruct n. Qed.

(** What a failed Apply leaves of the source: what it was, unless apt rejected the new one
    and writing the old one back failed. *)
Definition left_as_was (s s1 : S) (e : mgr_error) : Prop :=
  let old := default [] (files s (aptRepoFile name)) in
  default [] (files s1 (aptRepoFile name)) = old \/
  (exists e', e = ERejected (aptRepoFile name) e') /\
  files s1 (aptRepoFile name) = Some (buildAptSources name c (aptKeyFile name)) /\
  exists s0 f, h _ s0 (CFs (FsWriteFile (aptRepoFile name) old 420 [] [])) = (s1, Some f).

Lemma applyApt_settles s s1 r :
  run h s (applyApt text name c) = (s1, r) -> match r with Ok _ => settled s1 | Err e => left_as_was s s1 e end.
Proof.
  destruct own_paths as [Hnd Hcand]. rewrite !list.NoDup_cons, !not_elem_of_cons in Hnd.
  destruct Hnd as ((N12 & N13 & N14 & _) & (N23 & N24 & _) & (N34 & _) & _).
  unfold applyApt. rewrite run_bind. destruct (cleanup_run s) as (sa & st & -> & _ & Hk & Hu). cbn [fst snd].
  unfold bind_ok at 1. rewrite run_bind.
  match goal with |- context [run h sa (drop_legacy ?a ?b ?p ?st)] => destruct (drop_legacy_run sa a b p st) as (sb & stb & -> & Hb) end.
  cbn [fst snd]. unfold bind_ok at 1. rewrite run_bind.
  match goal with |- context [run h sb (drop_legacy ?a ?b ?p ?st)] => destruct (drop_legacy_run sb a b p st) as (sc & stc & -> & Hc) end.
  cbn [fst snd]. unfold bind_ok at 1. rewrite run_bind.
  match goal with |- context [run h sc (fs ?w (FsMkdir _ _ _ _ _))] => destruct (mkdir_files sc w) as (sd & rd & -> & Hd & Hrd) end.
  cbn [fst snd].
  assert (Hpred : files sd (aptRepoFile name) = files s (aptRepoFile name)).
  { rewrite Hd, Hc, bool_decide_false, Hb, bool_decide_false by done. exact Hk. }
  destruct Hrd as [-> | [f ->]]; [|intros [= <- <-]; left; by rewrite Hpred].
  unfold bind_ok at 1. rewrite run_bind.
  set (key := if negb (bool_decide (apt_GPGKey c = [])) then _ else _).
  assert (Hkey : exists se re, run h sd key = (se, re) /\
    (forall q, q <> aptKeyFile name -> files se q = files sd q) /\
    match re with Ok _ => apt_GPGKey c <> [] -> files se (aptKeyFile name) = Some (dearmor (apt_GPGKey c)) | Err _ => True end).
  { unfold key. case_bool_decide as Hkc; cbn [negb]; [exists sd; by eexists|]. unfold bind_ok. rewrite run_bind.
    destruct (updateAptKey_run sd stc.1) as (se & [[log' b]|e] & -> & Hf & _); cbn [fst snd run]; exists se; eexists; (split_and!; [done| |]).
    - intros q Hq. by rewrite Hf, bool_decide_false.
    - intros _. by rewrite Hf, bool_decide_true.
    - by intros q _.
    - done. }
  destruct Hkey as (se & re & -> & Hee & Hek). clear key. cbn [fst snd].
  destruct re as [[log changed]|e]; [|intros [= <- <-]; left; by rewrite Hee, Hpred]. unfold bind_ok at 1. rewrite run_bind, read_opt_files. cbn [fst snd].
  assert (Hpre : forall q, q <> aptKeyFile name -> q <> aptLegacyRepoFile name -> q <> aptLegacyKeyFile name -> files se q = files sa q).
  { intros q Q1 Q2 Q3. rewrite Hee, Hd, Hc, bool_decide_false, Hb, bool_decide_false by done. done. }
  assert (Hgone : files se (aptLegacyRepoFile name) = None /\ files se (aptLegacyKeyFile name) = None).
  { split; rewrite Hee, Hd, Hc by done; [|by rewrite bool_decide_true]. rewrite bool_decide_false, Hb, bool_decide_true by done. done. }
  assert (Hue : unconflicted se).
  { intros n p d Hn Hp Hpd. destruct (Hcand _ _ Hp) as [Hp1 Hp2].
    destruct (decide (p = aptLegacyRepoFile name)) as [->|Hp3]; [by rewrite (proj1 Hgone) in Hpd|].
    destruct (decide (p = aptLegacyKeyFile name)) as [->|Hp4]; [by rewrite (proj2 Hgone) in Hpd|].
    rewrite Hpre in Hpd by done. by eapply Hu. }
  assert (Hrepo : files se (aptRepoFile name) = files s (aptRepoFile name)) by (rewrite Hpre by done; exact Hk).
  assert (Hsettle : forall s', (forall q, files s' q = if bool_decide (q = aptRepoFile name) then Some (buildAptSources name c (aptKeyFile name)) else files se q) -> settled s').
  { intros s' Hf. split.
    - intros n p d Hn Hp Hpd. destruct (Hcand _ _ Hp) as [Hp1 _]. rewrite Hf, bool_decide_false in Hpd by done. by eapply Hue.
    - by rewrite Hf, bool_decide_false by done; apply Hgone.
    - by rewrite Hf, bool_decide_false by done; apply Hgone.
    - intros Hne. rewrite Hf, bool_decide_false by done. by apply Hek.
    - by rewrite Hf, bool_decide_true. }
  assert (Hfin : forall s' log', (forall q, files s' q = if bool_decide (q = aptRepoFile name) then Some (buildAptSources name c (aptKeyFile name)) else files se q) ->
    run h s' (refresh text name (aptRepoFile name) (files se (aptRepoFile name)) log') = (s1, r) ->
    match r with Ok _ => settled s1 | Err e => left_as_was s s1 e end).
  { intros s' log' Hf. destruct (refresh_run s' (files se (aptRepoFile name)) log') as (s2 & r2 & -> & Ho).
    intros [= <- <-]. unfold left_as_was. rewrite <- Hrepo.
    destruct Ho as [(o & -> & Hsame)|[(e & ->) [Hback|[Hnew Hw]]]].
    - apply Hsettle. intros q. by rewrite Hsame, Hf.
    - by left.
    - right. split_and!; [by eexists| |exact Hw]. by rewrite Hnew, Hf, bool_decide_true. }
  set (desired := buildAptSources name c (aptKeyFile name)) in *.
  destruct (bool_decide (default [] (files se (aptRepoFile name)) = desired)) eqn:Hdes; cbn [negb andb].
  - assert (Hsrc : files se (aptRepoFile name) = Some desired).
    { go_bool. destruct (files se (aptRepoFile name)) as [d|]; cbn in Hdes; [by rewrite Hdes|].
      exfalso. by apply (sources_nonempty name c (aptKeyFile name)). }
    assert (Hfe : forall q, files se q = if bool_decide (q = aptRepoFile name) then Some desired else files se q).
    { intros q. destruct (decide (q = aptRepoFile name)) as [->|]; [by rewrite bool_decide_true|by rewrite bool_decide_false]. }
    destruct changed; cbn [negb run]; [by apply Hfin|]. intros [= <- <-]. by apply Hsettle.
  - unfold bind_ok. rewrite run_bind. destruct (write_files se (str "write repo file") (aptRepoFile name) desired) as (sf & rf & -> & Hf).
    cbn [fst snd]. destruct rf as [[]|e]; [by apply Hfin|]. destruct Hf as [_ Hf]. intros [= <- <-]. left. by rewrite Hf, Hrepo.
Qed.

(** The failures that a configured repository's Apply can still meet. *)
Definition no_change (r : result mgr_error Outcome) : Prop :=
  match r with
  | Ok o => Changed o = false
  | Err e => (exists f, e = EFs (str "create keyrings directory") f) \/ (exists f, e = ECmd (str "dearmor GPG key") f)
  end.
Lemma applyApt_idle s : settled s -> exists s1 r,
  run h s (applyApt text name c) = (s1, r) /\ no_change r /\ forall q, files s1 q = files s q.
Proof.
  intros Hs. unfold applyApt. rewrite run_bind, cleanup_idle by exact (st_clear _ Hs). cbn [fst snd].
  unfold bind_ok at 1. rewrite run_bind, drop_legacy_idle by apply (st_legacy _ Hs). cbn [fst snd].
  unfold bind_ok at 1. rewrite run_bind, drop_legacy_idle by apply (st_legacy_key _ Hs). cbn [fst snd].
  unfold bind_ok at 1. rewrite run_bind. match goal with |- context [run h s (fs ?w _)] => destruct (mkdir_files s w) as (sd & rd & -> & Hd & Hrd) end.
  cbn [fst snd]. destruct Hrd as [-> | [f ->]]; [|exists sd; eexists; split_and!; [done|left; by eexists|done]].
  unfold bind_ok at 1. rewrite run_bind. set (key := if negb (bool_decide (apt_GPGKey c = [])) then _ else _).
  assert (Hkey : exists se re, run h sd key = (se, re) /\ (forall q, files se q = files s q) /\
    match re with Ok (_, b) => b = false | Err e => exists f, e = ECmd (str "dearmor GPG key") f end).
  { unfold key. case_bool_decide as Hkc; cbn [negb]; [by exists sd; eexists|]. unfold bind_ok. rewrite run_bind.
    pose proof (st_key _ Hs Hkc) as Hin. rewrite <- Hd in Hin.
    destruct (updateAptKey_run sd []) as (se & [[log' b]|e] & -> & Hf & Hb); cbn [fst snd run]; exists se; eexists; (split_and!; [done| |]).
    - intros q. rewrite Hf. case_bool_decide as E; [|done]. by rewrite E, <- Hd.
    - by rewrite Hb.
    - intros q. by rewrite Hf.
    - by destruct Hb as [Hb|[_ Hb]]. }
  destruct Hkey as (se & re & -> & He & Hre). clear key. cbn [fst snd].
  destruct re as [[log b]|e]; [subst b|exists se; eexists; split_and!; [done|by right|done]].
  unfold bind_ok. rewrite run_bind, read_opt_files. cbn [fst snd].
  rewrite He, (st_source _ Hs). cbn [from_option]. unfold Datatypes.id. rewrite bool_decide_true by done. cbn [negb andb run].
  exists se. eexists. by split_and!.
Qed.

End Settles.

(** ** A host *)

Definition apt_files : handler RepoOps.Files :=
  fun X s q =>
    match q in call X return RepoOps.Files * X with
    | CRun cmd key => (s, (MkResult 0 (if bool_decide (Exec.Name cmd = str "gpg") then str "bin:" ++ key else []) [], None))
    | CFsExists p => (s, Ok (bool_decide (is_Some (s !! p))))
    | q' => RepoOps.repo_files _ s q'
    end.

Lemma contains_drop_entry (d n : gostring) :
  has_prefix (d ++ str "/" ++ n) (d ++ str "/") = true /\ drop (length (d ++ str "/")) (d ++ str "/" ++ n) = n.
Proof. rewrite app_assoc. split; [apply has_prefix_app|apply drop_app_length]. Qed.

#[export] Instance apt_files_ok : AptHost apt_files (fun s p => s !! p) (fun k => str "bin:" ++ k).
Proof.
  split.
  - done.
  - done.
  - intros s d. eexists. split; [reflexivity|]. split.
    + intros n [x Hx] Hn. apply list_elem_of_omap. exists (d ++ str "/" ++ n, x). split; [by apply elem_of_map_to_list|].
      cbn [fst]. destruct (contains_drop_entry d n) as [-> ->]. by rewrite Hn.
    + intros n b Hin. apply list_elem_of_omap in Hin as ([p x] & _ & Hp). cbn [fst] in Hp.
      destruct (has_prefix _ _); [|done]. destruct (contains _ _) eqn:E; [done|]. by injection Hp as <- <-.
  - intros s p d m o g q. cbn. case_bool_decide as E; [by rewrite E, lookup_insert_eq|by rewrite lookup_insert_ne].
  - intros s p. eexists. split; [reflexivity|]. intros q. case_bool_decide as E; [by rewrite E, lookup_delete_eq|by rewrite lookup_delete_ne].
  - done.
  - done.
  - by intros s key res [= <-] _.
Qed.

Definition corp : AptConfig := MkApt (str "https://deb.example/x") (str "bookworm") [str "main"] [] (str "KEY") false.
Definition old_sources : RepoOps.Files :=
  {[ aptSourcesDir ++ str "/old.sources" := str "URIs: https://deb.example/x" ++ [NL] ++ str "Signed-By: /etc/apt/keyrings/old.gpg";
     str "/etc/apt/keyrings/old.gpg" := str "old" ]}.

(** ** Findings *)

(** The URL is searched as a substring: a source whose URL extends it is deleted with its
    keyring, although it is another repository. *)
Definition security : RepoOps.Files :=
  {[ aptSourcesDir ++ str "/security.sources" :=
       str "URIs: http://deb.example/debian-security" ++ [NL] ++ str "Signed-By: /etc/apt/keyrings/security.gpg";
     str "/etc/apt/keyrings/security.gpg" := str "key" ]}.
Lemma url_prefix_deletes_other :
  let s := (run apt_files security (applyApt (fun _ => []) (str "debian")
              (MkApt (str "http://deb.example/debian") (str "bookworm") [str "main"] [] [] false))).1 in
  s !! (aptSourcesDir ++ str "/security.sources") = None /\ s !! str "/etc/apt/keyrings/security.gpg" = None.
Proof. by vm_compute. Qed.

(** The keyring of a conflicting source is deleted also when another source uses it. *)
Definition shared : RepoOps.Files :=
  {[ aptSourcesDir ++ str "/a.sources" := str "URIs: https://deb.example/x" ++ [NL] ++ str "Signed-By: /etc/apt/keyrings/k.gpg";
     aptSourcesDir ++ str "/b.sources" := str "URIs: https://deb.example/y" ++ [NL] ++ str "Signed-By: /etc/apt/keyrings/k.gpg";
     str "/etc/apt/keyrings/k.gpg" := str "key" ]}.
Lemma shared_keyring_deleted :
  let s := (run apt_files shared (applyApt (fun _ => []) (str "corp") corp)).1 in
  is_Some (s !! (aptSourcesDir ++ str "/b.sources")) /\ s !! str "/etc/apt/keyrings/k.gpg" = None.
Proof. split; [by eexists; vm_compute|by vm_compute]. Qed.
End RepoApt.
