(* ===== verification/Fs.v ===== *)
(** * File operations ([src/sys/fs])

    The privileged file manager: a method is a program over the host, for the backend
    its Runner reports.  On the [Direct] backend it makes system calls itself; under
    [Sudo] and [Doas] it runs tools.  The path guards are in [FsGuard]; what the methods
    do is proved in [FsReplace], [FsRemove] and [FsOps]. *)
From S2P Require Import Prelude Paths FsGuard Exec HostProg HostCmd.

Module Fs.
Import Exec HostProg HostCmd Paths.

Inductive fs_error :=
| ErrCtx (msg : gostring)
| ErrInvalidPath (path : gostring)
| ErrUnsafeMode (mode : gostring)
| ErrUnsafeParentDir (dir : gostring)
| ErrProtectedTarget (path : gostring)
| ErrNotAbsolute (path : gostring)
| ErrRefuseProtected (path : gostring)
| ErrRefuseSymlink (path : gostring)
| ErrRefuseNonDir (path : gostring)
| ErrRefuseNonRegular (path : gostring)
| ErrCmd (e : cmd_error)
| ErrAbsent (path : gostring)
| ErrOs (step : gostring) (e : fs_err)
| ErrDestExists (old new : gostring)
| ErrRenameat2 (old new : gostring) (e : rename_err)
| ErrUnknownName (name : gostring)
| ErrParseId (id : gostring)
| ErrFuel.

(** ** Modes, paths, ownership ([fs.go]) *)

(** The bits of [os.FileMode] the package reads. *)
Definition ModeSetuid : N := 2 ^ 23.
Definition ModeSetgid : N := 2 ^ 22.
Definition ModeSticky : N := 2 ^ 20.
Definition Perm (m : N) : N := N.land m 511.

Definition has_bit (m bit : N) : bool := negb (N.land m bit =? 0)%N.

(** [fmt.Sprintf("%04o", o)] of a number below 0o10000. *)
Definition oct_digit (n : N) : ascii := ascii_of_N (48 + n).
Definition oct4 (o : N) : gostring :=
  [oct_digit (o / 512); oct_digit (o / 64 mod 8); oct_digit (o / 8 mod 8); oct_digit (o mod 8)]%N.

Definition mode_bits (m : N) : N :=
  let o := Perm m in
  let o := if has_bit m ModeSetuid then N.lor o 2048 else o in
  let o := if has_bit m ModeSetgid then N.lor o 1024 else o in
  if has_bit m ModeSticky then N.lor o 512 else o.
Definition modeArg (m : N) : gostring := oct4 (mode_bits m).

Definition validateMode (m : N) : result fs_error unit :=
  if has_bit m (N.lor ModeSetuid ModeSetgid) then Err (ErrUnsafeMode (modeArg m)) else Ok tt.

Definition NUL : ascii := "000"%char.
Definition ValidatePath (path : gostring) : result fs_error unit :=
  if bool_decide (path = []) then Err (ErrInvalidPath path)
  else if bool_decide (NUL ∈ path) then Err (ErrInvalidPath path)
  else if has_prefix path (str "-") then Err (ErrInvalidPath path)
  else Ok tt.

Definition Ownership (owner group : gostring) : gostring :=
  if bool_decide (owner = []) && bool_decide (group = []) then []
  else if bool_decide (group = []) then owner
  else if bool_decide (owner = []) then ":"%char :: group
  else owner ++ ":"%char :: group.

Definition isENOENTStderr (stderr : gostring) : bool :=
  has_suffix (trim_space stderr) (str "No such file or directory").

Record WriteOptions := MkWriteOptions { Mode : N; Owner : gostring; Group : gostring; Backup : gostring }.
Record MkdirOptions := MkMkdirOptions { d_Mode : N; d_Owner : gostring; d_Group : gostring; Recursive : bool }.

(** ** Running tools *)

(** [runChecked]: a runner failure and a non-zero exit are errors. *)
Definition runChecked (name : gostring) (args : list gostring) : prog (result fs_error unit) :=
  let! e := runPriv name args in
  Ret (match e with None => Ok tt | Some e => Err (ErrCmd e) end).
Definition runQuery (name : gostring) (args : list gostring) : prog (result fs_error gostring) :=
  let! r := runRead name args in
  Ret (match r with Ok out => Ok out | Err e => Err (ErrCmd e) end).

(** Go's [if err := check; err != nil { return err }; k]. *)
Definition guard {A} (check : result fs_error unit) (k : prog (result fs_error A)) : prog (result fs_error A) :=
  match check with Err e => Ret (Err e) | Ok _ => k end.

(** A system call that returns an error. *)
Definition sys {A} (step : gostring) (c : call (result fs_err A)) : prog (result fs_error A) :=
  let! r := ask c in
  Ret (match r with Ok a => Ok a | Err e => Err (ErrOs step e) end).
Definition sys_do (step : gostring) (c : call (option fs_err)) : prog (result fs_error unit) :=
  let! r := ask c in
  Ret (match r with None => Ok tt | Some e => Err (ErrOs step e) end).
(** A call whose error is dropped, and [defer] of such a call. *)
Definition ignore (o : call (option fs_err)) : prog unit := let! _ := ask o in Ret tt.
Definition finally {A} (p : prog A) (c : prog unit) : prog A :=
  let! r := p in let! _ := c in Ret r.

(** ** Ownership of files ([safe_fd_unix.go]) *)

Definition close (fd : nat) : prog unit := ignore (COs (OsFClose fd)).

Definition OpenRealDir (path : gostring) : prog (result fs_error nat) :=
  sys (str "open real dir") (COs (OsOpenFile path [O_RDONLY; O_DIRECTORY; O_NOFOLLOW] 0)).

Definition FchownNoFollow (path : gostring) (uid gid : Z) : prog (result fs_error unit) :=
  let!? fd := sys (str "open without following symlinks") (COs (OsOpenFile path [O_RDONLY; O_NOFOLLOW; O_NONBLOCK] 0)) in
  finally
    (let!? info := sys (str "stat") (COs (OsFStat fd)) in
     if negb (fi_regular info) then Ret (Err (ErrRefuseNonRegular path))
     else sys_do (str "fchown") (COs (OsFChown fd uid gid)))
    (close fd).

Definition SetDirPermissionsNoFollow (path : gostring) (mode : N) (uid gid : Z) : prog (result fs_error unit) :=
  let!? fd := OpenRealDir path in
  finally
    (let!? _ := sys_do (str "fchmod dir") (COs (OsFChmod fd mode)) in
     if negb ((uid =? -1) && (gid =? -1))%Z then sys_do (str "fchown dir") (COs (OsFChown fd uid gid))
     else Ret (Ok tt))
    (close fd).

Definition resolveID (name : gostring) (lookup : call (result fs_err gostring)) : prog (result fs_error Z) :=
  let! r := ask lookup in
  Ret (match r with
       | Ok idStr => match atoi idStr with Some id => Ok id | None => Err (ErrParseId idStr) end
       | Err _ => match atoi name with Some id => Ok id | None => Err (ErrUnknownName name) end
       end).
Definition resolve_opt (name : gostring) (lookup : call (result fs_err gostring)) : prog (result fs_error Z) :=
  if bool_decide (name = []) then Ret (Ok (-1)%Z) else resolveID name lookup.
Definition ResolveOwnership (owner group : gostring) : prog (result fs_error (Z * Z)) :=
  let!? uid := resolve_opt owner (COs (UserLookup owner)) in
  let!? gid := resolve_opt group (COs (UserLookupGroup group)) in
  Ret (Ok (uid, gid)).

(** ** Replacing a file ([safe_replace.go], [safe_rename_linux.go]) *)

Definition safeRename (oldPath newPath : gostring) (removeExisting : bool) : prog (result fs_error unit) :=
  if removeExisting then sys_do (str "rename") (COs (OsRename oldPath newPath))
  else
    let! r := ask (COs (OsRenameNoReplace oldPath newPath)) in
    let fallback :=
      let! l := ask (COs (OsLstat newPath)) in
      match l with
      | Ok _ => Ret (Err (ErrDestExists oldPath newPath))
      | Err NotExist => sys_do (str "rename") (COs (OsRename oldPath newPath))
      | Err e => Ret (Err (ErrOs (str "lstat") e))
      end in
    match r with
    | None => Ret (Ok tt)
    | Some EEXIST => Ret (Err (ErrDestExists oldPath newPath))
    | Some ENOSYS | Some EINVAL => fallback
    | Some e => Ret (Err (ErrRenameat2 oldPath newPath e))
    end.

(** Run a step; when it fails, clean up and return its error. *)
Definition or_else (p : prog (result fs_error unit)) (cleanup : prog unit) (k : prog (result fs_error unit))
    : prog (result fs_error unit) :=
  let! r := p in
  match r with
  | Err e => let! _ := cleanup in Ret (Err e)
  | Ok _ => k
  end.

Definition seq (p q : prog unit) : prog unit := let! _ := p in q.

Definition sync_dir (dir : gostring) : prog (result fs_error unit) :=
  let! d := ask (COs (OsOpenFile dir [O_RDONLY] 0)) in
  match d with
  | Err _ => Ret (Ok tt)
  | Ok fd => let! _ := ignore (COs (OsFSync fd)) in let! _ := close fd in Ret (Ok tt)
  end.

Definition temp_pattern (base : gostring) : gostring := "."%char :: base ++ str ".tmp-*".

Definition safeReplaceFile (path data : gostring) (perm : N) (removeExisting : bool) : prog (result fs_error unit) :=
  let dir := Dir path in
  let base := Base path in
  let!? (tmp, tmpPath) := sys (str "create temp") (COs (OsCreateTemp dir (temp_pattern base))) in
  let cleanup := ignore (COs (OsRemove tmpPath)) in
  let! _ := close tmp in
  let! r := ask (COs (OsOpenFile tmpPath [O_RDWR; O_NOFOLLOW] perm)) in
  match r with
  | Err e => let! _ := cleanup in Ret (Err (ErrOs (str "reopen temp with O_NOFOLLOW") e))
  | Ok f =>
      let closing := seq (close f) cleanup in
      or_else (sys_do (str "write temp") (COs (OsFWrite f data))) closing (
      or_else (sys_do (str "chmod temp") (COs (OsFChmod f perm))) closing (
      or_else (sys_do (str "fsync temp") (COs (OsFSync f))) closing (
      or_else (sys_do (str "close temp") (COs (OsFClose f))) cleanup (
      or_else (safeRename tmpPath path removeExisting) cleanup (
      sync_dir dir)))))
  end.

Definition safeBackupAndReplace (path backupPath newContent : gostring) (perm : N) (removeExistingBackup : bool)
    : prog (result fs_error unit) :=
  let! r := ask (COs (OsOpenFile path [O_RDONLY; O_NOFOLLOW] 0)) in
  match r with
  | Err NotExist => safeReplaceFile path newContent perm true
  | Err e => Ret (Err (ErrOs (str "open current for backup") e))
  | Ok f =>
      let! i := ask (COs (OsFStat f)) in
      match i with
      | Err e => let! _ := close f in Ret (Err (ErrOs (str "stat current") e))
      | Ok info =>
          if negb (fi_regular info) then let! _ := close f in Ret (Err (ErrRefuseNonRegular path))
          else
            let! c := ask (COs (OsFReadAll f)) in
            match c with
            | Err e => let! _ := close f in Ret (Err (ErrOs (str "read current for backup") e))
            | Ok current =>
                let!? _ := sys_do (str "close current") (COs (OsFClose f)) in
                let!? _ := safeReplaceFile backupPath current perm removeExistingBackup in
                safeReplaceFile path newContent perm true
            end
      end
  end.

Definition default_mode (m : N) : N := if (m =? 0)%N then 420 else m.

Definition writeDirect (path data : gostring) (opts : WriteOptions) : prog (result fs_error unit) :=
  let perm := default_mode (Mode opts) in
  let!? _ := (if negb (bool_decide (Backup opts = [])) then safeBackupAndReplace path (Backup opts) data perm true
              else safeReplaceFile path data perm true) in
  if negb (bool_decide (Owner opts = [])) || negb (bool_decide (Group opts = [])) then
    let!? (uid, gid) := ResolveOwnership (Owner opts) (Group opts) in
    FchownNoFollow path uid gid
  else Ret (Ok tt).

(** ** Writing through the privilege backend ([write.go], [escalated_parent_unix.go]) *)

Definition parent_safe (fi : FileInfo) : bool :=
  match fi_uid fi with
  | None => false
  | Some uid => (uid =? 0)%Z && (negb (has_bit (fi_perm fi) 18) || fi_sticky fi)
  end.
Definition escalatedParentSafe (dir : gostring) : prog (result fs_error unit) :=
  let!? fi := sys (str "escalated write: stat parent") (COs (OsStat dir)) in
  Ret (if parent_safe fi then Ok tt else Err (ErrUnsafeParentDir dir)).

Definition DQ : gostring := ["034"%char].
Definition quoted (v : string) : gostring := DQ ++ str v ++ DQ.
Definition script_line (parts : list gostring) : gostring := concat parts ++ [NL].
Definition escalatedWriteScript : gostring :=
  concat (map script_line
    [ [str "set -eu"];
      [str "target=$1; mode=$2; owner=$3; backup=$4"];
      [str "dir=$(dirname -- "; quoted "$target"; str ")"];
      [str "if [ -n "; quoted "$backup"; str " ] && [ -e "; quoted "$target"; str " ]; then"];
      [[TAB]; str "cp -f -- "; quoted "$target"; str " "; quoted "$backup"];
      [str "fi"];
      [str "tmp=$(mktemp "; quoted "$dir/.pm-XXXXXXXXXX"; str ")"];
      [str "trap 'rm -f -- "; quoted "$tmp"; str "' EXIT"];
      [str "cat > "; quoted "$tmp"];
      [str "chmod "; quoted "$mode"; str " -- "; quoted "$tmp"];
      [str "if [ -n "; quoted "$owner"; str " ]; then"];
      [[TAB]; str "chown "; quoted "$owner"; str " -- "; quoted "$tmp"];
      [str "fi"];
      [str "mv -T -- "; quoted "$tmp"; str " "; quoted "$target"];
      [str "trap - EXIT"] ]).

(** What the script does, for the directory [dirname] prints and the name [mktemp]
    chooses: the commands it runs one by one, and what is left to run when one of
    them fails ([set -e] with the [trap]). *)
Inductive sh_step :=
| ShRun (argv : list gostring)
| ShCatTo (file : gostring).

Definition before_temp (target backup : gostring) (target_exists : bool) : list sh_step :=
  if negb (bool_decide (backup = [])) && target_exists then [ShRun [str "cp"; str "-f"; str "--"; target; backup]] else [].
Definition make_temp (dir : gostring) : sh_step := ShRun [str "mktemp"; dir ++ str "/.pm-XXXXXXXXXX"].
Definition with_temp (target mode owner tmp : gostring) : list sh_step :=
  [ShCatTo tmp; ShRun [str "chmod"; mode; str "--"; tmp]] ++
  (if negb (bool_decide (owner = [])) then [ShRun [str "chown"; owner; str "--"; tmp]] else []) ++
  [ShRun [str "mv"; str "-T"; str "--"; tmp; target]].
Definition drop_temp (tmp : gostring) : sh_step := ShRun [str "rm"; str "-f"; str "--"; tmp].

(** [ok]: whether each step succeeds, in order. *)
Fixpoint until_failure (steps : list sh_step) (ok : list bool) : list sh_step * bool :=
  match steps, ok with
  | [], _ => ([], true)
  | s :: _, [] | s :: _, false :: _ => ([s], false)
  | s :: steps', true :: ok' => let '(l, r) := until_failure steps' ok' in (s :: l, r)
  end.
Definition run_script (target mode owner backup dir tmp : gostring) (target_exists : bool) (ok ok_temp : list bool)
    : list sh_step * bool :=
  match until_failure (ShRun [str "dirname"; str "--"; target] :: before_temp target backup target_exists ++ [make_temp dir]) ok with
  | (l, false) => (l, false)
  | (l, true) =>
      match until_failure (with_temp target mode owner tmp) ok_temp with
      | (l', false) => (l ++ l' ++ [drop_temp tmp], false)
      | (l', true) => (l ++ l', true)
      end
  end.

Definition write_argv (path : gostring) (opts : WriteOptions) : list gostring :=
  [str "-c"; escalatedWriteScript; str "sh"; path; modeArg (default_mode (Mode opts));
   Ownership (Owner opts) (Group opts); Backup opts].

Definition writeEscalated (path data : gostring) (opts : WriteOptions) : prog (result fs_error unit) :=
  let!? _ := escalatedParentSafe (Dir path) in
  let! r := ask (CRun (priv (str "sh") (write_argv path opts)) data) in
  Ret (match cmd_result (str "write file") r with Ok _ => Ok tt | Err e => Err (ErrCmd e) end).

(** ** Reading ([read.go], [readdir.go]) *)

(** The outcome of [cat] and [find]: the phrase of ENOENT at the end of the standard
    error means the path is absent. *)
Definition read_result (name path : gostring) (r : Result * option exec_error) : result fs_error gostring :=
  match cmd_result name r with
  | Ok out => Ok out
  | Err (ExitFailed n code stderr) =>
      Err (if isENOENTStderr stderr then ErrAbsent path else ErrCmd (ExitFailed n code stderr))
  | Err e => Err (ErrCmd e)
  end.

(** One line of [find -printf '%y/%f\n']. *)
Definition dir_line (line : gostring) : option (gostring * bool) :=
  match cut line SLASH with
  | Some (ty, name) =>
      if bool_decide (ty = []) || bool_decide (name = []) then None
      else Some (name, bool_decide (ty = str "d"))
  | None => None
  end.
Definition parse_dir (out : gostring) : list (gostring * bool) :=
  omap dir_line (split_byte (trim_right_set out [NL]) NL).

Definition find_argv (path : gostring) : list gostring :=
  [path ++ [SLASH]; str "-maxdepth"; str "1"; str "-mindepth"; str "1"; str "-printf"; str "%y/%f\n"].
Definition readDirEscalated (path : gostring) : prog (result fs_error (list (gostring * bool))) :=
  let! r := ask (CRun (priv (str "find") (find_argv path)) []) in
  Ret (match read_result (str "find") path r with Ok out => Ok (parse_dir out) | Err e => Err e end).

(** The errors of [os.ReadFile] and [os.ReadDir]. *)
Definition os_read {A} (path : gostring) (c : call (result fs_err A)) : prog (result fs_error A) :=
  let! r := ask c in
  Ret (match r with
       | Ok a => Ok a
       | Err NotExist => Err (ErrAbsent path)
       | Err e => Err (ErrOs (str "read") e)
       end).

(** ** Mounts ([mount.go]) *)

Record MountInfo := MkMountInfo { Source : gostring; Target : gostring; FSType : gostring; ReadOnly : bool }.

Definition mountOptionsReadOnly (options : gostring) : bool :=
  bool_decide (str "ro" ∈ split_byte options ","%char).

Definition mount_line (line : gostring) : option MountInfo :=
  match fields line with
  | src :: target :: ty :: opts :: _ => Some (MkMountInfo src target ty (mountOptionsReadOnly opts))
  | _ => None
  end.
Definition parse_mounts (out : gostring) : list MountInfo :=
  omap (fun line => if bool_decide (line = []) then None else mount_line line)
    (split_byte (trim_right_set out [NL]) NL).

(** ** Removing a directory ([remove_dir_unix.go]) *)

Definition dir_flags : list open_flag := [O_RDONLY; O_DIRECTORY; O_NOFOLLOW; O_CLOEXEC].

Fixpoint open_comps (fd : nat) (cs : list gostring) : prog (result fs_error nat) :=
  match cs with
  | [] => Ret (Ok fd)
  | comp :: cs' =>
      let! next := ask (COs (OsOpenat fd comp dir_flags)) in
      let! _ := close fd in
      match next with
      | Err e => Ret (Err (ErrOs (str "open component") e))
      | Ok fd' => open_comps fd' cs'
      end
  end.
Definition openNoFollowChain (dir : gostring) : prog (result fs_error nat) :=
  let clean := Clean dir in
  let!? fd := sys (str "open /") (COs (OsOpenFile [SLASH] dir_flags 0)) in
  if bool_decide (clean = [SLASH]) then Ret (Ok fd)
  else open_comps fd (List.filter (fun c => negb (bool_decide (c = []) || bool_decide (c = dot)))
                        (split_byte (trim_prefix clean [SLASH]) SLASH)).

(** A loop that stops at the first error. *)
Definition all_ok {A} (body : A -> prog (result fs_error unit)) (l : list A) : prog (result fs_error unit) :=
  for_each (fun _ a => body a) l tt.

(** The recursion follows the tree the host shows, so its depth is bounded by fuel;
    [FsRemove] proves that the depth of the tree is enough. *)
Fixpoint removeAtRecursive (fuel : nat) (dirfd : nat) (name : gostring) : prog (result fs_error unit) :=
  match fuel with
  | 0 => Ret (Err ErrFuel)
  | S fuel' =>
      let! c := ask CCtxErr in
      match c with
      | Some m => Ret (Err (ErrCtx m))
      | None =>
          let!? st := sys (str "stat") (COs (OsFstatat dirfd name)) in
          if negb (bool_decide (st = S_IFDIR)) then sys_do (str "unlink") (COs (OsUnlinkat dirfd name false))
          else
            let!? cfd := sys (str "open dir") (COs (OsOpenat dirfd name dir_flags)) in
            let! names := ask (COs (OsReaddirnames cfd)) in
            match names with
            | Err e => let! _ := close cfd in Ret (Err (ErrOs (str "read dir") e))
            | Ok children =>
                let! r := all_ok (fun child =>
                            if bool_decide (child = dot) || bool_decide (child = dotdot) then Ret (Ok tt)
                            else removeAtRecursive fuel' cfd child) children in
                match r with
                | Err e => let! _ := close cfd in Ret (Err e)
                | Ok _ =>
                    let!? _ := sys_do (str "close dir") (COs (OsFClose cfd)) in
                    sys_do (str "rmdir") (COs (OsUnlinkat dirfd name true))
                end
            end
      end
  end.

Definition removeDirSecure (fuel : nat) (path : gostring) : prog (result fs_error unit) :=
  let base := Base path in
  let!? pfd := openNoFollowChain (Dir path) in
  finally
    (let!? st := sys (str "stat") (COs (OsFstatat pfd base)) in
     match st with
     | S_IFLNK => Ret (Err (ErrRefuseSymlink path))
     | S_IFDIR => removeAtRecursive fuel pfd base
     | _ => Ret (Err (ErrRefuseNonDir path))
     end)
    (close pfd).

(** ** The manager *)

Section Manager.
Context (b : PrivilegeBackend).

Definition direct : bool := bool_decide (b = Direct).

Definition WriteFile (path data : gostring) (opts : WriteOptions) : prog (result fs_error unit) :=
  let! c := ask CCtxErr in
  match c with
  | Some m => Ret (Err (ErrCtx m))
  | None =>
      guard (ValidatePath path) (
      guard (validateMode (Mode opts)) (
      guard (if bool_decide (Backup opts = []) then Ok tt
             else let? _ := ValidatePath (Backup opts) in
                  if bool_decide (Clean (Backup opts) = Clean path) then Err (ErrInvalidPath (Backup opts)) else Ok tt) (
      if direct then writeDirect path data opts else writeEscalated path data opts)))
  end.

Definition SetMode (path : gostring) (mode : N) : prog (result fs_error unit) :=
  guard (ValidatePath path) (
  guard (validateMode mode) (
  runChecked (str "chmod") [modeArg mode; str "--"; path])).

Definition SetOwnership (path owner group : gostring) : prog (result fs_error unit) :=
  let ownership := Ownership owner group in
  if bool_decide (ownership = []) then Ret (Ok tt)
  else guard (ValidatePath path) (runChecked (str "chown") [str "--"; ownership; path]).

(** [IsProtectedPath] asks for the working directory only for a relative path. *)
Definition guard_fs (cwd : option gostring) : FsGuard.FileSystem :=
  FsGuard.MkFileSystem cwd (fun _ => Err FsGuard.ErrNotExist) (fun _ => false) (fun _ => Err FsGuard.ErrNotExist).
Definition isProtected (path : gostring) : prog bool :=
  if IsAbs (Clean path) then Ret (FsGuard.IsProtectedPath (guard_fs None) path)
  else let! w := ask (COs OsGetwd) in
       Ret (FsGuard.IsProtectedPath (guard_fs (match w with Ok d => Some d | Err _ => None end)) path).

Definition SetOwnershipRecursive (path owner group : gostring) : prog (result fs_error unit) :=
  let ownership := Ownership owner group in
  if bool_decide (ownership = []) then Ret (Ok tt)
  else guard (ValidatePath path) (
       let! p := isProtected path in
       if p then Ret (Err (ErrProtectedTarget (Clean path)))
       else runChecked (str "chown") [str "-R"; str "--"; ownership; path]).

Definition when (c : bool) (p : prog (result fs_error unit)) : prog (result fs_error unit) :=
  if c then p else Ret (Ok tt).
Definition owned (owner group : gostring) : bool :=
  negb (bool_decide (owner = [])) || negb (bool_decide (group = [])).

Definition Copy (src dst : gostring) (opts : WriteOptions) : prog (result fs_error unit) :=
  guard (ValidatePath src) (
  guard (ValidatePath dst) (
  guard (validateMode (Mode opts)) (
  let!? _ := runChecked (str "cp") [str "--"; src; dst] in
  let!? _ := when (negb (Mode opts =? 0)%N) (SetMode dst (Mode opts)) in
  when (owned (Owner opts) (Group opts)) (SetOwnership dst (Owner opts) (Group opts))))).

Definition CopyTree (src dst : gostring) (opts : WriteOptions) : prog (result fs_error unit) :=
  guard (ValidatePath src) (
  guard (ValidatePath dst) (
  guard (validateMode (Mode opts)) (
  let!? _ := runChecked (str "cp") [str "-a"; str "-T"; str "--"; src; dst] in
  let!? _ := when (negb (Mode opts =? 0)%N) (SetMode dst (Mode opts)) in
  when (owned (Owner opts) (Group opts)) (SetOwnershipRecursive dst (Owner opts) (Group opts))))).

Definition Mkdir (path : gostring) (opts : MkdirOptions) : prog (result fs_error unit) :=
  guard (ValidatePath path) (
  let!? _ := runChecked (str "mkdir") ((if Recursive opts then [str "-p"] else []) ++ [str "--"; path]) in
  let!? _ := when (negb (d_Mode opts =? 0)%N) (SetMode path (d_Mode opts)) in
  when (owned (d_Owner opts) (d_Group opts)) (SetOwnership path (d_Owner opts) (d_Group opts))).

Definition Remove (path : gostring) : prog (result fs_error unit) :=
  guard (ValidatePath path) (runChecked (str "rm") [str "-f"; str "--"; path]).

Definition RemoveDir (fuel : nat) (path : gostring) : prog (result fs_error unit) :=
  guard (ValidatePath path) (
  let clean := Clean path in
  if negb (IsAbs clean) then Ret (Err (ErrNotAbsolute path))
  else if FsGuard.IsUnderProtectedPrefix (guard_fs None) clean then Ret (Err (ErrRefuseProtected clean))
  else if direct then removeDirSecure fuel clean
  else runChecked (str "rm") [str "-rf"; str "--"; clean]).

Definition ReadFile (path : gostring) : prog (result fs_error gostring) :=
  guard (ValidatePath path) (
  if direct then os_read path (CReadFile path)
  else let! r := ask (CRun (priv (str "cat") [str "--"; path]) []) in
       Ret (read_result (str "cat") path r)).

Definition Exists (path : gostring) : prog (result fs_error bool) :=
  guard (ValidatePath path) (
  if direct then
    let! r := ask (COs (OsStat path)) in
    Ret (match r with
         | Ok _ => Ok true
         | Err NotExist => Ok false
         | Err e => Err (ErrOs (str "stat") e)
         end)
  else
    let! r := ask (CRun (priv (str "test") [str "-e"; path]) []) in
    Ret (match r with (_, Some e) => Err (ErrCmd (RunFailed e)) | (res, None) => Ok (ExitCode res =? 0)%Z end)).

Definition ReadDir (path : gostring) : prog (result fs_error (list (gostring * bool))) :=
  guard (ValidatePath path) (
  if direct then os_read path (COs (OsReadDir path)) else readDirEscalated path).

Definition IsReadOnly (path : gostring) : prog (result fs_error bool) :=
  guard (ValidatePath path) (
  let!? out := runQuery (str "findmnt") [str "-n"; str "-o"; str "OPTIONS"; str "--target"; path] in
  Ret (Ok (mountOptionsReadOnly (trim_space out)))).

Definition ListMounts : prog (result fs_error (list MountInfo)) :=
  let!? out := runQuery (str "findmnt") [str "-rn"; str "-o"; str "SOURCE,TARGET,FSTYPE,OPTIONS"] in
  Ret (Ok (parse_mounts out)).

Definition RemountRW (path : gostring) : prog (result fs_error unit) :=
  guard (ValidatePath path) (runChecked (str "mount") [str "-o"; str "remount,rw"; str "--"; path]).

End Manager.
End Fs.
