(* ===== verification/FsReplace.v ===== *)
(** * Replacing files ([src/sys/fs/safe_replace.go], [write.go])

    Crash safety of [WriteFile] on the Direct backend: at every point of a write the
    target holds what it held before or the complete new file with its mode.  The
    system calls are those of a host with the documented laws of the POSIX calls, whatever
    fails; the manager that satisfies the laws serves the other components. *)
From S2P Require Import Prelude Paths FsGuard Exec HostProg HostCmd Fs Repo RepoMgr RepoOps.

Module FsReplace.
Import Exec HostProg HostCmd Paths Fs.

(** ** The states of a run *)

Section Always.
Context {S : Type} (h : handler S) (I : S -> Prop).

(** The states a program passes through; a crash leaves one of them. *)
Fixpoint visited {A} (s : S) (p : prog A) : list S :=
  match p with
  | Ret _ => [s]
  | Call c k => s :: (let '(s', x) := h _ s c in visited s' (k x))
  end.

(** [I] holds of every state, and [Q] at the end. *)
Fixpoint always {A} (s : S) (p : prog A) (Q : S -> A -> Prop) : Prop :=
  I s /\ match p with
         | Ret a => Q s a
         | Call c k => let '(s', x) := h _ s c in always s' (k x) Q
         end.

Lemma always_visited {A} s (p : prog A) Q :
  always s p Q -> Forall I (visited s p) /\ Q (run h s p).1 (run h s p).2.
Proof.
  revert s. induction p as [a|X c k IH]; intros s; cbn [always visited run]; intros [HI Hk].
  - split; [by constructor|done].
  - destruct (h X s c) as [s' x]. destruct (IH x s' Hk). split; [by constructor|done].
Qed.
Lemma always_bind {A B} s (p : prog A) (f : A -> prog B) Q :
  always s p (fun s' a => always s' (f a) Q) -> always s (bind p f) Q.
Proof.
  revert s. induction p as [a|X c k IH]; intros s; cbn [always bind]; [by intros [_ H]|].
  intros [HI Hk]. split; [done|]. destruct (h X s c) as [s' x]. by apply IH.
Qed.
Lemma always_bind_ok {E A B} s (p : prog (result E A)) (f : A -> prog (result E B)) Q :
  always s p (fun s' r => match r with Ok a => always s' (f a) Q | Err e => I s' /\ Q s' (Err e) end) ->
  always s (bind_ok p f) Q.
Proof.
  intros H. apply always_bind. revert H. generalize s. clear s.
  induction p as [r|X c k IH]; intros s; cbn [always].
  - intros [HI H]. split; [done|]. by destruct r.
  - intros [HI Hk]. split; [done|]. destruct (h X s c). by apply IH.
Qed.
Lemma always_mono {A} s (p : prog A) (Q Q' : S -> A -> Prop) :
  (forall s a, I s -> Q s a -> Q' s a) -> always s p Q -> always s p Q'.
Proof.
  intros HQ. revert s. induction p as [a|X c k IH]; intros s; cbn [always]; [naive_solver|].
  intros [HI Hk]. split; [done|]. destruct (h X s c) as [s' x]. by apply IH.
Qed.
Lemma always_ret {A} s (a : A) (Q : S -> A -> Prop) : I s -> Q s a -> always s (Ret a) Q.
Proof. by split. Qed.
Lemma always_call {A X} s (c : call X) (k : X -> prog A) (Q : S -> A -> Prop) :
  I s -> (forall s' x, h _ s c = (s', x) -> always s' (k x) Q) -> always s (Call c k) Q.
Proof. intros HI Hk. cbn [always]. split; [done|]. destruct (h X s c) as [s' x]. by apply Hk. Qed.
End Always.

Lemma always_weaken {S A} (h : handler S) (I I' : S -> Prop) s (p : prog A) Q :
  (forall s, I s -> I' s) -> always h I s p Q -> always h I' s p Q.
Proof.
  intros HI. revert s. induction p as [a|X c k IH]; intros s; cbn [always]; [naive_solver|].
  intros [Hs Hk]. split; [auto|]. destruct (h X s c) as [s' x]. by apply IH.
Qed.

(** ** A disk *)

Inductive entry := EFile (data : gostring) (mode : N) | ENode (kind : file_type).

(** The calls that leave every directory entry alone. *)
Definition quiet (o : os_op) : bool :=
  match o with
  | OsLstat _ | OsStat _ | OsFStat _ | OsFSync _ | OsFClose _ | OsFReadAll _ | OsFChown _ _ _
  | OsOpenFile _ _ _ | UserLookup _ | UserLookupGroup _ => true
  | _ => false
  end.

Section Disk.
(** [dir_of] is the directory a path leads to; an entry is a name in a directory. *)
Context {D : Type} `{EqDecision D} (dir_of : gostring -> D).
Definition key (p : gostring) : D * gostring := (dir_of (Dir p), Base p).

(** The system calls on a host nobody else writes to: [ent] is what a name holds, [pos]
    the entry and offset an open file is at. *)
Class DiskHost {S} (h : handler S) (ent : S -> D * gostring -> option entry)
    (pos : S -> nat -> option (D * gostring * N)) : Prop := {
  d_quiet s o k : quiet o = true -> ent (h _ s (COs o)).1 k = ent s k;
  d_ctx s k : ent (h _ s CCtxErr).1 k = ent s k;
  d_create s dir pat s' r : h _ s (COs (OsCreateTemp dir (pat ++ str "*"))) = (s', r) ->
    match r with
    | Err _ => forall k, ent s' k = ent s k
    | Ok (fd, p) => dir_of (Dir p) = dir_of dir /\ (exists x, Base p = pat ++ x) /\ ent s (key p) = None /\
        forall k, ent s' k = if decide (k = key p) then Some (EFile [] 384) else ent s k
    end;
  d_open s p fl m s' fd : h _ s (COs (OsOpenFile p fl m)) = (s', Ok fd) -> O_NOFOLLOW ∈ fl ->
    pos s' fd = Some (key p, 0%N);
  d_absent s p fl m s' : h _ s (COs (OsOpenFile p fl m)) = (s', Err NotExist) -> O_NOFOLLOW ∈ fl -> ent s (key p) = None;
  d_stat s fd : pos (h _ s (COs (OsFStat fd))).1 fd = pos s fd;
  d_regular s fd k n s' fi : pos s fd = Some (k, n) -> h _ s (COs (OsFStat fd)) = (s', Ok fi) ->
    fi_regular fi = true -> exists d m, ent s k = Some (EFile d m);
  d_readall s fd k d m s' d' : pos s fd = Some (k, 0%N) -> ent s k = Some (EFile d m) ->
    h _ s (COs (OsFReadAll fd)) = (s', Ok d') -> d' = d;
  d_write s fd data s' r k : h _ s (COs (OsFWrite fd data)) = (s', r) -> pos s fd = Some (k, 0%N) ->
    (forall k', k' <> k -> ent s' k' = ent s k') /\
    (r = None -> (forall m, ent s k = Some (EFile [] m) -> ent s' k = Some (EFile data m)) /\
       pos s' fd = Some (k, N.of_nat (length data)));
  d_chmod s fd mode s' r k n : h _ s (COs (OsFChmod fd mode)) = (s', r) -> pos s fd = Some (k, n) ->
    (forall k', k' <> k -> ent s' k' = ent s k') /\
    (r = None -> forall d m, ent s k = Some (EFile d m) -> ent s' k = Some (EFile d mode));
  d_rename s p q s' r : h _ s (COs (OsRename p q)) = (s', r) ->
    forall k, ent s' k = match r with
      | Some _ => ent s k
      | None => if decide (k = key q) then ent s (key p) else if decide (k = key p) then None else ent s k
      end;
  d_noreplace s p q s' r : h _ s (COs (OsRenameNoReplace p q)) = (s', r) ->
    (r = None -> ent s (key q) = None) /\
    forall k, ent s' k = match r with
      | Some _ => ent s k
      | None => if decide (k = key q) then ent s (key p) else if decide (k = key p) then None else ent s k
      end;
  d_remove s p s' r : h _ s (COs (OsRemove p)) = (s', r) ->
    forall k, ent s' k = match r with
      | Some _ => ent s k
      | None => if decide (k = key p) then None else ent s k
      end;
  d_read s p : exists r, h _ s (CReadFile p) = (s, r) /\
    forall d m, ent s (key p) = Some (EFile d m) -> r = Ok d
}.

Context {S} (h : handler S) (ent : S -> D * gostring -> option entry)
  (pos : S -> nat -> option (D * gostring * N)) `{!DiskHost h ent pos}.

(** Removing a temporary file works. *)
Definition removals_work : Prop := forall s p, (h (option fs_err) s (COs (OsRemove p))).2 = None.

Definition same (s0 s : S) : Prop := forall k, ent s k = ent s0 k.
(** The disk of [s0] and one new file, a temporary one in the directory of [path]. *)
Definition is_temp (path : gostring) (t : D * gostring) : Prop :=
  t.1 = dir_of (Dir path) /\ exists x, t.2 = "."%char :: Base path ++ str ".tmp-" ++ x.
Definition but_temp (s0 : S) (path : gostring) (s : S) : Prop :=
  exists t, is_temp path t /\ ent s0 t = None /\ forall k, k <> t -> ent s k = ent s0 k.
(** The disk of [s0] with the file at [path] replaced. *)
Definition replaced (s0 : S) (path data : gostring) (mode : N) (s : S) : Prop :=
  forall k, ent s k = if decide (k = key path) then Some (EFile data mode) else ent s0 k.

Definition during (s0 : S) (path data : gostring) (mode : N) (s : S) : Prop :=
  same s0 s \/ but_temp s0 path s \/ replaced s0 path data mode s.
(** After a failed attempt. *)
Definition undone (s0 : S) (path : gostring) (s : S) : Prop :=
  (removals_work -> same s0 s) /\ (same s0 s \/ but_temp s0 path s).

Definition settled (s0 : S) (path data : gostring) (mode : N) (s : S) (r : result fs_error unit) : Prop :=
  match r with Ok _ => replaced s0 path data mode s | Err _ => undone s0 path s end.

Lemma temp_not_path path t : is_temp path t -> t <> key path.
Proof.
  intros [_ [x Hx]] ->. cbn [key snd] in Hx. apply (f_equal length) in Hx.
  cbn [length] in Hx. rewrite !length_app in Hx. lia.
Qed.

(** One new file, at [t], with content [f]; everything else as in [s0]. *)
Definition holds (s0 : S) (t : D * gostring) (f : option entry) (s : S) : Prop :=
  ent s t = f /\ forall k, k <> t -> ent s k = ent s0 k.

Lemma holds_ext s0 t f s s' : (forall k, ent s' k = ent s k) -> holds s0 t f s -> holds s0 t f s'.
Proof. intros He [Ht Hk]. split; [by rewrite He|]. intros k ?. rewrite He. auto. Qed.
Lemma holds_during s0 path data perm t f s :
  is_temp path t -> ent s0 t = None -> holds s0 t f s -> during s0 path data perm s.
Proof. intros Ht Hn [_ Hk]. right. left. by exists t. Qed.

Lemma always_quiet {A} (I : S -> Prop) s o (k : os_ans o -> prog A) Q :
  quiet o = true -> I s ->
  (forall s' x, h _ s (COs o) = (s', x) -> (forall e, ent s' e = ent s e) -> always h I s' (k x) Q) ->
  always h I s (Call (COs o) k) Q.
Proof.
  intros Hq HI Hk. cbn [always]. split; [done|]. pose proof (fun e => d_quiet s o e Hq) as He.
  destruct (h _ s _) as [s' x] eqn:E. by apply Hk.
Qed.

Ltac quiet_call :=
  match goal with |- always _ _ _ (Call (COs ?o) _) _ => apply (always_quiet _ _ o) end.

(** Cleaning up after a failure. *)
Lemma cleanup_spec s0 path data perm tmp e f s :
  is_temp path (key tmp) -> ent s0 (key tmp) = None -> holds s0 (key tmp) f s ->
  always h (during s0 path data perm) s (bind (ignore (COs (OsRemove tmp))) (fun _ => Ret (Err e)))
    (settled s0 path data perm).
Proof.
  intros Ht Hn Hh. unfold ignore. cbn [bind ask always]. split; [by eapply holds_during|].
  destruct (h _ s _) as [s' r] eqn:E. pose proof (d_remove _ _ _ _ E) as Hr. destruct Hh as [Hf Hk].
  assert (Hu : (r = None -> same s0 s') /\ but_temp s0 path s').
  { split.
    - intros -> k. rewrite Hr. destruct (decide (k = key tmp)) as [->|]; [done|auto].
    - exists (key tmp). split; [done|]. split; [done|]. intros k Hne. rewrite Hr. destruct r; [auto|].
      rewrite decide_False by done. auto. }
  destruct Hu as [Hs Hb]. split; [by right; left|]. split; [|by right].
  intros Hw. apply Hs. specialize (Hw s tmp). by rewrite E in Hw.
Qed.

Lemma temp_created s path s' fd p :
  h _ s (COs (OsCreateTemp (Dir path) (temp_pattern (Base path)))) = (s', Ok (fd, p)) ->
  is_temp path (key p) /\ ent s (key p) = None /\ holds s (key p) (Some (EFile [] 384)) s'.
Proof.
  intros E. unfold temp_pattern in E.
  replace ("."%char :: Base path ++ str ".tmp-*") with (("."%char :: Base path ++ str ".tmp-") ++ str "*") in E
    by (cbn [app]; by rewrite <- app_assoc).
  apply d_create in E as (Hd & [x Hx] & Hn & He). split; [|split; [done|split]].
  - split; [done|]. exists x. cbn [key snd]. rewrite Hx. cbn [app]. by rewrite <- app_assoc.
  - by rewrite He, decide_True.
  - intros k Hk. by rewrite He, decide_False.
Qed.

(** A rename, replacing or not, moves the temporary file over the path or does nothing. *)
Lemma rename_spec s0 path data perm tmp re s :
  is_temp path (key tmp) -> ent s0 (key tmp) = None -> holds s0 (key tmp) (Some (EFile data perm)) s ->
  always h (during s0 path data perm) s (safeRename tmp path re)
    (fun s r => match r with
                | Ok _ => replaced s0 path data perm s
                | Err _ => holds s0 (key tmp) (Some (EFile data perm)) s
                end).
Proof.
  intros Ht Hn Hh. pose proof (temp_not_path _ _ Ht) as Hne.
  assert (Hmoved : forall s s', holds s0 (key tmp) (Some (EFile data perm)) s ->
    (forall k, ent s' k = if decide (k = key path) then ent s (key tmp) else if decide (k = key tmp) then None else ent s k) ->
    replaced s0 path data perm s').
  { intros s1 s2 [Hf Hk] He k. rewrite He. destruct (decide (k = key path)) as [->|]; [done|].
    destruct (decide (k = key tmp)) as [->|]; [done|auto]. }
  assert (Hplain : forall s, holds s0 (key tmp) (Some (EFile data perm)) s ->
    always h (during s0 path data perm) s (sys_do (str "rename") (COs (OsRename tmp path)))
      (fun s r => match r with Ok _ => replaced s0 path data perm s | Err _ => holds s0 (key tmp) (Some (EFile data perm)) s end)).
  { intros s1 H1. unfold sys_do. cbn [bind ask always]. split; [by eapply holds_during|].
    destruct (h _ s1 _) as [s2 r] eqn:E. pose proof (d_rename _ _ _ _ _ E) as Hr. destruct r as [e|].
    - assert (holds s0 (key tmp) (Some (EFile data perm)) s2) by by eapply holds_ext. split; [by eapply holds_during|done].
    - split; [right; right|]; by eapply Hmoved. }
  unfold safeRename. destruct re; [by apply Hplain|]. cbn [bind ask always]. split; [by eapply holds_during|].
  destruct (h _ s _) as [s2 r] eqn:E. pose proof (d_noreplace _ _ _ _ _ E) as [_ Hr].
  destruct r as [e|].
  2: { split; [right; right|]; by eapply Hmoved. }
  assert (H2 : holds s0 (key tmp) (Some (EFile data perm)) s2) by by eapply holds_ext.
  assert (Hfall : always h (during s0 path data perm) s2
    (bind (ask (COs (OsLstat path))) (fun l => match l with
       | Ok _ => Ret (Err (ErrDestExists tmp path))
       | Err NotExist => sys_do (str "rename") (COs (OsRename tmp path))
       | Err e => Ret (Err (ErrOs (str "lstat") e))
       end))
    (fun s r => match r with Ok _ => replaced s0 path data perm s | Err _ => holds s0 (key tmp) (Some (EFile data perm)) s end)).
  { cbn [bind ask]. quiet_call; [done|by eapply holds_during|]. intros s3 x _ He.
    pose proof (holds_ext _ _ _ _ _ He H2) as H3. destruct x as [|[]]; [|by apply Hplain|];
      (apply always_ret; [by eapply holds_during|done]). }
  destruct e; try (apply Hfall); (apply always_ret; [by eapply holds_during|done]).
Qed.

Lemma closing_spec s0 path data perm fd tmp e f s :
  is_temp path (key tmp) -> ent s0 (key tmp) = None -> holds s0 (key tmp) f s ->
  always h (during s0 path data perm) s (bind (seq (close fd) (ignore (COs (OsRemove tmp)))) (fun _ => Ret (Err e)))
    (settled s0 path data perm).
Proof.
  intros Ht Hn Hs. unfold seq, close, ignore at 1. cbn [bind ask]. quiet_call; [done|by eapply holds_during|].
  intros s' x _ He. eapply (cleanup_spec _ _ _ _ _ e); [done|done|by eapply holds_ext].
Qed.

Lemma sync_spec s0 path data perm s :
  replaced s0 path data perm s ->
  always h (during s0 path data perm) s (sync_dir (Dir path)) (settled s0 path data perm).
Proof.
  assert (Hext : forall s s', (forall k, ent s' k = ent s k) -> replaced s0 path data perm s -> replaced s0 path data perm s').
  { intros s1 s2 He Hr k. by rewrite He. }
  intros H1. unfold sync_dir, close, ignore. cbn [bind ask]. quiet_call; [done|by right; right|].
  intros s2 x _ H2%Hext; [|done]. destruct x as [fd|]; [|by apply always_ret; [right; right|]].
  quiet_call; [done|by right; right|]. intros s3 x _ H3%Hext; [|done].
  quiet_call; [done|by right; right|]. intros s4 y _ H4%Hext; [|done]. by apply always_ret; [right; right|].
Qed.

(** A quiet step with a clean-up. *)
Lemma quiet_or_else s0 path data perm t f step (c : call (option fs_err)) cleanup k s :
  (exists fd, c = COs (OsFSync fd) \/ c = COs (OsFClose fd)) ->
  is_temp path t -> ent s0 t = None -> holds s0 t f s ->
  (forall s e, holds s0 t f s -> always h (during s0 path data perm) s (bind cleanup (fun _ => Ret (Err e))) (settled s0 path data perm)) ->
  (forall s, holds s0 t f s -> always h (during s0 path data perm) s k (settled s0 path data perm)) ->
  always h (during s0 path data perm) s (or_else (sys_do step c) cleanup k) (settled s0 path data perm).
Proof.
  intros [fd Ho] Ht Hn Hs Hcl Hk. unfold or_else. apply always_bind. unfold sys_do. 
  destruct Ho as [-> | ->]; cbn [bind ask]; (quiet_call; [done|by eapply holds_during|]); intros s' r _ He;
    (apply always_ret; [by eapply holds_during, holds_ext|]); pose proof (holds_ext _ _ _ _ _ He Hs) as H';
    destruct r; auto.
Qed.

(** From the reopened file on: write it, set its mode, flush, close and rename. *)
Definition fill (path data tmpPath : gostring) (perm : N) (re : bool) (f : nat) : prog (result fs_error unit) :=
  let cleanup := ignore (COs (OsRemove tmpPath)) in
  let closing := seq (close f) cleanup in
  or_else (sys_do (str "write temp") (COs (OsFWrite f data))) closing (
  or_else (sys_do (str "chmod temp") (COs (OsFChmod f perm))) closing (
  or_else (sys_do (str "fsync temp") (COs (OsFSync f))) closing (
  or_else (sys_do (str "close temp") (COs (OsFClose f))) cleanup (
  or_else (safeRename tmpPath path re) cleanup (
  sync_dir (Dir path)))))).

Lemma flush_spec s0 path data perm re f tmp s :
  is_temp path (key tmp) -> ent s0 (key tmp) = None -> holds s0 (key tmp) (Some (EFile data perm)) s ->
  always h (during s0 path data perm) s
    (or_else (sys_do (str "fsync temp") (COs (OsFSync f))) (seq (close f) (ignore (COs (OsRemove tmp)))) (
     or_else (sys_do (str "close temp") (COs (OsFClose f))) (ignore (COs (OsRemove tmp))) (
     or_else (safeRename tmp path re) (ignore (COs (OsRemove tmp))) (sync_dir (Dir path)))))
    (settled s0 path data perm).
Proof.
  intros Ht Hn Hs. eapply quiet_or_else; [by eauto|done|done|exact Hs|intros; by eapply closing_spec|]. clear s Hs. intros s Hs.
  eapply quiet_or_else; [by eauto|done|done|exact Hs|intros; by eapply cleanup_spec|]. clear s Hs. intros s Hs.
  unfold or_else. apply always_bind. eapply always_mono; [|by apply rename_spec].
  intros s' [[]|e] _ H'; [by apply sync_spec|by eapply cleanup_spec].
Qed.

Lemma fill_spec s0 path data perm re f tmp s :
  is_temp path (key tmp) -> ent s0 (key tmp) = None -> holds s0 (key tmp) (Some (EFile [] 384)) s ->
  pos s f = Some (key tmp, 0%N) ->
  always h (during s0 path data perm) s (fill path data tmp perm re f) (settled s0 path data perm).
Proof.
  intros Ht Hn [H3 Hk3] Hpos. unfold fill, or_else at 1. apply always_bind. unfold sys_do at 1. cbn [bind ask].
  apply always_call; [by eapply holds_during|]. intros s4 r Ew. pose proof (d_write _ _ _ _ _ _ Ew Hpos) as [Hk4 Hw4].
  assert (H4 : holds s0 (key tmp) (ent s4 (key tmp)) s4) by (split; [done|]; intros k Hk; rewrite Hk4 by done; auto).
  apply always_ret; [by eapply holds_during|]. destruct r as [e|]; [by eapply closing_spec|].
  destruct (Hw4 eq_refl) as [Hf4 Hp4]. rewrite (Hf4 _ H3) in H4. clear Hk4 Hw4. unfold or_else at 1. apply always_bind.
  unfold sys_do at 1. cbn [bind ask]. apply always_call; [by eapply holds_during|]. intros s5 r Ec.
  pose proof (d_chmod _ _ _ _ _ _ _ Ec Hp4) as [Hk5 Hw5].
  assert (H5 : holds s0 (key tmp) (ent s5 (key tmp)) s5) by (split; [done|]; intros k Hk; rewrite Hk5 by done; by apply H4).
  apply always_ret; [by eapply holds_during|]. destruct r as [e|]; [by eapply closing_spec|].
  rewrite (Hw5 eq_refl _ _ (proj1 H4)) in H5. by apply flush_spec.
Qed.

Lemma replace_spec s0 path data perm re :
  always h (during s0 path data perm) s0 (safeReplaceFile path data perm re) (settled s0 path data perm).
Proof.
  unfold safeReplaceFile. apply always_bind_ok. unfold sys. cbn [bind ask].
  apply always_call; [by left|]. intros s1 r E. destruct r as [[fd tmp]|e].
  2: { unfold temp_pattern in E.
       replace ("."%char :: Base path ++ str ".tmp-*") with (("."%char :: Base path ++ str ".tmp-") ++ str "*") in E
         by (cbn [app]; by rewrite <- app_assoc).
       apply d_create in E. apply always_ret; [by left|]. split; [by left|]. split; [done|by left]. }
  apply temp_created in E as (Ht & Hn & H1). apply always_ret; [by eapply holds_during|].
  unfold close at 1, ignore at 1. cbn [bind ask]. quiet_call; [done|by eapply holds_during|].
  intros s2 _ _ He2. pose proof (holds_ext _ _ _ _ _ He2 H1) as H2. cbn [bind ask].
  quiet_call; [done|by eapply holds_during|]. intros s3 r Eo He3.
  pose proof (holds_ext _ _ _ _ _ He3 H2) as H3. destruct r as [f|e]; [|by eapply cleanup_spec].
  apply d_open in Eo; [|apply (bool_decide_unpack _); reflexivity]. by apply fill_spec.
Qed.

(** ** The whole write *)

Section Write.
Context (s0 : S) (path data : gostring) (perm : N).

(** The target at every point of a write. *)
Definition intact (s : S) : Prop :=
  ent s (key path) = ent s0 (key path) \/ ent s (key path) = Some (EFile data perm).
Definition others (backup : gostring) (s : S) : Prop :=
  forall k, k <> key path -> backup = [] \/ k <> key backup -> ent s k = ent s0 k.
Definition backed_up (backup : gostring) (s : S) : Prop :=
  backup = [] \/ forall d m, ent s0 (key path) = Some (EFile d m) -> ent s (key backup) = Some (EFile d perm).
Definition written (backup : gostring) (s : S) : Prop :=
  ent s (key path) = Some (EFile data perm) /\ backed_up backup s /\ others backup s.
Definition failed (backup : gostring) (s : S) : Prop := removals_work -> others backup s.
Definition ended (backup : gostring) (s : S) (r : result fs_error unit) : Prop :=
  match r with Ok _ => written backup s | Err _ => failed backup s end.

(** A replacement of the target that starts where only the backup differs. *)
Lemma replace_target backup re s1 :
  (backup = [] \/ key backup <> key path) -> (forall k, backup = [] \/ k <> key backup -> ent s1 k = ent s0 k) ->
  backed_up backup s1 ->
  always h intact s1 (safeReplaceFile path data perm re) (ended backup).
Proof.
  intros Hb H1 Hbk. assert (Hp : ent s1 (key path) = ent s0 (key path)) by (apply H1; naive_solver).
  eapply always_mono; [|eapply always_weaken, replace_spec].
  - intros s [[]|e] _.
    + intros Hr. split; [by rewrite Hr, decide_True|]. split.
      * destruct Hbk as [->|Hbk]; [by left|]. destruct Hb as [->|Hb]; [by left|]. right. intros d m Hd.
        rewrite Hr, decide_False by done. eauto.
      * intros k Hk Hkb. rewrite Hr, decide_False by done. auto.
    + intros [Hs _] Hw k Hk Hkb. rewrite (Hs Hw). auto.
  - intros s [Hs|[(t & Ht & _ & Hk)|Hr]].
    + left. by rewrite Hs.
    + left. rewrite Hk; [done|]. by apply not_eq_sym, temp_not_path.
    + right. by rewrite Hr, decide_True.
Qed.

(** Writing the backup leaves the target alone; then the target is replaced. *)
Lemma backup_stage backup d m s4 :
  backup <> [] -> key backup <> key path -> (forall k, ent s4 k = ent s0 k) -> ent s0 (key path) = Some (EFile d m) ->
  always h intact s4 (safeReplaceFile backup d perm true)
    (fun s r => match r with
                | Ok _ => always h intact s (safeReplaceFile path data perm true) (ended backup)
                | Err e => intact s /\ ended backup s (Err e)
                end).
Proof.
  intros Hne Hb H4 Hold. eapply always_mono; [|eapply always_weaken, replace_spec].
  - intros s [[]|e] Hi.
    + intros Hr. apply replace_target; [by right| |].
      * intros k Hk. destruct Hk as [->|Hk]; [naive_solver|]. rewrite Hr, decide_False by done. auto.
      * right. intros d' m' Hd'. rewrite Hr, decide_True by done. by rewrite Hold in Hd'; simplify_eq.
    + intros [Hs _]. split; [done|]. intros Hw k _ _. by rewrite (Hs Hw).
  - intros s [Hs|[(t & Ht & Hn & Hk)|Hr]]; left.
    + by rewrite Hs.
    + rewrite Hk; [done|]. intros <-. rewrite H4 in Hn. by rewrite Hn in Hold.
    + rewrite Hr, decide_False by done. done.
Qed.

Lemma backup_spec backup :
  backup <> [] -> key backup <> key path ->
  always h intact s0 (safeBackupAndReplace path backup data perm true) (ended backup).
Proof.
  intros Hne Hb. unfold safeBackupAndReplace. cbn [bind ask]. quiet_call; [done|by left|]. intros s1 r Eo H1.
  assert (Hfail : forall s e, (forall k, ent s k = ent s0 k) -> always h intact s (Ret (Err e)) (ended backup)).
  { intros s e Hs. apply always_ret; [left; by rewrite Hs|]. intros _ k _ _. by rewrite Hs. }
  assert (Hcl : forall s fd e, (forall k, ent s k = ent s0 k) ->
    always h intact s (bind (close fd) (fun _ => Ret (Err e))) (ended backup)).
  { intros s fd e Hs. unfold close, ignore. cbn [bind ask]. quiet_call; [done|left; by rewrite Hs|].
    intros s' x _ He. apply Hfail. intros k. by rewrite He. }
  destruct r as [f|[|msg]]; [| |by apply Hfail].
  2: { apply d_absent in Eo; [|apply (bool_decide_unpack _); reflexivity]. apply replace_target; [by right|auto|].
       right. intros d m Hd. by rewrite Hd in Eo. }
  apply d_open in Eo; [|apply (bool_decide_unpack _); reflexivity].
  quiet_call; [done|left; by rewrite H1|]. intros s2 r Es H2. pose proof (d_stat s1 f) as Hp2.
  rewrite Es in Hp2. cbn [fst] in Hp2. rewrite Eo in Hp2. destruct r as [info|e]; [|apply Hcl; intros k; by rewrite H2, H1].
  destruct (fi_regular info) eqn:Hreg; cbn [negb]; [|apply Hcl; intros k; by rewrite H2, H1].
  destruct (d_regular _ _ _ _ _ _ Eo Es Hreg) as (d & m & Hd).
  cbn [bind ask]. quiet_call; [done|left; by rewrite H2, H1|]. intros s3 r Er H3.
  destruct r as [current|e]; [|apply Hcl; intros k; by rewrite H3, H2, H1].
  assert (current = d) as -> by (eapply d_readall; [exact Hp2|by rewrite H2|exact Er]).
  apply always_bind_ok. unfold sys_do. cbn [bind ask]. quiet_call; [done|left; by rewrite H3, H2, H1|]. intros s4 r _ H4.
  assert (Hs4 : forall k, ent s4 k = ent s0 k) by (intros k; by rewrite H4, H3, H2, H1).
  apply always_ret; [left; by rewrite Hs4|].
  destruct r as [e|]; [split; [left; by rewrite Hs4|]; intros _ k _ _; by rewrite Hs4|].
  apply always_bind_ok. apply (backup_stage backup d m s4); [done|done|done|]. by rewrite <- Hd, H1.
Qed.

(** Setting the ownership afterwards changes no entry. *)
Lemma written_ext backup s s' : (forall k, ent s' k = ent s k) -> written backup s -> written backup s'.
Proof.
  intros He (Hw & Hb & Ho). split; [by rewrite He|]. split.
  - destruct Hb as [|Hb]; [by left|]. right. intros d m Hd. rewrite He. eauto.
  - intros k H1 H2. rewrite He. auto.
Qed.
Lemma written_intact backup s : written backup s -> intact s.
Proof. intros Hw. right. apply Hw. Qed.
Lemma written_ended backup s r : written backup s -> ended backup s r.
Proof. intros Hw. destruct r as [[]|]; [done|]. intros _. apply Hw. Qed.

Ltac quiet_written :=
  quiet_call; [done|by eapply written_intact|]; let s := fresh "s" in let x := fresh "r" in
  let He := fresh in intros s x _ He; cbn [os_ans] in x;
  match goal with H : written _ _ |- _ => apply (written_ext _ _ _ He) in H end; clear He.

Lemma lookup_spec backup name (c : call (result fs_err gostring)) Q s :
  c = COs (UserLookup name) \/ c = COs (UserLookupGroup name) -> written backup s ->
  (forall s r, written backup s -> Q s r) -> always h intact s (resolve_opt name c) Q.
Proof.
  intros Hc Hs HQ. unfold resolve_opt, resolveID. destruct (bool_decide _).
  - apply always_ret; [by eapply written_intact|auto].
  - destruct Hc as [-> | ->]; cbn [bind ask]; quiet_written; (apply always_ret; [by eapply written_intact|auto]).
Qed.

Lemma fchown_spec backup uid gid s :
  written backup s -> always h intact s (FchownNoFollow path uid gid) (ended backup).
Proof.
  intros Hs. unfold FchownNoFollow, finally, sys, sys_do, close, ignore. cbn [bind ask bind_ok]. quiet_written.
  destruct r as [fd|]; cbn [bind ask]; [|apply always_ret; by first [eapply written_intact|eapply written_ended]]. quiet_written.
  destruct r as [fi|]; cbn [bind ask]; [destruct (negb _); cbn [bind ask]|]; repeat quiet_written;
    apply always_ret; by first [eapply written_intact|eapply written_ended].
Qed.

Lemma ownership_spec backup owner group s :
  written backup s ->
  always h intact s (let!? (uid, gid) := ResolveOwnership owner group in FchownNoFollow path uid gid) (ended backup).
Proof.
  intros Hs. unfold ResolveOwnership. apply always_bind_ok, always_bind_ok.
  apply (lookup_spec backup); [by left|done|]. clear s Hs. intros s [uid|e] Hs.
  2: { pose proof (written_ended backup s (Err e) Hs). pose proof (written_intact backup s Hs). tauto. }
  apply always_bind_ok. apply (lookup_spec backup); [by right|done|]. clear s Hs. intros s [gid|e] Hs.
  2: { pose proof (written_ended backup s (Err e) Hs). pose proof (written_intact backup s Hs). tauto. }
  apply always_ret; [by eapply written_intact|]. by apply fchown_spec.
Qed.

Lemma direct_spec backup owner group mode :
  perm = default_mode mode -> (backup = [] \/ key backup <> key path) ->
  always h intact s0 (writeDirect path data (MkWriteOptions mode owner group backup)) (ended backup).
Proof.
  intros Hp Hb. unfold writeDirect. cbn [Mode Owner Group Backup]. rewrite <- Hp. apply always_bind_ok.
  eapply (always_mono _ _ _ _ (ended backup)).
  - intros s [[]|e] Hi; cbn [ended]; intros Hs; [|done].
    destruct (_ || _); [by eapply ownership_spec|by apply always_ret].
  - destruct (decide (backup = [])) as [E|E].
    + rewrite bool_decide_true by done. cbn [negb]. apply replace_target; [done..|by left].
    + rewrite bool_decide_false by done. cbn [negb]. apply backup_spec; [done|by destruct Hb].
Qed.
End Write.

(** C9: A write on the Direct backend is atomic whatever fails: at every point of it, and so
    after a crash at any point, the target holds what it held before or the complete new
    file with its mode.  When it reports success the new file is there, the old one is at
    the backup path if one was asked for, and no other entry changed; when it fails, no
    other entry changed as long as temporary files can be removed. *)
Theorem WriteFile_crash_safe path data opts s0 :
  (Backup opts = [] \/ key (Backup opts) <> key path) ->
  Forall (intact s0 path data (default_mode (Mode opts))) (visited h s0 (WriteFile Direct path data opts)) /\
  ended s0 path data (default_mode (Mode opts)) (Backup opts) (run h s0 (WriteFile Direct path data opts)).1
    (run h s0 (WriteFile Direct path data opts)).2.
Proof.
  destruct opts as [mode owner group backup]. cbn [Mode Backup]. intros Hb. apply always_visited. unfold WriteFile. cbn [bind ask]. pose proof (d_ctx s0) as Hc.
  apply always_call; [by left|]. intros s1 c E. rewrite E in Hc. cbn [fst] in Hc.
  assert (Hfail : forall e, always h (intact s0 path data (default_mode mode)) s1 (Ret (Err e))
    (ended s0 path data (default_mode mode) backup)).
  { intros e. apply always_ret; [left; by rewrite Hc|]. intros _ k _ _. by rewrite Hc. }
  destruct c; [done|]. unfold guard. destruct (ValidatePath path); [|done]. destruct (validateMode _); [|done].
  destruct (if bool_decide _ then _ else _); [|done]. change (direct Direct) with true. cbn iota.
  eapply always_weaken, always_mono; [..|by apply (direct_spec s1 path data (default_mode mode) backup owner group mode)].
  - intros s [Hs|Hs]; [left|by right]. by rewrite Hs.
  - intros s [[]|e] _.
    + intros (Hw & Hbk & Ho). split; [done|]. split.
      * destruct Hbk as [|Hbk]; [by left|]. right. intros d m Hd. eapply Hbk. by rewrite Hc.
      * intros k H1 H2. by rewrite Ho.
    + intros Hf Hw k H1 H2. by rewrite (Hf Hw).
Qed.

(** ** The manager behind the other components

    The components that ask for file operations get a host whose answers are the
    manager's methods. *)
Definition fs_err_of (e : fs_error) : fs_err := match e with ErrAbsent _ => NotExist | _ => OtherErr [] end.
Definition done_of (r : result fs_error unit) : option fs_err := match r with Ok _ => None | Err e => Some (fs_err_of e) end.
Definition answer_of {A} (r : result fs_error A) : result fs_err A := match r with Ok a => Ok a | Err e => Err (fs_err_of e) end.

Definition fs_method (b : PrivilegeBackend) (op : fs_op) : prog (result fs_error unit) :=
  match op with
  | FsWriteFile p d m o g => WriteFile b p d (MkWriteOptions m o g [])
  | FsRemove p => Remove p
  | FsMkdir p m o g r => Mkdir p (MkMkdirOptions m o g r)
  | FsCopyTree src dst => CopyTree src dst (MkWriteOptions 0 [] [] [])
  | FsChownR p o g => SetOwnershipRecursive p o g
  | FsChmod p m => SetMode p m
  end.
Definition serve (b : PrivilegeBackend) : handler S :=
  fun X s c =>
    match c in call X return S * X with
    | CFs op => let '(s', r) := run h s (fs_method b op) in (s', done_of r)
    | CFsExists p => let '(s', r) := run h s (Exists b p) in (s', answer_of r)
    | CFsReadFile p => let '(s', r) := run h s (ReadFile b p) in (s', answer_of r)
    | CFsReadDir p => let '(s', r) := run h s (ReadDir b p) in (s', answer_of r)
    | c' => h _ s c'
    end.
Definition serve_read (s : S) (p : gostring) : result fs_err gostring := answer_of (run h s (ReadFile Direct p)).2.

Lemma ReadFile_run s p : (run h s (ReadFile Direct p)).1 = s.
Proof.
  unfold ReadFile, guard. destruct (ValidatePath p); [|done]. change (direct Direct) with true. cbn iota.
  unfold os_read. cbn [bind ask run]. destruct (d_read s p) as (r & -> & _). done.
Qed.
Lemma ReadFile_file s p d m :
  ValidatePath p = Ok tt -> ent s (key p) = Some (EFile d m) -> (run h s (ReadFile Direct p)).2 = Ok d.
Proof.
  intros Hv He. unfold ReadFile, guard. rewrite Hv. change (direct Direct) with true. cbn iota.
  unfold os_read. cbn [bind ask run]. destruct (d_read s p) as (r & -> & Hr). by rewrite (Hr _ _ He).
Qed.

(** A write that succeeded was asked for a valid path. *)
Lemma WriteFile_path s p d opts s' : run h s (WriteFile Direct p d opts) = (s', Ok tt) -> ValidatePath p = Ok tt.
Proof.
  unfold WriteFile. cbn [bind ask run]. destruct (h _ s CCtxErr) as [s1 [m|]]; [done|]. unfold guard.
  by destruct (ValidatePath p) as [[]|].
Qed.

(** The manager on the Direct backend keeps the promise the repository managers rely
    on: what it wrote is what it reads. *)
Theorem manager_serves_repos :
  (forall s c i p, (h _ (h _ s (CRun c i)).1 (CReadFile p)).2 = (h _ s (CReadFile p)).2) ->
  RepoOps.RepoHost (serve Direct) serve_read.
Proof.
  intros Hrun. split.
  - intros s p. unfold serve, serve_read. pose proof (ReadFile_run s p) as Hs.
    destruct (run h s _) as [s' r]. cbn [fst snd] in *. by subst.
  - intros s p d m o g s' Hw. unfold serve, fs_method in Hw.
    destruct (WriteFile_crash_safe p d (MkWriteOptions m o g []) s) as [_ He]; [by left|].
    destruct (run h s _) as [s1 [[]|e]] eqn:E; cbn [fst snd ended] in He; [|done]. apply (f_equal fst) in Hw. cbn [fst] in Hw. subst s1.
    apply WriteFile_path in E. destruct He as (He & _). unfold serve_read. by rewrite (ReadFile_file _ _ _ _ E He).
  - intros s c i p. unfold serve_read, ReadFile, guard. cbn [serve]. destruct (ValidatePath p); [|done].
    change (direct Direct) with true. cbn iota. unfold os_read. cbn [bind ask run]. specialize (Hrun s c i p).
    unfold serve. destruct (h _ s (CRun c i)) as [s1 res]. cbn [fst] in *.
    destruct (h _ s1 (CReadFile p)), (h _ s (CReadFile p)). cbn [snd run] in *. by subst.
Qed.
End Disk.

(** ** A disk

    Entries in directories named by their paths, open files, and for every call whether
    it fails. *)
Record disk := MkDisk {
  files : gmap (gostring * gostring) entry;
  fds : gmap nat (gostring * gostring * N);
  next : nat;
  plan : list bool
}.
Abbreviation dkey := (key (fun d : gostring => d)).

Definition os_fail (o : os_op) : os_ans o :=
  match o with
  | OsLstat _ | OsFStat _ | OsMkdirTemp _ _ | OsEvalSymlinks _ | OsGetwd | OsCreateTemp _ _
  | OsOpenNoFollow _ | OsStat _ | OsReadDir _ | OsOpenFile _ _ _ | OsFReadAll _ | OsReaddirnames _
  | OsOpenat _ _ _ | OsFstatat _ _ | UserLookup _ | UserLookupGroup _ | UserLookupId _
  | UserLookupGroupId _ => Err (OtherErr [])
  | OsGeteuid => 0%Z
  | OsRenameNoReplace _ _ => Some (ERename [])
  | OsCreate _ _ _ => Err (CreateOther NotExist)
  | OsRand _ => None
  | OsHttp _ _ _ | OsWalkDir _ => Err []
  | OsGit o => git_absent o
  | OsUnix o => unix_absent o
  | _ => Some (OtherErr [])
  end.

Definition set_files (f : gmap (gostring * gostring) entry) (s : disk) : disk := MkDisk f (fds s) (next s) (plan s).
Definition at_fd {A} (s : disk) (fd : nat) (fail : A) (ok : gostring * gostring -> N -> gostring -> N -> A) : A :=
  match fds s !! fd with
  | Some (k, n) => match files s !! k with Some (EFile d m) => ok k n d m | _ => fail end
  | None => fail
  end.
Definition moved (s : disk) (p q : gostring) : option disk :=
  match files s !! dkey p with
  | Some e => Some (set_files (<[dkey q := e]> (delete (dkey p) (files s))) s)
  | None => None
  end.
Definition file_info (d : gostring) (m : N) : FileInfo := MkFileInfo false true m false (Some 0%Z) (N.of_nat (length d)) (0, 0)%Z.

Definition disk_ok (s : disk) (o : os_op) : disk * os_ans o :=
  match o with
  | OsCreateTemp dir pat =>
      let name := take (length pat - 1) pat ++ itoa (next s) in
      let p := dir ++ SLASH :: name in
      if decide (Dir p = dir /\ Base p = name /\ files s !! dkey p = None) then
        (MkDisk (<[dkey p := EFile [] 384]> (files s)) (<[next s := (dkey p, 0%N)]> (fds s)) (S (next s)) (plan s), Ok (next s, p))
      else (s, Err (OtherErr []))
  | OsOpenFile p fl _ =>
      match files s !! dkey p with
      | None => (s, Err NotExist)
      | Some _ => (MkDisk (files s) (<[next s := (dkey p, 0%N)]> (fds s)) (S (next s)) (plan s), Ok (next s))
      end
  | OsFStat fd => (s, at_fd s fd (Err (OtherErr [])) (fun _ _ d m => Ok (file_info d m)))
  | OsFReadAll fd => (s, at_fd s fd (Err (OtherErr [])) (fun _ n d _ => Ok (drop (N.to_nat n) d)))
  | OsFWrite fd data =>
      at_fd s fd (s, Some (OtherErr [])) (fun k n d m =>
        (MkDisk (<[k := EFile (take (N.to_nat n) d ++ data) m]> (files s))
           (<[fd := (k, n + N.of_nat (length data))%N]> (fds s)) (next s) (plan s), None))
  | OsFChmod fd mode => at_fd s fd (s, Some (OtherErr [])) (fun k n d m => (set_files (<[k := EFile d mode]> (files s)) s, None))
  | OsFSync _ | OsFClose _ | OsFChown _ _ _ => (s, None)
  | OsRename p q => match moved s p q with Some s' => (s', None) | None => (s, Some NotExist) end
  | OsRenameNoReplace p q =>
      match files s !! dkey q with
      | Some _ => (s, Some EEXIST)
      | None => match moved s p q with Some s' => (s', None) | None => (s, Some (ERename [])) end
      end
  | OsRemove p => (set_files (delete (dkey p) (files s)) s, None)
  | UserLookup n => (s, if bool_decide (n = str "root") then Ok (str "0") else Err NotExist)
  | o => (s, os_fail o)
  end.
Definition disk_host : handler disk :=
  fun X s c =>
    match c in call X return disk * X with
    | COs o =>
        match plan s with
        | false :: l => (MkDisk (files s) (fds s) (next s) l, os_fail o)
        | true :: l => disk_ok (MkDisk (files s) (fds s) (next s) l) o
        | [] => disk_ok s o
        end
    | CReadFile p => (s, match files s !! dkey p with
                         | Some (EFile d _) => Ok d
                         | Some _ => Err (OtherErr [])
                         | None => Err NotExist
                         end)
    | c' => command_host (fun s _ _ => (s, (MkResult 0 [] [], None))) absent absent _ s c'
    end.

Lemma disk_cases s o :
  exists s1, files s1 = files s /\ fds s1 = fds s /\
    (disk_host _ s (COs o) = (s1, os_fail o) \/ disk_host _ s (COs o) = disk_ok s1 o).
Proof.
  cbn [disk_host]. destruct (plan s) as [|[] l]; [exists s; auto|eexists; split; [|split; [|by right]]; done|].
  eexists; split; [|split; [|by left]]; done.
Qed.
Ltac disk_call o H :=
  let s1 := fresh "s1" in let Hf := fresh "Hf" in let Hd := fresh "Hd" in
  match goal with s : disk |- _ => destruct (disk_cases s o) as (s1 & Hf & Hd & [H|H]) end.

Lemma moved_spec s p q s' k :
  moved s p q = Some s' ->
  files s' !! k = if decide (k = dkey q) then files s !! dkey p else if decide (k = dkey p) then None else files s !! k.
Proof.
  unfold moved. destruct (files s !! dkey p) eqn:E; [|done]. intros [= <-]. cbn [set_files files].
  destruct (decide (k = dkey q)) as [->|]; [by rewrite lookup_insert_eq|]. rewrite lookup_insert_ne by done.
  destruct (decide (k = dkey p)) as [->|]; [by rewrite lookup_delete_eq|by rewrite lookup_delete_ne].
Qed.

#[export] Instance disk_host_ok : DiskHost (fun d => d) disk_host (fun s k => files s !! k) (fun s fd => fds s !! fd).
Proof.
  split.
  - intros s o k Hq. destruct (disk_cases s o) as (s1 & Hf & Hd & [-> | ->]); cbn [fst]; [by rewrite Hf|].
    rewrite <- Hf. destruct o; try done; cbn [disk_ok fst]; by destruct (files s1 !! _).
  - done.
  - intros s dir pat s' r. destruct (disk_cases s (OsCreateTemp dir (pat ++ str "*"))) as (s1 & Hf & Hd & [-> | ->]).
    + intros [= <- <-] k. by rewrite Hf.
    + cbn [disk_ok]. rewrite length_app. cbn [length str String.list_ascii_of_string]. rewrite Nat.add_sub, take_app_length.
      destruct (decide _) as [(H1 & H2 & H3)|]; intros [= <- <-]; [|intros k; by rewrite Hf].
      rewrite <- Hf. split; [done|]. split; [by eexists|]. split; [done|]. intros k. cbn [files].
      destruct (decide (k = _)) as [->|]; [by rewrite lookup_insert_eq|by rewrite lookup_insert_ne].
  - intros s p fl m s' fd. destruct (disk_cases s (OsOpenFile p fl m)) as (s1 & Hf & Hd & [-> | ->]); [done|].
    cbn [disk_ok]. destruct (files s1 !! _); [|done]. intros [= <- <-] _. cbn [fds]. by rewrite lookup_insert_eq.
  - intros s p fl m s'. destruct (disk_cases s (OsOpenFile p fl m)) as (s1 & Hf & Hd & [-> | ->]); [done|].
    cbn [disk_ok]. rewrite Hf. by destruct (files s !! _).
  - intros s fd. destruct (disk_cases s (OsFStat fd)) as (s1 & Hf & Hd & [-> | ->]); cbn [fst disk_ok]; by rewrite Hd.
  - intros s fd k n s' fi Hp. destruct (disk_cases s (OsFStat fd)) as (s1 & Hf & Hd & [-> | ->]); [done|].
    cbn [disk_ok]. unfold at_fd. rewrite Hd, Hp, Hf. destruct (files s !! k) as [[]|]; [|done..]. eauto.
  - intros s fd k d m s' d' Hp He. destruct (disk_cases s (OsFReadAll fd)) as (s1 & Hf & Hd & [-> | ->]); [done|].
    cbn [disk_ok]. unfold at_fd. rewrite Hd, Hp, Hf, He. by intros [= <- <-].
  - intros s fd data s' r k. destruct (disk_cases s (OsFWrite fd data)) as (s1 & Hf & Hd & [-> | ->]); intros E Hp.
    { injection E as <- <-. split; [intros; by rewrite Hf|done]. }
    cbn [disk_ok] in E. unfold at_fd in E. rewrite Hd, Hp, Hf in E.
    destruct (files s !! k) as [[d m|]|] eqn:He; injection E as <- <-; [|split; [intros; by rewrite Hf|done]..].
    cbn [files fds]. split; [intros k' Hk; by rewrite lookup_insert_ne|]. intros _. split; [|by rewrite lookup_insert_eq].
    intros m' [= -> ->]. by rewrite lookup_insert_eq.
  - intros s fd mode s' r k n. destruct (disk_cases s (OsFChmod fd mode)) as (s1 & Hf & Hd & [-> | ->]); intros E Hp.
    { injection E as <- <-. split; [intros; by rewrite Hf|done]. }
    cbn [disk_ok] in E. unfold at_fd in E. rewrite Hd, Hp, Hf in E.
    destruct (files s !! k) as [[d m|]|] eqn:He; injection E as <- <-; [|split; [intros; by rewrite Hf|done]..].
    cbn [files set_files]. split; [intros k' Hk; by rewrite lookup_insert_ne|].
    intros _ d' m' [= -> ->]. by rewrite lookup_insert_eq.
  - intros s p q s' r. destruct (disk_cases s (OsRename p q)) as (s1 & Hf & Hd & [-> | ->]); [intros [= <- <-] k; by rewrite Hf|].
    cbn [disk_ok]. destruct (moved s1 p q) eqn:E; intros [= <- <-] k; [|by rewrite Hf]. rewrite <- Hf. by apply moved_spec.
  - intros s p q s' r. destruct (disk_cases s (OsRenameNoReplace p q)) as (s1 & Hf & Hd & [-> | ->]).
    { intros [= <- <-]. split; [done|]. intros k. by rewrite Hf. }
    cbn [disk_ok]. rewrite <- Hf. destruct (files s1 !! dkey q) eqn:Eq; [by intros [= <- <-]|].
    destruct (moved s1 p q) eqn:E; intros [= <- <-]; [|done]. split; [done|]. intros k. by apply moved_spec.
  - intros s p s' r. destruct (disk_cases s (OsRemove p)) as (s1 & Hf & Hd & [-> | ->]); [intros [= <- <-] k; by rewrite Hf|].
    cbn [disk_ok]. intros [= <- <-] k. cbn [set_files files]. rewrite Hf.
    destruct (decide (k = dkey p)) as [->|]; [by rewrite lookup_delete_eq|by rewrite lookup_delete_ne].
  - intros s p. eexists. split; [done|]. intros d m. by intros ->.
Qed.

(** A self-update with a backup, and one whose disk fills up. *)
Definition old_disk (plan : list bool) : disk :=
  MkDisk {[ (str "/opt/pm", str "agent") := EFile (str "v1") 493 ]} ∅ 3 plan.
Definition update_opts : WriteOptions := MkWriteOptions 493 (str "root") [] (str "/opt/pm/agent.bak").
Lemma WriteFile_crash_safe_witness :
  let '(s, r) := run disk_host (old_disk []) (WriteFile Direct (str "/opt/pm/agent") (str "v2") update_opts) in
  (r = Ok tt /\ files s !! (str "/opt/pm", str "agent") = Some (EFile (str "v2") 493) /\
   files s !! (str "/opt/pm", str "agent.bak") = Some (EFile (str "v1") 493)) /\
  (Forall (intact (fun d => d) (fun s k => files s !! k) (old_disk []) (str "/opt/pm/agent") (str "v2") 493)
     (visited disk_host (old_disk []) (WriteFile Direct (str "/opt/pm/agent") (str "v2") update_opts))).
Proof.
  destruct (WriteFile_crash_safe (fun d => d) disk_host (fun s k => files s !! k) (fun s fd => fds s !! fd)
    (str "/opt/pm/agent") (str "v2") update_opts (old_disk [])) as [Hv He]; [right; by vm_compute|].
  destruct (run disk_host _ _) as [s r] eqn:E. split; [|exact Hv]. clear Hv.
  assert (Hr : r = Ok tt) by (change ((s, r).2 = Ok tt); rewrite <- E; by vm_compute).
  subst r. clear E. split; [reflexivity|]. destruct He as (H1 & [H2|H2] & _); [vm_compute in H2; discriminate H2|].
  assert (K1 : dkey (str "/opt/pm/agent") = (str "/opt/pm", str "agent")) by by vm_compute.
  assert (K2 : dkey (Backup update_opts) = (str "/opt/pm", str "agent.bak")) by by vm_compute.
  rewrite K1 in *. rewrite K2 in *. split; [exact H1|]. apply (H2 (str "v1") 493%N). by vm_compute.
Defined.

(** When the write of the new file fails, the old file is still there and nothing is left. *)
Example full_disk :
  let '(s, r) := run disk_host (old_disk [true; true; true; false])
                   (WriteFile Direct (str "/opt/pm/agent") (str "v2") (MkWriteOptions 493 [] [] [])) in
  r = Err (ErrOs (str "write temp") (OtherErr [])) /\ map_to_list (files s) = [((str "/opt/pm", str "agent"), EFile (str "v1") 493)].
Proof. vm_compute. split; reflexivity. Qed.

(** An owner that does not resolve is noticed after the file was replaced. *)
Lemma unknown_owner_still_writes :
  let '(s, r) := run disk_host (old_disk []) (WriteFile Direct (str "/opt/pm/agent") (str "v2") (MkWriteOptions 493 (str "nosuch") [] [])) in
  r = Err (ErrUnknownName (str "nosuch")) /\ files s !! (str "/opt/pm", str "agent") = Some (EFile (str "v2") 493).
Proof. vm_compute. split; reflexivity. Qed.

Lemma manager_serves_repos_witness : RepoOps.RepoHost (serve disk_host Direct) (serve_read disk_host).
Proof.
  apply (manager_serves_repos (fun d => d) disk_host (fun s k => files s !! k) (fun s fd => fds s !! fd)). done.
Defined.
End FsReplace.
