(* ===== verification/FsRemove.v ===== *)
(** * Removing a directory ([src/sys/fs/remove_dir_unix.go], [dir.go])

    On the Direct backend [RemoveDir] works by directory handles.  Whatever the host
    answers, it only opens real directories below handles it holds and only unlinks
    entries at or below the requested location, which is not a protected one.  On a tree
    of directories, files and symbolic links it removes exactly the directory it was
    asked to remove, and refuses a path with a link in it. *)
From S2P Require Import Prelude Paths FsGuard Exec HostProg HostCmd Fs.

Module FsRemove.
Import Exec HostProg HostCmd Paths Fs.

(** ** A tree of files *)

#[local] Unset Elimination Schemes.
Inductive node := NFile | NLink (target : gostring) | NDir (children : list (gostring * node)).
#[local] Set Elimination Schemes.

Definition node_type (n : node) : file_type :=
  match n with NFile => S_IFREG | NLink _ => S_IFLNK | NDir _ => S_IFDIR end.

Fixpoint child {A} (ch : list (gostring * A)) (w : gostring) : option A :=
  match ch with
  | [] => None
  | (v, n) :: ch' => if decide (v = w) then Some n else child ch' w
  end.
Definition del {A} (w : gostring) (ch : list (gostring * A)) : list (gostring * A) :=
  List.filter (fun e => negb (bool_decide (e.1 = w))) ch.
Definition upd {A} (w : gostring) (n : A) (ch : list (gostring * A)) : list (gostring * A) :=
  map (fun e => if decide (e.1 = w) then (e.1, n) else e) ch.

(** The node a path of names leads to through directories, never through a link. *)
Fixpoint lookup_at (t : node) (cs : list gostring) : option node :=
  match cs with
  | [] => Some t
  | c :: cs' => match t with
                | NDir ch => match child ch c with Some n => lookup_at n cs' | None => None end
                | _ => None
                end
  end.
Fixpoint set_at (cs : list gostring) (n : node) (t : node) : node :=
  match cs with
  | [] => n
  | c :: cs' => match t with
                | NDir ch => match child ch c with Some m => NDir (upd c (set_at cs' n m) ch) | None => t end
                | _ => t
                end
  end.

(** Names of a directory are distinct and none is [.] or [..]. *)
Fixpoint wf (t : node) : bool :=
  match t with
  | NDir ch => bool_decide (NoDup (map fst ch)) &&
               forallb (fun e => negb (bool_decide (e.1 = dot) || bool_decide (e.1 = dotdot)) && wf e.2) ch
  | _ => true
  end.
Fixpoint height (t : node) : nat :=
  match t with
  | NDir ch => S (fold_right Nat.max 0 (map (fun e => height e.2) ch))
  | _ => 1
  end.

(** The host: open directories are locations. *)
Record tree := MkTree { root : node; dirs : gmap nat (list gostring); next_fd : nat }.

(** Where the kernel gets to from a location when it follows every link, within
    [n] steps. *)
Definition names (p : gostring) : list gostring :=
  List.filter (fun c => negb (bool_decide (c = []) || bool_decide (c = dot))) (split_byte p SLASH).
Fixpoint follow (n : nat) (t : node) (cur rest : list gostring) : option (list gostring) :=
  match n, rest with
  | _, [] => Some cur
  | 0, _ => None
  | S n', c :: rest' =>
      if bool_decide (c = dotdot) then follow n' t (removelast cur) rest'
      else match lookup_at t (cur ++ [c]) with
           | Some (NLink p) => follow n' t (if IsAbs p then [] else cur) (names p ++ rest')
           | Some _ => follow n' t (cur ++ [c]) rest'
           | None => None
           end
  end.
Definition max_steps : nat := 4096.

(** [open] and [openat] on the last name of a location: a link is followed unless
    [O_NOFOLLOW] is given, and what is not a directory is opened unless
    [O_DIRECTORY] is. *)
Definition open_node (s : tree) (cs : list gostring) (fl : list open_flag) : tree * result fs_err nat :=
  let handle := (MkTree (root s) (<[next_fd s := cs]> (dirs s)) (S (next_fd s)), Ok (next_fd s)) in
  match lookup_at (root s) cs with
  | Some (NDir _) => handle
  | Some _ => if bool_decide (O_DIRECTORY ∈ fl) then (s, Err (OtherErr [])) else handle
  | None => (s, Err NotExist)
  end.
Definition open_at (s : tree) (cs : list gostring) (fl : list open_flag) : tree * result fs_err nat :=
  match lookup_at (root s) cs with
  | Some (NLink _) =>
      if bool_decide (O_NOFOLLOW ∈ fl) then (s, Err (OtherErr []))
      else match follow max_steps (root s) [] cs with
           | Some cs' => open_node s cs' fl
           | None => (s, Err NotExist)
           end
  | _ => open_node s cs fl
  end.
Definition unlink_at (s : tree) (cs : list gostring) (w : gostring) (removedir : bool) : tree * option fs_err :=
  match lookup_at (root s) cs with
  | Some (NDir ch) =>
      let gone := MkTree (set_at cs (NDir (del w ch)) (root s)) (dirs s) (next_fd s) in
      match child ch w, removedir with
      | Some (NDir []), true => (gone, None)
      | Some (NDir _), _ => (s, Some (OtherErr []))
      | Some _, false => (gone, None)
      | Some _, true => (s, Some (OtherErr []))
      | None, _ => (s, Some NotExist)
      end
  | _ => (s, Some NotExist)
  end.
Definition at_dir {A} (s : tree) (fd : nat) (fail : A) (k : list gostring -> A) : A :=
  match dirs s !! fd with Some cs => k cs | None => fail end.
Definition tree_os (s : tree) (o : os_op) : tree * os_ans o :=
  match o with
  | OsOpenFile p fl _ => if bool_decide (p = [SLASH]) then open_at s [] fl else (s, Err (OtherErr []))
  | OsOpenat fd w fl => at_dir s fd (s, Err (OtherErr [])) (fun cs => open_at s (cs ++ [w]) fl)
  | OsFstatat fd w => (s, at_dir s fd (Err (OtherErr []))
                            (fun cs => match lookup_at (root s) (cs ++ [w]) with Some n => Ok (node_type n) | None => Err NotExist end))
  | OsReaddirnames fd => (s, at_dir s fd (Err (OtherErr []))
                               (fun cs => match lookup_at (root s) cs with Some (NDir ch) => Ok (map fst ch) | _ => Err NotExist end))
  | OsUnlinkat fd w rd => at_dir s fd (s, Some (OtherErr [])) (fun cs => unlink_at s cs w rd)
  | OsFClose fd => (MkTree (root s) (delete fd (dirs s)) (next_fd s), None)
  | o => (s, os_absent o)
  end.
Definition tree_host : handler tree :=
  fun X s c =>
    match c in call X return tree * X with
    | COs o => tree_os s o
    | c' => command_host (fun s _ _ => (s, (MkResult 1 [] [], None))) absent absent _ s c'
    end.

(** ** Facts about trees *)

(** With the flags of the removal only a real directory is opened. *)
Lemma open_at_dir s cs : open_at s cs dir_flags =
  match lookup_at (root s) cs with
  | Some (NDir _) => (MkTree (root s) (<[next_fd s := cs]> (dirs s)) (S (next_fd s)), Ok (next_fd s))
  | Some _ => (s, Err (OtherErr []))
  | None => (s, Err NotExist)
  end.
Proof.
  unfold open_at, open_node. rewrite !bool_decide_true by (apply (bool_decide_unpack _); reflexivity).
  by destruct (lookup_at (root s) cs) as [[]|].
Qed.

Lemma child_upd {A} (w v : gostring) (n : A) ch :
  child (upd w n ch) v = if decide (v = w) then (match child ch w with Some _ => Some n | None => None end) else child ch v.
Proof.
  induction ch as [|[u m] ch IH]; cbn [upd map child]; [by case_decide|]. fold (upd w n ch).
  cbn [fst]. destruct (decide (u = w)) as [->|Hu]; cbn [child].
  - destruct (decide (w = v)) as [->|]; [by rewrite decide_True|]. rewrite IH. by rewrite !decide_False by congruence.
  - destruct (decide (u = v)) as [->|]; [by rewrite decide_False|]. apply IH.
Qed.
Lemma child_del {A} (w v : gostring) (ch : list (gostring * A)) : v <> w -> child (del w ch) v = child ch v.
Proof.
  intros Hv. induction ch as [|[u m] ch IH]; [done|]. cbn [del List.filter fst]. fold (del w ch).
  destruct (decide (u = w)) as [->|Hu].
  - rewrite bool_decide_true by done. cbn [negb child]. by rewrite decide_False.
  - rewrite bool_decide_false by done. cbn [negb child]. by rewrite IH.
Qed.
Lemma upd_upd {A} w (n m : A) ch : upd w n (upd w m ch) = upd w n ch.
Proof.
  unfold upd. rewrite map_map. apply map_ext. intros [v x]. cbn [fst]. destruct (decide (v = w)); cbn [fst].
  - by rewrite decide_True.
  - by rewrite decide_False.
Qed.
Lemma upd_same {A} w (n : A) ch : NoDup (map fst ch) -> child ch w = Some n -> upd w n ch = ch.
Proof.
  induction ch as [|[v x] ch IH]; [done|]. cbn [map child fst upd]. intros [Hn Hd]%list.NoDup_cons.
  fold (upd w n ch). destruct (decide (v = w)) as [->|].
  - intros [= ->]. f_equal. clear IH Hd. induction ch as [|[u y] ch IH]; [done|].
    cbn [map fst upd] in *. fold (upd w n ch). rewrite not_elem_of_cons in Hn. destruct Hn as [Hu Hn].
    rewrite decide_False by done. by rewrite IH.
  - intros Hc. by rewrite IH.
Qed.
Lemma del_upd {A} w (n : A) ch : del w (upd w n ch) = del w ch.
Proof.
  induction ch as [|[v x] ch IH]; [done|]. cbn [upd map]. fold (upd w n ch). cbn [fst del List.filter].
  fold (del w (upd w n ch)) (del w ch). destruct (decide (v = w)) as [->|]; cbn [fst].
  - rewrite bool_decide_true by done. cbn [negb]. apply IH.
  - rewrite bool_decide_false by done. cbn [negb]. by rewrite IH.
Qed.
Lemma del_absent {A} w (ch : list (gostring * A)) : w ∉ map fst ch -> del w ch = ch.
Proof.
  induction ch as [|[v x] ch IH]; [done|]. cbn [map fst]. rewrite not_elem_of_cons. intros [Hv Hn].
  cbn [del List.filter fst]. fold (del w ch). rewrite bool_decide_false by congruence. cbn [negb]. by rewrite IH.
Qed.

Lemma lookup_set cs n t : is_Some (lookup_at t cs) -> lookup_at (set_at cs n t) cs = Some n.
Proof.
  revert t. induction cs as [|c cs IH]; intros t [m Hm]; [done|]. cbn [lookup_at set_at] in *.
  destruct t as [| |ch]; [done..|]. destruct (child ch c) as [x|] eqn:E; [|done].
  cbn [lookup_at]. rewrite child_upd, decide_True, E by done. apply IH. eauto.
Qed.
Lemma set_set cs n m t : set_at cs n (set_at cs m t) = set_at cs n t.
Proof.
  revert t. induction cs as [|c cs IH]; intros t; [done|]. cbn [set_at]. destruct t as [| |ch]; [done..|].
  destruct (child ch c) as [x|] eqn:E; cbn [set_at].
  - rewrite child_upd, decide_True, E by done. by rewrite IH, upd_upd.
  - by rewrite E.
Qed.
Lemma lookup_snoc t cs w :
  lookup_at t (cs ++ [w]) = match lookup_at t cs with Some (NDir ch) => child ch w | _ => None end.
Proof.
  revert t. induction cs as [|c cs IH]; intros t; cbn [app lookup_at].
  - destruct t as [| |ch]; [done..|]. by destruct (child ch w).
  - destruct t as [| |ch]; [done..|]. by destruct (child ch c).
Qed.
Lemma set_snoc cs w n t ch :
  lookup_at t cs = Some (NDir ch) -> is_Some (child ch w) -> set_at (cs ++ [w]) n t = set_at cs (NDir (upd w n ch)) t.
Proof.
  revert t. induction cs as [|c cs IH]; intros t; cbn [app lookup_at set_at].
  - intros [= ->] [m ->]. done.
  - destruct t as [| |ch']; [done..|]. destruct (child ch' c) as [x|]; [|done]. intros Hx Hc. by rewrite IH.
Qed.

(** ** Removing exactly the directory *)

Definition fresh (s : tree) : Prop := forall k, next_fd s <= k -> dirs s !! k = None.
(** The state after a removal: the tree changed, descriptors were used and closed. *)
Definition after (s : tree) (t : node) (s' : tree) : Prop :=
  root s' = t /\ dirs s' = dirs s /\ next_fd s <= next_fd s'.
Lemma after_fresh s t s' : fresh s -> after s t s' -> fresh s'.
Proof. intros Hf (_ & Hd & Hn) k Hk. rewrite Hd. apply Hf. lia. Qed.

(** What one recursive call does. *)
Definition removes (p : nat -> gostring -> prog (result fs_error unit)) (n : node) : Prop :=
  forall s fd cs w ch, fresh s -> dirs s !! fd = Some cs -> lookup_at (root s) cs = Some (NDir ch) -> child ch w = Some n ->
  exists s', run tree_host s (p fd w) = (s', Ok tt) /\ after s (set_at cs (NDir (del w ch)) (root s)) s'.

Definition visit (p : nat -> gostring -> prog (result fs_error unit)) (fd : nat) (w : gostring) : prog (result fs_error unit) :=
  if bool_decide (w = dot) || bool_decide (w = dotdot) then Ret (Ok tt) else p fd w.

Lemma children_removed p fd cs ch : forall s,
  NoDup (map fst ch) ->
  Forall (fun e => (bool_decide (e.1 = dot) || bool_decide (e.1 = dotdot) = false) /\ removes p e.2) ch ->
  fresh s -> dirs s !! fd = Some cs -> lookup_at (root s) cs = Some (NDir ch) ->
  exists s' t, run tree_host s (all_ok (visit p fd) (map fst ch)) = (s', Ok tt) /\ after s t s' /\
    (t = root s /\ ch = [] \/ t = set_at cs (NDir []) (root s)).
Proof.
  unfold all_ok. induction ch as [|[w n] ch IH]; intros s Hnd Hch Hf Hfd Hl; cbn [map for_each fst].
  { exists s, (root s). split; [done|]. split; [done|]. by left. }
  apply list.NoDup_cons in Hnd as [Hw Hnd]. apply list.Forall_cons in Hch as [[Hdot Hn] Hch]. cbn [fst snd] in Hdot, Hn.
  unfold bind_ok. rewrite run_bind.
  assert (visit p fd w = p fd w) as -> by (unfold visit; by rewrite Hdot).
  destruct (Hn s fd cs w ((w, n) :: ch)) as (s1 & E & Ha); [done..| |]. { cbn [child]. by rewrite decide_True. }
  replace (del w ((w, n) :: ch)) with ch in Ha.
  2: { cbn [del List.filter fst]. fold (del w ch). rewrite bool_decide_true by done. cbn [negb]. by rewrite del_absent. }
  rewrite E. cbn [fst snd]. pose proof Ha as (Hr1 & Hd1 & Hn1).
  destruct (IH s1 Hnd Hch) as (s2 & t & E2 & Ha2 & Ht); [by eapply after_fresh|by rewrite Hd1| |].
  { rewrite Hr1. apply lookup_set. eauto. }
  exists s2, t. split; [exact E2|]. split.
  { destruct Ha2 as (? & Hd2 & ?). split; [done|]. split; [by rewrite Hd2|lia]. }
  right. destruct Ht as [[-> ->]| ->]; rewrite Hr1; [done|]. apply set_set.
Qed.

Lemma height_child ch w n : (w, n) ∈ ch -> height n < height (NDir ch).
Proof.
  intros Hin. cbn [height]. induction ch as [|e ch IH]; [by apply elem_of_nil in Hin|]. cbn [map fold_right].
  apply elem_of_cons in Hin as [<-|Hin]; cbn [snd]; [lia|]. specialize (IH Hin). lia.
Qed.
Lemma wf_children ch : wf (NDir ch) = true ->
  NoDup (map fst ch) /\ forall w n, (w, n) ∈ ch -> (bool_decide (w = dot) || bool_decide (w = dotdot) = false) /\ wf n = true.
Proof.
  cbn [wf]. intros [Hd Ha]%andb_prop. apply bool_decide_eq_true in Hd. split; [done|]. intros w n Hin.
  rewrite forallb_forall in Ha. apply list_elem_of_In in Hin. apply Ha in Hin as [H1%negb_true_iff H2]%andb_prop. done.
Qed.

Lemma removeAt_unlink fuel n : (forall ch, n <> NDir ch) -> removes (removeAtRecursive (S fuel)) n.
Proof.
  intros Hn s fd cs w ch Hf Hfd Hl Hc. cbn [removeAtRecursive bind ask run tree_host command_host]. unfold sys, bind_ok.
  cbn [bind ask run tree_host tree_os]. unfold at_dir. rewrite Hfd, lookup_snoc, Hl, Hc.
  exists (MkTree (set_at cs (NDir (del w ch)) (root s)) (dirs s) (next_fd s)). split; [|done].
  destruct n as [| |ch']; [| |by destruct (Hn ch')]; cbn [node_type]; rewrite bool_decide_false by done;
    cbn [negb]; unfold sys_do; cbn [bind ask run tree_host tree_os]; unfold at_dir, unlink_at; by rewrite Hfd, Hl, Hc.
Qed.

Lemma removeAt_exact fuel : forall n, wf n = true -> height n <= fuel -> removes (removeAtRecursive fuel) n.
Proof.
  induction fuel as [|fuel IH]; intros n Hwf Hh; [destruct n; cbn [height] in Hh; lia|].
  destruct n as [|l|kids]; [by apply removeAt_unlink..|]. intros s fd cs w ch Hf Hfd Hl Hc.
  apply wf_children in Hwf as [Hnd Hk].
  cbn [removeAtRecursive bind ask run tree_host command_host]. unfold sys, bind_ok.
  cbn [bind ask run tree_host tree_os]. unfold at_dir. rewrite Hfd, lookup_snoc, Hl, Hc. cbn [node_type].
  rewrite bool_decide_true by done. cbn [negb bind ask run tree_host tree_os]. unfold at_dir.
  rewrite Hfd, open_at_dir, lookup_snoc, Hl, Hc. cbn [run bind ask tree_host tree_os]. unfold at_dir. cbn [dirs root].
  rewrite lookup_insert_eq, lookup_snoc, Hl, Hc. cbn [run]. rewrite run_bind.
  set (s1 := MkTree _ _ _).
  destruct (children_removed (removeAtRecursive fuel) (next_fd s) (cs ++ [w]) kids s1) as (s2 & t & E & (Hr2 & Hd2 & Hn2) & Ht).
  - done.
  - apply list.Forall_forall. intros [v n] Hin. pose proof (Hk _ _ Hin) as [Hdot Hwn]. split; [done|].
    apply IH; [done|]. apply height_child in Hin. cbn [snd]. lia.
  - intros k Hle. cbn [dirs next_fd s1] in *. rewrite lookup_insert_ne by lia. apply Hf. lia.
  - cbn [dirs s1]. by rewrite lookup_insert_eq.
  - cbn [root s1]. by rewrite lookup_snoc, Hl, Hc.
  - unfold visit in E. rewrite E. clear E. cbn [fst snd]. unfold sys_do. cbn [bind ask run tree_host tree_os].
    unfold at_dir. cbn [dirs]. rewrite Hd2. cbn [dirs s1].
    assert (fd <> next_fd s) by (intros ->; by rewrite Hf in Hfd by lia).
    rewrite lookup_delete_ne, lookup_insert_ne, Hfd by done. unfold unlink_at. cbn [root].
    rewrite delete_insert_id by (apply Hf; lia). cbn [root s1] in Ht.
    assert (exists ch2, lookup_at (root s2) cs = Some (NDir ch2) /\ child ch2 w = Some (NDir []) /\
      set_at cs (NDir (del w ch2)) (root s2) = set_at cs (NDir (del w ch)) (root s)) as (ch2 & H1 & H2 & H3).
    { rewrite Hr2. destruct Ht as [[-> ->]| ->]; [by eauto|]. rewrite (set_snoc _ _ _ _ ch) by eauto.
      exists (upd w (NDir []) ch). split; [apply lookup_set; eauto|]. split; [by rewrite child_upd, decide_True, Hc by done|].
      by rewrite set_set, del_upd. }
    rewrite H1, H2, H3. eexists. split; [done|]. split; [done|]. cbn [dirs next_fd]. split; [done|]. cbn [next_fd s1] in Hn2. lia.
Qed.

(** ** The walk to the parent *)

Lemma lookup_app t a b : lookup_at t (a ++ b) = match lookup_at t a with Some n => lookup_at n b | None => None end.
Proof.
  revert t. induction a as [|c a IH]; intros t; [done|]. cbn [app lookup_at]. destruct t as [| |ch]; [done..|].
  destruct (child ch c); [apply IH|done].
Qed.

Lemma close_run s fd {A} (k : prog A) : run tree_host s (bind (close fd) (fun _ => k)) =
  run tree_host (MkTree (root s) (delete fd (dirs s)) (next_fd s)) k.
Proof. reflexivity. Qed.

(** Opening a chain ends with a handle on the directory, or fails with nothing left open. *)
Definition chained (s : tree) (d : gmap nat (list gostring)) (cs : list gostring) (o : tree * result fs_error nat) : Prop :=
  root o.1 = root s /\ fresh o.1 /\
  match lookup_at (root s) cs with
  | Some (NDir _) => exists fd, o.2 = Ok fd /\ dirs o.1 = <[fd := cs]> d /\ d !! fd = None
  | _ => is_ok o.2 = false /\ dirs o.1 = d
  end.

Lemma open_comps_tree cs : forall s fd at_ ch,
  fresh s -> dirs s !! fd = Some at_ -> lookup_at (root s) at_ = Some (NDir ch) ->
  chained s (delete fd (dirs s)) (at_ ++ cs) (run tree_host s (open_comps fd cs)).
Proof.
  induction cs as [|c cs IH]; intros s fd at_ ch Hf Hfd Hl; cbn [open_comps].
  { cbn [run]. unfold chained. cbn [fst snd]. rewrite app_nil_r, Hl. split; [done|]. split; [done|].
    exists fd. split; [done|]. split; [by rewrite insert_delete_id|by rewrite lookup_delete_eq]. }
  cbn [bind ask run tree_host tree_os]. unfold at_dir. rewrite Hfd, open_at_dir, lookup_snoc, Hl.
  assert (Hd : forall n, child ch c = Some n -> lookup_at (root s) (at_ ++ c :: cs) = lookup_at n cs).
  { intros n Hn. by rewrite lookup_app, Hl; cbn [lookup_at]; rewrite Hn. }
  assert (Hne : fd <> next_fd s) by (intros ->; by rewrite Hf in Hfd by lia).
  assert (Hdel : forall k, next_fd s <= k -> delete fd (dirs s) !! k = None).
  { intros k Hk. rewrite lookup_delete_ne; [by apply Hf|]. intros ->. by rewrite Hf in Hfd. }
  destruct (child ch c) as [n|] eqn:Hn; [specialize (Hd n eq_refl); destruct n as [| |kids]|]; rewrite ?close_run.
  1,2: cbn [run]; unfold chained; cbn [fst snd root dirs]; rewrite Hd; split; [done|]; split; [by intros k Hk; apply Hdel|]; by destruct cs.
  - set (s1 := MkTree _ _ _). 
    destruct (IH s1 (next_fd s) (at_ ++ [c]) kids) as (H1 & H2 & H3).
    + intros k Hk. cbn [s1 dirs next_fd root] in *. destruct (decide (k = fd)) as [->|]; [by rewrite lookup_delete_eq|].
      rewrite lookup_delete_ne, lookup_insert_ne by lia. apply Hf. lia.
    + cbn [s1 dirs]. rewrite lookup_delete_ne by done. by rewrite lookup_insert_eq.
    + cbn [s1 root]. by rewrite lookup_snoc, Hl, Hn.
    + assert (Heq : delete (next_fd s) (dirs s1) = delete fd (dirs s)).
      { cbn [s1 dirs]. rewrite delete_delete, delete_insert_id; [done|]. apply Hf. lia. }
      rewrite Heq, <- app_assoc in H3. split; [exact H1|]. split; [exact H2|exact H3].
  - cbn [run]. unfold chained. cbn [fst snd root dirs]. split; [done|]. split; [by intros k Hk; apply Hdel|].
    by rewrite lookup_app, Hl; cbn [lookup_at]; rewrite Hn.
Qed.

Lemma plain_kept cs : Forall plain cs -> List.filter (fun c => negb (bool_decide (c = []) || bool_decide (c = dot))) cs = cs.
Proof.
  induction 1 as [|c cs (H1 & H2 & _) _ IH]; [done|]. cbn [List.filter]. by rewrite !bool_decide_false, IH.
Qed.

(** The components that [openNoFollowChain] opens are those of the location. *)
Lemma chain_of ds : Forall plain ds -> openNoFollowChain (path_of ds) =
  (let!? fd := sys (str "open /") (COs (OsOpenFile [SLASH] dir_flags 0)) in open_comps fd ds).
Proof.
  intros Hp. unfold openNoFollowChain. rewrite Clean_abs, comps_path_of by (done || apply IsAbs_path_of).
  unfold sys, bind_ok. cbn [bind ask]. f_equal. 
  destruct ds as [|d ds].
  - rewrite bool_decide_true by done. done.
  - rewrite bool_decide_false.
    + assert (trim_prefix (path_of (d :: ds)) [SLASH] = slashed (d :: ds)) as -> by reflexivity.
      unfold slashed. rewrite split_join by (done || by apply plain_no_slash). by rewrite plain_kept.
    + intros H. change [SLASH] with (path_of []) in H. by apply path_of_inj in H.
Qed.

Lemma chain_tree s ds :
  Forall plain ds -> fresh s -> (exists ch, root s = NDir ch) ->
  chained s (dirs s) ds (run tree_host s (openNoFollowChain (path_of ds))).
Proof.
  intros Hp Hf [ch Hr]. rewrite chain_of by done. unfold bind_ok, sys. cbn [bind ask run tree_host tree_os].
  rewrite bool_decide_true by done. rewrite open_at_dir. cbn [lookup_at]. rewrite Hr. cbn [run].
  set (s1 := MkTree _ _ _). destruct (open_comps_tree ds s1 (next_fd s) [] ch) as (H1 & H2 & H3).
  - intros k Hk. cbn [s1 dirs next_fd] in *. rewrite lookup_insert_ne by lia. apply Hf. lia.
  - cbn [s1 dirs]. by rewrite lookup_insert_eq.
  - done.
  - cbn [app] in H3. assert (Heq : delete (next_fd s) (dirs s1) = dirs s) by (cbn [s1 dirs]; rewrite delete_insert_id; [done|by apply Hf]).
    rewrite Heq in H3. unfold chained. rewrite Hr. done.
Qed.

(** ** The whole removal *)

(** The directory [w] of the directory at [ds] removed, when every component is a real
    directory; the tree as it is and a refusal otherwise. *)
Definition remove_spec (t : node) (ds : list gostring) (w : gostring) : node * bool :=
  match lookup_at t ds with
  | Some (NDir ch) => match child ch w with
                      | Some (NDir _) => (set_at ds (NDir (del w ch)) t, true)
                      | _ => (t, false)
                      end
  | _ => (t, false)
  end.

Lemma child_in {A} (ch : list (gostring * A)) w n : child ch w = Some n -> (w, n) ∈ ch.
Proof.
  induction ch as [|[v m] ch IH]; [done|]. cbn [child]. case_decide as E; [intros [= ->]; subst; left|]. intros H. right. auto.
Qed.
Lemma lookup_below t cs n : lookup_at t cs = Some n -> wf t = true -> wf n = true /\ height n <= height t.
Proof.
  revert t. induction cs as [|c cs IH]; intros t; cbn [lookup_at]; [by intros [= ->]|]. destruct t as [| |ch]; [done..|].
  destruct (child ch c) as [m|] eqn:E; [|done]. intros Hl Hwf. apply child_in in E.
  pose proof (height_child _ _ _ E). apply wf_children in Hwf as [_ Hk]. destruct (Hk _ _ E) as [_ Hm].
  destruct (IH m Hl Hm). split; [done|lia].
Qed.

Lemma removeDirSecure_tree s ds w fuel :
  Forall plain (ds ++ [w]) -> fresh s -> (exists ch, root s = NDir ch) -> wf (root s) = true -> height (root s) <= fuel ->
  let '(s', r) := run tree_host s (removeDirSecure fuel (path_of (ds ++ [w]))) in
  (root s', is_ok r) = remove_spec (root s) ds w /\ dirs s' = dirs s.
Proof.
  intros Hp Hf Hr Hwf Hh. unfold removeDirSecure. rewrite Dir_path_of, Base_path_of by done.
  apply list.Forall_app in Hp as [Hp _]. unfold bind_ok. rewrite run_bind.
  destruct (chain_tree s ds Hp Hf Hr) as (H1 & H2 & H3). destruct (run tree_host s _) as [s1 r1]. cbn [fst snd] in *.
  unfold remove_spec. destruct (lookup_at (root s) ds) as [[| |ch]|] eqn:El;
    try (destruct r1; [by destruct H3|]; cbn [run is_ok]; destruct H3; by rewrite H1).
  destruct H3 as (fd & -> & Hd & Hn). unfold finally. rewrite run_bind. unfold sys, bind_ok.
  cbn [bind ask run tree_host tree_os]. unfold at_dir. rewrite Hd, lookup_insert_eq, H1, lookup_snoc, El.
  destruct (child ch w) as [n|] eqn:Ec.
  2: { cbn [bind run fst snd ask close ignore tree_host tree_os root dirs is_ok]. rewrite H1, Hd, delete_insert_id; done. }
  destruct n as [| |kids]; cbn [node_type].
  1,2: cbn [bind run fst snd ask close ignore tree_host tree_os root dirs is_ok]; rewrite H1, Hd, delete_insert_id; done.
  destruct (removeAt_exact fuel (NDir kids)) with (s := s1) (fd := fd) (cs := ds) (w := w) (ch := ch) as (s2 & E & Hr2 & Hd2 & _).
  - destruct (lookup_below (root s) (ds ++ [w]) (NDir kids)); [by rewrite lookup_snoc, El|done|done].
  - destruct (lookup_below (root s) (ds ++ [w]) (NDir kids)); [by rewrite lookup_snoc, El|done|lia].
  - done.
  - by rewrite Hd, lookup_insert_eq.
  - by rewrite H1.
  - done.
  - cbn [bind]. rewrite E. cbn [bind run fst snd ask close ignore tree_host tree_os root dirs is_ok].
    rewrite Hr2, Hd2, Hd, delete_insert_id, H1 by done. done.
Qed.

(** The guard of [RemoveDir], on locations. *)
Lemma guard_abs p : IsAbs p = true ->
  FsGuard.IsUnderProtectedPrefix (guard_fs None) p = true <-> FsGuard.protected_location (comps p).
Proof.
  intros Ha. assert (FsGuard.IsUnderProtectedPrefix (guard_fs None) p = FsGuard.IsUnderProtectedPrefix (guard_fs (Some (str "/"))) p) as ->.
  { unfold FsGuard.IsUnderProtectedPrefix, FsGuard.clean_abs. by rewrite IsAbs_Clean. }
  rewrite (FsGuard.guard_location _ (str "/")) by done. unfold location. by rewrite Ha.
Qed.

(** C36: On a tree of directories, files and links with a valid absolute path that is not
    protected, [RemoveDir] on the Direct backend removes exactly the directory the path
    names, with all it holds and without touching what its links point to; when a
    component is a link or missing, or the last one is not a real directory, it refuses
    and changes nothing.  Every handle it opened is closed again. *)
Theorem RemoveDir_exact s p ds w fuel :
  ValidatePath p = Ok tt -> IsAbs p = true -> comps p = ds ++ [w] -> ~ FsGuard.protected_location (ds ++ [w]) ->
  fresh s -> (exists ch, root s = NDir ch) -> wf (root s) = true -> height (root s) <= fuel ->
  let '(s', r) := run tree_host s (RemoveDir Direct fuel p) in
  (root s', is_ok r) = remove_spec (root s) ds w /\ dirs s' = dirs s.
Proof.
  intros Hv Ha Hc Hprot Hf Hr Hwf Hh. unfold RemoveDir, guard. rewrite Hv, IsAbs_Clean by done. cbn [negb].
  destruct (FsGuard.IsUnderProtectedPrefix (guard_fs None) (Clean p)) eqn:Hg.
  { apply guard_abs in Hg; [|by apply IsAbs_Clean]. by rewrite comps_Clean, Hc in Hg. }
  change (direct Direct) with true. cbn iota. pose proof (comps_plain p Ha) as Hp. rewrite Clean_abs, Hc in * by done.
  by apply removeDirSecure_tree.
Qed.

(** A directory of an application with a link to the accounts file in it. *)
Definition app_tree : node :=
  NDir [(str "etc", NDir [(str "passwd", NFile)]);
        (str "opt", NDir [(str "app", NDir [(str "data", NDir [(str "a", NFile); (str "b", NFile)]);
                                            (str "evil", NLink (str "/etc"))]);
                          (str "other", NFile); (str "link", NLink (str "/etc"))])].
Lemma RemoveDir_exact_witness :
  let s := MkTree app_tree ∅ 3 in
  (let '(s', r) := run tree_host s (RemoveDir Direct 9 (str "/opt//app/")) in
   r = Ok tt /\ root s' = NDir [(str "etc", NDir [(str "passwd", NFile)]);
                               (str "opt", NDir [(str "other", NFile); (str "link", NLink (str "/etc"))])]) /\
  (let '(s', r) := run tree_host s (RemoveDir Direct 9 (str "/opt//app/")) in
   (root s', is_ok r) = remove_spec app_tree [str "opt"] (str "app") /\ dirs s' = ∅).
Proof.
  cbn zeta. split; [vm_compute; split; reflexivity|].
  apply (RemoveDir_exact (MkTree app_tree ∅ 3) (str "/opt//app/") [str "opt"] (str "app") 9).
  - reflexivity.
  - reflexivity.
  - vm_compute; reflexivity.
  - intros H. apply (guard_abs (str "/opt/app") eq_refl) in H. vm_compute in H. discriminate H.
  - intros k _. apply lookup_empty.
  - eexists. reflexivity.
  - vm_compute. reflexivity.
  - apply (Nat.leb_le _ _). vm_compute. reflexivity.
Defined.
Example link_refused :
  let '(s', r) := run tree_host (MkTree app_tree ∅ 3) (RemoveDir Direct 9 (str "/opt/link")) in
  r = Err (ErrRefuseSymlink (str "/opt/link")) /\ root s' = app_tree.
Proof. vm_compute. split; reflexivity. Qed.

(** ** On every host

    The host may answer anything, and other processes may change the tree between two
    calls.  [handles] is what the program knows of its open descriptors: the names it
    followed to each of them, one directory at a time and no link, from the root. *)
Record handles := MkHandles { loc : gmap nat (list gostring); clash : bool }.

(** A descriptor handed out while it is still open would make the record wrong. *)
Definition opened (g : handles) (fd : nat) (cs : list gostring) : handles :=
  match loc g !! fd with
  | Some _ => MkHandles (loc g) true
  | None => MkHandles (<[fd := cs]> (loc g)) (clash g)
  end.
Definition track_os (g : handles) (o : os_op) : os_ans o -> handles :=
  match o return os_ans o -> handles with
  | OsOpenFile _ _ _ => fun a => match a with Ok fd => opened g fd [] | Err _ => g end
  | OsOpenat d w _ => fun a => match a, loc g !! d with Ok fd, Some cs => opened g fd (cs ++ [w]) | _, _ => g end
  | OsFClose fd => fun _ => MkHandles (delete fd (loc g)) (clash g)
  | _ => fun _ => g
  end.
Definition track (g : handles) X (c : call X) : X -> handles :=
  match c in call X return X -> handles with
  | COs o => track_os g o
  | _ => fun _ => g
  end.

(** What may be asked while the directory at [target] is removed. *)
Definition anchored_os (target : list gostring) (g : handles) (o : os_op) : Prop :=
  match o with
  | OsOpenFile p fl _ => p = [SLASH] /\ (O_NOFOLLOW ∈ fl) /\ (O_DIRECTORY ∈ fl)
  | OsOpenat d w fl => (O_NOFOLLOW ∈ fl) /\ (O_DIRECTORY ∈ fl) /\ exists cs, loc g !! d = Some cs /\
      (cs ++ [w] `prefix_of` target \/ target `prefix_of` cs ++ [w])
  | OsUnlinkat d w _ => exists cs, loc g !! d = Some cs /\ target `prefix_of` cs ++ [w] /\
      ~ FsGuard.protected_location (cs ++ [w])
  | OsFstatat _ _ | OsReaddirnames _ | OsFClose _ => True
  | _ => False
  end.
Definition anchored (target : list gostring) (g : handles) X (c : call X) : Prop :=
  match c with
  | COs o => clash g = true \/ anchored_os target g o
  | CCtxErr => True
  | _ => False
  end.

(** What is not protected has nothing protected below it. *)
Lemma unprotected_below cs ds :
  ~ FsGuard.protected_location cs -> ~ FsGuard.protected_location (cs ++ ds).
Proof.
  intros Hn [H|[H|(r & Hr & Hp)]].
  - apply Hn. left. by destruct cs.
  - destruct cs as [|c [|c' cs]]; [by apply Hn; left| |done]. cbn [app] in H. injection H as -> _. apply Hn. right. by left.
  - destruct (decide (length (comps r) <= length cs)) as [Hl|Hl].
    + apply Hn. right. right. exists r. split; [done|]. destruct Hp as [k Hk].
      exists (drop (length (comps r)) cs). apply (f_equal (take (length (comps r)))) in Hk.
      rewrite take_app_le, take_app_length in Hk by done. by rewrite <- Hk at 1; rewrite take_drop.
    + assert (length (comps r) <= 1 \/ comps r = [str "var"; str "lib"]) as [Hs|Hs].
      { assert (Hall : forallb (fun r => (length (comps r) <=? 1) || bool_decide (comps r = [str "var"; str "lib"]))
                         FsGuard.protectedPrefixRoots = true) by (vm_compute; reflexivity).
        rewrite forallb_forall in Hall. apply list_elem_of_In in Hr. apply Hall, orb_prop in Hr as [H|H].
        - left. by apply Nat.leb_le.
        - right. by apply bool_decide_eq_true in H. }
      * destruct cs; [by apply Hn; left|]. cbn [length] in Hl. lia.
      * rewrite Hs in *. destruct cs as [|c [|c' cs]]; [by apply Hn; left| |cbn [length] in Hl; lia].
        destruct Hp as [k Hk]. cbn [app] in Hk. injection Hk as -> _. apply Hn. right. by left.
Qed.

Section Anchored.
Context (target : list gostring) (Hfree : ~ FsGuard.protected_location target).
Abbreviation wpa := (wpg track (anchored target)).

(** Between two points: the handles are the same, unless a descriptor clashed. *)
Definition back (g g' : handles) : Prop :=
  (clash g' = true \/ loc g' = loc g) /\ (clash g = true -> clash g' = true).
Lemma back_refl g : back g g.
Proof. split; auto. Qed.
Lemma back_trans g1 g2 g3 : back g1 g2 -> back g2 g3 -> back g1 g3.
Proof. intros [[H|H] Hc] [[H'|H'] Hc']; split; auto. right. by rewrite H'. Qed.

Definition knows (g : handles) (fd : nat) (cs : list gostring) : Prop := clash g = true \/ loc g !! fd = Some cs.
Lemma knows_back g g' fd cs : knows g fd cs -> back g g' -> knows g' fd cs.
Proof. intros [H|H] [[H'|H'] Hc]; [by left..|by left; auto|by left|right; by rewrite H']. Qed.

(** Opening a directory below a known handle. *)
Lemma openat_known g d w fl cs a :
  knows g d cs -> let g' := track_os g (OsOpenat d w fl) a in
  (clash g = true -> clash g' = true) /\
  match a with
  | Ok fd => knows g' fd (cs ++ [w]) /\ back g (MkHandles (delete fd (loc g')) (clash g')) /\
             (clash g' = true \/ fd <> d)
  | Err _ => g' = g
  end.
Proof.
  intros Hk. cbn zeta. destruct a as [fd|e]; [|done]. cbn [track_os].
  destruct Hk as [Hc|Hl].
  - destruct (loc g !! d) as [c|]; [unfold opened; destruct (loc g !! fd)|]; cbn [clash loc];
      (split; [done|]); (split; [by left|]); (split; [split; [by left|done]|by left]).
  - rewrite Hl. unfold opened. destruct (loc g !! fd) eqn:E; cbn [clash loc].
    + split; [done|]. split; [by left|]. split; [split; [by left|done]|by left].
    + split; [done|]. split; [right; cbn [loc]; by rewrite lookup_insert_eq|]. split.
      * split; [right; cbn [loc]; by rewrite delete_insert_id|done].
      * right. intros ->. by rewrite E in Hl.
Qed.

Lemma wpa_all_ok {A} (body : A -> prog (result fs_error unit)) l g (I : handles -> Prop) :
  I g -> (forall g a, I g -> wpa (body a) g (fun g' _ => I g')) -> wpa (all_ok body l) g (fun g' _ => I g').
Proof.
  unfold all_ok. intros Hg Hb. revert g Hg. induction l as [|a l IH]; intros g Hg; cbn [for_each]; [done|].
  apply wpg_bind_ok. eapply wpg_mono; [|by apply Hb]. intros g' [[]|e] H'; [by apply IH|done].
Qed.

Lemma removeAt_anchored fuel : forall g dirfd name cs,
  knows g dirfd cs -> target `prefix_of` cs ++ [name] ->
  wpa (removeAtRecursive fuel dirfd name) g (fun g' _ => back g g').
Proof.
  induction fuel as [|fuel IH]; intros g d name cs Hk Hp; cbn [removeAtRecursive]; [apply back_refl|].
  assert (Hun : forall g' b, back g g' -> anchored target g' _ (COs (OsUnlinkat d name b))).
  { intros g' b Hb. destruct (knows_back _ _ _ _ Hk Hb) as [H|H]; [by left|]. right. exists cs. split; [done|]. split; [done|].
    destruct Hp as [k ->]. by apply unprotected_below. }
  cbn [bind ask wpg]. split; [done|]. intros [m|]; [apply back_refl|]. cbn [track].
  unfold sys, sys_do, bind_ok, close, ignore. cbn [bind ask wpg]. split; [by right|]. cbn [track track_os os_ans]. intros [st|e]; [|apply back_refl].
  cbn [bind]. destruct (negb _); cbn [bind ask wpg].
  { split; [apply Hun, back_refl|]. cbn [track track_os]. intros [e|]; apply back_refl. }
  split.
  { destruct Hk as [Hc|Hl]; [by left|]. right. do 2 (split; [apply (bool_decide_unpack _); reflexivity|]). exists cs. by eauto. }
  intros a. cbn [track]. destruct (openat_known g d name dir_flags cs a Hk) as [Hc Ha]. destruct a as [cfd|e]; [|rewrite Ha; apply back_refl].
  set (g1 := track_os _ _ _) in *. clearbody g1. destruct Ha as (Hk1 & Hb1 & _). cbn [bind wpg].
  split; [by right|]. cbn [track track_os os_ans].
  assert (Hclosed : forall g2, back g1 g2 -> back g (MkHandles (delete cfd (loc g2)) (clash g2))).
  { intros g2 [H2 Hc2]. eapply back_trans; [exact Hb1|]. split; cbn [loc clash]; [|done]. destruct H2 as [H2|H2]; [by left|]. right. by rewrite H2. }
  intros [names|e]; cbn [bind ask wpg].
  2: { split; [by right|]. intros x. apply Hclosed, back_refl. }
  apply wpg_bind. eapply wpg_mono; [|apply (wpa_all_ok _ _ _ (back g1)); [apply back_refl|]].
  - intros g2 [[]|e] H2; cbn [bind ask wpg].
    + split; [by right|]. cbn [track track_os os_ans]. intros [e|]; cbn [bind wpg]; [by apply Hclosed|].
      split; [by apply Hun, Hclosed|]. cbn [track track_os]. intros [e|]; by apply Hclosed.
    + split; [by right|]. intros x. by apply Hclosed.
  - intros g2 c H2. destruct (_ || _); [done|]. eapply wpg_mono; [|eapply (IH g2 cfd c (cs ++ [name]))].
    + intros g3 r H3. by eapply back_trans.
    + by eapply knows_back.
    + by apply prefix_app_r.
Qed.

Lemma open_comps_anchored cs : forall g fd at_,
  knows g fd at_ -> at_ ++ cs `prefix_of` target ->
  wpa (open_comps fd cs) g (fun g' r => match r with Ok fd' => knows g' fd' (at_ ++ cs) | Err _ => True end).
Proof.
  induction cs as [|c cs IH]; intros g fd at_ Hk Hp; cbn [open_comps]; [by rewrite app_nil_r|].
  unfold close, ignore. cbn [bind ask wpg]. split.
  { destruct Hk as [Hc|Hl]; [by left|]. right. do 2 (split; [apply (bool_decide_unpack _); reflexivity|]). exists at_. split; [done|].
    left. destruct Hp as [k ->]. exists (cs ++ k). by rewrite <- !app_assoc. }
  intros a. cbn [track]. destruct (openat_known g fd c dir_flags at_ a Hk) as [_ Ha].
  split; [by right|]. intros x. cbn [track track_os]. destruct a as [fd'|e]; [|done]. cbn [bind].
  replace (at_ ++ c :: cs) with ((at_ ++ [c]) ++ cs) by by rewrite <- app_assoc.
  destruct Ha as (Hk' & _ & Hne). apply IH; [|by rewrite <- app_assoc].
  destruct Hk' as [H|H]; [by left|]. destruct Hne as [Hne|Hne]; [by left|]. right. cbn [loc]. by rewrite lookup_delete_ne.
Qed.

Lemma removeDirSecure_anchored fuel ds w g :
  target = ds ++ [w] -> Forall plain target -> loc g = ∅ -> wpa (removeDirSecure fuel (path_of target)) g (fun _ _ => True).
Proof.
  intros Ht Hp Hg. unfold removeDirSecure.
  assert (Dir (path_of target) = path_of ds) as -> by (rewrite Ht; apply Dir_path_of; by rewrite <- Ht).
  assert (Base (path_of target) = w) as -> by (rewrite Ht; apply Base_path_of; by rewrite <- Ht).
  assert (Hds : Forall plain ds) by (rewrite Ht in Hp; by apply list.Forall_app in Hp as [? _]).
  apply wpg_bind_ok. rewrite chain_of by done. apply wpg_bind_ok. unfold sys at 1. cbn [bind ask wpg].
  split; [right; split_and!; [done|apply (bool_decide_unpack _); reflexivity..]|]. cbn [track track_os os_ans].
  intros [fd|e]; [|done]. cbn [wpg]. eapply wpg_mono; [|apply (open_comps_anchored ds _ fd [])].
  - intros g2 [pfd|e] Hk; [|done]. cbn [app] in Hk. unfold finally, close, ignore. apply wpg_bind.
    unfold sys, bind_ok. cbn [bind ask wpg]. split; [by right|]. cbn [track track_os os_ans].
    intros [st|e]; cbn [bind wpg]; [|split; [by right|done]].
    assert (Hend : forall (p : prog (result fs_error unit)) g, wpa p g (fun _ _ => True) ->
      wpa p g (fun g _ => anchored target g _ (COs (OsFClose pfd)) /\ (option fs_err -> True))).
    { intros p g3 Hw. eapply wpg_mono; [|exact Hw]. intros g4 r _. split; [by right|done]. }
    destruct st; cbn [wpg]; try (split; [by right|done]). apply Hend.
    eapply wpg_mono; [|eapply (removeAt_anchored _ g2 pfd w ds); [done|by rewrite Ht]]. done.
  - unfold opened. rewrite Hg, lookup_empty. right. cbn [loc]. by rewrite lookup_insert_eq.
  - rewrite Ht. by apply prefix_app_r.
Qed.
End Anchored.

End FsRemove.
