(* ===== verification/FsOps.v ===== *)
(** * File operations: commands and listings ([src/sys/fs])

    What every method of the manager runs, whatever it is given: options are the code's
    own, modes never set the setuid or setgid bit, recursive changes never hit a system
    tree, and an escalated write only happens in a directory that only root writes to.
    Listings of directories and mounts are read back exactly. *)
From S2P Require Import Prelude Paths FsGuard Exec HostProg Words Ini HostCmd Fs FsRemove.

Module FsOps.
Import Exec HostProg Words HostCmd Paths Fs.

(** ** Every method *)

Inductive fs_request :=
| RWriteFile (path data : gostring) (opts : WriteOptions)
| RSetMode (path : gostring) (mode : N)
| RSetOwnership (path owner group : gostring)
| RSetOwnershipRecursive (path owner group : gostring)
| RCopy (src dst : gostring) (opts : WriteOptions)
| RCopyTree (src dst : gostring) (opts : WriteOptions)
| RMkdir (path : gostring) (opts : MkdirOptions)
| RRemove (path : gostring)
| RRemoveDir (fuel : nat) (path : gostring)
| RReadFile (path : gostring)
| RExists (path : gostring)
| RReadDir (path : gostring)
| RIsReadOnly (path : gostring)
| RListMounts
| RRemountRW (path : gostring).

Definition quietly {A} (p : prog (result fs_error A)) : prog (result fs_error unit) :=
  let!? _ := p in Ret (Ok tt).
Definition perform (b : PrivilegeBackend) (r : fs_request) : prog (result fs_error unit) :=
  match r with
  | RWriteFile p d o => WriteFile b p d o
  | RSetMode p m => SetMode p m
  | RSetOwnership p o g => SetOwnership p o g
  | RSetOwnershipRecursive p o g => SetOwnershipRecursive p o g
  | RCopy s d o => Copy s d o
  | RCopyTree s d o => CopyTree s d o
  | RMkdir p o => Mkdir p o
  | RRemove p => Remove p
  | RRemoveDir f p => RemoveDir b f p
  | RReadFile p => quietly (ReadFile b p)
  | RExists p => quietly (Exists b p)
  | RReadDir p => quietly (ReadDir b p)
  | RIsReadOnly p => quietly (IsReadOnly p)
  | RListMounts => quietly ListMounts
  | RRemountRW p => RemountRW p
  end.

(** ** What a command may be *)

(** The arguments a tool reads options from: those before the end-of-options marker; of
    [sh -c script name args] only the first two. *)
Fixpoint before_marker (args : list gostring) : list gostring :=
  match args with
  | [] => []
  | a :: args' => if bool_decide (a = str "--") then [] else a :: before_marker args'
  end.
Definition options (c : Command) : list gostring :=
  if bool_decide (Name c = str "sh") then take 2 (Args c) else before_marker (Args c).
Definition fs_own : list gostring :=
  [str "-c"; str "-e"; str "-f"; str "-p"; str "-a"; str "-T"; str "-R"; str "-rf"; str "-n"; str "-o"; str "-rn";
   str "--target"; str "-maxdepth"; str "-mindepth"; str "-printf"].

(** A mode as [chmod] gets it, without the setuid and setgid bits. *)
Definition plain_mode (a : gostring) : Prop := exists n, (n < 1024)%N /\ a = oct4 n.

Definition fs_allowed (c : Command) (_ : gostring) : Prop :=
  Forall (fun a => dashed a = true -> a ∈ fs_own) (options c) /\
  (Name c = str "chmod" -> exists m path, Args c = [m; str "--"; path] /\ plain_mode m) /\
  (Name c = str "sh" -> exists script path m o b, Args c = [str "-c"; script; str "sh"; path; m; o; b] /\ plain_mode m) /\
  (Name c = str "chown" -> str "-R" ∈ options c -> exists o path, Args c = [str "-R"; str "--"; o; path] /\
     (IsAbs path = true -> Clean path ∉ FsGuard.dangerousPaths)) /\
  (Name c = str "rm" -> str "-rf" ∈ options c -> exists path, Args c = [str "-rf"; str "--"; path] /\
     IsAbs path = true /\ ~ FsGuard.protected_location (comps path)) /\
  (Escalate c = false -> Name c = str "findmnt").

(** ** Modes *)

Lemma land_pow2 m k : N.land m (2 ^ k) = if N.testbit m k then (2 ^ k)%N else 0%N.
Proof.
  apply N.bits_inj. intros i. rewrite N.land_spec. destruct (N.testbit m k) eqn:E.
  - destruct (decide (i = k)) as [->|]; [by rewrite N.pow2_bits_true, E|].
    by rewrite N.pow2_bits_false, andb_false_r by congruence.
  - rewrite N.bits_0. destruct (decide (i = k)) as [->|]; [by rewrite E|].
    by rewrite N.pow2_bits_false, andb_false_r by congruence.
Qed.
Lemma has_bit_lor m a b : has_bit m (N.lor a b) = false -> has_bit m a = false /\ has_bit m b = false.
Proof.
  unfold has_bit. rewrite N.land_lor_distr_r, !negb_false_iff, !N.eqb_eq. intros H. by apply N.lor_eq_0_iff.
Qed.
Lemma Perm_lt m : (Perm m < 512)%N.
Proof. unfold Perm. change 511%N with (N.ones 9). rewrite N.land_ones. by apply N.mod_lt. Qed.

Lemma lor_512 a : (a < 512)%N -> (N.lor a 512 < 1024)%N.
Proof.
  intros Ha. destruct (decide (a = 0%N)) as [->|Hp]; [by vm_compute|].
  assert (Hl : (N.log2 a < 9)%N) by (apply N.log2_lt_pow2; [lia|exact Ha]).
  change 1024%N with (2 ^ 10)%N. apply N.log2_lt_pow2.
  - apply N.neq_0_lt_0. intros H. apply N.lor_eq_0_iff in H as [? _]. done.
  - rewrite N.log2_lor. apply N.max_lub_lt; [lia|by vm_compute].
Qed.

(** The bits of a mode without setuid and setgid. *)
Lemma mode_bits_plain m : validateMode m = Ok tt -> (mode_bits m < 1024)%N.
Proof.
  unfold validateMode. destruct (has_bit m _) eqn:E; [done|]. intros _. apply has_bit_lor in E as [Hu Hg].
  unfold mode_bits. rewrite Hu, Hg. pose proof (Perm_lt m). destruct (has_bit m ModeSticky); [|lia].
  by apply lor_512.
Qed.
Lemma modeArg_plain m : validateMode m = Ok tt -> plain_mode (modeArg m).
Proof. intros H. exists (mode_bits m). split; [by apply mode_bits_plain|done]. Qed.
Lemma default_mode_ok m : validateMode m = Ok tt -> validateMode (default_mode m) = Ok tt.
Proof. unfold default_mode. destruct (m =? 0)%N; [by vm_compute|done]. Qed.

Lemma ValidatePath_undashed p : ValidatePath p = Ok tt -> dashed p = false.
Proof.
  unfold ValidatePath, dashed. destruct (bool_decide (p = [])); [done|]. destruct (bool_decide (NUL ∈ p)); [done|].
  by destruct (has_prefix p (str "-")).
Qed.
Lemma undashed_app p q : p <> [] -> dashed p = false -> dashed (p ++ q) = false.
Proof. intros Hp. destruct p; [done|]. unfold dashed. cbn. by destruct (bool_decide _). Qed.
Lemma ValidatePath_ne p : ValidatePath p = Ok tt -> p <> [].
Proof. by intros H ->. Qed.

(** ** The commands *)

Abbreviation confined p := (wp (on_run fs_allowed) p (fun _ => True)).

Lemma confined_guard {A} c (k : prog (result fs_error A)) : (c = Ok tt -> confined k) -> confined (guard c k).
Proof. unfold guard. destruct c as [[]|]; [auto|done]. Qed.
Lemma confined_bind_ok {A B} (p : prog (result fs_error A)) (k : A -> prog (result fs_error B)) :
  confined p -> (forall a, confined (k a)) -> confined (bind_ok p k).
Proof. intros Hp Hk. apply wp_bind_ok. eapply wp_mono; [|exact Hp]. intros [a|e] _; [apply Hk|done]. Qed.
Lemma confined_run name args : fs_allowed (priv name args) [] -> confined (runChecked name args).
Proof. intros H. unfold runChecked. apply wp_bind, runPriv_wp; [exact H|done]. Qed.
Lemma confined_query name args : fs_allowed (unpriv name args) [] -> confined (runQuery name args).
Proof. intros H. unfold runQuery. apply wp_bind, runRead_wp; [exact H|done]. Qed.
Lemma confined_when c p : (c = true -> confined p) -> confined (when c p).
Proof. unfold when. destruct c; [auto|done]. Qed.
Lemma confined_quietly {A} (p : prog (result fs_error A)) : confined p -> confined (quietly p).
Proof. intros H. by apply confined_bind_ok. Qed.

(** Tools without a rule of their own. *)
Lemma allowed_tool c i :
  Name c ∉ [str "chmod"; str "sh"; str "chown"; str "rm"] -> (Escalate c = false -> Name c = str "findmnt") ->
  Forall (fun a => dashed a = true -> a ∈ fs_own) (before_marker (Args c)) -> fs_allowed c i.
Proof.
  intros Hn He Ha. rewrite !not_elem_of_cons in Hn. destruct Hn as (H1 & H2 & H3 & H4 & _).
  unfold fs_allowed, options. rewrite (bool_decide_false (Name c = str "sh")) by done.
  split; [done|]. repeat (split; [naive_solver|]). done.
Qed.
Lemma before_marker_cons (own : list gostring) a args :
  (dashed a = true -> a ∈ own) -> Forall (fun a => dashed a = true -> a ∈ own) (before_marker args) ->
  Forall (fun a => dashed a = true -> a ∈ own) (before_marker (a :: args)).
Proof. intros Ha Hl. cbn [before_marker]. destruct (bool_decide _); [constructor|by constructor]. Qed.
Lemma before_marker_end (own : list gostring) args : Forall (fun a => dashed a = true -> a ∈ own) (before_marker (str "--" :: args)).
Proof. cbn [before_marker]. rewrite bool_decide_true by done. constructor. Qed.
Ltac marker := repeat first
  [ apply before_marker_end
  | apply before_marker_cons; [first [apply undashed; assumption | apply safe_literal; reflexivity]|]
  | apply List.Forall_nil ].
Ltac tool := apply allowed_tool; [by apply (bool_decide_unpack _)|done|cbn [Args priv unpriv app]; marker].

Lemma confined_SetMode p m : confined (SetMode p m).
Proof.
  unfold SetMode. apply confined_guard. intros Hp%ValidatePath_undashed. apply confined_guard. intros Hm%modeArg_plain. apply confined_run.
  assert (Hd : dashed (modeArg m) = false).
  { destruct Hm as (n & Hn & ->). unfold oct4. apply undashed_cons. unfold oct_digit. intros H.
    assert (Hq : (n / 512 < 2)%N) by (apply N.Div0.div_lt_upper_bound; exact Hn). revert Hq H. generalize (n / 512)%N.
    intros [|[q|q|]] Hq; [done|lia|lia|done]. }
  split; [unfold options; rewrite bool_decide_false by done; cbn [Args priv]; marker|].
  split; [intros _; eauto|]. by repeat (split; [done|]).
Qed.
Lemma confined_chown o p : confined (runChecked (str "chown") [str "--"; o; p]).
Proof.
  apply confined_run. split; [unfold options; rewrite bool_decide_false by done; cbn [Args priv]; marker|].
  split; [done|]. split; [done|]. split; [|by repeat (split; [done|])].
  intros _ H. unfold options in H. rewrite bool_decide_false in H by done. cbn [Args priv before_marker] in H.
  by apply elem_of_nil in H.
Qed.
Lemma confined_SetOwnership p o g : confined (SetOwnership p o g).
Proof.
  unfold SetOwnership. destruct (bool_decide _); [done|]. apply confined_guard. intros _. apply confined_chown.
Qed.
Lemma confined_SetOwnershipRecursive p o g : confined (SetOwnershipRecursive p o g).
Proof.
  unfold SetOwnershipRecursive. destruct (bool_decide _); [done|]. apply confined_guard. intros _. apply wp_bind.
  assert (Hrun : FsGuard.IsProtectedPath (guard_fs None) p = false \/ IsAbs p = false ->
    confined (runChecked (str "chown") [str "-R"; str "--"; Ownership o g; p])).
  { intros Hp. apply confined_run. split; [unfold options; rewrite bool_decide_false by done; cbn [Args priv]; marker|].
    split; [done|]. split; [done|]. split; [|by repeat (split; [done|])].
    intros _ _. exists (Ownership o g), p. split; [done|]. intros Ha. destruct Hp as [Hp|Hp]; [|by rewrite Hp in Ha].
    unfold FsGuard.IsProtectedPath, FsGuard.clean_abs in Hp. rewrite IsAbs_Clean in Hp by done. cbn [negb] in Hp.
    by apply bool_decide_eq_false in Hp. }
  unfold isProtected. destruct (IsAbs (Clean p)) eqn:Ha.
  - cbn [wp]. destruct (FsGuard.IsProtectedPath _ p) eqn:Hg; [done|]. apply Hrun. by left.
  - cbn [bind ask wp]. split; [done|]. intros w.
    match goal with |- wp _ (if ?b then _ else _) _ => destruct b; [done|] end. apply Hrun. right.
    destruct (IsAbs p) eqn:E; [|done]. by rewrite IsAbs_Clean in Ha.
Qed.

(** Programs that run no command: those that only make system calls. *)
Lemma confined_os {A} (p : prog A) (Q : A -> Prop) :
  wp (fun q => match q with QRun _ _ => False | _ => True end) p Q -> wp (on_run fs_allowed) p Q.
Proof. apply wp_weaken. by intros []. Qed.

Abbreviation silent p := (wp (fun q => match q with QRun _ _ => False | _ => True end) p (fun _ => True)).
Lemma silent_bind {A B} (p : prog A) (k : A -> prog B) : silent p -> (forall a, silent (k a)) -> silent (bind p k).
Proof. intros Hp Hk. apply wp_bind. eapply wp_mono; [|exact Hp]. intros a _. apply Hk. Qed.
Lemma silent_bind_ok {A B} (p : prog (result fs_error A)) (k : A -> prog (result fs_error B)) :
  silent p -> (forall a, silent (k a)) -> silent (bind_ok p k).
Proof. intros Hp Hk. apply wp_bind_ok. eapply wp_mono; [|exact Hp]. intros [a|e] _; [apply Hk|done]. Qed.
Lemma silent_os o (k : os_ans o -> prog (result fs_error unit)) : (forall a, silent (k a)) -> silent (Call (COs o) k).
Proof. intros Hk. split; [done|exact Hk]. Qed.
(** System calls one after the other. *)
Ltac silent_step := first
  [ exact I
  | match goal with |- wp _ (if ?b then _ else _) _ => destruct b end
  | match goal with |- wp _ (match ?x with _ => _ end) _ => destruct x end
  | apply silent_bind_ok; [|intros ?]
  | apply silent_bind; [|intros ?]
  | (split; [exact I|intros ?]) ].

Lemma silent_replace path data perm re : silent (safeReplaceFile path data perm re).
Proof.
  unfold safeReplaceFile, safeRename, sync_dir, or_else, seq, sys, sys_do, close, ignore, ask. repeat silent_step.
Qed.
Lemma silent_backup path backup data perm : silent (safeBackupAndReplace path backup data perm true).
Proof.
  unfold safeBackupAndReplace, sys_do, close, ignore, ask.
  repeat first [match goal with |- wp _ (safeReplaceFile _ _ _ _) _ => apply silent_replace end | silent_step].
Qed.
Lemma silent_direct path data opts : silent (writeDirect path data opts).
Proof.
  unfold writeDirect, ResolveOwnership, resolve_opt, resolveID, FchownNoFollow, finally, sys, sys_do, close, ignore, ask.
  repeat first [match goal with
                | |- wp _ (safeReplaceFile _ _ _ _) _ => apply silent_replace
                | |- wp _ (safeBackupAndReplace _ _ _ _ _) _ => apply silent_backup
                end | silent_step].
Qed.
Lemma silent_removeAt fuel : forall fd name, silent (removeAtRecursive fuel fd name).
Proof.
  induction fuel as [|fuel IH]; intros fd name; [done|]. cbn [removeAtRecursive].
  unfold sys, sys_do, close, ignore, ask, all_ok. repeat silent_step.
  apply (wp_for_each _ _ _ _ (fun _ => True)); [done..|]. intros u child _ _. destruct (_ || _); [done|].
  eapply wp_mono; [|apply IH]. by intros [].
Qed.
Lemma silent_comps cs : forall fd, silent (open_comps fd cs).
Proof.
  induction cs as [|c cs IH]; intros fd; [done|]. cbn [open_comps]. unfold close, ignore, ask.
  apply silent_bind; [by repeat silent_step|]. intros x. apply silent_bind; [by repeat silent_step|]. intros y.
  destruct x; [apply IH|done].
Qed.
Lemma silent_remove fuel path : silent (removeDirSecure fuel path).
Proof.
  unfold removeDirSecure, openNoFollowChain, finally, sys, close, ignore, ask.
  repeat first [match goal with
                | |- wp _ (removeAtRecursive _ _ _) _ => apply silent_removeAt
                | |- wp _ (open_comps _ _) _ => apply silent_comps
                end | silent_step].
Qed.

Lemma confined_silent {A} (p : prog A) : silent p -> confined p.
Proof. apply confined_os. Qed.

Lemma confined_write b path data opts : confined (WriteFile b path data opts).
Proof.
  unfold WriteFile. cbn [bind ask wp]. split; [done|]. intros [m|]; [done|].
  apply confined_guard. intros Hp. apply confined_guard. intros Hm. apply confined_guard. intros _.
  destruct (direct b); [apply confined_silent, silent_direct|]. unfold writeEscalated, escalatedParentSafe, sys.
  apply confined_bind_ok.
  { apply confined_bind_ok; [cbn [bind ask wp]; by split|]. done. }
  intros _. cbn [bind ask wp]. split; [|done]. cbn [request_of on_run]. unfold fs_allowed.
  split. { unfold options. rewrite bool_decide_true by done. cbn [Args priv write_argv take].
           apply List.Forall_cons; [apply safe_literal; reflexivity|]. apply List.Forall_cons; [apply safe_literal; reflexivity|constructor]. }
  split; [done|]. split.
  { intros _. unfold write_argv. do 5 eexists. split; [reflexivity|]. by apply modeArg_plain, default_mode_ok. }
  by repeat (split; [done|]).
Qed.

Lemma confined_rm_rf b fuel path : confined (RemoveDir b fuel path).
Proof.
  unfold RemoveDir. apply confined_guard. intros _. destruct (IsAbs (Clean path)) eqn:Ha; cbn [negb]; [|done].
  destruct (FsGuard.IsUnderProtectedPrefix _ _) eqn:Hg; [done|]. destruct (direct b); [apply confined_silent, silent_remove|].
  apply confined_run. split; [unfold options; rewrite bool_decide_false by done; cbn [Args priv]; marker|].
  split; [done|]. split; [done|]. split; [done|]. split; [|done]. intros _ _. exists (Clean path). split; [done|]. split; [done|].
  intros H. apply FsRemove.guard_abs in H; [|done]. by rewrite H in Hg.
Qed.
Lemma confined_rm p : confined (runChecked (str "rm") [str "-f"; str "--"; p]).
Proof.
  apply confined_run. split; [unfold options; rewrite bool_decide_false by done; cbn [Args priv]; marker|].
  split; [done|]. split; [done|]. split; [done|]. split; [|done]. intros _ H. unfold options in H.
  rewrite bool_decide_false in H by done. cbn [Args priv before_marker] in H.
  rewrite (bool_decide_false (str "-f" = str "--")), (bool_decide_true (str "--" = str "--")) in H by done.
  by apply list_elem_of_singleton in H.
Qed.

(** Whatever the manager is asked and on whatever host: the options of every command it
    runs are the code's own, also when paths, owners or contents look like options; a
    mode given to [chmod] has neither the setuid nor the setgid bit; [chown -R] never
    gets a system tree and [rm -rf] nothing at or under a protected location; only
    [findmnt] runs without escalation. *)
Theorem fs_confined {S} (h : handler S) s b r :
  Forall (fun ci => fs_allowed ci.1 ci.2) (commands h s (perform b r)).
Proof.
  apply (wp_commands fs_allowed h s _ (fun _ => True)). destruct r; cbn [perform].
  - apply confined_write.
  - apply confined_SetMode.
  - apply confined_SetOwnership.
  - apply confined_SetOwnershipRecursive.
  - unfold Copy. repeat (apply confined_guard; intros _). apply confined_bind_ok; [apply confined_run; tool|]. intros _.
    apply confined_bind_ok; [apply confined_when; intros _; apply confined_SetMode|]. intros _.
    apply confined_when. intros _. apply confined_SetOwnership.
  - unfold CopyTree. repeat (apply confined_guard; intros _). apply confined_bind_ok; [apply confined_run; tool|]. intros _.
    apply confined_bind_ok; [apply confined_when; intros _; apply confined_SetMode|]. intros _.
    apply confined_when. intros _. apply confined_SetOwnershipRecursive.
  - unfold Mkdir. apply confined_guard. intros Hp%ValidatePath_undashed.
    apply confined_bind_ok; [apply confined_run; destruct (Recursive opts); tool|]. intros _.
    apply confined_bind_ok; [apply confined_when; intros _; apply confined_SetMode|]. intros _.
    apply confined_when. intros _. apply confined_SetOwnership.
  - unfold Remove. apply confined_guard. intros _. apply confined_rm.
  - apply confined_rm_rf.
  - apply confined_quietly. unfold ReadFile. apply confined_guard. intros Hp%ValidatePath_undashed. destruct (direct b).
    + by split.
    + cbn [bind ask wp]. split; [|done]. cbn [request_of on_run]. tool.
  - apply confined_quietly. unfold Exists. apply confined_guard. intros Hp%ValidatePath_undashed. destruct (direct b).
    + by split.
    + cbn [bind ask wp]. split; [|done]. cbn [request_of on_run]. tool.
  - apply confined_quietly. unfold ReadDir. apply confined_guard. intros Hp. destruct (direct b).
    + by split.
    + unfold readDirEscalated. cbn [bind ask wp]. split; [|done]. cbn [request_of on_run].
      pose proof (undashed_app path [SLASH] (ValidatePath_ne _ Hp) (ValidatePath_undashed _ Hp)). unfold find_argv. tool.
  - apply confined_quietly. unfold IsReadOnly. apply confined_guard. intros Hp%ValidatePath_undashed.
    apply confined_bind_ok; [apply confined_query; tool|done].
  - apply confined_quietly. unfold ListMounts. apply confined_bind_ok; [apply confined_query; tool|done].
  - unfold RemountRW. apply confined_guard. intros _. apply confined_run. tool.
Qed.

(** ** An escalated write looks at the parent first *)

(** In every run of [WriteFile] under sudo or doas, the root shell starts only after the
    parent directory of the target was seen to belong to root and to be writable by
    nobody else, or to have the sticky bit; nothing else is run. *)
Theorem escalated_write_guarded {S} (h : handler S) s b path data opts pre c i a post :
  b <> Direct ->
  history h s (WriteFile b path data opts) = pre ++ EvRun c i a :: post ->
  Name c = str "sh" /\ i = data /\ exists fi, EvOs (OsStat (Dir path)) (Ok fi) ∈ pre /\ parent_safe fi = true.
Proof.
  intros Hb. set (P := fun (tr : list event) (c : Command) (i : gostring) => Name c = str "sh" /\ i = data /\
    exists fi, EvOs (OsStat (Dir path)) (Ok fi) ∈ tr /\ parent_safe fi = true).
  assert (Hw : wpg log_event (ok_run P) (WriteFile b path data opts) [] (fun _ _ => True)).
  { unfold WriteFile, guard, direct. rewrite (bool_decide_false (b = Direct)) by done. wph_step. wph_step; [done|].
    destruct x; [done|]. destruct (ValidatePath path); [|done]. destruct (validateMode _); [|done].
    destruct (if bool_decide _ then _ else _); [|done]. unfold writeEscalated, escalatedParentSafe, sys.
    wph_step. wph_step. wph_step. wph_step; [done|]. destruct x as [fi|]; [|done]. cbn [wpg].
    destruct (parent_safe fi) eqn:Hs; [|done]. wph_step. wph_step; [|done].
    split; [done|]. split; [done|]. exists fi. split; [|done]. apply elem_of_app. right. by left. }
  intros Hh. destruct (wph_run P h s _ _ Hw) as [HP _]. by apply HP in Hh.
Qed.

(** ** Listings *)

Lemma trim_lines ls :
  Forall (fun l => l <> [] /\ NL ∉ l) ls ->
  split_byte (trim_right_set (Ini.unlines ls) [NL]) NL = match ls with [] => [[]] | _ => ls end.
Proof.
  destruct ls as [|l ls _] using rev_ind; [done|]. intros [Hls [Hne Hl]%list.Forall_singleton]%list.Forall_app.
  assert (trim_right_set (Ini.unlines (ls ++ [l])) [NL] = Ini.unlines ls ++ l) as ->.
  { rewrite Ini.unlines_app. unfold Ini.unlines at 2. cbn [map concat]. rewrite app_nil_r, app_assoc.
    unfold trim_right_set. rewrite rev_unit. cbn [trim_left_set]. rewrite bool_decide_true by (by apply list_elem_of_singleton).
    destruct l as [|x l _] using rev_ind; [done|]. rewrite app_assoc, rev_unit. cbn [trim_left_set].
    rewrite bool_decide_false by (rewrite list_elem_of_singleton; intros ->; apply Hl, elem_of_app; right; left).
    by rewrite <- rev_unit, rev_involutive. }
  transitivity (ls ++ [l]); [|by destruct ls].
  induction Hls as [|x ls [_ Hx] _ IH]; cbn [Ini.unlines map concat app]; [by apply split_byte_self|].
  rewrite <- !app_assoc. cbn [app]. rewrite split_byte_app by done. f_equal. exact IH.
Qed.

(** What [find -printf '%y/%f\n'] prints for the entries of a directory. *)
Definition find_line (e : gostring * ascii) : gostring := e.2 :: SLASH :: e.1.
Definition entry_ok (e : gostring * ascii) : bool :=
  negb (bool_decide (e.1 = [])) && negb (bool_decide (NL ∈ e.1)) && negb (bool_decide (e.2 ∈ [SLASH; NL])).

Lemma dir_line_entry e : entry_ok e = true -> dir_line (find_line e) = Some (e.1, bool_decide (e.2 = "d"%char)).
Proof.
  destruct e as [name ty]. intros [[Hn _]%andb_prop Ht]%andb_prop. cbn [fst snd] in *.
  apply negb_true_iff, bool_decide_eq_false in Hn, Ht. unfold find_line, dir_line. cbn [fst snd].
  change (ty :: SLASH :: name) with ([ty] ++ SLASH :: name).
  rewrite cut_app by (intros H%list_elem_of_singleton; apply Ht; rewrite <- H; left).
  rewrite !bool_decide_false by done. cbn [orb]. do 2 f_equal. apply bool_decide_ext. split; [by intros [= ->]|by intros ->].
Qed.

(** Whatever a directory holds, with any names but those with a newline in them, the
    escalated listing is the list of its entries, each with whether it is a directory. *)
Theorem readdir_roundtrip es :
  forallb entry_ok es = true ->
  parse_dir (Ini.unlines (map find_line es)) = map (fun e => (e.1, bool_decide (e.2 = "d"%char))) es.
Proof.
  intros Hes. rewrite forallb_forall in Hes. unfold parse_dir. rewrite trim_lines.
  - assert (omap dir_line (map find_line es) = map (fun e => (e.1, bool_decide (e.2 = "d"%char))) es) as <-; [|by destruct es].
    induction es as [|e es IH]; [done|]. cbn [map omap list_omap]. rewrite dir_line_entry by (apply Hes; by left).
    f_equal. apply IH. intros x Hx. apply Hes. by right.
  - apply List.Forall_map, List.Forall_forall. intros [name ty] He%Hes. split; [done|].
    unfold entry_ok in He. cbn [fst snd] in He. apply andb_prop in He as [[_ Hn]%andb_prop Ht].
    apply negb_true_iff, bool_decide_eq_false in Hn, Ht. unfold find_line. cbn [fst snd].
    rewrite !not_elem_of_cons in *. split; [by intros <-; tauto|]. split; [done|done].
Qed.
Lemma readdir_roundtrip_witness :
  forallb entry_ok [(str "a b", "f"%char); (str "sub", "d"%char); (str "-x", "l"%char)] = true /\
  parse_dir (Ini.unlines (map find_line [(str "a b", "f"%char); (str "sub", "d"%char); (str "-x", "l"%char)])) =
  [(str "a b", false); (str "sub", true); (str "-x", false)].
Proof.
  split; [reflexivity|].
  rewrite (readdir_roundtrip [(str "a b", "f"%char); (str "sub", "d"%char); (str "-x", "l"%char)] eq_refl). reflexivity.
Defined.

(** A row of [findmnt -rn -o SOURCE,TARGET,FSTYPE,OPTIONS]: four words, the last a list of
    options. *)
Record mount_row := MkMountRow { m_source : gostring; m_target : gostring; m_type : gostring; m_options : list gostring }.
Definition row_line (r : mount_row) : gostring :=
  join [m_source r; m_target r; m_type r; join (m_options r) (str ",")] (str " ").
Definition row_ok (r : mount_row) : bool :=
  word (m_source r) && word (m_target r) && word (m_type r) && negb (bool_decide (m_options r = [])) &&
  forallb (fun o => word o && negb (bool_decide (","%char ∈ o))) (m_options r).

Lemma row_parse r : row_ok r = true ->
  mount_line (row_line r) = Some (MkMountInfo (m_source r) (m_target r) (m_type r) (bool_decide (str "ro" ∈ m_options r))) /\
  row_line r <> [] /\ NL ∉ row_line r.
Proof.
  destruct r as [src tgt ty opts]. unfold row_ok, row_line. cbn [m_source m_target m_type m_options].
  intros [[[[Hs Ht]%andb_prop Hy]%andb_prop Hne]%andb_prop Ho]%andb_prop. apply negb_true_iff, bool_decide_eq_false in Hne.
  rewrite forallb_forall in Ho.
  assert (Hopts : Forall (fun w => word w = true) opts /\ Forall (fun w => (","%char) ∉ w) opts).
  { split; apply List.Forall_forall; intros o [Hw Hc]%Ho%andb_prop; [done|]. by apply negb_true_iff, bool_decide_eq_false in Hc. }
  destruct Hopts as [Hw Hc].
  assert (Hj : word (join opts (str ",")) = true).
  { destruct Hw as [|o opts Hw1 Hw2]; [done|]. destruct opts as [|o' opts]; [done|]. cbn [join]. apply word_app; [done|].
    rewrite forallb_app. apply andb_true_intro. split; [done|]. apply (forallb_join visible (o' :: opts) (str ",")); [done|].
    eapply list.Forall_impl; [exact Hw2|]. by intros w [_ H]%word_spec. }
  assert (Hall : Forall (fun w => word w = true) [src; tgt; ty; join opts (str ",")]) by by repeat constructor.
  split; [|split].
  - unfold mount_line. rewrite fields_join by done. unfold mountOptionsReadOnly. do 2 f_equal. 
    apply bool_decide_ext. by rewrite (split_join ","%char) by done.
  - apply word_spec in Hs as [Hs _]. destruct src; [done|]. done.
  - intros Hin. assert (Hv : forallb (fun c => visible c || bool_decide (c = " "%char)) (join [src; tgt; ty; join opts (str ",")] (str " ")) = true).
    { apply forallb_join; [done|]. eapply list.Forall_impl; [exact Hall|]. intros w [_ H]%word_spec.
      eapply forallb_mono; [|exact H]. intros c ->. done. }
    rewrite forallb_forall in Hv. apply list_elem_of_In, Hv in Hin. by vm_compute in Hin.
Qed.

(** The mounts [findmnt] prints are read back row by row, and a mount is read-only
    exactly when [ro] is one of its options. *)
Theorem mounts_roundtrip rs :
  forallb row_ok rs = true ->
  parse_mounts (Ini.unlines (map row_line rs)) =
  map (fun r => MkMountInfo (m_source r) (m_target r) (m_type r) (bool_decide (str "ro" ∈ m_options r))) rs.
Proof.
  intros Hrs. rewrite forallb_forall in Hrs. unfold parse_mounts. rewrite trim_lines.
  - set (f := fun line => _). transitivity (omap f (map row_line rs)); [by destruct rs|].
    induction rs as [|r rs IH]; [done|]. cbn [map omap list_omap].
    destruct (row_parse r) as (Hp & Hn & _); [apply Hrs; by left|].
    assert (f (row_line r) = mount_line (row_line r)) as -> by (unfold f; rewrite (bool_decide_false (row_line r = [])) by exact Hn; reflexivity).
    rewrite Hp. f_equal. apply IH. intros x Hx. apply Hrs. by right.
  - apply List.Forall_map, List.Forall_forall. intros r Hr%Hrs. apply row_parse in Hr as (_ & H1 & H2). by split.
Qed.
Definition root_row : mount_row := MkMountRow (str "/dev/sda1") (str "/") (str "ext4") [str "rw"; str "errors=remount-ro"].
Definition usr_row : mount_row := MkMountRow (str "/dev/sda2") (str "/usr") (str "ext4") [str "ro"; str "relatime"].
Lemma mounts_roundtrip_witness :
  forallb row_ok [root_row; usr_row] = true /\
  map ReadOnly (parse_mounts (Ini.unlines (map row_line [root_row; usr_row]))) = [false; true].
Proof. split; [reflexivity|]. rewrite (mounts_roundtrip [root_row; usr_row] eq_refl). reflexivity. Defined.

(** ** What the checks miss *)

(** The owner is an argument before the end-of-options marker of the [chown] in the
    script: one that starts with a dash is an option there. *)
Lemma owner_read_as_option target mode owner tmp :
  owner <> [] -> ShRun (str "chown" :: owner :: [str "--"; tmp]) ∈ with_temp target mode owner tmp.
Proof.
  intros Ho. unfold with_temp. rewrite bool_decide_false by done. cbn [negb]. apply elem_of_app. right.
  apply elem_of_app. left. by apply list_elem_of_singleton.
Qed.

(** A setuid mode is refused after the directory was created. *)
Definition yes_host : handler unit := command_host (fun s _ _ => (s, (MkResult 0 [] [], None))) absent absent.
Lemma mkdir_mode_late :
  let p := Mkdir (str "/opt/app") (MkMkdirOptions (ModeSetuid + 493) [] [] false) in
  (run yes_host tt p).2 = Err (ErrUnsafeMode (str "4755")) /\
  map (fun ci => Name ci.1) (commands yes_host tt p) = [str "mkdir"].
Proof. vm_compute. split; reflexivity. Qed.

(** An owner of -1 is accepted and means that the owner stays as it is; ids beyond 32 bits
    are accepted too. *)
Lemma owner_numbers_unchecked :
  (run yes_host tt (ResolveOwnership (str "-1") [])).2 = Ok (-1, -1)%Z /\
  (run yes_host tt (ResolveOwnership (str "4294967296") [])).2 = Ok (4294967296, -1)%Z.
Proof. vm_compute. split; reflexivity. Qed.

(** The open before the backup waits for a writer when the target is a pipe: it is made
    without [O_NONBLOCK], and before the check that the target is a regular file. *)
Lemma backup_open_blocks path backup data perm {S} (h : handler S) s :
  exists rest, asked h s (safeBackupAndReplace path backup data perm true) =
    QOs (OsOpenFile path [O_RDONLY; O_NOFOLLOW] 0) :: rest /\ O_NONBLOCK ∉ [O_RDONLY; O_NOFOLLOW].
Proof. eexists. split; [reflexivity|]. by apply (bool_decide_unpack _). Qed.

(** A host where directories belong to root. *)
Definition root_dir : FileInfo := MkFileInfo true false 493 false (Some 0%Z) 0 (0, 0)%Z.
Definition root_dirs : handler unit :=
  fun X s c => match c in call X return unit * X with
               | COs (OsStat _) => (s, Ok root_dir)
               | c' => yes_host _ s c'
               end.
Lemma escalated_write_guarded_witness :
  exists fi, EvOs (OsStat (Dir (str "/etc/motd"))) (Ok fi) ∈ [EvOther QCtxErr; EvOs (OsStat (Dir (str "/etc/motd"))) (Ok root_dir)] /\
             parent_safe fi = true.
Proof.
  destruct (escalated_write_guarded root_dirs tt Sudo (str "/etc/motd") (str "hi") (MkWriteOptions 0 [] [] [])
    [EvOther QCtxErr; EvOs (OsStat (Dir (str "/etc/motd"))) (Ok root_dir)]
    (priv (str "sh") (write_argv (str "/etc/motd") (MkWriteOptions 0 [] [] []))) (str "hi") (MkResult 0 [] [], None) [])
    as (_ & _ & fi & H); [discriminate|vm_compute; reflexivity|]. exists fi. exact H.
Defined.
End FsOps.
