(* ===== verification/RemoteHttp.v ===== *)
(** * HTTP sources ([src/sys/remote/http.go], [http_archive.go], [fetch_bytes.go])

    Configuration, redirects, the download of a file, the extraction of an archive into a
    staging directory, and the in-memory download.  A fetch is a program over the host,
    which also answers HTTP requests; URL parsing, the hash function and the decoding of
    tar and zip streams are parameters, and so are the views of the file system that the
    destination guard and the recording of a destination take. *)
From S2P Require Import Prelude Paths FsGuard Exec HostProg Words Remote RemoteTree HostCmd Fs.

Module RemoteHttp.
Import HostProg Paths FsGuard Remote Fs.

Inductive fetch_error :=
| ErrInvalidConfig (what : gostring)
| ErrUnsafeDest (e : dest_error)
| ErrUnsafeEntry (entry : gostring)
| ErrIntegrity (what : gostring)
| ErrIO (what : gostring)
| ErrFsys (e : fs_error)
| ErrStatus (code : Z)
| ErrBackendNotFound (driver : gostring).

(** What is read of a parsed URL. *)
Record URL := MkURL { u_Scheme : gostring; u_Host : gostring; u_User : bool; u_Fragment : gostring; u_Path : gostring }.

Record HTTPConfig := MkHTTPConfig {
  URL_ : gostring; ChecksumSHA256 : gostring; Extract : bool; Prune : bool; MaxBytes : Z;
  Mode : gostring; Owner : gostring; Group : gostring; Redirect : Z
}.

Record FetchResult := MkResult_ {
  Changed : bool; BytesWritten : Z; FilesTouched : nat; Digest : gostring; Revision : gostring
}.

Definition defaultHTTPMaxBytes : Z := 2147483648.
Definition defaultBytesMaxBytes : Z := 67108864.

(** ** Redirects *)

Definition RedirectSameOrigin : Z := 0.
Definition RedirectNone : Z := 1.
Definition RedirectCrossOrigin : Z := 2.

(** [redirectPolicy]: whether a request to [to] may follow the requests [via]. *)
Definition redirectPolicy (p : Z) (to : URL) (via : list URL) : result fetch_error unit :=
  match list.last via with
  | None => Ok tt
  | Some from =>
      if bool_decide (u_Scheme from = str "https") && bool_decide (u_Scheme to = str "http") then Err (ErrInvalidConfig (str "downgrade"))
      else
        let? _ := (if (p =? RedirectNone)%Z then Err (ErrInvalidConfig (str "policy: none"))
                   else if (p =? RedirectSameOrigin)%Z then
                     if negb (bool_decide (u_Scheme to = u_Scheme from)) || negb (bool_decide (u_Host to = u_Host from))
                     then Err (ErrInvalidConfig (str "cross-origin")) else Ok tt
                   else if (p =? RedirectCrossOrigin)%Z then Ok tt
                   else Err (ErrInvalidConfig (str "unknown redirect policy"))) in
        if 10 <=? length via then Err (ErrInvalidConfig (str "stopped after 10 redirects")) else Ok tt
  end.

(** ** Configuration *)

(** [strconv.ParseUint(mode, 8, 32)]. *)
Definition is_octal (c : ascii) : bool := in_range "0"%char "7"%char c.
Definition octal_val (s : gostring) : N := fold_left (fun v c => v * 8 + (byte_val c - 48))%N s 0%N.
Definition parse_octal (s : gostring) : option N :=
  match s with
  | [] => None
  | _ => if forallb is_octal s && (octal_val s <? 2 ^ 32)%N then Some (octal_val s) else None
  end.

Definition validateModeBits (mode : gostring) : result fetch_error unit :=
  if bool_decide (mode = []) then Ok tt
  else match parse_octal mode with
       | None => Err (ErrInvalidConfig (str "invalid mode"))
       | Some bits => if negb (N.land bits 3584 =? 0)%N then Err (ErrInvalidConfig (str "privileged bits")) else Ok tt
       end.

Definition validateHTTPConfig (cfg : HTTPConfig) : result fetch_error unit :=
  if Prune cfg && negb (Extract cfg) then Err (ErrInvalidConfig (str "prune requires extract"))
  else if Extract cfg && Prune cfg && bool_decide (ChecksumSHA256 cfg = []) then Err (ErrInvalidConfig (str "extract+prune requires a checksum"))
  else if (MaxBytes cfg <? 0)%Z then Err (ErrInvalidConfig (str "negative max_bytes"))
  else validateModeBits (Mode cfg).

Definition CRb : ascii := "013"%char.
Definition NULb : ascii := "000"%char.

(** [hex.DecodeString]. *)
Definition hex_val (c : ascii) : option N :=
  if is_digit c then Some (byte_val c - 48)%N
  else if in_range "a"%char "f"%char c then Some (byte_val c - 87)%N
  else if in_range "A"%char "F"%char c then Some (byte_val c - 55)%N
  else None.
Fixpoint hex_decode (s : gostring) : option gostring :=
  match s with
  | [] => Some []
  | a :: b :: s' =>
      x ← hex_val a; y ← hex_val b; rest ← hex_decode s'; Some (ascii_of_N (x * 16 + y)%N :: rest)
  | [_] => None
  end.

(** The concrete source; [revision] is the state a fetch leaves behind. *)
Record httpSource := MkSource { cfg : HTTPConfig; checksum : option gostring; revision : gostring }.
Definition set_revision (h : httpSource) (r : gostring) : httpSource := MkSource (cfg h) (checksum h) r.

Definition set_url_max (c : HTTPConfig) (u : gostring) (m : Z) : HTTPConfig :=
  MkHTTPConfig u (ChecksumSHA256 c) (Extract c) (Prune c) m (Mode c) (Owner c) (Group c) (Redirect c).

Section Parse.
Context (Parse : gostring -> option URL).

Definition parseHTTPURL (raw : gostring) : result fetch_error URL :=
  if bool_decide (trim_space raw = []) then Err (ErrInvalidConfig (str "url is empty"))
  else if contains_any raw [NULb; NL; CRb] then Err (ErrInvalidConfig (str "control characters"))
  else match Parse raw with
       | None => Err (ErrInvalidConfig (str "parse"))
       | Some u =>
           if bool_decide (u_Scheme u = []) then Err (ErrInvalidConfig (str "not absolute"))
           else if negb (bool_decide (u_Scheme u = str "https")) && negb (bool_decide (u_Scheme u = str "http")) then Err (ErrInvalidConfig (str "scheme"))
           else if u_User u then Err (ErrInvalidConfig (str "userinfo"))
           else if negb (bool_decide (u_Fragment u = [])) then Err (ErrInvalidConfig (str "fragment"))
           else if bool_decide (u_Host u = []) then Err (ErrInvalidConfig (str "no host"))
           else Ok u
       end.

Definition newHTTPSource (c : HTTPConfig) : result fetch_error httpSource :=
  let c := set_url_max c (trim_space (URL_ c)) (MaxBytes c) in
  let? _ := validateHTTPConfig c in
  let? _ := parseHTTPURL (URL_ c) in
  let? sum := (if bool_decide (ChecksumSHA256 c = []) then Ok None
               else match hex_decode (to_lower (ChecksumSHA256 c)) with
                    | Some b => if length b =? 32 then Ok (Some b) else Err (ErrInvalidConfig (str "checksum"))
                    | None => Err (ErrInvalidConfig (str "checksum"))
                    end) in
  let c := if (MaxBytes c <=? 0)%Z then set_url_max c (URL_ c) defaultHTTPMaxBytes else c in
  Ok (MkSource c sum []).

Definition NewHTTP (c : HTTPConfig) : result fetch_error httpSource := newHTTPSource c.
End Parse.

(** ** Requests *)

Definition http (method url etag : gostring) : prog (result fetch_error http_response) :=
  let! r := ask (COs (OsHttp method url etag)) in
  Ret (match r with Ok a => Ok a | Err e => Err (ErrIO e) end).

Definition checkNotModified (url etag : gostring) : prog (result fetch_error bool) :=
  let!? resp := http (str "HEAD") url etag in
  Ret (Ok (StatusCode resp =? 304)%Z).

(** The response of a GET whose body is to be read. *)
Definition openBody (url etag : gostring) : prog (result fetch_error http_response) :=
  let!? resp := http (str "GET") url etag in
  Ret (if (StatusCode resp =? 304)%Z then Ok (MkResponse 304 (ETag resp) (ContentType resp) [] None)
       else if (StatusCode resp <? 200)%Z || (300 <=? StatusCode resp)%Z then Err (ErrStatus (StatusCode resp))
       else Ok resp).

Definition openArchiveBody (url etag : gostring) : prog (result fetch_error (http_response * bool)) :=
  let!? resp := http (str "GET") url etag in
  Ret (if (StatusCode resp =? 304)%Z then Ok (MkResponse 304 (ETag resp) (ContentType resp) [] None, true)
       else if (StatusCode resp <? 200)%Z || (300 <=? StatusCode resp)%Z then Err (ErrStatus (StatusCode resp))
       else Ok (resp, false)).

(** ** Streaming to a temporary file *)

Definition io (what : gostring) (c : call (option fs_err)) : prog (result fetch_error unit) :=
  let! r := ask c in Ret (match r with None => Ok tt | Some _ => Err (ErrIO what) end).

Definition tmpPathFor (dest : gostring) : prog (result fetch_error gostring) :=
  let! r := ask (COs (OsRand 8)) in
  Ret (match r with
       | Some b => Ok (dest ++ str ".tmp." ++ RemoteTree.hex b)
       | None => Err (ErrIO (str "generate staging-file suffix"))
       end).

(** What a reader limited to [n] bytes delivers of a body, and its error. *)
Definition limited (n : Z) (body : gostring) (err : option gostring) : gostring * option gostring :=
  if (n <=? Z.of_nat (length body))%Z then (take (Z.to_nat n) body, None) else (body, err).

(** [io.Copy] into an open file. *)
Definition copy_to (f : nat) (d : gostring * option gostring) : prog (result fetch_error Z) :=
  let!? _ := io (str "write") (COs (OsFWrite f d.1)) in
  Ret (match d.2 with None => Ok (Z.of_nat (length d.1)) | Some e => Err (ErrIO e) end).

Definition on_error {A} (p : prog (result fetch_error A)) (cleanup : prog unit) : prog (result fetch_error A) :=
  let! r := p in
  match r with
  | Ok a => Ret (Ok a)
  | Err e => let! _ := cleanup in Ret (Err e)
  end.

Section Fetch.
Context (sha256 : gostring -> gostring).

Definition create_excl (tmp : gostring) : prog (result fetch_error nat) :=
  let! r := ask (COs (OsCreate tmp true 384)) in
  match r with
  | Ok f => Ret (Ok f)
  | Err CreateExist =>
      let! _ := ignore (COs (OsRemove tmp)) in
      let! r' := ask (COs (OsCreate tmp true 384)) in
      Ret (match r' with Ok f => Ok f | Err _ => Err (ErrIO (str "open tmp")) end)
  | Err _ => Ret (Err (ErrIO (str "open tmp")))
  end.

(** The path of the temporary file, the bytes written and their hash. *)
Definition streamToTmp (dest : gostring) (resp : http_response) (maxBytes : Z)
    : prog (result fetch_error (gostring * Z * gostring)) :=
  let!? tmp := tmpPathFor dest in
  let!? _ := io (str "mkdir") (COs (OsMkdirAll (Dir tmp) 493)) in
  let!? f := create_excl tmp in
  let drop := seq (close f) (ignore (COs (OsRemove tmp))) in
  let data := limited (Exec.wrap64 (maxBytes + 1)) (Body resp) (BodyErr resp) in
  let!? n := on_error (copy_to f data) drop in
  let!? _ := on_error (Ret (if (maxBytes <? n)%Z then Err (ErrIntegrity (str "payload exceeds the limit")) else Ok tt)) drop in
  let!? _ := on_error (io (str "fsync") (COs (OsFSync f))) drop in
  let!? _ := on_error (io (str "close") (COs (OsFClose f))) (ignore (COs (OsRemove tmp))) in
  Ret (Ok (tmp, n, sha256 data.1)).

Definition lift {A} (p : prog (result fs_error A)) : prog (result fetch_error A) :=
  let! r := p in Ret (match r with Ok a => Ok a | Err e => Err (ErrFsys e) end).

Definition chownNoFollow (dest : gostring) (uid gid : Z) : prog (result fs_error unit) :=
  let!? info := sys (str "lstat") (COs (OsLstat dest)) in
  if fi_dir info then
    let!? d := OpenRealDir dest in
    finally (sys_do (str "chown") (COs (OsFChown d uid gid))) (close d)
  else FchownNoFollow dest uid gid.

Definition applyMode (dest mode owner group : gostring) : prog (result fetch_error unit) :=
  let!? _ := (if bool_decide (mode = []) then Ret (Ok tt)
              else match parse_octal mode with
                   | None => Ret (Err (ErrIO (str "invalid mode")))
                   | Some bits => io (str "chmod") (COs (OsChmod dest bits))
                   end) in
  if negb (bool_decide (owner = [])) || negb (bool_decide (group = [])) then
    let!? (uid, gid) := lift (ResolveOwnership owner group) in
    lift (chownNoFollow dest uid gid)
  else Ret (Ok tt).

(** The view of the file system of the destination guard, and the one after the fetch. *)
Context (fs fs_after : FileSystem).

(** What a source and the process remember. *)
Definition state : Type := httpSource * Recorded.

Definition dest_ok (dest : gostring) : result fetch_error unit :=
  match validateDestination fs dest with Ok _ => Ok tt | Err e => Err (ErrUnsafeDest e) end.
Definition unchanged (r : gostring) : FetchResult := MkResult_ false 0 0 [] r.

(** The result of a fetch with the state it leaves: an error leaves it as it is. *)
Definition outcome : Type := state * result fetch_error FetchResult.
Definition keep {A} (s : state) (p : prog (result fetch_error A)) (k : A -> prog outcome) : prog outcome :=
  let! r := p in match r with Ok a => k a | Err e => Ret (s, Err e) end.

(** Ask the origin whether the cached revision is current. *)
Definition not_modified (h : httpSource) : prog (result fetch_error bool) :=
  if bool_decide (revision h = []) then Ret (Ok false) else checkNotModified (URL_ (cfg h)) (revision h).

Definition pinned (h : httpSource) (sum : gostring) : bool :=
  match checksum h with Some c => bool_decide (sum = c) | None => true end.

(** [Fetch] of a single file. *)
Definition fetchFile (s : state) (dest : gostring) : prog outcome :=
  let '(h, rec) := s in
  keep s (Ret (dest_ok dest)) (fun _ =>
  keep s (not_modified h) (fun nm =>
  if nm then Ret (s, Ok (unchanged (revision h)))
  else
    keep s (openBody (URL_ (cfg h)) (revision h)) (fun resp =>
    keep s (streamToTmp dest resp (MaxBytes (cfg h))) (fun t =>
      let '(tmp, written, sum) := t in
      if negb (pinned h sum) then
        let! _ := ignore (COs (OsRemove tmp)) in Ret (s, Err (ErrIntegrity (str "sha256 mismatch")))
      else
        keep s (on_error (io (str "rename") (COs (OsRename tmp dest))) (ignore (COs (OsRemove tmp)))) (fun _ =>
        keep s (applyMode dest (Mode (cfg h)) (Owner (cfg h)) (Group (cfg h))) (fun _ =>
          let rev := if bool_decide (ETag resp = []) then RemoteTree.hex sum else ETag resp in
          Ret ((set_revision h rev, RecordDest fs_after rec dest),
               Ok (MkResult_ true written 1 (RemoteTree.hex sum) rev)))))))).

(** ** Archives ([http_archive.go]) *)

Inductive archiveKind := archiveUnknown | archiveTarGz | archiveZip | archiveTarXz.

Definition strip_query (s : gostring) : gostring :=
  (fix go s := match s with
               | [] => []
               | c :: s' => if bool_decide (c = "?"%char) || bool_decide (c = "#"%char) then [] else c :: go s'
               end) s.
Definition detectArchiveKind (contentType rawURL : gostring) : archiveKind :=
  let ct := to_lower (trim_space contentType) in
  let among l := bool_decide (ct ∈ l) in
  if among [str "application/gzip"; str "application/x-gzip"; str "application/x-tar+gzip"; str "application/x-tgz"] then archiveTarGz
  else if among [str "application/zip"; str "application/x-zip"; str "application/x-zip-compressed"] then archiveZip
  else if among [str "application/x-xz"; str "application/x-tar+xz"] then archiveTarXz
  else
    let u := strip_query (to_lower rawURL) in
    if has_suffix u (str ".tar.gz") || has_suffix u (str ".tgz") then archiveTarGz
    else if has_suffix u (str ".zip") then archiveZip
    else if has_suffix u (str ".tar.xz") || has_suffix u (str ".txz") then archiveTarXz
    else archiveUnknown.

(** [utf8.ValidString] and [fs.ValidPath]. *)
Fixpoint valid_utf8_from (fuel : nat) (s : gostring) : bool :=
  match fuel, s with
  | S fuel, b :: s' =>
      let '(r, rest) := Runes.decode b s' in
      negb ((r =? Runes.RuneError)%N && (length rest =? length s')) && valid_utf8_from fuel rest
  | _, _ => true
  end.
Definition valid_utf8 (s : gostring) : bool := valid_utf8_from (length s) s.
Definition ValidPath (s : gostring) : bool :=
  valid_utf8 s &&
  (bool_decide (s = dot) ||
   forallb (fun e => negb (bool_decide (e = []) || bool_decide (e = dot) || bool_decide (e = dotdot))) (split_byte s SLASH)).

(** [filepath.IsLocal] and [filepath.Localize] on Unix. *)
Definition IsLocal (s : gostring) : bool :=
  negb (bool_decide (s = [])) && negb (IsAbs s) &&
  (let t := if existsb (fun e => bool_decide (e = dot) || bool_decide (e = dotdot)) (split_byte s SLASH) then Clean s else s in
   negb (bool_decide (t = dotdot) || has_prefix t (str "../"))).
Definition Localize (s : gostring) : option gostring :=
  if negb (ValidPath s) then None else if bool_decide (NULb ∈ s) then None else Some s.

Definition BACKSLASH : ascii := "092"%char.
(** [safeJoinDest], with the working directory [filepath.Abs] needs. *)
Definition safeJoinDest (cwd : option gostring) (staging entry : gostring) : result fetch_error gostring :=
  if bool_decide (entry = []) || bool_decide (entry = dot) then Err (ErrUnsafeEntry entry)
  else if bool_decide (NULb ∈ entry) then Err (ErrUnsafeEntry entry)
  else
    let trimmed := trim_right_set entry [SLASH; BACKSLASH] in
    if bool_decide (trimmed = []) || bool_decide (trimmed = dot) then Err (ErrUnsafeEntry entry)
    else if negb (IsLocal trimmed) then Err (ErrUnsafeEntry entry)
    else match Localize trimmed with
         | None => Err (ErrUnsafeEntry entry)
         | Some localized =>
             let full := Join [staging; localized] in
             match Abs cwd staging, Abs cwd full with
             | Some stagingAbs, Some fullAbs =>
                 if negb (has_prefix fullAbs (stagingAbs ++ [SLASH])) && negb (bool_decide (fullAbs = stagingAbs))
                 then Err (ErrUnsafeEntry entry) else Ok full
             | _, _ => Err (ErrUnsafeEntry entry)
             end
         end.

(** Entries as the tar and zip readers yield them: the bytes an entry delivers, and the
    error that ends it. *)
Inductive tar_type := TypeReg | TypeDir | TypeOther.
Record tar_entry := MkTar { t_name : gostring; t_type : tar_type; t_size : Z; t_perm : N; t_body : gostring; t_err : option gostring }.
Record zip_entry := MkZip { z_name : gostring; z_dir : bool; z_size : Z; z_perm : N; z_open : result gostring (gostring * option gostring) }.

Definition writeTarEntry (out : gostring) (d : gostring * option gostring) (mode : N) : prog (result fetch_error Z) :=
  let! r := ask (COs (OsCreate out false mode)) in
  match r with
  | Err _ => Ret (Err (ErrIO (str "open")))
  | Ok f => finally (copy_to f d) (close f)
  end.

(** The loop state: bytes and files so far; the error carries nothing back but itself. *)
Definition counted (total : Z) (files : nat) (written maxBytes : Z) : result fetch_error (Z * nat) :=
  let total' := Exec.wrap64 (total + written) in
  if (maxBytes <? total')%Z then Err (ErrIntegrity (str "cumulative size")) else Ok (total', S files).

Definition tar_step (cwd : option gostring) (staging : gostring) (maxBytes : Z) (st : Z * nat) (e : tar_entry)
    : prog (result fetch_error (Z * nat)) :=
  let '(total, files) := st in
  match t_type e with
  | TypeOther => Ret (Err (ErrUnsafeEntry (t_name e)))
  | TypeDir =>
      let!? out := Ret (safeJoinDest cwd staging (t_name e)) in
      let!? _ := io (str "mkdir") (COs (OsMkdirAll out 493)) in
      Ret (Ok st)
  | TypeReg =>
      let!? out := Ret (safeJoinDest cwd staging (t_name e)) in
      if (t_size e <? 0)%Z then Ret (Err (ErrIntegrity (str "negative size")))
      else if (maxBytes <? Exec.wrap64 (total + t_size e))%Z then Ret (Err (ErrIntegrity (str "cumulative size")))
      else
        let!? _ := io (str "mkdir") (COs (OsMkdirAll (Dir out) 493)) in
        let!? written := writeTarEntry out (t_body e, t_err e) (t_perm e) in
        Ret (counted total files written maxBytes)
  end.

Definition zip_step (cwd : option gostring) (staging : gostring) (maxBytes : Z) (st : Z * nat) (e : zip_entry)
    : prog (result fetch_error (Z * nat)) :=
  let '(total, files) := st in
  let!? out := Ret (safeJoinDest cwd staging (z_name e)) in
  if has_suffix (z_name e) [SLASH] || z_dir e then
    let!? _ := io (str "mkdir") (COs (OsMkdirAll out 493)) in Ret (Ok st)
  else
    let declared := Exec.wrap64 (z_size e) in
    if (declared <? 0)%Z then Ret (Err (ErrIntegrity (str "negative uncompressed size")))
    else if (maxBytes <? Exec.wrap64 (total + declared))%Z then Ret (Err (ErrIntegrity (str "cumulative size")))
    else match z_open e with
         | Err m => Ret (Err (ErrIO m))
         | Ok (body, err) =>
             let!? _ := io (str "mkdir") (COs (OsMkdirAll (Dir out) 493)) in
             let!? written := writeTarEntry out (limited (Exec.wrap64 (Exec.wrap64 (maxBytes - total) + 1)) body err) (z_perm e) in
             Ret (counted total files written maxBytes)
         end.

(** The tar reader yields entries and then an error, or nothing more; [gzip.NewReader]
    may refuse the stream. *)
Context (untar : gostring -> result gostring (list tar_entry * option gostring))
        (unzip : gostring -> result gostring (list zip_entry)) (cwd : option gostring).

Definition extractTarGz (body staging : gostring) (maxBytes : Z) : prog (result fetch_error nat) :=
  match untar body with
  | Err m => Ret (Err (ErrIO m))
  | Ok (entries, end_err) =>
      let!? st := for_each (tar_step cwd staging maxBytes) entries (0%Z, 0) in
      Ret (match end_err with None => Ok st.2 | Some m => Err (ErrIO m) end)
  end.
Definition read_archive (tmpPath : gostring) : prog (result fetch_error gostring) :=
  let! r := ask (COs (OsOpenFile tmpPath [O_RDONLY] 0)) in
  match r with
  | Err _ => Ret (Err (ErrIO (str "open archive")))
  | Ok f =>
      let! d := ask (COs (OsFReadAll f)) in
      let! _ := close f in
      Ret (match d with Ok d => Ok d | Err _ => Err (ErrIO (str "read archive")) end)
  end.
Definition extractTarGzFile (tmpPath staging : gostring) (maxBytes : Z) : prog (result fetch_error nat) :=
  let!? body := read_archive tmpPath in extractTarGz body staging maxBytes.
Definition extractZipFile (tmpPath staging : gostring) (maxBytes : Z) : prog (result fetch_error nat) :=
  let!? body := read_archive tmpPath in
  match unzip body with
  | Err m => Ret (Err (ErrIO m))
  | Ok entries =>
      let!? st := for_each (zip_step cwd staging maxBytes) entries (0%Z, 0) in Ret (Ok st.2)
  end.

(** Replace the destination by the staging directory. *)
Definition swap (staging dest : gostring) : prog (result fetch_error unit) :=
  let! st := ask (COs (OsStat dest)) in
  let!? _ := (match st with
              | Ok _ => io (str "remove existing dest") (COs (OsRemoveAll dest))
              | Err _ => Ret (Ok tt)
              end) in
  let!? _ := io (str "mkdir") (COs (OsMkdirAll (Dir dest) 493)) in
  io (str "swap") (COs (OsRename staging dest)).

(** The digest of the tree that a walk of [dest] reports. *)
Context (tree_digest : gostring -> gostring).

Definition with_tmp (tmp : gostring) (p : prog outcome) : prog outcome :=
  let! r := p in let! _ := ignore (COs (OsRemove tmp)) in Ret r.

(** From the body on: classify, download, extract, swap. *)
Definition unpack (s : state) (dest : gostring) (resp : http_response) : prog outcome :=
  let '(h, rec) := s in
  match detectArchiveKind (ContentType resp) (URL_ (cfg h)) with
  | archiveTarXz => Ret (s, Err (ErrInvalidConfig (str "tar.xz")))
  | archiveUnknown => Ret (s, Err (ErrInvalidConfig (str "archive type")))
  | kind =>
      keep s (streamToTmp (dest ++ str ".dl") resp (MaxBytes (cfg h))) (fun t =>
        let '(tmp, written, sum) := t in
        with_tmp tmp (
        keep s (tmpPathFor (dest ++ str ".staging")) (fun staging =>
        keep s (io (str "mkdir staging") (COs (OsMkdirAll staging 493))) (fun _ =>
        let cleanup := ignore (COs (OsRemoveAll staging)) in
        keep s (on_error (match kind with
                          | archiveZip => extractZipFile tmp staging (MaxBytes (cfg h))
                          | _ => extractTarGzFile tmp staging (MaxBytes (cfg h))
                          end) cleanup) (fun files =>
        keep s (on_error (swap staging dest) cleanup) (fun _ =>
        keep s (applyMode dest (Mode (cfg h)) (Owner (cfg h)) (Group (cfg h))) (fun _ =>
          let rev := if bool_decide (ETag resp = []) then str "sha256:" ++ RemoteTree.hex sum else ETag resp in
          Ret ((set_revision h rev, RecordDest fs_after rec dest),
               Ok (MkResult_ true written files (tree_digest dest) rev)))))))))
  end.

Definition fetchArchive (s : state) (dest : gostring) : prog outcome :=
  let '(h, rec) := s in
  keep s (Ret (dest_ok dest)) (fun _ =>
  keep s (not_modified h) (fun nm =>
  if nm then Ret (s, Ok (unchanged (revision h)))
  else
    keep s (openArchiveBody (URL_ (cfg h)) (revision h)) (fun r =>
      let '(resp, nm') := r in
      if nm' then Ret (s, Ok (unchanged (revision h))) else unpack s dest resp))).

Definition Fetch (s : state) (dest : gostring) : prog outcome :=
  if Extract (cfg s.1) then fetchArchive s dest else fetchFile s dest.

Definition String_ (h : httpSource) : gostring :=
  str "http " ++ URL_ (cfg h) ++ str " [" ++ (if Extract (cfg h) then str "archive" else str "file") ++ str "]".

(** ** In memory ([fetch_bytes.go]) *)

Definition FetchBytes (Parse : gostring -> option URL) (c : HTTPConfig) : prog (result fetch_error gostring) :=
  if Extract c || Prune c then Ret (Err (ErrInvalidConfig (str "extract/prune")))
  else
    let c := if (MaxBytes c <=? 0)%Z then set_url_max c (URL_ c) defaultBytesMaxBytes else c in
    match newHTTPSource Parse c with
    | Err e => Ret (Err e)
    | Ok h =>
        let!? resp := openBody (URL_ (cfg h)) [] in
        let '(data, err) := limited (Exec.wrap64 (MaxBytes (cfg h) + 1)) (Body resp) (BodyErr resp) in
        Ret (match err with
             | Some m => Err (ErrIO m)
             | None =>
                 if (MaxBytes (cfg h) <? Z.of_nat (length data))%Z then Err (ErrIntegrity (str "payload exceeds the limit"))
                 else if pinned h (sha256 data) then Ok data else Err (ErrIntegrity (str "sha256 mismatch"))
             end)
    end.
End Fetch.
End RemoteHttp.
