(* ===== verification/RemoteFetch.v ===== *)
(** * HTTP sources: what a fetch may do ([src/sys/remote])

    Redirects keep the promises of their policy along a whole chain; an archive entry is
    written below the staging directory or refused, whatever the archive holds; a pinned
    file is only put in place with the pinned content; extraction writes no more than the
    limit. *)
From S2P Require Import Prelude Paths FsGuard Exec HostProg Words Remote RemoteTree Repo HostCmd Fs RemoteHttp.

Module RemoteFetch.
Import HostProg Paths FsGuard Remote Fs RemoteHttp.

(** ** Redirects *)

(** The requests of one fetch, first to last: each was allowed after those before it. *)
Definition followed (p : Z) (us : list URL) : Prop :=
  forall via to rest, us = via ++ to :: rest -> redirectPolicy p to via = Ok tt.

Lemma hop_allowed p from to via :
  redirectPolicy p to (via ++ [from]) = Ok tt ->
  length via < 9 /\ ~ (u_Scheme from = str "https" /\ u_Scheme to = str "http") /\ p <> RedirectNone /\
  (p = RedirectSameOrigin -> u_Scheme to = u_Scheme from /\ u_Host to = u_Host from).
Proof.
  unfold redirectPolicy. rewrite last_snoc.
  destruct (bool_decide (u_Scheme from = str "https") && bool_decide (u_Scheme to = str "http")) eqn:Ed; [done|].
  destruct (Z.eqb_spec p RedirectNone) as [->|Hn]; [done|].
  assert (Hlen : forall r : result fetch_error unit,
    (let? _ := r in if 10 <=? length (via ++ [from]) then Err (ErrInvalidConfig (str "stopped after 10 redirects")) else Ok tt) = Ok tt ->
    r = Ok tt /\ length via < 9).
  { intros [[]|]; [|done]. cbn [result_bind]. rewrite length_app. cbn [length]. destruct (10 <=? _) eqn:E; [done|].
    apply Nat.leb_gt in E. split; [done|lia]. }
  intros [Hp Hl]%Hlen. split; [done|]. split.
  { intros [H1 H2]. by rewrite H1, H2 in Ed. }
  split; [done|]. intros ->. rewrite Z.eqb_refl in Hp. destruct (bool_decide (u_Scheme to = u_Scheme from)) eqn:E1; [|done].
  destruct (bool_decide (u_Host to = u_Host from)) eqn:E2; [|done]. by apply bool_decide_eq_true in E1, E2.
Qed.

Lemma followed_init p us u : followed p (us ++ [u]) -> followed p us.
Proof. intros H via to rest ->. apply (H via to (rest ++ [u])). by rewrite <- app_assoc. Qed.

(** A chain of requests that the policy let through has at most ten requests and never
    goes from https to http; without redirects it is one request; with the same-origin
    policy every request goes to the scheme and host of the first. *)
Theorem redirect_chain p u us :
  followed p (u :: us) ->
  length (u :: us) <= 10 /\
  (forall a b pre post, u :: us = pre ++ a :: b :: post -> ~ (u_Scheme a = str "https" /\ u_Scheme b = str "http")) /\
  (p = RedirectNone -> us = []) /\
  (p = RedirectSameOrigin -> Forall (fun v => u_Scheme v = u_Scheme u /\ u_Host v = u_Host u) us).
Proof.
  induction us as [|v us IH] using rev_ind; intros H.
  { split; [cbn; lia|]. split; [|by split]. intros a b pre post E. destruct pre as [|x [|]]; by simplify_eq/=. }
  change (u :: us ++ [v]) with ((u :: us) ++ [v]) in *. destruct (IH (followed_init _ _ _ H)) as (Hl & Hd & Hn & Hs).
  assert (exists via from, u :: us = via ++ [from]) as (via & from & Ev)
    by (destruct (exists_last (l := u :: us)) as (via & from & ->); [done|eauto]).
  pose proof (H (u :: us) v [] eq_refl) as Hh. rewrite Ev in Hh. apply hop_allowed in Hh as (H9 & Hdg & Hno & Hso).
  split. { rewrite Ev, !length_app. cbn [length]. lia. }
  split. { intros a b pre post E. destruct post as [|y post _] using rev_ind.
           - rewrite Ev in E. rewrite <- app_assoc in E. cbn [app] in E.
             change (pre ++ a :: [b]) with (pre ++ [a] ++ [b]) in E. change (via ++ [from; v]) with (via ++ [from] ++ [v]) in E.
             rewrite !app_assoc in E. apply app_inj_tail in E as [E <-]. by apply app_inj_tail in E as [_ <-].
           - change (pre ++ a :: b :: post ++ [y]) with (pre ++ (a :: b :: post) ++ [y]) in E.
             rewrite app_assoc in E. apply app_inj_tail in E as [E _]. by apply (Hd a b pre post). }
  split; [done|]. intros Hp. specialize (Hs Hp). apply list.Forall_app. split; [done|]. apply list.Forall_singleton.
  destruct (Hso Hp) as [-> ->]. assert (Hin : from ∈ u :: us) by (rewrite Ev; apply elem_of_app; right; left).
  apply elem_of_cons in Hin as [->|Hin]; [done|]. rewrite list.Forall_forall in Hs. by apply Hs.
Qed.
Lemma redirect_chain_witness :
  let u := MkURL (str "https") (str "example.org") false [] (str "/a") in
  let v := MkURL (str "https") (str "example.org") false [] (str "/b") in
  followed RedirectSameOrigin [u; v] /\ Forall (fun w => u_Scheme w = str "https" /\ u_Host w = str "example.org") [v].
Proof.
  cbn zeta. assert (H : followed RedirectSameOrigin
    [MkURL (str "https") (str "example.org") false [] (str "/a"); MkURL (str "https") (str "example.org") false [] (str "/b")]).
  { intros via to rest E. destruct via as [|x [|y [|z via]]]; simplify_eq/=; reflexivity. }
  split; [exact H|].
  destruct (redirect_chain RedirectSameOrigin (MkURL (str "https") (str "example.org") false [] (str "/a"))
    [MkURL (str "https") (str "example.org") false [] (str "/b")] H) as (_ & _ & _ & Hs). exact (Hs eq_refl).
Defined.

(** ** Archive entries *)

Definition entry_name (entry : gostring) : gostring := trim_right_set entry [SLASH; BACKSLASH].

(** The names an entry spells when it is acceptable. *)
Definition entry_names (entry : gostring) : option (list gostring) :=
  let names := split_byte (entry_name entry) SLASH in
  if negb (bool_decide (NULb ∈ entry)) && valid_utf8 (entry_name entry) &&
     forallb (fun e => negb (bool_decide (e = []) || bool_decide (e = dot) || bool_decide (e = dotdot))) names
  then Some names else None.

Lemma names_plain names s : names = split_byte s SLASH ->
  forallb (fun e => negb (bool_decide (e = []) || bool_decide (e = dot) || bool_decide (e = dotdot))) names = true ->
  Forall plain names.
Proof.
  intros -> H. rewrite forallb_forall in H. apply list.Forall_forall. intros w Hw. pose proof (split_byte_not_elem _ _ _ Hw) as Hs.
  apply list_elem_of_In, H, negb_true_iff in Hw. rewrite !orb_false_iff, !bool_decide_eq_false in Hw. unfold plain. naive_solver.
Qed.
Lemma trim_right_incl s set c : c ∈ trim_right_set s set -> c ∈ s.
Proof.
  unfold trim_right_set. rewrite !list_elem_of_In, <- in_rev. intros H. rewrite in_rev. revert H.
  induction (rev s) as [|x t IH]; [done|]. cbn [trim_left_set]. destruct (bool_decide _); [right; auto|done].
Qed.
Lemma slashed_split_id s : slashed (split_byte s SLASH) = s.
Proof. apply Repo.join_split. Qed.

Lemma IsLocal_names s :
  Forall plain (split_byte s SLASH) -> IsLocal s = true /\ s <> [] /\ s <> dot /\ IsAbs s = false.
Proof.
  intros Hp. assert (Hne : s <> []) by (intros ->; by inversion Hp as [|?? (? & _)]).
  assert (Hd : s <> dot) by (intros ->; inversion Hp as [|?? (_ & ? & _)]; by vm_compute in *).
  assert (Ha : IsAbs s = false).
  { destruct (IsAbs s) eqn:E; [|done]. apply IsAbs_cons in E as [t ->]. cbn [split_byte] in Hp.
    rewrite bool_decide_true in Hp by done. by inversion Hp as [|?? (? & _)]. }
  split; [|done]. unfold IsLocal. rewrite bool_decide_false, Ha by done. cbn [negb andb].
  assert (existsb (fun e => bool_decide (e = dot) || bool_decide (e = dotdot)) (split_byte s SLASH) = false) as ->.
  { apply not_true_is_false. intros (w & Hw & H)%existsb_exists. apply list_elem_of_In in Hw. rewrite list.Forall_forall in Hp.
    destruct (Hp w Hw) as (_ & H1 & H2 & _). by rewrite !bool_decide_false in H. }
  rewrite bool_decide_false. 2: { intros ->. inversion Hp as [|?? (_ & _ & ? & _)]. by vm_compute in *. }
  cbn [orb]. destruct (has_prefix s (str "../")) eqn:E; [|done]. apply has_prefix_spec in E as [t ->].
  change (str "../" ++ t) with (dotdot ++ SLASH :: t) in Hp. rewrite split_byte_app in Hp by (by apply (bool_decide_unpack _)).
  by inversion Hp as [|?? (_ & _ & ? & _)].
Qed.

Lemma join_names staging names :
  IsAbs staging = true -> Forall plain names -> Join [staging; slashed names] = path_of (comps staging ++ names).
Proof.
  intros Ha Hp. destruct (Join2_comps staging (slashed names) Ha) as [H1 H2].
  assert (Hj : Join [staging; slashed names] = Clean (Join [staging; slashed names])).
  { destruct (IsAbs_cons staging Ha) as [t ->]. change (Join [SLASH :: t; slashed names]) with (Clean ((SLASH :: t) ++ SLASH :: slashed names)).
    by rewrite Clean_idem_abs. }
  rewrite Hj, Clean_abs by done. rewrite H2. f_equal. by rewrite walk_plain, rev_app_distr, !rev_involutive.
Qed.

(** [safeJoinDest] accepts exactly the entries whose names are all proper names (valid
    UTF-8, no NUL, nothing empty, no [.] or [..], also no leading slash), and places the entry
    at those names below the staging directory; everything else is refused. *)
Theorem safeJoinDest_exact cwd staging entry :
  IsAbs staging = true -> comps staging <> [] ->
  safeJoinDest cwd staging entry =
  match entry_names entry with
  | Some names => Ok (path_of (comps staging ++ names))
  | None => Err (ErrUnsafeEntry entry)
  end.
Proof.
  intros Ha Hne. unfold safeJoinDest, entry_names. fold (entry_name entry).
  destruct (bool_decide (NULb ∈ entry)) eqn:Hnul; cbn [negb andb].
  { by destruct (bool_decide (entry = []) || bool_decide (entry = dot)). }
  assert (Hbad : forallb (fun e => negb (bool_decide (e = []) || bool_decide (e = dot) || bool_decide (e = dotdot)))
    (split_byte (entry_name entry) SLASH) = true -> Forall plain (split_byte (entry_name entry) SLASH)) by apply (names_plain _ _ eq_refl).
  destruct (forallb _ (split_byte (entry_name entry) SLASH)) eqn:Hf.
  2: { rewrite andb_false_r. destruct (_ || _); [done|]. destruct (bool_decide (entry_name entry = []) || bool_decide (entry_name entry = dot)) eqn:Hed; [done|].
       apply orb_false_iff in Hed as [_ Hed]. destruct (IsLocal _); cbn [negb]; [|done]. unfold Localize, ValidPath. rewrite Hed, Hf.
       by rewrite andb_false_r. }
  specialize (Hbad eq_refl). destruct (IsLocal_names _ Hbad) as (Hl & H1 & H2 & H3).
  assert (He : bool_decide (entry = []) || bool_decide (entry = dot) = false).
  { destruct (decide (entry = [])) as [->|]; [done|]. destruct (decide (entry = dot)) as [->|]; [done|]. by rewrite !bool_decide_false. }
  rewrite He, Hl, (bool_decide_false (entry_name entry = [])), (bool_decide_false (entry_name entry = dot)) by done.
  cbn [orb negb]. unfold Localize, ValidPath. rewrite (bool_decide_false (entry_name entry = dot)), Hf by done. cbn [orb].
  rewrite !andb_true_r. destruct (valid_utf8 _); cbn [negb]; [|done].
  rewrite (bool_decide_false (NULb ∈ entry_name entry)).
  2: { intros Hin. apply bool_decide_eq_false in Hnul. by apply Hnul, (trim_right_incl _ [SLASH; BACKSLASH]). }
  assert (Join [staging; entry_name entry] = path_of (comps staging ++ split_byte (entry_name entry) SLASH)) as ->.
  { rewrite <- join_names by done. by rewrite slashed_split_id. }
  assert (Hall : Forall plain (comps staging ++ split_byte (entry_name entry) SLASH)) by (apply list.Forall_app; split; [by apply comps_plain|done]).
  unfold Abs. rewrite Ha, IsAbs_path_of. rewrite (Clean_abs staging) by done. rewrite (Clean_abs (path_of _)), comps_path_of by (done || apply IsAbs_path_of).
  assert (Hin : has_prefix (path_of (comps staging ++ split_byte (entry_name entry) SLASH)) (path_of (comps staging) ++ [SLASH]) = true
    \/ path_of (comps staging ++ split_byte (entry_name entry) SLASH) = path_of (comps staging)).
  { apply or_comm, under_iff_prefix; [done|by apply comps_plain|done|]. by apply prefix_app_r. }
  destruct Hin as [->| ->]; [done|]. rewrite bool_decide_true by done. by rewrite andb_false_r.
Qed.

(** ** Extraction stays in the staging directory *)

Definition below (staging p : gostring) : Prop := IsAbs p = true /\ comps staging `prefix_of` comps p.
Definition in_staging (staging : gostring) (q : request) : Prop :=
  match q with
  | QOs (OsMkdirAll p _) | QOs (OsCreate p _ _) => below staging p
  | QOs (OsFWrite _ _) | QOs (OsFClose _) | QOs (OsOpenFile _ [O_RDONLY] _) | QOs (OsFReadAll _) => True
  | _ => False
  end.

Section Extract.
Context (cwd : option gostring) (staging : gostring) (maxBytes : Z) (Ha : IsAbs staging = true) (Hne : comps staging <> []).

Lemma joined_below entry out :
  safeJoinDest cwd staging entry = Ok out -> below staging out /\ below staging (Dir out).
Proof.
  rewrite safeJoinDest_exact by done. unfold entry_names.
  destruct (_ && _) eqn:E; [|done]. intros [= <-]. apply andb_prop in E as [_ Hf].
  assert (Hp : Forall plain (comps staging ++ split_byte (entry_name entry) SLASH)).
  { apply list.Forall_app. split; [by apply comps_plain|by apply (names_plain _ _ eq_refl)]. }
  split; [split; [apply IsAbs_path_of|rewrite comps_path_of by done; by apply prefix_app_r]|].
  destruct (split_byte (entry_name entry) SLASH) as [|w names] eqn:Es using rev_ind.
  { by destruct (entry_name entry) as [|c t]; cbn [split_byte] in Es; [|destruct (bool_decide _), (split_byte t SLASH)]. }
  rewrite app_assoc in *. rewrite Dir_path_of by done. split; [apply IsAbs_path_of|].
  rewrite comps_path_of; [by apply prefix_app_r|]. by apply list.Forall_app in Hp as [? _].
Qed.

Abbreviation staged p := (wp (in_staging staging) p (fun _ => True)).
Lemma staged_bind_ok {A B} (p : prog (result fetch_error A)) (k : A -> prog (result fetch_error B)) :
  staged p -> (forall a, staged (k a)) -> staged (bind_ok p k).
Proof. intros Hp Hk. apply wp_bind_ok. eapply wp_mono; [|exact Hp]. intros [a|e] _; [apply Hk|done]. Qed.
Lemma staged_mkdir p : below staging p -> staged (io (str "mkdir") (COs (OsMkdirAll p 493))).
Proof. intros H. unfold io. cbn [bind ask wp]. by split. Qed.
Lemma staged_write out d mode : below staging out -> staged (writeTarEntry out d mode).
Proof.
  intros H. unfold writeTarEntry, finally, copy_to, io, close, ignore. cbn [bind ask wp]. split; [exact H|].
  intros [f|e]; [|done]. apply wp_bind, wp_bind_ok. cbn [bind ask wp]. split; [done|]. intros [e|]; cbn [wp bind ask]; by split.
Qed.

Lemma staged_tar st e : staged (tar_step cwd staging maxBytes st e).
Proof.
  unfold tar_step. destruct st as [total files], (t_type e); [| |done].
  - destruct (safeJoinDest cwd staging (t_name e)) as [out|] eqn:Ej; [|done]. apply joined_below in Ej as [H1 H2].
    unfold bind_ok at 1. cbn [bind]. destruct (_ <? 0)%Z; [done|]. destruct (maxBytes <? _)%Z; [done|].
    apply staged_bind_ok; [by apply staged_mkdir|]. intros _. apply staged_bind_ok; [by apply staged_write|done].
  - destruct (safeJoinDest cwd staging (t_name e)) as [out|] eqn:Ej; [|done]. apply joined_below in Ej as [H1 H2].
    unfold bind_ok at 1. cbn [bind]. apply staged_bind_ok; [by apply staged_mkdir|done].
Qed.
Lemma staged_zip st e : staged (zip_step cwd staging maxBytes st e).
Proof.
  unfold zip_step. destruct st as [total files], (safeJoinDest cwd staging (z_name e)) as [out|] eqn:Ej; [|done].
  apply joined_below in Ej as [H1 H2]. unfold bind_ok at 1. cbn [bind]. destruct (_ || _).
  { apply staged_bind_ok; [by apply staged_mkdir|done]. }
  destruct (_ <? 0)%Z; [done|]. destruct (maxBytes <? _)%Z; [done|]. destruct (z_open e) as [[body err]|]; [|done].
  apply staged_bind_ok; [by apply staged_mkdir|]. intros _. apply staged_bind_ok; [by apply staged_write|done].
Qed.
Lemma staged_loop {E} (step : Z * nat -> E -> prog (result fetch_error (Z * nat))) es st :
  (forall st e, staged (step st e)) -> staged (for_each step es st).
Proof.
  intros H. apply (wp_for_each _ _ _ _ (fun _ => True)); [done..|]. intros st' e _ _. eapply wp_mono; [|apply H]. by intros [].
Qed.
Lemma staged_read tmp : staged (read_archive tmp).
Proof.
  unfold read_archive, close, ignore. cbn [bind ask wp]. split; [done|]. intros [f|]; [|done]. by repeat (split; [done|intros ?]).
Qed.
End Extract.

(** C13: Whatever a tar or zip archive holds, and whatever the host answers, extraction only
    creates files and directories at or below the staging directory, and creates nothing
    that could redirect a later entry: no links, no special files. *)
Theorem extraction_confined {S} (h : handler S) s untar unzip cwd tmp staging maxBytes :
  IsAbs staging = true -> comps staging <> [] ->
  Forall (in_staging staging) (asked h s (extractTarGzFile untar cwd tmp staging maxBytes)) /\
  Forall (in_staging staging) (asked h s (extractZipFile unzip cwd tmp staging maxBytes)).
Proof.
  intros Ha Hne. split; apply (wp_run _ h s _ (fun _ => True)).
  - apply staged_bind_ok; [apply staged_read|]. intros body. unfold extractTarGz. destruct (untar body) as [[es err]|]; [|done].
    apply staged_bind_ok; [|done]. apply staged_loop. intros st e. by apply staged_tar.
  - apply staged_bind_ok; [apply staged_read|]. intros body. destruct (unzip body) as [es|]; [|done].
    apply staged_bind_ok; [|done]. apply staged_loop. intros st e. by apply staged_zip.
Qed.

(** ** Extraction respects the size limit *)

(** The bytes given to writes so far. *)
Definition count_bytes (g : Z) X (c : call X) (_ : X) : Z :=
  match c with COs (OsFWrite _ d) => (g + Z.of_nat (length d))%Z | _ => g end.
Definition within (bound : Z) (g : Z) X (c : call X) : Prop :=
  match c with COs (OsFWrite _ d) => (g + Z.of_nat (length d) <= bound)%Z | _ => True end.

Lemma limited_length k body err : (Z.of_nat (length (limited k body err).1) <= Z.max 0 k)%Z.
Proof.
  unfold limited. destruct (Z.leb_spec k (Z.of_nat (length body))); cbn [fst].
  - rewrite length_take. lia.
  - lia.
Qed.

Section Bounded.
Context (cwd : option gostring) (staging : gostring) (maxBytes bound : Z)
  (Hmax : (0 <= maxBytes < 2 ^ 62)%Z).
Abbreviation wpb := (wpg count_bytes (within bound)).

Lemma wpb_for_each {E} (step : Z * nat -> E -> prog (result fetch_error (Z * nat))) (P : E -> Prop) es : forall st g,
  Forall P es ->
  (forall st e g, P e -> g = st.1 -> (0 <= g <= maxBytes)%Z ->
     wpb (step st e) g (fun g' r => match r with Ok st' => g' = st'.1 /\ (0 <= g' <= maxBytes)%Z | Err _ => True end)) ->
  g = st.1 -> (0 <= g <= maxBytes)%Z ->
  wpb (for_each step es st) g (fun g' r => match r with Ok _ => (g' <= maxBytes)%Z | Err _ => True end).
Proof.
  induction es as [|e es IH]; intros st g HP Hs Hg Hb; cbn [for_each]; [cbn [wpg]; apply Hb|].
  apply list.Forall_cons in HP as [He HP]. apply wpg_bind_ok. eapply wpg_mono; [|by apply Hs].
  intros g' [st'|err]; [|done]. intros [H1 H2]. by apply IH.
Qed.

(** Writing an entry of [n] bytes. *)
Lemma wpb_write out d mode total files g :
  g = total -> (0 <= total)%Z -> (total + Z.of_nat (length d.1) <= bound)%Z -> (bound <= maxBytes + 1)%Z ->
  wpb (let!? written := writeTarEntry out d mode in Ret (counted total files written maxBytes)) g
    (fun g' r => match r with Ok st' => g' = st'.1 /\ (0 <= g' <= maxBytes)%Z | Err _ => True end).
Proof.
  intros -> Ht Hd Hbd. unfold writeTarEntry, finally, copy_to, io, close, ignore. apply wpg_bind_ok. cbn [bind ask wpg]. split; [done|].
  cbn [count_bytes]. intros [f|e]; [|done]. apply wpg_bind, wpg_bind_ok. cbn [bind ask wpg]. split; [exact Hd|].
  cbn [count_bytes]. intros [e|]; cbn [wpg bind ask]; [by split|]. split; [done|]. intros _. cbn [wpg count_bytes].
  destruct d.2; [done|]. cbn [wpg]. unfold counted. rewrite Exec.wrap64_id by lia. destruct (Z.ltb_spec maxBytes (total + Z.of_nat (length d.1))); [done|].
  cbn [fst]. lia.
Qed.
Lemma wpb_mkdir p (k : unit -> prog (result fetch_error (Z * nat))) g Q :
  (forall e, Q g (Err e)) -> wpb (k tt) g Q -> wpb (let!? _ := io (str "mkdir") (COs (OsMkdirAll p 493)) in k tt) g Q.
Proof.
  intros HE Hk. apply wpg_bind_ok. unfold io. cbn [bind ask wpg]. split; [done|]. cbn [count_bytes]. intros [e|]; cbn [wpg]; [apply HE|exact Hk].
Qed.
End Bounded.

(** A tar entry as the reader of package tar delivers it: never more bytes than the
    header says; the size is far from the limit of 64 bits. *)
Definition honest (e : tar_entry) : Prop := (Z.of_nat (length (t_body e)) <= t_size e <= 2 ^ 62)%Z.

Lemma zip_bounded {S} (h : handler S) s unzip cwd tmp staging maxBytes :
  (0 <= maxBytes < 2 ^ 62)%Z ->
  ghost_ok count_bytes (within (maxBytes + 1)) h s (extractZipFile unzip cwd tmp staging maxBytes) 0%Z.
Proof.
  intros Hm. apply (wpg_run count_bytes (within (maxBytes + 1)) h s _ _ (fun _ _ => True)). unfold extractZipFile, read_archive, close, ignore.
  apply wpg_bind_ok. cbn [bind ask wpg]. split; [done|]. cbn [count_bytes]. intros [f|]; [|done]. cbn [bind wpg]. split; [done|].
  intros d. cbn [count_bytes wpg]. split; [done|]. intros _. cbn [count_bytes wpg]. destruct d as [body|]; [|done].
  destruct (unzip body) as [es|]; [|done]. apply wpg_bind_ok.
  eapply wpg_mono; [|apply wpb_for_each with (P := fun _ => True) (maxBytes := maxBytes); [by apply list.Forall_true| |done|lia]].
  { by intros g [st|e]. }
  intros [total files] e g _ -> Hg. cbn [fst] in *. unfold zip_step. destruct (safeJoinDest _ _ _); [|done].
  unfold bind_ok at 1. cbn [bind]. destruct (_ || _); [by apply wpb_mkdir with (k := fun _ => Ret (Ok (total, files)))|].
  destruct (_ <? 0)%Z; [done|]. destruct (maxBytes <? _)%Z; [done|]. destruct (z_open e) as [[b err]|]; [|done].
  apply wpb_mkdir with (k := fun _ => _); [done|]. apply wpb_write; [done|done|lia| |lia].
  rewrite (Exec.wrap64_id (maxBytes - total)), Exec.wrap64_id by lia. pose proof (limited_length (maxBytes - total + 1) b err). lia.
Qed.

(** The entries of the archives that the host gives to read. *)
Definition archives_honest {S} (h : handler S) (untar : gostring -> result gostring (list tar_entry * option gostring)) : Prop :=
  forall s f b es err, (h _ s (COs (OsFReadAll f))).2 = Ok b -> untar b = Ok (es, err) -> Forall honest es.

Lemma tar_steps_bounded {S} (h : handler S) s untar cwd body staging maxBytes :
  (0 <= maxBytes < 2 ^ 62)%Z -> (forall es err, untar body = Ok (es, err) -> Forall honest es) ->
  ghost_ok count_bytes (within maxBytes) h s (extractTarGz untar cwd body staging maxBytes) 0%Z.
Proof.
  intros Hm Hh. apply (wpg_run count_bytes (within maxBytes) h s _ _ (fun _ _ => True)). unfold extractTarGz.
  destruct (untar body) as [[es err]|] eqn:Eu; [|done]. apply wpg_bind_ok.
  eapply wpg_mono; [|apply wpb_for_each with (P := honest) (maxBytes := maxBytes); [by eapply Hh| |done|lia]].
  { by intros g [st|e]. }
  intros [total files] e g [He1 He2] -> Hg. cbn [fst] in *. unfold tar_step.
  destruct (t_type e); [| |done]; (destruct (safeJoinDest _ _ _); [|done]); unfold bind_ok at 1; cbn [bind].
  - destruct (_ <? 0)%Z; [done|]. destruct (maxBytes <? _)%Z eqn:El; [done|]. rewrite Exec.wrap64_id in El by lia. apply Z.ltb_ge in El.
    apply wpb_mkdir with (k := fun _ => _); [done|]. apply wpb_write; cbn [fst]; [done|done|lia|lia|lia].
  - by apply wpb_mkdir with (k := fun _ => Ret (Ok (total, files))).
Qed.

Lemma tar_bounded {S} (h : handler S) s untar cwd tmp staging maxBytes :
  (0 <= maxBytes < 2 ^ 62)%Z -> archives_honest h untar ->
  ghost_ok count_bytes (within maxBytes) h s (extractTarGzFile untar cwd tmp staging maxBytes) 0%Z.
Proof.
  intros Hm Hh. unfold extractTarGzFile, read_archive, close, ignore, bind_ok.
  cbn [bind ask ghost_ok]. split; [done|]. destruct (h _ s _) as [s1 [f|e]]; cbn [bind ghost_ok]; [|done].
  split; [done|]. destruct (h _ s1 (COs (OsFReadAll f))) as [s2 d] eqn:Er. cbn [bind ghost_ok]. split; [done|].
  destruct (h _ s2 _) as [s3 x]. cbn [bind ghost_ok count_bytes]. destruct d as [body|e]; [|done].
  apply tar_steps_bounded; [done|]. intros es err Eu. eapply (Hh s1 f); [by rewrite Er|exact Eu].
Qed.

(** C15: Extraction never writes more than the limit (below 2^62): a zip archive at most one byte
    more, the one that shows the excess, whatever its headers declare; a tar archive never more,
    when the archive that is read delivers no entry beyond its declared size and declares no
    size above 2^62 (one near 2^63 wraps the sum, see [tar_size_wraps]). *)
Theorem extraction_bounded {S} (h : handler S) s untar unzip cwd tmp staging maxBytes :
  (0 <= maxBytes < 2 ^ 62)%Z ->
  ghost_ok count_bytes (within (maxBytes + 1)) h s (extractZipFile unzip cwd tmp staging maxBytes) 0%Z /\
  (archives_honest h untar ->
   ghost_ok count_bytes (within maxBytes) h s (extractTarGzFile untar cwd tmp staging maxBytes) 0%Z).
Proof. intros Hm. split; [by apply zip_bounded|by apply tar_bounded]. Qed.

(** ** A pinned file *)

(** A property of every system call and the history before it. *)
Definition ok_os (P : list HostProg.event -> os_op -> Prop) (tr : list HostProg.event) X (c : call X) : Prop :=
  match c with COs o => P tr o | _ => True end.
Lemma ghost_ok_os {S A} (P : list HostProg.event -> os_op -> Prop) (h : handler S) s (p : prog A) tr pre o a post :
  ghost_ok log_event (ok_os P) h s p tr -> history h s p = pre ++ EvOs o a :: post -> P (tr ++ pre) o.
Proof.
  revert s tr pre. induction p as [b|X d k IH]; intros s tr pre; simpl; [by destruct pre|].
  intros [Hok H]. destruct (h X s d) as [s' x]. destruct pre as [|e pre]; simpl.
  - intros He. apply (f_equal head) in He. cbn [head] in He. rewrite app_nil_r. unfold ok_os in Hok.
    apply (f_equal (fun e => match e with Some (EvOs o _) => Some o | _ => None end)) in He.
    destruct d; cbn [event_of] in He; try discriminate He. by injection He as <-.
  - intros [= Hd Ht]. apply (IH x s' (log_event tr X d x) pre H) in Ht. unfold log_event in Ht.
    by rewrite <- app_assoc, Hd in Ht.
Qed.

Section Pinned.
Context (sha256 : gostring -> gostring) (fs fs_after : FileSystem) (src : httpSource) (dest : gostring).

Definition temp_of (p : gostring) : Prop := exists x, p = dest ++ str ".tmp." ++ x.
(** What was written so far, and to which handle. *)
Definition write_of (e : HostProg.event) : option (nat * gostring * option fs_err) :=
  match e with EvOs (OsFWrite f d) a => Some (f, d, a) | _ => None end.
Definition written (tr : list HostProg.event) : list (nat * gostring * option fs_err) := omap write_of tr.
(** The whole content that the origin sent, without an error on the way; nothing where it
    said that there is nothing new. *)
Definition sent (tr : list HostProg.event) (d : gostring) : Prop :=
  exists resp, EvOs (OsHttp (str "GET") (URL_ (cfg src)) (revision src)) (Ok resp) ∈ tr /\
    (StatusCode resp = 304%Z /\ d = [] \/
     (200 <= StatusCode resp < 300)%Z /\ d = Body resp /\ BodyErr resp = None).
(** The file at [p], created by the fetch, holds exactly what the origin sent, which has the
    pinned hash if there is one and fits the limit. *)
Definition content_ok (tr : list HostProg.event) (p : gostring) : Prop :=
  exists f d, EvOs (OsCreate p true 384) (Ok f) ∈ tr /\ written tr = [(f, d, None)] /\ sent tr d /\
    (forall c, checksum src = Some c -> sha256 d = c) /\ (Z.of_nat (length d) <= MaxBytes (cfg src))%Z.
Definition in_place (tr : list HostProg.event) : Prop := exists p, EvOs (OsRename p dest) None ∈ tr.

Definition fetch_os (tr : list HostProg.event) (o : os_op) : Prop :=
  dest_ok fs dest = Ok tt /\
  match o with
  | OsHttp _ u _ => u = URL_ (cfg src)
  | OsCreate p excl _ => temp_of p /\ excl = true
  | OsRemove p => temp_of p
  | OsMkdirAll p _ => exists q, temp_of q /\ p = Dir q
  | OsRename p q => temp_of p /\ q = dest /\ content_ok tr p
  | OsChmod p _ | OsLstat p | OsOpenFile p _ _ => p = dest /\ in_place tr
  | OsFWrite f _ => exists p, temp_of p /\ EvOs (OsCreate p true 384) (Ok f) ∈ tr
  | OsRand _ | OsFSync _ | OsFClose _ | OsFStat _ | OsFChown _ _ _ | UserLookup _ | UserLookupGroup _ => True
  | _ => False
  end.
Context (Hdest : dest_ok fs dest = Ok tt) (Hmax : (0 <= MaxBytes (cfg src) < 2 ^ 63 - 1)%Z).
Abbreviation wpf := (wpg log_event (ok_os fetch_os)).
Lemma plain_os tr o :
  match o with OsRand _ | OsFSync _ | OsFClose _ | OsFStat _ | OsFChown _ _ _ | UserLookup _ | UserLookupGroup _ => True | _ => False end ->
  ok_os fetch_os tr _ (COs o).
Proof. intros H. split; [done|]. by destruct o. Qed.

Ltac seen := repeat (apply elem_of_app; first [right; by apply list_elem_of_singleton | left]); try eassumption.
Ltac plain_call := (split; [by apply plain_os|]).

Lemma cleanup_tmp {A} tmp tr (r : A) (Q : list HostProg.event -> A -> Prop) : temp_of tmp -> (forall tr, Q tr r) ->
  wpf (bind (ignore (COs (OsRemove tmp))) (fun _ => Ret r)) tr Q.
Proof. intros Ht HQ. unfold ignore. cbn [bind ask wpg]. split; [by split|]. intros ?. apply HQ. Qed.
Lemma drop_tmp {A} f tmp tr (r : A) (Q : list HostProg.event -> A -> Prop) : temp_of tmp -> (forall tr, Q tr r) ->
  wpf (bind (seq (close f) (ignore (COs (OsRemove tmp)))) (fun _ => Ret r)) tr Q.
Proof. intros Ht HQ. unfold seq, close, ignore. cbn [bind ask wpg]. plain_call. intros ?. split; [by split|]. intros ?. apply HQ. Qed.

Lemma written_app a b : written (a ++ b) = written a ++ written b.
Proof. apply omap_app. Qed.
(** Nothing was forgotten and nothing more was written. *)
Definition onward (tr tr' : list HostProg.event) : Prop := (forall e, e ∈ tr -> e ∈ tr') /\ written tr' = written tr.
Lemma onward_refl tr : onward tr tr.
Proof. done. Qed.
Lemma onward_snoc tr tr' e : onward tr tr' -> write_of e = None -> onward tr (tr' ++ [e]).
Proof.
  intros [H1 H2] He. split; [intros x Hx; apply elem_of_app; left; auto|].
  rewrite written_app, H2. unfold written at 2. cbn [omap list_omap]. by rewrite He, app_nil_r.
Qed.
Ltac onward := repeat first [apply onward_refl | assumption | apply onward_snoc; [|reflexivity]].

Lemma create_spec tmp tr : temp_of tmp ->
  wpf (create_excl tmp) tr (fun tr' r => match r with Ok f => EvOs (OsCreate tmp true 384) (Ok f) ∈ tr' /\ onward tr tr' | Err _ => True end).
Proof.
  intros Ht. unfold create_excl, ignore. cbn [bind ask wpg]. split; [by split|].
  intros [f|[|e]]; [cbn [wpg]; unfold log_event; cbn [event_of]; split; [seen|onward]| |done].
  cbn [bind wpg]. split; [by split|]. intros ?. cbn [bind wpg]. split; [by split|]. intros [f|e']; [|done]. cbn [wpg]. unfold log_event. cbn [event_of].
  split; [seen|onward].
Qed.

Lemma limited_all m body err : (0 <= m)%Z -> (Z.of_nat (length (limited (m + 1) body err).1) <= m)%Z -> limited (m + 1) body err = (body, err).
Proof.
  intros Hm. unfold limited. destruct (Z.leb_spec (m + 1) (Z.of_nat (length body))); [|done]. cbn [fst]. rewrite length_take. lia.
Qed.

Lemma stream_spec resp tr : written tr = [] ->
  wpf (streamToTmp sha256 dest resp (MaxBytes (cfg src))) tr (fun tr' r =>
    match r with
    | Ok (tmp, n, sum) => temp_of tmp /\ (forall e, e ∈ tr -> e ∈ tr') /\
        (exists f, EvOs (OsCreate tmp true 384) (Ok f) ∈ tr' /\ written tr' = [(f, Body resp, None)]) /\
        BodyErr resp = None /\ sum = sha256 (Body resp) /\ (Z.of_nat (length (Body resp)) <= MaxBytes (cfg src))%Z
    | Err _ => True
    end).
Proof.
  intros Hw. unfold streamToTmp. apply wpg_bind_ok. unfold tmpPathFor. cbn [bind ask wpg]. plain_call. intros [b|]; [|done]. cbn [wpg].
  set (tmp := dest ++ str ".tmp." ++ RemoteTree.hex b). assert (Ht : temp_of tmp) by (by eexists). clearbody tmp.
  apply wpg_bind_ok. unfold io at 1. cbn [bind ask wpg]. split; [split; [done|by eauto]|]. intros [e|]; [done|]. cbn [wpg].
  unfold log_event. cbn [event_of].
  apply wpg_bind_ok. eapply wpg_mono; [|by apply create_spec]. intros tr1 [f|e]; [|done]. intros [Hc [Hsub Hw1]].
  rewrite !written_app, Hw in Hw1. change (written tr1 = []) in Hw1.
  rewrite Exec.wrap64_id by lia. pose proof (limited_all (MaxBytes (cfg src)) (Body resp) (BodyErr resp)) as Hall.
  set (d := limited _ _ _) in *. clearbody d. apply wpg_bind_ok. unfold on_error at 1. apply wpg_bind. unfold copy_to, io at 1.
  apply wpg_bind_ok. cbn [bind ask wpg]. split; [split; [done|]; by exists tmp|]. unfold log_event. cbn [event_of].
  intros [e|]; cbn [wpg]; [by apply drop_tmp|].
  destruct d.2 as [e|] eqn:Ee; [by apply drop_tmp|]. cbn [wpg]. apply wpg_bind_ok. unfold on_error at 1. cbn [bind].
  destruct (Z.ltb_spec (MaxBytes (cfg src)) (Z.of_nat (length d.1))) as [Hl|Hl]; [by apply drop_tmp|]. cbn [wpg].
  apply wpg_bind_ok. unfold on_error at 1, io at 1. apply wpg_bind. cbn [bind ask wpg]. plain_call. unfold log_event. cbn [event_of].
  intros [e|]; [by apply drop_tmp|]. cbn [wpg]. apply wpg_bind_ok. unfold on_error, io. apply wpg_bind. cbn [bind ask wpg]. plain_call.
  unfold log_event. cbn [event_of]. intros [e|]; [by apply cleanup_tmp|]. cbn [wpg]. split; [done|].
  specialize (Hall ltac:(lia) Hl). subst d. cbn [fst snd] in *. split; [|split; [exists f; split; [seen|]|by split_and!]].
  - intros x Hx. repeat (apply elem_of_app; left). apply Hsub. repeat (apply elem_of_app; left). done.
  - rewrite !written_app, Hw1. done.
Qed.

Lemma in_place_app tr l : in_place tr -> in_place (tr ++ l).
Proof. intros [p Hp]. exists p. apply elem_of_app. by left. Qed.
Lemma at_dest tr o : match o with OsChmod p _ | OsLstat p | OsOpenFile p _ _ => p = dest | _ => False end ->
  in_place tr -> ok_os fetch_os tr _ (COs o).
Proof. intros Ho Hi. split; [done|]. by destruct o. Qed.
Lemma in_place_log tr X (c : call X) x : in_place tr -> in_place (log_event tr X c x).
Proof. apply in_place_app. Qed.
Hint Resolve in_place_app in_place_log : core.

Lemma fchown_in_place uid gid tr : in_place tr -> wpf (FchownNoFollow dest uid gid) tr (fun _ _ => True).
Proof.
  intros Hi. unfold FchownNoFollow, finally, sys, sys_do, close, ignore. apply wpg_bind_ok. cbn [bind ask wpg].
  split; [by apply at_dest|]. intros [fd|]; [|done]. cbn [wpg bind]. apply wpg_bind, wpg_bind_ok. cbn [bind ask wpg]. plain_call.
  intros [fi|]; cbn [wpg bind ask]; [|by plain_call]. destruct (negb _); cbn [wpg bind ask]; [by plain_call|].
  plain_call. intros [e|]; cbn [wpg bind ask]; by plain_call.
Qed.
Lemma resolve_touches name c tr (Q : list HostProg.event -> result fs_error Z -> Prop) :
  c = COs (UserLookup name) \/ c = COs (UserLookupGroup name) -> in_place tr -> (forall tr r, in_place tr -> Q tr r) ->
  wpf (resolve_opt name c) tr Q.
Proof.
  intros Hc Hi HQ. unfold resolve_opt, resolveID. destruct (bool_decide _); [by apply HQ|].
  destruct Hc as [-> | ->]; cbn [bind ask wpg]; plain_call; intros x; apply HQ; unfold log_event; auto.
Qed.

Lemma applyMode_spec mode owner group tr : in_place tr -> wpf (applyMode dest mode owner group) tr (fun _ _ => True).
Proof.
  intros Hi. unfold applyMode. apply wpg_bind_ok.
  assert (Hown : forall tr, in_place tr -> wpf
    (if negb (bool_decide (owner = [])) || negb (bool_decide (group = [])) then
       let!? (uid, gid) := lift (ResolveOwnership owner group) in lift (chownNoFollow dest uid gid)
     else Ret (Ok tt)) tr (fun _ _ => True)).
  { clear tr Hi. intros tr Hi. destruct (_ || _); [|done]. apply wpg_bind_ok. unfold lift at 1, ResolveOwnership. apply wpg_bind, wpg_bind_ok.
    apply resolve_touches; [by left|done|]. clear tr Hi. intros tr [uid|e] Hi; [|done]. apply wpg_bind_ok.
    apply resolve_touches; [by right|done|]. clear tr Hi. intros tr [gid|e] Hi; [|done]. cbn [wpg]. unfold lift. apply wpg_bind.
    unfold chownNoFollow, OpenRealDir, sys, sys_do, finally, close, ignore. apply wpg_bind_ok. cbn [bind ask wpg]. split; [by apply at_dest|].
    unfold log_event at 1. cbn [event_of]. intros [fi|]; [|done]. cbn [wpg]. destruct (fi_dir fi).
    - apply wpg_bind_ok. cbn [bind ask wpg]. split; [apply at_dest; auto|]. intros [d|]; [|done]. cbn [wpg bind].
      plain_call. intros [e|]; cbn [wpg bind]; by plain_call.
    - eapply wpg_mono; [|apply fchown_in_place; auto]. done. }
  destruct (bool_decide (mode = [])); [by apply Hown|]. destruct (parse_octal mode); [|done]. unfold io. cbn [bind ask wpg].
  split; [by apply at_dest|]. unfold log_event at 1. cbn [event_of]. intros [e|]; [done|]. cbn [wpg]. auto.
Qed.

Lemma openBody_spec tr :
  wpf (openBody (URL_ (cfg src)) (revision src)) tr (fun tr' r =>
    match r with Ok resp => written tr' = written tr /\ (BodyErr resp = None -> sent tr' (Body resp)) | Err _ => True end).
Proof.
  unfold openBody, http. apply wpg_bind_ok. cbn [bind ask wpg]. split; [by split|]. intros [resp|e]; [|done]. cbn [wpg].
  unfold log_event. cbn [event_of]. destruct (StatusCode resp =? 304)%Z eqn:E4; [|destruct (_ || _) eqn:Es; [done|]].
  - apply Z.eqb_eq in E4. split; [rewrite written_app; apply app_nil_r|]. intros _. exists resp. split; [seen|]. by left.
  - apply orb_false_iff in Es as [E1%Z.ltb_ge E2%Z.leb_gt]. split; [rewrite written_app; apply app_nil_r|].
    intros Hb. exists resp. split; [seen|]. right. split_and!; [lia|lia|done|done].
Qed.

Lemma fetchFile_spec rec tr : written tr = [] -> wpf (fetchFile sha256 fs fs_after (src, rec) dest) tr (fun _ _ => True).
Proof.
  intros Hw. unfold fetchFile, keep at 1. cbn [bind]. rewrite Hdest. unfold keep at 1. apply wpg_bind. unfold not_modified, checkNotModified, http.
  eapply (wpg_mono _ _ _ _ (fun tr' _ => written tr' = [])).
  2: { destruct (bool_decide _); [done|]. apply wpg_bind_ok. cbn [bind ask wpg]. split; [by split|].
       unfold log_event. cbn [event_of]. by intros []; cbn [wpg]; rewrite written_app, Hw. }
  clear tr Hw. intros tr [[]|e] Hw; [done| |done]. unfold keep at 1. apply wpg_bind.
  eapply wpg_mono; [|apply openBody_spec]. intros tr1 [resp|e]; [|done]. intros [Hw1 Hsent]. rewrite Hw in Hw1.
  unfold keep at 1. apply wpg_bind. eapply wpg_mono; [|by apply stream_spec].
  intros tr2 [[[tmp n] sum]|e]; [|done]. intros (Ht & Hsub & (f & Hc & Hw2) & Hb & -> & Hl).
  destruct (pinned src (sha256 (Body resp))) eqn:Hp; cbn [negb]; [|by apply cleanup_tmp]. unfold keep at 1. apply wpg_bind. unfold on_error, io at 1.
  apply wpg_bind. cbn [bind ask wpg]. split.
  { split; [done|]. split; [done|]. split; [done|]. exists f, (Body resp). split_and!; [done|done| | |done].
    - destruct (Hsent Hb) as (r & Hr & ?). exists r. by split; [apply Hsub|].
    - intros c Hck. unfold pinned in Hp. rewrite Hck in Hp. by apply bool_decide_eq_true in Hp. }
  intros [e|]; [by apply cleanup_tmp|]. cbn [wpg]. unfold keep. apply wpg_bind.
  eapply wpg_mono; [|apply applyMode_spec]. { by intros ? []. }
  exists tmp. unfold log_event. cbn [event_of]. seen.
Qed.
End Pinned.


(** ** On one host *)

(** An origin that answers with a status and a body, a disk where every call succeeds but
    the rename, when it is to fail. *)
Definition origin_os (head get : Z) (body ctype : gostring) (rename_ok : bool) (o : os_op) : os_ans o :=
  match o with
  | OsHttp m _ _ => Ok (MkResponse (if bool_decide (m = str "HEAD") then head else get) [] ctype body None)
  | OsRand n => Some (repeat "a"%char n)
  | OsCreate _ _ _ => Ok 5
  | OsOpenFile _ _ _ => Ok 6
  | OsFReadAll _ => Ok body
  | OsStat _ => Ok (MkFileInfo true false 493 false (Some 0%Z) 0 (0, 0)%Z)
  | OsRename _ _ => if rename_ok then None else Some (OtherErr [])
  | OsMkdirAll _ _ | OsFWrite _ _ | OsFSync _ | OsFClose _ | OsRemove _ | OsRemoveAll _ | OsChmod _ _ => None
  | o => os_absent o
  end.
Definition origin (head get : Z) (body ctype : gostring) (rename_ok : bool) : handler unit :=
  fun X s c => match c in call X return unit * X with
               | COs o => (s, origin_os head get body ctype rename_ok o)
               | c' => command_host (fun s _ _ => (s, (Exec.MkResult 1 [] [], None))) absent absent _ s c'
               end.
Definition site : gostring := str "/var/lib/power-manage/site".
Definition site_cfg (extract : bool) : HTTPConfig := MkHTTPConfig (str "https://example.org/x.tgz") [] extract false 100 [] [] [] 0.
(** A stand-in for the hash in examples. *)
Definition first_byte (d : gostring) : gostring := take 1 d.
Definition one_file : gostring -> result gostring (list tar_entry * option gostring) :=
  fun _ => Ok ([MkTar (str "etc/motd") TypeReg 2 420 (str "hi") None], None).


Lemma safeJoinDest_exact_witness :
  safeJoinDest None site (str "a/b/") = Ok (site ++ str "/a/b") /\
  safeJoinDest None site (str "../b") = Err (ErrUnsafeEntry (str "../b")).
Proof.
  assert (Hs : IsAbs site = true) by reflexivity. assert (Hc : comps site <> []) by (intros H; vm_compute in H; discriminate H).
  split; [rewrite (safeJoinDest_exact None site (str "a/b/") Hs Hc)|rewrite (safeJoinDest_exact None site (str "../b") Hs Hc)];
    vm_compute; reflexivity.
Defined.

Lemma extraction_confined_witness :
  Forall (in_staging site) (asked (origin 200 200 [] [] true) tt (extractTarGzFile one_file None (str "/tmp/x") site 100)) /\
  QOs (OsCreate (site ++ str "/etc/motd") false 420) ∈
    asked (origin 200 200 [] [] true) tt (extractTarGzFile one_file None (str "/tmp/x") site 100).
Proof.
  split.
  - apply (extraction_confined (origin 200 200 [] [] true) tt one_file (fun _ => Ok []) None (str "/tmp/x") site 100); [reflexivity|].
    intros H. vm_compute in H. discriminate H.
  - apply list_elem_of_In. vm_compute. repeat first [left; reflexivity|right].
Defined.

Lemma extraction_bounded_witness :
  ghost_ok count_bytes (within 100) (origin 200 200 [] [] true) tt (extractTarGzFile one_file None (str "/tmp/x") site 100) 0%Z.
Proof.
  apply (extraction_bounded (origin 200 200 [] [] true) tt one_file (fun _ => Ok []) None (str "/tmp/x") site 100); [lia|].
  intros s f b es err _ [= <- <-]. constructor; [|constructor]. vm_compute. split; discriminate.
Defined.

(** ** What goes wrong *)

(** The pinned hash of an archive is never compared: the same source refuses the bytes as a
    file and unpacks them as an archive. *)
Lemma archive_checksum_ignored :
  let h := origin 200 200 (str "evil") (str "application/gzip") true in
  let bad := Some (str "h") in
  (run h tt (fetchFile first_byte bare_fs bare_fs (MkSource (site_cfg false) bad [], ∅) site)).2.2 = Err (ErrIntegrity (str "sha256 mismatch")) /\
  (run h tt (fetchArchive first_byte bare_fs bare_fs one_file (fun _ => Ok []) None (fun _ => []) (MkSource (site_cfg true) bad [], ∅) site)).2.2 =
    Ok (MkResult_ true 4 1 [] (str "sha256:65")).
Proof. vm_compute. split; reflexivity. Qed.

(** The revision belongs to the source, not to a destination: once a fetch has succeeded, a
    fetch to any other destination, or to the same one after a wipe, does nothing as long
    as the origin answers 304. *)
Lemma cached_fetch_skips {S} (h : handler S) s sha256 fs fs_after untar unzip cwd digest src rec dest resp :
  dest_ok fs dest = Ok tt -> revision src <> [] ->
  h _ s (COs (OsHttp (str "HEAD") (URL_ (cfg src)) (revision src))) = (s, Ok resp) -> StatusCode resp = 304%Z ->
  run h s (Fetch sha256 fs fs_after untar unzip cwd digest (src, rec) dest) = (s, ((src, rec), Ok (unchanged (revision src)))).
Proof.
  intros Hd Hr Hh Hs. unfold Fetch, fetchArchive, fetchFile, keep, not_modified, checkNotModified, http, bind_ok. cbn [fst].
  destruct (Extract (cfg src)); cbn [bind]; rewrite Hd, bool_decide_false by done; cbn [bind ask run];
    rewrite Hh; cbn [bind run]; rewrite Hs; reflexivity.
Qed.

(** A GET that is answered with 304 replaces the file by an empty one. *)
Lemma not_modified_get_empties :
  let h := origin 200 304 (str "ignored") [] true in
  let src := MkSource (site_cfg false) None (str "v1") in
  (run h tt (fetchFile first_byte bare_fs bare_fs (src, ∅) site)).2.2 = Ok (MkResult_ true 0 1 [] []) /\
  QOs (OsFWrite 5 []) ∈ asked h tt (fetchFile first_byte bare_fs bare_fs (src, ∅) site).
Proof. split; [vm_compute; reflexivity|]. apply list_elem_of_In. vm_compute. repeat first [left; reflexivity|right]. Qed.

(** The size check of a tar entry adds 64-bit numbers: after a first byte, a declared size
    near the limit wraps around, and the entry is written although it exceeds the limit. *)
Lemma tar_size_wraps :
  let wraps := [MkTar (str "a") TypeReg 1 420 (str "x") None; MkTar (str "b") TypeReg (2 ^ 63 - 1) 420 (str "too much") (Some (str "EOF"))] in
  QOs (OsFWrite 5 (str "too much")) ∈ asked (origin 200 200 [] [] true) tt (extractTarGzFile (fun _ => Ok (wraps, None)) None (str "/tmp/x") site 2).
Proof. apply list_elem_of_In. vm_compute. repeat first [left; reflexivity|right]. Qed.

(** A mode is read as bits of [os.FileMode], where setuid is bit 23: it passes the check
    for the bits of the file system, and is set. *)
Lemma setuid_mode_accepted :
  validateModeBits (str "40000755") = Ok tt /\
  exists m, parse_octal (str "40000755") = Some m /\ has_bit m ModeSetuid = true.
Proof. split; [vm_compute; reflexivity|]. eexists. split; vm_compute; reflexivity. Qed.

(** Without [Prune] the destination is removed as well: what the archive does not hold is
    gone. *)
Lemma extract_always_prunes :
  let h := origin 200 200 (str "archive") (str "application/gzip") true in
  let p := fetchArchive first_byte bare_fs bare_fs one_file (fun _ => Ok []) None (fun _ => []) (MkSource (site_cfg true) None [], ∅) site in
  Prune (site_cfg true) = false /\
  (run h tt p).2.2 = Ok (MkResult_ true 7 1 [] (str "sha256:61")) /\ QOs (OsRemoveAll site) ∈ asked h tt p.
Proof. split; [reflexivity|]. split; [vm_compute; reflexivity|]. apply list_elem_of_In. vm_compute. repeat first [left; reflexivity|right]. Qed.

(** When the last rename fails, the destination is already gone. *)
Lemma failed_swap_loses_dest :
  let h := origin 200 200 (str "archive") (str "application/gzip") false in
  let p := fetchArchive first_byte bare_fs bare_fs one_file (fun _ => Ok []) None (fun _ => []) (MkSource (site_cfg true) None [], ∅) site in
  (run h tt p).2.2 = Err (ErrIO (str "swap")) /\ QOs (OsRemoveAll site) ∈ asked h tt p.
Proof. split; [vm_compute; reflexivity|]. apply list_elem_of_In. vm_compute. repeat first [left; reflexivity|right]. Qed.
End RemoteFetch.
