(* ===== verification/RemoteS3.v ===== *)
(** * S3 sources ([src/sys/remote/s3.go], [s3_prefix.go], and [prune.go] over the host)

    A single object is fetched like an HTTP file; a key that ends in a slash is a prefix
    whose objects are listed page by page, fetched one by one below the destination, and
    mirrored with [pruneTo].  URL parsing and printing, the decoding of the XML listing and
    the hash function are parameters; the pages of a listing are bounded by fuel. *)
From stdpp Require Import sorting.
From S2P Require Import Prelude Paths FsGuard Exec HostProg Words Remote RemoteTree HostCmd Fs RemoteHttp.

Module RemoteS3.
Import HostProg Paths FsGuard Remote Fs RemoteHttp.

Record S3Config := MkS3Config {
  Endpoint : gostring; Bucket : gostring; Key : gostring;
  s3_Mode : gostring; s3_Owner : gostring; s3_Group : gostring; s3_Prune : bool
}.
Record s3Source := MkS3 { s3_cfg : S3Config; objectURL : gostring; s3_revision : gostring }.
Definition set_s3_revision (s : s3Source) (r : gostring) : s3Source := MkS3 (s3_cfg s) (objectURL s) r.

Record s3Object := MkObject { o_key : gostring; o_etag : gostring }.
Record listV2Response := MkList { IsTruncated : bool; NextContinuationToken : gostring; Contents : list s3Object }.

(** ** Configuration *)

Definition validateS3Config (c : S3Config) : result fetch_error unit :=
  if bool_decide (trim_space (Bucket c) = []) then Err (ErrInvalidConfig (str "bucket is required"))
  else if 63 <? length (Bucket c) then Err (ErrInvalidConfig (str "bucket exceeds 63 chars"))
  else if bool_decide (trim_space (Key c) = []) then Err (ErrInvalidConfig (str "key is required"))
  else if 1024 <? length (Key c) then Err (ErrInvalidConfig (str "key exceeds 1024 chars"))
  else Ok tt.

Section Parse.
Context (Parse : gostring -> option URL)
(** [URL.String] of the parsed endpoint with its path and its query replaced; without a
    new query the endpoint's own is kept. *)
  (url_String : URL -> gostring -> option gostring -> gostring).

Definition parseS3Endpoint (raw : gostring) : result fetch_error URL :=
  if bool_decide (trim_space raw = []) then Err (ErrInvalidConfig (str "endpoint is empty"))
  else if contains_any raw [NULb; NL; CRb] then Err (ErrInvalidConfig (str "control characters"))
  else match Parse raw with
       | None => Err (ErrInvalidConfig (str "parse"))
       | Some u =>
           if bool_decide (u_Scheme u = []) then Err (ErrInvalidConfig (str "not absolute"))
           else if negb (bool_decide (u_Scheme u = str "https")) && negb (bool_decide (u_Scheme u = str "http")) then Err (ErrInvalidConfig (str "scheme"))
           else if u_User u then Err (ErrInvalidConfig (str "userinfo"))
           else if bool_decide (u_Host u = []) then Err (ErrInvalidConfig (str "no host"))
           else Ok u
       end.

Definition bucket_path (u : URL) (c : S3Config) : gostring := trim_right_set (u_Path u) [SLASH] ++ SLASH :: Bucket c.

Definition NewS3 (c : S3Config) : result fetch_error s3Source :=
  let? _ := validateS3Config c in
  let? endpoint := parseS3Endpoint (Endpoint c) in
  Ok (MkS3 c (url_String endpoint (bucket_path endpoint c ++ SLASH :: Key c) None) []).

(** The endpoint with the path of the bucket. *)
Definition bucketRootURL (s : s3Source) : result fetch_error (URL * gostring) :=
  let? endpoint := parseS3Endpoint (Endpoint (s3_cfg s)) in Ok (endpoint, bucket_path endpoint (s3_cfg s)).

(** [url.QueryEscape] and [url.Values.Encode], whose keys come in order. *)
Definition upper_hex (n : N) : ascii := if (n <? 10)%N then ascii_of_N (48 + n) else ascii_of_N (55 + n).
Definition unreserved (c : ascii) : bool :=
  is_digit c || in_range "a"%char "z"%char c || in_range "A"%char "Z"%char c ||
  bool_decide (c = "-"%char) || bool_decide (c = "_"%char) || bool_decide (c = "."%char) || bool_decide (c = "~"%char).
Definition escape_byte (c : ascii) : gostring :=
  if bool_decide (c = " "%char) then ["+"%char]
  else if unreserved c then [c]
  else ["%"%char; upper_hex (byte_val c / 16); upper_hex (byte_val c mod 16)].
Definition QueryEscape (s : gostring) : gostring := concat (escape_byte <$> s).
Definition list_query (key token : gostring) : gostring :=
  (if bool_decide (token = []) then [] else str "continuation-token=" ++ QueryEscape token ++ str "&") ++
  str "list-type=2&prefix=" ++ QueryEscape key.

(** ** Single objects *)

Definition denied (code : Z) : bool := (code =? 403)%Z || (code =? 401)%Z.
Definition success (code : Z) : bool := (200 <=? code)%Z && (code <? 300)%Z.

Definition headNotModified (s : s3Source) (etag : gostring) : prog (result fetch_error bool) :=
  let!? resp := http (str "HEAD") (objectURL s) etag in
  Ret (if (StatusCode resp =? 304)%Z then Ok true
       else if (StatusCode resp =? 200)%Z then Ok false
       else if denied (StatusCode resp) then Err (ErrInvalidConfig (str "anonymous HEAD"))
       else Err (ErrStatus (StatusCode resp))).

Definition openObject (s : s3Source) (etag : gostring) : prog (result fetch_error http_response) :=
  let!? resp := http (str "GET") (objectURL s) etag in
  Ret (if (StatusCode resp =? 304)%Z then Ok (MkResponse 304 (ETag resp) (ContentType resp) [] None)
       else if success (StatusCode resp) then Ok resp
       else if denied (StatusCode resp) then Err (ErrInvalidConfig (str "anonymous GET"))
       else Err (ErrStatus (StatusCode resp))).

Section Fetch.
Context (sha256 : gostring -> gostring) (fs fs_after : FileSystem).

Definition s3_state : Type := s3Source * Recorded.
Definition s3_outcome : Type := s3_state * result fetch_error FetchResult.
Definition keeping {A} (s : s3_state) (p : prog (result fetch_error A)) (k : A -> prog s3_outcome) : prog s3_outcome :=
  let! r := p in match r with Ok a => k a | Err e => Ret (s, Err e) end.

Definition fetchObject (s : s3_state) (dest : gostring) : prog s3_outcome :=
  let '(src, rec) := s in
  keeping s (Ret (dest_ok fs dest)) (fun _ =>
  keeping s (if bool_decide (s3_revision src = []) then Ret (Ok false) else headNotModified src (s3_revision src)) (fun nm =>
  if nm then Ret (s, Ok (unchanged (s3_revision src)))
  else
    keeping s (openObject src (s3_revision src)) (fun resp =>
    keeping s (streamToTmp sha256 dest resp defaultHTTPMaxBytes) (fun t =>
      let '(tmp, written, sum) := t in
      keeping s (on_error (io (str "rename") (COs (OsRename tmp dest))) (ignore (COs (OsRemove tmp)))) (fun _ =>
      keeping s (applyMode dest (s3_Mode (s3_cfg src)) (s3_Owner (s3_cfg src)) (s3_Group (s3_cfg src))) (fun _ =>
        let rev := if bool_decide (ETag resp = []) then RemoteTree.hex sum else ETag resp in
        Ret ((set_s3_revision src rev, RecordDest fs_after rec dest),
             Ok (MkResult_ true written 1 (RemoteTree.hex sum) rev)))))))).

(** ** Listing *)

Definition maxPrefixObjects : Z := 10000.

(** The objects of a page are appended one by one up to the limit. *)
Fixpoint append_page (all : list s3Object) (page : list s3Object) : result fetch_error (list s3Object) :=
  match page with
  | [] => Ok all
  | e :: page' =>
      let all' := all ++ [e] in
      if (maxPrefixObjects <? Z.of_nat (length all'))%Z then Err (ErrInvalidConfig (str "more objects than the limit")) else append_page all' page'
  end.

Context (xml_decode : gostring -> option gostring -> result gostring listV2Response).

Definition list_page (s : s3Source) (token : gostring) : prog (result fetch_error listV2Response) :=
  match bucketRootURL s with
  | Err e => Ret (Err e)
  | Ok (u, path) =>
      let!? resp := http (str "GET") (url_String u path (Some (list_query (Key (s3_cfg s)) token))) [] in
      Ret (if denied (StatusCode resp) then Err (ErrInvalidConfig (str "anonymous list"))
           else if negb (success (StatusCode resp)) then Err (ErrStatus (StatusCode resp))
           else match xml_decode (Body resp) (BodyErr resp) with
                | Err m => Err (ErrIO m)
                | Ok parsed => Ok parsed
                end)
  end.

(** [None] when the fuel ran out: the loop is still asking for pages. *)
Fixpoint list_from (fuel : nat) (s : s3Source) (token : gostring) (all : list s3Object)
    : prog (option (result fetch_error (list s3Object))) :=
  match fuel with
  | 0 => Ret None
  | S fuel' =>
      let! r := list_page s token in
      match r with
      | Err e => Ret (Some (Err e))
      | Ok parsed =>
          match append_page all (Contents parsed) with
          | Err e => Ret (Some (Err e))
          | Ok all' =>
              if negb (IsTruncated parsed) || bool_decide (NextContinuationToken parsed = []) then Ret (Some (Ok all'))
              else list_from fuel' s (NextContinuationToken parsed) all'
          end
      end
  end.
Definition listObjects (fuel : nat) (s : s3Source) : prog (option (result fetch_error (list s3Object))) := list_from fuel s [] [].

Definition object_le (x y : s3Object) : Prop := RemoteTree.str_le (o_key x) (o_key y) = true.
#[global] Instance object_le_dec x y : Decision (object_le x y).
Proof. unfold object_le. apply _. Defined.
(** The listing is sorted in place by key; equal keys do not occur in a bucket, and the
    order the sort leaves them in is one of those possible. *)
Definition sorted_listing (objs : list s3Object) : list s3Object := merge_sort object_le objs.
Definition listing_stream (objs : list s3Object) : gostring :=
  concat ((fun o => o_key o ++ NULb :: o_etag o ++ [NULb]) <$> objs).
Definition hashListing (objs : list s3Object) : gostring := RemoteTree.hex (sha256 (listing_stream (sorted_listing objs))).

(** ** Prefixes *)

Definition relPathForKey (prefix key : gostring) : result fetch_error gostring :=
  if negb (has_prefix key prefix) then Err (ErrInvalidConfig (str "key outside the prefix"))
  else
    let rel := drop (length prefix) key in
    if bool_decide (rel = []) then Err (ErrInvalidConfig (str "key is the prefix"))
    else if bool_decide (NULb ∈ rel) then Err (ErrUnsafeEntry key)
    else if existsb (fun comp => bool_decide (comp = dotdot)) (split_byte rel SLASH) then Err (ErrUnsafeEntry key)
    else Ok rel.

Definition assertWithinDest (cwd : option gostring) (dest full : gostring) : result fetch_error unit :=
  match Abs cwd dest, Abs cwd full with
  | Some destAbs, Some fullAbs =>
      if negb (has_prefix fullAbs (destAbs ++ [SLASH])) && negb (bool_decide (fullAbs = destAbs)) then Err (ErrUnsafeEntry full) else Ok tt
  | _, _ => Err (ErrUnsafeEntry full)
  end.

Definition openSingleObject (s : s3Source) (key : gostring) : prog (result fetch_error http_response) :=
  match bucketRootURL s with
  | Err e => Ret (Err e)
  | Ok (u, path) =>
      let!? resp := http (str "GET") (url_String u (path ++ SLASH :: key) None) [] in
      Ret (if denied (StatusCode resp) then Err (ErrInvalidConfig (str "anonymous GET"))
           else if negb (success (StatusCode resp)) then Err (ErrStatus (StatusCode resp))
           else Ok resp)
  end.

Definition streamObjectToFile (resp : http_response) (outPath : gostring) (maxBytes : Z) : prog (result fetch_error Z) :=
  let!? _ := io (str "mkdir") (COs (OsMkdirAll (Dir outPath) 493)) in
  let!? t := streamToTmp sha256 outPath resp maxBytes in
  let '(tmp, written, sum) := t in
  let!? _ := on_error (io (str "rename") (COs (OsRename tmp outPath))) (ignore (COs (OsRemove tmp))) in
  Ret (Ok written).

(** [pruneTo], the walk and the removals asked of the host; a directory that is not empty
    is told by the text of its error. *)
Definition not_empty : fs_err := OtherErr (str "directory not empty").
Definition remove_victim (dest : gostring) (_ : unit) (n : RemoteTree.node) : prog (result fetch_error unit) :=
  let! r := ask (COs (OsRemove (RemoteTree.walk_path dest n))) in
  Ret (match r with None | Some NotExist => Ok tt | Some _ => Err (ErrIO (str "remove")) end).
Definition remove_empty (dest : gostring) (_ : unit) (n : RemoteTree.node) : prog (result fetch_error unit) :=
  let! r := ask (COs (OsRemove (RemoteTree.walk_path dest n))) in
  Ret (match r with
       | None | Some NotExist => Ok tt
       | Some (OtherErr m) => if bool_decide (m = str "directory not empty") then Ok tt else Err (ErrIO (str "rmdir"))
       end).
Definition pruneTo (view : FileSystem) (rec : Recorded) (dest : gostring) (keep : gset gostring) : prog (result fetch_error unit) :=
  match canWipe view rec dest with
  | Err e => Ret (Err (ErrUnsafeDest e))
  | Ok _ =>
      let! st := ask (COs (OsStat dest)) in
      match st with
      | Err NotExist => Ret (Ok tt)
      | Err _ => Ret (Err (ErrIO (str "stat dest")))
      | Ok _ =>
          let! w := ask (COs (OsWalkDir dest)) in
          match w with
          | Err m => Ret (Err (ErrIO m))
          | Ok entries =>
              let tree := (fun e => RemoteTree.MkNode e.1 e.2) <$> entries in
              let!? _ := for_each (remove_victim dest) (List.filter (RemoteTree.victim keep) tree) tt in
              for_each (remove_empty dest) (merge_sort (RemoteTree.longer dest) (List.filter RemoteTree.n_dir tree)) tt
          end
      end
  end.

Context (cwd : option gostring).

(** One object of the loop: the bytes and files so far, and the names to keep. *)
Definition sync_object (src : s3Source) (dest : gostring) (st : Z * nat * gset gostring) (o : s3Object)
    : prog (result fetch_error (Z * nat * gset gostring)) :=
  let '(bytes, files, names) := st in
  let!? rel := Ret (relPathForKey (Key (s3_cfg src)) (o_key o)) in
  let outPath := Join [dest; rel] in
  let!? _ := Ret (assertWithinDest cwd dest outPath) in
  let!? resp := openSingleObject src (o_key o) in
  let!? written := streamObjectToFile resp outPath defaultHTTPMaxBytes in
  Ret (Ok (Exec.wrap64 (bytes + written), S files, {[ rel ]} ∪ names)).

Definition fetchPrefix (fuel : nat) (s : s3_state) (dest : gostring) : prog (option s3_outcome) :=
  let '(src, rec) := s in
  match dest_ok fs dest with
  | Err e => Ret (Some (s, Err e))
  | Ok _ =>
      let! l := listObjects fuel src in
      match l with
      | None => Ret None
      | Some (Err e) => Ret (Some (s, Err e))
      | Some (Ok objects) =>
          let listHash := hashListing objects in
          let! out :=
            (if bool_decide (s3_revision src = listHash) then Ret (s, Ok (unchanged listHash))
             else
               keeping s (io (str "mkdir") (COs (OsMkdirAll dest 493))) (fun _ =>
               keeping s (for_each (sync_object src dest) (sorted_listing objects) (0%Z, 0, ∅)) (fun st =>
               let '(bytes, files, names) := st in
               keeping s (if s3_Prune (s3_cfg src) then pruneTo fs_after rec dest names else Ret (Ok tt)) (fun _ =>
               keeping s (applyMode dest (s3_Mode (s3_cfg src)) (s3_Owner (s3_cfg src)) (s3_Group (s3_cfg src))) (fun _ =>
                 Ret ((set_s3_revision src listHash, RecordDest fs_after rec dest),
                      Ok (MkResult_ true bytes files [] listHash))))))) in
          Ret (Some out)
      end
  end.

Definition Fetch (fuel : nat) (s : s3_state) (dest : gostring) : prog (option s3_outcome) :=
  if has_suffix (Key (s3_cfg s.1)) [SLASH] then fetchPrefix fuel s dest
  else let! out := fetchObject s dest in Ret (Some out).

Definition String_ (s : s3Source) : gostring :=
  str "s3 " ++ Endpoint (s3_cfg s) ++ SLASH :: Bucket (s3_cfg s) ++ SLASH :: Key (s3_cfg s).
End Fetch.
End Parse.
End RemoteS3.
