(* ===== verification/RemoteSync.v ===== *)
(** * S3 sources: what a sync does ([src/sys/remote/s3_prefix.go], [prune.go])

    The token of a listing is independent of the order of its pages and determines the
    listing; listing asks for the pages the server announces and ends when it announces another one
    only with a page that holds an object; a sync touches nothing outside its
    destination; pruning over the host is the pruning of trees. *)
From stdpp Require Import sorting.
From S2P Require Import Prelude Paths FsGuard Exec HostProg Words Remote RemoteTree HostCmd Fs RemoteHttp RemoteS3 RemoteFetch.

Module RemoteSync.
Import HostProg Paths FsGuard Remote Fs RemoteHttp RemoteS3.

(** ** The token of a listing *)

#[global] Instance object_le_total : Total object_le.
Proof. intros x y. apply RemoteTree.str_le_total. Qed.
#[global] Instance object_le_trans : Transitive object_le.
Proof. intros x y z. apply RemoteTree.str_le_trans. Qed.

Lemma key_unique l x y : NoDup (o_key <$> l) -> x ∈ l -> y ∈ l -> o_key x = o_key y -> x = y.
Proof.
  intros Hnd Hx Hy Hr. induction l as [|z l IH]; [by apply not_elem_of_nil in Hx|].
  rewrite fmap_cons in Hnd. apply list.NoDup_cons in Hnd as [Hz Hnd].
  apply elem_of_cons in Hx as [->|Hx], Hy as [->|Hy]; [done| | |auto].
  - destruct Hz. rewrite Hr. by apply list_elem_of_fmap_2.
  - destruct Hz. rewrite <-Hr. by apply list_elem_of_fmap_2.
Qed.

Lemma sorted_listing_perm l1 l2 : NoDup (o_key <$> l1) -> l1 ≡ₚ l2 -> sorted_listing l1 = sorted_listing l2.
Proof.
  intros Hnd Hp. unfold sorted_listing. apply (StronglySorted_unique_strong object_le).
  - intros x y Hx Hy Hxy Hyx. rewrite merge_sort_Permutation in Hx, Hy. rewrite <-Hp in Hy.
    by eapply key_unique, RemoteTree.str_le_antisym.
  - apply (StronglySorted_merge_sort _).
  - apply (StronglySorted_merge_sort _).
  - by rewrite !merge_sort_Permutation.
Qed.

(** Text of an XML document: no NUL. *)
Definition xml_text (o : s3Object) : Prop := (NULb ∉ o_key o) /\ (NULb ∉ o_etag o).

Lemma until_nul_inj (a b s t : gostring) : NULb ∉ a -> NULb ∉ b -> a ++ NULb :: s = b ++ NULb :: t -> a = b /\ s = t.
Proof.
  revert b. induction a as [|c a IH]; intros [|d b] Ha Hb H; simplify_eq/=; [done|set_solver|set_solver|].
  destruct (IH b) as [-> ->]; [set_solver|set_solver|done|done].
Qed.
Lemma listing_stream_inj l1 l2 : Forall xml_text l1 -> Forall xml_text l2 -> listing_stream l1 = listing_stream l2 -> l1 = l2.
Proof.
  unfold listing_stream. intros H1; revert l2; induction H1 as [|[k e] l1 [Hk He] H1 IH]; intros l2 H2 H;
    destruct H2 as [|[k' e'] l2 [Hk' He'] H2]; simpl in *; [done| | |].
  - by destruct k'.
  - by destruct k.
  - rewrite <- !app_assoc in H. cbn [app] in H. apply until_nul_inj in H as [-> H]; [|done|done].
    rewrite <- !app_assoc in H. cbn [app] in H. apply until_nul_inj in H as [-> H]; [|done|done]. f_equal. by apply IH.
Qed.

(** The token of a listing does not depend on the order in which the server delivered the
    objects, and two listings that differ in a key or an entity tag have different tokens
    unless they exhibit a collision of the hash function. *)
Theorem listing_drift sha256 l1 l2 :
  Forall xml_text l1 -> Forall xml_text l2 -> NoDup (o_key <$> l1) ->
  (l1 ≡ₚ l2 -> hashListing sha256 l1 = hashListing sha256 l2) /\
  (hashListing sha256 l1 = hashListing sha256 l2 ->
   l1 ≡ₚ l2 \/ exists a b, a <> b /\ sha256 a = sha256 b).
Proof.
  intros H1 H2 Hnd. unfold hashListing. split.
  - intros Hp. by rewrite (sorted_listing_perm l1 l2).
  - intros H%RemoteTree.hex_inj. destruct (decide (listing_stream (sorted_listing l1) = listing_stream (sorted_listing l2))) as [E|E]; [|eauto].
    left. apply listing_stream_inj in E; [|by unfold sorted_listing; rewrite merge_sort_Permutation..].
    rewrite <- (merge_sort_Permutation object_le l1), <- (merge_sort_Permutation object_le l2). unfold sorted_listing in E. by rewrite E.
Qed.
Lemma listing_drift_witness :
  let a := MkObject (str "docs/a") (str "1") in
  let b := MkObject (str "docs/b") (str "2") in
  hashListing id [a; b] = hashListing id [b; a].
Proof.
  intros a b. apply (listing_drift id [a; b] [b; a]).
  - by apply (bool_decide_unpack _).
  - by apply (bool_decide_unpack _).
  - by apply (bool_decide_unpack _).
  - apply Permutation_swap.
Defined.

(** ** Listing ends *)

Section Listing.
Context (Parse : gostring -> option URL) (url_String : URL -> gostring -> option gostring -> gostring)
        (xml_decode : gostring -> option gostring -> result gostring listV2Response).

(** The page that an answer of the server holds, and whether it announces another one. *)
Definition page_of (a : result gostring http_response) : option listV2Response :=
  match a with
  | Ok resp => if success (StatusCode resp)
               then match xml_decode (Body resp) (BodyErr resp) with Ok p => Some p | Err _ => None end else None
  | Err _ => None
  end.
Definition announces (p : listV2Response) : Prop := IsTruncated p = true /\ NextContinuationToken p <> [].

(** A server that announces another page only with a page that holds an object, as S3 does. *)
Definition server_progresses {S} (h : handler S) : Prop :=
  forall s m url v p, page_of (h _ s (COs (OsHttp m url v))).2 = Some p -> announces p -> Contents p <> [].

Lemma append_page_ok all page all' :
  append_page all page = Ok all' -> (Z.of_nat (length all) <= maxPrefixObjects)%Z ->
  all' = all ++ page /\ (Z.of_nat (length all') <= maxPrefixObjects)%Z.
Proof.
  revert all. induction page as [|e page IH]; intros all; cbn [append_page].
  - intros [= <-]. by rewrite app_nil_r.
  - destruct (Z.ltb_spec maxPrefixObjects (Z.of_nat (length (all ++ [e])))) as [|Hl]; [done|]. intros H _.
    destruct (IH _ H Hl) as [-> ?]. by rewrite <- app_assoc in *.
Qed.

Lemma append_page_full all page e :
  append_page all page = Err e -> (maxPrefixObjects < Z.of_nat (length (all ++ page)))%Z.
Proof.
  revert all. induction page as [|x page IH]; intros all; cbn [append_page]; [done|].
  destruct (Z.ltb_spec maxPrefixObjects (Z.of_nat (length (all ++ [x])))) as [Hl|_]; intros He.
  - rewrite !length_app in *. cbn [length] in *. lia.
  - specialize (IH _ He). by rewrite <- app_assoc in IH.
Qed.

Section Pages.
Context (src : s3Source) (u : URL) (path : gostring).
(** The request for the page of a continuation token, with its answer. *)
Definition requested (token : gostring) (a : result gostring http_response) : HostProg.event :=
  EvOs (OsHttp (str "GET") (url_String u path (Some (list_query (Key (s3_cfg src)) token))) []) a.
(** From a token on, pages that each announced the next were asked for one after the other. *)
Inductive walked : gostring -> list HostProg.event -> list listV2Response -> gostring -> Prop :=
| walked_start token : walked token [] [] token
| walked_page token a p tr pages token' :
    page_of a = Some p -> announces p -> walked (NextContinuationToken p) tr pages token' ->
    walked token (requested token a :: tr) (p :: pages) token'.
(** The outcome once the last answer has come. *)
Definition concluded (all : list s3Object) (a : result gostring http_response) (r : result fetch_error (list s3Object)) : Prop :=
  match page_of a with
  | None => exists e, r = Err e
  | Some p => let objs := all ++ Contents p in
              if (maxPrefixObjects <? Z.of_nat (length objs))%Z then exists e, r = Err e else ~ announces p /\ r = Ok objs
  end.

Lemma history_bind {S A B} (h : handler S) s (p : prog A) (f : A -> prog B) :
  history h s (bind p f) = history h s p ++ history h (run h s p).1 (f (run h s p).2).
Proof.
  revert s. induction p as [a|X c k IH]; intros s; simpl; [done|]. destruct (h X s c) as [s' x]. simpl. by rewrite IH.
Qed.

Lemma list_page_run {S} (h : handler S) s token :
  bucketRootURL Parse src = Ok (u, path) ->
  exists s' a r, run h s (list_page Parse url_String xml_decode src token) = (s', r) /\
    history h s (list_page Parse url_String xml_decode src token) = [requested token a] /\
    match page_of a with Some p => r = Ok p | None => exists e, r = Err e end /\
    forall p, server_progresses h -> page_of a = Some p -> announces p -> Contents p <> [].
Proof.
  intros Hu. unfold list_page, http, bind_ok, requested. rewrite Hu. cbn [bind ask run history].
  match goal with |- context [h _ s ?c] => destruct (h _ s c) as [s' a] eqn:E end. exists s', a.
  assert (Hprog : forall p, server_progresses h -> page_of a = Some p -> announces p -> Contents p <> []).
  { intros p Hs. pose proof (Hs s (str "GET") (url_String u path (Some (list_query (Key (s3_cfg src)) token))) [] p) as Hs'. by rewrite E in Hs'. }
  destruct a as [resp|e]; cbn [bind run history event_of page_of fst snd]; eexists; (split; [done|]); (split; [done|]); (split; [|done]); [|by eexists].
  unfold denied, success. destruct (Z.eqb_spec (StatusCode resp) 403) as [->|]; [by eexists|].
  destruct (Z.eqb_spec (StatusCode resp) 401) as [->|]; [by eexists|]. cbn [orb].
  destruct (_ && _); cbn [negb]; [|by eexists]. destruct (xml_decode _ _); [done|by eexists].
Qed.

Lemma list_from_run {S} (h : handler S) fuel s token all :
  bucketRootURL Parse src = Ok (u, path) -> server_progresses h ->
  (Z.of_nat (length all) <= maxPrefixObjects)%Z -> (maxPrefixObjects + 1 - Z.of_nat (length all) < Z.of_nat fuel)%Z ->
  exists r tr pages token' a, (run h s (list_from Parse url_String xml_decode fuel src token all)).2 = Some r /\
    history h s (list_from Parse url_String xml_decode fuel src token all) = tr ++ [requested token' a] /\
    walked token tr pages token' /\ concluded (all ++ concat (Contents <$> pages)) a r.
Proof.
  intros Hu Hp. revert s token all. induction fuel as [|fuel IH]; intros s token all Hl Hf; [lia|]. cbn [list_from].
  rewrite run_bind, history_bind. destruct (list_page_run h s token Hu) as (s' & a & r & Hr & -> & Ha & Hc). rewrite Hr. cbn [fst snd].
  assert (Hend : forall r, concluded all a r -> exists r' tr pages token' a', Some r = Some r' /\
    [requested token a] ++ [] = tr ++ [requested token' a'] /\ walked token tr pages token' /\ concluded (all ++ concat (Contents <$> pages)) a' r').
  { intros r' Hr'. exists r', [], [], token, a. split_and!; [done|done|constructor|]. by rewrite app_nil_r. }
  unfold concluded in Hend. destruct (page_of a) as [p|] eqn:Ep; [|destruct Ha as [e ->]; apply Hend; by eexists].
  subst r. cbn beta iota. destruct (append_page all (Contents p)) as [all'|e] eqn:Ea.
  2: { apply append_page_full in Ea. apply Hend. destruct (Z.ltb_spec maxPrefixObjects (Z.of_nat (length (all ++ Contents p)))); [by eexists|lia]. }
  destruct (append_page_ok _ _ _ Ea Hl) as [-> Hl'].
  destruct (IsTruncated p && negb (bool_decide (NextContinuationToken p = []))) eqn:Et.
  - apply andb_prop in Et as [Et En]. apply negb_true_iff, bool_decide_eq_false in En. rewrite Et, bool_decide_false by done. cbn [negb orb].
    pose proof (Hc p Hp eq_refl (conj Et En)) as Hne.
    destruct (IH s' (NextContinuationToken p) (all ++ Contents p)) as (r & tr & pages & token' & a' & Hrun & Hh & Hw & Hcon); [done| |].
    { rewrite length_app in *. destruct (Contents p); [done|]. cbn [length] in *. lia. }
    exists r, (requested token a :: tr), (p :: pages), token', a'. split_and!; [done|by rewrite Hh|by econstructor|].
    rewrite fmap_cons. cbn [concat]. by rewrite app_assoc.
  - assert (negb (IsTruncated p) || bool_decide (NextContinuationToken p = []) = true) as ->.
    { destruct (IsTruncated p); [|done]. by apply negb_false_iff in Et. }
    apply Hend. destruct (Z.ltb_spec maxPrefixObjects (Z.of_nat (length (all ++ Contents p)))); [lia|]. split; [|done].
    intros [E1 En]. by rewrite E1, bool_decide_false in Et.
Qed.
End Pages.



(** A server that keeps announcing a next page without content is asked forever. *)
Lemma empty_pages_never_end {S} (h : handler S) s src token all fuel u resp :
  parseS3Endpoint Parse (Endpoint (s3_cfg src)) = Ok u ->
  (forall s m v t, h _ s (COs (OsHttp m v t)) = (s, Ok resp)) -> StatusCode resp = 200%Z ->
  xml_decode (Body resp) (BodyErr resp) = Ok (MkList true (str "next") []) ->
  (run h s (list_from Parse url_String xml_decode fuel src token all)).2 = None.
Proof.
  intros Hu Hh Hs Hx. revert token. induction fuel as [|fuel IH]; intros token; [done|].
  cbn [list_from]. rewrite run_bind. unfold list_page, bucketRootURL. rewrite Hu. cbn [result_bind].
  unfold http, bind_ok. cbn [bind ask run]. rewrite Hh. cbn [bind run fst snd]. rewrite Hs. cbn [denied success negb].
  rewrite Hx. cbn [fst snd Contents append_page IsTruncated NextContinuationToken negb orb]. apply IH.
Qed.
End Listing.

(** ** A sync stays in its destination *)

Definition temp_of (q p : gostring) : Prop := exists x, p = q ++ str ".tmp." ++ x.
Definition in_dest (dest q : gostring) : Prop := IsAbs q = true /\ comps dest `prefix_of` comps q.

Definition sync_ok (dest : gostring) (q : request) : Prop :=
  match q with
  | QOs (OsHttp m _ _) => m = str "GET"
  | QOs (OsCreate p excl _) => excl = true /\ exists q, in_dest dest q /\ temp_of q p
  | QOs (OsRename p q) => in_dest dest q /\ temp_of q p
  | QOs (OsRemove p) => (exists q, in_dest dest q /\ temp_of q p) \/ has_prefix p (Clean dest ++ [SLASH]) = true
  | QOs (OsMkdirAll p _) => p = dest \/ exists q, in_dest dest q /\ (p = Dir q \/ exists t, temp_of q t /\ p = Dir t)
  | QOs (OsChmod p _) | QOs (OsLstat p) | QOs (OsOpenFile p _ _) | QOs (OsStat p) | QOs (OsWalkDir p) => p = dest
  | QOs (OsRand _) | QOs (OsFWrite _ _) | QOs (OsFSync _) | QOs (OsFClose _) | QOs (OsFStat _) | QOs (OsFChown _ _ _)
  | QOs (UserLookup _) | QOs (UserLookupGroup _) => True
  | _ => False
  end.

Section Touch.
Context (dest : gostring).
Abbreviation quietly p := (wp (sync_ok dest) p (fun _ => True)).

Lemma quietly_bind {A B} (p : prog A) (k : A -> prog B) : quietly p -> (forall a, quietly (k a)) -> quietly (bind p k).
Proof. intros Hp Hk. apply wp_bind. eapply wp_mono; [|exact Hp]. intros a _. apply Hk. Qed.
Lemma quietly_bind_ok {E A B} (p : prog (result E A)) (k : A -> prog (result E B)) :
  quietly p -> (forall a, quietly (k a)) -> quietly (bind_ok p k).
Proof. intros Hp Hk. apply quietly_bind; [done|]. intros [a|e]; [apply Hk|done]. Qed.
Lemma quietly_ask {X} (c : call X) : sync_ok dest (request_of c) -> quietly (ask c).
Proof. intros H. cbn [ask wp]. by split. Qed.
Lemma quietly_io what c : sync_ok dest (request_of c) -> quietly (io what c).
Proof. intros H. unfold io. by apply quietly_bind; [apply quietly_ask|]. Qed.
Lemma quietly_ignore (c : call (option fs_err)) : sync_ok dest (request_of c) -> quietly (ignore c).
Proof. intros H. unfold ignore. by apply quietly_bind; [apply quietly_ask|]. Qed.
Lemma quietly_on_error {A} (p : prog (result fetch_error A)) q : quietly p -> quietly q -> quietly (on_error p q).
Proof. intros Hp Hq. unfold on_error. apply quietly_bind; [done|]. intros [a|e]; [done|]. by apply quietly_bind. Qed.
Lemma quietly_for_each {E A B} (body : B -> A -> prog (result E B)) l b :
  (forall b a, quietly (body b a)) -> quietly (for_each body l b).
Proof. intros H. revert b. induction l as [|a l IH]; intros b; cbn [for_each]; [done|]. by apply quietly_bind_ok. Qed.
Lemma quietly_http url etag : quietly (http (str "GET") url etag).
Proof. unfold http. by apply quietly_bind; [apply quietly_ask|]. Qed.
Lemma wp_then {E A B} (p : prog (result E A)) (k : A -> prog (result E B)) (Q : result E B -> Prop) :
  quietly p -> (forall e, Q (Err e)) -> (forall a, wp (sync_ok dest) (k a) Q) -> wp (sync_ok dest) (bind_ok p k) Q.
Proof. intros Hp HE Hk. apply wp_bind_ok. eapply wp_mono; [|exact Hp]. intros [a|e] _; auto. Qed.

Lemma stream_touches sha256 out resp maxBytes : in_dest dest out ->
  wp (sync_ok dest) (streamToTmp sha256 out resp maxBytes) (fun r => match r with Ok t => temp_of out t.1.1 | Err _ => True end).
Proof.
  intros Ho. unfold streamToTmp. apply wp_bind_ok. unfold tmpPathFor. cbn [bind ask wp]. split; [done|].
  intros [b|]; [|done]. cbn [wp]. set (tmp := out ++ str ".tmp." ++ RemoteTree.hex b).
  assert (Ht' : temp_of out tmp) by (by eexists). assert (Ht : exists q, in_dest dest q /\ temp_of q tmp) by (by exists out). clearbody tmp.
  assert (Hrm : quietly (ignore (COs (OsRemove tmp)))) by (apply quietly_ignore; by left).
  assert (Hdrop : forall f, quietly (seq (close f) (ignore (COs (OsRemove tmp))))).
  { intros f. unfold seq, close. by apply quietly_bind; [apply quietly_ignore|]. }
  apply wp_then; [|done|intros _]. { apply quietly_io. right. destruct Ht as (q & ? & ?). exists q. split; [done|]. right. by exists tmp. }
  apply wp_then; [|done|intros f].
  { unfold create_excl. apply quietly_bind; [by apply quietly_ask|]. intros [f|[|e]]; [done| |done].
    apply quietly_bind; [done|]. intros _. apply quietly_bind; [by apply quietly_ask|done]. }
  apply wp_then; [|done|intros n].
  { apply quietly_on_error; [|done]. unfold copy_to. by apply quietly_bind_ok; [apply quietly_io|]. }
  apply wp_then; [by apply quietly_on_error|done|intros _]. apply wp_then; [by apply quietly_on_error; [apply quietly_io|]|done|intros _].
  apply wp_then; [by apply quietly_on_error; [apply quietly_io|]|done|intros _]. exact Ht'.
Qed.

Lemma quietly_sys {A} what (c : call (result fs_err A)) : sync_ok dest (request_of c) -> quietly (sys what c).
Proof. intros H. unfold sys. by apply quietly_bind; [apply quietly_ask|]. Qed.
Lemma quietly_sys_do what (c : call (option fs_err)) : sync_ok dest (request_of c) -> quietly (sys_do what c).
Proof. intros H. unfold sys_do. by apply quietly_bind; [apply quietly_ask|]. Qed.
Lemma quietly_finally {A} (p : prog A) (q : prog unit) : quietly p -> quietly q -> quietly (finally p q).
Proof. intros Hp Hq. unfold finally. apply quietly_bind; [done|]. intros a. by apply quietly_bind. Qed.
Lemma quietly_resolve name c : c = COs (UserLookup name) \/ c = COs (UserLookupGroup name) -> quietly (resolve_opt name c).
Proof.
  intros Hc. unfold resolve_opt, resolveID. destruct (bool_decide _); [done|]. destruct Hc as [-> | ->]; cbn [bind ask wp]; by split.
Qed.

Lemma quietly_applyMode mode owner group : quietly (applyMode dest mode owner group).
Proof.
  unfold applyMode. apply quietly_bind_ok.
  { destruct (bool_decide _); [done|]. destruct (parse_octal mode); [|done]. by apply quietly_io. }
  intros _. destruct (_ || _); [|done]. apply quietly_bind_ok.
  { unfold lift, ResolveOwnership. apply quietly_bind; [|done]. apply quietly_bind_ok; [by apply quietly_resolve; left|].
    intros uid. apply quietly_bind_ok; [by apply quietly_resolve; right|done]. }
  intros [uid gid]. unfold lift, chownNoFollow, OpenRealDir, FchownNoFollow. apply quietly_bind; [|done].
  apply quietly_bind_ok; [by apply quietly_sys|]. intros fi. destruct (fi_dir fi).
  - apply quietly_bind_ok; [by apply quietly_sys|]. intros d. apply quietly_finally; [by apply quietly_sys_do|by apply quietly_ignore].
  - apply quietly_bind_ok; [by apply quietly_sys|]. intros d. apply quietly_finally; [|by apply quietly_ignore].
    apply quietly_bind_ok; [by apply quietly_sys|]. intros i. destruct (negb _); [done|]. by apply quietly_sys_do.
Qed.

Lemma quietly_prune view rec names : quietly (pruneTo view rec dest names).
Proof.
  unfold pruneTo. destruct (canWipe _ _ _); [|done]. apply quietly_bind; [by apply quietly_ask|].
  intros [fi|[|m]]; [|done|done]. apply quietly_bind; [by apply quietly_ask|]. intros [es|m]; [|done].
  assert (Hw : forall n, sync_ok dest (QOs (OsRemove (RemoteTree.walk_path dest n)))).
  { intros n. right. apply has_prefix_spec. exists (slashed (RemoteTree.n_path n)). unfold RemoteTree.walk_path. by rewrite <- app_assoc. }
  apply quietly_bind_ok; [|intros _]; apply quietly_for_each; intros [] n; (apply quietly_bind; [apply quietly_ask; exact (Hw n)|done]).
Qed.
End Touch.

Lemma within_dest cwd dest full :
  IsAbs dest = true -> IsAbs full = true -> comps dest <> [] -> assertWithinDest cwd dest full = Ok tt -> in_dest dest full.
Proof.
  intros Hd Hf Hne. unfold assertWithinDest, Abs. rewrite Hd, Hf, !Clean_abs by done.
  destruct (has_prefix _ _) eqn:E; cbn [negb andb].
  - intros _. split; [done|]. apply under_iff_prefix; [done|by apply comps_plain|by apply comps_plain|by right].
  - destruct (bool_decide _) eqn:E2; [|done]. intros _. split; [done|]. apply bool_decide_eq_true, path_of_inj in E2; auto with go. by rewrite E2.
Qed.

(** Whatever the server lists and sends and whatever the host answers: a prefix sync only
    sends GET requests, puts content in place only at or below its destination, creates
    and removes besides only temporary files next to what it puts in place, and removes
    only what is below the destination. *)
Theorem sync_confined {S} (h : handler S) s Parse url_String sha256 fs fs_after xml_decode cwd fuel st dest :
  IsAbs dest = true -> comps dest <> [] ->
  Forall (sync_ok dest) (asked h s (fetchPrefix Parse url_String sha256 fs fs_after xml_decode cwd fuel st dest)).
Proof.
  intros Ha Hne. apply (wp_run _ h s _ (fun _ => True)). unfold fetchPrefix. destruct st as [src rec]. destruct (dest_ok fs dest); [|done].
  apply quietly_bind.
  { unfold listObjects. generalize (@nil s3Object), (@nil ascii). induction fuel as [|fuel IH]; intros all token; [done|]. cbn [list_from].
    apply quietly_bind. { unfold list_page. destruct (bucketRootURL _ _) as [[u path]|]; [|done]. by apply quietly_bind_ok; [apply quietly_http|]. }
    intros [parsed|e]; [|done]. destruct (append_page _ _); [|done]. destruct (_ || _); [done|apply IH]. }
  intros [[objs|e]|]; [|done|done]. apply quietly_bind; [|done]. destruct (bool_decide _); [done|]. unfold keeping.
  apply quietly_bind; [apply quietly_io; by left|]. intros [[]|e]; [|done]. apply quietly_bind.
  { apply quietly_for_each. intros [[bytes files] names] o. unfold sync_object.
    apply quietly_bind_ok; [done|]. intros rel. destruct (assertWithinDest cwd dest (Join [dest; rel])) as [[]|e] eqn:Ew; [|done].
    assert (Ho : in_dest dest (Join [dest; rel])). { eapply within_dest; [done| |done|done]. by apply Join2_comps. }
    apply quietly_bind_ok; [done|]. intros _. apply quietly_bind_ok.
    { unfold openSingleObject. destruct (bucketRootURL _ _) as [[u path]|]; [|done]. by apply quietly_bind_ok; [apply quietly_http|]. }
    intros resp. apply quietly_bind_ok; [|done]. unfold streamObjectToFile. apply quietly_bind_ok; [apply quietly_io; right; by eauto|].
    intros _. apply wp_bind_ok. eapply wp_mono; [|by apply stream_touches]. intros [[[tmp n] sum]|e] Ht; [|done]. cbn [fst] in Ht.
    apply quietly_bind_ok; [|done]. apply quietly_on_error; [by apply quietly_io|]. apply quietly_ignore. left. eauto. }
  intros [[[bytes files] names]|e]; [|done]. apply quietly_bind; [destruct (s3_Prune _); [apply quietly_prune|done]|].
  intros [[]|e]; [|done]. apply quietly_bind; [apply quietly_applyMode|]. by intros [[]|e].
Qed.

(** ** A bucket *)

(** A host with a server that answers every request, and a destination that holds [walk]. *)
Definition bucket_host (walk : list (list gostring * bool)) : handler unit :=
  fun X s c => match c in call X return unit * X with
               | COs o => (s, match o return os_ans o with
                              | OsWalkDir _ => Ok walk
                              | o => RemoteFetch.origin_os 200 200 (str "hello") [] true o
                              end)
               | c' => command_host (fun s _ _ => (s, (Exec.MkResult 1 [] [], None))) absent absent _ s c'
               end.
Definition bucket_url (_ : gostring) : option URL := Some (MkURL (str "https") (str "s3.example") false [] []).
Definition bucket_cfg (prune : bool) : S3Config := MkS3Config (str "https://s3.example") (str "b") (str "docs/") [] [] [] prune.
Definition sync (keys : list gostring) (walk : list (list gostring * bool)) (prune : bool) (dest : gostring) :=
  (bucket_host walk, fetchPrefix bucket_url (fun _ p _ => p) id bare_fs bare_fs
     (fun _ _ => Ok (MkList false [] ((fun k => MkObject k []) <$> keys))) None 1 (MkS3 (bucket_cfg prune) [] [], ∅) dest).
Definition sync_asked keys walk prune dest := asked (sync keys walk prune dest).1 tt (sync keys walk prune dest).2.
Definition sync_result keys walk prune dest : option (result fetch_error FetchResult) :=
  option_map snd (run (sync keys walk prune dest).1 tt (sync keys walk prune dest).2).2.

Lemma sync_confined_witness :
  let keys := [str "docs/a"; str "docs/d/b"] in
  Forall (sync_ok RemoteFetch.site) (sync_asked keys [] true RemoteFetch.site) /\
  QOs (OsRename (RemoteFetch.site ++ str "/d/b.tmp.6161616161616161") (RemoteFetch.site ++ str "/d/b")) ∈ sync_asked keys [] true RemoteFetch.site.
Proof.
  cbn zeta. split.
  - apply (sync_confined (bucket_host []) tt bucket_url (fun _ p _ => p) id bare_fs bare_fs
      (fun _ _ => Ok (MkList false [] ((fun k => MkObject k []) <$> [str "docs/a"; str "docs/d/b"]))) None 1
      (MkS3 (bucket_cfg true) [] [], ∅) RemoteFetch.site); [reflexivity|]. intros H. vm_compute in H. discriminate H.
  - apply list_elem_of_In. vm_compute. repeat first [left; reflexivity|right].
Defined.
(** A server with two pages. *)
Definition paging_host : handler unit :=
  fun X s c => match c in call X return unit * X with
               | COs o => (s, match o return os_ans o with
                              | OsHttp _ url _ => Ok (MkResponse 200 [] [] (if contains url (str "continuation-token=next") then str "2" else str "1") None)
                              | o => RemoteFetch.origin_os 200 200 [] [] true o
                              end)
               | c' => command_host (fun s _ _ => (s, (Exec.MkResult 1 [] [], None))) absent absent _ s c'
               end.
Definition paging_xml (b : gostring) (_ : option gostring) : result gostring listV2Response :=
  if bool_decide (b = str "1") then Ok (MkList true (str "next") [MkObject (str "docs/a") []]) else Ok (MkList false [] [MkObject (str "docs/b") []]).
Definition paging_url (_ : URL) (p : gostring) (q : option gostring) : gostring := p ++ str "?" ++ default [] q.

(** ** What goes wrong *)

(** The destination is recorded after the prune, which refuses one that was not: outside
    the managed roots the first mirroring sync always fails, after writing everything. *)
Lemma prune_before_record :
  sync_result [str "docs/a"] [([str "a"], false)] true (str "/opt/site") = Some (Err (ErrUnsafeDest (NotRecorded (str "/opt/site")))) /\
  sync_result [str "docs/a"] [([str "a"], false)] false (str "/opt/site") <> sync_result [str "docs/a"] [([str "a"], false)] true (str "/opt/site") /\
  QOs (OsRename (str "/opt/site/a.tmp.6161616161616161") (str "/opt/site/a")) ∈ sync_asked [str "docs/a"] [([str "a"], false)] true (str "/opt/site").
Proof.
  split; [vm_compute; reflexivity|]. split; [intros H; vm_compute in H; discriminate H|].
  apply list_elem_of_In. vm_compute. repeat first [left; reflexivity|right].
Qed.

(** The names to keep are those of the keys, not of the files: with a doubled slash the
    object that was just fetched is removed again, and the sync reports success. *)
Lemma unnormalised_key_pruned :
  sync_result [str "docs/a//b"] [([str "a"], true); ([str "a"; str "b"], false)] true RemoteFetch.site
    = Some (Ok (MkResult_ true 5 1 [] (RemoteTree.hex (listing_stream [MkObject (str "docs/a//b") []])))) /\
  QOs (OsRemove (RemoteFetch.site ++ str "/a/b")) ∈ sync_asked [str "docs/a//b"] [([str "a"], true); ([str "a"; str "b"], false)] true RemoteFetch.site.
Proof. split; [vm_compute; reflexivity|]. apply list_elem_of_In. vm_compute. repeat first [left; reflexivity|right]. Qed.

(** The object a console creates for a folder makes every sync of the prefix fail. *)
Lemma folder_object_fails :
  sync_result [str "docs/"; str "docs/a"] [] false RemoteFetch.site = Some (Err (ErrInvalidConfig (str "key is the prefix"))).
Proof. vm_compute. reflexivity. Qed.

(** ** Pruning over the host is the pruning of trees *)

Section PruneHost.
Import RemoteTree.
Context (fs : FileSystem) (walkErr : option gostring) (fault : node -> option gostring) (dest : gostring).

Definition tree_os (tree : list node) (o : os_op) : list node * os_ans o :=
  match o with
  | OsStat p => (tree, match Stat fs p with
                       | Ok _ => Ok (MkFileInfo true false 493 false (Some 0%Z) 0 (0, 0)%Z)
                       | Err ErrNotExist => Err NotExist
                       | Err _ => Err (OtherErr [])
                       end)
  | OsWalkDir _ => (tree, match walkErr with Some m => Err m | None => Ok ((fun n => (n_path n, n_dir n)) <$> tree) end)
  | OsRemove p =>
      match list_find (fun n => walk_path dest n = p) tree with
      | None => (tree, Some NotExist)
      | Some (_, n) =>
          match os_Remove fault tree n with
          | Ok tree' => (tree', None)
          | Err NotEmpty => (tree, Some not_empty)
          | Err (RmFault m) => (tree, Some (OtherErr m))
          end
      end
  | o => (tree, os_absent o)
  end.
Definition tree_host : handler (list node) :=
  fun X s c => match c in call X return list node * X with
               | COs o => tree_os s o
               | c' => command_host (fun s _ _ => (s, (Exec.MkResult 1 [] [], None))) absent absent _ s c'
               end.

Lemma find_node tree n : NoDup (walk_path dest <$> tree) -> n ∈ tree ->
  exists i, list_find (fun m => walk_path dest m = walk_path dest n) tree = Some (i, n).
Proof.
  intros Hnd Hn. destruct (list_find_elem_of (fun m => walk_path dest m = walk_path dest n) tree n Hn eq_refl) as [[i m] Hf].
  exists i. rewrite Hf. apply list_find_Some in Hf as (Hi & Hw & _). apply list_elem_of_lookup in Hn as [j Hj].
  assert (i = j) as ->; [|congruence]. apply (NoDup_lookup _ _ _ (walk_path dest n) Hnd); rewrite list_lookup_fmap; [by rewrite Hi, <- Hw|by rewrite Hj].
Qed.
Lemma NoDup_names_filter (P : node -> Prop) `{!forall n, Decision (P n)} tree :
  NoDup (walk_path dest <$> tree) -> NoDup (walk_path dest <$> filter P tree).
Proof.
  induction tree as [|n tree IH]; [done|]. rewrite fmap_cons, list.NoDup_cons. intros [Hn Hnd]. rewrite filter_cons.
  destruct (decide (P n)); [|auto]. rewrite fmap_cons. apply list.NoDup_cons. split; [|auto].
  intros (m & Hm & Hin)%list_elem_of_fmap_1. apply list_elem_of_filter in Hin as [_ Hin]. apply Hn. rewrite Hm. by apply list_elem_of_fmap_2.
Qed.

Definition faults_named : Prop := forall n m, fault n = Some m -> m <> str "directory not empty".

(** What removing one entry does, on both sides. *)
Lemma remove_step T n : NoDup (walk_path dest <$> T) -> n ∈ T ->
  tree_os T (OsRemove (walk_path dest n)) =
  match os_Remove fault T n with
  | Ok T' => (T', None)
  | Err NotEmpty => (T, Some not_empty)
  | Err (RmFault m) => (T, Some (OtherErr m))
  end.
Proof. intros Hnd Hn. unfold tree_os. by destruct (find_node T n Hnd Hn) as [i ->]. Qed.

Lemma shrunk T T' n l : NoDup (walk_path dest <$> T) -> NoDup (n :: l) -> (forall m, m ∈ l -> m ∈ T) -> os_Remove fault T n = Ok T' ->
  NoDup (walk_path dest <$> T') /\ (forall m, m ∈ l -> m ∈ T').
Proof.
  intros Hnd [Hn Hl]%list.NoDup_cons Hin. unfold os_Remove. destruct (fault n); [done|]. destruct (_ && _); [done|]. intros [= <-].
  split; [by apply NoDup_names_filter|]. intros m Hm. apply list_elem_of_filter. split; [by intros ->|auto].
Qed.

Lemma victim_run T n : NoDup (walk_path dest <$> T) -> n ∈ T ->
  run tree_host T (remove_victim dest tt n) =
  match os_Remove fault T n with Ok T' => (T', Ok tt) | Err _ => (T, Err (ErrIO (str "remove"))) end.
Proof.
  intros HT Hn. unfold remove_victim. cbn [bind ask run tree_host]. rewrite remove_step by done. by destruct (os_Remove fault T n) as [T'|[|m]].
Qed.
Lemma empty_run T n : faults_named -> NoDup (walk_path dest <$> T) -> n ∈ T ->
  run tree_host T (remove_empty dest tt n) =
  match os_Remove fault T n with
  | Ok T' => (T', Ok tt)
  | Err NotEmpty => (T, Ok tt)
  | Err (RmFault m) => (T, Err (ErrIO (str "rmdir")))
  end.
Proof.
  intros Hfn HT Hn. unfold remove_empty. cbn [bind ask run tree_host]. rewrite remove_step by done. unfold os_Remove.
  destruct (fault n) as [m|] eqn:Ef; [cbn [run]; by rewrite bool_decide_false by by apply (Hfn n)|]. destruct (_ && _); [|done].
  unfold not_empty. cbn [run]. by rewrite bool_decide_true.
Qed.

Lemma remove_files_keeps l T T1 : remove_files fault dest T l = (T1, None) -> NoDup (walk_path dest <$> T) ->
  NoDup (walk_path dest <$> T1) /\ forall n, n ∈ T -> n ∉ l -> n ∈ T1.
Proof.
  revert T. induction l as [|v l IH]; intros T; cbn [remove_files]; [by intros [= <-]|]. unfold os_Remove.
  destruct (fault v); [done|]. destruct (_ && _); [done|]. intros H HT. destruct (IH _ H) as [H1 H2]; [by apply NoDup_names_filter|].
  split; [done|]. intros n Hn Hl. apply H2; [|set_solver]. apply list_elem_of_filter. set_solver.
Qed.
Lemma filter_list (p : node -> bool) l : List.filter p l = filter (fun n => p n = true) l.
Proof. induction l as [|n l IH]; [done|]. cbn [List.filter]. rewrite filter_cons, IH. by destruct (p n). Qed.

Lemma files_refine l T : NoDup (walk_path dest <$> T) -> NoDup l -> (forall n, n ∈ l -> n ∈ T) -> (forall n, n ∈ l -> n_dir n = false) ->
  (run tree_host T (for_each (remove_victim dest) l tt)).1 = (remove_files fault dest T l).1 /\
  ((run tree_host T (for_each (remove_victim dest) l tt)).2 = Ok tt <-> (remove_files fault dest T l).2 = None).
Proof.
  revert T. induction l as [|n l IH]; intros T HT Hl Hin Hf; cbn [for_each remove_files]; [done|].
  unfold bind_ok. rewrite run_bind, victim_run by (done || apply Hin; left).
  destruct (os_Remove fault T n) as [T'|[|m]] eqn:Er; cbn [run fst snd].
  - destruct (shrunk T T' n l HT Hl) as [HT' Hin']; [intros; apply Hin; by right|done|].
    apply IH; [done|by apply list.NoDup_cons in Hl as [_ ?]|done|intros; apply Hf; by right].
  - exfalso. unfold os_Remove in Er. rewrite (Hf n) in Er by left. by destruct (fault n).
  - done.
Qed.
Lemma dirs_refine l T : faults_named -> NoDup (walk_path dest <$> T) -> NoDup l -> (forall n, n ∈ l -> n ∈ T) ->
  (run tree_host T (for_each (remove_empty dest) l tt)).1 = (remove_dirs fault dest T l).1 /\
  ((run tree_host T (for_each (remove_empty dest) l tt)).2 = Ok tt <-> (remove_dirs fault dest T l).2 = None).
Proof.
  intros Hfn. revert T. induction l as [|n l IH]; intros T HT Hl Hin; cbn [for_each remove_dirs]; [done|].
  unfold bind_ok. rewrite run_bind, empty_run by (done || apply Hin; left).
  assert (Hnd : NoDup l) by (by apply list.NoDup_cons in Hl as [_ ?]).
  destruct (os_Remove fault T n) as [T'|[|m]] eqn:Er; cbn [run fst snd].
  - destruct (shrunk T T' n l HT Hl) as [HT' Hin']; [intros; apply Hin; by right|done|]. by apply IH.
  - apply IH; [done|done|]. intros; apply Hin; by right.
  - done.
Qed.

(** [pruneTo] over the host leaves the tree, and succeeds exactly when, the pruning of
    trees does, whose result [pruneTo_mirror] states. *)
Theorem prune_refines rec names tree :
  faults_named -> NoDup (walk_path dest <$> tree) ->
  (run tree_host tree (RemoteS3.pruneTo fs rec dest names)).1 = (RemoteTree.pruneTo fs rec walkErr fault dest names tree).1 /\
  ((run tree_host tree (RemoteS3.pruneTo fs rec dest names)).2 = Ok tt <->
   (RemoteTree.pruneTo fs rec walkErr fault dest names tree).2 = None).
Proof.
  intros Hfn Hnd. unfold RemoteS3.pruneTo, RemoteTree.pruneTo. destruct (canWipe fs rec dest); [|done].
  cbn [bind ask run tree_host tree_os]. destruct (Stat fs dest) as [|[]]; cbn [run fst snd]; try done.
  cbn [tree_host tree_os]. destruct walkErr as [m|]; [done|]. cbn [run fst snd]. rewrite <- list_fmap_compose.
  assert (Hid : (((fun e => MkNode e.1 e.2) ∘ (fun n => (n_path n, n_dir n))) <$> tree) = tree).
  { rewrite <- (list_fmap_id tree) at 2. apply list_fmap_ext. by intros i [] _. }
  rewrite Hid. unfold prune_tree, bind_ok. rewrite run_bind.
  assert (Ht : NoDup tree) by (by eapply NoDup_fmap_1).
  set (vs := List.filter (victim names) tree).
  assert (Hvs : vs = filter (fun n => victim names n = true) tree).
  { apply filter_list. }
  destruct (files_refine vs tree) as [H1 H2]; [done|by rewrite Hvs; apply list.NoDup_filter| | |].
  { intros n. rewrite Hvs. by intros [_ ?]%list_elem_of_filter. }
  { intros n. rewrite Hvs. intros [Hv _]%list_elem_of_filter. unfold victim in Hv. by destruct (n_dir n). }
  destruct (remove_files fault dest tree vs) as [T1 [e|]] eqn:Er; cbn [fst snd] in *.
  - destruct ((run tree_host tree _).2) as [[]|]; [by destruct H2 as [H2 _]; specialize (H2 eq_refl)|]. done.
  - rewrite (proj2 H2 eq_refl), H1. destruct (remove_files_keeps vs tree T1 Er Hnd) as [HT1 Hk].
    apply dirs_refine; [done|done|by rewrite merge_sort_Permutation, filter_list; apply list.NoDup_filter|].
    intros n. rewrite merge_sort_Permutation, filter_list. intros [Hd Hn]%list_elem_of_filter. apply Hk; [done|].
    rewrite Hvs. intros [Hv _]%list_elem_of_filter. unfold victim in Hv. by rewrite Hd in Hv.
Qed.
End PruneHost.

Lemma prune_refines_witness :
  let here := MkFileSystem (Some (str "/root")) (fun _ => Ok tt) (fun _ => false) Ok in
  let tree := [RemoteTree.MkNode [str "a"] false; RemoteTree.MkNode [str "b"] false] in
  (run (tree_host here None RemoteTree.no_fault RemoteFetch.site) tree (RemoteS3.pruneTo here ∅ RemoteFetch.site {[ str "a" ]})).1
    = [RemoteTree.MkNode [str "a"] false].
Proof.
  cbn zeta. refine (eq_trans (proj1 (prune_refines _ None RemoteTree.no_fault RemoteFetch.site ∅ {[ str "a" ]} _ _ _)) _).
  - intros n m H. discriminate H.
  - apply (bool_decide_unpack _). vm_compute. exact I.
  - vm_compute. reflexivity.
Defined.
End RemoteSync.
