(* ===== verification/RemoteGit.v ===== *)
(** * Git sources ([src/sys/remote/git.go], [vc.go], [vc_gogit.go])

    The registry of version-control backends, the source that drives one, and the go-git
    backend.  The go-git library is part of the host: its operations on a repository are
    calls ([OsGit]).  URL parsing and the parsing of a hash are parameters. *)
From S2P Require Import Prelude Exec Paths FsGuard Remote RemoteTree HostProg HostCmd Fs RemoteHttp RemoteFetch.

Module RemoteGit.
Import HostProg Paths FsGuard Remote Fs RemoteHttp.

Record GitConfig := MkGitConfig {
  g_URL : gostring; g_Ref : gostring; g_Submodules : bool; g_Owner : gostring; g_Group : gostring;
  g_Prune : bool; g_Driver : gostring
}.

(** ** Backends ([vc.go]) *)

Record VersionControlBackend := MkBackend {
  CloneOrSync : GitConfig -> gostring -> prog (result fetch_error FetchResult);
  Resolve : GitConfig -> prog (result fetch_error gostring)
}.

Definition vcRegistry : Type := gmap gostring VersionControlBackend.
(** An empty name and a nil backend are ignored. *)
Definition RegisterVersionControlBackend (m : vcRegistry) (name : gostring) (b : option VersionControlBackend) : vcRegistry :=
  match b with
  | Some b => if bool_decide (name = []) then m else <[name := b]> m
  | None => m
  end.
Definition versionControlBackend (m : vcRegistry) (driver : gostring) : result fetch_error VersionControlBackend :=
  match m !! driver with Some b => Ok b | None => Err (ErrBackendNotFound driver) end.

(** ** Configuration *)

Definition ref_char (c : ascii) : bool :=
  is_digit c || in_range "a"%char "z"%char c || in_range "A"%char "Z"%char c ||
  bool_decide (c ∈ ["."%char; "_"%char; "/"%char; "-"%char]).
Definition gitRefAllowed (ref : gostring) : bool := (1 <=? length ref) && (length ref <=? 250) && forallb ref_char ref.

Definition set_ref_driver (c : GitConfig) (ref driver : gostring) : GitConfig :=
  MkGitConfig (g_URL c) ref (g_Submodules c) (g_Owner c) (g_Group c) (g_Prune c) driver.

Section Parse.
Context (Parse : gostring -> option URL).

Definition validateGitURL (raw : gostring) : result fetch_error unit :=
  if bool_decide (trim_space raw = []) then Err (ErrInvalidConfig (str "url is empty"))
  else match Parse raw with
       | None => Err (ErrInvalidConfig (str "parse"))
       | Some u =>
           if negb (bool_decide (u_Scheme u = str "https")) then Err (ErrInvalidConfig (str "scheme"))
           else if u_User u then Err (ErrInvalidConfig (str "userinfo"))
           else if bool_decide (u_Host u = []) then Err (ErrInvalidConfig (str "no host"))
           else Ok tt
       end.

(** The configuration with its defaults. *)
Definition validateGitConfig (c : GitConfig) : result fetch_error GitConfig :=
  let? _ := validateGitURL (g_URL c) in
  let? ref := (if bool_decide (g_Ref c = []) then Ok (str "main")
               else if negb (gitRefAllowed (g_Ref c)) then Err (ErrInvalidConfig (str "ref")) else Ok (g_Ref c)) in
  Ok (set_ref_driver c ref (if bool_decide (g_Driver c = []) then str "go-git" else g_Driver c)).

Record gitSource := MkGit { git_cfg : GitConfig; backend : VersionControlBackend; git_revision : gostring }.

Definition NewGit (m : vcRegistry) (c : GitConfig) : result fetch_error gitSource :=
  let? c := validateGitConfig c in
  let? b := versionControlBackend m (g_Driver c) in
  Ok (MkGit c b []).
End Parse.

Definition String_ (g : gitSource) : gostring :=
  str "git " ++ g_URL (git_cfg g) ++ str " @ " ++ g_Ref (git_cfg g) ++ str " [" ++ g_Driver (git_cfg g) ++ str "]".

(** ** Fetching *)

Section Fetch.
Context (fs fs_after : FileSystem).

Definition git_state : Type := gitSource * Recorded.
Definition git_outcome : Type := git_state * result fetch_error FetchResult.

(** Whether the upstream revision is the cached one; an error means that it is not known. *)
Definition upstream_unchanged (g : gitSource) : prog bool :=
  if bool_decide (git_revision g = []) then Ret false
  else let! r := Resolve (backend g) (git_cfg g) in
       Ret (match r with Ok u => bool_decide (u = git_revision g) | Err _ => false end).

Definition Fetch (s : git_state) (dest : gostring) : prog git_outcome :=
  let '(g, rec) := s in
  match dest_ok fs dest with
  | Err e => Ret (s, Err e)
  | Ok _ =>
      let! same := upstream_unchanged g in
      if same then Ret (s, Ok (unchanged (git_revision g)))
      else
        let! r := CloneOrSync (backend g) (git_cfg g) dest in
        match r with
        | Err e => Ret (s, Err e)
        | Ok res =>
            let! m := applyMode dest [] (g_Owner (git_cfg g)) (g_Group (git_cfg g)) in
            match m with
            | Err e => Ret (s, Err e)
            | Ok _ =>
                let g' := if bool_decide (Revision res = []) then g else MkGit (git_cfg g) (backend g) (Revision res) in
                Ret ((g', RecordDest fs_after rec dest), Ok res)
            end
        end
  end.
End Fetch.

(** ** The go-git backend ([vc_gogit.go]) *)

Definition git (o : git_op) : prog (git_ans o) := ask (COs (OsGit o)).
Definition fallible (p : prog (option gostring)) : prog (result fetch_error unit) :=
  let! r := p in Ret (match r with None => Ok tt | Some m => Err (ErrIO m) end).

Definition matchRef (refs : list (gostring * gostring)) (ref : gostring) : option gostring :=
  match List.find (fun r => bool_decide (r.1 = str "refs/heads/" ++ ref) || bool_decide (r.1 = str "refs/tags/" ++ ref)) refs with
  | Some r => Some r.2
  | None =>
      match List.find (fun r => bool_decide (r.1 = str "refs/tags/" ++ ref ++ str "^{}")) refs with
      | Some r => Some r.2
      | None => None
      end
  end.

Definition gogit_Resolve (c : GitConfig) : prog (result fetch_error gostring) :=
  let! refs := git (GitList (g_URL c)) in
  Ret (match refs with
       | Err m => Err (ErrIO m)
       | Ok refs => match matchRef refs (g_Ref c) with
                    | Some h => Ok h
                    | None => Err (ErrInvalidConfig (str "ref not found"))
                    end
       end).

(** Whether the repository was cloned. *)
Definition openOrClone (c : GitConfig) (dest : gostring) : prog (result fetch_error bool) :=
  let! st := ask (COs (OsStat (Join [dest; str ".git"]))) in
  match st with
  | Ok _ => let!? _ := fallible (git (GitPlainOpen dest)) in Ret (Ok false)
  | Err _ =>
      let!? _ := io (str "mkdir parent") (COs (OsMkdirAll (Dir dest) 493)) in
      let!? _ := on_error (fallible (git (GitPlainClone dest (g_URL c) (g_Submodules c)))) (ignore (COs (OsRemoveAll dest))) in
      Ret (Ok true)
  end.

Definition goGitFetch (dest : gostring) : prog (option git_fetch_err) :=
  git (GitFetch dest (str "origin") [str "+refs/heads/*:refs/remotes/origin/*"; str "+refs/tags/*:refs/tags/*"]).

Section Backend.
(** [plumbing.NewHash], [None] when the hash is zero. *)
Context (NewHash : gostring -> option gostring).

Fixpoint first_reference (dest : gostring) (candidates : list gostring) : prog (option gostring) :=
  match candidates with
  | [] => Ret None
  | n :: rest =>
      let! r := git (GitReference dest n) in
      match r with Some h => Ret (Some h) | None => first_reference dest rest end
  end.
Definition resolveTargetHash (dest ref : gostring) : prog (result fetch_error gostring) :=
  let! r := first_reference dest [str "refs/remotes/origin/" ++ ref; str "refs/heads/" ++ ref; str "refs/tags/" ++ ref] in
  match r with
  | Some h => Ret (Ok h)
  | None =>
      let not_found := Err (ErrInvalidConfig (str "ref not found")) in
      match NewHash ref with
      | Some h => let! ok := git (GitCommitObject dest h) in Ret (if ok then Ok h else not_found)
      | None => Ret not_found
      end
  end.

(** *** Untracked files *)

Record untrackedFile := MkUntracked { relPath : gostring; u_body : gostring; u_mode : N }.

Definition snapshot_one (dest : gostring) (e : gostring * bool) : prog (option untrackedFile) :=
  if negb e.2 then Ret None
  else
    let full := Join [dest; e.1] in
    let! info := ask (COs (OsLstat full)) in
    match info with
    | Err _ => Ret None
    | Ok fi =>
        if negb (fi_regular fi) then Ret None
        else
          let! body := ask (CReadFile full) in
          Ret (match body with Ok b => Some (MkUntracked e.1 b (fi_perm fi)) | Err _ => None end)
    end.
Fixpoint snapshot_all (dest : gostring) (es : list (gostring * bool)) : prog (list untrackedFile) :=
  match es with
  | [] => Ret []
  | e :: es' =>
      let! f := snapshot_one dest e in
      let! rest := snapshot_all dest es' in
      Ret (match f with Some f => f :: rest | None => rest end)
  end.
(** The status is a map; its entries come in the order of the host's answer. *)
Definition snapshotUntracked (dest : gostring) : prog (list untrackedFile) :=
  let! st := git (GitStatus dest) in
  match st with Err _ => Ret [] | Ok es => snapshot_all dest es end.

Definition restore_one (dest : gostring) (_ : unit) (f : untrackedFile) : prog (result fetch_error unit) :=
  let full := Join [dest; relPath f] in
  let!? _ := io (str "mkdir") (COs (OsMkdirAll (Dir full) 493)) in
  io (str "write") (COs (OsWriteFile full (u_body f) (u_mode f))).
Definition restoreUntracked (dest : gostring) (snap : list untrackedFile) : prog (result fetch_error unit) :=
  for_each (restore_one dest) snap tt.

(** *** Counting *)

(** An entry the walk of the working tree visits: its components below the root, whether
    it is a directory, whether it is regular, and its size when it can be read. *)
Record walked := MkWalked { w_path : list gostring; w_dir : bool; w_regular : bool; w_size : option Z }.

Definition under_git (es : list walked) (e : walked) : bool :=
  existsb (fun d => w_dir d && bool_decide (list.last (w_path d) = Some (str ".git")) &&
                    bool_decide (w_path d `prefix_of` w_path e)) es.
Definition countTreeFiles (es : list walked) : nat * Z :=
  let seen := List.filter (fun e => w_regular e && negb (under_git es e)) es in
  (length seen, fold_left (fun t e => match w_size e with Some n => Exec.wrap64 (t + n) | None => t end) seen 0%Z).

(** The entries visited in the working tree at the end. *)
Context (tree_after : list walked).

Definition clean (dest : gostring) : prog (result fetch_error unit) := fallible (git (GitClean dest)).

(** From the target on: nothing to do, or checkout. *)
Definition checkout (c : GitConfig) (dest : gostring) (fresh : bool) (target : gostring) : prog (result fetch_error FetchResult) :=
  let drop := if fresh then ignore (COs (OsRemoveAll dest)) else Ret tt in
  let!? _ := fallible (git (GitWorktree dest)) in
  let! snapshot := (if negb fresh && negb (g_Prune c) then snapshotUntracked dest else Ret []) in
  let!? _ := on_error (fallible (git (GitCheckout dest target))) drop in
  let!? _ := restoreUntracked dest snapshot in
  let!? _ := (if g_Prune c then clean dest else Ret (Ok tt)) in
  let '(files, total) := countTreeFiles tree_after in
  Ret (Ok (MkResult_ true total files [] target)).

Definition gogit_CloneOrSync (c : GitConfig) (dest : gostring) : prog (result fetch_error FetchResult) :=
  let!? fresh := openOrClone c dest in
  let!? _ := (if fresh then Ret (Ok tt)
              else let! e := goGitFetch dest in
                   Ret (match e with None | Some NoErrAlreadyUpToDate => Ok tt | Some (GitFetchErr m) => Err (ErrIO m) end)) in
  let!? target := on_error (resolveTargetHash dest (g_Ref c)) (if fresh then ignore (COs (OsRemoveAll dest)) else Ret tt) in
  let! head := git (GitHead dest) in
  if negb fresh && bool_decide (head = Some target) then
    let! _ := (if g_Prune c then
                 let! w := fallible (git (GitWorktree dest)) in
                 match w with Ok _ => let! _ := clean dest in Ret tt | Err _ => Ret tt end
               else Ret tt) in
    Ret (Ok (MkResult_ false 0 0 [] target))
  else checkout c dest fresh target.

Definition goGitBackend : VersionControlBackend := MkBackend gogit_CloneOrSync gogit_Resolve.
(** [init] *)
Definition registered : vcRegistry := RegisterVersionControlBackend ∅ (str "go-git") (Some goGitBackend).
End Backend.
End RemoteGit.

(** * Git sources: what a sync does ([src/sys/remote/vc_gogit.go], [git.go])

    On every host, whatever go-git and the file system answer: the backend stays at its
    destination, checks out only the commit that the configured reference names there, and
    writes back exactly the untracked files that it read before. *)

Module RemoteGitSync.
Import HostProg Paths FsGuard Remote Fs RemoteHttp RemoteGit.

Section Confined.
Context (NewHash : gostring -> option gostring) (c : GitConfig) (dest : gostring).

(** The calls so far with their answers, and what was read from which file. *)
Definition ghost : Type := list HostProg.event * list (gostring * gostring).
Definition watch (g : ghost) X (q : call X) (x : X) : ghost :=
  (g.1 ++ [event_of q x],
   g.2 ++ match q in call X return X -> list (gostring * gostring) with
          | CReadFile p => fun r => match r with Ok b => [(p, b)] | Err _ => [] end
          | _ => fun _ => []
          end x).

Definition happened (g : ghost) (o : os_op) (a : os_ans o) : Prop := EvOs o a ∈ g.1.
Definition cloned (g : ghost) : Prop := exists u b a, happened g (OsGit (GitPlainClone dest u b)) a.
Definition seen_untracked (g : ghost) (rel : gostring) : Prop :=
  exists es, happened g (OsGit (GitStatus dest)) (Ok es) /\ (rel, true) ∈ es.
(** A path of a file that the status called untracked. *)
Definition local_file (g : ghost) (p : gostring) : Prop := exists rel, p = Join [dest; rel] /\ seen_untracked g rel.
(** The content and the mode that such a file had. *)
Definition read_before (g : ghost) (p body : gostring) (mode : N) : Prop :=
  (p, body) ∈ g.2 /\ exists fi, happened g (OsLstat p) (Ok fi) /\ fi_regular fi = true /\ mode = fi_perm fi.
(** An untracked file was looked at and, when it is regular, read. *)
Definition looked_at (g : ghost) (rel : gostring) : Prop :=
  exists a, happened g (OsLstat (Join [dest; rel])) a /\
    (forall fi, a = Ok fi -> fi_regular fi = true -> EvOther (QReadFile (Join [dest; rel])) ∈ g.1).
(** All the untracked files of an answered status were. *)
Definition saved (g : ghost) : Prop :=
  exists a, happened g (OsGit (GitStatus dest)) a /\ (forall es rel, a = Ok es -> (rel, true) ∈ es -> looked_at g rel).
(** The commit that the reference names: a branch of the server first, then a local branch,
    then a tag, then a commit by its hash. *)
Definition branch_refs : list gostring :=
  [str "refs/remotes/origin/" ++ g_Ref c; str "refs/heads/" ++ g_Ref c; str "refs/tags/" ++ g_Ref c].
Definition unknown (g : ghost) (n : gostring) : Prop := happened g (OsGit (GitReference dest n)) None.
Definition target (g : ghost) (h : gostring) : Prop :=
  (exists before n after, branch_refs = before ++ n :: after /\ Forall (unknown g) before /\
     happened g (OsGit (GitReference dest n)) (Some h)) \/
  (Forall (unknown g) branch_refs /\ NewHash (g_Ref c) = Some h /\ happened g (OsGit (GitCommitObject dest h)) true).

Definition sync_os (g : ghost) (o : os_op) : Prop :=
  match o with
  | OsGit (GitPlainClone d u b) => d = dest /\ u = g_URL c /\ b = g_Submodules c
  | OsGit (GitFetch d r specs) => d = dest /\ r = str "origin" /\
      specs = [str "+refs/heads/*:refs/remotes/origin/*"; str "+refs/tags/*:refs/tags/*"]
  | OsGit (GitCheckout d h) => d = dest /\ target g h /\
      (cloned g \/ g_Prune c = true \/ saved g)
  | OsGit (GitClean d) => d = dest /\ g_Prune c = true
  | OsGit (GitPlainOpen d) | OsGit (GitReference d _) | OsGit (GitCommitObject d _) | OsGit (GitHead d)
  | OsGit (GitWorktree d) | OsGit (GitStatus d) => d = dest
  | OsGit (GitList _) => False
  | OsStat p => p = Join [dest; str ".git"]
  | OsMkdirAll p _ => p = Dir dest \/ exists f, p = Dir f /\ local_file g f
  | OsLstat p => local_file g p
  | OsWriteFile p body mode => local_file g p /\ read_before g p body mode
  | OsRemoveAll p => p = dest /\ cloned g
  | _ => False
  end.
Definition sync_ok (g : ghost) X (q : call X) : Prop :=
  match q with COs o => sync_os g o | CReadFile p => local_file g p | CCtxErr => True | _ => False end.
Abbreviation wpo := (wpg watch sync_ok).

(** ** More is only learned *)

Definition le (g g' : ghost) : Prop := (forall e, e ∈ g.1 -> e ∈ g'.1) /\ (forall r, r ∈ g.2 -> r ∈ g'.2).
Lemma le_refl g : le g g.
Proof. done. Qed.
Lemma le_trans g1 g2 g3 : le g1 g2 -> le g2 g3 -> le g1 g3.
Proof. intros [? ?] [? ?]. split; auto. Qed.
Lemma le_watch g X (q : call X) x : le g (watch g X q x).
Proof. split; intros ? ?; apply elem_of_app; by left. Qed.
Lemma le_more g g' X (q : call X) x : le g g' -> le g (watch g' X q x).
Proof. intros H. eapply le_trans; [exact H|apply le_watch]. Qed.
Lemma watched g o a : happened (watch g _ (COs o) a) o a.
Proof. apply elem_of_app. right. by apply list_elem_of_singleton. Qed.
Lemma happened_le g g' o a : le g g' -> happened g o a -> happened g' o a.
Proof. intros [H _]. apply H. Qed.
Lemma cloned_le g g' : le g g' -> cloned g -> cloned g'.
Proof. intros H (u & b & a & Hc). exists u, b, a. by eapply happened_le. Qed.
Lemma untracked_le g g' rel : le g g' -> seen_untracked g rel -> seen_untracked g' rel.
Proof. intros H (es & He & Hr). exists es. split; [by eapply happened_le|done]. Qed.
Lemma local_le g g' p : le g g' -> local_file g p -> local_file g' p.
Proof. intros H (rel & He & Hr). exists rel. split; [done|by eapply untracked_le]. Qed.
Lemma read_le g g' p b m : le g g' -> read_before g p b m -> read_before g' p b m.
Proof. intros H (Hr & fi & Hl & Hx). split; [by apply H|]. exists fi. split; [by eapply happened_le|done]. Qed.
Lemma looked_le g g' rel : le g g' -> looked_at g rel -> looked_at g' rel.
Proof. intros H (a & Ha & Hr). exists a. split; [by eapply happened_le|]. intros fi E1 E2. by eapply H, Hr. Qed.
Lemma saved_le g g' : le g g' -> saved g -> saved g'.
Proof. intros H (a & Ha & Hr). exists a. split; [by eapply happened_le|]. intros es rel E1 E2. eapply looked_le; [exact H|by eapply Hr]. Qed.
Lemma unknown_le g g' l : le g g' -> Forall (unknown g) l -> Forall (unknown g') l.
Proof. intros H Hl. eapply list.Forall_impl; [exact Hl|]. intros n. by apply happened_le. Qed.
Lemma target_le g g' h : le g g' -> target g h -> target g' h.
Proof.
  intros H [(b & n & a & E & Hb & Hn)|(Hb & Hh & Hc)]; [left|right].
  - exists b, n, a. split_and!; [done|by eapply unknown_le|by eapply happened_le].
  - split_and!; [by eapply unknown_le|done|by eapply happened_le].
Qed.
Hint Resolve le_refl le_more le_watch le_trans : core.

Lemma wpo_git (o : git_op) g (Q : ghost -> git_ans o -> Prop) :
  sync_os g (OsGit o) -> (forall a, Q (watch g _ (COs (OsGit o)) a) a) -> wpo (git o) g Q.
Proof. intros Ho HQ. unfold git. cbn [ask wpg]. split; [exact Ho|]. intros a. exact (HQ a). Qed.
Lemma wpo_fallible (o : git_op) (q : prog (option gostring)) g (Q : ghost -> result fetch_error unit -> Prop) :
  wpo q g (fun g' a => Q g' (match a with None => Ok tt | Some m => Err (ErrIO m) end)) -> wpo (fallible q) g Q.
Proof. intros H. unfold fallible. by apply wpg_bind. Qed.
Lemma wpo_ok {A B} (p : prog (result fetch_error A)) (k : A -> prog (result fetch_error B)) g (Q : ghost -> result fetch_error B -> Prop) :
  (forall g e, Q g (Err e)) -> wpo p g (fun g' r => match r with Ok a => wpo (k a) g' Q | Err _ => True end) -> wpo (bind_ok p k) g Q.
Proof. intros HE Hp. apply wpg_bind_ok. eapply wpg_mono; [|exact Hp]. intros g' [a|e] H; [done|apply HE]. Qed.

(** ** The untracked files *)

(** The files that were read are the snapshot. *)
Definition snapshot_of (g : ghost) (l : list untrackedFile) : Prop :=
  g.2 = (fun f => (Join [dest; relPath f], u_body f)) <$> l /\
  Forall (fun f => seen_untracked g (relPath f) /\ read_before g (Join [dest; relPath f]) (u_body f) (u_mode f)) l.

Lemma snapshot_one_spec rel (u : bool) g : (u = true -> seen_untracked g rel) ->
  wpo (snapshot_one dest (rel, u)) g (fun g' f => le g g' /\ (u = true -> looked_at g' rel) /\
    match f with
    | Some f => relPath f = rel /\ seen_untracked g' rel /\ g'.2 = g.2 ++ [(Join [dest; rel], u_body f)] /\
                read_before g' (Join [dest; rel]) (u_body f) (u_mode f)
    | None => g'.2 = g.2
    end).
Proof.
  intros Hu. unfold snapshot_one. cbn [fst snd]. destruct u; cbn [negb]; [|cbn [wpg]; by split].
  specialize (Hu eq_refl). cbn [bind ask wpg]. split; [by exists rel|].
  intros a. set (g1 := watch g _ _ a). assert (Hl1 : happened g1 (OsLstat (Join [dest; rel])) a) by apply watched.
  assert (Hle1 : le g g1) by apply le_watch. assert (H21 : g1.2 = g.2) by apply app_nil_r. clearbody g1.
  destruct a as [fi|e]; cbn [wpg]; [|split; [done|split; [|done]; intros _; eexists; by split]].
  destruct (fi_regular fi) eqn:Er; cbn [negb].
  2:{ cbn [wpg]. split; [done|]. split; [|done]. intros _. eexists. split; [exact Hl1|]. intros fi' [= <-]. by rewrite Er. }
  cbn [bind ask wpg]. split; [exists rel; split; [done|]; by eapply untracked_le|].
  intros b. set (g2 := watch g1 _ _ b). assert (Hle2 : le g1 g2) by apply le_watch.
  assert (Hlook : looked_at g2 rel).
  { eexists. split; [by eapply happened_le|]. intros _ _ _. apply elem_of_app. right. by apply list_elem_of_singleton. }
  destruct b as [b|e]; cbn [wpg].
  2:{ split; [by eapply le_trans|]. split; [done|]. cbn [g2 watch snd]. by rewrite app_nil_r, H21. }
  split; [by eapply le_trans|]. split; [done|]. cbn [relPath u_body u_mode]. split; [done|].
  split; [eapply untracked_le; [|exact Hu]; by eapply le_trans|]. split; [cbn [g2 watch snd]; by rewrite H21|].
  split; [apply elem_of_app; right; by apply list_elem_of_singleton|]. exists fi. split; [by eapply happened_le|done].
Qed.

Lemma snapshot_spec es st g l0 :
  happened g (OsGit (GitStatus dest)) (Ok st) -> es ⊆ st -> snapshot_of g l0 ->
  wpo (snapshot_all dest es) g (fun g' l => le g g' /\ snapshot_of g' (l0 ++ l) /\ forall rel, (rel, true) ∈ es -> looked_at g' rel).
Proof.
  revert g l0. induction es as [|[rel u] es IH]; intros g l0 Hin Hsub Hs; cbn [snapshot_all].
  { cbn [wpg]. rewrite app_nil_r. split; [done|]. split; [done|]. by intros rel ?%not_elem_of_nil. }
  apply wpg_bind. eapply wpg_mono; [|apply snapshot_one_spec].
  2: { intros ->. exists st. split; [done|]. apply Hsub. left. }
  intros g1 f (Hle & Hlook & Hf). apply wpg_bind.
  assert (Hs1 : snapshot_of g1 (l0 ++ match f with Some f => [f] | None => [] end)).
  { destruct Hs as [Hr Hall]. assert (Hall' : Forall (fun f => seen_untracked g1 (relPath f) /\
      read_before g1 (Join [dest; relPath f]) (u_body f) (u_mode f)) l0).
    { eapply list.Forall_impl; [exact Hall|]. intros x [? ?]. split; [by eapply untracked_le|by eapply read_le]. }
    destruct f as [f|]; [|rewrite app_nil_r; split; [by rewrite Hf|done]]. destruct Hf as (<- & Hu & Hg2 & Hb).
    split; [by rewrite fmap_app, <- Hr|]. apply list.Forall_app. split; [done|]. apply list.Forall_singleton. by split. }
  eapply wpg_mono; [|eapply (IH g1); [by eapply happened_le|set_solver|exact Hs1]].
  intros g2 l (Hle2 & Hs2 & Hl2). cbn [wpg]. split; [by eapply le_trans|]. rewrite <- app_assoc in Hs2.
  split; [by destruct f|]. intros r [[= -> <-]|Hr]%elem_of_cons; [eapply looked_le; [exact Hle2|by apply Hlook]|by apply Hl2].
Qed.

Lemma restore_spec l : forall g, Forall (fun f => seen_untracked g (relPath f) /\ read_before g (Join [dest; relPath f]) (u_body f) (u_mode f)) l ->
  wpo (restoreUntracked dest l) g (fun g' r => le g g' /\ g'.2 = g.2 /\
    match r with Ok _ => forall f, f ∈ l -> happened g' (OsWriteFile (Join [dest; relPath f]) (u_body f) (u_mode f)) None | Err _ => True end).
Proof.
  unfold restoreUntracked. induction l as [|f l IH]; intros g Hl; cbn [for_each].
  { cbn [wpg]. split; [done|]. split; [done|]. by intros f ?%not_elem_of_nil. }
  apply list.Forall_cons in Hl as [[Hu Hr] Hl]. apply wpg_bind_ok. unfold restore_one. apply wpg_bind_ok. unfold io. cbn [bind ask wpg].
  split; [right; eexists; split; [done|by exists (relPath f)]|].
  assert (Hnil : forall g0 (l' : list (gostring * gostring)), g0 = l' -> g0 ++ [] = l') by (intros ? ? ->; apply app_nil_r).
  intros [e|]; cbn [wpg]; [split; [auto|split; [by apply Hnil|done]]|]. cbn [bind ask wpg]. split.
  { split; [exists (relPath f); split; [done|]; eapply untracked_le; [|exact Hu]; auto|eapply read_le; [|exact Hr]; auto]. }
  intros [e|]; cbn [wpg]; [split; [auto|split; [by do 2 apply Hnil|done]]|]. eapply wpg_mono; [|apply IH].
  - intros g' r (Hle & H2 & Hw). split; [eapply le_trans; [|exact Hle]; auto|]. split; [rewrite H2; by do 2 apply Hnil|].
    destruct r as [[]|]; [|done]. intros f' [->|Hf]%elem_of_cons; [|by apply Hw]. eapply happened_le; [exact Hle|apply watched].
  - eapply list.Forall_impl; [exact Hl|]. intros x [? ?]. split; [eapply untracked_le; [|done]; auto|eapply read_le; [|done]; auto].
Qed.

(** ** The sync *)

Lemma drop_spec {A} (fresh : bool) g (r : A) (Q : ghost -> A -> Prop) : (fresh = true -> cloned g) -> (forall g, Q g r) ->
  wpo (bind (if fresh then ignore (COs (OsRemoveAll dest)) else Ret tt) (fun _ => Ret r)) g Q.
Proof. intros Hf HQ. destruct fresh; [|apply HQ]. unfold ignore. cbn [bind ask wpg]. split; [split; [done|by apply Hf]|]. intros ?. apply HQ. Qed.

(** What was read is written when the sync succeeds. *)
Definition restored (g : ghost) (r : result fetch_error FetchResult) : Prop :=
  match r with
  | Ok _ => forall p body, (p, body) ∈ g.2 -> exists mode, happened g (OsWriteFile p body mode) None
  | Err _ => True
  end.

Lemma checkout_spec tree fresh h g : (fresh = true -> cloned g) -> target g h -> g.2 = [] ->
  wpo (checkout tree c dest fresh h) g restored.
Proof.
  intros Hf Ht Hg. unfold checkout. apply wpo_ok; [done|]. apply (wpo_fallible (GitWorktree dest)), wpo_git; [done|].
  intros [m|]; [done|]. set (g1 := watch g _ _ _). assert (Hle : le g g1) by apply le_watch.
  assert (Hg1 : g1.2 = []) by (cbn [g1 watch snd]; by rewrite Hg). clearbody g1.
  apply wpg_bind. eapply (wpg_mono _ _ _ _ (fun g' l => le g g' /\ snapshot_of g' l /\
    (cloned g' \/ g_Prune c = true \/ saved g'))).
  2: { destruct (negb fresh && negb (g_Prune c)) eqn:E.
       - unfold snapshotUntracked. apply wpg_bind, wpo_git; [done|]. intros a. set (g2 := watch g1 _ _ _).
         assert (Hle2 : le g g2) by (unfold g2; apply le_more; exact Hle). assert (Hg2 : g2.2 = []) by (cbn [g2 watch snd]; by rewrite Hg1).
         assert (Hst : happened g2 (OsGit (GitStatus dest)) a) by apply watched. clearbody g2. destruct a as [es|m].
         + eapply wpg_mono; [|apply (snapshot_spec es es g2 []); [done|done|by split; [|constructor]]].
           intros g3 l (Hle3 & Hs & Hl3). split; [by eapply le_trans|]. split; [done|]. right. right. eexists.
           split; [by eapply happened_le|]. intros es' rel [= <-]. apply Hl3.
         + cbn [wpg]. split; [done|]. split; [by split; [|constructor]|]. right. right. eexists. split; [exact Hst|done].
       - cbn [wpg]. split; [done|]. split; [by split; [|constructor]|]. apply andb_false_iff in E as [E%negb_false_iff|E%negb_false_iff].
         + left. eapply cloned_le; [exact Hle|]. by apply Hf.
         + right. by left. }
  intros g2 snap (Hle2 & [Hr Hs] & Hsaved). apply wpo_ok; [done|]. unfold on_error. apply wpg_bind, (wpo_fallible (GitCheckout dest h)), wpo_git.
  { split; [done|]. split; [by eapply target_le|done]. }
  intros [m|].
  - apply drop_spec; [|done]. intros H. eapply cloned_le; [|by apply Hf]. eauto.
  - cbn [wpg]. apply wpo_ok; [done|]. eapply wpg_mono; [|apply restore_spec].
    2: { eapply list.Forall_impl; [exact Hs|]. intros f [? ?]. split; [eapply untracked_le; [|done]; auto|eapply read_le; [|done]; auto]. }
    intros g3 [[]|e] (Hle3 & H2 & Hw); [|done].
    assert (Hdone : forall g4 res, le g3 g4 -> g4.2 = g3.2 -> restored g4 (Ok res)).
    { intros g4 res Hle4 Hg4 p body Hp. rewrite Hg4, H2 in Hp. cbn [watch snd] in Hp. rewrite app_nil_r, Hr in Hp.
      apply list_elem_of_fmap in Hp as (f & [= -> ->] & Hf'). exists (u_mode f). eapply happened_le; [exact Hle4|]. by apply Hw. }
    apply wpo_ok; [done|]. destruct (g_Prune c) eqn:Ep; cbn [wpg].
    + unfold clean. apply (wpo_fallible (GitClean dest)), wpo_git; [by split|]. intros [m|]; [done|].
      destruct (countTreeFiles tree). apply Hdone; [auto|cbn [watch snd]; apply app_nil_r].
    + destruct (countTreeFiles tree). by apply Hdone.
Qed.

Lemma first_reference_spec ns : forall g before after, branch_refs = before ++ ns ++ after -> Forall (unknown g) before ->
  wpo (first_reference dest ns) g (fun g' (r : option gostring) => le g g' /\ g'.2 = g.2 /\
    match r with Some h => target g' h | None => Forall (unknown g') (before ++ ns) end).
Proof.
  induction ns as [|n ns IH]; intros g before after E Hb; cbn [first_reference wpg]; [by rewrite app_nil_r|].
  apply wpg_bind, wpo_git; [done|]. set (g1 := fun a => watch g _ (COs (OsGit (GitReference dest n))) a).
  assert (Hg : forall a, (g1 a).2 = g.2) by (intros a; apply app_nil_r).
  intros [h|]; cbn [wpg].
  - split; [apply le_watch|]. split; [apply (Hg (Some h))|]. left. exists before, n, (ns ++ after). split_and!; [done| |apply watched].
    apply (unknown_le g); [apply le_watch|exact Hb].
  - eapply wpg_mono; [|apply (IH (g1 None) (before ++ [n]) after); [by rewrite <- app_assoc|]].
    + intros g' r (Hle & H2 & Hr). split; [eapply le_trans; [|exact Hle]; apply le_watch|]. split; [by rewrite H2, Hg|].
      by rewrite <- app_assoc in Hr.
    + apply list.Forall_app. split; [apply (unknown_le g); [apply le_watch|exact Hb]|]. constructor; [apply watched|done].
Qed.

Lemma target_resolved g : wpo (resolveTargetHash NewHash dest (g_Ref c)) g (fun g' r => le g g' /\ g'.2 = g.2 /\
  match r with Ok h => target g' h | Err _ => True end).
Proof.
  unfold resolveTargetHash. apply wpg_bind. eapply wpg_mono; [|apply (first_reference_spec branch_refs g [] []); [by rewrite app_nil_r|done]].
  intros g1 [h|] (Hle & H2 & Hr); [done|]. destruct (NewHash (g_Ref c)) as [h|] eqn:Eh; [|done].
  apply wpg_bind, wpo_git; [done|]. set (g2 := fun a => watch g1 _ (COs (OsGit (GitCommitObject dest h))) a).
  intros a. cbn [wpg]. change (le g (g2 a) /\ (g2 a).2 = g.2 /\ match (if a then Ok h else Err (ErrInvalidConfig (str "ref not found"))) with Ok h => target (g2 a) h | Err _ => True end).
  split; [eapply le_trans; [exact Hle|]; apply le_watch|]. split; [unfold g2; cbn [watch snd]; by rewrite app_nil_r|].
  destruct a; [|done]. right. split_and!; [|done|apply watched]. apply (unknown_le g1); [apply le_watch|exact Hr].
Qed.

Lemma sync_restores tree g : g.2 = [] -> wpo (gogit_CloneOrSync NewHash tree c dest) g restored.
Proof.
  intros Hg. unfold gogit_CloneOrSync. apply wpo_ok; [done|].
  eapply (wpg_mono _ _ _ _ (fun g' r => match r with Ok b => g'.2 = [] /\ (b = true -> cloned g') | _ => True end)).
  2: { unfold openOrClone. cbn [bind ask wpg]. split; [done|]. intros [fi|e].
       - apply wpo_ok; [done|]. apply (wpo_fallible (GitPlainOpen dest)), wpo_git; [done|]. intros [m|]; [done|]. cbn [wpg watch snd]. by rewrite Hg.
       - apply wpo_ok; [done|]. unfold io. cbn [bind ask wpg]. split; [by left|]. intros [e'|]; [done|]. cbn [wpg].
         apply wpo_ok; [done|]. unfold on_error, ignore. apply wpg_bind, (wpo_fallible (GitPlainClone dest (g_URL c) (g_Submodules c))), wpo_git; [done|]. intros [m|].
         + cbn [wpg bind ask]. split; [|done]. split; [done|]. do 3 eexists. apply watched.
         + cbn [wpg]. split; [cbn [watch snd]; by rewrite Hg|]. intros _. do 3 eexists. apply watched. }
  clear g Hg. intros g [fresh|e]; [|done]. intros [Hg Hf].
  apply wpo_ok; [done|].
  eapply (wpg_mono _ _ _ _ (fun g' _ => g'.2 = [] /\ (fresh = true -> cloned g'))).
  2: { destruct fresh; [done|]. unfold goGitFetch. apply wpg_bind, wpo_git; [done|]. intros a. cbn [wpg]. split; [cbn [watch snd]; by rewrite Hg|done]. }
  clear g Hg Hf. intros g [[]|e] [Hg Hf]; [|done]. apply wpo_ok; [done|]. unfold on_error. apply wpg_bind.
  eapply wpg_mono; [|apply target_resolved]. intros g1 [h|e] (Hle & H2 & Ht).
  2: { apply drop_spec; [|done]. intros H. eapply cloned_le; [exact Hle|]. by apply Hf. }
  cbn [wpg]. apply wpg_bind, wpo_git; [done|]. intros head. set (g2 := watch g1 _ _ _).
  assert (Hle2 : le g1 g2) by apply le_watch. assert (Hg2 : g2.2 = []) by (cbn [g2 watch snd]; by rewrite H2, Hg). clearbody g2.
  destruct (negb fresh && _) eqn:Eh.
  - apply wpg_bind. eapply (wpg_mono _ _ _ _ (fun g' _ => g'.2 = [])).
    { intros g3 [] H3. intros p body Hp. rewrite H3 in Hp. by apply elem_of_nil in Hp. }
    destruct (g_Prune c) eqn:Ep; [|done]. apply wpg_bind, (wpo_fallible (GitWorktree dest)), wpo_git; [done|].
    intros [m|]; [cbn [wpg watch snd]; by rewrite Hg2|]. unfold clean. apply wpg_bind, (wpo_fallible (GitClean dest)), wpo_git; [done|].
    intros [m|]; cbn [wpg watch snd]; by rewrite Hg2.
  - apply checkout_spec; [|by eapply target_le|done]. intros H. eapply cloned_le; [|by apply Hf]. by eapply le_trans.
Qed.
End Confined.


(** A host on which git knows nothing: no repository is found and nothing can be cloned. *)
Definition offline : handler unit :=
  fun X s c => match c in call X return unit * X with
               | COs o => (s, match o return os_ans o with OsMkdirAll _ _ | OsRemoveAll _ => None | o => os_absent o end)
               | c' => command_host (fun s _ _ => (s, (Exec.MkResult 1 [] [], None))) absent absent _ s c'
               end.
Definition mirror_cfg : GitConfig := MkGitConfig (str "https://git.example/x.git") (str "main") false [] [] false [].

(** ** What goes wrong *)

(** A destination that exists without a repository is cloned into, and removed with all it
    held when the clone fails, be it because the network is down. *)
Lemma clone_failure_wipes :
  asked offline tt (gogit_CloneOrSync (fun _ => None) [] mirror_cfg (str "/srv/x")) =
  [QOs (OsStat (str "/srv/x/.git")); QOs (OsMkdirAll (str "/srv") 493);
   QOs (OsGit (GitPlainClone (str "/srv/x") (str "https://git.example/x.git") false)); QOs (OsRemoveAll (str "/srv/x"))].
Proof. vm_compute. reflexivity. Qed.

(** When the target is checked out already nothing looks at the files: those that differ
    from the commit stay as they are. *)
Definition settled (commit : gostring) : handler unit :=
  fun X s q => match q in call X return unit * X with
               | COs o => (s, match o return os_ans o with
                              | OsStat _ => Ok (MkFileInfo true false 493 false (Some 0%Z) 0 (0, 0)%Z)
                              | OsGit (GitReference _ _) | OsGit (GitHead _) => Some commit
                              | OsGit (GitFetch _ _ _) => None
                              | OsGit (GitPlainOpen _) => None
                              | o => os_absent o
                              end)
               | q' => command_host (fun s _ _ => (s, (Exec.MkResult 1 [] [], None))) absent absent _ s q'
               end.
Lemma tampered_tree_kept :
  let p := gogit_CloneOrSync (fun _ => None) [] mirror_cfg (str "/srv/x") in
  (run (settled (str "c1")) tt p).2 = Ok (MkResult_ false 0 0 [] (str "c1")) /\
  asked (settled (str "c1")) tt p =
    [QOs (OsStat (str "/srv/x/.git")); QOs (OsGit (GitPlainOpen (str "/srv/x")));
     QOs (OsGit (GitFetch (str "/srv/x") (str "origin") [str "+refs/heads/*:refs/remotes/origin/*"; str "+refs/tags/*:refs/tags/*"]));
     QOs (OsGit (GitReference (str "/srv/x") (str "refs/remotes/origin/main"))); QOs (OsGit (GitHead (str "/srv/x")))].
Proof. vm_compute. split; reflexivity. Qed.

(** The reference HEAD is never matched, although a server lists it. *)
Lemma head_ref_unmatched :
  matchRef [(str "HEAD", str "c1"); (str "refs/heads/main", str "c1")] (str "HEAD") = None.
Proof. reflexivity. Qed.
End RemoteGitSync.
