(* ===== verification/Osquery.v ===== *)
(** * osquery ([src/sys/osquery])

    Table and raw queries with their deny list of credential tables, the discovery of the
    binary, and the command line.  The deadline a query adds to its context is left to the
    runner; a row is a map from column to text. *)
From S2P Require Import Prelude Exec HostProg HostCmd Json.

Module Osquery.
Import Exec HostProg HostCmd Json.

(** ** Tables *)

Definition isIdentByte (b : ascii) : bool :=
  bool_decide (b = "_"%char) || is_digit b || is_lower b || is_upper b.
(** [^[a-zA-Z_][a-zA-Z0-9_]*$] *)
Definition validTableName (s : gostring) : bool :=
  match s with [] => false | c :: s' => isIdentByte c && negb (is_digit c) && forallb isIdentByte s' end.

Definition sensitiveTables : list gostring :=
  [str "shadow"; str "process_envs"; str "crontab"; str "shell_history"; str "sudoers"].
Definition isSensitiveTable (name : gostring) : bool := bool_decide (to_lower (trim_space name) ∈ sensitiveTables).

(** The loop over the occurrences of [word] from [from] on. *)
Definition left_ok (s : gostring) (i : nat) : bool :=
  match i with 0 => true | S j => match s !! j with Some c => negb (isIdentByte c) | None => true end end.
Definition right_ok (s : gostring) (i : nat) : bool :=
  match s !! i with Some c => negb (isIdentByte c) | None => true end.
Fixpoint word_from (fuel : nat) (s word : gostring) (from : nat) : bool :=
  match fuel with
  | 0 => false
  | S fuel' =>
      match cut_str (drop from s) word with
      | None => false
      | Some (a, _) =>
          let i := length a + from in
          if left_ok s i && right_ok s (i + length word) then true else word_from fuel' s word (S i)
      end
  end.
(** Each round starts behind an occurrence: one more than the length is enough. *)
Definition containsWord (s word : gostring) : bool := word_from (S (length s)) s word 0.

(** The map is visited in an order of its own; whether a name is found does not depend on it. *)
Definition sensitiveTableRefIn (sql : gostring) : option gostring :=
  let lower := to_lower sql in List.find (containsWord lower) sensitiveTables.

(** ** Queries *)

Inductive query_error :=
| ErrNotInstalled
| ErrQueryRun (e : exec_error)
| ErrQueryStderr (stderr : gostring)
| ErrQueryExit (code : Z)
| ErrParseOutput
| ErrTableName (table : gostring)
| ErrNotPermitted (table : gostring).

Definition Row : Type := gmap gostring gostring.
Record OSQuery := MkQuery { QueryId : gostring; Table : gostring; RawSql : gostring }.
Record OSQueryResult := MkQueryResult { r_QueryId : gostring; Success : bool; Error : option query_error; Rows : list Row }.

Definition osqueryPaths : list gostring :=
  [str "/usr/bin/osqueryi"; str "/usr/local/bin/osqueryi"; str "/opt/osquery/bin/osqueryi"].
Fixpoint first_path (paths : list gostring) : prog (option gostring) :=
  match paths with
  | [] => Ret None
  | p :: rest => let! r := ask (CLookPath p) in match r with Some _ => Ret (Some p) | None => first_path rest end
  end.
Definition findOsqueryBinary : prog (option gostring) :=
  let! p := first_path osqueryPaths in
  match p with Some p => Ret (Some p) | None => ask (CLookPath (str "osqueryi")) end.

(** The client is its binary. *)
Definition New : prog (result query_error gostring) :=
  let! p := findOsqueryBinary in
  Ret (match p with Some p => if bool_decide (p = []) then Err ErrNotInstalled else Ok p | None => Err ErrNotInstalled end).
Definition IsInstalled : prog bool :=
  let! p := findOsqueryBinary in Ret (match p with Some p => negb (bool_decide (p = [])) | None => false end).

Definition query_args (query : gostring) : list gostring :=
  if has_prefix query (str ".") then [query] else [str "--json"; query].
Definition execQuery (binaryPath query : gostring) : prog (result query_error gostring) :=
  let! (res, err) := ask (CRun (priv binaryPath (query_args query)) []) in
  Ret (match err with
       | Some e => Err (ErrQueryRun e)
       | None =>
           if negb (ExitCode res =? 0)%Z then
             let stderr := trim_space (Stderr res) in
             if bool_decide (stderr = []) then Err (ErrQueryExit (ExitCode res)) else Err (ErrQueryStderr stderr)
           else Ok (trim_space (Stdout res))
       end).

Definition table_line (line : gostring) : option gostring :=
  let line := trim_space line in
  if has_prefix line (str "=>") then
    let name := trim_space (drop 2 line) in
    if bool_decide (name = []) then None else Some name
  else None.
Definition ListTables (binaryPath : gostring) : prog (result query_error (list gostring)) :=
  let!? output := execQuery binaryPath (str ".tables") in
  Ret (Ok (omap table_line (split_byte output NL))).

(** [json.Unmarshal] into [[]map[string]string]. *)
Definition dec_row (v : option json) : option Row :=
  match v with
  | None | Some JNull => Some ∅
  | Some (JObj kvs) =>
      kvs' ← mapM (fun kv => s ← dec_str (Some kv.2); Some (kv.1, s)) kvs;
      Some (fold_left (fun m kv => <[kv.1 := kv.2]> m) kvs' ∅)
  | _ => None
  end.
Definition parse_rows (output : gostring) : option (list Row) := v ← parse output; dec_list dec_row (Some v).

Definition QuerySQL (binaryPath sql : gostring) : prog (result query_error (list Row)) :=
  let!? output := execQuery binaryPath sql in
  Ret (match parse_rows output with Some rows => Ok rows | None => Err ErrParseOutput end).

Definition tableSQL (table : gostring) : option gostring :=
  if bool_decide (table = str "authorized_keys")
  then Some (str "SELECT authorized_keys.* FROM users JOIN authorized_keys USING (uid)") else None.
Definition table_query (table : gostring) : result query_error gostring :=
  match tableSQL table with
  | Some sql => Ok sql
  | None =>
      if negb (validTableName table) then Err (ErrTableName table)
      else if isSensitiveTable table then Err (ErrNotPermitted table)
      else Ok (str "SELECT * FROM " ++ table)
  end.
Definition QueryTable (binaryPath table : gostring) : prog (result query_error (list Row)) :=
  match table_query table with Err e => Ret (Err e) | Ok sql => QuerySQL binaryPath sql end.

Definition query_sql (q : OSQuery) : result query_error gostring :=
  if negb (bool_decide (RawSql q = [])) then
    match sensitiveTableRefIn (RawSql q) with
    | Some name => Err (ErrNotPermitted name)
    | None => Ok (RawSql q)
    end
  else table_query (Table q).
Definition Query (binaryPath : gostring) (q : OSQuery) : prog OSQueryResult :=
  let failed e := MkQueryResult (QueryId q) false (Some e) [] in
  match query_sql q with
  | Err e => Ret (failed e)
  | Ok sql =>
      let! rows := QuerySQL binaryPath sql in
      Ret (match rows with Err e => failed e | Ok rows => MkQueryResult (QueryId q) true None rows end)
  end.

(** ** Words *)

(** [w] occurs in [s] between characters that are not part of a name. *)
Definition word_in (s w : gostring) : Prop :=
  exists a b, s = a ++ w ++ b /\
    match list.last a with Some c => isIdentByte c = false | None => True end /\
    match head b with Some c => isIdentByte c = false | None => True end.

Lemma left_ok_spec a t : left_ok (a ++ t) (length a) = true <-> match list.last a with Some c => isIdentByte c = false | None => True end.
Proof.
  unfold left_ok. destruct a as [|c a _] using rev_ind; [done|]. rewrite last_snoc, length_app, Nat.add_comm. cbn [length Nat.add].
  rewrite <- app_assoc, lookup_app_r, Nat.sub_diag by lia. cbn. apply negb_true_iff.
Qed.
Lemma right_ok_spec a w b : right_ok (a ++ w ++ b) (length a + length w) = true <-> match head b with Some c => isIdentByte c = false | None => True end.
Proof.
  unfold right_ok. rewrite app_assoc, lookup_app_r by (rewrite length_app; lia). rewrite length_app, Nat.sub_diag. destruct b; [done|]. cbn. apply negb_true_iff.
Qed.
Lemma cut_str_first s w a b : cut_str s w = Some (a, b) -> forall a' b', s = a' ++ w ++ b' -> length a <= length a'.
Proof.
  revert a. induction s as [|c s IH]; intros a; cbn [cut_str].
  - destruct (has_prefix [] w); [|done]. intros [= <- <-] a' b' _. cbn. lia.
  - destruct (has_prefix (c :: s) w) eqn:E; [intros [= <- <-] a' b' _; cbn; lia|].
    destruct (cut_str s w) as [[x y]|] eqn:Ec; [|done]. intros [= <- <-] a' b' Hs. destruct a' as [|d a'].
    + exfalso. apply not_true_iff_false in E. apply E, has_prefix_spec. by exists b'.
    + injection Hs as -> ->. cbn [length]. apply le_n_S. by eapply IH.
Qed.
Lemma cut_str_None s w : cut_str s w = None -> forall a b, s <> a ++ w ++ b.
Proof.
  induction s as [|c s IH]; cbn [cut_str].
  - destruct (has_prefix [] w) eqn:E; [done|]. intros _ a b Hs. apply not_true_iff_false in E. apply E, has_prefix_spec.
    destruct a; [|done]. by exists b.
  - destruct (has_prefix (c :: s) w) eqn:E; [done|]. destruct (cut_str s w) as [[]|]; [done|]. intros _ a b Hs. destruct a as [|d a].
    + apply not_true_iff_false in E. apply E, has_prefix_spec. by exists b.
    + injection Hs as -> ->. by eapply IH.
Qed.

Lemma word_from_spec fuel s w from : w <> [] -> length s < fuel + from ->
  word_from fuel s w from = true <->
  exists a b, s = a ++ w ++ b /\ from <= length a /\
    match list.last a with Some c => isIdentByte c = false | None => True end /\
    match head b with Some c => isIdentByte c = false | None => True end.
Proof.
  intros Hw. revert from. induction fuel as [|fuel IH]; intros from Hf.
  { split; [done|]. intros (a & b & -> & Hl & _). rewrite !length_app in Hf. lia. }
  cbn [word_from]. destruct (decide (from <= length s)) as [Hle|Hgt].
  2: { rewrite drop_ge by lia. assert (Hn : ~ exists a b, s = a ++ w ++ b /\ from <= length a /\
         match list.last a with Some c => isIdentByte c = false | None => True end /\ match head b with Some c => isIdentByte c = false | None => True end).
       { intros (a & b & -> & Hl & _). rewrite !length_app in Hgt. lia. }
       split; [|by intros ?]. intros H. exfalso. apply Hn. destruct (cut_str [] w) as [[a b]|] eqn:Ec; [|done].
       apply cut_str_Some in Ec. destruct a; [|done]. by destruct w. }
  assert (Hs : s = take from s ++ drop from s) by (by rewrite take_drop).
  destruct (cut_str (drop from s) w) as [[x y]|] eqn:Ec.
  - pose proof (cut_str_Some _ _ _ _ Ec) as Hd. set (p := take from s ++ x).
    assert (Hp : s = p ++ w ++ y) by (unfold p; by rewrite <- app_assoc, <- Hd).
    assert (Hlp : length p = length x + from) by (unfold p; rewrite length_app, length_take; lia).
    rewrite <- Hlp. replace (left_ok s (length p)) with (left_ok (p ++ w ++ y) (length p)) by (by rewrite <- Hp).
    replace (right_ok s (length p + length w)) with (right_ok (p ++ w ++ y) (length p + length w)) by (by rewrite <- Hp).
    destruct (left_ok (p ++ w ++ y) (length p) && right_ok (p ++ w ++ y) (length p + length w)) eqn:Eb.
    + split; [|done]. intros _. apply andb_prop in Eb as [El Er]. apply left_ok_spec in El. apply right_ok_spec in Er.
      exists p, y. split; [done|]. split; [lia|done].
    + rewrite IH by lia. split; intros (a & b & Ha & Hl & H1 & H2); exists a, b; (split; [done|]); (split; [|done]); [lia|].
      assert (Hge : length p <= length a).
      { rewrite Hlp. assert (Hda : drop from s = drop from a ++ w ++ b) by (by rewrite Ha, drop_app_le by lia).
        pose proof (cut_str_first _ _ _ _ Ec _ _ Hda) as Hx. rewrite length_drop in Hx. lia. }
      destruct (decide (length p = length a)) as [He|]; [|lia]. exfalso. rewrite Hp in Ha. apply app_inj_1 in Ha as [Hpa Hwb]; [|done].
      apply app_inv_head in Hwb. rewrite Hpa, Hwb in Eb. apply not_true_iff_false in Eb. apply Eb, andb_true_iff. split; [by apply left_ok_spec|by apply right_ok_spec].
  - split; [done|]. intros (a & b & Ha & Hl & _). exfalso. eapply cut_str_None; [done|]. by rewrite Ha, drop_app_le.
Qed.

(** The word search finds exactly the whole words: every occurrence is looked at, also
    overlapping ones, and only one between other characters counts. *)
Theorem containsWord_iff s w : w <> [] -> containsWord s w = true <-> word_in s w.
Proof.
  intros Hw. unfold containsWord. rewrite word_from_spec by (done || lia). split; intros (a & b & ? & ?); exists a, b; intuition lia.
Qed.
Lemma containsWord_iff_witness : containsWord (str "select shadowed, shadow") (str "shadow") = true.
Proof.
  apply (containsWord_iff (str "select shadowed, shadow") (str "shadow")); [discriminate|].
  exists (str "select shadowed, "), []. split; [reflexivity|]. split; [reflexivity|exact I].
Defined.

(** ** No credential table is queried *)

(** A text that names no credential table, in whatever case. *)
Definition names_no_secret (text : gostring) : Prop := forall t, t ∈ sensitiveTables -> ~ word_in (to_lower text) t.

Lemma sensitive_nonempty t : t ∈ sensitiveTables -> t <> [].
Proof. intros Ht ->. revert Ht. by apply (bool_decide_unpack _). Qed.

Lemma no_secret_check text : sensitiveTableRefIn text = None -> names_no_secret text.
Proof.
  unfold sensitiveTableRefIn. intros H t Ht Hw. pose proof (List.find_none _ _ H t (proj1 (list_elem_of_In _ _) Ht)) as Hn.
  apply containsWord_iff in Hw; [|by apply sensitive_nonempty]. by rewrite Hw in Hn.
Qed.

Lemma ident_lower c : isIdentByte c = true -> isIdentByte (lower_byte c) = true.
Proof. destruct c as [[] [] [] [] [] [] [] []]; vm_compute; auto. Qed.
Lemma ident_ascii c b x : isIdentByte c = true -> [c; b] <> bytes [0xC4; 0xB0] /\ [c; b; x] <> bytes [0xE2; 0x84; 0xAA].
Proof. intros Hc. split; intros [= -> _]; by vm_compute in Hc. Qed.
Lemma to_lower_ident s : forallb isIdentByte s = true -> to_lower s = lower_byte <$> s.
Proof.
  induction s as [|a [|b s] IH]; [done|done|]. intros H. cbn [forallb] in H. apply andb_prop in H as [Ha H].
  specialize (IH H). rewrite fmap_cons, <- IH. cbn [to_lower]. rewrite bool_decide_false by by apply ident_ascii.
  destruct s as [|c s]; [done|]. rewrite bool_decide_false by by apply ident_ascii. done.
Qed.
Lemma lower_ident s : forallb isIdentByte s = true -> forallb isIdentByte (lower_byte <$> s) = true.
Proof. induction s as [|a s IH]; [done|]. cbn. intros [Ha H]%andb_prop. by rewrite ident_lower, IH. Qed.
Lemma trim_ident s : forallb isIdentByte s = true -> trim_space s = s.
Proof.
  intros H. assert (Hd : forall l, forallb isIdentByte l = true -> match l with [] => True | c :: _ => isIdentByte c = true end).
  { intros [|c l] Hl; [done|]. cbn in Hl. by apply andb_prop in Hl as [? _]. }
  unfold trim_space, trim_left_space, trim_right_space.
  rewrite (strip_all_avoid (length s) isIdentByte) by (by_eval || by apply Hd).
  rewrite (strip_all_avoid _ isIdentByte) by (by_eval || by apply Hd; rewrite forallb_rev). apply rev_involutive.
Qed.

(** The query of a table names that table and nothing else that is a credential table. *)
Lemma table_query_words T t : forallb isIdentByte T = true -> t ∈ sensitiveTables -> word_in (str "select * from " ++ T) t -> T = t.
Proof.
  intros HT Ht (a & b & E & Hl & Hr). destruct (decide (14 <= length a)) as [Hlen|Hlen].
  - assert (Ha : a = str "select * from " ++ drop 14 a).
    { rewrite <- (take_drop 14 a) at 1. f_equal. apply (f_equal (take 14)) in E. rewrite (take_app_le a) in E by done. by rewrite <- E. }
    rewrite Ha, <- app_assoc in E. apply app_inv_head in E. rewrite Ha in Hl.
    assert (Hd : drop 14 a = []).
    { destruct (drop 14 a) as [|x l _] using rev_ind; [done|]. exfalso. rewrite app_assoc, last_snoc in Hl. rewrite E, <- !app_assoc, forallb_app in HT.
      apply andb_prop in HT as [_ HT]. cbn in HT. by rewrite Hl in HT. }
    rewrite Hd in E. cbn [app] in E. destruct b as [|y b]; [by rewrite app_nil_r in E|]. exfalso. cbn in Hr.
    rewrite E, forallb_app in HT. apply andb_prop in HT as [_ HT]. cbn in HT. by rewrite Hr in HT.
  - exfalso. unfold sensitiveTables in Ht. rewrite !elem_of_cons in Ht.
    do 14 (destruct a as [|? a]; [destruct Ht as [-> |[-> |[-> |[-> |[-> |Ht]]]]]; [discriminate E..|by apply not_elem_of_nil in Ht]|injection E as _ E]).
    cbn in Hlen. lia.
Qed.

Lemma table_query_safe table sql : table_query table = Ok sql -> names_no_secret sql.
Proof.
  unfold table_query, tableSQL. destruct (bool_decide (table = str "authorized_keys")).
  - intros [= <-]. apply no_secret_check. reflexivity.
  - destruct (validTableName table) eqn:Ev; [|done]. destruct (isSensitiveTable table) eqn:Es; [done|]. cbn [negb]. intros <-%ok_inj t Ht Hw.
    assert (Hi : forallb isIdentByte table = true).
    { unfold validTableName in Ev. destruct table as [|c s]; [done|]. apply andb_prop in Ev as [[Hc _]%andb_prop Hs]. cbn [forallb]. by rewrite Hc, Hs. }
    assert (Hlow : to_lower (str "SELECT * FROM " ++ table) = str "select * from " ++ to_lower table).
    { clear. by destruct table as [|c [|d s]]. }
    rewrite Hlow in Hw. apply table_query_words in Hw; [|rewrite to_lower_ident by done; by apply lower_ident|done].
    unfold isSensitiveTable in Es. rewrite trim_ident in Es by done. apply bool_decide_eq_false in Es. by rewrite Hw in Es.
Qed.

Lemma query_sql_safe q sql : query_sql q = Ok sql -> names_no_secret sql.
Proof.
  unfold query_sql. destruct (negb _); [|apply table_query_safe]. destruct (sensitiveTableRefIn _) eqn:E; [done|].
  intros [= <-]. by apply no_secret_check.
Qed.
Lemma json_safe : names_no_secret (str "--json").
Proof. apply no_secret_check. reflexivity. Qed.

Definition no_secrets (c : Command) (_ : gostring) : Prop := Forall names_no_secret (Args c).
Lemma exec_safe bin sql : names_no_secret sql -> wp (on_run no_secrets) (execQuery bin sql) (fun _ => True).
Proof.
  intros H. unfold execQuery. cbn [bind ask wp]. split; [|by intros [res [e|]]]. cbn. unfold no_secrets, query_args. cbn [Args priv].
  destruct (has_prefix _ _); repeat constructor; try done. apply json_safe.
Qed.
Lemma sql_safe bin sql : names_no_secret sql -> wp (on_run no_secrets) (QuerySQL bin sql) (fun _ => True).
Proof. intros H. unfold QuerySQL. apply wp_bind_ok. eapply wp_mono; [|by apply exec_safe]. by intros [o|e] _. Qed.

(** C20: Whatever a query asks for, as a table or as SQL, and whatever the host answers: no
    command line that [Query] or [QueryTable] runs mentions a credential table, in whatever
    spelling of case. *)
Theorem queries_spare_secrets {S} (h : handler S) s bin q table :
  Forall (fun c => no_secrets c.1 c.2) (commands h s (Query bin q)) /\
  Forall (fun c => no_secrets c.1 c.2) (commands h s (QueryTable bin table)).
Proof.
  split; apply (wp_commands _ _ _ _ (fun _ => True)).
  - unfold Query. destruct (query_sql q) as [sql|e] eqn:E; [|done]. apply wp_bind. eapply wp_mono; [|apply sql_safe; by eapply query_sql_safe]. done.
  - unfold QueryTable. destruct (table_query table) as [sql|e] eqn:E; [|done]. apply sql_safe. by eapply table_query_safe.
Qed.

(** ** What goes wrong *)

Definition silent : handler unit := command_host (fun s _ _ => (s, (MkResult 0 (str "[]") [], None))) absent absent.

(** Raw SQL through the other method is not checked at all. *)
Lemma querysql_unchecked :
  commands silent tt (QuerySQL (str "/usr/bin/osqueryi") (str "SELECT * FROM shadow")) =
  [(priv (str "/usr/bin/osqueryi") [str "--json"; str "SELECT * FROM shadow"], [])].
Proof. vm_compute. reflexivity. Qed.

(** Raw SQL that starts with a dash is an option of a root process. *)
Lemma raw_sql_read_as_option :
  commands silent tt (Query (str "/usr/bin/osqueryi") (MkQuery [] [] (str "--extension=/tmp/x.ext"))) =
  [(priv (str "/usr/bin/osqueryi") [str "--json"; str "--extension=/tmp/x.ext"], [])].
Proof. vm_compute. reflexivity. Qed.
End Osquery.
