(* ===== verification/Desktop.v ===== *)
(** * Desktop sessions ([src/sys/desktop])

    Discovery of the active graphical sessions over loginctl, of the users with a home
    directory, and the runner that executes a command as a session's user.  The account
    database ([os/user]) is a parameter. *)
From S2P Require Import Prelude Exec Paths HostProg HostCmd.

Module Desktop.
Import Paths Exec HostProg HostCmd.

Definition loginctlPath : gostring := str "/usr/bin/loginctl".
Definition runuserPath : gostring := str "/usr/sbin/runuser".
Definition envPath : gostring := str "/usr/bin/env".
Definition defaultHomeRoot : gostring := str "/home".

Record Session := MkSession {
  ID : gostring; Username : gostring; UID : Z; GID : Z; Home : gostring; RuntimeDir : gostring; Type_ : gostring
}.

(** ** Running as a user ([runas.go], [runas_runner.go]) *)

Inductive runas_error :=
| EmptyUsername
| EmptyCommand
| BadEnv (e : env_error).

Definition EnvFor (s : Session) : list gostring :=
  [str "HOME=" ++ Home s; str "USER=" ++ Username s; str "LOGNAME=" ++ Username s;
   str "XDG_RUNTIME_DIR=" ++ RuntimeDir s;
   str "DBUS_SESSION_BUS_ADDRESS=unix:path=" ++ RuntimeDir s ++ str "/bus"].

Definition UserPath (s : Session) : gostring :=
  join [Home s ++ str "/.local/bin"; Home s ++ str "/bin"; str "/usr/local/bin"; str "/usr/bin"; str "/bin";
        str "/usr/local/sbin"; str "/usr/sbin"; str "/sbin"] (str ":").

Definition is_path (e : gostring) : bool :=
  match cut e "="%char with Some (key, _) => bool_decide (key = str "PATH") | None => false end.
Definition without_path (env : list gostring) : list gostring := List.filter (fun e => negb (is_path e)) env.

Definition validateExtraEnv (env : list gostring) : result env_error unit := ValidateCommandEnv (without_path env).

(** The runner is its session; the base runner is the one the command is then given to. *)
Definition RunAsRunner (s : Session) : result runas_error Session :=
  if bool_decide (Username s = []) then Err EmptyUsername else Ok s.

Definition wrap (s : Session) (c : Command) : result runas_error Command :=
  if bool_decide (Name c = []) then Err EmptyCommand
  else match validateExtraEnv (Env c) with
       | Err e => Err (BadEnv e)
       | Ok _ =>
           let env := EnvFor s ++ without_path (Env c) ++ [str "PATH=" ++ UserPath s] in
           Ok (MkCommand runuserPath ([str "-u"; Username s; str "--"; envPath] ++ env ++ [Name c] ++ Args c) (Dir c) [] [] false)
       end.

Definition Run (s : Session) (c : Command) (stdin : gostring) : prog (result runas_error (Result * option exec_error)) :=
  match wrap s c with
  | Err e => Ret (Err e)
  | Ok w => let! r := ask (CRun w stdin) in Ret (Ok r)
  end.

(** ** Sessions ([sessions.go]) *)

Inductive desktop_error :=
| ERunner (e : exec_error)
| EExit (what : gostring) (code : Z) (stderr : gostring)
| ENotNumeric (what value : gostring)
| ENameDisagrees (name username : gostring)
| EReadHome (e : fs_err)
| EAppID.

Definition isGraphicalType (t : gostring) : bool := bool_decide (t ∈ [str "x11"; str "wayland"; str "mir"]).
Definition isLoginctlNoLogindStderr (stderr : gostring) : bool :=
  contains stderr (str "has not been booted with systemd") || contains stderr (str "Failed to connect to bus").

Definition property_line (line : gostring) : option (gostring * gostring) :=
  let line := trim_space line in
  if bool_decide (line = []) then None
  else match cut line "="%char with
       | Some ([], _) | None => None
       | Some (k, v) => Some (k, v)
       end.
(** A later line replaces an earlier one with its key. *)
Definition to_props (kvs : list (gostring * gostring)) : gmap gostring gostring := fold_left (fun m kv => <[kv.1 := kv.2]> m) kvs ∅.
Definition parseLoginctlProperties (s : gostring) : gmap gostring gostring := to_props (omap property_line (split_byte s NL)).
Definition prop (props : gmap gostring gostring) (k : string) : gostring := default [] (props !! str k).

Definition session_id (line : gostring) : option gostring :=
  let line := trim_space line in if bool_decide (line = []) then None else head (fields line).
Definition listSessionIDs : prog (result desktop_error (list gostring)) :=
  let! (res, err) := ask (CRun (unpriv loginctlPath [str "list-sessions"; str "--no-legend"]) []) in
  Ret (match err with
       | Some e => Err (ERunner e)
       | None =>
           if negb (ExitCode res =? 0)%Z then
             if isLoginctlNoLogindStderr (Stderr res) then Ok []
             else Err (EExit (str "loginctl list-sessions") (ExitCode res) (trim_space (Stderr res)))
           else Ok (omap session_id (split_byte (Stdout res) NL))
       end).

(** What the account database says of an account. *)
Record account := MkAccount { a_Uid : gostring; a_Gid : gostring; a_Username : gostring; a_HomeDir : gostring }.

Section Accounts.
Context (lookupID lookupUser : gostring -> option account).

Definition session_of (id : gostring) (props : gmap gostring gostring) : result desktop_error (option Session) :=
  if negb (bool_decide (prop props "Remote" = str "no")) then Ok None
  else if negb (bool_decide (prop props "Active" = str "yes")) then Ok None
  else if negb (isGraphicalType (prop props "Type")) then Ok None
  else
    let uidStr := prop props "User" in
    match atoi uidStr with
    | None => Err (ENotNumeric (str "User") uidStr)
    | Some uid =>
        match lookupID uidStr with
        | None => Ok None
        | Some u =>
            match atoi (a_Gid u) with
            | None => Err (ENotNumeric (str "GID") (a_Gid u))
            | Some gid =>
                if negb (bool_decide (prop props "Name" = a_Username u)) then Err (ENameDisagrees (prop props "Name") (a_Username u))
                else Ok (Some (MkSession id (a_Username u) uid gid (a_HomeDir u) (str "/run/user/" ++ uidStr) (prop props "Type")))
            end
        end
    end.

Definition show_session (id : gostring) : Command :=
  unpriv loginctlPath [str "show-session"; id; str "--property=Name"; str "--property=User"; str "--property=Type";
                       str "--property=Active"; str "--property=Remote"].
Definition loadSession (id : gostring) : prog (result desktop_error (option Session)) :=
  let! (res, err) := ask (CRun (show_session id) []) in
  Ret (match err with
       | Some e => Err (ERunner e)
       | None =>
           if negb (ExitCode res =? 0)%Z then
             if contains (Stderr res) (str "No session") then Ok None
             else Err (EExit (str "loginctl show-session") (ExitCode res) (trim_space (Stderr res)))
           else session_of id (parseLoginctlProperties (Stdout res))
       end).

Definition load_next (out : list Session) (id : gostring) : prog (result desktop_error (list Session)) :=
  let!? s := loadSession id in Ret (Ok (match s with Some s => out ++ [s] | None => out end)).
Definition ActiveSessions : prog (result desktop_error (list Session)) :=
  let! p := ask (CLookPath loginctlPath) in
  match p with
  | None => Ret (Ok [])
  | Some _ => let!? ids := listSessionIDs in for_each load_next ids []
  end.

(** ** Home directories ([users.go]) *)

Definition homeUserFor (name : gostring) : option Session :=
  u ← lookupUser name;
  uid ← atoi (a_Uid u);
  gid ← atoi (a_Gid u);
  Some (MkSession [] (a_Username u) uid gid (a_HomeDir u) (str "/run/user/" ++ a_Uid u) []).

Definition home_entry (e : gostring * bool) : option Session :=
  if negb e.2 then None
  else if bool_decide (e.1 = []) || has_prefix e.1 (str ".") || bool_decide (e.1 = str "lost+found") then None
  else homeUserFor e.1.
Definition HomeUsers (homeRoot : gostring) : prog (result desktop_error (list Session)) :=
  let! r := ask (COs (OsReadDir homeRoot)) in
  Ret (match r with
       | Err NotExist => Ok []
       | Err e => Err (EReadHome e)
       | Ok entries => Ok (omap home_entry entries)
       end).

Definition app_dir (s : Session) (appID : gostring) : gostring :=
  Join [Home s; str ".local"; str "share"; str "flatpak"; str "app"; appID].
Fixpoint with_app (appID : gostring) (users : list Session) : prog (list Session) :=
  match users with
  | [] => Ret []
  | u :: rest =>
      let! st := ask (COs (OsStat (app_dir u appID))) in
      let! out := with_app appID rest in
      Ret (match st with Ok _ => u :: out | Err _ => out end)
  end.
Definition UsersWithFlatpakInstall (homeRoot appID : gostring) : prog (result desktop_error (list Session)) :=
  if bool_decide (appID = []) then Ret (Err EAppID)
  else
    let!? users := HomeUsers homeRoot in
    let! out := with_app appID users in Ret (Ok out).

(** ** What a session says is what the accounts say *)

Definition consistent (s : Session) : Prop :=
  isGraphicalType (Type_ s) = true /\
  exists uidStr u, lookupID uidStr = Some u /\ atoi uidStr = Some (UID s) /\ atoi (a_Gid u) = Some (GID s) /\
    Username s = a_Username u /\ Home s = a_HomeDir u /\ RuntimeDir s = str "/run/user/" ++ uidStr.

Lemma session_of_consistent id props s : session_of id props = Ok (Some s) -> consistent s.
Proof.
  unfold session_of. destruct (negb _); [done|]. destruct (negb _); [done|]. destruct (isGraphicalType _) eqn:Eg; [|done]. cbn [negb].
  destruct (atoi _) as [uid|] eqn:Eu; [|done]. destruct (lookupID _) as [u|] eqn:El; [|done]. destruct (atoi (a_Gid u)) as [gid|] eqn:Egid; [|done].
  destruct (negb _); [done|]. intros E%ok_inj. apply (inj Some) in E. subst s. split; [done|]. by eexists _, u.
Qed.

(** Whatever loginctl prints: every session that is reported is graphical, and its name,
    home and group are those of one account, the one whose id logind names; no command is
    escalated. *)
Theorem sessions_consistent {S} (h : handler S) s :
  match (run h s ActiveSessions).2 with Ok ss => Forall consistent ss | Err _ => True end /\
  Forall (fun c => Escalate c.1 = false) (commands h s ActiveSessions).
Proof.
  apply and_comm, (wp_commands (fun c _ => Escalate c = false) h s ActiveSessions (fun r => match r with Ok ss => Forall consistent ss | Err _ => True end)).
  unfold ActiveSessions. cbn [bind ask wp]. split; [done|]. intros [p|]; [|by constructor]. apply wp_bind_ok.
  unfold listSessionIDs. cbn [bind ask wp]. split; [done|]. intros [res [e|]]; [done|]. cbn [wp].
  destruct (if negb _ then _ else _) as [ids|e]; [|done].
  apply (wp_for_each _ _ _ _ (Forall consistent)); [done|done|by constructor|]. intros out id Ho _.
  unfold load_next, loadSession. apply wp_bind_ok. cbn [bind ask wp]. split; [done|]. intros [res' [e|]]; [done|]. cbn [wp].
  destruct (negb _); [by destruct (contains _ _)|]. destruct (session_of _ _) as [[x|]|e] eqn:Es; [|done|done].
  apply list.Forall_app. split; [done|]. constructor; [|constructor]. by eapply session_of_consistent.
Qed.
End Accounts.

(** ** The wrapped command is the command, as the user *)

(** env(1) after its options: leading words with an equal sign are assignments, the rest is
    the command. *)
Fixpoint env_exec (args : list gostring) : list gostring * list gostring :=
  match args with
  | [] => ([], [])
  | a :: rest => if bool_decide ("="%char ∈ a) then let '(e, c) := env_exec rest in (a :: e, c) else ([], args)
  end.
(** What runuser hands to env: the user, and the words after [--]. *)
Definition runuser_exec (c : Command) : option (gostring * list gostring) :=
  match Args c with
  | u :: user :: d :: e :: rest =>
      if bool_decide (Name c = runuserPath) && bool_decide (u = str "-u") && bool_decide (d = str "--") && bool_decide (e = envPath)
      then Some (user, rest) else None
  | _ => None
  end.

Lemma env_exec_app env rest : Forall (fun e => "="%char ∈ e) env ->
  env_exec (env ++ rest) = (env ++ (env_exec rest).1, (env_exec rest).2).
Proof.
  induction 1 as [|e env He _ IH]; cbn [app env_exec]; [by destruct (env_exec rest)|]. rewrite bool_decide_true by done.
  rewrite IH. done.
Qed.

Lemma validated_env env : ValidateCommandEnv env = Ok tt -> Forall (fun e => "="%char ∈ e) env.
Proof.
  unfold ValidateCommandEnv. destruct (validateEnvVars env) as [[]|] eqn:E; [|done]. intros _. revert E.
  induction env as [|e env IH]; [constructor|]. cbn [validateEnvVars]. destruct (cut e "="%char) as [[k v]|] eqn:Ec; [|done].
  destruct (IsAllowedEnvVar k); [|done]. intros H. constructor; [|auto]. apply cut_Some in Ec as [-> _]. apply elem_of_app. right. left.
Qed.

(** C25: A command that the runner accepts runs as the session's user, with that user's session
    variables, then the caller's variables, all of which passed the check, then the curated
    path as the last and only setting of PATH by anyone; the command and its arguments are
    the caller's, when its name is not an assignment itself; nothing is escalated again. *)
Theorem wrap_exact s c w :
  wrap s c = Ok w -> "="%char ∉ Name c ->
  runuser_exec w = Some (Username s, EnvFor s ++ without_path (Env c) ++ [str "PATH=" ++ UserPath s] ++ Name c :: Args c) /\
  env_exec (EnvFor s ++ without_path (Env c) ++ [str "PATH=" ++ UserPath s] ++ Name c :: Args c) =
    (EnvFor s ++ without_path (Env c) ++ [str "PATH=" ++ UserPath s], Name c :: Args c) /\
  ValidateCommandEnv (without_path (Env c)) = Ok tt /\ Forall (fun e => is_path e = false) (EnvFor s ++ without_path (Env c)) /\
  Escalate w = false /\ Env w = [] /\ Dir w = Dir c.
Proof.
  unfold wrap. destruct (bool_decide (Name c = [])); [done|]. unfold validateExtraEnv.
  destruct (ValidateCommandEnv (without_path (Env c))) as [[]|] eqn:Ev; [|done]. intros <-%ok_inj Hn.
  split; [unfold runuser_exec; cbn [Args Name app]; rewrite !bool_decide_true by done; by rewrite <- !app_assoc|].
  split. { rewrite !app_assoc, env_exec_app.
           - cbn [env_exec]. rewrite bool_decide_false by done. by rewrite app_nil_r.
           - rewrite !list.Forall_app. split; [split|].
             + repeat constructor; apply elem_of_app; left; by apply (bool_decide_unpack _).
             + by apply validated_env.
             + constructor; [|constructor]. apply elem_of_app. left. by apply (bool_decide_unpack _). }
  split; [done|]. split; [|done]. apply list.Forall_app. split; [by repeat constructor|].
  apply list.Forall_forall. intros e He. unfold without_path in He. apply elem_of_List_filter in He as [_ He]. by apply negb_true_iff in He.
Qed.
Lemma wrap_exact_witness :
  let s := MkSession [] (str "ann") 1000 1000 (str "/home/ann") (str "/run/user/1000") [] in
  let c := MkCommand (str "flatpak") [str "list"] [] [str "PATH=/tmp"; str "A=1"] [] true in
  exists w, wrap s c = Ok w /\ Escalate w = false.
Proof.
  cbn zeta. eexists. split; [reflexivity|].
  apply (wrap_exact (MkSession [] (str "ann") 1000 1000 (str "/home/ann") (str "/run/user/1000") [])
    (MkCommand (str "flatpak") [str "list"] [] [str "PATH=/tmp"; str "A=1"] [] true)); [reflexivity|]. by apply (bool_decide_unpack _).
Defined.

(** ** What goes wrong *)

Definition ann : account := MkAccount (str "1000") (str "1000") (str "ann") (str "/srv/ann").
Definition some_home : handler unit :=
  fun X s c => match c in call X return unit * X with
               | COs o => (s, match o return os_ans o with
                              | OsReadDir _ => Ok [(str "ann", true)]
                              | OsStat _ => Ok (MkFileInfo true false 493 false (Some 0%Z) 0 (0, 0)%Z)
                              | o => os_absent o
                              end)
               | c' => command_host (fun s _ _ => (s, (MkResult 1 [] [], None))) absent absent _ s c'
               end.

(** A command whose name is an assignment makes env run its first argument. *)
Lemma assignment_name_shifts :
  let s := MkSession [] (str "ann") 1000 1000 (str "/home/ann") (str "/run/user/1000") [] in
  exists w rest, wrap s (MkCommand (str "LD_PRELOAD=/tmp/x.so") [str "id"] [] [] [] false) = Ok w /\
    runuser_exec w = Some (str "ann", rest) /\ (env_exec rest).2 = [str "id"].
Proof. cbn zeta. do 2 eexists. split; [reflexivity|]. split; reflexivity. Qed.

(** An application id that is a path is looked up as one: [..] is the directory of all
    applications. *)
Lemma app_id_unchecked :
  asked some_home tt (UsersWithFlatpakInstall (fun _ => Some ann) (str "/home") (str "..")) =
  [QOs (OsReadDir (str "/home")); QOs (OsStat (str "/srv/ann/.local/share/flatpak"))].
Proof. vm_compute. reflexivity. Qed.

(** An account is reported although its home is not below the home root. *)
Lemma home_elsewhere_reported :
  (run some_home tt (HomeUsers (fun _ => Some ann) (str "/home"))).2 =
  Ok [MkSession [] (str "ann") 1000 1000 (str "/srv/ann") (str "/run/user/1000") []].
Proof. vm_compute. reflexivity. Qed.
End Desktop.

(** * Notifications ([src/sys/notify])

    A wall broadcast and desktop notifications for the graphical sessions that loginctl
    lists.  A call returns all errors of deliveries that ran; none is success. *)

Module Notify.
Import Exec HostProg HostCmd.

Record session := MkSession { id : gostring; user : gostring; uid : Z; typ : gostring }.

Inductive notify_error :=
| ErrControl (kind : gostring)
| ErrTooLong (kind : gostring)
| ErrUsername (u : gostring)
| ErrWall (e : cmd_error)
| ErrListSessions (e : cmd_error)
| ErrDesktop (user : gostring) (e : cmd_error).

(** ** Validation *)

Definition maxNotificationField : N := 4096.

(** Below 0x80 a rune is one byte; every other rune passes. *)
Definition is_control (c : ascii) : bool := (byte_val c <? 32)%N || (byte_val c =? 127)%N.
Definition containsControl (s : gostring) : bool := existsb is_control s.

Definition validateField (kind s : gostring) : result notify_error unit :=
  if containsControl s then Err (ErrControl kind)
  else if (maxNotificationField <? N.of_nat (length s))%N then Err (ErrTooLong kind)
  else Ok tt.
Definition validateNotification (title message : gostring) : result notify_error unit :=
  let? _ := validateField (str "notification title") title in validateField (str "notification message") message.
Definition validateUsername (u : gostring) : result notify_error unit :=
  if containsControl u then Err (ErrUsername u) else Ok tt.

(** ** loginctl *)

Definition list_line (line : gostring) : option gostring :=
  match fields line with f :: _ :: _ :: _ => Some f | _ => None end.
Definition parseLoginctlListSessions (stdout : gostring) : list gostring := omap list_line (split_byte (trim_space stdout) NL).

Definition show_line (line : gostring) : option (gostring * gostring) :=
  kv ← cut (trim_space line) "="%char; Some (trim_space kv.1, trim_space kv.2).
Definition show_props (stdout : gostring) : gmap gostring gostring :=
  fold_left (fun m kv => <[kv.1 := kv.2]> m) (omap show_line (split_byte stdout NL)) ∅.
Definition parseLoginctlShowSession (sessionID stdout : gostring) : option session :=
  let props := show_props stdout in
  let typ := default [] (props !! str "Type") in
  let user := default [] (props !! str "Name") in
  match props !! str "User" with
  | None => None
  | Some uidStr =>
      if bool_decide (user = []) then None
      else match atoi uidStr with
           | None => None
           | Some uid =>
               if negb (bool_decide (typ = str "x11")) && negb (bool_decide (typ = str "wayland")) && negb (bool_decide (typ = str "mir"))
               then None else Some (MkSession sessionID user uid typ)
           end
  end.

(** ** Delivery *)

Definition cmd_failed (name : gostring) (r : Result * option exec_error) : option cmd_error :=
  match cmd_result name r with Ok _ => None | Err e => Some e end.

Definition sendWall (message : gostring) : prog (list notify_error) :=
  let! r := ask (CRun (priv (str "wall") []) message) in
  Ret (match cmd_failed (str "wall") r with Some e => [ErrWall e] | None => [] end).

Definition show_cmd (sessionID : gostring) : Command :=
  priv (str "loginctl") [str "show-session"; sessionID; str "-p"; str "Type"; str "-p"; str "Name"; str "-p"; str "User"].
Fixpoint load_sessions (ids : list gostring) : prog (list session) :=
  match ids with
  | [] => Ret []
  | i :: rest =>
      let! r := ask (CRun (show_cmd i) []) in
      let s := match cmd_result (str "loginctl") r with Ok out => parseLoginctlShowSession i out | Err _ => None end in
      let! ss := load_sessions rest in
      Ret (match s with Some s => s :: ss | None => ss end)
  end.
Definition listGraphicalSessions : prog (result notify_error (list session)) :=
  let! r := ask (CRun (priv (str "loginctl") [str "list-sessions"; str "--no-legend"]) []) in
  match cmd_result (str "loginctl") r with
  | Err e => Ret (Err (ErrListSessions e))
  | Ok out => let! ss := load_sessions (parseLoginctlListSessions out) in Ret (Ok ss)
  end.

(** [%d] *)
Definition dec (n : Z) : gostring := if (n <? 0)%Z then "-"%char :: itoa (Z.to_nat (- n)) else itoa (Z.to_nat n).
Definition socketPath (n : Z) : gostring := str "/run/user/" ++ dec n ++ str "/bus".
Definition desktop_cmd (s : session) (title message : gostring) : Command :=
  priv (str "env") [str "DBUS_SESSION_BUS_ADDRESS=unix:path=" ++ socketPath (uid s);
    str "runuser"; str "-u"; user s; str "--";
    str "notify-send"; str "-u"; str "critical"; str "-a"; str "Power Manage"; str "-i"; str "dialog-warning"; title; message].
Definition sendDesktopNotification (s : session) (title message : gostring) : prog (list notify_error) :=
  let! st := ask (CStat (socketPath (uid s))) in
  match st with
  | Err _ => Ret []
  | Ok _ =>
      let! r := ask (CRun (desktop_cmd s title message) []) in
      Ret (match cmd_failed (str "env") r with Some e => [ErrDesktop (user s) e] | None => [] end)
  end.

(** [None] is no filter. *)
Definition wanted (filter : option (list gostring)) (s : session) : bool :=
  match filter with None => true | Some us => bool_decide (user s ∈ us) end.
Fixpoint deliver (ss : list session) (title message : gostring) (filter : option (list gostring)) : prog (list notify_error) :=
  match ss with
  | [] => Ret []
  | s :: rest =>
      let! e := (if wanted filter s then sendDesktopNotification s title message else Ret []) in
      let! es := deliver rest title message filter in
      Ret (e ++ es)
  end.
Definition sendDesktopNotifications (title message : gostring) (filter : option (list gostring)) : prog (list notify_error) :=
  let! p := ask (CLookPath (str "notify-send")) in
  match p with
  | None => Ret []
  | Some _ =>
      let! ss := listGraphicalSessions in
      match ss with Err e => Ret [e] | Ok ss => deliver ss title message filter end
  end.

Definition broadcast (title message : gostring) (filter : option (list gostring)) : prog (list notify_error) :=
  let! w := sendWall (title ++ str ": " ++ message) in
  let! d := sendDesktopNotifications title message filter in
  Ret (w ++ d).
Definition NotifyAll (title message : gostring) : prog (list notify_error) :=
  match validateNotification title message with Err e => Ret [e] | Ok _ => broadcast title message None end.
Definition NotifyUsers (usernames : list gostring) (title message : gostring) : prog (list notify_error) :=
  match validateNotification title message with
  | Err e => Ret [e]
  | Ok _ => match each validateUsername usernames with
            | Err e => Ret [e]
            | Ok _ => broadcast title message (Some usernames)
            end
  end.

(** ** What is run *)

Definition plain_text (s : gostring) : Prop := containsControl s = false /\ (N.of_nat (length s) <= maxNotificationField)%N.

Lemma validateField_ok kind s : validateField kind s = Ok tt -> plain_text s.
Proof. unfold validateField, plain_text. destruct (containsControl s); [done|]. destruct (N.ltb_spec maxNotificationField (N.of_nat (length s))); [done|]. done. Qed.
Lemma notification_ok title message : validateNotification title message = Ok tt -> plain_text title /\ plain_text message.
Proof.
  unfold validateNotification. destruct (validateField _ title) as [[]|] eqn:E1; [|done]. cbn. intros E2. split; by eapply validateField_ok.
Qed.

(** The commands of a notification: the broadcast, the two queries, and the delivery to a
    session of a user that is asked for. *)
Definition notify_cmd (filter : option (list gostring)) (title message : gostring) (c : Command) (stdin : gostring) : Prop :=
  plain_text title /\ plain_text message /\
  ((c = priv (str "wall") [] /\ stdin = title ++ str ": " ++ message) \/
   (c = priv (str "loginctl") [str "list-sessions"; str "--no-legend"] /\ stdin = []) \/
   (exists i, c = show_cmd i /\ stdin = []) \/
   (exists s, c = desktop_cmd s title message /\ stdin = [] /\ user s <> [] /\ match filter with Some us => user s ∈ us | None => True end)).

Section Run.
Context (filter : option (list gostring)) (title message : gostring) (Ht : plain_text title) (Hm : plain_text message).
Abbreviation ok p Q := (wp (on_run (notify_cmd filter title message)) p Q).

Lemma parsed_user i out s : parseLoginctlShowSession i out = Some s -> user s <> [].
Proof.
  unfold parseLoginctlShowSession. destruct (_ !! _); [|done]. destruct (bool_decide (default [] _ = [])) eqn:E; [done|].
  destruct (atoi _); [|done]. destruct (_ && _ && _); [done|]. intros [= <-]. by apply bool_decide_eq_false in E.
Qed.
Lemma load_ok ids : ok (load_sessions ids) (Forall (fun s => user s <> [])).
Proof.
  induction ids as [|i ids IH]; [constructor|]. cbn [load_sessions bind ask wp]. split; [cbn; unfold notify_cmd; eauto 8|]. intros r.
  apply wp_bind. eapply wp_mono; [|exact IH]. intros ss Hss. cbn [wp]. destruct (cmd_result _ _) as [out|]; [|done].
  destruct (parseLoginctlShowSession i out) eqn:E; [|done]. constructor; [|done]. by eapply parsed_user.
Qed.
Lemma deliver_ok ss : Forall (fun s => user s <> []) ss -> ok (deliver ss title message filter) (fun _ => True).
Proof.
  induction 1 as [|s ss Hs _ IH]; [done|]. cbn [deliver]. apply wp_bind. eapply (wp_mono _ _ (fun _ => True)).
  { intros es _. apply wp_bind. by eapply wp_mono; [|exact IH]. }
  destruct (wanted filter s) eqn:Ew; [|done]. unfold sendDesktopNotification. cbn [bind ask wp]. split; [done|]. intros [b|e]; [|done].
  cbn [bind ask wp]. split; [|done]. split; [done|]. split; [done|]. do 3 right. exists s. split; [done|]. split; [done|]. split; [done|].
  unfold wanted in Ew. destruct filter; [by apply bool_decide_eq_true in Ew|done].
Qed.
Lemma desktop_ok : ok (sendDesktopNotifications title message filter) (fun _ => True).
Proof.
  unfold sendDesktopNotifications, listGraphicalSessions. cbn [bind ask wp]. split; [done|]. intros [p|]; [|done]. cbn [bind ask wp].
  split; [cbn; unfold notify_cmd; eauto 8|]. intros r'. destruct (cmd_result _ _) as [out|]; [|done]. apply wp_bind, wp_bind.
  eapply wp_mono; [|apply load_ok]. intros ss Hss. cbn [wp]. by apply deliver_ok.
Qed.
Lemma broadcast_ok : ok (broadcast title message filter) (fun _ => True).
Proof.
  unfold broadcast, sendWall. cbn [bind ask wp]. split; [cbn; unfold notify_cmd; eauto 8|]. intros r.
  apply wp_bind. by eapply wp_mono; [|apply desktop_ok].
Qed.
End Run.

(** Whatever loginctl prints and on every host: nothing runs for a title or message with a
    control byte or beyond the limit, or for a list of users with one; the broadcast is the
    text on standard input, and a desktop notification is delivered only as the user of a
    graphical session that was asked for. *)
Theorem notifications_confined {S} (h : handler S) s users title message :
  Forall (fun c => notify_cmd (Some users) title message c.1 c.2) (commands h s (NotifyUsers users title message)) /\
  Forall (fun c => notify_cmd None title message c.1 c.2) (commands h s (NotifyAll title message)).
Proof.
  split; apply (wp_commands _ _ _ _ (fun _ => True)); [unfold NotifyUsers|unfold NotifyAll];
    (destruct (validateNotification title message) as [[]|e] eqn:E; [|done]); apply notification_ok in E as [Ht Hm].
  - destruct (each _ _); [|done]. by apply broadcast_ok.
  - by apply broadcast_ok.
Qed.

(** ** What goes wrong *)

(** A control byte of the upper half passes, alone and as part of a rune: 0x9B starts a
    control sequence on terminals. *)
Lemma upper_controls_accepted :
  validateNotification (bytes [0x9b]) (bytes [0xc2; 0x9b]) = Ok tt.
Proof. reflexivity. Qed.

(** A title that starts with a dash is an option of notify-send. *)
Lemma title_read_as_option s :
  validateNotification (str "--help") [] = Ok tt /\
  exists pre, Args (desktop_cmd s (str "--help") []) = pre ++ [str "--help"; []] /\ str "notify-send" ∈ pre.
Proof.
  split; [reflexivity|]. eexists [_; _; _; _; _; _; _; _; _; _; _; _]. split; [reflexivity|].
  rewrite !elem_of_cons. auto 10.
Qed.
End Notify.
