(* ===== verification/CaTrust.v ===== *)
(** * System trust anchors ([src/sys/catrust])

    Installing, removing and listing CA certificates in the trust store of three
    distributions.  The decoding of PEM blocks and of certificates is a parameter, and so is
    the clock.  The trust store is a record of the anchor files and of what the system trusts,
    on a host where any of its commands may fail. *)
From S2P Require Import Prelude Exec HostProg HostCmd.

Module CaTrust.
Import Exec HostProg HostCmd.

Inductive Backend := CaCertificates | P11Kit | SuseCaCertificates.
Definition String_ (b : Backend) : gostring :=
  match b with CaCertificates => str "ca-certificates" | P11Kit => str "p11-kit" | SuseCaCertificates => str "suse-ca-certificates" end.

Inductive ca_error :=
| ErrUnknownBackend (n : Z)
| ErrInvalidName (name : gostring)
| ErrInvalidCert (why : gostring)
| ErrWrite (e : fs_err)
| ErrStat (e : fs_err)
| ErrRemove (e : fs_err)
| ErrReadDir (e : fs_err)
| ErrRefresh (e : cmd_error).

Record Anchor := MkAnchor { a_Name : gostring; a_Subject : gostring; a_Issuer : gostring }.

Record backendConfig := MkConfig { anchorsDirs : list gostring; installRefresh : gostring * list gostring; removeRefresh : gostring * list gostring }.
Definition backends (b : Backend) : backendConfig :=
  match b with
  | CaCertificates => MkConfig [str "/usr/local/share/ca-certificates"] (str "update-ca-certificates", []) (str "update-ca-certificates", [str "--fresh"])
  | P11Kit => MkConfig [str "/etc/pki/ca-trust/source/anchors"; str "/etc/ca-certificates/trust-source/anchors"]
                (str "update-ca-trust", [str "extract"]) (str "update-ca-trust", [str "extract"])
  | SuseCaCertificates => MkConfig [str "/etc/pki/trust/anchors"] (str "update-ca-certificates", []) (str "update-ca-certificates", [])
  end.
(** The backend of its number; zero is none. *)
Definition backend_of (n : Z) : option Backend :=
  if (n =? 1)%Z then Some CaCertificates else if (n =? 2)%Z then Some P11Kit else if (n =? 3)%Z then Some SuseCaCertificates else None.

(** ** Probing ([detect.go]) *)

Definition anchorsDirExists (path : gostring) : prog bool :=
  let! r := ask (CStat path) in Ret (match r with Ok d => d | Err _ => false end).
Fixpoint first_existing (candidates : list gostring) : prog (option gostring) :=
  match candidates with
  | [] => Ret None
  | d :: rest => let! e := anchorsDirExists d in if e then Ret (Some d) else first_existing rest
  end.
Definition resolveAnchorsDir (candidates : list gostring) : prog gostring :=
  let! d := first_existing candidates in Ret (default (default [] (head candidates)) d).

Definition Detect : prog (list Backend) :=
  let! u := ask (CLookPath (str "update-ca-certificates")) in
  let! first := (match u with
                 | Some _ => let! suse := anchorsDirExists (str "/etc/pki/trust/anchors") in
                             Ret [if suse then SuseCaCertificates else CaCertificates]
                 | None => Ret []
                 end) in
  let! t := ask (CLookPath (str "update-ca-trust")) in
  Ret (first ++ match t with Some _ => [P11Kit] | None => [] end).

(** The manager: its configuration and its directory. *)
Record manager := MkManager { cfg : backendConfig; anchorsDir : gostring }.
Definition New (n : Z) : prog (result ca_error manager) :=
  match backend_of n with
  | None => Ret (Err (ErrUnknownBackend n))
  | Some b => let! d := resolveAnchorsDir (anchorsDirs (backends b)) in Ret (Ok (MkManager (backends b) d))
  end.

(** ** Validation ([validate.go]) *)

Definition alnum (c : ascii) : bool := is_digit c || is_lower c || is_upper c.
Definition name_char (c : ascii) : bool := alnum c || bool_decide (c ∈ ["."%char; "_"%char; "-"%char]).
(** [^[a-zA-Z0-9][a-zA-Z0-9._-]{0,62}$] *)
Definition validName (name : gostring) : bool :=
  match name with [] => false | c :: s => alnum c && forallb name_char s && (length s <=? 62) end.
Definition validateName (name : gostring) : result ca_error unit :=
  if negb (validName name) || contains name (str "..") then Err (ErrInvalidName name) else Ok tt.

Definition anchorExt : gostring := str ".crt".
Definition hasAnchorExt (name : gostring) : bool := has_suffix name anchorExt.

Record certificate := MkCert { IsCA : bool; KeyUsage : N; NotBefore : Z; NotAfter : Z; Subject : gostring; Issuer : gostring }.
Definition KeyUsageCertSign : N := 32.

Section Certs.
(** The type and the bytes of the first block; a certificate of those bytes. *)
Context (pem_Decode : gostring -> option (gostring * gostring)) (ParseCertificate : gostring -> option certificate) (now : Z).

Definition parseCert (certPEM : gostring) : option certificate :=
  match pem_Decode certPEM with
  | Some (t, b) => if bool_decide (t = str "CERTIFICATE") then ParseCertificate b else None
  | None => None
  end.
Definition validateCACert (certPEM : gostring) : result ca_error unit :=
  match parseCert certPEM with
  | None => Err (ErrInvalidCert (str "not a certificate"))
  | Some cert =>
      if negb (IsCA cert) then Err (ErrInvalidCert (str "not a CA"))
      else if (N.land (KeyUsage cert) KeyUsageCertSign =? 0)%N then Err (ErrInvalidCert (str "lacks keyCertSign"))
      else if (now <? NotBefore cert)%Z then Err (ErrInvalidCert (str "not yet valid"))
      else if (NotAfter cert <? now)%Z then Err (ErrInvalidCert (str "expired"))
      else Ok tt
  end.

(** ** Operations *)

Definition anchorPath (m : manager) (name : gostring) : gostring := anchorsDir m ++ str "/" ++ name ++ anchorExt.

Definition refresh (cmd : gostring * list gostring) : prog (result ca_error unit) :=
  let! r := runPriv cmd.1 cmd.2 in Ret (match r with None => Ok tt | Some e => Err (ErrRefresh e) end).

Definition Install (m : manager) (name certPEM : gostring) : prog (result ca_error unit) :=
  match validateName name with
  | Err e => Ret (Err e)
  | Ok _ =>
      match validateCACert certPEM with
      | Err e => Ret (Err e)
      | Ok _ =>
          let! w := ask (CFs (FsWriteFile (anchorPath m name) certPEM 420 (str "root") (str "root"))) in
          match w with Some e => Ret (Err (ErrWrite e)) | None => refresh (installRefresh (cfg m)) end
      end
  end.

Definition Remove (m : manager) (name : gostring) : prog (result ca_error unit) :=
  match validateName name with
  | Err e => Ret (Err e)
  | Ok _ =>
      let! st := ask (CStat (anchorPath m name)) in
      match st with
      | Err NotExist => Ret (Ok tt)
      | Err e => Ret (Err (ErrStat e))
      | Ok _ =>
          let! r := ask (CFs (FsRemove (anchorPath m name))) in
          match r with Some e => Ret (Err (ErrRemove e)) | None => refresh (removeRefresh (cfg m)) end
      end
  end.

Definition list_entry (dir : gostring) (e : gostring * bool) : prog (option Anchor) :=
  if e.2 || negb (hasAnchorExt e.1) then Ret None
  else
    let! data := ask (CReadFile (dir ++ str "/" ++ e.1)) in
    Ret (match data with
         | Err _ => None
         | Ok d => match parseCert d with
                   | None => None
                   | Some c => Some (MkAnchor (take (length e.1 - length anchorExt) e.1) (Subject c) (Issuer c))
                   end
         end).
Fixpoint list_entries (dir : gostring) (es : list (gostring * bool)) : prog (list Anchor) :=
  match es with
  | [] => Ret []
  | e :: rest =>
      let! a := list_entry dir e in
      let! out := list_entries dir rest in
      Ret (match a with Some a => a :: out | None => out end)
  end.
Definition List_ (m : manager) : prog (result ca_error (list Anchor)) :=
  let! r := ask (COs (OsReadDir (anchorsDir m))) in
  match r with
  | Err NotExist => Ret (Ok [])
  | Err e => Ret (Err (ErrReadDir e))
  | Ok es => let! out := list_entries (anchorsDir m) es in Ret (Ok out)
  end.

(** ** What may be done *)

(** A certificate that may sign certificates, at this time. *)
Definition usable_ca (certPEM : gostring) : Prop :=
  exists c, parseCert certPEM = Some c /\ IsCA c = true /\ (N.land (KeyUsage c) KeyUsageCertSign <> 0)%N /\ (NotBefore c <= now <= NotAfter c)%Z.
Lemma validateCACert_iff pem : validateCACert pem = Ok tt <-> usable_ca pem.
Proof.
  unfold validateCACert, usable_ca. destruct (parseCert pem) as [c|]; [|split; [done|by intros (? & ? & _)]].
  destruct (IsCA c) eqn:E1; cbn [negb]; [|split; [done|intros (? & [= <-] & ? & _); congruence]].
  destruct (N.eqb_spec (N.land (KeyUsage c) KeyUsageCertSign) 0); [split; [done|by intros (? & [= <-] & _ & ? & _)]|].
  destruct (Z.ltb_spec now (NotBefore c)); [split; [done|intros (? & [= <-] & _ & _ & ?); lia]|].
  destruct (Z.ltb_spec (NotAfter c) now); [split; [done|intros (? & [= <-] & _ & _ & ?); lia]|]. split; [|done]. intros _. by exists c.
Qed.

(** A name of one path element: no separator, not hidden, no dots alone. *)
Definition file_name (name : gostring) : Prop := ("/"%char ∉ name) /\ exists c s, name = c :: s /\ c <> "."%char /\ c <> "-"%char.
Lemma name_char_class c : name_char c = true -> c <> "/"%char.
Proof. intros H ->. by vm_compute in H. Qed.
Lemma anchor_name_ok name : validateName name = Ok tt -> file_name name.
Proof.
  unfold validateName, file_name. destruct (validName name) eqn:Ev; [|done]. intros _. unfold validName in Ev. destruct name as [|c s]; [done|].
  apply andb_prop in Ev as [[Hc Hs]%andb_prop _]. split.
  - intros [E|Hin]%elem_of_cons; [by rewrite <- E in Hc|]. rewrite forallb_forall in Hs. apply list_elem_of_In, Hs, name_char_class in Hin. done.
  - exists c, s. split; [done|]. split; intros ->; by vm_compute in Hc.
Qed.

Definition trust_request (m : manager) (q : request) : Prop :=
  match q with
  | QFs (FsWriteFile p d mode o g) => exists name, p = anchorPath m name /\ file_name name /\ usable_ca d /\ mode = 420%N /\ o = str "root" /\ g = str "root"
  | QFs (FsRemove p) | QStat p => exists name, p = anchorPath m name /\ file_name name
  | QRun c i => i = [] /\ (c = priv (installRefresh (cfg m)).1 (installRefresh (cfg m)).2 \/ c = priv (removeRefresh (cfg m)).1 (removeRefresh (cfg m)).2)
  | QOs (OsReadDir p) => p = anchorsDir m
  | QReadFile p => exists n, p = anchorsDir m ++ str "/" ++ n
  | _ => False
  end.

Lemma refresh_ok m cmd : cmd = installRefresh (cfg m) \/ cmd = removeRefresh (cfg m) -> wp (trust_request m) (refresh cmd) (fun _ => True).
Proof.
  intros H. unfold refresh, runPriv. cbn [bind ask wp]. split; [|by intros r; destruct (cmd_result cmd.1 r)]. split; [done|]. destruct H as [-> | ->]; auto.
Qed.

(** Whatever is asked and whatever the host answers: an anchor is written only with a
    certificate that is a usable authority at this time, and written and removed only as a
    file directly in the directory of anchors, readable by all and owned by root; the only
    commands are the backend's refreshes. *)
Theorem trust_confined {S} (h : handler S) s m name pem :
  Forall (trust_request m) (asked h s (Install m name pem)) /\ Forall (trust_request m) (asked h s (Remove m name)) /\
  Forall (trust_request m) (asked h s (List_ m)).
Proof.
  split; [|split]; apply (wp_run _ h s _ (fun _ => True)).
  - unfold Install. destruct (validateName name) as [[]|] eqn:En; [|done]. apply anchor_name_ok in En.
    destruct (validateCACert pem) as [[]|] eqn:Ec; [|done]. apply validateCACert_iff in Ec. cbn [bind ask wp]. split; [by exists name|].
    intros [e|]; [done|]. apply refresh_ok. by left.
  - unfold Remove. destruct (validateName name) as [[]|] eqn:En; [|done]. apply anchor_name_ok in En. cbn [bind ask wp]. split; [by exists name|].
    intros [b|[|e]]; [|done|done]. cbn [bind ask wp]. split; [by exists name|]. intros [e|]; [done|]. apply refresh_ok. by right.
  - unfold List_. cbn [bind ask wp]. split; [done|]. intros [es|[|e]]; [|done|done]. apply wp_bind. eapply wp_mono; [done|].
    instantiate (1 := fun _ => True). induction es as [|e es IH]; [done|]. cbn [list_entries]. apply wp_bind.
    eapply (wp_mono _ _ (fun _ => True)). { intros a _. apply wp_bind. by eapply wp_mono; [|exact IH]. }
    unfold list_entry. destruct (_ || _); [done|]. cbn [bind ask wp]. split; [by eexists|done].
Qed.

(** ** The store is a map *)

(** The directory of anchors by file name, and the certificates the system trusts because of
    them, which a refresh derives from the directory. *)
Record store := MkStore { anchors : gmap gostring gostring; trusted : gmap gostring gostring }.

(** A manager on a host whose calls may fail: writing, looking up, removing, reading a file,
    reading the directory, and the refresh. *)
Context (b : Backend) (dir : gostring).
Definition mgr : manager := MkManager (backends b) dir.
Context (write_fault remove_fault dir_fault : option fs_err) (stat_fault : option gostring) (unreadable : gostring -> bool).
Context (tool : Result * option exec_error).
Definition tool_ok : bool := match tool with (res, None) => (ExitCode res =? 0)%Z | _ => false end.
(** The entries of removed anchors that a refresh without [--fresh] may keep. *)
Context (stale : gmap gostring gostring -> gmap gostring gostring) (stale_sub : forall t, stale t ⊆ t).

(** What the manuals of [update-ca-certificates] and [update-ca-trust] say. *)
Definition refreshed (c : Command) (s : store) : option (gmap gostring gostring) :=
  let cmd name args := bool_decide (Name c = name) && bool_decide (Args c = args) && Escalate c in
  match b with
  | CaCertificates =>
      if cmd (str "update-ca-certificates") [str "--fresh"] then Some (anchors s)
      else if cmd (str "update-ca-certificates") [] then Some (anchors s ∪ stale (trusted s)) else None
  | P11Kit => if cmd (str "update-ca-trust") [str "extract"] then Some (anchors s) else None
  | SuseCaCertificates => if cmd (str "update-ca-certificates") [] then Some (anchors s) else None
  end.

Definition base (p : gostring) : gostring := drop (length dir + 1) p.
Definition store_host : handler store :=
  fun X s c => match c in call X return store * X with
               | CRun c _ => match refreshed c s with
                             | Some t => (if tool_ok then MkStore (anchors s) t else s, tool)
                             | None => (s, (MkResult 127 [] [], None))
                             end
               | CFs (FsWriteFile p d _ _ _) =>
                   match write_fault with Some e => (s, Some e) | None => (MkStore (<[base p := d]> (anchors s)) (trusted s), None) end
               | CFs (FsRemove p) =>
                   match remove_fault with Some e => (s, Some e) | None => (MkStore (delete (base p) (anchors s)) (trusted s), None) end
               | CStat p => (s, match stat_fault with
                                | Some m => Err (OtherErr m)
                                | None => match anchors s !! base p with Some _ => Ok false | None => Err NotExist end
                                end)
               | CReadFile p => (s, if unreadable (base p) then Err (OtherErr [])
                                    else match anchors s !! base p with Some d => Ok d | None => Err NotExist end)
               | COs (OsReadDir _) => (s, match dir_fault with
                                          | Some e => Err e
                                          | None => Ok ((fun f => (f.1, false)) <$> map_to_list (anchors s))
                                          end)
               | c' => command_host (fun s _ _ => (s, (MkResult 1 [] [], None))) absent absent _ s c'
               end.

Lemma base_join n : base (dir ++ str "/" ++ n) = n.
Proof. unfold base. rewrite app_assoc, drop_app_length'; [done|]. by rewrite length_app. Qed.
Lemma stem_ext n : take (length (n ++ anchorExt) - length anchorExt) (n ++ anchorExt) = n.
Proof. rewrite length_app, Nat.add_sub. by rewrite take_app_length. Qed.

(** What a file of the store stands for. *)
Definition anchor_of (f : gostring) (d : gostring) : option Anchor :=
  if hasAnchorExt f && negb (unreadable f)
  then c ← parseCert d; Some (MkAnchor (take (length f - length anchorExt) f) (Subject c) (Issuer c)) else None.

Lemma list_entries_run s l : (forall f, f ∈ l -> anchors s !! f.1 = Some f.2) ->
  run store_host s (list_entries dir ((fun f => (f.1, false)) <$> l)) = (s, omap (fun f => anchor_of f.1 f.2) l).
Proof.
  induction l as [|[f d] l IH]; intros Hl; [done|]. rewrite fmap_cons. cbn [list_entries fst snd].
  assert (Hone : run store_host s (list_entry dir (f, false)) = (s, anchor_of f d)).
  { unfold list_entry, anchor_of. cbn [fst snd orb]. destruct (hasAnchorExt f); cbn [negb andb]; [|done]. cbn [bind ask run store_host].
    rewrite base_join. destruct (unreadable f); [done|]. specialize (Hl (f, d)). cbn in Hl. rewrite Hl by left. by destruct (parseCert d). }
  rewrite run_bind, Hone. cbn [fst snd]. rewrite run_bind, IH by (intros; apply Hl; by right). cbn. by destruct (anchor_of f d).
Qed.

(** The refresh after an anchor was written to a store in sync, or removed from it. *)
Lemma trust_refresh_run a t cmd s' :
  refreshed (priv cmd.1 cmd.2) (MkStore a t) = Some s' ->
  if tool_ok then run store_host (MkStore a t) (refresh cmd) = (MkStore a s', Ok tt)
  else exists e, run store_host (MkStore a t) (refresh cmd) = (MkStore a t, Err (ErrRefresh e)).
Proof.
  intros Hr. unfold refresh, runPriv. cbn [bind ask run store_host]. rewrite Hr. cbn [anchors].
  unfold tool_ok. destruct tool as [res [e|]]; cbn [cmd_result]; [by eexists|]. destruct (ExitCode res =? 0)%Z; by eexists.
Qed.
Lemma install_refreshes a t : (forall k, is_Some (stale t !! k) -> is_Some (a !! k)) -> refreshed (priv (installRefresh (backends b)).1 (installRefresh (backends b)).2) (MkStore a t) = Some a.
Proof.
  intros Hs. unfold refreshed, priv. destruct b; cbn [backends installRefresh fst snd].
  - change (Some (a ∪ stale t) = Some a). f_equal.
    apply map_eq. intros k. rewrite lookup_union. specialize (Hs k). destruct (a !! k), (stale t !! k) as [v|]; try done. by destruct Hs as [? [=]].
  - done.
  - done.
Qed.
Lemma remove_refreshes a t : refreshed (priv (removeRefresh (backends b)).1 (removeRefresh (backends b)).2) (MkStore a t) = Some a.
Proof. unfold refreshed, priv. by destruct b. Qed.


(** ** What goes wrong *)

(** Only the first block is looked at, and all of the input is installed. *)
Lemma trailing_blocks_installed {S} (h : handler S) s m name pem rest :
  pem_Decode (pem ++ rest) = pem_Decode pem -> validateName name = Ok tt -> validateCACert pem = Ok tt ->
  QFs (FsWriteFile (anchorPath m name) (pem ++ rest) 420 (str "root") (str "root")) ∈ asked h s (Install m name (pem ++ rest)).
Proof.
  intros Hd Hn Hc. unfold Install, validateCACert, parseCert in *. rewrite Hn, Hd, Hc. cbn [bind ask asked]. left.
Qed.
(** A removal whose refresh failed is not completed by repeating it: the file is gone, and
    the store is not refreshed. *)
Lemma failed_refresh_not_repeated {S} (h : handler S) s m name :
  validateName name = Ok tt -> h _ s (CStat (anchorPath m name)) = (s, Err NotExist) ->
  asked h s (Remove m name) = [QStat (anchorPath m name)] /\ (run h s (Remove m name)).2 = Ok tt.
Proof. intros Hn Hs. unfold Remove. rewrite Hn. cbn [bind ask asked run]. by rewrite Hs. Qed.
End Certs.

End CaTrust.
