(* ===== verification/Inspect.v ===== *)
(** * What the host is ([src/sys/inventory], [src/sys/smart], [src/sys/timesync])

    Inventory, SMART reports and the state of the clock, each read from a tool or a file. *)
From S2P Require Import Prelude Exec Paths HostProg Words Json Ini HostCmd.

(** * System inventory ([src/sys/inventory])

    Hardware, operating system, block devices and network interfaces, from the files of
    the kernel and of the distribution and from lsblk and ip.  The host name and the
    architecture are parameters; a file is read at once.  [ToUpper] is the one of the
    prelude, exact on the ASCII names of interface states. *)

Module Inventory.
Import Exec HostProg HostCmd Json.

Definition cpuinfoPath : gostring := str "/proc/cpuinfo".
Definition meminfoPath : gostring := str "/proc/meminfo".
Definition osReleasePath : gostring := str "/etc/os-release".

Inductive inv_error :=
| ErrHostname
| ErrRead (path : gostring) (e : fs_err)
| ErrScan (path : gostring)
| ErrMemFormat (line : gostring)
| ErrMemValue (value : gostring)
| ErrMemMissing
| ErrRun (e : cmd_error)
| ErrParse.

Record SystemInfo := MkSystem {
  Hostname : gostring; CPUModel : gostring; CPUCores : Z; MemoryTotalMB : Z; s_Arch : gostring; KernelVersion : gostring
}.
Record OSInfo := MkOS {
  Name : gostring; o_Version : gostring; ID : gostring; PrettyName : gostring; VersionID : gostring; Arch : gostring
}.
Record DiskInfo := MkDisk { Device : gostring; Size : gostring; Type_ : gostring; Mount : gostring }.
Record NetworkInterface := MkNic { n_Name : gostring; MAC : gostring; Addresses : list gostring; State : gostring }.

(** ** Files *)

Definition read_file (path : gostring) : prog (result inv_error gostring) :=
  let! r := ask (CReadFile path) in Ret (match r with Ok d => Ok d | Err e => Err (ErrRead path e) end).

Definition cpu_line (acc : gostring * Z) (line : gostring) : gostring * Z :=
  let model :=
    if has_prefix line (str "model name") && bool_decide (acc.1 = []) then
      match cut line ":"%char with Some (_, v) => trim_space v | None => acc.1 end
    else acc.1 in
  (model, if has_prefix line (str "processor") then (acc.2 + 1)%Z else acc.2).
Definition cpu_info (path text : gostring) : result inv_error (gostring * Z) :=
  let '(lines, ok) := scan text in
  if ok then Ok (fold_left cpu_line lines ([], 0%Z)) else Err (ErrScan path).
Definition parseCPUInfo (path : gostring) : prog (result inv_error (gostring * Z)) :=
  let!? text := read_file path in Ret (cpu_info path text).

Definition mem_line (line : gostring) : result inv_error Z :=
  match fields line with
  | _ :: v :: _ =>
      let '(kb, ok) := parse_int64 v in
      if ok then Ok (Z.quot kb 1024) else Err (ErrMemValue v)
  | _ => Err (ErrMemFormat line)
  end.
Definition mem_total (path text : gostring) : result inv_error Z :=
  let '(lines, ok) := scan text in
  match List.find (fun l => has_prefix l (str "MemTotal:")) lines with
  | Some line => mem_line line
  | None => if ok then Err ErrMemMissing else Err (ErrScan path)
  end.
Definition parseMemTotal (path : gostring) : prog (result inv_error Z) :=
  let!? text := read_file path in Ret (mem_total path text).

Definition unquote (value : gostring) : gostring :=
  if (2 <=? length value) && has_prefix value [QUOTE] && has_suffix value [QUOTE]
  then take (length value - 2) (drop 1 value) else value.
Definition parseOSReleaseLine (line : gostring) : option (gostring * gostring) :=
  let line := trim_space line in
  if bool_decide (line = []) || has_prefix line (str "#") then None
  else kv ← cut line "="%char; Some (kv.1, unquote kv.2).
Definition assign (i : OSInfo) (kv : gostring * gostring) : OSInfo :=
  let '(MkOS n v d p vi a) := i in
  let '(k, x) := kv in
  if bool_decide (k = str "NAME") then MkOS x v d p vi a
  else if bool_decide (k = str "VERSION") then MkOS n x d p vi a
  else if bool_decide (k = str "ID") then MkOS n v x p vi a
  else if bool_decide (k = str "PRETTY_NAME") then MkOS n v d x vi a
  else if bool_decide (k = str "VERSION_ID") then MkOS n v d p x a
  else i.
Definition os_release (path text : gostring) : result inv_error OSInfo :=
  let '(lines, ok) := scan text in
  if ok then Ok (fold_left assign (omap parseOSReleaseLine lines) (MkOS [] [] [] [] [] [])) else Err (ErrScan path).
Definition parseOSRelease (path : gostring) : prog (result inv_error OSInfo) :=
  let!? text := read_file path in Ret (os_release path text).

(** ** Commands *)

Definition read (name : gostring) (args : list gostring) : prog (result inv_error gostring) :=
  let! r := runRead name args in Ret (match r with Ok out => Ok out | Err e => Err (ErrRun e) end).

Section Host.
Context (hostnameFn : option gostring) (GOARCH : gostring).

Definition System : prog (result inv_error SystemInfo) :=
  match hostnameFn with
  | None => Ret (Err ErrHostname)
  | Some hostname =>
      let!? (cpuModel, cpuCores) := parseCPUInfo cpuinfoPath in
      let!? memTotal := parseMemTotal meminfoPath in
      let!? out := read (str "uname") [str "-r"] in
      Ret (Ok (MkSystem hostname cpuModel cpuCores memTotal GOARCH (trim_space out)))
  end.
Definition OS : prog (result inv_error OSInfo) :=
  let!? i := parseOSRelease osReleasePath in
  Ret (Ok (MkOS (Name i) (o_Version i) (ID i) (PrettyName i) (VersionID i) GOARCH)).
End Host.

(** *** Block devices *)

Inductive blockDevice := MkDev (name size type mountpoint : gostring) (children : list blockDevice).

(** [json.Unmarshal] into the struct; the recursion is on the JSON value. *)
Fixpoint dec_dev (v : json) : option blockDevice :=
  let dec_children (w : json) : option (list blockDevice) :=
    match w with
    | JNull => Some []
    | JArr l => (fix go l := match l with
                             | [] => Some []
                             | x :: r => match dec_dev x, go r with Some d, Some ds => Some (d :: ds) | _, _ => None end
                             end) l
    | _ => None
    end in
  match v with
  | JNull => Some (MkDev [] [] [] [] [])
  | JObj kvs =>
      let kids := (fix go kvs acc := match kvs with
                     | [] => acc
                     | (k, w) :: r => go r (if fold_eq k (str "children") then dec_children w else acc)
                     end) kvs (Some []) in
      match dec_str (field kvs (str "name")), dec_str (field kvs (str "size")), dec_str (field kvs (str "type")),
            dec_str (field kvs (str "mountpoint")), kids with
      | Some n, Some s, Some t, Some m, Some c => Some (MkDev n s t m c)
      | _, _, _, _, _ => None
      end
  | _ => None
  end.
Definition dec_lsblk (out : gostring) : option (list blockDevice) :=
  v ← parse out; kvs ← dec_object (Some v);
  dec_list (fun w => match w with Some w => dec_dev w | None => None end) (field kvs (str "blockdevices")).

Fixpoint walk_dev (d : blockDevice) : list DiskInfo :=
  let '(MkDev n s t m c) := d in MkDisk (str "/dev/" ++ n) s t m :: concat (map walk_dev c).
Definition walk (devices : list blockDevice) : list DiskInfo := concat (map walk_dev devices).

Definition Disks : prog (result inv_error (list DiskInfo)) :=
  let!? out := read (str "lsblk") [str "--json"; str "-o"; str "NAME,SIZE,TYPE,MOUNTPOINT"] in
  Ret (match dec_lsblk out with Some ds => Ok (walk ds) | None => Err ErrParse end).

(** *** Interfaces *)

Definition dec_addr (v : option json) : option gostring :=
  kvs ← dec_object v; l ← dec_str (field kvs (str "local")); p ← dec_int (field kvs (str "prefixlen")); Some (l ++ str "/" ++ int_lit p).
Definition dec_iface (v : option json) : option NetworkInterface :=
  kvs ← dec_object v;
  n ← dec_str (field kvs (str "ifname"));
  a ← dec_str (field kvs (str "address"));
  s ← dec_str (field kvs (str "operstate"));
  addrs ← dec_list dec_addr (field kvs (str "addr_info"));
  Some (MkNic n a addrs (to_upper s)).
Definition NetworkInterfaces : prog (result inv_error (list NetworkInterface)) :=
  let!? out := read (str "ip") [str "-j"; str "addr"] in
  Ret (match (v ← parse out; dec_list dec_iface (Some v)) with Some l => Ok l | None => Err ErrParse end).

(** ** Processors *)

(** The model that a line names. *)
Definition model_of (line : gostring) : option gostring :=
  if has_prefix line (str "model name") then
    kv ← cut line ":"%char; if bool_decide (trim_space kv.2 = []) then None else Some (trim_space kv.2)
  else None.
Definition processors (lines : list gostring) : nat := length (List.filter (fun l => has_prefix l (str "processor")) lines).

Lemma cpu_lines lines m n :
  fold_left cpu_line lines (m, n) =
  (if decide (m = []) then default [] (head (omap model_of lines)) else m, (n + Z.of_nat (processors lines))%Z).
Proof.
  revert m n. induction lines as [|l lines IH]; intros m n; cbn [fold_left].
  - unfold processors. cbn. rewrite Z.add_0_r. by case_decide; subst.
  - unfold cpu_line at 2. cbn [fst snd]. rewrite IH. f_equal.
    + cbn [omap list_omap]. unfold model_of at 2. destruct (decide (m = [])) as [->|Hm]; [rewrite bool_decide_true by done|rewrite bool_decide_false by done].
      * rewrite andb_true_r. destruct (has_prefix l _); [|by rewrite decide_True]. destruct (cut l _) as [[a b]|]; cbn [mbind option_bind fst snd]; [|done].
        by destruct (trim_space b).
      * rewrite andb_false_r. by rewrite decide_False.
    + unfold processors. cbn [List.filter]. destruct (has_prefix l (str "processor")); cbn [length]; lia.
Qed.
(** The model is the first that is named, the number of cores the number of processor lines. *)
Theorem cpu_exact path text :
  cpu_info path text =
    if (scan text).2 then Ok (default [] (head (omap model_of (scan text).1)), Z.of_nat (processors (scan text).1)) else Err (ErrScan path).
Proof. unfold cpu_info. destruct (scan text) as [lines []]; [|done]. by rewrite cpu_lines, decide_True. Qed.

(** ** The release file *)

Definition release_line (kv : gostring * gostring) : gostring := kv.1 ++ str "=" ++ QUOTE :: kv.2 ++ [QUOTE].
Definition plain_assignment (kv : gostring * gostring) : Prop :=
  (exists c k, kv.1 = c :: k /\ not_space_start c = true /\ c <> "#"%char) /\ ("="%char ∉ kv.1) /\ (NL ∉ kv.1) /\ (NL ∉ kv.2) /\
  (N.of_nat (length (release_line kv)) < maxScanTokenSize)%N.
Definition last_value (kvs : list (gostring * gostring)) (k : gostring) : gostring :=
  match List.find (fun kv => bool_decide (kv.1 = k)) (rev kvs) with Some kv => kv.2 | None => [] end.

Lemma release_line_read kv : plain_assignment kv -> parseOSReleaseLine (release_line kv) = Some kv.
Proof.
  destruct kv as [k v]. intros ((c & k' & Hk & Hc & Hh) & He & _). cbn [fst snd] in *. unfold parseOSReleaseLine, release_line. cbn [fst snd].
  assert (trim_space (k ++ str "=" ++ QUOTE :: v ++ [QUOTE]) = k ++ str "=" ++ QUOTE :: v ++ [QUOTE]) as ->.
  { subst k. pose proof (trim_space_id c (k' ++ str "=" ++ QUOTE :: v) QUOTE Hc eq_refl) as H. by rewrite <- !app_assoc in H. }
  rewrite bool_decide_false by by subst k. assert (has_prefix (k ++ str "=" ++ QUOTE :: v ++ [QUOTE]) (str "#") = false) as ->.
  { subst k. cbn. by rewrite bool_decide_false. }
  change (str "=" ++ QUOTE :: v ++ [QUOTE]) with ("="%char :: QUOTE :: v ++ [QUOTE]). rewrite cut_app by done. cbn. f_equal. f_equal.
  unfold unquote. rewrite (proj2 (has_suffix_spec _ [QUOTE])) by by exists (QUOTE :: v). cbn [length]. rewrite length_app. cbn [length].
  replace (2 <=? S (length v + 1)) with true by (symmetry; apply Nat.leb_le; lia). cbn [has_prefix]. rewrite bool_decide_true by done. cbn [andb drop].
  replace (S (length v + 1) - 2) with (length v) by lia. rewrite drop_0. by rewrite take_app_length.
Qed.
Lemma drop_cr_last l x : x <> CR -> drop_cr (l ++ [x]) = l ++ [x].
Proof.
  intros Hx. unfold drop_cr, trim_suffix. destruct (has_suffix _ _) eqn:E; [|done]. apply has_suffix_spec in E as [t Ht].
  apply app_inj_tail in Ht as [_ ?]. congruence.
Qed.
Lemma scan_release kvs : Forall plain_assignment kvs -> scan (Ini.unlines (map release_line kvs)) = (map release_line kvs, true).
Proof.
  intros H. unfold scan. rewrite Ini.split_unlines.
  - induction H as [|kv kvs (_ & _ & _ & _ & Hl) _ IH]; [done|]. cbn [map app].
    destruct (map release_line kvs ++ [[]]) as [|l r] eqn:E; [by destruct kvs|]. cbn [scan_from]. cbn [scan_from] in IH. rewrite IH.
    rewrite (proj2 (N.ltb_lt _ _) Hl). f_equal. f_equal. unfold release_line.
    change (kv.1 ++ str "=" ++ QUOTE :: kv.2 ++ [QUOTE]) with (kv.1 ++ ("="%char :: QUOTE :: kv.2) ++ [QUOTE]). rewrite app_assoc. by apply drop_cr_last.
  - apply list.Forall_fmap. eapply list.Forall_impl; [exact H|]. intros [k v] (_ & _ & Hk & Hv & _). cbn [fst snd] in *. unfold compose, release_line. cbn [fst snd].
    rewrite !not_elem_of_app. split_and!; [done|by apply (bool_decide_unpack _)|]. rewrite not_elem_of_cons, not_elem_of_app. split_and!; [done|done|by apply (bool_decide_unpack _)].
Qed.
Lemma last_value_snoc kvs k v x : last_value (kvs ++ [(k, v)]) x = if decide (k = x) then v else last_value kvs x.
Proof. unfold last_value. rewrite rev_unit. cbn. case_bool_decide; case_decide; done. Qed.

(** A release file of quoted assignments is read key by key; the last assignment of a key
    counts and all other keys are ignored. *)
Theorem release_roundtrip path kvs :
  Forall plain_assignment kvs ->
  os_release path (Ini.unlines (map release_line kvs)) =
    Ok (MkOS (last_value kvs (str "NAME")) (last_value kvs (str "VERSION")) (last_value kvs (str "ID"))
             (last_value kvs (str "PRETTY_NAME")) (last_value kvs (str "VERSION_ID")) []).
Proof.
  intros H. unfold os_release. rewrite scan_release by done. f_equal.
  assert (omap parseOSReleaseLine (map release_line kvs) = kvs) as ->.
  { induction H as [|kv kvs Hk _ IH]; [done|]. cbn. by rewrite release_line_read, IH. }
  clear H. induction kvs as [|[k v] kvs IH] using rev_ind; [done|]. rewrite fold_left_app, IH, !last_value_snoc. cbn [fold_left assign].
  repeat (case_bool_decide; [subst k; reflexivity|]). by rewrite !decide_False.
Qed.
Lemma release_roundtrip_witness :
  os_release osReleasePath (Ini.unlines (map release_line [(str "ID", str "debian"); (str "HOME_URL", str "https://x"); (str "NAME", str "Debian")]))
  = Ok (MkOS (str "Debian") [] (str "debian") [] [] []).
Proof.
  etransitivity; [apply release_roundtrip|reflexivity]. repeat (apply list.Forall_cons; split); [..|by apply list.Forall_nil];
    (split; [by eexists _, _|]; split_and!; [by apply (bool_decide_unpack _)..|by vm_compute]).
Defined.

(** ** What is run *)

(** Nothing of the inventory is escalated. *)
Lemma read_wp name args (Q : result inv_error gostring -> Prop) : (forall r, Q r) -> wp (on_run (fun c _ => Escalate c = false)) (read name args) Q.
Proof. intros HQ. unfold read. apply wp_bind. apply runRead_wp; [done|]. intros r. apply HQ. Qed.
Theorem inventory_unprivileged {S} (h : handler S) s hostname arch :
  Forall (fun ci => Escalate ci.1 = false)
    (commands h s (System hostname arch) ++ commands h s (OS arch) ++ commands h s Disks ++ commands h s NetworkInterfaces).
Proof.
  assert (Hf : forall path (Q : result inv_error gostring -> Prop), (forall r, Q r) -> wp (on_run (fun c _ => Escalate c = false)) (read_file path) Q)
    by (intros path Q HQ; unfold read_file; cbn [bind ask wp]; split; [done|intros r; apply HQ]).
  rewrite !list.Forall_app. split_and!; apply (wp_commands (fun c _ => Escalate c = false) _ _ _ (fun _ => True)).
  - unfold System. destruct hostname; [|done]. unfold bind_ok. apply wp_bind. unfold parseCPUInfo, bind_ok. apply wp_bind, Hf. intros [t|]; [|done].
    cbn [wp]. destruct (cpu_info _ t) as [[m c]|]; [|done]. apply wp_bind. unfold parseMemTotal, bind_ok. apply wp_bind, Hf. intros [u|]; [|done].
    cbn [wp]. destruct (mem_total _ u); [|done]. apply wp_bind, read_wp. by intros [].
  - unfold OS, parseOSRelease, bind_ok. apply wp_bind, wp_bind, Hf. intros [t|]; [|done]. cbn [wp]. by destruct (os_release _ t).
  - unfold Disks, bind_ok. apply wp_bind, read_wp. by intros [].
  - unfold NetworkInterfaces, bind_ok. apply wp_bind, read_wp. by intros [].
Qed.

(** ** Block devices as lsblk prints them *)

(** A device that is not mounted has a null mount point. *)
Fixpoint disk_json (d : blockDevice) : json :=
  let '(MkDev n s t m c) := d in
  JObj ([(str "name", JStr n); (str "size", JStr s); (str "type", JStr t);
         (str "mountpoint", match m with [] => JNull | _ => JStr m end)] ++
        match c with [] => [] | _ => [(str "children", JArr (map disk_json c))] end).
Definition disks_json (ds : list blockDevice) : json := JObj [(str "blockdevices", JArr (map disk_json ds))].

Section Disk_ind.
Context (P : blockDevice -> Prop) (H : forall n s t m c, Forall P c -> P (MkDev n s t m c)).
Fixpoint disk_tree_ind (d : blockDevice) : P d :=
  let '(MkDev n s t m c) := d in
  H n s t m c ((fix go c := match c return Forall P c with
                            | [] => List.Forall_nil _
                            | d :: c' => @List.Forall_cons _ P d c' (disk_tree_ind d) (go c')
                            end) c).
End Disk_ind.

Definition dec_disks : list json -> option (list blockDevice) :=
  fix go l := match l with
              | [] => Some []
              | x :: r => match dec_dev x, go r with Some d, Some ds => Some (d :: ds) | _, _ => None end
              end.
Definition disk_kids : list (gostring * json) -> option (list blockDevice) -> option (list blockDevice) :=
  fix go kvs acc := match kvs with
                    | [] => acc
                    | (k, w) :: r =>
                        go r (if fold_eq k (str "children")
                              then match w with JNull => Some [] | JArr l => dec_disks l | _ => None end else acc)
                    end.
Lemma dec_disk_obj kvs :
  dec_dev (JObj kvs) =
  match dec_str (field kvs (str "name")), dec_str (field kvs (str "size")), dec_str (field kvs (str "type")),
        dec_str (field kvs (str "mountpoint")), disk_kids kvs (Some []) with
  | Some n, Some s, Some t, Some m, Some c => Some (MkDev n s t m c)
  | _, _, _, _, _ => None
  end.
Proof. reflexivity. Qed.
Lemma dec_disk_json d : dec_dev (disk_json d) = Some d.
Proof.
  induction d as [n s t m c IH] using disk_tree_ind. cbn [disk_json].
  assert (Hc : dec_disks (map disk_json c) = Some c).
  { induction IH as [|d l Hd _ IHl]; [done|]. cbn [map dec_disks]. by rewrite Hd, IHl. }
  set (jm := match m with [] => JNull | _ => _ end). assert (Hm : dec_str (Some jm) = Some m) by by destruct m. clearbody jm.
  set (rest := match c with [] => [] | _ => _ end).
  assert (Hrest : rest = [] /\ c = [] \/ rest = [(str "children", JArr (map disk_json c))]) by (destruct c; [by left|by right]).
  rewrite dec_disk_obj. clearbody rest. set (kvs := _ ++ rest).
  assert (Hfields : field kvs (str "name") = Some (JStr n) /\ field kvs (str "size") = Some (JStr s) /\
    field kvs (str "type") = Some (JStr t) /\ field kvs (str "mountpoint") = Some jm /\ disk_kids kvs (Some []) = Some c).
  { unfold kvs. destruct Hrest as [[-> ->]| ->]; [split_and!; by_eval|]. rewrite <- Hc. generalize (map disk_json c). intros l. split_and!; [by_eval..|reflexivity]. }
  destruct Hfields as (-> & -> & -> & -> & ->). by rewrite Hm.
Qed.
Lemma printable_disk d : printable (disk_json d).
Proof.
  induction d as [n s t m c IH] using disk_tree_ind. cbn [disk_json]. apply printable_obj.
  apply list.Forall_app. split; [repeat (apply list.Forall_cons; split); try done; by destruct m|].
  destruct c; [by apply list.Forall_nil|]. apply list.Forall_singleton. by apply printable_arr, list.Forall_fmap.
Qed.
Lemma dec_disks_print ds : textual (disks_json ds) -> dec_lsblk (print (disks_json ds)) = Some ds.
Proof.
  intros Ht. unfold dec_lsblk. rewrite parse_print; [| |exact Ht].
  - clear Ht. unfold disks_json. cbn [mbind option_bind dec_object].
    set (w := JArr _). assert (field [(str "blockdevices", w)] (str "blockdevices") = Some w) as -> by by_eval.
    cbn [dec_list w]. clear w. induction ds as [|d ds IH]; [done|]. cbn [map mapM]. rewrite dec_disk_json. by rewrite IH.
  - apply printable_obj, list.Forall_singleton, printable_arr, list.Forall_fmap, list.Forall_true. intros d. apply printable_disk.
Qed.

(** The devices of a tree, each above what is on it. *)
Inductive listed : blockDevice -> list DiskInfo -> Prop :=
| listed_dev n s t m c ls : Forall2 listed c ls -> listed (MkDev n s t m c) (MkDisk (str "/dev/" ++ n) s t m :: concat ls).
Lemma walk_listed d : listed d (walk_dev d).
Proof.
  induction d as [n s t m c IH] using disk_tree_ind. cbn [walk_dev]. constructor. induction IH; cbn [map]; by constructor.
Qed.

(** What lsblk prints of a forest of devices in valid UTF-8 is read back completely: every device once,
    with its size, type and mount point, above the devices it holds. *)
Theorem disks_roundtrip {S} (h : handler S) s s' ds :
  textual (disks_json ds) ->
  succeeds h s (unpriv (str "lsblk") [str "--json"; str "-o"; str "NAME,SIZE,TYPE,MOUNTPOINT"]) (print (disks_json ds)) s' ->
  exists ls, run h s Disks = (s', Ok (concat ls)) /\ Forall2 listed ds ls.
Proof.
  intros Ht H. exists (map walk_dev ds). split.
  - unfold Disks, bind_ok. rewrite run_bind.
    assert (run h s (read (str "lsblk") [str "--json"; str "-o"; str "NAME,SIZE,TYPE,MOUNTPOINT"]) = (s', Ok (print (disks_json ds)))) as ->
      by (unfold read; by rewrite run_bind, (runRead_run _ _ _ _ _ _ H)). cbn [fst snd]. rewrite dec_disks_print by done. reflexivity.
  - clear H Ht. induction ds; cbn [map]; constructor; [apply walk_listed|done].
Qed.

Definition some_disk : blockDevice :=
  MkDev (str "sda") (str "1T") (str "disk") [] [MkDev (str "sda1") (str "512M") (str "part") (str "/boot") []; MkDev (str "sda2") (str "1T") (str "part") (str "/") []].
Lemma disks_roundtrip_witness :
  exists ls, run (command_host (fun s _ _ => (s, (MkResult 0 (print (disks_json [some_disk])) [], None))) absent absent) tt Disks = (tt, Ok (concat ls)) /\
    Forall2 listed [some_disk] ls.
Proof. apply disks_roundtrip; [by vm_compute|by exists []]. Defined.

End Inventory.

(** * Disk health ([src/sys/smart])

    The reports of smartctl: the list of devices and the health of one. *)

Module Smart.
Import Exec HostProg HostCmd Json.

Inductive smart_error :=
| ErrInvalidDevice (dev : gostring)
| ErrRunSmartctl (e : exec_error)
| ErrParse
| ErrInspect (dev messages : gostring).

Record ScanDevice := MkScanDevice { sd_Name : gostring; sd_Type : gostring }.
Record Device_ := MkDevice {
  d_Name : gostring; Model : gostring; Serial : gostring; Healthy : bool; TemperatureC : Z; PowerOnHours : Z
}.

Definition validateDevice (dev : gostring) : result smart_error unit :=
  if negb (has_prefix dev (str "/dev/")) || contains dev (str "..") || contains_any dev ["000"%char]
  then Err (ErrInvalidDevice dev) else Ok tt.

(** The exit status is not looked at. *)
Definition run_ (args : list gostring) : prog (result smart_error gostring) :=
  let! (res, err) := ask (CRun (priv (str "smartctl") args) []) in
  Ret (match err with Some e => Err (ErrRunSmartctl e) | None => Ok (Stdout res) end).

(** ** Scanning *)

Definition dec_scan_device (v : option json) : option ScanDevice :=
  kvs ← dec_object v; n ← dec_str (field kvs (str "name")); t ← dec_str (field kvs (str "type")); Some (MkScanDevice n t).
Definition scanResult (out : gostring) : option (list ScanDevice) :=
  v ← parse out; kvs ← dec_object (Some v); dec_list dec_scan_device (field kvs (str "devices")).
Definition Scan : prog (result smart_error (list ScanDevice)) :=
  let!? out := run_ [str "--scan"; str "-j"] in
  Ret (match scanResult out with Some devs => Ok devs | None => Err ErrParse end).

(** ** One device *)

Record deviceResult := MkDeviceResult {
  ModelName : gostring; SerialNumber : gostring; Passed : bool; Current : Z; Hours : Z; ExitStatus : Z; Messages : list gostring
}.
Definition dec_message (v : option json) : option gostring := kvs ← dec_object v; dec_str (field kvs (str "string")).
Definition parse_device (out : gostring) : option deviceResult :=
  v ← parse out;
  kvs ← dec_object (Some v);
  model ← dec_str (field kvs (str "model_name"));
  serial ← dec_str (field kvs (str "serial_number"));
  status ← dec_object (field kvs (str "smart_status"));
  passed ← dec_bool (field status (str "passed"));
  temperature ← dec_object (field kvs (str "temperature"));
  current ← dec_int (field temperature (str "current"));
  power ← dec_object (field kvs (str "power_on_time"));
  hours ← dec_int (field power (str "hours"));
  smartctl ← dec_object (field kvs (str "smartctl"));
  exit ← dec_int (field smartctl (str "exit_status"));
  messages ← dec_list dec_message (field smartctl (str "messages"));
  Some (MkDeviceResult model serial passed current hours exit messages).

Definition smartctlFatalBits : Z := 3.
Definition joinMessages (msgs : list gostring) : gostring :=
  match List.filter (fun s => negb (bool_decide (s = []))) (map trim_space msgs) with
  | [] => str "no diagnostic message"
  | parts => join parts (str "; ")
  end.

Definition Device (dev : gostring) : prog (result smart_error Device_) :=
  match validateDevice dev with
  | Err e => Ret (Err e)
  | Ok _ =>
      let!? out := run_ [str "-j"; str "-a"; dev] in
      Ret (match parse_device out with
           | None => Err ErrParse
           | Some dr =>
               if negb (Z.land (ExitStatus dr) smartctlFatalBits =? 0)%Z then Err (ErrInspect dev (joinMessages (Messages dr)))
               else Ok (MkDevice dev (ModelName dr) (SerialNumber dr) (Passed dr) (Current dr) (Hours dr))
           end)
  end.

(** ** What is run *)

(** smartctl gets only a path below the device directory that does not leave it. *)
Definition probe (c : Command) (_ : gostring) : Prop :=
  c = priv (str "smartctl") [str "--scan"; str "-j"] \/
  exists name, c = priv (str "smartctl") [str "-j"; str "-a"; str "/dev/" ++ name] /\
    contains (str "/dev/" ++ name) (str "..") = false /\ ("000"%char ∉ name).

Lemma contains_any_not_elem s set c : contains_any s set = false -> c ∈ set -> c ∉ s.
Proof.
  unfold contains_any. intros H Hc Hs. apply not_true_iff_false in H. apply H. apply existsb_exists. exists c.
  split; [by apply list_elem_of_In|by apply bool_decide_eq_true].
Qed.
Lemma validateDevice_ok dev : validateDevice dev = Ok tt ->
  exists name, dev = str "/dev/" ++ name /\ contains dev (str "..") = false /\ ("000"%char ∉ name).
Proof.
  unfold validateDevice. destruct (has_prefix dev _) eqn:Ep; [|done]. destruct (contains dev _) eqn:Ed; [done|].
  destruct (contains_any dev _) eqn:En; [done|]. intros _. apply has_prefix_spec in Ep as [name ->]. exists name. split_and!; [done|done|].
  intros H. apply (contains_any_not_elem _ _ "000"%char En); [by apply list_elem_of_singleton|]. apply elem_of_app. by right.
Qed.
Theorem probes_confined {S} (h : handler S) s dev :
  Forall (fun ci => probe ci.1 ci.2) (commands h s Scan ++ commands h s (Device dev)).
Proof.
  apply list.Forall_app. split; apply (wp_commands _ _ _ _ (fun _ => True)).
  - unfold Scan. cbn [bind_ok bind run_ ask wp]. split; [by left|]. by intros [r []].
  - unfold Device. destruct (validateDevice dev) as [[]|] eqn:E; [|done]. apply validateDevice_ok in E as (name & -> & Hd & Hn).
    cbn [bind_ok bind run_ ask wp]. split; [right; by exists name|]. by intros [r []].
Qed.

(** ** What a report says *)

Definition device_doc (d : deviceResult) : json :=
  JObj [(str "model_name", JStr (ModelName d)); (str "serial_number", JStr (SerialNumber d));
        (str "smart_status", JObj [(str "passed", JBool (Passed d))]);
        (str "temperature", JObj [(str "current", JNum (int_lit (Current d)))]);
        (str "power_on_time", JObj [(str "hours", JNum (int_lit (Hours d)))]);
        (str "smartctl", JObj [(str "messages", JArr (map (fun m => JObj [(str "string", JStr m)]) (Messages d)));
                               (str "exit_status", JNum (int_lit (ExitStatus d)))])].
(** A report of valid UTF-8 with numbers that an [int64] holds. *)
Definition in_range (d : deviceResult) : Prop :=
  textual (device_doc d) /\
  (0 <= Current d <= int_max /\ 0 <= Hours d <= int_max /\ 0 <= ExitStatus d <= int_max)%Z.

Lemma messages_read ms : mapM (fun w => dec_message (Some w)) (map (fun m => JObj [(str "string", JStr m)]) ms) = Some ms.
Proof. induction ms as [|m ms IH]; [done|]. cbn [map mapM]. rewrite IH. reflexivity. Qed.
Lemma doc_printable d : printable (device_doc d).
Proof.
  unfold device_doc. repeat (apply printable_obj; repeat (apply list.Forall_cons; split; cbn [snd]); try apply list.Forall_nil; try exact I; try (by eexists)).
  apply printable_arr, list.Forall_fmap, list.Forall_true. intros m. by split.
Qed.
Lemma doc_fields v1 v2 v3 v4 v5 v6 (kvs := [(str "model_name", v1); (str "serial_number", v2); (str "smart_status", v3); (str "temperature", v4); (str "power_on_time", v5); (str "smartctl", v6)]) :
  field kvs (str "model_name") = Some v1 /\ field kvs (str "serial_number") = Some v2 /\ field kvs (str "smart_status") = Some v3 /\
  field kvs (str "temperature") = Some v4 /\ field kvs (str "power_on_time") = Some v5 /\ field kvs (str "smartctl") = Some v6.
Proof. split_and!; by_eval. Qed.
Lemma inner_fields v w : field [(str "passed", v)] (str "passed") = Some v /\ field [(str "current", v)] (str "current") = Some v /\
  field [(str "hours", v)] (str "hours") = Some v /\
  field [(str "messages", v); (str "exit_status", w)] (str "exit_status") = Some w /\
  field [(str "messages", v); (str "exit_status", w)] (str "messages") = Some v.
Proof. split_and!; by_eval. Qed.
Lemma parse_device_doc d : in_range d -> parse_device (print (device_doc d)) = Some d.
Proof.
  intros (Ht & Hc & Hh & He). unfold parse_device. rewrite parse_print by first [apply doc_printable|exact Ht]. unfold device_doc. cbn [mbind option_bind dec_object].
  destruct (doc_fields (JStr (ModelName d)) (JStr (SerialNumber d)) (JObj [(str "passed", JBool (Passed d))])
    (JObj [(str "current", JNum (int_lit (Current d)))]) (JObj [(str "hours", JNum (int_lit (Hours d)))])
    (JObj [(str "messages", JArr (map (fun m => JObj [(str "string", JStr m)]) (Messages d))); (str "exit_status", JNum (int_lit (ExitStatus d)))]))
    as (-> & -> & -> & -> & -> & ->). cbn [mbind option_bind dec_object dec_str].
  rewrite (proj1 (inner_fields _ JNull)), (proj1 (proj2 (inner_fields (JNum (int_lit (Current d))) JNull))).
  cbn [mbind option_bind dec_bool]. rewrite dec_int_lit by done. cbn [mbind option_bind].
  rewrite (proj1 (proj2 (proj2 (inner_fields (JNum (int_lit (Hours d))) JNull)))), dec_int_lit by done. cbn [mbind option_bind].
  destruct (inner_fields (JArr (map (fun m => JObj [(str "string", JStr m)]) (Messages d))) (JNum (int_lit (ExitStatus d)))) as (_ & _ & _ & -> & ->).
  rewrite dec_int_lit by done. cbn [mbind option_bind dec_list]. rewrite messages_read. by destruct d.
Qed.

Lemma fatal_bits e : (Z.land e smartctlFatalBits =? 0)%Z = negb (Z.testbit e 0 || Z.testbit e 1).
Proof.
  unfold smartctlFatalBits. change 3%Z with (Z.ones 2). rewrite Z.land_ones by lia. change (2 ^ 2)%Z with 4%Z.
  pose proof (Z.div_mod e 2 ltac:(lia)). pose proof (Z.mod_pos_bound e 2 ltac:(lia)). pose proof (Z.div_mod (e / 2) 2 ltac:(lia)). pose proof (Z.mod_pos_bound (e / 2) 2 ltac:(lia)).
  rewrite (Z.testbit_eqb e 0), (Z.testbit_eqb e 1) by lia. change (2 ^ 0)%Z with 1%Z. change (2 ^ 1)%Z with 2%Z. rewrite Z.div_1_r.
  assert (e mod 4 = e mod 2 + 2 * ((e / 2) mod 2))%Z as -> by (change 4%Z with (2 * 2)%Z; rewrite Z.rem_mul_r by lia; lia).
  destruct (Z.eqb_spec (e mod 2) 1), (Z.eqb_spec ((e / 2) mod 2) 1); cbn; destruct (Z.eqb_spec (e mod 2 + 2 * ((e / 2) mod 2)) 0); try done; lia.
Qed.
(** The report of smartctl is read as it stands, whatever the exit status of the command
    was and whatever the health bits of the reported one say; the two bits that mean that
    the device was not inspected make it an error with the messages. *)
Theorem device_exact {S} (h : handler S) s dev s' res d :
  validateDevice dev = Ok tt -> h _ s (CRun (priv (str "smartctl") [str "-j"; str "-a"; dev]) []) = (s', (res, None)) ->
  in_range d -> Stdout res = print (device_doc d) ->
  run h s (Device dev) =
    (s', if Z.testbit (ExitStatus d) 0 || Z.testbit (ExitStatus d) 1 then Err (ErrInspect dev (joinMessages (Messages d)))
         else Ok (MkDevice dev (ModelName d) (SerialNumber d) (Passed d) (Current d) (Hours d))).
Proof.
  intros Hv Hr Hd Ho. unfold Device. rewrite Hv. cbn [bind_ok bind run_ ask run]. rewrite Hr. cbn [run bind]. f_equal.
  rewrite Ho, parse_device_doc by done. rewrite fatal_bits, negb_involutive. by destruct (_ || _).
Qed.

Definition failing : deviceResult := MkDeviceResult (str "ST4000") (str "Z3") false 38 41000 8 [].
Lemma device_exact_witness :
  run (command_host (fun s _ _ => (s, (MkResult 8 (print (device_doc failing)) [], None))) absent absent) tt (Device (str "/dev/sda"))
  = (tt, Ok (MkDevice (str "/dev/sda") (str "ST4000") (str "Z3") false 38 41000)).
Proof. etransitivity; [eapply (device_exact _ _ _ _ _ failing)|]; try reflexivity. repeat split; by vm_compute. Defined.

(** A scan that smartctl reports as failed is an empty list. *)
Lemma scan_status_ignored :
  run (command_host (fun s _ _ => (s, (MkResult 2 (print (JObj [(str "smartctl", JObj [(str "exit_status", JNum (str "2"))])])) [], None))) absent absent) tt Scan
  = (tt, Ok []).
Proof. by_eval. Qed.
(** Files that anyone can create are below the device directory too. *)
Lemma shared_memory_accepted : validateDevice (str "/dev/shm/link") = Ok tt.
Proof. by_eval. Qed.

End Smart.

(** * Clock synchronisation ([src/sys/timesync])

    The state of the clock as timedatectl and chronyc report it.  Floating-point numbers
    with their parser are a parameter. *)

Module TimeSync.
Import Paths Exec HostProg HostCmd.

Inductive Backend := Timedatectl | Chrony.
Definition String_ (b : Backend) : gostring := match b with Timedatectl => str "timedatectl" | Chrony => str "chrony" end.

Inductive sync_error :=
| ErrUnknownBackend (n : Z)
| ErrCommand (e : cmd_error)
| ErrEmpty
| ErrFormat (fields : nat)
| ErrLeap (status : gostring).

Definition New (n : Z) : result sync_error Backend :=
  if (n =? 1)%Z then Ok Timedatectl else if (n =? 2)%Z then Ok Chrony else Err (ErrUnknownBackend n).
Definition Detect : prog (list Backend) :=
  let! t := ask (CLookPath (str "timedatectl")) in
  let! c := ask (CLookPath (str "chronyc")) in
  Ret (match t with Some _ => [Timedatectl] | None => [] end ++ match c with Some _ => [Chrony] | None => [] end).

Section Float.
Context {float : Type} (zero : float) (ParseFloat : gostring -> option float).

Record Status_ := MkStatus { Synchronized : bool; Enabled : bool; Source : gostring; OffsetSeconds : float }.

(** ** timedatectl *)

Definition kv_line (line : gostring) : option (gostring * gostring) :=
  let line := trim_space line in
  if bool_decide (line = []) then None
  else kv ← cut line "="%char; Some (trim_space kv.1, trim_space kv.2).
Definition parseKV (s : gostring) : gmap gostring gostring :=
  fold_left (fun m kv => <[kv.1 := kv.2]> m) (omap kv_line (split_byte s NL)) ∅.
Definition is_yes (kv : gmap gostring gostring) (k : gostring) : bool := bool_decide (default [] (kv !! k) = str "yes").
Definition timedatectl_Status : prog (result sync_error Status_) :=
  let! r := runRead (str "timedatectl") [str "show"; str "-p"; str "NTP"; str "-p"; str "NTPSynchronized"] in
  Ret (match r with
       | Err e => Err (ErrCommand e)
       | Ok out => let kv := parseKV out in Ok (MkStatus (is_yes kv (str "NTPSynchronized")) (is_yes kv (str "NTP")) [] zero)
       end).

(** ** chrony *)

Definition chronyTrackingFields : nat := 14.
Definition leap_status (s : gostring) : result sync_error bool :=
  let s := trim_space s in
  if bool_decide (s = str "Not synchronised") then Ok false
  else if bool_decide (s ∈ [str "Normal"; str "Insert second"; str "Delete second"]) then Ok true
  else Err (ErrLeap s).
Definition nth_field (f : list gostring) (i : nat) : gostring := default [] (f !! i).
Definition parseChronyTracking (out : gostring) : result sync_error Status_ :=
  let line := trim_space out in
  if bool_decide (line = []) then Err ErrEmpty
  else
    let f := split_byte line ","%char in
    if length f <? chronyTrackingFields then Err (ErrFormat (length f))
    else
      let? synchronized := leap_status (nth_field f 13) in
      Ok (MkStatus synchronized true (nth_field f 1) (default zero (ParseFloat (nth_field f 4)))).
Definition chrony_Status : prog (result sync_error Status_) :=
  let! r := runRead (str "chronyc") [str "-c"; str "tracking"] in
  Ret (match r with Err e => Err (ErrCommand e) | Ok out => parseChronyTracking out end).

Definition Status (b : Backend) : prog (result sync_error Status_) :=
  match b with Timedatectl => timedatectl_Status | Chrony => chrony_Status end.

(** ** The report of chrony *)

(** A report: its fields, comma-separated, on one line. *)
Definition report (f : list gostring) : gostring := join f (str ",") ++ [NL].
Definition known_leap (s : gostring) : option bool :=
  if decide (s = str "Not synchronised") then Some false
  else if decide (s = str "Normal" \/ s = str "Insert second" \/ s = str "Delete second") then Some true else None.

Lemma leap_status_known s : leap_status s = match known_leap (trim_space s) with Some b => Ok b | None => Err (ErrLeap (trim_space s)) end.
Proof.
  unfold leap_status, known_leap. generalize (trim_space s) as t. intros t.
  case_bool_decide as H1; case_decide as H1'; try done. case_bool_decide as H2; case_decide as H3; try done; exfalso.
  - apply H3. apply elem_of_cons in H2 as [?|H2]; [by left|]. apply elem_of_cons in H2 as [?|H2]; [by right; left|]. apply list_elem_of_singleton in H2. by right; right.
  - apply H2. destruct H3 as [->|[->| ->]]; apply (bool_decide_unpack _); reflexivity.
Qed.

Definition no_outer_space (s : gostring) : Prop :=
  exists c t d, s = c :: t ++ [d] /\ not_space_start c = true /\ not_space_end d = true.

(** A report of at least fourteen fields is read field by field; the clock counts as
    synchronised only with one of the three leap states that say so, and a state that is
    not known, like a shorter report, is an error. *)
Theorem chrony_fails_closed f :
  f <> [] -> Forall (fun w => ","%char ∉ w) f -> no_outer_space (join f (str ",")) ->
  parseChronyTracking (report f) =
    if decide (length f < 14) then Err (ErrFormat (length f))
    else match known_leap (trim_space (nth_field f 13)) with
         | Some b => Ok (MkStatus b true (nth_field f 1) (default zero (ParseFloat (nth_field f 4))))
         | None => Err (ErrLeap (trim_space (nth_field f 13)))
         end.
Proof.
  intros Hn Hf (c & t & d & Hj & Hc & Hd). unfold parseChronyTracking, report.
  assert (trim_space (join f (str ",") ++ [NL]) = join f (str ",")) as ->.
  { rewrite Hj. cbn [app]. rewrite <- app_assoc. by apply trim_space_line. }
  rewrite bool_decide_false by by rewrite Hj. change (str ",") with [","%char]. rewrite split_join by done.
  unfold chronyTrackingFields. destruct (Nat.ltb_spec (length f) 14); case_decide; try done; try lia.
  rewrite leap_status_known. by destruct (known_leap _).
Qed.

(** Nothing is escalated. *)
Lemma status_unprivileged {S} (h : handler S) s b : Forall (fun ci => Escalate ci.1 = false) (commands h s (Status b)).
Proof.
  apply (wp_commands (fun c _ => Escalate c = false) _ _ _ (fun _ => True)). destruct b; cbn [Status];
    [unfold timedatectl_Status|unfold chrony_Status]; apply wp_bind; by apply runRead_wp.
Qed.

End Float.

Lemma chrony_fails_closed_witness :
  parseChronyTracking 0%Z atoi (report [str "A"; str "ntp.example"; str "2"; str "0"; str "7"; str "0"; str "0"; str "0"; str "0"; str "0"; str "0"; str "0"; str "0"; str "Normal"])
  = Ok (MkStatus true true (str "ntp.example") 7%Z).
Proof.
  etransitivity; [apply (chrony_fails_closed 0%Z atoi)|reflexivity]; [done| |].
  - repeat (apply list.Forall_cons; split; [by apply (bool_decide_unpack _)|]). by apply list.Forall_nil.
  - by exists "A"%char, (str ",ntp.example,2,0,7,0,0,0,0,0,0,0,0,Norma"), "l"%char.
Defined.

End TimeSync.
