(* ===== verification/Antivirus.v ===== *)
(** * Antivirus ([src/sys/antivirus])

    The ClamAV backend: scanning, the signature update, the versions, and the parsers of
    what clamscan prints. *)
From S2P Require Import Prelude Paths Exec HostProg Ini HostCmd.

Module Antivirus.
Import Paths Exec HostProg HostCmd.

Inductive Backend := ClamAV.
Definition String_ (b : Backend) : gostring := match b with ClamAV => str "clamav" end.

Inductive av_error :=
| ErrUnknownBackend (n : Z)
| ErrInvalidPath (path : gostring)
| ErrRun (e : cmd_error)
| ErrVersionOutput (out : gostring).

Record Infection := MkInfection { File : gostring; Signature : gostring }.
Record ScanResult := MkScan { Path : gostring; Infected : list Infection }.
Definition Clean (r : ScanResult) : bool := bool_decide (length (Infected r) = 0).
Record Version_ := MkVersion { Engine : gostring; SignatureDB : gostring }.

Definition New (n : Z) : result av_error Backend := if (n =? 1)%Z then Ok ClamAV else Err (ErrUnknownBackend n).

Definition validatePath (path : gostring) : result av_error unit :=
  if bool_decide (path = []) || has_prefix path (str "-") || contains_any path ["000"%char]
  then Err (ErrInvalidPath path) else Ok tt.

Definition Detect : prog (list Backend) :=
  let! p := ask (CLookPath (str "clamscan")) in Ret (match p with None => [] | Some _ => [ClamAV] end).

(** ** What clamscan prints *)

(** The text before and behind the last occurrence, as [strings.LastIndex] finds it. *)
Definition cut_last (s sep : gostring) : option (gostring * gostring) :=
  match cut_str (rev s) (rev sep) with Some (a, b) => Some (rev b, rev a) | None => None end.

Definition infected_line (line : gostring) : option Infection :=
  let line := trim_space line in
  if has_suffix line (str " FOUND") then
    let rest := take (length line - 6) line in
    match cut_last rest (str ": ") with
    | Some (f, s) => Some (MkInfection f s)
    | None => None
    end
  else None.
Definition parseClamscanInfected (out : gostring) : list Infection := omap infected_line (split_byte out NL).

(** [strings.SplitN] into at most three parts, the first two of them. *)
Definition parseClamscanVersion (out : gostring) : result av_error Version_ :=
  let line := trim_space out in
  if negb (has_prefix line (str "ClamAV ")) then Err (ErrVersionOutput out)
  else
    match cut (trim_prefix line (str "ClamAV ")) "/"%char with
    | None => Err (ErrVersionOutput out)
    | Some (engine, rest) =>
        let signature := match cut rest "/"%char with Some (s, _) => s | None => rest end in
        if bool_decide (engine = []) || bool_decide (signature = []) then Err (ErrVersionOutput out)
        else Ok (MkVersion engine signature)
    end.

(** ** Operations *)

Definition scan_args (path : gostring) : list gostring :=
  [str "-r"; str "--no-summary"; str "--infected"] ++ SeparatePositionals [] [path].
Definition Scan (path : gostring) : prog (result av_error ScanResult) :=
  match validatePath path with
  | Err e => Ret (Err e)
  | Ok _ =>
      let! (res, err) := ask (CRun (priv (str "clamscan") (scan_args path)) []) in
      Ret (match err with
           | Some e => Err (ErrRun (RunFailed e))
           | None =>
               if negb (ExitCode res =? 0)%Z && negb (ExitCode res =? 1)%Z
               then Err (ErrRun (ExitFailed (str "clamscan") (ExitCode res) (Stderr res)))
               else Ok (MkScan path (parseClamscanInfected (Stdout res)))
           end)
  end.
Definition UpdateSignatures : prog (result av_error unit) :=
  let! r := runPriv (str "freshclam") [] in Ret (match r with Some e => Err (ErrRun e) | None => Ok tt end).
Definition Version : prog (result av_error Version_) :=
  let! r := runRead (str "clamscan") [str "--version"] in
  Ret (match r with Err e => Err (ErrRun e) | Ok out => parseClamscanVersion out end).

(** ** Reading what was found *)

Definition found_line (i : Infection) : gostring := File i ++ str ": " ++ Signature i ++ str " FOUND".
(** A path as clamscan prints it, and a name without the separator. *)
Definition reportable (i : Infection) : Prop :=
  head (File i) = Some "/"%char /\ (NL ∉ File i) /\ (NL ∉ Signature i) /\ contains (Signature i) (str ": ") = false.

Lemma cut_str_pair t u : contains t (str " :") = false -> cut_str (t ++ str " :" ++ u) (str " :") = Some (t, u).
Proof.
  induction t as [|c t IH]; [done|]. intros Hc.
  assert (contains t (str " :") = false) as Ht by by apply orb_false_iff in Hc as [_ Hc].
  cbn [app cut_str]. rewrite (IH Ht). destruct (has_prefix (c :: t ++ str " :" ++ u) (str " :")) eqn:E; [exfalso|done].
  apply not_true_iff_false in Hc. apply Hc. apply contains_spec. exists [].
  apply has_prefix_spec in E as [v Hv]. destruct t as [|d t]; [by cbn in Hv|]. cbn in Hv. injection Hv as -> -> _. by exists t.
Qed.
Lemma cut_last_app f s : contains s (str ": ") = false -> cut_last (f ++ str ": " ++ s) (str ": ") = Some (f, s).
Proof.
  intros Hs. unfold cut_last. rewrite !rev_app_distr. change (rev (str ": ")) with (str " :"). rewrite <- app_assoc, cut_str_pair.
  - by rewrite !rev_involutive.
  - apply not_true_iff_false in Hs. apply not_true_iff_false. contradict Hs. apply contains_spec in Hs as (a & b & H).
    apply contains_spec. exists (rev b), (rev a). by rewrite <- (rev_involutive s), H, !rev_app_distr, <- app_assoc.
Qed.
Lemma infected_line_found i : reportable i -> infected_line (found_line i) = Some i.
Proof.
  destruct i as [f s]. intros (Hf & _ & _ & Hs). cbn [File Signature] in *. destruct f as [|c f]; [done|]. injection Hf as ->. unfold infected_line, found_line. cbn [File Signature].
  assert (trim_space (("/"%char :: f) ++ str ": " ++ s ++ str " FOUND") = ("/"%char :: f) ++ str ": " ++ s ++ str " FOUND") as ->.
  { pose proof (trim_space_id "/"%char (f ++ str ": " ++ s ++ str " FOUN") "D"%char eq_refl eq_refl) as H. by rewrite <- !app_assoc in H. }
  rewrite !app_assoc. rewrite (proj2 (has_suffix_spec _ (str " FOUND"))) by by eexists.
  rewrite length_app. change (length (str " FOUND")) with 6. rewrite Nat.add_sub, take_app_length, <- app_assoc. by rewrite cut_last_app.
Qed.
Lemma found_line_plain i : reportable i -> NL ∉ found_line i.
Proof.
  intros (_ & Hf & Hs & _). unfold found_line. rewrite !not_elem_of_app. split_and!; [done| |done|]; by apply (bool_decide_unpack _).
Qed.

(** The infections that clamscan reports, in any number, are the ones it found, and an
    exit status other than none and some found is an error whatever was printed. *)
Theorem scan_exact {S} (h : handler S) s path s' res found :
  validatePath path = Ok tt -> h _ s (CRun (priv (str "clamscan") (scan_args path)) []) = (s', (res, None)) ->
  Forall reportable found -> Stdout res = Ini.unlines (map found_line found) ->
  run h s (Scan path) =
    (s', if decide (ExitCode res = 0 \/ ExitCode res = 1)%Z then Ok (MkScan path found)
         else Err (ErrRun (ExitFailed (str "clamscan") (ExitCode res) (Stderr res)))).
Proof.
  intros Hp Hr Hf Ho. unfold Scan. rewrite Hp. cbn [bind ask run]. rewrite Hr. cbn [run]. f_equal.
  rewrite Ho. unfold parseClamscanInfected. rewrite Ini.split_unlines by (apply list.Forall_fmap; by eapply list.Forall_impl; [exact Hf|apply found_line_plain]).
  rewrite omap_app. change (omap infected_line [[]]) with (@nil Infection). rewrite app_nil_r.
  assert (omap infected_line (map found_line found) = found) as ->.
  { clear -Hf. induction Hf as [|i l Hi _ IH]; [done|]. cbn. by rewrite infected_line_found, IH. }
  destruct (Z.eqb_spec (ExitCode res) 0), (Z.eqb_spec (ExitCode res) 1); cbn [negb andb]; case_decide; naive_solver.
Qed.
Lemma scan_exact_witness :
  run (command_host (fun s _ _ => (s, (MkResult 1 (Ini.unlines [str "/home/a: b: Eicar-Test FOUND"]) [], None))) absent absent)
    tt (Scan (str "/home"))
  = (tt, Ok (MkScan (str "/home") [MkInfection (str "/home/a: b") (str "Eicar-Test")])).
Proof.
  etransitivity; [eapply (scan_exact _ _ _ _ _ [MkInfection (str "/home/a: b") (str "Eicar-Test")])|]; try reflexivity.
  apply list.Forall_singleton. split_and!; try reflexivity; by apply (bool_decide_unpack _).
Defined.

(** ** What is run *)

Definition av_cmd (c : Command) (_ : gostring) : Prop :=
  (exists path, c = priv (str "clamscan") (scan_args path) /\ path <> [] /\ dashed path = false) \/
  c = priv (str "freshclam") [] \/ c = unpriv (str "clamscan") [str "--version"].
Lemma validatePath_ok path : validatePath path = Ok tt -> path <> [] /\ dashed path = false.
Proof.
  unfold validatePath, dashed. destruct (has_prefix _ _); [by rewrite orb_true_r|]. case_bool_decide; [done|]. by split.
Qed.
(** Whatever is asked and on every host: the path is never read as an option, and only the
    scan and the update are escalated. *)
Theorem av_confined {S} (h : handler S) s path :
  Forall (fun ci => av_cmd ci.1 ci.2) (commands h s (Scan path) ++ commands h s UpdateSignatures ++ commands h s Version).
Proof.
  rewrite !list.Forall_app. split_and!; apply (wp_commands _ _ _ _ (fun _ => True)).
  - unfold Scan. destruct (validatePath path) as [[]|] eqn:E; [|done]. apply validatePath_ok in E as [H1 H2]. cbn [bind ask wp]. split; [|by intros []]. left. by exists path.
  - unfold UpdateSignatures. apply wp_bind, runPriv_wp; [by right; left|done].
  - unfold Version. apply wp_bind, runRead_wp; [by right; right|done].
Qed.

(** A found virus whose line is not understood is a clean scan. *)
Lemma unread_finding_is_clean :
  exists r, (run (command_host (fun s _ _ => (s, (MkResult 1 (str "/home/a: Eicar-Test FOUND (cached)") [], None))) absent absent)
    tt (Scan (str "/home"))).2 = Ok r /\ Clean r = true.
Proof. by eexists. Qed.
(** A file name with a newline makes a finding for another file. *)
Lemma newline_forges_finding :
  parseClamscanInfected (found_line (MkInfection (str "/tmp/x" ++ [NL] ++ str "/bin/sh") (str "Eicar"))) = [MkInfection (str "/bin/sh") (str "Eicar")].
Proof. reflexivity. Qed.

End Antivirus.
