(* ===== verification/Crypto.v ===== *)
(** * Sealing ([src/crypto/aead.go], [src/crypto/seal.go],
      [src/crypto/field_context.go])

    AES-256-GCM, X25519, HKDF-SHA256 and the random source are parameters; what
    the code relies on is stated as hypotheses: opening inverts sealing, opening
    accepts only what sealing produces, Diffie-Hellman commutes, encodings have
    their documented lengths. *)
From S2P Require Import Prelude RemoteTree.

Module Crypto.

Definition keyLen : nat := 32.
Definition x25519KeyLen : nat := 32.
Definition nonceSize : nat := 12.
Definition tagSize : nat := 16.
Definition aeadOverhead : nat := 12 + 16.
Definition sealedOverhead : nat := x25519KeyLen + aeadOverhead.
Definition MinSealedLen : nat := sealedOverhead + 1.

Inductive crypto_error :=
| ErrInvalidKey
| ErrAADRequired
| ErrInfoRequired
| ErrMalformedCiphertext
| ErrNilKey
| ErrRand
| ErrOpen
| ErrEcdh
| ErrHkdf
| ErrParsePublicKey
| ErrDirection
| ErrEmptySegment.

(** ** Field-seal contexts *)

Definition fieldSealVersion : gostring := str "power-manage-field-seal:v1".
Definition DirectionAgentToControl : gostring := str "agent-to-control".
Definition DirectionControlToAgent : gostring := str "control-to-agent".

(** One length-prefixed segment. *)
Definition encode_segment (seg : gostring) : gostring := itoa (length seg) ++ ":"%char :: seg.
Definition encode_segments (segs : list gostring) : gostring := concat (encode_segment <$> segs).

Definition FieldSealContext (direction message field : gostring) (bindings : list gostring)
    : result crypto_error (gostring * gostring) :=
  if negb (bool_decide (direction = DirectionAgentToControl)
           || bool_decide (direction = DirectionControlToAgent)) then Err ErrDirection
  else
    let segments := [fieldSealVersion; direction; message; field] ++ bindings in
    if existsb (fun s => bool_decide (s = [])) segments then Err ErrEmptySegment
    else Ok (encode_segments segments, encode_segments (take 4 segments)).

(** The segment format determines the segments. *)
Lemma encode_segment_app_inj s s' t t' :
  encode_segment s ++ t = encode_segment s' ++ t' -> s = s' /\ t = t'.
Proof.
  unfold encode_segment. rewrite <-!app_assoc. simpl. intros H.
  assert (cut (itoa (length s) ++ ":"%char :: s ++ t) ":" =
          cut (itoa (length s') ++ ":"%char :: s' ++ t') ":") as Hc by (by rewrite H).
  assert (forall n, ":"%char ∉ itoa n) as Hd.
  { intros n. apply (forallb_not_elem is_digit); [apply itoa_digits|reflexivity]. }
  rewrite !cut_app in Hc by apply Hd. injection Hc as Hl Hrest.
  apply itoa_inj in Hl. by apply app_inj_1 in Hrest.
Qed.

Lemma encode_segments_inj l l' : encode_segments l = encode_segments l' -> l = l'.
Proof.
  unfold encode_segments.
  revert l'; induction l as [|s l IH]; intros [|s' l']; try done; rewrite ?fmap_cons; simpl.
  - unfold encode_segment. rewrite <-app_assoc. intros H.
    pose proof (itoa_nonempty (length s')). by destruct (itoa (length s')).
  - unfold encode_segment. rewrite <-app_assoc. intros H.
    pose proof (itoa_nonempty (length s)). by destruct (itoa (length s)).
  - intros [-> H]%encode_segment_app_inj. by rewrite (IH l').
Qed.

Lemma FieldSealContext_ok d m f bs aad info :
  FieldSealContext d m f bs = Ok (aad, info) ->
  aad = encode_segments ([fieldSealVersion; d; m; f] ++ bs) /\
  info = encode_segments [fieldSealVersion; d; m; f] /\
  (d = DirectionAgentToControl \/ d = DirectionControlToAgent) /\
  m <> [] /\ f <> [] /\ [] ∉ bs.
Proof.
  unfold FieldSealContext. intros H. inv_bind H. injection H as <- <-.
  apply negb_false_iff, orb_true_iff in Hif. rewrite !bool_decide_eq_true in Hif.
  split; [done|]. split; [done|]. split; [done|].
  assert (forall s, s ∈ [fieldSealVersion; d; m; f] ++ bs -> s <> []) as Hne.
  { intros s Hs ->. apply list_elem_of_In in Hs.
    assert (existsb (fun s => bool_decide (s = [])) ([fieldSealVersion; d; m; f] ++ bs) = true)
      as Ht by (apply existsb_exists; by exists []). congruence. }
  split; [apply Hne; set_solver|]. split; [apply Hne; set_solver|].
  intros Hin. by apply (Hne []); [set_solver|].
Qed.

(** ** Primitives *)

Class Primitives := {
  priv : Type;
  pub : Type;
  shared : Type;
  gcm_seal : gostring -> gostring -> gostring -> gostring -> gostring; (* key nonce pt aad *)
  gcm_open : gostring -> gostring -> gostring -> gostring -> option gostring;
  pub_of : priv -> pub;
  pub_bytes : pub -> gostring;
  parse_pub : gostring -> option pub;
  ecdh : priv -> pub -> option shared;
  hkdf : shared -> gostring -> gostring -> option gostring
}.

(** What the packages document. *)
Class PrimitiveLaws `{P : Primitives} : Prop := {
  gcm_open_seal : forall k n p a, gcm_open k n (gcm_seal k n p a) a = Some p;
  gcm_open_inv : forall k n c a p, gcm_open k n c a = Some p -> c = gcm_seal k n p a;
  gcm_seal_length : forall k n p a, length (gcm_seal k n p a) = length p + tagSize;
  parse_pub_bytes : forall p, parse_pub (pub_bytes p) = Some p;
  pub_bytes_length : forall p, length (pub_bytes p) = x25519KeyLen;
  ecdh_comm : forall a b, ecdh a (pub_of b) = ecdh b (pub_of a);
  hkdf_length : forall s salt info k, hkdf s salt info = Some k -> length k = keyLen
}.

Section Seal.
Context `{P : Primitives}.

(** ** AEAD *)

Definition newGCM (key : gostring) : result crypto_error unit :=
  if negb (length key =? keyLen) then Err ErrInvalidKey else Ok tt.

(** [nonce] is what [rand.Read] filled in, [None] when it failed. *)
Definition SealWithAAD (nonce : option gostring) (key plaintext aad : gostring)
    : result crypto_error gostring :=
  let? _ := newGCM key in
  match aad with
  | [] => Err ErrAADRequired
  | _ => match nonce with
         | None => Err ErrRand
         | Some n => Ok (n ++ gcm_seal key n plaintext aad)
         end
  end.

Definition OpenWithAAD (key ciphertext aad : gostring) : result crypto_error gostring :=
  let? _ := newGCM key in
  match aad with
  | [] => Err ErrAADRequired
  | _ =>
      if length ciphertext <? nonceSize + tagSize then Err ErrMalformedCiphertext
      else match gcm_open key (take nonceSize ciphertext) (drop nonceSize ciphertext) aad with
           | None => Err ErrOpen
           | Some pt => Ok pt
           end
  end.

(** ** Sealing to a public key *)

Definition ParseX25519PublicKey (raw : gostring) : result crypto_error pub :=
  if negb (length raw =? x25519KeyLen) then Err ErrParsePublicKey
  else match parse_pub raw with None => Err ErrParsePublicKey | Some p => Ok p end.

Definition expandKey (sh : shared) (ephPub recipientPub info : gostring)
    : result crypto_error gostring :=
  match hkdf sh (ephPub ++ recipientPub) info with
  | None => Err ErrHkdf
  | Some k => Ok k
  end.

Definition deriveSealKey (eph : priv) (recipient : pub) (info : gostring)
    : result crypto_error gostring :=
  match ecdh eph recipient with
  | None => Err ErrEcdh
  | Some sh => expandKey sh (pub_bytes (pub_of eph)) (pub_bytes recipient) info
  end.

Definition deriveOpenKey (k : priv) (ephPub : pub) (info : gostring)
    : result crypto_error gostring :=
  match ecdh k ephPub with
  | None => Err ErrEcdh
  | Some sh => expandKey sh (pub_bytes ephPub) (pub_bytes (pub_of k)) info
  end.

(** [eph] and [nonce] are the two draws from the random source. *)
Definition SealToPublicKey (eph : option priv) (nonce : option gostring) (recipient : option pub)
    (plaintext aad info : gostring) : result crypto_error gostring :=
  match recipient, aad, info with
  | None, _, _ => Err ErrNilKey
  | _, [], _ => Err ErrAADRequired
  | _, _, [] => Err ErrInfoRequired
  | Some r, _, _ =>
      match eph with
      | None => Err ErrRand
      | Some e =>
          let? key := deriveSealKey e r info in
          let? sealed := SealWithAAD nonce key plaintext aad in
          Ok (pub_bytes (pub_of e) ++ sealed)
      end
  end.

Definition OpenWithPrivateKey (k : option priv) (sealed aad info : gostring)
    : result crypto_error gostring :=
  match k, aad, info with
  | None, _, _ => Err ErrNilKey
  | _, [], _ => Err ErrAADRequired
  | _, _, [] => Err ErrInfoRequired
  | Some k, _, _ =>
      if length sealed <=? sealedOverhead then Err ErrMalformedCiphertext
      else match parse_pub (take x25519KeyLen sealed) with
           | None => Err ErrParsePublicKey
           | Some ephPub =>
               let? key := deriveOpenKey k ephPub info in
               OpenWithAAD key (drop x25519KeyLen sealed) aad
           end
  end.

(** ** Lemmas *)

Context `{L : !PrimitiveLaws}.

Lemma newGCM_ok key u : newGCM key = Ok u <-> u = tt /\ length key = keyLen.
Proof.
  unfold newGCM. destruct (Nat.eqb_spec (length key) keyLen); simpl; destruct u; naive_solver.
Qed.

Lemma derive_agree e k info : deriveSealKey e (pub_of k) info = deriveOpenKey k (pub_of e) info.
Proof. unfold deriveSealKey, deriveOpenKey. by rewrite ecdh_comm. Qed.

Lemma deriveOpenKey_length k p info key : deriveOpenKey k p info = Ok key -> length key = keyLen.
Proof.
  unfold deriveOpenKey, expandKey. destruct (ecdh k p); [|done].
  destruct (hkdf _ _ _) eqn:E; [|done]. intros [= <-]. by eapply hkdf_length.
Qed.

Lemma OpenWithAAD_sealed key n pt aad :
  length key = keyLen -> length n = nonceSize -> aad <> [] ->
  OpenWithAAD key (n ++ gcm_seal key n pt aad) aad = Ok pt.
Proof.
  intros Hk Hn Ha. unfold OpenWithAAD. rewrite (proj2 (newGCM_ok key tt)) by done. cbn [result_bind].
  destruct aad as [|c aad]; [done|].
  rewrite (proj2 (Nat.ltb_ge _ _)) by (rewrite length_app, gcm_seal_length, Hn; lia).
  by rewrite <-Hn, take_app_length, drop_app_length, gcm_open_seal.
Qed.

(** Inverting a successful open. *)
Lemma OpenWithAAD_inv key ct aad pt :
  OpenWithAAD key ct aad = Ok pt ->
  aad <> [] /\ ct = take nonceSize ct ++ gcm_seal key (take nonceSize ct) pt aad.
Proof.
  unfold OpenWithAAD. intros H. inv_bind H. destruct aad as [|c aad]; [done|].
  inv_bind H. destruct (gcm_open _ _ _ _) as [p|] eqn:E; [|done]. injection H as ->.
  split; [done|]. apply gcm_open_inv in E. rewrite <-E. by rewrite take_drop.
Qed.

(** ** Properties *)

(** C32: opening with the recipient's key, the same AAD and the same info returns
    exactly what was sealed, whatever ephemeral key and nonce were drawn; only an
    empty plaintext, which sealing accepts, cannot be opened again. *)
Theorem seal_open_roundtrip eph n k pt aad info blob :
  length n = nonceSize ->
  SealToPublicKey eph (Some n) (Some (pub_of k)) pt aad info = Ok blob ->
  OpenWithPrivateKey (Some k) blob aad info =
  match pt with [] => Err ErrMalformedCiphertext | _ => Ok pt end.
Proof.
  intros Hn. unfold SealToPublicKey, OpenWithPrivateKey.
  destruct aad as [|a0 aad]; [done|]. destruct info as [|i0 info]; [done|].
  destruct eph as [e|]; [|done]. rewrite derive_agree. intros H. inv_bind H.
  pose proof (deriveOpenKey_length _ _ _ _ Hok) as Hk.
  unfold SealWithAAD in Hok0. rewrite (proj2 (newGCM_ok a tt)) in Hok0 by done.
  cbn [result_bind] in Hok0. injection Hok0 as <-. subst blob.
  assert (length (pub_bytes (pub_of e) ++ n ++ gcm_seal a n pt (a0 :: aad))
          = sealedOverhead + length pt) as Hl
    by (rewrite !length_app, pub_bytes_length, gcm_seal_length, Hn; unfold sealedOverhead,
          aeadOverhead, nonceSize, tagSize; lia).
  rewrite Hl, <-(pub_bytes_length (pub_of e)), take_app_length, drop_app_length, parse_pub_bytes.
  rewrite Hok. cbn [result_bind].
  destruct pt as [|p0 pt]; [by rewrite Nat.add_0_r, Nat.leb_refl|].
  rewrite (proj2 (Nat.leb_gt (sealedOverhead + _) sealedOverhead))
    by (cbn [length]; lia).
  by apply OpenWithAAD_sealed.
Qed.

(** a blob opens only if it is what sealing that plaintext produces under
    the key derived from its own ephemeral key, this AAD and this info: no other
    byte string, and nothing shorter than [MinSealedLen], yields plaintext. *)
Theorem open_only_sealed k blob aad info pt :
  OpenWithPrivateKey (Some k) blob aad info = Ok pt ->
  aad <> [] /\ info <> [] /\ MinSealedLen <= length blob /\
  exists ephPub key n,
    parse_pub (take x25519KeyLen blob) = Some ephPub /\
    deriveOpenKey k ephPub info = Ok key /\
    blob = take x25519KeyLen blob ++ n ++ gcm_seal key n pt aad.
Proof.
  unfold OpenWithPrivateKey.
  destruct aad as [|a0 aad]; [done|]. destruct info as [|i0 info]; [done|].
  intros H. inv_bind H. go_bool.
  destruct (parse_pub _) as [p|] eqn:Ep; [|done]. inv_bind H.
  apply OpenWithAAD_inv in H as [_ H].
  split; [done|]. split; [done|]. split; [unfold MinSealedLen; lia|].
  exists p, a, (take nonceSize (drop x25519KeyLen blob)). split; [done|]. split; [done|].
  by rewrite <-H, take_drop.
Qed.

End Seal.

(** the AAD of a sealed field determines its whole context, direction,
    message, field and every binding, and the HKDF info determines direction,
    message and field, so no two fields or bindings share a context. *)
Theorem FieldSealContext_injective d m f bs d' m' f' bs' aad info aad' info' :
  FieldSealContext d m f bs = Ok (aad, info) ->
  FieldSealContext d' m' f' bs' = Ok (aad', info') ->
  (aad = aad' <-> d = d' /\ m = m' /\ f = f' /\ bs = bs') /\
  (info = info' <-> d = d' /\ m = m' /\ f = f').
Proof.
  intros (-> & -> & _)%FieldSealContext_ok (-> & -> & _)%FieldSealContext_ok.
  split; (split; [|naive_solver]); intros H%encode_segments_inj; by simplify_eq/=.
Qed.

(** ** A concrete instance

    A toy suite that satisfies the laws, with one key and a constant tag; it
    shows that the laws are consistent. *)
Definition pad (n : nat) : gostring := replicate n "0"%char.

#[local] Instance toy : Primitives := {|
  priv := unit; pub := unit; shared := unit;
  gcm_seal k n p a := p ++ pad tagSize;
  gcm_open k n c a :=
    if bool_decide (c = take (length c - tagSize) c ++ pad tagSize)
    then Some (take (length c - tagSize) c) else None;
  pub_of _ := tt;
  pub_bytes _ := pad x25519KeyLen;
  parse_pub b := if length b =? x25519KeyLen then Some tt else None;
  ecdh _ _ := Some tt;
  hkdf _ _ _ := Some (pad keyLen)
|}.

#[local] Instance toy_laws : PrimitiveLaws.
Proof.
  split; simpl; try done.
  - intros k n p a. unfold pad. rewrite length_app, length_replicate, Nat.add_sub, take_app_length.
    by rewrite bool_decide_true.
  - intros k n c a p. case_bool_decide as H; [|done]. by intros [= <-].
  - intros k n p a. unfold pad. by rewrite length_app, length_replicate.
  - by intros [].
  - intros _ _ _ k [= <-]. unfold pad. apply length_replicate.
Qed.

Definition toy_key : @priv toy := tt.

Definition toy_blob : gostring :=
  pad x25519KeyLen ++ pad nonceSize ++ str "secret" ++ pad tagSize.

Lemma seal_open_roundtrip_witness :
  OpenWithPrivateKey (Some toy_key) toy_blob (str "aad") (str "info") = Ok (str "secret").
Proof.
  apply (seal_open_roundtrip (Some toy_key) (pad nonceSize) toy_key (str "secret") (str "aad") (str "info"));
    reflexivity.
Defined.

Lemma open_only_sealed_witness :
  str "aad" <> [] /\ str "info" <> [] /\ MinSealedLen <= length toy_blob /\
  exists ephPub key n,
    parse_pub (take x25519KeyLen toy_blob) = Some ephPub /\
    deriveOpenKey toy_key ephPub (str "info") = Ok key /\
    toy_blob = take x25519KeyLen toy_blob ++ n ++ gcm_seal key n (str "secret") (str "aad").
Proof. apply (open_only_sealed (P := toy) toy_key toy_blob). reflexivity. Defined.

Definition sample_context (f : string) : gostring * gostring :=
  match FieldSealContext DirectionAgentToControl (str "LpsPasswordRotation") (str f)
          [str "dev-1"; str "alice"] with
  | Ok p => p
  | Err _ => ([], [])
  end.

Lemma FieldSealContext_injective_witness :
  (sample_context "password").1 <> (sample_context "passwor").1.
Proof.
  pose proof (FieldSealContext_injective DirectionAgentToControl (str "LpsPasswordRotation")
    (str "password") [str "dev-1"; str "alice"] DirectionAgentToControl
    (str "LpsPasswordRotation") (str "passwor") [str "dev-1"; str "alice"]
    (sample_context "password").1 (sample_context "password").2
    (sample_context "passwor").1 (sample_context "passwor").2 eq_refl eq_refl) as [Hi _].
  intros H. apply Hi in H as (_ & _ & H & _). discriminate H.
Defined.
End Crypto.

(** * Certificate requests and the enrolled CA ([src/crypto/csr.go], [src/crypto/cert.go])

    The key and the requests of a device, the fingerprint of a CA and the check that a
    renewed CA continues the enrolled one.  PEM, X.509, PKCS #8, Ed25519 and SHA-256 are
    parameters. *)

Module Certs.

Inductive cert_error :=
| ErrGenerateKey
| ErrCreateCSR
| ErrMarshalKey
| ErrDecodeKey
| ErrParseKey
| ErrUnsupportedKeyType
| ErrDecode (what : gostring)
| ErrParse (what : gostring)
| ErrEmpty
| ErrNotChained.

(** [x509.CertificateRequest], the fields that are set or must stay empty. *)
Record CertificateRequest := MkRequest {
  CommonName : gostring; DNSNames : list gostring; IPAddresses : list gostring; EmailAddresses : list gostring; URIs : list gostring
}.
Definition template (hostname : gostring) : CertificateRequest := MkRequest hostname [] [] [] [].

Section X509.
Context (pem_Decode : gostring -> option (gostring * gostring)) (pem_Encode : gostring -> gostring -> gostring).
(** Ed25519 keys, and keys as PKCS #8 has them: [None] is one of another type. *)
Context {key : Type} (CreateCertificateRequest : CertificateRequest -> key -> option gostring).
Context (MarshalPKCS8PrivateKey : key -> option gostring) (ParsePKCS8PrivateKey : gostring -> option (option key)).

(** ** Requests *)

(** [generated] is what the random source made. *)
Definition GenerateCSR (generated : option key) (hostname : gostring) : result cert_error (gostring * gostring) :=
  match generated with
  | None => Err ErrGenerateKey
  | Some privateKey =>
      match CreateCertificateRequest (template hostname) privateKey with
      | None => Err ErrCreateCSR
      | Some csrDER =>
          let csrPEM := pem_Encode (str "CERTIFICATE REQUEST") csrDER in
          match MarshalPKCS8PrivateKey privateKey with
          | None => Err ErrMarshalKey
          | Some keyDER => Ok (csrPEM, pem_Encode (str "PRIVATE KEY") keyDER)
          end
      end
  end.

Definition GenerateCSRFromKey (hostname keyPEM : gostring) : result cert_error gostring :=
  match pem_Decode keyPEM with
  | None => Err ErrDecodeKey
  | Some (_, bytes) =>
      match ParsePKCS8PrivateKey bytes with
      | None => Err ErrParseKey
      | Some None => Err ErrUnsupportedKeyType
      | Some (Some privateKey) =>
          match CreateCertificateRequest (template hostname) privateKey with
          | None => Err ErrCreateCSR
          | Some csrDER => Ok (pem_Encode (str "CERTIFICATE REQUEST") csrDER)
          end
      end
  end.

(** ** The CA *)

Context (sha256 : gostring -> gostring).
Context {certificate : Type} (ParseCertificate : gostring -> option certificate) (CheckSignatureFrom : certificate -> certificate -> bool).

Definition CAFingerprintFromPEM (certPEM : gostring) : result cert_error gostring :=
  match pem_Decode certPEM with
  | None => Err (ErrDecode (str "certificate"))
  | Some (_, bytes) => Ok (RemoteTree.hex (sha256 bytes))
  end.

Definition VerifyCAContinuity (oldCAPEM newCAPEM : gostring) : result cert_error unit :=
  if bool_decide (newCAPEM = []) then Err ErrEmpty
  else match pem_Decode oldCAPEM with
  | None => Err (ErrDecode (str "enrolled CA"))
  | Some (_, oldBytes) =>
      match pem_Decode newCAPEM with
      | None => Err (ErrDecode (str "new CA"))
      | Some (_, newBytes) =>
          if bool_decide (oldBytes = newBytes) then Ok tt
          else match ParseCertificate oldBytes with
          | None => Err (ErrParse (str "enrolled CA"))
          | Some oldCert =>
              match ParseCertificate newBytes with
              | None => Err (ErrParse (str "new CA"))
              | Some newCert => if CheckSignatureFrom newCert oldCert then Ok tt else Err ErrNotChained
              end
          end
      end
  end.

(** ** Renewals keep the key *)

(** A renewal request from the stored key is signed with the key of the enrolment, names
    the device and asks for no alternative name, as the first request does. *)
Theorem renewal_keeps_key generated hostname hostname' csrPEM keyPEM :
  (forall t b, pem_Decode (pem_Encode t b) = Some (t, b)) ->
  (forall k d, MarshalPKCS8PrivateKey k = Some d -> ParsePKCS8PrivateKey d = Some (Some k)) ->
  GenerateCSR generated hostname = Ok (csrPEM, keyPEM) ->
  exists k der, generated = Some k /\ CreateCertificateRequest (template hostname) k = Some der /\ csrPEM = pem_Encode (str "CERTIFICATE REQUEST") der /\
    GenerateCSRFromKey hostname' keyPEM =
      match CreateCertificateRequest (template hostname') k with
      | Some der' => Ok (pem_Encode (str "CERTIFICATE REQUEST") der')
      | None => Err ErrCreateCSR
      end.
Proof.
  intros Hp Hk. unfold GenerateCSR. destruct generated as [k|]; [|done]. destruct (CreateCertificateRequest _ k) as [der|] eqn:Ec; [|done].
  destruct (MarshalPKCS8PrivateKey k) as [d|] eqn:Em; [|done]. intros [= <- <-]. exists k, der. split_and!; [done..|].
  unfold GenerateCSRFromKey. by rewrite Hp, (Hk _ _ Em).
Qed.

(** ** What may replace the enrolled CA *)

(** The bytes of the certificates, each the enrolled one or signed by the one before. *)
Inductive descends (enrolled : gostring) : gostring -> Prop :=
| descends_same : descends enrolled enrolled
| descends_signed b b' c c' : descends enrolled b -> ParseCertificate b = Some c -> ParseCertificate b' = Some c' ->
    CheckSignatureFrom c' c = true -> descends enrolled b'.

Lemma continuity_link enrolled old new t b : VerifyCAContinuity old new = Ok tt ->
  pem_Decode old = Some (t, b) -> descends enrolled b -> exists t' b', pem_Decode new = Some (t', b') /\ descends enrolled b'.
Proof.
  unfold VerifyCAContinuity. case_bool_decide; [done|]. intros H0 Hold Hd. rewrite Hold in H0. revert H0. destruct (pem_Decode new) as [[t' b']|]; [|done].
  case_bool_decide as Eb; [subst b'; by eauto|]. destruct (ParseCertificate b) as [c|] eqn:E1; [|done]. destruct (ParseCertificate b') as [c'|] eqn:E2; [|done].
  destruct (CheckSignatureFrom c' c) eqn:E3; [|done]. intros _. exists t', b'. split; [done|]. by eapply descends_signed.
Qed.

(** The CA an agent keeps over its renewals: a new one replaces it when the check passes. *)
Definition renew (stored offered : gostring) : gostring :=
  match VerifyCAContinuity stored offered with Ok _ => offered | Err _ => stored end.

(** Whatever an origin offers at renewals, the CA that is kept is the enrolled one or
    descends from it by signatures. *)
Theorem renewals_descend enrolledPEM t b offers :
  pem_Decode enrolledPEM = Some (t, b) ->
  exists t' b', pem_Decode (fold_left renew offers enrolledPEM) = Some (t', b') /\ descends b b'.
Proof.
  intros He. assert (exists t' b', pem_Decode enrolledPEM = Some (t', b') /\ descends b b') as Hd by (exists t, b; by repeat constructor).
  clear He. revert Hd. generalize enrolledPEM. induction offers as [|new offers IH]; intros cur Hd; [done|]. cbn [fold_left]. apply IH.
  destruct Hd as (t' & b' & Hc & Hd). unfold renew. destruct (VerifyCAContinuity cur new) as [[]|] eqn:E; [by eapply continuity_link|]. by exists t', b'.
Qed.

(** A pin stands for the hash of the certificate. *)
Lemma fingerprint_pins p q f : CAFingerprintFromPEM p = Ok f -> CAFingerprintFromPEM q = Ok f ->
  exists t b u c, pem_Decode p = Some (t, b) /\ pem_Decode q = Some (u, c) /\ sha256 b = sha256 c.
Proof.
  unfold CAFingerprintFromPEM. destruct (pem_Decode p) as [[t b]|]; [|done]. destruct (pem_Decode q) as [[u c]|]; [|done].
  intros [= <-] [= H]. exists t, b, u, c. split_and!; [done|done|]. symmetry. by apply RemoteTree.hex_inj.
Qed.

(** ** What the check does not look at *)

(** The new certificate need not be a CA: one that the enrolled CA issued to a device is
    accepted as the new CA. *)
Lemma issued_leaf_accepted (IsCA : certificate -> bool) ca leaf t u b c ca' leaf' :
  leaf <> [] -> pem_Decode ca = Some (t, b) -> pem_Decode leaf = Some (u, c) -> ParseCertificate b = Some ca' -> ParseCertificate c = Some leaf' ->
  IsCA leaf' = false -> CheckSignatureFrom leaf' ca' = true -> VerifyCAContinuity ca leaf = Ok tt.
Proof.
  intros Hl Hb Hc Hpb Hpc _ Hs. unfold VerifyCAContinuity. rewrite bool_decide_false, Hb, Hc by done. case_bool_decide; [done|]. by rewrite Hpb, Hpc, Hs.
Qed.
(** What follows the first block is not looked at, as [pem.Decode] leaves it. *)
Lemma appended_root_accepted ca extra :
  (forall p q, is_Some (pem_Decode p) -> pem_Decode (p ++ q) = pem_Decode p) -> ca <> [] -> is_Some (pem_Decode ca) ->
  VerifyCAContinuity ca (ca ++ extra) = Ok tt.
Proof.
  intros Hp Hn Hs. unfold VerifyCAContinuity. rewrite bool_decide_false by by destruct ca. rewrite Hp by done. destruct Hs as [[t b] ->]. by rewrite bool_decide_true.
Qed.
End X509.

(** *** Instances *)

Fixpoint block_Encode (t b : gostring) : gostring := match t with c :: t' => "+"%char :: c :: block_Encode t' b | [] => "-"%char :: b end.
Fixpoint block_Decode (s : gostring) : option (gostring * gostring) :=
  match s with
  | x :: s' => if bool_decide (x = "+"%char) then match s' with c :: s'' => kv ← block_Decode s''; Some (c :: kv.1, kv.2) | [] => None end else Some ([], s')
  | [] => None
  end.
Lemma block_roundtrip t b : block_Decode (block_Encode t b) = Some (t, b).
Proof. induction t as [|c t IH]; [done|]. cbn. by rewrite IH. Qed.
Lemma renewals_descend_witness :
  exists t' b', cut (fold_left (renew (fun s => cut s NL) (fun s => Some s) (fun new old => has_prefix new old)) [str "CA" ++ NL :: str "root2"; str "CA" ++ NL :: str "other"] (str "CA" ++ NL :: str "root")) NL
    = Some (t', b') /\ descends (fun s => Some s) (fun new old => has_prefix new old) (str "root") b'.
Proof. by apply (renewals_descend (fun s => cut s NL) (fun s => Some s) (fun new old => has_prefix new old) _ (str "CA")). Defined.
Lemma renewal_keeps_key_witness :
  exists k der, Some (str "secret") = Some k /\ Some (CommonName (template (str "host")) ++ k) = Some der /\
    block_Encode (str "CERTIFICATE REQUEST") (str "hostsecret") = block_Encode (str "CERTIFICATE REQUEST") der /\
    GenerateCSRFromKey block_Decode block_Encode (fun r k => Some (CommonName r ++ k)) (fun d => Some (Some d)) (str "new") (block_Encode (str "PRIVATE KEY") (str "secret"))
    = Ok (block_Encode (str "CERTIFICATE REQUEST") (CommonName (template (str "new")) ++ k)).
Proof.
  apply (renewal_keeps_key block_Decode block_Encode (fun r k => Some (CommonName r ++ k)) Some (fun d => Some (Some d)) (Some (str "secret")) (str "host") (str "new")).
  - apply block_roundtrip.
  - by intros k d [= <-].
  - reflexivity.
Defined.

End Certs.
