(* ===== verification/Support.v ===== *)
(** * Support packages ([src/sys/exec/exectest], [src/validate], [src/url.go], [src/logging])

    The scripted runner, and messages of validation errors, endpoints and log levels. *)
From S2P Require Import Prelude Exec Paths HostProg Words Json.

(** * The scripted runner of the tests ([src/sys/exec/exectest])

    A runner that records the commands it is given and answers from a queue.  A context is
    what its [Err] says; the mutex makes every operation one step. *)

Module FakeRunner.
Import Exec.

Definition scripted : Type := Result * option exec_error.
Record FakeRunner := MkFake {
  backend : PrivilegeBackend; calls : list Command; ctxs : list (option gostring); queue : list scripted
}.
(** The zero value is the direct backend. *)
Definition New (b : option PrivilegeBackend) : FakeRunner := MkFake (default Direct b) [] [] [].
Definition Push (f : FakeRunner) (r : Result) (err : option exec_error) : FakeRunner :=
  MkFake (backend f) (calls f) (ctxs f) (queue f ++ [(r, err)]).
Definition Calls (f : FakeRunner) : list Command := calls f.
Definition CallContexts (f : FakeRunner) : list (option gostring) := ctxs f.
Definition record (f : FakeRunner) (ctx : option gostring) (c : Command) : FakeRunner :=
  MkFake (backend f) (calls f ++ [c]) (ctxs f ++ [ctx]) (queue f).
Definition pop (f : FakeRunner) : FakeRunner * scripted :=
  match queue f with
  | [] => (f, (no_result, None))
  | s :: q => (MkFake (backend f) (calls f) (ctxs f) q, s)
  end.

Definition Run (f : FakeRunner) (ctx : option gostring) (c : Command) : FakeRunner * scripted :=
  match ValidateCommandEnv (Env c) with
  | Err e => (f, (no_result, Some (ErrEnv e)))
  | Ok _ =>
      let f := record f ctx c in
      match ctx with Some e => (f, (no_result, Some (ErrCtx e))) | None => pop f end
  end.

(** What the callback gets, in order; the counter is a 64-bit integer. *)
Definition replay (buf : gostring) : list (gostring * Z) :=
  if bool_decide (buf = []) then []
  else imap (fun i line => (line ++ [NL], wrap64 (Z.of_nat i))) (split_byte (trim_suffix buf [NL]) NL).
Definition Stream (f : FakeRunner) (ctx : option gostring) (c : Command) (onLine : bool)
    : FakeRunner * scripted * list (StreamType * gostring * Z) :=
  match ValidateCommandEnv (Env c) with
  | Err e => (f, (no_result, Some (ErrEnv e)), [])
  | Ok _ =>
      let f := record f ctx c in
      match ctx with
      | Some e => (f, (no_result, Some (ErrCtx e)), [])
      | None =>
          let '(f, r) := pop f in
          (f, r, if onLine then map (fun l => (StreamStdout, l.1, l.2)) (replay (Stdout r.1)) ++
                                map (fun l => (StreamStderr, l.1, l.2)) (replay (Stderr r.1)) else [])
      end
  end.

(** ** A script is played in order *)

Fixpoint run_all (f : FakeRunner) (cs : list Command) : FakeRunner * list scripted :=
  match cs with
  | [] => (f, [])
  | c :: cs' => let '(f, r) := Run f None c in let '(f, rs) := run_all f cs' in (f, r :: rs)
  end.

(** Commands with an environment that the runner accepts are recorded in order and get the
    scripted answers in order, and success when the script is over. *)
Theorem script_played f cs :
  Forall (fun c => ValidateCommandEnv (Env c) = Ok tt) cs ->
  run_all f cs =
    (MkFake (backend f) (calls f ++ cs) (ctxs f ++ replicate (length cs) None) (drop (length cs) (queue f)),
     take (length cs) (queue f) ++ replicate (length cs - length (queue f)) (no_result, None)).
Proof.
  intros H. revert f. induction H as [|c cs Hc _ IH]; intros [b k x q]; cbn [run_all length replicate].
  - by rewrite !app_nil_r, drop_0, take_0.
  - unfold Run. rewrite Hc. destruct q as [|s q]; cbv [pop record queue backend calls ctxs]; rewrite IH; cbn [backend calls ctxs queue];
      rewrite <- !app_assoc; cbn [app length replicate take drop Nat.sub].
    + by rewrite drop_nil, take_nil, Nat.sub_0_r.
    + done.
Qed.

(** A command the gate refuses leaves no trace. *)
Lemma refused_not_recorded f ctx c onLine e : ValidateCommandEnv (Env c) = Err e ->
  (Run f ctx c).1 = f /\ (Stream f ctx c onLine).1.1 = f.
Proof. intros H. unfold Run, Stream. by rewrite H. Qed.

(** ** What is replayed is what the runner delivers *)

Definition lines_of (buf : gostring) : list gostring := if decide (buf = []) then [] else split_byte (trim_suffix buf [NL]) NL.
Lemma numbered (ls : list gostring) n : (Z.of_nat (n + length ls) < 2 ^ 63)%Z ->
  imap (fun i line => (line ++ [NL], wrap64 (Z.of_nat (n + i)))) ls = zip (map (fun l => l ++ [NL]) ls) (map Z.of_nat (seq n (length ls))).
Proof.
  revert n. induction ls as [|l ls IH]; intros n Hn; [done|]. cbn [imap length seq map zip zip_with] in *. rewrite Nat.add_0_r, wrap64_id by lia. f_equal.
  rewrite <- IH by lia. apply imap_ext. intros i x _. unfold compose. do 3 f_equal. lia.
Qed.
(** A script with the text of a stream fires the callbacks that the runner fires for a
    process that writes it: the same lines with the same numbers. *)
Theorem replay_faithful buf :
  (size (lines_of buf) < 2 ^ 63)%Z -> replay buf = callbacks (fold_left (record_on true) (lines_of buf) empty_capture).
Proof.
  intros H. destruct (record_all_recorded true (lines_of buf) [] empty_capture) as (_ & _ & _ & ->); [done|by repeat split|].
  unfold replay. revert H. unfold lines_of. case_decide; case_bool_decide; try done. intros Hs. cbn [app]. rewrite <- numbered; [done|].
  pose proof (length_le_size (split_byte (trim_suffix buf [NL]) NL)). lia.
Qed.
Lemma replay_faithful_witness : replay (str "a" ++ NL :: str "b") = callbacks (fold_left (record_on true) [str "a"; str "b"] empty_capture).
Proof. apply (replay_faithful (str "a" ++ NL :: str "b")). by vm_compute. Defined.
Lemma script_played_witness :
  (run_all (Push (New None) (MkResult 1 [] []) None) [MkCommand (str "id") [] [] [] [] false; MkCommand (str "ls") [] [] [] [] false]).2
  = [(MkResult 1 [] [], None); (no_result, None)].
Proof.
  etransitivity; [apply (f_equal snd), (script_played (Push (New None) (MkResult 1 [] []) None)); by repeat constructor|reflexivity].
Defined.

(** The runner refuses a command without a name; the script runs it. *)
Lemma nameless_recorded h b f : Exec.exec h b None (MkCommand [] [] [] [] [] false) false = Refused ErrNameRequired /\
  length (calls (Run f None (MkCommand [] [] [] [] [] false)).1) = S (length (calls f)).
Proof.
  split; [done|]. unfold Run. change (ValidateCommandEnv (Env _)) with (@Ok env_error unit tt). unfold pop. cbn. destruct (queue f); cbn; rewrite length_app; cbn; lia.
Qed.

End FakeRunner.

(** * Request messages, endpoint URLs, log levels ([src/validate], [src/url.go], [src/logging])

    The messages for refused requests with the names of fields in snake case, the check of
    https endpoints, and the levels of the log.  The validator and ULID libraries and
    [url.Parse] are parameters. *)

Module Validate.
Import Runes.

(** ** Names of fields *)

Definition is_upper (r : N) : bool := (65 <=? r)%N && (r <=? 90)%N.
Definition is_lower (r : N) : bool := (97 <=? r)%N && (r <=? 122)%N.
Definition underscore : N := 95.

(** The loop over the runes; [prev] is the rune before, [None] at the first. *)
Definition breaks (prev : option N) (next : list N) : bool :=
  match prev with
  | None => false
  | Some p => is_lower p || (is_upper p && match next with n :: _ => is_lower n | [] => false end)
  end.
Fixpoint snake (prev : option N) (rs : list N) : list N :=
  match rs with
  | [] => []
  | r :: rest =>
      (if is_upper r && breaks prev rest then [underscore] else []) ++
      (if is_upper r then r + 32 else r)%N :: snake (Some r) rest
  end.
Definition ToSnakeCase (s : gostring) : gostring := concat (map Json.utf8 (snake None (runes s))).

(** ** Messages *)

Record FieldError := MkFieldError { Field : gostring; Tag : gostring; IsString : bool; Param : gostring }.
Definition FormatFieldError (e : FieldError) : gostring :=
  let field := ToSnakeCase (Field e) in
  let tag (t : string) := bool_decide (Tag e = str t) in
  if tag "required" then field ++ str " is required"
  else if tag "email" then field ++ str " must be a valid email address"
  else if tag "ulid" then field ++ str " must be a valid ULID"
  else if tag "min" then
    if IsString e then field ++ str " must be at least " ++ Param e ++ str " characters" else field ++ str " must be at least " ++ Param e
  else if tag "max" then
    if IsString e then field ++ str " must be at most " ++ Param e ++ str " characters" else field ++ str " must be at most " ++ Param e
  else if tag "gte" then field ++ str " must be >= " ++ Param e
  else if tag "lte" then field ++ str " must be <= " ++ Param e
  else if tag "ne" then field ++ str " must not be " ++ Param e
  else if tag "oneof" then field ++ str " must be one of: " ++ Param e
  else if tag "startswith" then field ++ str " must start with " ++ Param e
  else field ++ str " failed validation: " ++ Tag e.
Definition FormatValidationErrors (errs : list FieldError) : gostring :=
  str "validation failed: " ++ join (map FormatFieldError errs) (str "; ").

(** What the validator says of a value: nothing, errors of fields, or another error. *)
Inductive verdict := Valid | Fields (errs : list FieldError) | Other (e : gostring).
Definition Struct (v : verdict) : gostring * bool :=
  match v with Valid => ([], true) | Fields errs => (FormatValidationErrors errs, false) | Other e => (e, false) end.

Definition validateULID (Parse : gostring -> bool) (value : gostring) : bool := if bool_decide (value = []) then true else Parse value.

(** ** Endpoints *)

Record URL := MkURL { Scheme : gostring; Opaque_ : gostring; Host : gostring; HasUser : bool; Fragment : gostring; RawFragment : gostring }.
Inductive url_error := ErrParseURL | ErrScheme (s : gostring) | ErrOpaque | ErrNoHost | ErrUserInfo | ErrFragment.
Definition ValidateHTTPSURL (Parse : gostring -> option URL) (raw : gostring) : result url_error unit :=
  match Parse (trim_space raw) with
  | None => Err ErrParseURL
  | Some u =>
      if negb (bool_decide (to_lower (Scheme u) = str "https")) then Err (ErrScheme (Scheme u))
      else if negb (bool_decide (Opaque_ u = [])) then Err ErrOpaque
      else if bool_decide (Host u = []) then Err ErrNoHost
      else if HasUser u then Err ErrUserInfo
      else if negb (bool_decide (Fragment u = [])) || negb (bool_decide (RawFragment u = [])) then Err ErrFragment
      else Ok tt
  end.

(** ** Logging *)

Inductive Level := LevelDebug | LevelInfo | LevelWarn | LevelError.
Definition ParseLevel (level : gostring) : Level :=
  if bool_decide (level = str "debug") then LevelDebug
  else if bool_decide (level = str "info") then LevelInfo
  else if bool_decide (level = str "warn") then LevelWarn
  else if bool_decide (level = str "error") then LevelError
  else LevelInfo.
Inductive Handler := JSONHandler (l : Level) | TextHandler (l : Level).
Definition SetupLogger (level format : gostring) : Handler :=
  if bool_decide (format = str "json") then JSONHandler (ParseLevel level) else TextHandler (ParseLevel level).

(** ** Snake case *)

Definition lower_rune (r : N) : N := if is_upper r then (r + 32)%N else r.
Lemma lower_rune_not_upper r : is_upper (lower_rune r) = false.
Proof. unfold lower_rune, is_upper. destruct ((65 <=? r)%N && (r <=? 90)%N) eqn:E; [|done]. apply andb_prop in E as [?%N.leb_le ?%N.leb_le]. apply andb_false_iff. right. apply N.leb_gt. lia. Qed.
Lemma snake_lower prev rs : Forall (fun r => is_upper r = false) (snake prev rs).
Proof.
  revert prev. induction rs as [|r rs IH]; intros prev; cbn [snake]; [constructor|]. apply list.Forall_app. split.
  - destruct (_ && _); by repeat constructor.
  - constructor; [apply (lower_rune_not_upper r)|apply IH].
Qed.
Lemma snake_id prev rs : Forall (fun r => is_upper r = false) rs -> snake prev rs = rs.
Proof. intros H. revert prev. induction H as [|r rs Hr _ IH]; intros prev; [done|]. cbn [snake]. by rewrite Hr, IH. Qed.

(** The name in snake case has no upper-case letter, is its own snake case, and is the
    name in lower case but for the underscores. *)
Lemma snake_exact rs :
  Forall (fun r => is_upper r = false) (snake None rs) /\ snake None (snake None rs) = snake None rs /\
  List.filter (fun r => negb (r =? underscore)%N) (snake None rs) = map lower_rune (List.filter (fun r => negb (r =? underscore)%N) rs).
Proof.
  split; [apply snake_lower|]. split; [apply snake_id, snake_lower|]. generalize (@None N).
  induction rs as [|r rs IH]; intros prev; [done|]. cbn [snake]. rewrite filter_app.
  assert (forall b : bool, List.filter (fun r => negb (r =? underscore)%N) (if b then [underscore] else []) = []) as -> by by intros [].
  cbn [app List.filter]. rewrite IH. fold (lower_rune r).
  assert ((lower_rune r =? underscore)%N = (r =? underscore)%N) as ->; [|by destruct (_ =? _)%N].
  unfold lower_rune, is_upper, underscore. destruct (N.leb_spec 65 r), (N.leb_spec r 90); cbn [andb]; try done.
  destruct (N.eqb_spec (r + 32) 95), (N.eqb_spec r 95); lia.
Qed.


Example snake_names :
  map ToSnakeCase [str "UserID"; str "HTTPStatusCode"; str "myValue"; str "userID"; str "A1B"] =
  [str "user_id"; str "http_status_code"; str "my_value"; str "user_id"; str "a1b"].
Proof. by_eval. Qed.

(** ** What the check of endpoints accepts *)

Definition plain_https (u : URL) : Prop :=
  to_lower (Scheme u) = str "https" /\ Opaque_ u = [] /\ Host u <> [] /\ HasUser u = false /\ Fragment u = [] /\ RawFragment u = [].
Theorem https_exact Parse raw : ValidateHTTPSURL Parse raw = Ok tt <-> exists u, Parse (trim_space raw) = Some u /\ plain_https u.
Proof.
  unfold ValidateHTTPSURL. destruct (Parse (trim_space raw)) as [u|]; [|split; [done|by intros (? & ? & _)]].
  transitivity (plain_https u); [|split; [by exists u|intros (v & Hv & H); by injection Hv as <-]]. unfold plain_https.
  repeat case_bool_decide; destruct (HasUser u); cbn; naive_solver.
Qed.
(** White space around an endpoint and the case of its scheme do not matter. *)
Lemma spaced_url_accepted Parse raw : ValidateHTTPSURL Parse raw = Ok tt -> ValidateHTTPSURL Parse (" "%char :: raw) = Ok tt.
Proof. unfold ValidateHTTPSURL. assert (trim_space (" "%char :: raw) = trim_space raw) as -> by reflexivity. done. Qed.

End Validate.
