(* ===== verification/Cli.v ===== *)
(** * The operator client: storage and sign-in ([src/cmd/powermanage])

    The private files with the configuration and the session, the checks of server and
    token endpoints, the bootstrap token, and what a sign-in makes of the answers it gets.
    [url.Parse], the text of times and [json.Marshal] are parameters; an error is the list
    of the errors that [errors.Join] joins, none is success. *)
From S2P Require Import Prelude Paths Exec HostProg Net Json RemoteTree RemoteS3.

Module Cli.
Import Paths HostProg Json.

Definition maxProtoJSONBytes : N := 8388608.
Definition maxOIDCTokenResponseBytes : N := 1048576.
Definition maxCredentialFileBytes : N := 65536.

Inductive cli_error :=
| EText (what : string)
| EUnix (what : string) (e : unix_err)
| EFs (what : string) (e : fs_err)
| EStatus (code : Z).

(** The zero time is the first second of the year one. *)
Definition zero_time : Z := -62135596800000000000.
Record sessionFile := MkSession { ServerURL : gostring; AccessToken : gostring; RefreshToken : gostring; ExpiresAt : Z }.

(** ** Endpoints *)

Record URL := MkURL { Scheme : gostring; Opaque_ : gostring; Host : gostring; HasUser : bool; RawQuery : gostring; Fragment : gostring; Hostname : gostring }.
(** [ip.IsLoopback] on the eight groups of an address. *)
Definition IsLoopback (ip : list N) : bool :=
  if Net.To4 ip then match drop 6 ip with g :: _ => (g / 256 =? 127)%N | [] => false end
  else bool_decide (ip = [0; 0; 0; 0; 0; 0; 0; 1]%N).

Section Endpoints.
Context (Parse : gostring -> option URL).

Definition validateServerURL (raw : gostring) : result cli_error gostring :=
  if negb (bool_decide (raw = trim_space raw)) || bool_decide (raw = []) then Err (EText "server URL is empty or contains surrounding whitespace")
  else match Parse raw with
  | None => Err (EText "server URL must be an HTTP(S) origin")
  | Some u =>
      if negb (bool_decide (Opaque_ u = [])) || bool_decide (Host u = []) || HasUser u || negb (bool_decide (RawQuery u = [])) || negb (bool_decide (Fragment u = []))
      then Err (EText "server URL must be an HTTP(S) origin")
      else if bool_decide (Scheme u = str "https") then Ok raw
      else if bool_decide (Scheme u = str "http") then
        match Net.ParseIP (Hostname u) with
        | Some ip => if IsLoopback ip then Ok raw else Err (EText "cleartext HTTP is allowed only for a literal loopback address")
        | None => Err (EText "cleartext HTTP is allowed only for a literal loopback address")
        end
      else Err (EText "server URL must use HTTPS")
  end.

Definition complete (s : sessionFile) : bool :=
  negb (bool_decide (AccessToken s = []) || bool_decide (RefreshToken s = []) || (ExpiresAt s =? zero_time)%Z).
(** What a stored session must be. *)
Definition usable (s : sessionFile) : bool :=
  match validateServerURL (ServerURL s) with Ok _ => complete s | Err _ => false end.
End Endpoints.

(** ** Private files ([storage.go]) *)

Definition unix (o : unix_op) : prog (unix_ans o) := ask (COs (OsUnix o)).
(** The owner of a descriptor's file is compared with the user in 32 bits; a file that is
    public or not of the type is refused before. *)
Definition is_private (t : file_type) (i : stat_t) : prog bool :=
  if negb (bool_decide (st_type i = t)) || negb (N.land (st_perm i) 63 =? 0)%N then Ret false
  else let! euid := ask (COs OsGeteuid) in Ret (st_uid i =? euid mod 4294967296)%Z.

Definition opt_err (what : string) (e : option unix_err) : list cli_error := match e with Some e => [EUnix what e] | None => [] end.

Definition openPrivateDirectory (path : gostring) : prog (result (list cli_error) nat) :=
  let! o := unix (UnixOpen path [U_RDONLY; U_DIRECTORY; U_CLOEXEC; U_NOFOLLOW] 0) in
  match o with
  | Err e => Ret (Err [EUnix "open config directory" e])
  | Ok fd =>
      let! st := unix (UnixFstat fd) in
      match st with
      | Err e => let! c := unix (UnixClose fd) in Ret (Err (EUnix "inspect config directory" e :: opt_err "close" c))
      | Ok info =>
          let! p := is_private S_IFDIR info in
          if p then Ret (Ok fd)
          else let! c := unix (UnixClose fd) in Ret (Err (EText "config directory must be private" :: opt_err "close" c))
      end
  end.

(** The loop over the attempts. *)
Fixpoint createTemporaryCredential (attempts dirFD : nat) : prog (result (list cli_error) (nat * gostring)) :=
  match attempts with
  | 0 => Ret (Err [EText "create unique credential file"])
  | S attempts' =>
      let! suffix := ask (COs (OsRand 16)) in
      match suffix with
      | None => Ret (Err [EText "name temporary credential file"])
      | Some suffix =>
          let name := str ".powermanage-" ++ RemoteTree.hex suffix in
          let! r := unix (UnixOpenat dirFD name [U_WRONLY; U_CREAT; U_EXCL; U_CLOEXEC; U_NOFOLLOW] 384) in
          match r with
          | Err U_EEXIST => createTemporaryCredential attempts' dirFD
          | Err e => Ret (Err [EUnix "create credential file" e])
          | Ok fd => Ret (Ok (fd, name))
          end
      end
  end.

Definition bad_name (name : gostring) : bool := bool_decide (name ∈ [str "."; str ".."; [SLASH]]).

(** The deferred close of the directory joins its error to the result. *)
Definition closing (dirFD : nat) (p : prog (list cli_error)) : prog (list cli_error) :=
  let! es := p in
  let! c := unix (UnixClose dirFD) in
  Ret (es ++ opt_err "close config directory" c).

(** The temporary file: the errors, whether it was closed, whether it was renamed. *)
Definition fill (dirFD fd : nat) (temporaryName name data : gostring) : prog (list cli_error * bool * bool) :=
  let! w := unix (UnixWrite fd data) in
  match w with Some e => Ret ([EUnix "write credential file" e], false, false) | None =>
  let! s := unix (UnixFsync fd) in
  match s with Some e => Ret ([EUnix "sync credential file" e], false, false) | None =>
  let! c := unix (UnixClose fd) in
  match c with Some e => Ret ([EUnix "close credential file" e], true, false) | None =>
  let! r := unix (UnixRenameat dirFD temporaryName name) in
  match r with Some e => Ret ([EUnix "replace credential file" e], true, false) | None =>
  let! d := unix (UnixFsync dirFD) in
  match d with Some e => Ret ([EUnix "sync config directory" e], true, true) | None => Ret ([], true, true) end end end end end.
Definition cleanup (dirFD fd : nat) (temporaryName : gostring) (r : list cli_error * bool * bool) : prog (list cli_error) :=
  let '(es, closed, renamed) := r in
  let! c := (if closed : bool then Ret None else unix (UnixClose fd)) in
  let! u := (if renamed : bool then Ret None else unix (UnixUnlinkat dirFD temporaryName)) in
  Ret (es ++ opt_err "close credential file" c ++
       match u with Some U_ENOENT => [] | u => opt_err "remove temporary credential file" u end).

Definition replace_file (dirFD : nat) (name : gostring) (raw : option gostring) : prog (list cli_error) :=
  match raw with
  | None => Ret [EText "encode credential file"]
  | Some raw =>
      let! t := createTemporaryCredential 100 dirFD in
      match t with
      | Err es => Ret es
      | Ok (fd, temporaryName) => let! r := fill dirFD fd temporaryName name (raw ++ [NL]) in cleanup dirFD fd temporaryName r
      end
  end.
Definition writePrivateJSON (path : gostring) (raw : option gostring) : prog (list cli_error) :=
  let directory := Dir path in
  let! m := ask (COs (OsMkdirAll directory 448)) in
  match m with
  | Some e => Ret [EFs "create config directory" e]
  | None =>
      let! d := openPrivateDirectory directory in
      match d with
      | Err es => Ret es
      | Ok dirFD =>
          closing dirFD (
            let name := Base path in
            if bad_name name then Ret [EText "credential file path is invalid"]
            else
              let! st := unix (UnixFstatat dirFD name) in
              match st with
              | Ok existing =>
                  let! p := is_private S_IFREG existing in
                  if p then replace_file dirFD name raw else Ret [EText "credential file must be a private regular file"]
              | Err U_ENOENT => replace_file dirFD name raw
              | Err e => Ret [EUnix "inspect credential file" e]
              end)
      end
  end.

(** What is read of the file, with the errors of the deferred closes. *)
Definition read_checked (fd : nat) : prog (result cli_error gostring) :=
  let! st := unix (UnixFstat fd) in
  match st with
  | Err e => Ret (Err (EUnix "inspect credential file" e))
  | Ok info =>
      let! p := is_private S_IFREG info in
      if negb p then Ret (Err (EText "credential file must be a private regular file"))
      else
        let! r := unix (UnixRead fd (maxCredentialFileBytes + 1)) in
        Ret (match r with
             | Err e => Err (EUnix "read credential file" e)
             | Ok raw => if (maxCredentialFileBytes <? N.of_nat (length raw))%N then Err (EText "credential file is too large") else Ok raw
             end)
  end.
(** [decode] is a decoder that takes one JSON value with known fields only. *)
Definition readPrivateJSON {A} (decode : gostring -> option A) (path : gostring) : prog (result (list cli_error) A) :=
  let! d := openPrivateDirectory (Dir path) in
  match d with
  | Err es => Ret (Err es)
  | Ok dirFD =>
      let name := Base path in
      let! r := (if bad_name name then Ret (Err [EText "credential file path is invalid"])
        else
          let! o := unix (UnixOpenat dirFD name [U_RDONLY; U_CLOEXEC; U_NOFOLLOW] 0) in
          match o with
          | Err e => Ret (Err [EUnix "open credential file" e])
          | Ok fd =>
              let! raw := read_checked fd in
              let res := match raw with
                         | Err e => Err [e]
                         | Ok raw => match decode raw with Some v => Ok v | None => Err [EText "decode credential file"] end
                         end in
              let! c := unix (UnixClose fd) in
              Ret (match res, opt_err "close credential file" c with
                   | Err es, cs => Err (es ++ cs)
                   | Ok v, [] => Ok v
                   | Ok _, cs => Err cs
                   end)
          end) in
      let! c := unix (UnixClose dirFD) in
      Ret (match r, opt_err "close config directory" c with
           | Err es, cs => Err (es ++ cs)
           | Ok v, [] => Ok v
           | Ok _, cs => Err cs
           end)
  end.

(** ** Sessions *)

Section Sessions.
Context (Parse : gostring -> option URL) (FormatTime : Z -> option gostring) (ParseTime : gostring -> option Z) (Marshal : json -> gostring).

Definition encode_session (s : sessionFile) : option gostring :=
  t ← FormatTime (ExpiresAt s);
  Some (Marshal (JObj [(str "server_url", JStr (ServerURL s)); (str "access_token", JStr (AccessToken s));
                       (str "refresh_token", JStr (RefreshToken s)); (str "expires_at", JStr t)])).
Definition known_keys (keys : list gostring) (kvs : list (gostring * json)) : bool :=
  forallb (fun kv => existsb (fold_eq kv.1) keys) kvs.
Definition dec_time (v : option json) : option Z :=
  match v with None | Some JNull => Some zero_time | Some (JStr t) => ParseTime t | _ => None end.
Definition decode_session (raw : gostring) : option sessionFile :=
  v ← parse raw; kvs ← dec_object (Some v);
  if known_keys [str "server_url"; str "access_token"; str "refresh_token"; str "expires_at"] kvs then
    u ← dec_str (field kvs (str "server_url"));
    a ← dec_str (field kvs (str "access_token"));
    r ← dec_str (field kvs (str "refresh_token"));
    e ← dec_time (field kvs (str "expires_at"));
    Some (MkSession u a r e)
  else None.
(** The configuration is the URL of the server. *)
Definition decode_config (raw : gostring) : option gostring :=
  v ← parse raw; kvs ← dec_object (Some v);
  if known_keys [str "server_url"] kvs then dec_str (field kvs (str "server_url")) else None.

Definition writeSession (path : gostring) (s : sessionFile) : prog (list cli_error) :=
  match validateServerURL Parse (ServerURL s) with
  | Err e => Ret [EText "invalid session server"; e]
  | Ok _ => if complete s then writePrivateJSON path (encode_session s) else Ret [EText "session is incomplete"]
  end.
Definition readSession (path : gostring) : prog (result (list cli_error) sessionFile) :=
  let!? s := readPrivateJSON decode_session path in
  Ret (match validateServerURL Parse (ServerURL s) with
       | Err e => Err [EText "invalid stored session"; e]
       | Ok _ => if complete s then Ok s else Err [EText "stored session is incomplete"]
       end).
Definition set_server (configPath url : gostring) : prog (list cli_error) :=
  match validateServerURL Parse url with
  | Err e => Ret [e]
  | Ok serverURL => writePrivateJSON configPath (Some (Marshal (JObj [(str "server_url", JStr serverURL)])))
  end.
Definition publicClient (configPath : gostring) : prog (result (list cli_error) gostring) :=
  let!? url := readPrivateJSON decode_config configPath in
  Ret (match validateServerURL Parse url with Err e => Err [EText "invalid stored server URL"; e] | Ok u => Ok u end).
End Sessions.

(** ** Tokens and ports *)

(** What a reader delivers, up to the limit. *)
Definition readBootstrapToken (input : gostring) : result cli_error gostring :=
  let raw := take 4097 input in
  if (4096 <? length raw)%nat then Err (EText "bootstrap token is too large")
  else
    let token := trim_space raw in
    if bool_decide (token = []) || contains_any token [" "%char; TAB; CR; NL]
    then Err (EText "bootstrap token must be one non-empty value") else Ok token.
Definition parsePort (raw : gostring) : result cli_error Z :=
  match atoi raw with
  | Some port => if (port <? 0)%Z || (65535 <? port)%Z then Err (EText "callback port must be between 0 and 65535") else Ok port
  | None => Err (EText "callback port must be between 0 and 65535")
  end.

(** ** Signing in ([exchangeOIDCCode], [login]) *)

Section Login.
Context (Parse : gostring -> option URL).
(** The token endpoint with a form, and the control server. *)
Context (Do : gostring -> gostring -> result gostring http_response).

(** [url.Values.Encode] orders the keys. *)
Definition token_form (clientID code redirectURL verifier : gostring) : gostring :=
  str "client_id=" ++ RemoteS3.QueryEscape clientID ++ str "&code=" ++ RemoteS3.QueryEscape code ++
  str "&code_verifier=" ++ RemoteS3.QueryEscape verifier ++ str "&grant_type=authorization_code&redirect_uri=" ++ RemoteS3.QueryEscape redirectURL.

Definition dec_token (raw : gostring) : option (gostring * gostring) :=
  v ← parse raw; kvs ← dec_object (Some v); t ← dec_str (field kvs (str "id_token")); e ← dec_str (field kvs (str "error")); Some (t, e).
Definition exchangeOIDCCode (tokenURL clientID code redirectURL verifier : gostring) : result cli_error gostring :=
  match validateServerURL Parse tokenURL with
  | Err e => Err e
  | Ok _ =>
      match Do tokenURL (token_form clientID code redirectURL verifier) with
      | Err _ => Err (EText "identity provider exchange failed")
      | Ok r =>
          if (StatusCode r <? 200)%Z || (300 <=? StatusCode r)%Z then Err (EStatus (StatusCode r))
          else if (maxOIDCTokenResponseBytes <? N.of_nat (length (Body r)))%N then Err (EText "identity provider response is too large")
          else match BodyErr r with
          | Some _ => Err (EText "read identity provider response")
          | None =>
              match dec_token (Body r) with
              | None => Err (EText "identity provider returned no valid ID token")
              | Some (idToken, error) =>
                  if negb (bool_decide (error = [])) then Err (EText "identity provider rejected the exchange")
                  else if bool_decide (idToken = []) then Err (EText "identity provider returned no valid ID token")
                  else Ok idToken
              end
          end
      end
  end.

Record begin_msg := MkBegin { b_HasExpiry : bool; b_State : gostring; b_LoginUrl : gostring; b_TokenUrl : gostring; b_ClientId : gostring }.
(** What ends the wait for the browser. *)
Inductive waited := WaitCancelled | WaitTimedOut | Received (code state oauthError : gostring).
Record session_msg := MkSessionMsg { m_AccessToken : gostring; m_RefreshToken : gostring; m_ExpiresAt : option Z }.

(** The answers of the control server, [None] an error; the session that is then written. *)
Definition login (serverURL redirectURL verifier : gostring) (begin_ : option begin_msg) (wait : waited)
    (ExchangeCLISession : gostring -> gostring -> option session_msg) : result cli_error sessionFile :=
  match begin_ with
  | None => Err (EText "begin login")
  | Some b =>
      if negb (b_HasExpiry b) || bool_decide (b_State b = []) || bool_decide (b_LoginUrl b = []) || bool_decide (b_TokenUrl b = []) || bool_decide (b_ClientId b = [])
      then Err (EText "control returned an incomplete CLI login")
      else match wait with
      | WaitCancelled => Err (EText "cancelled")
      | WaitTimedOut => Err (EText "OIDC login timed out")
      | Received code state oauthError =>
          if negb (bool_decide (oauthError = [])) || bool_decide (code = []) || negb (bool_decide (state = b_State b))
          then Err (EText "OIDC callback was rejected")
          else
            let? idToken := exchangeOIDCCode (b_TokenUrl b) (b_ClientId b) code redirectURL verifier in
            match ExchangeCLISession (b_State b) idToken with
            | None => Err (EText "exchange session")
            | Some m =>
                match m_ExpiresAt m with
                | Some e =>
                    if bool_decide (m_AccessToken m = []) || bool_decide (m_RefreshToken m = []) then Err (EText "control returned an incomplete session")
                    else Ok (MkSession serverURL (m_AccessToken m) (m_RefreshToken m) e)
                | None => Err (EText "control returned an incomplete session")
                end
            end
      end
  end.

(** A sign-in gives a session only for the callback with the state of this login, whose
    code went to a token endpoint that is https or on this host. *)
Theorem login_bound serverURL redirectURL verifier begin_ wait Ex s :
  login serverURL redirectURL verifier begin_ wait Ex = Ok s ->
  exists b code idToken, begin_ = Some b /\ wait = Received code (b_State b) [] /\ b_State b <> [] /\ code <> [] /\
    validateServerURL Parse (b_TokenUrl b) = Ok (b_TokenUrl b) /\
    exchangeOIDCCode (b_TokenUrl b) (b_ClientId b) code redirectURL verifier = Ok idToken /\ idToken <> [] /\
    Ex (b_State b) idToken = Some (MkSessionMsg (AccessToken s) (RefreshToken s) (Some (ExpiresAt s))) /\
    ServerURL s = serverURL /\ AccessToken s <> [] /\ RefreshToken s <> [].
Proof.
  unfold login. destruct begin_ as [b|]; [|done]. destruct (negb (b_HasExpiry b)); [done|]. do 4 (case_bool_decide; [done|]). cbn [orb].
  destruct wait as [| |code state err]; [done..|]. case_bool_decide as E1; [|done]. case_bool_decide; [done|]. case_bool_decide as E2; [|done]. cbn [negb orb].
  destruct (exchangeOIDCCode _ _ _ _ _) as [idToken|] eqn:Ee; [|done]. cbn. destruct (Ex _ idToken) as [m|] eqn:Em; [|done].
  destruct m as [a r [e|]]; cbn; [|done]. do 2 (case_bool_decide; [done|]). cbn. intros [= <-]. exists b, code, idToken. subst. cbn.
  assert (validateServerURL Parse (b_TokenUrl b) = Ok (b_TokenUrl b) /\ idToken <> []) as [Hv Hi]; [|by split_and!].
  revert Ee. unfold exchangeOIDCCode. destruct (validateServerURL Parse (b_TokenUrl b)) as [u|] eqn:Ev; [|done]. intros Hx. split.
  - revert Ev. unfold validateServerURL. repeat case_match; try done.
  - revert Hx. destruct (Do _ _); [|done]. repeat (case_match; try done). case_bool_decide; try done. by intros [= <-].
Qed.
End Login.

End Cli.
