(* ===== verification/CliStore.v ===== *)
(** * Private files of the operator client

    On every host a credential file is replaced only by a complete new one, in a directory
    that was seen to be private, and read only when it was seen to be private; what was
    written is what is read. *)
From S2P Require Import Prelude Paths Exec HostProg Json RemoteFetch Cli.

Module CliStore.
Import Paths HostProg Json RemoteFetch Cli.

(** The log only grows. *)
Lemma wpg_log_grows {A} (ok : list HostProg.event -> forall X, call X -> Prop) (p : prog A) tr Q :
  wpg log_event ok p tr Q -> wpg log_event ok p tr (fun tr' a => tr ⊆ tr' /\ Q tr' a).
Proof.
  revert tr. induction p as [a|X c k IH]; intros tr; cbn [wpg]; [done|]. intros [Hok Hk]. split; [done|]. intros x.
  eapply wpg_mono; [|apply IH, Hk]. intros tr' a [Hs HQ]. split; [|done]. etransitivity; [|exact Hs]. unfold log_event. set_solver.
Qed.

Section Store.
Context (path : gostring) (data : gostring).

Definition dir_flags : list unix_flag := [U_RDONLY; U_DIRECTORY; U_CLOEXEC; U_NOFOLLOW].
Definition private_stat (tr : list HostProg.event) (t : file_type) (i : stat_t) : Prop :=
  st_type i = t /\ N.land (st_perm i) 63 = 0%N /\ exists euid : Z, EvOs OsGeteuid euid ∈ tr /\ st_uid i = (euid mod 4294967296)%Z.
(** The descriptor is of the directory of the file, opened without following a link and
    seen to be private. *)
Definition private_dir (tr : list HostProg.event) (d : nat) : Prop :=
  EvOs (OsUnix (UnixOpen (Dir path) dir_flags 0)) (Ok d) ∈ tr /\
  exists i, EvOs (OsUnix (UnixFstat d)) (Ok i) ∈ tr /\ private_stat tr S_IFDIR i.
Definition new_flags : list unix_flag := [U_WRONLY; U_CREAT; U_EXCL; U_CLOEXEC; U_NOFOLLOW].
(** The file was created by the program, for its owner only. *)
Definition created (tr : list HostProg.event) (d fd : nat) (n : gostring) : Prop :=
  EvOs (OsUnix (UnixOpenat d n new_flags 384)) (Ok fd) ∈ tr.
Definition complete_file (tr : list HostProg.event) (fd : nat) : Prop :=
  EvOs (OsUnix (UnixWrite fd data)) None ∈ tr /\ EvOs (OsUnix (UnixFsync fd)) None ∈ tr /\ EvOs (OsUnix (UnixClose fd)) None ∈ tr.
(** What is replaced was absent or a private file. *)
Definition replaceable (tr : list HostProg.event) (d : nat) (n : gostring) : Prop :=
  EvOs (OsUnix (UnixFstatat d n)) (Err U_ENOENT) ∈ tr \/ exists i, EvOs (OsUnix (UnixFstatat d n)) (Ok i) ∈ tr /\ private_stat tr S_IFREG i.

Definition store_os (tr : list HostProg.event) (o : os_op) : Prop :=
  match o with
  | OsMkdirAll p m => p = Dir path /\ m = 448%N
  | OsGeteuid | OsRand _ => True
  | OsUnix (UnixOpen p fl _) => p = Dir path /\ fl = dir_flags
  | OsUnix (UnixOpenat d n fl m) => private_dir tr d /\ (fl = new_flags /\ m = 384%N \/ fl = [U_RDONLY; U_CLOEXEC; U_NOFOLLOW] /\ n = Base path)
  | OsUnix (UnixWrite fd x) => x = data /\ exists d n, created tr d fd n
  | OsUnix (UnixRenameat d old new) => private_dir tr d /\ new = Base path /\ replaceable tr d new /\ exists fd, created tr d fd old /\ complete_file tr fd
  | OsUnix (UnixUnlinkat d n) => exists fd, created tr d fd n
  | OsUnix (UnixRead fd n) => (n = maxCredentialFileBytes + 1)%N /\ exists i, EvOs (OsUnix (UnixFstat fd)) (Ok i) ∈ tr /\ private_stat tr S_IFREG i
  | OsUnix _ => True
  | _ => False
  end.
Abbreviation wps := (wpg log_event (ok_os store_os)).

Ltac logged := repeat (apply elem_of_app; first [right; by apply list_elem_of_singleton | left]); try eassumption.

Lemma private_stat_mono tr tr' t i : tr ⊆ tr' -> private_stat tr t i -> private_stat tr' t i.
Proof. intros H (? & ? & e & He & ?). split_and!; [done|done|]. exists e. split; [by apply H|done]. Qed.
Lemma private_dir_mono tr tr' d : tr ⊆ tr' -> private_dir tr d -> private_dir tr' d.
Proof. intros H (Ho & i & Hi & Hp). split; [by apply H|]. exists i. split; [by apply H|by eapply private_stat_mono]. Qed.
Lemma replaceable_mono tr tr' d n : tr ⊆ tr' -> replaceable tr d n -> replaceable tr' d n.
Proof. intros H [Ho|(i & Hi & Hp)]; [left; by apply H|right]. exists i. split; [by apply H|by eapply private_stat_mono]. Qed.

(** One call, and what follows it with the longer log. *)
Lemma wps_call {A} o (k : os_ans o -> prog A) tr Q :
  store_os tr o -> (forall x, wps (k x) (tr ++ [EvOs o x]) Q) -> wps (bind (ask (COs o)) k) tr Q.
Proof. intros Ho Hk. cbn [bind ask wpg]. split; [done|]. intros x. apply Hk. Qed.

Lemma is_private_spec t i tr : wps (is_private t i) tr (fun tr' p => tr ⊆ tr' /\ (p = true -> private_stat tr' t i)).
Proof.
  apply wpg_log_grows. unfold is_private. destruct (_ || _) eqn:E; [done|]. apply orb_false_iff in E as [E1%negb_false_iff%bool_decide_eq_true E2%negb_false_iff%N.eqb_eq].
  apply wps_call; [done|]. intros euid. cbn [wpg]. intros He%Z.eqb_eq. split_and!; [done|done|]. exists euid. split; [logged|done].
Qed.

Lemma open_spec tr : wps (openPrivateDirectory (Dir path)) tr (fun tr' r => match r with Ok d => private_dir tr' d | Err _ => True end).
Proof.
  unfold openPrivateDirectory, unix. apply wps_call; [done|]. intros [fd|e]; [|done]. apply wps_call; [done|]. intros [info|e]; [|by apply wps_call].
  apply wpg_bind. eapply wpg_mono; [|apply is_private_spec]. intros tr' [] [Hs Hp]; [|by apply wps_call]. cbn [wpg]. split; [apply Hs; logged|].
  exists info. split; [apply Hs; logged|by apply Hp].
Qed.

Lemma create_credential n d tr : private_dir tr d ->
  wps (createTemporaryCredential n d) tr (fun tr' r => tr ⊆ tr' /\ match r with Ok (fd, name) => created tr' d fd name | Err _ => True end).
Proof.
  intros Hd. apply wpg_log_grows. revert tr Hd. induction n as [|n IH]; intros tr Hd; cbn [createTemporaryCredential]; [done|]. apply wps_call; [done|].
  intros [suffix|]; [|done]. unfold unix. apply wps_call; [split; [eapply private_dir_mono; [|exact Hd]; set_solver|by left]|].
  intros [fd|[| |m]]; [unfold created; logged| |done|done]. apply IH. eapply private_dir_mono; [|exact Hd]. set_solver.
Qed.

Lemma fill_allowed d fd tmp tr : private_dir tr d -> created tr d fd tmp -> replaceable tr d (Base path) ->
  wps (fill d fd tmp (Base path) data) tr (fun tr' r => tr ⊆ tr').
Proof.
  intros Hd Hc Hr. eapply (wpg_mono _ _ _ _ (fun tr' r => tr ⊆ tr' /\ True)); [by intros ? ? []|]. apply wpg_log_grows. unfold fill, unix.
  apply wps_call; [split; [done|by exists d, tmp]|]. intros [e|]; [done|]. apply wps_call; [done|]. intros [e|]; [done|].
  apply wps_call; [done|]. intros [e|]; [done|]. apply wps_call; [|intros [e|]; [done|]; apply wps_call; [done|]; by intros [e|]].
  assert (tr ⊆ ((tr ++ [EvOs (OsUnix (UnixWrite fd data)) None]) ++ [EvOs (OsUnix (UnixFsync fd)) None]) ++ [EvOs (OsUnix (UnixClose fd)) None]) as Hs by set_solver.
  split; [by eapply private_dir_mono|]. split; [done|]. split; [by eapply replaceable_mono|]. exists fd. split; [by apply Hs|]. split_and!; logged.
Qed.
Lemma cleanup_allowed d fd tmp r tr : created tr d fd tmp -> wps (cleanup d fd tmp r) tr (fun _ _ => True).
Proof.
  intros Hc. destruct r as [[es closed] renamed]. unfold cleanup. apply wpg_bind.
  eapply (wpg_mono _ _ _ _ (fun tr' _ => created tr' d fd tmp)); [|destruct closed; [done|]; unfold unix; cbn [ask wpg]; split; [done|]; intros x; unfold created, log_event; logged].
  intros tr' c Hc'. apply wpg_bind. destruct renamed; [done|]. unfold unix. cbn [ask wpg]. split; [by exists fd|done].
Qed.

Lemma replace_allowed d raw tr : (forall r, raw = Some r -> data = r ++ [NL]) -> private_dir tr d -> replaceable tr d (Base path) ->
  wps (replace_file d (Base path) raw) tr (fun _ _ => True).
Proof.
  intros Hraw Hd Hr. unfold replace_file. destruct raw as [r|]; [|done]. rewrite <- (Hraw r eq_refl). apply wpg_bind.
  eapply wpg_mono; [|by apply create_credential]. intros tr1 [[fd tmp]|e] [Hs Hc]; [|done].
  apply wpg_bind. eapply wpg_mono; [|apply fill_allowed; [by eapply private_dir_mono|exact Hc|by eapply replaceable_mono]].
  intros tr2 res Hs2. apply cleanup_allowed. by apply Hs2.
Qed.

Lemma closing_allowed d p tr : wps p tr (fun _ _ => True) -> wps (closing d p) tr (fun _ _ => True).
Proof. intros H. unfold closing. apply wpg_bind. eapply wpg_mono; [|exact H]. intros tr' es _. unfold unix. by apply wps_call. Qed.

Lemma write_spec raw : (forall r, raw = Some r -> data = r ++ [NL]) -> wps (writePrivateJSON path raw) [] (fun _ _ => True).
Proof.
  intros Hraw. unfold writePrivateJSON. apply wps_call; [done|]. intros [e|]; [done|]. apply wpg_bind. eapply wpg_mono; [|apply open_spec].
  intros tr [d|es] Hd; [|done]. apply closing_allowed. destruct (bad_name _); [done|]. unfold unix. apply wps_call; [done|].
  assert (forall x, tr ⊆ tr ++ [EvOs (OsUnix (UnixFstatat d (Base path))) x]) as Hs by (intros x; set_solver).
  intros [i|[| |m]]; [|done| |done].
  - apply wpg_bind. eapply wpg_mono; [|apply is_private_spec]. intros tr' [] [Hs' Hp]; [|done].
    apply replace_allowed; [done|eapply private_dir_mono; [|exact Hd]; by etransitivity; [apply Hs|exact Hs']|].
    right. exists i. split; [apply Hs'; logged|by apply Hp].
  - apply replace_allowed; [done|by eapply private_dir_mono; [apply Hs|]|]. left. logged.
Qed.

Lemma read_checked_spec fd tr : wps (read_checked fd) tr (fun _ _ => True).
Proof.
  unfold read_checked, unix. apply wps_call; [done|]. intros [i|e]; [|done]. apply wpg_bind. eapply wpg_mono; [|apply is_private_spec].
  intros tr' [] [Hs Hp]; cbn [negb]; [|done]. apply wps_call; [|done]. split; [done|]. exists i. split; [apply Hs; logged|by apply Hp].
Qed.
Lemma read_spec {A} (decode : gostring -> option A) : wps (readPrivateJSON decode path) [] (fun _ _ => True).
Proof.
  unfold readPrivateJSON. apply wpg_bind. eapply wpg_mono; [|apply open_spec]. intros tr [d|es] Hd; [|done]. apply wpg_bind.
  eapply (wpg_mono _ _ _ _ (fun _ _ => True)); [intros tr' r _; unfold unix; by apply wps_call|].
  destruct (bad_name _); [done|]. unfold unix. apply wps_call; [split; [done|by right]|]. intros [fd|e]; [|done].
  apply wpg_bind. eapply wpg_mono; [|apply read_checked_spec]. intros tr' raw _. by apply wps_call.
Qed.
End Store.

(** On every host: the directory is opened without following a link and must be private to
    the user before anything is created, read or replaced in it; the new content goes to a
    file created for the user alone, which takes the place of the old one only after all of
    it was written, synced and closed, and only when what it replaces was absent or
    private; nothing else is removed. *)
Theorem write_confined {S} (h : handler S) s path raw pre o a post :
  history h s (writePrivateJSON path (Some raw)) = pre ++ EvOs o a :: post -> store_os path (raw ++ [NL]) pre o.
Proof.
  intros Hh. destruct (wpg_run log_event (ok_os (store_os path (raw ++ [NL]))) h s _ _ _ (write_spec path (raw ++ [NL]) (Some raw) ltac:(by intros r [= ->]))) as [Hok _].
  exact (ghost_ok_os _ h s _ [] pre o a post Hok Hh).
Qed.
(** A file is read only after its descriptor was seen to be of a private file. *)
Theorem read_confined {S A} (h : handler S) s path (decode : gostring -> option A) pre o a post :
  history h s (readPrivateJSON decode path) = pre ++ EvOs o a :: post -> store_os path [] pre o.
Proof.
  intros Hh. destruct (wpg_run log_event (ok_os (store_os path [])) h s _ _ _ (read_spec path [] decode)) as [Hok _].
  exact (ghost_ok_os _ h s _ [] pre o a post Hok Hh).
Qed.
Definition home_path : gostring := str "/home/u/.config/powermanage/session.json".
Lemma write_confined_witness :
  store_os home_path (str "{}" ++ [NL]) [EvOs (OsMkdirAll (Dir home_path) 448) None] (OsUnix (UnixOpen (Dir home_path) dir_flags 0)).
Proof.
  apply (write_confined (fun X s c => match c in call X return unit * X with
      | COs (OsMkdirAll _ _) => (s, None)
      | c => command_host (fun s _ _ => (s, (Exec.no_result, None))) absent absent _ s c end) tt home_path (str "{}") _ (OsUnix (UnixOpen (Dir home_path) dir_flags 0)) (Err U_ENOENT) []).
  reflexivity.
Defined.

(** ** What was written is what is read *)

Section Roundtrip.
Context (Parse : gostring -> option URL) (FormatTime : Z -> option gostring) (ParseTime : gostring -> option Z) (Marshal : json -> gostring).
Context (Htime : forall t x, FormatTime t = Some x -> ParseTime x = Some t /\ text x)
        (Hjson : forall kvs, printable (JObj kvs) -> textual (JObj kvs) -> parse (Marshal (JObj kvs) ++ [NL]) = Some (JObj kvs)).

Lemma session_fields u a r e (kvs := [(str "server_url", u); (str "access_token", a); (str "refresh_token", r); (str "expires_at", e)]) :
  known_keys [str "server_url"; str "access_token"; str "refresh_token"; str "expires_at"] kvs = true /\
  field kvs (str "server_url") = Some u /\ field kvs (str "access_token") = Some a /\ field kvs (str "refresh_token") = Some r /\ field kvs (str "expires_at") = Some e.
Proof. split_and!; by_eval. Qed.
(** Neither the server's address nor a token has an invalid encoding, which JSON cannot carry. *)
Definition carried (s : sessionFile) : Prop := text (ServerURL s) /\ text (AccessToken s) /\ text (RefreshToken s).
Lemma session_roundtrip s raw : carried s -> encode_session FormatTime Marshal s = Some raw -> decode_session ParseTime (raw ++ [NL]) = Some s.
Proof.
  intros (Hu & Ha & Hr). unfold encode_session. destruct (FormatTime (ExpiresAt s)) as [t|] eqn:Et; [|done]. intros [= <-].
  destruct (Htime _ _ Et) as [Hp Ht]. unfold decode_session.
  rewrite Hjson by (first [apply printable_obj; by repeat constructor|apply textual_obj; repeat constructor; (by apply textual_str) || by apply text_ascii]).
  pose proof (session_fields (JStr (ServerURL s)) (JStr (AccessToken s)) (JStr (RefreshToken s)) (JStr t)) as Hf. cbv zeta in Hf.
  set (kvs := [(_, JStr (ServerURL s)); _; _; _]) in *. clearbody kvs. cbn [mbind option_bind dec_object]. destruct Hf as (-> & -> & -> & -> & ->).
  cbn [dec_str dec_time mbind option_bind]. rewrite Hp. by destruct s.
Qed.

(** A file system with the private directory: its files, what each open file is of, and the
    random bytes that come next. *)
#[local] Instance unix_flag_eq : EqDecision unix_flag.
Proof. solve_decision. Defined.
Record box := MkBox { files : gmap gostring gostring; opened : gmap nat gostring; suffix : gostring }.
Definition my_stat (t : file_type) : stat_t := MkStat t (if bool_decide (t = S_IFDIR) then 448 else 384) 1000.
Definition box_unix (b : box) (o : unix_op) : box * unix_ans o :=
  match o with
  | UnixOpen _ _ _ => (b, Ok 0)
  | UnixOpenat _ n fl _ =>
      match files b !! n with
      | Some _ => if bool_decide (U_EXCL ∈ fl) then (b, Err U_EEXIST) else (MkBox (files b) (<[1 := n]> (opened b)) (suffix b), Ok 1)
      | None => if bool_decide (U_CREAT ∈ fl) then (MkBox (<[n := []]> (files b)) (<[1 := n]> (opened b)) (suffix b), Ok 1) else (b, Err U_ENOENT)
      end
  | UnixFstat fd => (b, Ok (my_stat (match fd with 0 => S_IFDIR | _ => S_IFREG end)))
  | UnixFstatat _ n => (b, match files b !! n with Some _ => Ok (my_stat S_IFREG) | None => Err U_ENOENT end)
  | UnixRenameat _ old new =>
      match files b !! old with
      | Some x => (MkBox (<[new := x]> (delete old (files b))) (opened b) (suffix b), None)
      | None => (b, Some U_ENOENT)
      end
  | UnixUnlinkat _ n => (MkBox (delete n (files b)) (opened b) (suffix b), None)
  | UnixFsync _ => (b, None)
  | UnixClose fd => (MkBox (files b) (delete fd (opened b)) (suffix b), None)
  | UnixWrite fd x =>
      match opened b !! fd with
      | Some n => (MkBox (<[n := default [] (files b !! n) ++ x]> (files b)) (opened b) (suffix b), None)
      | None => (b, Some (U_Err []))
      end
  | UnixRead fd limit =>
      (b, match opened b !! fd with Some n => Ok (take (N.to_nat limit) (default [] (files b !! n))) | None => Err (U_Err []) end)
  end.
Definition box_host : handler box :=
  fun X s c => match c in call X return box * X with
  | COs o => match o return box * os_ans o with
             | OsUnix o => box_unix s o
             | OsMkdirAll _ _ => (s, None)
             | OsGeteuid => (s, 1000%Z)
             | OsRand _ => (s, Some (suffix s))
             | o => (s, os_absent o)
             end
  | c => command_host (fun s _ _ => (s, (Exec.no_result, None))) absent absent _ s c
  end.

Lemma run_unix {A} b o (k : unix_ans o -> prog A) :
  run box_host b (bind (unix o) k) = run box_host (box_unix b o).1 (k (box_unix b o).2).
Proof. unfold unix. cbn [bind ask run box_host]. by destruct (box_unix b o). Qed.
Lemma is_private_run b t : run box_host b (is_private t (my_stat t)) = (b, true).
Proof. unfold is_private, my_stat. cbn [st_type st_perm]. rewrite bool_decide_true by done. by case_bool_decide. Qed.
Lemma open_run b p : run box_host b (openPrivateDirectory p) = (b, Ok 0).
Proof.
  unfold openPrivateDirectory. rewrite !run_unix. cbn [box_unix fst snd]. rewrite run_unix. cbn [box_unix fst snd]. by rewrite run_bind, is_private_run.
Qed.

Lemma replace_run b name raw (tmp := str ".powermanage-" ++ RemoteTree.RemoteTree.hex (suffix b)) :
  files b !! tmp = None -> tmp <> name ->
  exists op, run box_host b (replace_file 0 name (Some raw)) = (MkBox (<[name := raw ++ [NL]]> (files b)) op (suffix b), []).
Proof.
  intros Ht Hn. destruct b as [fs op sf]. cbn [files opened suffix] in *. unfold replace_file. rewrite run_bind.
  assert (exists op', run box_host (MkBox fs op sf) (createTemporaryCredential 100 0) = (MkBox (<[tmp := []]> fs) (<[1 := tmp]> op') sf, Ok (1, tmp))) as [op' ->].
  { exists op. cbn [createTemporaryCredential bind ask run box_host suffix]. fold tmp. rewrite run_unix. cbn [box_unix files opened suffix]. by rewrite Ht. }
  clearbody tmp. cbn [fst snd]. rewrite run_bind. unfold fill.
  rewrite run_unix. cbn [box_unix opened files suffix]. rewrite lookup_insert_eq. cbn [fst snd files opened suffix]. rewrite lookup_insert_eq. cbn [default from_option app].
  rewrite run_unix. cbn [box_unix fst snd]. rewrite run_unix. cbn [box_unix fst snd files opened suffix]. rewrite run_unix. cbn [box_unix files opened suffix].
  rewrite lookup_insert_eq. cbn [fst snd]. rewrite run_unix. cbn [box_unix fst snd run cleanup bind opt_err app files suffix]. eexists. f_equal. f_equal.
  f_equal. rewrite insert_insert_eq. by rewrite delete_insert_id.
Qed.

Lemma read_checked_run b n x : opened b !! 1 = Some n -> files b !! n = Some x -> (N.of_nat (length x) <= maxCredentialFileBytes)%N ->
  run box_host b (read_checked 1) = (b, Ok x).
Proof.
  intros Ho Hf Hx. unfold read_checked. rewrite run_unix. cbn [box_unix fst snd]. rewrite run_bind, is_private_run. cbn [fst snd negb].
  rewrite run_unix. cbn [box_unix fst snd run]. rewrite Ho, Hf. cbn [default from_option]. change (id x) with x.
  rewrite take_ge by (pose proof (N2Nat.id (maxCredentialFileBytes + 1)); lia). by rewrite (proj2 (N.ltb_ge _ _)) by done.
Qed.

End Roundtrip.

(** *** An instance *)

Definition dec_time_text (z : Z) : option gostring := if decide (0 <= z <= int_max)%Z then Some (int_lit z) else None.
Definition some_url (raw : gostring) : option URL := Some (MkURL (str "https") [] (str "h") false [] [] (str "h")).
Definition some_session : sessionFile := MkSession (str "https://h") (str "a") (str "r") 5.

End CliStore.
