(* ===== verification/CliSession.v ===== *)
(** * Concurrent commands of the operator client

    Every command is a process of its own; they share the session file and the lock.  A
    step is one access to the file, the lock or the server, in the order of
    [callAuthenticated], [currentSession], [refreshSession], [login] and the logout command;
    the server may fail in any way, and whether it issued a token a second time is recorded. *)
From S2P Require Import Prelude HostProg Cli.

Module CliSession.
Import Cli.

Section Protocol.
Context (Parse : gostring -> option URL).

Definition refreshSkew : Z := 30000000000.
Definition fresh (now : Z) (s : sessionFile) : bool := (now + refreshSkew <? ExpiresAt s)%Z.
(** A typed detail of an error; the others do not matter. *)
Definition isExpiredTokenError (unauthenticated : bool) (details : list (option gostring)) : bool :=
  unauthenticated && existsb (fun d => bool_decide (d = Some (str "token_expired"))) details.

(** Where a process is.  [force] and [second]: after the server said that the token is
    expired. *)
Inductive pc :=
| Start
| Waiting (force : bool)
| Locked (force : bool)
| Exchanging (force : bool) (s : sessionFile)
| Writing (force : bool) (s : sessionFile)
| Unlocking (force : bool) (r : option sessionFile)
| Calling (second : bool) (s : sessionFile)
| LogoutStart
| LogoutCalling (s : sessionFile)
| LogoutRemoving
| LoginStart
| LoginWriting (s : sessionFile)
| Finished.

(** The file; who holds the lock; the refresh tokens the server has issued, those it has
    exchanged for new ones, those that the RefreshToken RPC was sent in order (and whether it
    exchanged them), those that the Logout RPC was sent in order; whether an answer of the
    server or a write was lost; whether the server issued a token that it had issued before. *)
Record shared := MkShared {
  file : option sessionFile; holder : option nat; issued : list gostring; exchanged : list gostring;
  sent : list (gostring * bool); ended : list gostring; lost : bool; reissued : bool
}.
Definition state : Type := shared * (nat -> pc).
Definition upd (f : nat -> pc) (i : nat) (p : pc) : nat -> pc := fun j => if decide (j = i) then p else f j.

Definition set_file (g : shared) (x : option sessionFile) : shared :=
  MkShared x (holder g) (issued g) (exchanged g) (sent g) (ended g) (lost g) (reissued g).
Definition set_holder (g : shared) (h : option nat) : shared :=
  MkShared (file g) h (issued g) (exchanged g) (sent g) (ended g) (lost g) (reissued g).
Definition set_lost (g : shared) : shared :=
  MkShared (file g) (holder g) (issued g) (exchanged g) (sent g) (ended g) true (reissued g).
Definition send (g : shared) (t : gostring) (ok : bool) : shared :=
  MkShared (file g) (holder g) (issued g) (if ok then t :: exchanged g else exchanged g) (sent g ++ [(t, ok)]) (ended g) (lost g) (reissued g).
Definition end_ (g : shared) (t : gostring) : shared :=
  MkShared (file g) (holder g) (issued g) (exchanged g) (sent g) (ended g ++ [t]) (lost g) (reissued g).
Definition issue (g : shared) (t : gostring) : shared :=
  MkShared (file g) (holder g) (t :: issued g) (exchanged g) (sent g) (ended g) (lost g) (reissued g || bool_decide (t ∈ issued g)).

Definition stored (g : shared) (s : sessionFile) : Prop := file g = Some s /\ usable Parse s = true.

Inductive step1 (i : nat) : shared -> pc -> shared -> pc -> Prop :=
(** [currentSession] without [forceRefresh] *)
| start_fresh g s now : stored g s -> fresh now s = true -> step1 i g Start g (Calling false s)
| start_stale g s now : stored g s -> fresh now s = false -> step1 i g Start g (Waiting false)
| start_fails g : step1 i g Start g Finished
(** [refreshSession] *)
| lock_ok g f : holder g = None -> step1 i g (Waiting f) (set_holder g (Some i)) (Locked f)
| lock_fails g f : step1 i g (Waiting f) g Finished
| locked_fresh g s now : stored g s -> fresh now s = true -> step1 i g (Locked false) g (Unlocking false (Some s))
| locked_stale g f s now : stored g s -> f || negb (fresh now s) = true -> step1 i g (Locked f) g (Exchanging f s)
| locked_fails g f : step1 i g (Locked f) g (Unlocking f None)
| exchange_ok g f s a r e : a <> [] -> r <> [] ->
    step1 i g (Exchanging f s) (issue (send g (RefreshToken s) true) r) (Writing f (MkSession (ServerURL s) a r e))
| exchange_error g f s : step1 i g (Exchanging f s) (send g (RefreshToken s) false) (Unlocking f None)
(** the answer is incomplete or does not arrive *)
| exchange_lost g f s : step1 i g (Exchanging f s) (set_lost (send g (RefreshToken s) true)) (Unlocking f None)
| write_ok g f s : usable Parse s = true -> step1 i g (Writing f s) (set_file g (Some s)) (Unlocking f (Some s))
| write_fails g f s : step1 i g (Writing f s) (set_lost g) (Unlocking f None)
(** the file was replaced but the directory not synced *)
| write_unsynced g f s : step1 i g (Writing f s) (set_lost (set_file g (Some s))) (Unlocking f None)
| unlock_call g f s : step1 i g (Unlocking f (Some s)) (set_holder g None) (Calling f s)
| unlock_end g f : step1 i g (Unlocking f None) (set_holder g None) Finished
(** [callAuthenticated] *)
| call_done g b s : step1 i g (Calling b s) g Finished
| call_expired g s : step1 i g (Calling false s) g (Waiting true)
(** the logout command *)
| logout_read g s : stored g s -> step1 i g LogoutStart g (LogoutCalling s)
| logout_none g : step1 i g LogoutStart g Finished
| logout_ok g s : step1 i g (LogoutCalling s) (end_ g (RefreshToken s)) LogoutRemoving
| logout_fails g s : step1 i g (LogoutCalling s) (end_ g (RefreshToken s)) Finished
| logout_remove g : step1 i g LogoutRemoving (set_file g None) Finished
| remove_fails g : step1 i g LogoutRemoving g Finished
(** the end of [login]: the server gives it a session, which it stores *)
| login_issue g u a r e : step1 i g LoginStart (issue g r) (LoginWriting (MkSession u a r e))
| login_write g s : usable Parse s = true -> step1 i g (LoginWriting s) (set_file g (Some s)) Finished
| login_fails g s : step1 i g (LoginWriting s) (set_lost g) Finished
| login_unsynced g s : step1 i g (LoginWriting s) (set_lost (set_file g (Some s))) Finished.

Inductive step : state -> state -> Prop :=
| step_process i g g' f p : step1 i g (f i) g' p -> step (g, f) (g', upd f i p).

(** Commands that begin: a login has tokens of its own, which nobody else has. *)
Definition token_of (p : pc) : option gostring :=
  match p with LoginWriting s | Writing _ s => Some (RefreshToken s) | _ => None end.
Definition in_critical (p : pc) : Prop :=
  match p with Locked _ | Exchanging _ _ | Writing _ _ | Unlocking _ _ => True | _ => False end.
Definition initial (st : state) : Prop :=
  let '(g, f) := st in
  holder g = None /\ exchanged g = [] /\ sent g = [] /\ lost g = false /\ reissued g = false /\
  (forall s, file g = Some s -> RefreshToken s ∈ issued g) /\
  (forall i, match f i with
             | Start | LogoutStart | LoginStart => True
             | LoginWriting s => (RefreshToken s ∈ issued g) /\ (forall x, file g = Some x -> RefreshToken x <> RefreshToken s)
             | _ => False
             end) /\
  (forall i j t, token_of (f i) = Some t -> token_of (f j) = Some t -> i = j).

(** ** The invariant *)

(** The holder of the lock is the process between taking and releasing it. *)
Definition lock_held (st : state) : Prop := forall i, in_critical (st.2 i) <-> holder st.1 = Some i.
Record inv (st : state) : Prop := MkInv {
  inv_lock : lock_held st;
  (** every token in use was issued *)
  inv_file : forall s, file st.1 = Some s -> RefreshToken s ∈ issued st.1;
  inv_exch : forall t, t ∈ exchanged st.1 -> t ∈ issued st.1;
  inv_held : forall i t, token_of (st.2 i) = Some t -> (t ∈ issued st.1) /\ (t ∉ exchanged st.1) /\ (forall s, file st.1 = Some s -> RefreshToken s <> t);
  inv_ex : forall i f s, st.2 i = Exchanging f s -> (RefreshToken s ∈ issued st.1) /\ (RefreshToken s ∉ exchanged st.1) /\ (forall j, token_of (st.2 j) <> Some (RefreshToken s));
  inv_one : forall i j t, token_of (st.2 i) = Some t -> token_of (st.2 j) = Some t -> i = j;
  (** the file has an exchanged token only while its successor is being written *)
  inv_cur : forall s, file st.1 = Some s -> RefreshToken s ∈ exchanged st.1 -> exists i f x, holder st.1 = Some i /\ st.2 i = Writing f x;
  (** no token was sent after it was exchanged *)
  inv_sent : forall a t r b, sent st.1 = a ++ (t, r) :: b -> (t, true) ∉ a;
  inv_log : forall t, (t, true) ∈ sent st.1 -> t ∈ exchanged st.1
}.

Lemma upd_here f i p : upd f i p i = p.
Proof. unfold upd. by rewrite decide_True. Qed.
Lemma upd_other f i p j : j <> i -> upd f i p j = f j.
Proof. intros H. unfold upd. by rewrite decide_False. Qed.

Lemma initial_inv st : initial st -> inv st.
Proof.
  destruct st as [g f]. intros (Hh & He & Hs & _ & _ & Hf & Hp & Ho). split; cbn [fst snd].
  - intros i. cbn [fst snd]. rewrite Hh. split; [|done]. specialize (Hp i). destruct (f i); done.
  - done.
  - rewrite He. by intros t ?%not_elem_of_nil.
  - intros i t Ht. rewrite He. specialize (Hp i). destruct (f i); try done. cbn in Ht. injection Ht as <-. destruct Hp. split_and!; [done|apply not_elem_of_nil|done].
  - intros i b s Hi. specialize (Hp i). by rewrite Hi in Hp.
  - done.
  - rewrite He. by intros s _ ?%not_elem_of_nil.
  - rewrite Hs. by intros [].
  - rewrite Hs. by intros t ?%not_elem_of_nil.
Qed.

Lemma lock_step i g g' f p : lock_held (g, f) -> step1 i g (f i) g' p -> lock_held (g', upd f i p).
Proof.
  intros Hl Hstep j. cbn [fst snd]. specialize (Hl j) as Hj. specialize (Hl i) as Hi. cbn [fst snd] in *. unfold upd. case_decide as E; [subst j|].
  - clear Hj. remember (f i) as q eqn:Eq. clear Eq. inversion Hstep; subst; cbn in *; naive_solver.
  - remember (f i) as q eqn:Eq. clear Eq. inversion Hstep; subst; cbn in *; naive_solver.
Qed.

(** Steps that neither send nor store a token. *)
Lemma calm_step g g' f i p : inv (g, f) -> lock_held (g', upd f i p) ->
  issued g' = issued g -> exchanged g' = exchanged g -> sent g' = sent g -> (forall s, file g' = Some s -> file g = Some s) -> token_of p = None ->
  (forall b s, p = Exchanging b s -> (RefreshToken s ∈ issued g) /\ (RefreshToken s ∉ exchanged g) /\ (forall j, token_of (f j) <> Some (RefreshToken s))) ->
  (forall s, file g' = Some s -> RefreshToken s ∈ exchanged g -> exists k b x, holder g' = Some k /\ k <> i /\ f k = Writing b x) ->
  inv (g', upd f i p).
Proof.
  intros [_ Hf He Hh Hx Ho Hc Hs Hg] Hl Ei Ee Es Ef Ht Hp Hw. split; cbn [fst snd] in *; rewrite ?Ei, ?Ee, ?Es; try done.
  - auto.
  - intros j t. destruct (decide (j = i)) as [->|]; [rewrite upd_here, Ht; done|rewrite upd_other by done]. intros Hj. destruct (Hh j t Hj) as (? & ? & ?). auto.
  - intros j b s Hj. assert ((RefreshToken s ∈ issued g) /\ (RefreshToken s ∉ exchanged g) /\ (forall j, token_of (f j) <> Some (RefreshToken s))) as (? & ? & H).
    { destruct (decide (j = i)) as [->|]; [rewrite upd_here in Hj; by eapply Hp|rewrite upd_other in Hj by done; by eapply Hx]. }
    split_and!; [done|done|]. intros k. destruct (decide (k = i)) as [->|]; [by rewrite upd_here, Ht|rewrite upd_other by done; apply H].
  - intros j k t. unfold upd. repeat case_decide; rewrite ?Ht; try done. apply Ho.
  - intros s H1 H2. destruct (Hw s H1 H2) as (k & b & x & Hk & Hne & Hwk). exists k, b, x. split; [done|]. by rewrite upd_other.
Qed.

(** When a process that is not writing holds the lock, or nobody does, the stored token
    was not exchanged. *)
Lemma stored_current g f s i : inv (g, f) -> file g = Some s -> (holder g = Some i -> forall b x, f i <> Writing b x) -> holder g = Some i \/ holder g = None -> RefreshToken s ∉ exchanged g.
Proof. intros H Hs Hn Hd Hx. destruct (inv_cur _ H s Hs Hx) as (k & b & x & Hk & Hw). cbn [fst snd] in *. destruct Hd as [Hd|Hd]; rewrite Hk in Hd; [|done]. injection Hd as ->. by eapply Hn. Qed.
Lemma other_writer g f s i : inv (g, f) -> file g = Some s -> RefreshToken s ∈ exchanged g -> (forall b x, f i <> Writing b x) ->
  exists k b x, holder g = Some k /\ k <> i /\ f k = Writing b x.
Proof. intros H Hs Hx Hn. destruct (inv_cur _ H s Hs Hx) as (k & b & x & Hk & Hw). exists k, b, x. split_and!; [done| |done]. intros ->. by eapply Hn. Qed.

Lemma exchange_error_step g f i b s : inv (g, f) -> f i = Exchanging b s -> inv (send g (RefreshToken s) false, upd f i (Unlocking b None)).
Proof.
  intros H Hi. pose proof (lock_step i g _ f _ (inv_lock _ H) ltac:(rewrite Hi; apply exchange_error)) as Hl.
  assert (inv (g, upd f i (Unlocking b None))) as [_ Hf He Hh Hx Ho Hc Hs Hg].
  { apply (calm_step g g); try done. intros x Hfx Hex. apply (other_writer g f x i); try done. by rewrite Hi. }
  split; cbn [fst snd send file issued exchanged sent holder] in *; try done.
  - intros a t r c Hsent. destruct c as [|y c _] using rev_ind.
    + apply app_inj_tail in Hsent as [<- [= <- <-]]. intros Ht%Hg. by destruct (inv_ex _ H i b s Hi) as (_ & ? & _).
    + rewrite app_comm_cons, app_assoc in Hsent. apply app_inj_tail in Hsent as [Hsent _]. by eapply Hs.
  - intros t [Ht|Ht%list_elem_of_singleton]%elem_of_app; [by apply Hg|done].
Qed.

Lemma exchange_ok_step g f i b s a r e : inv (g, f) -> f i = Exchanging b s -> r ∉ issued g ->
  inv (issue (send g (RefreshToken s) true) r, upd f i (Writing b (MkSession (ServerURL s) a r e))).
Proof.
  intros H Hi Hr.
  destruct (inv_ex _ H i b s Hi) as (Hti & Htx & Hto). pose proof (inv_lock _ H) as Hlock. destruct H as [_ Hf He Hh Hx Ho Hc Hs Hg].
  cbn [fst snd] in *. assert (Hown : holder g = Some i) by (apply (Hlock i); cbn; by rewrite Hi).
  split; cbn [fst snd send issue file issued exchanged sent holder] in *.
  - intros j. cbn [fst snd send issue holder]. destruct (decide (j = i)) as [->|]; [by rewrite upd_here, Hown|rewrite upd_other by done; apply Hlock].
  - intros x Hx'. right. auto.
  - intros t [->|Ht]%elem_of_cons; [by right|right; auto].
  - intros j t. destruct (decide (j = i)) as [->|].
    + rewrite upd_here. cbn. intros [= <-]. split_and!; [by left| |intros x Hfx E; apply Hr; rewrite <- E; by apply Hf].
      intros [->|Hin]%elem_of_cons; [done|by apply Hr, He].
    + rewrite upd_other by done. intros Ht. destruct (Hh j t Ht) as (H1 & H2 & H3). split_and!; [by right| |done].
      intros [->|Hin]%elem_of_cons; [by apply (Hto j)|done].
  - intros j c x. destruct (decide (j = i)) as [->|Hne]; [by rewrite upd_here|]. rewrite upd_other by done. intros Hj. exfalso. apply Hne.
    assert (holder g = Some j) as Hj2 by (apply (Hlock j); cbn; by rewrite Hj). congruence.
  - intros j k t. unfold upd. repeat case_decide; subst; try done; cbn.
    + intros [= <-] Hk. exfalso. by apply Hr, (Hh k).
    + intros Hj [= <-]. exfalso. by apply Hr, (Hh j).
    + apply Ho.
  - intros x _ _. exists i, b. eexists. split; [done|]. by rewrite upd_here.
  - intros l t q c Hsent. destruct c as [|y c _] using rev_ind.
    + apply app_inj_tail in Hsent as [<- [= <- <-]]. by intros Ht%Hg.
    + rewrite app_comm_cons, app_assoc in Hsent. apply app_inj_tail in Hsent as [Hsent _]. by eapply Hs.
  - intros t [Ht|Ht%list_elem_of_singleton]%elem_of_app; [right; by apply Hg|injection Ht as ->; left].
Qed.

Lemma login_issue_step g f i u a r e : inv (g, f) -> f i = LoginStart -> r ∉ issued g ->
  inv (issue g r, upd f i (LoginWriting (MkSession u a r e))).
Proof.
  intros H Hi Hr. pose proof (lock_step i g _ f _ (inv_lock _ H) ltac:(rewrite Hi; apply (login_issue i g u a r e))) as Hl.
  destruct H as [_ Hf He Hh Hx Ho Hc Hs Hg]. cbn [fst snd] in *. split; cbn [fst snd issue file issued exchanged sent holder] in *; try done.
  - intros x Hx'. right. auto.
  - intros t Ht. right. auto.
  - intros j t. destruct (decide (j = i)) as [->|].
    + rewrite upd_here. cbn. intros [= <-]. split_and!; [by left|intros Hin; by apply Hr, He|intros x Hfx E; apply Hr; rewrite <- E; by apply Hf].
    + rewrite upd_other by done. intros Ht. destruct (Hh j t Ht) as (H1 & H2 & H3). split_and!; [by right|done|done].
  - intros j c x. destruct (decide (j = i)) as [->|Hne]; [by rewrite upd_here|]. rewrite upd_other by done. intros Hj.
    destruct (Hx j c x Hj) as (H1 & H2 & H3). split_and!; [by right|done|]. intros k. destruct (decide (k = i)) as [->|]; [|rewrite upd_other by done; apply H3].
    rewrite upd_here. cbn. intros [= E]. apply Hr. by rewrite E.
  - intros j k t. unfold upd. repeat case_decide; subst; try done; cbn.
    + intros [= <-] Hk. exfalso. by apply Hr, (Hh k).
    + intros Hj [= <-]. exfalso. by apply Hr, (Hh j).
    + apply Ho.
  - intros x Hfx Hex. destruct (Hc x Hfx Hex) as (k & b & y & Hk & Hw). exists k, b, y. split; [done|]. rewrite upd_other; [done|].
    intros ->. by rewrite Hi in Hw.
Qed.

(** A process stores the token that it alone has. *)
Lemma store_step g f i p s : inv (g, f) -> token_of (f i) = Some (RefreshToken s) -> token_of p = None -> (forall b x, p <> Exchanging b x) ->
  lock_held (set_file g (Some s), upd f i p) -> inv (set_file g (Some s), upd f i p).
Proof.
  intros [_ Hf He Hh Hx Ho Hc Hs Hg] Hi Hp Hpe Hl. destruct (Hh i _ Hi) as (Hti & Htx & Htf). cbn [fst snd] in *.
  split; cbn [fst snd set_file file issued exchanged sent holder] in *; try done.
  - by intros x [= <-].
  - intros j t. destruct (decide (j = i)) as [->|Hne]; [by rewrite upd_here, Hp|rewrite upd_other by done]. intros Hj. destruct (Hh j t Hj) as (? & ? & ?). split_and!; [done|done|].
    intros x [= <-] <-. by apply Hne, (Ho j i _ Hj).
  - intros j b x. destruct (decide (j = i)) as [->|Hne]; [rewrite upd_here; intros E; by apply Hpe in E|rewrite upd_other by done]. intros Hj. destruct (Hx j b x Hj) as (? & ? & H).
    split_and!; [done|done|]. intros k. destruct (decide (k = i)) as [->|]; [by rewrite upd_here, Hp|rewrite upd_other by done; apply H].
  - intros j k t. unfold upd. repeat case_decide; rewrite ?Hp; try done. apply Ho.
  - by intros x [= <-] ?.
Qed.

(** No answer and no write was lost, and no token was issued twice. *)
Definition faithful (g : shared) : Prop := lost g = false /\ reissued g = false.
Lemma issue_new g r : reissued (issue g r) = false -> r ∉ issued g.
Proof. cbn. intros [_ H]%orb_false_iff. by apply bool_decide_eq_false in H. Qed.

Lemma inv_step st st' : inv st -> step st st' -> faithful st'.1 -> inv st'.
Proof.
  intros H Hstep. destruct Hstep as [i g g' f p Hp]. cbn [fst]. intros [Hlost Hre].
  pose proof (lock_step i g g' f p (inv_lock _ H) Hp) as Hl. remember (f i) as q eqn:Eq. symmetry in Eq.
  destruct Hp; try discriminate Hlost;
    lazymatch goal with
    | |- inv (send _ _ _, _) => by apply exchange_error_step
    | |- inv (issue (send _ _ _) _, _) => apply issue_new in Hre; by apply exchange_ok_step
    | |- inv (issue _ _, _) => apply issue_new in Hre; by apply login_issue_step
    | |- inv (set_file _ (Some _), _) => apply store_step; [done|by rewrite Eq|done|done|done]
    | |- inv (end_ ?g _, upd f i ?p) =>
        apply (calm_step g _ f i p H Hl); try done; intros x Hx Hin; by apply (other_writer g f x i H Hx Hin); rewrite Eq
    | |- inv (_, upd _ _ (Exchanging _ _)) => idtac
    | |- inv (?g', upd f i ?p) =>
        apply (calm_step _ g' f i p H Hl); try done; intros x Hx Hin;
        lazymatch type of Hx with
        | file (set_file _ None) = _ => done
        | _ => first [ by apply (other_writer _ f x i); [done|done|done|rewrite Eq]
                     | exfalso; revert Hin; apply (stored_current _ f x i H Hx); [by rewrite Eq|] ]
        end
    end.
  - by right.
  - match goal with Hst : stored _ _ |- _ => destruct Hst as [Hst _] end.
    assert (Hown : holder g = Some i) by (apply (inv_lock _ H i); cbn; by rewrite Eq).
    assert (Hcur : forall x, file g = Some x -> RefreshToken x ∉ exchanged g) by (intros x Hx; apply (stored_current _ f x i H Hx); [by rewrite Eq|by left]).
    apply (calm_step g g f i _ H Hl); try done; [|intros x Hx Hin; by destruct (Hcur x Hx)].
    intros b x [= <- <-]. split_and!; [by apply (inv_file _ H)|by apply Hcur|]. intros j Hj. destruct (inv_held _ H j _ Hj) as (_ & _ & Hne). by apply (Hne s).
  - left. apply (inv_lock _ H i). cbn. by rewrite Eq.
  - left. apply (inv_lock _ H i). cbn. by rewrite Eq.
Qed.

(** ** What concurrent commands can rely on *)

Lemma unfaithful_stays i g q g' p : step1 i g q g' p -> faithful g' -> faithful g.
Proof. unfold faithful. intros []; cbn; rewrite ?orb_false_iff; naive_solver. Qed.
Lemma reachable_lock st st' : initial st -> rtc step st st' -> lock_held st'.
Proof.
  intros Hi%initial_inv%inv_lock H. induction H as [|st st1 st2 Hstep _ IH]; [done|]. apply IH. destruct Hstep as [i g g' f p Hp]. by eapply lock_step.
Qed.
Lemma session_inv st st' : initial st -> rtc step st st' -> faithful st'.1 -> inv st'.
Proof.
  intros Hi%initial_inv H. apply (rtc_ind_r (R := step) (fun s => faithful s.1 -> inv s) st); [done| |done].
  intros s1 s2 _ Hstep IH Hl. apply (inv_step s1); [apply IH|done|done].
  destruct Hstep as [i g g' f p Hp]. by eapply unfaithful_stays.
Qed.

(** Any number of commands at the same time, logins and logouts among them: only one of
    them refreshes at any moment, and as long as no answer of the server and no write of
    the session was lost and no token issued twice, a refresh token that the server has
    exchanged is never sent to it again for an exchange. *)
Theorem refresh_not_replayed st st' :
  initial st -> rtc step st st' ->
  (forall i j, in_critical (st'.2 i) -> in_critical (st'.2 j) -> i = j) /\
  (faithful st'.1 -> forall a t r b, sent st'.1 = a ++ (t, r) :: b -> (t, true) ∉ a).
Proof.
  intros Hi H. split.
  - intros i j. pose proof (reachable_lock _ _ Hi H) as Hl. rewrite (Hl i), (Hl j). intros ->. congruence.
  - intros Hl. apply (inv_sent _ (session_inv _ _ Hi H Hl)).
Qed.

(** *** Runs of two commands *)

Context (s0 s1 : sessionFile) (Hs0 : usable Parse s0 = true) (Hs1 : usable Parse s1 = true).
Context (a r : gostring) (e : Z) (Hs1' : s1 = MkSession (ServerURL s0) a r e) (Ha : a <> []) (Hr : r <> []).

(** The first command runs, the second is [p]. *)
Definition two (p : pc) : nat -> pc := fun i => match i with 1 => p | _ => Start end.
Definition before : shared := MkShared (Some s0) None [RefreshToken s0] [] [] [] false false.
Definition exchanging : shared := issue (send (set_holder before (Some 0)) (RefreshToken s0) true) r.

Lemma exchange_run f : f 0 = Start -> exists f', rtc step (before, f) (exchanging, f') /\ f' 0 = Writing false s1 /\ (forall j, j <> 0 -> f' j = f j).
Proof.
  intros H0. exists (upd (upd (upd (upd f 0 (Waiting false)) 0 (Locked false)) 0 (Exchanging false s0)) 0 (Writing false s1)). split_and!.
  - assert (fresh (ExpiresAt s0) s0 = false) as Hf by (apply Z.ltb_ge; unfold refreshSkew; lia).
    eapply rtc_l; [apply (step_process 0 before before f (Waiting false)); rewrite H0; by eapply start_stale|].
    eapply rtc_l; [apply (step_process 0 before (set_holder before (Some 0)) _ (Locked false)); rewrite upd_here; by apply lock_ok|].
    eapply rtc_l; [apply (step_process 0 _ (set_holder before (Some 0)) _ (Exchanging false s0)); rewrite upd_here; eapply (locked_stale _ _ _ _ (ExpiresAt s0)); [by split|by rewrite Hf]|].
    eapply rtc_l; [apply (step_process 0 _ exchanging _ (Writing false s1)); rewrite upd_here, Hs1'; by apply exchange_ok|reflexivity].
  - apply upd_here.
  - intros j Hj. by rewrite !upd_other.
Qed.
Lemma stored_run g f : f 0 = Writing false s1 -> rtc step (g, f) (set_file g (Some s1), upd f 0 (Unlocking false (Some s1))).
Proof. intros H. apply rtc_once, step_process. rewrite H. by apply write_ok. Qed.

(** A logout while another command refreshes takes no lock: it can give the server a token
    that was exchanged before, and a session is left behind. *)
Lemma logout_undone : exists g f, rtc step (before, two LogoutStart) (g, f) /\ f 1 = Finished /\ In (RefreshToken s0, true) (sent g) /\
  ended g = [RefreshToken s0] /\ file g = Some s1.
Proof.
  destruct (exchange_run (two LogoutStart) eq_refl) as (f' & Hrun & H0 & Hj). specialize (Hj 1 ltac:(done)). cbn in Hj.
  eexists _, _. split; [|split; [|split; [|split]]].
  - etransitivity; [exact Hrun|].
    eapply rtc_l; [apply (step_process 1 exchanging exchanging f' (LogoutCalling s0)); rewrite Hj; apply logout_read; by split|].
    eapply rtc_l; [apply (step_process 1 exchanging (end_ exchanging (RefreshToken s0)) _ LogoutRemoving); rewrite upd_here; apply logout_ok|].
    eapply rtc_l; [apply (step_process 1 _ (set_file (end_ exchanging (RefreshToken s0)) None) _ Finished); rewrite upd_here; apply logout_remove|].
    apply stored_run. by rewrite !upd_other.
  - rewrite upd_other by done. apply upd_here.
  - by left.
  - done.
  - done.
Qed.
(** A login that ends while another command refreshes is lost. *)
Lemma login_overwritten l : usable Parse l = true ->
  exists g f, rtc step (before, two (LoginWriting l)) (g, f) /\ f 1 = Finished /\ file g = Some s1.
Proof.
  intros Hl. destruct (exchange_run (two (LoginWriting l)) eq_refl) as (f' & Hrun & H0 & Hj). specialize (Hj 1 ltac:(done)). cbn in Hj.
  eexists _, _. split; [|split].
  - etransitivity; [exact Hrun|].
    eapply rtc_l; [apply (step_process 1 exchanging (set_file exchanging (Some l)) f' Finished); rewrite Hj; by apply login_write|].
    apply stored_run. by rewrite upd_other.
  - rewrite upd_other by done. apply upd_here.
  - done.
Qed.
End Protocol.

Lemma refresh_not_replayed_witness : exists (g : shared) (f : nat -> pc), (RefreshToken (MkSession (str "https://h") (str "a") (str "r") 5), true) ∈ sent g /\
  (forall i j, in_critical (f i) -> in_critical (f j) -> i = j) /\
  (faithful g -> forall a t r b, sent g = a ++ (t, r) :: b -> (t, true) ∉ a).
Proof.
  destruct (exchange_run (fun _ => Some (MkURL (str "https") [] (str "h") false [] [] (str "h"))) (MkSession (str "https://h") (str "a") (str "r") 5)
    (MkSession (str "https://h") (str "a2") (str "r2") 9) eq_refl eq_refl (str "a2") (str "r2") 9 eq_refl ltac:(done) ltac:(done) (fun _ => Start) eq_refl) as (f & Hrun & _).
  match type of Hrun with rtc _ _ (?g, _) => exists g, f end. split; [by left|]. refine (refresh_not_replayed _ _ _ _ Hrun). cbn. split_and!; try done.
  intros s [= <-]. by left.
Defined.
End CliSession.
