(* ===== verification/CliCommands.v ===== *)
(** * The commands of the operator client ([src/cmd/powermanage/main.go])

    The body of every command as a program over the session file, its lock, the clock, the
    input and output and the RPCs of the control server.  The programs refine the protocol
    of [CliSession], so that what holds there of concurrent processes holds of them.  The
    arguments and flags come parsed; the codecs of protobuf messages are parameters. *)
From S2P Require Import Prelude Json HostProg Cli CliSession.
Import Json.Json.

Module CliCommands.
Import Cli HostProg CliSession.

(** ** What a command asks for *)

Inductive file_rpc := CreateAction | CreateAssignment | CreateToken.
Inductive id_rpc := GetAction | DeleteAction | DeleteAssignment | GetToken | SetTokenDisabled (disabled : bool) | DeleteToken.
Inductive empty_rpc := ListActions | ListAssignments | ListTokens.

(** An error of an RPC, as [isExpiredTokenError] sees it. *)
Record rpc_error := MkRpcError { Unauthenticated : bool; Details : list (option gostring) }.
Definition expired (e : rpc_error) : bool := isExpiredTokenError (Unauthenticated e) (Details e).

Inductive cmd_error :=
| ELocal (es : list cli_error)
| ERpc (e : rpc_error)
| EMessage (what : string)
| EJoin (a b : cmd_error).

Section Commands.
(** Protobuf messages: the request of an RPC from ProtoJSON, and any response as ProtoJSON. *)
Context {message : Type} (Unmarshal : file_rpc + unit -> gostring -> option message) (Marshal : message -> option gostring).
(** [encoding/json] and the text of a time. *)
Context (MarshalJSON : json -> gostring) (FormatTime : Z -> option gostring).
(** [url.Parse], [base64.RawURLEncoding] and SHA-256. *)
Context (Parse : gostring -> option URL) (base64url sha256 : gostring -> gostring).

Inductive api :=
| FileRequest (m : file_rpc) (body : message)
| IdRequest (m : id_rpc) (id : gostring)
| EmptyRequest (m : empty_rpc)
| GetCurrentUser
| CreateIdentityProvider (body : message).

(** The calls: the session file with the clock that is read after it, its lock, the refresh and
    logout RPCs, every other RPC with its Authorization header, files, standard streams, the
    configuration, and what a sign-in needs. *)
Inductive op : Type -> Type :=
| OSession : op (result (list cli_error) sessionFile * Z)
| OMkdir : op (option cli_error)
| OOpenLock : op (option cli_error)
| OFlock : op (option cli_error)
| OCloseLock : op (option cli_error)
(** unlock, whose error is ignored, and close, which also unlocks *)
| ORelease : op (option cli_error)
| OWriteSession (s : sessionFile) : op (list cli_error)
(** [false] when there was no file *)
| ORemoveSession : op (result cli_error bool)
| ORefreshToken (server token : gostring) : op (result rpc_error (gostring * gostring * option Z))
| OLogout (server token : gostring) : op (option rpc_error)
| OCall (server authorization : gostring) (r : api) : op (result rpc_error message)
| OStdin (limit : N) : op (result cli_error gostring)
| OOpen (path : gostring) : op (option cli_error)
| ORead (limit : N) : op (result cli_error gostring)
| OClose : op (option cli_error)
| OPrint (out : gostring) : op (option cli_error)
| OPublicClient : op (result (list cli_error) gostring)
| OSetServer (url : gostring) : op (list cli_error)
(** the loopback listener with its address, the callback server on it, and the browser *)
| OListen (port : Z) : op (result cli_error gostring)
| OCloseListener : op (option cli_error)
| OServe : op unit
| OCloseServer : op (option cli_error)
| OOpenBrowser (url : gostring) : op (option cli_error)
| OShowURL (url : gostring) : op (option cli_error)
| OWait : op waited
(** [Shutdown], and an error that [Serve] has returned by then *)
| OShutdown : op (option cli_error)
| ORand (n : nat) : op (result cli_error gostring)
| OBeginCLILogin (server provider redirectURL challenge : gostring) : op (result rpc_error begin_msg)
(** a POST of a form to the identity provider *)
| OPostForm (url form : gostring) : op (result gostring http_response)
| OExchangeCLISession (server provider state idToken : gostring) : op (result rpc_error session_msg).

Inductive cprog (A : Type) : Type :=
| Done (a : A)
| Op {X : Type} (o : op X) (k : X -> cprog A).
Arguments Done {A} a.
Arguments Op {A X} o k.

Fixpoint cbind {A B} (p : cprog A) (f : A -> cprog B) : cprog B :=
  match p with Done a => f a | Op o k => Op o (fun x => cbind (k x) f) end.
Definition call {X} (o : op X) : cprog X := Op o Done.
Definition cbind_ok {A B} (p : cprog (result cmd_error A)) (f : A -> cprog (result cmd_error B)) : cprog (result cmd_error B) :=
  cbind p (fun r => match r with Ok a => f a | Err e => Done (Err e) end).

(** ** The session *)

Definition joined {A} (r : result cmd_error A) (c : option cli_error) : result cmd_error A :=
  match r, c with
  | Ok a, None => Ok a
  | Ok _, Some c => Err (ELocal [c])
  | Err e, None => Err e
  | Err e, Some c => Err (EJoin e (ELocal [c]))
  end.

Definition locked (force : bool) : cprog (result cmd_error sessionFile) :=
  cbind (call OSession) (fun '(r, now) =>
  match r with
  | Err es => Done (Err (ELocal es))
  | Ok session =>
      if negb force && fresh now session then Done (Ok session)
      else cbind (call (ORefreshToken (ServerURL session) (RefreshToken session))) (fun a =>
      match a with
      | Err e => Done (Err (ERpc e))
      | Ok (accessToken, refreshToken, expiresAt) =>
          match expiresAt with
          | Some e =>
              if bool_decide (accessToken = []) || bool_decide (refreshToken = [])
              then Done (Err (EMessage "control returned an incomplete refreshed session"))
              else
                let session := MkSession (ServerURL session) accessToken refreshToken e in
                cbind (call (OWriteSession session)) (fun w =>
                Done (match w with [] => Ok session | es => Err (ELocal es) end))
          | None => Done (Err (EMessage "control returned an incomplete refreshed session"))
          end
      end)
  end).

Definition refreshSession (force : bool) : cprog (result cmd_error sessionFile) :=
  cbind (call OMkdir) (fun m => match m with Some e => Done (Err (ELocal [e])) | None =>
  cbind (call OOpenLock) (fun o => match o with Some e => Done (Err (ELocal [e])) | None =>
  cbind (call OFlock) (fun l => match l with
    | Some e => cbind (call OCloseLock) (fun c => Done (joined (Err (ELocal [e])) c))
    | None => cbind (locked force) (fun r => cbind (call ORelease) (fun c => Done (joined r c)))
    end) end) end).

Definition currentSession (forceRefresh : bool) : cprog (result cmd_error sessionFile) :=
  if forceRefresh then refreshSession forceRefresh
  else cbind (call OSession) (fun '(r, now) =>
  match r with
  | Err es => Done (Err (ELocal es))
  | Ok session => if fresh now session then Done (Ok session) else refreshSession forceRefresh
  end).

Definition bearer (s : sessionFile) : gostring := str "Bearer " ++ AccessToken s.

Definition callAuthenticated (r : api) : cprog (result cmd_error message) :=
  cbind_ok (currentSession false) (fun session =>
  cbind (call (OCall (ServerURL session) (bearer session) r)) (fun response =>
  match response with
  | Ok m => Done (Ok m)
  | Err e =>
      if negb (expired e) then Done (Err (ERpc e))
      else cbind_ok (currentSession true) (fun session =>
           cbind (call (OCall (ServerURL session) (bearer session) r)) (fun response =>
           Done (match response with Ok m => Ok m | Err e => Err (ERpc e) end)))
  end)).

(** ** Input and output *)

(** [io.ReadAll] of one byte more than the limit, from where [read] reads. *)
Definition readProtoJSON (m : file_rpc + unit) (read : N -> op (result cli_error gostring)) : cprog (result cmd_error message) :=
  cbind (call (read (maxProtoJSONBytes + 1)%N)) (fun r =>
  Done (match r with
  | Err e => Err (ELocal [e])
  | Ok raw =>
      if (maxProtoJSONBytes <? N.of_nat (length raw))%N then Err (EMessage "ProtoJSON input is too large")
      else match Unmarshal m raw with Some b => Ok b | None => Err (EMessage "decode ProtoJSON") end
  end)).

Definition readProtoJSONFile (m : file_rpc + unit) (path : gostring) : cprog (result cmd_error message) :=
  if bool_decide (path = []) then Done (Err (EMessage "--file is required"))
  else if bool_decide (path = str "-") then readProtoJSON m OStdin
  else cbind (call (OOpen path)) (fun o => match o with
  | Some e => Done (Err (ELocal [e]))
  | None => cbind (readProtoJSON m ORead) (fun r => cbind (call OClose) (fun c => Done (joined r c)))
  end).

Definition print (out : gostring) : cprog (result cmd_error unit) :=
  cbind (call (OPrint out)) (fun e => Done (match e with Some e => Err (ELocal [e]) | None => Ok tt end)).
Definition writeProtoJSON (m : message) : cprog (result cmd_error unit) :=
  match Marshal m with None => Done (Err (EMessage "encode ProtoJSON")) | Some raw => print (raw ++ [NL]) end.

(** ** Signing in *)

Definition store_session (server : gostring) (m : session_msg) : cprog (result cmd_error unit) :=
  match m_ExpiresAt m with
  | Some e =>
      if bool_decide (m_AccessToken m = []) || bool_decide (m_RefreshToken m = []) then Done (Err (EMessage "control returned an incomplete session"))
      else cbind (call (OWriteSession (MkSession server (m_AccessToken m) (m_RefreshToken m) e))) (fun w =>
           Done (match w with [] => Ok tt | es => Err (ELocal es) end))
  | None => Done (Err (EMessage "control returned an incomplete session"))
  end.

(** From the callback to the session. *)
Definition exchange (server provider redirectURL verifier code : gostring) (b : begin_msg) : cprog (result cmd_error unit) :=
  match validateServerURL Parse (b_TokenUrl b) with
  | Err e => Done (Err (ELocal [e]))
  | Ok _ =>
      cbind (call (OPostForm (b_TokenUrl b) (token_form (b_ClientId b) code redirectURL verifier))) (fun r =>
      match exchangeOIDCCode Parse (fun _ _ => r) (b_TokenUrl b) (b_ClientId b) code redirectURL verifier with
      | Err e => Done (Err (ELocal [e]))
      | Ok idToken =>
          cbind (call (OExchangeCLISession server provider (b_State b) idToken)) (fun m =>
          match m with Err e => Done (Err (ERpc e)) | Ok m => store_session server m end)
      end)
  end.

Definition await (server provider redirectURL verifier : gostring) (b : begin_msg) : cprog (result cmd_error unit) :=
  cbind (call OWait) (fun w =>
  match w with
  | WaitCancelled => Done (Err (EMessage "cancelled"))
  | WaitTimedOut => Done (Err (EMessage "OIDC login timed out"))
  | Received code state oauthError =>
      cbind (call OShutdown) (fun e =>
      match e with
      | Some e => Done (Err (ELocal [e]))
      | None =>
          if negb (bool_decide (oauthError = [])) || bool_decide (code = []) || negb (bool_decide (state = b_State b))
          then Done (Err (EMessage "OIDC callback was rejected"))
          else exchange server provider redirectURL verifier code b
      end)
  end).

Definition browse (server provider redirectURL verifier : gostring) (b : begin_msg) : cprog (result cmd_error unit) :=
  cbind (call OServe) (fun _ =>
  cbind (call (OOpenBrowser (b_LoginUrl b))) (fun e =>
  match e with
  | None => await server provider redirectURL verifier b
  | Some _ =>
      cbind (call (OShowURL (b_LoginUrl b))) (fun w =>
      match w with Some e => Done (Err (ELocal [e])) | None => await server provider redirectURL verifier b end)
  end)).

Definition begin_incomplete (b : begin_msg) : bool :=
  negb (b_HasExpiry b) || bool_decide (b_State b = []) || bool_decide (b_LoginUrl b = []) || bool_decide (b_TokenUrl b = []) || bool_decide (b_ClientId b = []).
Definition redirect_of (addr : gostring) : gostring := str "http://" ++ addr ++ str "/callback".

(** [callbackResult], and the handler of the callback over the channel of one result: whether
    the request is taken, or answered with a conflict. *)
Record callbackResult := MkCallback { cb_code : gostring; cb_state : gostring; cb_error : gostring }.
Definition handle_callback (buffer : option callbackResult) (r : callbackResult) : option callbackResult * bool :=
  match buffer with None => (Some r, true) | Some b => (Some b, false) end.
Definition received (requests : list callbackResult) : option callbackResult :=
  fold_left (fun buffer r => fst (handle_callback buffer r)) requests None.

(** While the listener is open. *)
Definition listening (provider addr : gostring) : cprog (result cmd_error unit) :=
  cbind (call (ORand 32)) (fun r =>
  match r with
  | Err e => Done (Err (ELocal [e]))
  | Ok bytes =>
      let verifier := base64url bytes in
      let challenge := base64url (sha256 verifier) in
      cbind (call OPublicClient) (fun u =>
      match u with
      | Err es => Done (Err (ELocal es))
      | Ok server =>
          cbind (call (OBeginCLILogin server provider (redirect_of addr) challenge)) (fun m =>
          match m with
          | Err e => Done (Err (ERpc e))
          | Ok b =>
              if begin_incomplete b then Done (Err (EMessage "control returned an incomplete CLI login"))
              else cbind (browse server provider (redirect_of addr) verifier b) (fun r =>
                   cbind (call OCloseServer) (fun c => Done (joined r c)))
          end)
      end)
  end).

Definition login (provider : gostring) (callbackPort : Z) : cprog (result cmd_error unit) :=
  match parsePort (int_lit callbackPort) with
  | Err e => Done (Err (ELocal [e]))
  | Ok _ =>
      cbind (call (OListen callbackPort)) (fun l =>
      match l with
      | Err e => Done (Err (ELocal [e]))
      | Ok addr => cbind (listening provider addr) (fun r => cbind (call OCloseListener) (fun c => Done (joined r c)))
      end)
  end.

(** ** The commands *)

Inductive command :=
| ConfigSetServer (url : gostring)
| BootstrapOIDC (file : gostring) (tokenStdin : bool)
| Login (provider : gostring) (callbackPort : Z)
| AuthToken
| Whoami
| Logout
| FileRPC (m : file_rpc) (path : gostring)
| IdRPC (m : id_rpc) (id : gostring)
| EmptyRPC (m : empty_rpc).

Definition bootstrap_header (token : gostring) : gostring := str "PowerManage-Bootstrap " ++ token.

Definition bootstrapOIDC (file : gostring) (tokenStdin : bool) : cprog (result cmd_error unit) :=
  if negb tokenStdin then Done (Err (EMessage "--token-stdin is required"))
  else if bool_decide (file = str "-") then Done (Err (EMessage "--token-stdin and --file - cannot share stdin"))
  else cbind (call (OStdin 4097)) (fun r =>
  match r with
  | Err e => Done (Err (ELocal [e]))
  | Ok raw =>
      match readBootstrapToken raw with
      | Err e => Done (Err (ELocal [e]))
      | Ok token =>
          cbind_ok (readProtoJSONFile (inr tt) file) (fun body =>
          cbind (call OPublicClient) (fun u =>
          match u with
          | Err es => Done (Err (ELocal es))
          | Ok url =>
              cbind (call (OCall url (bootstrap_header token) (CreateIdentityProvider body))) (fun response =>
              match response with Err e => Done (Err (ERpc e)) | Ok m => writeProtoJSON m end)
          end))
      end
  end).

(** What [auth token] prints: never the refresh token. *)
Definition token_json (s : sessionFile) : option gostring :=
  match FormatTime (ExpiresAt s) with
  | None => None
  | Some t => Some (MarshalJSON (JObj [(str "server_url", JStr (ServerURL s)); (str "access_token", JStr (AccessToken s)); (str "expires_at", JStr t)]) ++ [NL])
  end.
Definition authToken : cprog (result cmd_error unit) :=
  cbind_ok (currentSession false) (fun session =>
  match token_json session with None => Done (Err (EMessage "encode token")) | Some out => print out end).

Definition logout : cprog (result cmd_error unit) :=
  cbind (call OSession) (fun '(r, _) =>
  match r with
  | Err es => Done (Err (ELocal es))
  | Ok session =>
      cbind (call (OLogout (ServerURL session) (RefreshToken session))) (fun e =>
      match e with
      | Some e => Done (Err (ERpc e))
      | None => cbind (call ORemoveSession) (fun r => Done (match r with Ok _ => Ok tt | Err e => Err (ELocal [e]) end))
      end)
  end).

Definition RunE (c : command) : cprog (result cmd_error unit) :=
  match c with
  | ConfigSetServer url => cbind (call (OSetServer url)) (fun es => Done (match es with [] => Ok tt | es => Err (ELocal es) end))
  | BootstrapOIDC file tokenStdin => bootstrapOIDC file tokenStdin
  | Login provider callbackPort => login provider callbackPort
  | AuthToken => authToken
  | Whoami => cbind_ok (callAuthenticated GetCurrentUser) writeProtoJSON
  | Logout => logout
  | FileRPC m path => cbind_ok (readProtoJSONFile (inl m) path) (fun body => cbind_ok (callAuthenticated (FileRequest m body)) writeProtoJSON)
  | IdRPC m id => cbind_ok (callAuthenticated (IdRequest m id)) writeProtoJSON
  | EmptyRPC m => cbind_ok (callAuthenticated (EmptyRequest m)) writeProtoJSON
  end.

(** The first request counts, whatever follows before it is taken. *)
Lemma first_callback requests : received requests = head requests.
Proof. destruct requests as [|r rs]; [done|]. unfold received. cbn. by induction rs. Qed.

(** A program with the answer that every call gets. *)
Fixpoint eval {A} (h : forall X, op X -> X) (p : cprog A) : A :=
  match p with Done a => a | Op o k => eval h (k (h _ o)) end.
Lemma eval_bind {A B} h (p : cprog A) (f : A -> cprog B) : eval h (cbind p f) = eval h (f (eval h p)).
Proof. induction p as [a|X o k IH]; [done|]. cbn. apply IH. Qed.

Definition answer {E A} (r : result E A) : option A := match r with Ok a => Some a | Err _ => None end.

(** The program of a sign-in on a host where the loopback listener works makes of the answers
    what [Cli.login] makes of them. *)
Lemma login_exact (h : forall X, op X -> X) provider port p addr bytes server :
  parsePort (int_lit port) = Ok p -> h _ (OListen port) = Ok addr -> h _ (ORand 32) = Ok bytes -> h _ OPublicClient = Ok server ->
  (forall url, h _ (OOpenBrowser url) = None) -> h _ OShutdown = None -> h _ OCloseServer = None -> h _ OCloseListener = None ->
  is_ok (eval h (login provider port)) =
    match Cli.login Parse (fun url form => h _ (OPostForm url form)) server (redirect_of addr) (base64url bytes)
            (answer (h _ (OBeginCLILogin server provider (redirect_of addr) (base64url (sha256 (base64url bytes)))))) (h _ OWait)
            (fun state idToken => answer (h _ (OExchangeCLISession server provider state idToken))) with
    | Ok s => match h _ (OWriteSession s) with [] => true | _ => false end
    | Err _ => false
    end.
Proof.
  intros Hp Hl Hr Hu Hb Hs Hc1 Hc2. unfold login. rewrite Hp. cbn [cbind call eval]. rewrite Hl. rewrite !eval_bind. cbn [eval]. rewrite Hc2.
  assert (forall r : result cmd_error unit, joined r None = r) as Hj by (by intros []). rewrite Hj. unfold listening. cbn [cbind call eval]. rewrite Hr. cbn [cbind call eval].
  rewrite Hu. cbn [cbind call eval]. unfold Cli.login. destruct (h _ (OBeginCLILogin _ _ _ _)) as [b|e]; [|done]. cbn [answer cbind call eval].
  fold (begin_incomplete b). destruct (begin_incomplete b); [done|]. rewrite !eval_bind. cbn [eval]. rewrite Hc1, Hj.
  unfold browse. cbn [cbind call eval]. rewrite Hb. unfold await. cbn [cbind call eval]. destruct (h _ OWait) as [| |code state err]; [done..|].
  cbn [cbind call eval]. rewrite Hs. destruct (negb _ || _ || _); [done|]. unfold exchange.
  set (D := fun url form => h _ (OPostForm url form)).
  change (exchangeOIDCCode Parse D (b_TokenUrl b) (b_ClientId b) code (redirect_of addr) (base64url bytes)) with
    (exchangeOIDCCode Parse (fun _ _ => D (b_TokenUrl b) (token_form (b_ClientId b) code (redirect_of addr) (base64url bytes)))
       (b_TokenUrl b) (b_ClientId b) code (redirect_of addr) (base64url bytes)).
  destruct (validateServerURL Parse (b_TokenUrl b)) as [u|e] eqn:Hv; [|unfold exchangeOIDCCode; by rewrite Hv]. cbn [cbind call eval]. unfold D.
  destruct (exchangeOIDCCode _ _ _ _ _ _ _) as [idToken|e]; [|done]. cbn [result_bind cbind call eval].
  destruct (h _ (OExchangeCLISession _ _ _ _)) as [[a t [x|]]|e]; [|done..]. unfold store_session. cbn [answer m_ExpiresAt m_AccessToken m_RefreshToken].
  destruct (_ || _); [done|]. cbn [cbind call eval]. by destruct (h _ (OWriteSession _)).
Qed.
End Commands.
Arguments Done {message A} a.
Arguments Op {message A X} o k.
End CliCommands.
