(* ===== verification/CliProtocol.v ===== *)
(** * The commands of the operator client against the protocol of its session

    Every command of [CliCommands], at any interleaving of its calls with those of other
    processes, makes only the steps of [CliSession]; and on every host it sends a credential
    only where it belongs. *)
From S2P Require Import Prelude HostProg Json Net RemoteS3 Cli CliSession CliCommands.

Import Json.Json.

Module CliProtocol.
Import Cli CliSession CliCommands.

Section Protocol.
Context {message : Type} (Unmarshal : file_rpc + unit -> gostring -> option message) (Marshal : message -> option gostring).
Context (MarshalJSON : json -> gostring) (FormatTime : Z -> option gostring).
Context (Parse : gostring -> option URL) (base64url sha256 : gostring -> gostring).
Abbreviation RunE := (RunE Unmarshal Marshal MarshalJSON FormatTime Parse base64url sha256).
Abbreviation op := (CliCommands.op (message := message)).
Abbreviation cprog := (CliCommands.cprog (message := message)).

(** ** What a call of a process does to what the processes share

    [op_step i g o x g']: process [i] calls [o], gets [x], and [g] becomes [g'].  An error of
    the RPC that refreshes can come after the server exchanged the token; one of a write after
    the file was replaced.  Calls that are not listed leave everything alone. *)
Definition op_step (i : nat) (g : shared) {X} (o : op X) : X -> shared -> Prop :=
  match o in CliCommands.op X return X -> shared -> Prop with
  | OSession => fun x g' => g' = g /\ (forall s, fst x = Ok s -> stored Parse g s)
  | OFlock => fun x g' =>
      match x with None => holder g = None /\ g' = set_holder g (Some i) | Some _ => g' = g end
  | ORelease => fun _ g' => holder g = Some i /\ g' = set_holder g None
  | OWriteSession s => fun x g' =>
      match x with
      | [] => usable Parse s = true /\ g' = set_file g (Some s)
      | _ => g' = set_lost g \/ g' = set_lost (set_file g (Some s))
      end
  | ORemoveSession => fun x g' => g' = match x with Ok _ => set_file g None | Err _ => g end
  | ORefreshToken _ t => fun x g' =>
      match x with
      | Ok (a, r, e) =>
          if bool_decide (a = []) || bool_decide (r = []) || bool_decide (e = None) then g' = set_lost (send g t true)
          else g' = issue (send g t true) r
      | Err _ => g' = send g t false \/ g' = set_lost (send g t true)
      end
  | OExchangeCLISession _ _ _ _ => fun x g' =>
      match x with
      | Ok (MkSessionMsg a r (Some e)) =>
          if bool_decide (a = []) || bool_decide (r = []) then g' = g else g' = issue g r
      | _ => g' = g
      end
  | OLogout _ t => fun _ g' => g' = end_ g t
  | _ => fun _ g' => g' = g
  end.
Definition quiet {X} (o : op X) : bool :=
  match o with OSession | OFlock | ORelease | OWriteSession _ | ORemoveSession | ORefreshToken _ _ | OExchangeCLISession _ _ _ _ | OLogout _ _ => false | _ => true end.

(** ** Refinement *)

(** The process that has [p] to do and is at [q] in the protocol: every call it makes is a step
    of the protocol or changes nothing, and where [p] ends [Q] holds. *)
Fixpoint sim {A} (i : nat) (p : cprog A) (q : pc) (Q : A -> pc -> Prop) : Prop :=
  match p with
  | Done a => Q a q
  | Op o k => forall g x g', (in_critical q -> holder g = Some i) -> op_step i g o x g' ->
      exists q', (q' = q /\ g' = g \/ step1 Parse i g q g' q') /\ sim i (k x) q' Q
  end.

Lemma sim_bind {A B} i (p : cprog A) (f : A -> cprog B) q Q : sim i p q (fun a q' => sim i (f a) q' Q) -> sim i (cbind p f) q Q.
Proof.
  revert q. induction p as [a|X o k IH]; intros q H; [done|]. cbn in *. intros g x g' Hc Ho.
  destruct (H g x g' Hc Ho) as (q' & Hq & Hs). exists q'. split; [done|]. by apply IH.
Qed.
Lemma sim_mono {A} i (p : cprog A) q (Q R : A -> pc -> Prop) : (forall a q', Q a q' -> R a q') -> sim i p q Q -> sim i p q R.
Proof.
  intros HQ. revert q. induction p as [a|X o k IH]; intros q H; [by apply HQ|]. cbn in *. intros g x g' Hc Ho.
  destruct (H g x g' Hc Ho) as (q' & Hq & Hs). exists q'. split; [done|]. by apply IH.
Qed.

(** A call that touches nothing, and one that is a step of the protocol. *)
Lemma sim_quiet {A X} i (o : op X) (k : X -> cprog A) q Q : quiet o = true -> (forall x, sim i (k x) q Q) -> sim i (Op o k) q Q.
Proof. intros Ht HQ g x g' _ Ho. exists q. split; [left; split; [done|]|apply HQ]. by destruct o. Qed.

(** The points where a command may end. *)
Definition final (q : pc) : Prop := match q with Finished | Calling _ _ | Start | LoginStart => True | _ => False end.

Definition unlocking (force : bool) (r : result cmd_error sessionFile) (q : pc) : Prop :=
  q = Unlocking force (match r with Ok s => Some s | Err _ => None end).

Lemma locked_sim i force : sim i (locked force) (Locked force) (unlocking force).
Proof.
  unfold locked. cbn [cbind call]. intros g [r now] g' _ [-> Hst]. destruct r as [s|es]; cbn [fst] in *.
  2:{ eexists. split; [right; apply locked_fails|done]. }
  specialize (Hst s eq_refl). destruct (negb force && fresh now s) eqn:Hf.
  { destruct force; [done|]. eexists. split; [right; eapply locked_fresh; [exact Hst|exact Hf]|done]. }
  assert (force || negb (fresh now s) = true) as Hf' by (destruct force, (fresh now s); done).
  eexists. split; [right; eapply locked_stale; [exact Hst|exact Hf']|]. cbn [cbind]. intros g2 [[[a r] e]|x] g2' _ Ho; cbn in Ho.
  2:{ destruct Ho as [-> | ->]; eexists; (split; [right; first [by apply exchange_error|by apply exchange_lost]|done]). }
  destruct e as [e|]; [|rewrite orb_true_r in Ho; subst; eexists; split; [right; by apply exchange_lost|done]].
  case_bool_decide as Ha; cbn [orb] in *; [subst; eexists; split; [right; by apply exchange_lost|done]|].
  case_bool_decide as Hr; cbn [orb] in *; [subst; eexists; split; [right; by apply exchange_lost|done]|].
  assert (g2' = issue (send g2 (RefreshToken s) true) r) as -> by exact Ho. clear Ho. exists (Writing force (MkSession (ServerURL s) a r e)). split; [right; by apply exchange_ok|]. cbn [cbind].
  intros g3 [|y ys] g3' _ Ho; cbn in Ho.
  - destruct Ho as [Hu ->]. eexists. split; [right; by apply write_ok|done].
  - destruct Ho as [-> | ->]; eexists; (split; [right; first [by apply write_fails|by apply write_unsynced]|done]).
Qed.

(** Where a process is after it asked for a session. *)
Definition has_session (force : bool) (r : result cmd_error sessionFile) (q : pc) : Prop :=
  match r with Ok s => q = Calling force s | Err _ => final q end.

(** A quiet call after whose answer the process is somewhere else in the protocol. *)
Lemma sim_moves {A X} i (o : op X) (k : X -> cprog A) q Q : quiet o = true ->
  (forall x, exists q', (q' = q \/ forall g, step1 Parse i g q g q') /\ sim i (k x) q' Q) -> sim i (Op o k) q Q.
Proof.
  intros Ht HQ g x g' _ Ho. destruct (HQ x) as (q' & Hq & Hs). exists q'. split; [|done].
  assert (g' = g) as -> by (by destruct o). destruct Hq as [-> |Hq]; [by left|right; apply Hq].
Qed.

Lemma refresh_sim i force : sim i (refreshSession force) (Waiting force) (has_session force).
Proof.
  unfold refreshSession. cbn [cbind call].
  apply sim_moves; [done|]. intros [e|]; [exists Finished; split; [right; intros g; apply lock_fails|done]|]. eexists. split; [by left|].
  apply sim_moves; [done|]. intros [e|]; [exists Finished; split; [right; intros g; apply lock_fails|done]|]. eexists. split; [by left|].
  intros g [e|] g' _ Ho; cbn in Ho.
  { subst. exists Finished. split; [right; apply lock_fails|]. cbn [cbind call]. apply sim_quiet; [done|]. by intros [c|]. }
  destruct Ho as [Hh ->]. exists (Locked force). split; [right; by apply lock_ok|].
  apply sim_bind. eapply sim_mono; [|apply locked_sim]. intros r q ->. cbn [cbind call]. intros g2 c g2' _ [_ ->].
  destruct r as [s|e]; cbn.
  - exists (Calling force s). split; [right; apply unlock_call|]. by destruct c.
  - exists Finished. split; [right; apply unlock_end|]. by destruct c.
Qed.

Lemma current_sim i : sim i (currentSession false) Start (has_session false).
Proof.
  unfold currentSession. cbn [cbind call]. intros g [r now] g' _ [-> Hst]. destruct r as [s|es]; cbn [fst] in *.
  2:{ exists Finished. split; [right; apply start_fails|done]. }
  specialize (Hst s eq_refl). destruct (fresh now s) eqn:Hf.
  - eexists. split; [right; by eapply start_fresh|done].
  - exists (Waiting false). split; [right; by eapply start_stale|]. apply refresh_sim.
Qed.

Lemma sim_bind_ok {A B} i (p : cprog (result cmd_error A)) (f : A -> cprog (result cmd_error B)) q Q :
  sim i p q (fun r q' => match r with Ok a => sim i (f a) q' Q | Err e => Q (Err e) q' end) -> sim i (cbind_ok p f) q Q.
Proof. intros H. apply sim_bind. eapply sim_mono; [|exact H]. by intros []. Qed.

Definition done_ {A} (r : A) (q : pc) : Prop := final q.

Lemma call_sim i r : sim i (callAuthenticated r) Start done_.
Proof.
  apply sim_bind_ok. eapply sim_mono; [|apply current_sim]. intros [s|e] q; cbn [has_session]; [intros ->|done]. cbn [cbind call].
  apply sim_moves; [done|]. intros [m|e]; [exists (Calling false s); split; [by left|done]|].
  destruct (expired e) eqn:Hx; cbn [negb]; [|exists (Calling false s); split; [by left|done]].
  exists (Waiting true). split; [right; intros g; apply call_expired|].
  apply sim_bind_ok. eapply sim_mono; [|apply refresh_sim]. intros [s2|e2] q; cbn [has_session]; [intros ->|done]. cbn [cbind call].
  apply sim_quiet; [done|]. by intros [].
Qed.

(** Programs that only make quiet calls. *)
Fixpoint quiet_prog {A} (p : cprog A) : Prop :=
  match p with Done _ => True | Op o k => quiet o = true /\ forall x, quiet_prog (k x) end.
Lemma quiet_bind {A B} (p : cprog A) (f : A -> cprog B) : quiet_prog p -> (forall a, quiet_prog (f a)) -> quiet_prog (cbind p f).
Proof. induction p as [a|X o k IH]; [by intros _ H; apply H|]. cbn. intros [Ho Hk] Hf. split; [done|]. intros x. by apply IH. Qed.
Lemma quiet_sim {A} i (p : cprog A) q (Q : A -> pc -> Prop) : quiet_prog p -> (forall a, Q a q) -> sim i p q Q.
Proof. induction p as [a|X o k IH]; [by intros _ H; apply H|]. intros [Ho Hk] HQ. apply sim_quiet; [done|]. intros x. by apply IH. Qed.

Lemma quiet_read m path : quiet_prog (readProtoJSONFile Unmarshal m path).
Proof.
  unfold readProtoJSONFile, readProtoJSON. do 2 (case_bool_decide; [by cbn|]). cbn. split; [done|]. intros [e|]; [done|]. by split.
Qed.
Lemma quiet_write m : quiet_prog (writeProtoJSON Marshal m).
Proof. unfold writeProtoJSON. destruct (Marshal m); [by split|done]. Qed.
Lemma quiet_bootstrap file b : quiet_prog (bootstrapOIDC Unmarshal Marshal file b).
Proof.
  unfold bootstrapOIDC. destruct b; [|done]. case_bool_decide; [done|]. cbn. split; [done|]. intros [raw|e]; [|done].
  destruct (readBootstrapToken raw); [|done]. apply quiet_bind; [apply quiet_read|]. intros [body|e]; [|done].
  split; [done|]. intros [u|es]; [|done]. split; [done|]. intros [m|e]; [apply quiet_write|done].
Qed.

(** ** Commands *)

Definition starts (c : command) : pc :=
  match c with Logout => LogoutStart | Login _ _ => LoginStart | _ => Start end.

Lemma store_sim i server m q : (forall e, m_ExpiresAt m = Some e -> m_AccessToken m <> [] -> m_RefreshToken m <> [] ->
    q = LoginWriting (MkSession server (m_AccessToken m) (m_RefreshToken m) e)) ->
  (final q \/ exists e, m_ExpiresAt m = Some e /\ m_AccessToken m <> [] /\ m_RefreshToken m <> []) -> sim i (store_session server m) q done_.
Proof.
  unfold store_session. intros Hq Hf. destruct (m_ExpiresAt m) as [e|]; [|by destruct Hf as [|(? & ? & _)]].
  case_bool_decide as Ha; [by destruct Hf as [|(? & _ & ? & _)]|]. case_bool_decide as Hr; [by destruct Hf as [|(? & _ & _ & ?)]|]. cbn [orb cbind call].
  rewrite (Hq e) by done. intros g [|y ys] g' _ Ho; cbn in Ho; exists Finished.
  - destruct Ho as [Hu ->]. split; [right; by apply login_write|done].
  - split; [right|done]. destruct Ho as [-> | ->]; [apply login_fails|apply login_unsynced].
Qed.

Lemma exchange_sim i server provider redirectURL verifier code b : sim i (exchange Parse server provider redirectURL verifier code b) LoginStart done_.
Proof.
  unfold exchange. destruct (validateServerURL Parse (b_TokenUrl b)); [|done]. cbn [cbind call]. apply sim_quiet; [done|]. intros r.
  destruct (exchangeOIDCCode _ _ _ _ _ _ _) as [idToken|e]; [|done]. cbn [cbind call]. intros g x g' _ Ho. destruct x as [[acc tok [ex|]]|e]; cbn in Ho.
  2:{ exists LoginStart. subst. split; [by left|]. by apply store_sim; [|left]. }
  2:{ exists LoginStart. subst. split; [by left|done]. }
  case_bool_decide as Ha; [|case_bool_decide as Hr]; cbn [orb] in Ho.
  1-2: exists LoginStart; subst; (split; [by left|]); apply store_sim; [by intros|by left].
  subst g'. exists (LoginWriting (MkSession server acc tok ex)). split; [right; by apply login_issue|]. apply store_sim; cbn; [by intros ? [= <-]|right; by exists ex].
Qed.

Lemma await_sim i server provider redirectURL verifier b : sim i (await Parse server provider redirectURL verifier b) LoginStart done_.
Proof.
  unfold await. cbn [cbind call]. apply sim_quiet; [done|]. intros [| |code state err]; [done..|]. cbn [cbind call]. apply sim_quiet; [done|].
  intros [e|]; [done|]. destruct (negb _ || _ || _); [done|apply exchange_sim].
Qed.

Lemma browse_sim i server provider redirectURL verifier b : sim i (browse Parse server provider redirectURL verifier b) LoginStart done_.
Proof.
  unfold browse. cbn [cbind call]. apply sim_quiet; [done|]. intros _. apply sim_quiet; [done|]. intros [e|]; [|apply await_sim].
  cbn [cbind call]. apply sim_quiet; [done|]. intros [w|]; [done|apply await_sim].
Qed.

(** A deferred close. *)
Lemma close_sim {A} i (p : cprog (result cmd_error A)) (o : op (option cli_error)) q : quiet o = true -> sim i p q done_ ->
  sim i (cbind p (fun r => cbind (call o) (fun c => Done (joined r c)))) q done_.
Proof. intros Ho Hp. apply sim_bind. eapply sim_mono; [|exact Hp]. intros r q' Hq. cbn [cbind call]. by apply sim_quiet. Qed.

Lemma login_sim i provider port : sim i (login Parse base64url sha256 provider port) LoginStart done_.
Proof.
  unfold login. destruct (parsePort (int_lit port)); [|done]. cbn [cbind call]. apply sim_quiet; [done|]. intros [addr|e]; [|done].
  apply close_sim; [done|]. unfold listening. cbn [cbind call]. apply sim_quiet; [done|]. intros [bytes|e]; [|done]. cbn [cbind call].
  apply sim_quiet; [done|]. intros [server|es]; [|done]. cbn [cbind call]. apply sim_quiet; [done|]. intros [b|e]; [|done].
  destruct (begin_incomplete b); [done|]. apply close_sim; [done|apply browse_sim].
Qed.

Lemma answer_sim i r : sim i (cbind_ok (callAuthenticated r) (writeProtoJSON Marshal)) Start done_.
Proof.
  apply sim_bind_ok. eapply sim_mono; [|apply call_sim]. intros [m|e] q Hq; [|done]. apply quiet_sim; [apply quiet_write|done].
Qed.

Lemma command_sim i c : sim i (RunE c) (starts c) done_.
Proof.
  destruct c as [url|file b|provider port| | | |m path|m id|m]; cbn [CliCommands.RunE starts]; try apply answer_sim.
  - by apply sim_quiet.
  - apply quiet_sim; [apply quiet_bootstrap|done].
  - apply login_sim.
  - apply sim_bind_ok. eapply sim_mono; [|apply current_sim]. intros [s|e] q; cbn [has_session]; [intros ->|done].
    destruct (token_json MarshalJSON FormatTime s); [by apply sim_quiet|done].
  - unfold logout. cbn [cbind call]. intros g [r now] g' _ [-> Hst]. destruct r as [s|es]; cbn [fst] in *.
    2:{ exists Finished. split; [right; apply logout_none|done]. }
    exists (LogoutCalling s). split; [right; apply logout_read; auto|].
    intros g1 [e|] g1' _ Ho; cbn in Ho; subst g1'; [exists Finished; split; [right; apply logout_fails|done]|].
    exists LogoutRemoving. split; [right; apply logout_ok|]. intros g2 x g2' _ Ho. cbn in Ho. subst.
    exists Finished. split; [right|done]. destruct x; [apply logout_remove|apply remove_fails].
  - apply sim_bind_ok, quiet_sim; [apply quiet_read|]. intros [body|e]; [apply answer_sim|done].
Qed.

(** ** Systems of processes *)

(** Every process has the rest of its command to do. *)
Definition processes : Type := nat -> cprog (result cmd_error unit).
Definition set_proc (f : processes) (i : nat) (p : cprog (result cmd_error unit)) : processes := fun j => if decide (j = i) then p else f j.

Inductive sys_step : shared * processes -> shared * processes -> Prop :=
| sys_call i g f X (o : op X) k x g' : f i = Op o k -> op_step i g o x g' -> sys_step (g, f) (g', set_proc f i (k x)).

(** [f] are the processes and [pcs] where they are in the protocol. *)
Definition matches (f : processes) (pcs : nat -> pc) : Prop := forall i, sim i (f i) (pcs i) done_.

Lemma set_matches f pcs i p q : matches f pcs -> sim i p q done_ -> matches (set_proc f i p) (upd pcs i q).
Proof. intros Hm Hp j. unfold set_proc. destruct (decide (j = i)) as [->|Hne]; [by rewrite upd_here|rewrite upd_other by done; apply Hm]. Qed.

Lemma sys_refines g f pcs st' : lock_held (g, pcs) -> matches f pcs -> rtc sys_step (g, f) st' ->
  exists pcs', rtc (step Parse) (g, pcs) (st'.1, pcs') /\ matches st'.2 pcs'.
Proof.
  intros Hl Hm Hr. remember (g, f) as st eqn:Est. revert g f pcs Hl Hm Est.
  induction Hr as [st|st st1 st2 Hs _ IH]; intros g f pcs Hl Hm ->; [by exists pcs|].
  inversion Hs as [i g0 f0 X o k x g' Hf Ho]; subst. specialize (Hm i) as Hi. rewrite Hf in Hi.
  destruct (Hi g x g') as (q' & Hq & Hsim); [by intros Hc; apply (Hl i)|done|]. destruct Hq as [[-> ->]|Hq].
  - destruct (IH g (set_proc f i (k x)) pcs) as (pcs' & Hr & Hm'); [done| |done|by exists pcs'].
    intros j. unfold set_proc. case_decide as E; [by subst|apply Hm].
  - destruct (IH g' (set_proc f i (k x)) (upd pcs i q')) as (pcs' & Hr & Hm'); [by eapply lock_step|by apply set_matches|done|].
    exists pcs'. split; [|done]. eapply rtc_l; [by apply step_process|done].
Qed.

(** At first nobody holds the lock and the stored session has a token that was issued. *)
Definition fresh_start (g : shared) : Prop :=
  holder g = None /\ exchanged g = [] /\ sent g = [] /\ faithful g /\ (forall s, file g = Some s -> RefreshToken s ∈ issued g).

Lemma start_initial g (cs : nat -> command) : fresh_start g -> initial (g, fun i => starts (cs i)).
Proof.
  intros (H1 & H2 & H3 & [H4 H4'] & H5). split_and!; try done; [intros i; by destruct (cs i)|]. intros i j t. by destruct (cs i).
Qed.

(** C7: Any number of processes of the client that run any of its commands, sign-ins and logouts
    among them, at any interleaving of their calls and with any failures: as long as no answer
    of the server and no write of the session was lost, and the server issued no token twice, no
    process gives the RefreshToken RPC a token that the server exchanged before.  (What the Logout
    RPC is given is recorded apart and not covered: see [CliSession.logout_undone].) *)
Theorem commands_not_replayed (cs : nat -> command) g st' :
  fresh_start g -> rtc sys_step (g, fun i => RunE (cs i)) st' ->
  lost st'.1 = false -> reissued st'.1 = false ->
  forall a t r b, sent st'.1 = a ++ (t, r) :: b -> (t, true) ∉ a.
Proof.
  intros Hi%(start_initial g cs) Hr Hl Hn.
  destruct (sys_refines _ _ _ _ (inv_lock _ (initial_inv _ Hi)) (fun i => command_sim i (cs i)) Hr) as (pcs' & Hp & _).
  apply (inv_sent _ (session_inv Parse _ _ Hi Hp (conj Hl Hn))).
Qed.
End Protocol.

(** Two commands at once; one of them refreshes. *)
Definition toy_parse (_ : gostring) : option URL := Some (MkURL (str "https") [] (str "h") false [] [] (str "h")).
Definition toy_session : sessionFile := MkSession (str "https://h") (str "a") (str "r") 5.
Definition toy_shared : shared := MkShared (Some toy_session) None [str "r"] [] [] [] false false.
Definition toy_commands (i : nat) : command := if i =? 0 then Whoami else Logout.
Definition toy_processes : processes (message := gostring) := fun i =>
  RunE (fun _ => Some) Some (fun _ => []) (fun _ => None) toy_parse (fun s => s) (fun s => s) (toy_commands i).

Ltac own_call x :=
  eapply rtc_l; [eapply (sys_call _ 0 _ _ _ _ _ x);
    [reflexivity|cbn; first [reflexivity | by (split; reflexivity) | by (split; [reflexivity|intros ? [= <-]; split]) | split; [|reflexivity]]]|].

Lemma toy_refresh : exists f, rtc (sys_step toy_parse) (toy_shared, toy_processes)
  (issue (send (set_holder toy_shared (Some 0)) (str "r") true) (str "r2"), f).
Proof.
  eexists. own_call (Ok (E := list cli_error) toy_session, 5%Z). own_call (@None cli_error). own_call (@None cli_error). own_call (@None cli_error).
  own_call (Ok (E := list cli_error) toy_session, 5%Z).
  own_call (Ok (E := rpc_error) (str "a2", str "r2", Some 9%Z)). apply rtc_refl.
Qed.

Lemma commands_not_replayed_witness :
  exists g f, rtc (sys_step toy_parse) (toy_shared, toy_processes) (g, f) /\ (str "r", true) ∈ sent g /\
    forall a t r b, sent g = a ++ (t, r) :: b -> (t, true) ∉ a.
Proof.
  destruct toy_refresh as [f Hf]. eexists _, f. split; [exact Hf|]. split; [by left|].
  refine (commands_not_replayed (fun _ => Some) Some (fun _ => []) (fun _ => None) toy_parse (fun s => s) (fun s => s) toy_commands toy_shared _ _ Hf eq_refl eq_refl).
  split_and!; try done. intros s [= <-]. by left.
Defined.
End CliProtocol.

(** * Where the commands of the operator client send what they know

    On every host and server: which RPCs a command makes and where, which credential goes
    with them, what is stored and what is printed. *)

Import Json.Json.

Module CliConfined.
Import HostProg.HostProg.
Import Cli CliSession CliCommands.

Section Confined.
Context {message : Type} (Unmarshal : file_rpc + unit -> gostring -> option message) (Marshal : message -> option gostring).
Context (MarshalJSON : json -> gostring) (FormatTime : Z -> option gostring).
Context (Parse : gostring -> option URL) (base64url sha256 : gostring -> gostring).
Abbreviation op := (CliCommands.op (message := message)).
Abbreviation cprog := (CliCommands.cprog (message := message)).
Abbreviation api := (CliCommands.api (message := message)).

(** ** Histories *)

(** A call with its answer; the histories of a program with any answers. *)
Inductive event :=
| Ev {X : Type} (o : op X) (x : X).
Inductive runs {A} : cprog A -> list event -> Prop :=
| runs_nil p : runs p []
| runs_call {X} (o : op X) k x tr : runs (k x) tr -> runs (Op o k) (Ev o x :: tr).

(** The sessions that a call gave: one that was read, one from a refresh. *)
Definition session_of (e : event) : list sessionFile :=
  match e with
  | Ev o x =>
      match o in CliCommands.op X return X -> list sessionFile with
      | OSession => fun x => match fst x with Ok s => [s] | Err _ => [] end
      | ORefreshToken server _ => fun x => match x with Ok (a, r, Some e) => [MkSession server a r e] | _ => [] end
      | _ => fun _ => []
      end x
  end.
Definition sessions (h : list event) : list sessionFile := flat_map session_of h.
Definition is_call (e : event) : bool := match e with Ev o _ => match o with OCall _ _ _ => true | _ => false end end.
Definition calls (h : list event) : nat := length (List.filter is_call h).

(** The requests of a command; the bodies are what was decoded. *)
Definition request_for (c : command) (r : api) : Prop :=
  match c with
  | Whoami => r = GetCurrentUser
  | FileRPC m _ => exists raw body, Unmarshal (inl m) raw = Some body /\ r = FileRequest m body
  | IdRPC m id => r = IdRequest m id
  | EmptyRPC m => r = EmptyRequest m
  | _ => False
  end.

(** An origin that is https, or a loopback address of this host. *)
Definition secure (url : gostring) : Prop :=
  exists u, Parse url = Some u /\ Host u <> [] /\ HasUser u = false /\ RawQuery u = [] /\ Fragment u = [] /\
    (Scheme u = str "https" \/ Scheme u = str "http" /\ exists ip, Net.Net.ParseIP (Hostname u) = Some ip /\ IsLoopback ip = true).
(** The address the browser comes back to, and the form that redeems its code. *)
Definition callback_url (addr : gostring) : gostring := str "http://" ++ addr ++ str "/callback".
Definition redeeming (clientID code addr verifier : gostring) : gostring :=
  str "client_id=" ++ RemoteS3.RemoteS3.QueryEscape clientID ++ str "&code=" ++ RemoteS3.RemoteS3.QueryEscape code ++
  str "&code_verifier=" ++ RemoteS3.RemoteS3.QueryEscape verifier ++ str "&grant_type=authorization_code&redirect_uri=" ++
  RemoteS3.RemoteS3.QueryEscape (callback_url addr).

(** A sign-in that listens at [addr] and drew [bytes], and the answer [b] that began it at the
    configured server. *)
Definition begun (c : command) (h : list event) (server provider : gostring) (port : Z) (addr bytes : gostring) : Prop :=
  c = Login provider port /\ (0 <= port <= 65535)%Z /\ In (Ev (OListen port) (Ok addr)) h /\ In (Ev (ORand 32) (Ok bytes)) h /\
  In (Ev OPublicClient (Ok server)) h.
Definition signing (c : command) (h : list event) (server provider : gostring) (port : Z) (addr bytes : gostring) (b : begin_msg) : Prop :=
  begun c h server provider port addr bytes /\ b_State b <> [] /\ b_ClientId b <> [] /\
  In (Ev (OBeginCLILogin server provider (callback_url addr) (base64url (sha256 (base64url bytes)))) (Ok b)) h.

(** What [c] may call after the history [h]. *)
Definition allowed (c : command) (h : list event) {X} (o : op X) : Prop :=
  match o with
  | OCall server authorization r =>
      (exists s, In s (sessions h) /\ server = ServerURL s /\ authorization = str "Bearer " ++ AccessToken s /\ request_for c r /\ calls h <= 1) \/
      (exists file raw body, c = BootstrapOIDC file true /\ In (Ev (OStdin 4097) (Ok raw)) h /\ length raw <= 4096 /\ trim_space raw <> [] /\
         In (Ev OPublicClient (Ok server)) h /\ authorization = str "PowerManage-Bootstrap " ++ trim_space raw /\ r = CreateIdentityProvider body /\ calls h = 0)
  | ORefreshToken server token => exists s, In s (sessions h) /\ server = ServerURL s /\ token = RefreshToken s
  | OLogout server token => c = Logout /\ exists s, In s (sessions h) /\ server = ServerURL s /\ token = RefreshToken s
  | OWriteSession s =>
      (exists token, In (Ev (ORefreshToken (ServerURL s) token) (Ok (AccessToken s, RefreshToken s, Some (ExpiresAt s)))) h) \/
      (exists provider state idToken, In (Ev (OExchangeCLISession (ServerURL s) provider state idToken)
         (Ok (MkSessionMsg (AccessToken s) (RefreshToken s) (Some (ExpiresAt s))))) h)
  | OBeginCLILogin server provider redirect challenge => exists port addr bytes, begun c h server provider port addr bytes /\
      redirect = callback_url addr /\ challenge = base64url (sha256 (base64url bytes))
  | OOpenBrowser url | OShowURL url => exists port addr bytes server provider b, signing c h server provider port addr bytes b /\ url = b_LoginUrl b
  | OPostForm url form => exists port addr bytes server provider b code, signing c h server provider port addr bytes b /\
      In (Ev OWait (Received code (b_State b) [])) h /\ url = b_TokenUrl b /\ secure url /\
      form = redeeming (b_ClientId b) code addr (base64url bytes)
  | OExchangeCLISession server provider state idToken => exists port addr bytes b code resp, signing c h server provider port addr bytes b /\
      In (Ev OWait (Received code (b_State b) [])) h /\ state = b_State b /\
      In (Ev (OPostForm (b_TokenUrl b) (redeeming (b_ClientId b) code addr (base64url bytes))) (Ok resp)) h /\
      (200 <= StatusCode resp < 300)%Z /\ BodyErr resp = None /\ dec_token (Body resp) = Some (idToken, []) /\ idToken <> []
  | ORemoveSession => c = Logout /\ exists server token, In (Ev (OLogout server token) None) h
  | OSetServer url => c = ConfigSetServer url
  | OPrint out =>
      (c = AuthToken /\ exists s t, In s (sessions h) /\ FormatTime (ExpiresAt s) = Some t /\
         out = MarshalJSON (JObj [(str "server_url", JStr (ServerURL s)); (str "access_token", JStr (AccessToken s)); (str "expires_at", JStr t)]) ++ [NL]) \/
      (exists server authorization r m raw, In (Ev (OCall server authorization r) (Ok m)) h /\ Marshal m = Some raw /\ out = raw ++ [NL])
  | _ => True
  end.

(** Every call is allowed, and [Q] holds of what comes out. *)
Fixpoint track {A} (c : command) (h : list event) (p : cprog A) (Q : list event -> A -> Prop) : Prop :=
  match p with
  | Done a => Q h a
  | Op o k => allowed c h o /\ forall x, track c (h ++ [Ev o x]) (k x) Q
  end.

Lemma track_bind {A B} c h (p : cprog A) (f : A -> cprog B) Q : track c h p (fun h' a => track c h' (f a) Q) -> track c h (cbind p f) Q.
Proof. revert h. induction p as [a|X o k IH]; intros h; [done|]. cbn. intros [Ho Hk]. split; [done|]. intros x. by apply IH. Qed.
Lemma track_mono {A} c h (p : cprog A) (Q R : list event -> A -> Prop) : (forall h' a, Q h' a -> R h' a) -> track c h p Q -> track c h p R.
Proof. intros HQ. revert h. induction p as [a|X o k IH]; intros h; [apply HQ|]. cbn. intros [Ho Hk]. split; [done|]. intros x. by apply IH. Qed.
Lemma track_bind_ok {A B} c h (p : cprog (result cmd_error A)) (f : A -> cprog (result cmd_error B)) (Q : list event -> result cmd_error B -> Prop) :
  track c h p (fun h' r => match r with Ok a => track c h' (f a) Q | Err e => Q h' (Err e) end) -> track c h (cbind_ok p f) Q.
Proof. intros H. apply track_bind. eapply track_mono; [|exact H]. by intros h' []. Qed.

(** In a history every call is allowed. *)
Lemma track_runs {A} c h (p : cprog A) Q tr : track c h p Q -> runs p tr ->
  forall pre X (o : op X) x post, tr = pre ++ Ev o x :: post -> allowed c (h ++ pre) o.
Proof.
  intros Ht Hr. revert h Ht. induction Hr as [p|X o k x tr Hr IH]; intros h Ht pre Y o' y post E; [by destruct pre|].
  destruct Ht as [Ho Hk]. destruct pre as [|e pre]; cbn in E.
  - rewrite app_nil_r. pose proof (f_equal (fun l => match l with Ev o _ :: _ => allowed c h o | [] => True end) E) as He.
    cbn in He. by rewrite <- He.
  - pose proof (f_equal (fun l => head l) E) as He. pose proof (f_equal tail E) as Et. cbn in He, Et. injection He as <-.
    specialize (IH _ (Hk x) _ _ _ _ _ Et). by rewrite <- app_assoc in IH.
Qed.

Lemma sessions_app h t : sessions (h ++ t) = sessions h ++ sessions t.
Proof. apply flat_map_app. Qed.
Lemma calls_app h t : calls (h ++ t) = calls h + calls t.
Proof. unfold calls. by rewrite List.filter_app, length_app. Qed.

(** ** The parts of a command *)

(** Only what was known and more; nothing was asked for. *)
Definition grown (h h' : list event) : Prop := exists t, h' = h ++ t /\ calls t = 0.
Lemma grown_refl h : grown h h.
Proof. exists []. by rewrite app_nil_r. Qed.
Lemma grown_trans h1 h2 h3 : grown h1 h2 -> grown h2 h3 -> grown h1 h3.
Proof. intros (t & -> & Ht) (u & -> & Hu). exists (t ++ u). rewrite calls_app, app_assoc. split; [done|lia]. Qed.
Lemma grown_snoc h e : is_call e = false -> grown h (h ++ [e]).
Proof. intros He. exists [e]. split; [done|]. unfold calls. cbn. by rewrite He. Qed.
Lemma grown_calls h h' : grown h h' -> calls h' = calls h.
Proof. intros (t & -> & Ht). rewrite calls_app. lia. Qed.
Lemma grown_session h h' s : grown h h' -> In s (sessions h) -> In s (sessions h').
Proof. intros (t & -> & _) Hs. rewrite sessions_app. apply in_or_app. by left. Qed.
Lemma grown_in h h' (e : event) : grown h h' -> In e h -> In e h'.
Proof. intros (t & -> & _) Hs. apply in_or_app. by left. Qed.
Lemma known_snoc h e s : In s (session_of e) -> In s (sessions (h ++ [e])).
Proof. intros Hs. rewrite sessions_app. apply in_or_app. right. cbn. apply in_or_app. by left. Qed.

Definition known (h h' : list event) (r : result cmd_error sessionFile) : Prop :=
  grown h h' /\ match r with Ok s => In s (sessions h') | Err _ => True end.
Lemma known_grown h1 h2 h3 r : grown h1 h2 -> known h2 h3 r -> known h1 h3 r.
Proof. intros Hg [H ?]. split; [by eapply grown_trans|done]. Qed.

Ltac grows := repeat first [apply grown_refl | eassumption | eapply grown_trans; [|apply grown_snoc; reflexivity]].

Lemma locked_track c h force : track c h (locked force) (known h).
Proof.
  unfold locked. cbn [cbind CliCommands.call]. split; [done|]. intros [[s|es] now]; [|split; [grows|done]].
  assert (forall e, In s (sessions (h ++ [Ev OSession (Ok s, now)] ++ e))) as Hs.
  { intros e. rewrite app_assoc, sessions_app. apply in_or_app. left. apply known_snoc. by left. }
  destruct (negb force && fresh now s); [split; [grows|apply (Hs [])]|]. cbn [cbind]. split; [exists s; split; [apply (Hs [])|done]|].
  intros [[[a r] [e|]]|x]; [|split; [grows|done]..]. case_match; [split; [grows|done]|]. cbn [cbind]. split.
  - left. exists (RefreshToken s). apply in_or_app. right. by left.
  - intros [|y ys]; (split; [grows|]); [|done]. rewrite sessions_app. apply in_or_app. left. apply known_snoc. by left.
Qed.

Lemma joined_known h h' r x : known h h' r -> known h h' (joined r x).
Proof. intros [Hg Hs]. by destruct r, x; (split; [done|]). Qed.

Lemma refresh_track c h force : track c h (refreshSession force) (known h).
Proof.
  unfold refreshSession. cbn [cbind CliCommands.call].
  split; [done|]. intros [e|]; [split; [grows|done]|]. split; [done|]. intros [e|]; [split; [grows|done]|].
  split; [done|]. intros [e|]; [split; [done|]; intros x; destruct x; (split; [grows|done])|].
  apply track_bind. eapply track_mono; [|apply locked_track]. intros h' r Hk. split; [done|]. intros x. cbn.
  apply joined_known. destruct Hk as [Hg Hs]. split; [grows|]. 2:{ destruct r; [|done]. rewrite sessions_app. apply in_or_app. by left. }
  eapply grown_trans; [|exact Hg]. grows.
Qed.

Lemma current_track c h force : track c h (currentSession force) (known h).
Proof.
  unfold currentSession. destruct force; [apply refresh_track|]. cbn [cbind CliCommands.call]. split; [done|].
  intros [[s|es] now]; [|split; [grows|done]]. destruct (fresh now s).
  - split; [grows|]. apply known_snoc. by left.
  - eapply track_mono; [|apply refresh_track]. intros h' r. apply known_grown. grows.
Qed.

(** What a program was answered by a request. *)
Definition answered (h : list event) (m : message) : Prop :=
  exists server authorization r, In (Ev (OCall server authorization r) (Ok m)) h.

Lemma call_track c h r : request_for c r -> calls h = 0 ->
  track c h (callAuthenticated r) (fun h' x => match x with Ok m => answered h' m | Err _ => True end).
Proof.
  intros Hr Hc. apply track_bind_ok. eapply track_mono; [|apply current_track]. intros h1 [s|e] [Hg Hs]; [|done].
  apply grown_calls in Hg. cbn [cbind CliCommands.call]. split.
  { left. exists s. split_and!; try done. lia. }
  intros [m|e]; [exists (ServerURL s), (bearer s), r; apply in_or_app; right; by left|]. destruct (negb (expired e)); [done|].
  apply track_bind_ok. eapply track_mono; [|apply current_track]. intros h2 [s2|e2] [Hg2 Hs2]; [|done].
  apply grown_calls in Hg2. rewrite calls_app in Hg2. cbn in Hg2. cbn [cbind CliCommands.call]. split.
  { left. exists s2. split_and!; try done. lia. }
  intros [m|e2]; [|done]. exists (ServerURL s2), (bearer s2), r. apply in_or_app. right. by left.
Qed.

Lemma read_track c h m path : track c h (readProtoJSONFile Unmarshal m path)
  (fun h' x => grown h h' /\ match x with Ok b => exists raw, Unmarshal m raw = Some b | Err _ => True end).
Proof.
  unfold readProtoJSONFile, readProtoJSON. case_bool_decide; [split; [grows|done]|]. case_bool_decide.
  - cbn. split; [done|]. intros [raw|e]; (split; [grows|]); [|done]. destruct (_ <? _)%N; [done|]. destruct (Unmarshal m raw) eqn:E; [by exists raw|done].
  - cbn [cbind CliCommands.call]. split; [done|]. intros [e|]; [split; [grows|done]|]. cbn. split; [done|]. intros x. split; [done|]. intros y.
    split; [grows|]. destruct x as [raw|e]; [|by destruct y]. destruct (_ <? _)%N; [by destruct y|]. destruct (Unmarshal m raw) eqn:E; [|by destruct y].
    destruct y; [done|by exists raw].
Qed.

Lemma write_track c h m : answered h m -> track c h (writeProtoJSON Marshal m) (fun _ _ => True).
Proof.
  intros (u & a & r & Hin). unfold writeProtoJSON. destruct (Marshal m) as [raw|] eqn:E; [|done]. split; [|done].
  right. by exists u, a, r, m, raw.
Qed.

Lemma answer_track c h r : request_for c r -> calls h = 0 -> track c h (cbind_ok (callAuthenticated r) (writeProtoJSON Marshal)) (fun _ _ => True).
Proof.
  intros Hr Hc. apply track_bind_ok. eapply track_mono; [|by apply call_track]. intros h' [m|e] Ha; [by apply write_track|done].
Qed.

(** *** Signing in *)

Lemma begun_more c h t server provider port addr bytes : begun c h server provider port addr bytes -> begun c (h ++ t) server provider port addr bytes.
Proof. intros (? & ? & ? & ? & ?). split; [done|]. split; [done|]. split_and!; apply in_or_app; by left. Qed.
Lemma signing_more c h t server provider port addr bytes b :
  signing c h server provider port addr bytes b -> signing c (h ++ t) server provider port addr bytes b.
Proof. intros (? & ? & ? & ?). split_and!; [by apply begun_more|done|done|apply in_or_app; by left]. Qed.
Lemma in_last h (e : event) : In e (h ++ [e]).
Proof. apply in_or_app. right. by left. Qed.
Lemma in_more h t (e : event) : In e h -> In e (h ++ t).
Proof. intros H. apply in_or_app. by left. Qed.

Lemma validate_secure url u : validateServerURL Parse url = Ok u -> secure url.
Proof.
  unfold validateServerURL, secure. destruct (_ || _); [done|]. destruct (Parse url) as [v|]; [|done].
  destruct (_ || _) eqn:E; [done|]. rewrite !orb_false_iff, !negb_false_iff, !bool_decide_eq_true, bool_decide_eq_false in E.
  destruct E as ((((_ & H1) & H2) & H3) & H4). intros H. exists v. split_and!; try done.
  case_bool_decide; [by left|]. case_bool_decide; [|done]. destruct (Net.Net.ParseIP _) as [ip|]; [|done].
  destruct (IsLoopback ip) eqn:El; [|done]. right. split; [done|]. by exists ip.
Qed.

Lemma exchange_answer r tokenURL clientID code redirectURL verifier idToken :
  exchangeOIDCCode Parse (fun _ _ => r) tokenURL clientID code redirectURL verifier = Ok idToken ->
  exists resp, r = Ok resp /\ (200 <= StatusCode resp < 300)%Z /\ BodyErr resp = None /\ dec_token (Body resp) = Some (idToken, []) /\ idToken <> [].
Proof.
  unfold exchangeOIDCCode. destruct (validateServerURL _ _); [|done]. destruct r as [resp|]; [|done].
  destruct (_ || _) eqn:Es; [done|]. apply orb_false_iff in Es as [E1%Z.ltb_ge E2%Z.leb_gt]. destruct (_ <? _)%N; [done|].
  destruct (BodyErr resp) eqn:Eb; [done|]. destruct (dec_token _) as [[i e]|] eqn:Ed; [|done].
  case_bool_decide as E3; [|done]. case_bool_decide; [done|]. intros [= <-]. exists resp. subst. split_and!; try done; lia.
Qed.

Lemma bootstrap_trimmed raw token : readBootstrapToken raw = Ok token -> length raw <= 4096 /\ trim_space raw <> [] /\ token = trim_space raw.
Proof.
  unfold readBootstrapToken. destruct (_ <? _)%nat eqn:E; [done|]. apply Nat.ltb_ge in E. rewrite length_take in E.
  rewrite take_ge by lia. case_bool_decide; [done|]. destruct (contains_any _ _); [done|]. intros [= <-]. split_and!; [lia|done|done].
Qed.

Lemma exchange_track c h server provider port addr bytes code b : signing c h server provider port addr bytes b ->
  In (Ev OWait (Received code (b_State b) [])) h ->
  track c h (exchange Parse server provider (redirect_of addr) (base64url bytes) code b) (fun _ _ => True).
Proof.
  intros Hs Hw. unfold exchange. destruct (validateServerURL Parse (b_TokenUrl b)) as [u|e] eqn:Hv; [|done]. cbn [cbind CliCommands.call]. split.
  { exists port, addr, bytes, server, provider, b, code. split_and!; try done. by eapply validate_secure. }
  intros r. destruct (exchangeOIDCCode Parse _ _ _ _ _ _) as [idToken|e] eqn:Hx; [|done]. cbn [cbind CliCommands.call].
  apply exchange_answer in Hx as (resp & -> & Hc & Hb & Hd & Hi). split.
  { exists port, addr, bytes, b, code, resp. split_and!; try done; [by apply signing_more|by apply in_more|apply in_last|lia|lia]. }
  intros [[a t [x|]]|e]; [|done..]. unfold store_session. cbn [m_ExpiresAt m_AccessToken m_RefreshToken]. destruct (_ || _); [done|]. cbn [cbind CliCommands.call]. split; [|done].
  right. exists provider, (b_State b), idToken. apply in_last.
Qed.

Lemma await_track c h server provider port addr bytes b : signing c h server provider port addr bytes b ->
  track c h (await Parse server provider (redirect_of addr) (base64url bytes) b) (fun _ _ => True).
Proof.
  intros Hs. unfold await. cbn [cbind CliCommands.call]. split; [done|]. intros [| |code state err]; [done..|]. cbn [cbind CliCommands.call].
  split; [done|]. intros [e|]; [done|]. case_bool_decide as E1; [|done]. case_bool_decide; [done|]. case_bool_decide as E2; [|done]. cbn [negb orb]. subst.
  eapply exchange_track; [by do 2 apply signing_more|]. apply in_more, in_last.
Qed.

Lemma browse_track c h server provider port addr bytes b : signing c h server provider port addr bytes b ->
  track c h (browse Parse server provider (redirect_of addr) (base64url bytes) b) (fun _ _ => True).
Proof.
  intros Hs. unfold browse. cbn [cbind CliCommands.call]. split; [done|]. intros x.
  split; [exists port, addr, bytes, server, provider, b; split; [by apply signing_more|done]|].
  intros [e|]; [|by eapply await_track; do 2 apply signing_more]. cbn [cbind CliCommands.call].
  split; [exists port, addr, bytes, server, provider, b; split; [by do 2 apply signing_more|done]|].
  intros [w|]; [done|]. by eapply await_track; do 3 apply signing_more.
Qed.

Lemma atoi_int_lit z p : atoi (int_lit z) = Some p -> p = z.
Proof.
  assert (forall n, match itoa n with [] => False | c :: _ => is_digit c = true end) as Hd.
  { intros n. pose proof (itoa_digits n) as Hd. destruct (itoa n) as [|c t] eqn:E; [by apply itoa_nonempty in E|].
    cbn [forallb] in Hd. by apply andb_true_iff in Hd as [Hd _]. }
  unfold int_lit, atoi. destruct (z <? 0)%Z eqn:Hz; go_bool.
  - cbn [str app String.list_ascii_of_string]. rewrite bool_decide_true by done. specialize (Hd (Z.to_nat (- z))).
    rewrite itoa_digits, itoa_val. destruct (itoa (Z.to_nat (- z))); [done|]. case_match; [|done]. intros [= <-]. lia.
  - specialize (Hd (Z.to_nat z)). pose proof (itoa_digits (Z.to_nat z)) as Ha. pose proof (itoa_val (Z.to_nat z)) as Hv.
    destruct (itoa (Z.to_nat z)) as [|c t]; [done|].
    do 2 (rewrite bool_decide_false by (intros ->; discriminate Hd)). rewrite Ha, Hv. case_match; [|done]. intros [= <-]. lia.
Qed.
Lemma port_range port p : parsePort (int_lit port) = Ok p -> (0 <= port <= 65535)%Z.
Proof.
  unfold parsePort. destruct (atoi (int_lit port)) as [q|] eqn:E; [|done]. apply atoi_int_lit in E as ->.
  destruct (port <? 0)%Z eqn:H1; [done|]. destruct (65535 <? port)%Z eqn:H2; [done|]. intros _. go_bool. lia.
Qed.

Lemma login_track c provider port : c = Login provider port ->
  track c [] (login Parse base64url sha256 provider port) (fun _ _ => True).
Proof.
  intros Hc. unfold login. destruct (parsePort (int_lit port)) as [p|] eqn:Hp; [|done]. apply port_range in Hp.
  cbn [cbind CliCommands.call]. split; [done|]. intros [addr|e]; [|done]. apply track_bind. 
  eapply (track_mono _ _ _ (fun _ _ => True)); [by intros|]. unfold listening. cbn [cbind CliCommands.call]. split; [done|].
  intros [bytes|e]; [|done]. cbn [cbind CliCommands.call]. split; [done|]. intros [server|es]; [|done]. cbn [cbind CliCommands.call].
  assert (begun c ([] ++ [Ev (OListen port) (Ok addr)] ++ [Ev (ORand 32) (Ok bytes)] ++ [Ev OPublicClient (Ok server)]) server provider port addr bytes) as Hb.
  { split_and!; [done|lia|lia|by left|right; by left|right; right; by left]. }
  split; [by exists port, addr, bytes|]. intros [b|e]; [|done]. destruct (begin_incomplete b) eqn:Hi; [done|]. apply track_bind.
  eapply (track_mono _ _ _ (fun _ _ => True)); [by intros|]. apply (browse_track _ _ _ _ port).
  unfold begin_incomplete in Hi. rewrite !orb_false_iff, !bool_decide_eq_false in Hi. destruct Hi as ((((_ & Hst) & _) & _) & Hci).
  split_and!; [by apply begun_more|done|done|apply in_last].
Qed.

Lemma command_track c : track c [] (RunE Unmarshal Marshal MarshalJSON FormatTime Parse base64url sha256 c) (fun _ _ => True).
Proof.
  destruct c as [url|file b|provider port| | | |m path|m id|m]; cbn [RunE]; try by apply answer_track.
  - by split.
  - unfold bootstrapOIDC. destruct b; [|done]. case_bool_decide; [done|]. cbn [negb cbind CliCommands.call]. split; [done|].
    intros [raw|e]; [|done]. destruct (readBootstrapToken raw) as [token|e] eqn:Et; [|done]. apply track_bind_ok.
    eapply track_mono; [|apply read_track]. intros h1 [body|e] [Hg _]; [|done]. cbn [cbind CliCommands.call]. split; [done|].
    intros [u|es]; [|done]. cbn [cbind CliCommands.call]. split.
    + apply bootstrap_trimmed in Et as (Hl & Hne & ->). right. exists file, raw, body. split_and!; try done.
      * apply in_or_app. left. eapply grown_in; [exact Hg|]. by left.
      * apply in_or_app. right. by left.
      * rewrite calls_app, (grown_calls _ _ Hg). done.
    + intros [m|e]; [|done]. apply write_track. eexists _, _, _. apply in_or_app. right. by left.
  - by apply login_track.
  - apply track_bind_ok. eapply track_mono; [|apply current_track]. intros h' [s|e] [Hg Hs]; [|done].
    unfold token_json. destruct (FormatTime (ExpiresAt s)) as [t|] eqn:E; [|done]. split; [|done]. left. split; [done|]. by exists s, t.
  - unfold logout. cbn [cbind CliCommands.call]. split; [done|]. intros [[s|es] now]; [|done]. cbn [cbind]. split.
    + split; [done|]. exists s. split; [by left|done].
    + intros [e|]; [done|]. split; [|done]. split; [done|]. exists (ServerURL s), (RefreshToken s). right. by left.
  - apply track_bind_ok. eapply track_mono; [|apply read_track]. intros h' [body|e] [Hg Hb]; [|done]. apply answer_track.
    + destruct Hb as [raw Hb]. by exists raw, body.
    + by rewrite (grown_calls _ _ Hg).
Qed.

(** C34: Whatever the host and the servers answer, a command makes at most two requests, its own,
    each to the server of a session that it read or refreshed and with that session's access
    token; the refresh token goes only to that server, the bootstrap token only with the
    bootstrap request and to the configured server.  A sign-in posts its code and verifier only
    to the token endpoint it was told, which is https or on this host, after the callback with
    its own state, and gives the ID token of a good answer only to the server that began it.  Only
    what a refresh or a sign-in gave is stored, only the response, or by [auth token] an object
    of the session's server, access token and expiry, is printed, and the session is removed only
    after its server ended it. *)
Theorem command_confined c tr pre X (o : op X) x post :
  runs (RunE Unmarshal Marshal MarshalJSON FormatTime Parse base64url sha256 c) tr -> tr = pre ++ Ev o x :: post -> allowed c pre o.
Proof. intros Hr. apply (track_runs c [] _ _ _ (command_track c) Hr). Qed.

End Confined.

(** A command whose token is expired asks again after a refresh. *)
Definition asked_session : sessionFile := MkSession (str "https://h") (str "a") (str "r") 5.
Definition toy_trace : list (event (message := gostring)) :=
  [Ev OSession (Ok asked_session, (-40000000000)%Z);
   Ev (OCall (str "https://h") (str "Bearer a") GetCurrentUser) (Err (MkRpcError true [Some (str "token_expired")]));
   Ev OMkdir None; Ev OOpenLock None; Ev OFlock None; Ev OSession (Ok asked_session, (-40000000000)%Z);
   Ev (ORefreshToken (str "https://h") (str "r")) (Ok (str "a2", str "r2", Some 9%Z));
   Ev (OWriteSession (MkSession (str "https://h") (str "a2") (str "r2") 9)) []; Ev ORelease None;
   Ev (OCall (str "https://h") (str "Bearer a2") GetCurrentUser) (Ok (str "me")); Ev (OPrint (str "me" ++ [NL])) None].
Lemma toy_trace_runs : runs (RunE (fun _ => Some) Some (fun _ => []) (fun _ => None) (fun _ => None) (fun s => s) (fun s => s) Whoami) toy_trace.
Proof. do 12 constructor. Qed.

Lemma command_confined_witness :
  allowed (fun _ => Some) Some (fun _ => []) (fun _ => None) (fun _ => None) (fun s => s) (fun s => s) Whoami (take 9 toy_trace) (OCall (str "https://h") (str "Bearer a2") GetCurrentUser).
Proof. by eapply (command_confined (fun _ => Some) Some (fun _ => []) (fun _ => None) (fun _ => None) (fun s => s) (fun s => s) Whoami toy_trace); [exact toy_trace_runs|]. Defined.
End CliConfined.
